(* ===== verification/_CoqProject ===== *)
-Q . S2P
Prelude.v
Wire.v
Float32.v
Float64.v
FloatBounds.v
Format.v
StdMap.v
Result.v
Serializers.v
SpscQueue.v
FlashFrame.v
FlashParser.v
Sql.v
SystemState.v
ModbusIngest.v
SerialLink.v
OtaSession.v
OtaUpdate.v
OtaAgent.v
MqttPacket.v
ModbusPdu.v
ModbusClient.v
ModbusPollLoop.v
MqttClient.v
SimulatedModel.v
Telemetry.v
Historian.v
ProductStore.v
ModelNews.v
MirrorModel.v
AlertCenter.v
Dashboard.v
Auth.v
UserStore.v
Login.v
ProductsPresenter.v
Users.v
Json.v
TcpServer.v
OpcUaServer.v
FactoryNodes.v
OpcUaClient.v
McpServer.v
Config.v
ConfigValidator.v
ConfigManager.v
IntegrationServices.v
AuditLog.v
HttpBackend.v
Console.v
Preprocessor.v
Inspection.v
Logging.v
Avatar.v
