(* ===== verification/Prelude.v ===== *)
(** * Industrial HMI: a verification library (root file)

    A model of the C++ program under src/src: a plant supervision system that
    talks to equipment (Modbus, a serial line, OPC-UA, MQTT), keeps alarms,
    products, accounts and history, and serves operators and other programs.

    ** The program and how its parts interact

    A production model (the simulated plant, or the mirror of a second
    station) is written by the ingest side and read by everything else. Its
    operations notify subscribers: the dashboard presenter, which turns news
    into view models and alarms; the bridges, which publish it over MQTT and
    OPC-UA, record it and forward it to a second station. Operators act
    through presenters behind a role gate; remote programs through the TCP,
    HTTP, OPC-UA and MCP servers. Each backend runs on its own worker behind
    one interface, and the startup builds them from a validated configuration.

    ** The files, the code they model, and what they show

    A file names the sources it models in its own header; definitions keep
    the names of the code, and a class that the code calls through an
    interface is a type class here, with the promises of the interface as
    laws where clients rely on them.

    - Foundations. Prelude: outcomes of C++ expressions (a value, an
      exception, undefined behaviour), machine words, vectors, tactics. Wire:
      big-endian fields. Float32, Float64: binary32 and binary64; FloatBounds:
      the rounding error of their operations. Format: std::format, from_chars, stoi, stof. StdMap: std::map. Result:
      core/Result.h. Sql: SQLite connections whose statements end in any way.
      Json: the interface of the JSON library and two shared documents.
    - Wire formats. ModbusPdu, FlashFrame, FlashParser, MqttPacket (codecs of
      integration/): round trips, soundness and completeness of decoders,
      memory safety, independence of how a stream is cut. Serializers: JSON
      and CSV product files, written and read back.
    - Concurrency and protocols. SpscQueue (core/SpscQueue.h): the ring
      refines a bounded queue under every interleaving of its atomic accesses
      and has no data race. OtaSession, OtaUpdate, OtaAgent: a firmware update
      keeps to the protocol, ends, gives up on silence, and completes on every
      board that follows the protocol document, over a wire that loses and
      damages frames within the resend budget (but not the answer to COMMIT);
      the agent's threads included.
      ModbusClient, ModbusPollLoop, ModbusIngest: every register sample read
      is delivered in order or counted as dropped. SerialLink: the line with
      telemetry and flash frames mixed. MqttClient, Telemetry: the last
      subscriber of a topic receives exactly the publications on it, and a
      station drives another through a broker. OpcUaServer, FactoryNodes,
      OpcUaClient: the address space, but for the Enabled nodes, shows the
      model and changes it only through its command surface.
      TcpServer, HttpBackend, McpServer: the requests of other programs.
    - The plant. SystemState, SimulatedModel: the life cycle, and an
      invariant of the model under every operation. ModelNews: what any
      subscriber learns. MirrorModel: the second station mirrors the
      supply levels and pass rates of the first while nobody drops the first
      one's subscriptions.
    - Operators. AlertCenter: the alarm life cycle per key. Dashboard: alarms
      and views follow the model. Auth, UserStore, Login, Users: accounts,
      privileges, login. ProductsPresenter over ProductStore: accepted requests
      are answered once, by the list of products, outside a recipe save.
      Avatar: the badge of an account. AuditLog: the trail of who did what.
      Console: what is typed becomes events of the station, and a status line
      prints the plant as it is, as long as only lines of the plant are
      named.
    - Inspection of parts. Preprocessor: images become tensors within bounds,
      in single precision. Inspection: every inspection is answered once, with
      the best classes of the network's answer if that is finite.
    - Storage. Historian: samples are kept through the tiers, and a query of
      at most an hour returns what was notified.
      ProductStore: products and recipes. UserStore: accounts and migration.
    - Station. Config, ConfigValidator, ConfigManager, IntegrationServices:
      the configuration is read as written, a rejected edit never takes
      effect, a validated one whose numbers fit their fields reaches the
      backends unchanged. Logging: the
      rotated files hold the end of what was logged.

    Theorems whose name ends in [_refuted] record behaviour that a comment or
    the evident intent says is otherwise, each by a concrete run.

    ** Conventions

    State is a record per object, one definition per method, composed as the
    code composes them. A method that may throw returns [outcome] or an error
    value; an access the code does not check is [Undef] where it is out of
    range, and theorems show it is not reached or exhibit when it is.
    Integers are Z with the wrap of their width written out ([u8], [u16],
    [u32], [u64], [i32]); strings are their bytes. Calls to observers are
    recorded in logs, in order. A worker with a posted queue is a list of
    jobs and runs are lists of events; where two threads share state without
    a lock around the whole operation, the steps are interleaved.

    ** Bounds and fuel

    Loops that are not structural take fuel, and a theorem or lemma shows the
    fuel given suffices: one step per byte for the stream parsers and the
    readers of text, one per node for the traversal of a document, two more
    than the failing statements for the migration of a store. Some theorems
    bound the length of a run (700000000 events for the plant and what
    shows it, 2^31 - 1 ids for products) because the program's counters
    are C++ ints; the bound is in the statement.

    ** Parameters

    Code outside the repository is an argument of the definitions that use
    it, with what its documentation promises as laws and a concrete instance
    in the witnesses: SQLite (how statements end, LIKE, AVG, the order of
    rows that ORDER BY leaves open, CURRENT_TIMESTAMP), the JSON library, the
    HTTP library, OpenSSL, the open62541 server and client, the Asio
    transport, stb_image, the dynamic loader, the ONNX Runtime, [std::exp]
    and the order [std::partial_sort] leaves open, the password hasher, random draws, gettext catalogues, clocks
    and local time texts.

    ** Not modelled

    The GTK and Qt windows (src/gtk, src/qt) and main(): widget code, whose
    decisions are the presenters'. The exception is the change of language,
    which reaches into the model ([language_switch_deafens_refuted]). The log
    calls inside other operations, the exception dialogs, memory orders weaker than
    the interleaving of atomic accesses, the Windows branches, the generation
    of OPC-UA certificates, memory exhaustion, the Rust port of the ring,
    tests, scripts and assets. *)
From stdpp Require Export base tactics list gmap strings fin_maps sorting.
From Stdlib Require Export ZArith Lia.

Open Scope Z_scope.

(* ------------------------------------------------------------------ *)
(** ** Outcomes of C++ expressions *)

(** The exception classes the modelled code throws, or a library of its
    own class. The message text is a diagnostic and is not modelled. *)
Inductive exn :=
| runtime_error
| invalid_argument
| length_error
| out_of_range
| json_type_error
| library_exception.

#[export] Instance exn_eq_dec : EqDecision exn.
Proof. solve_decision. Defined.

(** What evaluating a C++ expression can do: return a value, throw, or be
    undefined behaviour (an out-of-range subscript, an iterator range whose
    end precedes its start). *)
Inductive outcome (A : Type) :=
| Ret (a : A)
| Throw (e : exn)
| Undef.
Arguments Ret {A} a.
Arguments Throw {A} e.
Arguments Undef {A}.

#[export] Instance outcome_eq_dec {A} `{EqDecision A} : EqDecision (outcome A).
Proof. solve_decision. Defined.

#[export] Instance outcome_ret : MRet outcome := fun A a => Ret a.
#[export] Instance outcome_bind : MBind outcome := fun A B f m =>
  match m with
  | Ret a => f a
  | Throw e => Throw e
  | Undef => Undef
  end.

(** [defined m]: evaluating [m] is not undefined behaviour. *)
Definition defined {A} (m : outcome A) : Prop :=
  match m with Undef => False | _ => True end.

Lemma bind_ret_inv {A B} (m : outcome A) (f : A -> outcome B) (b : B) :
  (m ≫= f) = Ret b -> exists a, m = Ret a /\ f a = Ret b.
Proof. destruct m; simpl; intros H; [eauto | discriminate | discriminate]. Qed.

Lemma defined_bind {A B} (m : outcome A) (f : A -> outcome B) :
  defined m -> (forall a, m = Ret a -> defined (f a)) -> defined (m ≫= f).
Proof. destruct m; simpl; auto. Qed.

(* ------------------------------------------------------------------ *)
(** ** Machine integers *)

(** Conversions to the unsigned types: reduction modulo 2^w. *)
Definition u8  (z : Z) : Z := z mod 256.
Definition u16 (z : Z) : Z := z mod 65536.
Definition u32 (z : Z) : Z := z mod 4294967296.
Definition u64 (z : Z) : Z := z mod 18446744073709551616.

Definition int_min : Z := -2147483648.
Definition int_max : Z := 2147483647.

Definition is_u8  (z : Z) : Prop := 0 <= z < 256.
Definition is_u16 (z : Z) : Prop := 0 <= z < 65536.
Definition is_u32 (z : Z) : Prop := 0 <= z < 4294967296.

Lemma u8_range z : is_u8 (u8 z).
Proof. apply Z.mod_pos_bound. lia. Qed.
Lemma u16_range z : is_u16 (u16 z).
Proof. apply Z.mod_pos_bound. lia. Qed.
Lemma u32_range z : is_u32 (u32 z).
Proof. apply Z.mod_pos_bound. lia. Qed.
Lemma u64_range z : 0 <= u64 z < 18446744073709551616.
Proof. apply Z.mod_pos_bound. lia. Qed.

Lemma u8_id z : is_u8 z -> u8 z = z.
Proof. apply Z.mod_small. Qed.
Lemma u16_id z : is_u16 z -> u16 z = z.
Proof. apply Z.mod_small. Qed.
Lemma u32_id z : is_u32 z -> u32 z = z.
Proof. apply Z.mod_small. Qed.
Lemma u64_id z : 0 <= z < 18446744073709551616 -> u64 z = z.
Proof. apply Z.mod_small. Qed.

Create HintDb hmi.
#[export] Hint Resolve u8_range u16_range u32_range : hmi.

(** [zdm]: linear arithmetic with Euclidean division. *)
Ltac zdm := Z.to_euclidean_division_equations; lia.

(** [usmall]: drop casts of values known to be in range. *)
Ltac usmall :=
  repeat first
    [ rewrite u8_id by (unfold is_u8 in *; lia)
    | rewrite u16_id by (unfold is_u16 in *; lia)
    | rewrite u32_id by (unfold is_u32 in *; lia)
    | rewrite u64_id by lia ].

(** [case_if]: split on every boolean or decidable test of the goal. *)
Ltac case_if := repeat (case_match || case_decide).

(* ------------------------------------------------------------------ *)
(** ** Bit fields *)

Lemma lor_shiftl_add (hi lo n : Z) :
  0 <= n -> 0 <= lo < 2 ^ n -> Z.lor (Z.shiftl hi n) lo = hi * 2 ^ n + lo.
Proof.
  intros Hn Hlo.
  assert (Hz : Z.land (Z.shiftl hi n) lo = 0).
  { apply Z.bits_inj'. intros i Hi. rewrite Z.land_spec, Z.bits_0.
    destruct (Z.lt_ge_cases i n).
    - rewrite Z.shiftl_spec_low by lia. reflexivity.
    - rewrite <- (Z.mod_small lo (2 ^ n)) by lia.
      rewrite (Z.mod_pow2_bits_high lo n i) by lia.
      apply andb_false_r. }
  rewrite <- Z.lxor_lor by exact Hz.
  rewrite <- Z.add_nocarry_lxor by exact Hz.
  rewrite Z.shiftl_mul_pow2 by lia. reflexivity.
Qed.

Lemma lor_shiftl_add' (hi lo n : Z) :
  0 <= n -> 0 <= lo < 2 ^ n -> Z.lor lo (Z.shiftl hi n) = lo + hi * 2 ^ n.
Proof. intros. rewrite Z.lor_comm, lor_shiftl_add by lia. lia. Qed.

Lemma land_low_mask (x n : Z) : 0 <= n -> Z.land x (2 ^ n - 1) = x mod 2 ^ n.
Proof.
  intros. rewrite <- Z.land_ones by lia. f_equal. rewrite Z.ones_equiv. lia.
Qed.

Lemma land_255 x : Z.land x 255 = x mod 256.
Proof. apply (land_low_mask x 8). lia. Qed.

Lemma land_127 x : Z.land x 127 = x mod 128.
Proof. apply (land_low_mask x 7). lia. Qed.

Lemma shiftr_8 x : Z.shiftr x 8 = x / 256.
Proof. rewrite Z.shiftr_div_pow2 by lia. reflexivity. Qed.

(** A 16-bit value is its two bytes. *)
Lemma split16 v : is_u16 v -> (v / 256) * 256 + v mod 256 = v.
Proof. unfold is_u16. zdm. Qed.

Lemma hi_byte_range v : is_u16 v -> is_u8 (v / 256).
Proof. unfold is_u16, is_u8. zdm. Qed.

Lemma lo_byte_range v : is_u8 (v mod 256).
Proof. apply (Z.mod_pos_bound v 256). lia. Qed.
#[export] Hint Resolve hi_byte_range lo_byte_range : hmi.

(* ------------------------------------------------------------------ *)
(** ** Byte vectors *)

(** A vector of [std::byte] / [std::uint8_t]: integers in [0, 255]. *)
Definition bytes_ok (l : list Z) : Prop := Forall is_u8 l.

(** [bytes_lit]: a literal byte list is well formed. *)
Ltac bytes_lit :=
  unfold bytes_ok;
  repeat (apply Forall_cons; split; [unfold is_u8; lia|]);
  apply Forall_nil; exact I.

(** [bytes_split H]: the bytes of a literal list named in [H]. *)
Ltac bytes_split H := unfold bytes_ok in H; repeat (apply Forall_cons in H as [? H]).

(** [v[i]] on a vector or span: undefined out of range. *)
Definition vec_get {A} (l : list A) (i : nat) : outcome A :=
  match l !! i with
  | Some b => Ret b
  | None => Undef
  end.

(** [l[off .. off+len)]. *)
Definition slice {A} (off len : nat) (l : list A) : list A := take len (drop off l).

Lemma vec_get_lt {A} (l : list A) i : (i < length l)%nat -> exists b, vec_get l i = Ret b /\ l !! i = Some b.
Proof.
  intros H. destruct (lookup_lt_is_Some_2 l i H) as [b Hb].
  exists b. unfold vec_get. rewrite Hb. auto.
Qed.

Lemma vec_get_defined {A} (l : list A) i : (i < length l)%nat -> defined (vec_get l i).
Proof. intros H. destruct (vec_get_lt l i H) as (b & -> & _). exact I. Qed.

Lemma vec_get_some {A} (l : list A) i b : l !! i = Some b -> vec_get l i = Ret b.
Proof. unfold vec_get. intros ->. reflexivity. Qed.

Lemma vec_get_ret {A} (l : list A) i b : vec_get l i = Ret b -> l !! i = Some b.
Proof. unfold vec_get. destruct (l !! i); congruence. Qed.
#[export] Hint Resolve vec_get_defined vec_get_some vec_get_ret : hmi.

Lemma bytes_ok_lookup l i b : bytes_ok l -> l !! i = Some b -> is_u8 b.
Proof. intros H Hi. eapply Forall_lookup_1; eauto. Qed.

Lemma bytes_ok_app l1 l2 : bytes_ok (l1 ++ l2) <-> bytes_ok l1 /\ bytes_ok l2.
Proof. apply Forall_app. Qed.

Lemma bytes_ok_slice off len l : bytes_ok l -> bytes_ok (slice off len l).
Proof. intros. apply Forall_take, Forall_drop. assumption. Qed.

Lemma length_slice {A} off len (l : list A) :
  (off + len <= length l)%nat -> length (slice off len l) = len.
Proof. intros. unfold slice. rewrite length_take, length_drop. lia. Qed.

Lemma slice_app_skip {A} (l1 l2 : list A) len :
  slice (length l1) len (l1 ++ l2) = take len l2.
Proof. unfold slice. rewrite drop_app_length. reflexivity. Qed.

Lemma lookup_slice {A} off len (l : list A) i :
  (i < len)%nat -> slice off len l !! i = l !! (off + i)%nat.
Proof. intros. unfold slice. rewrite lookup_take_lt, lookup_drop by lia. reflexivity. Qed.

(** [v[i] = x] on an array or vector: undefined out of range. *)
Definition vec_set {A} (l : list A) (i : nat) (x : A) : outcome (list A) :=
  if decide (i < length l)%nat then Ret (<[i:=x]> l) else Undef.

Lemma vec_set_ret {A} (l : list A) i x :
  (i < length l)%nat -> vec_set l i x = Ret (<[i:=x]> l).
Proof. intros. unfold vec_set. rewrite decide_True by assumption. reflexivity. Qed.

(* ------------------------------------------------------------------ *)
(** ** C strings *)

(** What a C string of it is: the text ends at the first NUL. *)
Fixpoint c_str (s : string) : string :=
  match s with
  | EmptyString => EmptyString
  | String c s => if bool_decide (c = Ascii.zero) then EmptyString else String c (c_str s)
  end.

Lemma c_str_idem s : c_str (c_str s) = c_str s.
Proof. induction s as [|c s IH]; [reflexivity|]. cbn. case_bool_decide as E; [reflexivity|]. cbn. rewrite bool_decide_eq_false_2 by exact E. rewrite IH. reflexivity. Qed.

(* ------------------------------------------------------------------ *)
(** ** Folds that settle *)

(** A view of a state that a sequence of inputs moves, on the states that
    satisfy an invariant: every input either leaves it alone or sets it to
    [x]. It ends at [x] when it started there or some input set it. *)
Lemma fold_settles {S D X} (step : S -> D -> S) (ok : S -> Prop) (view : S -> X) (sets : D -> Prop)
    `{!forall d, Decision (sets d)} (x : X) :
  forall (l : list D) (s : S), ok s ->
  (forall s d, d ∈ l -> ok s -> ok (step s d)) ->
  (forall s d, d ∈ l -> ok s -> sets d -> view (step s d) = x) ->
  (forall s d, d ∈ l -> ok s -> ~ sets d -> view (step s d) = view s) ->
  view s = x \/ Exists sets l ->
  view (fold_left step l s) = x.
Proof.
  induction l as [|d l IH]; intros s Hok Hpres Hset Hkeep Hs; cbn.
  - destruct Hs as [Hs|Hs]; [exact Hs|inversion Hs].
  - apply IH.
    + apply Hpres; [left|exact Hok].
    + intros s' d' Hd'. apply Hpres. right. exact Hd'.
    + intros s' d' Hd'. apply Hset. right. exact Hd'.
    + intros s' d' Hd'. apply Hkeep. right. exact Hd'.
    + destruct (decide (sets d)) as [Hd|Hd]; [left; apply Hset; [left|exact Hok|exact Hd]|].
      destruct Hs as [Hs|Hs]; [left; rewrite Hkeep; [exact Hs|left|exact Hok|exact Hd]|].
      right. inversion Hs; subst; [contradiction|assumption].
Qed.

Lemma fold_inv {S D} (step : S -> D -> S) (ok : S -> Prop) (l : list D) : forall s,
  ok s -> (forall s d, d ∈ l -> ok s -> ok (step s d)) -> ok (fold_left step l s).
Proof.
  induction l as [|d l IH]; intros s Hs Hstep; cbn; [exact Hs|].
  apply IH; [apply Hstep; [left|exact Hs]|]. intros s' d' Hd'. apply Hstep. right. exact Hd'.
Qed.
