(* ===== verification/Wire.v ===== *)
(** * Byte order

    The specification encoders of multi-byte fields and the lemmas that
    relate them to the shift-and-mask code of the codecs. Shared by the
    Modbus, MQTT and flash-protocol files. *)
From S2P Require Import Prelude.

(** Specification: a field as its bytes. *)
Definition be16 (v : Z) : list Z := [v / 256; v mod 256].
Definition le16 (v : Z) : list Z := [v mod 256; v / 256].
Definition le32 (v : Z) : list Z :=
  [v mod 256; (v / 256) mod 256; (v / 65536) mod 256; v / 16777216].

(** Specification: the field the bytes spell. *)
Definition of_be16 (hi lo : Z) : Z := hi * 256 + lo.
Definition of_le32 (a b c d : Z) : Z := a + b * 256 + c * 65536 + d * 16777216.

Lemma be16_ok v : is_u16 v -> bytes_ok (be16 v).
Proof. intros H. repeat constructor; try apply hi_byte_range; auto with hmi; apply lo_byte_range. Qed.
Lemma le16_ok v : is_u16 v -> bytes_ok (le16 v).
Proof. intros H. repeat constructor; try apply hi_byte_range; auto with hmi; apply lo_byte_range. Qed.
Lemma le32_ok v : is_u32 v -> bytes_ok (le32 v).
Proof.
  unfold is_u32. intros H. unfold le32.
  repeat (apply Forall_cons; split); try apply Forall_nil; unfold is_u8; auto; zdm.
Qed.

Lemma of_be16_range hi lo : is_u8 hi -> is_u8 lo -> is_u16 (of_be16 hi lo).
Proof. unfold is_u8, is_u16, of_be16. lia. Qed.

Lemma be16_of_be16 hi lo : is_u8 hi -> is_u8 lo -> be16 (of_be16 hi lo) = [hi; lo].
Proof.
  unfold is_u8, be16, of_be16. intros. rewrite Z.div_add_l, Z.div_small by lia.
  replace ((hi * 256 + lo) mod 256) with lo by (rewrite Z.add_comm, Z.mod_add, Z.mod_small; lia).
  rewrite Z.add_0_r. reflexivity.
Qed.

Lemma of_be16_be16 v : is_u16 v -> of_be16 (v / 256) (v mod 256) = v.
Proof. unfold is_u16, of_be16. intros. zdm. Qed.

Lemma of_be16_inj a b c d :
  is_u8 a -> is_u8 b -> is_u8 c -> is_u8 d ->
  of_be16 a b = of_be16 c d -> a = c /\ b = d.
Proof. unfold is_u8, of_be16. lia. Qed.

(** The shift-or idiom [(hi << 8) | lo]. *)
Lemma shift_or_16 hi lo :
  is_u8 hi -> is_u8 lo -> u16 (Z.lor (Z.shiftl hi 8) lo) = of_be16 hi lo.
Proof.
  unfold is_u8. intros. rewrite lor_shiftl_add by lia.
  change (2 ^ 8) with 256. fold (of_be16 hi lo). apply u16_id.
  unfold is_u16, of_be16. lia.
Qed.

Lemma shift_or_16' hi lo :
  is_u8 hi -> is_u8 lo -> u16 (Z.lor lo (Z.shiftl hi 8)) = of_be16 hi lo.
Proof. intros. rewrite Z.lor_comm. apply shift_or_16; assumption. Qed.

(** The mask-and-shift idiom for the two bytes of a field. *)
Lemma hi_byte_idiom v : is_u16 v -> Z.land (Z.shiftr v 8) 255 = v / 256.
Proof.
  intros H. rewrite land_255, shiftr_8. apply Z.mod_small. apply hi_byte_range. exact H.
Qed.
Lemma lo_byte_idiom v : Z.land v 255 = v mod 256.
Proof. apply land_255. Qed.

Lemma of_le32_le32 v :
  is_u32 v ->
  of_le32 (v mod 256) ((v / 256) mod 256) ((v / 65536) mod 256) (v / 16777216) = v.
Proof. unfold is_u32, of_le32. intros. zdm. Qed.

Lemma of_le32_range a b c d :
  is_u8 a -> is_u8 b -> is_u8 c -> is_u8 d -> is_u32 (of_le32 a b c d).
Proof. unfold is_u8, is_u32, of_le32. lia. Qed.

#[export] Hint Resolve be16_ok le16_ok le32_ok of_be16_range of_le32_range : hmi.
