(* ===== verification/Float32.v ===== *)
(** * Single-precision arithmetic

    The C++ [float] operations the program uses, as IEEE 754 binary32 over
    the Standard Library's specification of floating point ([spec_float],
    precision 24, emax 128, round to nearest even), with the comparisons as
    the operators behave on NaN, the conversions from and to integers and
    [std::clamp]. *)
From Stdlib Require Import SpecFloat.
From S2P Require Import Prelude.

Definition float32 : Type := spec_float.

#[export] Instance float32_eq_dec : EqDecision float32.
Proof. solve_decision. Defined.

Definition fprec : Z := 24.
Definition femax : Z := 128.

(** [static_cast<float>(z)]. *)
Definition f32_of_Z (z : Z) : float32 := binary_normalize fprec femax z 0 false.
Definition f32_mul (a b : float32) : float32 := SFmul fprec femax a b.
Definition f32_add (a b : float32) : float32 := SFadd fprec femax a b.
Definition f32_sub (a b : float32) : float32 := SFsub fprec femax a b.
Definition f32_div (a b : float32) : float32 := SFdiv fprec femax a b.
Definition f32_eqb (a b : float32) : bool := SFeqb a b.
Definition f32_ltb (a b : float32) : bool := SFltb a b.
Definition f32_leb (a b : float32) : bool := SFleb a b.

(** The value rounded toward zero; [None] for NaN and the infinities. *)
Definition f32_trunc (a : float32) : option Z :=
  match a with
  | S754_zero _ => Some 0
  | S754_finite s m e =>
      let mag := if 0 <=? e then Z.pos m * 2 ^ e else Z.pos m / 2 ^ (- e) in
      Some (if s then - mag else mag)
  | S754_nan | S754_infinity _ => None
  end.

(** [static_cast<int>(a)]: undefined when the truncated value is not an
    [int]. *)
Definition f32_to_int (a : float32) : outcome Z :=
  match f32_trunc a with
  | Some z => if (int_min <=? z) && (z <=? int_max) then Ret z else Undef
  | None => Undef
  end.

(** [std::clamp(v, lo, hi)]: [v] itself when it is NaN. *)
Definition f32_clamp (v lo hi : float32) : float32 :=
  if f32_ltb v lo then lo else if f32_ltb hi v then hi else v.

(** A decimal literal [m * 10^-k] written in the source, as the compiler
    rounds it. *)
Definition f32_lit (m k : Z) : float32 := f32_div (f32_of_Z m) (f32_of_Z (10 ^ k)).

Definition f32_nan : float32 := S754_nan.

Definition is_nan (a : float32) : bool := match a with S754_nan => true | _ => false end.

Example f32_85_percent : f32_to_int (f32_mul (f32_of_Z 850) (f32_lit 1 1)) = Ret 85.
Proof. vm_compute. reflexivity. Qed.
Example f32_of_85 : f32_of_Z 85 = S754_finite false 11141120 (-17).
Proof. vm_compute. reflexivity. Qed.

(* ------------------------------------------------------------------ *)
(** ** Lemmas *)

Lemma f32_compare_refl a : is_nan a = false -> SFcompare a a = Some Eq.
Proof.
  destruct a as [s|s| |s m e]; try discriminate; intros _; cbn; destruct s; auto;
    rewrite Z.compare_refl, Pos.compare_cont_refl; reflexivity.
Qed.

Lemma f32_eqb_refl a : is_nan a = false -> f32_eqb a a = true.
Proof. intros H. unfold f32_eqb, SFeqb. rewrite f32_compare_refl by exact H. reflexivity. Qed.

Lemma f32_ltb_irrefl a : f32_ltb a a = false.
Proof.
  unfold f32_ltb, SFltb. destruct (is_nan a) eqn:E; [destruct a; try discriminate; reflexivity|].
  rewrite f32_compare_refl by exact E. reflexivity.
Qed.

(** Clamping to an interval, on everything but NaN, lands in the interval. *)
Lemma f32_clamp_lo v lo hi : f32_ltb v lo = true -> f32_clamp v lo hi = lo.
Proof. unfold f32_clamp. intros ->. reflexivity. Qed.
Lemma f32_clamp_hi v lo hi :
  f32_ltb v lo = false -> f32_ltb hi v = true -> f32_clamp v lo hi = hi.
Proof. unfold f32_clamp. intros -> ->. reflexivity. Qed.
Lemma f32_clamp_id v lo hi :
  f32_ltb v lo = false -> f32_ltb hi v = false -> f32_clamp v lo hi = v.
Proof. unfold f32_clamp. intros -> ->. reflexivity. Qed.
Lemma f32_clamp_nan v lo hi : is_nan v = true -> f32_clamp v lo hi = v.
Proof. destruct v; try discriminate. intros _. unfold f32_clamp, f32_ltb, SFltb. cbn.
  destruct hi; reflexivity. Qed.

(** A clamped value is never below [lo] nor above [hi] (NaN compares false). *)
Lemma f32_clamp_range v lo hi :
  f32_ltb hi lo = false -> f32_ltb (f32_clamp v lo hi) lo = false /\ f32_ltb hi (f32_clamp v lo hi) = false.
Proof.
  intros H. unfold f32_clamp. destruct (f32_ltb v lo) eqn:E1; [auto using f32_ltb_irrefl|].
  destruct (f32_ltb hi v) eqn:E2; auto using f32_ltb_irrefl.
Qed.
