(* ===== verification/Float64.v ===== *)
(** * Double-precision arithmetic

    The C++ [double] operations the program uses, as IEEE 754 binary64
    (precision 53, emax 1024, round to nearest even), and the conversions
    between [float] and [double]. *)
From Stdlib Require Import SpecFloat.
From S2P Require Import Prelude Float32.

Definition float64 : Type := spec_float.

Definition dprec : Z := 53.
Definition demax : Z := 1024.

(** [static_cast<double>(z)]. *)
Definition f64_of_Z (z : Z) : float64 := binary_normalize dprec demax z 0 false.
Definition f64_mul (a b : float64) : float64 := SFmul dprec demax a b.
Definition f64_add (a b : float64) : float64 := SFadd dprec demax a b.
Definition f64_sub (a b : float64) : float64 := SFsub dprec demax a b.
Definition f64_div (a b : float64) : float64 := SFdiv dprec demax a b.
Definition f64_eqb (a b : float64) : bool := SFeqb a b.
Definition f64_ltb (a b : float64) : bool := SFltb a b.
Definition f64_leb (a b : float64) : bool := SFleb a b.

(** [std::min(a, b)]. *)
Definition f64_min (a b : float64) : float64 := if f64_ltb b a then b else a.

Definition round_to (prec emax : Z) (a : spec_float) : spec_float :=
  match a with
  | S754_finite s m e => binary_normalize prec emax (if s then Zneg m else Zpos m) e s
  | _ => a
  end.

(** [static_cast<float>(d)] and [static_cast<double>(f)]. *)
Definition f32_of_f64 (a : float64) : float32 := round_to fprec femax a.
Definition f64_of_f32 (a : float32) : float64 := round_to dprec demax a.

(** A decimal literal [m * 10^-k]. *)
Definition f64_lit (m k : Z) : float64 := f64_div (f64_of_Z m) (f64_of_Z (10 ^ k)).

Example f64_to_float : f32_of_f64 (f64_lit 981 1) = f32_lit 981 1.
Proof. vm_compute. reflexivity. Qed.
Example f64_from_float : f64_of_f32 (f32_of_Z 85) = f64_of_Z 85.
Proof. vm_compute. reflexivity. Qed.

(* ------------------------------------------------------------------ *)
(** ** Lemmas *)

Lemma digits_shift m d : digits2_pos (Pos.iter xO m d) = (digits2_pos m + d)%positive.
Proof.
  induction d as [|d IH] using Pos.peano_ind; [rewrite Pos.add_1_r; reflexivity|].
  rewrite Pos.iter_succ, Pos.add_succ_r. cbn [digits2_pos]. rewrite IH. reflexivity.
Qed.

Lemma iter_pos_iter {A} (f : A -> A) (n : positive) (x : A) : SpecFloat.iter_pos f n x = Pos.iter f x n.
Proof.
  revert x. induction n as [n IH|n IH|]; intros x; cbn; [|rewrite !IH; reflexivity|reflexivity].
  rewrite !IH. rewrite <- !Pos.iter_swap. reflexivity.
Qed.

Lemma shr_exact m d : SpecFloat.iter_pos shr_1 d (Build_shr_record (Zpos (Pos.iter xO m d)) false false) = Build_shr_record (Zpos m) false false.
Proof.
  rewrite iter_pos_iter. induction d as [|d IH] using Pos.peano_ind; [reflexivity|].
  rewrite Pos.iter_succ_r. rewrite Pos.iter_succ. cbn [shr_1 orb]. exact IH.
Qed.

(** Rounding what already fits changes nothing. *)
Lemma round_fits prec emax s m e :
  fexp prec emax (Zpos (digits2_pos m) + e) = e -> e <= emax - prec ->
  binary_round_aux prec emax s (Zpos m) e loc_Exact = S754_finite s m e.
Proof.
  intros Hf He. unfold binary_round_aux, shr_fexp. cbn [Zdigits2 shr_record_of_loc]. rewrite Hf, Z.sub_diag. cbn [shr shr_m loc_of_shr_record round_nearest_even].
  cbn [Zdigits2 shr_record_of_loc]. rewrite Hf, Z.sub_diag. cbn [shr shr_m]. replace (e <=? emax - prec) with true by lia. reflexivity.
Qed.

(** A [float] survives being kept as a [double]. *)
Lemma f32_through_double r : valid_binary fprec femax r = true -> f32_of_f64 (f64_of_f32 r) = r.
Proof.
  destruct r as [s|s| |s m e]; try reflexivity. cbn [valid_binary]. unfold bounded, canonical_mantissa. rewrite andb_true_iff. intros [Hc He].
  apply Z.eqb_eq in Hc. apply Z.leb_le in He. set (d := digits2_pos m) in *.
  assert (Hd : Zpos d <= 24 /\ -149 <= e /\ e <= 104).
  { unfold fexp, emin, fprec, femax in *. lia. }
  set (k := Z.to_pos (53 - Zpos d)). assert (Hk : Zpos k = 53 - Zpos d) by (unfold k; rewrite Z2Pos.id; lia).
  assert (W : f64_of_f32 (S754_finite s m e) = S754_finite s (Pos.iter xO m k) (e - Zpos k)).
  { unfold f64_of_f32, round_to.
    transitivity (binary_round dprec demax s m e); [destruct s; reflexivity|]. unfold binary_round, shl_align. fold d.
    replace (fexp dprec demax (Zpos d + e) - e) with (Zneg k) by (unfold fexp, emin, dprec, demax; lia).
    replace (fexp dprec demax (Zpos d + e)) with (e - Zpos k) by (unfold fexp, emin, dprec, demax; lia).
    apply round_fits; rewrite ?digits_shift; fold d; unfold fexp, emin, dprec, demax; lia. }
  rewrite W. unfold f32_of_f64, round_to.
  transitivity (binary_round fprec femax s (Pos.iter xO m k) (e - Zpos k)); [destruct s; reflexivity|]. unfold binary_round, shl_align.
  rewrite digits_shift. fold d. replace (Zpos (d + k) + (e - Zpos k)) with (Zpos d + e) by lia. rewrite Hc.
  replace (e - (e - Zpos k)) with (Zpos k) by lia.
  unfold binary_round_aux, shr_fexp. cbn [Zdigits2 shr_record_of_loc]. rewrite digits_shift. fold d.
  replace (Zpos (d + k) + (e - Zpos k)) with (Zpos d + e) by lia. rewrite Hc. replace (e - (e - Zpos k)) with (Zpos k) by lia.
  cbn [shr]. rewrite shr_exact. cbn [shr_m loc_of_shr_record round_nearest_even]. cbn [Zdigits2 shr_record_of_loc]. fold d.
  replace (e - Zpos k + Zpos k) with e by lia. rewrite Hc, Z.sub_diag. cbn [shr shr_m]. replace (e <=? femax - fprec) with true by lia. reflexivity.
Qed.
