(* ===== verification/FloatBounds.v ===== *)
(** * Rounding error of single precision

    The value of a finite [float] as an integer number of units of 2^-149
    (the smallest subnormal), and for each operation a bound on the
    difference between its result and the exact one: one part in 2^23 (2^22
    for a quotient) and one unit. Loops that compute coordinates and sums
    stay finite, and conversions to [int] in range, by these bounds. *)
From Stdlib Require Import SpecFloat.
From S2P Require Import Prelude Float32 Float64.

(** The value, in units of 2^-149. *)
Definition f32_units (a : float32) : Z :=
  match a with
  | S754_finite s m e => (if s then -1 else 1) * (Z.pos m * 2 ^ (e + 149))
  | _ => 0
  end.

(** Finite, with the mantissa and exponent of the format. *)
Definition f32_finite (a : float32) : Prop :=
  match a with
  | S754_zero _ => True
  | S754_finite _ m e => Z.pos m < 2 ^ 24 /\ -149 <= e <= 104
  | _ => False
  end.

(* ------------------------------------------------------------------ *)
(** ** Shifting and rounding a mantissa *)

Lemma digits_bounds m : 0 < m -> 2 ^ (Zdigits2 m - 1) <= m < 2 ^ Zdigits2 m.
Proof.
  destruct m as [|p|p]; [lia| |lia]. intros _. cbn [Zdigits2].
  induction p as [p IH|p IH|]; cbn [digits2_pos]; [| |cbn; lia];
    rewrite Pos2Z.inj_succ, Z.sub_succ_l, !Z.pow_succ_r by lia; lia.
Qed.

Lemma digits_pos m : 0 < m -> 1 <= Zdigits2 m.
Proof. destruct m; cbn; lia. Qed.

Lemma shr_step m r s : 0 <= m -> shr_m (shr_1 (Build_shr_record m r s)) = m / 2.
Proof.
  destruct m as [|p|p]; [reflexivity| |lia]. intros _. destruct p as [p|p|]; cbn [shr_1 shr_m]; [| |reflexivity].
  - rewrite Pos2Z.inj_xI. apply Z.div_unique with 1; lia.
  - rewrite Pos2Z.inj_xO. apply Z.div_unique with 0; lia.
Qed.

Lemma shr_div n : forall rec, 0 <= shr_m rec -> shr_m (SpecFloat.iter_pos shr_1 n rec) = shr_m rec / 2 ^ Z.pos n.
Proof.
  induction n as [|n IH] using Pos.peano_ind; intros [m r s] Hm; rewrite iter_pos_iter.
  - apply shr_step, Hm.
  - rewrite Pos.iter_succ_r, <- iter_pos_iter, IH by (rewrite shr_step by exact Hm; apply Z.div_pos; [exact Hm|lia]).
    rewrite shr_step by exact Hm. rewrite Z.div_div by lia. cbn [shr_m]. f_equal.
    rewrite Pos2Z.inj_succ, Z.pow_succ_r by lia. reflexivity.
Qed.

Lemma record_of_loc m l : shr_m (shr_record_of_loc m l) = m /\ loc_of_shr_record (shr_record_of_loc m l) = l.
Proof. destruct l as [|[]]; split; reflexivity. Qed.

Lemma round_even_bounds m l : m <= round_nearest_even m l <= m + 1.
Proof. destruct l as [|[]]; cbn; try lia. destruct (Z.even m); lia. Qed.

(** How far a mantissa at exponent [ex] is shifted. *)
Definition f32_shift (mx ex : Z) : Z := Z.max 0 (fexp fprec femax (Zdigits2 mx + ex) - ex).

Lemma shr_fexp_spec mx ex lx : 0 <= mx ->
  let n := f32_shift mx ex in
  shr_m (fst (shr_fexp fprec femax mx ex lx)) = mx / 2 ^ n /\ snd (shr_fexp fprec femax mx ex lx) = ex + n /\
  (n = 0 -> loc_of_shr_record (fst (shr_fexp fprec femax mx ex lx)) = lx).
Proof.
  intros Hm. unfold shr_fexp, f32_shift. destruct (record_of_loc mx lx) as [R1 R2].
  destruct (fexp fprec femax (Zdigits2 mx + ex) - ex) as [|p|p] eqn:E; cbn [shr fst snd].
  - rewrite R1. change (2 ^ Z.max 0 0) with 1. rewrite Z.div_1_r. repeat split; [lia|tauto].
  - rewrite shr_div by (rewrite R1; exact Hm). rewrite R1. replace (Z.max 0 (Z.pos p)) with (Z.pos p) by lia. repeat split; lia.
  - rewrite R1. replace (Z.max 0 (Z.neg p)) with 0 by lia. change (2 ^ 0) with 1. rewrite Z.div_1_r. repeat split; [lia|tauto].
Qed.

Lemma fexp_max e : fexp fprec femax e = Z.max (e - 24) (-149).
Proof. reflexivity. Qed.

Lemma shift_nonneg mx ex : 0 <= f32_shift mx ex.
Proof. unfold f32_shift. lia. Qed.

(** The shifted mantissa has at most 24 bits, and exactly 24 unless nothing
    is shifted or the exponent is the least one. *)
Lemma shift_fits mx ex : 0 <= mx ->
  let n := f32_shift mx ex in
  mx / 2 ^ n < 2 ^ 24 /\ -149 <= ex + n /\ (n = 0 \/ ex + n = -149 \/ 2 ^ 23 <= mx / 2 ^ n).
Proof.
  intros Hm. cbn zeta. pose proof (shift_nonneg mx ex) as Hn. unfold f32_shift in *. rewrite fexp_max in *.
  set (d := Zdigits2 mx) in *. set (n := Z.max 0 (Z.max (d + ex - 24) (-149) - ex)) in *.
  destruct (decide (mx = 0)) as [->|Hz].
  { change d with 0 in n. rewrite Z.div_0_l by lia. lia. }
  pose proof (digits_bounds mx ltac:(lia)) as [D1 D2]. pose proof (digits_pos mx ltac:(lia)) as D0. fold d in D0, D1, D2.
  assert (d <= 24 + n) by lia. split; [|split; [lia|]].
  - apply Z.div_lt_upper_bound; [lia|]. rewrite <- Z.pow_add_r by lia.
    apply Z.lt_le_trans with (2 ^ d); [exact D2|]. apply Z.pow_le_mono_r; lia.
  - destruct (decide (n = 0)); [left; assumption|]. destruct (decide (ex + n = -149)); [right; left; assumption|]. right. right.
    assert (d = n + 24) by lia. apply Z.div_le_lower_bound; [lia|]. rewrite <- Z.pow_add_r by lia.
    replace (n + 23) with (d - 1) by lia. exact D1.
Qed.

(** What rounding a mantissa gives: a mantissa of at most 24 bits, off by
    one unit of its last place at most, and not below a power of two that
    the exact one reaches. *)
Record rounded (mx ex : Z) (lx : location) (m n : Z) : Prop := {
  rd_shift : 0 <= n;
  rd_mant : 0 <= m < 2 ^ 24;
  rd_exp : -149 <= ex + n;
  rd_error : 2 ^ 23 * Z.abs (m * 2 ^ n - mx) <= mx \/ (ex + n = -149 /\ Z.abs (m * 2 ^ n - mx) <= 2 ^ n);
  rd_large : n = 0 \/ ex + n = -149 \/ 2 ^ 23 <= m;
  rd_floor : forall j, 0 <= j -> -149 <= ex + j -> 2 ^ j <= mx -> 2 ^ j <= m * 2 ^ n;
  rd_ceiling : forall j, 0 <= j -> -149 <= ex + j -> mx < 2 ^ j \/ (mx = 2 ^ j /\ lx = loc_Exact) -> m * 2 ^ n <= 2 ^ j }.

(** An inexact mantissa is known to 24 bits, or to the last place of the
    format. *)
Definition precise (mx ex : Z) (lx : location) : Prop := lx = loc_Exact \/ ex <= fexp fprec femax (Zdigits2 mx + ex).

(** One rounding of the shifted mantissa, before the carry is looked at. *)
Lemma round_once mx ex lx : 0 <= mx -> precise mx ex lx ->
  let n := f32_shift mx ex in
  let m := round_nearest_even (mx / 2 ^ n) (loc_of_shr_record (fst (shr_fexp fprec femax mx ex lx))) in
  0 <= m <= 2 ^ 24 /\
  (2 ^ 23 * Z.abs (m * 2 ^ n - mx) <= mx \/ (ex + n = -149 /\ Z.abs (m * 2 ^ n - mx) <= 2 ^ n)) /\
  (n = 0 \/ ex + n = -149 \/ 2 ^ 23 <= m) /\ mx / 2 ^ n <= m <= mx / 2 ^ n + 1.
Proof.
  intros Hm Hp. cbn zeta. destruct (shr_fexp_spec mx ex lx Hm) as (_ & _ & Hloc). destruct (shift_fits mx ex Hm) as (F1 & F2 & F3).
  pose proof (shift_nonneg mx ex) as Hn. set (n := f32_shift mx ex) in *. set (l := loc_of_shr_record _) in *.
  pose proof (round_even_bounds (mx / 2 ^ n) l) as Hr. set (m := round_nearest_even (mx / 2 ^ n) l) in *.
  assert (P : 0 < 2 ^ n) by (apply Z.pow_pos_nonneg; lia). pose proof (Z.div_mod mx (2 ^ n) ltac:(lia)) as DM.
  pose proof (Z.mod_pos_bound mx (2 ^ n) P) as MB. assert (0 <= mx / 2 ^ n) by (apply Z.div_pos; lia).
  set (q := mx / 2 ^ n) in *. set (r := mx mod 2 ^ n) in *.
  assert (Habs : Z.abs (m * 2 ^ n - mx) <= 2 ^ n) by (assert (m = q \/ m = q + 1) as [E|E] by lia; rewrite E; nia).
  split; [lia|]. split; [|split; [lia|exact Hr]].
  destruct F3 as [F3|[F3|F3]]; [|right; split; assumption|left; nia].
  destruct Hp as [Hp|Hp].
  - left. assert (Hm' : m = q) by (unfold m; rewrite (Hloc F3), Hp; reflexivity). rewrite F3 in *. change (2 ^ 0) with 1 in *.
    rewrite Hm'. replace (q * 1 - mx) with 0 by lia. lia.
  - destruct (decide (ex + n = -149)) as [E|E]; [right; split; assumption|]. left.
    assert (2 ^ 23 <= mx); [|rewrite F3 in *; change (2 ^ 0) with 1 in *; lia].
    rewrite fexp_max in Hp. assert (24 <= Zdigits2 mx) by lia.
    destruct (decide (mx = 0)) as [->|]; [cbn in *; lia|]. pose proof (digits_bounds mx ltac:(lia)) as [D1 _].
    apply Z.le_trans with (2 ^ (Zdigits2 mx - 1)); [apply Z.pow_le_mono_r; lia|exact D1].
Qed.

(** A power of two that the exact mantissa does not pass, or reaches. *)
Lemma round_powers mx ex lx m n : 0 <= mx -> 0 <= n -> mx / 2 ^ n <= m <= mx / 2 ^ n + 1 ->
  (n = 0 \/ ex + n = -149 \/ 2 ^ 23 <= mx / 2 ^ n) ->
  (forall j, n <= j -> mx = 2 ^ j -> lx = loc_Exact -> m = mx / 2 ^ n) ->
  (forall j, 0 <= j -> -149 <= ex + j -> 2 ^ j <= mx -> 2 ^ j <= m * 2 ^ n) /\
  (forall j, 0 <= j -> -149 <= ex + j -> mx < 2 ^ j \/ (mx = 2 ^ j /\ lx = loc_Exact) -> m * 2 ^ n <= 2 ^ j).
Proof.
  intros Hm Hn Hr H3 H4. assert (P : 0 < 2 ^ n) by (apply Z.pow_pos_nonneg; lia).
  pose proof (Z.div_mod mx (2 ^ n) ltac:(lia)) as DM. pose proof (Z.mod_pos_bound mx (2 ^ n) P) as MB.
  set (q := mx / 2 ^ n) in *. split; intros j Hj He Hjm.
  - destruct (Z.le_gt_cases n j) as [L|L].
    + replace j with (j - n + n) by lia. rewrite Z.pow_add_r by lia. apply Z.mul_le_mono_nonneg_r; [lia|].
      enough (2 ^ (j - n) <= q) by lia. apply Z.div_le_lower_bound; [exact P|]. rewrite <- Z.pow_add_r by lia.
      replace (n + (j - n)) with j by lia. exact Hjm.
    + assert (2 ^ 23 <= q) by lia. pose proof (Z.pow_le_mono_r 2 j n ltac:(lia) ltac:(lia)). nia.
  - destruct (Z.le_gt_cases n j) as [L|L].
    + assert (C : m <= 2 ^ (j - n)); [|replace j with (j - n + n) by lia; rewrite Z.pow_add_r by lia; apply Z.mul_le_mono_nonneg_r; lia].
      destruct Hjm as [Hjm|[Hjm Hl]].
      2: { rewrite (H4 j L Hjm Hl). unfold q. rewrite Hjm. replace j with (j - n + n) at 1 by lia. rewrite Z.pow_add_r, Z.div_mul by lia. lia. }
      enough (q < 2 ^ (j - n)) by lia. apply Z.div_lt_upper_bound; [exact P|]. rewrite <- Z.pow_add_r by lia. replace (n + (j - n)) with j by lia. exact Hjm.
    + assert (2 ^ 23 <= q) by lia. pose proof (Z.pow_le_mono_r 2 j n ltac:(lia) ltac:(lia)). nia.
Qed.

Lemma iter_xO p d : Z.pos (Pos.iter xO p d) = Z.pos p * 2 ^ Z.pos d.
Proof.
  induction d as [|d IH] using Pos.peano_ind; [cbn; lia|].
  rewrite Pos.iter_succ, Pos2Z.inj_xO, IH, Pos2Z.inj_succ, Z.pow_succ_r by lia. lia.
Qed.

(** A power of two that is shifted within its zeros leaves no remainder. *)
Lemma round_power mx ex lx j : f32_shift mx ex <= j -> mx = 2 ^ j -> lx = loc_Exact ->
  round_nearest_even (mx / 2 ^ f32_shift mx ex) (loc_of_shr_record (fst (shr_fexp fprec femax mx ex lx))) = mx / 2 ^ f32_shift mx ex.
Proof.
  intros Hj -> ->. pose proof (shift_nonneg (2 ^ j) ex) as Hn. enough (E : loc_of_shr_record (fst (shr_fexp fprec femax (2 ^ j) ex loc_Exact)) = loc_Exact) by (rewrite E; reflexivity).
  unfold shr_fexp, f32_shift in *. destruct (fexp fprec femax (Zdigits2 (2 ^ j) + ex) - ex) as [|p|p]; [reflexivity| |reflexivity].
  replace (Z.max 0 (Z.pos p)) with (Z.pos p) in Hj by lia. cbn [shr fst shr_record_of_loc].
  assert (P : 0 < 2 ^ (j - Z.pos p)) by (apply Z.pow_pos_nonneg; lia).
  replace (2 ^ j) with (Z.pos (Pos.iter xO (Z.to_pos (2 ^ (j - Z.pos p))) p)); [rewrite shr_exact; reflexivity|].
  rewrite iter_xO, Z2Pos.id, <- Z.pow_add_r by lia. f_equal. lia.
Qed.

Lemma round_aux_spec s mx ex lx : 0 <= mx -> precise mx ex lx ->
  exists m n, rounded mx ex lx m n /\
    binary_round_aux fprec femax s mx ex lx =
      match m with
      | Z0 => S754_zero s
      | Zpos p => if ex + n <=? 104 then S754_finite s p (ex + n) else S754_infinity s
      | Zneg _ => S754_nan
      end.
Proof.
  intros Hm Hp. destruct (round_once mx ex lx Hm Hp) as (O1 & O2 & O3 & O4). destruct (shr_fexp_spec mx ex lx Hm) as (S1 & S2 & _).
  destruct (shift_fits mx ex Hm) as (F1 & F2 & F3). pose proof (shift_nonneg mx ex) as Hn.
  destruct (round_powers mx ex lx _ _ Hm Hn O4 F3 (round_power mx ex lx)) as [P1 P2]. unfold binary_round_aux.
  destruct (shr_fexp fprec femax mx ex lx) as [r e'] eqn:E. cbn [fst snd] in *. rewrite S1. subst e'.
  set (n := f32_shift mx ex) in *. set (m := round_nearest_even (mx / 2 ^ n) (loc_of_shr_record r)) in *.
  destruct (shr_fexp_spec m (ex + n) loc_Exact ltac:(lia)) as (T1 & T2 & _).
  destruct (shr_fexp fprec femax m (ex + n) loc_Exact) as [r2 e2] eqn:E2. cbn [fst snd] in *. rewrite T1, T2.
  change (femax - fprec) with 104. unfold f32_shift in T1, T2 |- *. rewrite fexp_max in *.
  destruct (decide (m = 2 ^ 24)) as [C|C].
  - rewrite C in *. change (Zdigits2 (2 ^ 24)) with 25 in *. replace (Z.max 0 (Z.max (25 + (ex + n) - 24) (-149) - (ex + n))) with 1 by lia.
    exists (2 ^ 23), (n + 1). assert (E3 : 2 ^ 23 * 2 ^ (n + 1) = 2 ^ 24 * 2 ^ n) by (rewrite <- !Z.pow_add_r by lia; f_equal; lia).
    split; [|change (2 ^ 24 / 2 ^ 1) with (2 ^ 23); change (2 ^ 23) with (Z.pos 8388608); rewrite Z.add_assoc; reflexivity].
    constructor; rewrite ?E3; try lia; try assumption.
  - assert (Hd : Zdigits2 m <= 24).
    { destruct (decide (m = 0)) as [->|]; [cbn; lia|]. destruct (Z.le_gt_cases (Zdigits2 m) 24) as [|G]; [assumption|].
      pose proof (digits_bounds m ltac:(lia)) as [D1 _]. pose proof (Z.pow_le_mono_r 2 24 (Zdigits2 m - 1) ltac:(lia) ltac:(lia)). lia. }
    replace (Z.max 0 (Z.max (Zdigits2 m + (ex + n) - 24) (-149) - (ex + n))) with 0 by lia.
    change (2 ^ 0) with 1. rewrite Z.div_1_r, Z.add_0_r. exists m, n. split; [|reflexivity]. constructor; try assumption; lia.
Qed.

(* ------------------------------------------------------------------ *)
(** ** Values *)

Definition sign_of (s : bool) : Z := if s then -1 else 1.

(** [v], scaled by 2^k, is [x] up to one part in 2^p and one unit. *)
Definition near (p k v x : Z) : Prop := 2 ^ p * Z.abs (v * 2 ^ k - x) <= Z.abs x + 2 ^ (p + k).

(** Finite and below 2^50. *)
Definition moderate (a : float32) : Prop := f32_finite a /\ Z.abs (f32_units a) <= 2 ^ 199.

Lemma round_units s mx ex lx k : 0 <= mx -> precise mx ex lx -> ex <= 104 -> 0 <= k -> 0 <= ex + 149 + k ->
  mx * 2 ^ (ex + 149 + k) < 2 ^ (275 + k) ->
  f32_finite (binary_round_aux fprec femax s mx ex lx) /\
  near 23 k (f32_units (binary_round_aux fprec femax s mx ex lx)) (sign_of s * (mx * 2 ^ (ex + 149 + k))).
Proof.
  intros Hm Hp He Hk Hk' Hb. destruct (round_aux_spec s mx ex lx Hm Hp) as (m & n & R & ->). destruct R as [R1 R2 R3 R4 R5 _ _].
  set (B := 2 ^ (ex + 149 + k)) in *. assert (HB : 0 < B) by (apply Z.pow_pos_nonneg; lia).
  assert (EB : 2 ^ n * B = 2 ^ (ex + n + 149) * 2 ^ k) by (unfold B; rewrite <- !Z.pow_add_r by lia; f_equal; lia).
  assert (N : 2 ^ 23 * Z.abs (m * 2 ^ (ex + n + 149) * 2 ^ k - mx * B) <= mx * B + 2 ^ (23 + k)).
  { replace (m * 2 ^ (ex + n + 149) * 2 ^ k - mx * B) with ((m * 2 ^ n - mx) * B) by (rewrite Z.mul_sub_distr_r, <- (Z.mul_assoc m (2 ^ n)), EB; lia).
    rewrite Z.abs_mul, (Z.abs_eq B) by lia. assert (0 < 2 ^ (23 + k)) by (apply Z.pow_pos_nonneg; lia).
    destruct R4 as [R4|[R4 R4']]; [nia|]. assert (2 ^ (23 + k) = 2 ^ 23 * (2 ^ n * B)); [|nia].
    rewrite EB, R4. change (2 ^ (-149 + 149)) with 1. rewrite Z.pow_add_r by lia. lia. }
  assert (S : Z.abs (sign_of s * (mx * B)) = mx * B) by (rewrite Z.abs_mul, (Z.abs_eq (mx * B)) by nia; destruct s; cbn; lia).
  destruct m as [|p|p]; [| |lia].
  - cbn [f32_finite f32_units]. split; [exact I|]. unfold near. rewrite S. destruct s; cbn [sign_of]; lia.
  - destruct (ex + n <=? 104) eqn:E; [|exfalso].
    + cbn [f32_finite f32_units]. split; [lia|]. unfold near. rewrite S. destruct s; cbn [sign_of]; lia.
    + apply Z.leb_gt in E. assert (2 ^ 23 <= Z.pos p) by lia.
      assert (2 ^ 254 * 2 ^ k <= 2 ^ n * B) by (rewrite EB; apply Z.mul_le_mono_nonneg_r; [lia|apply Z.pow_le_mono_r; lia]).
      rewrite Z.pow_add_r in Hb by lia. assert (0 < 2 ^ k) by (apply Z.pow_pos_nonneg; lia).
      destruct R4 as [R4|[R4 _]]; [|lia]. assert (2 ^ 22 * 2 ^ n <= mx) by nia.
      assert (2 ^ 22 * (2 ^ n * B) <= mx * B) by nia. change (2 ^ 275) with (2 ^ 21 * 2 ^ 254) in Hb. nia.
Qed.

Lemma finite_exponent s m e b : f32_finite (S754_finite s m e) -> 0 <= b -> Z.abs (f32_units (S754_finite s m e)) <= 2 ^ (149 + b) -> e <= b.
Proof.
  cbn [f32_finite f32_units]. intros [Hm He] Hb HV. destruct (Z.le_gt_cases e b) as [|G]; [assumption|]. exfalso.
  pose proof (Z.pow_lt_mono_r 2 (149 + b) (e + 149) ltac:(lia) ltac:(lia) ltac:(lia)). destruct s; nia.
Qed.

Lemma near_zero p k : 0 <= p -> 0 <= k -> near p k 0 0.
Proof. intros. unfold near. cbn. assert (0 < 2 ^ (p + k)) by (apply Z.pow_pos_nonneg; lia). lia. Qed.

(** The product. *)
Lemma mul_near a b : moderate a -> moderate b ->
  f32_finite (f32_mul a b) /\ near 23 149 (f32_units (f32_mul a b)) (f32_units a * f32_units b).
Proof.
  intros [Fa Va] [Fb Vb]. unfold f32_mul.
  destruct a as [sa|sa| |sa ma ea], b as [sb|sb| |sb mb eb]; try contradiction;
    try (split; [exact I|cbn [SFmul f32_units]; rewrite ?Z.mul_0_r; apply near_zero; lia]).
  pose proof (finite_exponent _ _ _ 50 Fa ltac:(lia) Va) as Ea. pose proof (finite_exponent _ _ _ 50 Fb ltac:(lia) Vb) as Eb.
  cbn [f32_finite] in Fa, Fb. cbn [SFmul].
  assert (X : f32_units (S754_finite sa ma ea) * f32_units (S754_finite sb mb eb) = sign_of (xorb sa sb) * (Z.pos (ma * mb) * 2 ^ (ea + eb + 149 + 149))).
  { cbn [f32_units]. replace (ea + eb + 149 + 149) with ((ea + 149) + (eb + 149)) by lia. rewrite (Z.pow_add_r 2 (ea + 149)) by lia. rewrite Pos2Z.inj_mul. destruct sa, sb; cbn [xorb sign_of]; ring. }
  rewrite X. apply round_units; try lia; [left; reflexivity|].
  assert (Hx : Z.abs (f32_units (S754_finite sa ma ea) * f32_units (S754_finite sb mb eb)) <= 2 ^ 199 * 2 ^ 199) by (rewrite Z.abs_mul; apply Z.mul_le_mono_nonneg; lia).
  rewrite X in Hx. assert (0 < 2 ^ (ea + eb + 149 + 149)) by (apply Z.pow_pos_nonneg; lia). assert (2 ^ 199 * 2 ^ 199 < 2 ^ (275 + 149)) by reflexivity. destruct sa, sb; cbn [xorb sign_of] in Hx; lia.
Qed.

(** Aligning a mantissa keeps the value. *)
Lemma align_value p e e' : -149 <= e -> -149 <= e' ->
  -149 <= snd (shl_align p e e') <= e /\
  Z.pos (fst (shl_align p e e')) * 2 ^ (snd (shl_align p e e') + 149) = Z.pos p * 2 ^ (e + 149).
Proof.
  intros He He'. unfold shl_align. destruct (e' - e) as [|d|d] eqn:E; cbn [fst snd]; try (split; [lia|reflexivity]).
  split; [lia|]. rewrite iter_xO, <- Z.mul_assoc, <- Z.pow_add_r by lia. do 2 f_equal. lia.
Qed.

Lemma align_min p e e' : -149 <= e' <= e -> Z.pos (fst (shl_align p e e')) * 2 ^ (e' + 149) = Z.pos p * 2 ^ (e + 149).
Proof.
  intros H. destruct (align_value p e e' ltac:(lia) ltac:(lia)) as [_ A]. rewrite <- A. do 2 f_equal.
  unfold shl_align. destruct (e' - e) eqn:E; cbn [snd]; lia.
Qed.

(** An exact integer multiple of a power of two, rounded. *)
Lemma normalize_near z e s : -149 <= e <= 104 -> Z.abs z * 2 ^ (e + 149) < 2 ^ 275 ->
  f32_finite (binary_normalize fprec femax z e s) /\ near 23 0 (f32_units (binary_normalize fprec femax z e s)) (z * 2 ^ (e + 149)).
Proof.
  intros He Hz. destruct z as [|p|p]; [split; [exact I|apply near_zero; lia]| |]; cbn [binary_normalize]; unfold binary_round;
    destruct (align_value p e (fexp fprec femax (Z.pos (digits2_pos p) + e)) ltac:(lia) ltac:(rewrite fexp_max; lia)) as [A1 A2];
    destruct (shl_align p e (fexp fprec femax (Z.pos (digits2_pos p) + e))) as [m e']; cbn [fst snd] in *.
  - replace (Z.pos p * 2 ^ (e + 149)) with (sign_of false * (Z.pos m * 2 ^ (e' + 149 + 0))) by (rewrite Z.add_0_r, A2; cbn [sign_of]; lia).
    apply round_units; rewrite ?Z.add_0_r; try lia. left. reflexivity.
  - replace (Z.neg p * 2 ^ (e + 149)) with (sign_of true * (Z.pos m * 2 ^ (e' + 149 + 0))) by (rewrite Z.add_0_r, A2; cbn [sign_of]; lia).
    apply round_units; rewrite ?Z.add_0_r; try lia. left. reflexivity.
Qed.

Lemma of_Z_near z : Z.abs z < 2 ^ 50 -> f32_finite (f32_of_Z z) /\ near 23 0 (f32_units (f32_of_Z z)) (z * 2 ^ 149).
Proof.
  intros Hz. apply (normalize_near z 0 false); [lia|]. change (0 + 149) with 149. change (2 ^ 275) with (2 ^ 126 * 2 ^ 149).
  apply Z.mul_lt_mono_pos_r; [reflexivity|]. change (2 ^ 126) with (2 ^ 76 * 2 ^ 50). lia.
Qed.

Lemma near_exact v x : v = x -> near 23 0 v x.
Proof. intros ->. unfold near. replace (x * 2 ^ 0 - x) with 0 by lia. cbn [Z.abs]. lia. Qed.

(** The sum and the difference. *)
Lemma add_near a b : moderate a -> moderate b ->
  f32_finite (f32_add a b) /\ near 23 0 (f32_units (f32_add a b)) (f32_units a + f32_units b).
Proof.
  intros [Fa Va] [Fb Vb]. unfold f32_add.
  destruct a as [sa|sa| |sa ma ea], b as [sb|sb| |sb mb eb]; try contradiction;
    try (destruct sa, sb; (split; [exact I|apply near_exact; reflexivity])); try (split; [assumption|apply near_exact; cbn [SFadd f32_units]; lia]).
  cbn [SFadd]. cbn [f32_finite] in Fa, Fb. set (ez := Z.min ea eb).
  set (z := cond_Zopp sa (Z.pos (fst (shl_align ma ea ez))) + cond_Zopp sb (Z.pos (fst (shl_align mb eb ez)))).
  assert (X : f32_units (S754_finite sa ma ea) + f32_units (S754_finite sb mb eb) = z * 2 ^ (ez + 149)).
  { cbn [f32_units]. rewrite <- (align_min ma ea ez), <- (align_min mb eb ez) by lia. unfold z. destruct sa, sb; cbn [cond_Zopp]; lia. }
  rewrite X. apply normalize_near; [lia|]. rewrite <- (Z.abs_eq (2 ^ (ez + 149))), <- Z.abs_mul, <- X by (apply Z.pow_nonneg; lia).
  apply Z.le_lt_trans with (2 ^ 199 + 2 ^ 199); [lia|reflexivity].
Qed.

Lemma sub_is_add a b : f32_sub a b = f32_add a (SFopp b).
Proof.
  destruct a as [sa|sa| |sa ma ea], b as [sb|sb| |sb mb eb]; try reflexivity; destruct sa, sb; reflexivity.
Qed.

Lemma opp_units a : f32_units (SFopp a) = - f32_units a.
Proof. destruct a as [[]|[]| |[] m e]; cbn [SFopp f32_units negb]; lia. Qed.

Lemma opp_moderate a : moderate a -> moderate (SFopp a).
Proof. intros [F V]. split; [destruct a; exact F|]. rewrite opp_units. lia. Qed.

Lemma sub_near a b : moderate a -> moderate b ->
  f32_finite (f32_sub a b) /\ near 23 0 (f32_units (f32_sub a b)) (f32_units a - f32_units b).
Proof.
  intros Ha Hb. rewrite sub_is_add. destruct (add_near a (SFopp b) Ha (opp_moderate b Hb)) as [F N]. split; [exact F|].
  rewrite opp_units in N. replace (f32_units a - f32_units b) with (f32_units a + - f32_units b) by lia. exact N.
Qed.

Lemma digits_reach q j : 1 <= j -> 2 ^ (j - 1) <= q -> j <= Zdigits2 q.
Proof.
  intros Hj H. assert (0 < 2 ^ (j - 1)) by (apply Z.pow_pos_nonneg; lia). pose proof (digits_bounds q ltac:(lia)) as [_ D].
  destruct (Z.le_gt_cases j (Zdigits2 q)) as [|G]; [assumption|].
  pose proof (Z.pow_le_mono_r 2 (Zdigits2 q) (j - 1) ltac:(lia) ltac:(lia)). lia.
Qed.

Lemma quotient_reach q d x n j : 0 < d < 2 ^ n -> 0 <= n -> 0 <= j -> 0 <= q -> x < (q + 1) * d -> 2 ^ (j + n) <= x -> 2 ^ j <= q.
Proof. intros Hd Hn Hj Hq Hx H. rewrite Z.pow_add_r in H by lia. assert (0 < 2 ^ j) by (apply Z.pow_pos_nonneg; lia). nia. Qed.

(** The quotient by a divisor that is not tiny. *)
Lemma div_core m1 e1 m2 e2 : -149 <= e1 -> -149 <= e2 ->
  let '(q, e, l) := SFdiv_core_binary fprec femax (Z.pos m1) e1 (Z.pos m2) e2 in
  0 <= q /\ e <= e1 - e2 /\ (e <= -149 \/ 2 ^ 23 <= q) /\ precise q e l /\
  (e = e1 - e2 \/ -149 <= e) /\
  q * Z.pos m2 <= Z.pos m1 * 2 ^ (e1 - e2 - e) < (q + 1) * Z.pos m2 /\
  (q * Z.pos m2 = Z.pos m1 * 2 ^ (e1 - e2 - e) -> l = loc_Exact).
Proof.
  intros He1 He2. unfold SFdiv_core_binary. set (D := Zdigits2 (Z.pos m1) + e1 - (Zdigits2 (Z.pos m2) + e2)).
  pose proof (fexp_max D) as FD. pose proof (digits_pos (Z.pos m2) ltac:(lia)). pose proof (digits_pos (Z.pos m1) ltac:(lia)).
  set (e := Z.min (fexp fprec femax D) (e1 - e2)). set (k := e1 - e2 - e). assert (Hk : 0 <= k) by lia.
  assert (EM : (match k with Z0 => Z.pos m1 | Zpos _ => Z.shiftl (Z.pos m1) k | Zneg _ => 0 end) = Z.pos m1 * 2 ^ k).
  { destruct k as [|p|p] eqn:E; [cbn; lia|apply Z.shiftl_mul_pow2; lia|lia]. }
  rewrite EM. pose proof (Z_div_mod (Z.pos m1 * 2 ^ k) (Z.pos m2) ltac:(lia)) as DM.
  destruct (Z.div_eucl (Z.pos m1 * 2 ^ k) (Z.pos m2)) as [q r]. destruct DM as [DM Hr].
  assert (P : 0 < 2 ^ k) by (apply Z.pow_pos_nonneg; lia). assert (Hq : 0 <= q) by nia.
  assert (R : e <= -149 \/ (24 <= D - e /\ 2 ^ (D - e - 1) <= q)).
  { destruct (decide (e <= -149)); [left; assumption|right]. split; [lia|].
    apply quotient_reach with (Z.pos m2) (Z.pos m1 * 2 ^ k) (Zdigits2 (Z.pos m2)); try lia; [split; [lia|apply digits_bounds; lia]|].
    replace (D - e - 1 + Zdigits2 (Z.pos m2)) with (Zdigits2 (Z.pos m1) - 1 + k) by lia.
    rewrite Z.pow_add_r by lia. apply Z.mul_le_mono_nonneg_r; [lia|]. apply digits_bounds. lia. }
  split; [exact Hq|]. split; [lia|]. split; [|split; [right|split; [lia|fold k; rewrite DM; split; [lia|]]]].
  - destruct R as [R|[R1 R2]]; [left; exact R|right]. pose proof (Z.pow_le_mono_r 2 23 (D - e - 1) ltac:(lia) ltac:(lia)). lia.
  - rewrite fexp_max. destruct R as [R|[R1 R2]]; [lia|]. enough (D - e <= Zdigits2 q) by lia. apply digits_reach; [lia|exact R2].
  - intros E. assert (r = 0) as -> by lia. unfold new_location, new_location_even, new_location_odd. destruct (Z.even (Z.pos m2)); reflexivity.
Qed.

Lemma quotient_error A B X U W : 0 <= A -> 0 < B -> 0 <= X -> X * B <= A * 2 ^ 298 < (X + U) * B ->
  (U <= 2 ^ 149 \/ 2 ^ 23 * U <= X) -> 2 ^ 23 * Z.abs (W * 2 ^ 149 - X) <= X + 2 ^ 172 ->
  2 ^ 22 * Z.abs (W * B - A * 2 ^ 149) <= A * 2 ^ 149 + 2 ^ 23 * B.
Proof.
  intros HA HB HX HXB HU HW.
  assert (E1 : 2 ^ 23 * Z.abs (W * 2 ^ 149 * B - X * B) <= X * B + 2 ^ 172 * B).
  { replace (W * 2 ^ 149 * B - X * B) with ((W * 2 ^ 149 - X) * B) by ring. rewrite Z.abs_mul, (Z.abs_eq B) by lia. nia. }
  assert (E2 : 2 ^ 23 * (U * B) <= X * B + 2 ^ 172 * B).
  { destruct HU as [HU|HU]; [apply Z.le_trans with (2 ^ 172 * B); [change (2 ^ 172) with (2 ^ 23 * 2 ^ 149); nia|nia]|nia]. }
  assert (E3 : 2 ^ 22 * Z.abs (W * B - A * 2 ^ 149) * 2 ^ 149 <= (A * 2 ^ 149 + 2 ^ 23 * B) * 2 ^ 149); [|lia].
  replace (2 ^ 22 * Z.abs (W * B - A * 2 ^ 149) * 2 ^ 149) with (2 ^ 22 * Z.abs (W * 2 ^ 149 * B - A * 2 ^ 298))
    by (change (2 ^ 298) with (2 ^ 149 * 2 ^ 149); replace (W * 2 ^ 149 * B - A * (2 ^ 149 * 2 ^ 149)) with ((W * B - A * 2 ^ 149) * 2 ^ 149) by ring; rewrite Z.abs_mul, (Z.abs_eq (2 ^ 149)) by lia; ring).
  replace ((A * 2 ^ 149 + 2 ^ 23 * B) * 2 ^ 149) with (A * 2 ^ 298 + 2 ^ 172 * B) by (change (2 ^ 298) with (2 ^ 149 * 2 ^ 149); change (2 ^ 172) with (2 ^ 23 * 2 ^ 149); ring).
  rewrite Z.mul_add_distr_r in HXB. lia.
Qed.

(** The quotient, for a dividend below 2^50 and a divisor of at least 2^-25:
    multiplied back, it is the dividend up to one part in 2^22. *)
Lemma div_near a b : moderate a -> moderate b -> 2 ^ 124 <= Z.abs (f32_units b) ->
  f32_finite (f32_div a b) /\
  2 ^ 22 * Z.abs (f32_units (f32_div a b) * f32_units b - f32_units a * 2 ^ 149) <=
    Z.abs (f32_units a) * 2 ^ 149 + 2 ^ 23 * Z.abs (f32_units b).
Proof.
  intros [Fa Va] [Fb Vb] Hb. unfold f32_div.
  destruct a as [sa|sa| |sa ma ea], b as [sb|sb| |sb mb eb]; try contradiction; try (cbn [f32_units Z.abs] in Hb; lia).
  { split; [exact I|]. cbn [SFdiv f32_units]. rewrite !Z.mul_0_l. change (Z.abs 0) with 0. rewrite Z.sub_diag. change (Z.abs 0) with 0. lia. }
  pose proof (finite_exponent _ _ _ 50 Fa ltac:(lia) Va) as Ea. cbn [f32_finite] in Fa, Fb. cbn [SFdiv].
  pose proof (div_core ma ea mb eb ltac:(lia) ltac:(lia)) as C. destruct (SFdiv_core_binary fprec femax (Z.pos ma) ea (Z.pos mb) eb) as [[q e] l].
  destruct C as (Hq & He & Hlow & Hp & Hlow' & HC & _). cbn [f32_units] in *.
  set (A := Z.pos ma * 2 ^ (ea + 149)) in *. set (B := Z.pos mb * 2 ^ (eb + 149)) in *. set (X := q * 2 ^ (e + 298)).
  assert (HA : 0 <= A <= 2 ^ 199) by (split; [apply Z.mul_nonneg_nonneg; [lia|apply Z.pow_nonneg; lia]|destruct sa; lia]).
  assert (HB : 2 ^ 124 <= B) by (assert (0 <= B) by (apply Z.mul_nonneg_nonneg; [lia|apply Z.pow_nonneg; lia]); destruct sb; lia).
  assert (Eb : -49 < eb).
  { destruct (Z.le_gt_cases eb (-49)) as [L|G]; [|lia]. pose proof (Z.pow_le_mono_r 2 (eb + 149) 100 ltac:(lia) ltac:(lia)). unfold B in HB. nia. }
  assert (PU : 0 < 2 ^ (e + 298)) by (apply Z.pow_pos_nonneg; lia).
  assert (HX : X * B <= A * 2 ^ 298 < (X + 2 ^ (e + 298)) * B).
  { assert (P : 0 < 2 ^ (e + 298) * 2 ^ (eb + 149)) by (apply Z.mul_pos_pos; [exact PU|apply Z.pow_pos_nonneg; lia]).
    replace (A * 2 ^ 298) with (Z.pos ma * 2 ^ (ea - eb - e) * (2 ^ (e + 298) * 2 ^ (eb + 149)))
      by (unfold A; rewrite <- !Z.mul_assoc; f_equal; rewrite <- !Z.pow_add_r by lia; f_equal; lia).
    replace (X * B) with (q * Z.pos mb * (2 ^ (e + 298) * 2 ^ (eb + 149))) by (unfold X, B; ring).
    replace ((X + 2 ^ (e + 298)) * B) with ((q + 1) * Z.pos mb * (2 ^ (e + 298) * 2 ^ (eb + 149))) by (unfold X, B; ring). nia. }
  assert (HXb : X < 2 ^ (275 + 149)).
  { apply Z.lt_nge. intros G. pose proof (Z.mul_le_mono_nonneg (2 ^ (275 + 149)) X (2 ^ 124) B ltac:(lia) G ltac:(lia) HB) as M.
    change (2 ^ (275 + 149) * 2 ^ 124) with (2 ^ 51 * 2 ^ 199 * 2 ^ 298) in M. lia. }
  destruct (round_units (xorb sa sb) q e l 149 Hq Hp ltac:(lia) ltac:(lia) ltac:(lia)) as [F N];
    [replace (e + 149 + 149) with (e + 298) by lia; exact HXb|]. split; [exact F|].
  replace (e + 149 + 149) with (e + 298) in N by lia. fold X in N. unfold near in N. change (2 ^ (23 + 149)) with (2 ^ 172) in N.
  set (w := f32_units (binary_round_aux fprec femax (xorb sa sb) q e l)) in *.
  assert (X0 : 0 <= X) by (unfold X; apply Z.mul_nonneg_nonneg; lia).
  pose proof (quotient_error A B X (2 ^ (e + 298)) (sign_of (xorb sa sb) * w) ltac:(lia) ltac:(lia) X0 HX) as QE.
  assert (QH : 2 ^ 22 * Z.abs (sign_of (xorb sa sb) * w * B - A * 2 ^ 149) <= A * 2 ^ 149 + 2 ^ 23 * B).
  { apply QE.
    - destruct Hlow as [L|L]; [left; apply Z.pow_le_mono_r; lia|right; unfold X; apply Z.mul_le_mono_nonneg_r; lia].
    - clear - N X0. destruct sa, sb; cbn [xorb sign_of] in *; lia. }
  clearbody w A B. clear - QH HA HB. destruct sa, sb; cbn [xorb sign_of] in *; lia.
Qed.

(* ------------------------------------------------------------------ *)
(** ** Coarse bounds *)

(** Finite and at most [k] in absolute value. *)
Definition below (k : Z) (a : float32) : Prop := f32_finite a /\ Z.abs (f32_units a) <= k * 2 ^ 149.

Lemma below_moderate k a : k <= 2 ^ 50 -> below k a -> moderate a.
Proof. intros Hk [F B]. split; [exact F|]. change (2 ^ 199) with (2 ^ 50 * 2 ^ 149). lia. Qed.

Lemma below_mono j k a : j <= k -> below j a -> below k a.
Proof. intros H [F B]. split; [exact F|]. lia. Qed.

Lemma mul_below j k a b : 0 <= j <= 2 ^ 25 -> 0 <= k <= 2 ^ 25 -> below j a -> below k b -> below (2 * (j * k) + 1) (f32_mul a b).
Proof.
  intros Hj Hk Ha Hb. destruct (mul_near a b (below_moderate j a ltac:(lia) Ha) (below_moderate k b ltac:(lia) Hb)) as [F N].
  split; [exact F|]. destruct Ha as [_ Ha], Hb as [_ Hb]. unfold near in N. change (2 ^ (23 + 149)) with (2 ^ 23 * 2 ^ 149) in N.
  assert (P : Z.abs (f32_units a * f32_units b) <= (j * k) * 2 ^ 149 * 2 ^ 149).
  { rewrite Z.abs_mul. apply Z.le_trans with ((j * 2 ^ 149) * (k * 2 ^ 149)); [apply Z.mul_le_mono_nonneg; lia|lia]. }
  assert (0 <= j * k) by (apply Z.mul_nonneg_nonneg; lia). lia.
Qed.

Lemma add_below j k a b : 0 <= j <= 2 ^ 49 -> 0 <= k <= 2 ^ 49 -> below j a -> below k b -> below (2 * (j + k) + 1) (f32_add a b).
Proof.
  intros Hj Hk Ha Hb. destruct (add_near a b (below_moderate j a ltac:(lia) Ha) (below_moderate k b ltac:(lia) Hb)) as [F N].
  split; [exact F|]. destruct Ha as [_ Ha], Hb as [_ Hb]. unfold near in N. lia.
Qed.

Lemma sub_below j k a b : 0 <= j <= 2 ^ 49 -> 0 <= k <= 2 ^ 49 -> below j a -> below k b -> below (2 * (j + k) + 1) (f32_sub a b).
Proof.
  intros Hj Hk Ha Hb. rewrite sub_is_add. apply add_below; try assumption. destruct Hb as [F B]. split; [destruct b; exact F|].
  rewrite opp_units. lia.
Qed.

(* ------------------------------------------------------------------ *)
(** ** Integers *)

Lemma int_fits s p : (Zdigits2 (Z.pos p) <= 24) ->
  binary_round fprec femax s p 0 = S754_finite s (fst (shl_align p 0 (Zdigits2 (Z.pos p) - 24))) (Zdigits2 (Z.pos p) - 24).
Proof.
  intros Hd. unfold binary_round. change (Z.pos (digits2_pos p)) with (Zdigits2 (Z.pos p)). pose proof (digits_pos (Z.pos p) ltac:(lia)) as D0.
  rewrite Z.add_0_r, fexp_max. replace (Z.max (Zdigits2 (Z.pos p) - 24) (-149)) with (Zdigits2 (Z.pos p) - 24) by lia.
  unfold shl_align. rewrite Z.sub_0_r. destruct (Zdigits2 (Z.pos p) - 24) as [|d|d] eqn:E; cbn [fst]; [|lia|].
  - apply round_fits; [|discriminate]. change (Z.pos (digits2_pos p)) with (Zdigits2 (Z.pos p)). rewrite fexp_max. lia.
  - apply round_fits; [|unfold femax, fprec; lia]. rewrite digits_shift. change (Z.pos (digits2_pos p + d)) with (Zdigits2 (Z.pos p) + Z.pos d). rewrite fexp_max. lia.
Qed.

(** Integers of 24 bits are exact. *)
Lemma of_Z_exact z : Z.abs z <= 2 ^ 24 ->
  f32_finite (f32_of_Z z) /\ f32_units (f32_of_Z z) = z * 2 ^ 149 /\ f32_trunc (f32_of_Z z) = Some z.
Proof.
  intros Hz. destruct (decide (Z.abs z = 2 ^ 24)) as [E|E].
  { assert (z = 2 ^ 24 \/ z = - 2 ^ 24) as [->| ->] by lia; repeat split; vm_compute; congruence. }
  assert (H : forall s p, Z.pos p < 2 ^ 24 -> let r := binary_round fprec femax s p 0 in
    f32_finite r /\ f32_units r = sign_of s * Z.pos p * 2 ^ 149 /\ f32_trunc r = Some (sign_of s * Z.pos p)).
  { intros s p Hp. cbn zeta. pose proof (digits_pos (Z.pos p) ltac:(lia)) as D0. pose proof (digits_bounds (Z.pos p) ltac:(lia)) as [D1 D2].
    assert (Hd : Zdigits2 (Z.pos p) <= 24).
    { destruct (Z.le_gt_cases (Zdigits2 (Z.pos p)) 24) as [|G]; [assumption|].
      pose proof (Z.pow_le_mono_r 2 24 (Zdigits2 (Z.pos p) - 1) ltac:(lia) ltac:(lia)). lia. }
    rewrite int_fits by exact Hd. set (d := Zdigits2 (Z.pos p)) in *.
    assert (EM : Z.pos (fst (shl_align p 0 (d - 24))) = Z.pos p * 2 ^ (24 - d)).
    { unfold shl_align. destruct (d - 24 - 0) as [|k|k] eqn:Ek; cbn [fst]; [replace (24 - d) with 0 by lia; cbn; lia|lia|].
      rewrite iter_xO. do 2 f_equal. lia. }
    assert (EP : 2 ^ d * 2 ^ (24 - d) = 2 ^ 24) by (rewrite <- Z.pow_add_r by lia; f_equal; lia).
    assert (P24 : 0 < 2 ^ (24 - d)) by (apply Z.pow_pos_nonneg; lia). cbn [f32_finite f32_units f32_trunc]. rewrite EM. split; [nia|].
    assert (E149 : 2 ^ (24 - d) * 2 ^ (d - 24 + 149) = 2 ^ 149) by (rewrite <- Z.pow_add_r by lia; f_equal; lia).
    split; [rewrite <- (Z.mul_assoc (Z.pos p)), E149; unfold sign_of; lia|].
    destruct (0 <=? d - 24) eqn:L.
    - replace (d - 24) with 0 by lia. replace (24 - d) with 0 by lia. f_equal. destruct s; cbn [sign_of]; lia.
    - replace (- (d - 24)) with (24 - d) by lia. rewrite Z.div_mul by lia. f_equal. destruct s; cbn [sign_of]; lia. }
  destruct z as [|p|p]; [repeat split| |].
  - specialize (H false p ltac:(lia)). cbn [sign_of] in H. rewrite !Z.mul_1_l in H. exact H.
  - specialize (H true p ltac:(lia)). cbn [sign_of] in H. replace (-1 * Z.pos p) with (Z.neg p) in H by lia. exact H.
Qed.

Lemma of_Z_below z : Z.abs z <= 2 ^ 24 -> below (Z.abs z) (f32_of_Z z).
Proof. intros H. destruct (of_Z_exact z H) as (F & V & _). split; [exact F|]. rewrite V, Z.abs_mul. lia. Qed.

Lemma of_Z_moderate z : Z.abs z <= 2 ^ 24 -> moderate (f32_of_Z z).
Proof. intros H. apply (below_moderate (Z.abs z)); [lia|]. apply of_Z_below, H. Qed.

(* ------------------------------------------------------------------ *)
(** ** Not-a-number *)

Lemma round_number s mx ex lx : 0 <= mx -> is_nan (binary_round_aux fprec femax s mx ex lx) = false.
Proof.
  intros Hm. unfold binary_round_aux. destruct (shr_fexp_spec mx ex lx Hm) as (E & _ & _). destruct (shr_fexp fprec femax mx ex lx) as [r e']. cbn [fst] in E.
  assert (Hr : 0 <= round_nearest_even (shr_m r) (loc_of_shr_record r)).
  { pose proof (round_even_bounds (shr_m r) (loc_of_shr_record r)). pose proof (Z.div_pos mx (2 ^ f32_shift mx ex) Hm ltac:(apply Z.pow_pos_nonneg; [lia|apply shift_nonneg])). lia. }
  destruct (shr_fexp_spec _ e' loc_Exact Hr) as (E2 & _ & _). destruct (shr_fexp _ _ _ e' loc_Exact) as [r2 e2]. cbn [fst] in E2.
  pose proof (Z.div_pos _ (2 ^ f32_shift (round_nearest_even (shr_m r) (loc_of_shr_record r)) e') Hr ltac:(apply Z.pow_pos_nonneg; [lia|apply shift_nonneg])) as H2.
  rewrite <- E2 in H2. destruct (shr_m r2); [reflexivity|case_match; reflexivity|lia].
Qed.

Lemma normalize_number z e s : is_nan (binary_normalize fprec femax z e s) = false.
Proof.
  unfold binary_normalize, binary_round. destruct z; [reflexivity| |];
    match goal with |- context [shl_align ?a ?b ?c] => destruct (shl_align a b c) end; apply round_number; lia.
Qed.

(** Neither an infinity nor not-a-number. *)
Definition is_number (a : float32) : bool := match a with S754_zero _ | S754_finite _ _ _ => true | _ => false end.

Lemma add_number a b : is_number a = true -> is_number b = true -> is_nan (f32_add a b) = false.
Proof.
  intros Ha Hb. destruct a as [s| | |s m e], b as [s'| | |s' m' e']; try discriminate; try reflexivity; [destruct s, s'; reflexivity|apply normalize_number].
Qed.

(* ------------------------------------------------------------------ *)
(** ** Signs and the number one *)

Lemma round_sign s mx ex lx : 0 <= mx -> precise mx ex lx ->
  0 <= sign_of s * f32_units (binary_round_aux fprec femax s mx ex lx).
Proof.
  intros Hm Hp. destruct (round_aux_spec s mx ex lx Hm Hp) as (m & n & _ & ->).
  destruct m as [|p|p]; cbn [f32_units]; [lia| |lia]. destruct (ex + n <=? 104); cbn [f32_units]; [|lia].
  assert (0 <= 2 ^ (ex + n + 149)) by (apply Z.pow_nonneg; lia). destruct s; cbn [sign_of]; nia.
Qed.

(** Rounding does not fall below one. *)
Lemma round_floor s mx ex lx : 0 <= mx -> precise mx ex lx -> -149 <= ex <= 104 -> mx * 2 ^ (ex + 149) < 2 ^ 275 ->
  2 ^ 149 <= mx * 2 ^ (ex + 149) -> 2 ^ 149 <= sign_of s * f32_units (binary_round_aux fprec femax s mx ex lx).
Proof.
  intros Hm Hp He Hb H1. destruct (round_aux_spec s mx ex lx Hm Hp) as (m & n & R & E).
  destruct (round_units s mx ex lx 0 Hm Hp ltac:(lia) ltac:(lia) ltac:(lia)) as [F _]; [rewrite Z.add_0_r; exact Hb|]. rewrite E in F |- *. clear E.
  assert (EV : sign_of s * f32_units (match m with Z0 => S754_zero s | Zpos p => if ex + n <=? 104 then S754_finite s p (ex + n) else S754_infinity s | Zneg _ => S754_nan end) = m * 2 ^ n * 2 ^ (ex + 149)).
  { destruct R as [R1 [R2 _] R3 _ _ _ _]. rewrite <- Z.mul_assoc, <- Z.pow_add_r by lia. destruct m as [|p|p]; [cbn [f32_units]; lia| |lia].
    destruct (ex + n <=? 104); [|contradiction]. cbn [f32_units]. replace (n + (ex + 149)) with (ex + n + 149) by lia. destruct s; cbn [sign_of]; lia. }
  eapply Z.le_trans; [|apply Z.eq_le_incl; symmetry; exact EV]. assert (0 < 2 ^ (ex + 149)) by (apply Z.pow_pos_nonneg; lia). destruct (Z.le_gt_cases ex 0) as [L|L].
  - assert (S : 2 ^ 149 = 2 ^ (- ex) * 2 ^ (ex + 149)) by (rewrite <- Z.pow_add_r by lia; f_equal; lia).
    pose proof (rd_floor _ _ _ _ _ R (- ex) ltac:(lia) ltac:(lia)) as RF. rewrite S in *. apply Z.mul_le_mono_nonneg_r; [lia|]. apply RF. nia.
  - pose proof (rd_floor _ _ _ _ _ R 0 ltac:(lia) ltac:(lia)) as RF. change (2 ^ 0) with 1 in RF.
    pose proof (Z.pow_le_mono_r 2 149 (ex + 149) ltac:(lia) ltac:(lia)). nia.
Qed.

(** Rounding does not pass one. *)
Lemma round_ceiling mx ex lx : 0 <= mx -> precise mx ex lx -> ex <= 0 ->
  mx < 2 ^ (- ex) \/ (mx = 2 ^ (- ex) /\ lx = loc_Exact) ->
  f32_units (binary_round_aux fprec femax false mx ex lx) <= 2 ^ 149.
Proof.
  intros Hm Hp He H1. destruct (round_aux_spec false mx ex lx Hm Hp) as (m & n & R & ->).
  pose proof (rd_ceiling _ _ _ _ _ R (- ex) ltac:(lia) ltac:(lia) H1) as RC. destruct R as [R1 R2 R3 _ _ _ _].
  destruct m as [|p|p]; cbn [f32_units]; [lia| |lia]. destruct (ex + n <=? 104); cbn [f32_units]; [|lia].
  assert (S : 2 ^ (ex + n + 149) * 2 ^ (- ex) = 2 ^ n * 2 ^ 149) by (rewrite <- !Z.pow_add_r by lia; f_equal; lia).
  assert (0 < 2 ^ (- ex)) by (apply Z.pow_pos_nonneg; lia). nia.
Qed.

Lemma normalize_floor z e s : -149 <= e <= 104 -> Z.abs z * 2 ^ (e + 149) < 2 ^ 275 -> 2 ^ 149 <= z * 2 ^ (e + 149) ->
  2 ^ 149 <= f32_units (binary_normalize fprec femax z e s).
Proof.
  intros He Hb H1. assert (0 < 2 ^ (e + 149)) by (apply Z.pow_pos_nonneg; lia). destruct z as [|p|p]; [lia| |nia]. cbn [binary_normalize]. unfold binary_round.
  destruct (align_value p e (fexp fprec femax (Z.pos (digits2_pos p) + e)) ltac:(lia) ltac:(rewrite fexp_max; lia)) as [A1 A2].
  destruct (shl_align p e (fexp fprec femax (Z.pos (digits2_pos p) + e))) as [m e']. cbn [fst snd] in *.
  pose proof (round_floor false (Z.pos m) e' loc_Exact ltac:(lia) ltac:(left; reflexivity) ltac:(lia) ltac:(lia) ltac:(lia)) as R.
  cbn [sign_of] in R. lia.
Qed.

Lemma normalize_sign z e s : 0 <= z -> 0 <= f32_units (binary_normalize fprec femax z e s).
Proof.
  intros Hz. destruct z as [|p|p]; [cbn; lia| |lia]. cbn [binary_normalize]. unfold binary_round.
  destruct (shl_align p e (fexp fprec femax (Z.pos (digits2_pos p) + e))) as [m e'].
  pose proof (round_sign false (Z.pos m) e' loc_Exact ltac:(lia) ltac:(left; reflexivity)) as R. cbn [sign_of] in R. lia.
Qed.

(** The sum of two finite numbers, as an exact integer to be rounded. *)
Lemma add_exact a b : f32_finite a -> f32_finite b ->
  (f32_finite (f32_add a b) /\ f32_units (f32_add a b) = f32_units a + f32_units b) \/
  exists z e, -149 <= e <= 104 /\ f32_add a b = binary_normalize fprec femax z e false /\ f32_units a + f32_units b = z * 2 ^ (e + 149).
Proof.
  intros Fa Fb. unfold f32_add. destruct a as [sa|sa| |sa ma ea], b as [sb|sb| |sb mb eb]; try contradiction;
    try (left; destruct sa, sb; (split; [exact I|reflexivity])); try (left; split; [assumption|cbn [SFadd f32_units]; lia]).
  right. cbn [SFadd]. cbn [f32_finite] in Fa, Fb. eexists _, (Z.min ea eb). split; [lia|]. split; [reflexivity|].
  cbn [f32_units]. rewrite <- (align_min ma ea (Z.min ea eb)), <- (align_min mb eb (Z.min ea eb)) by lia. destruct sa, sb; cbn [cond_Zopp]; lia.
Qed.

Lemma add_floor a b : moderate a -> moderate b -> 2 ^ 149 <= f32_units a + f32_units b -> 2 ^ 149 <= f32_units (f32_add a b).
Proof.
  intros [Fa Va] [Fb Vb] H. destruct (add_exact a b Fa Fb) as [[_ ->]|(z & e & He & -> & E)]; [exact H|].
  apply normalize_floor; [exact He| |lia]. rewrite <- (Z.abs_eq (2 ^ (e + 149))), <- Z.abs_mul, <- E by (apply Z.pow_nonneg; lia).
  apply Z.le_lt_trans with (2 ^ 199 + 2 ^ 199); [lia|reflexivity].
Qed.

Lemma add_nonneg a b : f32_finite a -> f32_finite b -> 0 <= f32_units a + f32_units b -> 0 <= f32_units (f32_add a b).
Proof.
  intros Fa Fb H. destruct (add_exact a b Fa Fb) as [[_ ->]|(z & e & He & -> & E)]; [exact H|].
  apply normalize_sign. assert (0 < 2 ^ (e + 149)) by (apply Z.pow_pos_nonneg; lia). nia.
Qed.

(** A part of a whole that is at least one. *)
Lemma div_unit a b : moderate a -> moderate b -> 0 <= f32_units a <= f32_units b -> 2 ^ 149 <= f32_units b ->
  f32_finite (f32_div a b) /\ 0 <= f32_units (f32_div a b) <= 2 ^ 149.
Proof.
  intros Ma Mb Hab Hb. destruct (div_near a b Ma Mb ltac:(lia)) as [F _]. split; [exact F|]. clear F. destruct Ma as [Fa _], Mb as [Fb _]. unfold f32_div.
  destruct a as [sa|sa| |sa ma ea], b as [sb|sb| |sb mb eb]; try contradiction; try (cbn [f32_units] in Hb; lia); [cbn [SFdiv f32_units]; lia|].
  cbn [f32_finite] in Fa, Fb. cbn [f32_units] in Hab, Hb.
  assert (Pa : 0 < 2 ^ (ea + 149)) by (apply Z.pow_pos_nonneg; lia). assert (Pb : 0 < 2 ^ (eb + 149)) by (apply Z.pow_pos_nonneg; lia).
  assert (sa = false) as -> by (destruct sa; [nia|reflexivity]). assert (sb = false) as -> by (destruct sb; [nia|reflexivity]). rewrite !Z.mul_1_l in *.
  cbn [SFdiv xorb]. pose proof (div_core ma ea mb eb ltac:(lia) ltac:(lia)) as C.
  destruct (SFdiv_core_binary fprec femax (Z.pos ma) ea (Z.pos mb) eb) as [[q e] l]. destruct C as (Hq & He & Hlow & Hp & Hlow' & HC & Hex).
  pose proof (round_sign false q e l Hq Hp) as RS. cbn [sign_of] in RS. split; [lia|].
  assert (E0 : e <= 0).
  { destruct (Z.le_gt_cases e 0) as [|G]; [assumption|exfalso]. destruct Hlow as [Hlow|Hlow]; [lia|].
    assert (E1 : 2 ^ (ea - eb - e) * 2 ^ e * 2 ^ (eb + 149) = 2 ^ (ea + 149)) by (rewrite <- !Z.pow_add_r by lia; f_equal; lia).
    assert (0 < 2 ^ e) by (apply Z.pow_pos_nonneg; lia). assert (q * Z.pos mb * (2 ^ e * 2 ^ (eb + 149)) <= Z.pos ma * 2 ^ (ea + 149)) by (rewrite <- E1; nia).
    assert (2 ^ 23 * (Z.pos mb * 2 ^ (eb + 149)) <= q * 2 ^ e * (Z.pos mb * 2 ^ (eb + 149))) by (apply Z.mul_le_mono_nonneg_r; nia). nia. }
  assert (E2 : Z.pos ma * 2 ^ (ea - eb - e) <= Z.pos mb * 2 ^ (- e)).
  { apply (Z.mul_le_mono_pos_r _ _ (2 ^ (eb + 149))); [exact Pb|].
    assert (E3 : 2 ^ (ea - eb - e) * 2 ^ (eb + 149) = 2 ^ (ea + 149) * 2 ^ (- e)) by (rewrite <- !Z.pow_add_r by lia; f_equal; lia).
    rewrite <- Z.mul_assoc, E3. assert (0 < 2 ^ (- e)) by (apply Z.pow_pos_nonneg; lia). nia. }
  apply round_ceiling; [exact Hq|exact Hp|exact E0|]. destruct (decide (q = 2 ^ (- e))) as [E|E]; [right; split; [exact E|]|left; nia].
  apply Hex. nia.
Qed.

(* ------------------------------------------------------------------ *)
(** ** The order of valid numbers *)

Definition f32_valid (a : float32) : Prop := valid_binary fprec femax a = true /\ f32_finite a.

Lemma valid_mantissa s m e : f32_valid (S754_finite s m e) -> e = -149 \/ 2 ^ 23 <= Z.pos m.
Proof.
  intros [V _]. cbn [valid_binary] in V. unfold bounded, canonical_mantissa in V. apply andb_true_iff in V as [V _]. apply Z.eqb_eq in V.
  rewrite fexp_max in V. destruct (Z.le_gt_cases e (-149)) as [L|L]; [left; lia|right]. pose proof (digits_bounds (Z.pos m) ltac:(lia)) as [D _].
  cbn [Zdigits2] in D. replace (Z.pos (digits2_pos m) - 1) with 23 in D by lia. exact D.
Qed.

Lemma smaller_exponent s1 m1 e1 s2 m2 e2 : f32_valid (S754_finite s1 m1 e1) -> f32_valid (S754_finite s2 m2 e2) -> e1 < e2 ->
  Z.pos m1 * 2 ^ (e1 + 149) < Z.pos m2 * 2 ^ (e2 + 149).
Proof.
  intros V1 V2 He. destruct (valid_mantissa _ _ _ V2) as [E|M2]; destruct V1 as [_ F1], V2 as [_ F2]; cbn [f32_finite] in *; [lia|].
  pose proof (Z.pow_le_mono_r 2 (e1 + 150) (e2 + 149) ltac:(lia) ltac:(lia)) as P. replace (e1 + 150) with (1 + (e1 + 149)) in P by lia. rewrite Z.pow_add_r in P by lia.
  assert (0 < 2 ^ (e1 + 149)) by (apply Z.pow_pos_nonneg; lia). nia.
Qed.

Lemma ltb_units a b : f32_valid a -> f32_valid b -> (f32_ltb a b = true <-> f32_units a < f32_units b).
Proof.
  intros Va Vb. unfold f32_ltb, SFltb. destruct a as [sa|sa| |sa ma ea]; try (destruct Va; contradiction);
    destruct b as [sb|sb| |sb mb eb]; try (destruct Vb; contradiction); cbn [SFcompare f32_units].
  - split; [discriminate|lia].
  - assert (0 < 2 ^ (eb + 149)) by (destruct Vb as [_ Fb]; cbn in Fb; apply Z.pow_pos_nonneg; lia). destruct sb; split; intros; try discriminate; try reflexivity; nia.
  - assert (0 < 2 ^ (ea + 149)) by (destruct Va as [_ Fa]; cbn in Fa; apply Z.pow_pos_nonneg; lia). destruct sa; split; intros; try discriminate; try reflexivity; nia.
  - assert (0 < 2 ^ (ea + 149)) by (destruct Va as [_ Fa]; cbn in Fa; apply Z.pow_pos_nonneg; lia).
    assert (0 < 2 ^ (eb + 149)) by (destruct Vb as [_ Fb]; cbn in Fb; apply Z.pow_pos_nonneg; lia).
    pose proof (smaller_exponent _ _ _ _ _ _ Va Vb) as Lab. pose proof (smaller_exponent _ _ _ _ _ _ Vb Va) as Lba.
    destruct sa, sb; try (split; intros; [first [discriminate|nia]|first [reflexivity|nia]]).
    + destruct (Z.compare_spec ea eb) as [E|E|E]; [subst eb|specialize (Lab E); split; [discriminate|lia]|specialize (Lba E); split; [lia|reflexivity]].
      change (Pos.compare_cont Eq ma mb) with (ma ?= mb)%positive. destruct (Pos.compare_spec ma mb); cbn [CompOpp]; split; intros; try discriminate; try reflexivity; nia.
    + destruct (Z.compare_spec ea eb) as [E|E|E]; [subst eb|specialize (Lab E); split; [lia|reflexivity]|specialize (Lba E); split; [discriminate|lia]].
      change (Pos.compare_cont Eq ma mb) with (ma ?= mb)%positive. destruct (Pos.compare_spec ma mb); split; intros; try discriminate; try reflexivity; nia.
Qed.

(** The difference from a number not below is not positive. *)
Lemma sub_nonpos a b : f32_finite a -> f32_finite b -> f32_units a <= f32_units b ->
  is_nan (f32_sub a b) = false /\ f32_leb (f32_sub a b) (S754_zero false) = true.
Proof.
  intros Fa Fb H. rewrite sub_is_add. assert (Fo : f32_finite (SFopp b)) by (destruct b; exact Fb). pose proof (opp_units b) as Vo.
  assert (K : forall z e, z <= 0 -> is_nan (binary_normalize fprec femax z e false) = false /\ f32_leb (binary_normalize fprec femax z e false) (S754_zero false) = true).
  { intros z e Hz. destruct z as [|p|p]; [split; reflexivity|lia|]. cbn [binary_normalize]. unfold binary_round.
    destruct (shl_align p e (fexp fprec femax (Z.pos (digits2_pos p) + e))) as [m e'].
    destruct (round_aux_spec true (Z.pos m) e' loc_Exact ltac:(lia) ltac:(left; reflexivity)) as (k & n & R & ->). destruct R as [_ R _ _ _ _ _].
    destruct k as [|k|k]; [split; reflexivity| |lia]. destruct (e' + n <=? 104); split; reflexivity. }
  destruct (add_exact a (SFopp b) Fa Fo) as [[F E]|(z & e & He & -> & E)].
  - rewrite Vo in E. revert F E. generalize (f32_add a (SFopp b)). intros c F E. destruct c as [s|s| |s m e]; try contradiction; [split; reflexivity|].
    cbn [f32_finite f32_units] in F, E. assert (0 < 2 ^ (e + 149)) by (apply Z.pow_pos_nonneg; lia). destruct s; [split; reflexivity|nia].
  - apply K. rewrite Vo in E. assert (0 < 2 ^ (e + 149)) by (apply Z.pow_pos_nonneg; lia). nia.
Qed.

Lemma sub_self a : f32_finite a -> exists s, f32_sub a a = S754_zero s.
Proof.
  intros F. destruct a as [s|s| |s m e]; try contradiction; [destruct s; eexists; reflexivity|].
  exists false. unfold f32_sub. cbn [SFsub]. rewrite Z.sub_diag. reflexivity.
Qed.
