(* ===== verification/Format.v ===== *)
(** * Text formatting and number parsing of the C++ library

    The parts of the standard library that turn numbers into text and back,
    as the program uses them: [std::to_string] and [std::format] with the
    [{}] and [{:.Nf}] fields ([vformat] for format strings that come from a
    translation), [std::from_chars] and [std::stoi] for [int], [strtof] and [std::stof],
    [std::isspace] and [std::tolower]. Rounding is exact in both directions:
    a [float] is printed from its exact value and text is rounded to the
    nearest [float], ties to even. The locale is "C". *)
From stdpp Require Import pretty.
From Stdlib Require Import SpecFloat Ascii String.
From S2P Require Import Prelude Float32.
Local Open Scope string_scope.
Local Open Scope Z_scope.
Local Open Scope list_scope.

(** Text as the parsers consume it. *)
Definition chars : Type := list ascii.

Definition chars_of (s : string) : chars := String.list_ascii_of_string s.
Definition text_of (l : chars) : string := String.string_of_list_ascii l.

Definition code (c : ascii) : Z := Z.of_N (N_of_ascii c).
Definition chr (z : Z) : ascii := ascii_of_N (Z.to_N z).

Definition kQuote : ascii := "034"%char.
Definition kLF : ascii := "010"%char.
Definition kCR : ascii := "013"%char.

(* ------------------------------------------------------------------ *)
(** ** Character classes *)

Definition isdigit (c : ascii) : bool := (48 <=? code c) && (code c <=? 57).
Definition digit_val (c : ascii) : Z := code c - 48.

(** [std::isspace]: space, \t, \n, \v, \f, \r. *)
Definition isspace (c : ascii) : bool := (code c =? 32) || ((9 <=? code c) && (code c <=? 13)).

(** [std::tolower]. *)
Definition tolower (c : ascii) : ascii := if (65 <=? code c) && (code c <=? 90) then chr (code c + 32) else c.

Definition hex_val (c : ascii) : option Z :=
  if isdigit c then Some (digit_val c)
  else let n := code (tolower c) in if (97 <=? n) && (n <=? 102) then Some (n - 87) else None.

(* ------------------------------------------------------------------ *)
(** ** Printing *)

(** [std::to_string] on integers. *)
Definition to_string (z : Z) : string := pretty z.

(** A quotient rounded to the nearest integer, ties to even. *)
Definition round_half_even (n d : Z) : Z :=
  let q := n / d in
  let r := n mod d in
  if 2 * r <? d then q
  else if d <? 2 * r then q + 1
  else if Z.even q then q else q + 1.

Fixpoint zeros (n : nat) : string := match n with O => "" | S n => String "0"%char (zeros n) end.

(** [z] in decimal with at least [w] digits. *)
Definition padded (w : nat) (z : Z) : string :=
  let s := pretty z in (zeros (w - String.length s) ++ s)%string.

(** The magnitude [n * 10^-p]. *)
Definition decimal (p : nat) (n : Z) : string :=
  match p with
  | O => pretty n
  | _ => (pretty (n / 10 ^ Z.of_nat p) ++ "." ++ padded p (n mod 10 ^ Z.of_nat p))%string
  end.

Definition sign_of (s : bool) : string := if s then "-" else "".

(** A finite magnitude times [10^p], rounded to an integer. *)
Definition scaled (p : nat) (m : positive) (e : Z) : Z :=
  if 0 <=? e then Zpos m * 2 ^ e * 10 ^ Z.of_nat p
  else round_half_even (Zpos m * 10 ^ Z.of_nat p) (2 ^ (- e)).

(** The field [{:.Nf}]. The sign of a NaN is not represented. *)
Definition fmt_fixed (p : nat) (x : spec_float) : string :=
  match x with
  | S754_nan => "nan"
  | S754_infinity s => (sign_of s ++ "inf")%string
  | S754_zero s => (sign_of s ++ decimal p 0)%string
  | S754_finite s m e => (sign_of s ++ decimal p (scaled p m e))%string
  end.

(** Arguments of a format string, and [std::vformat] on a string whose fields
    are [{}], [{N}], [{:.Nf}] or [{N:.Nf}]; anything else between braces is
    refused with [format_error], a [runtime_error]. *)
Inductive fmt_arg := FInt (z : Z) | FText (s : string) | FFloat (f : spec_float).

Fixpoint span (p : ascii -> bool) (l : chars) : chars * chars :=
  match l with
  | c :: l' => if p c then let (a, b) := span p l' in (c :: a, b) else ([], l)
  | [] => ([], [])
  end.

Definition digits_val (l : chars) : Z := fold_left (fun n c => 10 * n + digit_val c) l 0.

Definition fmt_show (spec : chars) (a : fmt_arg) : outcome string :=
  match spec, a with
  | [], FInt z => Ret (pretty z)
  | [], FText s => Ret s
  | "."%char :: d, FFloat f =>
      let (ds, rest) := span isdigit d in
      match ds, rest with
      | _ :: _, ["f"%char] => Ret (fmt_fixed (Z.to_nat (digits_val ds)) f)
      | _, _ => Throw runtime_error
      end
  | _, _ => Throw runtime_error
  end.

(** One field: its text and index, and the next automatic index. *)
Definition fmt_field (field : chars) (auto : nat) (args : list fmt_arg) : outcome string :=
  let (ds, rest) := span isdigit field in
  let i := match ds with [] => auto | _ => Z.to_nat (digits_val ds) end in
  match rest, args !! i with
  | [], Some a => fmt_show [] a
  | ":"%char :: spec, Some a => fmt_show spec a
  | _, _ => Throw runtime_error
  end.

Fixpoint vformat_loop (fuel : nat) (l : chars) (auto : nat) (args : list fmt_arg) : outcome string :=
  match fuel with
  | O => Ret ""
  | S fuel =>
      match l with
      | [] => Ret ""
      | "{"%char :: "{"%char :: l => rest ← vformat_loop fuel l auto args; Ret (String "{"%char rest)
      | "}"%char :: "}"%char :: l => rest ← vformat_loop fuel l auto args; Ret (String "}"%char rest)
      | "}"%char :: _ => Throw runtime_error
      | "{"%char :: l =>
          let (field, l) := span (fun c => negb (Ascii.eqb c "}"%char)) l in
          match l with
          | [] => Throw runtime_error
          | _ :: l =>
              shown ← fmt_field field auto args;
              rest ← vformat_loop fuel l (S auto) args;
              Ret (shown ++ rest)%string
          end
      | c :: l => rest ← vformat_loop fuel l auto args; Ret (String c rest)
      end
  end.

(** Every step consumes a character, so the length is enough fuel. *)
Definition vformat (f : string) (args : list fmt_arg) : outcome string :=
  vformat_loop (S (String.length f)) (chars_of f) 0 args.

Example vformat_ex :
  vformat "Pass rate {:.1f}% (target {:.0f}%)" [FFloat (f32_lit 957 1); FFloat (f32_of_Z 95)] =
    Ret "Pass rate 95.7% (target 95%)".
Proof. vm_compute. reflexivity. Qed.

(* ------------------------------------------------------------------ *)
(** ** Parsing integers *)

Inductive from_chars_result :=
| FcOk (value : Z) (rest : chars)
| FcInvalid
| FcRange (rest : chars).

(** An optional minus sign. *)
Definition take_minus (l : chars) : bool * chars :=
  match l with c :: l' => if Ascii.eqb c "-"%char then (true, l') else (false, l) | [] => (false, l) end.

(** [std::from_chars] into an [int], base 10. *)
Definition from_chars_int (l : chars) : from_chars_result :=
  let (neg, body) := take_minus l in
  let (ds, rest) := span isdigit body in
  match ds with
  | [] => FcInvalid
  | _ =>
      let v := if neg then - digits_val ds else digits_val ds in
      if (int_min <=? v) && (v <=? int_max) then FcOk v rest else FcRange rest
  end.

(** An optional sign. *)
Definition take_sign (l : chars) : bool * chars :=
  match l with
  | c :: l' => if Ascii.eqb c "-"%char then (true, l') else if Ascii.eqb c "+"%char then (false, l') else (false, l)
  | [] => (false, l)
  end.

(** [std::stoi], base 10: leading space, a sign and digits; what follows them
    is ignored. *)
Definition stoi (l : chars) : outcome Z :=
  let (_, l) := span isspace l in
  let (neg, body) := take_sign l in
  let (ds, _) := span isdigit body in
  match ds with
  | [] => Throw invalid_argument
  | _ =>
      let v := if neg then - digits_val ds else digits_val ds in
      if (int_min <=? v) && (v <=? int_max) then Ret v else Throw out_of_range
  end.

Example stoi_ex : stoi (chars_of " -12x") = Ret (-12) /\ stoi (chars_of "+7.9") = Ret 7 /\
  stoi (chars_of "true") = Throw invalid_argument /\ stoi (chars_of "2147483648") = Throw out_of_range.
Proof. vm_compute. auto. Qed.

(* ------------------------------------------------------------------ *)
(** ** Parsing floats *)

(** A finite magnitude [num / den], rounded. *)
Definition f32_of_ratio (s : bool) (num den : Z) : float32 :=
  match num, den with
  | Zpos n, Zpos d => SFdiv fprec femax (S754_finite s n 0) (S754_finite false d 0)
  | _, _ => S754_zero s
  end.

(** glibc sets [ERANGE] on overflow, and on underflow when the result is
    inexact and the value lies below the smallest normal number. *)
Definition erange (num den : Z) (r : float32) : bool :=
  match r with
  | S754_infinity _ => true
  | S754_zero _ => negb (num =? 0)
  | S754_finite _ m e =>
      (num * 2 ^ 151 <? (2 ^ 25 - 1) * den) && negb (Zpos m * den * 2 ^ (e + 149) =? num * 2 ^ 149)
  | S754_nan => false
  end.

(** An optional exponent: the marker, an optional sign and digits; nothing is
    consumed when there are no digits. *)
Definition exponent (mark : ascii) (l : chars) : Z * chars :=
  match l with
  | c :: l' =>
      if Ascii.eqb (tolower c) mark then
        let (neg, body) := match l' with
                           | "-"%char :: t => (true, t) | "+"%char :: t => (false, t) | _ => (false, l') end in
        let (ds, rest) := span isdigit body in
        match ds with [] => (0, l) | _ => ((if neg then - digits_val ds else digits_val ds), rest) end
      else (0, l)
  | [] => (0, l)
  end.

(** Digits with an optional point: the digits before it, after it, the rest. *)
Definition pointed (p : ascii -> bool) (l : chars) : chars * chars * chars :=
  let (whole, rest) := span p l in
  match rest with
  | "."%char :: rest' =>
      let (frac, rest'') := span p rest' in
      match whole, frac with [], [] => ([], [], rest) | _, _ => (whole, frac, rest'') end
  | _ => (whole, [], rest)
  end.

Definition is_hex (c : ascii) : bool := match hex_val c with Some _ => true | None => false end.
Definition hex_digits_val (l : chars) : Z := fold_left (fun n c => 16 * n + default 0 (hex_val c)) l 0.

(** [m * b^e] as a fraction. *)
Definition power_ratio (b m e : Z) : Z * Z := if 0 <=? e then (m * b ^ e, 1) else (m, b ^ (- e)).

(** Does [l] start with [w], ignoring case? *)
Fixpoint prefix_ci (w : chars) (l : chars) : option chars :=
  match w, l with
  | [], _ => Some l
  | a :: w, c :: l => if Ascii.eqb a (tolower c) then prefix_ci w l else None
  | _ :: _, [] => None
  end.

Definition is_nan_char (c : ascii) : bool :=
  isdigit c || Ascii.eqb c "_"%char || ((97 <=? code (tolower c)) && (code (tolower c) <=? 122)).

(** The unsigned part of a number: the value, whether [ERANGE] is set, and
    the rest; [None] when there is no conversion. *)
Definition strtof_unsigned (s : bool) (l : chars) : option (float32 * bool * chars) :=
  let number m b e rest :=
    let r := power_ratio b m e in
    let v := f32_of_ratio s (fst r) (snd r) in Some (v, erange (fst r) (snd r) v, rest) in
  let decimal_number :=
    let '(whole, frac, rest) := pointed isdigit l in
    match whole ++ frac with
    | [] => None
    | ds => let (e, rest) := exponent "e"%char rest in
            number (digits_val ds) 10 (e - Z.of_nat (length frac)) rest
    end in
  match prefix_ci (chars_of "inf") l with
  | Some rest => Some (S754_infinity s, false, default rest (prefix_ci (chars_of "inity") rest))
  | None =>
      match prefix_ci (chars_of "nan") l with
      | Some rest =>
          Some (S754_nan, false,
                match rest with
                | "("%char :: t => match span is_nan_char t with (_, ")"%char :: t') => t' | _ => rest end
                | _ => rest
                end)
      | None =>
          match prefix_ci (chars_of "0x") l with
          | Some rest =>
              let '(whole, frac, rest) := pointed is_hex rest in
              match whole ++ frac with
              | [] => decimal_number
              | ds => let (e, rest) := exponent "p"%char rest in
                      number (hex_digits_val ds) 2 (e - 4 * Z.of_nat (length frac)) rest
              end
          | None => decimal_number
          end
      end
  end.

Definition strtof (l : chars) : option (float32 * bool * chars) :=
  let (_, l) := span isspace l in
  match l with
  | "-"%char :: l' => strtof_unsigned true l'
  | "+"%char :: l' => strtof_unsigned false l'
  | _ => strtof_unsigned false l
  end.

(** [std::stof], which ignores what follows the number. *)
Definition stof (l : chars) : outcome float32 :=
  match strtof l with
  | None => Throw invalid_argument
  | Some (_, true, _) => Throw out_of_range
  | Some (v, false, _) => Ret v
  end.

Example stof_ex1 : stof (chars_of "95.7") = Ret (f32_lit 957 1).
Proof. vm_compute. reflexivity. Qed.
Example stof_ex2 : stof (chars_of " -1.5e2x") = Ret (f32_of_Z (-150)).
Proof. vm_compute. reflexivity. Qed.
Example stof_ex3 : stof (chars_of "0x1.8p1") = Ret (f32_of_Z 3) /\ stof (chars_of "1e39") = Throw out_of_range /\
  stof (chars_of "1e-50") = Throw out_of_range /\ stof (chars_of "-") = Throw invalid_argument /\
  stof (chars_of "Infinity") = Ret (S754_infinity false) /\ stof (chars_of "1e-40") = Throw out_of_range /\
  stof (chars_of "0x1p-149") = Ret (S754_finite false 1 (-149)).
Proof. vm_compute. repeat split. Qed.

(* ------------------------------------------------------------------ *)
(** ** Lemmas *)

Lemma text_of_chars s : text_of (chars_of s) = s.
Proof. apply String.string_of_list_ascii_of_string. Qed.
Lemma chars_of_text l : chars_of (text_of l) = l.
Proof. apply String.list_ascii_of_string_of_list_ascii. Qed.
Lemma chars_of_app s t : chars_of (s ++ t)%string = chars_of s ++ chars_of t.
Proof.
  induction s as [|c s IH]; [reflexivity|]. change (String c s ++ t)%string with (String c (s ++ t)%string).
  unfold chars_of in *. cbn. f_equal. exact IH.
Qed.
Lemma chars_of_inj s t : chars_of s = chars_of t -> s = t.
Proof. intros H. rewrite <- (text_of_chars s), <- (text_of_chars t). congruence. Qed.
Lemma length_chars_of s : length (chars_of s) = String.length s.
Proof. induction s as [|c s IH]; [reflexivity|]. unfold chars_of in *. cbn. congruence. Qed.

(** A text without a character. *)
Fixpoint no_char (c : ascii) (s : string) : bool :=
  match s with EmptyString => true | String d s => negb (bool_decide (c = d)) && no_char c s end.

Lemma string_app_assoc (a b c : string) : (a ++ (b ++ c) = (a ++ b) ++ c)%string.
Proof. apply chars_of_inj. rewrite !chars_of_app, app_assoc. reflexivity. Qed.
Lemma string_app_nil (a : string) : (a ++ "" = a)%string.
Proof. apply chars_of_inj. rewrite chars_of_app. apply app_nil_r. Qed.

Lemma string_cons_app c (a b : string) : (String c a ++ b = String c (a ++ b))%string.
Proof. reflexivity. Qed.
Lemma string_nil_app (b : string) : ("" ++ b = b)%string.
Proof. reflexivity. Qed.

Lemma no_char_cons c d s : no_char c (String d s) = true -> c <> d /\ no_char c s = true.
Proof. cbn. rewrite andb_true_iff, negb_true_iff, bool_decide_eq_false. auto. Qed.

Lemma no_char_spec c s : no_char c s = true <-> Forall (fun d => c <> d) (chars_of s).
Proof.
  induction s as [|d s IH]; cbn; [split; auto|]. rewrite andb_true_iff, negb_true_iff, bool_decide_eq_false, Forall_cons, IH. reflexivity.
Qed.

Lemma span_all p l rest :
  Forall (fun c => p c = true) l -> match rest with c :: _ => p c = false | [] => True end ->
  span p (l ++ rest) = (l, rest).
Proof.
  induction 1 as [|c l Hc _ IH]; intros Hr; cbn.
  - destruct rest as [|c rest]; cbn; [reflexivity|]. rewrite Hr. reflexivity.
  - rewrite Hc, IH by exact Hr. reflexivity.
Qed.

Lemma span_spec p l a b : span p l = (a, b) ->
  l = a ++ b /\ Forall (fun c => p c = true) a /\ match b with c :: _ => p c = false | [] => True end.
Proof.
  revert a b. induction l as [|c l IH]; cbn; intros a b.
  - intros [= <- <-]. repeat split; constructor.
  - destruct (p c) eqn:E.
    + destruct (span p l) as [a' b'] eqn:Es. intros [= <- <-]. destruct (IH a' b' eq_refl) as (H1 & H2 & H3).
      split; [cbn; congruence|]. split; [constructor; assumption|exact H3].
    + intros [= <- <-]. split; [reflexivity|]. split; [constructor|exact E].
Qed.

Lemma digits_val_snoc l c : digits_val (l ++ [c]) = 10 * digits_val l + digit_val c.
Proof. unfold digits_val. rewrite fold_left_app. reflexivity. Qed.

Definition all_digits (l : chars) : Prop := Forall (fun c => isdigit c = true) l.

Lemma digit_char (x : N) : (x < 10)%N -> isdigit (pretty_N_char x) = true /\ digit_val (pretty_N_char x) = Z.of_N x.
Proof.
  intros H. assert (E : In x [0;1;2;3;4;5;6;7;8;9]%N) by (cbn; lia).
  repeat (destruct E as [<-|E]; [vm_compute; auto|]). destruct E.
Qed.

Lemma pretty_go_digits (x : N) : forall s, exists ds,
  chars_of (pretty_N_go x s) = ds ++ chars_of s /\ all_digits ds /\ digits_val ds = Z.of_N x /\
  ((0 < x)%N -> ds <> [] /\ digits_val (take 1 ds) <> 0).
Proof.
  induction x as [x IH] using (well_founded_induction N.lt_wf_0). intros s.
  destruct (N.eq_dec x 0) as [->|Hx].
  - exists []. rewrite pretty_N_go_0. repeat split; try constructor; lia.
  - rewrite pretty_N_go_step by lia.
    assert (Hlt : (x `div` 10 < x)%N) by (apply N.div_lt; lia).
    destruct (IH _ Hlt (String (pretty_N_char (x `mod` 10)) s)) as (ds & E & Hd & Hv & Hne).
    destruct (digit_char (x `mod` 10)) as [Hc Hcv]; [apply N.mod_lt; lia|].
    exists (ds ++ [pretty_N_char (x `mod` 10)]). split; [rewrite E; cbn; rewrite <- app_assoc; reflexivity|].
    split; [apply Forall_app; split; [exact Hd|constructor; [exact Hc|constructor]]|].
    split; [rewrite digits_val_snoc, Hv, Hcv; pose proof (N.div_mod x 10); lia|].
    intros _. destruct (N.eq_dec (x `div` 10) 0) as [Hz|Hz].
    + rewrite Hz in *. destruct ds as [|c ds]; cbn [app take].
      * split; [discriminate|]. unfold digits_val. cbn. rewrite Hcv. pose proof (N.div_mod x 10). lia.
      * rewrite pretty_N_go_0 in E. exfalso. apply (f_equal length) in E. rewrite length_app in E.
        cbn [length] in E. lia.
    + destruct Hne as [Hne Hl]; [apply N.neq_0_lt_0; exact Hz|]. destruct ds as [|c ds]; [congruence|]. split; [discriminate|exact Hl].
Qed.

(** Decimal digits of a number: no leading zero except in 0 itself. *)
Lemma pretty_digits (n : Z) : 0 <= n -> exists ds,
  chars_of (pretty n) = ds /\ all_digits ds /\ digits_val ds = n /\ ds <> [] /\
  (n <> 0 -> digits_val (take 1 ds) <> 0).
Proof.
  intros Hn. destruct n as [|p|p]; [| |lia].
  - exists ["0"%char]. repeat split; try discriminate; [repeat constructor|congruence].
  - destruct (pretty_go_digits (Npos p) "") as (ds & E & Hd & Hv & Hne). destruct Hne as [Hne Hl]; [lia|].
    exists ds. change (pretty (Zpos p)) with (pretty_N_go (Npos p) ""). rewrite E. cbn. rewrite app_nil_r. auto.
Qed.

Lemma pretty_neg p : pretty (Zneg p) = String "-"%char (pretty (Zpos p)).
Proof. reflexivity. Qed.

(** [std::from_chars] reads back what [std::to_string] wrote. *)
Lemma from_chars_pretty z rest :
  int_min <= z <= int_max -> match rest with c :: _ => isdigit c = false | [] => True end ->
  from_chars_int (chars_of (to_string z) ++ rest) = FcOk z rest.
Proof.
  intros Hz Hr. unfold to_string.
  assert (Hpos : forall n neg, 0 <= n -> (if neg : bool then - n else n) = z ->
    (let (ds, rest0) := span isdigit (chars_of (pretty n) ++ rest) in
     match ds with
     | [] => FcInvalid
     | _ => let v := if neg then - digits_val ds else digits_val ds in
            if (int_min <=? v) && (v <=? int_max) then FcOk v rest0 else FcRange rest0
     end) = FcOk z rest).
  { intros n neg Hn Ez. destruct (pretty_digits n Hn) as (ds & E & Hd & Hv & Hne & _). rewrite E.
    rewrite (span_all isdigit ds rest Hd Hr). destruct ds as [|c ds]; [congruence|]. rewrite Hv, Ez.
    cbv zeta. rewrite (proj2 (Z.leb_le _ _)), (proj2 (Z.leb_le _ _)) by lia. reflexivity. }
  destruct (Z.leb_spec 0 z).
  - pose proof (Hpos z false ltac:(lia) eq_refl) as Hp. unfold from_chars_int.
    destruct (pretty_digits z ltac:(lia)) as (ds & E & Hd & _ & Hne & _).
    assert (Hfirst : take_minus (chars_of (pretty z) ++ rest) = (false, chars_of (pretty z) ++ rest)).
    { rewrite E. destruct ds as [|c ds]; [congruence|]. apply Forall_cons in Hd as [Hc _]. cbn.
      destruct (Ascii.eqb_spec c "-"%char) as [->|Hc']; [vm_compute in Hc; discriminate|reflexivity]. }
    rewrite Hfirst. exact Hp.
  - destruct z as [| |p]; [lia|lia|]. rewrite pretty_neg. exact (Hpos (Zpos p) true ltac:(lia) eq_refl).
Qed.

Lemma pretty_head (z : Z) : exists c l, chars_of (pretty z) = c :: l /\ (isdigit c = true \/ c = "-"%char).
Proof.
  destruct (Z.leb_spec 0 z).
  - destruct (pretty_digits z ltac:(lia)) as (ds & E & Hd & _ & Hne & _). destruct ds as [|c ds]; [congruence|].
    apply Forall_cons in Hd as [Hc _]. eauto.
  - destruct z as [| |p]; [lia|lia|]. rewrite pretty_neg. cbn. eauto.
Qed.

Lemma stoi_from_chars c l v rest : isdigit c = true \/ c = "-"%char ->
  from_chars_int (c :: l) = FcOk v rest -> stoi (c :: l) = Ret v.
Proof.
  intros Hc H. unfold stoi.
  assert (Sp : isspace c = false).
  { destruct Hc as [Hc| ->]; [|reflexivity]. unfold isdigit in Hc. unfold isspace. apply andb_true_iff in Hc as [H1 H2].
    apply Z.leb_le in H1, H2. rewrite orb_false_iff, andb_false_iff, Z.eqb_neq, !Z.leb_gt. lia. }
  cbn [span]. rewrite Sp. cbn iota beta. unfold from_chars_int, take_minus in H.
  assert (E : take_sign (c :: l) = take_minus (c :: l)).
  { unfold take_sign, take_minus. destruct Hc as [Hc| ->]; [|reflexivity]. destruct (Ascii.eqb_spec c "+"%char) as [->|_]; [discriminate Hc|].
    destruct (Ascii.eqb c "-"%char); reflexivity. }
  rewrite E. unfold take_minus. destruct (if Ascii.eqb c "-"%char then _ else _) as [neg body]. destruct (span isdigit body) as [ds r].
  destruct ds as [|d ds]; [discriminate|]. cbv zeta in *. destruct (_ && _); [congruence|discriminate].
Qed.

(** [std::stoi] reads back what [std::to_string] wrote. *)
Lemma stoi_pretty z : int_min <= z <= int_max -> stoi (chars_of (to_string z)) = Ret z.
Proof.
  intros Hz. pose proof (from_chars_pretty z [] Hz I) as H. rewrite app_nil_r in H. unfold to_string in *.
  destruct (pretty_head z) as (c & l & E & Hc). rewrite E in *. exact (stoi_from_chars c l z [] Hc H).
Qed.

(* ------------------------------------------------------------------ *)
(** ** Searching text *)

(** [std::string::find], from a position, and [replace]. *)
Definition str_find (needle s : string) (pos : nat) : option nat := String.index pos needle s.
Definition str_replace (s : string) (pos len : nat) (value : string) : string :=
  (substring 0 pos s ++ value ++ substring (pos + len) (String.length s - (pos + len)) s)%string.

Lemma length_string_app (a b : string) : String.length (a ++ b)%string = (String.length a + String.length b)%nat.
Proof. induction a as [|c a IH]; [reflexivity|]. rewrite string_cons_app. cbn [String.length]. rewrite IH. reflexivity. Qed.

Lemma prefix_split k : forall s, String.prefix k s = true -> exists b, s = (k ++ b)%string.
Proof.
  induction k as [|c k IH]; intros s H; [exists s; reflexivity|]. destruct s as [|d s]; [discriminate|]. cbn in H.
  destruct (Ascii.ascii_dec c d) as [->|]; [|discriminate]. destruct (IH s H) as (b & ->). exists b. reflexivity.
Qed.

Lemma find_some k s : forall n m, str_find k s n = Some m ->
  (n <= m)%nat /\ exists a b, s = (a ++ k ++ b)%string /\ String.length a = m.
Proof.
  unfold str_find. induction s as [|c s IH]; intros n m H.
  - destruct n; [|discriminate]. destruct k; [|discriminate]. injection H as <-. split; [lia|]. exists "", "". auto.
  - destruct n as [|n]; cbn [String.index] in H.
    + destruct (String.prefix k (String c s)) eqn:P.
      * injection H as <-. split; [lia|]. apply prefix_split in P as (b & ->). exists "", b. auto.
      * destruct (String.index 0 k s) as [i|] eqn:E; [|discriminate]. injection H as <-.
        destruct (IH 0%nat i E) as (_ & a & b & -> & <-). split; [lia|]. exists (String c a), b. auto.
    + destruct (String.index n k s) as [i|] eqn:E; [|discriminate]. injection H as <-.
      destruct (IH n i E) as (Hn & a & b & -> & <-). split; [lia|]. exists (String c a), b. auto.
Qed.

Lemma find_bound k s n m : str_find k s n = Some m -> (n <= m /\ m + String.length k <= String.length s)%nat.
Proof. intros H. destruct (find_some k s n m H) as (Hn & a & b & -> & L). rewrite !length_string_app. lia. Qed.

Lemma prefix_app k a b b' : (String.length k <= String.length a)%nat -> String.prefix k (a ++ b) = String.prefix k (a ++ b').
Proof.
  revert a. induction k as [|c k IH]; intros a H.
  - destruct (a ++ b)%string, (a ++ b')%string; reflexivity.
  - destruct a as [|d a]; [cbn in H; lia|].
  rewrite !string_cons_app. cbn [String.prefix]. destruct (Ascii.ascii_dec c d); [|reflexivity]. apply IH. cbn in H. lia.
Qed.

(** What is found within a common prefix. *)
Lemma find_prefix k a b b' : k <> "" -> forall n m, str_find k (a ++ b) n = Some m ->
  (m + String.length k <= String.length a)%nat -> str_find k (a ++ b') n = Some m.
Proof.
  intros Hk. unfold str_find. induction a as [|c a IH]; intros n m H L.
  - destruct k; [congruence|]. cbn in L. lia.
  - rewrite !string_cons_app in *. destruct n as [|n]; cbn [String.index] in *.
    + destruct (String.prefix k (String c (a ++ b))) eqn:P.
      * injection H as <-. rewrite <- string_cons_app in P. rewrite (prefix_app k (String c a) b b') in P by lia.
        rewrite string_cons_app in P. rewrite P. reflexivity.
      * destruct (String.index 0 k (a ++ b)) as [i|] eqn:E; [|discriminate]. injection H as <-. cbn [String.length] in L.
        rewrite <- string_cons_app in P. rewrite (prefix_app k (String c a) b b') in P by (cbn; lia). rewrite string_cons_app in P. rewrite P.
        rewrite (IH 0%nat i E) by lia. reflexivity.
    + destruct (String.index n k (a ++ b)) as [i|] eqn:E; [|discriminate]. injection H as <-. cbn [String.length] in L.
      rewrite (IH n i E) by lia. reflexivity.
Qed.

Lemma find_skip k a b : str_find k (a ++ b) (String.length a) = option_map (fun i => String.length a + i)%nat (str_find k b 0).
Proof.
  unfold str_find. induction a as [|c a IH]; [rewrite string_nil_app; cbn; destruct (String.index 0 k b); reflexivity|].
  rewrite string_cons_app. cbn [String.length String.index]. rewrite IH. destruct (String.index 0 k b); reflexivity.
Qed.

Lemma find_char c a b : no_char c a = true -> str_find (String c "") (a ++ String c b) 0 = Some (String.length a).
Proof.
  intros H. unfold str_find. induction a as [|d a IH].
  - rewrite string_nil_app. cbn. destruct (Ascii.ascii_dec c c); [destruct b; reflexivity|congruence].
  - apply no_char_cons in H as [Hd Ha]. rewrite string_cons_app. cbn [String.index String.prefix].
    destruct (Ascii.ascii_dec c d); [congruence|]. rewrite IH by exact Ha. reflexivity.
Qed.

Lemma find_char_before c b : forall a m, str_find (String c "") (a ++ b) 0 = Some m -> (String.length a <= m)%nat -> no_char c a = true.
Proof.
  unfold str_find. induction a as [|d a IH]; intros m H L; [reflexivity|]. rewrite string_cons_app in H. cbn [String.index String.prefix] in H.
  destruct (Ascii.ascii_dec c d) as [->|N].
  - assert (P : String.prefix "" (a ++ b) = true) by (destruct (a ++ b)%string; reflexivity). rewrite P in H. injection H as <-. cbn in L. lia.
  - destruct (String.index 0 _ (a ++ b)) as [i|] eqn:E; [|discriminate]. injection H as <-. cbn in L. cbn [no_char].
    rewrite bool_decide_eq_false_2 by congruence. apply (IH i eq_refl). lia.
Qed.

Lemma string_app_split (a b c d : string) : (a ++ b = c ++ d)%string -> (String.length a <= String.length c)%nat ->
  exists e, c = (a ++ e)%string /\ b = (e ++ d)%string.
Proof.
  revert c. induction a as [|x a IH]; intros c E L.
  - exists c. auto.
  - destruct c as [|y c]; [cbn in L; lia|]. rewrite !string_cons_app in E. injection E as -> E.
    destruct (IH c E ltac:(cbn in L; lia)) as (e & -> & ->). exists e. auto.
Qed.

Lemma substring_front a b : substring 0 (String.length a) (a ++ b) = a.
Proof. induction a as [|c a IH]; [destruct b; reflexivity|]. rewrite string_cons_app. cbn [String.length substring]. rewrite IH. reflexivity. Qed.

Lemma substring_back a b : substring (String.length a) (String.length b) (a ++ b) = b.
Proof.
  induction a as [|c a IH].
  - rewrite string_nil_app. cbn [String.length]. induction b as [|c b IH]; [reflexivity|]. cbn. rewrite IH. reflexivity.
  - rewrite string_cons_app. cbn [String.length substring]. exact IH.
Qed.

Lemma replace_app a old b value : str_replace (a ++ old ++ b) (String.length a) (String.length old) value = (a ++ value ++ b)%string.
Proof.
  unfold str_replace. rewrite substring_front. do 2 f_equal.
  replace (a ++ old ++ b)%string with ((a ++ old) ++ b)%string by (symmetry; apply string_app_assoc).
  rewrite <- length_string_app, (length_string_app (a ++ old) b).
  replace (String.length (a ++ old) + String.length b - String.length (a ++ old))%nat with (String.length b) by lia. apply substring_back.
Qed.
