(* ===== verification/StdMap.v ===== *)
(** * std::map

    An ordered map with integer keys as a list of entries in ascending key
    order, as iterating a [std::map] visits them: lookup ([find], [at]),
    [count], insertion through [operator[]], and the lemmas that relate them. *)
From S2P Require Import Prelude.

Definition smap (A : Type) : Type := list (Z * A).

Section Map.
Context {A : Type}.
Implicit Types m : smap A.

Fixpoint sm_get (k : Z) m : option A :=
  match m with
  | [] => None
  | (k', v) :: m => if k =? k' then Some v else if k <? k' then None else sm_get k m
  end.

(** [m[k] = v]. *)
Fixpoint sm_set (k : Z) (v : A) m : smap A :=
  match m with
  | [] => [(k, v)]
  | (k', v') :: m' =>
      if k =? k' then (k, v) :: m'
      else if k <? k' then (k, v) :: m
      else (k', v') :: sm_set k v m'
  end.

Definition sm_count (k : Z) m : bool := match sm_get k m with Some _ => true | None => false end.

(** [m[k].field = ...]: a missing entry is first default-constructed. *)
Definition sm_update (k : Z) (dflt : A) (f : A -> A) m : smap A :=
  sm_set k (f (default dflt (sm_get k m))) m.

Definition sm_keys m : list Z := map fst m.
Definition sm_map (f : Z -> A -> A) m : smap A := map (fun '(k, v) => (k, f k v)) m.

(** Keys strictly ascending. *)
Definition sm_ok m : Prop := StronglySorted Z.lt (sm_keys m).

Lemma sm_get_set_eq k v m : sm_get k (sm_set k v m) = Some v.
Proof.
  induction m as [|[k' v'] m IH]; cbn [sm_set]; [cbn; rewrite Z.eqb_refl; reflexivity|].
  destruct (Z.eqb_spec k k'); [|destruct (Z.ltb_spec k k')]; cbn [sm_get]; rewrite ?Z.eqb_refl; auto.
  replace (k =? k') with false by (symmetry; apply Z.eqb_neq; assumption).
  replace (k <? k') with false by (symmetry; apply Z.ltb_ge; lia). exact IH.
Qed.

Lemma sm_ok_inv k v m : sm_ok ((k, v) :: m) -> sm_ok m /\ Forall (fun k' => k < k') (sm_keys m).
Proof. intros H. inversion H; subst. auto. Qed.

Lemma sm_get_below k m : Forall (fun k' => k < k') (sm_keys m) -> sm_get k m = None.
Proof.
  destruct m as [|[k' v'] m]; [reflexivity|]. intros H. inversion H; subst. cbn.
  replace (k =? k') with false by (symmetry; apply Z.eqb_neq; lia).
  replace (k <? k') with true by (symmetry; apply Z.ltb_lt; lia). reflexivity.
Qed.

Lemma sm_get_set_ne j k v m : sm_ok m -> j <> k -> sm_get j (sm_set k v m) = sm_get j m.
Proof.
  intros Hok Hne. induction m as [|[k' v'] m IH]; cbn [sm_set].
  - cbn. replace (j =? k) with false by (symmetry; apply Z.eqb_neq; assumption).
    destruct (j <? k); reflexivity.
  - destruct (sm_ok_inv _ _ _ Hok) as [Hok' Hlt].
    destruct (Z.eqb_spec k k') as [<-|Hk].
    + cbn. replace (j =? k) with false by (symmetry; apply Z.eqb_neq; assumption). reflexivity.
    + destruct (Z.ltb_spec k k').
      * cbn. replace (j =? k) with false by (symmetry; apply Z.eqb_neq; assumption).
        destruct (Z.ltb_spec j k); [|destruct (j =? k'); reflexivity].
        replace (j =? k') with false by (symmetry; apply Z.eqb_neq; lia).
        replace (j <? k') with true by (symmetry; apply Z.ltb_lt; lia). reflexivity.
      * cbn. rewrite IH by exact Hok'. reflexivity.
Qed.

Lemma sm_set_keys k v m x : x ∈ sm_keys (sm_set k v m) -> x = k \/ x ∈ sm_keys m.
Proof.
  induction m as [|[k' v'] m IH]; cbn [sm_set]; cbn.
  - intros H. left. apply list_elem_of_singleton in H. exact H.
  - destruct (Z.eqb_spec k k') as [<-|]; [|destruct (k <? k')]; cbn; rewrite !elem_of_cons; try tauto.
Qed.

Lemma sm_set_ok k v m : sm_ok m -> sm_ok (sm_set k v m).
Proof.
  induction m as [|[k' v'] m IH]; cbn [sm_set]; intros Hok.
  - repeat constructor.
  - destruct (sm_ok_inv _ _ _ Hok) as [Hok' Hlt].
    destruct (Z.eqb_spec k k') as [<-|Hk]; [exact Hok|].
    destruct (Z.ltb_spec k k').
    + constructor; [exact Hok|]. constructor; [assumption|].
      eapply Forall_impl; [exact Hlt|]. cbn. lia.
    + assert (Hk' : k' < k) by lia.
      constructor; [apply IH; exact Hok'|]. apply Forall_forall. intros x Hx.
      destruct (sm_set_keys _ _ _ _ Hx) as [Ex|Hx']; [rewrite Ex; exact Hk'|].
      rewrite Forall_forall in Hlt. apply Hlt. exact Hx'.
Qed.

Lemma sm_map_keys f m : sm_keys (sm_map f m) = sm_keys m.
Proof. induction m as [|[k v] m IH]; cbn; [reflexivity|]. f_equal. exact IH. Qed.

Lemma sm_map_ok f m : sm_ok m -> sm_ok (sm_map f m).
Proof. unfold sm_ok. rewrite sm_map_keys. auto. Qed.

Lemma sm_get_map f k m : sm_get k (sm_map f m) = option_map (f k) (sm_get k m).
Proof.
  induction m as [|[k' v] m IH]; cbn; [reflexivity|].
  destruct (Z.eqb_spec k k') as [->|]; [reflexivity|]. destruct (k <? k'); [reflexivity|exact IH].
Qed.

Lemma sm_update_get_eq k d f m : sm_get k (sm_update k d f m) = Some (f (default d (sm_get k m))).
Proof. apply sm_get_set_eq. Qed.

Lemma sm_keys_get k m : sm_ok m -> k ∈ sm_keys m -> exists v, sm_get k m = Some v.
Proof.
  induction m as [|[k' v] m IH]; intros Hok Hin; cbn in *; [inversion Hin|].
  destruct (sm_ok_inv _ _ _ Hok) as [Hok' Hlt]. destruct (Z.eqb_spec k k'); [eauto|].
  apply elem_of_cons in Hin as [->|Hin]; [congruence|].
  rewrite Forall_forall in Hlt. replace (k <? k') with false by (symmetry; apply Z.ltb_ge; specialize (Hlt _ Hin); lia).
  auto.
Qed.

Lemma sm_get_key k v m : sm_get k m = Some v -> k ∈ sm_keys m.
Proof.
  induction m as [|[k' w] m IH]; cbn; [discriminate|]. destruct (Z.eqb_spec k k') as [->|]; [left|].
  destruct (k <? k'); [discriminate|]. intros H. right. auto.
Qed.

Lemma sm_get_in k v m : sm_get k m = Some v -> (k, v) ∈ m.
Proof.
  induction m as [|[k' w] m IH]; cbn; [discriminate|].
  destruct (Z.eqb_spec k k') as [->|]; [intros [= ->]; left|].
  destruct (k <? k'); [discriminate|]. intros H. right. auto.
Qed.

Lemma sm_set_same k v m : sm_ok m -> sm_get k m = Some v -> sm_set k v m = m.
Proof.
  induction m as [|[k' w] m IH]; cbn; intros Hok; [discriminate|].
  destruct (sm_ok_inv _ _ _ Hok) as [Hok' _].
  destruct (Z.eqb_spec k k') as [->|]; [intros [= ->]; reflexivity|].
  destruct (k <? k'); [discriminate|]. intros H. rewrite IH by assumption. reflexivity.
Qed.

Lemma sm_update_same k d m v : sm_ok m -> sm_get k m = Some v -> sm_update k d (fun x => x) m = m.
Proof. intros Hok Hv. unfold sm_update. rewrite Hv. apply sm_set_same; assumption. Qed.

(** A property of every stored value. *)
Definition sm_all (P : Z -> A -> Prop) m : Prop := forall k v, sm_get k m = Some v -> P k v.

Lemma sm_all_set P k v m : sm_ok m -> sm_all P m -> P k v -> sm_all P (sm_set k v m).
Proof.
  intros Hok Hall Hv j w. destruct (Z.eq_dec j k) as [->|Hne].
  - rewrite sm_get_set_eq. intros [= <-]. exact Hv.
  - rewrite sm_get_set_ne by assumption. apply Hall.
Qed.

Lemma sm_all_map (P Q : Z -> A -> Prop) f m :
  sm_all P m -> (forall k v, P k v -> Q k (f k v)) -> sm_all Q (sm_map f m).
Proof.
  intros Hall Hf k v. rewrite sm_get_map. destruct (sm_get k m) eqn:E; [|discriminate].
  intros [= <-]. auto.
Qed.

Lemma sm_in_get k v m : sm_ok m -> (k, v) ∈ m -> sm_get k m = Some v.
Proof.
  induction m as [|[k' w] m IH]; intros Hok Hin; [inversion Hin|]. cbn.
  destruct (sm_ok_inv _ _ _ Hok) as [Hok' Hlt].
  apply elem_of_cons in Hin as [[= -> ->]|Hin]; [rewrite Z.eqb_refl; reflexivity|].
  rewrite Forall_forall in Hlt. assert (Hk : k ∈ sm_keys m) by (apply (list_elem_of_fmap_2 fst) in Hin; exact Hin).
  specialize (Hlt _ Hk). cbn in Hlt.
  replace (k =? k') with false by (symmetry; apply Z.eqb_neq; lia).
  replace (k <? k') with false by (symmetry; apply Z.ltb_ge; lia). auto.
Qed.

Lemma sm_all_forall (P : Z -> A -> Prop) m : sm_ok m -> sm_all P m -> Forall (fun e => P (fst e) (snd e)) m.
Proof.
  intros Hok Hall. apply Forall_forall. intros [k v] Hin. apply Hall. apply sm_in_get; assumption.
Qed.

(** Two maps over the same keys, entry by entry. *)
Definition sm_rel (R : Z -> A -> A -> Prop) m m' : Prop :=
  Forall2 (fun e e' => fst e = fst e' /\ R (fst e) (snd e) (snd e')) m m'.

Lemma sm_rel_keys R m m' : sm_rel R m m' -> sm_keys m' = sm_keys m.
Proof. intros H. induction H as [|[] [] ? ? [E _] _ IH]; cbn in *; [reflexivity|]. rewrite E. f_equal. exact IH. Qed.

Lemma sm_rel_get R m m' k v' :
  sm_rel R m m' -> sm_get k m' = Some v' -> exists v, sm_get k m = Some v /\ R k v v'.
Proof.
  intros H. induction H as [|[k1 v1] [k2 v2] ? ? [E HR] _ IH]; cbn in *; [discriminate|]. subst k2.
  destruct (Z.eqb_spec k k1) as [->|]; [intros [= <-]; eauto|]. destruct (k <? k1); [discriminate|exact IH].
Qed.
End Map.

#[export] Hint Resolve sm_set_ok sm_map_ok sm_all_set : hmi.
