(* ===== verification/Result.v ===== *)
(** * Result<T, E> (src/core/Result.h)

    The value-or-error type every fallible integration call returns, its
    accessors (which throw on misuse) and its combinators, with the error
    text tables of src/core/ErrorHandling.h. *)
From S2P Require Import Prelude.

Inductive Result (T E : Type) :=
| Ok (value : T)
| Err (error : E).
Arguments Ok {T E} value.
Arguments Err {T E} error.

#[export] Instance Result_eq_dec {T E} `{EqDecision T, EqDecision E} : EqDecision (Result T E).
Proof. solve_decision. Defined.

(** [Result<int, E>::errorToString], specialised per error enum. *)
Class ErrorToString (E : Type) := errorToString : E -> string.

Module Res.
Section Accessors.
Context {T E : Type} `{ErrorToString E}.

Definition isOk (r : Result T E) : bool := match r with Ok _ => true | Err _ => false end.
Definition isErr (r : Result T E) : bool := match r with Ok _ => false | Err _ => true end.

(** [unwrap] throws std::runtime_error on an error. *)
Definition unwrap (r : Result T E) : outcome T :=
  match r with Ok v => Ret v | Err _ => Throw runtime_error end.
Definition unwrapOr (r : Result T E) (defaultValue : T) : T :=
  match r with Ok v => v | Err _ => defaultValue end.
(** [error] throws std::runtime_error on a success. *)
Definition error_ (r : Result T E) : outcome E :=
  match r with Ok _ => Throw runtime_error | Err e => Ret e end.
Definition errorMessage (r : Result T E) : string :=
  match r with Ok _ => ""%string | Err e => errorToString e end.

Definition map {U} (func : T -> U) (r : Result T E) : Result U E :=
  match r with Ok v => Ok (func v) | Err e => Err e end.
Definition andThen {U} (func : T -> Result U E) (r : Result T E) : Result U E :=
  match r with Ok v => func v | Err e => Err e end.
End Accessors.

(** The combinators respect the accessors: the success value is what [func]
    sees, an error passes through, and chaining is associative. *)
Lemma andThen_assoc {T U V E} (f : T -> Result U E) (g : U -> Result V E) r :
  andThen g (andThen f r) = andThen (fun v => andThen g (f v)) r.
Proof. destruct r; reflexivity. Qed.

Lemma map_andThen {T U E} (f : T -> U) (r : Result T E) :
  map f r = andThen (fun v => Ok (f v)) r.
Proof. destruct r; reflexivity. Qed.

Lemma unwrap_ret {T E} (r : Result T E) v : unwrap r = Ret v <-> r = Ok v.
Proof. destruct r; simpl; split; congruence. Qed.
End Res.

(* ------------------------------------------------------------------ *)
(** ** The error categories of ErrorHandling.h *)

Inductive DatabaseError :=
| DbConnectionFailed | QueryFailed | ConstraintViolation | UniqueViolation
| DbTimeout | DiskFull | PermissionDenied | NotFound | DbUnknown.

#[export] Instance DatabaseError_eq_dec : EqDecision DatabaseError.
Proof. solve_decision. Defined.

#[export] Instance DatabaseError_toString : ErrorToString DatabaseError := fun e =>
  match e with
  | DbConnectionFailed => "Database connection failed"
  | QueryFailed => "Database query failed"
  | ConstraintViolation => "Database constraint violation"
  | UniqueViolation => "Duplicate key violation"
  | DbTimeout => "Database operation timeout"
  | DiskFull => "Disk full"
  | PermissionDenied => "Permission denied"
  | NotFound => "Record not found"
  | DbUnknown => "Unknown database error"
  end%string.

Inductive ValidationError :=
| EmptyField | InvalidFormat | OutOfRange | TooLong | TooShort | InvalidCharacters.

#[export] Instance ValidationError_toString : ErrorToString ValidationError := fun e =>
  match e with
  | EmptyField => "Required field is empty"
  | InvalidFormat => "Invalid format"
  | OutOfRange => "Value out of range"
  | TooLong => "Value too long"
  | TooShort => "Value too short"
  | InvalidCharacters => "Invalid characters"
  end%string.

Inductive IOError := ThreadFailed | OperationCancelled | QueueFull | IoTimeout.

#[export] Instance IOError_toString : ErrorToString IOError := fun e =>
  match e with
  | ThreadFailed => "I/O thread failed"
  | OperationCancelled => "Operation cancelled"
  | QueueFull => "Operation queue full"
  | IoTimeout => "I/O operation timeout"
  end%string.
