(* ===== verification/Serializers.v ===== *)
(** * Product export and import
    (src/integration/Serializer.h, JsonSerializer.{h,cpp},
    CsvSerializer.{h,cpp})

    The two formats a product list is written in and read from. A stream is
    the characters not yet read: every test of its state bits in these readers
    is followed by a read that sees the end itself. The texts of the
    exceptions are not modelled. *)
From stdpp Require Import pretty.
From Stdlib Require Import Ascii String.
From S2P Require Import Prelude Float32 Format.
Local Open Scope string_scope.
Local Open Scope Z_scope.
Local Open Scope list_scope.

(** A product row; a number that was not initialised is [None]. *)
Record ProductRow := mkRow {
  row_id : option Z;
  row_productCode : string;
  row_name : string;
  row_status : string;
  row_stock : option Z;
  row_qualityRate : option float32;
  row_createdAt : string;
  row_updatedAt : string;
  row_deletedAt : string;
}.

(** [model::Product p;]. *)
Definition row_new : ProductRow := mkRow None "" "" "" None None "" "" "".

Definition row_isDeleted (p : ProductRow) : bool := negb (String.eqb (row_deletedAt p) "").

(** The use of a number: indeterminate values are undefined behaviour. *)
Definition initialised {A} (x : option A) : outcome A := match x with Some v => Ret v | None => Undef end.

(** The interface of the formats. *)
Class Serializer (S : Type) := {
  writeProducts : S -> list ProductRow -> outcome chars;
  readProducts : S -> chars -> outcome (list ProductRow);
  formatName : S -> string;
  fileExtension : S -> string;
  mimeType : S -> string;
}.

Definition fmtRate (rate : float32) : chars := chars_of (fmt_fixed 1 rate).

(** The members a format carries; the others start empty on import. *)
Definition carried (p : ProductRow) : ProductRow :=
  mkRow None (row_productCode p) (row_name p) (row_status p) (row_stock p) (row_qualityRate p) "" "" "".

Definition row_setProductCode (s : string) (p : ProductRow) : ProductRow :=
  mkRow (row_id p) s (row_name p) (row_status p) (row_stock p) (row_qualityRate p) (row_createdAt p) (row_updatedAt p) (row_deletedAt p).
Definition row_setName (s : string) (p : ProductRow) : ProductRow :=
  mkRow (row_id p) (row_productCode p) s (row_status p) (row_stock p) (row_qualityRate p) (row_createdAt p) (row_updatedAt p) (row_deletedAt p).
Definition row_setStatus (s : string) (p : ProductRow) : ProductRow :=
  mkRow (row_id p) (row_productCode p) (row_name p) s (row_stock p) (row_qualityRate p) (row_createdAt p) (row_updatedAt p) (row_deletedAt p).
Definition row_setStock (z : Z) (p : ProductRow) : ProductRow :=
  mkRow (row_id p) (row_productCode p) (row_name p) (row_status p) (Some z) (row_qualityRate p) (row_createdAt p) (row_updatedAt p) (row_deletedAt p).
Definition row_setQualityRate (r : float32) (p : ProductRow) : ProductRow :=
  mkRow (row_id p) (row_productCode p) (row_name p) (row_status p) (row_stock p) (Some r) (row_createdAt p) (row_updatedAt p) (row_deletedAt p).

(* ------------------------------------------------------------------ *)
(** ** JSON *)

Definition kBackslash : ascii := "092"%char.
Definition kBS : ascii := "008"%char.
Definition kFF : ascii := "012"%char.
Definition kTab : ascii := "009"%char.

Module Json.

Definition is_ws (c : ascii) : bool :=
  Ascii.eqb c " " || Ascii.eqb c kTab || Ascii.eqb c kLF || Ascii.eqb c kCR.

Fixpoint skipWs (l : chars) : chars :=
  match l with c :: l' => if is_ws c then skipWs l' else l | [] => [] end.

Definition expect (c : ascii) (l : chars) : outcome chars :=
  match skipWs l with
  | got :: l' => if Ascii.eqb got c then Ret l' else Throw runtime_error
  | [] => Throw runtime_error
  end.

(** The escapes of [parseString]; [\u] is refused like an unknown one. *)
Definition unescape (esc : ascii) : option ascii :=
  if Ascii.eqb esc kQuote then Some kQuote
  else if Ascii.eqb esc kBackslash then Some kBackslash
  else if Ascii.eqb esc "/" then Some "/"%char
  else if Ascii.eqb esc "b" then Some kBS
  else if Ascii.eqb esc "f" then Some kFF
  else if Ascii.eqb esc "n" then Some kLF
  else if Ascii.eqb esc "r" then Some kCR
  else if Ascii.eqb esc "t" then Some kTab
  else None.

(** The loop of [parseString]. *)
Fixpoint string_body (l : chars) (out : chars) : outcome (chars * chars) :=
  match l with
  | [] => Throw runtime_error
  | c :: l =>
      if Ascii.eqb c kQuote then Ret (out, l)
      else if Ascii.eqb c kBackslash then
        match l with
        | [] => Throw runtime_error
        | esc :: l => match unescape esc with Some x => string_body l (out ++ [x]) | None => Throw runtime_error end
        end
      else string_body l (out ++ [c])
  end.

Definition parseString (l : chars) : outcome (chars * chars) :=
  l ← expect kQuote l; string_body l [].

Definition number_char (c : ascii) : bool :=
  isdigit c || Ascii.eqb c "-" || Ascii.eqb c "+" || Ascii.eqb c "." || Ascii.eqb c "e" || Ascii.eqb c "E".

Definition parseNumber (l : chars) : outcome (chars * chars) :=
  let (out, l) := span number_char (skipWs l) in
  match out with [] => Throw runtime_error | _ => Ret (out, l) end.

(** The value of a member; the value of an unknown key is skipped. *)
Definition read_value (key : string) (p : ProductRow) (l : chars) : outcome (ProductRow * chars) :=
  if String.eqb key "productCode" then '(v, l) ← parseString l; Ret (row_setProductCode (text_of v) p, l)
  else if String.eqb key "name" then '(v, l) ← parseString l; Ret (row_setName (text_of v) p, l)
  else if String.eqb key "status" then '(v, l) ← parseString l; Ret (row_setStatus (text_of v) p, l)
  else if String.eqb key "stock" then
    '(s, l) ← parseNumber l;
    match from_chars_int s with FcOk v _ => Ret (row_setStock v p, l) | _ => Throw runtime_error end
  else if String.eqb key "qualityRate" then
    '(s, l) ← parseNumber l;
    r ← stof s;
    Ret (row_setQualityRate r p, l)
  else
    match l with
    | c :: _ => if Ascii.eqb c kQuote then '(_, l) ← parseString l; Ret (p, l) else '(_, l) ← parseNumber l; Ret (p, l)
    | [] => '(_, l) ← parseNumber l; Ret (p, l)
    end.

(** One member of an object: key, colon and value. *)
Definition read_member (p : ProductRow) (l : chars) : outcome (ProductRow * chars) :=
  '(key, l) ← parseString l;
  l ← expect ":" (skipWs l);
  read_value (text_of key) p (skipWs l).

(** The loop over the members of one object, and the loop over the objects;
    running out of fuel would be [Undef]. *)
Fixpoint read_members (fuel : nat) (first : bool) (p : ProductRow) (l : chars) : outcome (ProductRow * chars) :=
  match fuel with
  | O => Undef
  | S fuel =>
      let next (l : chars) :=
        l ← (if first then Ret l else l ← expect "," l; Ret (skipWs l));
        '(p, l) ← read_member p l;
        read_members fuel false p l in
      match skipWs l with
      | c :: l' => if Ascii.eqb c "}" then Ret (p, l') else next (c :: l')
      | [] => next []
      end
  end.

Fixpoint read_objects (fuel : nat) (result : list ProductRow) (l : chars) : outcome (list ProductRow) :=
  match fuel with
  | O => Undef
  | S fuel =>
      l ← expect "{" (skipWs l);
      '(p, l) ← read_members (S (length l)) true row_new l;
      let result := result ++ [p] in
      match skipWs l with
      | after :: l =>
          if Ascii.eqb after "]" then Ret result
          else if Ascii.eqb after "," then read_objects fuel result l else Throw runtime_error
      | [] => Throw runtime_error
      end
  end.

Definition json_readProducts (l : chars) : outcome (list ProductRow) :=
  l ← expect "[" (skipWs l);
  match skipWs l with
  | c :: l' => if Ascii.eqb c "]" then Ret [] else read_objects (S (length l)) [] (c :: l')
  | [] => read_objects (S (length l)) [] []
  end.

(** [{:04x}] on a byte. *)
Definition hex_digit (n : Z) : ascii := if n <? 10 then chr (48 + n) else chr (87 + n).
Definition hex04 (n : Z) : chars :=
  [hex_digit (n / 4096 mod 16); hex_digit (n / 256 mod 16); hex_digit (n / 16 mod 16); hex_digit (n mod 16)].

Definition escape_char (c : ascii) : chars :=
  if Ascii.eqb c kQuote then [kBackslash; kQuote]
  else if Ascii.eqb c kBackslash then [kBackslash; kBackslash]
  else if Ascii.eqb c kBS then [kBackslash; "b"%char]
  else if Ascii.eqb c kFF then [kBackslash; "f"%char]
  else if Ascii.eqb c kLF then [kBackslash; "n"%char]
  else if Ascii.eqb c kCR then [kBackslash; "r"%char]
  else if Ascii.eqb c kTab then [kBackslash; "t"%char]
  else if code c <? 32 then kBackslash :: "u"%char :: hex04 (code c)
  else [c].

Definition escapeString (s : string) : chars := flat_map escape_char (chars_of s).

Definition quoted (l : chars) : chars := kQuote :: l ++ [kQuote].
Definition member (key : string) (value : chars) : chars := chars_of "    " ++ quoted (chars_of key) ++ chars_of ": " ++ value.

Definition write_row (p : ProductRow) : outcome chars :=
  stock ← initialised (row_stock p);
  rate ← initialised (row_qualityRate p);
  Ret (chars_of "  {" ++ [kLF] ++
       member "productCode" (quoted (escapeString (row_productCode p))) ++ chars_of "," ++ [kLF] ++
       member "name" (quoted (escapeString (row_name p))) ++ chars_of "," ++ [kLF] ++
       member "status" (quoted (escapeString (row_status p))) ++ chars_of "," ++ [kLF] ++
       member "stock" (chars_of (to_string stock)) ++ chars_of "," ++ [kLF] ++
       member "qualityRate" (fmtRate rate) ++ [kLF] ++
       chars_of "  }").

(** The loop over the products: a comma after each but the last. *)
Fixpoint write_rows (l : list ProductRow) : outcome chars :=
  match l with
  | [] => Ret []
  | p :: l =>
      row ← write_row p;
      rest ← write_rows l;
      Ret (row ++ (if bool_decide (l = []) then [] else [","%char]) ++ [kLF] ++ rest)
  end.

Definition json_writeProducts (products : list ProductRow) : outcome chars :=
  match products with
  | [] => Ret (chars_of "[]" ++ [kLF])
  | _ => rows ← write_rows products; Ret (chars_of "[" ++ [kLF] ++ rows ++ chars_of "]" ++ [kLF])
  end.
End Json.

(** A [JsonSerializer] has no state. *)
Inductive JsonSerializer := mkJsonSerializer.

#[export] Instance JsonFormat : Serializer JsonSerializer := {|
  writeProducts _ := Json.json_writeProducts;
  readProducts _ := Json.json_readProducts;
  formatName _ := "JSON";
  fileExtension _ := "json";
  mimeType _ := "application/json";
|}.

(* ------------------------------------------------------------------ *)
(** ** CSV *)

Module Csv.

Definition defaultHeader : list string := ["Product Code"; "Name"; "Status"; "Stock"; "Quality %"].
Definition kUtf8Bom : chars := [chr 239; chr 187; chr 191].

Definition special (c : ascii) : bool :=
  Ascii.eqb c "," || Ascii.eqb c kQuote || Ascii.eqb c kLF || Ascii.eqb c kCR.

Definition escapeField (field : string) : chars :=
  let l := chars_of field in
  if existsb special l
  then kQuote :: flat_map (fun c => if Ascii.eqb c kQuote then [kQuote; kQuote] else [c]) l ++ [kQuote]
  else l.

Definition kCRLF : chars := [kCR; kLF].

Fixpoint join (sep : chars) (l : list chars) : chars :=
  match l with
  | [] => []
  | [x] => x
  | x :: l => x ++ sep ++ join sep l
  end.

Definition csv_row (p : ProductRow) : outcome chars :=
  stock ← initialised (row_stock p);
  rate ← initialised (row_qualityRate p);
  Ret (escapeField (row_productCode p) ++ [","%char] ++ escapeField (row_name p) ++ [","%char] ++
       escapeField (row_status p) ++ [","%char] ++ chars_of (to_string stock) ++ [","%char] ++
       fmtRate rate ++ kCRLF).

Fixpoint csv_rows (l : list ProductRow) : outcome chars :=
  match l with
  | [] => Ret []
  | p :: l => row ← csv_row p; rest ← csv_rows l; Ret (row ++ rest)
  end.

Definition csv_writeProducts (header_ : list string) (products : list ProductRow) : outcome chars :=
  rows ← csv_rows products;
  Ret (kUtf8Bom ++ join [","%char] (map escapeField header_) ++ kCRLF ++ rows).

(** The loop of [parseRecord]. *)
Fixpoint record_loop (l : chars) (fields : list chars) (current : chars) (inQuotes sawAnyChar : bool) :
    list chars * chars :=
  match l with
  | [] => (if sawAnyChar || negb (bool_decide (fields = [])) then fields ++ [current] else fields, [])
  | c :: l =>
      if inQuotes then
        if Ascii.eqb c kQuote then
          match l with
          | c2 :: l2 => if Ascii.eqb c2 kQuote then record_loop l2 fields (current ++ [kQuote]) true true
                        else record_loop l fields current false true
          | [] => record_loop l fields current false true
          end
        else record_loop l fields (current ++ [c]) true true
      else if Ascii.eqb c "," then record_loop l (fields ++ [current]) [] false true
      else if Ascii.eqb c kCR then
        (fields ++ [current], match l with c2 :: l2 => if Ascii.eqb c2 kLF then l2 else l | [] => [] end)
      else if Ascii.eqb c kLF then (fields ++ [current], l)
      else if Ascii.eqb c kQuote && bool_decide (current = []) then record_loop l fields current true true
      else record_loop l fields (current ++ [c]) false true
  end.

Definition parseRecord (l : chars) : list chars * chars := record_loop l [] [] false false.

(** A leading BOM is skipped; three other bytes are put back, fewer than
    three are lost with the failed read. *)
Definition skip_bom (l : chars) : chars :=
  match l with
  | a :: rest =>
      if Ascii.eqb a (chr 239) then
        match rest with
        | b :: c :: rest' => if Ascii.eqb b (chr 187) && Ascii.eqb c (chr 191) then rest' else l
        | _ => []
        end
      else l
  | [] => []
  end.

Definition row_of_fields (fields : list chars) : outcome ProductRow :=
  match fields with
  | [code; name; status; stock; quality] =>
      match from_chars_int stock with
      | FcOk v _ =>
          match stof quality with
          | Ret r => Ret (mkRow None (text_of code) (text_of name) (text_of status) (Some v) (Some r) "" "" "")
          | Throw _ => Throw runtime_error
          | Undef => Undef
          end
      | _ => Throw runtime_error
      end
  | _ => Throw runtime_error
  end.

(** The loop over the records; running out of fuel would be [Undef]. *)
Fixpoint read_records (fuel : nat) (l : chars) (out : list ProductRow) : outcome (list ProductRow) :=
  match fuel with
  | O => Undef
  | S fuel =>
      let (fields, l) := parseRecord l in
      match fields with
      | [] => Ret out
      | _ => p ← row_of_fields fields; read_records fuel l (out ++ [p])
      end
  end.

Definition csv_readProducts (l : chars) : outcome (list ProductRow) :=
  let (_, l) := parseRecord (skip_bom l) in
  read_records (S (length l)) l [].
End Csv.

Record CsvSerializer := mkCsvSerializer { header_ : list string }.
Definition csv_default : CsvSerializer := mkCsvSerializer Csv.defaultHeader.

#[export] Instance CsvFormat : Serializer CsvSerializer := {|
  writeProducts s := Csv.csv_writeProducts (header_ s);
  readProducts _ := Csv.csv_readProducts;
  formatName _ := "CSV";
  fileExtension _ := "csv";
  mimeType _ := "text/csv";
|}.

(* ------------------------------------------------------------------ *)
(** ** Lemmas *)

(** The rates a product has: tenths of a percent. *)
Definition tenths (r : float32) : Prop := exists n, 0 <= n <= 1000 /\ r = f32_lit n 1.

(** Rows whose numbers are set. *)
Definition writable (p : ProductRow) : Prop :=
  exists stock rate, row_stock p = Some stock /\ int_min <= stock <= int_max /\ row_qualityRate p = Some rate /\ tenths rate.

Definition rate_reads_back (r : float32) : bool :=
  let t := fmtRate r in
  forallb Json.number_char t && negb (bool_decide (t = [])) && bool_decide (stof t = Ret r).

Lemma tenths_read_back r : tenths r -> rate_reads_back r = true.
Proof.
  intros (n & Hn & ->).
  assert (H : forallb (fun k => rate_reads_back (f32_lit (Z.of_nat k) 1)) (seq 0 1001) = true) by (vm_compute; reflexivity).
  rewrite forallb_forall in H. specialize (H (Z.to_nat n)). rewrite Z2Nat.id in H by lia. apply H, in_seq. lia.
Qed.

Lemma rate_text r : tenths r -> Forall (fun c => Json.number_char c = true) (fmtRate r) /\ fmtRate r <> [] /\ stof (fmtRate r) = Ret r.
Proof.
  intros H. apply tenths_read_back in H. unfold rate_reads_back in H. rewrite !andb_true_iff, negb_true_iff in H.
  destruct H as [[H1 H2] H3]. apply bool_decide_eq_true in H3. apply bool_decide_eq_false in H2.
  split; [apply Forall_forall; intros c Hc; rewrite forallb_forall in H1; apply H1, list_elem_of_In, Hc|auto].
Qed.

(** *** CSV *)

Module CsvFacts.
Import Csv.

Definition is_sep (c : ascii) : Prop := c = ","%char \/ c = kCR.

(** A field's text is read as the field, up to the separator. *)
Definition reads_as (text value : chars) : Prop := forall c rest fields saw, is_sep c ->
  record_loop (text ++ c :: rest) fields [] false saw = record_loop (c :: rest) fields value false true.

Lemma sep_saw c rest fields cur saw : is_sep c ->
  record_loop (c :: rest) fields cur false saw = record_loop (c :: rest) fields cur false true.
Proof. intros [-> | ->]; reflexivity. Qed.

Lemma plain_chars l : forall c rest fields cur saw, is_sep c -> existsb special l = false ->
  record_loop (l ++ c :: rest) fields cur false saw = record_loop (c :: rest) fields (cur ++ l) false true.
Proof.
  induction l as [|x l IH]; intros c rest fields cur saw Hc Hl; cbn [app].
  - rewrite app_nil_r. apply sep_saw, Hc.
  - cbn [existsb] in Hl. apply orb_false_iff in Hl as [Hx Hl]. unfold special in Hx. rewrite !orb_false_iff in Hx.
    destruct Hx as [[[H1 H2] H3] H4]. cbn [record_loop]. rewrite H1, H2, H3, H4. cbn [andb].
    rewrite (IH c rest fields (cur ++ [x]) true Hc Hl), <- app_assoc. reflexivity.
Qed.

Lemma quoted_chars l : forall c rest fields cur, is_sep c ->
  record_loop (flat_map (fun c => if Ascii.eqb c kQuote then [kQuote; kQuote] else [c]) l ++ kQuote :: c :: rest) fields cur true true =
  record_loop (c :: rest) fields (cur ++ l) false true.
Proof.
  induction l as [|x l IH]; intros c rest fields cur Hc.
  - rewrite app_nil_r. destruct Hc as [-> | ->]; reflexivity.
  - cbn [flat_map]. destruct (Ascii.eqb_spec x kQuote) as [->|Hx]; cbn [app].
    + change (record_loop (kQuote :: kQuote :: ?r) fields cur true true) with (record_loop r fields (cur ++ [kQuote]) true true).
      rewrite (IH c rest fields (cur ++ [kQuote]) Hc), <- app_assoc. reflexivity.
    + cbn [record_loop]. rewrite (proj2 (Ascii.eqb_neq x kQuote)) by exact Hx.
      rewrite (IH c rest fields (cur ++ [x]) Hc), <- app_assoc. reflexivity.
Qed.

Lemma field_reads f : reads_as (escapeField f) (chars_of f).
Proof.
  intros c rest fields saw Hc. unfold escapeField. destruct (existsb special (chars_of f)) eqn:E.
  - cbn [app]. rewrite <- app_assoc. cbn [app].
    change (record_loop (kQuote :: ?r) fields [] false saw) with (record_loop r fields [] true true).
    exact (quoted_chars (chars_of f) c rest fields [] Hc).
  - exact (plain_chars (chars_of f) c rest fields [] saw Hc E).
Qed.

Lemma plain_reads l : existsb special l = false -> reads_as l l.
Proof. intros H c rest fields saw Hc. exact (plain_chars l c rest fields [] saw Hc H). Qed.

Lemma record_reads texts values : Forall2 reads_as texts values -> texts <> [] -> forall rest fields saw,
  record_loop (join [","%char] texts ++ kCRLF ++ rest) fields [] false saw = (fields ++ values, rest).
Proof.
  induction 1 as [|t v ts vs Ht Hts IH]; intros Hne rest fields saw; [congruence|].
  destruct ts as [|t2 ts].
  - inversion Hts; subst. cbn [join]. unfold kCRLF. cbn [app]. rewrite Ht by (right; reflexivity). reflexivity.
  - cbn [join]. rewrite <- !app_assoc. cbn [app]. rewrite Ht by (left; reflexivity).
    change (record_loop (","%char :: ?r) fields v false true) with (record_loop r (fields ++ [v]) [] false true).
    cbn [join] in IH. rewrite IH by discriminate. rewrite <- app_assoc. reflexivity.
Qed.

Lemma number_plain l : Forall (fun c => Json.number_char c = true) l -> existsb special l = false.
Proof.
  induction 1 as [|c l Hc _ IH]; [reflexivity|]. cbn. rewrite IH, orb_false_r.
  destruct (special c) eqn:E; [|reflexivity]. unfold special in E. rewrite !orb_true_iff in E.
  destruct E as [[[E|E]|E]|E]; apply Ascii.eqb_eq in E; subst; vm_compute in Hc; discriminate.
Qed.
End CsvFacts.

(** What [std::to_string] writes are number characters. *)
Lemma to_string_number z : Forall (fun c => Json.number_char c = true) (chars_of (to_string z)).
Proof.
  assert (P : forall n, 0 <= n -> Forall (fun c => Json.number_char c = true) (chars_of (pretty n))).
  { intros n Hn. destruct (pretty_digits n Hn) as (ds & -> & Hd & _). eapply Forall_impl; [exact Hd|].
    intros c Hc. unfold Json.number_char. rewrite Hc. reflexivity. }
  unfold to_string. destruct (Z.leb_spec 0 z); [apply P; lia|]. destruct z as [| |p]; [lia|lia|].
  rewrite pretty_neg. constructor; [reflexivity|apply P; lia].
Qed.

Module CsvRows.
Import Csv CsvFacts.

Lemma row_reads p text rest :
  writable p -> csv_row p = Ret text ->
  exists fields, parseRecord (text ++ rest) = (fields, rest) /\ row_of_fields fields = Ret (carried p) /\ fields <> [].
Proof.
  intros (stock & rate & Es & Hs & Er & Hr) E. unfold csv_row in E. rewrite Es, Er in E. cbn [initialised mbind outcome_bind] in E.
  injection E as <-. destruct (rate_text rate Hr) as (Hn & _ & Hst).
  set (texts := [escapeField (row_productCode p); escapeField (row_name p); escapeField (row_status p); chars_of (to_string stock); fmtRate rate]).
  set (values := [chars_of (row_productCode p); chars_of (row_name p); chars_of (row_status p); chars_of (to_string stock); fmtRate rate]).
  exists values. split; [|split; [|discriminate]].
  - assert (H : Forall2 reads_as texts values).
    { repeat constructor; try apply field_reads; apply plain_reads, number_plain; [apply to_string_number|exact Hn]. }
    pose proof (record_reads texts values H ltac:(discriminate) rest [] false) as R. unfold parseRecord.
    cbn [join texts] in R. repeat first [rewrite <- app_assoc in R|progress cbn [app] in R].
    repeat first [rewrite <- app_assoc|progress cbn [app]]. exact R.
  - cbn [row_of_fields values].
    pose proof (from_chars_pretty stock [] Hs I) as F. rewrite app_nil_r in F. rewrite F, Hst, !text_of_chars.
    unfold carried. rewrite Es, Er. reflexivity.
Qed.

Lemma csv_row_length p text : csv_row p = Ret text -> (0 < length text)%nat.
Proof.
  unfold csv_row. destruct (row_stock p), (row_qualityRate p); cbn [initialised mbind outcome_bind]; try discriminate.
  intros [= <-]. rewrite !length_app. unfold kCRLF. cbn [length]. lia.
Qed.

Lemma records_read ps : Forall writable ps -> forall text fuel out,
  csv_rows ps = Ret text -> (length text < fuel)%nat -> read_records fuel text out = Ret (out ++ map carried ps).
Proof.
  induction 1 as [|p ps Hp _ IH]; intros text fuel out E Hf; cbn [csv_rows] in E.
  - injection E as <-. destruct fuel as [|fuel]; [lia|]. cbn. rewrite app_nil_r. reflexivity.
  - apply bind_ret_inv in E as (row & Erow & E). apply bind_ret_inv in E as (rest & Erest & E). injection E as <-.
    pose proof (csv_row_length p row Erow) as Hl. rewrite length_app in Hf. destruct fuel as [|fuel]; [lia|].
    destruct (row_reads p row rest Hp Erow) as (fields & Ef & Er & Hne). cbn [read_records]. rewrite Ef.
    destruct fields as [|f fields]; [congruence|]. rewrite Er. cbn [mbind outcome_bind map].
    rewrite (IH rest fuel (out ++ [carried p]) Erest) by lia. rewrite <- app_assoc. reflexivity.
Qed.

Lemma csv_rows_written ps : Forall writable ps -> exists text, csv_rows ps = Ret text.
Proof.
  induction 1 as [|p ps (stock & rate & Es & _ & Er & _) _ [text IH]]; [exists []; reflexivity|].
  eexists. cbn [csv_rows]. unfold csv_row at 1. rewrite Es, Er. cbn [initialised mbind outcome_bind]. rewrite IH. reflexivity.
Qed.

Lemma header_read header rows : exists fields, parseRecord (join [","%char] (map escapeField header) ++ kCRLF ++ rows) = (fields, rows).
Proof.
  destruct header as [|h header]; [exists [[]]; reflexivity|].
  eexists. apply (record_reads _ (map chars_of (h :: header))); [|discriminate].
  induction (h :: header) as [|x l IH]; constructor; [apply field_reads|exact IH].
Qed.

Lemma csv_reads_back header ps : Forall writable ps ->
  exists text, csv_writeProducts header ps = Ret text /\ csv_readProducts text = Ret (map carried ps).
Proof.
  intros H. destruct (csv_rows_written ps H) as [rows E]. unfold csv_writeProducts. rewrite E. cbn [mbind outcome_bind].
  eexists. split; [reflexivity|]. unfold csv_readProducts.
  change (skip_bom (kUtf8Bom ++ ?r)) with r. destruct (header_read header rows) as [fields Hh]. rewrite Hh.
  apply (records_read ps H rows (S (length rows)) [] E). lia.
Qed.


(** Reading ends on every input. *)
Lemma record_loop_length n : forall l fields cur inq saw, (length l <= n)%nat ->
  (length (snd (record_loop l fields cur inq saw)) <= length l)%nat /\
  (l <> [] -> (length (snd (record_loop l fields cur inq saw)) < length l)%nat).
Proof.
  induction n as [|n IH]; intros [|c l] fields cur inq saw Hl; cbn [length] in *; try lia; try (cbn; split; [lia|congruence]).
  assert (K : forall f c i, (length (snd (record_loop l f c i true)) <= length l)%nat) by (intros; apply IH; lia).
  enough (H : (length (snd (record_loop (c :: l) fields cur inq saw)) <= length l)%nat) by (split; intros; lia).
  cbn [record_loop]. destruct inq.
  - destruct (Ascii.eqb c kQuote); [|apply K]. destruct l as [|c2 l]; [apply K|].
    destruct (Ascii.eqb c2 kQuote); [|apply K]. destruct (IH l fields (cur ++ [kQuote]) true true); cbn [length] in *; lia.
  - repeat case_match; cbn [snd length]; try apply K; lia.
Qed.

Lemma records_defined fuel : forall l out, (length l < fuel)%nat -> defined (read_records fuel l out).
Proof.
  induction fuel as [|fuel IH]; intros l out Hf; [lia|]. cbn [read_records].
  pose proof (record_loop_length (length l) l [] [] false false ltac:(lia)) as [_ H]. unfold parseRecord.
  destruct l as [|c l]; [exact I|]. specialize (H ltac:(discriminate)).
  destruct (record_loop (c :: l) [] [] false false) as [[|f fields] l'] eqn:E; [exact I|]. cbn [snd] in H.
  apply defined_bind; [|intros p _; apply IH; lia].
  unfold row_of_fields. repeat case_match; try exact I. unfold stof in *. repeat case_match; discriminate.
Qed.

Lemma csv_defined l : defined (csv_readProducts l).
Proof. unfold csv_readProducts. destruct (parseRecord _) as [fields l']. apply records_defined. lia. Qed.
End CsvRows.

(** *** JSON *)

Module JsonFacts.
Import Json.

(** Characters the writer escapes the way the reader understands. *)
Definition jsonable_char (c : ascii) : Prop := 32 <= code c \/ In c [kBS; kFF; kLF; kCR; kTab].
Definition jsonable (s : string) : Prop := Forall jsonable_char (chars_of s).
Definition jsonable_row (p : ProductRow) : Prop :=
  jsonable (row_productCode p) /\ jsonable (row_name p) /\ jsonable (row_status p) /\ writable p.

Lemma escape_reads c l out : jsonable_char c -> string_body (escape_char c ++ l) out = string_body l (out ++ [c]).
Proof.
  intros Hc. unfold escape_char.
  destruct (Ascii.eqb_spec c kQuote) as [->|N1]; [reflexivity|].
  destruct (Ascii.eqb_spec c kBackslash) as [->|N2]; [reflexivity|].
  destruct (Ascii.eqb_spec c kBS) as [->|N3]; [reflexivity|].
  destruct (Ascii.eqb_spec c kFF) as [->|N4]; [reflexivity|].
  destruct (Ascii.eqb_spec c kLF) as [->|N5]; [reflexivity|].
  destruct (Ascii.eqb_spec c kCR) as [->|N6]; [reflexivity|].
  destruct (Ascii.eqb_spec c kTab) as [->|N7]; [reflexivity|].
  destruct Hc as [Hc|Hc]; [|cbn in Hc; intuition congruence].
  rewrite (proj2 (Z.ltb_ge _ _)) by lia. cbn [app string_body].
  rewrite (proj2 (Ascii.eqb_neq c kQuote)), (proj2 (Ascii.eqb_neq c kBackslash)) by assumption. reflexivity.
Qed.

Lemma body_reads l : Forall jsonable_char l -> forall rest out,
  string_body (flat_map escape_char l ++ kQuote :: rest) out = Ret (out ++ l, rest).
Proof.
  induction 1 as [|c l Hc _ IH]; intros rest out; cbn [flat_map].
  - rewrite app_nil_r. reflexivity.
  - rewrite <- app_assoc, escape_reads, IH, <- app_assoc by exact Hc. reflexivity.
Qed.

Lemma string_reads s rest : jsonable s -> parseString (quoted (escapeString s) ++ rest) = Ret (chars_of s, rest).
Proof.
  intros H. unfold quoted. cbn [app]. rewrite <- app_assoc. cbn [app].
  change (parseString (kQuote :: ?r)) with (string_body r []). apply (body_reads _ H rest []).
Qed.

Lemma not_ws_number c : number_char c = true -> is_ws c = false.
Proof.
  intros H. destruct (is_ws c) eqn:E; [|reflexivity]. unfold is_ws in E. rewrite !orb_true_iff in E.
  destruct E as [[[E|E]|E]|E]; apply Ascii.eqb_eq in E; subst; vm_compute in H; discriminate.
Qed.

Lemma number_reads s c rest : Forall (fun c => number_char c = true) s -> s <> [] -> number_char c = false ->
  parseNumber (s ++ c :: rest) = Ret (s, c :: rest).
Proof.
  intros Hs Hne Hc. destruct s as [|x s]; [congruence|]. pose proof Hs as Hx. apply Forall_cons in Hx as [Hx _].
  unfold parseNumber. cbn [app skipWs]. rewrite (not_ws_number x Hx).
  change (x :: s ++ c :: rest) with ((x :: s) ++ c :: rest). rewrite (span_all _ _ (c :: rest) Hs Hc). reflexivity.
Qed.

(** A value as written, followed by a comma or a line feed, is read. *)
Definition value_reads (key : string) (value : chars) (p p' : ProductRow) : Prop := forall c rest,
  c = ","%char \/ c = kLF -> read_value key p (value ++ c :: rest) = Ret (p', c :: rest) /\
  skipWs (value ++ c :: rest) = value ++ c :: rest.

Lemma string_value key f s p :
  (forall l, read_value key p l = ('(v, l) ← parseString l; Ret (f (text_of v) p, l))) -> jsonable s ->
  value_reads key (quoted (escapeString s)) p (f s p).
Proof.
  intros Hf Hs c rest _. split; [|reflexivity]. rewrite Hf, string_reads by exact Hs. cbn [mbind outcome_bind].
  rewrite text_of_chars. reflexivity.
Qed.

Lemma number_skip s c rest : Forall (fun c => number_char c = true) s -> s <> [] -> skipWs (s ++ c :: rest) = s ++ c :: rest.
Proof.
  intros Hs Hne. destruct s as [|x s]; [congruence|]. apply Forall_cons in Hs as [Hx _].
  cbn [app skipWs]. rewrite (not_ws_number x Hx). reflexivity.
Qed.

Lemma sep_not_number c : c = ","%char \/ c = kLF -> number_char c = false.
Proof. intros [-> | ->]; reflexivity. Qed.

Lemma to_string_nonempty z : chars_of (to_string z) <> [].
Proof. unfold to_string. destruct (pretty_head z) as (c & l & -> & _). discriminate. Qed.

Lemma stock_value z p : int_min <= z <= int_max -> value_reads "stock" (chars_of (to_string z)) p (row_setStock z p).
Proof.
  intros Hz c rest Hc. split; [|apply number_skip; [apply to_string_number|apply to_string_nonempty]].
  unfold read_value. cbn [String.eqb Ascii.eqb Bool.eqb].
  rewrite number_reads by (first [apply to_string_number|apply to_string_nonempty|apply sep_not_number, Hc]).
  cbn [mbind outcome_bind]. pose proof (from_chars_pretty z [] Hz I) as F. rewrite app_nil_r in F. rewrite F. reflexivity.
Qed.

Lemma rate_value r p : tenths r -> value_reads "qualityRate" (fmtRate r) p (row_setQualityRate r p).
Proof.
  intros Hr c rest Hc. destruct (rate_text r Hr) as (Hn & Hne & Hs). split; [|apply number_skip; assumption].
  unfold read_value. cbn [String.eqb Ascii.eqb Bool.eqb].
  rewrite number_reads by (first [assumption|apply sep_not_number, Hc]). cbn [mbind outcome_bind]. rewrite Hs. reflexivity.
Qed.

Definition plain_key (key : string) : Prop := jsonable key /\ escapeString key = chars_of key.

Lemma member_reads fuel (first : bool) key value p p' c rest :
  plain_key key -> value_reads key value p p' -> c = ","%char \/ c = kLF ->
  read_members (S fuel) first p ((if first then [] else [","%char]) ++ kLF :: member key value ++ c :: rest) =
  read_members fuel false p' (c :: rest).
Proof.
  intros [Hk Ek] Hv Hc. destruct (Hv c rest Hc) as [V1 V2].
  assert (M : read_member p (quoted (chars_of key) ++ chars_of ": " ++ value ++ c :: rest) = Ret (p', c :: rest)).
  { unfold read_member. rewrite <- Ek, string_reads by exact Hk. cbn [mbind outcome_bind].
    change (expect ":" (skipWs (chars_of ": " ++ ?r))) with (Ret (" "%char :: r)). cbn [mbind outcome_bind].
    change (skipWs (" "%char :: ?r)) with (skipWs r). rewrite V2, text_of_chars. exact V1. }
  unfold member, quoted in *. cbn [read_members]. destruct first; cbn [app] in *;
    repeat first [rewrite <- app_assoc|progress cbn [app]]; repeat first [rewrite <- app_assoc in M|progress cbn [app] in M].
  - change (skipWs (kLF :: chars_of "    " ++ kQuote :: ?r)) with (kQuote :: r). cbn [Ascii.eqb Bool.eqb kQuote mbind outcome_bind].
    change (mret ?x) with (Ret x) in *. fold kQuote. rewrite M. reflexivity.
  - change (skipWs (","%char :: ?r)) with (","%char :: r). cbn [Ascii.eqb Bool.eqb].
    change (expect "," (","%char :: ?r)) with (Ret r). cbn [mbind outcome_bind].
    change (skipWs (kLF :: chars_of "    " ++ kQuote :: ?r)) with (kQuote :: r). rewrite M. reflexivity.
Qed.

Lemma first_reads fuel key value p p' c rest :
  plain_key key -> value_reads key value p p' -> c = ","%char \/ c = kLF ->
  read_members (S fuel) true p (kLF :: member key value ++ c :: rest) = read_members fuel false p' (c :: rest).
Proof. exact (member_reads fuel true key value p p' c rest). Qed.
Lemma next_reads fuel key value p p' c rest :
  plain_key key -> value_reads key value p p' -> c = ","%char \/ c = kLF ->
  read_members (S fuel) false p (","%char :: kLF :: member key value ++ c :: rest) = read_members fuel false p' (c :: rest).
Proof. exact (member_reads fuel false key value p p' c rest). Qed.

Lemma plain_keys : Forall plain_key ["productCode"; "name"; "status"; "stock"; "qualityRate"].
Proof.
  assert (H : forall l, forallb (fun c => 32 <=? code c) l = true -> Forall jsonable_char l).
  { intros l Hl. rewrite forallb_forall in Hl. apply Forall_forall. intros c Hc. left. apply Z.leb_le, Hl, list_elem_of_In, Hc. }
  repeat (apply Forall_cons; split; [split; [apply H; reflexivity|reflexivity]|]). apply Forall_nil. exact I.
Qed.

Lemma member_length key value : (8 <= length (member key value))%nat.
Proof. unfold member, quoted. rewrite !length_app. cbn [length chars_of String.list_ascii_of_string]. rewrite length_app. cbn [length]. lia. Qed.

#[local] Opaque member.

(** One object as written is read. *)
Lemma object_reads p text after : jsonable_row p -> write_row p = Ret text ->
  exists body, text = chars_of "  {" ++ body /\ read_members (S (length (body ++ after))) true row_new (body ++ after) = Ret (carried p, after).
Proof.
  intros (J1 & J2 & J3 & stock & rate & Es & Hs & Er & Hr) E. unfold write_row in E. rewrite Es, Er in E.
  cbn [initialised mbind outcome_bind] in E. injection E as <-. eexists. split; [reflexivity|].
  pose proof plain_keys as K. rewrite !Forall_cons in K. destruct K as (K1 & K2 & K3 & K4 & K5 & _).
  match goal with |- read_members (S (length ?b)) _ _ _ = _ => assert (Hf : exists n, length b = S (S (S (S (S n))))) end.
  { match goal with |- exists n, length ?b = _ => assert (5 <= length b)%nat; [|exists (length b - 5)%nat; lia] end.
    cbn [app length]. rewrite !length_app. pose proof (member_length "productCode" (quoted (escapeString (row_productCode p)))). lia. }
  destruct Hf as [n ->]. change (chars_of ",") with [","%char]. repeat first [rewrite <- app_assoc|progress cbn [app]].
  rewrite (first_reads _ _ _ _ (row_setProductCode (row_productCode p) row_new));
    [|exact K1|apply (string_value "productCode" row_setProductCode); [reflexivity|exact J1]|auto].
  rewrite (next_reads _ _ _ _ _ _ _ K2 (string_value "name" row_setName (row_name p) _ ltac:(reflexivity) J2)) by auto.
  rewrite (next_reads _ _ _ _ _ _ _ K3 (string_value "status" row_setStatus (row_status p) _ ltac:(reflexivity) J3)) by auto.
  rewrite (next_reads _ _ _ _ _ _ _ K4 (stock_value stock _ Hs)) by auto.
  rewrite (next_reads _ _ _ _ _ _ _ K5 (rate_value rate _ Hr)) by auto.
  unfold carried. rewrite Es, Er. reflexivity.
Qed.

Lemma rows_read ps : Forall jsonable_row ps -> ps <> [] -> forall text fuel out l after,
  write_rows ps = Ret text -> skipWs l = skipWs (text ++ "]"%char :: after) -> (length ps <= fuel)%nat ->
  read_objects fuel out l = Ret (out ++ map carried ps).
Proof.
  induction 1 as [|p ps Hp Hps IH]; intros Hne text fuel out l after E Hl Hf; [congruence|]. cbn [write_rows length] in *.
  apply bind_ret_inv in E as (row & Erow & E). apply bind_ret_inv in E as (rest & Erest & E). injection E as <-.
  destruct fuel as [|fuel]; [lia|].
  set (tail := (if bool_decide (ps = []) then [] else [","%char]) ++ [kLF] ++ rest ++ "]"%char :: after).
  assert (Ht : (row ++ (if bool_decide (ps = []) then [] else [","%char]) ++ kLF :: rest) ++ "]"%char :: after = row ++ tail).
  { unfold tail. rewrite <- app_assoc. rewrite <- (app_assoc _ (kLF :: rest)). reflexivity. }
  rewrite Ht in Hl. clear Ht.
  destruct (object_reads p row tail Hp Erow) as (body & -> & Hb).
  cbn [read_objects]. rewrite Hl, <- app_assoc.
  change (expect "{" (skipWs (chars_of "  {" ++ ?r))) with (Ret r). cbn [mbind outcome_bind]. rewrite Hb. cbn [mbind outcome_bind].
  unfold tail. destruct (bool_decide_reflect (ps = [])) as [->|Hn]; cbn [app].
  - injection Erest as <-. reflexivity.
  - change (skipWs (","%char :: ?r)) with (","%char :: r). cbn [Ascii.eqb Bool.eqb].
    rewrite (IH Hn rest fuel (out ++ [carried p]) (kLF :: rest ++ "]"%char :: after) after Erest eq_refl) by lia. rewrite <- app_assoc. reflexivity.
Qed.

Lemma json_rows_written ps : Forall jsonable_row ps -> exists text, write_rows ps = Ret text /\ (length ps <= length text)%nat.
Proof.
  induction 1 as [|p ps (_ & _ & _ & stock & rate & Es & _ & Er & _) _ (text & IH & Hl)]; [exists []; split; reflexivity|].
  eexists. cbn [write_rows]. unfold write_row at 1. rewrite Es, Er. cbn [initialised mbind outcome_bind]. rewrite IH.
  split; [reflexivity|]. rewrite !length_app. cbn [length]. lia.
Qed.

Lemma row_starts p ps text : write_rows (p :: ps) = Ret text -> exists body, text = chars_of "  {" ++ body.
Proof.
  cbn [write_rows]. intros E. apply bind_ret_inv in E as (row & Erow & E). apply bind_ret_inv in E as (rest & _ & E).
  injection E as <-. unfold write_row in Erow. destruct (row_stock p), (row_qualityRate p); cbn [initialised mbind outcome_bind] in Erow; try discriminate.
  injection Erow as <-. eexists. reflexivity.
Qed.

Lemma json_reads_back ps : Forall jsonable_row ps ->
  exists text, json_writeProducts ps = Ret text /\ json_readProducts text = Ret (map carried ps).
Proof.
  intros H. destruct ps as [|p ps]; [eexists; split; reflexivity|].
  destruct (json_rows_written _ H) as (text & E & Hlen). unfold json_writeProducts. rewrite E. cbn [mbind outcome_bind].
  eexists. split; [reflexivity|]. unfold json_readProducts.
  change (expect "[" (skipWs (chars_of "[" ++ ?r))) with (Ret r). cbn [mbind outcome_bind].
  change (skipWs ([kLF] ++ ?r)) with (skipWs r).
  destruct (row_starts p ps text E) as [body ->].
  change (skipWs ((chars_of "  {" ++ body) ++ ?r)) with ("{"%char :: body ++ r). cbn [Ascii.eqb Bool.eqb].
  rewrite (rows_read (p :: ps) H ltac:(discriminate) _ _ [] _ [kLF] E); [reflexivity|reflexivity|].
  cbn [app length]. rewrite !length_app in *. cbn [length] in *. lia.
Qed.

(** Reading ends on every input: what succeeds consumes characters. *)
Definition consumes {A} (m : outcome (A * chars)) (l : chars) : Prop :=
  match m with Ret (_, l') => (length l' < length l)%nat | Throw _ => True | Undef => False end.

Definition shrinks {A} (m : outcome (A * chars)) (l : chars) : Prop :=
  match m with Ret (_, l') => (length l' <= length l)%nat | Throw _ => True | Undef => False end.

Lemma consumes_bind {A B} (m : outcome (A * chars)) (k : A -> chars -> outcome (B * chars)) l :
  consumes m l -> (forall a l', (length l' < length l)%nat -> shrinks (k a l') l') -> consumes ('(a, l') ← m; k a l') l.
Proof.
  destruct m as [[a l']|e|]; cbn; intros H Hk; try exact H. specialize (Hk a l' H).
  destruct (k a l') as [[b l'']|e|]; cbn in *; auto. lia.
Qed.

Lemma consumes_shrinks {A} (m : outcome (A * chars)) l : consumes m l -> shrinks m l.
Proof. destruct m as [[a l']|e|]; cbn; auto. lia. Qed.

Lemma consumes_le {A} (m : outcome (A * chars)) l l' : consumes m l -> (length l <= length l')%nat -> consumes m l'.
Proof. destruct m as [[a l1]|e|]; cbn; auto. lia. Qed.

Lemma skipWs_length l : (length (skipWs l) <= length l)%nat.
Proof. induction l as [|c l IH]; cbn; [lia|]. destruct (is_ws c); cbn; lia. Qed.

Lemma expect_length c l : match expect c l with Ret l' => (length l' < length l)%nat | Throw _ => True | Undef => False end.
Proof.
  unfold expect. pose proof (skipWs_length l) as H. destruct (skipWs l) as [|x l']; [exact I|].
  destruct (Ascii.eqb x c); cbn in *; [lia|exact I].
Qed.

Lemma string_body_consumes n : forall l out, (length l <= n)%nat -> consumes (string_body l out) l.
Proof.
  induction n as [|n IH]; intros [|c l] out Hl; cbn [length] in *; try exact I; try lia. cbn [string_body].
  destruct (Ascii.eqb c kQuote); [cbn; lia|]. destruct (Ascii.eqb c kBackslash).
  - destruct l as [|e l]; [exact I|]. destruct (unescape e); [|exact I]. cbn [length] in *.
    eapply consumes_le; [apply IH; lia|cbn; lia].
  - eapply consumes_le; [apply IH; lia|cbn; lia].
Qed.

Lemma string_consumes l : consumes (parseString l) l.
Proof.
  unfold parseString. pose proof (expect_length kQuote l) as H. destruct (expect kQuote l) as [l'|e|]; cbn [mbind outcome_bind]; [|exact I|exact H].
  eapply consumes_le; [apply (string_body_consumes (length l')); lia|lia].
Qed.

Lemma number_consumes l : consumes (parseNumber l) l.
Proof.
  unfold parseNumber. destruct (span number_char (skipWs l)) as [a b] eqn:E. apply span_spec in E as (E & _).
  pose proof (skipWs_length l) as H. rewrite E, length_app in H. destruct a; cbn in *; [exact I|lia].
Qed.

Lemma value_consumes key p l : consumes (read_value key p l) l.
Proof.
  unfold read_value. repeat case_match; (apply consumes_bind; [first [apply string_consumes|apply number_consumes]|]); intros ? ? _;
    try (unfold stof); repeat case_match; cbn; auto.
Qed.

Lemma expect_bind {B} c l (k : chars -> outcome (B * chars)) :
  (forall l', (length l' < length l)%nat -> shrinks (k l') l') -> consumes (l' ← expect c l; k l') l.
Proof.
  intros Hk. pose proof (expect_length c l) as H. destruct (expect c l) as [l'|e|]; cbn [mbind outcome_bind]; [|exact I|exact H].
  specialize (Hk l' H). destruct (k l') as [[b l'']|e|]; cbn in *; auto. lia.
Qed.

Lemma shrinks_le {A} (m : outcome (A * chars)) l l' : shrinks m l -> (length l <= length l')%nat -> shrinks m l'.
Proof. destruct m as [[a l1]|e|]; cbn; auto. lia. Qed.

Lemma member_consumes p l : consumes (read_member p l) l.
Proof.
  unfold read_member. apply consumes_bind; [apply string_consumes|]. intros key l1 _.
  eapply shrinks_le; [apply consumes_shrinks, expect_bind|apply skipWs_length]. intros l2 _.
  eapply shrinks_le; [apply consumes_shrinks, value_consumes|apply skipWs_length].
Qed.

Lemma members_consume fuel : forall first p l, (length l < fuel)%nat -> consumes (read_members fuel first p l) l.
Proof.
  induction fuel as [|fuel IH]; intros first p l Hf; [lia|]. cbn [read_members].
  set (next := fun l0 : chars =>
    l1 ← (if first then Ret l0 else l2 ← expect "," l0; Ret (skipWs l2)); '(p, l1) ← read_member p l1; read_members fuel false p l1).
  change (consumes (match skipWs l with c :: l' => if Ascii.eqb c "}" then Ret (p, l') else next (c :: l') | [] => next [] end) l).
  assert (N : forall l0, (length l0 <= length l)%nat -> consumes (next l0) l0).
  { intros l0 Hl0. unfold next. assert (M : forall l1, (length l1 <= length l0)%nat ->
      consumes ('(p, l) ← read_member p l1; read_members fuel false p l) l1).
    { intros l1 Hl1. apply consumes_bind; [apply member_consumes|]. intros p' l' Hl'. apply consumes_shrinks, IH. lia. }
    destruct first; cbn [mbind outcome_bind].
    - apply M. lia.
    - pose proof (expect_length "," l0) as H. destruct (expect "," l0) as [l1|e|]; cbn [mbind outcome_bind]; [|exact I|exact H].
      pose proof (skipWs_length l1). eapply consumes_le; [apply M|]; lia. }
  pose proof (skipWs_length l) as H. destruct (skipWs l) as [|c l'].
  - eapply consumes_le; [apply N|]; cbn in *; lia.
  - destruct (Ascii.eqb c "}"); [cbn in *; lia|]. eapply consumes_le; [apply N|]; lia.
Qed.

Lemma objects_defined fuel : forall out l, (length l < fuel)%nat -> defined (read_objects fuel out l).
Proof.
  induction fuel as [|fuel IH]; intros out l Hf; [lia|]. cbn [read_objects].
  pose proof (expect_length "{" (skipWs l)) as He. pose proof (skipWs_length l).
  destruct (expect "{" (skipWs l)) as [l1|e|]; cbn [mbind outcome_bind]; [|exact I|exact He].
  pose proof (members_consume (S (length l1)) true row_new l1 ltac:(lia)) as Hm.
  destruct (read_members _ _ _ _) as [[p l2]|e|]; cbn in Hm |- *; [|exact I|exact Hm].
  pose proof (skipWs_length l2). destruct (skipWs l2) as [|c l3]; [exact I|].
  destruct (Ascii.eqb c "]"); [exact I|]. destruct (Ascii.eqb c ","); [|exact I]. apply IH. cbn in *. lia.
Qed.

Lemma json_defined l : defined (json_readProducts l).
Proof.
  unfold json_readProducts. pose proof (expect_length "[" (skipWs l)) as He.
  destruct (expect "[" (skipWs l)) as [l1|e|]; cbn [mbind outcome_bind]; [|exact I|exact He].
  pose proof (skipWs_length l1). destruct (skipWs l1) as [|c l2].
  - apply objects_defined. cbn. lia.
  - destruct (Ascii.eqb c "]"); [exact I|]. apply objects_defined. lia.
Qed.
End JsonFacts.

(* ------------------------------------------------------------------ *)
(** ** Properties *)

(** Export and import. What either format writes, it reads back: the same
    rows in the same order with the same code, name, status, stock and
    quality rate. CSV carries every text, commas, quotes and line breaks
    included, under every header; JSON every text without control characters
    other than those with a short escape. *)
Theorem products_roundtrip :
  (forall ps, Forall JsonFacts.jsonable_row ps ->
     exists text, writeProducts mkJsonSerializer ps = Ret text /\ readProducts mkJsonSerializer text = Ret (map carried ps)) /\
  (forall header ps, Forall writable ps ->
     exists text, writeProducts (mkCsvSerializer header) ps = Ret text /\
       readProducts (mkCsvSerializer header) text = Ret (map carried ps)).
Proof.
  split; [intros ps H|intros header ps H]; cbn [writeProducts readProducts JsonFormat CsvFormat header_].
  - apply JsonFacts.json_reads_back, H.
  - apply CsvRows.csv_reads_back, H.
Qed.

(** Import ends on every input. Both readers return rows or throw, whatever
    the file holds; the loops need no more rounds than it has characters. *)
Theorem import_total (text : chars) (header : list string) :
  defined (readProducts mkJsonSerializer text) /\ defined (readProducts (mkCsvSerializer header) text).
Proof.
  cbn [readProducts JsonFormat CsvFormat]. split; [exact (JsonFacts.json_defined text)|exact (CsvRows.csv_defined text)].
Qed.

Definition row_with_tab_and (c : ascii) : ProductRow :=
  mkRow (Some 7) "P-1" (text_of (chars_of "Tab" ++ [kTab; c])) "Active" (Some 850) (Some (f32_lit 981 1)) "" "" "".

Definition imports (r : outcome (list ProductRow)) : bool := match r with Ret _ => true | _ => false end.

(** Where the JSON reader falls short: a control character the writer
    escapes is refused; a malformed rate throws another exception than the
    interface names; an unknown key with a literal value is not skipped; an
    object without its numbers leaves them uninitialised, and writing it back
    is undefined. *)
Theorem json_import_gaps_refuted :
  (exists text, writeProducts mkJsonSerializer [row_with_tab_and (chr 1)] = Ret text /\
     readProducts mkJsonSerializer text = Throw runtime_error) /\
  readProducts mkJsonSerializer (chars_of "[{" ++ Json.quoted (chars_of "qualityRate") ++ chars_of ":-}]") = Throw invalid_argument /\
  readProducts mkJsonSerializer (chars_of "[{" ++ Json.quoted (chars_of "discontinued") ++ chars_of ":true}]") = Throw runtime_error /\
  readProducts mkJsonSerializer (chars_of "[{}]") = Ret [row_new] /\
  writeProducts mkJsonSerializer [row_new] = Undef.
Proof.
  split; [|vm_compute; repeat split].
  exists (match writeProducts mkJsonSerializer [row_with_tab_and (chr 1)] with Ret t => t | _ => [] end).
  vm_compute. split; reflexivity.
Qed.

(* ------------------------------------------------------------------ *)
(** ** Witness *)

Definition stocked : list ProductRow := [row_with_tab_and kLF; row_with_tab_and kBackslash; row_with_tab_and kQuote].

Lemma stocked_ok : Forall JsonFacts.jsonable_row stocked /\ Forall writable stocked.
Proof.
  assert (W : forall c, writable (row_with_tab_and c)).
  { intros c. exists 850, (f32_lit 981 1). split; [reflexivity|]. split; [unfold int_min, int_max; lia|].
    split; [reflexivity|]. exists 981. split; [lia|reflexivity]. }
  split; [|repeat constructor; apply W].
  assert (J : forall s, forallb (fun c => (32 <=? code c) || Ascii.eqb c kTab || Ascii.eqb c kLF) (chars_of s) = true -> JsonFacts.jsonable s).
  { intros s Hs. rewrite forallb_forall in Hs. apply Forall_forall. intros c Hc. apply list_elem_of_In, Hs in Hc.
    rewrite !orb_true_iff in Hc. destruct Hc as [[Hc|Hc]|Hc]; [left; apply Z.leb_le, Hc| |];
      apply Ascii.eqb_eq in Hc; subst; right; cbn; tauto. }
  repeat (apply Forall_cons; split; [split_and!; [apply J; vm_compute; reflexivity..|apply W]|]). apply Forall_nil. exact I.
Qed.

Lemma products_roundtrip_witness :
  (exists text, writeProducts mkJsonSerializer stocked = Ret text /\ readProducts mkJsonSerializer text = Ret (map carried stocked)) /\
  (exists text, writeProducts csv_default stocked = Ret text /\ readProducts csv_default text = Ret (map carried stocked)).
Proof.
  split; [apply (proj1 products_roundtrip), stocked_ok|exact (proj2 products_roundtrip Csv.defaultHeader stocked (proj2 stocked_ok))].
Defined.
