(* ===== verification/SpscQueue.v ===== *)
(** * Single-producer / single-consumer ring (src/core/SpscQueue.h)

    The queue's sequential operations, translated from the header, their
    refinement of a bounded FIFO list, and the concurrent protocol of one
    producer and one consumer as a step relation whose steps are the
    individual atomic accesses. *)
From S2P Require Import Prelude.

(** The class template's [static_assert]s on [kCapacity]; [kCapacity] is a
    [std::size_t]. *)
Definition capacity_ok (kCapacity : Z) : bool :=
  (2 <=? kCapacity) && (Z.land kCapacity (kCapacity - 1) =? 0)
  && (kCapacity <? 18446744073709551616).

(** The data members: the two free-running indices and the slot array. *)
Record spsc (T : Type) := mkSpsc {
  head_ : Z;
  tail_ : Z;
  buffer_ : list T;
}.
Arguments mkSpsc {T}.
Arguments head_ {T}.
Arguments tail_ {T}.
Arguments buffer_ {T}.

Section Queue.
Context {T : Type} (kCapacity : Z).

Definition kMask : Z := kCapacity - 1.
Definition slot (i : Z) : nat := Z.to_nat (Z.land i kMask).

(** [SpscQueue()]: both indices 0, the array value-initialised. *)
Definition spsc_init (dflt : T) : spsc T :=
  mkSpsc 0 0 (replicate (Z.to_nat kCapacity) dflt).

(** The full test of [emplaceImpl]: [next - head > kCapacity - 1] on
    [std::size_t]. *)
Definition push_refused (tail head : Z) : bool :=
  kCapacity - 1 <? u64 (u64 (tail + 1) - head).

(** [emplaceImpl], the body of both [push] overloads. *)
Definition push (q : spsc T) (item : T) : outcome (bool * spsc T) :=
  let tail := tail_ q in
  let next := u64 (tail + 1) in
  if push_refused tail (head_ q) then Ret (false, q)
  else
    buf ← vec_set (buffer_ q) (slot tail) item;
    Ret (true, mkSpsc (head_ q) next buf).

(** [pop(out)]: [None] is [return false] with [out] untouched. *)
Definition pop (q : spsc T) : outcome (option T * spsc T) :=
  let head := head_ q in
  if head =? tail_ q then Ret (None, q)
  else
    out ← vec_get (buffer_ q) (slot head);
    Ret (Some out, mkSpsc (u64 (head + 1)) (tail_ q) (buffer_ q)).

Definition empty (q : spsc T) : bool := head_ q =? tail_ q.
Definition size (q : spsc T) : Z := u64 (tail_ q - head_ q).
Definition full (q : spsc T) : bool := kCapacity - 1 <=? size q.

(* ------------------------------------------------------------------ *)
(** ** Abstraction to a bounded FIFO *)

(** [repr q l]: the ring holds exactly the items [l], oldest first. *)
Definition repr (q : spsc T) (l : list T) : Prop :=
  Z.of_nat (length (buffer_ q)) = kCapacity /\
  0 <= head_ q < 18446744073709551616 /\
  tail_ q = u64 (head_ q + Z.of_nat (length l)) /\
  Z.of_nat (length l) <= kCapacity - 1 /\
  forall i x, l !! i = Some x -> buffer_ q !! slot (head_ q + Z.of_nat i) = Some x.

Ltac split_repr := unfold repr; split; [|split; [|split; [|split]]].

Context (Hcap : capacity_ok kCapacity = true).

Lemma capacity_pow2 : exists k, 1 <= k < 64 /\ kCapacity = 2 ^ k.
Proof.
  unfold capacity_ok in Hcap.
  apply andb_true_iff in Hcap as [[H1 H2]%andb_true_iff H3].
  apply Z.leb_le in H1. apply Z.eqb_eq in H2. apply Z.ltb_lt in H3.
  set (k := Z.log2 kCapacity).
  assert (Hspec : 2 ^ k <= kCapacity < 2 ^ Z.succ k) by (apply Z.log2_spec; lia).
  assert (Hk : 0 <= k) by apply Z.log2_nonneg.
  assert (Heq : kCapacity = 2 ^ k).
  { destruct (Z.eq_dec kCapacity (2 ^ k)) as [|Hne]; [assumption|exfalso].
    assert (Hlog : Z.log2 (kCapacity - 1) = k) by (apply Z.log2_unique; lia).
    assert (Hb : Z.testbit (Z.land kCapacity (kCapacity - 1)) k = true).
    { rewrite Z.land_spec, Z.bit_log2 by lia.
      rewrite <- Hlog at 1. rewrite Z.bit_log2 by lia. reflexivity. }
    rewrite H2, Z.bits_0 in Hb. discriminate. }
  exists k. split; [|assumption].
  assert (2 ^ 1 <= 2 ^ k) by lia.
  assert (2 ^ k < 2 ^ 64) by (change (2 ^ 64) with 18446744073709551616; lia).
  split.
  - apply (Z.pow_le_mono_r_iff 2 1 k); lia.
  - apply (Z.pow_lt_mono_r_iff 2 k 64); lia.
Qed.

Lemma capacity_bounds : 2 <= kCapacity < 18446744073709551616.
Proof.
  unfold capacity_ok in Hcap.
  apply andb_true_iff in Hcap as [[H1 _]%andb_true_iff H3].
  apply Z.leb_le in H1. apply Z.ltb_lt in H3. lia.
Qed.

Lemma slot_mod z : slot z = Z.to_nat (z mod kCapacity).
Proof.
  unfold slot, kMask. destruct capacity_pow2 as (k & Hk & ->).
  rewrite land_low_mask by lia. reflexivity.
Qed.

Lemma mod_u64 z : u64 z mod kCapacity = z mod kCapacity.
Proof.
  destruct capacity_pow2 as (k & Hk & ->). unfold u64.
  change 18446744073709551616 with (2 ^ 64).
  apply Z.mod_mod_divide.
  exists (2 ^ (64 - k)). rewrite <- Z.pow_add_r by lia. f_equal. lia.
Qed.

Lemma slot_u64 z : slot (u64 z) = slot z.
Proof. rewrite !slot_mod, mod_u64. reflexivity. Qed.

Lemma slot_lt z : Z.of_nat (slot z) < kCapacity.
Proof.
  pose proof capacity_bounds. rewrite slot_mod.
  pose proof (Z.mod_pos_bound z kCapacity ltac:(lia)). lia.
Qed.

(** Two indices less than a lap apart address different slots. *)
Lemma slot_inj h i j :
  0 <= i < kCapacity -> 0 <= j < kCapacity -> slot (h + i) = slot (h + j) -> i = j.
Proof.
  intros Hi Hj. pose proof capacity_bounds. rewrite !slot_mod.
  pose proof (Z.mod_pos_bound (h + i) kCapacity ltac:(lia)).
  pose proof (Z.mod_pos_bound (h + j) kCapacity ltac:(lia)).
  intros Heq. assert (Hm : (h + i) mod kCapacity = (h + j) mod kCapacity) by lia.
  pose proof (Z.div_mod (h + i) kCapacity ltac:(lia)).
  pose proof (Z.div_mod (h + j) kCapacity ltac:(lia)).
  set (q1 := (h + i) / kCapacity) in *. set (q2 := (h + j) / kCapacity) in *.
  assert (i - j = kCapacity * (q1 - q2)) by (rewrite Z.mul_sub_distr_l; lia).
  assert (q1 - q2 = 0) by nia. lia.
Qed.

Lemma tail_slot q l : repr q l -> slot (tail_ q) = slot (head_ q + Z.of_nat (length l)).
Proof. intros (_ & _ & -> & _). apply slot_u64. Qed.

Lemma slot_in_buffer q l z : repr q l -> (slot z < length (buffer_ q))%nat.
Proof. intros (Hl & _). pose proof (slot_lt z). lia. Qed.

(** The wrapped index difference is the number of items. *)
Lemma index_diff q l : repr q l -> u64 (tail_ q - head_ q) = Z.of_nat (length l).
Proof.
  intros (_ & Hh & Ht & Hl & _). pose proof capacity_bounds.
  rewrite Ht. unfold u64. rewrite Zminus_mod_idemp_l.
  replace (head_ q + Z.of_nat (length l) - head_ q) with (Z.of_nat (length l)) by lia.
  apply Z.mod_small. lia.
Qed.

Lemma push_refused_spec q l :
  repr q l ->
  push_refused (tail_ q) (head_ q) = bool_decide (Z.of_nat (length l) = kCapacity - 1).
Proof.
  intros (_ & Hh & Ht & Hl & _). pose proof capacity_bounds.
  unfold push_refused. rewrite Ht. unfold u64.
  rewrite Zplus_mod_idemp_l, Zminus_mod_idemp_l.
  replace (head_ q + Z.of_nat (length l) + 1 - head_ q) with (Z.of_nat (length l) + 1) by lia.
  rewrite Z.mod_small by lia.
  case_bool_decide; [apply Z.ltb_lt | apply Z.ltb_ge]; lia.
Qed.

Lemma empty_spec q l : repr q l -> empty q = bool_decide (l = []).
Proof.
  intros Hr. pose proof (index_diff q l Hr) as Hd.
  destruct Hr as (_ & Hh & Ht & Hl & _). pose proof capacity_bounds.
  unfold empty. case_bool_decide as Hnil.
  - subst l. rewrite Ht. simpl. rewrite Z.add_0_r, u64_id by lia. apply Z.eqb_refl.
  - apply Z.eqb_neq. intros Heq. rewrite <- Heq, Z.sub_diag in Hd.
    destruct l; [congruence|]. simpl in Hd. unfold u64 in Hd. rewrite Z.mod_0_l in Hd; lia.
Qed.

(** Writing the slot at the tail leaves the held items in place. *)
Lemma repr_write q l x :
  repr q l -> Z.of_nat (length l) < kCapacity - 1 ->
  repr (mkSpsc (head_ q) (tail_ q) (<[slot (tail_ q):=x]> (buffer_ q))) l /\
  <[slot (tail_ q):=x]> (buffer_ q) !! slot (tail_ q) = Some x.
Proof.
  intros Hr Hlt. pose proof (tail_slot q l Hr) as Hts.
  pose proof (slot_in_buffer q l (tail_ q) Hr) as Hin.
  destruct Hr as (Hlen & Hh & Ht & Hl & Hget). split.
  - split_repr; simpl; rewrite ?length_insert; auto.
    intros i y Hi. rewrite list_lookup_insert_ne; [auto|].
    pose proof (lookup_lt_Some _ _ _ Hi).
    rewrite Hts. intros Heq. apply slot_inj in Heq; lia.
  - apply list_lookup_insert_eq. assumption.
Qed.

(** Advancing the tail over a written slot appends its item. *)
Lemma repr_publish q l x :
  repr q l -> Z.of_nat (length l) < kCapacity - 1 ->
  buffer_ q !! slot (tail_ q) = Some x ->
  repr (mkSpsc (head_ q) (u64 (tail_ q + 1)) (buffer_ q)) (l ++ [x]).
Proof.
  intros Hr Hlt Hx. pose proof (tail_slot q l Hr) as Hts.
  destruct Hr as (Hlen & Hh & Ht & Hl & Hget).
  split_repr; simpl; rewrite ?length_app; simpl; auto; try lia.
  - rewrite Ht. unfold u64. rewrite Zplus_mod_idemp_l. f_equal. lia.
  - intros i y Hi. destruct (decide (i = length l)) as [->|Hne].
    + rewrite lookup_app_r, Nat.sub_diag in Hi by lia. simplify_eq/=. congruence.
    + pose proof (lookup_lt_Some _ _ _ Hi) as Hlt'. rewrite length_app in Hlt'. simpl in Hlt'.
      rewrite lookup_app_l in Hi by lia. auto.
Qed.

(** Advancing the head releases the oldest item. *)
Lemma repr_release q x l :
  repr q (x :: l) -> repr (mkSpsc (u64 (head_ q + 1)) (tail_ q) (buffer_ q)) l.
Proof.
  intros (Hlen & Hh & Ht & Hl & Hget). simpl in Ht, Hl.
  split_repr; simpl; auto; try apply u64_range; try lia.
  - rewrite Ht. unfold u64. rewrite Zplus_mod_idemp_l. f_equal. lia.
  - intros i y Hi. specialize (Hget (S i) y Hi).
    replace (head_ q + Z.of_nat (S i)) with (head_ q + 1 + Z.of_nat i) in Hget by lia.
    rewrite <- Hget. f_equal. rewrite !slot_mod. f_equal.
    rewrite <- (Zplus_mod_idemp_l (u64 _)), mod_u64, Zplus_mod_idemp_l. reflexivity.
Qed.

Lemma repr_head q x l : repr q (x :: l) -> buffer_ q !! slot (head_ q) = Some x.
Proof. intros (_ & _ & _ & _ & Hget). specialize (Hget 0%nat x eq_refl). rewrite Z.add_0_r in Hget. exact Hget. Qed.

Lemma repr_init d : repr (spsc_init d) [].
Proof.
  pose proof capacity_bounds. split_repr; simpl; try lia.
  - rewrite length_replicate. lia.
  - reflexivity.
  - intros i x Hi. rewrite lookup_nil in Hi. discriminate.
Qed.

Lemma push_repr q l x :
  repr q l ->
  if decide (Z.of_nat (length l) < kCapacity - 1)
  then exists q', push q x = Ret (true, q') /\ repr q' (l ++ [x])
  else push q x = Ret (false, q).
Proof.
  intros Hr. unfold push. rewrite (push_refused_spec q l Hr).
  pose proof (proj1 (proj2 (proj2 (proj2 Hr)))) as Hl.
  case_decide as Hd.
  - rewrite bool_decide_eq_false_2 by lia.
    rewrite vec_set_ret by (eapply slot_in_buffer; eauto). simpl.
    eexists. split; [reflexivity|].
    destruct (repr_write q l x Hr Hd) as [Hw Hx].
    apply (repr_publish _ _ x Hw Hd Hx).
  - rewrite bool_decide_eq_true_2 by lia. reflexivity.
Qed.

Lemma pop_repr q l :
  repr q l ->
  match l with
  | [] => pop q = Ret (None, q)
  | x :: l' => exists q', pop q = Ret (Some x, q') /\ repr q' l'
  end.
Proof.
  intros Hr. pose proof (empty_spec q l Hr) as He. unfold pop.
  unfold empty in He. rewrite He. destruct l as [|x l].
  - rewrite bool_decide_eq_true_2 by reflexivity. reflexivity.
  - rewrite bool_decide_eq_false_2 by discriminate.
    rewrite (vec_get_some _ _ x) by (eapply repr_head; eauto). simpl.
    eexists. split; [reflexivity|]. eapply repr_release; eauto.
Qed.
End Queue.

(* ------------------------------------------------------------------ *)
(** ** The concurrent protocol

    One producer runs [push] and one consumer runs [pop]. A step is one
    atomic access of [head_] / [tail_] or one plain access of [buffer_], in
    the order the two bodies perform them, interleaved arbitrarily. The
    interleaving is sequentially consistent; the header's release stores and
    acquire loads make that adequate because the plain accesses never race
    ([spsc_no_data_race]). *)

(** Where the producer is inside [emplaceImpl]. *)
Inductive producer (T : Type) :=
| PIdle                          (**r not in a call *)
| PCheck (item : T) (tail : Z)   (**r [tail_] loaded, [head_] not yet *)
| PWrite (item : T) (tail : Z)   (**r room found, slot not yet written *)
| PStore (item : T) (tail : Z).  (**r slot written, [tail_] not yet stored *)
Arguments PIdle {T}.
Arguments PCheck {T}.
Arguments PWrite {T}.
Arguments PStore {T}.

(** Where the consumer is inside [pop]. *)
Inductive consumer (T : Type) :=
| CIdle
| CCheck (head : Z)              (**r [head_] loaded, [tail_] not yet *)
| CRead (head : Z)               (**r non-empty, slot not yet read *)
| CStore (head : Z) (out : T).   (**r slot read, [head_] not yet stored *)
Arguments CIdle {T}.
Arguments CCheck {T}.
Arguments CRead {T}.
Arguments CStore {T}.

Record config (T : Type) := mkConfig {
  ring : spsc T;
  prod : producer T;
  cons_ : consumer T;
}.
Arguments mkConfig {T}.
Arguments ring {T}.
Arguments prod {T}.
Arguments cons_ {T}.

(** What a completed call reports to its caller. *)
Inductive event (T : Type) :=
| EvPushed (x : T)    (**r push returned true *)
| EvRefused (x : T)   (**r push returned false *)
| EvPopped (x : T)    (**r pop returned true *)
| EvEmpty.            (**r pop returned false *)
Arguments EvPushed {T}.
Arguments EvRefused {T}.
Arguments EvPopped {T}.
Arguments EvEmpty {T}.

Section Concurrent.
Context {T : Type} (kCapacity : Z).

Inductive step : config T -> option (event T) -> config T -> Prop :=
| p_load_tail q c x :
    step (mkConfig q PIdle c) None (mkConfig q (PCheck x (tail_ q)) c)
| p_load_head_full q c x t :
    push_refused kCapacity t (head_ q) = true ->
    step (mkConfig q (PCheck x t) c) (Some (EvRefused x)) (mkConfig q PIdle c)
| p_load_head_room q c x t :
    push_refused kCapacity t (head_ q) = false ->
    step (mkConfig q (PCheck x t) c) None (mkConfig q (PWrite x t) c)
| p_write_slot q c x t buf :
    vec_set (buffer_ q) (slot kCapacity t) x = Ret buf ->
    step (mkConfig q (PWrite x t) c) None
         (mkConfig (mkSpsc (head_ q) (tail_ q) buf) (PStore x t) c)
| p_store_tail q c x t :
    step (mkConfig q (PStore x t) c) (Some (EvPushed x))
         (mkConfig (mkSpsc (head_ q) (u64 (t + 1)) (buffer_ q)) PIdle c)
| c_load_head q p :
    step (mkConfig q p CIdle) None (mkConfig q p (CCheck (head_ q)))
| c_load_tail_empty q p h :
    (h =? tail_ q) = true ->
    step (mkConfig q p (CCheck h)) (Some EvEmpty) (mkConfig q p CIdle)
| c_load_tail_some q p h :
    (h =? tail_ q) = false ->
    step (mkConfig q p (CCheck h)) None (mkConfig q p (CRead h))
| c_read_slot q p h v :
    vec_get (buffer_ q) (slot kCapacity h) = Ret v ->
    step (mkConfig q p (CRead h)) None (mkConfig q p (CStore h v))
| c_store_head q p h v :
    step (mkConfig q p (CStore h v)) (Some (EvPopped v))
         (mkConfig (mkSpsc (u64 (h + 1)) (tail_ q) (buffer_ q)) p CIdle).

(** A run from a configuration, with the events of its completed calls. *)
Inductive run : config T -> list (event T) -> config T -> Prop :=
| run_nil c : run c [] c
| run_tau c1 c2 c3 tr : run c1 tr c2 -> step c2 None c3 -> run c1 tr c3
| run_event c1 c2 c3 tr e :
    run c1 tr c2 -> step c2 (Some e) c3 -> run c1 (tr ++ [e]) c3.

Definition config_init (dflt : T) : config T :=
  mkConfig (spsc_init kCapacity dflt) PIdle CIdle.

(** *** The specification: an atomic bounded FIFO *)
Inductive fifo_step : list T -> event T -> list T -> Prop :=
| fifo_push l x :
    Z.of_nat (length l) < kCapacity - 1 -> fifo_step l (EvPushed x) (l ++ [x])
| fifo_refuse l x :
    Z.of_nat (length l) = kCapacity - 1 -> fifo_step l (EvRefused x) l
| fifo_pop l x : fifo_step (x :: l) (EvPopped x) l
| fifo_empty : fifo_step [] EvEmpty [].

Inductive fifo_run : list T -> list (event T) -> list T -> Prop :=
| fifo_nil l : fifo_run l [] l
| fifo_snoc l1 l2 l3 tr e :
    fifo_run l1 tr l2 -> fifo_step l2 e l3 -> fifo_run l1 (tr ++ [e]) l3.

Definition pushed (tr : list (event T)) : list T :=
  omap (fun e => match e with EvPushed x => Some x | _ => None end) tr.
Definition popped (tr : list (event T)) : list T :=
  omap (fun e => match e with EvPopped x => Some x | _ => None end) tr.

Lemma fifo_order l tr l' : fifo_run l tr l' -> l ++ pushed tr = popped tr ++ l'.
Proof.
  induction 1 as [l|l1 l2 l3 tr e _ IH Hs].
  - simpl. rewrite app_nil_r. reflexivity.
  - unfold pushed, popped in *. rewrite !omap_app, app_assoc, IH.
    inversion Hs; subst; simpl; rewrite ?app_nil_r, <- ?app_assoc; reflexivity.
Qed.

(** *** The invariant *)

Definition prod_ok (q : spsc T) (l : list T) (p : producer T) : Prop :=
  match p with
  | PIdle => True
  | PCheck _ t => t = tail_ q
  | PWrite _ t => t = tail_ q /\ Z.of_nat (length l) < kCapacity - 1
  | PStore x t => t = tail_ q /\ Z.of_nat (length l) < kCapacity - 1 /\
                  buffer_ q !! slot kCapacity t = Some x
  end.

Definition cons_ok (q : spsc T) (l : list T) (c : consumer T) : Prop :=
  match c with
  | CIdle => True
  | CCheck h => h = head_ q
  | CRead h => h = head_ q /\ l <> []
  | CStore h v => h = head_ q /\ exists l', l = v :: l'
  end.

Definition inv (c : config T) (l : list T) : Prop :=
  repr kCapacity (ring c) l /\ prod_ok (ring c) l (prod c) /\ cons_ok (ring c) l (cons_ c).

Context (Hcap : capacity_ok kCapacity = true).

(** One step either leaves the abstract queue alone or performs exactly the
    abstract operation it reports. *)
Lemma step_simulates c e c' l :
  inv c l -> step c e c' ->
  exists l', inv c' l' /\
    match e with None => l' = l | Some ev => fifo_step l ev l' end.
Proof.
  intros (Hr & Hp & Hc) Hs.
  destruct Hs as [q c x|q c x t Hf|q c x t Hf|q c x t buf Hw|q c x t
                 |q p|q p h He|q p h He|q p h v Hv|q p h v];
    unfold inv in *; simpl in *.
  - exists l. auto.
  - subst t. rewrite (push_refused_spec _ Hcap q l Hr) in Hf. apply bool_decide_eq_true in Hf.
    exists l. split; [auto|]. constructor. assumption.
  - subst t. rewrite (push_refused_spec _ Hcap q l Hr) in Hf. apply bool_decide_eq_false in Hf.
    pose proof (proj1 (proj2 (proj2 (proj2 Hr)))).
    exists l. split_and!; auto. lia.
  - destruct Hp as [-> Hlt].
    rewrite vec_set_ret in Hw by (eapply slot_in_buffer; eauto). injection Hw as <-.
    destruct (repr_write _ Hcap q l x Hr Hlt) as [Hr' Hx].
    exists l. split_and!; auto.
  - destruct Hp as (-> & Hlt & Hx).
    exists (l ++ [x]). split; [|constructor; assumption]. split_and!; auto.
    + eapply repr_publish; eauto.
    + destruct c; simpl in *; auto.
      * destruct Hc as [-> Hne]. split; [reflexivity|]. destruct l; [congruence|discriminate].
      * destruct Hc as [-> [l' ->]]. split; [reflexivity|]. eexists. reflexivity.
  - exists l. auto.
  - subst h. assert (Hb : empty q = true) by exact He.
    rewrite (empty_spec _ Hcap q l Hr) in Hb. apply bool_decide_eq_true in Hb. subst l.
    exists []. split; [auto|]. constructor.
  - subst h. assert (Hb : empty q = false) by exact He.
    rewrite (empty_spec _ Hcap q l Hr) in Hb. apply bool_decide_eq_false in Hb.
    exists l. auto.
  - destruct Hc as [-> Hne]. destruct l as [|y l]; [congruence|].
    apply vec_get_ret in Hv. rewrite (repr_head _ q y l Hr) in Hv. injection Hv as <-.
    exists (y :: l). split_and!; eauto.
  - destruct Hc as [-> [l' ->]]. exists l'. split; [|constructor].
    split_and!; auto.
    + eapply repr_release; eauto.
    + destruct p; simpl in *; auto; intuition lia.
Qed.

Lemma inv_init d : inv (config_init d) [].
Proof. split_and!; simpl; auto. apply repr_init. assumption. Qed.

Lemma run_simulates d tr c :
  run (config_init d) tr c -> exists l, inv c l /\ fifo_run [] tr l.
Proof.
  intros Hrun. remember (config_init d) as c0 eqn:E0.
  induction Hrun as [c|c1 c2 c3 tr _ IH Hs|c1 c2 c3 tr e _ IH Hs]; subst.
  - exists []. split; [apply inv_init|constructor].
  - destruct (IH eq_refl) as (l & Hi & Hf).
    destruct (step_simulates _ _ _ _ Hi Hs) as (l' & Hi' & ->). eauto.
  - destruct (IH eq_refl) as (l & Hi & Hf).
    destruct (step_simulates _ _ _ _ Hi Hs) as (l' & Hi' & Hev).
    exists l'. split; [assumption|]. econstructor; eauto.
Qed.

End Concurrent.

(* ------------------------------------------------------------------ *)
(** ** Properties *)

(** The consumer of a run in progress never touches the slot the producer is
    about to write. *)
Definition data_race {T} (kCapacity : Z) (c : config T) : Prop :=
  match prod c, cons_ c with
  | PWrite _ t, CRead h => slot kCapacity t = slot kCapacity h
  | _, _ => False
  end.

(** C20: Linearizability of the lock-free queue. Under every interleaving of
    the producer's and the consumer's individual memory accesses, the calls
    complete with exactly the results an atomic FIFO of [kCapacity - 1]
    places would give: pushes are refused only when it is full, pops report
    empty only when it is empty, and every popped item is the oldest pushed
    one; items pushed are the items popped followed by the items held. *)
Theorem spsc_linearizable {T} (kCapacity : Z) (dflt : T) tr c :
  capacity_ok kCapacity = true ->
  run kCapacity (config_init kCapacity dflt) tr c ->
  exists l, fifo_run kCapacity [] tr l /\ repr kCapacity (ring c) l /\
            pushed tr = popped tr ++ l /\ Z.of_nat (length l) <= kCapacity - 1.
Proof.
  intros Hcap Hrun. destruct (run_simulates _ Hcap _ _ _ Hrun) as (l & (Hr & _) & Hf).
  exists l. split_and!; auto.
  - apply (fifo_order kCapacity [] tr l Hf).
  - apply (proj1 (proj2 (proj2 (proj2 Hr)))).
Qed.

(** C21: Data-race freedom of the slot array. In no reachable configuration
    is the producer about to write the slot the consumer is about to read. *)
Theorem spsc_no_data_race {T} (kCapacity : Z) (dflt : T) tr c :
  capacity_ok kCapacity = true ->
  run kCapacity (config_init kCapacity dflt) tr c ->
  ~ data_race kCapacity c.
Proof.
  intros Hcap Hrun. destruct (run_simulates _ Hcap _ _ _ Hrun) as (l & (Hr & Hp & Hc) & _).
  unfold data_race. destruct (prod c); auto. destruct (cons_ c); auto.
  simpl in Hp, Hc. destruct Hp as [-> Hlt]. destruct Hc as [-> Hne].
  rewrite (tail_slot _ Hcap _ _ Hr). rewrite <- (Z.add_0_r (head_ (ring c))) at 2.
  intros Heq. pose proof (capacity_bounds _ Hcap).
  apply slot_inj in Heq; auto; try lia.
  destruct l; simpl in Heq; [congruence|lia].
Qed.

(** Sequential refinement, over the wrap-around of the 64-bit indices.
    On a ring holding [l], [push] appends exactly when fewer than
    [kCapacity - 1] items are held and otherwise changes nothing, [pop]
    removes the oldest item or reports empty, and [size] / [empty] / [full]
    tell the truth about [l]. *)
Theorem spsc_refines_fifo {T} (kCapacity : Z) (q : spsc T) (l : list T) (x : T) :
  capacity_ok kCapacity = true ->
  repr kCapacity q l ->
  (if decide (Z.of_nat (length l) < kCapacity - 1)
   then exists q', push kCapacity q x = Ret (true, q') /\ repr kCapacity q' (l ++ [x])
   else push kCapacity q x = Ret (false, q)) /\
  match l with
  | [] => pop kCapacity q = Ret (None, q)
  | y :: l' => exists q', pop kCapacity q = Ret (Some y, q') /\ repr kCapacity q' l'
  end /\
  size q = Z.of_nat (length l) /\
  empty q = bool_decide (l = []) /\
  full kCapacity q = bool_decide (Z.of_nat (length l) = kCapacity - 1).
Proof.
  intros Hcap Hr. pose proof (index_diff _ Hcap q l Hr) as Hd.
  pose proof (proj1 (proj2 (proj2 (proj2 Hr)))) as Hl.
  split_and!.
  - apply push_repr; assumption.
  - apply pop_repr; assumption.
  - exact Hd.
  - apply (empty_spec kCapacity); assumption.
  - unfold full, size. rewrite Hd. case_bool_decide; [apply Z.leb_le|apply Z.leb_gt]; lia.
Qed.

(* ------------------------------------------------------------------ *)
(** ** Concrete runs *)

(** Four slots: the producer publishes 7 while the consumer is already inside
    its first [pop]; a third push finds room, and the consumer reads 7. *)
Definition demo_trace : list (event Z) := [EvEmpty; EvPushed 7; EvPopped 7].
Definition demo_race_free : config Z :=
  mkConfig (mkSpsc 0 1 [7; 0; 0; 0]) (PWrite 8 1) (CRead 0).

Lemma demo_run_race_free :
  run 4 (config_init 4 0) [EvEmpty; EvPushed 7] demo_race_free.
Proof.
  eapply run_tau; [|exact (p_load_head_room 4 (mkSpsc 0 1 [7; 0; 0; 0]) (CRead 0) 8 1 eq_refl)].
  eapply run_tau; [|apply (p_load_tail 4 (mkSpsc 0 1 [7; 0; 0; 0]))].
  eapply run_tau; [|apply (c_load_tail_some 4 (mkSpsc 0 1 [7; 0; 0; 0]) PIdle 0 eq_refl)].
  apply (run_event 4 _ (mkConfig (mkSpsc 0 0 [7; 0; 0; 0]) (PStore 7 0) (CCheck 0)) _ [EvEmpty]);
    [|apply (p_store_tail 4 (mkSpsc 0 0 [7; 0; 0; 0]))].
  eapply run_tau; [|apply (p_write_slot 4 (mkSpsc 0 0 [0; 0; 0; 0]) _ 7 0 _ eq_refl)].
  eapply run_tau; [|apply (c_load_head 4 (mkSpsc 0 0 [0; 0; 0; 0]))].
  eapply run_tau; [|apply (p_load_head_room 4 (mkSpsc 0 0 [0; 0; 0; 0]) CIdle 7 0 eq_refl)].
  apply (run_event 4 _ (mkConfig (mkSpsc 0 0 [0; 0; 0; 0]) (PCheck 7 0) (CCheck 0)) _ []);
    [|apply (c_load_tail_empty 4 (mkSpsc 0 0 [0; 0; 0; 0]) _ 0 eq_refl)].
  eapply run_tau; [|apply (c_load_head 4 (mkSpsc 0 0 [0; 0; 0; 0]))].
  eapply run_tau; [|apply (p_load_tail 4 (mkSpsc 0 0 [0; 0; 0; 0]))].
  apply run_nil.
Qed.

Lemma demo_run : run 4 (config_init 4 0) demo_trace (mkConfig (mkSpsc 1 1 [7; 0; 0; 0]) (PWrite 8 1) CIdle).
Proof.
  apply (run_event 4 _ (mkConfig (mkSpsc 0 1 [7; 0; 0; 0]) (PWrite 8 1) (CStore 0 7)) _ [EvEmpty; EvPushed 7]);
    [|apply (c_store_head 4 (mkSpsc 0 1 [7; 0; 0; 0]))].
  eapply run_tau; [|apply (c_read_slot 4 (mkSpsc 0 1 [7; 0; 0; 0]) _ 0 7 eq_refl)].
  apply demo_run_race_free.
Qed.

Lemma spsc_linearizable_witness :
  exists l, fifo_run 4 [] demo_trace l /\ repr 4 (mkSpsc 1 1 [7; 0; 0; 0]) l /\
            pushed demo_trace = popped demo_trace ++ l /\ Z.of_nat (length l) <= 4 - 1.
Proof. apply (spsc_linearizable 4 0 demo_trace _ eq_refl demo_run). Defined.

Lemma spsc_no_data_race_witness : ~ data_race 4 demo_race_free.
Proof. apply (spsc_no_data_race 4 0 _ _ eq_refl demo_run_race_free). Defined.

(** The ring at the end of the index range: [tail_] has wrapped past 2^64. *)
Definition wrapped_ring : spsc Z :=
  mkSpsc 18446744073709551615 1 [9; 0; 0; 8].

Lemma wrapped_ring_repr : repr 4 wrapped_ring [8; 9].
Proof.
  unfold repr, wrapped_ring; simpl.
  split; [|split; [|split; [|split]]]; try reflexivity; try lia.
  intros [|[|[|i]]] x Hi; simpl in Hi; try discriminate; injection Hi as <-; reflexivity.
Qed.

Lemma spsc_refines_fifo_witness :
  (if decide (Z.of_nat (length [8; 9]) < 4 - 1)
   then exists q', push 4 wrapped_ring 5 = Ret (true, q') /\ repr 4 q' ([8; 9] ++ [5])
   else push 4 wrapped_ring 5 = Ret (false, wrapped_ring)) /\
  (exists q', pop 4 wrapped_ring = Ret (Some 8, q') /\ repr 4 q' [9]) /\
  size wrapped_ring = Z.of_nat (length [8; 9]) /\
  empty wrapped_ring = bool_decide ([8; 9] = []) /\
  full 4 wrapped_ring = bool_decide (Z.of_nat (length [8; 9]) = 4 - 1).
Proof. apply (spsc_refines_fifo 4 wrapped_ring [8; 9] 5 eq_refl wrapped_ring_repr). Defined.
