(* ===== verification/FlashFrame.v ===== *)
(** * Flash-protocol frames and checksums
    (src/integration/FlashFrame.{h,cpp})

    The CRC-16/CCITT-FALSE and CRC-32/ISO-HDLC loops bit by bit, and the
    frame encoder. Properties: the CRC's range and its detection of every
    one-byte corruption, and the layout of an encoded frame. *)
From S2P Require Import Prelude Wire.

Record FlashFrame := mkFrame {
  type_ : Z;
  seq_ : Z;
  payload : list Z;
}.

#[export] Instance FlashFrame_eq_dec : EqDecision FlashFrame.
Proof. solve_decision. Defined.

Definition kFlashStartByte : Z := 165.          (* 0xA5 *)
Definition kFlashMaxPayloadBytes : Z := 260.
Definition kFlashHeaderBytes : nat := 6.
Definition kFlashTrailerBytes : nat := 2.

Definition kCrcPolynomial : Z := 4129.          (* 0x1021 *)
Definition kCrcInitial : Z := 65535.            (* 0xFFFF *)
Definition kCrcTopBit : Z := 32768.             (* 0x8000 *)
Definition kCrc16Mask : Z := 65535.
Definition kCrc32ReflectedPolynomial : Z := 3988292384.  (* 0xEDB88320 *)
Definition kCrc32Initial : Z := 4294967295.
Definition kCrc32FinalXor : Z := 4294967295.

(** One round of the inner loop of [crc16CcittFalse]. The C++ operand is a
    32-bit [unsigned]; a 16-bit value shifted left by one fits. *)
Definition crc16_bit (crc : Z) : Z :=
  let crc := if negb (Z.land crc kCrcTopBit =? 0)
             then Z.lxor (Z.shiftl crc 1) kCrcPolynomial
             else Z.shiftl crc 1 in
  Z.land crc kCrc16Mask.

(** One byte: xor into the top, then eight rounds. *)
Definition crc16_byte (crc b : Z) : Z :=
  Nat.iter 8 crc16_bit (Z.lxor crc (Z.shiftl b 8)).

Definition crc16CcittFalse (bytes : list Z) : Z :=
  u16 (fold_left crc16_byte bytes kCrcInitial).

Definition crc32_bit (crc : Z) : Z :=
  let lowBitSet := Z.land crc 1 in
  let crc := Z.shiftr crc 1 in
  if negb (lowBitSet =? 0) then Z.lxor crc kCrc32ReflectedPolynomial else crc.

Definition crc32_byte (crc b : Z) : Z := Nat.iter 8 crc32_bit (Z.lxor crc b).

Definition crc32IsoHdlc (bytes : list Z) : Z :=
  Z.lxor (fold_left crc32_byte bytes kCrc32Initial) kCrc32FinalXor.

(** [appendLittleEndian(out, value)]. *)
Definition appendLittleEndian (out : list Z) (value : Z) : list Z :=
  out ++ [u8 (Z.land value 255); u8 (Z.shiftr value 8)].

Definition encodeFlashFrame (frame : FlashFrame) : outcome (list Z) :=
  if kFlashMaxPayloadBytes <? Z.of_nat (length (payload frame)) then Throw length_error
  else
    let out := [kFlashStartByte; u8 (type_ frame)] in
    let out := appendLittleEndian out (seq_ frame) in
    let out := appendLittleEndian out (u16 (Z.of_nat (length (payload frame)))) in
    let out := out ++ payload frame in
    let crc := crc16CcittFalse (drop 1 out) in
    Ret (appendLittleEndian out crc).

(* ------------------------------------------------------------------ *)
(** ** Specification of the layout *)

Definition frame_ok (f : FlashFrame) : Prop :=
  is_u8 (type_ f) /\ is_u16 (seq_ f) /\ bytes_ok (payload f) /\
  Z.of_nat (length (payload f)) <= kFlashMaxPayloadBytes.

(** What the CRC covers: everything between the start byte and the CRC. *)
Definition frame_body (f : FlashFrame) : list Z :=
  [type_ f] ++ le16 (seq_ f) ++ le16 (Z.of_nat (length (payload f))) ++ payload f.

Definition frame_bytes (f : FlashFrame) : list Z :=
  [kFlashStartByte] ++ frame_body f ++ le16 (crc16CcittFalse (frame_body f)).

(* ------------------------------------------------------------------ *)
(** ** Lemmas *)

Lemma crc16_range bytes : is_u16 (crc16CcittFalse bytes).
Proof. apply u16_range. Qed.
#[export] Hint Resolve crc16_range : hmi.

Lemma append_le16 out v : is_u16 v -> appendLittleEndian out v = out ++ le16 v.
Proof.
  intros H. unfold appendLittleEndian, le16.
  rewrite land_255, shiftr_8, (u8_id (v mod 256)), (u8_id (v / 256)) by auto with hmi.
  reflexivity.
Qed.

Lemma encode_frame_bytes f : frame_ok f -> encodeFlashFrame f = Ret (frame_bytes f).
Proof.
  intros (Ht & Hs & Hp & Hl). unfold encodeFlashFrame.
  replace (kFlashMaxPayloadBytes <? _) with false by (symmetry; apply Z.ltb_ge; exact Hl).
  assert (Hlen : is_u16 (Z.of_nat (length (payload f))))
    by (unfold is_u16, kFlashMaxPayloadBytes in *; lia).
  rewrite (u8_id (type_ f)), (u16_id (Z.of_nat _)) by assumption.
  rewrite !append_le16 by auto with hmi.
  unfold frame_bytes, frame_body. simpl. reflexivity.
Qed.

Lemma frame_body_length f : length (frame_body f) = (5 + length (payload f))%nat.
Proof. reflexivity. Qed.

Lemma frame_bytes_length f :
  length (frame_bytes f) = (kFlashHeaderBytes + length (payload f) + kFlashTrailerBytes)%nat.
Proof.
  unfold frame_bytes. rewrite !length_app, frame_body_length.
  unfold kFlashHeaderBytes, kFlashTrailerBytes. simpl. lia.
Qed.

Lemma frame_body_ok f : frame_ok f -> bytes_ok (frame_body f).
Proof.
  intros (Ht & Hs & Hp & Hl). unfold frame_body. rewrite !bytes_ok_app.
  split_and!; auto with hmi.
  - repeat constructor; apply Ht.
  - apply le16_ok. unfold is_u16, kFlashMaxPayloadBytes in *. lia.
Qed.

Lemma frame_bytes_ok f : frame_ok f -> bytes_ok (frame_bytes f).
Proof.
  intros H. unfold frame_bytes. rewrite !bytes_ok_app.
  split_and!; auto using frame_body_ok with hmi.
  apply Forall_singleton. unfold is_u8, kFlashStartByte. lia.
Qed.

(* ------------------------------------------------------------------ *)
(** ** The CRC register step is a permutation of 16-bit values *)

Definition crc16_unbit (r : Z) : Z :=
  if Z.odd r then Z.lor (Z.shiftr (Z.lxor r kCrcPolynomial) 1) kCrcTopBit
  else Z.shiftr r 1.

(** [check_from n z p]: [p] holds at z .. z+n-1, by evaluation. *)
Fixpoint check_from (n : nat) (z : Z) (p : Z -> bool) : bool :=
  match n with O => true | S n => p z && check_from n (z + 1) p end.

Lemma check_from_spec n z0 p z :
  check_from n z0 p = true -> z0 <= z < z0 + Z.of_nat n -> p z = true.
Proof.
  revert z0. induction n as [|n IH]; intros z0 H Hz; [lia|].
  cbn [check_from] in H. apply andb_true_iff in H as [H1 H2].
  destruct (Z.eq_dec z z0) as [->|]; [assumption|]. apply (IH (z0 + 1)); [assumption|lia].
Qed.

Definition crc16_bit_ok (c : Z) : bool :=
  (crc16_unbit (crc16_bit c) =? c) && (0 <=? crc16_bit c) && (crc16_bit c <? 65536).

Lemma crc16_bit_check : check_from (Z.to_nat 65536) 0 crc16_bit_ok = true.
Proof. vm_compute. reflexivity. Qed.

Lemma crc16_bit_spec c :
  is_u16 c -> is_u16 (crc16_bit c) /\ crc16_unbit (crc16_bit c) = c.
Proof.
  intros Hc. pose proof (check_from_spec _ _ _ c crc16_bit_check) as H.
  rewrite Z2Nat.id in H by lia. specialize (H Hc). unfold crc16_bit_ok in H.
  apply andb_true_iff in H as [[H1 H2]%andb_true_iff H3].
  apply Z.eqb_eq in H1. apply Z.leb_le in H2. apply Z.ltb_lt in H3.
  split; [unfold is_u16; lia|assumption].
Qed.

Lemma crc16_rounds_inj n c d :
  is_u16 c -> is_u16 d ->
  is_u16 (Nat.iter n crc16_bit c) /\
  (Nat.iter n crc16_bit c = Nat.iter n crc16_bit d -> c = d).
Proof.
  intros Hc Hd.
  assert (Hr : forall x, is_u16 x -> forall m, is_u16 (Nat.iter m crc16_bit x)).
  { intros x Hx m. induction m; simpl; [assumption|]. apply crc16_bit_spec. assumption. }
  split; [apply Hr; assumption|].
  induction n as [|n IH]; simpl; [auto|]. intros Heq. apply IH.
  rewrite <- (proj2 (crc16_bit_spec _ (Hr c Hc n))), Heq.
  apply (crc16_bit_spec _ (Hr d Hd n)).
Qed.

(** Exclusive or of two non-negative values below 2^n stays below it. *)
Lemma lxor_bound a b n : 0 <= n -> 0 <= a < 2 ^ n -> 0 <= b < 2 ^ n -> 0 <= Z.lxor a b < 2 ^ n.
Proof.
  intros Hn Ha Hb. split; [apply Z.lxor_nonneg; lia|].
  destruct (Z.eq_dec (Z.lxor a b) 0) as [->|Hne]; [lia|].
  assert (Hpos : 0 < Z.lxor a b) by (pose proof (proj2 (Z.lxor_nonneg a b)); lia).
  apply Z.log2_lt_pow2; [assumption|].
  eapply Z.le_lt_trans; [apply Z.log2_lxor; lia|].
  destruct (Z.max_spec (Z.log2 a) (Z.log2 b)) as [[_ ->]|[_ ->]].
  - destruct (Z.eq_dec b 0) as [->|]; [|apply Z.log2_lt_pow2; lia].
    destruct (Z.eq_dec n 0); [subst; simpl in *; exfalso; apply Hne; replace a with 0 by lia; reflexivity|].
    simpl. lia.
  - destruct (Z.eq_dec a 0) as [->|]; [|apply Z.log2_lt_pow2; lia].
    destruct (Z.eq_dec n 0); [subst; simpl in *; exfalso; apply Hne; replace b with 0 by lia; reflexivity|].
    simpl. lia.
Qed.

Lemma crc16_input_range c b : is_u16 c -> is_u8 b -> is_u16 (Z.lxor c (Z.shiftl b 8)).
Proof.
  unfold is_u16, is_u8. intros. apply (lxor_bound _ _ 16); [lia|lia|].
  rewrite Z.shiftl_mul_pow2 by lia. lia.
Qed.

Lemma crc16_byte_range c b : is_u16 c -> is_u8 b -> is_u16 (crc16_byte c b).
Proof.
  intros. apply (crc16_rounds_inj 8 _ (Z.lxor c (Z.shiftl b 8))); apply crc16_input_range; assumption.
Qed.

Lemma crc16_fold_range c l : is_u16 c -> bytes_ok l -> is_u16 (fold_left crc16_byte l c).
Proof.
  revert c. induction l as [|b l IH]; intros c Hc Hl; [assumption|].
  inversion Hl; subst. apply IH; [apply crc16_byte_range|]; assumption.
Qed.

Lemma crc16_byte_inj c d b d' :
  is_u16 c -> is_u16 d -> is_u8 b -> is_u8 d' ->
  crc16_byte c b = crc16_byte d d' -> Z.lxor c (Z.shiftl b 8) = Z.lxor d (Z.shiftl d' 8).
Proof.
  intros Hc Hd Hb Hd' Heq.
  apply (crc16_rounds_inj 8); try apply crc16_input_range; assumption.
Qed.

Lemma lxor_cancel_r a b c : Z.lxor a c = Z.lxor b c -> a = b.
Proof.
  intros H. rewrite <- (Z.lxor_0_r a), <- (Z.lxor_0_r b), <- (Z.lxor_nilpotent c).
  rewrite <- !Z.lxor_assoc, H. reflexivity.
Qed.

Lemma lxor_cancel_l a b c : Z.lxor c a = Z.lxor c b -> a = b.
Proof. rewrite !(Z.lxor_comm c). apply lxor_cancel_r. Qed.

Lemma crc16_fold_inj l c d :
  is_u16 c -> is_u16 d -> bytes_ok l ->
  fold_left crc16_byte l c = fold_left crc16_byte l d -> c = d.
Proof.
  revert c d. induction l as [|b l IH]; intros c d Hc Hd Hl Heq; [assumption|].
  inversion Hl; subst.
  apply (lxor_cancel_r _ _ (Z.shiftl b 8)). apply crc16_byte_inj; auto.
  apply IH; auto using crc16_byte_range.
Qed.

(* ------------------------------------------------------------------ *)
(** ** The register step is linear over exclusive or *)

(** [lxor_bits]: an equation between exclusive ors, bit by bit. *)
Ltac lxor_bits :=
  apply Z.bits_inj'; intros ? _; rewrite ?Z.land_spec, ?Z.lxor_spec, ?Z.land_spec;
  repeat match goal with |- context [Z.testbit ?x ?i] => destruct (Z.testbit x i) end;
  reflexivity.

Lemma land_lxor a b m : Z.land (Z.lxor a b) m = Z.lxor (Z.land a m) (Z.land b m).
Proof. lxor_bits. Qed.

Lemma land_top_cases c : Z.land c kCrcTopBit = 0 \/ Z.land c kCrcTopBit = kCrcTopBit.
Proof.
  destruct (Z.testbit c 15) eqn:Hb; [right|left];
    apply Z.bits_inj'; intros i Hi; rewrite Z.land_spec;
    unfold kCrcTopBit; change 32768 with (2 ^ 15); rewrite Z.pow2_bits_eqb by lia;
    (destruct (Z.eqb_spec 15 i) as [<-|]; [rewrite Hb|rewrite andb_false_r]);
    rewrite ?Z.bits_0; reflexivity.
Qed.

Lemma crc16_bit_linear a b :
  crc16_bit (Z.lxor a b) = Z.lxor (crc16_bit a) (crc16_bit b).
Proof.
  unfold crc16_bit. rewrite <- land_lxor, land_lxor, Z.shiftl_lxor.
  destruct (land_top_cases a) as [->| ->], (land_top_cases b) as [->| ->]; simpl negb; cbn iota;
    f_equal; lxor_bits.
Qed.

Lemma crc16_rounds_linear n a b :
  Nat.iter n crc16_bit (Z.lxor a b) = Z.lxor (Nat.iter n crc16_bit a) (Nat.iter n crc16_bit b).
Proof. induction n as [|n IH]; simpl; [reflexivity|]. rewrite IH. apply crc16_bit_linear. Qed.

Lemma lxor_move p q r s : Z.lxor p r = Z.lxor q s -> Z.lxor p q = Z.lxor r s.
Proof.
  intros H. apply Z.bits_inj'. intros i _. apply (f_equal (fun z => Z.testbit z i)) in H.
  rewrite !Z.lxor_spec in *. revert H.
  destruct (Z.testbit p i), (Z.testbit q i), (Z.testbit r i), (Z.testbit s i); auto.
Qed.

(** A non-zero difference in one byte always reaches the low byte of the
    register after that byte's eight rounds. *)
Definition byte_spreads (d : Z) : bool :=
  (d =? 0) || negb (Z.land (Nat.iter 8 crc16_bit (Z.shiftl d 8)) 255 =? 0).

Lemma byte_spreads_check : check_from 256 0 byte_spreads = true.
Proof. vm_compute. reflexivity. Qed.

Lemma crc16_two_bytes_inj c b1 b2 d1 d2 :
  is_u16 c -> is_u8 b1 -> is_u8 b2 -> is_u8 d1 -> is_u8 d2 ->
  crc16_byte (crc16_byte c b1) b2 = crc16_byte (crc16_byte c d1) d2 -> b1 = d1 /\ b2 = d2.
Proof.
  intros Hc Hb1 Hb2 Hd1 Hd2 Heq.
  apply crc16_byte_inj in Heq; auto using crc16_byte_range.
  assert (Hfst : b1 = d1).
  { set (d := Z.lxor b1 d1).
    assert (Hd : 0 <= d < 0 + Z.of_nat 256)
      by (apply (lxor_bound b1 d1 8); unfold is_u8 in *; lia).
    pose proof (check_from_spec _ _ _ d byte_spreads_check Hd) as Hs.
    apply orb_true_iff in Hs as [Hs|Hs].
    - apply Z.eqb_eq in Hs. apply Z.lxor_eq. exact Hs.
    - exfalso. apply negb_true_iff, Z.eqb_neq in Hs. apply Hs.
      assert (Hx : Nat.iter 8 crc16_bit (Z.shiftl d 8) = Z.shiftl (Z.lxor b2 d2) 8).
      { replace (Z.shiftl d 8) with
          (Z.lxor (Z.lxor c (Z.shiftl b1 8)) (Z.lxor c (Z.shiftl d1 8))).
        - rewrite crc16_rounds_linear. fold (crc16_byte c b1). fold (crc16_byte c d1).
          rewrite Z.shiftl_lxor. apply lxor_move. exact Heq.
        - unfold d. rewrite Z.shiftl_lxor. lxor_bits. }
      rewrite Hx, land_255, Z.shiftl_mul_pow2 by lia. apply Z.mod_mul. lia. }
  subst d1. split; [reflexivity|].
  apply lxor_cancel_l in Heq. rewrite !Z.shiftl_mul_pow2 in Heq by lia. lia.
Qed.

(** Two messages that differ only in two adjacent bytes. *)
Lemma crc16_adjacent_bytes pre post b1 b2 d1 d2 :
  bytes_ok pre -> bytes_ok post -> is_u8 b1 -> is_u8 b2 -> is_u8 d1 -> is_u8 d2 ->
  crc16CcittFalse (pre ++ [b1; b2] ++ post) = crc16CcittFalse (pre ++ [d1; d2] ++ post) ->
  b1 = d1 /\ b2 = d2.
Proof.
  intros Hpre Hpost Hb1 Hb2 Hd1 Hd2. unfold crc16CcittFalse.
  assert (Hi : is_u16 kCrcInitial) by (unfold is_u16, kCrcInitial; lia).
  rewrite !fold_left_app. cbn [fold_left].
  pose proof (crc16_fold_range kCrcInitial pre Hi Hpre) as Hc.
  set (c := fold_left crc16_byte pre kCrcInitial) in *.
  rewrite !u16_id by (apply crc16_fold_range; auto using crc16_byte_range).
  intros Heq. apply crc16_fold_inj in Heq; auto using crc16_byte_range.
  apply (crc16_two_bytes_inj c); assumption.
Qed.

(* ------------------------------------------------------------------ *)
(** ** Properties *)

(** The published check values of both algorithms ("123456789"). *)
Definition check_input : list Z := [49; 50; 51; 52; 53; 54; 55; 56; 57].
Example crc16_check_value : crc16CcittFalse check_input = 10673.   (* 0x29B1 *)
Proof. vm_compute. reflexivity. Qed.
Example crc32_check_value : crc32IsoHdlc check_input = 3421780262. (* 0xCBF43926 *)
Proof. vm_compute. reflexivity. Qed.

(** The frame checksum detects every corruption confined to two adjacent
    bytes (every burst of up to 9 bits, and many of up to 16): if two
    messages agree except in two neighbouring bytes and have the same CRC,
    they are the same message. *)
Theorem crc16_detects_adjacent_corruption pre post b1 b2 d1 d2 :
  bytes_ok pre -> bytes_ok post -> is_u8 b1 -> is_u8 b2 -> is_u8 d1 -> is_u8 d2 ->
  (b1, b2) <> (d1, d2) ->
  crc16CcittFalse (pre ++ [b1; b2] ++ post) <> crc16CcittFalse (pre ++ [d1; d2] ++ post).
Proof.
  intros. intros Heq. apply crc16_adjacent_bytes in Heq as [-> ->]; auto.
Qed.

(** The frame encoder. A frame whose payload fits the protocol maximum
    is encoded as start byte, type, little-endian sequence and length,
    payload, and the little-endian CRC of everything after the start byte;
    a longer payload throws and emits nothing. *)
Theorem encode_flash_frame f :
  is_u8 (type_ f) -> is_u16 (seq_ f) -> bytes_ok (payload f) ->
  encodeFlashFrame f =
    if decide (Z.of_nat (length (payload f)) <= kFlashMaxPayloadBytes)
    then Ret (frame_bytes f) else Throw length_error.
Proof.
  intros. case_decide as Hd.
  - apply encode_frame_bytes. unfold frame_ok. auto.
  - unfold encodeFlashFrame.
    replace (kFlashMaxPayloadBytes <? _) with true by (symmetry; apply Z.ltb_lt; lia).
    reflexivity.
Qed.

Lemma crc16_detects_adjacent_corruption_witness :
  crc16CcittFalse ([49] ++ [50; 51] ++ [52]) <> crc16CcittFalse ([49] ++ [51; 50] ++ [52]).
Proof.
  apply (crc16_detects_adjacent_corruption [49] [52] 50 51 51 50);
    try bytes_lit; unfold is_u8; try lia; discriminate.
Defined.

Definition demo_frame : FlashFrame := mkFrame 3 258 [10; 20; 30].

Lemma demo_frame_ok : frame_ok demo_frame.
Proof.
  unfold frame_ok, demo_frame, is_u8, is_u16, kFlashMaxPayloadBytes; cbn [type_ seq_ payload].
  split_and!; try lia; [bytes_lit|simpl; lia].
Qed.

Lemma encode_flash_frame_witness :
  encodeFlashFrame demo_frame =
    if decide (Z.of_nat (length (payload demo_frame)) <= kFlashMaxPayloadBytes)
    then Ret (frame_bytes demo_frame) else Throw length_error.
Proof. apply (encode_flash_frame demo_frame); apply demo_frame_ok. Defined.
