(* ===== verification/FlashParser.v ===== *)
(** * Flash-protocol stream parser
    (src/integration/FlashFrameParser.{h,cpp})

    [consume] over an arbitrary chunk of bytes: the scan of one position, the
    loop with its fuel (one step per byte), and the carry-over buffer.
    Properties: memory safety and termination, independence of the chunking,
    the round trip with the encoder, soundness of every delivered frame, the
    buffer bound, and rejection of corrupted frames. *)
From S2P Require Import Prelude Wire FlashFrame.

Definition kTypeOffset : nat := 1.
Definition kSeqOffset : nat := 2.
Definition kLenOffset : nat := 4.

Record FlashStreamOutput := mkOut {
  frames : list FlashFrame;
  text : list Z;
}.

Record FlashFrameParser := mkParser {
  buffer_ : list Z;
  falseStarts_ : Z;
}.

Definition parser_init : FlashFrameParser := mkParser [] 0.

(** [readLittleEndian(buf, offset)]: unchecked subscripts. *)
Definition readLittleEndian (buf : list Z) (offset : nat) : outcome Z :=
  low ← vec_get buf offset;
  high ← vec_get buf (offset + 1);
  Ret (u16 (Z.lor low (Z.shiftl high 8))).

(** What the loop body decides about the byte at [pos]. *)
Inductive verdict :=
| VText (b : Z)                         (**r copied to the text, advance 1 *)
| VWait                                 (**r break: frame not complete yet *)
| VFalseStart                           (**r counted, advance 1 *)
| VFrame (f : FlashFrame) (total : nat). (**r delivered, advance total *)

Definition scan_one (work : list Z) (pos : nat) : outcome verdict :=
  b ← vec_get work pos;
  if negb (b =? kFlashStartByte) then Ret (VText b) else
  let available := (length work - pos)%nat in
  if decide (available < kFlashHeaderBytes)%nat then Ret VWait else
  len ← readLittleEndian work (pos + kLenOffset);
  if kFlashMaxPayloadBytes <? len then Ret VFalseStart else
  let len := Z.to_nat len in
  let total := (kFlashHeaderBytes + len + kFlashTrailerBytes)%nat in
  if decide (available < total)%nat then Ret VWait else
  let crcOffset := (pos + kFlashHeaderBytes + len)%nat in
  received ← readLittleEndian work crcOffset;
  let computed :=
    crc16CcittFalse (slice (pos + kTypeOffset) (crcOffset - pos - 1) work) in
  if negb (received =? computed) then Ret VFalseStart else
  type ← vec_get work (pos + kTypeOffset);
  seq ← readLittleEndian work (pos + kSeqOffset);
  Ret (VFrame (mkFrame type seq (slice (pos + kFlashHeaderBytes) len work)) total).

(** The [while (pos < work.size())] loop; [None] is fuel exhaustion. The
    result is the output, the final position and the false-start count. *)
Fixpoint scan_loop (fuel : nat) (work : list Z) (pos : nat)
    (out : FlashStreamOutput) (fs : Z) :
    outcome (option (FlashStreamOutput * nat * Z)) :=
  if decide (pos < length work)%nat then
    match fuel with
    | O => Ret None
    | S fuel =>
        v ← scan_one work pos;
        match v with
        | VText b => scan_loop fuel work (pos + 1) (mkOut (frames out) (text out ++ [b])) fs
        | VWait => Ret (Some (out, pos, fs))
        | VFalseStart => scan_loop fuel work (pos + 1) out (fs + 1)
        | VFrame f total =>
            scan_loop fuel work (pos + total) (mkOut (frames out ++ [f]) (text out)) fs
        end
    end
  else Ret (Some (out, pos, fs)).

(** [consume(bytes)]; the fuel is one step per byte of the work vector. *)
Definition consume (p : FlashFrameParser) (bytes : list Z) :
    outcome (option (FlashStreamOutput * FlashFrameParser)) :=
  let work := buffer_ p ++ bytes in
  r ← scan_loop (length work) work 0 (mkOut [] []) (falseStarts_ p);
  match r with
  | None => Ret None
  | Some (out, pos, fs) => Ret (Some (out, mkParser (drop pos work) fs))
  end.

(* ------------------------------------------------------------------ *)
(** ** The scan as a function of the remaining bytes *)

Definition out_app (a b : FlashStreamOutput) : FlashStreamOutput :=
  mkOut (frames a ++ frames b) (text a ++ text b).

(** The decision on the first of the remaining bytes. *)
Definition scan_head (rest : list Z) : verdict :=
  match rest with
  | [] => VWait
  | b :: _ =>
      if negb (b =? kFlashStartByte) then VText b else
      match rest with
      | _ :: ty :: s0 :: s1 :: l0 :: l1 :: body =>
          let len := of_be16 l1 l0 in
          if kFlashMaxPayloadBytes <? len then VFalseStart else
          let n := Z.to_nat len in
          if decide (length body < n + kFlashTrailerBytes)%nat then VWait else
          if negb (of_be16 (default 0 (body !! (n + 1)%nat)) (default 0 (body !! n)) =?
                   crc16CcittFalse ([ty; s0; s1; l0; l1] ++ take n body))
          then VFalseStart
          else VFrame (mkFrame ty (of_be16 s1 s0) (take n body))
                 (kFlashHeaderBytes + n + kFlashTrailerBytes)
      | _ => VWait
      end
  end.

Lemma readLittleEndian_ret buf off lo hi :
  buf !! off = Some lo -> buf !! (off + 1)%nat = Some hi -> is_u8 lo -> is_u8 hi ->
  readLittleEndian buf off = Ret (of_be16 hi lo).
Proof.
  intros H1 H2 Hlo Hhi. unfold readLittleEndian, vec_get. rewrite H1, H2. simpl.
  rewrite shift_or_16' by assumption. reflexivity.
Qed.

(** Inside the loop every subscript is in range, and the decision depends on
    the remaining bytes only. *)
Lemma scan_one_head work pos :
  bytes_ok work -> (pos < length work)%nat ->
  scan_one work pos = Ret (scan_head (drop pos work)).
Proof.
  intros Hok Hpos.
  assert (Hdrop : bytes_ok (drop pos work)) by (apply Forall_drop; exact Hok).
  assert (Hlen : length (drop pos work) = (length work - pos)%nat) by apply length_drop.
  assert (Hsl : forall i n, slice (pos + i) n work = take n (drop i (drop pos work)))
    by (intros; unfold slice; rewrite drop_drop; reflexivity).
  assert (Hv : forall i x, drop pos work !! i = Some x -> vec_get work (pos + i) = Ret x)
    by (intros i x Hx; apply vec_get_some; rewrite <- lookup_drop; exact Hx).
  assert (Hr : forall i lo hi, drop pos work !! i = Some lo ->
             drop pos work !! (i + 1)%nat = Some hi ->
             readLittleEndian work (pos + i) = Ret (of_be16 hi lo)).
  { intros i lo hi Hlo Hhi. apply readLittleEndian_ret.
    - rewrite <- lookup_drop. exact Hlo.
    - rewrite <- Nat.add_assoc, <- lookup_drop. exact Hhi.
    - eapply bytes_ok_lookup; [exact Hdrop|exact Hlo].
    - eapply bytes_ok_lookup; [exact Hdrop|exact Hhi]. }
  unfold scan_one. rewrite <- Hlen.
  remember (drop pos work) as rest eqn:Erest. clear Erest.
  destruct rest as [|b rest]; [simpl in Hlen; lia|].
  pose proof (Hv 0%nat b eq_refl) as Hb. rewrite Nat.add_0_r in Hb. rewrite Hb.
  cbn [mbind outcome_bind]. unfold scan_head.
  destruct (b =? kFlashStartByte); cbn [negb]; [|reflexivity].
  destruct (decide (length (b :: rest) < kFlashHeaderBytes)%nat) as [Hh|Hh];
    unfold kFlashHeaderBytes in Hh.
  { do 5 (destruct rest as [|? rest]; [reflexivity|]). exfalso. simpl in Hh. lia. }
  destruct rest as [|ty [|s0 [|s1 [|l0 [|l1 rest]]]]]; try (exfalso; simpl in Hh; lia).
  rewrite (Hr kLenOffset l0 l1) by reflexivity. cbn [mbind outcome_bind].
  destruct (kFlashMaxPayloadBytes <? of_be16 l1 l0); [reflexivity|].
  set (n := Z.to_nat (of_be16 l1 l0)).
  unfold kFlashTrailerBytes, kFlashHeaderBytes.
  destruct (decide (length rest < n + 2)%nat) as [Hw|Hw].
  { rewrite decide_True by (simpl; lia). reflexivity. }
  rewrite decide_False by (simpl; lia).
  destruct (lookup_lt_is_Some_2 rest n ltac:(lia)) as [c0 Hc0].
  destruct (lookup_lt_is_Some_2 rest (n + 1) ltac:(lia)) as [c1 Hc1].
  rewrite <- Nat.add_assoc. rewrite (Hr (6 + n)%nat c0 c1) by assumption.
  cbn [mbind outcome_bind]. rewrite Hc0, Hc1.
  change (default 0 (Some c0)) with c0. change (default 0 (Some c1)) with c1.
  unfold kTypeOffset, kSeqOffset. rewrite !Hsl.
  replace (pos + (6 + n) - pos - 1)%nat with (5 + n)%nat by lia.
  cbn [drop take app Nat.add]. destruct (of_be16 c1 c0 =? _); cbn [negb]; [|reflexivity].
  rewrite (Hv 1%nat ty), (Hr 2%nat s0 s1) by reflexivity. reflexivity.
Qed.

(* ------------------------------------------------------------------ *)
(** ** The loop as a relation on the remaining bytes *)

(** [parses rest o r n]: scanning [rest] emits [o], stops at the suffix [r]
    and counts [n] false starts. *)
Inductive parses : list Z -> FlashStreamOutput -> list Z -> Z -> Prop :=
| ps_wait rest :
    scan_head rest = VWait -> parses rest (mkOut [] []) rest 0
| ps_text rest b o r n :
    scan_head rest = VText b -> parses (drop 1 rest) o r n ->
    parses rest (mkOut (frames o) (b :: text o)) r n
| ps_false rest o r n :
    scan_head rest = VFalseStart -> parses (drop 1 rest) o r n ->
    parses rest o r (n + 1)
| ps_frame rest f total o r n :
    scan_head rest = VFrame f total -> parses (drop total rest) o r n ->
    parses rest (mkOut (f :: frames o) (text o)) r n.

(** What each decision says about the bytes it looked at. *)
Lemma scan_head_text rest b :
  scan_head rest = VText b -> b <> kFlashStartByte /\ rest = b :: drop 1 rest.
Proof.
  destruct rest as [|x rest]; [discriminate|]. simpl.
  destruct (Z.eqb_spec x kFlashStartByte); cbn [negb].
  - repeat case_match; discriminate.
  - intros [= <-]. auto.
Qed.

Lemma scan_head_false rest :
  scan_head rest = VFalseStart -> rest = kFlashStartByte :: drop 1 rest.
Proof.
  destruct rest as [|x rest]; [discriminate|]. simpl.
  destruct (Z.eqb_spec x kFlashStartByte) as [->|]; cbn [negb]; [|discriminate].
  reflexivity.
Qed.

Lemma take_snoc2 (l : list Z) n x y :
  l !! n = Some x -> l !! (n + 1)%nat = Some y -> take (n + 2) l = take n l ++ [x; y].
Proof.
  intros H1 H2. replace (n + 2)%nat with (S (S n)) by lia.
  rewrite (take_S_r l (S n) y), (take_S_r l n x), <- app_assoc; auto.
  replace (S n) with (n + 1)%nat by lia. assumption.
Qed.

Lemma le16_of_be16 hi lo : is_u8 hi -> is_u8 lo -> le16 (of_be16 hi lo) = [lo; hi].
Proof.
  intros. pose proof (be16_of_be16 hi lo ltac:(assumption) ltac:(assumption)) as Hb.
  unfold be16 in Hb. injection Hb as H1 H2. unfold le16. rewrite H1, H2. reflexivity.
Qed.

Lemma scan_head_frame rest f total :
  bytes_ok rest -> scan_head rest = VFrame f total ->
  frame_ok f /\ total = length (frame_bytes f) /\ rest = frame_bytes f ++ drop total rest.
Proof.
  intros Hok. unfold scan_head.
  destruct rest as [|x rest]; [discriminate|].
  destruct (Z.eqb_spec x kFlashStartByte) as [->|]; cbn [negb]; [|discriminate].
  destruct rest as [|ty [|s0 [|s1 [|l0 [|l1 body]]]]]; try discriminate.
  unfold bytes_ok in Hok. repeat (apply Forall_cons in Hok as [? Hok]).
  destruct (Z.ltb_spec kFlashMaxPayloadBytes (of_be16 l1 l0)) as [|Hmax]; [discriminate|].
  set (n := Z.to_nat (of_be16 l1 l0)).
  case_decide as Hw; [discriminate|]. unfold kFlashTrailerBytes in Hw.
  destruct (lookup_lt_is_Some_2 body n ltac:(lia)) as [c0 Hc0].
  destruct (lookup_lt_is_Some_2 body (n + 1) ltac:(lia)) as [c1 Hc1].
  rewrite Hc0, Hc1. change (default 0 (Some c0)) with c0. change (default 0 (Some c1)) with c1.
  destruct (Z.eqb_spec (of_be16 c1 c0) (crc16CcittFalse ([ty; s0; s1; l0; l1] ++ take n body)))
    as [Hcrc|]; cbn [negb]; [|discriminate].
  intros [= <- <-].
  assert (Hln : length (take n body) = n) by (rewrite length_take; lia).
  assert (Hlen : Z.of_nat n = of_be16 l1 l0)
    by (unfold n; rewrite Z2Nat.id; [reflexivity|unfold of_be16, is_u8 in *; lia]).
  assert (Hu0 : is_u8 c0) by (eapply bytes_ok_lookup; eauto).
  assert (Hu1 : is_u8 c1) by (eapply bytes_ok_lookup; eauto).
  assert (Hbody : frame_body (mkFrame ty (of_be16 s1 s0) (take n body))
                  = [ty; s0; s1; l0; l1] ++ take n body).
  { unfold frame_body. cbn [type_ seq_ payload]. rewrite Hln, Hlen, !le16_of_be16 by assumption.
    reflexivity. }
  split; [|split].
  - unfold frame_ok. cbn [type_ seq_ payload]. rewrite Hln, Hlen.
    split; [assumption|]. split; [apply of_be16_range; assumption|].
    split; [apply Forall_take; exact Hok|exact Hmax].
  - rewrite frame_bytes_length. cbn [payload]. rewrite Hln. reflexivity.
  - unfold frame_bytes. rewrite Hbody, <- Hcrc, le16_of_be16 by assumption.
    unfold kFlashHeaderBytes, kFlashTrailerBytes.
    replace (6 + n + 2)%nat with (6 + (n + 2))%nat by lia. cbn [drop Nat.add].
    rewrite <- (take_drop (n + 2) body) at 1.
    rewrite (take_snoc2 body n c0 c1) by assumption.
    rewrite <- !app_assoc. reflexivity.
Qed.

(** Every decision but "wait" is final: later bytes do not change it. *)
Lemma scan_head_app rest more :
  scan_head rest <> VWait -> scan_head (rest ++ more) = scan_head rest.
Proof.
  destruct rest as [|x rest]; [intros []; reflexivity|]. unfold scan_head. cbn [app].
  destruct (x =? kFlashStartByte); cbn [negb]; [|reflexivity].
  destruct rest as [|ty [|s0 [|s1 [|l0 [|l1 body]]]]]; try (intros []; reflexivity). cbn [app].
  destruct (_ <? _); [reflexivity|].
  set (n := Z.to_nat _).
  destruct (decide (length body < n + kFlashTrailerBytes)%nat) as [|Hw];
    [intros []; reflexivity|].
  intros _. unfold kFlashTrailerBytes in *.
  rewrite decide_False by (rewrite length_app; lia).
  rewrite !lookup_app_l, take_app_le by lia. reflexivity.
Qed.

Lemma frame_bytes_length_pos f : (8 <= length (frame_bytes f))%nat.
Proof. rewrite frame_bytes_length. unfold kFlashHeaderBytes, kFlashTrailerBytes. lia. Qed.

(** Scanning always ends. *)
Lemma parses_total rest : bytes_ok rest -> exists o r n, parses rest o r n.
Proof.
  remember (length rest) as len eqn:El. revert rest El.
  induction len as [len IH] using lt_wf_ind; intros rest El Hok.
  assert (Hrec : forall k, (0 < k <= length rest)%nat ->
                 exists o r n, parses (drop k rest) o r n).
  { intros k Hk. apply (IH (length (drop k rest))); auto.
    - rewrite length_drop. lia.
    - apply Forall_drop. exact Hok. }
  destruct (scan_head rest) as [b| | |f total] eqn:Hs.
  - destruct (scan_head_text _ _ Hs) as [_ Hr].
    destruct (Hrec 1%nat) as (o & r & n & Hp); [rewrite Hr; simpl; lia|].
    do 3 eexists. eapply ps_text; eauto.
  - do 3 eexists. apply ps_wait. exact Hs.
  - pose proof (scan_head_false _ Hs) as Hr.
    destruct (Hrec 1%nat) as (o & r & n & Hp); [rewrite Hr; simpl; lia|].
    do 3 eexists. eapply ps_false; eauto.
  - destruct (scan_head_frame _ _ _ Hok Hs) as (_ & Ht & Hr).
    pose proof (frame_bytes_length_pos f).
    destruct (Hrec total) as (o & r & n & Hp).
    { rewrite Hr, length_app. lia. }
    do 3 eexists. eapply ps_frame; eauto.
Qed.

(** The fuelled loop computes the relation. *)
Lemma scan_loop_parses rest o r n :
  parses rest o r n ->
  forall fuel work pos out fs,
    bytes_ok work -> drop pos work = rest -> (pos <= length work)%nat ->
    (length work - pos <= fuel)%nat ->
    exists pos', scan_loop fuel work pos out fs = Ret (Some (out_app out o, pos', fs + n)) /\
                 drop pos' work = r.
Proof.
  induction 1 as [rest Hs|rest b o r n Hs _ IH|rest o r n Hs _ IH|rest f total o r n Hs _ IH];
    intros fuel work pos out fs Hok Hdrop Hpos Hfuel;
    assert (Hlt : scan_head rest <> VWait -> (pos < length work)%nat)
      by (intros Hw; destruct (decide (pos < length work)%nat); [assumption|];
          exfalso; apply Hw; rewrite <- Hdrop, drop_ge by lia; reflexivity).
  { exists pos. split; [|assumption].
    replace (out_app out (mkOut [] [])) with out
      by (destruct out; unfold out_app; simpl; rewrite !app_nil_r; reflexivity).
    rewrite Z.add_0_r. destruct fuel as [|fuel]; cbn [scan_loop].
    - rewrite decide_False by lia. reflexivity.
    - case_decide; [|reflexivity]. rewrite scan_one_head, Hdrop, Hs by assumption. reflexivity. }
  all: specialize (Hlt ltac:(congruence)); destruct fuel as [|fuel]; [lia|]; cbn [scan_loop];
    rewrite decide_True by assumption; rewrite scan_one_head, Hdrop, Hs by assumption;
    cbn [mbind outcome_bind].
  - destruct (IH fuel work (pos + 1)%nat (mkOut (frames out) (text out ++ [b])) fs)
      as (pos' & Hl & Hd); try lia; auto.
    { rewrite <- Hdrop, drop_drop. reflexivity. }
    exists pos'. rewrite Hl. split; [|assumption]. unfold out_app. simpl.
    rewrite <- app_assoc. reflexivity.
  - destruct (IH fuel work (pos + 1)%nat out (fs + 1)) as (pos' & Hl & Hd); try lia; auto.
    { rewrite <- Hdrop, drop_drop. reflexivity. }
    exists pos'. rewrite Hl. split; [|assumption]. do 3 f_equal. lia.
  - assert (Hr : bytes_ok rest) by (rewrite <- Hdrop; apply Forall_drop; exact Hok).
    destruct (scan_head_frame _ _ _ Hr Hs) as (_ & Ht & Hsplit).
    pose proof (frame_bytes_length_pos f).
    assert (Hbound : (pos + total <= length work)%nat).
    { apply (f_equal length) in Hdrop. rewrite length_drop in Hdrop.
      rewrite Hsplit, length_app in Hdrop. lia. }
    destruct (IH fuel work (pos + total)%nat (mkOut (frames out ++ [f]) (text out)) fs)
      as (pos' & Hl & Hd); try lia; auto.
    { rewrite <- Hdrop, drop_drop. reflexivity. }
    exists pos'. rewrite Hl. split; [|assumption]. unfold out_app. simpl.
    rewrite <- app_assoc. reflexivity.
Qed.

Lemma consume_parses p bytes o r n :
  bytes_ok (buffer_ p ++ bytes) -> parses (buffer_ p ++ bytes) o r n ->
  consume p bytes = Ret (Some (o, mkParser r (falseStarts_ p + n))).
Proof.
  intros Hok Hp. unfold consume.
  destruct (scan_loop_parses _ _ _ _ Hp (length (buffer_ p ++ bytes)) (buffer_ p ++ bytes) 0
              (mkOut [] []) (falseStarts_ p) Hok eq_refl) as (pos & -> & Hd); try lia.
  cbn [mbind outcome_bind]. rewrite Hd. destruct o. reflexivity.
Qed.

(** Scanning more bytes later is scanning them at once. *)
Lemma parses_app rest o r n more o' r' n' :
  bytes_ok rest ->
  parses rest o r n -> parses (r ++ more) o' r' n' ->
  parses (rest ++ more) (out_app o o') r' (n + n').
Proof.
  intros Hok Hp. revert Hok.
  induction Hp as [rest Hs|rest b o r n Hs _ IH|rest o r n Hs _ IH|rest f total o r n Hs _ IH];
    intros Hok Hp'.
  - destruct o'. exact Hp'.
  - pose proof (scan_head_app rest more ltac:(congruence)) as Ha. rewrite Hs in Ha.
    destruct (scan_head_text _ _ Hs) as [_ Hr].
    apply (ps_text _ _ (out_app o o') r' (n + n') Ha).
    replace (drop 1 (rest ++ more)) with (drop 1 rest ++ more) by (rewrite Hr; reflexivity).
    apply IH; [apply Forall_drop; exact Hok|exact Hp'].
  - pose proof (scan_head_app rest more ltac:(congruence)) as Ha. rewrite Hs in Ha.
    pose proof (scan_head_false _ Hs) as Hr.
    replace (n + 1 + n') with (n + n' + 1) by lia.
    apply (ps_false _ (out_app o o') r' (n + n') Ha).
    replace (drop 1 (rest ++ more)) with (drop 1 rest ++ more) by (rewrite Hr; reflexivity).
    apply IH; [apply Forall_drop; exact Hok|exact Hp'].
  - pose proof (scan_head_app rest more ltac:(congruence)) as Ha. rewrite Hs in Ha.
    destruct (scan_head_frame _ _ _ Hok Hs) as (_ & Ht & Hr).
    apply (ps_frame _ _ total (out_app o o') r' (n + n') Ha).
    rewrite drop_app_le by (rewrite Ht, Hr, length_app; lia).
    apply IH; [apply Forall_drop; exact Hok|exact Hp'].
Qed.

(* ------------------------------------------------------------------ *)
(** ** Streams of chunks *)

(** Feeding a list of chunks, as the serial reader does. *)
Fixpoint consume_all (p : FlashFrameParser) (chunks : list (list Z)) :
    outcome (option (FlashStreamOutput * FlashFrameParser)) :=
  match chunks with
  | [] => Ret (Some (mkOut [] [], p))
  | c :: cs =>
      r ← consume p c;
      match r with
      | None => Ret None
      | Some (o, p1) =>
          r' ← consume_all p1 cs;
          match r' with
          | None => Ret None
          | Some (o', p2) => Ret (Some (out_app o o', p2))
          end
      end
  end.

(** A parser between two calls: its buffer starts a frame still incomplete. *)
Definition parser_ok (p : FlashFrameParser) : Prop :=
  bytes_ok (buffer_ p) /\ scan_head (buffer_ p) = VWait.

Lemma parses_rest_waits rest o r n : parses rest o r n -> scan_head r = VWait.
Proof. induction 1; assumption. Qed.

Lemma parses_rest_suffix rest o r n : parses rest o r n -> exists k, r = drop k rest.
Proof.
  induction 1 as [rest|rest b o r n _ _ [k ->]|rest o r n _ _ [k ->]|rest f t o r n _ _ [k ->]].
  - exists 0%nat. reflexivity.
  - eexists. rewrite drop_drop. reflexivity.
  - eexists. rewrite drop_drop. reflexivity.
  - eexists. rewrite drop_drop. reflexivity.
Qed.

Lemma parses_rest_ok rest o r n : bytes_ok rest -> parses rest o r n -> bytes_ok r.
Proof. intros Hok Hp. destruct (parses_rest_suffix _ _ _ _ Hp) as [k ->]. apply Forall_drop. exact Hok. Qed.

Lemma consume_all_parses chunks p o r n :
  parser_ok p -> Forall bytes_ok chunks ->
  parses (buffer_ p ++ concat chunks) o r n ->
  consume_all p chunks = Ret (Some (o, mkParser r (falseStarts_ p + n))).
Proof.
  revert p o r n. induction chunks as [|c cs IH]; intros p o r n [Hok Hw] Hcs Hp; simpl.
  - simpl in Hp. rewrite app_nil_r in Hp.
    pose proof (consume_parses p [] o r n) as Hc. rewrite app_nil_r in Hc.
    specialize (Hc Hok Hp).
    pose proof (consume_parses p [] (mkOut [] []) (buffer_ p) 0) as Hc0. rewrite app_nil_r in Hc0.
    specialize (Hc0 Hok (ps_wait _ Hw)). rewrite Hc in Hc0. injection Hc0 as -> -> Hn.
    destruct p; simpl in *. do 4 f_equal. lia.
  - apply Forall_cons in Hcs as [Hc Hcs].
    assert (Hok1 : bytes_ok (buffer_ p ++ c)) by (apply bytes_ok_app; auto).
    destruct (parses_total _ Hok1) as (o1 & r1 & n1 & Hp1).
    rewrite (consume_parses _ _ _ _ _ Hok1 Hp1). cbn [mbind outcome_bind].
    pose proof (parses_rest_ok _ _ _ _ Hok1 Hp1) as Hr1.
    assert (Hok2 : bytes_ok (r1 ++ concat cs)).
    { apply bytes_ok_app. split; [assumption|]. apply Forall_concat. assumption. }
    destruct (parses_total _ Hok2) as (o2 & r2 & n2 & Hp2).
    rewrite (IH (mkParser r1 (falseStarts_ p + n1)) o2 r2 n2); simpl; auto.
    2: { split; [assumption|]. eapply parses_rest_waits; eauto. }
    pose proof (parses_app _ _ _ _ _ _ _ _ Hok1 Hp1 Hp2) as Hp'.
    rewrite <- app_assoc in Hp'. simpl in Hp.
    assert (Hall : bytes_ok (buffer_ p ++ c ++ concat cs))
      by (rewrite !bytes_ok_app; split_and!; auto; apply Forall_concat; assumption).
    pose proof (consume_parses p (c ++ concat cs) _ _ _ Hall Hp) as E1.
    pose proof (consume_parses p (c ++ concat cs) _ _ _ Hall Hp') as E2.
    rewrite E1 in E2. injection E2 as -> -> Hn. do 4 f_equal. lia.
Qed.

Lemma parser_init_ok : parser_ok parser_init.
Proof. split; [apply Forall_nil; exact I|reflexivity]. Qed.

(** A well-formed stream: text bytes that are not the start byte, and
    encoded frames. *)
Inductive item := IText (b : Z) | IFrame (f : FlashFrame).

Definition item_ok (i : item) : Prop :=
  match i with
  | IText b => is_u8 b /\ b <> kFlashStartByte
  | IFrame f => frame_ok f
  end.
Definition item_bytes (i : item) : list Z :=
  match i with IText b => [b] | IFrame f => frame_bytes f end.
Definition items_out (l : list item) : FlashStreamOutput :=
  mkOut (omap (fun i => match i with IFrame f => Some f | _ => None end) l)
        (omap (fun i => match i with IText b => Some b | _ => None end) l).

Lemma item_bytes_ok i : item_ok i -> bytes_ok (item_bytes i).
Proof.
  destruct i as [b|f]; simpl.
  - intros [Hb _]. apply Forall_singleton. exact Hb.
  - apply frame_bytes_ok.
Qed.

(** The head of an encoded frame is recognised whatever follows it. *)
Lemma scan_head_frame_bytes f more :
  frame_ok f -> scan_head (frame_bytes f ++ more) = VFrame f (length (frame_bytes f)).
Proof.
  intros (Ht & Hs & Hp & Hl).
  rewrite frame_bytes_length. unfold frame_bytes.
  remember (le16 (crc16CcittFalse (frame_body f))) as trailer eqn:Etr.
  unfold frame_body. unfold le16 at 1 2. rewrite <- !app_assoc. cbn [app].
  unfold scan_head. rewrite Z.eqb_refl. cbn [negb].
  assert (Hlen : is_u16 (Z.of_nat (length (payload f))))
    by (unfold is_u16, kFlashMaxPayloadBytes in *; lia).
  rewrite !of_be16_be16, Nat2Z.id by assumption.
  replace (kFlashMaxPayloadBytes <? _) with false by (symmetry; apply Z.ltb_ge; exact Hl).
  set (crc := crc16CcittFalse (frame_body f)) in *.
  assert (Htr : trailer = [crc mod 256; crc / 256]) by exact Etr. rewrite Htr.
  rewrite decide_False by (rewrite length_app; simpl; unfold kFlashTrailerBytes; lia).
  rewrite (lookup_app_r (payload f)) by lia.
  replace (length (payload f) + 1 - length (payload f))%nat with 1%nat by lia.
  rewrite (lookup_app_r (payload f)), Nat.sub_diag by lia.
  change (default 0 (([crc mod 256; crc / 256] ++ more) !! 1%nat)) with (crc / 256).
  change (default 0 (([crc mod 256; crc / 256] ++ more) !! 0%nat)) with (crc mod 256).
  rewrite of_be16_be16, take_app_length by apply crc16_range.
  replace (crc16CcittFalse ([type_ f; seq_ f mod 256; seq_ f / 256;
     Z.of_nat (length (payload f)) mod 256; Z.of_nat (length (payload f)) / 256] ++ payload f))
    with crc by reflexivity.
  rewrite Z.eqb_refl. cbn [negb]. destruct f; reflexivity.
Qed.

Lemma parses_items l :
  Forall item_ok l -> parses (flat_map item_bytes l) (items_out l) [] 0.
Proof.
  induction 1 as [|[b|f] l Hi _ IH].
  - apply ps_wait. reflexivity.
  - destruct Hi as [_ Hb]. apply (ps_text (b :: flat_map item_bytes l) b (items_out l)).
    + simpl. destruct (Z.eqb_spec b kFlashStartByte); [contradiction|reflexivity].
    + exact IH.
  - apply (ps_frame (frame_bytes f ++ flat_map item_bytes l) f (length (frame_bytes f)) (items_out l)).
    + apply scan_head_frame_bytes. exact Hi.
    + rewrite drop_app_length. exact IH.
Qed.

(** What an arbitrary stream decomposes into. *)
Inductive segment := SText (b : Z) | SFalse | SFrame (f : FlashFrame).

Definition segment_bytes (s : segment) : list Z :=
  match s with SText b => [b] | SFalse => [kFlashStartByte] | SFrame f => frame_bytes f end.
Definition segment_ok (s : segment) : Prop :=
  match s with
  | SText b => b <> kFlashStartByte
  | SFalse => True
  | SFrame f => frame_ok f
  end.
Definition segments_out (l : list segment) : FlashStreamOutput :=
  mkOut (omap (fun s => match s with SFrame f => Some f | _ => None end) l)
        (omap (fun s => match s with SText b => Some b | _ => None end) l).
Definition false_count (l : list segment) : Z :=
  Z.of_nat (length (omap (fun s => match s with SFalse => Some tt | _ => None end) l)).

Lemma parses_segments rest o r n :
  bytes_ok rest -> parses rest o r n ->
  exists l, Forall segment_ok l /\ rest = flat_map segment_bytes l ++ r /\
            o = segments_out l /\ n = false_count l.
Proof.
  intros Hok Hp. revert Hok.
  induction Hp as [rest Hs|rest b o r n Hs _ IH|rest o r n Hs _ IH|rest f total o r n Hs _ IH];
    intros Hok.
  - exists []. auto.
  - destruct (scan_head_text _ _ Hs) as [Hb Hr].
    destruct IH as (l & Hl & Hd & -> & ->); [apply Forall_drop; exact Hok|].
    exists (SText b :: l). split_and!; auto. rewrite Hr, Hd. reflexivity.
  - pose proof (scan_head_false _ Hs) as Hr.
    destruct IH as (l & Hl & Hd & -> & ->); [apply Forall_drop; exact Hok|].
    exists (SFalse :: l). split; [constructor; [exact I|assumption]|].
    split; [rewrite Hr, Hd; reflexivity|]. split; [reflexivity|].
    unfold false_count. cbn [omap list_omap length]. rewrite Nat2Z.inj_succ. reflexivity.
  - destruct (scan_head_frame _ _ _ Hok Hs) as (Hf & Ht & Hr).
    destruct IH as (l & Hl & Hd & -> & ->); [apply Forall_drop; exact Hok|].
    exists (SFrame f :: l). split; [constructor; assumption|].
    split; [rewrite Hr at 1; rewrite Hd, app_assoc; reflexivity|]. split; reflexivity.
Qed.

Lemma wait_bound rest : bytes_ok rest -> scan_head rest = VWait -> (length rest <= 267)%nat.
Proof.
  intros Hok. unfold scan_head. destruct rest as [|x rest]; [simpl; lia|].
  destruct (negb _); [discriminate|].
  destruct rest as [|ty [|s0 [|s1 [|l0 [|l1 body]]]]]; try (simpl; lia).
  destruct (Z.ltb_spec kFlashMaxPayloadBytes (of_be16 l1 l0)) as [|Hm]; [discriminate|].
  case_decide as Hd; [|repeat case_match; discriminate].
  intros _. unfold kFlashTrailerBytes, kFlashMaxPayloadBytes in *. simpl. lia.
Qed.

(* ------------------------------------------------------------------ *)
(** ** Properties *)

(** [consume] is total and memory safe. For every parser whose buffer
    holds bytes and every chunk, the scan returns (its fuel, one step per
    byte, never runs out) and no subscript is out of range; what it keeps is
    again a parser waiting for the rest of a frame, of at most 267 bytes. *)
Theorem consume_total p chunk :
  bytes_ok (buffer_ p ++ chunk) ->
  exists o p', consume p chunk = Ret (Some (o, p')) /\ parser_ok p' /\
               (length (buffer_ p') <= 267)%nat.
Proof.
  intros Hok. destruct (parses_total _ Hok) as (o & r & n & Hp).
  exists o, (mkParser r (falseStarts_ p + n)).
  pose proof (parses_rest_ok _ _ _ _ Hok Hp) as Hr.
  pose proof (parses_rest_waits _ _ _ _ Hp) as Hw.
  split; [apply consume_parses; assumption|]. split; [split; assumption|].
  apply wait_bound; assumption.
Qed.

(** Chunking does not matter. Splitting a byte stream into any chunks
    and feeding them one by one gives the frames, the text, the remaining
    buffer and the false-start count of feeding it whole. *)
Theorem consume_chunking p chunks :
  parser_ok p -> Forall bytes_ok chunks ->
  consume_all p chunks = consume p (concat chunks).
Proof.
  intros Hp Hcs.
  assert (Hok : bytes_ok (buffer_ p ++ concat chunks))
    by (apply bytes_ok_app; split; [apply Hp|apply Forall_concat; assumption]).
  destruct (parses_total _ Hok) as (o & r & n & Hpar).
  rewrite (consume_all_parses chunks p o r n Hp Hcs Hpar).
  symmetry. apply consume_parses; assumption.
Qed.

(** Round trip with the encoder. Any interleaving of encoded frames and
    log-text bytes, cut into chunks anywhere, is delivered as exactly those
    frames and that text, in order, with nothing buffered and no false
    start. *)
Theorem flash_stream_roundtrip items chunks :
  Forall item_ok items ->
  concat chunks = flat_map item_bytes items ->
  consume_all parser_init chunks = Ret (Some (items_out items, parser_init)).
Proof.
  intros Hi Heq.
  assert (Hok : Forall bytes_ok chunks).
  { apply Forall_concat. rewrite Heq. apply Forall_flat_map.
    eapply Forall_impl; [exact Hi|]. apply item_bytes_ok. }
  rewrite (consume_all_parses chunks parser_init (items_out items) [] 0);
    [reflexivity|apply parser_init_ok|assumption|].
  cbn [buffer_ parser_init app]. rewrite Heq. apply parses_items. assumption.
Qed.

(** Soundness on arbitrary input. Whatever the bytes, they are the
    delivered text and the encodings of the delivered frames in order, plus
    one dropped start byte per counted false start, plus the kept suffix: the
    parser invents, duplicates and reorders nothing, and every delivered
    frame arrived with a correct checksum and length. *)
Theorem consume_sound p chunk o p' :
  bytes_ok (buffer_ p ++ chunk) ->
  consume p chunk = Ret (Some (o, p')) ->
  exists l, Forall segment_ok l /\
    buffer_ p ++ chunk = flat_map segment_bytes l ++ buffer_ p' /\
    o = segments_out l /\ falseStarts_ p' = falseStarts_ p + false_count l.
Proof.
  intros Hok Hc. destruct (parses_total _ Hok) as (o1 & r & n & Hp).
  rewrite (consume_parses _ _ _ _ _ Hok Hp) in Hc. injection Hc as <- <-.
  destruct (parses_segments _ _ _ _ Hok Hp) as (l & Hl & Hd & -> & ->).
  exists l. auto.
Qed.

(** A corrupted frame is not delivered. If the type, sequence number or
    payload of a transmitted frame is altered in one or two adjacent bytes,
    the parser counts a false start at its start byte instead of delivering
    it. *)
Theorem corrupted_frame_rejected f g pre post b1 b2 d1 d2 more :
  frame_ok f -> frame_ok g -> length (payload f) = length (payload g) ->
  frame_body f = pre ++ [b1; b2] ++ post ->
  frame_body g = pre ++ [d1; d2] ++ post ->
  (b1, b2) <> (d1, d2) ->
  scan_head ([kFlashStartByte] ++ frame_body g ++
             le16 (crc16CcittFalse (frame_body f)) ++ more) = VFalseStart.
Proof.
  intros Hf Hg Hlen Ef Eg Hne.
  assert (Hcrc : crc16CcittFalse (frame_body f) <> crc16CcittFalse (frame_body g)).
  { pose proof (frame_body_ok f Hf) as Hbf. pose proof (frame_body_ok g Hg) as Hbg.
    rewrite Ef in *. rewrite Eg in *. intros Heq. rewrite !bytes_ok_app in Hbf, Hbg.
    destruct Hbf as (Hpre & Hb & Hpost). destruct Hbg as (_ & Hd & _).
    unfold bytes_ok in Hb, Hd. bytes_split Hb. bytes_split Hd.
    apply crc16_adjacent_bytes in Heq as [-> ->]; auto. }
  destruct Hg as (Ht & Hs & Hp & Hl).
  assert (Hn : is_u16 (Z.of_nat (length (payload g))))
    by (unfold is_u16, kFlashMaxPayloadBytes in *; lia).
  set (c := crc16CcittFalse (frame_body f)) in *.
  assert (Hc : is_u16 c) by apply crc16_range.
  remember (le16 c) as trailer eqn:Etr.
  unfold frame_body. unfold le16 at 1 2. rewrite <- !app_assoc. cbn [app].
  unfold scan_head. rewrite Z.eqb_refl. cbn [negb].
  rewrite !of_be16_be16, Nat2Z.id by assumption.
  replace (kFlashMaxPayloadBytes <? _) with false by (symmetry; apply Z.ltb_ge; exact Hl).
  subst trailer. unfold le16.
  rewrite decide_False by (rewrite length_app; simpl; unfold kFlashTrailerBytes; lia).
  rewrite (lookup_app_r (payload g)) by lia.
  replace (length (payload g) + 1 - length (payload g))%nat with 1%nat by lia.
  rewrite (lookup_app_r (payload g)), Nat.sub_diag by lia.
  change (default 0 (([c mod 256; c / 256] ++ more) !! 1%nat)) with (c / 256).
  change (default 0 (([c mod 256; c / 256] ++ more) !! 0%nat)) with (c mod 256).
  rewrite of_be16_be16, take_app_length by assumption.
  replace (crc16CcittFalse ([type_ g; seq_ g mod 256; seq_ g / 256;
     Z.of_nat (length (payload g)) mod 256; Z.of_nat (length (payload g)) / 256] ++ payload g))
    with (crc16CcittFalse (frame_body g)) by reflexivity.
  destruct (Z.eqb_spec c (crc16CcittFalse (frame_body g))); [contradiction|reflexivity].
Qed.

(* ------------------------------------------------------------------ *)
(** ** Concrete streams *)

(** A log byte, a frame (type 3, sequence 258, payload 10 20 30), a log byte;
    cut in the middle of the frame. *)
Definition demo_items : list item := [IText 72; IFrame demo_frame; IText 10].
Definition demo_chunks : list (list Z) :=
  [[72; 165; 3; 2; 1]; [3; 0; 10; 20; 30] ++ le16 (crc16CcittFalse (frame_body demo_frame)) ++ [10]].

Lemma demo_chunks_ok : Forall bytes_ok demo_chunks.
Proof.
  apply Forall_cons; split; [bytes_lit|]. apply Forall_singleton.
  rewrite !bytes_ok_app. split_and!; [bytes_lit|apply le16_ok, crc16_range|bytes_lit].
Qed.

Lemma demo_items_ok : Forall item_ok demo_items.
Proof.
  apply Forall_cons; split; [split; [unfold is_u8; lia|discriminate]|].
  apply Forall_cons; split; [apply demo_frame_ok|].
  apply Forall_singleton. split; [unfold is_u8; lia|discriminate].
Qed.

Lemma consume_total_witness :
  exists o p', consume parser_init [72; 165; 3; 2; 1] = Ret (Some (o, p')) /\ parser_ok p' /\
               (length (buffer_ p') <= 267)%nat.
Proof. apply (consume_total parser_init [72; 165; 3; 2; 1]). bytes_lit. Defined.

Lemma consume_chunking_witness :
  consume_all parser_init demo_chunks = consume parser_init (concat demo_chunks).
Proof. apply (consume_chunking parser_init demo_chunks parser_init_ok demo_chunks_ok). Defined.

Lemma flash_stream_roundtrip_witness :
  consume_all parser_init demo_chunks = Ret (Some (mkOut [demo_frame] [72; 10], parser_init)).
Proof. apply (flash_stream_roundtrip demo_items demo_chunks demo_items_ok). vm_compute. reflexivity. Defined.

(** A stray start byte with an impossible length, a frame with a wrong checksum, then a good frame. *)
Definition noisy : list Z :=
  [165; 9; 9; 9; 9; 9] ++ removelast (frame_bytes demo_frame) ++ [0] ++ frame_bytes demo_frame.

Lemma noisy_ok : bytes_ok (buffer_ parser_init ++ noisy).
Proof. change (bytes_ok noisy). vm_compute. repeat (constructor; [split; [discriminate|reflexivity]|]). constructor. Qed.

Lemma consume_sound_witness :
  exists l, Forall segment_ok l /\
    noisy = flat_map segment_bytes l ++ [] /\
    mkOut [demo_frame] [9; 9; 9; 9; 9; 3; 2; 1; 3; 0; 10; 20; 30; 83; 0] = segments_out l /\
    2 = 0 + false_count l.
Proof.
  apply (consume_sound parser_init noisy _ (mkParser [] 2) noisy_ok). vm_compute. reflexivity.
Defined.

Lemma corrupted_frame_rejected_witness :
  scan_head ([kFlashStartByte] ++ frame_body (mkFrame 3 258 [10; 21; 31]) ++
             le16 (crc16CcittFalse (frame_body demo_frame)) ++ [72]) = VFalseStart.
Proof.
  apply (corrupted_frame_rejected demo_frame (mkFrame 3 258 [10; 21; 31])
           [3; 2; 1; 3; 0; 10] [] 20 30 21 31 [72]); try reflexivity; try discriminate.
  - apply demo_frame_ok.
  - unfold frame_ok, is_u8, is_u16, kFlashMaxPayloadBytes; cbn [type_ seq_ payload].
    split_and!; try lia; [bytes_lit|simpl; lia].
Defined.
