(* ===== verification/Sql.v ===== *)
(** * SQLite connections, as the stores use them

    The statements of SQLite's C interface that the stores
    (src/historian/SqliteHistoryStore.cpp, src/model/DatabaseManager.h) issue,
    over any tables [D] and any schema state [Sch]. SQLite itself is a
    parameter: a list says how the coming statements end. *)
From S2P Require Import Prelude.

(** How a statement ends: it succeeds, fails, fails and rolls the
    transaction back, or is a SELECT that fails after some rows. *)
Inductive sql_result := SqlOk | SqlError | SqlRolledBack | SqlCut (n : nat).
#[export] Instance sql_result_eq_dec : EqDecision sql_result.
Proof. solve_decision. Defined.

(** [db_disk] is what is committed, [db_view] what the connection sees;
    [db_schema] says what the schema has, outside transactions;
    [db_results] says how the coming statements end (well, when it is used
    up). *)
Record Database (Sch D : Type) := mkStore {
  db_open : bool;
  db_schema : Sch;
  db_disk : D;
  db_view : D;
  db_in_tx : bool;
  db_results : list sql_result;
}.
Arguments mkStore {Sch D} _ _ _ _ _ _.
Arguments db_open {Sch D} _.
Arguments db_schema {Sch D} _.
Arguments db_disk {Sch D} _.
Arguments db_view {Sch D} _.
Arguments db_in_tx {Sch D} _.
Arguments db_results {Sch D} _.

Section Statements.
Context {Sch D : Type}.
Implicit Types s : Database Sch D.

Definition statement s : sql_result * Database Sch D :=
  (hd SqlOk (db_results s), mkStore (db_open s) (db_schema s) (db_disk s) (db_view s) (db_in_tx s) (tl (db_results s))).
Definition st_set_view v s := mkStore (db_open s) (db_schema s) (db_disk s) v (db_in_tx s) (db_results s).
Definition st_begin s := mkStore (db_open s) (db_schema s) (db_disk s) (db_view s) true (db_results s).
Definition st_commit s := mkStore (db_open s) (db_schema s) (db_view s) (db_view s) false (db_results s).
Definition st_rollback s := mkStore (db_open s) (db_schema s) (db_disk s) (db_disk s) false (db_results s).
Definition st_schema (sch : Sch) s : Database Sch D := mkStore (db_open s) sch (db_disk s) (db_view s) (db_in_tx s) (db_results s).

(** BEGIN: an error inside a transaction. *)
Definition sql_begin s : bool * Database Sch D :=
  let '(r, s) := statement s in
  if negb (db_in_tx s) && bool_decide (r = SqlOk) then (true, st_begin s) else (false, s).

(** COMMIT: one that fails leaves the transaction open. *)
Definition sql_commit s : Database Sch D :=
  let '(r, s) := statement s in
  if db_in_tx s then
    match r with SqlOk => st_commit s | SqlRolledBack => st_rollback s | _ => s end
  else s.

(** Preparing a statement fails where the schema does not have what it
    names. *)
Definition sql_prepare (has : Sch -> bool) s : bool * Database Sch D :=
  let '(r, s) := statement s in (has (db_schema s) && bool_decide (r = SqlOk), s).

(** A statement that changes the tables; outside a transaction it commits
    itself. *)
Definition sql_change (f : D -> D) s : bool * Database Sch D :=
  let '(r, s) := statement s in
  match r with
  | SqlOk => let s := st_set_view (f (db_view s)) s in (true, if db_in_tx s then s else st_commit s)
  | SqlRolledBack => (false, st_rollback s)
  | _ => (false, s)
  end.

(** One that a constraint may refuse ([None]): the statement alone fails. *)
Definition sql_attempt (f : D -> option D) s : bool * Database Sch D :=
  match f (db_view s) with
  | Some d => sql_change (fun _ => d) s
  | None => let '(_, s) := statement s in (false, s)
  end.

(** The rows a SELECT yields. *)
Definition sql_select {A} (rows : D -> list A) s : list A * Database Sch D :=
  let '(r, s) := statement s in
  (match r with SqlOk => rows (db_view s) | SqlCut n => take n (rows (db_view s)) | _ => [] end, s).

(* ------------------------------------------------------------------ *)
(** ** Lemmas *)

(** What each statement does to the file and the connection. *)
Lemma begin_spec s : let '(ok, s') := sql_begin s in db_disk s' = db_disk s /\ db_view s' = db_view s /\
  (if ok then db_in_tx s = false /\ db_in_tx s' = true else db_in_tx s' = db_in_tx s).
Proof.
  unfold sql_begin, statement. cbn [db_in_tx]. destruct (db_in_tx s) eqn:E; cbn [negb andb]; [cbn; auto|]. case_bool_decide; cbn; auto.
Qed.
Lemma prepare_spec has s : let '(ok, s') := sql_prepare has s in db_disk s' = db_disk s /\ db_view s' = db_view s /\ db_in_tx s' = db_in_tx s.
Proof. cbn. auto. Qed.
Lemma change_spec f s : db_in_tx s = true -> let '(ok, s') := sql_change f s in db_disk s' = db_disk s /\
  if ok then db_view s' = f (db_view s) /\ db_in_tx s' = true
  else db_view s' = db_view s /\ db_in_tx s' = true \/ db_view s' = db_disk s /\ db_in_tx s' = false.
Proof. intros Hx. unfold sql_change, statement. destruct (hd SqlOk (db_results s)); cbn; rewrite ?Hx; cbn; auto. Qed.
Lemma commit_spec s : (db_disk (sql_commit s) = db_disk s \/ db_in_tx s = true /\ db_disk (sql_commit s) = db_view s) /\
  (db_view (sql_commit s) = db_view s \/ db_view (sql_commit s) = db_disk s).
Proof. unfold sql_commit, statement. cbn [db_in_tx]. destruct (db_in_tx s), (hd SqlOk (db_results s)); cbn; auto. Qed.

End Statements.

(** The bindings' [static_cast<int>]. *)
Definition i32 (z : Z) : Z := if u32 z <? 2147483648 then u32 z else u32 z - 4294967296.

Lemma i32_inj a b : is_u32 a -> is_u32 b -> i32 a = i32 b -> a = b.
Proof. intros Ha Hb. unfold i32. usmall. destruct (Z.ltb_spec a 2147483648), (Z.ltb_spec b 2147483648); unfold is_u32 in *; lia. Qed.

Lemma i32_id z : int_min <= z <= int_max -> i32 z = z.
Proof. unfold int_min, int_max, i32, u32. intros H. destruct (Z.ltb_spec (z mod 4294967296) 2147483648); zdm. Qed.

(* ------------------------------------------------------------------ *)
(** ** Lemmas: lists of rows *)

Lemma sorted_snoc {A} (R : A -> A -> Prop) l x : StronglySorted R l -> Forall (fun y => R y x) l -> StronglySorted R (l ++ [x]).
Proof.
  intros HS F. induction l as [|y l IH]; cbn; [repeat constructor|]. apply StronglySorted_inv in HS as [HS Hy].
  apply Forall_cons in F as [Hx F]. constructor; [apply IH; assumption|]. apply Forall_app. split; [exact Hy|apply Forall_singleton, Hx].
Qed.

Lemma NoDup_map_filter {A B} (f : A -> B) (q : A -> bool) l : NoDup (map f l) -> NoDup (map f (List.filter q l)).
Proof.
  induction l as [|a l IH]; cbn; [auto|]. intros H. apply NoDup_cons in H as [Ha H]. destruct (q a); cbn; [|auto]. apply NoDup_cons.
  split; [|auto]. intros Hc. apply Ha. apply list_elem_of_fmap in Hc as (b & -> & Hb). apply list_elem_of_In, filter_In in Hb as [Hb _].
  apply list_elem_of_fmap_2, list_elem_of_In, Hb.
Qed.
Lemma Forall_lfilter {A} (P : A -> Prop) (q : A -> bool) l : Forall P l -> Forall P (List.filter q l).
Proof. rewrite !Forall_forall. intros H x Hx. apply list_elem_of_In, filter_In in Hx as [Hx _]. apply H, list_elem_of_In, Hx. Qed.

Lemma filter_map_comm {A B} (f : A -> B) (q : B -> bool) (l : list A) : List.filter q (map f l) = map f (List.filter (fun a => q (f a)) l).
Proof. induction l as [|a l IH]; [reflexivity|]. cbn. rewrite IH. destruct (q (f a)); reflexivity. Qed.

Lemma lfilter_ext {A} (q q' : A -> bool) l : (forall a, q a = q' a) -> List.filter q l = List.filter q' l.
Proof. intros H. apply filter_ext, H. Qed.

Lemma lfilter_lfilter {A} (q q' : A -> bool) l : List.filter q (List.filter q' l) = List.filter (fun a => q' a && q a) l.
Proof. induction l as [|a l IH]; [reflexivity|]. cbn. destruct (q' a); cbn; [destruct (q a); rewrite IH; reflexivity|exact IH]. Qed.

(** ORDER BY on a key the rows increase in changes nothing. *)
Lemma sorted_already {A} (R : A -> A -> Prop) `{!forall x y, Decision (R x y)} (key : A -> Z) l :
  (forall x y, R x y <-> key x <= key y) -> StronglySorted Z.lt (map key l) -> merge_sort R l = l.
Proof.
  intros HR HS. assert (HT : Transitive R) by (intros x y z; rewrite !HR; lia). assert (Htot : Total R) by (intros x y; rewrite !HR; lia).
  assert (HS' : StronglySorted (fun x y => key x < key y) l).
  { revert HS. clear. induction l as [|a l IH]; cbn; intros H; [constructor|]. apply StronglySorted_inv in H as [H F]. constructor; [auto|].
    rewrite Forall_map in F. exact F. }
  assert (HM : StronglySorted R (merge_sort R l)) by (apply Sorted_StronglySorted; [exact HT|apply (Sorted_merge_sort R)]). pose proof (merge_sort_Permutation R l) as HP.
  revert HM HP. generalize (merge_sort R l). induction HS' as [|x l HS' IH F]; intros m HM HP; [symmetry in HP; apply Permutation_nil in HP; exact HP|].
  destruct m as [|y m]; [apply Permutation_nil in HP; discriminate|]. apply StronglySorted_inv in HM as [HM Fy].
  assert (Exy : x = y).
  { assert (Hx : x ∈ y :: m) by (rewrite HP; left). assert (Hy : y ∈ x :: l) by (rewrite <- HP; left).
    apply elem_of_cons in Hx as [Hx|Hx]; [exact Hx|]. apply elem_of_cons in Hy as [Hy|Hy]; [congruence|].
    pose proof (proj1 (Forall_forall _ _) F y Hy). pose proof (proj1 (HR _ _) (proj1 (Forall_forall _ _) Fy x Hx)). cbn in *. lia. }
  subst y. f_equal. apply IH; [cbn in HS; apply StronglySorted_inv in HS; apply HS|exact HM|apply Permutation_cons_inv in HP; exact HP].
Qed.

Lemma filter_sorted {A} (key : A -> Z) (q : A -> bool) l : StronglySorted Z.lt (map key l) -> StronglySorted Z.lt (map key (List.filter q l)).
Proof.
  induction l as [|a l IH]; cbn; intros H; [constructor|]. apply StronglySorted_inv in H as [H F]. destruct (q a); cbn; [|auto]. constructor; [auto|].
  apply Forall_map, Forall_lfilter. rewrite Forall_map in F. exact F.
Qed.

