(* ===== verification/SystemState.v ===== *)
(** * The production lifecycle
    (src/model/SystemStateMachine.{h,cpp}, SystemState of ProductionTypes.h)

    The formal transition table, the six commands, the fault reason and the
    notification of observers. Property: the lifecycle over every sequence of
    commands. *)
From S2P Require Import Prelude.

Inductive SystemState := IDLE | RUNNING | ERROR | CALIBRATION.

#[export] Instance SystemState_eq_dec : EqDecision SystemState.
Proof. solve_decision. Defined.

Inductive sys_event := StartEvt | StopEvt | ResetEvt | CalibrateEvt | CalibrationDoneEvt | FaultEvt.

#[export] Instance sys_event_eq_dec : EqDecision sys_event.
Proof. solve_decision. Defined.

Inductive sml_state := s_idle | s_running | s_calibration | s_error.

#[export] Instance sml_state_eq_dec : EqDecision sml_state.
Proof. solve_decision. Defined.

(** The rows of [SystemStateTable], in order. *)
Definition SystemStateTable : list (sml_state * sys_event * sml_state) := [
  (s_idle, StartEvt, s_running);
  (s_idle, CalibrateEvt, s_calibration);
  (s_idle, ResetEvt, s_idle);

  (s_running, StopEvt, s_idle);
  (s_running, ResetEvt, s_idle);
  (s_running, StartEvt, s_running);

  (s_calibration, CalibrationDoneEvt, s_idle);
  (s_calibration, StopEvt, s_idle);
  (s_calibration, ResetEvt, s_idle);

  (s_idle, FaultEvt, s_error);
  (s_running, FaultEvt, s_error);
  (s_calibration, FaultEvt, s_error);
  (s_error, ResetEvt, s_idle)
].

(** [sm.process_event]: the first row that matches; without one the state
    stays. *)
Definition sys_process (s : sml_state) (e : sys_event) : sml_state :=
  match List.find (fun r => bool_decide (fst (fst r) = s) && bool_decide (snd (fst r) = e))
          SystemStateTable with
  | Some r => snd r
  | None => s
  end.

(** [Impl]; [notified] lists the states the observers were called with. *)
Record StateMachine := mkSM {
  sm_state : sml_state;
  lastNotified : SystemState;
  lastFaultReason : string;
  notified : list SystemState;
}.

Definition sm_init : StateMachine := mkSM s_idle IDLE "" [].

Definition currentState (m : StateMachine) : SystemState :=
  match sm_state m with
  | s_running => RUNNING
  | s_calibration => CALIBRATION
  | s_error => ERROR
  | s_idle => IDLE
  end.

Definition afterDispatch (m : StateMachine) : StateMachine :=
  let now := currentState m in
  if bool_decide (now = lastNotified m) then m
  else mkSM (sm_state m) now (lastFaultReason m) (notified m ++ [now]).

Definition fire (e : sys_event) (m : StateMachine) : StateMachine :=
  afterDispatch (mkSM (sys_process (sm_state m) e) (lastNotified m) (lastFaultReason m) (notified m)).

Definition sys_start (m : StateMachine) : StateMachine := fire StartEvt m.
Definition sys_stop (m : StateMachine) : StateMachine := fire StopEvt m.
Definition sys_reset (m : StateMachine) : StateMachine :=
  fire ResetEvt (mkSM (sm_state m) (lastNotified m) "" (notified m)).
Definition sys_fault (reason : string) (m : StateMachine) : StateMachine :=
  fire FaultEvt (mkSM (sm_state m) (lastNotified m) reason (notified m)).
Definition sys_calibrate (m : StateMachine) : StateMachine := fire CalibrateEvt m.
Definition sys_calibrationDone (m : StateMachine) : StateMachine := fire CalibrationDoneEvt m.

Inductive sys_command := CStart | CStop | CReset | CCalibrate | CCalibrationDone | CFault (reason : string).

Definition sys_apply (m : StateMachine) (c : sys_command) : StateMachine :=
  match c with
  | CStart => sys_start m
  | CStop => sys_stop m
  | CReset => sys_reset m
  | CCalibrate => sys_calibrate m
  | CCalibrationDone => sys_calibrationDone m
  | CFault r => sys_fault r m
  end.

Definition sys_run (l : list sys_command) : StateMachine := fold_left sys_apply l sm_init.

(* ------------------------------------------------------------------ *)
(** ** Specification *)

(** The documented lifecycle: what each command does in each state. *)
Definition lifecycle (s : SystemState) (c : sys_command) : SystemState :=
  match c, s with
  | CFault _, _ => ERROR
  | CReset, _ => IDLE
  | CStart, IDLE => RUNNING
  | CStop, (RUNNING | CALIBRATION) => IDLE
  | CCalibrate, IDLE => CALIBRATION
  | CCalibrationDone, CALIBRATION => IDLE
  | _, _ => s
  end.

(** The visited states. *)
Fixpoint visits (s : SystemState) (l : list sys_command) : list SystemState :=
  match l with [] => [] | c :: l => lifecycle s c :: visits (lifecycle s c) l end.

(** A sequence without the entries equal to their predecessor. *)
Fixpoint changes (s : SystemState) (l : list SystemState) : list SystemState :=
  match l with
  | [] => []
  | x :: l => if decide (x = s) then changes s l else x :: changes x l
  end.

(** The reason of the fault that holds the line, if one does. *)
Definition held_reason (old : string) (c : sys_command) : string :=
  match c with CFault r => r | CReset => "" | _ => old end.

(** A state machine between two commands. *)
Definition sys_inv (m : StateMachine) : Prop :=
  lastNotified m = currentState m /\ (currentState m <> ERROR -> lastFaultReason m = ""%string).

Lemma sys_apply_spec m c :
  sys_inv m ->
  sys_inv (sys_apply m c) /\
  currentState (sys_apply m c) = lifecycle (currentState m) c /\
  lastFaultReason (sys_apply m c) = held_reason (lastFaultReason m) c /\
  notified (sys_apply m c) =
    notified m ++ changes (currentState m) [lifecycle (currentState m) c].
Proof.
  destruct m as [s ln fr no]. intros [Hln Hfr]. unfold currentState in Hln, Hfr.
  cbn in Hln, Hfr. subst ln. unfold sys_inv.
  destruct s, c; cbn in Hfr; split_and!;
    first [ reflexivity | symmetry; apply app_nil_r
          | intros H; first [reflexivity | exfalso; apply H; reflexivity | apply Hfr; discriminate]
          | idtac ].
Qed.

Lemma changes_app s l c :
  changes s (l ++ [c]) = changes s l ++ changes (List.last l s) [c].
Proof.
  revert s. induction l as [|x l IH]; intros s; [reflexivity|].
  assert (Hlast : List.last (x :: l) s = List.last l x).
  { destruct l; [reflexivity|]. cbn. clear. revert s0. induction l; intros; [reflexivity|]. cbn. apply IHl. }
  rewrite Hlast. cbn [app changes]. case_decide as E; [subst x; apply IH|].
  cbn [app]. f_equal. apply IH.
Qed.

Lemma changes_cons s x l :
  changes s (x :: l) = changes s [x] ++ changes x l.
Proof. cbn. case_decide; [subst; reflexivity|reflexivity]. Qed.

Lemma sys_run_from m l :
  sys_inv m ->
  let m' := fold_left sys_apply l m in
  sys_inv m' /\ currentState m' = fold_left lifecycle l (currentState m) /\
  lastFaultReason m' = fold_left held_reason l (lastFaultReason m) /\
  notified m' = notified m ++ changes (currentState m) (visits (currentState m) l).
Proof.
  revert m. induction l as [|c l IH]; intros m Hi; cbn [fold_left visits].
  - cbn. rewrite app_nil_r. auto.
  - destruct (sys_apply_spec m c Hi) as (Hi1 & Hs & Hr & Hn).
    destruct (IH _ Hi1) as (Hi' & Hs' & Hr' & Hn'). cbv zeta in *.
    rewrite Hs in *. rewrite Hr in Hr'. split; [exact Hi'|]. split; [exact Hs'|]. split; [exact Hr'|].
    rewrite Hn', Hn, <- app_assoc, <- changes_cons. reflexivity.
Qed.

(* ------------------------------------------------------------------ *)
(** ** Properties *)

(** The lifecycle. After every sequence of commands the machine is in the
    state the documented lifecycle gives (only Reset leaves ERROR, Calibrate
    is refused while RUNNING, and so on); it holds the reason of the fault
    that put it there, and a reason is held only in ERROR; and observers were
    called with exactly the state changes, in order, never twice in a row
    with the same state. *)
Theorem system_lifecycle l :
  let m := sys_run l in
  currentState m = fold_left lifecycle l IDLE /\
  lastFaultReason m = fold_left held_reason l ""%string /\
  (currentState m <> ERROR -> lastFaultReason m = ""%string) /\
  notified m = changes IDLE (visits IDLE l).
Proof.
  destruct (sys_run_from sm_init l) as ((_ & Hr0) & Hs & Hr & Hn); [split; [reflexivity|auto]|].
  split_and!; assumption.
Qed.

Example lifecycle_demo :
  notified (sys_run [CStart; CCalibrate; CFault "E-stop"; CStart; CReset; CReset]) = [RUNNING; ERROR; IDLE].
Proof. vm_compute. reflexivity. Qed.
