(* ===== verification/ModbusIngest.v ===== *)
(** * Modbus ingest: register map and bridge
    (src/integration/modbus/ModbusRegisterMap.h, ModbusIngestBridge.{h,cpp})

    The register mapping, the bridge that scales a raw register value,
    drops repetitions per field and entity and forwards the rest to the
    production model, and the ingest side of the model's interface.
    Property: what the model receives. *)
From S2P Require Import Prelude Float32.

Inductive RegisterType := HoldingRegister | InputRegister.

#[export] Instance RegisterType_eq_dec : EqDecision RegisterType.
Proof. solve_decision. Defined.

Inductive FieldKind := EquipmentEnabled | EquipmentSupplyLevel | QualityPassRate.

#[export] Instance FieldKind_eq_dec : EqDecision FieldKind.
Proof. solve_decision. Defined.

Record RegisterMapping := mkMapping {
  slaveId : Z;
  type : RegisterType;
  address : Z;
  field : FieldKind;
  entityId : Z;
  scale : float32;
}.

(** A mapping within its member types. *)
Definition mapping_ok (m : RegisterMapping) : Prop :=
  is_u8 (slaveId m) /\ is_u16 (address m) /\ is_u32 (entityId m).

(** [ModbusRegisterMap]: [entries_] and its operations. *)
Definition ModbusRegisterMap : Type := list RegisterMapping.
Definition map_add (m : ModbusRegisterMap) (mapping : RegisterMapping) : ModbusRegisterMap := m ++ [mapping].
Definition map_size (m : ModbusRegisterMap) : Z := Z.of_nat (length m).
Definition map_empty (m : ModbusRegisterMap) : bool := bool_decide (m = []).
Definition map_clear (m : ModbusRegisterMap) : ModbusRegisterMap := [].

(* ------------------------------------------------------------------ *)
(** ** The model's ingest interface *)

(** The three setters of [ProductionModel] a protocol bridge calls. *)
Class ProductionModel (M : Type) := {
  setEquipmentEnabled : M -> Z -> bool -> M;
  setEquipmentSupplyLevel : M -> Z -> Z -> M;
  setQualityPassRate : M -> Z -> float32 -> M;
}.

(** A setter's value argument. *)
Inductive semantic_value :=
| VEnabled (b : bool)
| VSupply (level : Z)
| VRate (rate : float32).

(** The model that records the calls it receives. *)
Definition call_log : Type := list (Z * semantic_value).

#[export] Instance LogModel : ProductionModel call_log := {|
  setEquipmentEnabled l e b := l ++ [(e, VEnabled b)];
  setEquipmentSupplyLevel l e v := l ++ [(e, VSupply v)];
  setQualityPassRate l e r := l ++ [(e, VRate r)];
|}.

(* ------------------------------------------------------------------ *)
(** ** The bridge *)

Definition kMaxTrackedEquipment : Z := 16.
Definition kMaxTrackedQuality : Z := 16.

Record ModbusIngestBridge := mkBridge {
  lastEnabled_ : list (option bool);
  lastSupplyLevel_ : list (option Z);
  lastPassRate_ : list (option float32);
}.

Definition bridge_init : ModbusIngestBridge :=
  mkBridge (replicate (Z.to_nat kMaxTrackedEquipment) None)
           (replicate (Z.to_nat kMaxTrackedEquipment) None)
           (replicate (Z.to_nat kMaxTrackedQuality) None).

(** [auto& cached = cache[id]; if (cached == v) return; cached = v;]: [None]
    is the early return. *)
Definition observe {A} (eqb : A -> A -> bool) (cache : list (option A)) (id : Z) (v : A) :
    outcome (option (list (option A))) :=
  cached ← vec_get cache (Z.to_nat id);
  match cached with
  | Some c =>
      if eqb c v then Ret None
      else cache' ← vec_set cache (Z.to_nat id) (Some v); Ret (Some cache')
  | None => cache' ← vec_set cache (Z.to_nat id) (Some v); Ret (Some cache')
  end.

Section Bridge.
Context {M : Type} `{ProductionModel M}.

Definition onRegisterChanged (b : ModbusIngestBridge) (model_ : M)
    (mapping : RegisterMapping) (rawValue : Z) : outcome (ModbusIngestBridge * M) :=
  match field mapping with
  | EquipmentEnabled =>
      if kMaxTrackedEquipment <=? entityId mapping then Ret (b, model_)
      else
        let enabled := negb (rawValue =? 0) in
        c ← observe Bool.eqb (lastEnabled_ b) (entityId mapping) enabled;
        match c with
        | None => Ret (b, model_)
        | Some cache =>
            Ret (mkBridge cache (lastSupplyLevel_ b) (lastPassRate_ b),
                 setEquipmentEnabled model_ (entityId mapping) enabled)
        end
  | EquipmentSupplyLevel =>
      scaled ← f32_to_int (f32_mul (f32_of_Z rawValue) (scale mapping));
      if entityId mapping <? kMaxTrackedEquipment then
        c ← observe Z.eqb (lastSupplyLevel_ b) (entityId mapping) scaled;
        match c with
        | None => Ret (b, model_)
        | Some cache =>
            Ret (mkBridge (lastEnabled_ b) cache (lastPassRate_ b),
                 setEquipmentSupplyLevel model_ (entityId mapping) scaled)
        end
      else Ret (b, setEquipmentSupplyLevel model_ (entityId mapping) scaled)
  | QualityPassRate =>
      let scaled := f32_mul (f32_of_Z rawValue) (scale mapping) in
      if entityId mapping <? kMaxTrackedQuality then
        c ← observe f32_eqb (lastPassRate_ b) (entityId mapping) scaled;
        match c with
        | None => Ret (b, model_)
        | Some cache =>
            Ret (mkBridge (lastEnabled_ b) (lastSupplyLevel_ b) cache,
                 setQualityPassRate model_ (entityId mapping) scaled)
        end
      else Ret (b, setQualityPassRate model_ (entityId mapping) scaled)
  end.

(** A sequence of readings. *)
Fixpoint ingest (b : ModbusIngestBridge) (m : M) (l : list (RegisterMapping * Z)) :
    outcome (ModbusIngestBridge * M) :=
  match l with
  | [] => Ret (b, m)
  | (mapping, raw) :: l =>
      bm ← onRegisterChanged b m mapping raw;
      ingest (fst bm) (snd bm) l
  end.
End Bridge.

(* ------------------------------------------------------------------ *)
(** ** Specification *)

(** What a reading means to the model. *)
Definition semantic (r : RegisterMapping * Z) : outcome semantic_value :=
  match field (fst r) with
  | EquipmentEnabled => Ret (VEnabled (negb (snd r =? 0)))
  | EquipmentSupplyLevel =>
      scaled ← f32_to_int (f32_mul (f32_of_Z (snd r)) (scale (fst r))); Ret (VSupply scaled)
  | QualityPassRate => Ret (VRate (f32_mul (f32_of_Z (snd r)) (scale (fst r))))
  end.

(** C++ equality of two values of a field: a NaN differs from itself. *)
Definition same_value (x y : semantic_value) : bool :=
  match x, y with
  | VEnabled a, VEnabled b => Bool.eqb a b
  | VSupply a, VSupply b => a =? b
  | VRate a, VRate b => f32_eqb a b
  | _, _ => false
  end.

Definition kind_of (v : semantic_value) : FieldKind :=
  match v with VEnabled _ => EquipmentEnabled | VSupply _ => EquipmentSupplyLevel | VRate _ => QualityPassRate end.

(** The values of one field of one entity, in order. *)
Definition of_key (f : FieldKind) (e : Z) (l : list (Z * semantic_value)) : list semantic_value :=
  snd <$> filter (fun c => fst c = e /\ kind_of (snd c) = f) l.

(** A sequence without the values equal to the last one kept. *)
Fixpoint without_repeats (last : option semantic_value) (l : list semantic_value) : list semantic_value :=
  match l with
  | [] => []
  | v :: l =>
      match last with
      | Some w => if same_value w v then without_repeats last l else v :: without_repeats (Some v) l
      | None => v :: without_repeats (Some v) l
      end
  end.

(** What the bridge lets through of the values of one field of one entity. *)
Definition passed (last : option semantic_value) (f : FieldKind) (e : Z) (l : list semantic_value) :
    list semantic_value :=
  if e <? 16 then without_repeats last l
  else match f with EquipmentEnabled => [] | _ => l end.

Definition bridge_ok (b : ModbusIngestBridge) : Prop :=
  length (lastEnabled_ b) = 16%nat /\ length (lastSupplyLevel_ b) = 16%nat /\ length (lastPassRate_ b) = 16%nat.

(** The last value kept for a field of an entity. *)
Definition last_of (b : ModbusIngestBridge) (f : FieldKind) (e : Z) : option semantic_value :=
  match f with
  | EquipmentEnabled => VEnabled <$> mjoin (lastEnabled_ b !! Z.to_nat e)
  | EquipmentSupplyLevel => VSupply <$> mjoin (lastSupplyLevel_ b !! Z.to_nat e)
  | QualityPassRate => VRate <$> mjoin (lastPassRate_ b !! Z.to_nat e)
  end.

(** The values of a list of readings. *)
Definition values_of (l : list (RegisterMapping * Z)) : list (Z * semantic_value) :=
  omap (fun r => match semantic r with Ret v => Some (entityId (fst r), v) | _ => None end) l.

Definition apply_call {M} `{ProductionModel M} (m : M) (c : Z * semantic_value) : M :=
  match snd c with
  | VEnabled b => setEquipmentEnabled m (fst c) b
  | VSupply n => setEquipmentSupplyLevel m (fst c) n
  | VRate r => setQualityPassRate m (fst c) r
  end.

(* ------------------------------------------------------------------ *)
(** ** Lemmas *)

Lemma observe_spec {A} (eqb : A -> A -> bool) cache id v :
  (Z.to_nat id < length cache)%nat ->
  observe eqb cache id v =
    let cache' := <[Z.to_nat id := Some v]> cache in
    match mjoin (cache !! Z.to_nat id) with
    | Some c => if eqb c v then Ret None else Ret (Some cache')
    | None => Ret (Some cache')
    end.
Proof.
  intros Hid. unfold observe. destruct (vec_get_lt cache _ Hid) as (o & Hg & Ho).
  rewrite Hg, Ho, vec_set_ret by exact Hid. cbn. destruct o; reflexivity.
Qed.

Lemma mjoin_insert_eq {A} (l : list (option A)) i v :
  (i < length l)%nat -> mjoin (<[i := Some v]> l !! i) = Some v.
Proof. intros. rewrite list_lookup_insert_eq by assumption. reflexivity. Qed.

Lemma mjoin_insert_ne {A} (l : list (option A)) i j v :
  i <> j -> mjoin (<[i := Some v]> l !! j) = mjoin (l !! j).
Proof. intros. rewrite list_lookup_insert_ne by assumption. reflexivity. Qed.

Lemma of_key_one f e i v :
  of_key f e [(i, v)] = if decide (i = e /\ kind_of v = f) then [v] else [].
Proof. unfold of_key. rewrite filter_cons, filter_nil. cbn [fst snd]. case_decide; reflexivity. Qed.

Lemma of_key_app f e l1 l2 : of_key f e (l1 ++ l2) = of_key f e l1 ++ of_key f e l2.
Proof. unfold of_key. rewrite filter_app, fmap_app. reflexivity. Qed.

(** The bridge after keeping [v] in the cache of its field. *)
Definition keep (b : ModbusIngestBridge) (e : Z) (v : semantic_value) : ModbusIngestBridge :=
  match v with
  | VEnabled x => mkBridge (<[Z.to_nat e := Some x]> (lastEnabled_ b)) (lastSupplyLevel_ b) (lastPassRate_ b)
  | VSupply x => mkBridge (lastEnabled_ b) (<[Z.to_nat e := Some x]> (lastSupplyLevel_ b)) (lastPassRate_ b)
  | VRate x => mkBridge (lastEnabled_ b) (lastSupplyLevel_ b) (<[Z.to_nat e := Some x]> (lastPassRate_ b))
  end.

Lemma keep_ok b e v : bridge_ok b -> bridge_ok (keep b e v).
Proof. intros (H1 & H2 & H3). destruct v; unfold bridge_ok; cbn; rewrite length_insert; auto. Qed.

Lemma last_of_keep_eq b e v :
  bridge_ok b -> 0 <= e < 16 -> last_of (keep b e v) (kind_of v) e = Some v.
Proof.
  intros (H1 & H2 & H3) He. destruct v; cbn; rewrite mjoin_insert_eq by lia; reflexivity.
Qed.

Lemma last_of_keep_ne b e v f e' :
  0 <= e -> 0 <= e' -> ~ (e = e' /\ kind_of v = f) -> last_of (keep b e v) f e' = last_of b f e'.
Proof.
  intros He He' Hne. destruct v, f; cbn; try reflexivity;
    rewrite mjoin_insert_ne by (intros Heq; apply Hne; split; [lia|reflexivity]); reflexivity.
Qed.

(** What the bridge decides about a value: forward and keep, forward only,
    or drop. *)
Definition decision_of (b : ModbusIngestBridge) (e : Z) (v : semantic_value) :
    ModbusIngestBridge * list (Z * semantic_value) :=
  if e <? 16 then
    match last_of b (kind_of v) e with
    | Some w => if same_value w v then (b, []) else (keep b e v, [(e, v)])
    | None => (keep b e v, [(e, v)])
    end
  else match v with VEnabled _ => (b, []) | _ => (b, [(e, v)]) end.

Ltac bridge_case Hlen :=
  rewrite observe_spec by (rewrite Hlen; lia); cbn;
  match goal with |- context [mjoin ?o] => destruct (mjoin o) as [c|]; cbn end;
  [match goal with |- context [if ?t then Ret None else _] => destruct t end|]; reflexivity.

Lemma register_changed_decision {M} `{PM : ProductionModel M} b (m : M) mapping raw v :
  bridge_ok b -> 0 <= entityId mapping -> semantic (mapping, raw) = Ret v ->
  onRegisterChanged b m mapping raw =
    let (b', o) := decision_of b (entityId mapping) v in Ret (b', foldl apply_call m o).
Proof.
  intros (H1 & H2 & H3) He Hv. unfold semantic in Hv. cbn [fst snd] in Hv.
  unfold onRegisterChanged, decision_of, kMaxTrackedEquipment, kMaxTrackedQuality.
  destruct (field mapping) eqn:Ef.
  - injection Hv as <-. rewrite Z.leb_antisym. destruct (Z.ltb_spec (entityId mapping) 16); [|reflexivity].
    cbn [negb kind_of last_of]. bridge_case H1.
  - apply bind_ret_inv in Hv as (n & Hn & [= <-]). rewrite Hn. cbn [mbind outcome_bind].
    destruct (Z.ltb_spec (entityId mapping) 16); [|reflexivity]. cbn [kind_of last_of]. bridge_case H2.
  - injection Hv as <-. destruct (Z.ltb_spec (entityId mapping) 16); [|reflexivity].
    cbn [kind_of last_of]. bridge_case H3.
Qed.

Lemma decision_ok b e v : bridge_ok b -> bridge_ok (fst (decision_of b e v)).
Proof.
  intros H. unfold decision_of. repeat case_match; cbn; auto using keep_ok.
Qed.

(** One value, seen from one field of one entity. *)
Lemma decision_passed b e v f e' rest :
  bridge_ok b -> 0 <= e -> 0 <= e' ->
  passed (last_of b f e') f e' (of_key f e' [(e, v)] ++ rest) =
    of_key f e' (snd (decision_of b e v)) ++ passed (last_of (fst (decision_of b e v)) f e') f e' rest.
Proof.
  intros Hb He He'. rewrite of_key_one. unfold decision_of.
  destruct (decide (e = e' /\ kind_of v = f)) as [[<- <-]|Hne].
  - unfold passed at 1. cbn [app]. destruct (Z.ltb_spec e 16) as [Hlt|Hge].
    + cbn [without_repeats]. destruct (last_of b (kind_of v) e) as [w|] eqn:Hl; [destruct (same_value w v)|];
        cbn [fst snd]; rewrite ?of_key_one, ?decide_True, ?last_of_keep_eq, ?Hl by auto;
        unfold passed; rewrite (proj2 (Z.ltb_lt e 16)) by exact Hlt; reflexivity.
    + destruct v; cbn [fst snd kind_of]; rewrite ?of_key_one, ?decide_True by auto;
        unfold passed; rewrite (proj2 (Z.ltb_ge e 16)) by exact Hge; reflexivity.
  - cbn [app]. repeat case_match; cbn [fst snd];
      rewrite ?of_key_one, ?(decide_False (P := e = e' /\ _)), ?last_of_keep_ne by auto; reflexivity.
Qed.

Lemma semantic_returns r : defined (semantic r) -> exists v, semantic r = Ret v.
Proof.
  unfold semantic. destruct (field (fst r)); eauto. unfold f32_to_int.
  repeat case_match; cbn; intros Hd; eauto; destruct Hd.
Qed.

Lemma ingest_snoc {M} `{PM : ProductionModel M} l x b (m : M) :
  ingest b m (l ++ [x]) = (bm ← ingest b m l; onRegisterChanged (fst bm) (snd bm) (fst x) (snd x)).
Proof.
  revert b m. induction l as [|[mp raw] l IH]; intros b m; cbn [ingest app].
  - destruct x as [mp raw]. cbn. destruct (onRegisterChanged b m mp raw) as [[? ?]| |]; reflexivity.
  - destruct (onRegisterChanged b m mp raw) as [[b1 m1]| |]; cbn; [apply IH|reflexivity|reflexivity].
Qed.

(** The calls a list of readings leads to, whatever model receives them. *)
Lemma ingest_run l b :
  bridge_ok b ->
  Forall (fun r => 0 <= entityId (fst r) /\ defined (semantic r)) l ->
  exists b' o,
    (forall M (PM : ProductionModel M) (m : M), ingest b m l = Ret (b', foldl apply_call m o)) /\
    bridge_ok b' /\
    forall f e, 0 <= e -> of_key f e o = passed (last_of b f e) f e (of_key f e (values_of l)).
Proof.
  intros Hb Hl. revert b Hb. induction Hl as [|[mp raw] l [He Hd] Hl IH]; intros b Hb.
  - exists b, []. split; [reflexivity|]. split; [exact Hb|]. intros f e _. unfold passed. repeat case_match; reflexivity.
  - cbn [fst] in He. destruct (semantic_returns _ Hd) as [v Hv].
    pose proof (fun M PM m => register_changed_decision (M := M) (PM := PM) b m mp raw v Hb He Hv) as Hstep.
    pose proof (decision_ok b (entityId mp) v Hb) as Hb1.
    pose proof (fun f e rest => decision_passed b (entityId mp) v f e rest Hb He) as Hp.
    destruct (decision_of b (entityId mp) v) as [b1 o1]. cbn [fst snd] in *.
    destruct (IH b1 Hb1) as (b' & o & Hrun & Hb' & Ho).
    exists b', (o1 ++ o). split; [|split; [exact Hb'|]].
    + intros M PM m. cbn [ingest]. rewrite Hstep, foldl_app. apply Hrun.
    + intros f e He'. unfold values_of. cbn [omap list_omap]. rewrite Hv. cbn [fst].
      rewrite of_key_app, (Ho f e He'), <- Hp by exact He'.
      f_equal. symmetry. apply (of_key_app f e [(entityId mp, v)]).
Qed.

Lemma bridge_init_ok : bridge_ok bridge_init.
Proof. repeat split. Qed.

Lemma bridge_init_last f e : last_of bridge_init f e = None.
Proof.
  assert (H : forall A, mjoin (replicate 16 (@None A) !! Z.to_nat e) = None).
  { intros A. destruct (replicate 16 None !! Z.to_nat e) as [o|] eqn:E; [|reflexivity].
    apply lookup_replicate in E as [-> _]. reflexivity. }
  destruct f; cbn [last_of bridge_init lastEnabled_ lastSupplyLevel_ lastPassRate_];
    unfold kMaxTrackedEquipment, kMaxTrackedQuality; change (Z.to_nat 16) with 16%nat; rewrite H; reflexivity.
Qed.

Lemma log_replay o (l : call_log) : foldl apply_call l o = l ++ o.
Proof.
  revert l. induction o as [|[e v] o IH]; intros l; [cbn; symmetry; apply app_nil_r|].
  cbn [foldl]. rewrite IH. unfold apply_call. destruct v; cbn; rewrite <- app_assoc; reflexivity.
Qed.

(* ------------------------------------------------------------------ *)
(** ** Properties *)

(** What the model receives. For readings whose scaled value is a C++
    [int] where one is needed, ingest completes; the calls made do not depend
    on the model behind the interface; and per field and entity they are the
    scaled values in the order read, without those equal to the last one
    forwarded, for the entities 0..15. For the others every supply and rate
    value is forwarded and no enable is. *)
Theorem ingest_forwards_changes (l : list (RegisterMapping * Z)) :
  Forall (fun r => 0 <= entityId (fst r) /\ defined (semantic r)) l ->
  exists b' (calls : call_log),
    ingest bridge_init ([] : call_log) l = Ret (b', calls) /\
    (forall M (PM : ProductionModel M) (m : M),
      ingest bridge_init m l = Ret (b', foldl apply_call m calls)) /\
    forall f e, 0 <= e ->
      of_key f e calls =
        (if e <? 16 then without_repeats None (of_key f e (values_of l))
         else match f with EquipmentEnabled => [] | _ => of_key f e (values_of l) end).
Proof.
  intros Hl. destruct (ingest_run l bridge_init bridge_init_ok Hl) as (b' & o & Hrun & _ & Ho).
  exists b', o. split; [rewrite Hrun, log_replay; reflexivity|]. split; [exact Hrun|].
  intros f e He. rewrite (Ho f e He), bridge_init_last. reflexivity.
Qed.

Definition demo_supply : RegisterMapping := mkMapping 1 HoldingRegister 100 EquipmentSupplyLevel 1 (f32_lit 1 1).
Definition demo_enable : RegisterMapping := mkMapping 1 HoldingRegister 7 EquipmentEnabled 2 (f32_of_Z 1).
Definition demo_readings : list (RegisterMapping * Z) :=
  [(demo_supply, 850); (demo_enable, 1); (demo_supply, 853); (demo_enable, 9); (demo_supply, 800)].

Example demo_ingest :
  snd <$> (match ingest bridge_init ([] : call_log) demo_readings with Ret x => Some x | _ => None end) =
    Some [(1, VSupply 85); (2, VEnabled true); (1, VSupply 80)].
Proof. vm_compute. reflexivity. Qed.

Lemma ingest_forwards_changes_witness :
  exists b' (calls : call_log), ingest bridge_init ([] : call_log) demo_readings = Ret (b', calls).
Proof.
  destruct (ingest_forwards_changes demo_readings) as (b' & calls & H & _).
  - unfold demo_readings. repeat (apply Forall_cons; split; [split; [cbn; lia|vm_compute; exact I]|]). apply Forall_nil. exact I.
  - exists b', calls. exact H.
Defined.
