(* ===== verification/SerialLink.v ===== *)
(** * The serial link
    (src/integration/SerialFrameParser.{h,cpp}, EquipmentStateReading.h,
    SerialBackend.{h,cpp})

    The line parser of the telemetry text, the command a reading stands for,
    and the backend: the read loop that splits a chunk into flash frames and
    readings, and the write queue. The Asio context is a queue of posted
    handlers run by one worker; a port operation completes with an event. *)
From stdpp Require Import pretty.
From Stdlib Require Import Ascii String.
From S2P Require Import Prelude Wire Format FlashFrame FlashParser ModbusIngest.
Local Open Scope string_scope.
Local Open Scope Z_scope.
Local Open Scope list_scope.

(* ------------------------------------------------------------------ *)
(** ** Lines *)

Record SerialReading := mkReading { sensorId : string; value : string }.

#[export] Instance SerialReading_eq_dec : EqDecision SerialReading.
Proof. solve_decision. Defined.

Definition kFrameDelimiter : ascii := kLF.
Definition kFieldDelimiter : ascii := ","%char.
Definition kCarriageReturn : ascii := kCR.
Definition kMaxBufferBytes : nat := 4096.

(** [if (!line.empty() && line.back() == kCarriageReturn) line.remove_suffix(1)]. *)
Fixpoint drop_cr (line : chars) : chars :=
  match line with
  | [] => []
  | [c] => if Ascii.eqb c kCarriageReturn then [] else [c]
  | c :: line => c :: drop_cr line
  end.

Definition parseLine (line : chars) : option SerialReading :=
  let line := drop_cr line in
  match line with
  | [] => None
  | _ =>
      let (id, rest) := span (fun c => negb (Ascii.eqb c kFieldDelimiter)) line in
      match rest with
      | [] => None
      | _ :: val =>
          if existsb (fun c => Ascii.eqb c kFieldDelimiter) val then None
          else match id, val with
               | [], _ | _, [] => None
               | _, _ => Some (mkReading (text_of id) (text_of val))
               end
      end
  end.

(** The [find] loop: the complete lines, and the partial one at the end. *)
Fixpoint split_lines (buffer line : chars) : list chars * chars :=
  match buffer with
  | [] => ([], line)
  | c :: buffer =>
      if Ascii.eqb c kFrameDelimiter then let (lines, rest) := split_lines buffer [] in (line :: lines, rest)
      else split_lines buffer (line ++ [c])
  end.

(** [SerialFrameParser::consume]; the parser is its buffer. *)
Definition line_consume (buffer_ : chars) (bytes : chars) : list SerialReading * chars :=
  let (lines, rest) := split_lines (buffer_ ++ bytes) [] in
  (omap parseLine lines, if (kMaxBufferBytes <? length rest)%nat then [] else rest).

(* ------------------------------------------------------------------ *)
(** ** Commands *)

Record EquipmentStateCommand := mkCommand { cmd_equipmentId : Z; cmd_enabled : bool }.

(** [std::from_chars] into a [uint32_t]: no sign. *)
Definition from_chars_u32 (l : chars) : from_chars_result :=
  let (ds, rest) := span isdigit l in
  match ds with
  | [] => FcInvalid
  | _ => let v := digits_val ds in if v <=? 4294967295 then FcOk v rest else FcRange rest
  end.

(** The words of the on/off vocabulary, in any case. *)
Definition on_off (l : chars) : option bool :=
  let lower := text_of (map tolower l) in
  if String.eqb lower "on" || String.eqb lower "1" || String.eqb lower "true" then Some true
  else if String.eqb lower "off" || String.eqb lower "0" || String.eqb lower "false" then Some false
  else None.

Definition kPrefix : chars := chars_of "equipment/".
Definition kSuffix : chars := chars_of "/state".

Definition toEquipmentStateCommand (reading : SerialReading) : option EquipmentStateCommand :=
  let id := chars_of (sensorId reading) in
  if (length id <=? length kPrefix + length kSuffix)%nat then None
  else if negb (bool_decide (take (length kPrefix) id = kPrefix)) ||
          negb (bool_decide (drop (length id - length kSuffix) id = kSuffix)) then None
  else
    let number := take (length id - length kPrefix - length kSuffix) (drop (length kPrefix) id) in
    match from_chars_u32 number with
    | FcOk equipmentId [] => option_map (mkCommand equipmentId) (on_off (chars_of (value reading)))
    | _ => None
    end.

(** The sink [registerSerialBackend] installs. *)
Definition ingest_reading {M} `{ProductionModel M} (model_ : M) (reading : SerialReading) : M :=
  match toEquipmentStateCommand reading with
  | Some c => setEquipmentEnabled model_ (cmd_equipmentId c) (cmd_enabled c)
  | None => model_
  end.

(* ------------------------------------------------------------------ *)
(** ** The backend *)

Record SerialBackend := mkSerial {
  sb_running : bool;
  sb_flash : FlashFrameParser;
  sb_lines : chars;
  sb_falseStarts : Z;
  sb_reading : bool;                (**r an [async_read_some] is pending *)
  sb_posted : list (list Z);        (**r handlers posted by [send], oldest first *)
  sb_queue : list (list Z);         (**r [writeQueue] *)
  sb_writing : bool;                (**r an [async_write] is pending *)
  sb_worker : bool;                 (**r [context.run()] has not returned *)
}.

Definition serial_init : SerialBackend := mkSerial false parser_init [] 0 false [] [] false false.

(** [start]: [opened] says whether the port opens and takes its options. A
    failure leaves fresh Asio state and reset parsers, and is rethrown. *)
Definition serial_start (opened : bool) (s : SerialBackend) : option exn * SerialBackend :=
  if sb_running s then (None, s)
  else if opened then
    (None, mkSerial true parser_init [] (sb_falseStarts s) true (sb_posted s) (sb_queue s) (sb_writing s) true)
  else (Some runtime_error, mkSerial false parser_init [] (sb_falseStarts s) false [] [] false false).

(** [stopImpl]: the port is closed, the worker joined, the Asio state fresh. *)
Definition serial_stop (s : SerialBackend) : SerialBackend :=
  if sb_running s then mkSerial false (sb_flash s) (sb_lines s) (sb_falseStarts s) false [] [] false false else s.

(** [routeChunk]: the frames for the frame sink, the readings for the reading
    sink. *)
Definition routeChunk (chunk : list Z) (s : SerialBackend) :
    outcome (option (SerialBackend * list FlashFrame * list SerialReading)) :=
  let falseStartsBefore := falseStarts_ (sb_flash s) in
  r ← consume (sb_flash s) chunk;
  match r with
  | None => Ret None
  | Some (split, flash) =>
      let count := u64 (sb_falseStarts s + (falseStarts_ flash - falseStartsBefore)) in
      let (readings, buffer) := line_consume (sb_lines s) (map chr (text split)) in
      Ret (Some (mkSerial (sb_running s) flash buffer count (sb_reading s) (sb_posted s) (sb_queue s) (sb_writing s) (sb_worker s),
                 frames split, readings))
  end.

Definition serial_send (bytes : list Z) (s : SerialBackend) : bool * SerialBackend :=
  if sb_running s then
    (true, mkSerial (sb_running s) (sb_flash s) (sb_lines s) (sb_falseStarts s) (sb_reading s) (sb_posted s ++ [bytes]) (sb_queue s) (sb_writing s) (sb_worker s))
  else (false, s).

Definition sb_writes (posted queue : list (list Z)) (writing : bool) (s : SerialBackend) : SerialBackend :=
  mkSerial (sb_running s) (sb_flash s) (sb_lines s) (sb_falseStarts s) (sb_reading s) posted queue writing (sb_worker s).

(** [writeNext] on the queue: the write of the front starts. Asio allows one
    outstanding write per port, and [front()] needs an element. *)
Definition writeNext (s : SerialBackend) : outcome SerialBackend :=
  if sb_writing s then Undef
  else match sb_queue s with
       | [] => Undef
       | _ => Ret (sb_writes (sb_posted s) (sb_queue s) true s)
       end.

(** The handler [send] posted. *)
Definition posted_handler (data : list Z) (s : SerialBackend) : outcome SerialBackend :=
  match data with
  | [] => Ret s
  | _ =>
      let s := sb_writes (sb_posted s) (sb_queue s ++ [data]) (sb_writing s) s in
      if decide (length (sb_queue s) = 1%nat) then writeNext s else Ret s
  end.

(** The completion handler of [async_write]. *)
Definition write_handler (failed : bool) (s : SerialBackend) : outcome SerialBackend :=
  if failed then Ret (sb_writes (sb_posted s) [] false s)
  else
    let s := sb_writes (sb_posted s) (tail (sb_queue s)) false s in
    match sb_queue s with [] => Ret s | _ => writeNext s end.

(** The completion handler of [async_read_some]: an error ends the loop,
    otherwise the chunk is routed and the next read starts. *)
Definition sb_set_reading (b : bool) (s : SerialBackend) : SerialBackend :=
  mkSerial (sb_running s) (sb_flash s) (sb_lines s) (sb_falseStarts s) b (sb_posted s) (sb_queue s) (sb_writing s) (sb_worker s).

Definition read_handler (chunk : option (list Z)) (s : SerialBackend) :
    outcome (option (SerialBackend * list FlashFrame * list SerialReading)) :=
  match chunk with
  | None => Ret (Some (sb_set_reading false s, [], []))
  | Some bytes =>
      r ← routeChunk bytes (sb_set_reading false s);
      match r with
      | None => Ret None
      | Some (s, frames, readings) => Ret (Some (sb_set_reading true s, frames, readings))
      end
  end.

(** [context.run()] returns when nothing is pending. *)
Definition run_returns (s : SerialBackend) : SerialBackend :=
  if sb_reading s || sb_writing s || negb (bool_decide (sb_posted s = [])) then s
  else mkSerial (sb_running s) (sb_flash s) (sb_lines s) (sb_falseStarts s) (sb_reading s) (sb_posted s) (sb_queue s) (sb_writing s) false.

Definition sb_isRunning (s : SerialBackend) : bool := sb_running s.

Definition sb_metricsSummary (device : string) (baudRate : Z) (s : SerialBackend) : string :=
  (device ++ " @ " ++ to_string baudRate ++
   (if (0 <? sb_falseStarts s)%Z then " | " ++ to_string (sb_falseStarts s) ++ " false starts" else ""))%string.

(* ------------------------------------------------------------------ *)
(** ** Running the link *)

(** What happens to the link; the operating system completes reads and
    writes, the worker runs one handler at a time. *)
Inductive serial_event :=
| SvStart (opened : bool)
| SvStop
| SvSend (bytes : list Z)
| SvRead (chunk : option (list Z))
| SvPosted
| SvWrite (failed : bool).

(** The backend with what went through it: the messages accepted and written
    and whether a write failed in this session, and everything the sinks were
    given. *)
Record Link := mkLink {
  ln_backend : SerialBackend;
  ln_accepted : list (list Z);
  ln_written : list (list Z);
  ln_failed : bool;
  ln_frames : list FlashFrame;
  ln_readings : list SerialReading;
}.

Definition link_init : Link := mkLink serial_init [] [] false [] [].

Definition ln_set (s : SerialBackend) (l : Link) : Link :=
  mkLink s (ln_accepted l) (ln_written l) (ln_failed l) (ln_frames l) (ln_readings l).

(** One event; one that cannot happen now changes nothing. Running out of
    the frame parser's fuel would be [Undef]. *)
Definition link_step (frameSink : bool) (e : serial_event) (l : Link) : outcome Link :=
  let s := ln_backend l in
  match e with
  | SvStart opened =>
      let (_, s') := serial_start opened s in
      if sb_running s then Ret l else Ret (mkLink s' [] [] false (ln_frames l) (ln_readings l))
  | SvStop => Ret (ln_set (serial_stop s) l)
  | SvSend bytes =>
      let (ok, s') := serial_send bytes s in
      Ret (mkLink s' (if ok then ln_accepted l ++ [bytes] else ln_accepted l) (ln_written l) (ln_failed l) (ln_frames l) (ln_readings l))
  | SvRead chunk =>
      if sb_worker s && sb_reading s then
        r ← read_handler chunk s;
        match r with
        | None => Undef
        | Some (s', frames, readings) =>
            Ret (mkLink (run_returns s') (ln_accepted l) (ln_written l) (ln_failed l)
                   (if frameSink then ln_frames l ++ frames else ln_frames l) (ln_readings l ++ readings))
        end
      else Ret l
  | SvPosted =>
      match sb_posted s with
      | data :: posted =>
          if sb_worker s then
            s' ← posted_handler data (sb_writes posted (sb_queue s) (sb_writing s) s);
            Ret (ln_set (run_returns s') l)
          else Ret l
      | [] => Ret l
      end
  | SvWrite failed =>
      if sb_worker s && sb_writing s then
        s' ← write_handler failed s;
        Ret (mkLink (run_returns s') (ln_accepted l)
               (if failed then ln_written l else ln_written l ++ take 1 (sb_queue s))
               (ln_failed l || failed) (ln_frames l) (ln_readings l))
      else Ret l
  end.

Fixpoint link_run (frameSink : bool) (es : list serial_event) (l : Link) : outcome Link :=
  match es with
  | [] => Ret l
  | e :: es => l ← link_step frameSink e l; link_run frameSink es l
  end.

Definition serial_event_ok (e : serial_event) : Prop :=
  match e with SvSend bytes | SvRead (Some bytes) => bytes_ok bytes | _ => True end.

(* ------------------------------------------------------------------ *)
(** ** Lemmas *)

Definition nonempty (l : list (list Z)) : list (list Z) := filter (fun m => m <> []) l.

(** What is still to be written. *)
Definition pending (s : SerialBackend) : list (list Z) := sb_queue s ++ nonempty (sb_posted s).

Record link_ok (l : Link) : Prop := {
  lo_writing : sb_writing (ln_backend l) = negb (bool_decide (sb_queue (ln_backend l) = []));
  lo_flash : parser_ok (sb_flash (ln_backend l));
  lo_stopped : sb_running (ln_backend l) = false -> sb_posted (ln_backend l) = [] /\ sb_queue (ln_backend l) = [];
  lo_order : (ln_written l ++ pending (ln_backend l)) `sublist_of` nonempty (ln_accepted l);
  lo_complete : ln_failed l = false -> sb_running (ln_backend l) = true ->
    ln_written l ++ pending (ln_backend l) = nonempty (ln_accepted l);
}.

Lemma from_chars_u32_text id : is_u32 id -> from_chars_u32 (chars_of (to_string id)) = FcOk id [].
Proof.
  intros Hid. unfold from_chars_u32. unfold is_u32 in Hid. unfold to_string. destruct (pretty_digits id ltac:(lia)) as (ds & -> & Hd & Hv & Hne & _).
  pose proof (span_all isdigit ds [] Hd I) as S. rewrite app_nil_r in S. rewrite S.
  destruct ds as [|d ds]; [congruence|]. rewrite Hv. replace (id <=? 4294967295) with true by lia. reflexivity.
Qed.

Lemma nonempty_app l1 l2 : nonempty (l1 ++ l2) = nonempty l1 ++ nonempty l2.
Proof. apply filter_app. Qed.

Lemma run_returns_fields s :
  sb_queue (run_returns s) = sb_queue s /\ sb_posted (run_returns s) = sb_posted s /\ sb_writing (run_returns s) = sb_writing s /\
  sb_flash (run_returns s) = sb_flash s /\ sb_running (run_returns s) = sb_running s.
Proof. unfold run_returns. case_match; auto. Qed.

Lemma run_returns_ok l s : link_ok (ln_set s l) -> link_ok (ln_set (run_returns s) l).
Proof.
  intros [H1 H2 H3 H4 H5]. destruct (run_returns_fields s) as (E1 & E2 & E3 & E4 & E5).
  split; cbn in *; unfold pending in *; rewrite ?E1, ?E2, ?E3, ?E4, ?E5; assumption.
Qed.

(** The bookkeeping of the writes, whatever the read side does. *)
Lemma link_ok_reads l s frames readings :
  link_ok l -> parser_ok (sb_flash s) -> sb_queue s = sb_queue (ln_backend l) -> sb_posted s = sb_posted (ln_backend l) ->
  sb_writing s = sb_writing (ln_backend l) -> sb_running s = sb_running (ln_backend l) ->
  link_ok (mkLink s (ln_accepted l) (ln_written l) (ln_failed l) frames readings).
Proof.
  intros [H1 H2 H3 H4 H5] Hf E1 E2 E3 E4. split; cbn; unfold pending in *; rewrite ?E1, ?E2, ?E3, ?E4; assumption.
Qed.

Lemma route_ok chunk s : parser_ok (sb_flash s) -> bytes_ok chunk ->
  exists s' frames readings, routeChunk chunk s = Ret (Some (s', frames, readings)) /\ parser_ok (sb_flash s') /\
    sb_queue s' = sb_queue s /\ sb_posted s' = sb_posted s /\ sb_writing s' = sb_writing s /\ sb_running s' = sb_running s.
Proof.
  intros Hp Hb. unfold routeChunk.
  destruct (consume_total (sb_flash s) chunk) as (o & p' & E & Hp' & _); [apply bytes_ok_app; split; [apply Hp|exact Hb]|].
  rewrite E. cbn [mbind outcome_bind]. destruct (line_consume _ _) as [readings buffer].
  eexists _, _, _. split; [reflexivity|]. cbn. auto.
Qed.

Lemma posted_ok l data posted : sb_posted (ln_backend l) = data :: posted -> link_ok l ->
  exists s', posted_handler data (sb_writes posted (sb_queue (ln_backend l)) (sb_writing (ln_backend l)) (ln_backend l)) = Ret s' /\
    link_ok (ln_set s' l).
Proof.
  intros Ep [H1 H2 H3 H4 H5]. unfold pending in *. rewrite Ep in *.
  set (s := ln_backend l) in *.
  assert (Hrun : sb_running s = true).
  { destruct (sb_running s) eqn:E; [reflexivity|]. destruct (H3 eq_refl). discriminate. }
  destruct data as [|b data].
  - eexists. split; [reflexivity|]. split; cbn; unfold pending; cbn; auto. congruence.
  - change (nonempty ((b :: data) :: posted)) with ((b :: data) :: nonempty posted) in *.
    cbn [posted_handler]. set (s1 := sb_writes _ _ _ _).
    assert (K : forall w, w = negb (bool_decide (sb_queue s ++ [b :: data] = [])) ->
      link_ok (ln_set (sb_writes posted (sb_queue s ++ [b :: data]) w s) l)).
    { intros w Hw. split; cbn; unfold pending; cbn; auto; try congruence;
        rewrite <- app_assoc; cbn [app]; assumption. }
    assert (Hne : sb_queue s ++ [b :: data] <> []) by (intros E; apply app_eq_nil in E as [_ E]; discriminate).
    destruct (decide (length (sb_queue s1) = 1%nat)) as [El|El].
    + assert (Eq : sb_queue s = []).
      { cbn in El. rewrite length_app in El. cbn in El. destruct (sb_queue s); [reflexivity|cbn in El; lia]. }
      unfold writeNext. cbn [s1 sb_writes sb_writing sb_queue]. rewrite H1, Eq. cbn.
      eexists. split; [reflexivity|]. rewrite Eq in K. apply (K true). rewrite bool_decide_eq_false_2; [reflexivity|discriminate].
    + eexists. split; [reflexivity|]. apply K. rewrite H1. destruct (sb_queue s) as [|x q]; [cbn in El; lia|].
      rewrite !bool_decide_eq_false_2; [reflexivity|discriminate|discriminate].
Qed.

Lemma write_ok l failed : sb_writing (ln_backend l) = true -> link_ok l ->
  exists s', write_handler failed (ln_backend l) = Ret s' /\
    link_ok (mkLink s' (ln_accepted l) (if failed then ln_written l else ln_written l ++ take 1 (sb_queue (ln_backend l)))
               (ln_failed l || failed) (ln_frames l) (ln_readings l)).
Proof.
  intros Hw [H1 H2 H3 H4 H5]. unfold pending in *. set (s := ln_backend l) in *.
  rewrite Hw in H1. destruct (sb_queue s) as [|m q] eqn:Eq; [discriminate|].
  destruct failed.
  - eexists. split; [reflexivity|]. split; cbn; unfold pending; cbn; auto.
    + intros Hr. destruct (H3 Hr). discriminate.
    + etransitivity; [|exact H4]. apply sublist_app; [reflexivity|]. apply sublist_inserts_l. reflexivity.
    + rewrite orb_true_r. discriminate.
  - unfold write_handler. rewrite Eq. cbn [tail sb_writes sb_queue take].
    destruct q as [|m2 q]; [eexists; split; [reflexivity|]|cbn; eexists; split; [reflexivity|]];
      (split; cbn; unfold pending; cbn in *; rewrite ?orb_false_r; auto; [intros Hr; destruct (H3 Hr); discriminate|rewrite <- app_assoc; exact H4|rewrite <- app_assoc; exact H5]).
Qed.

Lemma link_step_ok sink e l : link_ok l -> serial_event_ok e -> exists l', link_step sink e l = Ret l' /\ link_ok l'.
Proof.
  intros H He. pose proof H as [H1 H2 H3 H4 H5]. destruct e as [opened| |bytes|chunk| |failed]; cbn [link_step].
  - unfold serial_start. destruct (sb_running (ln_backend l)) eqn:Er; [eauto|]. destruct (H3 eq_refl) as [E1 E2].
    destruct opened; eexists; (split; [reflexivity|]); split; cbn; unfold pending; cbn;
      rewrite ?E1, ?E2, ?H1; auto using parser_init_ok; cbn; rewrite ?E2; auto; discriminate.
  - unfold serial_stop. eexists. split; [reflexivity|]. destruct (sb_running (ln_backend l)) eqn:Er.
    + split; cbn; unfold pending; cbn; auto; [|discriminate].
      etransitivity; [|exact H4]. apply sublist_app; [reflexivity|]. apply sublist_nil_l.
    + destruct l. exact H.
  - unfold serial_send. destruct (sb_running (ln_backend l)) eqn:Er; eexists; (split; [reflexivity|]).
    + split; cbn; unfold pending in *; cbn; auto; [congruence| |]; rewrite ?nonempty_app, !app_assoc.
      * apply sublist_app; [rewrite <- !app_assoc in *; exact H4|reflexivity].
      * intros Hf _. rewrite <- (H5 Hf eq_refl), !app_assoc. reflexivity.
    + destruct l. exact H.
  - destruct (sb_worker _ && sb_reading _); [|eauto]. destruct chunk as [bytes|]; cbn [read_handler].
    + destruct (route_ok bytes (sb_set_reading false (ln_backend l)) H2 He) as (s' & fr & re & E & Hp & E1 & E2 & E3 & E4).
      rewrite E. cbn [mbind outcome_bind]. eexists. split; [reflexivity|].
      destruct (run_returns_fields (sb_set_reading true s')) as (F1 & F2 & F3 & F4 & F5).
      apply link_ok_reads; auto; rewrite ?F1, ?F2, ?F3, ?F4, ?F5; assumption.
    + cbn [mbind outcome_bind]. eexists. split; [reflexivity|].
      destruct (run_returns_fields (sb_set_reading false (ln_backend l))) as (F1 & F2 & F3 & F4 & F5).
      apply link_ok_reads; auto; rewrite ?F1, ?F2, ?F3, ?F4, ?F5; auto.
  - destruct (sb_posted (ln_backend l)) as [|data posted] eqn:Ep; [eauto|]. destruct (sb_worker _); [|eauto].
    destruct (posted_ok l data posted Ep H) as (s' & E & H'). rewrite E. cbn [mbind outcome_bind].
    eexists. split; [reflexivity|]. apply run_returns_ok, H'.
  - destruct (sb_worker _ && sb_writing _) eqn:Ew; [|eauto]. apply andb_true_iff in Ew as [_ Ew].
    destruct (write_ok l failed Ew H) as (s' & E & H'). rewrite E. cbn [mbind outcome_bind]. eexists. split; [reflexivity|].
    destruct (run_returns_fields s') as (F1 & F2 & F3 & F4 & F5).
    destruct H' as [K1 K2 K3 K4 K5]. split; cbn in *; unfold pending in *; rewrite ?F1, ?F2, ?F3, ?F4, ?F5; assumption.
Qed.

(** *** Lines of a stream *)

Lemma split_lines_app a : forall b cur,
  split_lines (a ++ b) cur =
    (fst (split_lines a cur) ++ fst (split_lines b (snd (split_lines a cur))), snd (split_lines b (snd (split_lines a cur)))).
Proof.
  induction a as [|c a IH]; intros b cur; cbn [app split_lines].
  - cbn. destruct (split_lines b cur); reflexivity.
  - destruct (Ascii.eqb c kFrameDelimiter).
    + rewrite IH. destruct (split_lines a []) as [ls r]. cbn. reflexivity.
    + apply IH.
Qed.

Lemma split_lines_plain l : forall cur, existsb (fun c => Ascii.eqb c kFrameDelimiter) l = false -> split_lines l cur = ([], cur ++ l).
Proof.
  induction l as [|c l IH]; intros cur H; cbn in *; [rewrite app_nil_r; reflexivity|].
  apply orb_false_iff in H as [Hc Hl]. rewrite Hc, IH, <- app_assoc by exact Hl. reflexivity.
Qed.

(** A partial line is part of the line it becomes. *)
Lemma split_lines_grows l : forall cur, (length cur <= length (hd (snd (split_lines l cur)) (fst (split_lines l cur))))%nat.
Proof.
  induction l as [|c l IH]; intros cur; cbn; [lia|]. destruct (Ascii.eqb c kFrameDelimiter).
  - destruct (split_lines l []); cbn; lia.
  - specialize (IH (cur ++ [c])). rewrite length_app in IH. cbn in IH. lia.
Qed.

Lemma split_rest_plain l : forall cur, existsb (fun c => Ascii.eqb c kFrameDelimiter) cur = false ->
  existsb (fun c => Ascii.eqb c kFrameDelimiter) (snd (split_lines l cur)) = false.
Proof.
  induction l as [|c l IH]; intros cur H; cbn; [exact H|]. destruct (Ascii.eqb c kFrameDelimiter) eqn:E.
  - specialize (IH [] eq_refl). destruct (split_lines l []); exact IH.
  - apply IH. rewrite existsb_app, H. cbn. rewrite E. reflexivity.
Qed.

(** The parser over a list of chunks. *)
Fixpoint line_consume_all (buffer_ : chars) (parts : list chars) : list SerialReading * chars :=
  match parts with
  | [] => ([], buffer_)
  | part :: parts =>
      let (r1, b1) := line_consume buffer_ part in
      let (r2, b2) := line_consume_all b1 parts in (r1 ++ r2, b2)
  end.

Definition short (line : chars) : Prop := (length line <= kMaxBufferBytes)%nat.

(** No line longer than the buffer: the cuts do not matter. *)
Lemma line_chunking parts : forall buffer_,
  existsb (fun c => Ascii.eqb c kFrameDelimiter) buffer_ = false ->
  Forall short (fst (split_lines (concat parts) buffer_)) -> short (snd (split_lines (concat parts) buffer_)) ->
  line_consume_all buffer_ parts = (omap parseLine (fst (split_lines (concat parts) buffer_)), snd (split_lines (concat parts) buffer_)).
Proof.
  induction parts as [|part parts IH]; intros buffer_ Hb Hl Hr; [reflexivity|]. cbn [concat] in *.
  assert (E0 : split_lines (buffer_ ++ part) [] = split_lines part buffer_).
  { rewrite split_lines_app, (split_lines_plain buffer_ []) by exact Hb. cbn. destruct (split_lines part buffer_); reflexivity. }
  pose proof (split_lines_app part (concat parts) buffer_) as E. rewrite E in *. cbn [fst snd] in *. clear E.
  cbn [line_consume_all]. unfold line_consume. rewrite E0. pose proof (split_rest_plain part buffer_ Hb) as Hp.
  destruct (split_lines part buffer_) as [ls r]. cbn [fst snd] in *.
  apply Forall_app in Hl as [Hl1 Hl2].
  assert (Hs : short r).
  { pose proof (split_lines_grows (concat parts) r) as Hg. unfold short in *. destruct (split_lines (concat parts) r) as [[|l2 ls2] r2]; cbn in *; [lia|].
    apply Forall_cons in Hl2 as [Hl2 _]. lia. }
  unfold short in Hs. rewrite (proj2 (Nat.ltb_ge _ _)) by exact Hs.
  rewrite (IH r Hp Hl2 Hr), omap_app. reflexivity.
Qed.

(** A reading as a device sends it. *)
Definition plain_field (s : string) : Prop :=
  s <> "" /\ Forall (fun c => c <> kFieldDelimiter /\ c <> kFrameDelimiter /\ c <> kCarriageReturn) (chars_of s).
Definition reading_ok (r : SerialReading) : Prop :=
  plain_field (sensorId r) /\ plain_field (value r) /\
  (length (chars_of (sensorId r)) + length (chars_of (value r)) + 2 <= kMaxBufferBytes)%nat.

Definition reading_line (crlf : bool) (r : SerialReading) : chars :=
  chars_of (sensorId r) ++ kFieldDelimiter :: chars_of (value r) ++ (if crlf then [kCarriageReturn] else []).

Lemma plain_no c s : plain_field s -> c = kFieldDelimiter \/ c = kFrameDelimiter \/ c = kCarriageReturn ->
  existsb (fun x => Ascii.eqb x c) (chars_of s) = false.
Proof.
  intros [_ H] Hc. induction H as [|x l (H1 & H2 & H3) _ IH]; [reflexivity|]. cbn. rewrite IH, orb_false_r.
  apply Ascii.eqb_neq. destruct Hc as [->|[->| ->]]; assumption.
Qed.

Lemma drop_cr_snoc l : drop_cr (l ++ [kCarriageReturn]) = l.
Proof. induction l as [|c l IH]; [reflexivity|]. cbn. destruct l as [|c2 l]; [reflexivity|]. cbn in *. rewrite IH. reflexivity. Qed.

Lemma drop_cr_plain l : existsb (fun x => Ascii.eqb x kCarriageReturn) l = false -> drop_cr l = l.
Proof.
  induction l as [|c l IH]; [reflexivity|]. cbn. intros H. apply orb_false_iff in H as [Hc Hl]. rewrite Hc.
  destruct l; [reflexivity|]. rewrite IH by exact Hl. reflexivity.
Qed.

Lemma chars_nonempty s : s <> "" -> exists c l, chars_of s = c :: l.
Proof. destruct s as [|c s]; [congruence|]. intros _. exists c, (chars_of s). reflexivity. Qed.

Lemma parse_line_reads crlf r : reading_ok r -> parseLine (reading_line crlf r) = Some r.
Proof.
  intros (Hi & Hv & _). unfold parseLine.
  assert (E : drop_cr (reading_line crlf r) = chars_of (sensorId r) ++ kFieldDelimiter :: chars_of (value r)).
  { unfold reading_line. destruct crlf.
    - change (?a ++ ?c :: ?b ++ [kCarriageReturn]) with (a ++ (c :: b) ++ [kCarriageReturn]). rewrite app_assoc. apply drop_cr_snoc.
    - rewrite app_nil_r. apply drop_cr_plain. rewrite existsb_app. cbn.
      rewrite (plain_no kCarriageReturn _ Hi), (plain_no kCarriageReturn _ Hv) by auto. reflexivity. }
  rewrite E. clear E. destruct (chars_nonempty _ (proj1 Hi)) as (c1 & l1 & E1). destruct (chars_nonempty _ (proj1 Hv)) as (c2 & l2 & E2).
  assert (Hs : span (fun c => negb (Ascii.eqb c kFieldDelimiter)) (chars_of (sensorId r) ++ kFieldDelimiter :: chars_of (value r)) =
    (chars_of (sensorId r), kFieldDelimiter :: chars_of (value r))).
  { apply span_all; [|reflexivity]. destruct Hi as [_ Hi]. eapply Forall_impl; [exact Hi|]. intros c (Hc & _).
    apply negb_true_iff, Ascii.eqb_neq, Hc. }
  cbv zeta. rewrite Hs, (plain_no kFieldDelimiter _ Hv) by auto. rewrite E1, E2. cbn [app]. rewrite <- E1, <- E2, !text_of_chars.
  destruct r; reflexivity.
Qed.

(** The text of a list of readings, each with its line ending. *)
Definition readings_text (l : list (bool * SerialReading)) : chars :=
  flat_map (fun '(crlf, r) => reading_line crlf r ++ [kFrameDelimiter]) l.

Lemma line_no_lf crlf r : reading_ok r -> existsb (fun c => Ascii.eqb c kFrameDelimiter) (reading_line crlf r) = false.
Proof.
  intros (Hi & Hv & _). unfold reading_line. rewrite existsb_app. cbn. rewrite existsb_app.
  rewrite (plain_no kFrameDelimiter _ Hi), (plain_no kFrameDelimiter _ Hv) by auto. destruct crlf; reflexivity.
Qed.

Lemma readings_split l : Forall (fun x => reading_ok (snd x)) l ->
  split_lines (readings_text l) [] = (map (fun '(crlf, r) => reading_line crlf r) l, []).
Proof.
  induction 1 as [|[crlf r] l Hr _ IH]; [reflexivity|]. cbn [readings_text flat_map map]. rewrite <- app_assoc, split_lines_app.
  rewrite (split_lines_plain _ [] (line_no_lf crlf r Hr)). cbn [fst snd app]. cbn [split_lines].
  change (Ascii.eqb kFrameDelimiter kFrameDelimiter) with true. cbn iota. fold (readings_text l). rewrite IH. reflexivity.
Qed.

Lemma readings_read l : Forall (fun x => reading_ok (snd x)) l -> forall parts, concat parts = readings_text l ->
  line_consume_all [] parts = (map snd l, []).
Proof.
  intros H parts E. rewrite line_chunking; rewrite ?E, ?(readings_split l H); cbn [fst snd]; [|reflexivity| |unfold short; cbn; lia].
  - f_equal. clear E. induction H as [|[crlf r] l Hr _ IH]; [reflexivity|]. cbn [map omap list_omap]. rewrite parse_line_reads by exact Hr.
    cbn [snd]. f_equal. exact IH.
  - clear E. induction H as [|[crlf r] l Hr _ IH]; constructor; [|exact IH]. destruct Hr as (_ & _ & Hr). cbn [snd] in *. unfold short, reading_line.
    rewrite !length_app. cbn [length]. rewrite length_app. destruct crlf; cbn [length]; lia.
Qed.

(** *** A session *)

(** The read loop runs: the port is open and no read has failed. *)
Record session (l : Link) : Prop := {
  se_running : sb_running (ln_backend l) = true;
  se_reading : sb_reading (ln_backend l) = true;
  se_worker : sb_worker (ln_backend l) = true;
}.

(** Events other than stopping and a failed read. *)
Definition in_session (e : serial_event) : Prop := match e with SvStop | SvRead None => False | _ => True end.

Definition chunks_of (es : list serial_event) : list (list Z) :=
  omap (fun e => match e with SvRead (Some c) => Some c | _ => None end) es.

(** An event without a chunk leaves the read side alone. *)
Lemma session_other sink e l l' :
  session l -> in_session e -> (forall c, e <> SvRead (Some c)) -> link_step sink e l = Ret l' ->
  session l' /\ sb_flash (ln_backend l') = sb_flash (ln_backend l) /\ sb_lines (ln_backend l') = sb_lines (ln_backend l) /\
  ln_frames l' = ln_frames l /\ ln_readings l' = ln_readings l.
Proof.
  intros S He Hc. pose proof S as [S1 S2 S3].
  assert (RR : forall s, sb_reading s = true -> run_returns s = s) by (intros s Hs; unfold run_returns; rewrite Hs; reflexivity).
  destruct e as [opened| |bytes|[c|]| |failed]; try contradiction; cbn [link_step].
  - unfold serial_start. rewrite S1. intros [= <-]. auto.
  - unfold serial_send. rewrite S1. intros [= <-]. repeat split; assumption.
  - destruct (Hc c eq_refl).
  - destruct (sb_posted (ln_backend l)) as [|data posted]; [intros [= <-]; auto|]. rewrite S3. intros Hb.
    apply bind_ret_inv in Hb as (s' & E & [= <-]).
    assert (Hs : exists q w, s' = sb_writes posted q w (ln_backend l)).
    { destruct data; cbn [posted_handler] in E; [injection E as <-; eauto|]. case_decide; [|injection E as <-; eauto].
      unfold writeNext in E. repeat case_match; try discriminate. injection E as <-. eauto. }
    destruct Hs as (q & w & ->). rewrite RR by exact S2. repeat split; assumption.
  - rewrite S3. destruct (sb_writing (ln_backend l)) eqn:Ew; cbn [andb]; [|intros [= <-]; auto]. intros Hb.
    apply bind_ret_inv in Hb as (s' & E & [= <-]).
    assert (Hs : exists q w, s' = sb_writes (sb_posted (ln_backend l)) q w (ln_backend l)).
    { unfold write_handler in E. destruct failed; [injection E as <-; eauto|]. unfold writeNext in E. repeat case_match; try discriminate; injection E as <-; eauto. }
    destruct Hs as (q & w & ->). rewrite RR by exact S2. repeat split; assumption.
Qed.

(** A chunk. *)
Lemma session_chunk sink c l o p' :
  session l -> consume (sb_flash (ln_backend l)) c = Ret (Some (o, p')) ->
  exists l', link_step sink (SvRead (Some c)) l = Ret l' /\ session l' /\ sb_flash (ln_backend l') = p' /\
    ln_frames l' = ln_frames l ++ (if sink then frames o else []) /\
    (let (r, b) := line_consume (sb_lines (ln_backend l)) (map chr (text o)) in
     ln_readings l' = ln_readings l ++ r /\ sb_lines (ln_backend l') = b).
Proof.
  intros [S1 S2 S3] E. cbn [link_step]. rewrite S2, S3. cbn [andb read_handler]. unfold routeChunk. cbn [sb_set_reading sb_flash sb_lines].
  rewrite E. cbn [mbind outcome_bind]. destruct (line_consume _ _) as [r b] eqn:El. cbn [mbind outcome_bind].
  eexists. split; [reflexivity|]. unfold run_returns. cbn. repeat split; auto.
  destruct sink; [reflexivity|rewrite app_nil_r; reflexivity].
Qed.

Lemma session_reads sink es : forall l o p',
  session l -> link_ok l -> Forall in_session es -> Forall serial_event_ok es ->
  consume_all (sb_flash (ln_backend l)) (chunks_of es) = Ret (Some (o, p')) ->
  exists l' parts, link_run sink es l = Ret l' /\ session l' /\ concat parts = map chr (text o) /\
    sb_flash (ln_backend l') = p' /\ ln_frames l' = ln_frames l ++ (if sink then frames o else []) /\
    (let (r, b) := line_consume_all (sb_lines (ln_backend l)) parts in
     ln_readings l' = ln_readings l ++ r /\ sb_lines (ln_backend l') = b).
Proof.
  induction es as [|e es IH]; intros l o p' S K Hin Hok E.
  - injection E as <- <-. exists l, []. cbn. rewrite !app_nil_r. destruct sink; rewrite ?app_nil_r; auto 10.
  - apply Forall_cons in Hin as [Hi Hin]. apply Forall_cons in Hok as [He Hok]. cbn [link_run].
    assert (Hcase : (exists c, e = SvRead (Some c)) \/ (forall c, e <> SvRead (Some c))).
    { destruct e as [| | |[c|]| |]; eauto; right; congruence. }
    destruct Hcase as [[c ->]|Hno].
    + change (chunks_of (SvRead (Some c) :: es)) with (c :: chunks_of es) in E. cbn [consume_all] in E.
      apply bind_ret_inv in E as ([[o1 p1]|] & E1 & E); [|discriminate].
      apply bind_ret_inv in E as ([[o2 p2]|] & E2 & E); [|discriminate]. injection E as <- <-.
      destruct (session_chunk sink c l o1 p1 S E1) as (l1 & R1 & S1 & F1 & Fr1 & L1).
      destruct (link_step_ok sink _ l K He) as (l1' & R1' & K1). assert (l1' = l1) as -> by congruence.
      rewrite R1. cbn [mbind outcome_bind]. rewrite <- F1 in E2.
      destruct (IH l1 o2 p2 S1 K1 Hin Hok E2) as (l' & parts & R & S' & Ec & F' & Fr & L).
      exists l', (map chr (text o1) :: parts). split; [exact R|]. split; [exact S'|].
      split; [cbn; rewrite Ec, map_app; reflexivity|]. split; [exact F'|].
      split; [rewrite Fr, Fr1; destruct sink; cbn; rewrite <- ?app_assoc, ?app_nil_r; reflexivity|].
      cbn [line_consume_all]. destruct (line_consume _ _) as [r1 b1]. destruct L1 as [L1 L2]. rewrite L2 in L.
      destruct (line_consume_all b1 parts) as [r2 b2]. destruct L as [L3 L4]. rewrite L3, L1, <- app_assoc. auto.
    + assert (Ech : chunks_of (e :: es) = chunks_of es) by (destruct e as [| | |[c|]| |]; try reflexivity; destruct (Hno c eq_refl)).
      rewrite Ech in E. destruct (link_step_ok sink e l K He) as (l1 & R1 & K1).
      destruct (session_other sink e l l1 S Hi Hno R1) as (S1 & F1 & L1 & Fr1 & Re1).
      rewrite R1. cbn [mbind outcome_bind]. rewrite <- F1 in E.
      destruct (IH l1 o p' S1 K1 Hin Hok E) as (l' & parts & R & S' & Ec & F' & Fr & L).
      exists l', parts. rewrite Fr1 in Fr. rewrite L1, Re1 in L. auto 10.
Qed.

(** The text of a stream without false bytes: characters as bytes and back. *)
Lemma chr_code c : chr (code c) = c.
Proof. unfold chr, code. rewrite N2Z.id. apply ascii_N_embedding. Qed.
Lemma chars_of_codes l : map chr (map code l) = l.
Proof. induction l as [|c l IH]; [reflexivity|]. cbn. rewrite chr_code, IH. reflexivity. Qed.

Lemma started_session : exists l, link_step true (SvStart true) link_init = Ret l /\ link_step false (SvStart true) link_init = Ret l /\
  session l /\ link_ok l /\ ln_backend l = mkSerial true parser_init [] 0 true [] [] false true /\ ln_frames l = [] /\ ln_readings l = [].
Proof.
  eexists. split; [reflexivity|]. split; [reflexivity|]. split; [split; reflexivity|].
  split; [|auto]. split; cbn; auto using parser_init_ok.
Qed.

Lemma link_init_ok : link_ok link_init.
Proof. split; cbn; auto using parser_init_ok; discriminate. Qed.

Lemma link_run_ok sink es : forall l, link_ok l -> Forall serial_event_ok es -> exists l', link_run sink es l = Ret l' /\ link_ok l'.
Proof.
  induction es as [|e es IH]; intros l K H; [exists l; auto|]. apply Forall_cons in H as [He H].
  destruct (link_step_ok sink e l K He) as (l1 & E & K1). cbn [link_run]. rewrite E. apply IH; assumption.
Qed.

(** After a failed read nothing is pending: the worker is gone. *)
Record deaf (l : Link) : Prop := {
  de_running : sb_running (ln_backend l) = true;
  de_worker : sb_worker (ln_backend l) = false;
  de_written : ln_written l = [];
}.

Lemma deaf_stays sink es : forall l, deaf l -> Forall (fun e => e <> SvStop) es -> exists l', link_run sink es l = Ret l' /\ deaf l'.
Proof.
  induction es as [|e es IH]; intros l D H; [exists l; auto|]. apply Forall_cons in H as [He H]. pose proof D as [D1 D2 D3].
  assert (exists l1, link_step sink e l = Ret l1 /\ deaf l1) as (l1 & E & D').
  { destruct e; cbn [link_step]; unfold serial_start, serial_send; rewrite ?D1, ?D2; cbn [andb]; try congruence;
      try (destruct (sb_posted (ln_backend l))); eexists; (split; [reflexivity|]); try exact D; split; cbn; auto. }
  cbn [link_run]. rewrite E. apply IH; assumption.
Qed.

(** The vocabulary. *)
Lemma command_spec r n b :
  toEquipmentStateCommand r = Some (mkCommand n b) <->
  exists ds, chars_of (sensorId r) = kPrefix ++ ds ++ kSuffix /\ ds <> [] /\ all_digits ds /\ digits_val ds = n /\ n <= 4294967295 /\
    on_off (chars_of (value r)) = Some b.
Proof.
  unfold toEquipmentStateCommand. set (id := chars_of (sensorId r)). split.
  - destruct (Nat.leb_spec (length id) (length kPrefix + length kSuffix)) as [|Hlen]; [discriminate|].
    destruct (bool_decide_reflect (take (length kPrefix) id = kPrefix)) as [Ep|]; [|discriminate].
    destruct (bool_decide_reflect (drop (length id - length kSuffix) id = kSuffix)) as [Es|]; [|discriminate]. cbn [negb orb].
    set (ds := take _ (drop (length kPrefix) id)).
    assert (Eid : id = kPrefix ++ ds ++ kSuffix).
    { rewrite <- (take_drop (length kPrefix) id) at 1. rewrite Ep. f_equal.
      rewrite <- (take_drop (length id - length kPrefix - length kSuffix) (drop (length kPrefix) id)). fold ds. f_equal.
      rewrite drop_drop. etransitivity; [|exact Es]. f_equal. lia. }
    unfold from_chars_u32. destruct (span isdigit ds) as [a rest] eqn:E. apply span_spec in E as (E & Ha & _).
    destruct a as [|x a]; [discriminate|]. destruct (Z.leb_spec (digits_val (x :: a)) 4294967295) as [Hn|]; [|discriminate].
    destruct rest; [|discriminate]. rewrite app_nil_r in E. unfold option_map. destruct (on_off _) eqn:Eo; [|discriminate]. intros [= <- <-].
    exists ds. rewrite E at 2 3 4. split; [exact Eid|]. split; [discriminate|]. auto.
  - intros (ds & Eid & Hne & Hd & <- & Hn & Ho). rewrite Eid.
    assert (Hl : (length kPrefix + length kSuffix < length (kPrefix ++ ds ++ kSuffix))%nat).
    { rewrite !length_app. destruct ds; [congruence|]. cbn [length]. lia. }
    rewrite (proj2 (Nat.leb_gt _ _) Hl).
    rewrite take_app_length, (bool_decide_eq_true_2 (kPrefix = kPrefix)) by reflexivity.
    assert (Ed : drop (length (kPrefix ++ ds ++ kSuffix) - length kSuffix) (kPrefix ++ ds ++ kSuffix) = kSuffix).
    { rewrite app_assoc, length_app, Nat.add_sub. apply drop_app_length. }
    rewrite Ed, (bool_decide_eq_true_2 (kSuffix = kSuffix)) by reflexivity. cbn [negb orb].
    rewrite drop_app_length, !length_app.
    replace (length kPrefix + (length ds + length kSuffix) - length kPrefix - length kSuffix)%nat with (length ds) by lia.
    rewrite take_app_length. unfold from_chars_u32. pose proof (span_all isdigit ds [] Hd I) as Hs. rewrite app_nil_r in Hs. rewrite Hs.
    destruct ds as [|x ds]; [congruence|]. rewrite (proj2 (Z.leb_le _ _) Hn), Ho. reflexivity.
Qed.

(* ------------------------------------------------------------------ *)
(** ** Properties *)

(** The serial link separates what the device sends. When a device
    interleaves flash frames with telemetry lines, down to a frame inside a
    line, and the bytes arrive in any pieces, between any sends and writes,
    the frame sink is given exactly the frames and the reading sink exactly
    the readings, each in order, and nothing is left over. *)
Theorem serial_stream_separated (sink : bool) items rs es :
  Forall item_ok items -> Forall (fun x => reading_ok (snd x)) rs ->
  text (items_out items) = map code (readings_text rs) ->
  Forall in_session es -> Forall serial_event_ok es -> concat (chunks_of es) = flat_map item_bytes items ->
  exists l, link_run sink (SvStart true :: es) link_init = Ret l /\
    ln_readings l = map snd rs /\ ln_frames l = (if sink then frames (items_out items) else []) /\
    sb_flash (ln_backend l) = parser_init /\ sb_lines (ln_backend l) = [].
Proof.
  intros Hi Hr Ht Hin Hok Hc. destruct started_session as (l0 & E1 & E2 & S & K & Eb & Ef & Er).
  assert (Hall : consume_all (sb_flash (ln_backend l0)) (chunks_of es) = Ret (Some (items_out items, parser_init))).
  { rewrite Eb. cbn [sb_flash]. rewrite (consume_all_parses (chunks_of es) parser_init (items_out items) [] 0); [reflexivity|apply parser_init_ok| |].
    - apply Forall_concat. rewrite Hc. apply Forall_flat_map. eapply Forall_impl; [exact Hi|]. apply item_bytes_ok.
    - cbn [buffer_ parser_init app]. rewrite Hc. apply parses_items, Hi. }
  destruct (session_reads sink es l0 _ _ S K Hin Hok Hall) as (l & parts & R & _ & Ep & F & Fr & L).
  exists l. cbn [link_run]. destruct sink; [rewrite E1|rewrite E2]; cbn [mbind outcome_bind]; rewrite Eb, Er in L; cbn [sb_lines] in L;
    rewrite Ht, chars_of_codes in Ep; rewrite (readings_read rs Hr parts Ep) in L; destruct L as [L1 L2];
    rewrite Fr, Ef; auto.
Qed.

(** Messages are written in order, one at a time. Whatever happens to the
    link, no write starts while another is pending and the handlers never
    touch an empty queue; what was written in a session is a subsequence of
    what [send] accepted, each message at most once and in order; and while no
    write has failed, every accepted message is written or still to come. *)
Theorem serial_writes_in_order (sink : bool) es :
  Forall serial_event_ok es ->
  exists l, link_run sink es link_init = Ret l /\ ln_written l `sublist_of` nonempty (ln_accepted l) /\
    (ln_failed l = false -> sb_running (ln_backend l) = true -> ln_written l ++ pending (ln_backend l) = nonempty (ln_accepted l)).
Proof.
  intros H. destruct (link_run_ok sink es link_init link_init_ok H) as (l & E & [_ _ _ Ho Hc]).
  exists l. split; [exact E|]. split; [|exact Hc].
  etransitivity; [|exact Ho]. apply sublist_inserts_r. reflexivity.
Qed.

(** The commands of the text protocol. A reading switches line [n] exactly
    when its sensor is [equipment/<digits of n>/state], with [n] a 32-bit
    number, and its value is one of the on/off words. *)
Theorem serial_command_meaning r n b :
  toEquipmentStateCommand r = Some (mkCommand n b) <->
  exists ds, chars_of (sensorId r) = kPrefix ++ ds ++ kSuffix /\ ds <> [] /\ all_digits ds /\ digits_val ds = n /\ n <= 4294967295 /\
    on_off (chars_of (value r)) = Some b.
Proof. apply command_spec. Qed.

(** A read error ends the link silently. After it the backend still reports
    that it runs and [send] still accepts messages, but none is ever
    written, whatever happens until it is stopped. *)
Theorem serial_read_error_unnoticed_refuted (sink : bool) :
  exists l, link_run sink [SvStart true; SvRead None] link_init = Ret l /\ sb_isRunning (ln_backend l) = true /\
    (forall bytes, fst (serial_send bytes (ln_backend l)) = true) /\
    forall es, Forall (fun e => e <> SvStop) es -> exists l', link_run sink es l = Ret l' /\ ln_written l' = [].
Proof.
  eexists. split; [reflexivity|]. split; [reflexivity|]. split; [reflexivity|].
  intros es H. edestruct (deaf_stays sink es) as (l' & E & D); [|exact H|exists l'; split; [exact E|apply D]]. split; reflexivity.
Qed.

(* ------------------------------------------------------------------ *)
(** ** Witnesses *)

Definition demo_lines : list (bool * SerialReading) :=
  [(false, mkReading "equipment/2/state" "on"); (true, mkReading "temp" "23.5")].
Definition demo_text : list Z := map code (readings_text demo_lines).
Definition demo_stream : list item := map IText (take 5 demo_text) ++ [IFrame demo_frame] ++ map IText (drop 5 demo_text).
Definition demo_stream_bytes : list Z := flat_map item_bytes demo_stream.
Definition demo_session : list serial_event :=
  [SvSend [1; 2]; SvRead (Some (take 9 demo_stream_bytes)); SvPosted; SvWrite true; SvRead (Some (drop 9 demo_stream_bytes)); SvPosted].

Lemma demo_stream_ok : Forall item_ok demo_stream.
Proof.
  assert (H : Forall (fun b => item_ok (IText b)) demo_text).
  { apply Forall_forall. intros b Hb. assert (Hc : forallb (fun b => (0 <=? b) && (b <? 256) && negb (b =? kFlashStartByte)) demo_text = true) by (vm_compute; reflexivity).
    rewrite forallb_forall in Hc. apply list_elem_of_In, Hc in Hb. rewrite !andb_true_iff, negb_true_iff in Hb. cbn. unfold is_u8. lia. }
  unfold demo_stream. apply Forall_app. split; [apply Forall_map, Forall_take, H|]. apply Forall_app.
  split; [constructor; [exact demo_frame_ok|constructor]|apply Forall_map, Forall_drop, H].
Qed.

Lemma demo_bytes_ok : bytes_ok demo_stream_bytes.
Proof. apply Forall_flat_map. eapply Forall_impl; [exact demo_stream_ok|]. apply item_bytes_ok. Qed.

Lemma demo_session_ok : Forall serial_event_ok demo_session.
Proof.
  unfold demo_session.
  apply Forall_cons. split; [cbn; bytes_lit|].
  apply Forall_cons. split; [apply Forall_take, demo_bytes_ok|].
  apply Forall_cons. split; [exact I|]. apply Forall_cons. split; [exact I|].
  apply Forall_cons. split; [apply Forall_drop, demo_bytes_ok|].
  apply Forall_cons. split; [exact I|]. apply Forall_nil. exact I.
Qed.

Lemma demo_lines_ok : Forall (fun x => reading_ok (snd x)) demo_lines.
Proof.
  assert (P : forall s, s <> "" -> forallb (fun c => negb (Ascii.eqb c kFieldDelimiter || Ascii.eqb c kFrameDelimiter || Ascii.eqb c kCarriageReturn)) (chars_of s) = true -> plain_field s).
  { intros s Hs H. split; [exact Hs|]. rewrite forallb_forall in H. apply Forall_forall. intros c Hc. apply list_elem_of_In, H in Hc.
    rewrite negb_true_iff, !orb_false_iff, !Ascii.eqb_neq in Hc. tauto. }
  repeat (apply Forall_cons; split; [split; [apply P; [discriminate|reflexivity]|split; [apply P; [discriminate|reflexivity]|cbn; unfold kMaxBufferBytes; lia]]|]).
  apply Forall_nil. exact I.
Qed.

Lemma serial_stream_separated_witness :
  exists l, link_run true (SvStart true :: demo_session) link_init = Ret l /\
    ln_readings l = map snd demo_lines /\ ln_frames l = frames (items_out demo_stream) /\
    sb_flash (ln_backend l) = parser_init /\ sb_lines (ln_backend l) = [].
Proof.
  apply (serial_stream_separated true demo_stream demo_lines demo_session demo_stream_ok demo_lines_ok).
  - vm_compute. reflexivity.
  - repeat (apply Forall_cons; split; [exact I|]). apply Forall_nil. exact I.
  - exact demo_session_ok.
  - vm_compute. reflexivity.
Defined.

Lemma serial_writes_in_order_witness :
  exists l, link_run false (SvStart true :: demo_session) link_init = Ret l /\ ln_written l `sublist_of` nonempty (ln_accepted l) /\
    (ln_failed l = false -> sb_running (ln_backend l) = true -> ln_written l ++ pending (ln_backend l) = nonempty (ln_accepted l)).
Proof. apply (serial_writes_in_order false). constructor; [exact I|exact demo_session_ok]. Defined.
