(* ===== verification/OtaSession.v ===== *)
(** * The firmware-update session
    (src/integration/OtaSession.{h,cpp})

    The declarative transition table as a list of rows (guard, action,
    destination) scanned first match first, the context the actions write,
    and the public calls start, onFrame and onTick. Times are Z in clock
    ticks of one millisecond; the caller passes the clock, as in the code.
    Properties: what the session may put on the wire whatever the board
    answers, the bound on its effort, the refusal of a wrong version, and the
    complete update of a board that follows the protocol document, through
    the byte-level frame codec. *)
From stdpp Require Import pretty.
From S2P Require Import Prelude Wire FlashFrame FlashParser.

Inductive OtaStage :=
| Idle | Probing | Beginning | Sending | Committing | Rebooting | Rechecking
| Confirming | Done | Failed.

#[export] Instance OtaStage_eq_dec : EqDecision OtaStage.
Proof. solve_decision. Defined.

Inductive OtaFailure := NoFailure | BoardRefused | NoAnswer | ProtocolError | WrongVersion.

#[export] Instance OtaFailure_eq_dec : EqDecision OtaFailure.
Proof. solve_decision. Defined.

Definition kOtaAnswerTimeout : Z := 2000.
Definition kOtaBeginAnswerTimeout : Z := 2025.
Definition kOtaRebootWait : Z := 500.
Definition kOtaResendBudget : Z := 3.

Record Timing := mkTiming {
  answer : Z;
  beginAnswer : Z;
  reboot : Z;
  budget : Z;          (**r [resends] *)
}.

Definition defaultTiming : Timing :=
  mkTiming kOtaAnswerTimeout kOtaBeginAnswerTimeout kOtaRebootWait kOtaResendBudget.

Definition kInfoReq : Z := 1.
Definition kBegin : Z := 2.
Definition kData : Z := 3.
Definition kCommit : Z := 4.
Definition kConfirm : Z := 5.
Definition kInfo : Z := 129.
Definition kAck : Z := 130.
Definition kNak : Z := 131.
Definition kNakBadCrc : Z := 1.
Definition kInfoPayloadBytes : nat := 6.
Definition kInfoVersionAt : nat := 0.
Definition kInfoStateAt : nat := 5.
Definition kStateConfirmed : Z := 0.
Definition kStateTrial : Z := 1.
Definition kDataChunkBytes : Z := 256.
Definition kFlashWordBytes : Z := 8.
Definition kErasedByte : Z := 255.

(** [appendLittleEndian32(out, value)]: four rounds of [(value >> shift) & 0xFF]. *)
Definition appendLittleEndian32 (out : list Z) (value : Z) : list Z :=
  out ++ map (fun shift => Z.land (Z.shiftr value shift) 255) [0; 8; 16; 24].

(** [readLittleEndian32(&buf[at])]. *)
Definition readLittleEndian32 (buf : list Z) (at_ : nat) : outcome Z :=
  b0 ← vec_get buf at_;
  b1 ← vec_get buf (at_ + 1);
  b2 ← vec_get buf (at_ + 2);
  b3 ← vec_get buf (at_ + 3);
  Ret (Z.lor (Z.lor (Z.lor (Z.lor 0 b0) (u32 (Z.shiftl b1 8))) (u32 (Z.shiftl b2 16)))
         (u32 (Z.shiftl b3 24))).

(* ------------------------------------------------------------------ *)
(** ** Context *)

Record Context := mkContext {
  image : list Z;
  version : Z;
  timing : Timing;
  now_ : Z;
  outbox : list Z;
  inFlight : list Z;
  seq : Z;
  resends : Z;
  waitFor : Z;
  deadline : Z;
  waitingOut : bool;
  chunkBytes : Z;
  sentBytes : Z;
  boardVersion : Z;
  boardState : Z;
  alreadyUpToDate : bool;
  failure : OtaFailure;
  nakCode : Z;
}.

Definition set_now_ (x : Z) (c : Context) : Context :=
  mkContext (image c) (version c) (timing c) x (outbox c) (inFlight c) (seq c) (resends c)
    (waitFor c) (deadline c) (waitingOut c) (chunkBytes c) (sentBytes c) (boardVersion c)
    (boardState c) (alreadyUpToDate c) (failure c) (nakCode c).
Definition set_outbox (x : list Z) (c : Context) : Context :=
  mkContext (image c) (version c) (timing c) (now_ c) x (inFlight c) (seq c) (resends c)
    (waitFor c) (deadline c) (waitingOut c) (chunkBytes c) (sentBytes c) (boardVersion c)
    (boardState c) (alreadyUpToDate c) (failure c) (nakCode c).
Definition set_inFlight (x : list Z) (c : Context) : Context :=
  mkContext (image c) (version c) (timing c) (now_ c) (outbox c) x (seq c) (resends c)
    (waitFor c) (deadline c) (waitingOut c) (chunkBytes c) (sentBytes c) (boardVersion c)
    (boardState c) (alreadyUpToDate c) (failure c) (nakCode c).
Definition set_seq (x : Z) (c : Context) : Context :=
  mkContext (image c) (version c) (timing c) (now_ c) (outbox c) (inFlight c) x (resends c)
    (waitFor c) (deadline c) (waitingOut c) (chunkBytes c) (sentBytes c) (boardVersion c)
    (boardState c) (alreadyUpToDate c) (failure c) (nakCode c).
Definition set_resends (x : Z) (c : Context) : Context :=
  mkContext (image c) (version c) (timing c) (now_ c) (outbox c) (inFlight c) (seq c) x
    (waitFor c) (deadline c) (waitingOut c) (chunkBytes c) (sentBytes c) (boardVersion c)
    (boardState c) (alreadyUpToDate c) (failure c) (nakCode c).
Definition set_waitFor (x : Z) (c : Context) : Context :=
  mkContext (image c) (version c) (timing c) (now_ c) (outbox c) (inFlight c) (seq c)
    (resends c) x (deadline c) (waitingOut c) (chunkBytes c) (sentBytes c) (boardVersion c)
    (boardState c) (alreadyUpToDate c) (failure c) (nakCode c).
Definition set_deadline (x : Z) (c : Context) : Context :=
  mkContext (image c) (version c) (timing c) (now_ c) (outbox c) (inFlight c) (seq c)
    (resends c) (waitFor c) x (waitingOut c) (chunkBytes c) (sentBytes c) (boardVersion c)
    (boardState c) (alreadyUpToDate c) (failure c) (nakCode c).
Definition set_waitingOut (x : bool) (c : Context) : Context :=
  mkContext (image c) (version c) (timing c) (now_ c) (outbox c) (inFlight c) (seq c)
    (resends c) (waitFor c) (deadline c) x (chunkBytes c) (sentBytes c) (boardVersion c)
    (boardState c) (alreadyUpToDate c) (failure c) (nakCode c).
Definition set_chunkBytes (x : Z) (c : Context) : Context :=
  mkContext (image c) (version c) (timing c) (now_ c) (outbox c) (inFlight c) (seq c)
    (resends c) (waitFor c) (deadline c) (waitingOut c) x (sentBytes c) (boardVersion c)
    (boardState c) (alreadyUpToDate c) (failure c) (nakCode c).
Definition set_sentBytes (x : Z) (c : Context) : Context :=
  mkContext (image c) (version c) (timing c) (now_ c) (outbox c) (inFlight c) (seq c)
    (resends c) (waitFor c) (deadline c) (waitingOut c) (chunkBytes c) x (boardVersion c)
    (boardState c) (alreadyUpToDate c) (failure c) (nakCode c).
Definition set_boardVersion (x : Z) (c : Context) : Context :=
  mkContext (image c) (version c) (timing c) (now_ c) (outbox c) (inFlight c) (seq c)
    (resends c) (waitFor c) (deadline c) (waitingOut c) (chunkBytes c) (sentBytes c) x
    (boardState c) (alreadyUpToDate c) (failure c) (nakCode c).
Definition set_boardState (x : Z) (c : Context) : Context :=
  mkContext (image c) (version c) (timing c) (now_ c) (outbox c) (inFlight c) (seq c)
    (resends c) (waitFor c) (deadline c) (waitingOut c) (chunkBytes c) (sentBytes c)
    (boardVersion c) x (alreadyUpToDate c) (failure c) (nakCode c).
Definition set_alreadyUpToDate (x : bool) (c : Context) : Context :=
  mkContext (image c) (version c) (timing c) (now_ c) (outbox c) (inFlight c) (seq c)
    (resends c) (waitFor c) (deadline c) (waitingOut c) (chunkBytes c) (sentBytes c)
    (boardVersion c) (boardState c) x (failure c) (nakCode c).
Definition set_failure (x : OtaFailure) (c : Context) : Context :=
  mkContext (image c) (version c) (timing c) (now_ c) (outbox c) (inFlight c) (seq c)
    (resends c) (waitFor c) (deadline c) (waitingOut c) (chunkBytes c) (sentBytes c)
    (boardVersion c) (boardState c) (alreadyUpToDate c) x (nakCode c).
Definition set_nakCode (x : Z) (c : Context) : Context :=
  mkContext (image c) (version c) (timing c) (now_ c) (outbox c) (inFlight c) (seq c)
    (resends c) (waitFor c) (deadline c) (waitingOut c) (chunkBytes c) (sentBytes c)
    (boardVersion c) (boardState c) (alreadyUpToDate c) (failure c) x.

(** [send(type, payload, within)]. *)
Definition send (type : Z) (pl : list Z) (within : Z) (c : Context) : outcome Context :=
  let c := set_seq (u16 (seq c + 1)) c in
  bytes ← encodeFlashFrame (mkFrame type (seq c) pl);
  let c := set_inFlight bytes c in
  let c := set_resends 0 c in
  let c := set_waitFor within c in
  let c := set_deadline (now_ c + within) c in
  let c := set_waitingOut false c in
  Ret (set_outbox (inFlight c) c).

Definition resend (c : Context) : Context :=
  let c := set_resends (resends c + 1) c in
  let c := set_deadline (now_ c + waitFor c) c in
  set_outbox (inFlight c) c.

(** [while ((payload.size() - 4) % 8 != 0) payload.push_back(0xFF)]: fewer
    than eight rounds. *)
Fixpoint pad_loop (fuel : nat) (pl : list Z) : list Z :=
  if (Z.of_nat (length pl) - 4) mod kFlashWordBytes =? 0 then pl
  else match fuel with O => pl | S fuel => pad_loop fuel (pl ++ [kErasedByte]) end.

(** [payload.insert(end, begin, begin + n)]: an iterator past the end of the
    image is undefined behaviour. *)
Definition image_range (l : list Z) (off n : Z) : outcome (list Z) :=
  if decide (0 <= off /\ 0 <= n /\ off + n <= Z.of_nat (length l))
  then Ret (slice (Z.to_nat off) (Z.to_nat n) l) else Undef.

Definition sendDataChunk (c : Context) : outcome Context :=
  let remaining := u64 (Z.of_nat (length (image c)) - sentBytes c) in
  let c := set_chunkBytes (Z.min kDataChunkBytes remaining) c in
  let pl := appendLittleEndian32 [] (u32 (sentBytes c)) in
  chunk ← image_range (image c) (sentBytes c) (chunkBytes c);
  let pl := pad_loop 7 (pl ++ chunk) in
  send kData pl (answer (timing c)) c.

Definition stopWith (why : OtaFailure) (code : Z) (c : Context) : Context :=
  set_outbox [] (set_inFlight [] (set_nakCode code (set_failure why c))).

(* ------------------------------------------------------------------ *)
(** ** Events, guards, actions *)

Inductive event :=
| EvStart
| EvAck
| EvInfo (ver st : Z)
| EvNak (code : Z)
| EvTimeout
| EvRebootDone.

(** The event type a row is declared for. *)
Inductive event_kind := KStart | KAck | KInfo | KNak | KTimeout | KRebootDone.

#[export] Instance event_kind_eq_dec : EqDecision event_kind.
Proof. solve_decision. Defined.

Definition kind_of (e : event) : event_kind :=
  match e with
  | EvStart => KStart | EvAck => KAck | EvInfo _ _ => KInfo | EvNak _ => KNak
  | EvTimeout => KTimeout | EvRebootDone => KRebootDone
  end.

Definition info_version (e : event) : Z := match e with EvInfo v _ => v | _ => 0 end.
Definition info_state (e : event) : Z := match e with EvInfo _ s => s | _ => 0 end.
Definition nak_code (e : event) : Z := match e with EvNak c => c | _ => 0 end.

Definition imageSize (c : Context) : Z := Z.of_nat (length (image c)).

Definition kHasImage (c : Context) (e : event) : bool := negb (imageSize c =? 0).
Definition kNoImage (c : Context) (e : event) : bool := imageSize c =? 0.
Definition kIsConfirmedTarget (c : Context) (e : event) : bool :=
  (info_version e =? version c) && (info_state e =? kStateConfirmed).
Definition kIsTrialTarget (c : Context) (e : event) : bool :=
  (info_version e =? version c) && (info_state e =? kStateTrial).
Definition kNeedsUpdate (c : Context) (e : event) : bool := negb (info_version e =? version c).
Definition kIsTargetVersion (c : Context) (e : event) : bool := info_version e =? version c.
Definition kIsOtherVersion (c : Context) (e : event) : bool := negb (info_version e =? version c).
Definition kMoreToSend (c : Context) (e : event) : bool :=
  u64 (sentBytes c + chunkBytes c) <? imageSize c.
Definition kAllSent (c : Context) (e : event) : bool :=
  imageSize c <=? u64 (sentBytes c + chunkBytes c).
Definition kCanResend (c : Context) (e : event) : bool := resends c <? budget (timing c).
Definition kDamagedAndCanResend (c : Context) (e : event) : bool :=
  (nak_code e =? kNakBadCrc) && (resends c <? budget (timing c)).
Definition kRefusedOrSpent (c : Context) (e : event) : bool :=
  negb (nak_code e =? kNakBadCrc) || (budget (timing c) <=? resends c).
Definition always (c : Context) (e : event) : bool := true.

Definition kSendInfoReq (c : Context) (e : event) : outcome Context :=
  send kInfoReq [] (answer (timing c)) c.
Definition kSendBegin (c : Context) (e : event) : outcome Context :=
  let c := set_boardState (info_state e) (set_boardVersion (info_version e) c) in
  let pl := appendLittleEndian32 [] (u32 (imageSize c)) in
  let pl := appendLittleEndian32 pl (crc32IsoHdlc (image c)) in
  let pl := appendLittleEndian32 pl (version c) in
  send kBegin pl (beginAnswer (timing c)) c.
Definition kSendFirstChunk (c : Context) (e : event) : outcome Context :=
  sendDataChunk (set_chunkBytes 0 (set_sentBytes 0 c)).
Definition kAckChunkAndSendNext (c : Context) (e : event) : outcome Context :=
  sendDataChunk (set_sentBytes (u64 (sentBytes c + chunkBytes c)) c).
Definition kAckChunkAndCommit (c : Context) (e : event) : outcome Context :=
  let c := set_chunkBytes 0 (set_sentBytes (u64 (sentBytes c + chunkBytes c)) c) in
  send kCommit [] (answer (timing c)) c.
Definition kWaitOutReboot (c : Context) (e : event) : outcome Context :=
  let c := set_waitingOut true (set_outbox [] (set_inFlight [] c)) in
  Ret (set_deadline (now_ c + reboot (timing c)) c).
Definition kSendConfirm (c : Context) (e : event) : outcome Context :=
  let c := set_boardState (info_state e) (set_boardVersion (info_version e) c) in
  send kConfirm [] (answer (timing c)) c.
Definition kFinish (c : Context) (e : event) : outcome Context :=
  Ret (set_outbox [] (set_inFlight [] c)).
Definition kFinishUpToDate (c : Context) (e : event) : outcome Context :=
  let c := set_boardState (info_state e) (set_boardVersion (info_version e) c) in
  let c := set_alreadyUpToDate true c in
  Ret (set_outbox [] (set_inFlight [] c)).
Definition kResendInFlight (c : Context) (e : event) : outcome Context := Ret (resend c).
Definition kFailEmptyImage (c : Context) (e : event) : outcome Context :=
  Ret (stopWith ProtocolError 0 c).
Definition kFailRefused (c : Context) (e : event) : outcome Context :=
  Ret (stopWith BoardRefused (nak_code e) c).
Definition kFailSilent (c : Context) (e : event) : outcome Context :=
  Ret (stopWith NoAnswer 0 c).
Definition kFailWrongVersion (c : Context) (e : event) : outcome Context :=
  Ret (stopWith WrongVersion 0 (set_boardVersion (info_version e) c)).

(* ------------------------------------------------------------------ *)
(** ** The transition table *)

Inductive state :=
| idle | probing | beginning | sending | committing | rebooting | rechecking
| confirming | done | failed.

#[export] Instance state_eq_dec : EqDecision state.
Proof. solve_decision. Defined.

Record row := mkRow {
  src : state;
  on : event_kind;
  guard : Context -> event -> bool;
  action : Context -> event -> outcome Context;
  dst : state;
}.

Definition OtaTable : list row := [
  mkRow idle KStart kHasImage kSendInfoReq probing;
  mkRow idle KStart kNoImage kFailEmptyImage failed;

  mkRow probing KInfo kIsConfirmedTarget kFinishUpToDate done;
  mkRow probing KInfo kIsTrialTarget kSendConfirm confirming;
  mkRow probing KInfo kNeedsUpdate kSendBegin beginning;

  mkRow beginning KAck always kSendFirstChunk sending;
  mkRow sending KAck kMoreToSend kAckChunkAndSendNext sending;
  mkRow sending KAck kAllSent kAckChunkAndCommit committing;
  mkRow committing KAck always kWaitOutReboot rebooting;
  mkRow rebooting KRebootDone always kSendInfoReq rechecking;

  mkRow rechecking KInfo kIsTargetVersion kSendConfirm confirming;
  mkRow rechecking KInfo kIsOtherVersion kFailWrongVersion failed;
  mkRow confirming KAck always kFinish done;

  mkRow probing KNak kDamagedAndCanResend kResendInFlight probing;
  mkRow beginning KNak kDamagedAndCanResend kResendInFlight beginning;
  mkRow sending KNak kDamagedAndCanResend kResendInFlight sending;
  mkRow committing KNak kDamagedAndCanResend kResendInFlight committing;
  mkRow rechecking KNak kDamagedAndCanResend kResendInFlight rechecking;
  mkRow confirming KNak kDamagedAndCanResend kResendInFlight confirming;

  mkRow probing KNak kRefusedOrSpent kFailRefused failed;
  mkRow beginning KNak kRefusedOrSpent kFailRefused failed;
  mkRow sending KNak kRefusedOrSpent kFailRefused failed;
  mkRow committing KNak kRefusedOrSpent kFailRefused failed;
  mkRow rechecking KNak kRefusedOrSpent kFailRefused failed;
  mkRow confirming KNak kRefusedOrSpent kFailRefused failed;

  mkRow probing KTimeout kCanResend kResendInFlight probing;
  mkRow beginning KTimeout kCanResend kResendInFlight beginning;
  mkRow sending KTimeout kCanResend kResendInFlight sending;
  mkRow committing KTimeout kCanResend kResendInFlight committing;
  mkRow rechecking KTimeout kCanResend kResendInFlight rechecking;
  mkRow confirming KTimeout kCanResend kResendInFlight confirming;

  mkRow probing KTimeout always kFailSilent failed;
  mkRow beginning KTimeout always kFailSilent failed;
  mkRow sending KTimeout always kFailSilent failed;
  mkRow committing KTimeout always kFailSilent failed;
  mkRow rechecking KTimeout always kFailSilent failed;
  mkRow confirming KTimeout always kFailSilent failed
].

(** [OtaSession::Impl]: the context and the state machine's current state. *)
Record OtaSession := mkSession {
  ctx : Context;
  sm : state;
}.

Definition row_matches (s : OtaSession) (e : event) (r : row) : bool :=
  bool_decide (src r = sm s) && bool_decide (on r = kind_of e) && guard r (ctx s) e.

(** [sm.process_event(event)]: the first row that matches; [false] when none
    does. *)
Definition process_event (s : OtaSession) (e : event) : outcome (bool * OtaSession) :=
  match List.find (row_matches s e) OtaTable with
  | None => Ret (false, s)
  | Some r => c ← action r (ctx s) e; Ret (true, mkSession c (dst r))
  end.

Definition dispatch (s : OtaSession) (e : event) (now : Z) : outcome (list Z * OtaSession) :=
  let s := mkSession (set_outbox [] (set_now_ now (ctx s))) (sm s) in
  r ← process_event s e;
  match r with
  | (false, s) => Ret ([], mkSession (stopWith ProtocolError 0 (ctx s)) (sm s))
  | (true, s) => Ret (outbox (ctx s), s)
  end.

Definition stage (s : OtaSession) : OtaStage :=
  if negb (bool_decide (failure (ctx s) = NoFailure)) then Failed else
  match sm s with
  | done => Done
  | failed => Failed
  | probing => Probing
  | beginning => Beginning
  | sending => Sending
  | committing => Committing
  | rebooting => Rebooting
  | rechecking => Rechecking
  | confirming => Confirming
  | idle => Idle
  end.

(** [OtaSession(image, version, timing)]. *)
Definition make (image : list Z) (version : Z) (timing : Timing) : OtaSession :=
  mkSession (mkContext image version timing 0 [] [] 0 0 0 0 false 0 0 0 kStateConfirmed
               false NoFailure 0) idle.

Definition start (s : OtaSession) (now : Z) : outcome (list Z * OtaSession) :=
  if negb (bool_decide (stage s = Idle)) then Ret ([], s) else
  let s := mkSession (set_outbox [] (set_now_ now (ctx s))) (sm s) in
  r ← process_event s EvStart;
  Ret (outbox (ctx r.2), r.2).

(** The [Idle || Done || Failed] early return. *)
Definition inactive (s : OtaSession) : bool :=
  match stage s with Idle | Done | Failed => true | _ => false end.

Definition protocol_error (s : OtaSession) : OtaSession :=
  mkSession (stopWith ProtocolError 0 (ctx s)) (sm s).

Definition onFrame (s : OtaSession) (frame : FlashFrame) (now : Z) :
    outcome (list Z * OtaSession) :=
  if inactive s then Ret ([], s) else
  if negb (type_ frame =? kInfo) && negb (seq_ frame =? seq (ctx s)) then Ret ([], s) else
  if type_ frame =? kAck then dispatch s EvAck now
  else if type_ frame =? kNak then
    if bool_decide (payload frame = []) then Ret ([], protocol_error s)
    else code ← vec_get (payload frame) 0; dispatch s (EvNak code) now
  else if type_ frame =? kInfo then
    if negb (length (payload frame) =? kInfoPayloadBytes)%nat then Ret ([], protocol_error s)
    else
      v ← readLittleEndian32 (payload frame) kInfoVersionAt;
      st ← vec_get (payload frame) kInfoStateAt;
      dispatch s (EvInfo v st) now
  else Ret ([], protocol_error s).

Definition onTick (s : OtaSession) (now : Z) : outcome (list Z * OtaSession) :=
  if inactive s then Ret ([], s) else
  if now <? deadline (ctx s) then Ret ([], s) else
  if waitingOut (ctx s) then
    dispatch (mkSession (set_waitingOut false (ctx s)) (sm s)) EvRebootDone now
  else dispatch s EvTimeout now.

Definition bytesAcknowledged (s : OtaSession) : Z := sentBytes (ctx s).
Definition wasAlreadyUpToDate (s : OtaSession) : bool := alreadyUpToDate (ctx s).

(** [std::format("{:02X}", code)] of a byte. *)
Definition hex_digit (d : Z) : string :=
  nth (Z.to_nat d) ["0"; "1"; "2"; "3"; "4"; "5"; "6"; "7"; "8"; "9";
                    "A"; "B"; "C"; "D"; "E"; "F"]%string "?"%string.
Definition hex2 (b : Z) : string := (hex_digit (b / 16) ++ hex_digit (b mod 16))%string.

Definition failureText (s : OtaSession) : string :=
  let c := ctx s in
  match failure c with
  | NoFailure => ""
  | BoardRefused => "the board refused the update, NAK code 0x" ++ hex2 (nakCode c)
  | NoAnswer =>
      "the board stopped answering after " ++ pretty (budget (timing c)) ++ " resends"
  | ProtocolError =>
      if bool_decide (image c = []) then "the image is empty, nothing to send"
      else "the board sent a frame the protocol does not allow at this point"
  | WrongVersion =>
      "after the update the board reports version " ++ pretty (boardVersion c) ++ ", not " ++
      pretty (version c)
  end%string.

(** Every public call that changes the session. *)
Inductive input :=
| IStart (now : Z)
| IFrameIn (f : FlashFrame) (now : Z)
| ITick (now : Z).

Definition feed (s : OtaSession) (i : input) : outcome (list Z * OtaSession) :=
  match i with
  | IStart now => start s now
  | IFrameIn f now => onFrame s f now
  | ITick now => onTick s now
  end.

(** A whole conversation: the outputs in order and the final session. *)
Fixpoint feed_all (s : OtaSession) (l : list input) : outcome (list (list Z) * OtaSession) :=
  match l with
  | [] => Ret ([], s)
  | i :: l =>
      '(o, s) ← feed s i;
      '(os, s) ← feed_all s l;
      Ret (o :: os, s)
  end.

(* ------------------------------------------------------------------ *)
(** ** Specification: what is in flight in each state *)

(** The image bytes of a DATA frame, padded to the flash word. *)
Definition padded (l : list Z) : list Z :=
  l ++ replicate (Z.to_nat ((- Z.of_nat (length l)) mod kFlashWordBytes)) kErasedByte.

Definition data_payload (c : Context) : list Z :=
  le32 (u32 (sentBytes c)) ++
  padded (slice (Z.to_nat (sentBytes c)) (Z.to_nat (chunkBytes c)) (image c)).

Definition begin_payload (c : Context) : list Z :=
  le32 (u32 (imageSize c)) ++ le32 (crc32IsoHdlc (image c)) ++ le32 (version c).

(** The one frame the protocol puts in flight in each state. *)
Definition expected_frame (s : OtaSession) : option FlashFrame :=
  let c := ctx s in
  match sm s with
  | probing | rechecking => Some (mkFrame kInfoReq (seq c) [])
  | beginning => Some (mkFrame kBegin (seq c) (begin_payload c))
  | sending => Some (mkFrame kData (seq c) (data_payload c))
  | committing => Some (mkFrame kCommit (seq c) [])
  | confirming => Some (mkFrame kConfirm (seq c) [])
  | idle | rebooting | done | failed => None
  end.

Definition config_ok (c : Context) : Prop :=
  bytes_ok (image c) /\ is_u32 (version c) /\ imageSize c < 18446744073709551616.

(** Progress of the transfer in each state. *)
Definition progress_ok (s : OtaSession) : Prop :=
  let c := ctx s in
  match sm s with
  | idle => sentBytes c = 0 /\ chunkBytes c = 0
  | probing | beginning => 0 < imageSize c /\ sentBytes c = 0 /\ chunkBytes c = 0
  | sending => 0 <= sentBytes c < imageSize c /\
               chunkBytes c = Z.min kDataChunkBytes (imageSize c - sentBytes c)
  | committing | rebooting | rechecking =>
      0 < imageSize c /\ sentBytes c = imageSize c /\ chunkBytes c = 0
  | confirming | done =>
      boardVersion c = version c /\ (sentBytes c = 0 \/ sentBytes c = imageSize c) /\
      chunkBytes c = 0
  | failed => False
  end.

Definition budget_of (c : Context) : Z := Z.max 0 (budget (timing c)).

Definition flight_ok (s : OtaSession) : Prop :=
  match expected_frame s with
  | Some f => frame_ok f /\ inFlight (ctx s) = frame_bytes f
  | None => True
  end.

Definition waiting_ok (s : OtaSession) : Prop :=
  waitingOut (ctx s) = bool_decide (sm s = rebooting).

(** The session invariant. Once stopped, only the configuration matters. *)
Definition inv0 (s : OtaSession) : Prop :=
  config_ok (ctx s) /\ is_u16 (seq (ctx s)) /\
  0 <= sentBytes (ctx s) <= imageSize (ctx s) /\
  (failure (ctx s) = NoFailure ->
     0 <= resends (ctx s) <= budget_of (ctx s) /\ progress_ok s /\ flight_ok s).

Definition inv (s : OtaSession) : Prop :=
  inv0 s /\ (failure (ctx s) = NoFailure -> waiting_ok s).

(** Frames and clock values the caller can pass. *)
Definition input_ok (i : input) : Prop :=
  match i with IFrameIn f _ => frame_ok f | _ => True end.

Definition same_config (c c' : Context) : Prop :=
  image c' = image c /\ version c' = version c /\ timing c' = timing c.

(** Data frames still to be sent after the one in flight. *)
Definition chunks_left (c : Context) : Z :=
  (imageSize c - sentBytes c - chunkBytes c + 255) / 256.

(** Bound on the inputs a session can still react to: frames to be sent,
    each at most [1 + budget] times, plus the reboot and the final step. *)
Definition effort (s : OtaSession) : Z :=
  let c := ctx s in
  let per := 1 + budget_of c in
  let left_ := budget_of c - resends c in
  if bool_decide (failure c = NoFailure) then
    match sm s with
    | idle => (chunks_left c + 5) * per + 2
    | probing => (chunks_left c + 4) * per + left_ + 2
    | beginning => (chunks_left c + 3) * per + left_ + 2
    | sending => (chunks_left c + 3) * per + left_ + 2
    | committing => 2 * per + left_ + 2
    | rebooting => 2 * per + 1
    | rechecking => per + left_ + 1
    | confirming => left_ + 1
    | done | failed => 0
    end
  else 0.

(** What one reaction of a live session guarantees. *)
Definition good (s : OtaSession) (o : list Z) (s' : OtaSession) : Prop :=
  inv s' /\ same_config (ctx s) (ctx s') /\
  (o = [] \/ (failure (ctx s') = NoFailure /\
              exists f, expected_frame s' = Some f /\ o = frame_bytes f)) /\
  effort s' < effort s.

(** A session that reacts to frames and ticks. *)
Definition live (s : OtaSession) : Prop :=
  failure (ctx s) = NoFailure /\ sm s <> idle /\ sm s <> done /\ sm s <> failed.

(* ------------------------------------------------------------------ *)
(** ** Lemmas: encoding *)

Lemma append32_le32 out v : is_u32 v -> appendLittleEndian32 out v = out ++ le32 v.
Proof.
  intros H. unfold appendLittleEndian32, le32, is_u32 in *. f_equal. cbn [map].
  rewrite !land_255, !Z.shiftr_div_pow2 by lia.
  change (2 ^ 0) with 1. change (2 ^ 8) with 256. change (2 ^ 16) with 65536.
  change (2 ^ 24) with 16777216. rewrite Z.div_1_r.
  rewrite (Z.mod_small (v / 16777216)) by zdm. reflexivity.
Qed.

Lemma read32_of_le32 (a b c d : Z) rest :
  is_u8 a -> is_u8 b -> is_u8 c -> is_u8 d ->
  readLittleEndian32 (a :: b :: c :: d :: rest) 0 = Ret (of_le32 a b c d).
Proof.
  unfold is_u8, readLittleEndian32, of_le32. intros.
  unfold vec_get. cbn. f_equal.
  rewrite !u32_id by (unfold is_u32; rewrite Z.shiftl_mul_pow2 by lia; lia).
  change (Z.lor 0 a) with a.
  rewrite (lor_shiftl_add' b a 8), (lor_shiftl_add' c _ 16), (lor_shiftl_add' d _ 24) by lia.
  lia.
Qed.

Lemma pad_loop_padded4 n pl body :
  length pl = 4%nat -> (n <= 7)%nat ->
  (- Z.of_nat (length body)) mod kFlashWordBytes <= Z.of_nat n ->
  pad_loop n (pl ++ body) = pl ++ padded body.
Proof.
  unfold kFlashWordBytes. intros Hpl. revert body. induction n as [|n IH]; intros body Hn Hb.
  all: cbn [pad_loop]; rewrite length_app, Hpl; unfold kFlashWordBytes, padded.
  all: replace (Z.of_nat (4 + length body) - 4) with (Z.of_nat (length body)) by lia.
  - replace (_ =? 0) with true by (symmetry; apply Z.eqb_eq; zdm).
    replace (Z.to_nat _) with 0%nat by (unfold kFlashWordBytes; zdm). rewrite app_nil_r. reflexivity.
  - destruct (Z.eqb_spec (Z.of_nat (length body) mod 8) 0) as [E|E].
    + replace (Z.to_nat _) with 0%nat by (unfold kFlashWordBytes; zdm). rewrite app_nil_r. reflexivity.
    + rewrite <- app_assoc, IH; [|lia|rewrite length_app; cbn [length]; zdm].
      unfold padded, kFlashWordBytes. rewrite <- !app_assoc. do 2 f_equal.
      rewrite length_app. cbn [length app].
      replace (Z.to_nat (- Z.of_nat (length body) mod 8)) with
        (S (Z.to_nat (- Z.of_nat (length body + 1) mod 8))) by zdm.
      reflexivity.
Qed.

Lemma padded_length l :
  Z.of_nat (length (padded l)) = Z.of_nat (length l) + (- Z.of_nat (length l)) mod kFlashWordBytes.
Proof.
  unfold padded. rewrite length_app, length_replicate.
  pose proof (Z.mod_pos_bound (- Z.of_nat (length l)) kFlashWordBytes). unfold kFlashWordBytes in *. lia.
Qed.

Lemma padded_ok l : bytes_ok l -> bytes_ok (padded l).
Proof.
  intros H. apply bytes_ok_app. split; [exact H|]. apply Forall_replicate.
  unfold is_u8, kErasedByte. lia.
Qed.

Lemma crc32_range l : bytes_ok l -> is_u32 (crc32IsoHdlc l).
Proof.
  intros H. unfold crc32IsoHdlc, kCrc32FinalXor.
  apply (lxor_bound _ _ 32); [lia| |lia].
  assert (Hb : forall c, 0 <= c < 2 ^ 32 -> 0 <= crc32_bit c < 2 ^ 32).
  { intros c Hc. unfold crc32_bit. rewrite Z.shiftr_div_pow2 by lia.
    destruct (negb _); [apply lxor_bound; [lia| |unfold kCrc32ReflectedPolynomial; lia]|];
      change (2 ^ 1) with 2; zdm. }
  assert (Hi : 0 <= kCrc32Initial < 2 ^ 32) by (unfold kCrc32Initial; lia).
  revert Hi. generalize kCrc32Initial. induction H as [|b l Hbyte _ IH]; intros c Hc; [exact Hc|].
  apply IH. unfold crc32_byte.
  assert (Hx : 0 <= Z.lxor c b < 2 ^ 32) by (apply lxor_bound; unfold is_u8 in Hbyte; lia).
  revert Hx. generalize (Z.lxor c b). intros z Hz.
  cbn [Nat.iter nat_rect]. do 8 apply Hb. exact Hz.
Qed.
#[export] Hint Resolve crc32_range : hmi.

(* ------------------------------------------------------------------ *)
(** ** Lemmas: the table *)

(** The table read as a case analysis: what each state does on each event. *)
Lemma process_event_eq s e :
  process_event s e =
    let fire act d := c ← act (ctx s) e; Ret (true, mkSession c d) in
    let unhandled := Ret (false, s) in
    match sm s, kind_of e with
    | idle, KStart =>
        if kHasImage (ctx s) e then fire kSendInfoReq probing
        else if kNoImage (ctx s) e then fire kFailEmptyImage failed else unhandled
    | probing, KInfo =>
        if kIsConfirmedTarget (ctx s) e then fire kFinishUpToDate done
        else if kIsTrialTarget (ctx s) e then fire kSendConfirm confirming
        else if kNeedsUpdate (ctx s) e then fire kSendBegin beginning else unhandled
    | beginning, KAck => fire kSendFirstChunk sending
    | sending, KAck =>
        if kMoreToSend (ctx s) e then fire kAckChunkAndSendNext sending
        else if kAllSent (ctx s) e then fire kAckChunkAndCommit committing else unhandled
    | committing, KAck => fire kWaitOutReboot rebooting
    | rebooting, KRebootDone => fire kSendInfoReq rechecking
    | rechecking, KInfo =>
        if kIsTargetVersion (ctx s) e then fire kSendConfirm confirming
        else if kIsOtherVersion (ctx s) e then fire kFailWrongVersion failed else unhandled
    | confirming, KAck => fire kFinish done
    | (probing | beginning | sending | committing | rechecking | confirming), KNak =>
        if kDamagedAndCanResend (ctx s) e then fire kResendInFlight (sm s)
        else if kRefusedOrSpent (ctx s) e then fire kFailRefused failed else unhandled
    | (probing | beginning | sending | committing | rechecking | confirming), KTimeout =>
        if kCanResend (ctx s) e then fire kResendInFlight (sm s) else fire kFailSilent failed
    | _, _ => unhandled
    end.
Proof.
  destruct s as [c st].
  destruct st; destruct e;
    cbv beta zeta iota delta [process_event row_matches List.find OtaTable ctx sm src on guard action dst kind_of];
    repeat match goal with |- context [bool_decide ?P] =>
      let v := eval vm_compute in (bool_decide P) in change (bool_decide P) with v end;
    cbv beta iota delta [andb always];
    repeat match goal with |- context [if ?g then _ else _] => destruct g end; reflexivity.
Qed.

Lemma send_ret ty pl within c :
  frame_ok (mkFrame ty (u16 (seq c + 1)) pl) ->
  send ty pl within c =
    let f := frame_bytes (mkFrame ty (u16 (seq c + 1)) pl) in
    Ret (set_outbox f (set_waitingOut false (set_deadline (now_ c + within)
           (set_waitFor within (set_resends 0 (set_inFlight f
             (set_seq (u16 (seq c + 1)) c))))))).
Proof.
  intros Hf. unfold send. cbn [seq set_seq].
  rewrite (encode_frame_bytes _ Hf). reflexivity.
Qed.

Lemma frame_ok_intro ty sq pl :
  is_u8 ty -> is_u16 sq -> bytes_ok pl -> (length pl <= 260)%nat ->
  frame_ok (mkFrame ty sq pl).
Proof.
  intros. unfold frame_ok, kFlashMaxPayloadBytes. cbn [type_ seq_ payload].
  split_and!; try assumption. lia.
Qed.

Lemma data_payload_ok c :
  config_ok c -> bytes_ok (data_payload c) /\
  (chunkBytes c <= 256 -> (length (data_payload c) <= 260)%nat).
Proof.
  intros (Himg & _ & _). unfold data_payload. split.
  - apply bytes_ok_app. split; [auto with hmi|]. apply padded_ok, bytes_ok_slice, Himg.
  - intros Hc. rewrite length_app. unfold le32. cbn [length].
    pose proof (padded_length (slice (Z.to_nat (sentBytes c)) (Z.to_nat (chunkBytes c)) (image c))) as H.
    assert (Hs : (length (slice (Z.to_nat (sentBytes c)) (Z.to_nat (chunkBytes c)) (image c)) <= 256)%nat)
      by (unfold slice; rewrite length_take; lia).
    unfold kFlashWordBytes in H. zdm.
Qed.

Lemma begin_payload_ok c :
  config_ok c -> bytes_ok (begin_payload c) /\ length (begin_payload c) = 12%nat.
Proof.
  intros (Himg & Hv & _). unfold begin_payload. split; [|reflexivity].
  rewrite !bytes_ok_app. split_and!; auto with hmi.
Qed.

(** [sendDataChunk] in closed form. *)
Lemma sendDataChunk_ret c :
  config_ok c -> 0 <= sentBytes c <= imageSize c ->
  sendDataChunk c =
    let c := set_chunkBytes (Z.min kDataChunkBytes (imageSize c - sentBytes c)) c in
    send kData (data_payload c) (answer (timing c)) c.
Proof.
  intros (Himg & Hv & Hsz) Hs. unfold imageSize in *. unfold sendDataChunk.
  rewrite u64_id by lia. cbn [image sentBytes chunkBytes set_chunkBytes timing].
  set (n := Z.min _ _). unfold image_range.
  rewrite decide_True by (unfold n, kDataChunkBytes; lia).
  cbn [mbind outcome_bind]. rewrite append32_le32 by auto with hmi. cbn [app].
  rewrite pad_loop_padded4; [reflexivity|reflexivity|lia|].
  unfold kFlashWordBytes. zdm.
Qed.

(** Conversion unfolds the actions before the sending routines they call. *)
#[global] Strategy 10 [sendDataChunk].
#[global] Strategy 20 [send resend stopWith].
#[global] Strategy 30 [encodeFlashFrame frame_bytes crc16CcittFalse crc32IsoHdlc].

(* ------------------------------------------------------------------ *)
(** ** Lemmas: one reaction *)

Lemma effort_pos s :
  inv0 s -> failure (ctx s) = NoFailure -> sm s <> done -> sm s <> failed -> 0 < effort s.
Proof.
  intros (Hc & _ & Hs & Hl) Hf Hd Hx. destruct (Hl Hf) as (Hr & Hp & _).
  unfold effort. rewrite bool_decide_eq_true_2 by exact Hf.
  assert (0 <= chunks_left (ctx s)).
  { unfold chunks_left. apply Z.div_pos; [|lia].
    destruct s as [c []]; cbn [sm ctx] in *; unfold progress_ok, kDataChunkBytes in Hp; cbn in Hp; lia. }
  destruct (sm s); try contradiction; nia.
Qed.

Lemma good_fail s s' :
  inv0 s -> failure (ctx s) = NoFailure -> sm s <> done -> sm s <> failed ->
  same_config (ctx s) (ctx s') -> seq (ctx s') = seq (ctx s) ->
  sentBytes (ctx s') = sentBytes (ctx s) -> failure (ctx s') <> NoFailure ->
  good s [] s'.
Proof.
  intros Hi Hf Hd Hx (Ei & Ev & Et) Eq Es Hf'.
  pose proof (effort_pos s Hi Hf Hd Hx) as He. destruct Hi as (Hc & Hq & Hs & _).
  unfold good, inv, inv0, config_ok, same_config, imageSize in *.
  rewrite Ei, Ev, Et, Eq, Es. split_and!; auto; try tauto.
  unfold effort at 1. rewrite bool_decide_eq_false_2 by exact Hf'. exact He.
Qed.

Lemma send_seq_ok c : is_u16 (u16 (seq c + 1)).
Proof. apply u16_range. Qed.

(** [send] of a well-formed frame leads to a good session, given the
    destination's progress and effort. *)
Lemma good_send s c ty pl within d :
  config_ok c -> same_config (ctx s) c -> failure c = NoFailure ->
  is_u8 ty -> bytes_ok pl -> (length pl <= 260)%nat ->
  0 <= sentBytes c <= imageSize c ->
  (forall c', image c' = image c -> version c' = version c -> sentBytes c' = sentBytes c ->
     chunkBytes c' = chunkBytes c -> boardVersion c' = boardVersion c -> timing c' = timing c ->
     progress_ok (mkSession c' d) /\
     expected_frame (mkSession c' d) = Some (mkFrame ty (seq c') pl) /\
     (failure c' = NoFailure -> resends c' = 0 -> effort (mkSession c' d) < effort s)) ->
  exists c', send ty pl within c = Ret c' /\ good s (outbox c') (mkSession c' d).
Proof.
  intros Hc Hcfg Hf Hty Hpl Hlen Hs Hd.
  assert (Hfr : frame_ok (mkFrame ty (u16 (seq c + 1)) pl))
    by (apply frame_ok_intro; auto using send_seq_ok).
  rewrite (send_ret _ _ _ _ Hfr). cbv zeta. eexists. split; [reflexivity|].
  set (c' := set_outbox _ _).
  destruct (Hd c' eq_refl eq_refl eq_refl eq_refl eq_refl eq_refl) as (Hp & He & Hm).
  assert (Hf' : failure c' = NoFailure) by exact Hf.
  unfold good, inv, inv0, flight_ok, waiting_ok. rewrite He. cbn [ctx sm].
  split; [split; [|intros _]|].
  - split; [exact Hc|]. split; [apply send_seq_ok|]. split; [exact Hs|]. intros _.
    split; [change (resends c') with 0; unfold budget_of; lia|]. split; [exact Hp|].
    split; [exact Hfr|reflexivity].
  - change (waitingOut c') with false. symmetry. apply bool_decide_eq_false.
    destruct d; cbn in He; congruence.
  - split; [exact Hcfg|]. split; [right; split; [exact Hf'|eauto]|]. apply Hm; auto.
Qed.

Lemma effort_unfold s :
  failure (ctx s) = NoFailure ->
  effort s =
    let c := ctx s in
    let per := 1 + budget_of c in
    let left_ := budget_of c - resends c in
    match sm s with
    | idle => (chunks_left c + 5) * per + 2
    | probing => (chunks_left c + 4) * per + left_ + 2
    | beginning | sending => (chunks_left c + 3) * per + left_ + 2
    | committing => 2 * per + left_ + 2
    | rebooting => 2 * per + 1
    | rechecking => per + left_ + 1
    | confirming => left_ + 1
    | done | failed => 0
    end.
Proof. intros H. unfold effort. rewrite bool_decide_eq_true_2 by exact H. destruct (sm s); reflexivity. Qed.

(** Resending the frame in flight, within the budget. *)
Lemma good_resend s now :
  inv0 s -> live s -> sm s <> rebooting -> waitingOut (ctx s) = false ->
  resends (ctx s) < budget (timing (ctx s)) ->
  let c := resend (set_outbox [] (set_now_ now (ctx s))) in
  good s (outbox c) (mkSession c (sm s)).
Proof.
  intros (Hc & Hq & Hs & Hl) (Hf & Hi & Hd & Hx) Hr Hw Hb. cbv zeta.
  destruct (Hl Hf) as (Hres & Hp & Hfl).
  set (c' := resend _).
  assert (Hout : outbox c' = inFlight (ctx s)) by reflexivity.
  assert (Hf' : failure c' = NoFailure) by exact Hf.
  assert (He : expected_frame (mkSession c' (sm s)) = expected_frame s)
    by (destruct s as [c st]; reflexivity).
  assert (Hp' : progress_ok (mkSession c' (sm s))) by (destruct s as [c st]; exact Hp).
  unfold good, inv, inv0, waiting_ok, flight_ok in *. cbn [ctx sm] in *. rewrite He.
  split; [split; [|intros _]|].
  - split; [exact Hc|]. split; [exact Hq|]. split; [exact Hs|]. intros _.
    split; [change (resends c') with (resends (ctx s) + 1);
            change (budget_of c') with (budget_of (ctx s)); unfold budget_of in *; lia|].
    split; [exact Hp'|exact Hfl].
  - change (waitingOut c') with (waitingOut (ctx s)). rewrite Hw. symmetry.
    apply bool_decide_eq_false. exact Hr.
  - split; [split; [|split]; reflexivity|]. split.
    + rewrite Hout. destruct (expected_frame s) as [f|] eqn:Ef.
      * right. split; [exact Hf'|]. exists f. split; [reflexivity|]. apply Hfl.
      * exfalso. destruct s as [c st]; destruct st; cbn in *; congruence.
    + rewrite !effort_unfold by assumption. cbn [ctx sm].
      change (resends c') with (resends (ctx s) + 1).
      change (budget_of c') with (budget_of (ctx s)).
      change (chunks_left c') with (chunks_left (ctx s)).
      destruct (sm s); try contradiction; cbv zeta; lia.
Qed.

Lemma chunks_left_sent c :
  0 <= sentBytes c -> sentBytes c + chunkBytes c <= imageSize c -> 0 <= chunks_left c.
Proof. intros. unfold chunks_left. apply Z.div_pos; lia. Qed.

(** A transition that sends nothing and stays live ([kWaitOutReboot]) or
    finishes. *)
Lemma good_quiet s c d :
  config_ok c -> is_u16 (seq c) -> 0 <= sentBytes c <= imageSize c ->
  same_config (ctx s) c -> failure c = NoFailure ->
  0 <= resends c <= budget_of c -> progress_ok (mkSession c d) ->
  (d = rebooting /\ waitingOut c = true \/ d = done /\ waitingOut c = false) ->
  effort (mkSession c d) < effort s ->
  good s [] (mkSession c d).
Proof.
  intros Hc Hq Hs Hcfg Hf Hr Hp Hd He. unfold good, inv, inv0, flight_ok, waiting_ok.
  cbn [ctx sm].
  split; [split; [|intros _]|split; [exact Hcfg|split; [left; reflexivity|exact He]]].
  - split; [exact Hc|]. split; [exact Hq|]. split; [exact Hs|]. intros _.
    split; [exact Hr|]. split; [exact Hp|].
    destruct Hd as [[-> _]|[-> _]]; exact I.
  - destruct Hd as [[-> ->]|[-> ->]]; reflexivity.
Qed.

(** [solve_effort]: the effort of two concrete states. *)
Ltac solve_effort :=
  rewrite !effort_unfold by (assumption || reflexivity); cbn [ctx sm]; cbv zeta;
  unfold chunks_left, budget_of in *; cbn in *; try nia.

(** The size of the DATA frames still to come shrinks by one per ACK. *)
Lemma chunks_left_step n s :
  0 <= s < n ->
  let chunk := Z.min 256 (n - s) in
  s + chunk < n ->
  (n - (s + chunk) - Z.min 256 (n - (s + chunk)) + 255) / 256 + 1 = (n - s - chunk + 255) / 256.
Proof. cbv zeta. intros. zdm. Qed.

(** The tail of [dispatch] on the result of [process_event]. *)
Definition settle (r : bool * OtaSession) : outcome (list Z * OtaSession) :=
  match r with
  | (false, s) => Ret ([], mkSession (stopWith ProtocolError 0 (ctx s)) (sm s))
  | (true, s) => Ret (outbox (ctx s), s)
  end.

(** [reacts s m]: the result [m] of [process_event] on [s] is a good reaction. *)
Definition reacts (s : OtaSession) (m : outcome (bool * OtaSession)) : Prop :=
  exists o s', m ≫= settle = Ret (o, s') /\ good s o s'.

(** The context an event is dispatched in. *)
Definition at_time (now : Z) (c : Context) : Context := set_outbox [] (set_now_ now c).

Lemma reacts_fire s c d : good s (outbox c) (mkSession c d) -> reacts s (Ret (true, mkSession c d)).
Proof. intros H. unfold reacts. eauto. Qed.

Lemma reacts_fail s now d why code c :
  inv0 s -> live s -> why <> NoFailure -> c = at_time now (ctx s) \/
    (exists v, c = set_boardVersion v (at_time now (ctx s))) ->
  reacts s (Ret (true, mkSession (stopWith why code c) d)).
Proof.
  intros Hi (Hf & _ & Hd & Hx) Hw Hc. apply reacts_fire. cbn [outbox stopWith set_outbox].
  apply good_fail; auto; destruct Hc as [->|[v ->]]; try reflexivity; try exact Hw;
    split; [|split| |split]; reflexivity.
Qed.

Lemma reacts_miss s now d :
  inv0 s -> live s -> reacts s (Ret (false, mkSession (at_time now (ctx s)) d)).
Proof.
  intros Hi (Hf & _ & Hd & Hx). do 2 eexists. split; [reflexivity|].
  apply good_fail; auto; try discriminate; split; [|split]; reflexivity.
Qed.

Lemma reacts_timeout s now e :
  inv0 s -> live s -> sm s <> rebooting -> waitingOut (ctx s) = false ->
  let c := at_time now (ctx s) in
  reacts s (if kCanResend c e then kResendInFlight c e ≫= (fun c => Ret (true, mkSession c (sm s)))
            else kFailSilent c e ≫= (fun c => Ret (true, mkSession c failed))).
Proof.
  intros Hi Hl Hr Hw. cbv zeta. destruct (kCanResend _ e) eqn:E.
  - apply reacts_fire, good_resend; auto. apply Z.ltb_lt in E. exact E.
  - apply (reacts_fail s now failed NoAnswer 0); auto; discriminate.
Qed.

Lemma reacts_nak s now e :
  inv0 s -> live s -> sm s <> rebooting -> waitingOut (ctx s) = false ->
  let c := at_time now (ctx s) in
  reacts s (if kDamagedAndCanResend c e
            then kResendInFlight c e ≫= (fun c => Ret (true, mkSession c (sm s)))
            else if kRefusedOrSpent c e
                 then kFailRefused c e ≫= (fun c => Ret (true, mkSession c failed))
                 else Ret (false, mkSession c (sm s))).
Proof.
  intros Hi Hl Hr Hw. cbv zeta. destruct (kDamagedAndCanResend _ e) eqn:E.
  - apply reacts_fire, good_resend; auto. apply andb_prop in E as [_ E]. apply Z.ltb_lt in E. exact E.
  - destruct (kRefusedOrSpent _ e).
    + apply (reacts_fail s now failed BoardRefused (nak_code e)); auto; discriminate.
    + apply reacts_miss; assumption.
Qed.

(** [fire_send]: a transition that sends one frame. *)
Lemma reacts_send s m d :
  (exists c', m = Ret c' /\ good s (outbox c') (mkSession c' d)) ->
  reacts s (m ≫= (fun c => Ret (true, mkSession c d))).
Proof. intros (c' & -> & Hg). apply reacts_fire. exact Hg. Qed.

Lemma reacts_info_req s now d :
  inv0 s -> failure (ctx s) = NoFailure ->
  (sm s = idle /\ d = probing /\ 0 < imageSize (ctx s) \/ sm s = rebooting /\ d = rechecking) ->
  reacts s (kSendInfoReq (at_time now (ctx s)) EvStart ≫= (fun c => Ret (true, mkSession c d))).
Proof.
  intros (Hc & Hq & Hs & Hl) Hf Hd. destruct (Hl Hf) as (Hr & Hp & _).
  apply reacts_send, good_send; auto; try (cbn; lia);
    [split; [|split]; reflexivity|unfold is_u8, kInfoReq; lia|constructor|].
  intros c' Ei Ev Es Ech Eb Et. cbn in Ei, Ev, Es, Ech, Eb, Et.
  unfold progress_ok, imageSize in *. cbn [ctx sm].
  destruct Hd as [(Ed & -> & Hpos)|(Ed & ->)]; rewrite Ed in Hp; rewrite Ei, ?Es, ?Ech;
    (split; [tauto|split; [reflexivity|]]); intros Hf' Hr';
    rewrite !effort_unfold by assumption; cbn [ctx sm]; rewrite Ed; cbv zeta;
    unfold chunks_left, budget_of, imageSize in *; rewrite ?Ei, ?Es, ?Ech, Et, Hr'; lia.
Qed.

(** [ctx_lia]: arithmetic about the fields of updated contexts. *)
Ltac ctx_lia :=
  unfold progress_ok, imageSize, chunks_left, budget_of, kDataChunkBytes in *; cbn in *; lia.

(** [send_tail]: the obligations of [good_send] about the destination state. *)
Ltac send_tail :=
  let c' := fresh "c'" in
  intros c' Ei Ev Es Ech Eb Et; cbn in Ei, Ev, Es, Ech, Eb, Et;
  split; [|split; [cbn [expected_frame sm ctx]; unfold data_payload, begin_payload, imageSize;
                   rewrite ?Ei, ?Ev, ?Es, ?Ech; reflexivity
                  |intros Hf' Hr'; rewrite !effort_unfold by assumption]];
  cbn [ctx sm]; cbv zeta; unfold progress_ok, chunks_left, budget_of, imageSize in *;
  cbn [ctx sm] in *; rewrite ?Ei, ?Ev, ?Es, ?Ech, ?Eb, ?Et;
  try match goal with H : resends c' = 0 |- _ => rewrite H end.

(** [send_sides]: the side conditions of [good_send]. *)
Ltac send_sides :=
  try assumption; try (split; [|split]; reflexivity); try (unfold is_u8, kInfoReq, kBegin, kData, kCommit, kConfirm; lia);
  try (apply Forall_nil; exact I); try ctx_lia.

Lemma reacts_confirm s now ver st :
  inv0 s -> failure (ctx s) = NoFailure -> (sm s = probing \/ sm s = rechecking) ->
  ver = version (ctx s) -> is_u32 ver ->
  reacts s (kSendConfirm (at_time now (ctx s)) (EvInfo ver st)
              ≫= (fun c => Ret (true, mkSession c confirming))).
Proof.
  intros (Hc & Hq & Hs & Hl) Hf Hd -> Hv. destruct (Hl Hf) as (Hr & Hp & _).
  assert (0 <= chunks_left (ctx s)) by
    (apply chunks_left_sent; destruct s as [c st']; destruct Hd as [Ed|Ed]; cbn in Ed; subst st';
     unfold progress_ok, imageSize in *; cbn in *; lia).
  destruct s as [c st']. cbn [ctx sm] in *.
  apply reacts_send, good_send; send_sides. send_tail; destruct Hd as [->| ->]; cbn in *; try nia.
Qed.

Lemma reacts_begin s now ver st :
  inv0 s -> failure (ctx s) = NoFailure -> sm s = probing ->
  reacts s (kSendBegin (at_time now (ctx s)) (EvInfo ver st)
              ≫= (fun c => Ret (true, mkSession c beginning))).
Proof.
  intros (Hc & Hq & Hs & Hl) Hf Hd. destruct (Hl Hf) as (Hr & Hp & _).
  destruct s as [c st']. cbn [ctx sm] in *. subst st'.
  destruct (begin_payload_ok c Hc) as [Hb Hlen].
  unfold kSendBegin. cbv zeta. rewrite !append32_le32 by
    (try apply crc32_range; try apply Hc; apply u32_range). cbn [app]. rewrite <- app_assoc.
  apply reacts_send. apply (good_send _ _ kBegin (begin_payload c)); send_sides.
  send_tail; nia.
Qed.

Lemma reacts_first_chunk s now e :
  inv0 s -> failure (ctx s) = NoFailure -> sm s = beginning ->
  reacts s (kSendFirstChunk (at_time now (ctx s)) e ≫= (fun c => Ret (true, mkSession c sending))).
Proof.
  intros (Hc & Hq & Hs & Hl) Hf Hd. destruct (Hl Hf) as (Hr & Hp & _).
  destruct s as [c st']. cbn [ctx sm] in *. subst st'. cbn in Hp.
  unfold kSendFirstChunk. rewrite sendDataChunk_ret; [|exact Hc|ctx_lia]. cbv zeta.
  apply reacts_send. set (c1 := set_chunkBytes _ _).
  assert (Hc1 : config_ok c1) by exact Hc.
  destruct (data_payload_ok c1 Hc1) as [Hb Hlen].
  apply good_send; send_sides.
  send_tail; unfold kDataChunkBytes in *; cbn in *; [lia|].
  destruct Hp as (Hn & Hs0 & Hch). rewrite Hs0, Hch.
  set (n := Z.of_nat (length (image c))) in *.
  assert ((n - 0 - Z.min 256 (n - 0) + 255) / 256 + 1 = (n - 0 - 0 + 255) / 256) by zdm.
  nia.
Qed.

Lemma reacts_next_chunk s now e :
  inv0 s -> failure (ctx s) = NoFailure -> sm s = sending ->
  sentBytes (ctx s) + chunkBytes (ctx s) < imageSize (ctx s) ->
  reacts s (kAckChunkAndSendNext (at_time now (ctx s)) e
              ≫= (fun c => Ret (true, mkSession c sending))).
Proof.
  intros (Hc & Hq & Hs & Hl) Hf Hd Hmore. destruct (Hl Hf) as (Hr & Hp & _).
  destruct s as [c st']. cbn [ctx sm] in *. subst st'. pose proof Hc as (_ & _ & Hsz).
  unfold kAckChunkAndSendNext. cbn [sentBytes chunkBytes at_time set_outbox set_now_].
  rewrite u64_id by ctx_lia. rewrite sendDataChunk_ret; [|exact Hc|ctx_lia]. cbv zeta.
  apply reacts_send. set (c1 := set_chunkBytes _ _).
  assert (Hc1 : config_ok c1) by exact Hc.
  destruct (data_payload_ok c1 Hc1) as [Hb Hlen].
  apply good_send; send_sides.
  send_tail; unfold kDataChunkBytes in *; cbn in *; [lia|].
  destruct Hp as (Hn & Hch). rewrite Hch in Hmore |- *.
  pose proof (chunks_left_step _ _ Hn Hmore) as Hstep. cbv zeta in Hstep. nia.
Qed.

Lemma reacts_commit s now e :
  inv0 s -> failure (ctx s) = NoFailure -> sm s = sending ->
  imageSize (ctx s) <= sentBytes (ctx s) + chunkBytes (ctx s) ->
  reacts s (kAckChunkAndCommit (at_time now (ctx s)) e
              ≫= (fun c => Ret (true, mkSession c committing))).
Proof.
  intros (Hc & Hq & Hs & Hl) Hf Hd Hall. destruct (Hl Hf) as (Hr & Hp & _).
  destruct s as [c st']. cbn [ctx sm] in *. subst st'. pose proof Hc as (_ & _ & Hsz).
  unfold kAckChunkAndCommit. cbn [sentBytes chunkBytes at_time set_outbox set_now_].
  rewrite u64_id by ctx_lia.
  apply reacts_send, good_send; send_sides.
  send_tail; unfold kDataChunkBytes in *; cbn in *; [lia|].
  assert (0 <= (Z.of_nat (length (image c)) - sentBytes c - chunkBytes c + 255) / 256) by zdm.
  nia.
Qed.

Lemma reacts_quiet s c d :
  inv0 s -> failure (ctx s) = NoFailure ->
  seq c = seq (ctx s) -> sentBytes c = sentBytes (ctx s) -> resends c = resends (ctx s) ->
  same_config (ctx s) c -> failure c = NoFailure -> outbox c = [] ->
  progress_ok (mkSession c d) ->
  (sm s = committing /\ d = rebooting /\ waitingOut c = true \/
   (sm s = probing \/ sm s = confirming) /\ d = done /\ waitingOut c = false) ->
  reacts s (Ret (true, mkSession c d)).
Proof.
  intros (Hc & Hq & Hs & Hl) Hf Eq Es Er (Ei & Ev & Et) Hf' Ho Hp Hd.
  destruct (Hl Hf) as (Hr & Hp0 & _).
  apply reacts_fire. rewrite Ho.
  apply good_quiet; unfold config_ok, imageSize, budget_of in *; rewrite ?Eq, ?Es, ?Er, ?Ei, ?Ev, ?Et; auto.
  - split; [|split]; assumption.
  - tauto.
  - rewrite !effort_unfold by assumption. cbn [ctx sm]. cbv zeta.
    unfold budget_of. rewrite Er, Et.
    assert (sm s = probing -> 0 <= chunks_left (ctx s)).
    { intros E. apply chunks_left_sent; [lia|].
      unfold progress_ok in Hp0. rewrite E in Hp0. unfold imageSize in *. lia. }
    destruct Hd as [(-> & -> & _)|([E|E] & -> & _)]; [lia| |]; rewrite E; [specialize (H E); nia|lia].
Qed.

Lemma reacts_probing_info s now ver st :
  inv0 s -> live s -> sm s = probing -> waitingOut (ctx s) = false -> is_u32 ver ->
  let c := at_time now (ctx s) in let e := EvInfo ver st in
  let fire act d := act c e ≫= (fun c => Ret (true, mkSession c d)) in
  reacts s (if kIsConfirmedTarget c e then fire kFinishUpToDate done
            else if kIsTrialTarget c e then fire kSendConfirm confirming
            else if kNeedsUpdate c e then fire kSendBegin beginning
            else Ret (false, mkSession c probing)).
Proof.
  intros Hi Hl Est Hw Hv. cbv zeta. pose proof (proj1 Hl) as Hf.
  pose proof Hi as (Hc & Hq & Hs & Hlv). destruct (Hlv Hf) as (Hr & Hp & _).
  unfold progress_ok in Hp. rewrite Est in Hp.
  destruct (kIsConfirmedTarget _ _) eqn:E1; [|destruct (kIsTrialTarget _ _) eqn:E2;
    [|destruct (kNeedsUpdate _ _)]].
  - apply andb_prop in E1 as [E1 _]. apply Z.eqb_eq in E1. cbn in E1. subst ver.
    unfold kFinishUpToDate. cbn [mbind outcome_bind].
    apply reacts_quiet; auto; try reflexivity; [split; [|split]; reflexivity|ctx_lia].
  - apply andb_prop in E2 as [E2 _]. apply Z.eqb_eq in E2. cbn in E2.
    apply reacts_confirm; auto.
  - apply reacts_begin; auto.
  - apply reacts_miss; auto.
Qed.

(** What each state does with each event keeps the invariant, sends only
    what the protocol has in flight there, and uses up effort. *)
Lemma dispatch_good s e now :
  inv0 s -> live s -> (waitingOut (ctx s) = false \/ sm s = rebooting) ->
  is_u32 (info_version e) ->
  exists o s', dispatch s e now = Ret (o, s') /\ good s o s'.
Proof.
  intros Hi Hlive Hw He.
  pose proof Hi as (Hc & Hq & Hs & Hl). pose proof Hlive as (Hf & Hid & Hd & Hx).
  destruct (Hl Hf) as (Hr & Hp & _). pose proof Hc as (_ & _ & Hsz).
  change (reacts s (process_event (mkSession (at_time now (ctx s)) (sm s)) e)).
  rewrite process_event_eq. cbn [ctx sm]. cbv zeta.
  pose proof (reacts_miss s now (sm s) Hi Hlive) as Hmiss.
  pose proof (reacts_timeout s now e Hi Hlive) as Htime.
  pose proof (reacts_nak s now e Hi Hlive) as Hnak.
  destruct (sm s) eqn:Est; try congruence; destruct e as [| |ver st|code| |];
    cbn [kind_of]; try exact Hmiss; destruct Hw as [Hw|Hw]; try discriminate;
    try (apply Htime; [discriminate|assumption]); try (apply Hnak; [discriminate|assumption]).
  - apply reacts_probing_info; auto.
  - apply reacts_first_chunk; auto.
  - destruct (kMoreToSend _ _) eqn:E.
    + apply reacts_next_chunk; auto. unfold kMoreToSend in E. apply Z.ltb_lt in E.
      rewrite u64_id in E by (unfold progress_ok in Hp; rewrite Est in Hp; ctx_lia). exact E.
    + destruct (kAllSent _ _) eqn:E'; [|exact Hmiss].
      apply reacts_commit; auto. unfold kAllSent in E'. apply Z.leb_le in E'.
      rewrite u64_id in E' by (unfold progress_ok in Hp; rewrite Est in Hp; ctx_lia). exact E'.
  - unfold progress_ok in Hp. rewrite Est in Hp. apply reacts_quiet; auto; try reflexivity.
    split; [|split]; reflexivity.
  - apply (reacts_info_req s now rechecking); auto.
  - apply (reacts_info_req s now rechecking); auto.
  - destruct (kIsTargetVersion _ _) eqn:E.
    + apply Z.eqb_eq in E. apply reacts_confirm; auto.
    + destruct (kIsOtherVersion _ _); [|exact Hmiss].
      apply (reacts_fail s now failed WrongVersion 0); eauto; discriminate.
  - unfold progress_ok in Hp. rewrite Est in Hp. apply reacts_quiet; auto; try reflexivity.
    split; [|split]; reflexivity.
Qed.

(* ------------------------------------------------------------------ *)
(** ** Lemmas: the public calls *)

Lemma inactive_live s : inactive s = false -> live s.
Proof.
  unfold inactive, live, stage. destruct (failure (ctx s)) eqn:E; cbn; try discriminate.
  destruct (sm s) eqn:E'; try discriminate; intros _; split_and!; congruence.
Qed.

(** A session either ignores an input or reacts to it well. *)
Definition steps (s : OtaSession) (m : outcome (list Z * OtaSession)) : Prop :=
  exists o s', m = Ret (o, s') /\ ((o = [] /\ s' = s) \/ good s o s').

Lemma steps_ignore s : steps s (Ret ([], s)).
Proof. do 2 eexists. split; [reflexivity|]. left. auto. Qed.

Lemma steps_protocol_error s : inv s -> live s -> steps s (Ret ([], protocol_error s)).
Proof.
  intros [Hi _] (Hf & _ & Hd & Hx). do 2 eexists. split; [reflexivity|]. right.
  apply good_fail; auto; try discriminate. split; [|split]; reflexivity.
Qed.

Lemma steps_dispatch s e now :
  inv s -> live s -> is_u32 (info_version e) -> steps s (dispatch s e now).
Proof.
  intros [Hi Hw] Hl He. destruct (dispatch_good s e now) as (o & s' & -> & Hg); auto.
  - specialize (Hw (proj1 Hl)). unfold waiting_ok in Hw.
    destruct (sm s) eqn:E; auto; left; exact Hw.
  - do 2 eexists. split; [reflexivity|]. right. exact Hg.
Qed.

Lemma start_steps s now : inv s -> steps s (start s now).
Proof.
  intros [Hi _]. unfold start. destruct (bool_decide (stage s = Idle)) eqn:Es; cbn [negb];
    [|apply steps_ignore]. apply bool_decide_eq_true in Es.
  assert (Hs : failure (ctx s) = NoFailure /\ sm s = idle).
  { revert Es. unfold stage. destruct (failure (ctx s)); cbn; try discriminate.
    destruct (sm s); try discriminate; auto. }
  destruct Hs as [Hf Hidle].
  enough (Hr : reacts s (process_event (mkSession (at_time now (ctx s)) (sm s)) EvStart)).
  { destruct Hr as (o & s' & Hm & Hg). apply bind_ret_inv in Hm as ([b s1] & Hm & Hset).
    unfold at_time in Hm. rewrite Hm. cbn [mbind outcome_bind snd].
    destruct b; cbn [settle] in Hset; injection Hset as <- <-.
    - do 2 eexists. split; [reflexivity|]. right. exact Hg.
    - exfalso. rewrite process_event_eq in Hm. cbn [sm ctx] in Hm. rewrite Hidle in Hm.
      cbn [kind_of] in Hm. unfold kHasImage, kNoImage in Hm.
      destruct (imageSize _ =? 0); cbn [negb] in Hm; [discriminate|].
      apply bind_ret_inv in Hm as (? & _ & ?). discriminate. }
  rewrite process_event_eq. cbn [sm ctx]. rewrite Hidle. cbn [kind_of]. cbv zeta.
  destruct (kHasImage _ _) eqn:E.
  - apply (reacts_info_req s now probing); auto. left. split_and!; auto.
    unfold kHasImage in E. apply negb_true_iff, Z.eqb_neq in E. ctx_lia.
  - assert (E' : kNoImage (at_time now (ctx s)) EvStart = true)
      by (unfold kHasImage in E; apply negb_false_iff in E; exact E).
    rewrite E'. apply reacts_fire. apply good_fail; auto; try reflexivity;
      try (rewrite Hidle; discriminate); try discriminate.
    split; [|split]; reflexivity.
Qed.

Lemma onFrame_steps s f now : inv s -> frame_ok f -> steps s (onFrame s f now).
Proof.
  intros Hi (_ & _ & Hp & _). unfold onFrame.
  destruct (inactive s) eqn:Ea; [apply steps_ignore|]. apply inactive_live in Ea.
  case_match; [apply steps_ignore|]. case_match.
  { apply steps_dispatch; auto. unfold is_u32. simpl. lia. }
  case_match.
  { case_bool_decide as En; [apply steps_protocol_error; auto|].
    destruct (payload f) as [|b l]; [contradiction|]. cbn.
    apply steps_dispatch; auto. unfold is_u32. simpl. lia. }
  case_match; [|apply steps_protocol_error; auto].
  destruct (Nat.eqb_spec (length (payload f)) kInfoPayloadBytes) as [El|];
    cbn [negb]; [|apply steps_protocol_error; auto].
  destruct (payload f) as [|a [|b [|c [|d [|x [|y [|]]]]]]]; try discriminate.
  bytes_split Hp. unfold kInfoVersionAt.
  rewrite read32_of_le32 by assumption. cbn.
  apply steps_dispatch; auto. cbn. apply of_le32_range; assumption.
Qed.

Lemma onTick_steps s now : inv s -> steps s (onTick s now).
Proof.
  intros Hi. unfold onTick. destruct (inactive s) eqn:Ea; [apply steps_ignore|].
  apply inactive_live in Ea. case_match; [apply steps_ignore|].
  destruct (waitingOut (ctx s)) eqn:Ew; [|apply steps_dispatch; auto; unfold is_u32; simpl; lia].
  destruct Hi as [Hi Hw]. specialize (Hw (proj1 Ea)). unfold waiting_ok in Hw.
  set (s1 := mkSession (set_waitingOut false (ctx s)) (sm s)).
  destruct (dispatch_good s1 EvRebootDone now) as (o & s' & Hd & Hg); auto.
  - unfold is_u32. simpl. lia.
  - do 2 eexists. split; [exact Hd|]. right. exact Hg.
Qed.

Lemma feed_steps s i : inv s -> input_ok i -> steps s (feed s i).
Proof.
  destruct i; intros; [apply start_steps|apply onFrame_steps|apply onTick_steps]; assumption.
Qed.

Lemma steps_inv s m o s' : inv s -> steps s m -> m = Ret (o, s') -> inv s'.
Proof. intros Hi (o1 & s1 & -> & [[_ ->]|Hg]) [= <- <-]; [exact Hi|apply Hg]. Qed.

Lemma make_inv img ver tm :
  bytes_ok img -> is_u32 ver -> Z.of_nat (length img) < 18446744073709551616 ->
  inv (make img ver tm).
Proof.
  intros. unfold inv, inv0, config_ok, progress_ok, flight_ok, waiting_ok, imageSize, budget_of.
  cbn. unfold is_u16. split_and!; auto; try lia.
Qed.

(* ------------------------------------------------------------------ *)
(** ** Specification: the frames a host may send *)

(** The host's messages for an image and a version number, as the protocol
    document lists them. *)
Inductive host_frame (img : list Z) (ver : Z) : FlashFrame -> Prop :=
| hf_info sq : host_frame img ver (mkFrame kInfoReq sq [])
| hf_begin sq :
    host_frame img ver (mkFrame kBegin sq
      (le32 (u32 (Z.of_nat (length img))) ++ le32 (crc32IsoHdlc img) ++ le32 ver))
| hf_data sq off :
    (off < length img)%nat ->
    host_frame img ver (mkFrame kData sq
      (le32 (u32 (Z.of_nat off)) ++ padded (slice off 256 img)))
| hf_commit sq : host_frame img ver (mkFrame kCommit sq [])
| hf_confirm sq : host_frame img ver (mkFrame kConfirm sq []).

Lemma slice_min {A} off n (l : list A) :
  slice off (Nat.min n (length l - off)) l = slice off n l.
Proof.
  unfold slice. destruct (Nat.min_spec n (length l - off)) as [[_ ->]|[H ->]]; [reflexivity|].
  rewrite !take_ge; rewrite ?length_drop; auto; lia.
Qed.

Lemma expected_host_frame s f :
  inv s -> failure (ctx s) = NoFailure -> expected_frame s = Some f ->
  host_frame (image (ctx s)) (version (ctx s)) f.
Proof.
  intros [(_ & _ & _ & Hl) _] Hf He. destruct (Hl Hf) as (_ & Hp & _).
  destruct s as [c st]; destruct st; try discriminate; injection He as <-; try constructor.
  unfold progress_ok, kDataChunkBytes, imageSize in Hp. cbn in Hp. destruct Hp as [Hs Hc].
  unfold data_payload. cbn [ctx].
  replace (slice (Z.to_nat (sentBytes c)) (Z.to_nat (chunkBytes c)) (image c))
    with (slice (Z.to_nat (sentBytes c)) 256 (image c)).
  - replace (u32 (sentBytes c)) with (u32 (Z.of_nat (Z.to_nat (sentBytes c)))) by (f_equal; lia).
    constructor. lia.
  - rewrite Hc, <- slice_min. f_equal. lia.
Qed.

(** The reactions in a conversation: the inputs that were not ignored. *)
#[export] Instance Timing_eq_dec : EqDecision Timing.
Proof. solve_decision. Defined.
#[export] Instance Context_eq_dec : EqDecision Context.
Proof. solve_decision. Defined.
#[export] Instance OtaSession_eq_dec : EqDecision OtaSession.
Proof. solve_decision. Defined.

Fixpoint reactions (s : OtaSession) (l : list input) : Z :=
  match l with
  | [] => 0
  | i :: l =>
      match feed s i with
      | Ret (o, s') => (if decide (o = [] /\ s' = s) then 0 else 1) + reactions s' l
      | _ => 0
      end
  end.

Lemma effort_nonneg s : inv s -> 0 <= effort s.
Proof.
  intros [Hi _]. unfold effort at 1. case_bool_decide as Hf; [|lia].
  pose proof (effort_pos s Hi Hf) as H. rewrite effort_unfold in H by exact Hf. cbv zeta in *.
  destruct (sm s); try (apply Z.lt_le_incl, H; discriminate); lia.
Qed.

Lemma reactions_effort s l :
  inv s -> Forall input_ok l -> reactions s l + effort s * 0 <= effort s.
Proof.
  intros Hi Hl. revert s Hi. induction Hl as [|i l Hok _ IH]; intros s Hi; cbn [reactions].
  - pose proof (effort_nonneg s Hi). lia.
  - destruct (feed_steps s i Hi Hok) as (o & s' & -> & [[-> ->]|Hg]).
    + rewrite decide_True by auto. specialize (IH s Hi). lia.
    + destruct Hg as (Hi' & _ & _ & He). specialize (IH s' Hi'). case_decide; lia.
Qed.

Lemma feed_all_inv s l :
  inv s -> Forall input_ok l ->
  exists os s', feed_all s l = Ret (os, s') /\ inv s' /\ same_config (ctx s) (ctx s') /\
    Forall (fun o => o = [] \/
      exists f, host_frame (image (ctx s)) (version (ctx s)) f /\ frame_ok f /\ o = frame_bytes f) os.
Proof.
  intros Hi Hl. revert s Hi. induction Hl as [|i l Hok _ IH]; intros s Hi.
  - exists [], s. split; [reflexivity|]. split; [exact Hi|]. split; [split; [|split]; reflexivity|constructor].
  - destruct (feed_steps s i Hi Hok) as (o & s1 & Ef & Hst).
    assert (Hs1 : inv s1 /\ same_config (ctx s) (ctx s1) /\
              (o = [] \/ failure (ctx s1) = NoFailure /\
                 exists f, expected_frame s1 = Some f /\ o = frame_bytes f)).
    { destruct Hst as [[-> ->]|(H1 & H2 & H3 & _)]; [|auto].
      split; [exact Hi|]. split; [split; [|split]; reflexivity|auto]. }
    destruct Hs1 as (Hi1 & (Ei & Ev & Et) & Ho).
    destruct (IH s1 Hi1) as (os & s' & Efa & Hi' & (Ei' & Ev' & Et') & Hos).
    exists (o :: os), s'. cbn [feed_all]. rewrite Ef. cbn [mbind outcome_bind]. rewrite Efa.
    rewrite Ei, Ev in Hos. split; [reflexivity|]. split; [exact Hi'|].
    split; [split; [|split]; congruence|]. constructor; [|exact Hos].
    destruct Ho as [->|(Hf & f & He & ->)]; [auto|]. right. exists f. rewrite <- Ei, <- Ev.
    split; [apply expected_host_frame; assumption|]. split; [|reflexivity].
    destruct Hi1 as [(_ & _ & _ & Hlv) _]. destruct (Hlv Hf) as (_ & _ & Hfl).
    unfold flight_ok in Hfl. rewrite He in Hfl. apply Hfl.
Qed.

(** What the deadline does, again and again, while nothing arrives. *)
Fixpoint silence (n : nat) (s : OtaSession) : outcome (list (list Z) * OtaSession) :=
  match n with
  | O => Ret ([], s)
  | S n =>
      '(o, s) ← onTick s (deadline (ctx s));
      '(os, s) ← silence n s;
      Ret (o :: os, s)
  end.

Lemma live_inactive s : live s -> inactive s = false.
Proof.
  intros (Hf & Hi & Hd & Hx). unfold inactive, stage. rewrite Hf. cbn.
  destruct (sm s); try reflexivity; contradiction.
Qed.

Lemma silence_S n s :
  silence (S n) s =
    '(o, s) ← onTick s (deadline (ctx s)); '(os, s) ← silence n s; Ret (o :: os, s).
Proof. reflexivity. Qed.

Lemma timeout_step s :
  live s -> sm s <> rebooting -> waitingOut (ctx s) = false ->
  onTick s (deadline (ctx s)) =
    let c := at_time (deadline (ctx s)) (ctx s) in
    if resends (ctx s) <? budget (timing (ctx s))
    then Ret (inFlight (ctx s), mkSession (resend c) (sm s))
    else Ret ([], mkSession (stopWith NoAnswer 0 c) failed).
Proof.
  intros Hl Hr Hw. unfold onTick. rewrite live_inactive by exact Hl.
  rewrite Z.ltb_irrefl, Hw. unfold dispatch. rewrite process_event_eq. cbn [sm ctx kind_of].
  destruct Hl as (Hf & Hi & Hd & Hx). cbv zeta. unfold kCanResend. cbn [resends timing set_outbox set_now_].
  destruct (sm s); try congruence; destruct (_ <? _); reflexivity.
Qed.

Lemma after_resend s now :
  inv s -> live s -> sm s <> rebooting -> resends (ctx s) < budget (timing (ctx s)) ->
  let s1 := mkSession (resend (at_time now (ctx s))) (sm s) in
  inv s1 /\ live s1 /\ sm s1 = sm s /\ inFlight (ctx s1) = inFlight (ctx s) /\
  resends (ctx s1) = resends (ctx s) + 1 /\ budget_of (ctx s1) = budget_of (ctx s).
Proof.
  cbv zeta. intros [Hi Hw] Hl Hr Hb. split; [|split_and!; try reflexivity; apply Hl].
  apply (good_resend s now); auto. rewrite (Hw (proj1 Hl)). apply bool_decide_eq_false. exact Hr.
Qed.

Lemma live_not_waiting s : inv s -> live s -> sm s <> rebooting -> waitingOut (ctx s) = false.
Proof. intros [_ Hw] [Hf _] Hr. rewrite (Hw Hf). apply bool_decide_eq_false. exact Hr. Qed.

Lemma silence_resend s n :
  live s -> inv s -> sm s <> rebooting -> resends (ctx s) < budget (timing (ctx s)) ->
  silence (S n) s =
    '(os, s') ← silence n (mkSession (resend (at_time (deadline (ctx s)) (ctx s))) (sm s));
    Ret (inFlight (ctx s) :: os, s').
Proof.
  intros Hl Hi Hr Hlt. rewrite silence_S, timeout_step by auto using live_not_waiting. cbv zeta.
  destruct (Z.ltb_spec (resends (ctx s)) (budget (timing (ctx s)))); [reflexivity|lia].
Qed.

Lemma silence_spent s :
  live s -> inv s -> sm s <> rebooting -> budget (timing (ctx s)) <= resends (ctx s) ->
  silence 1 s =
    Ret ([[]], mkSession (stopWith NoAnswer 0 (at_time (deadline (ctx s)) (ctx s))) failed).
Proof.
  intros Hl Hi Hr Hge. rewrite silence_S, timeout_step by auto using live_not_waiting. cbv zeta.
  destruct (Z.ltb_spec (resends (ctx s)) (budget (timing (ctx s)))); [lia|reflexivity].
Qed.

(* ------------------------------------------------------------------ *)
(** ** Properties *)

(** C2: Whatever the board answers and whenever the caller ticks, the session
    never throws and never subscripts out of range, and every byte string it
    hands back is the encoding of a message of the protocol about this image
    and this version: INFO_REQ, the BEGIN announcing the image's size and
    CRC-32, a DATA frame with the image's own bytes at the offset it names
    (padded to the flash word), COMMIT or CONFIRM. *)
Theorem ota_wire_contract img ver tm l :
  bytes_ok img -> is_u32 ver -> Z.of_nat (length img) < 18446744073709551616 ->
  Forall input_ok l ->
  exists os s, feed_all (make img ver tm) l = Ret (os, s) /\
    Forall (fun o => o = [] \/
      exists f, host_frame img ver f /\ frame_ok f /\ o = frame_bytes f) os.
Proof.
  intros Himg Hver Hsz Hl.
  destruct (feed_all_inv (make img ver tm) l) as (os & s & E & _ & _ & H); auto using make_inv.
  eauto.
Qed.

(** C3: Bounded effort. In any conversation, however long and whatever arrives,
    the session reacts to at most (chunks + 5) * (1 + resends) + 2 inputs and
    ignores the others completely: no board can keep it busy for ever. *)
Theorem ota_bounded_effort img ver tm l :
  bytes_ok img -> is_u32 ver -> Z.of_nat (length img) < 18446744073709551616 ->
  Forall input_ok l ->
  reactions (make img ver tm) l <=
    ((Z.of_nat (length img) + 255) / 256 + 5) * (1 + Z.max 0 (budget tm)) + 2.
Proof.
  intros Himg Hver Hsz Hl.
  pose proof (reactions_effort (make img ver tm) l (make_inv _ _ tm Himg Hver Hsz) Hl) as H.
  rewrite (effort_unfold (make img ver tm)) in H by reflexivity. cbn in H.
  unfold chunks_left, imageSize, budget_of in H. cbn in H.
  replace (Z.of_nat (length img) - 0 - 0) with (Z.of_nat (length img)) in H by lia. lia.
Qed.

(** C4: Silence. A waiting session whose board stops answering resends the frame
    in flight, byte for byte, exactly as often as the budget still allows,
    and at the next deadline stops with NoAnswer. *)
Theorem ota_silence_gives_up s :
  inv s -> live s -> sm s <> rebooting ->
  let k := Z.to_nat (budget_of (ctx s) - resends (ctx s)) in
  exists s', silence (S k) s = Ret (replicate k (inFlight (ctx s)) ++ [[]], s') /\
             stage s' = Failed /\ failure (ctx s') = NoAnswer.
Proof.
  cbv zeta. intros Hi Hl Hr.
  remember (Z.to_nat (budget_of (ctx s) - resends (ctx s))) as k eqn:Ek.
  revert s Hi Hl Hr Ek. induction k as [|k IH]; intros s Hi Hl Hr Ek;
    pose proof Hi as [(_ & _ & _ & Hlv) _]; destruct (Hlv (proj1 Hl)) as (Hres & _ & _); clear Hlv.
  - rewrite (silence_spent s Hl Hi Hr) by (unfold budget_of in Ek; lia).
    eexists. split; [reflexivity|]. split; reflexivity.
  - assert (Hlt : resends (ctx s) < budget (timing (ctx s))) by (unfold budget_of in Ek; lia).
    rewrite (silence_resend s _ Hl Hi Hr Hlt).
    destruct (after_resend s (deadline (ctx s)) Hi Hl Hr Hlt) as (Hi1 & Hl1 & Hst & Hfl & Hre & Hbu).
    set (s1 := mkSession (resend _) (sm s)) in *. clearbody s1.
    destruct (IH s1 Hi1 Hl1) as (s' & E & Hs'); [congruence|rewrite Hre, Hbu; lia|].
    rewrite E, Hfl. eexists. split; [reflexivity|exact Hs'].
Qed.

(** The stages mean what they say. Whatever happened before, a session in
    Committing, Rebooting or Rechecking has had every image byte
    acknowledged, a session in Confirming or Done has a board that reported
    the target version, and a session that is not Failed has no failure. *)
Theorem ota_stage_meaning img ver tm l os s :
  bytes_ok img -> is_u32 ver -> Z.of_nat (length img) < 18446744073709551616 ->
  Forall input_ok l -> feed_all (make img ver tm) l = Ret (os, s) ->
  match stage s with
  | Committing | Rebooting | Rechecking => sentBytes (ctx s) = Z.of_nat (length img)
  | Confirming | Done => boardVersion (ctx s) = ver
  | Sending => 0 <= sentBytes (ctx s) < Z.of_nat (length img)
  | Idle | Probing | Beginning => sentBytes (ctx s) = 0
  | Failed => failure (ctx s) <> NoFailure
  end.
Proof.
  intros Himg Hver Hsz Hl E.
  destruct (feed_all_inv (make img ver tm) l) as (os' & s' & E' & Hi & (Ei & Ev & _) & _);
    auto using make_inv.
  rewrite E in E'. injection E' as <- <-. cbn in Ei, Ev.
  destruct Hi as [(_ & _ & _ & Hlv) _]. unfold stage. case_bool_decide as Hf; cbn [negb]; [|exact Hf].
  destruct (Hlv Hf) as (_ & Hp & _). unfold progress_ok, imageSize in Hp. rewrite Ei, Ev in Hp.
  destruct (sm s); tauto.
Qed.

(* ------------------------------------------------------------------ *)
(** ** Witnesses *)

Definition demo_image : list Z := [1; 2; 3; 4; 5; 6; 7; 8; 9; 10].

Lemma demo_image_ok : bytes_ok demo_image.
Proof. bytes_lit. Qed.

(** A start, a late tick, an INFO of another version, an ACK of BEGIN, a
    stray NAK and a refusal. *)
Definition demo_inputs : list input :=
  [IStart 0; ITick 2000; IFrameIn (mkFrame kInfo 9 [1; 0; 0; 0; 1; 0]) 2001;
   IFrameIn (mkFrame kAck 2 []) 2002; IFrameIn (mkFrame kNak 7 [5]) 2003;
   IFrameIn (mkFrame kNak 3 [5]) 2004].

Lemma demo_inputs_ok : Forall input_ok demo_inputs.
Proof.
  unfold demo_inputs. repeat (apply Forall_cons; split); try apply Forall_nil; try exact I; cbn;
    (apply frame_ok_intro; [unfold is_u8, kInfo, kAck, kNak; lia|unfold is_u16; lia| |cbn; lia]);
    cbn; bytes_lit.
Qed.

Definition demo_run : list (list Z) * OtaSession :=
  match feed_all (make demo_image 2 defaultTiming) demo_inputs with
  | Ret r => r
  | _ => ([], make [] 0 defaultTiming)
  end.

(** The reports of the demo run: refused with code 5, nothing acknowledged. *)
Example demo_run_text :
  failureText demo_run.2 = "the board refused the update, NAK code 0x05"%string /\
  bytesAcknowledged demo_run.2 = 0 /\ map (@length Z) demo_run.1 = [8; 8; 20; 28; 0; 0]%nat.
Proof. vm_compute. auto. Qed.

Lemma ota_wire_contract_witness :
  exists os s, feed_all (make demo_image 2 defaultTiming) demo_inputs = Ret (os, s) /\
    Forall (fun o => o = [] \/
      exists f, host_frame demo_image 2 f /\ frame_ok f /\ o = frame_bytes f) os.
Proof.
  apply (ota_wire_contract demo_image 2 defaultTiming demo_inputs demo_image_ok);
    [unfold is_u32; lia|cbn; lia|exact demo_inputs_ok].
Defined.

Lemma ota_bounded_effort_witness :
  reactions (make demo_image 2 defaultTiming) demo_inputs <=
    ((Z.of_nat (length demo_image) + 255) / 256 + 5) * (1 + Z.max 0 (budget defaultTiming)) + 2.
Proof.
  apply (ota_bounded_effort demo_image 2 defaultTiming demo_inputs demo_image_ok);
    [unfold is_u32; lia|cbn; lia|exact demo_inputs_ok].
Defined.

Lemma ota_stage_meaning_witness : failure (ctx demo_run.2) <> NoFailure.
Proof.
  refine (ota_stage_meaning demo_image 2 defaultTiming demo_inputs demo_run.1 demo_run.2
            demo_image_ok _ _ demo_inputs_ok _);
    [unfold is_u32; lia|cbn; lia|vm_compute; reflexivity].
Defined.

(** A started session: INFO_REQ in flight. *)
Definition started_session : OtaSession :=
  match start (make demo_image 2 defaultTiming) 0 with
  | Ret (_, s) => s
  | _ => make [] 0 defaultTiming
  end.

Lemma started_session_inv : inv started_session.
Proof.
  eapply (steps_inv (make demo_image 2 defaultTiming) (start (make demo_image 2 defaultTiming) 0));
    [|apply start_steps|vm_compute; reflexivity];
    (apply make_inv; [exact demo_image_ok|unfold is_u32; lia|cbn; lia]).
Qed.

Lemma ota_silence_gives_up_witness :
  exists s', silence 4 started_session =
               Ret (replicate 3 (inFlight (ctx started_session)) ++ [[]], s') /\
             stage s' = Failed /\ failure (ctx s') = NoAnswer.
Proof.
  refine (ota_silence_gives_up started_session started_session_inv _ _);
    [split_and!; vm_compute; congruence|vm_compute; discriminate].
Defined.
