(* ===== verification/OtaUpdate.v ===== *)
(** * A complete firmware update, end to end

    The session of OtaSession.v in a conversation with any board that follows
    docs/protocols/uart-flash-v1.md (a specification, not code of the
    repository), over a wire that loses and damages frames, both sides through
    the byte-level encoder and stream parser of FlashFrame.v and
    FlashParser.v. Property: every non-empty image that fits a bank ends up on
    the board, running and confirmed. *)
From S2P Require Import Prelude Wire FlashFrame FlashParser OtaSession.

(* ------------------------------------------------------------------ *)
(** ** Specification: boards that follow the protocol document *)

(** What sections 4 and 5 of the document say of a board: the version that
    runs, its state and its code, the announced update (size, CRC-32, version)
    while a session is open, the bytes programmed since the other bank was
    erased, and the number of the last DATA or CONFIRM it acknowledged. *)
Record Board := mkBoard {
  running : Z;
  confirmed : bool;
  code : list Z;
  announced : option (Z * Z * Z);
  bank : list Z;
  handled : option Z;
}.

(** The largest image the document allows. *)
Definition kBankBytes : Z := 522240.

Definition ack (sq : Z) : FlashFrame := mkFrame kAck sq [].
Definition nak (sq code : Z) : FlashFrame := mkFrame kNak sq [code].

(** The messages of section 4; [None] is a malformed one. *)
Inductive message :=
| InfoReq
| Begin (size crc ver : Z)
| Data (offset : Z) (body : list Z)
| Commit
| Confirm
| Cancel.

Definition decode (f : FlashFrame) : option message :=
  match type_ f, payload f with
  | 1, [] => Some InfoReq
  | 2, [s0; s1; s2; s3; c0; c1; c2; c3; v0; v1; v2; v3] =>
      if of_le32 s0 s1 s2 s3 =? 0 then None
      else Some (Begin (of_le32 s0 s1 s2 s3) (of_le32 c0 c1 c2 c3) (of_le32 v0 v1 v2 v3))
  | 3, o0 :: o1 :: o2 :: o3 :: body =>
      if (Z.of_nat (length body) =? 0) || negb (Z.of_nat (length body) mod 8 =? 0) then None
      else Some (Data (of_le32 o0 o1 o2 o3) body)
  | 4, [] => Some Commit
  | 5, [] => Some Confirm
  | 6, [] => Some Cancel
  | _, _ => None
  end.

(** The first [size] bytes of the bank, erased where nothing was programmed. *)
Definition flash (b : Board) (size : Z) : list Z :=
  take (Z.to_nat size) (bank b ++ replicate (Z.to_nat size) kErasedByte).

Definition open (u : Z * Z * Z) (b : Board) : Board := mkBoard (running b) (confirmed b) (code b) (Some u) [] None.
Definition closed (b : Board) : Board := mkBoard (running b) (confirmed b) (code b) None (bank b) None.
Definition programmed (body : list Z) (sq : Z) (b : Board) : Board :=
  mkBoard (running b) (confirmed b) (code b) (announced b) (bank b ++ body) (Some sq).
Definition switched (ver : Z) (b : Board) : Board := mkBoard ver false (bank b) None [] None.
Definition kept (sq : Z) (b : Board) : Board :=
  mkBoard (running b) true (code b) (announced b) (bank b) (Some sq).

(** The answers the document allows to message number [sq], checks in its
    order: shape, state, content. Where it leaves the answer open (DATA over
    bytes already programmed, CONFIRM without a trial) several are allowed.
    The flash works, and the board's own timers do not run out. *)
Inductive answers (b : Board) (sq : Z) : option message -> Board -> FlashFrame -> Prop :=
| answer_malformed : answers b sq None b (nak sq 7)
| answer_info active :
    active = 1 \/ active = 2 ->
    answers b sq (Some InfoReq) b
      (mkFrame kInfo sq (le32 (running b) ++ [active; if confirmed b then kStateConfirmed else kStateTrial]))
| answer_too_large size crc ver :
    kBankBytes < size -> answers b sq (Some (Begin size crc ver)) b (nak sq 3)
| answer_begin size crc ver :
    size <= kBankBytes -> answers b sq (Some (Begin size crc ver)) (open (size, crc, ver) b) (ack sq)
| answer_data_closed offset body :
    announced b = None -> answers b sq (Some (Data offset body)) b (nak sq 2)
| answer_again offset body u :
    announced b = Some u -> handled b = Some sq -> answers b sq (Some (Data offset body)) b (ack sq)
| answer_gap offset body size crc ver :
    announced b = Some (size, crc, ver) -> handled b <> Some sq ->
    Z.of_nat (length (bank b)) < offset \/ size <= offset ->
    answers b sq (Some (Data offset body)) b (nak sq 4)
| answer_data offset body size crc ver :
    announced b = Some (size, crc, ver) -> handled b <> Some sq ->
    offset = Z.of_nat (length (bank b)) -> offset < size ->
    answers b sq (Some (Data offset body)) (programmed body sq b) (ack sq)
| answer_overwrite offset body size crc ver b' a :
    announced b = Some (size, crc, ver) -> handled b <> Some sq ->
    offset < Z.of_nat (length (bank b)) -> offset < size ->
    answers b sq (Some (Data offset body)) b' a
| answer_commit_closed : announced b = None -> answers b sq (Some Commit) b (nak sq 2)
| answer_commit size crc ver :
    announced b = Some (size, crc, ver) -> crc32IsoHdlc (flash b size) = crc ->
    answers b sq (Some Commit) (switched ver b) (ack sq)
| answer_unverified size crc ver :
    announced b = Some (size, crc, ver) -> crc32IsoHdlc (flash b size) <> crc ->
    answers b sq (Some Commit) (closed b) (nak sq 6)
| answer_confirm :
    announced b = None -> confirmed b = false -> handled b <> Some sq ->
    answers b sq (Some Confirm) (kept sq b) (ack sq)
| answer_confirmed_again :
    announced b = None -> handled b = Some sq -> answers b sq (Some Confirm) b (ack sq)
| answer_no_trial a :
    announced b <> None \/ confirmed b = true /\ handled b <> Some sq ->
    a = ack sq \/ a = nak sq 2 -> answers b sq (Some Confirm) b a
| answer_cancel : answers b sq (Some Cancel) (closed b) (ack sq).

(** What the rules leave of each message an update sends. *)
Lemma info_answered b sq b' a : answers b sq (Some InfoReq) b' a ->
  b' = b /\ exists active, (active = 1 \/ active = 2) /\ a = mkFrame kInfo sq (le32 (running b) ++ [active; if confirmed b then kStateConfirmed else kStateTrial]).
Proof. inversion 1; subst. eauto. Qed.

Lemma begin_answer b sq size crc ver b' a :
  answers b sq (Some (Begin size crc ver)) b' a -> size <= kBankBytes -> b' = open (size, crc, ver) b /\ a = ack sq.
Proof. inversion 1; subst; [lia|auto]. Qed.

Lemma data_answer b sq offset body size crc ver b' a :
  answers b sq (Some (Data offset body)) b' a -> announced b = Some (size, crc, ver) ->
  handled b <> Some sq -> offset = Z.of_nat (length (bank b)) -> offset < size -> b' = programmed body sq b /\ a = ack sq.
Proof. inversion 1; subst; intros; try congruence; auto; exfalso; simplify_eq; lia. Qed.

Lemma data_again b sq offset body u b' a :
  answers b sq (Some (Data offset body)) b' a -> announced b = Some u -> handled b = Some sq -> b' = b /\ a = ack sq.
Proof. inversion 1; subst; intros; try congruence; auto. Qed.

Lemma commit_answer b sq size crc ver b' a :
  answers b sq (Some Commit) b' a -> announced b = Some (size, crc, ver) -> crc32IsoHdlc (flash b size) = crc ->
  b' = switched ver b /\ a = ack sq.
Proof. inversion 1; subst; intros; simplify_eq; auto; congruence. Qed.

Lemma confirm_answer b sq b' a :
  answers b sq (Some Confirm) b' a -> announced b = None -> confirmed b = false \/ handled b = Some sq ->
  b' = (if bool_decide (handled b = Some sq) then b else kept sq b) /\ a = ack sq.
Proof.
  inversion 1; subst; intros Hn Hc.
  - rewrite bool_decide_eq_false_2 by assumption. auto.
  - rewrite bool_decide_eq_true_2 by assumption. auto.
  - destruct H0 as [H0|[H0 H2]]; [congruence|]. destruct Hc; congruence.
Qed.

(** A board, as a state and a way to answer, that follows the document. *)
Class FollowsProtocol {B : Type} (view : B -> Board) (answer : B -> FlashFrame -> B * FlashFrame) : Prop :=
  follows : forall x f, frame_ok f ->
    answers (view x) (seq_ f) (decode f) (view (answer x f).1) (answer x f).2.

(* ------------------------------------------------------------------ *)
(** ** Specification: the wire *)

(** What may happen to an exchange: the board does not hear the frame; it
    hears it damaged and says so (with any number); its answer is lost. *)
Inductive mishap := Lost | Damaged (sq : Z) | AnswerLost.

#[export] Instance mishap_eq_dec : EqDecision mishap.
Proof. solve_decision. Defined.

(** Both sides in a room, and what happens to each transmission of a frame,
    the first being number 0. *)
Section Conversation.
Context {B : Type} (view : B -> Board) (answer : B -> FlashFrame -> B * FlashFrame).
Context (wire : FlashFrame -> Z -> option mishap).

(** The bytes of one side as the other side's stream parser delivers them. *)
Definition over_the_wire (bytes : list Z) : option FlashFrame :=
  match consume parser_init bytes with
  | Ret (Some (mkOut [f] [], _)) => Some f
  | _ => None
  end.

(** The board's frame on its way to the host. *)
Definition hear (s : OtaSession) (a : FlashFrame) (now : Z) : option (list Z * OtaSession) :=
  match encodeFlashFrame a with
  | Ret bytes =>
      match over_the_wire bytes with
      | Some a' => match onFrame s a' now with Ret r => Some r | _ => None end
      | None => None
      end
  | _ => None
  end.

(** The conversation from the bytes the host has just sent. The clock moves to
    the deadline when the host has nothing to say. [None] is out of fuel or a
    broken exchange. *)
Fixpoint converse (fuel : nat) (now : Z) (s : OtaSession) (x : B) (bytes : list Z) : option (OtaSession * B) :=
  match fuel with
  | O => None
  | S fuel =>
      match bytes with
      | [] =>
          if inactive s then Some (s, x) else
          let now := Z.max now (deadline (ctx s)) in
          match onTick s now with Ret (o, s') => converse fuel now s' x o | _ => None end
      | _ =>
          match over_the_wire bytes with
          | Some f =>
              match wire f (resends (ctx s)) with
              | Some Lost => converse fuel now s x []
              | Some (Damaged sq) =>
                  match hear s (nak sq kNakBadCrc) now with Some (o, s') => converse fuel now s' x o | None => None end
              | Some AnswerLost => converse fuel now s (answer x f).1 []
              | None =>
                  match hear s (answer x f).2 now with Some (o, s') => converse fuel now s' (answer x f).1 o | None => None end
              end
          | None => None
          end
      end
  end.

(** A wire that delivers every frame within its resends, and the answer to
    COMMIT at the first hearing: after it the board has reset. *)
Record usable (budget : Z) : Prop := {
  delivers : forall f, exists r, 0 <= r <= Z.max 0 budget /\ wire f r = None;
  commit_answered : forall f r, type_ f = kCommit -> wire f r <> Some AnswerLost;
  damaged_number : forall f r sq, wire f r = Some (Damaged sq) -> is_u16 sq;
}.

Context {HB : FollowsProtocol view answer}.

Lemma wire_one f : frame_ok f -> over_the_wire (frame_bytes f) = Some f.
Proof.
  intros Hf. unfold over_the_wire.
  rewrite (consume_parses parser_init (frame_bytes f) (items_out [IFrame f]) [] 0).
  - reflexivity.
  - apply frame_bytes_ok. exact Hf.
  - pose proof (parses_items [IFrame f]) as H. cbn [flat_map item_bytes] in H.
    rewrite app_nil_r in H. apply H. constructor; [exact Hf|constructor].
Qed.

Lemma hear_frame s a now : frame_ok a -> hear s a now = match onFrame s a now with Ret r => Some r | _ => None end.
Proof. intros Ha. unfold hear. rewrite (encode_frame_bytes a Ha), (wire_one a Ha). reflexivity. Qed.

Lemma frame_bytes_not_nil f : frame_bytes f <> [].
Proof. intros E. apply (f_equal length) in E. rewrite frame_bytes_length in E. discriminate. Qed.

(** One transmission of the frame in flight. *)
Lemma converse_sent fuel now s x f :
  inv s -> live s -> expected_frame s = Some f ->
  converse (S fuel) now s x (inFlight (ctx s)) =
    match wire f (resends (ctx s)) with
    | Some Lost => converse fuel now s x []
    | Some (Damaged sq) =>
        match hear s (nak sq kNakBadCrc) now with Some (o, s') => converse fuel now s' x o | None => None end
    | Some AnswerLost => converse fuel now s (answer x f).1 []
    | None =>
        match hear s (answer x f).2 now with Some (o, s') => converse fuel now s' (answer x f).1 o | None => None end
    end.
Proof.
  intros [(_ & _ & _ & Hl) _] [Hf _] He. destruct (Hl Hf) as (_ & _ & Hfl). unfold flight_ok in Hfl.
  rewrite He in Hfl. destruct Hfl as [Hok ->]. cbn [converse].
  pose proof (frame_bytes_not_nil f). destruct (frame_bytes f) as [|y l] eqn:E; [contradiction|].
  rewrite <- E, (wire_one f Hok). reflexivity.
Qed.

(** The session after resends of its frame: only clock and count differ. *)
Definition resent (s s1 : OtaSession) : Prop :=
  inv s1 /\ live s1 /\ sm s1 = sm s /\ expected_frame s1 = expected_frame s /\ seq (ctx s1) = seq (ctx s) /\
  sentBytes (ctx s1) = sentBytes (ctx s) /\ chunkBytes (ctx s1) = chunkBytes (ctx s) /\
  inFlight (ctx s1) = inFlight (ctx s) /\ same_config (ctx s) (ctx s1).

Lemma resent_refl s : inv s -> live s -> resent s s.
Proof. intros. unfold resent, same_config. auto 12. Qed.

Lemma resent_trans s s1 s2 : resent s s1 -> resent s1 s2 -> resent s s2.
Proof.
  intros (_ & _ & A1 & A2 & A3 & A4 & A5 & A6 & (A7 & A8 & A9)) (I & L & B1 & B2 & B3 & B4 & B5 & B6 & (B7 & B8 & B9)).
  unfold resent, same_config. split_and!; congruence || assumption.
Qed.

(** A live session that has a frame in flight and may resend it. *)
Definition resendable (s : OtaSession) : Prop :=
  inv s /\ live s /\ sm s <> rebooting /\ resends (ctx s) < budget (timing (ctx s)).

Definition resent_once (now : Z) (s : OtaSession) : OtaSession := mkSession (resend (at_time now (ctx s))) (sm s).

Lemma resend_dispatch s now e :
  resendable s -> kind_of e = KTimeout \/ e = EvNak kNakBadCrc ->
  dispatch s e now = Ret (inFlight (ctx s), resent_once now s) /\ resent s (resent_once now s) /\
  resends (ctx (resent_once now s)) = resends (ctx s) + 1.
Proof.
  intros (Hi & Hl & Hr & Hb) He. pose proof Hl as (Hf & Hid & Hd & Hx).
  assert (Hw : waitingOut (ctx s) = false) by (rewrite (proj2 Hi Hf); apply bool_decide_eq_false_2, Hr).
  destruct (good_resend s now (proj1 Hi) Hl Hr Hw Hb) as (Hi' & Hcfg & _).
  fold (at_time now (ctx s)) in Hi', Hcfg. fold (resent_once now s) in Hi'.
  split; [|split; [|reflexivity]].
  - unfold dispatch. fold (at_time now (ctx s)). rewrite process_event_eq. cbn [sm ctx]. apply Z.ltb_lt in Hb.
    destruct He as [He| ->].
    + rewrite He. cbv zeta. unfold kCanResend. change (resends (at_time now (ctx s))) with (resends (ctx s)).
      change (timing (at_time now (ctx s))) with (timing (ctx s)). rewrite Hb. unfold resent_once.
      destruct (sm s) eqn:E; try contradiction; try (exfalso; apply Hr; reflexivity); reflexivity.
    + cbn [kind_of]. cbv zeta. unfold kDamagedAndCanResend. change (resends (at_time now (ctx s))) with (resends (ctx s)).
      change (timing (at_time now (ctx s))) with (timing (ctx s)). cbn [nak_code]. rewrite Z.eqb_refl, Hb. cbn [andb]. unfold resent_once.
      destruct (sm s) eqn:E; try contradiction; try (exfalso; apply Hr; reflexivity); reflexivity.
  - unfold resent. split_and!; try reflexivity; assumption.
Qed.

(** Silence until the deadline: the frame goes out again. *)
Lemma silence_resends fuel now s x :
  resendable s -> let later := Z.max now (deadline (ctx s)) in
  converse (S fuel) now s x [] = converse fuel later (resent_once later s) x (inFlight (ctx s)).
Proof.
  intros Hs. cbv zeta. pose proof Hs as (Hi & Hl & Hr & _). cbn [converse]. rewrite (live_inactive s Hl).
  set (later := Z.max now (deadline (ctx s))). unfold onTick. rewrite (live_inactive s Hl), (live_not_waiting s Hi Hl Hr).
  replace (later <? deadline (ctx s)) with false by (symmetry; apply Z.ltb_ge; unfold later; lia).
  destruct (resend_dispatch s later EvTimeout Hs (or_introl eq_refl)) as (-> & _). reflexivity.
Qed.

Lemma nak_ok sq c : is_u16 sq -> is_u8 c -> frame_ok (nak sq c).
Proof. intros. apply frame_ok_intro; [unfold is_u8, kNak; lia|assumption|repeat constructor; apply H0|cbn; lia]. Qed.

(** A damaged frame: resent at once if the board quotes its number, and
    otherwise at the deadline. *)
Lemma damaged_resends s sq now :
  resendable s -> is_u16 sq ->
  hear s (nak sq kNakBadCrc) now = Some ([], s) \/
  hear s (nak sq kNakBadCrc) now = Some (inFlight (ctx s), resent_once now s).
Proof.
  intros Hs Hsq. pose proof Hs as (Hi & Hl & Hr & _). rewrite hear_frame by (apply nak_ok; [exact Hsq|unfold is_u8, kNakBadCrc; lia]).
  unfold onFrame. rewrite (live_inactive s Hl). cbn [nak type_ seq_ payload].
  change (kNak =? kInfo) with false. change (kNak =? kAck) with false. change (kNak =? kNak) with true. cbn [negb andb].
  destruct (sq =? seq (ctx s)); cbn [negb]; [right|left; reflexivity].
  rewrite bool_decide_eq_false_2 by discriminate. cbn [vec_get nth_error]. 
  destruct (resend_dispatch s now (EvNak kNakBadCrc) Hs (or_intror eq_refl)) as (E & _).
  change (vec_get [kNakBadCrc] 0) with (Ret kNakBadCrc). cbn [mbind outcome_bind]. rewrite E. reflexivity.
Qed.

(** [eventually_at s x now o s' x' now']: the conversation gets there. *)
Definition leads (now : Z) (s : OtaSession) (x : B) (o : list Z) (now' : Z) (s' : OtaSession) (x' : B) (o' : list Z) : Prop :=
  exists k, forall fuel, converse (k + fuel) now s x o = converse fuel now' s' x' o'.

Lemma leads_refl now s x o : leads now s x o now s x o.
Proof. exists O. reflexivity. Qed.

Lemma leads_trans n1 s1 x1 o1 n2 s2 x2 o2 n3 s3 x3 o3 :
  leads n1 s1 x1 o1 n2 s2 x2 o2 -> leads n2 s2 x2 o2 n3 s3 x3 o3 -> leads n1 s1 x1 o1 n3 s3 x3 o3.
Proof. intros [k1 H1] [k2 H2]. exists (k1 + k2)%nat. intros fuel. rewrite <- Nat.add_assoc, H1. apply H2. Qed.

Lemma leads_step now s x o now' s' x' o' :
  (forall fuel, converse (S fuel) now s x o = converse fuel now' s' x' o') -> leads now s x o now' s' x' o'.
Proof. intros H. exists 1%nat. exact H. Qed.

(** A transmission that does not get through is followed by another. *)
Lemma mishap_resends now s x f m :
  resendable s -> expected_frame s = Some f -> wire f (resends (ctx s)) = Some m ->
  (forall sq, m = Damaged sq -> is_u16 sq) ->
  exists now' s', leads now s x (inFlight (ctx s)) now' s' (if bool_decide (m = AnswerLost) then (answer x f).1 else x) (inFlight (ctx s')) /\
    resent s s' /\ resends (ctx s') = resends (ctx s) + 1.
Proof.
  intros Hs He Hw Hd. pose proof Hs as (Hi & Hl & _).
  assert (T : forall n y, exists now' s', leads n s y [] now' s' y (inFlight (ctx s')) /\ resent s s' /\ resends (ctx s') = resends (ctx s) + 1).
  { intros n y. exists (Z.max n (deadline (ctx s))), (resent_once (Z.max n (deadline (ctx s))) s).
    destruct (resend_dispatch s (Z.max n (deadline (ctx s))) EvTimeout Hs (or_introl eq_refl)) as (_ & R & N).
    split; [|split; assumption]. apply leads_step. intros fuel. apply (silence_resends fuel n s y Hs). }
  destruct m as [|sq|].
  - destruct (T now x) as (now' & s' & L & R). exists now', s'. split; [|exact R]. rewrite bool_decide_eq_false_2 by discriminate.
    eapply leads_trans; [|exact L]. apply leads_step. intros fuel. rewrite (converse_sent fuel now s x f Hi Hl He), Hw. reflexivity.
  - rewrite bool_decide_eq_false_2 by discriminate. specialize (Hd sq eq_refl).
    destruct (damaged_resends s sq now Hs Hd) as [E|E].
    + destruct (T now x) as (now' & s' & L & R). exists now', s'. split; [|exact R].
      eapply leads_trans; [|exact L]. apply leads_step. intros fuel. rewrite (converse_sent fuel now s x f Hi Hl He), Hw, E. reflexivity.
    + exists now, (resent_once now s). destruct (resend_dispatch s now EvTimeout Hs (or_introl eq_refl)) as (_ & R & N).
      split; [|split; assumption]. apply leads_step. intros fuel. rewrite (converse_sent fuel now s x f Hi Hl He), Hw, E. reflexivity.
  - rewrite bool_decide_eq_true_2 by reflexivity. destruct (T now (answer x f).1) as (now' & s' & L & R). exists now', s'. split; [|exact R].
    eapply leads_trans; [|exact L]. apply leads_step. intros fuel. rewrite (converse_sent fuel now s x f Hi Hl He), Hw. reflexivity.
Qed.

(** Every frame is delivered in the end: to a board that is where it was, or
    where hearing the frame before left it. *)
Lemma delivered now s x f (P : B -> Prop) :
  usable (budget (timing (ctx s))) -> inv s -> live s -> sm s <> rebooting -> resends (ctx s) = 0 ->
  expected_frame s = Some f -> P x -> (type_ f <> kCommit -> forall y, P y -> P (answer y f).1) ->
  (forall y, P y -> frame_ok (answer y f).2) ->
  exists now1 s1 y, P y /\ resent s s1 /\
    forall s' o, onFrame s1 (answer y f).2 now1 = Ret (o, s') ->
      leads now s x (inFlight (ctx s)) now1 s' (answer y f).1 o.
Proof.
  intros Hw Hi Hl Hr H0 He HP Hclosed Hok. destruct (delivers _ Hw f) as (r & Hr0 & Er).
  set (bud := budget (timing (ctx s))) in *. assert (Hbud : budget (timing (ctx s)) = bud) by reflexivity.
  assert (Hd : exists d, Z.of_nat d = r - resends (ctx s)) by (exists (Z.to_nat r); lia). destruct Hd as [d Hd].
  assert (Hres : 0 <= resends (ctx s)) by lia. clearbody bud. clear H0.
  revert now s x Hi Hl Hr He HP Hbud Hd Hres. induction d as [|d IH]; intros now s x Hi Hl Hr He HP Hbud Hd Hres.
  all: destruct (wire f (resends (ctx s))) as [m|] eqn:Em.
  2, 4: exists now, s, x; split; [exact HP|]; split; [apply resent_refl; assumption|]; intros s' o E;
    apply leads_step; intros fuel; rewrite (converse_sent fuel now s x f Hi Hl He), Em, hear_frame, E by (apply Hok, HP); reflexivity.
  { exfalso. replace (resends (ctx s)) with r in Em by lia. congruence. }
  assert (Hs : resendable s) by (unfold resendable; split_and!; try assumption; lia).
  destruct (mishap_resends now s x f m Hs He Em) as (now1 & s1 & L & R & N).
  { intros sq ->. apply (damaged_number _ Hw _ _ _ Em). }
  pose proof R as (I1 & L1 & S1 & E1 & _ & _ & _ & _ & (_ & _ & T1)).
  destruct (IH now1 s1 (if bool_decide (m = AnswerLost) then (answer x f).1 else x)) as (now2 & s2 & y & Py & R2 & G);
    try assumption; try congruence; try lia.
  { case_bool_decide as Em'; [|exact HP]. apply Hclosed; [|exact HP]. intros Ec. subst m. exact (commit_answered _ Hw f _ Ec Em). }
  exists now2, s2, y. split; [exact Py|]. split; [apply (resent_trans s s1 s2 R R2)|].
  intros s' o E. eapply leads_trans; [exact L|]. apply G, E.
Qed.

(* ------------------------------------------------------------------ *)
(** ** One exchange *)

(** The session just after it sent a new frame in state [d]. *)
Definition sent_from (s s' : OtaSession) (d : state) (n : Z) : Prop :=
  inv s' /\ live s' /\ sm s' = d /\ resends (ctx s') = 0 /\ seq (ctx s') = u16 (seq (ctx s) + 1) /\
  sentBytes (ctx s') = n /\ same_config (ctx s) (ctx s').

Lemma send_fields ty pl w c c' :
  send ty pl w c = Ret c' ->
  sentBytes c' = sentBytes c /\ failure c' = failure c /\ outbox c' = inFlight c' /\ resends c' = 0 /\ seq c' = u16 (seq c + 1).
Proof.
  unfold send. intros (bytes & _ & H)%bind_ret_inv. injection H as <-. split_and!; reflexivity.
Qed.

Lemma sendDataChunk_fields c c' :
  sendDataChunk c = Ret c' ->
  sentBytes c' = sentBytes c /\ failure c' = failure c /\ outbox c' = inFlight c' /\ resends c' = 0 /\ seq c' = u16 (seq c + 1).
Proof.
  unfold sendDataChunk. intros (chunk & _ & H)%bind_ret_inv. apply send_fields in H. exact H.
Qed.

(** An action that sends one new frame and leaves [n] bytes acknowledged. *)
Definition sends (s : OtaSession) (act : outcome Context) (n : Z) : Prop :=
  forall c', act = Ret c' ->
    sentBytes c' = n /\ failure c' = failure (ctx s) /\ outbox c' = inFlight c' /\ resends c' = 0 /\ seq c' = u16 (seq (ctx s) + 1).

(** A reaction whose action sends keeps the session live in its destination. *)
Lemma dispatch_sends s e now act d n :
  inv0 s -> live s -> (waitingOut (ctx s) = false \/ sm s = rebooting) -> is_u32 (info_version e) ->
  process_event (mkSession (at_time now (ctx s)) (sm s)) e = (c ← act; Ret (true, mkSession c d)) ->
  d <> idle -> d <> done -> d <> failed -> sends s act n ->
  exists s', dispatch s e now = Ret (inFlight (ctx s'), s') /\ sent_from s s' d n.
Proof.
  intros Hi Hl Hw He Hpe Hd1 Hd2 Hd3 Hact.
  destruct (dispatch_good s e now Hi Hl Hw He) as (o & s' & Hdis & Hg).
  exists s'. pose proof Hdis as E.
  change (process_event (mkSession (at_time now (ctx s)) (sm s)) e ≫= settle = Ret (o, s')) in Hdis.
  rewrite Hpe in Hdis. destruct act as [c'| |]; try discriminate.
  cbn in Hdis. injection Hdis as <- <-. destruct (Hact c' eq_refl) as (Hn & Hf & Ho & Hr & Hq).
  destruct Hg as (Hi' & Hcfg & _ & _). split; [cbn [ctx]; rewrite <- Ho; exact E|].
  unfold sent_from, live. cbn [ctx sm]. rewrite Hf. destruct Hl as [Hf0 _]. split_and!; auto; apply Hcfg.
Qed.

(** The session waits for the answer to its first transmission. *)
Definition asking (s : OtaSession) (f : FlashFrame) (d : state) : Prop :=
  inv s /\ live s /\ sm s = d /\ resends (ctx s) = 0 /\ expected_frame s = Some f /\ d <> rebooting.

(** [said y f e s]: the board's answer is understood as the event [e]. *)
Definition said (s : OtaSession) (a : FlashFrame) (e : event) : Prop :=
  frame_ok a /\ forall s1 now1, live s1 -> seq (ctx s1) = seq (ctx s) -> onFrame s1 a now1 = dispatch s1 e now1.

(** An exchange whose answer makes the session send its next message. *)
Lemma exchange now s x f d0 (P P' : B -> Prop) e act d n :
  usable (budget (timing (ctx s))) -> asking s f d0 -> is_u32 (info_version e) -> P x ->
  (forall y, P y -> P' (answer y f).1 /\ said s (answer y f).2 e) -> (type_ f <> kCommit -> forall y, P' y -> P y) ->
  (forall s1 now1, resent s s1 ->
     process_event (mkSession (at_time now1 (ctx s1)) (sm s1)) e = (c ← act s1 now1; Ret (true, mkSession c d)) /\ sends s1 (act s1 now1) n) ->
  d <> idle -> d <> done -> d <> failed ->
  exists now' x' s', P' x' /\ leads now s x (inFlight (ctx s)) now' s' x' (inFlight (ctx s')) /\ sent_from s s' d n.
Proof.
  intros Hw (Hi & Hl & Hst & H0 & He & Hd0) Hu HP Hans Hcl Hact Hd1 Hd2 Hd3. rewrite <- Hst in Hd0.
  destruct (delivered now s x f P Hw Hi Hl Hd0 H0 He HP) as (now1 & s1 & y & Py & R & G).
  { intros Ht y Hy. apply (Hcl Ht), Hans, Hy. }
  { intros y Hy. apply Hans, Hy. }
  pose proof R as (I1 & L1 & S1 & _ & Q1 & _ & _ & _ & (C1 & C2 & C3)).
  destruct (Hact s1 now1 R) as [Hpe Hs]. destruct (Hans y Py) as (Py' & _ & Hon).
  destruct (dispatch_sends s1 e now1 (act s1 now1) d n (proj1 I1) L1) as (s' & E & F); try assumption.
  { left. apply live_not_waiting; congruence. }
  exists now1, (answer y f).1, s'. split; [exact Py'|]. split; [apply G; rewrite Hon; assumption|].
  destruct F as (F1 & F2 & F3 & F4 & F5 & F6 & (F7 & F8 & F9)). unfold sent_from, same_config. split_and!; congruence.
Qed.

Lemma said_ack s : inv s -> said s (ack (seq (ctx s))) EvAck.
Proof.
  intros [(_ & Hq & _) _]. split.
  - apply frame_ok_intro; [unfold is_u8, kAck; lia|exact Hq|constructor|cbn; lia].
  - intros s1 now1 Hl Es. unfold onFrame. rewrite (live_inactive s1 Hl). cbn [ack type_ seq_ payload]. rewrite Es, Z.eqb_refl. reflexivity.
Qed.

Lemma said_info s v active st :
  inv s -> is_u32 v -> active = 1 \/ active = 2 -> is_u8 st ->
  said s (mkFrame kInfo (seq (ctx s)) (le32 v ++ [active; st])) (EvInfo v st).
Proof.
  intros [(_ & Hq & _) _] Hv Ha Hs. split.
  - apply frame_ok_intro; [unfold is_u8, kInfo; lia|exact Hq| |cbn; lia].
    apply bytes_ok_app. split; [auto with hmi|]. repeat constructor; try apply Hs; lia.
  - intros s1 now1 Hl _. unfold onFrame. rewrite (live_inactive s1 Hl). cbn [type_ seq_ payload].
    change (kInfo =? kInfo) with true. cbn [negb andb].
    change (kInfo =? kAck) with false. change (kInfo =? kNak) with false. cbn iota.
    unfold le32. cbn [app length Nat.eqb kInfoPayloadBytes negb].
    unfold kInfoVersionAt. rewrite read32_of_le32, of_le32_le32 by
      (try assumption; unfold is_u8, is_u32 in *; zdm). reflexivity.
Qed.

(** What the board answers to a frame of the session. *)
Lemma board_answers s y f d :
  asking s f d -> answers (view y) (seq_ f) (decode f) (view (answer y f).1) (answer y f).2.
Proof.
  intros ([(_ & _ & _ & Hlv) _] & [Hf _] & _ & _ & He & _). destruct (Hlv Hf) as (_ & _ & Hfl).
  unfold flight_ok in Hfl. rewrite He in Hfl. apply follows, Hfl.
Qed.

(* ------------------------------------------------------------------ *)
(** ** The exchanges of an update *)

Definition state_byte (b : Board) : Z := if confirmed b then kStateConfirmed else kStateTrial.

Lemma state_byte_ok b : is_u8 (state_byte b).
Proof. unfold state_byte, is_u8, kStateConfirmed, kStateTrial. destruct (confirmed b); lia. Qed.

(** INFO_REQ, whichever state asks. *)
Lemma info_answer s y sq d b :
  asking s (mkFrame kInfoReq sq []) d -> sq = seq (ctx s) -> view y = b -> is_u32 (running b) ->
  view (answer y (mkFrame kInfoReq sq [])).1 = b /\
  said s (answer y (mkFrame kInfoReq sq [])).2 (EvInfo (running b) (state_byte b)).
Proof.
  intros Ha -> <- Hv. pose proof (board_answers s y _ d Ha) as A. cbn in A. destruct Ha as (Hi & _).
  destruct (info_answered _ _ _ _ A) as (-> & active & Hact & ->). split; [reflexivity|]. apply said_info; auto. apply state_byte_ok.
Qed.

(** The running version is another: BEGIN goes out. *)
Lemma probe_exchange now s x b :
  usable (budget (timing (ctx s))) -> asking s (mkFrame kInfoReq (seq (ctx s)) []) probing ->
  view x = b -> running b <> version (ctx s) -> is_u32 (running b) ->
  exists now' x' s', view x' = b /\ leads now s x (inFlight (ctx s)) now' s' x' (inFlight (ctx s')) /\ sent_from s s' beginning 0.
Proof.
  intros Hw Ha Hx Hrun Hv. pose proof Ha as (Hi & Hl & Hst & _).
  apply (exchange now s x (mkFrame kInfoReq (seq (ctx s)) []) probing (fun y => view y = b) (fun y => view y = b) (EvInfo (running b) (state_byte b))
    (fun s1 now1 => kSendBegin (at_time now1 (ctx s1)) (EvInfo (running b) (state_byte b)))); try discriminate; auto.
  - intros y Hy. apply (info_answer s y _ probing); auto.
  - intros s1 now1 (_ & _ & S1 & _ & Q1 & N1 & _ & _ & (_ & V1 & _)). rewrite process_event_eq. cbn [sm ctx]. rewrite S1, Hst. cbn [kind_of]. cbv zeta.
    unfold kIsConfirmedTarget, kIsTrialTarget, kNeedsUpdate. cbn [info_version].
    change (version (at_time now1 (ctx s1))) with (version (ctx s1)). apply Z.eqb_neq in Hrun. rewrite V1, Hrun. cbn [andb negb]. split; [reflexivity|].
    intros c' Hc'. apply send_fields in Hc' as (-> & -> & -> & -> & ->). cbn. rewrite N1.
    destruct Hi as [(_ & _ & _ & Hlv) _]. destruct (Hlv (proj1 Hl)) as (_ & Hp & _). unfold progress_ok in Hp. rewrite Hst in Hp. tauto.
Qed.

(** The image arrived so far, and what the board knows about it; the frame in
    flight is new to it. *)
Definition writing (img : list Z) (ver : Z) (n : nat) (sq : Z) (b : Board) : Prop :=
  announced b = Some (Z.of_nat (length img), crc32IsoHdlc img, ver) /\ bank b = take n img /\ handled b <> Some sq.

(** All of it arrived, padded to the flash word. *)
Definition written (img : list Z) (ver : Z) (b : Board) : Prop :=
  announced b = Some (Z.of_nat (length img), crc32IsoHdlc img, ver) /\ bank b = padded img.

Lemma decode_begin sq size crc ver :
  is_u32 size -> is_u32 crc -> is_u32 ver -> size <> 0 ->
  decode (mkFrame kBegin sq (le32 size ++ le32 crc ++ le32 ver)) = Some (Begin size crc ver).
Proof.
  intros Hs Hc Hv H0. unfold decode, le32. cbn [type_ payload app kBegin]. rewrite !of_le32_le32 by assumption.
  apply Z.eqb_neq in H0. rewrite H0. reflexivity.
Qed.

Lemma decode_data sq offset body :
  is_u32 offset -> body <> [] -> Z.of_nat (length body) mod 8 = 0 ->
  decode (mkFrame kData sq (le32 offset ++ body)) = Some (Data offset body).
Proof.
  intros Ho Hb H8. unfold decode, le32. cbn [type_ payload app kData]. rewrite of_le32_le32 by assumption.
  rewrite H8. replace (Z.of_nat (length body) =? 0) with false by (destruct body; [contradiction|symmetry; apply Z.eqb_neq; cbn; lia]).
  reflexivity.
Qed.

(** BEGIN accepted: the first DATA frame goes out. *)
Lemma begin_exchange now s x img ver :
  usable (budget (timing (ctx s))) -> image (ctx s) = img -> version (ctx s) = ver ->
  asking s (mkFrame kBegin (seq (ctx s)) (begin_payload (ctx s))) beginning -> img <> [] -> Z.of_nat (length img) <= kBankBytes ->
  exists now' x' s', leads now s x (inFlight (ctx s)) now' s' x' (inFlight (ctx s')) /\ sent_from s s' sending 0 /\
    writing img ver 0 (seq (ctx s')) (view x').
Proof.
  intros Hw <- <- Ha Hne Hsz. pose proof Ha as (Hi & Hl & Hst & _). pose proof Hi as [((Himg & Hver & _) & _) _].
  set (n := Z.of_nat (length (image (ctx s)))) in *.
  assert (Hn : is_u32 n /\ n <> 0) by (unfold kBankBytes in Hsz; unfold is_u32, n in *; destruct (image (ctx s)); [contradiction|cbn [length] in *; lia]).
  assert (Ed : decode (mkFrame kBegin (seq (ctx s)) (begin_payload (ctx s))) =
    Some (Begin n (crc32IsoHdlc (image (ctx s))) (version (ctx s)))).
  { unfold begin_payload, imageSize. fold n. rewrite (u32_id n) by apply Hn. apply decode_begin; try apply Hn; auto using crc32_range. }
  set (P' := fun y => announced (view y) = Some (n, crc32IsoHdlc (image (ctx s)), version (ctx s)) /\ bank (view y) = [] /\ handled (view y) = None).
  destruct (exchange now s x (mkFrame kBegin (seq (ctx s)) (begin_payload (ctx s))) beginning (fun _ => True) P' EvAck
    (fun s1 now1 => kSendFirstChunk (at_time now1 (ctx s1)) EvAck) sending 0) as (now' & x' & s' & (Q1 & Q2 & Q3) & L & F);
    try discriminate; try exact I; try exact Ha; auto.
  - unfold is_u32. cbn. lia.
  - intros y _. pose proof (board_answers s y _ _ Ha) as A. rewrite Ed in A. cbn [seq_] in A.
    destruct (begin_answer _ _ _ _ _ _ _ A Hsz) as [E ->]. unfold P'. rewrite E. split; [split_and!; reflexivity|apply said_ack, Hi].
  - intros s1 now1 (_ & _ & S1 & _). rewrite process_event_eq. cbn [sm ctx]. rewrite S1, Hst. split; [reflexivity|].
    intros c' Hc'. unfold kSendFirstChunk in Hc'. apply sendDataChunk_fields in Hc' as (-> & -> & -> & -> & ->). auto.
  - exists now', x', s'. split; [exact L|]. split; [exact F|]. unfold writing. rewrite Q1, Q2, Q3. split_and!; [reflexivity..|discriminate].
Qed.

Lemma seq_moves s s' d n : is_u16 (seq (ctx s)) -> sent_from s s' d n -> Some (seq (ctx s)) <> Some (seq (ctx s')).
Proof. intros Hq (_ & _ & _ & _ & E & _). rewrite E. unfold is_u16, u16 in *. intros [= H]. revert H. zdm. Qed.

(** The slices of the image concatenate, the last one padded. *)
Lemma chunk_next img n : (n + 256 < length img)%nat -> take n img ++ padded (slice n 256 img) = take (n + 256) img.
Proof.
  intros H. unfold padded. rewrite length_slice by lia. cbn. rewrite app_nil_r. unfold slice. apply take_take_drop.
Qed.

Lemma chunk_last img n : (n < length img <= n + 256)%nat -> Z.of_nat n mod 8 = 0 -> take n img ++ padded (slice n 256 img) = padded img.
Proof.
  intros H H8. unfold padded, slice. rewrite (take_ge (drop n img)) by (rewrite length_drop; lia).
  rewrite app_assoc, take_drop, length_drop. do 2 f_equal. unfold kFlashWordBytes. f_equal. zdm.
Qed.

Lemma padded_shape l : Z.of_nat (length (padded l)) mod 8 = 0.
Proof. rewrite padded_length. unfold kFlashWordBytes. zdm. Qed.

Lemma asking_sent s s' d n f :
  sent_from s s' d n -> expected_frame s' = Some f -> d <> rebooting -> asking s' f d.
Proof. intros (A & B' & C & D & _) E F. unfold asking. auto 7. Qed.

(** The DATA frame of a session in Sending. *)
Lemma data_frame s n :
  inv s -> live s -> sm s = sending -> sentBytes (ctx s) = Z.of_nat n -> Z.of_nat (length (image (ctx s))) <= kBankBytes ->
  expected_frame s = Some (mkFrame kData (seq (ctx s)) (le32 (Z.of_nat n) ++ padded (slice n 256 (image (ctx s))))) /\
  (n < length (image (ctx s)))%nat /\ chunkBytes (ctx s) = Z.min 256 (Z.of_nat (length (image (ctx s))) - Z.of_nat n).
Proof.
  intros [(_ & _ & _ & Hlv) _] Hl Hst Hn Hsz. destruct (Hlv (proj1 Hl)) as (_ & Hp & _).
  unfold progress_ok in Hp. rewrite Hst in Hp. unfold imageSize, kDataChunkBytes, kBankBytes in *. rewrite Hn in *. destruct Hp as [Hp Hch].
  split; [|split; [lia|exact Hch]]. unfold expected_frame, data_payload. rewrite Hst, Hn, Hch, Nat2Z.id, u32_id by (unfold is_u32; lia).
  rewrite <- (slice_min n 256). do 5 f_equal. lia.
Qed.

Lemma data_exchange now s x img ver n :
  usable (budget (timing (ctx s))) -> inv s -> live s -> sm s = sending -> resends (ctx s) = 0 -> image (ctx s) = img ->
  sentBytes (ctx s) = Z.of_nat n -> Z.of_nat n mod 8 = 0 -> Z.of_nat (length img) <= kBankBytes ->
  writing img ver n (seq (ctx s)) (view x) ->
  exists now' x' s', leads now s x (inFlight (ctx s)) now' s' x' (inFlight (ctx s')) /\
    if decide (n + 256 < length img)%nat
    then sent_from s s' sending (Z.of_nat (n + 256)) /\ writing img ver (n + 256) (seq (ctx s')) (view x')
    else sent_from s s' committing (Z.of_nat (length img)) /\ written img ver (view x').
Proof.
  intros Hw Hi Hl Hst H0 Himg Hn H8 Hsz Hwr. pose proof Hi as [(_ & Hq & _) _].
  destruct (data_frame s n Hi Hl Hst Hn) as (He & Hlt & Hch); [congruence|]. rewrite Himg in *.
  set (body := padded (slice n 256 img)) in *. set (f := mkFrame kData (seq (ctx s)) (le32 (Z.of_nat n) ++ body)) in *.
  assert (Ha : asking s f sending) by (unfold asking; split_and!; auto; discriminate).
  assert (Ed : decode f = Some (Data (Z.of_nat n) body)).
  { apply decode_data; [unfold is_u32, kBankBytes in *; lia| |apply padded_shape]. intros E. apply (f_equal length) in E.
    unfold body, padded, slice in E. rewrite length_app, length_take, length_drop in E. cbn [length] in E. lia. }
  set (P' := fun y => announced (view y) = Some (Z.of_nat (length img), crc32IsoHdlc img, ver) /\
                      bank (view y) = take n img ++ body /\ handled (view y) = Some (seq (ctx s))).
  set (P := fun y => writing img ver n (seq (ctx s)) (view y) \/ P' y).
  assert (Hans : forall y, P y -> P' (answer y f).1 /\ said s (answer y f).2 EvAck).
  { intros y Hy. pose proof (board_answers s y _ _ Ha) as A. rewrite Ed in A. cbn [seq_ f] in A. destruct Hy as [(B1 & B2 & B3)|(B1 & B2 & B3)].
    - destruct (data_answer _ _ _ _ _ _ _ _ _ A B1 B3) as [E ->]; [rewrite B2, length_take; lia|lia|]. unfold P'. rewrite E. cbn. rewrite B2.
      split; [auto|apply said_ack, Hi].
    - destruct (data_again _ _ _ _ _ _ _ A B1 B3) as [E ->]. unfold P'. rewrite E. split; [auto|apply said_ack, Hi]. }
  assert (Hstep : forall s1 now1, resent s s1 -> kMoreToSend (at_time now1 (ctx s1)) EvAck = bool_decide (n + 256 < length img)%nat /\
    kAllSent (at_time now1 (ctx s1)) EvAck = negb (bool_decide (n + 256 < length img)%nat) /\ sm s1 = sending /\
    u64 (sentBytes (ctx s1) + chunkBytes (ctx s1)) = Z.min (Z.of_nat (n + 256)) (Z.of_nat (length img))).
  { intros s1 now1 (_ & _ & S1 & _ & _ & N1 & C1 & _ & (I1 & _ & _)). unfold kMoreToSend, kAllSent, imageSize, kBankBytes in *. cbn [sentBytes chunkBytes image at_time set_outbox set_now_].
    rewrite N1, C1, I1, Himg, Hn, Hch, u64_id by lia. split_and!; [case_bool_decide; [apply Z.ltb_lt|apply Z.ltb_ge]; lia|case_bool_decide; [apply Z.leb_gt|apply Z.leb_le]; lia|congruence|lia]. }
  assert (Hu0 : is_u32 (info_version EvAck)) by (unfold is_u32; cbn; lia).
  case_decide as Hd.
  - destruct (exchange now s x f sending P P' EvAck (fun s1 now1 => kAckChunkAndSendNext (at_time now1 (ctx s1)) EvAck) sending (Z.of_nat (n + 256)))
      as (now' & x' & s' & (Q1 & Q2 & Q3) & L & F); auto; try discriminate; [left; exact Hwr|intros _ y; right; assumption| |].
    + intros s1 now1 R. destruct (Hstep s1 now1 R) as (M & _ & S1 & U). rewrite process_event_eq. cbn [sm ctx]. rewrite S1. cbn [kind_of]. cbv zeta.
      rewrite M, bool_decide_eq_true_2 by exact Hd. split; [reflexivity|].
      intros c' Hc'. unfold kAckChunkAndSendNext in Hc'. apply sendDataChunk_fields in Hc' as (-> & -> & -> & -> & ->).
      cbn [sentBytes chunkBytes failure seq set_sentBytes at_time set_outbox set_now_]. rewrite U. split_and!; auto. lia.
    + exists now', x', s'. split; [exact L|]. split; [exact F|]. unfold writing. rewrite Q1, Q2, Q3.
      split; [reflexivity|]. split; [apply chunk_next, Hd|apply (seq_moves s s' _ _ Hq F)].
  - destruct (exchange now s x f sending P P' EvAck (fun s1 now1 => kAckChunkAndCommit (at_time now1 (ctx s1)) EvAck) committing (Z.of_nat (length img)))
      as (now' & x' & s' & (Q1 & Q2 & Q3) & L & F); auto; try discriminate; [left; exact Hwr|intros _ y; right; assumption| |].
    + intros s1 now1 R. destruct (Hstep s1 now1 R) as (M & A & S1 & U). rewrite process_event_eq. cbn [sm ctx]. rewrite S1. cbn [kind_of]. cbv zeta.
      rewrite M, A, bool_decide_eq_false_2 by exact Hd. split; [reflexivity|].
      intros c' Hc'. unfold kAckChunkAndCommit in Hc'. apply send_fields in Hc' as (-> & -> & -> & -> & ->).
      cbn [sentBytes chunkBytes failure seq set_sentBytes set_chunkBytes at_time set_outbox set_now_]. rewrite U. split_and!; auto. lia.
    + exists now', x', s'. split; [exact L|]. split; [exact F|]. unfold written. rewrite Q1, Q2.
      split; [reflexivity|]. apply chunk_last; [lia|exact H8].
Qed.

Lemma sent_from_trans s s1 s' d1 n1 d n : sent_from s s1 d1 n1 -> sent_from s1 s' d n ->
  inv s' /\ live s' /\ sm s' = d /\ resends (ctx s') = 0 /\ sentBytes (ctx s') = n /\ same_config (ctx s) (ctx s').
Proof.
  intros (_ & _ & _ & _ & _ & _ & (A & B' & C)) (D & E & F & G & _ & H & (I' & J & K)). unfold same_config. split_and!; congruence || assumption.
Qed.

(** The whole transfer, by induction on the bytes left. *)
Lemma transfer k img ver now s x n :
  (length img - n <= k * 256)%nat ->
  usable (budget (timing (ctx s))) -> inv s -> live s -> sm s = sending -> resends (ctx s) = 0 -> image (ctx s) = img ->
  sentBytes (ctx s) = Z.of_nat n -> Z.of_nat n mod 8 = 0 -> Z.of_nat (length img) <= kBankBytes ->
  writing img ver n (seq (ctx s)) (view x) ->
  exists now' x' s', leads now s x (inFlight (ctx s)) now' s' x' (inFlight (ctx s')) /\
    inv s' /\ live s' /\ sm s' = committing /\ resends (ctx s') = 0 /\ sentBytes (ctx s') = Z.of_nat (length img) /\
    same_config (ctx s) (ctx s') /\ written img ver (view x').
Proof.
  revert now s x n. induction k as [|k IH]; intros now s x n Hk Hw Hi Hl Hst H0 Himg Hn H8 Hsz Hwr.
  - destruct (data_frame s n Hi Hl Hst Hn) as (_ & Hlt & _); [congruence|]. rewrite Himg in Hlt. lia.
  - destruct (data_exchange now s x img ver n Hw Hi Hl Hst H0 Himg Hn H8 Hsz Hwr) as (n1 & x1 & s1 & L1 & Hcase).
    case_decide as Hd; destruct Hcase as [F W]; pose proof F as (I1 & Lv1 & S1 & R1 & _ & N1 & (C1 & C2 & C3)).
    + destruct (IH n1 s1 x1 (n + 256)%nat) as (n2 & x2 & s2 & L2 & I2 & Lv2 & S2 & R2 & N2 & (D1 & D2 & D3) & W2); auto; try congruence; try lia; [zdm|].
      exists n2, x2, s2. split; [eapply leads_trans; eassumption|]. unfold same_config. split_and!; congruence || assumption.
    + exists n1, x1, s1. unfold same_config. split_and!; congruence || assumption.
Qed.

(** COMMIT accepted: the session waits out the reset, then probes again. *)
Lemma commit_ack s now :
  inv s -> live s -> sm s = committing ->
  exists s1, dispatch s EvAck now = Ret ([], s1) /\ inv s1 /\ live s1 /\ sm s1 = rebooting /\
    waitingOut (ctx s1) = true /\ same_config (ctx s) (ctx s1) /\ sentBytes (ctx s1) = sentBytes (ctx s).
Proof.
  intros Hi Hl Hst.
  destruct (dispatch_good s EvAck now (proj1 Hi) Hl) as (o & s1 & Hdis & Hi1 & Hcfg & _ & _).
  { left. apply live_not_waiting; congruence || assumption. }
  { unfold is_u32. cbn. lia. }
  exists s1. pose proof Hdis as Hd. unfold dispatch in Hd. rewrite process_event_eq in Hd.
  cbn [sm ctx] in Hd. rewrite Hst in Hd. cbn in Hd. injection Hd as <- <-.
  split; [exact Hdis|]. split; [exact Hi1|].
  split; [split; [exact (proj1 Hl)|split_and!; discriminate]|].
  split_and!; try reflexivity; exact Hcfg.
Qed.

(** The reset waited out: INFO_REQ goes out. *)
Lemma reboot_probes now s x n :
  inv s -> live s -> sm s = rebooting -> waitingOut (ctx s) = true -> sentBytes (ctx s) = n ->
  exists now' s', leads now s x [] now' s' x (inFlight (ctx s')) /\ sent_from s s' rechecking n.
Proof.
  intros Hi Hl Hst Hwait Hn. set (later := Z.max now (deadline (ctx s))). set (s2 := mkSession (set_waitingOut false (ctx s)) (sm s)).
  destruct (dispatch_sends s2 EvRebootDone later (kSendInfoReq (at_time later (ctx s2)) EvRebootDone) rechecking n)
    as (s' & Hdis & F); try discriminate; auto; try apply Hi.
  { unfold is_u32. cbn. lia. }
  { rewrite process_event_eq. cbn [sm ctx s2]. rewrite Hst. reflexivity. }
  { intros c' Hc'. apply send_fields in Hc' as (-> & -> & -> & -> & ->). auto. }
  exists later, s'. split; [|exact F]. apply leads_step. intros fuel. cbn [converse]. rewrite (live_inactive s Hl). fold later.
  unfold onTick. rewrite (live_inactive s Hl), Hwait. replace (later <? deadline (ctx s)) with false by (symmetry; apply Z.ltb_ge; unfold later; lia).
  fold s2. rewrite Hdis. reflexivity.
Qed.

Lemma flash_padded img b : bank b = padded img -> flash b (Z.of_nat (length img)) = img.
Proof. intros E. unfold flash, padded in *. rewrite Nat2Z.id, E, <- app_assoc. apply take_app_length. Qed.

Lemma commit_exchange now s x img ver :
  usable (budget (timing (ctx s))) -> asking s (mkFrame kCommit (seq (ctx s)) []) committing -> written img ver (view x) ->
  exists now' x' s', view x' = switched ver (view x) /\ leads now s x (inFlight (ctx s)) now' s' x' (inFlight (ctx s')) /\
    inv s' /\ live s' /\ sm s' = rechecking /\ resends (ctx s') = 0 /\ sentBytes (ctx s') = sentBytes (ctx s) /\ same_config (ctx s) (ctx s').
Proof.
  intros Hw Ha [Hann Hbank]. pose proof Ha as (Hi & Hl & Hst & H0 & He & Hd).
  assert (Hans : forall y, view y = view x -> view (answer y (mkFrame kCommit (seq (ctx s)) [])).1 = switched ver (view x) /\
    said s (answer y (mkFrame kCommit (seq (ctx s)) [])).2 EvAck).
  { intros y Hy. pose proof (board_answers s y _ _ Ha) as A. change (decode _) with (Some Commit) in A. cbn [seq_] in A. rewrite Hy in A.
    destruct (commit_answer _ _ _ _ _ _ _ A Hann) as [E ->]; [rewrite (flash_padded img _ Hbank); reflexivity|]. split; [exact E|apply said_ack, Hi]. }
  destruct (delivered now s x _ (fun y => view y = view x) Hw Hi Hl ltac:(congruence) H0 He eq_refl) as (n1 & s1 & y & Py & R & G).
  { intros Ht. contradiction. }
  { intros y Hy. apply Hans, Hy. }
  destruct (Hans y Py) as (E & _ & Hon). pose proof R as (I1 & L1 & S1 & _ & Q1 & N1 & _ & _ & (C1 & C2 & C3)).
  destruct (commit_ack s1 n1 I1 L1 ltac:(congruence)) as (s2 & Hdis & I2 & L2 & S2 & W2 & (D1 & D2 & D3) & N2).
  destruct (reboot_probes n1 s2 (answer y (mkFrame kCommit (seq (ctx s)) [])).1 _ I2 L2 S2 W2 eq_refl) as (n3 & s3 & L3 & (I3 & Lv3 & S3 & R3 & _ & N3 & (F1 & F2 & F3))).
  exists n3, (answer y (mkFrame kCommit (seq (ctx s)) [])).1, s3. split; [exact E|]. split.
  - eapply leads_trans; [|exact L3]. apply G. rewrite Hon by assumption. exact Hdis.
  - unfold same_config. split_and!; congruence || assumption.
Qed.

(** The new image answers with its version: CONFIRM goes out. *)
Lemma recheck_exchange now s x b :
  usable (budget (timing (ctx s))) -> asking s (mkFrame kInfoReq (seq (ctx s)) []) rechecking ->
  view x = b -> running b = version (ctx s) ->
  exists now' x' s', view x' = b /\ leads now s x (inFlight (ctx s)) now' s' x' (inFlight (ctx s')) /\ sent_from s s' confirming (sentBytes (ctx s)).
Proof.
  intros Hw Ha Hx Hrun. pose proof Ha as (Hi & Hl & Hst & _). pose proof Hi as [((_ & Hv & _) & _) _]. rewrite <- Hrun in Hv.
  apply (exchange now s x (mkFrame kInfoReq (seq (ctx s)) []) rechecking (fun y => view y = b) (fun y => view y = b) (EvInfo (running b) (state_byte b))
    (fun s1 now1 => kSendConfirm (at_time now1 (ctx s1)) (EvInfo (running b) (state_byte b)))); try discriminate; auto.
  - intros y Hy. apply (info_answer s y _ rechecking); auto.
  - intros s1 now1 (_ & _ & S1 & _ & Q1 & N1 & _ & _ & (_ & V1 & _)). rewrite process_event_eq. cbn [sm ctx]. rewrite S1, Hst. cbn [kind_of]. cbv zeta.
    unfold kIsTargetVersion. cbn [info_version]. change (version (at_time now1 (ctx s1))) with (version (ctx s1)).
    rewrite V1, Hrun, Z.eqb_refl. split; [reflexivity|].
    intros c' Hc'. apply send_fields in Hc' as (-> & -> & -> & -> & ->). cbn. rewrite N1. auto.
Qed.

(** CONFIRM acknowledged: the conversation ends. *)
Lemma confirm_exchange now s x :
  usable (budget (timing (ctx s))) -> asking s (mkFrame kConfirm (seq (ctx s)) []) confirming ->
  announced (view x) = None -> confirmed (view x) = false -> handled (view x) = None ->
  exists k x' s', view x' = kept (seq (ctx s)) (view x) /\
    (forall fuel, converse (k + S fuel) now s x (inFlight (ctx s)) = Some (s', x')) /\
    stage s' = Done /\ sentBytes (ctx s') = sentBytes (ctx s).
Proof.
  intros Hw Ha Hann Hcf Hh. pose proof Ha as (Hi & Hl & Hst & H0 & He & Hd). set (b' := kept (seq (ctx s)) (view x)).
  assert (Hans : forall y, view y = view x \/ view y = b' -> view (answer y (mkFrame kConfirm (seq (ctx s)) [])).1 = b' /\
    said s (answer y (mkFrame kConfirm (seq (ctx s)) [])).2 EvAck).
  { intros y Hy. pose proof (board_answers s y _ _ Ha) as A. change (decode _) with (Some Confirm) in A. cbn [seq_] in A.
    destruct Hy as [Hy|Hy]; rewrite Hy in A;
      (destruct (confirm_answer _ _ _ _ A) as [E ->]; [exact Hann|first [left; exact Hcf|right; reflexivity]|]).
    - rewrite bool_decide_eq_false_2 in E by congruence. split; [exact E|apply said_ack, Hi].
    - rewrite bool_decide_eq_true_2 in E by reflexivity. split; [exact E|apply said_ack, Hi]. }
  destruct (delivered now s x _ (fun y => view y = view x \/ view y = b') Hw Hi Hl ltac:(congruence) H0 He (or_introl eq_refl)) as (n1 & s1 & y & Py & R & G).
  { intros _ y Hy. right. apply Hans, Hy. }
  { intros y Hy. apply Hans, Hy. }
  destruct (Hans y Py) as (E & _ & Hon). pose proof R as (I1 & L1 & S1 & _ & Q1 & N1 & _).
  set (s2 := mkSession (set_outbox [] (set_inFlight [] (at_time n1 (ctx s1)))) done).
  destruct (G s2 []) as [k Hk].
  { rewrite Hon by assumption. unfold dispatch. rewrite process_event_eq. cbn [sm ctx]. rewrite S1, Hst. reflexivity. }
  assert (Hdone : stage s2 = Done) by (unfold stage; rewrite bool_decide_eq_true_2 by apply L1; reflexivity).
  exists k, (answer y (mkFrame kConfirm (seq (ctx s)) [])).1, s2. split; [exact E|]. split; [|split; [exact Hdone|exact N1]].
  intros fuel. rewrite Hk. cbn [converse]. unfold inactive. rewrite Hdone. reflexivity.
Qed.

(** The first call: INFO_REQ goes out. *)
Lemma start_exchange img ver tm now :
  bytes_ok img -> img <> [] -> is_u32 ver -> Z.of_nat (length img) <= kBankBytes ->
  exists s, start (make img ver tm) now = Ret (inFlight (ctx s), s) /\
    asking s (mkFrame kInfoReq (seq (ctx s)) []) probing /\ image (ctx s) = img /\ version (ctx s) = ver /\ timing (ctx s) = tm.
Proof.
  intros Himg Hne Hver Hsz. unfold kBankBytes in Hsz.
  assert (Hi : inv (make img ver tm)) by (apply make_inv; auto; lia).
  destruct (start_steps (make img ver tm) now Hi) as (o & s & E & Hst).
  assert (Hf : frame_ok (mkFrame kInfoReq (u16 (0 + 1)) []))
    by (apply frame_ok_intro; [unfold is_u8, kInfoReq; lia|apply u16_range|constructor|cbn; lia]).
  assert (Hpos : imageSize (ctx (make img ver tm)) <> 0)
    by (unfold imageSize; cbn; destruct img; [contradiction|cbn; lia]).
  pose proof E as Es. unfold start in Es.
  rewrite bool_decide_eq_true_2 in Es by reflexivity. cbn [negb] in Es.
  rewrite process_event_eq in Es. cbn [sm ctx make kind_of] in Es. cbv zeta in Es.
  unfold kHasImage in Es. cbn [sm ctx make] in Hpos.
  change (imageSize (set_outbox [] (set_now_ now ?c))) with (imageSize c) in Es.
  apply Z.eqb_neq in Hpos. rewrite Hpos in Es. cbn [negb] in Es.
  unfold kSendInfoReq in Es. rewrite send_ret in Es by exact Hf.
  cbn [mbind outcome_bind snd] in Es. injection Es as <- <-.
  match type of E with _ = Ret (_, ?s) => exists s end.
  split; [exact E|]. destruct Hst as [[Ho _]|(Hi' & _)].
  - exfalso. apply (f_equal length) in Ho. rewrite frame_bytes_length in Ho. discriminate.
  - split; [|split_and!; reflexivity]. split; [exact Hi'|].
    split; [split_and!; reflexivity || discriminate|]. split_and!; reflexivity || discriminate.
Qed.

Lemma asking_info s d : inv s -> live s -> sm s = d -> resends (ctx s) = 0 -> d = probing \/ d = rechecking -> asking s (mkFrame kInfoReq (seq (ctx s)) []) d.
Proof. intros Hi Hl <- H0 Hd. unfold asking, expected_frame. destruct Hd as [E|E]; rewrite E; split_and!; auto; discriminate. Qed.

(** The whole update, from the first INFO_REQ. *)
Lemma update_runs now s x img ver :
  usable (budget (timing (ctx s))) -> asking s (mkFrame kInfoReq (seq (ctx s)) []) probing ->
  image (ctx s) = img -> version (ctx s) = ver -> img <> [] -> Z.of_nat (length img) <= kBankBytes ->
  is_u32 (running (view x)) -> running (view x) <> ver ->
  exists fuel s' x', converse fuel now s x (inFlight (ctx s)) = Some (s', x') /\ stage s' = Done /\
    sentBytes (ctx s') = Z.of_nat (length img) /\
    running (view x') = ver /\ confirmed (view x') = true /\ code (view x') = padded img.
Proof.
  intros Hw Ha Himg Hver Hne Hsz Hr Hother.
  destruct (probe_exchange now s x (view x) Hw Ha eq_refl) as (n1 & x1 & s1 & _ & L1 & (I1 & V1 & S1 & R1 & _ & N1 & (A1 & B1 & C1))); [congruence|exact Hr|].
  destruct (begin_exchange n1 s1 x1 img ver) as (n2 & x2 & s2 & L2 & (I2 & V2 & S2 & R2 & _ & N2 & (A2 & B2 & C2)) & W2); try congruence.
  { unfold asking, expected_frame. rewrite S1. split_and!; auto; discriminate. }
  destruct (transfer (S (length img)) img ver n2 s2 x2 0) as (n3 & x3 & s3 & L3 & I3 & V3 & S3 & R3 & N3 & (A3 & B3 & C3) & W3);
    try assumption; try congruence; try lia; try reflexivity.
  destruct (commit_exchange n3 s3 x3 img ver) as (n4 & x4 & s4 & E4 & L4 & I4 & V4 & S4 & R4 & N4 & (A4 & B4 & C4)); try congruence.
  { unfold asking, expected_frame. rewrite S3. split_and!; auto; discriminate. }
  destruct (recheck_exchange n4 s4 x4 (view x4)) as (n5 & x5 & s5 & E5 & L5 & (I5 & V5 & S5 & R5 & _ & N5 & (A5 & B5 & C5))); try congruence.
  { apply asking_info; auto. }
  { rewrite E4. cbn. congruence. }
  destruct (confirm_exchange n5 s5 x5) as (k & x6 & s6 & E6 & Run & D6 & N6); try (rewrite E5, E4; reflexivity); try congruence.
  { unfold asking, expected_frame. rewrite S5. split_and!; auto; discriminate. }
  destruct (leads_trans _ _ _ _ _ _ _ _ _ _ _ _ (leads_trans _ _ _ _ _ _ _ _ _ _ _ _ (leads_trans _ _ _ _ _ _ _ _ _ _ _ _
    (leads_trans _ _ _ _ _ _ _ _ _ _ _ _ L1 L2) L3) L4) L5) as [m Hm].
  exists (m + (k + 1))%nat, s6, x6. rewrite Hm, Run, E6, E5, E4. split_and!; try reflexivity; try congruence. apply W3.
Qed.

End Conversation.

(* ------------------------------------------------------------------ *)
(** ** Properties *)

(** C1: The complete update. For every non-empty image that fits a bank, every
    board that answers as the protocol document allows (malformed, misplaced
    and duplicate messages included, with its flash working and its own
    timers not running out) and runs another version, and every wire that
    gets each frame across within the resend budget, losing or damaging other
    transmissions and losing answers other than the one to COMMIT, the
    conversation through the byte-level codec ends with the session Done, the
    board running the new version, confirmed, its code exactly the image
    padded with erased bytes to the flash word, and every byte
    acknowledged. *)
Theorem ota_updates_board {B : Type} (view : B -> Board) (answer : B -> FlashFrame -> B * FlashFrame)
    (wire : FlashFrame -> Z -> option mishap) img ver tm x now :
  FollowsProtocol view answer -> usable wire (budget tm) ->
  bytes_ok img -> img <> [] -> Z.of_nat (length img) <= kBankBytes -> is_u32 ver ->
  is_u32 (running (view x)) -> running (view x) <> ver ->
  exists fuel out s0 s x',
    start (make img ver tm) now = Ret (out, s0) /\
    converse answer wire fuel now s0 x out = Some (s, x') /\
    stage s = Done /\ sentBytes (ctx s) = Z.of_nat (length img) /\
    running (view x') = ver /\ confirmed (view x') = true /\ code (view x') = padded img.
Proof.
  intros HB Hw Himg Hne Hsz Hver Hrun Hother.
  destruct (start_exchange img ver tm now Himg Hne Hver Hsz) as (s0 & Hstart & Ha & Ei & Ev & Et). rewrite <- Et in Hw.
  destruct (update_runs view answer wire now s0 x img ver Hw Ha Ei Ev Hne Hsz Hrun Hother) as (fuel & s & x' & R).
  exists fuel, (inFlight (ctx s0)), s0, s, x'. split; [exact Hstart|exact R].
Qed.

(** A session in flight hears ACK and INFO as the events they stand for. *)
Lemma onFrame_ack s now :
  live s -> onFrame s (ack (seq (ctx s))) now = dispatch s EvAck now.
Proof.
  intros Hl. unfold onFrame. rewrite (live_inactive s Hl). cbn [ack type_ seq_ payload].
  rewrite Z.eqb_refl. reflexivity.
Qed.

Lemma onFrame_info s sq v st now :
  live s -> is_u32 v ->
  onFrame s (mkFrame kInfo sq (le32 v ++ [1; st])) now = dispatch s (EvInfo v st) now.
Proof.
  intros Hl Hv. unfold onFrame. rewrite (live_inactive s Hl). cbn [type_ seq_ payload].
  change (kInfo =? kInfo) with true. cbn [negb andb].
  change (kInfo =? kAck) with false. change (kInfo =? kNak) with false. cbn iota.
  unfold le32. cbn [app length Nat.eqb kInfoPayloadBytes negb].
  unfold kInfoVersionAt. rewrite read32_of_le32, of_le32_le32 by
    (try assumption; unfold is_u8, is_u32 in *; zdm). reflexivity.
Qed.

(** A second answer stops the update. When a late answer and the answer to
    its resend both arrive, the first one moves the session on and the second
    one, which the protocol document calls harmless, ends the update with
    ProtocolError: an INFO that arrives in Beginning (INFO is exempt from the
    sequence check) and an ACK of COMMIT that arrives while the board
    reboots (the sequence number has not moved). *)
Theorem ota_second_answer_refuted s sq v st now :
  live s -> is_u32 v ->
  (sm s = beginning ->
     exists s', onFrame s (mkFrame kInfo sq (le32 v ++ [1; st])) now = Ret ([], s') /\
                stage s' = Failed /\ failure (ctx s') = ProtocolError) /\
  (sm s = rebooting ->
     exists s', onFrame s (ack (seq (ctx s))) now = Ret ([], s') /\
                stage s' = Failed /\ failure (ctx s') = ProtocolError).
Proof.
  intros Hl Hv. split; intros Hst.
  - rewrite onFrame_info by assumption. unfold dispatch. rewrite process_event_eq.
    cbn [sm ctx kind_of]. rewrite Hst. eexists. split; [reflexivity|]. split; reflexivity.
  - rewrite onFrame_ack by assumption. unfold dispatch. rewrite process_event_eq.
    cbn [sm ctx kind_of]. rewrite Hst. eexists. split; [reflexivity|]. split; reflexivity.
Qed.


(* ------------------------------------------------------------------ *)
(** ** Runs *)

(** A board that checks in the document's order and refuses to overwrite. *)
Definition board_answer_to (b : Board) (f : FlashFrame) : Board * FlashFrame :=
  let sq := seq_ f in
  match decode f with
  | None => (b, nak sq 7)
  | Some InfoReq => (b, mkFrame kInfo sq (le32 (running b) ++ [1; if confirmed b then kStateConfirmed else kStateTrial]))
  | Some (Begin size crc ver) => if kBankBytes <? size then (b, nak sq 3) else (open (size, crc, ver) b, ack sq)
  | Some (Data offset body) =>
      match announced b with
      | None => (b, nak sq 2)
      | Some (size, _, _) =>
          if bool_decide (handled b = Some sq) then (b, ack sq)
          else if negb (offset =? Z.of_nat (length (bank b))) || (size <=? offset) then (b, nak sq 4)
          else (programmed body sq b, ack sq)
      end
  | Some Commit =>
      match announced b with
      | None => (b, nak sq 2)
      | Some (size, crc, ver) =>
          if crc32IsoHdlc (flash b size) =? crc then (switched ver b, ack sq) else (closed b, nak sq 6)
      end
  | Some Confirm =>
      if bool_decide (announced b <> None) then (b, nak sq 2)
      else if bool_decide (handled b = Some sq) then (b, ack sq)
      else if confirmed b then (b, nak sq 2) else (kept sq b, ack sq)
  | Some Cancel => (closed b, ack sq)
  end.

#[export] Instance board_follows : FollowsProtocol (fun b : Board => b) board_answer_to.
Proof.
  intros b f _. unfold board_answer_to. destruct (decode f) as [[| size crc ver|offset body| | |]|]; cbn [fst snd].
  - apply answer_info. auto.
  - destruct (kBankBytes <? size) eqn:E; [apply Z.ltb_lt in E; apply answer_too_large, E|apply Z.ltb_ge in E; apply answer_begin, E].
  - destruct (announced b) as [[[size crc] ver]|] eqn:Ea; [|apply answer_data_closed, Ea].
    case_bool_decide as Eh; [apply (answer_again _ _ _ _ _ Ea Eh)|].
    destruct (Z.lt_trichotomy offset (Z.of_nat (length (bank b)))) as [Ho|[Ho|Ho]].
    + destruct (Z.leb_spec size offset); [|replace (offset =? _) with false by (symmetry; apply Z.eqb_neq; lia); apply (answer_overwrite _ _ _ _ _ _ _ _ _ Ea Eh Ho); lia].
      rewrite orb_true_r. apply (answer_gap _ _ _ _ _ _ _ Ea Eh). auto.
    + rewrite Ho, Z.eqb_refl. cbn [negb orb]. destruct (Z.leb_spec size (Z.of_nat (length (bank b)))); [apply (answer_gap _ _ _ _ _ _ _ Ea Eh); auto|].
      apply (answer_data _ _ _ _ _ _ _ Ea Eh eq_refl); lia.
    + replace (offset =? _) with false by (symmetry; apply Z.eqb_neq; lia). apply (answer_gap _ _ _ _ _ _ _ Ea Eh). auto.
  - destruct (announced b) as [[[size crc] ver]|] eqn:Ea; [|apply answer_commit_closed, Ea].
    destruct (Z.eqb_spec (crc32IsoHdlc (flash b size)) crc); [apply (answer_commit _ _ _ _ _ Ea); assumption|apply (answer_unverified _ _ _ _ _ Ea); assumption].
  - case_bool_decide as Ea; [apply answer_no_trial; auto|]. 
    case_bool_decide as Eh; [apply answer_confirmed_again; assumption|].
    destruct (confirmed b) eqn:Ec; [apply answer_no_trial; auto|apply answer_confirm; assumption].
  - apply answer_cancel.
  - apply answer_malformed.
Qed.

(** A board left in the middle of an earlier session. *)
Definition old_board : Board := mkBoard 1 true [] (Some (9, 9, 9)) [7] (Some 3).

(** A wire that damages first transmissions of DATA and loses first answers
    to CONFIRM and first transmissions of everything else. *)
Definition noisy_wire (f : FlashFrame) (r : Z) : option mishap :=
  if r =? 0 then
    if type_ f =? kData then Some (Damaged (u16 (seq_ f)))
    else if type_ f =? kConfirm then Some AnswerLost else Some Lost
  else if (r =? 1) && (type_ f =? kData) then Some (Damaged 0) else None.

Lemma noisy_wire_usable : usable noisy_wire 3.
Proof.
  constructor.
  - intros f. exists 2. split; [lia|reflexivity].
  - intros f r E. unfold noisy_wire. rewrite E. cbn. destruct (r =? 0), (r =? 1); discriminate.
  - intros f r sq. unfold noisy_wire. repeat case_match; intros [= <-]; [apply u16_range|unfold is_u16; lia].
Qed.

Lemma ota_updates_board_witness :
  exists fuel out s0 s b',
    start (make demo_image 2 defaultTiming) 0 = Ret (out, s0) /\
    converse board_answer_to noisy_wire fuel 0 s0 old_board out = Some (s, b') /\
    stage s = Done /\ sentBytes (ctx s) = Z.of_nat (length demo_image) /\
    running b' = 2 /\ confirmed b' = true /\ code b' = padded demo_image.
Proof.
  apply (ota_updates_board (fun b => b) board_answer_to noisy_wire demo_image 2 defaultTiming old_board 0 board_follows noisy_wire_usable demo_image_ok);
    [discriminate|unfold kBankBytes; cbn; lia|unfold is_u32; lia|unfold is_u32; cbn; lia|discriminate].
Defined.

(** A lost answer to COMMIT ends the update in failure. The board has reset
    into the new image and is in its trial; the resent COMMIT finds no session
    and is refused, the host reports BoardRefused, nobody confirms, and the
    board will roll back. The document says of a lost ACK that the board
    recognises the number and answers ACK again. *)
Definition commit_answer_lost (f : FlashFrame) (r : Z) : option mishap :=
  if (type_ f =? kCommit) && (r =? 0) then Some AnswerLost else None.

Theorem lost_commit_answer_refuted :
  exists out s0 s b',
    start (make demo_image 2 defaultTiming) 0 = Ret (out, s0) /\
    converse board_answer_to commit_answer_lost 20 0 s0 old_board out = Some (s, b') /\
    stage s = Failed /\ failure (ctx s) = BoardRefused /\ running b' = 2 /\ confirmed b' = false.
Proof. do 4 eexists. split; [vm_compute; reflexivity|]. split; [vm_compute; reflexivity|]. vm_compute. auto. Qed.

(** The session two ticks and one late INFO after the start, in Beginning. *)
Definition late_inputs : list input :=
  [IStart 0; ITick 2000; IFrameIn (mkFrame kInfo 1 (le32 1 ++ [1; 0])) 2001].
Definition late_session : OtaSession :=
  match feed_all (make demo_image 2 defaultTiming) late_inputs with
  | Ret (_, s) => s
  | _ => make [] 0 defaultTiming
  end.

Lemma ota_second_answer_refuted_witness :
  exists s', onFrame late_session (mkFrame kInfo 1 (le32 1 ++ [1; 0])) 2002 = Ret ([], s') /\
             stage s' = Failed /\ failure (ctx s') = ProtocolError.
Proof.
  refine (proj1 (ota_second_answer_refuted late_session 1 1 0 2002 _ _) _);
    [split_and!; vm_compute; congruence|unfold is_u32; lia|vm_compute; reflexivity].
Defined.
