(* ===== verification/OtaAgent.v ===== *)
(** * The update agent
    (src/integration/OtaAgent.{h,cpp})

    The actor around one session: the posted handlers of its io_context as a
    queue, the re-arming tick timer, the published snapshot, and start and
    stop as the critical sections they are made of. A run is any interleaving
    of steps by the caller, the transport thread, the timer and the agent
    thread. Properties: onDone fires once and only for a stopped session, the
    snapshot is the session's state, the timer keeps ticking until the end,
    and nothing moves after stop. *)
From S2P Require Import Prelude Wire FlashFrame FlashParser OtaSession.

Definition kTickInterval : Z := 5.

Record OtaProgress := mkProgress {
  p_stage : OtaStage;
  p_failure : OtaFailure;
  p_failureText : string;
  p_nakCode : Z;
  p_bytesAcknowledged : Z;
  p_imageSize : Z;
  p_alreadyUpToDate : bool;
  p_transportFailed : bool;
}.

(** Handlers posted to the agent's context, other than the timer's. *)
Inductive handler := HBegin | HFrame (f : FlashFrame).

(** [OtaAgent::Impl], the state of its context and timer, and what the
    outside world has seen ([wire] and [done_calls], most recent last). *)
Record Impl := mkImpl {
  session : OtaSession;
  started : bool;
  running : bool;
  starting : bool;              (**r inside start(), before its lock *)
  has_thread : bool;
  ctx_stopped : bool;           (**r io_context::stopped() *)
  queue : list handler;
  tick_at : option Z;           (**r expiry of the armed timer *)
  progress : OtaProgress;
  transportFailed : bool;
  doneFired : bool;
  wire : list (list Z);
  done_calls : list OtaProgress;
}.

Section Agent.
(** The callbacks: [has_send] and [has_done] say whether the std::functions
    hold a target, [done_stops] whether onDone calls stop(). *)
Context (has_send has_done done_stops : bool).

Definition with_session (s : OtaSession) (a : Impl) : Impl :=
  mkImpl s (started a) (running a) (starting a) (has_thread a) (ctx_stopped a) (queue a)
    (tick_at a) (progress a) (transportFailed a) (doneFired a) (wire a) (done_calls a).
Definition with_queue (q : list handler) (a : Impl) : Impl :=
  mkImpl (session a) (started a) (running a) (starting a) (has_thread a) (ctx_stopped a) q
    (tick_at a) (progress a) (transportFailed a) (doneFired a) (wire a) (done_calls a).
Definition with_tick (t : option Z) (a : Impl) : Impl :=
  mkImpl (session a) (started a) (running a) (starting a) (has_thread a) (ctx_stopped a) (queue a)
    t (progress a) (transportFailed a) (doneFired a) (wire a) (done_calls a).
Definition with_flags (st ru si th cs : bool) (a : Impl) : Impl :=
  mkImpl (session a) st ru si th cs (queue a)
    (tick_at a) (progress a) (transportFailed a) (doneFired a) (wire a) (done_calls a).

(** [doSend(bytes)]; [ok] is what the transport answers. *)
Definition doSend (bytes : list Z) (ok : bool) (a : Impl) : Impl :=
  if bool_decide (bytes = []) then a else
  mkImpl (session a) (started a) (running a) (starting a) (has_thread a) (ctx_stopped a) (queue a)
    (tick_at a) (progress a)
    (if negb has_send || negb ok then true else transportFailed a)
    (doneFired a) (if has_send then wire a ++ [bytes] else wire a) (done_calls a).

Definition snapshot_of (s : OtaSession) (transportFailed : bool) : OtaProgress :=
  mkProgress (stage s) (failure (ctx s)) (failureText s) (nakCode (ctx s)) (bytesAcknowledged s)
    (imageSize (ctx s)) (wasAlreadyUpToDate s) transportFailed.

Definition publishProgress (a : Impl) : Impl :=
  mkImpl (session a) (started a) (running a) (starting a) (has_thread a) (ctx_stopped a) (queue a)
    (tick_at a) (snapshot_of (session a) (transportFailed a)) (transportFailed a) (doneFired a)
    (wire a) (done_calls a).

(** [stop()] on the agent thread: it ends the run without joining. *)
Definition stop_inside (a : Impl) : Impl :=
  with_flags (started a) false (starting a) (has_thread a) true a.

Definition fireDoneIfTerminal (a : Impl) : bool * Impl :=
  match stage (session a) with
  | Done | Failed =>
      if doneFired a then (true, a) else
      let a := mkImpl (session a) (started a) (running a) (starting a) (has_thread a)
                 (ctx_stopped a) (queue a) (tick_at a) (progress a) (transportFailed a) true
                 (wire a) (if has_done then done_calls a ++ [progress a] else done_calls a) in
      (true, if has_done && done_stops then stop_inside a else a)
  | _ => (false, a)
  end.

Definition scheduleTick (now : Z) (a : Impl) : Impl := with_tick (Some (now + kTickInterval)) a.

Definition beginUpdate (now : Z) (ok : bool) (a : Impl) : outcome Impl :=
  '(o, s) ← start (session a) now;
  let a := publishProgress (doSend o ok (with_session s a)) in
  let '(terminal, a) := fireDoneIfTerminal a in
  Ret (if terminal then a else scheduleTick now a).

Definition agent_onTick (now : Z) (ok : bool) (a : Impl) : outcome Impl :=
  if negb (running a) then Ret a else
  '(o, s) ← onTick (session a) now;
  let a := publishProgress (doSend o ok (with_session s a)) in
  let '(terminal, a) := fireDoneIfTerminal a in
  Ret (if terminal then a else scheduleTick now a).

Definition agent_onFrame (f : FlashFrame) (now : Z) (ok : bool) (a : Impl) : outcome Impl :=
  if negb (running a) then Ret a else
  '(o, s) ← onFrame (session a) f now;
  let a := publishProgress (doSend o ok (with_session s a)) in
  Ret (fireDoneIfTerminal a).2.

(** [OtaAgent(send, image, version, timing, onDone)]. *)
Definition make_agent (img : list Z) (ver : Z) (tm : Timing) : Impl :=
  let s := make img ver tm in
  mkImpl s false false false false false [] None (snapshot_of s false) false false [] [].

(** The steps of a run. [StartLatch] and [StartThread] are the two halves of
    start(), before and under its lock; a stop() can fall between them.
    [RunHandler] and [TimerFires] happen on the agent thread. *)
Inductive step :=
| StartLatch
| StartThread
| Stop
| SinkFrame (f : FlashFrame)
| RunHandler (now : Z) (ok : bool)
| TimerFires (now : Z) (ok : bool).

(** [start()] up to the post: a second call returns at the latch. *)
Definition start_latch (a : Impl) : Impl :=
  if started a then a else
  with_queue (queue a ++ [HBegin]) (with_flags true true true (has_thread a) (ctx_stopped a) a).

(** [start()] under the lock. *)
Definition start_thread (a : Impl) : Impl :=
  if negb (starting a) then a else
  if negb (running a) then with_flags (started a) (running a) false (has_thread a) (ctx_stopped a) a
  else with_flags (started a) (running a) false true (ctx_stopped a) a.

(** [stop()] from another thread, up to and including the join. *)
Definition stop_outside (a : Impl) : Impl :=
  if negb (running a) then a else
  with_flags (started a) false (starting a) false true a.

(** The sink posts the frame; the agent still exists. *)
Definition frameSink (f : FlashFrame) (a : Impl) : Impl := with_queue (queue a ++ [HFrame f]) a.

(** The agent thread is inside context.run(). *)
Definition thread_runs (a : Impl) : bool := has_thread a && negb (ctx_stopped a).

Definition run_handler (now : Z) (ok : bool) (a : Impl) : outcome Impl :=
  if negb (thread_runs a) then Ret a else
  match queue a with
  | [] => Ret a
  | h :: q =>
      let a := with_queue q a in
      match h with
      | HBegin => beginUpdate now ok a
      | HFrame f => agent_onFrame f now ok a
      end
  end.

Definition timer_fires (now : Z) (ok : bool) (a : Impl) : outcome Impl :=
  if negb (thread_runs a) then Ret a else
  match tick_at a with
  | None => Ret a
  | Some t => if now <? t then Ret a else agent_onTick now ok (with_tick None a)
  end.

Definition agent_step (a : Impl) (e : step) : outcome Impl :=
  match e with
  | StartLatch => Ret (start_latch a)
  | StartThread => Ret (start_thread a)
  | Stop => Ret (stop_outside a)
  | SinkFrame f => Ret (frameSink f a)
  | RunHandler now ok => run_handler now ok a
  | TimerFires now ok => timer_fires now ok a
  end.

Fixpoint agent_run (a : Impl) (l : list step) : outcome Impl :=
  match l with
  | [] => Ret a
  | e :: l => a ← agent_step a e; agent_run a l
  end.

(* ------------------------------------------------------------------ *)
(** ** The invariant *)

Definition step_ok (e : step) : Prop :=
  match e with SinkFrame f => frame_ok f | _ => True end.

Definition handler_ok (h : handler) : Prop :=
  match h with HBegin => True | HFrame f => frame_ok f end.

Definition terminal (s : OtaSession) : bool :=
  match stage s with Done | Failed => true | _ => false end.

(** Everything but the timer. *)
Record agent_core (a : Impl) : Prop := {
  ac_session : inv (session a);
  ac_queue : Forall handler_ok (queue a);
  ac_progress : progress a = snapshot_of (session a) (transportFailed a);
  ac_done : doneFired a = terminal (session a);
  ac_calls : done_calls a = if has_done && doneFired a then [progress a] else [];
  ac_wire : Forall (fun o => exists f,
              host_frame (image (ctx (session a))) (version (ctx (session a))) f /\
              frame_ok f /\ o = frame_bytes f) (wire a);
  ac_idle : started a = false -> running a = false /\ ctx_stopped a = false;
  ac_stopped : ctx_stopped a = true -> running a = false;
}.

(** The timer chain is alive: the first handler is still to run, or the
    timer is armed. *)
Definition ticking (a : Impl) : Prop :=
  started a = true -> running a = true -> terminal (session a) = false ->
  HBegin ∈ queue a \/ tick_at a <> None.

(** The common tail of the three handlers. *)
Definition react (o : list Z) (s : OtaSession) (ok : bool) (a : Impl) : bool * Impl :=
  fireDoneIfTerminal (publishProgress (doSend o ok (with_session s a))).

Lemma terminal_effort s : terminal s = true -> effort s = 0.
Proof.
  unfold terminal, stage, effort. case_bool_decide; cbn [negb]; [|reflexivity].
  destruct (sm s); congruence.
Qed.

Lemma doSend_session o ok a : session (doSend o ok a) = session a.
Proof. unfold doSend. case_bool_decide; reflexivity. Qed.

(** A reaction keeps everything but the timer; it answers whether the session
    has stopped, and touches neither the queue nor the timer. *)
Lemma react_core o s ok a :
  agent_core a -> started a = true -> steps (session a) (Ret (o, s)) ->
  let r := react o s ok a in
  agent_core r.2 /\ r.1 = terminal s /\ session r.2 = s /\ queue r.2 = queue a /\
  tick_at r.2 = tick_at a /\ started r.2 = started a /\
  (terminal s = false -> running r.2 = running a).
Proof.
  intros [Hs Hq Hp Hd Hc Hw Hi Hst] Hstarted Hsteps. cbv zeta.
  assert (Hs' : inv s) by (eapply steps_inv; [exact Hs|exact Hsteps|reflexivity]).
  destruct Hsteps as (o1 & s1 & [= <- <-] & Hcase).
  assert (Hnew : (o = [] /\ s = session a) \/
     terminal (session a) = false /\ same_config (ctx (session a)) (ctx s) /\
     (o = [] \/ failure (ctx s) = NoFailure /\ exists f, expected_frame s = Some f /\ o = frame_bytes f)).
  { destruct Hcase as [H|(_ & Hcfg & Ho & He)]; [left; exact H|right].
    split; [|split; assumption]. destruct (terminal (session a)) eqn:Et; [|reflexivity].
    apply terminal_effort in Et. pose proof (effort_nonneg s Hs'). lia. }
  destruct a as [s0 st ru si th cs q ta pr tf df wi dc]. cbn in *. subst pr df st.
  assert (Hwire : Forall (fun o => exists f, host_frame (image (ctx s)) (version (ctx s)) f /\
                      frame_ok f /\ o = frame_bytes f)
             (if bool_decide (o = []) then wi else if has_send then wi ++ [o] else wi)).
  { destruct Hnew as [[-> ->]|(_ & (Ei & Ev & _) & Ho)]; [exact Hw|]. rewrite <- Ei, <- Ev in Hw.
    case_bool_decide as Eo; [exact Hw|]. destruct has_send; [|exact Hw].
    apply Forall_app. split; [exact Hw|]. constructor; [|constructor].
    destruct Ho as [Ho|(Hf & f & He & ->)]; [contradiction|]. exists f.
    split; [apply expected_host_frame; assumption|]. split; [|reflexivity].
    destruct Hs' as [(_ & _ & _ & Hlv) _]. destruct (Hlv Hf) as (_ & _ & Hfl).
    unfold flight_ok in Hfl. rewrite He in Hfl. apply Hfl. }
  unfold react, doSend, publishProgress, fireDoneIfTerminal, with_session. cbn.
  destruct Hnew as [[-> ->]|(Et & _ & _)].
  - rewrite bool_decide_eq_true_2 by reflexivity. cbn. rewrite bool_decide_eq_true_2 in Hwire by reflexivity.
    destruct (terminal s0) eqn:Et; pose proof Et as Et'; unfold terminal in Et';
      destruct (stage s0) eqn:Es; try discriminate; cbn;
      (split; [constructor; cbn; rewrite ?Et; auto|split_and!; auto]).
  - rewrite Et in *. rewrite andb_false_r in Hc. subst dc.
    destruct (bool_decide (o = [])) eqn:Eo; cbn;
    destruct (terminal s) eqn:Ets; pose proof Ets as Ets'; unfold terminal in Ets';
      destruct (stage s) eqn:Es; try discriminate; cbn;
      (split; [constructor; cbn; rewrite ?Ets; auto|split_and!; auto]);
      destruct has_done, done_stops; cbn; auto; try (intros H; discriminate); try congruence.
Qed.

(** Reading the fields of an updated agent. *)
Lemma core_quiet a a' :
  agent_core a ->
  session a' = session a -> progress a' = progress a -> transportFailed a' = transportFailed a ->
  doneFired a' = doneFired a -> done_calls a' = done_calls a -> wire a' = wire a ->
  Forall handler_ok (queue a') ->
  (started a' = false -> running a' = false /\ ctx_stopped a' = false) ->
  (ctx_stopped a' = true -> running a' = false) ->
  agent_core a'.
Proof.
  intros [Hs Hq Hp Hd Hc Hw Hi Hst] E1 E2 E3 E4 E5 E6 Hq' Hi' Hst'.
  constructor; rewrite ?E1, ?E2, ?E3, ?E4, ?E5, ?E6; assumption.
Qed.

Definition agent_inv (a : Impl) : Prop :=
  agent_core a /\ ticking a /\ (has_thread a = true -> started a = true) /\
  (starting a = true -> started a = true) /\ (HBegin ∈ queue a -> started a = true).

(** Popping a handler, or the timer going off, before the handler runs. *)
Lemma pop_inv a q h :
  agent_inv a -> queue a = h :: q ->
  agent_core (with_queue q a).
Proof.
  intros (Hc & _) Eq. pose proof (ac_queue a Hc) as Hq. rewrite Eq in Hq.
  eapply core_quiet; [exact Hc|reflexivity..| |apply Hc|apply Hc].
  inversion Hq; assumption.
Qed.

Lemma session_steps_ret s m : steps s m -> exists o s', m = Ret (o, s') /\ steps s (Ret (o, s')).
Proof. intros (o & s' & -> & H). exists o, s'. split; [reflexivity|]. exists o, s'. auto. Qed.

(** A react from a state whose timer and queue are about to change. *)
Lemma react_from o s ok now a a0 :
  agent_inv a -> started a = true -> agent_core a0 -> session a0 = session a ->
  started a0 = started a -> has_thread a0 = has_thread a -> starting a0 = starting a ->
  steps (session a) (Ret (o, s)) ->
  let r := react o s ok a0 in
  agent_inv (if r.1 then r.2 else scheduleTick now r.2).
Proof.
  intros (Hc & Ht & Hth & Hsg & Hbq) Hst Hc0 Es0 Est0 Eth0 Esg0 Hsteps. cbv zeta.
  rewrite <- Es0 in Hsteps. rewrite <- Est0 in Hst.
  destruct (react_core o s ok a0 Hc0 Hst Hsteps) as (Hcr & Er & Es & Eq & Et & Est & Hru).
  assert (Hst' : started (react o s ok a0).2 = true) by congruence.
  destruct (react o s ok a0) as [b a1]. cbn [fst snd] in *. subst b.
  destruct (terminal s) eqn:E.
  - split; [exact Hcr|]. split; [|auto]. unfold ticking. rewrite Es, E. discriminate.
  - split; [|split; [right; discriminate|auto]].
    eapply core_quiet; [exact Hcr|reflexivity..|apply Hcr|apply Hcr|apply Hcr].
Qed.

Lemma run_handler_inv now ok a :
  agent_inv a -> exists a', run_handler now ok a = Ret a' /\ agent_inv a'.
Proof.
  intros Hi. pose proof Hi as (Hc & Ht & Hth & Hsg & Hbq). unfold run_handler.
  destruct (thread_runs a) eqn:Er; cbn [negb]; [|eauto].
  apply andb_prop in Er as [Eth _]. specialize (Hth Eth).
  destruct (queue a) as [|h q] eqn:Eq; [eauto|].
  pose proof (pop_inv a q h Hi Eq) as Hpop.
  pose proof (ac_queue a Hc) as Hq. rewrite Eq in Hq. inversion Hq as [|? ? Hh Hqr]; subst.
  destruct h as [|f].
  - unfold beginUpdate. cbn [session with_queue].
    destruct (session_steps_ret _ _ (start_steps (session a) now (ac_session a Hc)))
      as (o & s & -> & Hs). cbn [mbind outcome_bind].
    pose proof (react_from o s ok now a (with_queue q a) Hi Hth Hpop eq_refl eq_refl eq_refl eq_refl Hs) as H.
    unfold react in H. destruct (fireDoneIfTerminal _) as [b a1]. cbn [fst snd] in H. eauto.
  - unfold agent_onFrame. cbn [session with_queue running].
    destruct (running a) eqn:Erun; cbn [negb].
    2: { eexists. split; [reflexivity|]. split; [exact Hpop|]. split; [|auto].
         intros _ H. cbn in H. congruence. }
    destruct (session_steps_ret _ _ (onFrame_steps (session a) f now (ac_session a Hc) Hh))
      as (o & s & -> & Hs). cbn [mbind outcome_bind].
    destruct (react_core o s ok (with_queue q a) Hpop Hth Hs) as (Hcr & _ & Es & Eqr & Etr & Est & Hru).
    unfold react in *. destruct (fireDoneIfTerminal _) as [b a1]. cbn [fst snd] in *.
    eexists. split; [reflexivity|]. split; [exact Hcr|].
    assert (Hsa : started a1 = true) by (rewrite Est; exact Hth).
    split; [|auto]. intros _ Hr Hterm. rewrite Es in Hterm. rewrite Eqr, Etr. cbn.
    destruct (terminal (session a)) eqn:E0.
    + exfalso. pose proof (terminal_effort _ E0) as He.
      destruct Hs as (o' & s' & [= <- <-] & [[_ ->]|Hg]); [congruence|].
      pose proof (effort_nonneg s (proj1 Hg)). destruct Hg as (_ & _ & _ & Hg). lia.
    + destruct (Ht Hth Erun E0) as [Hin|Hta]; [|auto]. left.
      rewrite Eq in Hin. inversion Hin; subst; assumption.
Qed.

Lemma timer_fires_inv now ok a :
  agent_inv a -> exists a', timer_fires now ok a = Ret a' /\ agent_inv a'.
Proof.
  intros Hi. pose proof Hi as (Hc & Ht & Hth & Hsg & Hbq). unfold timer_fires.
  destruct (thread_runs a) eqn:Er; cbn [negb]; [|eauto].
  apply andb_prop in Er as [Eth _]. specialize (Hth Eth).
  destruct (tick_at a) as [t|]; [|eauto]. destruct (now <? t); [eauto|].
  assert (Hc0 : agent_core (with_tick None a))
    by (eapply core_quiet; [exact Hc|reflexivity..|apply Hc|apply Hc|apply Hc]).
  unfold agent_onTick. cbn [session with_tick running].
  destruct (running a) eqn:Erun; cbn [negb].
  2: { eexists. split; [reflexivity|]. split; [exact Hc0|]. split; [|auto].
       intros _ H. cbn in H. congruence. }
  destruct (session_steps_ret _ _ (onTick_steps (session a) now (ac_session a Hc)))
    as (o & s & -> & Hs). cbn [mbind outcome_bind].
  pose proof (react_from o s ok now a (with_tick None a) Hi Hth Hc0 eq_refl eq_refl eq_refl eq_refl Hs) as H.
  unfold react in H. destruct (fireDoneIfTerminal _) as [b a1]. cbn [fst snd] in H. eauto.
Qed.

Lemma start_latch_inv a : agent_inv a -> agent_inv (start_latch a).
Proof.
  intros (Hc & Ht & Hth & Hsg & Hbq). unfold start_latch.
  destruct (started a) eqn:Est; [split_and!; auto|].
  destruct (ac_idle a Hc Est) as [Hru Hcs]. split; [|split; [|auto]].
  - eapply core_quiet; [exact Hc|reflexivity..| | |].
    + apply Forall_app. split; [apply Hc|]. repeat constructor.
    + discriminate.
    + cbn. congruence.
  - intros _ _ _. left. cbn. apply elem_of_app. right. apply list_elem_of_singleton. reflexivity.
Qed.

Lemma start_thread_inv a : agent_inv a -> agent_inv (start_thread a).
Proof.
  intros (Hc & Ht & Hth & Hsg & Hbq). unfold start_thread.
  destruct (starting a) eqn:Esg; cbn [negb]; [|split_and!; auto; congruence].
  specialize (Hsg eq_refl).
  destruct (running a) eqn:Eru; cbn [negb]; (split; [|split; [|split_and!; cbn; auto; discriminate]]);
    try (intros H1 H2; cbn in H1, H2 |- *; apply Ht; congruence);
    (eapply core_quiet; [exact Hc|reflexivity..|apply Hc| |]; cbn; rewrite ?Hsg;
     [discriminate|intros Hcs; pose proof (ac_stopped a Hc Hcs); congruence]).
Qed.

Lemma stop_outside_inv a : agent_inv a -> agent_inv (stop_outside a).
Proof.
  intros (Hc & Ht & Hth & Hsg & Hbq). unfold stop_outside.
  destruct (running a) eqn:Eru; cbn [negb]; [|split_and!; auto].
  assert (Hst : started a = true).
  { destruct (started a) eqn:E; [reflexivity|]. destruct (ac_idle a Hc E). congruence. }
  split; [|split; [intros _ H; discriminate H|split_and!; cbn; auto]].
  eapply core_quiet; [exact Hc|reflexivity..|apply Hc|cbn; congruence|reflexivity].
Qed.

Lemma sink_inv f a : frame_ok f -> agent_inv a -> agent_inv (frameSink f a).
Proof.
  intros Hf (Hc & Ht & Hth & Hsg & Hbq). split; [|split; [|split_and!; auto]].
  - eapply core_quiet; [exact Hc|reflexivity..| |apply Hc|apply Hc].
    apply Forall_app. split; [apply Hc|]. constructor; [exact Hf|constructor].
  - intros H1 H2 H3. destruct (Ht H1 H2 H3) as [H|H]; [|auto]. left. cbn. apply elem_of_app. auto.
  - cbn. intros [H|H]%elem_of_app; [auto|]. apply list_elem_of_singleton in H. discriminate.
Qed.

Lemma agent_step_inv a e :
  agent_inv a -> step_ok e -> exists a', agent_step a e = Ret a' /\ agent_inv a'.
Proof.
  destruct e; cbn [agent_step step_ok]; intros Hi He;
    eauto using start_latch_inv, start_thread_inv, stop_outside_inv, sink_inv,
      run_handler_inv, timer_fires_inv.
Qed.

Lemma agent_run_inv a l :
  agent_inv a -> Forall step_ok l -> exists a', agent_run a l = Ret a' /\ agent_inv a'.
Proof.
  intros Hi Hl. revert a Hi. induction Hl as [|e l He _ IH]; intros a Hi; [eauto|].
  destruct (agent_step_inv a e Hi He) as (a1 & E & H1). cbn [agent_run]. rewrite E. apply IH. exact H1.
Qed.

Lemma make_agent_inv img ver tm :
  bytes_ok img -> is_u32 ver -> Z.of_nat (length img) < 18446744073709551616 ->
  agent_inv (make_agent img ver tm).
Proof.
  intros. split; [|split; [intros H'; discriminate H'|split_and!; try discriminate]].
  - constructor; cbn; auto using make_inv. rewrite andb_false_r. reflexivity.
  - intros H'. inversion H'.
Qed.

(** After the context is stopped the agent is frozen, apart from its queue. *)
Definition frozen_as (a a' : Impl) : Prop :=
  session a' = session a /\ progress a' = progress a /\ wire a' = wire a /\
  done_calls a' = done_calls a /\ ctx_stopped a' = true /\ started a' = true /\ running a' = false.

Lemma stopped_step a e :
  ctx_stopped a = true -> started a = true -> running a = false ->
  exists a', agent_step a e = Ret a' /\ frozen_as a a'.
Proof.
  intros Hcs Hst Hru. unfold frozen_as.
  destruct e; cbn [agent_step]; unfold run_handler, timer_fires, thread_runs, start_latch,
    start_thread, stop_outside; rewrite ?Hcs, ?Hst, ?Hru, ?andb_false_r; cbn;
    try (destruct (starting a)); cbn; eexists; (split; [reflexivity|]); split_and!; auto.
Qed.

Lemma agent_run_image a l a' :
  agent_inv a -> Forall step_ok l -> agent_run a l = Ret a' -> agent_inv a'.
Proof.
  intros Hi Hl E. destruct (agent_run_inv a l Hi Hl) as (a1 & E1 & H1). congruence.
Qed.

(* ------------------------------------------------------------------ *)
(** ** Properties *)

(** C5: One agent, one verdict. Under every interleaving of the caller, the
    transport, the timer and the agent thread, with every answer of the
    transport, the run is defined; the snapshot is the session's current
    state; and onDone has been called exactly once, with that snapshot, if
    the session has stopped, and never before. *)
Theorem agent_done_once img ver tm l :
  bytes_ok img -> is_u32 ver -> Z.of_nat (length img) < 18446744073709551616 ->
  Forall step_ok l ->
  exists a, agent_run (make_agent img ver tm) l = Ret a /\
    progress a = snapshot_of (session a) (transportFailed a) /\
    done_calls a = (if has_done && terminal (session a) then [progress a] else []).
Proof.
  intros Himg Hver Hsz Hl.
  destruct (agent_run_inv _ l (make_agent_inv img ver tm Himg Hver Hsz) Hl) as (a & E & Hc & _).
  exists a. split; [exact E|]. split; [apply Hc|]. rewrite <- (ac_done a Hc). apply Hc.
Qed.

(** C6: The timer never dies early. As long as the agent is started, not stopped
    and its session has not finished, the first handler is still queued or
    the tick timer is armed: every timeout of the session will be noticed. *)
Theorem agent_keeps_ticking img ver tm l a :
  bytes_ok img -> is_u32 ver -> Z.of_nat (length img) < 18446744073709551616 ->
  Forall step_ok l -> agent_run (make_agent img ver tm) l = Ret a ->
  started a = true -> running a = true -> stage (session a) <> Done -> stage (session a) <> Failed ->
  HBegin ∈ queue a \/ tick_at a <> None.
Proof.
  intros Himg Hver Hsz Hl E Hst Hru Hd Hf.
  destruct (agent_run_image _ l a (make_agent_inv img ver tm Himg Hver Hsz) Hl E) as (_ & Ht & _).
  apply Ht; auto. unfold terminal. destruct (stage (session a)); congruence.
Qed.

(** Stop is final. Once the context is stopped, by stop() from outside or
    from inside onDone, no later call, frame or timer moves the session, puts
    a byte on the wire, calls onDone or changes the snapshot. *)
Theorem agent_stop_is_final img ver tm l a later :
  bytes_ok img -> is_u32 ver -> Z.of_nat (length img) < 18446744073709551616 ->
  Forall step_ok l -> agent_run (make_agent img ver tm) l = Ret a -> ctx_stopped a = true ->
  exists a', agent_run a later = Ret a' /\ session a' = session a /\ wire a' = wire a /\
             done_calls a' = done_calls a /\ progress a' = progress a.
Proof.
  intros Himg Hver Hsz Hl E Hcs.
  destruct (agent_run_image _ l a (make_agent_inv img ver tm Himg Hver Hsz) Hl E) as (Hc & _).
  pose proof (ac_stopped a Hc Hcs) as Hru.
  assert (Hst : started a = true).
  { destruct (started a) eqn:Es; [reflexivity|]. destruct (ac_idle a Hc Es). congruence. }
  clear E Hl Hc. revert a Hcs Hru Hst. induction later as [|e later IH]; intros a Hcs Hru Hst.
  - exists a. auto.
  - destruct (stopped_step a e Hcs Hst Hru) as (a1 & E1 & Es & Ep & Ew & Ed & Hcs1 & Hst1 & Hru1).
    destruct (IH a1 Hcs1 Hru1 Hst1) as (a' & Er & H1 & H2 & H3 & H4).
    exists a'. cbn [agent_run]. rewrite E1. cbn [mbind outcome_bind]. split_and!; congruence.
Qed.

End Agent.

(* ------------------------------------------------------------------ *)
(** ** Witnesses *)

(** A run in which the board refuses the update and onDone stops the agent. *)
Definition demo_steps : list step :=
  [StartLatch; StartThread; RunHandler 0 true; TimerFires 5 true;
   SinkFrame (mkFrame kNak 1 [5]); RunHandler 7 true; TimerFires 12 true; Stop].

Lemma demo_steps_ok : Forall step_ok demo_steps.
Proof.
  unfold demo_steps. repeat (apply Forall_cons; split); try apply Forall_nil; try exact I.
  apply frame_ok_intro; [unfold is_u8, kNak; lia|unfold is_u16; lia|bytes_lit|cbn; lia].
Qed.

Definition demo_agent (l : list step) : Impl :=
  match agent_run true true true (make_agent demo_image 2 defaultTiming) l with
  | Ret a => a
  | _ => make_agent [] 0 defaultTiming
  end.

Example demo_agent_done : map p_nakCode (done_calls (demo_agent demo_steps)) = [5].
Proof. vm_compute. reflexivity. Qed.

Lemma agent_done_once_witness :
  exists a, agent_run true true true (make_agent demo_image 2 defaultTiming) demo_steps = Ret a /\
    progress a = snapshot_of (session a) (transportFailed a) /\
    done_calls a = (if true && terminal (session a) then [progress a] else []).
Proof.
  apply (agent_done_once true true true demo_image 2 defaultTiming demo_steps demo_image_ok);
    [unfold is_u32; lia|cbn; lia|exact demo_steps_ok].
Defined.

Lemma agent_keeps_ticking_witness :
  HBegin ∈ queue (demo_agent (take 4%nat demo_steps)) \/ tick_at (demo_agent (take 4%nat demo_steps)) <> None.
Proof.
  refine (agent_keeps_ticking true true true demo_image 2 defaultTiming (take 4%nat demo_steps)
            (demo_agent (take 4%nat demo_steps)) demo_image_ok _ _ (Forall_take _ 4%nat _ demo_steps_ok) _ _ _ _ _);
    [unfold is_u32; lia|cbn; lia|vm_compute; reflexivity..| |]; vm_compute; discriminate.
Defined.

Lemma agent_stop_is_final_witness :
  exists a', agent_run true true true (demo_agent demo_steps) [SinkFrame (mkFrame kNak 1 [5]); RunHandler 20 true]
               = Ret a' /\
    session a' = session (demo_agent demo_steps) /\ wire a' = wire (demo_agent demo_steps) /\
    done_calls a' = done_calls (demo_agent demo_steps) /\ progress a' = progress (demo_agent demo_steps).
Proof.
  refine (agent_stop_is_final true true true demo_image 2 defaultTiming demo_steps
            (demo_agent demo_steps) _ demo_image_ok _ _ demo_steps_ok _ _);
    [unfold is_u32; lia|cbn; lia|vm_compute; reflexivity..].
Defined.

(** stop() from outside does not join after a stop() from inside onDone: the
    inner call has already taken the [running] latch, so the outer one
    returns at the latch test while the agent thread is still unjoined,
    although the header promises every outside caller that the thread has
    stopped. Here onDone calls stop() and the last step is the caller's. *)
Theorem agent_outer_stop_joins_refuted :
  exists l a, Forall step_ok l /\
    agent_run true true true (make_agent demo_image 2 defaultTiming) (l ++ [Stop]) = Ret a /\
    ctx_stopped a = true /\ has_thread a = true.
Proof.
  exists (take 7%nat demo_steps), (demo_agent demo_steps).
  split; [apply Forall_take, demo_steps_ok|]. split_and!; vm_compute; reflexivity.
Qed.
