(* ===== verification/MqttPacket.v ===== *)
(** * MQTT 3.1.1 packets
    (src/integration/MqttPacket.{h,cpp})

    The remaining-length codec, the packet builders and the parsers, with
    cursors threaded explicitly, unchecked subscripts as undefined behaviour
    and the thrown exceptions. A std::string is its bytes. Properties: both
    round trips, the exact set of values the length codec accepts, memory
    safety of every parser on complete packets, and the buffer that breaks
    parsePublish. *)
From S2P Require Import Prelude Wire.

Inductive PacketType :=
| Connect | ConnAck | Publish | Subscribe | SubAck | Unsubscribe | UnsubAck
| PingReq | PingResp | Disconnect.

Definition packet_byte (p : PacketType) : Z :=
  match p with
  | Connect => 16 | ConnAck => 32 | Publish => 48 | Subscribe => 128 | SubAck => 144
  | Unsubscribe => 160 | UnsubAck => 176 | PingReq => 192 | PingResp => 208
  | Disconnect => 224
  end.

(** The return codes are the raw bytes: the casts accept any value. *)
Definition SubAckCode_Failure : Z := 128.
Definition ConnAckCode_Accepted : Z := 0.

Definition kMaxRemainingLength : Z := 268435455.
Definition kMaxStringLength : Z := 65535.
Definition kConnAckPacketSize : nat := 4.
Definition kContinuationBit : Z := 128.
Definition kRemainingLengthValueMask : Z := 127.
Definition kMaxRemainingLengthBytes : nat := 4.
Definition kRemainingLengthShift : Z := 128.
Definition kProtocolName : list Z := [77; 81; 84; 84].      (* "MQTT" *)
Definition kProtocolLevelMqtt311 : Z := 4.
Definition kConnectFlagCleanSession : Z := 2.
Definition kPublishFlagsQos0Transient : Z := 0.
Definition kEmptyRemainingLength : Z := 0.
Definition kConnAckRemainingLength : Z := 2.
Definition kConnAckReturnCodeOffset : nat := 3.
Definition kSubscribeFixedHeaderFlags : Z := 2.
Definition kUnsubscribeFixedHeaderFlags : Z := 2.
Definition kSubscribeRequestedQos0 : Z := 0.
Definition kSubAckSingleTopicRemainingLength : Z := 3.
Definition kSubAckPacketSize : nat := 5.
Definition kUnsubAckRemainingLength : Z := 2.
Definition kUnsubAckPacketSize : nat := 4.
Definition kPublishFlagsMask : Z := 15.
Definition kPublishQosShift : Z := 1.
Definition kPublishQosMask : Z := 3.
Definition kFixedHeaderTypeMask : Z := 240.
Definition kMaxKeepAlive : Z := 65535.

Definition appendUint16BigEndian (out : list Z) (v : Z) : list Z :=
  out ++ [u8 (Z.land (Z.shiftr v 8) 255); u8 (Z.land v 255)].

(** [readUint16BigEndian(bytes, cursor)]: the value and the new cursor. *)
Definition readUint16BigEndian (bytes : list Z) (cursor : nat) : outcome (Z * nat) :=
  if decide (length bytes <= cursor + 1)%nat then Throw runtime_error else
  high ← vec_get bytes cursor;
  low ← vec_get bytes (cursor + 1);
  Ret (u16 (Z.lor (Z.shiftl high 8) low), (cursor + 2)%nat).

(** The copying loop of [readString]: [n] unchecked reads. *)
Fixpoint read_chars (bytes : list Z) (cursor n : nat) (s : list Z) : outcome (list Z * nat) :=
  match n with
  | O => Ret (s, cursor)
  | S n => c ← vec_get bytes cursor; read_chars bytes (cursor + 1) n (s ++ [c])
  end.

Definition readString (bytes : list Z) (cursor : nat) : outcome (list Z * nat) :=
  '(len, cursor) ← readUint16BigEndian bytes cursor;
  if decide (length bytes < cursor + Z.to_nat len)%nat then Throw runtime_error else
  read_chars bytes cursor (Z.to_nat len) [].

(** The [do ... while (value > 0)] loop: at most five rounds for 32 bits. *)
Fixpoint remaining_loop (fuel : nat) (value : Z) (out : list Z) : list Z :=
  let byte := u8 (Z.land value kRemainingLengthValueMask) in
  let value := Z.shiftr value 7 in
  let byte := if 0 <? value then Z.lor byte kContinuationBit else byte in
  let out := out ++ [byte] in
  match fuel with
  | O => out
  | S fuel => if 0 <? value then remaining_loop fuel value out else out
  end.

Definition encodeRemainingLength (value : Z) : outcome (list Z) :=
  if kMaxRemainingLength <? value then Throw invalid_argument
  else Ret (remaining_loop 5 value []).

(** The loop of [decodeRemainingLength]: [n] rounds left. *)
Fixpoint decode_loop (n : nat) (bytes : list Z) (cursor : nat) (multiplier value : Z) :
    outcome (Z * nat) :=
  match n with
  | O => Throw runtime_error
  | S n =>
      if decide (length bytes <= cursor)%nat then Throw runtime_error else
      byte ← vec_get bytes cursor;
      let cursor := (cursor + 1)%nat in
      let value := u32 (value + u32 (Z.land byte kRemainingLengthValueMask * multiplier)) in
      if Z.land byte kContinuationBit =? 0 then Ret (value, cursor)
      else decode_loop n bytes cursor (u32 (multiplier * kRemainingLengthShift)) value
  end.

Definition decodeRemainingLength (bytes : list Z) (cursor : nat) : outcome (Z * nat) :=
  decode_loop kMaxRemainingLengthBytes bytes cursor 1 0.

Definition encodeString (s : list Z) : outcome (list Z) :=
  if kMaxStringLength <? Z.of_nat (length s) then Throw invalid_argument
  else Ret (appendUint16BigEndian [] (u16 (Z.of_nat (length s))) ++ s).

Definition buildConnect (clientId : list Z) (keepAlive : Z) : outcome (list Z) :=
  if (keepAlive <? 0) || (kMaxKeepAlive <? keepAlive) then Throw invalid_argument else
  protocolName ← encodeString kProtocolName;
  let variable := protocolName ++ [kProtocolLevelMqtt311; kConnectFlagCleanSession] in
  let variable := appendUint16BigEndian variable (u16 keepAlive) in
  pl ← encodeString clientId;
  let remaining := u32 (Z.of_nat (length variable + length pl)) in
  remainingBytes ← encodeRemainingLength remaining;
  Ret ([packet_byte Connect] ++ remainingBytes ++ variable ++ pl).

Definition buildPublish (topic pl : list Z) : outcome (list Z) :=
  topicBytes ← encodeString topic;
  let remaining := u32 (Z.of_nat (length topicBytes + length pl)) in
  remainingBytes ← encodeRemainingLength remaining;
  Ret ([Z.lor (packet_byte Publish) kPublishFlagsQos0Transient] ++ remainingBytes
       ++ topicBytes ++ pl).

Definition buildPingReq : list Z := [packet_byte PingReq; kEmptyRemainingLength].
Definition buildDisconnect : list Z := [packet_byte Disconnect; kEmptyRemainingLength].

Definition buildSubscribe (packetId : Z) (topic : list Z) : outcome (list Z) :=
  let variable := appendUint16BigEndian [] packetId in
  topicBytes ← encodeString topic;
  let pl := topicBytes ++ [kSubscribeRequestedQos0] in
  let remaining := u32 (Z.of_nat (length variable + length pl)) in
  remainingBytes ← encodeRemainingLength remaining;
  Ret ([Z.lor (packet_byte Subscribe) kSubscribeFixedHeaderFlags] ++ remainingBytes
       ++ variable ++ pl).

Definition buildUnsubscribe (packetId : Z) (topic : list Z) : outcome (list Z) :=
  let variable := appendUint16BigEndian [] packetId in
  topicBytes ← encodeString topic;
  let remaining := u32 (Z.of_nat (length variable + length topicBytes)) in
  remainingBytes ← encodeRemainingLength remaining;
  Ret ([Z.lor (packet_byte Unsubscribe) kUnsubscribeFixedHeaderFlags] ++ remainingBytes
       ++ variable ++ topicBytes).

(** The checks the three acknowledgement parsers share: size, type byte,
    remaining-length byte. *)
Definition ack_header (size : nat) (type remaining : Z) (bytes : list Z) : outcome unit :=
  if decide (length bytes < size)%nat then Throw runtime_error else
  b0 ← vec_get bytes 0;
  if negb (b0 =? type) then Throw runtime_error else
  b1 ← vec_get bytes 1;
  if negb (b1 =? remaining) then Throw runtime_error else Ret tt.

Definition parseConnAck (bytes : list Z) : outcome Z :=
  ack_header kConnAckPacketSize (packet_byte ConnAck) kConnAckRemainingLength bytes;;
  vec_get bytes kConnAckReturnCodeOffset.

Record ParsedSubAck := mkSubAck { packetId : Z; returnCode : Z }.

Definition parseSubAck (bytes : list Z) : outcome ParsedSubAck :=
  ack_header kSubAckPacketSize (packet_byte SubAck) kSubAckSingleTopicRemainingLength bytes;;
  '(pid, cursor) ← readUint16BigEndian bytes 2;
  code ← vec_get bytes cursor;
  Ret (mkSubAck pid code).

Definition parseUnsubAck (bytes : list Z) : outcome Z :=
  ack_header kUnsubAckPacketSize (packet_byte UnsubAck) kUnsubAckRemainingLength bytes;;
  '(pid, _) ← readUint16BigEndian bytes 2;
  Ret pid.

Record ParsedPublish := mkPublish { topic : list Z; publish_payload : list Z }.

(** [payload.assign(begin + first, begin + last)]: a range whose end precedes
    its start, or passes the end of the buffer, is undefined behaviour. *)
Definition assign_range (bytes : list Z) (first last : nat) : outcome (list Z) :=
  if decide (first <= last <= length bytes)%nat then Ret (slice first (last - first) bytes)
  else Undef.

Definition parsePublish (bytes : list Z) : outcome ParsedPublish :=
  if bool_decide (bytes = []) then Throw runtime_error else
  fixedHeader ← vec_get bytes 0;
  if negb (Z.land fixedHeader kFixedHeaderTypeMask =? packet_byte Publish)
  then Throw runtime_error else
  let flagsNibble := Z.land fixedHeader kPublishFlagsMask in
  let qos := Z.land (Z.shiftr flagsNibble kPublishQosShift) kPublishQosMask in
  if negb (qos =? 0) then Throw runtime_error else
  '(remaining, cursor) ← decodeRemainingLength bytes 1;
  let bodyEnd := (cursor + Z.to_nat remaining)%nat in
  if decide (length bytes < bodyEnd)%nat then Throw runtime_error else
  '(t, cursor) ← readString bytes cursor;
  pl ← assign_range bytes cursor bodyEnd;
  Ret (mkPublish t pl).

(* ------------------------------------------------------------------ *)
(** ** Specification *)

(** The remaining-length field: base 128, least significant group first, the
    top bit on every byte but the last. *)
Definition remaining_bytes (v : Z) : list Z :=
  if v <? 128 then [v]
  else if v <? 16384 then [v mod 128 + 128; v / 128]
  else if v <? 2097152 then [v mod 128 + 128; (v / 128) mod 128 + 128; v / 16384]
  else [v mod 128 + 128; (v / 128) mod 128 + 128; (v / 16384) mod 128 + 128; v / 2097152].

Definition string_bytes (s : list Z) : list Z := be16 (Z.of_nat (length s)) ++ s.

(** One MQTT packet: type and flags, remaining length, body. *)
Definition packet_bytes (first : Z) (body : list Z) : list Z :=
  [first] ++ remaining_bytes (Z.of_nat (length body)) ++ body.

Definition string_ok (s : list Z) : Prop := bytes_ok s /\ Z.of_nat (length s) <= 65535.

(* ------------------------------------------------------------------ *)
(** ** Lemmas *)

Lemma land_127' x : Z.land x kRemainingLengthValueMask = x mod 128.
Proof. apply land_127. Qed.

Lemma shiftr_7 x : Z.shiftr x 7 = x / 128.
Proof. rewrite Z.shiftr_div_pow2 by lia. reflexivity. Qed.

Lemma lor_128 b : 0 <= b < 128 -> Z.lor b kContinuationBit = b + 128.
Proof.
  intros H. change kContinuationBit with (Z.shiftl 1 7). rewrite lor_shiftl_add' by lia. lia.
Qed.

(** One round of the encoder. *)
Lemma remaining_round fuel v out :
  0 <= v ->
  remaining_loop (S fuel) v out =
    if v <? 128 then out ++ [v]
    else remaining_loop fuel (v / 128) (out ++ [v mod 128 + 128]).
Proof.
  intros Hv. cbn [remaining_loop]. rewrite land_127', shiftr_7.
  rewrite u8_id by (unfold is_u8; zdm).
  destruct (Z.ltb_spec v 128).
  - replace (0 <? v / 128) with false by (symmetry; apply Z.ltb_ge; zdm).
    rewrite Z.mod_small by lia. reflexivity.
  - replace (0 <? v / 128) with true by (symmetry; apply Z.ltb_lt; zdm).
    rewrite lor_128 by zdm. reflexivity.
Qed.

Lemma encodeRemainingLength_ret v :
  0 <= v <= kMaxRemainingLength -> encodeRemainingLength v = Ret (remaining_bytes v).
Proof.
  unfold kMaxRemainingLength, encodeRemainingLength. intros Hv.
  replace (_ <? v) with false by (symmetry; apply Z.ltb_ge; unfold kMaxRemainingLength; lia).
  f_equal. unfold remaining_bytes.
  rewrite remaining_round by lia. case_match eqn:E1; [reflexivity|].
  rewrite remaining_round by zdm. apply Z.ltb_ge in E1.
  destruct (Z.ltb_spec (v / 128) 128), (Z.ltb_spec v 16384); try (exfalso; zdm); [reflexivity|].
  rewrite remaining_round by zdm.
  replace (v / 128 / 128) with (v / 16384) by zdm.
  destruct (Z.ltb_spec (v / 16384) 128), (Z.ltb_spec v 2097152); try (exfalso; zdm); [reflexivity|].
  rewrite remaining_round by zdm.
  replace (v / 16384 / 128) with (v / 2097152) by zdm.
  destruct (Z.ltb_spec (v / 2097152) 128); [reflexivity|exfalso; zdm].
Qed.

Lemma remaining_bytes_ok v : 0 <= v <= kMaxRemainingLength -> bytes_ok (remaining_bytes v).
Proof.
  unfold kMaxRemainingLength, remaining_bytes, is_u8. intros.
  destruct (Z.ltb_spec v 128); [|destruct (Z.ltb_spec v 16384); [|destruct (Z.ltb_spec v 2097152)]];
    repeat (apply Forall_cons; split); try apply Forall_nil; unfold is_u8; zdm.
Qed.

Lemma remaining_bytes_length v : (1 <= length (remaining_bytes v) <= 4)%nat.
Proof. unfold remaining_bytes. repeat case_match; cbn; lia. Qed.

Lemma land_128_low b : 0 <= b < 128 -> Z.land b kContinuationBit = 0.
Proof.
  intros H. apply Z.bits_inj'. intros i Hi. rewrite Z.land_spec, Z.bits_0.
  change kContinuationBit with (2 ^ 7). rewrite Z.pow2_bits_eqb by lia.
  destruct (Z.eqb_spec 7 i) as [<-|]; [|apply andb_false_r].
  rewrite <- (Z.mod_small b (2 ^ 7)) by lia. rewrite Z.mod_pow2_bits_high by lia. reflexivity.
Qed.

Lemma land_128_high b : 0 <= b < 128 -> Z.land (b + 128) kContinuationBit = 128.
Proof.
  intros H. rewrite <- lor_128 by exact H. rewrite Z.land_lor_distr_l, land_128_low by exact H.
  reflexivity.
Qed.

(** One round of the decoder, on the byte at the cursor. *)
Lemma decode_round n bytes cursor b m v :
  bytes !! cursor = Some b -> is_u8 b -> 0 <= m -> 128 * m < 4294967296 ->
  0 <= v -> v + 127 * m < 4294967296 ->
  decode_loop (S n) bytes cursor m v =
    if b <? 128 then Ret (v + b * m, (cursor + 1)%nat)
    else decode_loop n bytes (cursor + 1) (m * 128) (v + (b - 128) * m).
Proof.
  intros Hb Hu Hm0 Hm Hv0 Hv. cbn [decode_loop]. unfold is_u8 in Hu.
  pose proof (lookup_lt_Some _ _ _ Hb) as Hlt.
  rewrite decide_False by lia. unfold vec_get. rewrite Hb. cbn [mbind outcome_bind].
  rewrite land_127'. unfold kRemainingLengthShift.
  destruct (Z.ltb_spec b 128) as [Hs|Hs].
  - rewrite (Z.mod_small b) by lia. rewrite land_128_low by lia.
    assert (0 <= b * m <= 127 * m) by nia.
    rewrite (u32_id (b * m)), u32_id by (unfold is_u32; lia). reflexivity.
  - replace (b mod 128) with (b - 128) by zdm.
    assert (0 <= (b - 128) * m <= 127 * m) by nia.
    replace (Z.land b kContinuationBit) with 128
      by (rewrite <- (land_128_high (b - 128)) by lia; f_equal; lia).
    cbn [Z.eqb].
    rewrite (u32_id ((b - 128) * m)), !u32_id by (unfold is_u32; lia). reflexivity.
Qed.

(** [at_cursor]: the byte a cursor designates inside appended lists. *)
Lemma lookup_after (pre : list Z) (b : Z) rest : (pre ++ b :: rest) !! length pre = Some b.
Proof. rewrite lookup_app_r, Nat.sub_diag by lia. reflexivity. Qed.

Lemma decode_step n pre b rest m v :
  is_u8 b -> 0 <= m -> 128 * m < 4294967296 -> 0 <= v -> v + 127 * m < 4294967296 ->
  decode_loop (S n) (pre ++ b :: rest) (length pre) m v =
    if b <? 128 then Ret (v + b * m, length (pre ++ [b]))
    else decode_loop n ((pre ++ [b]) ++ rest) (length (pre ++ [b])) (m * 128) (v + (b - 128) * m).
Proof.
  intros. rewrite (decode_round n _ _ b) by (try apply lookup_after; assumption).
  rewrite <- app_assoc, length_app. reflexivity.
Qed.

Lemma decodeRemainingLength_ret pre v rest :
  0 <= v <= kMaxRemainingLength ->
  decodeRemainingLength (pre ++ remaining_bytes v ++ rest) (length pre) =
    Ret (v, length (pre ++ remaining_bytes v)).
Proof.
  unfold kMaxRemainingLength, decodeRemainingLength, kMaxRemainingLengthBytes. intros Hv.
  unfold remaining_bytes.
  destruct (Z.ltb_spec v 128); [|destruct (Z.ltb_spec v 16384); [|destruct (Z.ltb_spec v 2097152)]];
    cbn [app].
  all: repeat (rewrite decode_step by (unfold is_u8; zdm);
    match goal with |- context [?b <? 128] => destruct (Z.ltb_spec b 128); try (exfalso; zdm) end).
  all: rewrite <- ?app_assoc; cbn [app]; do 2 f_equal; zdm.
Qed.

Lemma append_be16 out v : is_u16 v -> appendUint16BigEndian out v = out ++ be16 v.
Proof.
  intros H. unfold appendUint16BigEndian, be16. rewrite hi_byte_idiom, lo_byte_idiom by exact H.
  rewrite !u8_id by auto with hmi. reflexivity.
Qed.

Lemma encodeString_ret s :
  string_ok s -> encodeString s = Ret (string_bytes s).
Proof.
  intros [_ Hl]. unfold encodeString, kMaxStringLength.
  replace (_ <? _) with false by (symmetry; apply Z.ltb_ge; lia).
  rewrite u16_id, append_be16 by (unfold is_u16; lia). reflexivity.
Qed.

Lemma readUint16_ret pre v rest :
  is_u16 v ->
  readUint16BigEndian (pre ++ be16 v ++ rest) (length pre) = Ret (v, length (pre ++ be16 v)).
Proof.
  intros Hv. unfold readUint16BigEndian, be16. cbn [app].
  rewrite decide_False by (rewrite length_app; cbn; lia).
  unfold vec_get. rewrite lookup_after, lookup_app_r by lia.
  replace (length pre + 1 - length pre)%nat with 1%nat by lia. cbn.
  rewrite shift_or_16 by auto with hmi. rewrite of_be16_be16 by exact Hv.
  rewrite length_app. reflexivity.
Qed.

Lemma read_chars_ret pre s rest acc :
  read_chars (pre ++ s ++ rest) (length pre) (length s) acc = Ret (acc ++ s, length (pre ++ s)).
Proof.
  revert pre acc. induction s as [|c s IH]; intros pre acc; cbn [read_chars length].
  - rewrite !app_nil_r. reflexivity.
  - unfold vec_get. cbn [app]. rewrite lookup_after. cbn [mbind outcome_bind].
    specialize (IH (pre ++ [c]) (acc ++ [c])). rewrite <- !app_assoc in IH. cbn [app] in IH.
    rewrite length_app in IH. cbn [length] in IH. rewrite IH. reflexivity.
Qed.

Lemma readString_ret pre s rest :
  string_ok s ->
  readString (pre ++ string_bytes s ++ rest) (length pre) = Ret (s, length (pre ++ string_bytes s)).
Proof.
  intros [Hok Hl]. unfold readString, string_bytes. rewrite <- !app_assoc.
  rewrite readUint16_ret by (unfold is_u16; lia). cbn [mbind outcome_bind].
  rewrite Nat2Z.id. rewrite decide_False by (rewrite !length_app; lia).
  pose proof (read_chars_ret (pre ++ be16 (Z.of_nat (length s))) s rest []) as H.
  rewrite <- !app_assoc in H. rewrite H. reflexivity.
Qed.

(** What a parser step may do: throw runtime_error or return a value that
    satisfies [P]; never undefined behaviour. *)
Definition parses_to {A} (m : outcome A) (P : A -> Prop) : Prop :=
  match m with Ret a => P a | Throw e => e = runtime_error | Undef => False end.

Lemma parses_bind {A B} (m : outcome A) (f : A -> outcome B) P Q :
  parses_to m P -> (forall a, P a -> parses_to (f a) Q) -> parses_to (m ≫= f) Q.
Proof. destruct m; cbn; auto. Qed.

Lemma vec_get_parses {A} (l : list A) i : (i < length l)%nat -> parses_to (vec_get l i) (fun b => l !! i = Some b).
Proof. intros H. destruct (vec_get_lt l i H) as (b & -> & Hb). exact Hb. Qed.

Lemma decode_loop_total n bytes cursor m v :
  parses_to (decode_loop n bytes cursor m v)
    (fun '(v', c) => 0 <= v' /\ (cursor < c <= length bytes)%nat /\ (c <= cursor + n)%nat).
Proof.
  revert cursor m v. induction n as [|n IH]; intros cursor m v; [reflexivity|].
  cbn [decode_loop]. case_decide; [reflexivity|].
  eapply parses_bind; [apply vec_get_parses; lia|]. intros b Hb. cbv zeta.
  case_match.
  - cbn. split; [apply u32_range|lia].
  - specialize (IH (cursor + 1)%nat (u32 (m * kRemainingLengthShift))
                  (u32 (v + u32 (Z.land b kRemainingLengthValueMask * m)))).
    destruct (decode_loop _ _ _ _ _) as [[v' c]|e|]; cbn in *; [|exact IH|exact IH]. lia.
Qed.

Lemma readUint16_total bytes cursor :
  bytes_ok bytes ->
  parses_to (readUint16BigEndian bytes cursor)
    (fun '(v, c) => is_u16 v /\ c = (cursor + 2)%nat /\ (c <= length bytes)%nat /\
                    drop cursor bytes = be16 v ++ drop c bytes).
Proof.
  intros Hok. unfold readUint16BigEndian. case_decide; [reflexivity|].
  eapply parses_bind; [apply vec_get_parses; lia|]. intros h Hh.
  eapply parses_bind; [apply vec_get_parses; lia|]. intros l Hl. cbn [parses_to].
  pose proof (bytes_ok_lookup _ _ _ Hok Hh). pose proof (bytes_ok_lookup _ _ _ Hok Hl).
  rewrite shift_or_16 by assumption. split; [auto with hmi|]. split; [reflexivity|]. split; [lia|].
  rewrite be16_of_be16 by assumption. rewrite (drop_S _ h), (drop_S _ l) by
    (try exact Hh; rewrite <- Nat.add_1_r; exact Hl).
  cbn. do 3 f_equal. lia.
Qed.

Lemma read_chars_total bytes n cursor acc :
  (cursor + n <= length bytes)%nat ->
  read_chars bytes cursor n acc = Ret (acc ++ slice cursor n bytes, (cursor + n)%nat).
Proof.
  revert cursor acc. induction n as [|n IH]; intros cursor acc H; cbn [read_chars].
  - unfold slice. rewrite take_0, app_nil_r, Nat.add_0_r. reflexivity.
  - destruct (vec_get_lt bytes cursor) as (c & -> & Hc); [lia|]. cbn [mbind outcome_bind].
    rewrite IH by lia. unfold slice. rewrite (drop_S _ c cursor) by exact Hc. cbn [take].
    rewrite <- app_assoc, Nat.add_1_r. cbn. do 3 f_equal. lia.
Qed.

Lemma readString_total bytes cursor :
  bytes_ok bytes ->
  parses_to (readString bytes cursor)
    (fun '(s, c) => string_ok s /\ (c <= length bytes)%nat /\ (cursor <= c)%nat /\
                    drop cursor bytes = string_bytes s ++ drop c bytes).
Proof.
  intros Hok. unfold readString.
  eapply parses_bind; [apply readUint16_total; exact Hok|]. intros [n c] (Hn & -> & Hc & Hd).
  case_decide; [reflexivity|]. rewrite read_chars_total by lia. cbn [parses_to app]. unfold is_u16 in Hn.
  assert (Hl : length (slice (cursor + 2) (Z.to_nat n) bytes) = Z.to_nat n) by (apply length_slice; lia).
  split; [split; [apply bytes_ok_slice; exact Hok|rewrite Hl; lia]|]. split; [lia|]. split; [lia|].
  rewrite Hd. unfold string_bytes. rewrite Hl, Z2Nat.id by lia. rewrite <- app_assoc. f_equal.
  unfold slice. replace (drop (cursor + 2 + Z.to_nat n) bytes) with (drop (Z.to_nat n) (drop (cursor + 2) bytes))
    by (rewrite drop_drop; reflexivity). rewrite take_drop. reflexivity.
Qed.

Lemma string_bytes_length s : length (string_bytes s) = (2 + length s)%nat.
Proof. unfold string_bytes. rewrite length_app. reflexivity. Qed.

(* ------------------------------------------------------------------ *)
(** ** Properties *)

(** The remaining-length codec. Exactly the values 0 .. 268435455 encode; the
    encoding has one to four bytes; decoding it anywhere in a buffer gives the
    value back and moves the cursor just past it; and on arbitrary input the
    decoder throws or consumes one to four bytes inside the buffer. *)
Theorem remaining_length_roundtrip v pre rest :
  is_u32 v ->
  (if decide (v <= kMaxRemainingLength)
   then exists bs, encodeRemainingLength v = Ret bs /\ (1 <= length bs <= 4)%nat /\
          decodeRemainingLength (pre ++ bs ++ rest) (length pre) = Ret (v, length (pre ++ bs))
   else encodeRemainingLength v = Throw invalid_argument) /\
  (forall bytes cursor,
     parses_to (decodeRemainingLength bytes cursor)
       (fun '(v', c) => 0 <= v' /\ (cursor < c <= length bytes)%nat /\ (c <= cursor + 4)%nat)).
Proof.
  intros Hv. unfold is_u32 in Hv. split; [|intros; apply decode_loop_total].
  case_decide as Hm.
  - exists (remaining_bytes v). split; [apply encodeRemainingLength_ret; lia|].
    split; [apply remaining_bytes_length|]. apply decodeRemainingLength_ret. lia.
  - unfold encodeRemainingLength. replace (_ <? v) with true by (symmetry; apply Z.ltb_lt; lia).
    reflexivity.
Qed.

(** [parsePublish] on a buffer that holds no more than the packet. *)
Lemma parse_publish_total bytes :
  bytes_ok bytes -> (forall n c, decodeRemainingLength bytes 1 = Ret (n, c) -> (length bytes <= c + Z.to_nat n)%nat) ->
  parses_to (parsePublish bytes)
    (fun p => exists first len, bytes = first :: len ++ string_bytes (topic p) ++ publish_payload p /\ string_ok (topic p)).
Proof.
  intros Hok Hcomplete. unfold parsePublish. case_bool_decide as He; [reflexivity|].
  destruct bytes as [|first tail]; [contradiction|]. cbn [vec_get lookup list_lookup mbind outcome_bind].
  change (vec_get (first :: tail) 0) with (Ret first). cbn [mbind outcome_bind].
  case_match; [reflexivity|]. case_match; [reflexivity|].
  pose proof (decode_loop_total kMaxRemainingLengthBytes (first :: tail) 1 1 0) as Hd.
  unfold decodeRemainingLength in *.
  destruct (decode_loop _ _ _ _ _) as [[n c]|e|]; [|exact Hd|destruct Hd].
  destruct Hd as (Hn & Hc & _). specialize (Hcomplete n c eq_refl). cbn [mbind outcome_bind].
  case_decide as Hlen; [reflexivity|].
  eapply parses_bind; [apply readString_total; exact Hok|]. intros [t c2] (Ht & Hc2 & Hcc & Hd2).
  unfold assign_range. rewrite decide_True by lia. cbn [mbind outcome_bind parses_to topic publish_payload].
  exists first, (take (c - 1) tail). split; [|exact Ht].
  destruct c as [|c]; [lia|]. cbn [drop] in Hd2. rewrite Nat.sub_succ, Nat.sub_0_r.
  f_equal. rewrite <- (take_drop c tail) at 1. f_equal. rewrite Hd2. f_equal.
  unfold slice. symmetry. apply take_ge. rewrite length_drop. lia.
Qed.

(** A PUBLISH packet as built and as parsed. *)
Lemma publish_packets t pl :
  string_ok t -> 2 + Z.of_nat (length t) + Z.of_nat (length pl) <= kMaxRemainingLength ->
  buildPublish t pl = Ret (packet_bytes 48 (string_bytes t ++ pl)) /\
  parsePublish (packet_bytes 48 (string_bytes t ++ pl)) = Ret (mkPublish t pl).
Proof.
  intros Ht Hsz.
  assert (Hbody : Z.of_nat (length (string_bytes t ++ pl)) =
                  2 + Z.of_nat (length t) + Z.of_nat (length pl))
    by (rewrite length_app, string_bytes_length; lia).
  assert (Hr : 0 <= Z.of_nat (length (string_bytes t ++ pl)) <= kMaxRemainingLength) by lia.
  split.
  - unfold buildPublish. rewrite encodeString_ret by exact Ht. cbn [mbind outcome_bind].
    rewrite <- length_app, u32_id by (unfold is_u32, kMaxRemainingLength in *; lia).
    rewrite encodeRemainingLength_ret by exact Hr. reflexivity.
  - unfold packet_bytes. set (rb := remaining_bytes _).
    unfold parsePublish. rewrite bool_decide_eq_false_2 by discriminate.
    change (vec_get ([48] ++ rb ++ string_bytes t ++ pl) 0) with (Ret 48). cbn [mbind outcome_bind].
    change (negb _) with false at 1. cbn iota. change (negb _) with false at 1. cbn iota.
    pose proof (decodeRemainingLength_ret [48] _ (string_bytes t ++ pl) Hr) as Hd.
    cbn [length] in Hd. fold rb in Hd. rewrite Hd. cbn [mbind outcome_bind].
    rewrite Nat2Z.id, decide_False by (rewrite !length_app; lia).
    pose proof (readString_ret ([48] ++ rb) t pl Ht) as Hs.
    rewrite <- app_assoc in Hs. rewrite Hs. cbn [mbind outcome_bind].
    unfold assign_range. rewrite decide_True by (rewrite !length_app; lia).
    cbn [mbind outcome_bind]. do 2 f_equal.
    replace (([48] ++ rb) ++ string_bytes t) with ([48] ++ rb ++ string_bytes t) by
      (rewrite <- app_assoc; reflexivity).
    replace ([48] ++ rb ++ string_bytes t ++ pl) with (([48] ++ rb ++ string_bytes t) ++ pl) by
      (rewrite <- !app_assoc; reflexivity).
    rewrite slice_app_skip. apply take_ge. rewrite !length_app. lia.
Qed.

(** PUBLISH round trip. Every topic of at most 65535 bytes with every payload
    that fits the protocol's packet size is built as one PUBLISH packet of
    the specification, and parsing that packet gives the topic and the
    payload back. *)
Theorem publish_roundtrip t pl :
  string_ok t -> 2 + Z.of_nat (length t) + Z.of_nat (length pl) <= kMaxRemainingLength ->
  buildPublish t pl = Ret (packet_bytes 48 (string_bytes t ++ pl)) /\
  parsePublish (packet_bytes 48 (string_bytes t ++ pl)) = Ret (mkPublish t pl).
Proof. apply publish_packets. Qed.

(** The parsers on arbitrary bytes. On a buffer that does not run past the
    packet it announces, parsePublish throws runtime_error or returns the
    topic and the payload the packet spells; the acknowledgement parsers
    throw runtime_error or return the fields at their fixed places, on every
    buffer. No case is undefined behaviour. *)
Theorem mqtt_parsers_sound bytes :
  bytes_ok bytes ->
  parses_to (parseConnAck bytes) (fun code => exists f rest, bytes = 32 :: 2 :: f :: code :: rest) /\
  parses_to (parseSubAck bytes)
    (fun a => exists rest, bytes = 144 :: 3 :: be16 (packetId a) ++ returnCode a :: rest) /\
  parses_to (parseUnsubAck bytes) (fun pid => exists rest, bytes = 176 :: 2 :: be16 pid ++ rest) /\
  ((forall n c, decodeRemainingLength bytes 1 = Ret (n, c) -> (length bytes <= c + Z.to_nat n)%nat) ->
   parses_to (parsePublish bytes)
     (fun p => exists first len, bytes = first :: len ++ string_bytes (topic p) ++ publish_payload p /\
               string_ok (topic p))).
Proof.
  intros Hok.
  assert (Hack : forall size ty rl, (2 <= size)%nat ->
    parses_to (ack_header size ty rl bytes)
      (fun _ => (size <= length bytes)%nat /\ exists rest, bytes = ty :: rl :: rest)).
  { intros size ty rl Hsz. unfold ack_header. case_decide; [reflexivity|].
    destruct bytes as [|b0 [|b1 rest]]; cbn in *; try lia.
    destruct (Z.eqb_spec b0 ty) as [->|]; cbn; [|reflexivity].
    destruct (Z.eqb_spec b1 rl) as [->|]; cbn; [|reflexivity]. split; [lia|eauto]. }
  split_and!.
  - eapply parses_bind; [apply Hack; unfold kConnAckPacketSize; lia|].
    intros _ [Hl [rest ->]]. destruct rest as [|f [|code rest]]; cbn in Hl; try (unfold kConnAckPacketSize in Hl; lia).
    cbn. eauto.
  - eapply parses_bind; [apply Hack; unfold kSubAckPacketSize; lia|]. intros _ [Hl [rest Eb]].
    eapply parses_bind; [apply readUint16_total; exact Hok|]. intros [v c] (_ & -> & Hc & Hd).
    eapply parses_bind; [apply vec_get_parses; unfold kSubAckPacketSize in Hl; lia|]. intros code Hcode.
    cbn [parses_to packetId returnCode]. rewrite (drop_S _ code (2 + 2)) in Hd by exact Hcode.
    rewrite Eb in Hd at 1. cbn in Hd. rewrite drop_0 in Hd. rewrite Eb, Hd. eauto.
  - eapply parses_bind; [apply Hack; unfold kUnsubAckPacketSize; lia|]. intros _ [Hl [rest Eb]].
    eapply parses_bind; [apply readUint16_total; exact Hok|]. intros [v c] (_ & -> & Hc & Hd).
    rewrite Eb in Hd at 1. cbn in Hd. rewrite drop_0 in Hd. cbn. rewrite Eb, Hd. eauto.
  - intros Hcomplete. apply parse_publish_total; assumption.
Qed.

(** A trailing byte is enough to break parsePublish: the topic is checked
    against the buffer, not against the packet. The packet here announces an
    empty body; its topic field is read from the bytes that follow it, and
    the payload range then ends before it starts. *)
Theorem parse_publish_overread_refuted :
  parsePublish [48; 0; 0; 1; 97] = Undef.
Proof. vm_compute. reflexivity. Qed.

(* ------------------------------------------------------------------ *)
(** ** Witnesses *)

Definition demo_topic : list Z := [104; 109; 105].
Definition demo_pl : list Z := [49; 46; 53].
Lemma demo_topic_ok : string_ok demo_topic.
Proof. split; [bytes_lit|cbn; lia]. Qed.

Example demo_subscribe :
  buildSubscribe 258 demo_topic = Ret [130; 8; 1; 2; 0; 3; 104; 109; 105; 0].
Proof. vm_compute. reflexivity. Qed.
Example demo_unsubscribe :
  buildUnsubscribe 258 demo_topic = Ret [162; 7; 1; 2; 0; 3; 104; 109; 105].
Proof. vm_compute. reflexivity. Qed.
Example demo_connect :
  buildConnect demo_topic 30 = Ret [16; 15; 0; 4; 77; 81; 84; 84; 4; 2; 0; 30; 0; 3; 104; 109; 105].
Proof. vm_compute. reflexivity. Qed.

Lemma remaining_length_roundtrip_witness :
  exists bs, encodeRemainingLength 321 = Ret bs /\ (1 <= length bs <= 4)%nat /\
    decodeRemainingLength ([48] ++ bs ++ [7]) (length [48]) = Ret (321, length ([48] ++ bs)).
Proof. exact (proj1 (remaining_length_roundtrip 321 [48] [7] ltac:(unfold is_u32; lia))). Defined.

Lemma publish_roundtrip_witness :
  buildPublish demo_topic demo_pl = Ret (packet_bytes 48 (string_bytes demo_topic ++ demo_pl)) /\
  parsePublish (packet_bytes 48 (string_bytes demo_topic ++ demo_pl)) = Ret (mkPublish demo_topic demo_pl).
Proof. apply (publish_roundtrip demo_topic demo_pl demo_topic_ok). vm_compute. discriminate. Defined.

Lemma mqtt_parsers_sound_witness :
  parses_to (parseConnAck [32; 2; 0; 5])
    (fun code => exists f rest, [32; 2; 0; 5] = 32 :: 2 :: f :: code :: rest).
Proof. refine (proj1 (mqtt_parsers_sound [32; 2; 0; 5] _)). bytes_lit. Defined.
