(* ===== verification/ModbusPdu.v ===== *)
(** * Modbus TCP frame codec (src/integration/modbus/ModbusPdu.{h,cpp})

    Encoding of read requests and decoding of responses, with the byte
    layout of the header comment as the specification. *)
From S2P Require Import Prelude Wire Result.

Definition kBitsPerByte : Z := 8.
Definition kLowByteMask : Z := 255.
Definition kFunctionCodeMask : Z := 127.
Definition kMbapHeaderSize : nat := 7.
Definition kMaxPduSize : Z := 253.
Definition kModbusTcpProtocolId : Z := 0.
Definition kExceptionFlag : Z := 128.
Definition kMaxRegistersPerRead : Z := 125.

Inductive FunctionCode := ReadHoldingRegisters | ReadInputRegisters.

(** [static_cast<std::uint8_t>(fc)]. *)
Definition fc_byte (fc : FunctionCode) : Z :=
  match fc with ReadHoldingRegisters => 3 | ReadInputRegisters => 4 end.

Inductive ExceptionCode :=
| IllegalFunction | IllegalDataAddress | IllegalDataValue | SlaveDeviceFailure
| OtherException.

Inductive DecodeError :=
| ShortFrame | BadProtocolId | LengthMismatch | TransactionIdMismatch
| UnitIdMismatch | FunctionCodeMismatch | ByteCountMismatch
| DecServerException | DecInvalidQuantity.

#[export] Instance ExceptionCode_eq_dec : EqDecision ExceptionCode.
Proof. solve_decision. Defined.
#[export] Instance DecodeError_eq_dec : EqDecision DecodeError.
Proof. solve_decision. Defined.

#[export] Instance DecodeError_toString : ErrorToString DecodeError := fun e =>
  match e with
  | ShortFrame => "Modbus: ADU shorter than minimum frame size"
  | BadProtocolId => "Modbus: MBAP protocol ID is not zero"
  | LengthMismatch => "Modbus: MBAP length field disagrees with ADU size"
  | TransactionIdMismatch => "Modbus: response transaction ID does not echo request"
  | UnitIdMismatch => "Modbus: response unit ID does not echo request"
  | FunctionCodeMismatch => "Modbus: response function code does not echo request"
  | ByteCountMismatch => "Modbus: PDU byte count does not match requested quantity"
  | DecServerException => "Modbus: server returned exception response"
  | DecInvalidQuantity => "Modbus: register quantity outside [1, 125]"
  end%string.

(** [writeBe16(buf, offset, value)]. *)
Definition writeBe16 (buf : list Z) (offset : nat) (value : Z) : outcome (list Z) :=
  buf ← vec_set buf offset (Z.land (Z.shiftr value kBitsPerByte) kLowByteMask);
  vec_set buf (offset + 1) (Z.land value kLowByteMask).

(** [readBe16(buf, offset)]: two unchecked subscripts. *)
Definition readBe16 (buf : list Z) (offset : nat) : outcome Z :=
  hi ← vec_get buf offset;
  lo ← vec_get buf (offset + 1);
  Ret (u16 (Z.lor (Z.shiftl hi kBitsPerByte) lo)).

Definition mapExceptionCode (raw : Z) : ExceptionCode :=
  if raw =? 1 then IllegalFunction
  else if raw =? 2 then IllegalDataAddress
  else if raw =? 3 then IllegalDataValue
  else if raw =? 4 then SlaveDeviceFailure
  else OtherException.

Definition kReadRequestAduSize : nat := kMbapHeaderSize + 5.
Definition kReadRequestLength : Z := 6.

Definition encodeReadRequest (transactionId unitId : Z) (fc : FunctionCode)
    (startAddress quantity : Z) : outcome (list Z) :=
  let adu := replicate kReadRequestAduSize 0 in
  adu ← writeBe16 adu 0 transactionId;
  adu ← writeBe16 adu 2 kModbusTcpProtocolId;
  adu ← writeBe16 adu 4 kReadRequestLength;
  adu ← vec_set adu 6 unitId;
  adu ← vec_set adu 7 (fc_byte fc);
  adu ← writeBe16 adu 8 startAddress;
  writeBe16 adu 10 quantity.

Definition encodeReadRequestChecked (transactionId unitId : Z) (fc : FunctionCode)
    (startAddress quantity : Z) : outcome (Result (list Z) DecodeError) :=
  if (quantity =? 0) || (kMaxRegistersPerRead <? quantity)
  then Ret (Err DecInvalidQuantity)
  else
    adu ← encodeReadRequest transactionId unitId fc startAddress quantity;
    Ret (Ok adu).

Record ResponseContext := mkContext {
  expectedTransactionId : Z;
  expectedUnitId : Z;
  expectedFunctionCode : FunctionCode;
  expectedQuantity : Z;
}.

Record DecodedReadResponse := mkDecoded {
  registers : list Z;
  exceptionCode : ExceptionCode;
}.

#[export] Instance DecodedReadResponse_eq_dec : EqDecision DecodedReadResponse.
Proof. solve_decision. Defined.

Definition kMinResponseSize : nat := kMbapHeaderSize + 2.

(** The register loop: [n] registers from [offset]. *)
Fixpoint read_registers (adu : list Z) (offset n : nat) : outcome (list Z) :=
  match n with
  | O => Ret []
  | S n =>
      r ← readBe16 adu offset;
      rs ← read_registers adu (offset + 2) n;
      Ret (r :: rs)
  end.

Definition decodeReadResponse (adu : list Z) (ctx : ResponseContext) :
    outcome (Result DecodedReadResponse DecodeError) :=
  if decide (length adu < kMinResponseSize)%nat then Ret (Err ShortFrame) else
  transactionId ← readBe16 adu 0;
  protocolId ← readBe16 adu 2;
  len ← readBe16 adu 4;
  unitId ← vec_get adu 6;
  if negb (protocolId =? kModbusTcpProtocolId) then Ret (Err BadProtocolId) else
  if negb (transactionId =? expectedTransactionId ctx)
  then Ret (Err TransactionIdMismatch) else
  if negb (unitId =? expectedUnitId ctx) then Ret (Err UnitIdMismatch) else
  let expectedAduSize := Z.of_nat kMbapHeaderSize + len - 1 in
  if negb (Z.of_nat (length adu) =? expectedAduSize) then Ret (Err LengthMismatch) else
  rawFc ← vec_get adu 7;
  let expectedFcRaw := fc_byte (expectedFunctionCode ctx) in
  if negb (Z.land rawFc kExceptionFlag =? 0) then
    if negb (Z.land rawFc kFunctionCodeMask =? expectedFcRaw)
    then Ret (Err FunctionCodeMismatch)
    else
      code ← vec_get adu 8;
      Ret (Ok (mkDecoded [] (mapExceptionCode code)))
  else if negb (rawFc =? expectedFcRaw) then Ret (Err FunctionCodeMismatch) else
  byteCount ← vec_get adu 8;
  let expectedBytes := u16 (expectedQuantity ctx * 2) in
  if negb (byteCount =? expectedBytes) then Ret (Err ByteCountMismatch) else
  let pduSize := 2 + byteCount in
  if negb (Z.of_nat kMbapHeaderSize + pduSize =? Z.of_nat (length adu))
  then Ret (Err LengthMismatch) else
  regs ← read_registers adu (kMbapHeaderSize + 2) (Z.to_nat (expectedQuantity ctx));
  Ret (Ok (mkDecoded regs OtherException)).

(* ------------------------------------------------------------------ *)
(** ** Specification: the wire layout of the header comment *)

(** MBAP header of a frame whose PDU has [n] bytes. *)
Definition mbap (tid unit : Z) (n : nat) : list Z :=
  be16 tid ++ be16 0 ++ be16 (1 + Z.of_nat n) ++ [unit].

Definition request_frame (tid unit : Z) (fc : FunctionCode) (start qty : Z) : list Z :=
  mbap tid unit 5 ++ [fc_byte fc] ++ be16 start ++ be16 qty.

Definition read_pdu (fc : FunctionCode) (regs : list Z) : list Z :=
  [fc_byte fc; 2 * Z.of_nat (length regs)] ++ flat_map be16 regs.

(** A slave's normal response. *)
Definition read_response (tid unit : Z) (fc : FunctionCode) (regs : list Z) : list Z :=
  mbap tid unit (length (read_pdu fc regs)) ++ read_pdu fc regs.

(** A slave's exception response; the decoder accepts trailing bytes the
    MBAP length accounts for. *)
Definition exception_response (tid unit : Z) (fc : FunctionCode) (code : Z)
    (extra : list Z) : list Z :=
  mbap tid unit (2 + length extra) ++ [fc_byte fc + 128; code] ++ extra.

Definition ctx_ok (ctx : ResponseContext) : Prop :=
  is_u16 (expectedTransactionId ctx) /\ is_u8 (expectedUnitId ctx) /\
  is_u16 (expectedQuantity ctx).

(* ------------------------------------------------------------------ *)
(** ** Lemmas *)

Lemma writeBe16_ret buf off v :
  is_u16 v -> (off + 1 < length buf)%nat ->
  writeBe16 buf off v = Ret (<[(off + 1)%nat := v mod 256]> (<[off := v / 256]> buf)).
Proof.
  intros Hv Ho. unfold writeBe16, kBitsPerByte, kLowByteMask.
  rewrite hi_byte_idiom, lo_byte_idiom by assumption.
  rewrite vec_set_ret by lia. simpl.
  rewrite vec_set_ret by (rewrite length_insert; lia). reflexivity.
Qed.

Lemma readBe16_ret buf off hi lo :
  buf !! off = Some hi -> buf !! (off + 1)%nat = Some lo -> is_u8 hi -> is_u8 lo ->
  readBe16 buf off = Ret (of_be16 hi lo).
Proof.
  intros H1 H2 Hhi Hlo. unfold readBe16, vec_get. rewrite H1, H2. simpl.
  unfold kBitsPerByte. rewrite shift_or_16 by assumption. reflexivity.
Qed.

Lemma readBe16_defined buf off :
  (off + 1 < length buf)%nat -> defined (readBe16 buf off).
Proof.
  intros H. unfold readBe16.
  destruct (vec_get_lt buf off ltac:(lia)) as (x & -> & _).
  destruct (vec_get_lt buf (off + 1) ltac:(lia)) as (y & -> & _). exact I.
Qed.

Lemma read_registers_app pre rest n :
  bytes_ok rest -> length rest = (2 * n)%nat ->
  exists regs, read_registers (pre ++ rest) (length pre) n = Ret regs /\
    rest = flat_map be16 regs /\ length regs = n /\ Forall is_u16 regs.
Proof.
  revert pre rest. induction n as [|n IH]; intros pre rest Hok Hlen.
  - destruct rest; [|discriminate]. exists []. auto.
  - destruct rest as [|hi [|lo rest]]; try (simpl in Hlen; lia).
    inversion Hok as [|? ? Hhi Hok']; subst. inversion Hok' as [|? ? Hlo Hok'']; subst.
    destruct (IH (pre ++ [hi; lo]) rest Hok'' ltac:(simpl in Hlen; lia))
      as (regs & Hr & Hf & Hn & Hu).
    exists (of_be16 hi lo :: regs). split_and!.
    + simpl. rewrite (readBe16_ret _ _ hi lo); auto.
      * simpl. replace (length pre + 2)%nat with (length (pre ++ [hi; lo]))
          by (rewrite length_app; reflexivity).
        replace (pre ++ hi :: lo :: rest) with ((pre ++ [hi; lo]) ++ rest)
          by (rewrite <- app_assoc; reflexivity).
        rewrite Hr. reflexivity.
      * rewrite lookup_app_r, Nat.sub_diag by lia. reflexivity.
      * rewrite lookup_app_r by lia. replace (length pre + 1 - length pre)%nat with 1%nat by lia.
        reflexivity.
    + cbn [flat_map]. rewrite be16_of_be16, <- Hf by assumption. reflexivity.
    + simpl. congruence.
    + constructor; auto with hmi.
Qed.

Lemma flat_map_be16_length regs : length (flat_map be16 regs) = (2 * length regs)%nat.
Proof. induction regs; simpl in *; lia. Qed.

Lemma flat_map_be16_ok regs : Forall is_u16 regs -> bytes_ok (flat_map be16 regs).
Proof.
  induction 1; [constructor|]. cbn [flat_map]. apply bytes_ok_app. auto with hmi.
Qed.

Lemma flat_map_be16_inj r1 r2 :
  Forall is_u16 r1 -> Forall is_u16 r2 -> flat_map be16 r1 = flat_map be16 r2 -> r1 = r2.
Proof.
  intros H1. revert r2. induction H1 as [|a r1 Ha _ IH]; intros r2 H2 Heq.
  - destruct r2; [reflexivity|discriminate].
  - destruct H2 as [|b r2 Hb H2]; [discriminate|].
    simpl in Heq. injection Heq as Eh El Et. f_equal; [|apply IH; assumption].
    rewrite <- (of_be16_be16 a Ha), <- (of_be16_be16 b Hb). congruence.
Qed.

(** The exception flag and code of a byte. *)
Lemma exception_bits b : is_u8 b -> (Z.land b 128 =? 0) = (b <? 128).
Proof.
  intros H.
  assert (Hall : forallb (fun n => Bool.eqb (Z.land (Z.of_nat n) 128 =? 0) (Z.of_nat n <? 128))
                  (seq 0 256) = true) by (vm_compute; reflexivity).
  rewrite forallb_forall in Hall. specialize (Hall (Z.to_nat b)).
  unfold is_u8 in H. rewrite Z2Nat.id in Hall by lia.
  apply Bool.eqb_prop. apply Hall. apply in_seq. lia.
Qed.

Lemma fc_byte_range fc : 3 <= fc_byte fc <= 4.
Proof. destruct fc; simpl; lia. Qed.

(** A frame of at least nine bytes, its checks over the fields they read. *)
Lemma decode_fields ctx t0 t1 p0 p1 l0 l1 u f c rest :
  let adu := t0 :: t1 :: p0 :: p1 :: l0 :: l1 :: u :: f :: c :: rest in
  bytes_ok adu ->
  decodeReadResponse adu ctx =
  (if negb (of_be16 p0 p1 =? 0) then Ret (Err BadProtocolId)
   else if negb (of_be16 t0 t1 =? expectedTransactionId ctx) then Ret (Err TransactionIdMismatch)
   else if negb (u =? expectedUnitId ctx) then Ret (Err UnitIdMismatch)
   else if negb (Z.of_nat (length rest) + 9 =? 6 + of_be16 l0 l1) then Ret (Err LengthMismatch)
   else if negb (f <? 128) then
     if negb (f - 128 =? fc_byte (expectedFunctionCode ctx))
     then Ret (Err FunctionCodeMismatch)
     else Ret (Ok (mkDecoded [] (mapExceptionCode c)))
   else if negb (f =? fc_byte (expectedFunctionCode ctx)) then Ret (Err FunctionCodeMismatch)
   else if negb (c =? u16 (expectedQuantity ctx * 2)) then Ret (Err ByteCountMismatch)
   else if negb (c =? Z.of_nat (length rest)) then Ret (Err LengthMismatch)
   else regs ← read_registers adu 9 (Z.to_nat (expectedQuantity ctx));
        Ret (Ok (mkDecoded regs OtherException))).
Proof.
  intros adu Hok. unfold bytes_ok, adu in Hok.
  repeat (apply Forall_cons in Hok as [? Hok]).
  unfold decodeReadResponse, readBe16, kBitsPerByte, kModbusTcpProtocolId.
  rewrite decide_False by (unfold adu, kMinResponseSize, kMbapHeaderSize; simpl; lia).
  replace (Z.of_nat (length adu)) with (Z.of_nat (length rest) + 9) by (unfold adu; simpl; lia).
  change (Z.of_nat kMbapHeaderSize) with 7.
  unfold vec_get. cbn -[u16 Z.lor Z.shiftl Z.of_nat Z.add Z.land read_registers].
  rewrite !shift_or_16 by assumption.
  unfold kExceptionFlag, kFunctionCodeMask. rewrite exception_bits, land_127 by assumption.
  replace (7 + of_be16 l0 l1 - 1) with (6 + of_be16 l0 l1) by lia.
  replace (7 + (2 + c) =? Z.of_nat (length rest) + 9)
    with (c =? Z.of_nat (length rest))
    by (destruct (Z.eqb_spec c (Z.of_nat (length rest)));
        symmetry; [apply Z.eqb_eq|apply Z.eqb_neq]; lia).
  destruct (Z.ltb_spec f 128); [reflexivity|]. cbn [negb].
  replace (f mod 128) with (f - 128) by (unfold is_u8 in *; zdm). reflexivity.
Qed.

Lemma nine_bytes (adu : list Z) :
  (9 <= length adu)%nat ->
  exists t0 t1 p0 p1 l0 l1 u f c rest,
    adu = t0 :: t1 :: p0 :: p1 :: l0 :: l1 :: u :: f :: c :: rest.
Proof.
  intros H.
  do 9 (destruct adu as [|? adu]; [simpl in H; lia|]). repeat eexists.
Qed.

(** What the decoder accepts, in terms of the frame grammar. *)
Definition accepted (ctx : ResponseContext) (adu : list Z) (r : DecodedReadResponse) : Prop :=
  (exists regs,
     Z.of_nat (length regs) = expectedQuantity ctx /\ Forall is_u16 regs /\
     adu = read_response (expectedTransactionId ctx) (expectedUnitId ctx)
             (expectedFunctionCode ctx) regs /\
     r = mkDecoded regs OtherException) \/
  (exists code extra,
     adu = exception_response (expectedTransactionId ctx) (expectedUnitId ctx)
             (expectedFunctionCode ctx) code extra /\
     r = mkDecoded [] (mapExceptionCode code)).

Ltac reject_case :=
  match goal with
  | H : (if negb ?b then _ else _) = _ |- _ => destruct b eqn:?; cbn [negb] in H; [|discriminate H]
  end.

Lemma decode_sound adu ctx r :
  bytes_ok adu -> ctx_ok ctx -> expectedQuantity ctx < 32768 ->
  decodeReadResponse adu ctx = Ret (Ok r) -> accepted ctx adu r.
Proof.
  intros Hok (Ht & Hu & Hq) Hlt Hd.
  destruct (decide (length adu < kMinResponseSize)%nat) as [Hs|Hs].
  { unfold decodeReadResponse in Hd. rewrite decide_True in Hd by assumption. discriminate. }
  destruct (nine_bytes adu) as (t0 & t1 & p0 & p1 & l0 & l1 & u & f & c & rest & ->);
    [unfold kMinResponseSize, kMbapHeaderSize in Hs; simpl in *; lia|].
  rewrite decode_fields in Hd by assumption.
  assert (Hr : bytes_ok rest) by (pose proof Hok as H; bytes_split H; exact H).
  bytes_split Hok.
  do 4 reject_case. rewrite Z.eqb_eq in *. subst u.
  assert (Hpre : [t0; t1; p0; p1] = be16 (expectedTransactionId ctx) ++ be16 0).
  { replace 0 with (of_be16 p0 p1). replace (expectedTransactionId ctx) with (of_be16 t0 t1).
    rewrite !be16_of_be16 by assumption. reflexivity. }
  assert (Hlen : [l0; l1] = be16 (Z.of_nat (length rest) + 3)).
  { replace (Z.of_nat (length rest) + 3) with (of_be16 l0 l1) by lia.
    rewrite be16_of_be16 by assumption. reflexivity. }
  destruct (Z.ltb_spec f 128) as [Hf|Hf]; cbn [negb] in Hd.
  - do 3 reject_case. rewrite Z.eqb_eq in *. subst f c.
    rewrite u16_id in * by (unfold is_u16 in *; lia).
    assert (Hn : length rest = (2 * Z.to_nat (expectedQuantity ctx))%nat)
      by (unfold is_u16 in *; lia).
    destruct (read_registers_app
                [t0; t1; p0; p1; l0; l1; expectedUnitId ctx;
                 fc_byte (expectedFunctionCode ctx); expectedQuantity ctx * 2]
                rest _ Hr Hn) as (regs & Hrr & Hf' & Hl & Hu16).
    cbn [app length] in Hrr. rewrite Hrr in Hd. cbn in Hd. injection Hd as <-.
    left. exists regs. split_and!; auto; [unfold is_u16 in *; lia|].
    unfold read_response, mbap, read_pdu. rewrite length_app, flat_map_be16_length.
    rewrite (app_assoc (be16 _) (be16 0)), <- Hpre.
    replace (1 + Z.of_nat (length [fc_byte (expectedFunctionCode ctx);
              2 * Z.of_nat (length regs)] + 2 * length regs))
      with (Z.of_nat (length rest) + 3) by (simpl; lia).
    rewrite <- Hlen, <- Hf'.
    replace (2 * Z.of_nat (length regs)) with (expectedQuantity ctx * 2)
      by (unfold is_u16 in *; lia). reflexivity.
  - reject_case. rewrite Z.eqb_eq in *. cbn in Hd. injection Hd as <-.
    right. exists c, rest. split; [|reflexivity].
    unfold exception_response, mbap.
    replace (1 + Z.of_nat (2 + length rest)) with (Z.of_nat (length rest) + 3) by lia.
    rewrite (app_assoc (be16 _) (be16 0)), <- Hpre, <- Hlen.
    replace f with (fc_byte (expectedFunctionCode ctx) + 128) by lia. reflexivity.
Qed.

Lemma decode_response_complete ctx regs :
  let adu := read_response (expectedTransactionId ctx) (expectedUnitId ctx) (expectedFunctionCode ctx) regs in
  bytes_ok adu -> ctx_ok ctx -> expectedQuantity ctx < 32768 ->
  Z.of_nat (length regs) = expectedQuantity ctx -> Forall is_u16 regs ->
  decodeReadResponse adu ctx = Ret (Ok (mkDecoded regs OtherException)).
Proof.
  intros adu Hok (Ht & Hu & Hq) Hlt Hn Hu16. subst adu.
  pose proof (fc_byte_range (expectedFunctionCode ctx)) as Hfc.
  unfold read_response, mbap, read_pdu, be16 in *.
  rewrite length_app, flat_map_be16_length in *. simpl length in *. cbn [app] in *.
  rewrite decode_fields by assumption.
  rewrite (of_be16_be16 0) by (unfold is_u16; lia).
  rewrite (of_be16_be16 (expectedTransactionId ctx)), !Z.eqb_refl by assumption. cbn [negb].
  set (n := Z.of_nat _) in *.
  assert (Hlen : is_u16 (1 + n)).
  { bytes_split Hok. unfold is_u16, is_u8 in *. zdm. }
  rewrite of_be16_be16, flat_map_be16_length by assumption.
  replace (Z.of_nat (2 * length regs) + 9 =? 6 + (1 + n)) with true
    by (symmetry; apply Z.eqb_eq; lia).
  replace (fc_byte (expectedFunctionCode ctx) <? 128) with true
    by (symmetry; apply Z.ltb_lt; lia).
  cbn [negb]. rewrite u16_id by (unfold is_u16 in *; lia).
  replace (2 * Z.of_nat (length regs) =? expectedQuantity ctx * 2) with true
    by (symmetry; apply Z.eqb_eq; lia).
  replace (2 * Z.of_nat (length regs) =? Z.of_nat (2 * length regs)) with true
    by (symmetry; apply Z.eqb_eq; lia).
  cbn [negb].
  pose proof (flat_map_be16_ok regs Hu16) as Hf.
  destruct (read_registers_app
     [expectedTransactionId ctx / 256; expectedTransactionId ctx mod 256; 0 / 256; 0 mod 256;
      (1 + n) / 256; (1 + n) mod 256; expectedUnitId ctx;
      fc_byte (expectedFunctionCode ctx); 2 * Z.of_nat (length regs)]
     _ (Z.to_nat (expectedQuantity ctx)) Hf) as (regs' & Hrr & Hf' & Hl & Hu');
    [rewrite flat_map_be16_length; lia|].
  cbn [app length] in Hrr. change (fun v : Z => [v / 256; v mod 256]) with be16.
  rewrite Hrr. cbn. rewrite (flat_map_be16_inj regs regs') by assumption. reflexivity.
Qed.

Lemma decode_exception_complete ctx code extra :
  let adu := exception_response (expectedTransactionId ctx) (expectedUnitId ctx) (expectedFunctionCode ctx) code extra in
  bytes_ok adu -> ctx_ok ctx -> decodeReadResponse adu ctx = Ret (Ok (mkDecoded [] (mapExceptionCode code))).
Proof.
  intros adu Hok (Ht & Hu & Hq). subst adu.
  pose proof (fc_byte_range (expectedFunctionCode ctx)) as Hfc.
  unfold exception_response, mbap, be16 in *. cbn [app] in *.
  rewrite decode_fields by assumption.
  rewrite (of_be16_be16 0) by (unfold is_u16; lia).
  rewrite (of_be16_be16 (expectedTransactionId ctx)), !Z.eqb_refl by assumption. cbn [negb].
  set (n := Z.of_nat (2 + _)) in *.
  assert (Hlen : is_u16 (1 + n)).
  { bytes_split Hok. unfold is_u16, is_u8 in *. zdm. }
  rewrite of_be16_be16 by assumption.
  replace (Z.of_nat (length extra) + 9 =? 6 + (1 + n)) with true
    by (symmetry; apply Z.eqb_eq; lia).
  replace (fc_byte (expectedFunctionCode ctx) + 128 <? 128) with false
    by (symmetry; apply Z.ltb_ge; lia).
  replace (fc_byte (expectedFunctionCode ctx) + 128 - 128) with
    (fc_byte (expectedFunctionCode ctx)) by lia.
  rewrite Z.eqb_refl. reflexivity.
Qed.

Lemma decode_complete adu ctx r :
  bytes_ok adu -> ctx_ok ctx -> expectedQuantity ctx < 32768 ->
  accepted ctx adu r -> decodeReadResponse adu ctx = Ret (Ok r).
Proof.
  intros Hok Hc Hlt [(regs & Hn & Hu16 & -> & ->)|(code & extra & -> & ->)].
  - apply decode_response_complete; assumption.
  - apply decode_exception_complete; assumption.
Qed.

Lemma read_registers_defined adu off n :
  (off + 2 * n <= length adu)%nat -> defined (read_registers adu off n).
Proof.
  revert off. induction n as [|n IH]; intros off H; simpl; [exact I|].
  apply defined_bind; [apply readBe16_defined; lia|]. intros r _.
  apply defined_bind; [apply IH; lia|]. intros; exact I.
Qed.

Lemma decode_defined adu ctx :
  bytes_ok adu -> is_u16 (expectedQuantity ctx) -> expectedQuantity ctx < 32768 ->
  defined (decodeReadResponse adu ctx).
Proof.
  intros Hok Hq Hlt.
  destruct (decide (length adu < kMinResponseSize)%nat) as [Hs|Hs].
  { unfold decodeReadResponse. rewrite decide_True by assumption. exact I. }
  destruct (nine_bytes adu) as (t0 & t1 & p0 & p1 & l0 & l1 & u & f & c & rest & ->);
    [unfold kMinResponseSize, kMbapHeaderSize in Hs; simpl in *; lia|].
  rewrite decode_fields by assumption.
  repeat match goal with |- defined (if ?b then _ else _) => destruct b eqn:? end;
    try exact I.
  apply defined_bind; [|intros; exact I]. apply read_registers_defined.
  rewrite negb_false_iff, Z.eqb_eq in *. rewrite u16_id in * by (unfold is_u16 in *; lia).
  simpl. unfold is_u16 in *. lia.
Qed.

(* ------------------------------------------------------------------ *)
(** ** Properties *)

(** The response decoder is exactly the wire grammar. For every ADU and
    every request context, [decodeReadResponse] returns a success precisely
    when the ADU is the response the slave sends for that request (its
    registers in order, echoing transaction, unit and function code) or an
    exception response to it, and returns then those registers or that
    exception code. Every other byte string is rejected with an error. *)
Theorem decode_iff_grammar adu ctx r :
  bytes_ok adu -> ctx_ok ctx -> expectedQuantity ctx < 32768 ->
  decodeReadResponse adu ctx = Ret (Ok r) <-> accepted ctx adu r.
Proof.
  intros Hok Hctx Hq. split.
  - apply decode_sound; assumption.
  - apply decode_complete; assumption.
Qed.

(** Memory safety of the decoder. For every byte string and every
    context whose quantity is below 2^15 (the client only asks for 1..125),
    decoding never subscripts the ADU out of range. *)
Theorem decode_memory_safe adu ctx :
  bytes_ok adu -> is_u16 (expectedQuantity ctx) -> expectedQuantity ctx < 32768 ->
  decodeReadResponse adu ctx <> Undef.
Proof.
  intros Hok Hq Hlt Hd. pose proof (decode_defined adu ctx Hok Hq Hlt) as H.
  rewrite Hd in H. exact H.
Qed.

(** Beyond that range the byte-count check does not protect the register
    loop: [expectedQuantity * 2] is computed in 16 bits, so a context asking
    for 32768 registers accepts a nine-byte frame with byte count 0 and then
    reads past its end. *)
Theorem decode_quantity_wraps_refuted :
  exists adu ctx, bytes_ok adu /\ ctx_ok ctx /\ decodeReadResponse adu ctx = Undef.
Proof.
  exists [0; 1; 0; 0; 0; 3; 1; 3; 0], (mkContext 1 1 ReadHoldingRegisters 32768).
  split; [|split]; [| |vm_compute; reflexivity].
  - bytes_lit.
  - unfold ctx_ok, is_u16, is_u8; simpl; lia.
Qed.

(** Request encoding. For 16-bit fields the request is the 12-byte MBAP
    frame of the layout comment, and the checked variant produces it exactly
    for the quantities 1..125, rejecting every other with
    [InvalidQuantity]. *)
Theorem encode_request_frame tid unit fc start qty :
  is_u16 tid -> is_u8 unit -> is_u16 start -> is_u16 qty ->
  encodeReadRequest tid unit fc start qty = Ret (request_frame tid unit fc start qty) /\
  length (request_frame tid unit fc start qty) = kReadRequestAduSize /\
  encodeReadRequestChecked tid unit fc start qty =
    Ret (if decide (1 <= qty <= kMaxRegistersPerRead)
         then Ok (request_frame tid unit fc start qty) else Err DecInvalidQuantity).
Proof.
  intros Ht Hu Hs Hq.
  assert (He : encodeReadRequest tid unit fc start qty = Ret (request_frame tid unit fc start qty)).
  { unfold encodeReadRequest.
    unfold kReadRequestAduSize, kMbapHeaderSize, kModbusTcpProtocolId, kReadRequestLength.
    do 3 (rewrite writeBe16_ret by (rewrite ?length_insert; unfold is_u16 in *; simpl; lia); cbn [mbind outcome_bind]).
    do 2 (rewrite vec_set_ret by (rewrite ?length_insert; simpl; lia); cbn [mbind outcome_bind]).
    do 2 (rewrite writeBe16_ret by (rewrite ?length_insert; unfold is_u16 in *; simpl; lia); cbn [mbind outcome_bind]).
    reflexivity. }
  split; [exact He|]. split; [reflexivity|].
  unfold encodeReadRequestChecked. rewrite He. unfold kMaxRegistersPerRead.
  destruct (Z.eqb_spec qty 0); destruct (Z.ltb_spec 125 qty); simpl; unfold is_u16 in *;
    case_decide; try reflexivity; lia.
Qed.

(* ------------------------------------------------------------------ *)
(** ** Concrete inputs *)

Definition demo_ctx : ResponseContext := mkContext 258 17 ReadHoldingRegisters 2.
Definition demo_adu : list Z := [1; 2; 0; 0; 0; 7; 17; 3; 4; 3; 82; 0; 100].

Lemma demo_adu_ok : bytes_ok demo_adu.
Proof. bytes_lit. Qed.
Lemma demo_ctx_ok : ctx_ok demo_ctx.
Proof. unfold ctx_ok, is_u16, is_u8, demo_ctx; simpl; lia. Qed.

Example demo_decodes :
  decodeReadResponse demo_adu demo_ctx = Ret (Ok (mkDecoded [850; 100] OtherException)).
Proof. vm_compute. reflexivity. Qed.

Lemma decode_iff_grammar_witness :
  accepted demo_ctx demo_adu (mkDecoded [850; 100] OtherException).
Proof.
  apply (proj1 (decode_iff_grammar demo_adu demo_ctx _ demo_adu_ok demo_ctx_ok eq_refl)).
  vm_compute. reflexivity.
Defined.

Lemma decode_memory_safe_witness : decodeReadResponse demo_adu demo_ctx <> Undef.
Proof.
  apply (decode_memory_safe demo_adu demo_ctx demo_adu_ok); [unfold is_u16; simpl; lia|reflexivity].
Defined.

Lemma encode_request_frame_witness :
  encodeReadRequest 258 17 ReadInputRegisters 4096 10 =
    Ret (request_frame 258 17 ReadInputRegisters 4096 10) /\
  length (request_frame 258 17 ReadInputRegisters 4096 10) = kReadRequestAduSize /\
  encodeReadRequestChecked 258 17 ReadInputRegisters 4096 10 =
    Ret (if decide (1 <= 10 <= kMaxRegistersPerRead)
         then Ok (request_frame 258 17 ReadInputRegisters 4096 10) else Err DecInvalidQuantity).
Proof.
  apply (encode_request_frame 258 17 ReadInputRegisters 4096 10); unfold is_u16, is_u8; lia.
Defined.
