(* ===== verification/ModbusClient.v ===== *)
(** * Modbus TCP client
    (src/integration/modbus/ModbusClient.{h,cpp}, ModbusReader.h)

    One request/response exchange with its connection state. The transport
    (Boost.Asio and the network) is a parameter: what each asynchronous
    operation of the exchange completed with, or that it was still pending at
    its deadline. Properties: the exact meaning of every result the caller
    can see, and the interface the poll loop is proved against. *)
From S2P Require Import Prelude Wire Result ModbusPdu.

Inductive IoError :=
| ConnectionFailed | Timeout | WriteFailed | ReadFailed | Disconnected | DecodeFailed
| ServerException | InvalidQuantity.

#[export] Instance IoError_eq_dec : EqDecision IoError.
Proof. solve_decision. Defined.

#[export] Instance IoError_toString : ErrorToString IoError := fun e =>
  match e with
  | ConnectionFailed => "Modbus: TCP connect failed"
  | Timeout => "Modbus: operation timed out"
  | WriteFailed => "Modbus: socket write failed"
  | ReadFailed => "Modbus: socket read failed"
  | Disconnected => "Modbus: peer closed connection"
  | DecodeFailed => "Modbus: response failed PDU decode"
  | ServerException => "Modbus: slave returned exception"
  | InvalidQuantity => "Modbus: register quantity outside [1,125]"
  end%string.

(** How an asynchronous operation ended when [run_for] returned. *)
Inductive io_result (A : Type) :=
| Pending                     (**r the handler has not run *)
| Eof                         (**r boost::asio::error::eof *)
| Failed                      (**r any other error code *)
| Completed (a : A).
Arguments Pending {A}.
Arguments Eof {A}.
Arguments Failed {A}.
Arguments Completed {A} a.

(** What the network does during one call of [readImpl]; [ex_body n] is the
    read of an [n]-byte PDU. *)
Record Exchange := mkExchange {
  ex_resolves : bool;
  ex_connect : io_result unit;
  ex_write : io_result nat;              (**r bytes written *)
  ex_header : io_result (list Z);
  ex_body : nat -> io_result (list Z);
}.

(** The documented contract of [async_read] on a fixed buffer: on success it
    has filled the buffer, with bytes. *)
Definition exchange_ok (ex : Exchange) : Prop :=
  (forall h, ex_header ex = Completed h -> length h = kMbapHeaderSize /\ bytes_ok h) /\
  (forall n b, ex_body ex n = Completed b -> length b = n /\ bytes_ok b).

Record ModbusClient := mkClient {
  connected_ : bool;
  socket_open : bool;
  nextTid_ : Z;
  lastExceptionCode_ : option ExceptionCode;
}.

Definition client_init : ModbusClient := mkClient false false 1 None.

Definition isConnected (c : ModbusClient) : bool := connected_ c.
Definition lastExceptionCode (c : ModbusClient) : option ExceptionCode := lastExceptionCode_ c.

Definition disconnect (c : ModbusClient) : ModbusClient :=
  mkClient false false (nextTid_ c) (lastExceptionCode_ c).

Definition ensureConnected (c : ModbusClient) (ex : Exchange) :
    Result unit IoError * ModbusClient :=
  if connected_ c && socket_open c then (Ok tt, c) else
  let c := mkClient (connected_ c) false (nextTid_ c) (lastExceptionCode_ c) in
  if negb (ex_resolves ex) then (Err ConnectionFailed, c) else
  match ex_connect ex with
  | Pending => (Err Timeout, c)
  | Eof | Failed => (Err ConnectionFailed, c)
  | Completed _ => (Ok tt, mkClient true true (nextTid_ c) (lastExceptionCode_ c))
  end.

(** [1U + kMaxPduSize] as a 16-bit constant. *)
Definition kMaxLengthField : Z := u16 (1 + kMaxPduSize).

(** The read of the header and the body: the whole ADU, or the error. Each
    failed read disconnects. *)
Definition read_adu (ex : Exchange) : outcome (Result (list Z) IoError) :=
  match ex_header ex with
  | Pending => Ret (Err Timeout)
  | Eof => Ret (Err Disconnected)
  | Failed => Ret (Err ReadFailed)
  | Completed adu =>
      hi ← vec_get adu 4;
      lo ← vec_get adu 5;
      let len := u16 (Z.lor (Z.shiftl hi kBitsPerByte) lo) in
      if (len =? 0) || (kMaxLengthField <? len) then Ret (Err DecodeFailed) else
      match ex_body ex (Z.to_nat (len - 1)) with
      | Pending => Ret (Err Timeout)
      | Eof => Ret (Err Disconnected)
      | Failed => Ret (Err ReadFailed)
      | Completed body => Ret (Ok (adu ++ body))
      end
  end.

Definition readImpl (c : ModbusClient) (ex : Exchange) (fc : FunctionCode)
    (unitId address quantity : Z) : outcome (Result (list Z) IoError * ModbusClient) :=
  if (quantity =? 0) || (kMaxRegistersPerRead <? quantity) then Ret (Err InvalidQuantity, c) else
  match ensureConnected c ex with
  | (Err e, c) => Ret (Err e, c)
  | (Ok _, c) =>
      let tid := nextTid_ c in
      let c := mkClient (connected_ c) (socket_open c) (u16 (tid + 1)) (lastExceptionCode_ c) in
      request ← encodeReadRequest tid unitId fc address quantity;
      match ex_write ex with
      | Pending => Ret (Err Timeout, disconnect c)
      | Eof | Failed => Ret (Err WriteFailed, disconnect c)
      | Completed n =>
          if negb (n =? length request)%nat then Ret (Err WriteFailed, disconnect c) else
          adu ← read_adu ex;
          match adu with
          | Err e => Ret (Err e, disconnect c)
          | Ok adu =>
              let ctx := mkContext tid unitId fc quantity in
              decoded ← decodeReadResponse adu ctx;
              match decoded with
              | Err _ => Ret (Err DecodeFailed, c)
              | Ok payload =>
                  if bool_decide (registers payload = []) then
                    Ret (Err ServerException,
                         mkClient (connected_ c) (socket_open c) (nextTid_ c)
                           (Some (exceptionCode payload)))
                  else
                    Ret (Ok (registers payload),
                         mkClient (connected_ c) (socket_open c) (nextTid_ c) None)
              end
          end
      end
  end.

Definition readHoldingRegisters (c : ModbusClient) (ex : Exchange) (unitId address quantity : Z) :=
  readImpl c ex ReadHoldingRegisters unitId address quantity.
Definition readInputRegisters (c : ModbusClient) (ex : Exchange) (unitId address quantity : Z) :=
  readImpl c ex ReadInputRegisters unitId address quantity.

(* ------------------------------------------------------------------ *)
(** ** The reader interface *)

(** What the poll loop relies on: a read of one register completes with a
    value or an error, whatever the network does. [R] carries the reader and
    the future of its transport; [reader_ok] is its invariant. *)
Class ModbusReader (R : Type) := {
  read_regs : R -> FunctionCode -> Z -> Z -> Z -> outcome (Result (list Z) IoError * R);
  reader_ok : R -> Prop;
  read_regs_total : forall r fc unitId address quantity,
    reader_ok r -> is_u8 unitId -> is_u16 address -> is_u16 quantity ->
    exists res r', read_regs r fc unitId address quantity = Ret (res, r') /\ reader_ok r' /\
      match res with
      | Ok regs => Forall is_u16 regs /\ Z.of_nat (length regs) = quantity
      | Err _ => True
      end;
}.

(* ------------------------------------------------------------------ *)
(** ** Lemmas *)

Definition client_ok (c : ModbusClient) : Prop := is_u16 (nextTid_ c).

Lemma decode_returns adu ctx :
  bytes_ok adu -> is_u16 (expectedQuantity ctx) -> expectedQuantity ctx < 32768 ->
  exists r, decodeReadResponse adu ctx = Ret r.
Proof.
  intros Hok Hq Hlt. pose proof (decode_defined adu ctx Hok Hq Hlt) as Hd.
  assert (Hv : forall A (l : list A) i, exists o, vec_get l i = match o with Some a => Ret a | None => Undef end)
    by (intros A l i; exists (l !! i); reflexivity).
  assert (Hnt : forall e, decodeReadResponse adu ctx <> Throw e); [|destruct (decodeReadResponse adu ctx) as [r|e|]; [eauto|destruct (Hnt e); reflexivity|destruct Hd]].
  intros e. clear Hd.
  assert (Hb : forall l o, readBe16 l o <> Throw e).
  { intros l o. unfold readBe16, vec_get. repeat case_match; discriminate. }
  assert (Hr : forall n l o, read_registers l o n <> Throw e).
  { induction n as [|n IH]; intros l o; cbn [read_registers]; [discriminate|].
    specialize (Hb l o). destruct (readBe16 l o); cbn; try congruence.
    specialize (IH l (o + 2)%nat). destruct (read_registers _ _ _); cbn; congruence. }
  unfold decodeReadResponse, vec_get.
  repeat first
    [ discriminate
    | match goal with
      | |- context [readBe16 ?l ?o] => pose proof (Hb l o); destruct (readBe16 l o); cbn [mbind outcome_bind]
      | |- context [read_registers ?l ?o ?n] =>
          pose proof (Hr n l o); destruct (read_registers l o n); cbn [mbind outcome_bind]
      end
    | case_match; cbn [mbind outcome_bind]
    | congruence ].
Qed.

(** A reachable client: a connected client's socket is open. *)
Definition client_inv (c : ModbusClient) : Prop :=
  client_ok c /\ (connected_ c = true -> socket_open c = true).

Lemma encode_returns tid u fc a q :
  exists req, encodeReadRequest tid u fc a q = Ret req /\ length req = kReadRequestAduSize.
Proof. eexists. split; reflexivity. Qed.

(** Reading the ADU: a value or an error, and on success header and body. *)
Lemma read_adu_spec ex :
  exchange_ok ex ->
  exists r, read_adu ex = Ret r /\
    match r with
    | Ok adu => bytes_ok adu /\
        exists h b n, ex_header ex = Completed h /\ ex_body ex n = Completed b /\ adu = h ++ b
    | Err e => e <> ServerException /\ e <> InvalidQuantity /\ e <> ConnectionFailed
    end.
Proof.
  intros [Hh Hb]. unfold read_adu. destruct (ex_header ex) as [| | |h] eqn:Eh;
    try (eexists; split; [reflexivity|]; split_and!; discriminate).
  destruct (Hh h eq_refl) as [Hl Hok]. unfold kMbapHeaderSize in Hl.
  destruct (vec_get_lt h 4) as (hi & -> & _); [lia|].
  destruct (vec_get_lt h 5) as (lo & -> & _); [lia|]. cbn [mbind outcome_bind].
  case_match; [eexists; split; [reflexivity|]; split_and!; discriminate|].
  match goal with |- context [ex_body ex ?n] => set (k := n) end.
  destruct (ex_body ex k) as [| | |b] eqn:Eb;
    try (eexists; split; [reflexivity|]; split_and!; discriminate).
  destruct (Hb k b Eb) as [_ Hbok].
  eexists. split; [reflexivity|]. split; [apply bytes_ok_app; auto|]. eauto 10.
Qed.

Lemma ensureConnected_spec c ex :
  client_inv c ->
  let '(r, c') := ensureConnected c ex in
  client_ok c' /\ nextTid_ c' = nextTid_ c /\
  match r with
  | Ok _ => connected_ c' = true /\ socket_open c' = true
  | Err e => connected_ c' = false /\ (e = ConnectionFailed \/ e = Timeout)
  end.
Proof.
  intros [Hok Hopen]. unfold ensureConnected.
  destruct (connected_ c) eqn:Ec.
  - rewrite (Hopen eq_refl). cbn. rewrite Ec, (Hopen eq_refl). auto.
  - cbn. destruct (ex_resolves ex); cbn; [|auto]. destruct (ex_connect ex); cbn; auto.
Qed.

(** The ADU an exchange delivered. *)
Definition delivered (ex : Exchange) (adu : list Z) : Prop :=
  exists h b n, ex_header ex = Completed h /\ ex_body ex n = Completed b /\ adu = h ++ b.

(** The meaning of a read's result. *)
Definition read_meaning (c : ModbusClient) (ex : Exchange) (fc : FunctionCode) (u q : Z)
    (res : Result (list Z) IoError) (c' : ModbusClient) : Prop :=
  match res with
  | Ok regs =>
      Z.of_nat (length regs) = q /\ 1 <= q <= 125 /\ Forall is_u16 regs /\
      delivered ex (read_response (nextTid_ c) u fc regs) /\
      connected_ c' = true /\ lastExceptionCode_ c' = None
  | Err ServerException =>
      exists code extra, delivered ex (exception_response (nextTid_ c) u fc code extra) /\
        connected_ c' = true /\ lastExceptionCode_ c' = Some (mapExceptionCode code)
  | Err InvalidQuantity => (q = 0 \/ 125 < q) /\ c' = c
  | Err DecodeFailed => 1 <= q <= 125
  | Err (ConnectionFailed | Timeout | WriteFailed | ReadFailed | Disconnected) =>
      connected_ c' = false
  end.

Lemma readImpl_meaning c ex fc u a q :
  client_inv c -> exchange_ok ex -> is_u8 u -> is_u16 a -> is_u16 q ->
  exists res c', readImpl c ex fc u a q = Ret (res, c') /\ client_inv c' /\
                 read_meaning c ex fc u q res c'.
Proof.
  intros Hc Hex Hu Ha Hq. unfold readImpl.
  destruct ((q =? 0) || (kMaxRegistersPerRead <? q)) eqn:Eq.
  { do 2 eexists. split; [reflexivity|]. split; [exact Hc|]. cbn.
    apply orb_true_iff in Eq as [E|E]; [apply Z.eqb_eq in E|apply Z.ltb_lt in E]; auto. }
  apply orb_false_iff in Eq as [E1 E2]. apply Z.eqb_neq in E1. apply Z.ltb_ge in E2.
  assert (Hq' : 1 <= q <= 125) by (unfold is_u16, kMaxRegistersPerRead in *; lia).
  pose proof (ensureConnected_spec c ex Hc) as Hcon.
  destruct (ensureConnected c ex) as [[[]|e] c1]; destruct Hcon as (Hok1 & Et & Hr).
  2: { do 2 eexists. split; [reflexivity|]. destruct Hr as [Hcf [-> | ->]];
       (split; [split; [exact Hok1|intros; congruence]|exact Hcf]). }
  destruct Hr as [Hcon Hop]. rewrite Et. set (c2 := mkClient _ _ _ _).
  assert (Hok2 : client_ok c2) by (unfold client_ok, c2; cbn; auto with hmi).
  assert (Hdis : forall e res', res' = Err (T := list Z) e ->
            e = Timeout \/ e = WriteFailed \/ e = ReadFailed \/ e = Disconnected \/ e = DecodeFailed ->
            exists res c', Ret (res', disconnect c2) = Ret (res, c') /\ client_inv c' /\
                           read_meaning c ex fc u q res c').
  { intros e res' -> He. do 2 eexists. split; [reflexivity|].
    split; [split; [exact Hok2|discriminate]|]. destruct He as [->|[->|[->|[->| ->]]]]; cbn; auto. }
  destruct (encode_returns (nextTid_ c) u fc a q) as (req & -> & Hlen). cbn [mbind outcome_bind].
  destruct (ex_write ex) as [| | |n]; [eapply Hdis; eauto..|].
  destruct (negb _); [eapply Hdis; eauto|].
  destruct (read_adu_spec ex Hex) as ([adu|e] & -> & Hadu); cbn [mbind outcome_bind].
  2: { eapply Hdis; [reflexivity|]. destruct Hadu as (? & ? & ?). destruct e; tauto. }
  destruct Hadu as [Hbytes Hdel].
  set (cx := mkContext (nextTid_ c) u fc q).
  destruct (decode_returns adu cx Hbytes Hq ltac:(cbn; lia)) as ([r|e] & Edec);
    rewrite Edec; cbn [mbind outcome_bind].
  2: { do 2 eexists. split; [reflexivity|]. split; [split; [exact Hok2|auto]|exact Hq']. }
  assert (Hctx : ctx_ok cx) by (split; [exact (proj1 Hc)|split; assumption]).
  destruct (decode_sound adu cx r Hbytes Hctx ltac:(cbn; lia) Edec)
    as [(regs & Hl & Hregs & -> & ->)|(code & extra & -> & ->)]; cbn [registers exceptionCode].
  - rewrite bool_decide_eq_false_2 by (intros ->; cbn in Hl; lia).
    do 2 eexists. split; [reflexivity|]. split; [split; [exact Hok2|auto]|].
    cbn in Hl. split_and!; auto; lia.
  - rewrite bool_decide_eq_true_2 by reflexivity.
    do 2 eexists. split; [reflexivity|]. split; [split; [exact Hok2|auto]|].
    exists code, extra. split_and!; auto.
Qed.

(** The header and the body a conforming stream transport cuts an ADU into. *)
Definition serves (ex : Exchange) (adu : list Z) : Prop :=
  ex_header ex = Completed (take kMbapHeaderSize adu) /\
  ex_body ex (length adu - kMbapHeaderSize) = Completed (drop kMbapHeaderSize adu).

(** The client and the future of its network, one exchange per read; when
    the list is exhausted nothing completes any more. *)
Definition dead_network : Exchange :=
  mkExchange true Pending Pending Pending (fun _ => Pending).

#[export] Program Instance ClientReader : ModbusReader (ModbusClient * list Exchange) := {|
  read_regs r fc u a q :=
    let ex := default dead_network (head (snd r)) in
    '(res, c) ← readImpl (fst r) ex fc u a q;
    Ret (res, (c, tail (snd r)));
  reader_ok r := client_inv (fst r) /\ Forall exchange_ok (snd r);
|}.
Next Obligation.
  intros [c exs] fc u a q [Hc Hexs] Hu Ha Hq. cbn [fst snd] in *.
  assert (Hex : exchange_ok (default dead_network (head exs))).
  { destruct Hexs as [|ex exs Hex _]; [|exact Hex].
    split; [intros h H|intros n b H]; discriminate H. }
  destruct (readImpl_meaning c _ fc u a q Hc Hex Hu Ha Hq) as (res & c' & E & Hc' & Hm).
  exists res, (c', tail exs). rewrite E. split; [reflexivity|].
  split; [split; [exact Hc'|destruct Hexs; [constructor|assumption]]|].
  destruct res; [|exact I]. cbn in Hm. tauto.
Qed.

(* ------------------------------------------------------------------ *)
(** ** Properties *)

(** What a read's result means, whatever the network does: the call always
    returns; registers are handed over only if the slave's answer to this
    very request (transaction, unit, function, quantity) arrived, and are
    exactly its registers; a server exception records the code the slave
    sent; an invalid quantity touches nothing; and after every transport
    failure the client is disconnected, so the next read reconnects. *)
Theorem client_read_meaning c ex fc u a q :
  client_inv c -> exchange_ok ex -> is_u8 u -> is_u16 a -> is_u16 q ->
  exists res c', readImpl c ex fc u a q = Ret (res, c') /\ client_inv c' /\
                 read_meaning c ex fc u q res c'.
Proof. apply readImpl_meaning. Qed.

Lemma read_response_length tid u fc regs :
  length (read_response tid u fc regs) = (9 + 2 * length regs)%nat.
Proof. unfold read_response, read_pdu. rewrite !length_app, flat_map_be16_length. cbn. lia. Qed.

Lemma read_response_ok tid u fc regs :
  is_u16 tid -> is_u8 u -> Forall is_u16 regs -> (length regs <= 125)%nat ->
  bytes_ok (read_response tid u fc regs).
Proof.
  intros Htid Hu Hregs Hlen. apply bytes_ok_app. split; [|unfold read_pdu; apply bytes_ok_app; split].
  - unfold mbap, read_pdu. rewrite length_app, flat_map_be16_length, !bytes_ok_app. split_and!; auto with hmi.
    + apply be16_ok. unfold is_u16. lia.
    + apply be16_ok. unfold is_u16. cbn. lia.
    + repeat constructor; apply Hu.
  - pose proof (fc_byte_range fc). repeat constructor; lia.
  - apply flat_map_be16_ok. exact Hregs.
Qed.

(** Reading an ADU from a transport that serves it. *)
Lemma read_adu_serves ex tid u fc regs :
  (1 <= length regs <= 125)%nat -> serves ex (read_response tid u fc regs) ->
  read_adu ex = Ret (Ok (read_response tid u fc regs)).
Proof.
  intros Hlen [Hh Hb]. pose proof (read_response_length tid u fc regs) as Hadulen.
  set (adu := read_response tid u fc regs) in *. set (v := 1 + Z.of_nat (2 + 2 * length regs)).
  assert (Hv : is_u16 v) by (unfold v, is_u16; lia).
  assert (Hhead : take kMbapHeaderSize adu = be16 tid ++ be16 0 ++ be16 v ++ [u]).
  { unfold adu, read_response, mbap, read_pdu. rewrite length_app, flat_map_be16_length. reflexivity. }
  unfold read_adu. rewrite Hh, Hhead.
  change (vec_get _ 4) with (Ret (v / 256)). change (vec_get _ 5) with (Ret (v mod 256)).
  cbn [mbind outcome_bind]. unfold kBitsPerByte.
  rewrite shift_or_16, of_be16_be16 by auto with hmi.
  change kMaxLengthField with 254.
  replace ((v =? 0) || (254 <? v)) with false
    by (symmetry; apply orb_false_iff; split; [apply Z.eqb_neq|apply Z.ltb_ge]; unfold v; lia).
  replace (Z.to_nat (v - 1)) with (length adu - kMbapHeaderSize)%nat
    by (rewrite Hadulen; unfold v, kMbapHeaderSize; lia).
  rewrite Hb. do 2 f_equal. rewrite <- Hhead. apply take_drop.
Qed.

Lemma ensureConnected_up c ex :
  client_inv c -> (connected_ c = true \/ ex_resolves ex = true /\ ex_connect ex = Completed tt) ->
  exists c1, ensureConnected c ex = (Ok tt, c1) /\ nextTid_ c1 = nextTid_ c /\ connected_ c1 = true.
Proof.
  intros [_ Hopen] Hcon. unfold ensureConnected. destruct (connected_ c) eqn:Ec.
  - rewrite (Hopen eq_refl). cbn. eauto.
  - destruct Hcon as [Hcon|[Hr Hc]]; [discriminate|]. rewrite Hr, Hc. cbn. eauto.
Qed.

(** The good case. When the connection is up or comes up, the request is
    written and the slave's response with the requested number of registers
    arrives, the caller gets exactly those registers. *)
Theorem client_read_roundtrip c ex fc u a regs :
  client_inv c -> is_u8 u -> Forall is_u16 regs -> (1 <= length regs <= 125)%nat ->
  (connected_ c = true \/ ex_resolves ex = true /\ ex_connect ex = Completed tt) ->
  ex_write ex = Completed kReadRequestAduSize ->
  serves ex (read_response (nextTid_ c) u fc regs) ->
  exists c', readImpl c ex fc u a (Z.of_nat (length regs)) = Ret (Ok regs, c') /\
             connected_ c' = true /\ lastExceptionCode_ c' = None.
Proof.
  intros Hc Hu Hregs Hlen Hcon Hw Hs. set (q := Z.of_nat (length regs)).
  unfold readImpl. replace ((q =? 0) || (kMaxRegistersPerRead <? q)) with false
    by (symmetry; apply orb_false_iff; split; [apply Z.eqb_neq|apply Z.ltb_ge; unfold kMaxRegistersPerRead]; lia).
  destruct (ensureConnected_up c ex Hc Hcon) as (c1 & -> & Et & Ecn). rewrite Et.
  destruct (encode_returns (nextTid_ c) u fc a q) as (req & -> & Hreq). cbn [mbind outcome_bind].
  rewrite Hw, Hreq, Nat.eqb_refl. cbn [negb].
  rewrite (read_adu_serves ex _ u fc regs Hlen Hs). cbn [mbind outcome_bind].
  rewrite (decode_complete _ (mkContext (nextTid_ c) u fc q) (mkDecoded regs OtherException)).
  - cbn. destruct regs; [cbn in Hlen; lia|]. eexists. split; [reflexivity|]. split; [exact Ecn|reflexivity].
  - apply read_response_ok; [exact (proj1 Hc)|assumption|assumption|lia].
  - split; [exact (proj1 Hc)|split; [exact Hu|cbn; unfold is_u16; lia]].
  - cbn. lia.
  - left. exists regs. split_and!; auto.
Qed.

(* ------------------------------------------------------------------ *)
(** ** Witnesses *)

Definition demo_regs : list Z := [850; 3].

(** A network that connects, takes the request and delivers the answer. *)
Definition demo_exchange : Exchange :=
  let adu := read_response 1 17 ReadInputRegisters demo_regs in
  mkExchange true (Completed tt) (Completed kReadRequestAduSize)
    (Completed (take kMbapHeaderSize adu))
    (fun n => if decide (n = length adu - kMbapHeaderSize)%nat
              then Completed (drop kMbapHeaderSize adu) else Eof).

Lemma client_init_inv : client_inv client_init.
Proof. split; [unfold client_ok, is_u16; cbn; lia|discriminate]. Qed.

Lemma demo_exchange_ok : exchange_ok demo_exchange.
Proof.
  split; cbn.
  - intros h [= <-]. split; [reflexivity|]. change (bytes_ok [0; 1; 0; 0; 0; 7; 17]). bytes_lit.
  - intros n b. case_decide as Hn; [|discriminate]. intros [= <-]. rewrite Hn.
    split; [reflexivity|]. change (bytes_ok [4; 4; 3; 82; 0; 3]). bytes_lit.
Qed.

Lemma client_read_meaning_witness :
  exists res c', readImpl client_init demo_exchange ReadInputRegisters 17 4096 2 = Ret (res, c') /\
    client_inv c' /\ read_meaning client_init demo_exchange ReadInputRegisters 17 2 res c'.
Proof.
  apply (client_read_meaning client_init demo_exchange ReadInputRegisters 17 4096 2
           client_init_inv demo_exchange_ok); [unfold is_u8|unfold is_u16|unfold is_u16]; lia.
Defined.

Lemma client_read_roundtrip_witness :
  exists c', readImpl client_init demo_exchange ReadInputRegisters 17 4096 2 = Ret (Ok demo_regs, c') /\
    connected_ c' = true /\ lastExceptionCode_ c' = None.
Proof.
  refine (client_read_roundtrip client_init demo_exchange ReadInputRegisters 17 4096 demo_regs
            client_init_inv _ _ _ _ _ _).
  - unfold is_u8. lia.
  - repeat constructor; unfold is_u16; lia.
  - cbn. lia.
  - right. split; reflexivity.
  - reflexivity.
  - split; reflexivity.
Defined.
