(* ===== verification/ModbusPollLoop.v ===== *)
(** * Modbus poll loop and backend
    (src/integration/modbus/ModbusPollLoop.{h,cpp}, ModbusBackend.cpp)

    The poll thread reads the mapped registers and queues the samples, the
    drain thread hands them to the ingest bridge. The queue's operations are
    atomic here: SpscQueue.v proves that. An execution is an interleaving of
    single reads and single deliveries. Properties: no sample is lost
    unaccounted or reordered, and stopping delivers the rest. *)
From stdpp Require Import pretty.
From S2P Require Import Prelude Float32 Result SpscQueue ModbusPdu ModbusClient ModbusIngest.

Definition kQueueCapacity : Z := 256.

Record RegisterSample := mkSample {
  mapping : RegisterMapping;
  value : Z;
}.

(** [RegisterMapping{}]. *)
Definition mapping_default : RegisterMapping :=
  mkMapping 1 HoldingRegister 0 EquipmentEnabled 0 (f32_of_Z 1).

Definition sample_default : RegisterSample := mkSample mapping_default 0.

Lemma length_omap_le' {A} (l : list (option A)) : (length (omap id l) <= length l)%nat.
Proof. induction l as [|[x|] l IH]; cbn; lia. Qed.

Section Loop.
Context {R : Type} `{RD : ModbusReader R} {M : Type} `{PM : ProductionModel M}.

Record PollLoop := mkLoop {
  queue_ : spsc RegisterSample;
  reader_ : R;
  bridge_ : ModbusIngestBridge;
  model_ : M;
  successfulReads_ : Z;
  failedReads_ : Z;
  droppedSamples_ : Z;
  running_ : bool;   (* thread_.joinable() *)
}.

Definition loop_init (r : R) (m : M) : PollLoop :=
  mkLoop (spsc_init kQueueCapacity sample_default) r bridge_init m 0 0 0 false.

Definition poll_start (s : PollLoop) : PollLoop :=
  mkLoop (queue_ s) (reader_ s) (bridge_ s) (model_ s)
         (successfulReads_ s) (failedReads_ s) (droppedSamples_ s) true.

(** One iteration of [pollOnce]'s loop. *)
Definition poll_entry (entry : RegisterMapping) (s : PollLoop) : outcome PollLoop :=
  let fc := if bool_decide (type entry = HoldingRegister) then ReadHoldingRegisters else ReadInputRegisters in
  '(result, r) ← read_regs (reader_ s) fc (slaveId entry) (address entry) 1;
  match result with
  | Ok (v :: _) =>
      '(pushed, q) ← push kQueueCapacity (queue_ s) (mkSample entry v);
      let ok := u64 (successfulReads_ s + 1) in
      let dropped := if (pushed : bool) then droppedSamples_ s else u64 (droppedSamples_ s + 1) in
      Ret (mkLoop q r (bridge_ s) (model_ s) ok (failedReads_ s) dropped (running_ s))
  | Ok [] | Err _ =>
      Ret (mkLoop (queue_ s) r (bridge_ s) (model_ s)
             (successfulReads_ s) (u64 (failedReads_ s + 1)) (droppedSamples_ s) (running_ s))
  end.

Fixpoint pollOnce (entries : ModbusRegisterMap) (s : PollLoop) : outcome PollLoop :=
  match entries with
  | [] => Ret s
  | entry :: entries => s ← poll_entry entry s; pollOnce entries s
  end.

(** One iteration of [drainOnce]'s loop; [false] is the failed [pop]. *)
Definition drain_step (s : PollLoop) : outcome (bool * PollLoop) :=
  '(out, q) ← pop kQueueCapacity (queue_ s);
  match out with
  | None => Ret (false, s)
  | Some sample =>
      bm ← onRegisterChanged (bridge_ s) (model_ s) (mapping sample) (value sample);
      Ret (true, mkLoop q (reader_ s) (fst bm) (snd bm)
                   (successfulReads_ s) (failedReads_ s) (droppedSamples_ s) (running_ s))
  end.

(** [drainOnce]; [fuel] bounds the loop, [None] when it runs out. *)
Fixpoint drain_loop (fuel : nat) (s : PollLoop) : outcome (option PollLoop) :=
  match fuel with
  | O => Ret None
  | S fuel =>
      '(more, s) ← drain_step s;
      if (more : bool) then drain_loop fuel s else Ret (Some s)
  end.

Definition drainOnce (s : PollLoop) : outcome (option PollLoop) :=
  drain_loop (Z.to_nat kQueueCapacity) s.

(** [stop()], once both workers have been joined. *)
Definition poll_stop (s : PollLoop) : outcome (option PollLoop) :=
  if running_ s then
    drainOnce (mkLoop (queue_ s) (reader_ s) (bridge_ s) (model_ s)
                 (successfulReads_ s) (failedReads_ s) (droppedSamples_ s) false)
  else Ret (Some s).

(** What the two workers do while they run. *)
Inductive loop_act :=
| PollEntry (entry : RegisterMapping)
| DrainSample.

Definition act_step (a : loop_act) (s : PollLoop) : outcome PollLoop :=
  match a with
  | PollEntry entry => poll_entry entry s
  | DrainSample => p ← drain_step s; Ret (snd p)
  end.

Fixpoint loop_run (l : list loop_act) (s : PollLoop) : outcome PollLoop :=
  match l with
  | [] => Ret s
  | a :: l => s ← act_step a s; loop_run l s
  end.

(* ------------------------------------------------------------------ *)
(** ** The backend's view (ModbusBackend.cpp) *)

Inductive BackendState := Disconnected | Connecting | Connected | Degraded.

Definition backend_start (s : PollLoop) : PollLoop := if running_ s then s else poll_start s.

Definition backend_stop (s : PollLoop) : outcome (option PollLoop) :=
  if running_ s then poll_stop s else Ret (Some s).

Definition metricsSummary (map : ModbusRegisterMap) (s : PollLoop) : string :=
  if running_ s then
    let summary := (pretty (map_size map) ++ " regs | " ++ pretty (successfulReads_ s)
                    ++ " ok / " ++ pretty (failedReads_ s) ++ " fail")%string in
    if 0 <? droppedSamples_ s
    then (summary ++ " / " ++ pretty (droppedSamples_ s) ++ " dropped")%string
    else summary
  else ""%string.

Definition connectionState (client_connected : bool) (map : ModbusRegisterMap) (s : PollLoop) : BackendState :=
  if negb (running_ s) then Disconnected
  else if map_empty map then Connecting
  else if successfulReads_ s =? 0 then Connecting
  else if client_connected then Connected else Degraded.

(* ------------------------------------------------------------------ *)
(** ** Specification: two lists and a reader *)

(** The outcome of one read of an entry: the sample, if there is one. *)
Definition sample_of (entry : RegisterMapping) (res : Result (list Z) IoError) : option RegisterSample :=
  match res with Ok (v :: _) => Some (mkSample entry v) | _ => None end.

(** The polled entries of an interleaving. *)
Definition polled (l : list loop_act) : list RegisterMapping :=
  omap (fun a => match a with PollEntry e => Some e | DrainSample => None end) l.

(** The results of reading entries one after another, whatever the drain
    thread does. *)
Fixpoint reads (r : R) (entries : list RegisterMapping) : list (option RegisterSample) :=
  match entries with
  | [] => []
  | e :: entries =>
      let fc := if bool_decide (type e = HoldingRegister) then ReadHoldingRegisters else ReadInputRegisters in
      match read_regs r fc (slaveId e) (address e) 1 with
      | Ret (res, r) => sample_of e res :: reads r entries
      | _ => []
      end
  end.

(** A mapping every register value of which can be scaled. *)
Definition mapping_total (e : RegisterMapping) : Prop :=
  mapping_ok e /\ forall raw, is_u16 raw -> defined (semantic (e, raw)).

Definition as_reading (s : RegisterSample) : RegisterMapping * Z := (mapping s, value s).

(** The loop after reading [got] (the results so far), with [dispatched]
    samples delivered and [queued] waiting, from a start with model [m]. *)
Record loop_inv (m : M) (got : list (option RegisterSample)) (dispatched queued : list RegisterSample)
    (s : PollLoop) : Prop := {
  li_queue : repr kQueueCapacity (queue_ s) queued;
  li_reader : reader_ok (reader_ s);
  li_bridge : ingest bridge_init m (as_reading <$> dispatched) = Ret (bridge_ s, model_ s);
  li_bridge_ok : bridge_ok (bridge_ s);
  li_total : Forall (fun x => mapping_total (mapping x) /\ is_u16 (value x)) queued;
  li_order : sublist (dispatched ++ queued) (omap id got);
  li_count : exists dropped,
    length (omap id got) = (length (dispatched ++ queued) + dropped)%nat /\
    successfulReads_ s = u64 (Z.of_nat (length (omap id got))) /\
    failedReads_ s = u64 (Z.of_nat (length got - length (omap id got))) /\
    droppedSamples_ s = u64 (Z.of_nat dropped) /\
    (Z.of_nat (length got) < kQueueCapacity -> dropped = 0%nat);
}.

(* ------------------------------------------------------------------ *)
(** ** Lemmas *)

Lemma kQueueCapacity_ok : capacity_ok kQueueCapacity = true.
Proof. reflexivity. Qed.

Lemma u64_succ n : u64 (u64 (Z.of_nat n) + 1) = u64 (Z.of_nat (S n)).
Proof. unfold u64. rewrite Zplus_mod_idemp_l. f_equal. lia. Qed.

Lemma loop_inv_init (r : R) (m : M) : reader_ok r -> loop_inv m [] [] [] (poll_start (loop_init r m)).
Proof.
  intros Hr. split; cbn; auto using bridge_init_ok, Forall_nil_2.
  - apply repr_init, kQueueCapacity_ok.
  - exists 0%nat. auto.
Qed.

Lemma poll_entry_inv m got dispatched queued s e :
  loop_inv m got dispatched queued s -> mapping_total e ->
  let fc := if bool_decide (type e = HoldingRegister) then ReadHoldingRegisters else ReadInputRegisters in
  exists s' res queued', poll_entry e s = Ret s' /\
    read_regs (reader_ s) fc (slaveId e) (address e) 1 = Ret (res, reader_ s') /\
    running_ s' = running_ s /\
    loop_inv m (got ++ [sample_of e res]) dispatched queued' s'.
Proof.
  intros [Hq Hr Hb Hbok Ht Hord (d & Hlen & Hok & Hfail & Hdrop & Hno)] [Hmp Htot] fc.
  pose proof Hmp as (Hu & Ha & _).
  unfold poll_entry. fold fc.
  destruct (read_regs_total (reader_ s) fc (slaveId e) (address e) 1 Hr Hu Ha) as (res & r' & E & Hr' & Hres).
  { unfold is_u16. lia. }
  rewrite E. cbn [mbind outcome_bind].
  destruct res as [regs|err].
  2:{ exists (mkLoop (queue_ s) r' (bridge_ s) (model_ s) (successfulReads_ s) (u64 (failedReads_ s + 1)) (droppedSamples_ s) (running_ s)), (Err err), queued.
    split; [reflexivity|]. split; [reflexivity|]. split; [reflexivity|]. cbn [sample_of].
    split; cbn; auto; rewrite omap_app; cbn; rewrite ?app_nil_r; auto.
    exists d. rewrite Hfail, u64_succ. rewrite !length_app in *. cbn. pose proof (length_omap_le' got).
    split_and!; auto; [do 2 f_equal; lia|intros; apply Hno; lia]. }
  destruct Hres as [Hregs Hone]. destruct regs as [|v [|? ?]]; cbn in Hone; try lia.
  apply Forall_cons in Hregs as [Hv _].
  pose proof (push_repr kQueueCapacity kQueueCapacity_ok (queue_ s) queued (mkSample e v) Hq) as Hpush.
  destruct (decide (Z.of_nat (length queued) < kQueueCapacity - 1)) as [Hroom|Hfull].
  - destruct Hpush as (q' & Hpush & Hq'). rewrite Hpush. cbn [mbind outcome_bind].
    do 2 eexists. exists (queued ++ [mkSample e v]).
    split; [reflexivity|]. split; [reflexivity|]. split; [reflexivity|]. cbn [sample_of].
    split; cbn; auto; rewrite ?omap_app; cbn.
    + apply Forall_app. split; [exact Ht|]. apply Forall_singleton. cbn. split; [split; auto|exact Hv].
    + rewrite app_assoc. apply sublist_app; [exact Hord|reflexivity].
    + exists d. rewrite !length_app in *. cbn. rewrite Hok, u64_succ.
      split_and!; auto; [lia|do 2 f_equal; lia|rewrite Hfail; do 2 f_equal; lia|intros; apply Hno; lia].
  - rewrite Hpush. cbn [mbind outcome_bind]. do 2 eexists. exists queued.
    split; [reflexivity|]. split; [reflexivity|]. split; [reflexivity|]. cbn [sample_of].
    split; cbn; auto; rewrite ?omap_app; cbn.
    + apply sublist_inserts_r. exact Hord.
    + exists (S d). rewrite !length_app in *. cbn. rewrite Hok, Hdrop, !u64_succ.
      split_and!; auto; [lia|do 2 f_equal; lia|rewrite Hfail; do 2 f_equal; lia|].
      intros Hfew. exfalso. pose proof (length_omap_le' got). lia.
Qed.

Lemma drain_step_inv m got dispatched queued s :
  loop_inv m got dispatched queued s ->
  match queued with
  | [] => drain_step s = Ret (false, s)
  | x :: rest => exists s', drain_step s = Ret (true, s') /\
      reader_ s' = reader_ s /\ running_ s' = running_ s /\ loop_inv m got (dispatched ++ [x]) rest s'
  end.
Proof.
  intros [Hq Hr Hb Hbok Ht Hord Hcount]. unfold drain_step.
  pose proof (pop_repr kQueueCapacity kQueueCapacity_ok _ _ Hq) as Hpop.
  destruct queued as [|x rest]; [rewrite Hpop; reflexivity|].
  destruct Hpop as (q' & -> & Hq'). cbn [mbind outcome_bind].
  apply Forall_cons in Ht as [[[Hmp Htot] Hv] Ht].
  destruct (semantic_returns _ (Htot _ Hv)) as [v Hsem].
  assert (He : 0 <= entityId (mapping x)) by (destruct Hmp as (_ & _ & Hid); unfold is_u32 in Hid; lia).
  rewrite (register_changed_decision (bridge_ s) (model_ s) (mapping x) (value x) v Hbok He Hsem).
  pose proof (decision_ok (bridge_ s) (entityId (mapping x)) v Hbok) as Hbok'.
  destruct (decision_of (bridge_ s) (entityId (mapping x)) v) as [b' o] eqn:Hdec. cbn [mbind outcome_bind fst snd].
  eexists. split; [reflexivity|]. split; [reflexivity|]. split; [reflexivity|].
  split; cbn; auto; try (rewrite <- app_assoc; assumption).
  rewrite fmap_app. cbn. rewrite ingest_snoc, Hb. cbn.
  rewrite (register_changed_decision (bridge_ s) (model_ s) (mapping x) (value x) v Hbok He Hsem), Hdec. reflexivity.
Qed.

Lemma loop_run_inv m l got dispatched queued s :
  loop_inv m got dispatched queued s -> Forall mapping_total (polled l) ->
  exists s' dispatched' queued', loop_run l s = Ret s' /\ running_ s' = running_ s /\
    length (reads (reader_ s) (polled l)) = length (polled l) /\
    loop_inv m (got ++ reads (reader_ s) (polled l)) dispatched' queued' s'.
Proof.
  revert got dispatched queued s. induction l as [|[e|] l IH]; intros got dispatched queued s Hinv Hl.
  - exists s, dispatched, queued. cbn. rewrite app_nil_r. auto.
  - apply Forall_cons in Hl as [He Hl].
    destruct (poll_entry_inv _ _ _ _ _ e Hinv He) as (s1 & res & q1 & E & Er & Erun & Hinv1).
    destruct (IH _ _ _ _ Hinv1 Hl) as (s' & d' & q' & E' & Erun' & Elen & Hinv').
    exists s', d', q'. cbn [loop_run act_step]. rewrite E. cbn [mbind outcome_bind].
    split; [exact E'|]. split; [congruence|]. cbn [polled omap list_omap reads length].
    rewrite Er. cbn [length]. split; [f_equal; exact Elen|]. rewrite <- app_assoc in Hinv'. exact Hinv'.
  - pose proof (drain_step_inv _ _ _ _ _ Hinv) as Hd. cbn [loop_run act_step].
    destruct queued as [|x rest].
    + rewrite Hd. cbn [mbind outcome_bind snd]. apply (IH _ _ _ _ Hinv Hl).
    + destruct Hd as (s1 & -> & Er & Erun & Hinv1). cbn [mbind outcome_bind snd].
      destruct (IH _ _ _ _ Hinv1 Hl) as (s' & d' & q' & E' & Erun' & Hrest). rewrite Er in Hrest.
      exists s', d', q'. split; [exact E'|]. split; [congruence|exact Hrest].
Qed.

Lemma drain_loop_inv m got queued : forall fuel dispatched s,
  loop_inv m got dispatched queued s -> (length queued < fuel)%nat ->
  exists s', drain_loop fuel s = Ret (Some s') /\ running_ s' = running_ s /\
    loop_inv m got (dispatched ++ queued) [] s'.
Proof.
  induction queued as [|x rest IH]; intros [|fuel] dispatched s Hinv Hf; try (cbn in Hf; lia);
    pose proof (drain_step_inv _ _ _ _ _ Hinv) as Hd; cbn [drain_loop].
  - rewrite Hd. cbn. exists s. rewrite app_nil_r. auto.
  - destruct Hd as (s1 & -> & _ & Erun & Hinv1). cbn [mbind outcome_bind].
    destruct (IH fuel (dispatched ++ [x]) s1 Hinv1 ltac:(cbn in Hf; lia)) as (s' & E & Erun' & Hinv').
    exists s'. split; [exact E|]. split; [congruence|]. rewrite <- app_assoc in Hinv'. exact Hinv'.
Qed.

(** [stop()] on a running loop. *)
Lemma poll_stop_inv m got dispatched queued s :
  loop_inv m got dispatched queued s -> running_ s = true ->
  exists s', poll_stop s = Ret (Some s') /\ running_ s' = false /\ loop_inv m got (dispatched ++ queued) [] s'.
Proof.
  intros [Hq Hr Hb Hbok Ht Hord Hcount] Hrun. unfold poll_stop, drainOnce. rewrite Hrun.
  apply (drain_loop_inv m got queued); [split; assumption|].
  destruct Hq as (_ & _ & _ & Hlen & _). lia.
Qed.

Lemma loop_empty m got dispatched s : loop_inv m got dispatched [] s -> empty (queue_ s) = true.
Proof. intros H. rewrite (empty_spec kQueueCapacity kQueueCapacity_ok _ _ (li_queue _ _ _ _ _ H)). reflexivity. Qed.
End Loop.
Arguments PollLoop R M : clear implicits.

Lemma pollOnce_run {R} `{ModbusReader R} {M} `{ProductionModel M} entries (s : PollLoop R M) :
  pollOnce entries s = loop_run (PollEntry <$> entries) s.
Proof.
  revert s. induction entries as [|e l IH]; intros s; [reflexivity|].
  cbn. destruct (poll_entry e s); cbn; auto.
Qed.

(* ------------------------------------------------------------------ *)
(** ** Properties *)

(** C23: The poll loop, for every interleaving of reads and deliveries and
    whatever the devices answer. It runs without error; each polled entry is
    read once, in order; the model has received exactly the samples
    delivered so far, in the order read; stopping delivers every sample
    still queued and leaves the queue empty; every successful read is
    delivered or counted as dropped; and nothing is dropped while fewer than
    256 entries were polled. *)
Theorem poll_loop_accounts {R} `{ModbusReader R} {M} `{ProductionModel M} (r : R) (m : M) l :
  reader_ok r -> Forall mapping_total (polled l) ->
  exists s s' dispatched queued dropped,
    let got := reads r (polled l) in
    let samples := omap id got in
    loop_run l (poll_start (loop_init r m)) = Ret s /\
    length got = length (polled l) /\
    ingest bridge_init m (as_reading <$> dispatched) = Ret (bridge_ s, model_ s) /\
    poll_stop s = Ret (Some s') /\ running_ s' = false /\ empty (queue_ s') = true /\
    ingest bridge_init m (as_reading <$> (dispatched ++ queued)) = Ret (bridge_ s', model_ s') /\
    sublist (dispatched ++ queued) samples /\
    length samples = (length (dispatched ++ queued) + dropped)%nat /\
    successfulReads_ s' = u64 (Z.of_nat (length samples)) /\
    failedReads_ s' = u64 (Z.of_nat (length got - length samples)) /\
    droppedSamples_ s' = u64 (Z.of_nat dropped) /\
    (Z.of_nat (length (polled l)) < 256 -> dropped = 0%nat).
Proof.
  intros Hr Hl.
  destruct (loop_run_inv m l _ _ _ _ (loop_inv_init r m Hr) Hl) as (s & d & q & E & Erun & Elen & Hinv).
  destruct (poll_stop_inv _ _ _ _ _ Hinv Erun) as (s' & E' & Erun' & Hinv').
  pose proof (loop_empty _ _ _ _ Hinv') as Hempty.
  destruct Hinv' as [_ _ Hb' _ _ Hord (n & Hlen & Hok & Hfail & Hdrop & Hno)].
  rewrite app_nil_r in Hord, Hlen. exists s, s', d, q, n. cbv zeta. cbn [app] in *.
  split_and!; auto; [exact (li_bridge _ _ _ _ _ Hinv)|].
  rewrite Elen in Hno. exact Hno.
Qed.

(** Two registers of a device that answers the first read and then is
    silent. *)
Definition demo_reader : ModbusClient * list Exchange :=
  (client_init,
   [let adu := read_response 1 1 ReadHoldingRegisters [850] in
    mkExchange true (Completed tt) (Completed kReadRequestAduSize)
      (Completed (take kMbapHeaderSize adu))
      (fun n => if decide (n = length adu - kMbapHeaderSize)%nat
                then Completed (drop kMbapHeaderSize adu) else Eof)]).

Definition demo_acts : list loop_act := [DrainSample; PollEntry demo_enable; PollEntry demo_enable; DrainSample].

Lemma demo_reader_ok : reader_ok demo_reader.
Proof.
  split; [apply client_init_inv|]. apply Forall_singleton. split; cbn.
  - intros h [= <-]. split; [reflexivity|]. change (bytes_ok [0; 1; 0; 0; 0; 5; 1]). bytes_lit.
  - intros n b. case_decide as Hn; [|discriminate]. intros [= <-]. rewrite Hn.
    split; [reflexivity|]. change (bytes_ok [3; 2; 3; 82]). bytes_lit.
Qed.

Lemma demo_enable_total : mapping_total demo_enable.
Proof.
  split; [|intros raw _; exact I]. unfold mapping_ok, is_u8, is_u16, is_u32. cbn. lia.
Qed.

Example demo_loop :
  match loop_run demo_acts (poll_start (loop_init demo_reader ([] : call_log))) with
  | Ret s => (model_ s, successfulReads_ s, failedReads_ s, droppedSamples_ s)
  | _ => ([], 0, 0, 0)
  end = ([(2, VEnabled true)], 1, 1, 0).
Proof. vm_compute. reflexivity. Qed.

Lemma poll_loop_accounts_witness :
  exists s, loop_run demo_acts (poll_start (loop_init demo_reader ([] : call_log))) = Ret s.
Proof.
  destruct (poll_loop_accounts demo_reader ([] : call_log) demo_acts demo_reader_ok) as (s & _ & _ & _ & _ & Hrun & _).
  - repeat constructor; apply demo_enable_total.
  - exists s. exact Hrun.
Defined.
