(* ===== verification/MqttClient.v ===== *)
(** * The MQTT client (src/integration/MqttClient.{h,cpp})

    The publisher and subscriber over one broker connection: connecting, the
    subscription table, the jobs posted to the worker, the heartbeat, and the
    read loop that cuts the inbound bytes into packets and dispatches them.
    The Asio context is a queue of posted jobs run by one worker; the socket
    is what it delivers and whether a write succeeds. *)
From stdpp Require Import pretty gmap.
From S2P Require Import Prelude Wire Format MqttPacket ModbusPollLoop.

Definition kRemainingLengthContinuationBit : Z := 128.

(** Where the read loop is: waiting for a fixed header, for a byte of the
    remaining length, for a body of [n] bytes, or ended. *)
Inductive read_state :=
| RFixed
| RLength (header : Z) (remaining : list Z)
| RBody (header : Z) (remaining : list Z) (n : nat) (body : list Z)
| RStopped.

Inductive mqtt_job :=
| JPublish (topic payload : list Z)
| JSubscribe (topicFilter : list Z).

(** A callback is a number; [mc_worker] says that the worker thread is in
    [io_->run()]. *)
Record MqttClient := mkMqtt {
  mc_running : bool;
  mc_session : bool;
  mc_read : read_state;
  mc_subscriptions : gmap (list Z) nat;
  mc_posted : list mqtt_job;
  mc_heartbeat : bool;
  mc_nextPacketId : Z;
  mc_published : Z;
  mc_received : Z;
  mc_worker : bool;
}.

Definition mqtt_init : MqttClient := mkMqtt false false RFixed ∅ [] false 1 0 0 false.

Definition mc_set_running b (s : MqttClient) := mkMqtt b (mc_session s) (mc_read s) (mc_subscriptions s) (mc_posted s)
  (mc_heartbeat s) (mc_nextPacketId s) (mc_published s) (mc_received s) (mc_worker s).
Definition mc_set_read r (s : MqttClient) := mkMqtt (mc_running s) (mc_session s) r (mc_subscriptions s) (mc_posted s)
  (mc_heartbeat s) (mc_nextPacketId s) (mc_published s) (mc_received s) (mc_worker s).
Definition mc_set_posted p (s : MqttClient) := mkMqtt (mc_running s) (mc_session s) (mc_read s) (mc_subscriptions s) p
  (mc_heartbeat s) (mc_nextPacketId s) (mc_published s) (mc_received s) (mc_worker s).
Definition mc_set_subscriptions m (s : MqttClient) := mkMqtt (mc_running s) (mc_session s) (mc_read s) m (mc_posted s)
  (mc_heartbeat s) (mc_nextPacketId s) (mc_published s) (mc_received s) (mc_worker s).
Definition mc_set_heartbeat b (s : MqttClient) := mkMqtt (mc_running s) (mc_session s) (mc_read s) (mc_subscriptions s) (mc_posted s)
  b (mc_nextPacketId s) (mc_published s) (mc_received s) (mc_worker s).
Definition mc_set_packetId i (s : MqttClient) := mkMqtt (mc_running s) (mc_session s) (mc_read s) (mc_subscriptions s) (mc_posted s)
  (mc_heartbeat s) i (mc_published s) (mc_received s) (mc_worker s).
Definition mc_count_published (s : MqttClient) := mkMqtt (mc_running s) (mc_session s) (mc_read s) (mc_subscriptions s) (mc_posted s)
  (mc_heartbeat s) (mc_nextPacketId s) (u64 (mc_published s + 1)) (mc_received s) (mc_worker s).
Definition mc_count_received (s : MqttClient) := mkMqtt (mc_running s) (mc_session s) (mc_read s) (mc_subscriptions s) (mc_posted s)
  (mc_heartbeat s) (mc_nextPacketId s) (mc_published s) (u64 (mc_received s + 1)) (mc_worker s).
Definition mc_set_worker b (s : MqttClient) := mkMqtt (mc_running s) (mc_session s) (mc_read s) (mc_subscriptions s) (mc_posted s)
  (mc_heartbeat s) (mc_nextPacketId s) (mc_published s) (mc_received s) b.
Definition mc_set_session b (s : MqttClient) := mkMqtt (mc_running s) b (mc_read s) (mc_subscriptions s) (mc_posted s)
  (mc_heartbeat s) (mc_nextPacketId s) (mc_published s) (mc_received s) (mc_worker s).

(* ------------------------------------------------------------------ *)
(** ** Reading *)

(** A callback that is called: its number, topic and payload. *)
Definition mqtt_delivery : Type := nat * list Z * list Z.

Definition deliverInboundPublish (t pl : list Z) (s : MqttClient) : list mqtt_delivery :=
  match mc_subscriptions s !! t with Some cb => [(cb, t, pl)] | None => [] end.

Definition dispatchFrame (fixedHeader : Z) (remainingLength body : list Z) (s : MqttClient) :
    outcome (MqttClient * list mqtt_delivery) :=
  if Z.land fixedHeader kFixedHeaderTypeMask =? packet_byte Publish then
    let packet := [fixedHeader] ++ remainingLength ++ body in
    match parsePublish packet with
    | Ret parsed => Ret (mc_count_received s, deliverInboundPublish (topic parsed) (publish_payload parsed) s)
    | Throw _ => Ret (s, [])
    | Undef => Undef
    end
  else Ret (s, []).

(** A protocol error ends the read loop. *)
Definition read_fails (s : MqttClient) : MqttClient := mc_set_running false (mc_set_read RStopped s).

(** [readFrameBody]: a read of no bytes completes at once. *)
Definition readFrameBody (h : Z) (rl : list Z) (bodyLen : Z) (s : MqttClient) : outcome (MqttClient * list mqtt_delivery) :=
  if bodyLen =? 0 then
    '(s, out) ← dispatchFrame h rl [] s; Ret (mc_set_read RFixed s, out)
  else Ret (mc_set_read (RBody h rl (Z.to_nat bodyLen) []) s, []).

(** The completion handler of [readRemainingLengthByte]. *)
Definition on_length_byte (h : Z) (rl : list Z) (b : Z) (s : MqttClient) : outcome (MqttClient * list mqtt_delivery) :=
  let rl := rl ++ [b] in
  if negb (Z.land b kRemainingLengthContinuationBit =? 0) then
    if (kMaxRemainingLengthBytes <=? length rl)%nat then Ret (read_fails s, [])
    else Ret (mc_set_read (RLength h rl) s, [])
  else
    match decodeRemainingLength rl 0 with
    | Ret (bodyLen, _) => readFrameBody h rl bodyLen s
    | Throw _ => Ret (read_fails s, [])
    | Undef => Undef
    end.

(** One byte from the socket. *)
Definition mqtt_byte (b : Z) (s : MqttClient) : outcome (MqttClient * list mqtt_delivery) :=
  match mc_read s with
  | RStopped => Ret (s, [])
  | RFixed => Ret (mc_set_read (RLength b []) s, [])
  | RLength h rl => on_length_byte h rl b s
  | RBody h rl n body =>
      let body := body ++ [b] in
      if (length body <? n)%nat then Ret (mc_set_read (RBody h rl n body) s, [])
      else '(s, out) ← dispatchFrame h rl body s; Ret (mc_set_read RFixed s, out)
  end.

Fixpoint mqtt_receive (bytes : list Z) (s : MqttClient) : outcome (MqttClient * list mqtt_delivery) :=
  match bytes with
  | [] => Ret (s, [])
  | b :: bytes =>
      '(s, out1) ← mqtt_byte b s;
      '(s, out2) ← mqtt_receive bytes s;
      Ret (s, out1 ++ out2)
  end.

(** A read that fails; [aborted] when [stop] cancelled it. *)
Definition read_error (aborted : bool) (s : MqttClient) : MqttClient :=
  let s := mc_set_read RStopped s in if aborted then s else mc_set_running false s.

(* ------------------------------------------------------------------ *)
(** ** Writing *)

(** [sendSubscribeFrame]: the packet when the write succeeds. *)
Definition sendSubscribeFrame (topicFilter : list Z) (ok : bool) (s : MqttClient) : outcome (MqttClient * list (list Z)) :=
  if negb (mc_session s) || negb (mc_running s) then Ret (s, [])
  else
    let packetId := mc_nextPacketId s in
    let s := mc_set_packetId (u16 (packetId + 1)) s in
    bytes ← buildSubscribe packetId topicFilter;
    if ok then Ret (s, [bytes]) else Ret (mc_set_running false s, []).

(** [replaySubscriptions] over the filters in the table's order. *)
Fixpoint send_subscribes (topics : list (list Z)) (oks : list bool) (s : MqttClient) : outcome (MqttClient * list (list Z)) :=
  match topics with
  | [] => Ret (s, [])
  | t :: topics =>
      '(s, out1) ← sendSubscribeFrame t (hd true oks) s;
      '(s, out2) ← send_subscribes topics (tl oks) s;
      Ret (s, out1 ++ out2)
  end.

Definition replaySubscriptions (oks : list bool) (s : MqttClient) : outcome (MqttClient * list (list Z)) :=
  send_subscribes (map fst (map_to_list (mc_subscriptions s))) oks s.

Definition mqtt_publish (t pl : list Z) (s : MqttClient) : MqttClient :=
  if negb (mc_running s) || negb (mc_session s) then s else mc_set_posted (mc_posted s ++ [JPublish t pl]) s.

Definition mqtt_subscribe (topicFilter : list Z) (callback : nat) (s : MqttClient) : MqttClient :=
  if bool_decide (topicFilter = []) || (kMaxStringLength <? Z.of_nat (length topicFilter)) then s
  else
    let s := mc_set_subscriptions (<[topicFilter := callback]> (mc_subscriptions s)) s in
    if negb (mc_running s) || negb (mc_session s) then s else mc_set_posted (mc_posted s ++ [JSubscribe topicFilter]) s.

(** A posted job on the worker; an exception ends [io_->run()] and the
    client. *)
Definition run_job (j : mqtt_job) (ok : bool) (s : MqttClient) : outcome (MqttClient * list (list Z)) :=
  let caught := mc_set_worker false (mc_set_running false s) in
  match j with
  | JPublish t pl =>
      if negb (mc_session s) then Ret (s, [])
      else match buildPublish t pl with
           | Ret bytes => if ok then Ret (mc_count_published s, [bytes]) else Ret (mc_set_running false s, [])
           | Throw _ => Ret (caught, [])
           | Undef => Undef
           end
  | JSubscribe t =>
      match sendSubscribeFrame t ok s with
      | Throw _ => Ret (caught, [])
      | r => r
      end
  end.

(** The heartbeat timer fires. *)
Definition heartbeat (ok : bool) (s : MqttClient) : MqttClient * list (list Z) :=
  if negb (mc_session s) then (mc_set_heartbeat false s, [])
  else if ok then (mc_set_heartbeat (mc_running s) s, [buildPingReq])
  else (mc_set_heartbeat false (mc_set_running false s), []).

(* ------------------------------------------------------------------ *)
(** ** Lifecycle *)

(** What connecting meets: the resolve or connect fails, no CONNACK comes in
    time, or the broker answers. *)
Inductive broker := BrokerAbsent | BrokerSilent | BrokerAnswers (connack : list Z).

Definition connectToBroker (clientId : list Z) (keepAlive : Z) (b : broker) : outcome (list Z) :=
  match b with
  | BrokerAbsent => Throw runtime_error
  | _ =>
      connectBytes ← buildConnect clientId keepAlive;
      match b with
      | BrokerAnswers buf =>
          code ← parseConnAck buf;
          if code =? ConnAckCode_Accepted then Ret connectBytes else Throw runtime_error
      | _ => Throw runtime_error
      end
  end.

(** How [start] ends. It hangs when it has to join a worker that is still
    running: assigning the new thread joins the old one, and the new
    session's work guard keeps that one in [io_->run()]. *)
Inductive start_end := Started (wire : list (list Z)) | StartThrew (e : exn) | StartHangs.

Definition mqtt_start (clientId : list Z) (keepAlive : Z) (b : broker) (oks : list bool) (s : MqttClient) :
    outcome (MqttClient * start_end) :=
  if mc_running s then Ret (s, Started [])
  else
    match connectToBroker clientId keepAlive b with
    | Undef => Undef
    | Throw e => Ret (mc_set_running false (mc_set_session false s), StartThrew e)
    | Ret connect =>
        let s := mc_set_heartbeat true (mc_set_read RFixed (mc_set_session true (mc_set_running true s))) in
        '(s, subs) ← replaySubscriptions oks s;
        if mc_worker s then Ret (s, StartHangs) else Ret (mc_set_worker true s, Started (connect :: subs))
    end.

(** [stopImpl]: DISCONNECT, then the worker is joined and the context made
    anew; nothing when the client is not running. *)
Definition mqtt_stop (ok : bool) (s : MqttClient) : MqttClient * list (list Z) :=
  if mc_running s then
    (mkMqtt false false RStopped (mc_subscriptions s) [] false (mc_nextPacketId s) (mc_published s) (mc_received s) false,
     if mc_session s && ok then [buildDisconnect] else [])
  else (s, []).

Definition mqtt_connectionState (s : MqttClient) : BackendState :=
  if mc_running s then Connected
  else if 0 <? mc_published s then Degraded else Disconnected.

Definition mqtt_metricsSummary (brokerHost : string) (brokerPort : Z) (s : MqttClient) : string :=
  ("broker " ++ brokerHost ++ ":" ++ to_string brokerPort ++ " | " ++ to_string (mc_published s) ++ " publishes")%string.
Definition mqtt_canPublish (s : MqttClient) : bool := mc_running s.

(* ------------------------------------------------------------------ *)
(** ** Running the client *)

Record mqtt_config := mkMqttConfig { cfg_clientId : list Z; cfg_keepAlive : Z }.

Inductive mqtt_event :=
| MeStart (b : broker) (oks : list bool)
| MeStop (ok : bool)
| MePublish (t pl : list Z)
| MeSubscribe (t : list Z) (callback : nat)
| MeJob (ok : bool)
| MeReceive (bytes : list Z)
| MeReadError (aborted : bool)
| MeHeartbeat (ok : bool).

(** What an event leaves: the packets written and the callbacks called. *)
Record mqtt_log := mkMqttLog { lg_wire : list (list Z); lg_calls : list mqtt_delivery }.

(** One event; one that cannot happen now changes nothing. *)
Definition mqtt_step (conf : mqtt_config) (e : mqtt_event) (s : MqttClient) : outcome (MqttClient * mqtt_log) :=
  let quiet s := Ret (s, mkMqttLog [] []) in
  let wrote (r : MqttClient * list (list Z)) := Ret (fst r, mkMqttLog (snd r) []) in
  match e with
  | MeStart b oks =>
      '(s, r) ← mqtt_start (cfg_clientId conf) (cfg_keepAlive conf) b oks s;
      Ret (s, mkMqttLog (match r with Started wire => wire | _ => [] end) [])
  | MeStop ok => wrote (mqtt_stop ok s)
  | MePublish t pl => quiet (mqtt_publish t pl s)
  | MeSubscribe t cb => quiet (mqtt_subscribe t cb s)
  | MeJob ok =>
      match mc_posted s with
      | j :: js => if mc_worker s then r ← run_job j ok (mc_set_posted js s); wrote r else quiet s
      | [] => quiet s
      end
  | MeReceive bytes =>
      if mc_worker s && mc_session s then '(s, calls) ← mqtt_receive bytes s; Ret (s, mkMqttLog [] calls) else quiet s
  | MeReadError aborted => if mc_worker s && mc_session s then quiet (read_error aborted s) else quiet s
  | MeHeartbeat ok => if mc_worker s && mc_heartbeat s then wrote (heartbeat ok s) else quiet s
  end.

Fixpoint mqtt_run (conf : mqtt_config) (es : list mqtt_event) (s : MqttClient) : outcome (MqttClient * mqtt_log) :=
  match es with
  | [] => Ret (s, mkMqttLog [] [])
  | e :: es =>
      '(s, l1) ← mqtt_step conf e s;
      '(s, l2) ← mqtt_run conf es s;
      Ret (s, mkMqttLog (lg_wire l1 ++ lg_wire l2) (lg_calls l1 ++ lg_calls l2))
  end.

(* ------------------------------------------------------------------ *)
(** ** Lemmas *)

Lemma mqtt_receive_app a : forall b s,
  mqtt_receive (a ++ b) s = ('(s, out1) ← mqtt_receive a s; '(s, out2) ← mqtt_receive b s; Ret (s, out1 ++ out2)).
Proof.
  induction a as [|x a IH]; intros b s; cbn [app mqtt_receive mbind outcome_bind].
  - destruct (mqtt_receive b s) as [[s' out]|e|]; reflexivity.
  - destruct (mqtt_byte x s) as [[s1 out1]|e|]; cbn [mbind outcome_bind]; try reflexivity. rewrite IH.
    destruct (mqtt_receive a s1) as [[s2 out2]|e|]; cbn [mbind outcome_bind]; try reflexivity.
    destruct (mqtt_receive b s2) as [[s3 out3]|e|]; cbn [mbind outcome_bind]; try reflexivity. rewrite app_assoc. reflexivity.
Qed.

Definition continues (b : Z) : Prop := Z.land b kContinuationBit <> 0.

(** A complete remaining-length field: continuing bytes and a last one. *)
Definition length_field (rl : list Z) : Prop :=
  exists cs b, rl = cs ++ [b] /\ Forall continues cs /\ ~ continues b /\ (length cs <= 3)%nat.

Lemma remaining_bytes_field v : 0 <= v <= kMaxRemainingLength -> length_field (remaining_bytes v).
Proof.
  intros Hv. unfold kMaxRemainingLength in Hv. unfold remaining_bytes, length_field, continues.
  assert (Hh : forall x, Z.land (x mod 128 + 128) kContinuationBit <> 0).
  { intros x. pose proof (Z.mod_pos_bound x 128). rewrite land_128_high by lia. discriminate. }
  assert (Hl : forall x, 0 <= x < 128 -> ~ Z.land x kContinuationBit <> 0).
  { intros x Hx. rewrite land_128_low by exact Hx. auto. }
  assert (K : forall cs b, Forall (fun c => Z.land c kContinuationBit <> 0) cs -> 0 <= b < 128 -> (length cs <= 3)%nat ->
    exists cs' b', cs ++ [b] = cs' ++ [b'] /\ Forall (fun c => Z.land c kContinuationBit <> 0) cs' /\
      ~ Z.land b' kContinuationBit <> 0 /\ (length cs' <= 3)%nat) by (intros cs b ? ? ?; exists cs, b; auto).
  destruct (Z.ltb_spec v 128); [apply (K []); auto; cbn; lia|].
  destruct (Z.ltb_spec v 16384); [apply (K [_]); auto; zdm|].
  destruct (Z.ltb_spec v 2097152); [apply (K [_; _]); auto; zdm|].
  apply (K [_; _; _]); auto. zdm.
Qed.

(** What the loop does next does not depend on where it was. *)
Lemma dispatch_read h rl body r s :
  ('(s', out) ← dispatchFrame h rl body (mc_set_read r s); Ret (mc_set_read RFixed s', out)) =
  ('(s', out) ← dispatchFrame h rl body s; Ret (mc_set_read RFixed s', out)).
Proof. unfold dispatchFrame, deliverInboundPublish. cbn [mc_subscriptions mc_set_read]. repeat case_match; reflexivity. Qed.

Lemma length_byte_read h rl b r s : on_length_byte h rl b (mc_set_read r s) = on_length_byte h rl b s.
Proof.
  unfold on_length_byte, readFrameBody. repeat (case_match; try reflexivity). apply dispatch_read.
Qed.

Lemma set_read_same s r : mc_read s = r -> mc_set_read r s = s.
Proof. intros <-. destruct s; reflexivity. Qed.
Lemma set_read_twice r r' s : mc_set_read r (mc_set_read r' s) = mc_set_read r s.
Proof. reflexivity. Qed.

(** The read loop over a length field, and over a body. *)
Lemma receive_length cs : forall h rl b rest s,
  Forall continues cs -> (length rl + length cs <= 3)%nat ->
  mqtt_receive (cs ++ b :: rest) (mc_set_read (RLength h rl) s) =
    ('(s1, out1) ← on_length_byte h (rl ++ cs) b s; '(s2, out2) ← mqtt_receive rest s1; Ret (s2, out1 ++ out2)).
Proof.
  induction cs as [|c cs IH]; intros h rl b rest s Hcs Hlen; cbn [app mqtt_receive].
  - rewrite app_nil_r. unfold mqtt_byte. cbn [mc_read mc_set_read]. rewrite length_byte_read. reflexivity.
  - apply Forall_cons in Hcs as [Hc Hcs]. unfold mqtt_byte. cbn [mc_read mc_set_read]. rewrite length_byte_read.
    unfold on_length_byte at 1. unfold continues in Hc. change kRemainingLengthContinuationBit with kContinuationBit.
    rewrite (proj2 (Z.eqb_neq _ _) Hc). cbn [negb]. rewrite length_app. cbn [length] in *.
    rewrite (proj2 (Nat.leb_gt _ _)) by (unfold kMaxRemainingLengthBytes; lia). cbn [mbind outcome_bind].
    rewrite (IH h (rl ++ [c]) b rest s Hcs) by (rewrite length_app; cbn; lia).
    rewrite <- app_assoc. cbn [app]. destruct (on_length_byte _ _ _ _) as [[s1 o1]|e|]; cbn [mbind outcome_bind]; try reflexivity.
    destruct (mqtt_receive rest s1) as [[s2 o2]|e|]; reflexivity.
Qed.

Lemma receive_body bs : forall h rl n body rest s,
  (length body + length bs = n)%nat -> bs <> [] ->
  mqtt_receive (bs ++ rest) (mc_set_read (RBody h rl n body) s) =
    ('(s1, out1) ← dispatchFrame h rl (body ++ bs) s; '(s2, out2) ← mqtt_receive rest (mc_set_read RFixed s1); Ret (s2, out1 ++ out2)).
Proof.
  induction bs as [|b bs IH]; intros h rl n body rest s Hlen Hne; [congruence|]. cbn [app mqtt_receive length] in *.
  unfold mqtt_byte. cbn [mc_read mc_set_read]. rewrite length_app. cbn [length].
  destruct bs as [|b2 bs].
  - rewrite (proj2 (Nat.ltb_ge _ _)) by (cbn [length] in *; lia). rewrite dispatch_read.
    destruct (dispatchFrame h rl (body ++ [b]) s) as [[s1 o1]|e|]; reflexivity.
  - rewrite (proj2 (Nat.ltb_lt _ _)) by (cbn [length] in *; lia). cbn [mbind outcome_bind].
    try rewrite set_read_twice.
    rewrite (IH h rl n (body ++ [b]) rest s) by (try discriminate; rewrite length_app; cbn [length] in *; lia).
    rewrite <- app_assoc. cbn [app]. destruct (dispatchFrame _ _ _ _) as [[s1 o1]|e|]; cbn [mbind outcome_bind]; try reflexivity.
    destruct (mqtt_receive rest _) as [[s2 o2]|e|]; reflexivity.
Qed.

(** A whole packet. *)
Lemma receive_packet h body rest s :
  mc_read s = RFixed -> Z.of_nat (length body) <= kMaxRemainingLength ->
  mqtt_receive (packet_bytes h body ++ rest) s =
    ('(s1, out1) ← dispatchFrame h (remaining_bytes (Z.of_nat (length body))) body s;
     '(s2, out2) ← mqtt_receive rest (mc_set_read RFixed s1); Ret (s2, out1 ++ out2)).
Proof.
  intros Hr Hlen. set (v := Z.of_nat (length body)) in *. assert (Hv : 0 <= v <= kMaxRemainingLength) by lia.
  destruct (remaining_bytes_field v Hv) as (cs & b & E & Hcs & Hb & Hl).
  unfold packet_bytes. fold v. cbn [app mqtt_receive]. unfold mqtt_byte. rewrite Hr. cbn [mbind outcome_bind].
  rewrite E. repeat rewrite <- app_assoc. cbn [app]. rewrite (receive_length cs h [] b (body ++ rest) s Hcs) by (cbn; lia).
  cbn [app]. unfold on_length_byte. change kRemainingLengthContinuationBit with kContinuationBit.
  destruct (Z.eqb_spec (Z.land b kContinuationBit) 0) as [_|N]; [|elim Hb; exact N]. cbn [negb].
  rewrite <- E. pose proof (decodeRemainingLength_ret [] v [] Hv) as Hd. rewrite app_nil_r in Hd. cbn [app length] in Hd. rewrite Hd.
  unfold readFrameBody. destruct (Z.eqb_spec v 0) as [Hz|Hz].
  - assert (body = []) as -> by (destruct body; [reflexivity|unfold v in Hz; cbn in Hz; lia]). cbn [app].
    destruct (dispatchFrame _ _ _ _) as [[s1 o1]|e|]; cbn [mbind outcome_bind]; try reflexivity.
    destruct (mqtt_receive rest _) as [[s2 o2]|e|]; reflexivity.
  - cbn [mbind outcome_bind]. rewrite (receive_body body h _ _ [] rest s) by
      (first [unfold v; cbn [length]; lia|intros ->; apply Hz; reflexivity]).
    cbn [app]. destruct (dispatchFrame _ _ _ _) as [[s1 o1]|e|]; cbn [mbind outcome_bind]; try reflexivity.
    destruct (mqtt_receive rest _) as [[s2 o2]|e|]; reflexivity.
Qed.

(** What a broker sends to a QoS 0 subscriber: publications, and packets of
    other types. *)
Inductive inbound := InPublish (t pl : list Z) | InOther (h : Z) (body : list Z).

Definition inbound_ok (i : inbound) : Prop :=
  match i with
  | InPublish t pl => string_ok t /\ 2 + Z.of_nat (length t) + Z.of_nat (length pl) <= kMaxRemainingLength
  | InOther h body => Z.land h kFixedHeaderTypeMask <> packet_byte Publish /\ Z.of_nat (length body) <= kMaxRemainingLength
  end.
Definition inbound_bytes (i : inbound) : list Z :=
  match i with InPublish t pl => packet_bytes 48 (string_bytes t ++ pl) | InOther h body => packet_bytes h body end.
Definition inbound_calls (subs : gmap (list Z) nat) (i : inbound) : list mqtt_delivery :=
  match i with
  | InPublish t pl => match subs !! t with Some cb => [(cb, t, pl)] | None => [] end
  | InOther _ _ => []
  end.
Definition publications (l : list inbound) : list (list Z * list Z) :=
  omap (fun i => match i with InPublish t pl => Some (t, pl) | _ => None end) l.

(** [n] more publications counted. *)
Fixpoint count_received (n : nat) (s : MqttClient) : MqttClient :=
  match n with O => s | S n => count_received n (mc_count_received s) end.

Lemma count_received_fields n : forall s, mc_read (count_received n s) = mc_read s /\ mc_subscriptions (count_received n s) = mc_subscriptions s /\
  mc_running (count_received n s) = mc_running s.
Proof. induction n as [|n IH]; intros s; cbn; [auto|]. apply (IH (mc_count_received s)). Qed.

Lemma receive_frames l : Forall inbound_ok l -> forall s, mc_read s = RFixed ->
  mqtt_receive (flat_map inbound_bytes l) s =
    Ret (count_received (length (publications l)) s, flat_map (inbound_calls (mc_subscriptions s)) l).
Proof.
  induction 1 as [|i l Hi _ IH]; intros s Hr; [reflexivity|]. cbn [flat_map]. destruct i as [t pl|h body]; cbn [inbound_bytes inbound_ok] in *.
  - destruct Hi as [Ht Hlen]. rewrite receive_packet; [|exact Hr|rewrite length_app, string_bytes_length; lia].
    unfold dispatchFrame. change (Z.land 48 kFixedHeaderTypeMask =? packet_byte Publish) with true. cbn iota.
    pose proof (publish_packets t pl Ht Hlen) as [_ Hp]. unfold packet_bytes in Hp. rewrite Hp. cbn [mbind outcome_bind].
    rewrite (set_read_same (mc_count_received s) RFixed Hr), (IH (mc_count_received s) Hr). reflexivity.
  - destruct Hi as [Hh Hlen]. rewrite receive_packet by assumption. unfold dispatchFrame. rewrite (proj2 (Z.eqb_neq _ _) Hh).
    cbn [mbind outcome_bind]. rewrite (set_read_same s RFixed Hr), (IH s Hr). reflexivity.
Qed.

(** *** Who is called *)

Definition subscribe_all (subs : list (list Z * nat)) (s : MqttClient) : MqttClient :=
  fold_left (fun s '(t, cb) => mqtt_subscribe t cb s) subs s.

(** The callback of the last subscription of a topic, if it was subscribed at
    all (an empty topic is refused), or the one there was before. *)
Definition last_callback (subs : list (list Z * nat)) (before : gmap (list Z) nat) (t : list Z) : option nat :=
  match last (filter (fun sub => sub.1 = t /\ t <> []) subs) with
  | Some (_, cb) => Some cb
  | None => before !! t
  end.
Definition calls_of (subs : list (list Z * nat)) (before : gmap (list Z) nat) (i : inbound) : list mqtt_delivery :=
  match i with
  | InPublish t pl => match last_callback subs before t with Some cb => [(cb, t, pl)] | None => [] end
  | InOther _ _ => []
  end.

Lemma subscribe_fields t cb s :
  mc_read (mqtt_subscribe t cb s) = mc_read s /\ mc_running (mqtt_subscribe t cb s) = mc_running s /\
  mc_subscriptions (mqtt_subscribe t cb s) =
    if bool_decide (t = []) || (kMaxStringLength <? Z.of_nat (length t)) then mc_subscriptions s else <[t := cb]> (mc_subscriptions s).
Proof. unfold mqtt_subscribe. case_match; [auto|]. cbv zeta. case_match; auto. Qed.

Lemma subscribe_all_fields subs : forall s, mc_read (subscribe_all subs s) = mc_read s /\ mc_running (subscribe_all subs s) = mc_running s /\
  (forall t, Z.of_nat (length t) <= kMaxStringLength -> mc_subscriptions (subscribe_all subs s) !! t = last_callback subs (mc_subscriptions s) t).
Proof.
  induction subs as [|[t cb] subs IH] using rev_ind; intros s; [auto|]. unfold subscribe_all. rewrite fold_left_app. cbn [fold_left].
  fold (subscribe_all subs s). destruct (IH s) as (Er & Eu & Es). destruct (subscribe_fields t cb (subscribe_all subs s)) as (-> & -> & ->).
  refine (conj Er (conj Eu _)). intros t' Hl. unfold last_callback. rewrite filter_app, filter_cons, filter_nil. cbn [fst].
  specialize (Es t' Hl). unfold last_callback in Es. destruct (decide (t = t' /\ t' <> [])) as [[<- Hne]|Hn].
  - rewrite last_snoc, bool_decide_false by exact Hne. cbn [orb]. rewrite (proj2 (Z.ltb_ge _ _) Hl). apply lookup_insert_eq.
  - rewrite app_nil_r, <- Es. clear Es. destruct (bool_decide (t = []) || (kMaxStringLength <? Z.of_nat (length t))) eqn:Ec; [reflexivity|]. apply orb_false_iff in Ec as [Ec _]. apply bool_decide_eq_false in Ec.
    apply lookup_insert_ne. intros ->. auto.
Qed.

Lemma calls_after subs s i : inbound_ok i -> inbound_calls (mc_subscriptions (subscribe_all subs s)) i = calls_of subs (mc_subscriptions s) i.
Proof.
  destruct i as [t pl|h body]; [|reflexivity]. intros [[_ Ht] _]. cbn [inbound_calls calls_of].
  rewrite (proj2 (proj2 (subscribe_all_fields subs s)) t Ht). reflexivity.
Qed.

(** *** Arbitrary input *)

(** Decoding a length field inside a packet. *)
Lemma decode_shift n : forall rl i m v x c pre post,
  decode_loop n rl i m v = Ret (x, c) -> decode_loop n (pre ++ rl ++ post) (length pre + i) m v = Ret (x, (length pre + c)%nat).
Proof.
  induction n as [|n IH]; intros rl i m v x c pre post; [discriminate|]. cbn [decode_loop].
  case_decide as Hi; [discriminate|]. rewrite decide_False by (rewrite !length_app; lia).
  unfold vec_get. rewrite lookup_app_r by lia. replace (length pre + i - length pre)%nat with i by lia.
  destruct (rl !! i) as [b|] eqn:Eb; [|discriminate]. rewrite (lookup_app_l_Some _ _ _ _ Eb). cbn [mbind outcome_bind].
  case_match.
  - intros [= <- <-]. do 2 f_equal. lia.
  - intros E. apply (IH _ _ _ _ _ _ pre post) in E. replace (length pre + i + 1)%nat with (length pre + (i + 1))%nat by lia. exact E.
Qed.

Lemma decode_whole cs : forall n done b m v x c,
  Forall continues cs -> decode_loop n (done ++ cs ++ [b]) (length done) m v = Ret (x, c) -> c = length (done ++ cs ++ [b]).
Proof.
  induction cs as [|a cs IH]; intros n done b m v x c Hcs E; (destruct n as [|n]; [discriminate|]).
  - cbn [decode_loop app] in E. case_decide; [discriminate|]. unfold vec_get in E. rewrite lookup_after in E. cbn [mbind outcome_bind] in E.
    rewrite length_app. cbn [length]. case_match; [injection E as _ <-; reflexivity|].
    destruct n as [|n]; [discriminate|]. cbn [decode_loop] in E. rewrite decide_True in E by (rewrite length_app; cbn; lia). discriminate.
  - apply Forall_cons in Hcs as [Ha Hcs]. cbn [decode_loop app] in E. case_decide; [discriminate|]. unfold vec_get in E.
    rewrite lookup_after in E. cbn [mbind outcome_bind] in E. unfold continues in Ha. rewrite (proj2 (Z.eqb_neq _ _) Ha) in E.
    change (a :: cs ++ [b]) with ([a] ++ cs ++ [b]) in E. rewrite app_assoc in E.
    replace (length done + 1)%nat with (length (done ++ [a])) in E by (rewrite length_app; reflexivity).
    apply IH in E; [|exact Hcs]. rewrite E, <- app_assoc. reflexivity.
Qed.

(** A length field that was decoded, of a packet whose body has [n] bytes. *)
Definition decoded (rl : list Z) (v : Z) : Prop := bytes_ok rl /\ decodeRemainingLength rl 0 = Ret (v, length rl) /\ 0 <= v.

Definition read_inv (r : read_state) : Prop :=
  match r with
  | RFixed | RStopped => True
  | RLength h rl => is_u8 h /\ bytes_ok rl /\ Forall continues rl /\ (length rl <= 3)%nat
  | RBody h rl n body => is_u8 h /\ decoded rl (Z.of_nat n) /\ (length body < n)%nat /\ bytes_ok body
  end.

Lemma dispatch_safe h rl body v s :
  is_u8 h -> decoded rl v -> bytes_ok body -> length body = Z.to_nat v ->
  exists s' out, dispatchFrame h rl body s = Ret (s', out).
Proof.
  intros Hh (Hrl & Hd & Hv) Hb Hlen. unfold dispatchFrame. case_match; [|eauto].
  assert (P : defined (parsePublish ([h] ++ rl ++ body))).
  { pose proof (parse_publish_total ([h] ++ rl ++ body)) as K.
    destruct (parsePublish ([h] ++ rl ++ body)); try exact I. apply K.
    - constructor; [exact Hh|]. apply bytes_ok_app. auto.
    - intros n c E. apply (decode_shift _ _ _ _ _ _ _ [h] body) in Hd. unfold decodeRemainingLength in E. cbn [length] in Hd.
      change (1 + 0)%nat with 1%nat in Hd. rewrite Hd in E. injection E as <- <-. rewrite !length_app. cbn [length].
      lia. }
  destruct (parsePublish _) as [p|e|]; [eauto|eauto|destruct P].
Qed.

Lemma byte_safe b s : is_u8 b -> read_inv (mc_read s) -> exists s' out, mqtt_byte b s = Ret (s', out) /\ read_inv (mc_read s').
Proof.
  intros Hb H. unfold mqtt_byte. destruct (mc_read s) as [|h rl|h rl n body|] eqn:Er; cbn [read_inv] in H.
  - eexists _, _. split; [reflexivity|]. cbn. split; [exact Hb|]. split; [constructor|]. split; [constructor|lia].
  - destruct H as (Hh & Hrl & Hc & Hl). unfold on_length_byte. change kRemainingLengthContinuationBit with kContinuationBit.
    assert (Hrlb : bytes_ok (rl ++ [b])) by (apply bytes_ok_app; split; [exact Hrl|constructor; [exact Hb|constructor]]).
    destruct (Z.eqb_spec (Z.land b kContinuationBit) 0) as [Hz|Hz]; cbn [negb].
    + pose proof (decode_loop_total kMaxRemainingLengthBytes (rl ++ [b]) 0 1 0) as Ht. unfold decodeRemainingLength.
      destruct (decode_loop _ _ _ _ _) as [[v c]|e|] eqn:Ed; [|eexists _, _; split; [reflexivity|exact I]|destruct Ht].
      destruct Ht as (Hv & _). pose proof (decode_whole rl kMaxRemainingLengthBytes [] b 1 0 v c Hc Ed) as ->. cbn [app] in *.
      assert (D : decoded (rl ++ [b]) v) by (split; [exact Hrlb|]; split; [exact Ed|exact Hv]).
      unfold readFrameBody. destruct (Z.eqb_spec v 0) as [->|Hv0].
      * destruct (dispatch_safe h (rl ++ [b]) [] 0 s Hh D ltac:(constructor) eq_refl) as (s' & out & ->).
        cbn [mbind outcome_bind]. eexists _, _. split; [reflexivity|exact I].
      * eexists _, _. split; [reflexivity|]. cbn. rewrite Z2Nat.id by lia. split; [exact Hh|]. split; [exact D|]. split; [lia|constructor].
    + rewrite length_app. cbn [length]. destruct (Nat.leb_spec kMaxRemainingLengthBytes (length rl + 1));
        eexists _, _; (split; [reflexivity|]); [exact I|]. cbn. unfold kMaxRemainingLengthBytes in *. split; [exact Hh|]. split; [exact Hrlb|].
      split; [apply Forall_app; split; [exact Hc|constructor; [exact Hz|constructor]]|rewrite length_app; cbn; lia].
  - destruct H as (Hh & D & Hl & Hbody).
    assert (Hbb : bytes_ok (body ++ [b])) by (apply bytes_ok_app; split; [exact Hbody|constructor; [exact Hb|constructor]]).
    rewrite length_app. cbn [length]. destruct (Nat.ltb_spec (length body + 1) n).
    + eexists _, _. split; [reflexivity|]. cbn. rewrite length_app. cbn. split; [exact Hh|]. split; [exact D|]. split; [lia|exact Hbb].
    + destruct (dispatch_safe h rl (body ++ [b]) (Z.of_nat n) s Hh D Hbb) as (s' & out & ->); [rewrite length_app; cbn; lia|].
      cbn [mbind outcome_bind]. eexists _, _. split; [reflexivity|exact I].
  - eexists _, _. split; [reflexivity|]. rewrite Er. exact I.
Qed.

Lemma receive_safe bytes : bytes_ok bytes -> forall s, read_inv (mc_read s) ->
  exists s' out, mqtt_receive bytes s = Ret (s', out) /\ read_inv (mc_read s').
Proof.
  induction 1 as [|b bytes Hb _ IH]; intros s H; [eexists _, _; split; [reflexivity|exact H]|].
  destruct (byte_safe b s Hb H) as (s1 & o1 & E1 & H1). destruct (IH s1 H1) as (s2 & o2 & E2 & H2).
  cbn [mqtt_receive]. rewrite E1. cbn [mbind outcome_bind]. rewrite E2. cbn [mbind outcome_bind]. eauto.
Qed.

(** The stream in pieces. *)
Fixpoint mqtt_receive_all (chunks : list (list Z)) (s : MqttClient) : outcome (MqttClient * list mqtt_delivery) :=
  match chunks with
  | [] => Ret (s, [])
  | c :: cs => '(s, out1) ← mqtt_receive c s; '(s, out2) ← mqtt_receive_all cs s; Ret (s, out1 ++ out2)
  end.

Lemma receive_chunks chunks : forall s, mqtt_receive_all chunks s = mqtt_receive (concat chunks) s.
Proof.
  induction chunks as [|c cs IH]; intros s; [reflexivity|]. cbn [mqtt_receive_all concat]. rewrite mqtt_receive_app.
  destruct (mqtt_receive c s) as [[s1 o1]|e|]; cbn [mbind outcome_bind]; try reflexivity. rewrite IH. reflexivity.
Qed.

(** *** Publications on the wire *)

Definition publish_ok (t pl : list Z) : Prop := string_ok t /\ 2 + Z.of_nat (length t) + Z.of_nat (length pl) <= kMaxRemainingLength.

Definition publish_packet (p : list Z * list Z) : list Z := packet_bytes 48 (string_bytes (fst p) ++ snd p).

(** The PUBLISH packets among the packets written. *)
Definition is_publish (p : list Z) : Prop := Z.land (hd 0 p) kFixedHeaderTypeMask = packet_byte Publish.
#[export] Instance is_publish_dec p : Decision (is_publish p).
Proof. unfold is_publish. apply _. Defined.
Definition publish_wire (wire : list (list Z)) : list (list Z) := filter is_publish wire.

Definition queued (jobs : list mqtt_job) : list (list Z * list Z) :=
  omap (fun j => match j with JPublish t pl => Some (t, pl) | _ => None end) jobs.

Definition published_calls (es : list mqtt_event) : list (list Z * list Z) :=
  omap (fun e => match e with MePublish t pl => Some (t, pl) | _ => None end) es.

(** Events of one session, with publishable messages and topics. *)
Definition session_event (e : mqtt_event) : Prop :=
  match e with
  | MeStart _ _ | MeStop _ => False
  | MePublish t pl => publish_ok t pl
  | MeSubscribe t _ => bytes_ok t
  | MeReceive bytes => bytes_ok bytes
  | _ => True
  end.

Definition jobs_ok (jobs : list mqtt_job) : Prop :=
  Forall (fun j => match j with JPublish t pl => publish_ok t pl | JSubscribe t => string_ok t end) jobs.

Record client_ok (s : MqttClient) : Prop := {
  co_jobs : jobs_ok (mc_posted s);
  co_read : read_inv (mc_read s);
  co_session : mc_running s = true -> mc_session s = true;
  co_id : is_u16 (mc_nextPacketId s);
}.

Lemma subscribe_packet i t : is_u16 i -> string_ok t -> exists rest, buildSubscribe i t = Ret (130 :: rest).
Proof.
  intros Hi Ht. unfold buildSubscribe. rewrite append_be16, encodeString_ret by assumption. cbn [mbind outcome_bind app].
  destruct Ht as [_ Ht]. rewrite encodeRemainingLength_ret; [eexists; reflexivity|].
  rewrite !length_app, string_bytes_length. cbn [length be16]. rewrite u32_id by (unfold is_u32; lia). unfold kMaxRemainingLength. lia.
Qed.

(** Receiving keeps the queue; a client that runs afterwards ran before. *)
Lemma byte_keeps b s s' out : mqtt_byte b s = Ret (s', out) ->
  mc_posted s' = mc_posted s /\ mc_session s' = mc_session s /\ mc_nextPacketId s' = mc_nextPacketId s /\ (mc_running s' = true -> mc_running s = true).
Proof.
  assert (D : forall h rl body r s1 out1, ('(s', out) ← dispatchFrame h rl body s; Ret (mc_set_read r s', out)) = Ret (s1, out1) ->
    mc_posted s1 = mc_posted s /\ mc_session s1 = mc_session s /\ mc_nextPacketId s1 = mc_nextPacketId s /\ (mc_running s1 = true -> mc_running s = true)).
  { intros h rl body r s1 out1. unfold dispatchFrame. repeat case_match; cbn; try discriminate; intros [= <- <-]; auto. }
  unfold mqtt_byte. destruct (mc_read s) as [|h rl|h rl n body|].
  - intros [= <- <-]. auto.
  - unfold on_length_byte, readFrameBody. repeat case_match; try discriminate;
      first [apply D|intros [= <- <-]; cbn; split_and!; auto; discriminate].
  - case_match; [intros [= <- <-]; auto|apply D].
  - intros [= <- <-]. auto.
Qed.

Lemma receive_keeps bytes : forall s s' out, mqtt_receive bytes s = Ret (s', out) ->
  mc_posted s' = mc_posted s /\ mc_session s' = mc_session s /\ mc_nextPacketId s' = mc_nextPacketId s /\ (mc_running s' = true -> mc_running s = true).
Proof.
  induction bytes as [|b bytes IH]; intros s s' out E; cbn [mqtt_receive] in E.
  - injection E as <- <-. auto.
  - apply bind_ret_inv in E as ([s1 o1] & E1 & E). apply bind_ret_inv in E as ([s2 o2] & E2 & E). injection E as <- <-.
    destruct (byte_keeps _ _ _ _ E1) as (A1 & A2 & A3 & A4). destruct (IH _ _ _ E2) as (B1 & B2 & B3 & B4).
    split_and!; [congruence|congruence|congruence|auto].
Qed.

(** One event of a session: what it writes and what it leaves queued are the
    publications queued before it and the one it makes. *)
Lemma session_step conf e s : client_ok s -> session_event e ->
  exists s' l, mqtt_step conf e s = Ret (s', l) /\ client_ok s' /\ (mc_running s' = true -> mc_running s = true /\
    publish_wire (lg_wire l) ++ map publish_packet (queued (mc_posted s')) =
      map publish_packet (queued (mc_posted s) ++ published_calls [e])).
Proof.
  intros [J R S I] He.
  assert (Q : forall s', s' = s -> exists s' l, Ret (s, mkMqttLog [] []) = Ret (s', l) /\ client_ok s' /\ (mc_running s' = true -> mc_running s = true /\
    publish_wire (lg_wire l) ++ map publish_packet (queued (mc_posted s')) = map publish_packet (queued (mc_posted s) ++ []))).
  { intros _ _. eexists _, _. split; [reflexivity|]. split; [split; assumption|]. rewrite app_nil_r. auto. }
  destruct e as [b oks|ok|t pl|t cb|ok|bytes|ab|ok]; cbn [session_event] in He; try contradiction; cbn [mqtt_step published_calls omap list_omap].
  - unfold mqtt_publish. destruct (mc_running s) eqn:Er; cbn [negb orb].
    + rewrite (S eq_refl). cbn [negb]. eexists _, _. split; [reflexivity|]. split.
      * split; cbn; try assumption; [|rewrite (S eq_refl); auto]. apply Forall_app. split; [exact J|repeat constructor; apply He].
      * intros _. split; [reflexivity|]. cbn. unfold queued. rewrite omap_app. reflexivity.
    + eexists _, _. split; [reflexivity|]. split; [split; try assumption; congruence|]. congruence.
  - unfold mqtt_subscribe. case_match eqn:Ec; [apply (Q s eq_refl)|]. apply orb_false_iff in Ec as [_ Ec]. apply Z.ltb_ge in Ec.
    cbn [mc_set_subscriptions mc_running mc_session]. destruct (negb (mc_running s) || negb (mc_session s)).
    + eexists _, _. split; [reflexivity|]. split; [split; assumption|]. rewrite app_nil_r. auto.
    + eexists _, _. split; [reflexivity|]. split.
      * split; cbn; try assumption. apply Forall_app. split; [exact J|repeat constructor; [exact He|exact Ec]].
      * intros Hr. split; [exact Hr|]. cbn. unfold queued. rewrite omap_app, app_nil_r. cbn. rewrite app_nil_r. reflexivity.
  - destruct (mc_posted s) as [|j js] eqn:Ep; [rewrite <- Ep in *; apply (Q s eq_refl)|].
    destruct (mc_worker s); [|rewrite <- Ep in *; apply (Q s eq_refl)]. apply Forall_cons in J as [Hj J].
    destruct j as [t pl|t]; unfold run_job; cbn [mc_set_posted mc_session].
    + destruct (mc_session s) eqn:Es; cbn [negb].
      2:{ cbn [mbind outcome_bind fst snd]. eexists _, _. split; [reflexivity|]. split; [split; cbn; auto; intros Hr; specialize (S Hr); congruence|].
          cbn. intros Hr. specialize (S Hr). congruence. }
      pose proof (publish_packets t pl (proj1 Hj) (proj2 Hj)) as [-> _]. destruct ok; cbn [mbind outcome_bind fst snd].
      * eexists _, _. split; [reflexivity|]. split; [split; cbn; auto|]. intros Hr. split; [exact Hr|]. rewrite app_nil_r. reflexivity.
      * eexists _, _. split; [reflexivity|]. split; [split; cbn; auto; discriminate|]. discriminate.
    + unfold sendSubscribeFrame. cbn [mc_set_posted mc_session mc_running mc_set_packetId mc_nextPacketId].
      destruct (negb (mc_session s) || negb (mc_running s)) eqn:Eg.
      { cbn [mbind outcome_bind fst snd]. eexists _, _. split; [reflexivity|]. split; [split; cbn; auto|]. rewrite app_nil_r. auto. }
      destruct (subscribe_packet (mc_nextPacketId s) t I Hj) as [rest ->]. cbn [mbind outcome_bind].
      assert (I' : is_u16 (u16 (mc_nextPacketId s + 1))) by apply u16_range.
      destruct ok; cbn [mbind outcome_bind fst snd].
      * eexists _, _. split; [reflexivity|]. split; [split; cbn; auto|]. intros Hr. split; [exact Hr|]. rewrite app_nil_r. reflexivity.
      * eexists _, _. split; [reflexivity|]. split; [split; cbn; auto; discriminate|]. discriminate.
  - destruct (mc_worker s && mc_session s); [|apply (Q s eq_refl)].
    destruct (receive_safe bytes He s R) as (s' & out & E & R'). destruct (receive_keeps bytes s s' out E) as (K1 & K2 & K3 & K4).
    rewrite E. cbn [mbind outcome_bind]. eexists _, _. split; [reflexivity|].
    split; [split; rewrite ?K1, ?K2, ?K3; auto|]. rewrite K1, app_nil_r. auto.
  - destruct (mc_worker s && mc_session s); [|apply (Q s eq_refl)]. eexists _, _. split; [reflexivity|].
    unfold read_error. destruct ab; (split; [split; cbn; auto; discriminate|]); cbn; rewrite app_nil_r; auto. discriminate.
  - destruct (mc_worker s && mc_heartbeat s); [|apply (Q s eq_refl)]. eexists _, _. split; [reflexivity|].
    unfold heartbeat. destruct (mc_session s) eqn:Es; cbn [negb]; [destruct ok|]; cbn [fst snd]; rewrite app_nil_r;
      (split; [split; cbn; auto; try discriminate; intros Hr; specialize (S Hr); congruence|]); cbn; auto. discriminate.
Qed.

Lemma session_run conf es : forall s, client_ok s -> Forall session_event es ->
  exists s' l, mqtt_run conf es s = Ret (s', l) /\ client_ok s' /\ (mc_running s' = true -> mc_running s = true /\
    publish_wire (lg_wire l) ++ map publish_packet (queued (mc_posted s')) =
      map publish_packet (queued (mc_posted s) ++ published_calls es)).
Proof.
  induction es as [|e es IH]; intros s K H; cbn [mqtt_run].
  - eexists _, _. split; [reflexivity|]. split; [exact K|]. intros Hr. cbn. rewrite app_nil_r. auto.
  - apply Forall_cons in H as [He H]. destruct (session_step conf e s K He) as (s1 & l1 & E1 & K1 & W1).
    destruct (IH s1 K1 H) as (s2 & l2 & E2 & K2 & W2). rewrite E1. cbn [mbind outcome_bind]. rewrite E2. cbn [mbind outcome_bind].
    eexists _, _. split; [reflexivity|]. split; [exact K2|]. intros Hr. destruct (W2 Hr) as [Hr1 W2']. destruct (W1 Hr1) as [Hr0 W1'].
    split; [exact Hr0|]. cbn [lg_wire]. unfold publish_wire in *. rewrite filter_app, <- app_assoc, W2', map_app, app_assoc, W1', <- map_app.
    f_equal. rewrite <- app_assoc. f_equal. unfold published_calls. change (e :: es) with ([e] ++ es). rewrite omap_app. reflexivity.
Qed.

(** A client between a [start] that connected and the end of the connection. *)
Lemma started_client clientId keepAlive b oks s s' wire :
  mc_running s = false -> mc_posted s = [] -> is_u16 (mc_nextPacketId s) ->
  (forall t cb, mc_subscriptions s !! t = Some cb -> string_ok t) ->
  mqtt_start clientId keepAlive b oks s = Ret (s', Started wire) ->
  client_ok s' /\ mc_posted s' = [] /\ mc_read s' = RFixed /\ mc_subscriptions s' = mc_subscriptions s.
Proof.
  intros Hr Hp Hi Hs. unfold mqtt_start. rewrite Hr. destruct (connectToBroker clientId keepAlive b); try discriminate.
  set (s0 := mc_set_heartbeat true _). unfold replaySubscriptions.
  assert (R : forall ts oks s1 s2 out, Forall string_ok ts -> mc_session s1 = true -> is_u16 (mc_nextPacketId s1) ->
    send_subscribes ts oks s1 = Ret (s2, out) ->
    mc_posted s2 = mc_posted s1 /\ mc_read s2 = mc_read s1 /\ mc_session s2 = true /\ is_u16 (mc_nextPacketId s2) /\ mc_subscriptions s2 = mc_subscriptions s1).
  { induction ts as [|t ts IH]; intros oks1 s1 s2 out Ht Hse Hid E; cbn [send_subscribes] in E.
    - injection E as <- <-. auto.
    - apply Forall_cons in Ht as [Ht Hts]. apply bind_ret_inv in E as ([s3 o3] & E3 & E). apply bind_ret_inv in E as ([s4 o4] & E4 & E).
      injection E as <- <-. unfold sendSubscribeFrame in E3.
      destruct (negb (mc_session s1) || negb (mc_running s1)); [injection E3 as <- <-; eapply IH; eauto|].
      destruct (subscribe_packet (mc_nextPacketId s1) t Hid Ht) as [rest Eb].
      cbn [mc_set_packetId] in E3. rewrite Eb in E3. cbn [mbind outcome_bind] in E3.
      destruct (hd true oks1); injection E3 as <- <-; (apply IH in E4; [exact E4|exact Hts|exact Hse|apply u16_range]). }
  destruct (send_subscribes _ _ s0) as [[s1 out]|e|] eqn:E; cbn [mbind outcome_bind]; try discriminate.
  destruct (mc_worker s1); [discriminate|]. intros [= <- _].
  apply R in E as (E1 & E2 & E3 & E4 & E5); [|apply Forall_forall; intros t Ht|reflexivity|exact Hi].
  - cbn. rewrite E1, E2, E5. split; [|auto]. change (mc_posted s0) with (mc_posted s) in E1. rewrite Hp in E1.
    split; cbn; rewrite ?E1, ?E2; auto; [constructor|exact I].
  - apply list_elem_of_fmap in Ht as ([t' cb] & -> & Ht). apply elem_of_map_to_list in Ht. exact (Hs _ _ Ht).
Qed.

(* ------------------------------------------------------------------ *)
(** ** Properties *)

(** C24: Inbound publications reach the last subscriber of their topic.
    However the broker's stream of packets is cut by the socket, the callback
    subscribed last for the topic of a publication is called once for it, in
    order, with its topic and payload, publications on other topics call
    nobody, and the read loop is ready for the next packet. (An earlier
    callback for the same topic is replaced, and not called any more.) *)
Theorem mqtt_stream_delivers (l : list inbound) (chunks : list (list Z)) (subs : list (list Z * nat)) (s : MqttClient) :
  Forall inbound_ok l -> mc_read s = RFixed -> concat chunks = flat_map inbound_bytes l ->
  exists s', mqtt_receive_all chunks (subscribe_all subs s) = Ret (s', flat_map (calls_of subs (mc_subscriptions s)) l) /\
    mc_read s' = RFixed /\ mc_subscriptions s' = mc_subscriptions (subscribe_all subs s) /\ mc_running s' = mc_running s.
Proof.
  intros Hl Hr Hc. destruct (subscribe_all_fields subs s) as (Er & Eu & _). rewrite Hr in Er.
  rewrite receive_chunks, Hc, (receive_frames l Hl _ Er).
  rewrite !flat_map_concat_map, (map_ext_Forall _ _ (Forall_impl _ _ _ Hl (calls_after subs s))), <- flat_map_concat_map. eexists. split; [reflexivity|].
  destruct (count_received_fields (length (publications l)) (subscribe_all subs s)) as (E1 & E2 & E3). rewrite E1, E3, Eu. auto.
Qed.

(** No input breaks the read loop. Whatever bytes the broker sends, the
    loop returns without undefined behaviour: in particular the packet handed
    to [parsePublish] is never longer than it says. *)
Theorem mqtt_input_safe (bytes : list Z) (s : MqttClient) :
  bytes_ok bytes -> mc_read s = RFixed -> exists s' out, mqtt_receive bytes s = Ret (s', out) /\ read_inv (mc_read s').
Proof. intros Hb Hr. apply receive_safe; [exact Hb|]. rewrite Hr. exact I. Qed.

(** Publications leave in order. In a session, whatever the operator, the
    subscribers, the broker and the heartbeat do, and as long as the client
    still runs: the PUBLISH packets written, followed by those still queued,
    are exactly the encodings of the publications made, in the order of the
    calls. *)
Theorem mqtt_publishes_in_order conf clientId keepAlive b oks (s s0 : MqttClient) wire es :
  mc_running s = false -> mc_posted s = [] -> is_u16 (mc_nextPacketId s) ->
  (forall t cb, mc_subscriptions s !! t = Some cb -> string_ok t) ->
  mqtt_start clientId keepAlive b oks s = Ret (s0, Started wire) -> Forall session_event es ->
  exists s' l, mqtt_run conf es s0 = Ret (s', l) /\ (mc_running s' = true ->
    publish_wire (lg_wire l) ++ map publish_packet (queued (mc_posted s')) = map publish_packet (published_calls es)).
Proof.
  intros Hr Hp Hi Hs E Hes. destruct (started_client _ _ _ _ _ _ _ Hr Hp Hi Hs E) as (K & P & _ & _).
  destruct (session_run conf es s0 K Hes) as (s' & l & E' & _ & W). exists s', l. split; [exact E'|].
  intros Hr'. destruct (W Hr') as [_ W']. rewrite P in W'. exact W'.
Qed.

Definition demo_client_id : list Z := [104; 109; 105].
Definition demo_started : MqttClient :=
  mkMqtt true true RFixed ∅ [] true 1 0 0 true.

(** A dropped connection cannot be restarted. When the broker goes away the
    client is no longer running, so [stop] does nothing and the worker thread
    stays; a new [start] then waits for that worker for ever. *)
Theorem mqtt_restart_hangs_refuted :
  mqtt_start demo_client_id 60 (BrokerAnswers [32; 2; 0; 0]) [] mqtt_init =
    Ret (demo_started, Started [packet_bytes 16 ([0; 4; 77; 81; 84; 84; 4; 2; 0; 60] ++ string_bytes demo_client_id)]) /\
  (let dropped := read_error false demo_started in
   mc_running dropped = false /\ mqtt_stop true dropped = (dropped, []) /\
   exists s, mqtt_start demo_client_id 60 (BrokerAnswers [32; 2; 0; 0]) [] dropped = Ret (s, StartHangs)).
Proof. split; [vm_compute; reflexivity|]. split; [reflexivity|]. split; [reflexivity|]. eexists. vm_compute. reflexivity. Qed.

(* ------------------------------------------------------------------ *)
(** ** Witnesses *)

Definition demo_subscriptions : list (list Z * nat) := [(demo_topic, 4%nat); ([], 6%nat); (demo_topic, 5%nat)].
Definition demo_inbound : list inbound := [InOther 144 [0; 1; 0]; InPublish demo_topic demo_pl; InOther 208 []; InPublish demo_pl []].

Lemma demo_inbound_ok : Forall inbound_ok demo_inbound.
Proof.
  repeat (apply Forall_cons; split; [cbn; split; try discriminate; unfold kMaxRemainingLength; try (split; [bytes_lit|]); cbn; lia|]).
  apply Forall_nil. exact I.
Qed.

Lemma mqtt_stream_delivers_witness :
  exists s', mqtt_receive_all [take 7 (flat_map inbound_bytes demo_inbound); drop 7 (flat_map inbound_bytes demo_inbound)] (subscribe_all demo_subscriptions mqtt_init) =
      Ret (s', [(5%nat, demo_topic, demo_pl)]) /\
    mc_read s' = RFixed /\ mc_subscriptions s' = mc_subscriptions (subscribe_all demo_subscriptions mqtt_init) /\ mc_running s' = false.
Proof. apply (mqtt_stream_delivers demo_inbound _ demo_subscriptions mqtt_init); [exact demo_inbound_ok|reflexivity|]. cbn [concat]. rewrite app_nil_r. apply take_drop. Defined.

Lemma mqtt_input_safe_witness :
  exists s' out, mqtt_receive [48; 3; 0; 9; 65; 48; 255; 255; 255; 255; 1] mqtt_init = Ret (s', out) /\ read_inv (mc_read s').
Proof. apply (mqtt_input_safe _ mqtt_init); [bytes_lit|reflexivity]. Defined.

Lemma mqtt_publishes_in_order_witness :
  exists s' l, mqtt_run (mkMqttConfig demo_client_id 60)
      [MePublish demo_topic demo_pl; MeSubscribe demo_topic 5; MeJob true; MePublish demo_topic []; MeHeartbeat true; MeJob true] demo_started = Ret (s', l) /\
    (mc_running s' = true -> publish_wire (lg_wire l) ++ map publish_packet (queued (mc_posted s')) =
       map publish_packet [(demo_topic, demo_pl); (demo_topic, [])]).
Proof.
  apply (mqtt_publishes_in_order (mkMqttConfig demo_client_id 60) demo_client_id 60 (BrokerAnswers [32; 2; 0; 0]) [] mqtt_init demo_started
    [packet_bytes 16 ([0; 4; 77; 81; 84; 84; 4; 2; 0; 60] ++ string_bytes demo_client_id)]); try reflexivity.
  - unfold is_u16. cbn. lia.
  - intros t cb. cbn. rewrite lookup_empty. discriminate.
  - assert (K : forall pl, (length pl <= 3)%nat -> publish_ok demo_topic pl).
    { intros pl Hl. split; [exact demo_topic_ok|]. unfold kMaxRemainingLength. cbn. lia. }
    apply Forall_cons. split; [apply K; cbn; lia|]. apply Forall_cons. split; [exact (proj1 demo_topic_ok)|].
    apply Forall_cons. split; [exact I|]. apply Forall_cons. split; [apply K; cbn; lia|].
    apply Forall_cons. split; [exact I|]. apply Forall_cons. split; [exact I|]. apply Forall_nil. exact I.
Defined.
