(* ===== verification/SimulatedModel.v ===== *)
(** * The simulated production model
    (src/model/SimulatedModel.h, ThroughputMeter.h, ProductionTypes.h,
    Product.h, Recipe.h)

    The equipment, actuator and quality tables, the work unit, the state
    machine, the throughput meter, the subscribers and every operation.
    Subscribers are named by numbers and a delivery is recorded in a log; a
    subscriber that calls back into the model is not modelled. *)
From stdpp Require Import pretty gmap.
From S2P Require Import Prelude Float32 Float64 StdMap SystemState ModbusIngest.
From S2P Require FloatBounds.

(* ------------------------------------------------------------------ *)
(** ** Data *)

Definition kDefaultPassRateTarget : float32 := f32_of_Z 95.

Record EquipmentStatus := mkEquipment {
  equipmentId : Z;
  eq_status : Z;
  supplyLevel : Z;
  eq_message : string;
}.
Definition equipment_default : EquipmentStatus := mkEquipment 0 0 0 "".

Record ActuatorStatus := mkActuator {
  actuatorId : Z;
  act_status : Z;
  posX : Z;
  posY : Z;
  autoMode : bool;
  atHome : bool;
}.
Definition actuator_default : ActuatorStatus := mkActuator 0 0 0 0 true true.

Record QualityCheckpoint := mkCheckpoint {
  checkpointId : Z;
  qc_name : string;
  qc_status : Z;
  unitsInspected : Z;
  defectsFound : Z;
  passRate : float32;
  lastDefect : string;
  passRateTarget : float32;
}.
Definition checkpoint_default : QualityCheckpoint :=
  mkCheckpoint 0 "" 0 0 0 (f32_of_Z 100) "" kDefaultPassRateTarget.

Record WorkUnit := mkWorkUnit {
  workUnitId : string;
  productId : string;
  description : string;
  completedOperations : Z;
  totalOperations : Z;
  throughputUnitsPerHour : float64;
}.
Definition work_unit_default : WorkUnit := mkWorkUnit "" "" "" 0 5 (f64_of_Z 0).

#[export] Instance EquipmentStatus_eq_dec : EqDecision EquipmentStatus.
Proof. solve_decision. Defined.
#[export] Instance ActuatorStatus_eq_dec : EqDecision ActuatorStatus.
Proof. solve_decision. Defined.
#[export] Instance QualityCheckpoint_eq_dec : EqDecision QualityCheckpoint.
Proof. solve_decision. Defined.
#[export] Instance float64_eq_dec : EqDecision float64 := float32_eq_dec.
#[export] Instance WorkUnit_eq_dec : EqDecision WorkUnit.
Proof. solve_decision. Defined.

Record OeeMetrics := mkOee {
  availabilityPct : float32;
  performancePct : float32;
  qualityPct : float32;
  oeePct : float32;
}.

(** The members of [Product] the model reads. *)
Record Product := mkProduct { prod_code : string; prod_name : string }.

Record CheckpointTarget := mkTarget { checkpointName : string; target_rate : float32 }.

Record Recipe := mkRecipe {
  rec_productCode : string;
  rec_totalOperations : Z;
  checkpointTargets : list CheckpointTarget;
}.

Definition kPerformanceTargetUph : float64 := f64_of_Z 100.

(* ------------------------------------------------------------------ *)
(** ** Throughput meter *)

(** Time points and durations are in nanoseconds. *)
Record ThroughputMeter := mkMeter { window_ : Z; completions_ : list Z }.

Definition kDefaultWindow : Z := 120 * 1000000000.
Definition kSecondsPerHour : float64 := f64_of_Z 3600.

Definition meter_init : ThroughputMeter := mkMeter kDefaultWindow [].

Definition recordCompletion (now : Z) (t : ThroughputMeter) : ThroughputMeter :=
  mkMeter (window_ t) (completions_ t ++ [now]).

Fixpoint evict_loop (cutoff : Z) (l : list Z) : list Z :=
  match l with
  | front :: rest => if front <? cutoff then evict_loop cutoff rest else l
  | [] => []
  end.

Definition evictOlderThan (cutoff : Z) (t : ThroughputMeter) : ThroughputMeter :=
  mkMeter (window_ t) (evict_loop cutoff (completions_ t)).

Definition unitsPerHour (now : Z) (t : ThroughputMeter) : float64 * ThroughputMeter :=
  let t := evictOlderThan (now - window_ t) t in
  match completions_ t with
  | front :: (_ :: _) as l =>
      let seconds := f64_div (f64_of_Z (List.last l front - front)) (f64_of_Z 1000000000) in
      if f64_leb seconds (f64_of_Z 0) then (f64_of_Z 0, t)
      else
        let intervals := f64_of_Z (Z.of_nat (length l) - 1) in
        (f64_div (f64_mul intervals kSecondsPerHour) seconds, t)
  | _ => (f64_of_Z 0, t)
  end.

Definition meter_clear (t : ThroughputMeter) : ThroughputMeter := mkMeter (window_ t) [].

(* ------------------------------------------------------------------ *)
(** ** The model *)

Definition kEquipmentCount : Z := 4.
Definition kQualityRateJitter : float32 := f32_lit 3 1.
Definition kMinUnitsPerTick : Z := 1.
Definition kMaxUnitsPerTick : Z := 3.
Definition kQualityRateMin : float32 := f32_of_Z 85.
Definition kQualityRateMax : float32 := f32_of_Z 100.
Definition kSupplyLevelMin : Z := 0.
Definition kSupplyLevelMax : Z := 100.
Definition kEquipmentStatusProcessing : Z := 2.
Definition kEquipmentStatusOnline : Z := 1.
Definition kEquipmentStatusOffline : Z := 0.
Definition kWorkUnitSeqBase : Z := 2024000000.

(** The generator and its two distributions: the next draw and the generator
    after it. *)
Class RandomSource (G : Type) := {
  rateDist : G -> float32 * G;
  unitDist : G -> Z * G;
  rateDist_range : forall g, f32_leb (SpecFloat.SFopp kQualityRateJitter) (fst (rateDist g)) = true /\
                             f32_leb (fst (rateDist g)) kQualityRateJitter = true;
  unitDist_range : forall g, kMinUnitsPerTick <= fst (unitDist g) <= kMaxUnitsPerTick;
}.

(** A subscriber and what it was called with. *)
Inductive delivery :=
| DEquipment (sub : nat) (es : EquipmentStatus)
| DActuator (sub : nat) (s : ActuatorStatus)
| DQuality (sub : nat) (cp : QualityCheckpoint)
| DWorkUnit (sub : nat) (wu : WorkUnit)
| DState (sub : nat) (s : SystemState).

Record Subscribers := mkSubs {
  equipmentCallbacks_ : list nat;
  actuatorCallbacks_ : list nat;
  qualityCallbacks_ : list nat;
  workUnitCallbacks_ : list nat;
  stateCallbacks_ : list nat;
}.

Section Model.
Context {G : Type} `{RG : RandomSource G}.

Record SimulatedModel := mkModel {
  equipmentStatuses_ : smap EquipmentStatus;
  actuatorStatuses_ : smap ActuatorStatus;
  qualityCheckpoints_ : smap QualityCheckpoint;
  externalPassRateOverrides_ : gset Z;
  currentWorkUnit_ : WorkUnit;
  stateMachine_ : StateMachine;
  throughputMeter_ : ThroughputMeter;
  workUnitSequence_ : Z;
  subscribers_ : Subscribers;
  rng_ : G;
  delivered : list delivery;
}.

Definition model_init (g : G) : SimulatedModel :=
  mkModel [] [] [] ∅ work_unit_default sm_init meter_init kWorkUnitSeqBase
          (mkSubs [] [] [] [] []) g [].

Definition set_equipment x (m : SimulatedModel) := mkModel x (actuatorStatuses_ m) (qualityCheckpoints_ m)
  (externalPassRateOverrides_ m) (currentWorkUnit_ m) (stateMachine_ m) (throughputMeter_ m)
  (workUnitSequence_ m) (subscribers_ m) (rng_ m) (delivered m).
Definition set_actuators x (m : SimulatedModel) := mkModel (equipmentStatuses_ m) x (qualityCheckpoints_ m)
  (externalPassRateOverrides_ m) (currentWorkUnit_ m) (stateMachine_ m) (throughputMeter_ m)
  (workUnitSequence_ m) (subscribers_ m) (rng_ m) (delivered m).
Definition set_quality x (m : SimulatedModel) := mkModel (equipmentStatuses_ m) (actuatorStatuses_ m) x
  (externalPassRateOverrides_ m) (currentWorkUnit_ m) (stateMachine_ m) (throughputMeter_ m)
  (workUnitSequence_ m) (subscribers_ m) (rng_ m) (delivered m).
Definition set_overrides x (m : SimulatedModel) := mkModel (equipmentStatuses_ m) (actuatorStatuses_ m) (qualityCheckpoints_ m)
  x (currentWorkUnit_ m) (stateMachine_ m) (throughputMeter_ m)
  (workUnitSequence_ m) (subscribers_ m) (rng_ m) (delivered m).
Definition set_work_unit x (m : SimulatedModel) := mkModel (equipmentStatuses_ m) (actuatorStatuses_ m) (qualityCheckpoints_ m)
  (externalPassRateOverrides_ m) x (stateMachine_ m) (throughputMeter_ m)
  (workUnitSequence_ m) (subscribers_ m) (rng_ m) (delivered m).
Definition set_machine x (m : SimulatedModel) := mkModel (equipmentStatuses_ m) (actuatorStatuses_ m) (qualityCheckpoints_ m)
  (externalPassRateOverrides_ m) (currentWorkUnit_ m) x (throughputMeter_ m)
  (workUnitSequence_ m) (subscribers_ m) (rng_ m) (delivered m).
Definition set_meter x (m : SimulatedModel) := mkModel (equipmentStatuses_ m) (actuatorStatuses_ m) (qualityCheckpoints_ m)
  (externalPassRateOverrides_ m) (currentWorkUnit_ m) (stateMachine_ m) x
  (workUnitSequence_ m) (subscribers_ m) (rng_ m) (delivered m).
Definition set_sequence x (m : SimulatedModel) := mkModel (equipmentStatuses_ m) (actuatorStatuses_ m) (qualityCheckpoints_ m)
  (externalPassRateOverrides_ m) (currentWorkUnit_ m) (stateMachine_ m) (throughputMeter_ m)
  x (subscribers_ m) (rng_ m) (delivered m).
Definition set_subscribers x (m : SimulatedModel) := mkModel (equipmentStatuses_ m) (actuatorStatuses_ m) (qualityCheckpoints_ m)
  (externalPassRateOverrides_ m) (currentWorkUnit_ m) (stateMachine_ m) (throughputMeter_ m)
  (workUnitSequence_ m) x (rng_ m) (delivered m).
Definition set_rng x (m : SimulatedModel) := mkModel (equipmentStatuses_ m) (actuatorStatuses_ m) (qualityCheckpoints_ m)
  (externalPassRateOverrides_ m) (currentWorkUnit_ m) (stateMachine_ m) (throughputMeter_ m)
  (workUnitSequence_ m) (subscribers_ m) x (delivered m).
Definition deliver (l : list delivery) (m : SimulatedModel) := mkModel (equipmentStatuses_ m) (actuatorStatuses_ m) (qualityCheckpoints_ m)
  (externalPassRateOverrides_ m) (currentWorkUnit_ m) (stateMachine_ m) (throughputMeter_ m)
  (workUnitSequence_ m) (subscribers_ m) (rng_ m) (delivered m ++ l).

(** Members of the work unit and of table entries. *)
Definition wu_completed x (w : WorkUnit) :=
  mkWorkUnit (workUnitId w) (productId w) (description w) x (totalOperations w) (throughputUnitsPerHour w).
Definition wu_throughput x (w : WorkUnit) :=
  mkWorkUnit (workUnitId w) (productId w) (description w) (completedOperations w) (totalOperations w) x.
Definition es_status x (e : EquipmentStatus) := mkEquipment (equipmentId e) x (supplyLevel e) (eq_message e).
Definition es_supply x (e : EquipmentStatus) := mkEquipment (equipmentId e) (eq_status e) x (eq_message e).
Definition cp_rate x (c : QualityCheckpoint) := mkCheckpoint (checkpointId c) (qc_name c) (qc_status c)
  (unitsInspected c) (defectsFound c) x (lastDefect c) (passRateTarget c).
Definition cp_units x (c : QualityCheckpoint) := mkCheckpoint (checkpointId c) (qc_name c) (qc_status c)
  x (defectsFound c) (passRate c) (lastDefect c) (passRateTarget c).
Definition cp_reset (c : QualityCheckpoint) := mkCheckpoint (checkpointId c) (qc_name c) (qc_status c)
  0 0 (passRate c) (lastDefect c) (passRateTarget c).
Definition cp_target x (c : QualityCheckpoint) := mkCheckpoint (checkpointId c) (qc_name c) (qc_status c)
  (unitsInspected c) (defectsFound c) (passRate c) (lastDefect c) x.

(* ------------------------------------------------------------------ *)
(** ** Notifications *)

Definition notifyEquipmentChange (id : Z) (m : SimulatedModel) : SimulatedModel :=
  match sm_get id (equipmentStatuses_ m) with
  | None => m
  | Some es => deliver (map (fun cb => DEquipment cb es) (equipmentCallbacks_ (subscribers_ m))) m
  end.

Definition notifyActuatorChange (id : Z) (m : SimulatedModel) : SimulatedModel :=
  match sm_get id (actuatorStatuses_ m) with
  | None => m
  | Some s => deliver (map (fun cb => DActuator cb s) (actuatorCallbacks_ (subscribers_ m))) m
  end.

(** [qualityCheckpoints_[id]] inserts a default entry when there is none. *)
Definition notifyQualityChange (id : Z) (m : SimulatedModel) : SimulatedModel :=
  let m := set_quality (sm_update id checkpoint_default (fun c => c) (qualityCheckpoints_ m)) m in
  let cp := default checkpoint_default (sm_get id (qualityCheckpoints_ m)) in
  deliver (map (fun cb => DQuality cb cp) (qualityCallbacks_ (subscribers_ m))) m.

Definition notifyWorkUnitChange (m : SimulatedModel) : SimulatedModel :=
  deliver (map (fun cb => DWorkUnit cb (currentWorkUnit_ m)) (workUnitCallbacks_ (subscribers_ m))) m.

Definition notifyStateChange (m : SimulatedModel) : SimulatedModel :=
  deliver (map (fun cb => DState cb (currentState (stateMachine_ m))) (stateCallbacks_ (subscribers_ m))) m.

(** [for (id : ids) notify(id)]. *)
Definition notify_each (f : Z -> SimulatedModel -> SimulatedModel) (ids : list Z) (m : SimulatedModel) :
    SimulatedModel := fold_left (fun m id => f id m) ids m.

(** A command of the state machine: its observer, installed by the
    constructor, calls [notifyStateChange] once per notification. *)
Definition sm_dispatch (c : StateMachine -> StateMachine) (m : SimulatedModel) : SimulatedModel :=
  let before := stateMachine_ m in
  let m := set_machine (c before) m in
  fold_left (fun m _ => notifyStateChange m) (drop (length (notified before)) (notified (stateMachine_ m))) m.

(* ------------------------------------------------------------------ *)
(** ** Operations *)

Definition onEquipmentStatusChanged (cb : nat) (m : SimulatedModel) :=
  let s := subscribers_ m in
  set_subscribers (mkSubs (equipmentCallbacks_ s ++ [cb]) (actuatorCallbacks_ s) (qualityCallbacks_ s)
                          (workUnitCallbacks_ s) (stateCallbacks_ s)) m.
Definition onActuatorStatusChanged (cb : nat) (m : SimulatedModel) :=
  let s := subscribers_ m in
  set_subscribers (mkSubs (equipmentCallbacks_ s) (actuatorCallbacks_ s ++ [cb]) (qualityCallbacks_ s)
                          (workUnitCallbacks_ s) (stateCallbacks_ s)) m.
Definition onQualityCheckpointChanged (cb : nat) (m : SimulatedModel) :=
  let s := subscribers_ m in
  set_subscribers (mkSubs (equipmentCallbacks_ s) (actuatorCallbacks_ s) (qualityCallbacks_ s ++ [cb])
                          (workUnitCallbacks_ s) (stateCallbacks_ s)) m.
Definition onWorkUnitChanged (cb : nat) (m : SimulatedModel) :=
  let s := subscribers_ m in
  set_subscribers (mkSubs (equipmentCallbacks_ s) (actuatorCallbacks_ s) (qualityCallbacks_ s)
                          (workUnitCallbacks_ s ++ [cb]) (stateCallbacks_ s)) m.
Definition onSystemStateChanged (cb : nat) (m : SimulatedModel) :=
  let s := subscribers_ m in
  set_subscribers (mkSubs (equipmentCallbacks_ s) (actuatorCallbacks_ s) (qualityCallbacks_ s)
                          (workUnitCallbacks_ s) (stateCallbacks_ s ++ [cb])) m.
Definition clearCallbacks (m : SimulatedModel) := set_subscribers (mkSubs [] [] [] [] []) m.

Definition simulateProductionCycle (m : SimulatedModel) : SimulatedModel :=
  let wu := currentWorkUnit_ m in
  if completedOperations wu <? totalOperations wu then
    let m := set_work_unit (wu_completed (completedOperations wu + 1) wu) m in
    let m := notifyWorkUnitChange m in
    let kBLineId := 1 in
    let m := set_equipment (sm_update kBLineId equipment_default (es_status kEquipmentStatusProcessing)
                              (equipmentStatuses_ m)) m in
    notifyEquipmentChange kBLineId m
  else m.

Definition startProduction (m : SimulatedModel) : SimulatedModel :=
  simulateProductionCycle (sm_dispatch sys_start m).

Definition stopProduction (m : SimulatedModel) : SimulatedModel := sm_dispatch sys_stop m.

Definition resetSystem (m : SimulatedModel) : SimulatedModel :=
  let m := sm_dispatch sys_reset m in
  let m := set_work_unit (wu_completed 0 (currentWorkUnit_ m)) m in
  let m := set_meter (meter_clear (throughputMeter_ m)) m in
  let m := set_work_unit (wu_throughput (f64_of_Z 0) (currentWorkUnit_ m)) m in
  notifyWorkUnitChange m.

Definition startCalibration (m : SimulatedModel) : SimulatedModel := sm_dispatch sys_calibrate m.

Definition triggerFault (reason : string) (m : SimulatedModel) : SimulatedModel := sm_dispatch (sys_fault reason) m.

Definition model_setEquipmentEnabled (m : SimulatedModel) (id : Z) (enabled : bool) : SimulatedModel :=
  if kEquipmentCount <=? id then m
  else
    let st := if enabled then kEquipmentStatusOnline else kEquipmentStatusOffline in
    notifyEquipmentChange id
      (set_equipment (sm_update id equipment_default (es_status st) (equipmentStatuses_ m)) m).

(** [std::clamp] on [int]. *)
Definition int_clamp (v lo hi : Z) : Z := if v <? lo then lo else if hi <? v then hi else v.

Definition model_setEquipmentSupplyLevel (m : SimulatedModel) (id level : Z) : SimulatedModel :=
  if kEquipmentCount <=? id then m
  else
    let clamped := int_clamp level kSupplyLevelMin kSupplyLevelMax in
    notifyEquipmentChange id
      (set_equipment (sm_update id equipment_default (es_supply clamped) (equipmentStatuses_ m)) m).

Definition model_setQualityPassRate (m : SimulatedModel) (id : Z) (rate : float32) : SimulatedModel :=
  if negb (sm_count id (qualityCheckpoints_ m)) then m
  else
    let clamped := f32_clamp rate kQualityRateMin kQualityRateMax in
    let m := set_quality (sm_update id checkpoint_default (cp_rate clamped) (qualityCheckpoints_ m)) m in
    let m := set_overrides ({[id]} ∪ externalPassRateOverrides_ m) m in
    notifyQualityChange id m.

(** The checkpoint loop of [loadProduct]: the first target of the
    checkpoint's name. *)
Definition load_checkpoint (recipe : Recipe) (cp : QualityCheckpoint) : QualityCheckpoint :=
  let cp := cp_reset cp in
  match List.find (fun t => String.eqb (checkpointName t) (qc_name cp)) (checkpointTargets recipe) with
  | Some t => cp_target (target_rate t) cp
  | None => cp
  end.

Definition loadProduct (product : Product) (recipe : Recipe) (m : SimulatedModel) : SimulatedModel :=
  let seq := u64 (workUnitSequence_ m + 1) in
  let id := ("WU-" ++ pretty seq)%string in
  let m := set_sequence seq m in
  let m := set_work_unit (mkWorkUnit id (prod_code product) ("Batch " ++ id ++ " | " ++ prod_name product)
                            0 (rec_totalOperations recipe) (f64_of_Z 0)) m in
  let m := set_meter (meter_clear (throughputMeter_ m)) m in
  let m := set_quality (sm_map (fun _ => load_checkpoint recipe) (qualityCheckpoints_ m)) m in
  let m := notifyWorkUnitChange m in
  notify_each notifyQualityChange (sm_keys (qualityCheckpoints_ m)) m.

Definition getState (m : SimulatedModel) : SystemState := currentState (stateMachine_ m).
Definition model_lastFaultReason (m : SimulatedModel) : string := lastFaultReason (stateMachine_ m).

Definition getQualityCheckpoint (m : SimulatedModel) (id : Z) : outcome QualityCheckpoint :=
  match sm_get id (qualityCheckpoints_ m) with Some cp => Ret cp | None => Throw out_of_range end.

Definition getQualityCheckpoints (m : SimulatedModel) : list QualityCheckpoint := map snd (qualityCheckpoints_ m).

Definition getWorkUnit (m : SimulatedModel) : WorkUnit := currentWorkUnit_ m.

Definition oeeSnapshot (m : SimulatedModel) : OeeMetrics :=
  let f100 := f32_of_Z 100 in
  let availability :=
    match equipmentStatuses_ m with
    | [] => f32_of_Z 0
    | es =>
        let available := length (filter (fun e => eq_status (snd e) = kEquipmentStatusOnline \/
                                                  eq_status (snd e) = kEquipmentStatusProcessing) es) in
        f32_div (f32_mul (f32_of_Z (Z.of_nat available)) f100) (f32_of_Z (Z.of_nat (length es)))
    end in
  let throughput := throughputUnitsPerHour (currentWorkUnit_ m) in
  let perfRatio := if f64_ltb (f64_of_Z 0) throughput
                   then f64_div throughput kPerformanceTargetUph else f64_of_Z 0 in
  let performance := f32_of_f64 (f64_mul (f64_min perfRatio (f64_of_Z 1)) (f64_of_Z 100)) in
  let quality :=
    match qualityCheckpoints_ m with
    | [] => f32_of_Z 0
    | qs =>
        let sum := fold_left (fun s e => f32_add s (passRate (snd e))) qs (f32_of_Z 0) in
        f32_div sum (f32_of_Z (Z.of_nat (length qs)))
    end in
  let oee := f32_mul (f32_mul (f32_mul (f32_div availability f100) (f32_div performance f100))
                              (f32_div quality f100)) f100 in
  mkOee availability performance quality oee.

(** [a += b] on [int]. *)
Definition int_add (a b : Z) : outcome Z :=
  if (int_min <=? a + b) && (a + b <=? int_max) then Ret (a + b) else Undef.

(** The checkpoint loop of [tickSimulation]. *)
Fixpoint tick_checkpoints (overrides : gset Z) (l : smap QualityCheckpoint) (g : G) :
    outcome (smap QualityCheckpoint * G) :=
  match l with
  | [] => Ret ([], g)
  | (id, cp) :: l =>
      let '(cp, g) :=
        if decide (id ∈ overrides) then (cp, g)
        else let '(jitter, g) := rateDist g in
             (cp_rate (f32_clamp (f32_add (passRate cp) jitter) kQualityRateMin kQualityRateMax) cp, g) in
      let '(units, g) := unitDist g in
      inspected ← int_add (unitsInspected cp) units;
      '(rest, g) ← tick_checkpoints overrides l g;
      Ret ((id, cp_units inspected cp) :: rest, g)
  end.

(** [tickSimulation] at the clock reading [now]. *)
Definition tickSimulation (now : Z) (m : SimulatedModel) : outcome SimulatedModel :=
  '(qs, g) ← tick_checkpoints (externalPassRateOverrides_ m) (qualityCheckpoints_ m) (rng_ m);
  let m := set_rng g (set_quality qs m) in
  let wu := currentWorkUnit_ m in
  let m :=
    if completedOperations wu <? totalOperations wu
    then set_work_unit (wu_completed (completedOperations wu + 1) wu) m
    else set_meter (recordCompletion now (throughputMeter_ m)) (set_work_unit (wu_completed 0 wu) m) in
  let '(uph, meter) := unitsPerHour now (throughputMeter_ m) in
  let m := set_work_unit (wu_throughput uph (currentWorkUnit_ m)) (set_meter meter m) in
  Ret (notifyWorkUnitChange (notify_each notifyQualityChange (sm_keys (qualityCheckpoints_ m)) m)).

Definition republishAll (m : SimulatedModel) : SimulatedModel :=
  let equipmentIds := sm_keys (equipmentStatuses_ m) in
  let actuatorIds := sm_keys (actuatorStatuses_ m) in
  let qualityIds := sm_keys (qualityCheckpoints_ m) in
  let m := notify_each notifyEquipmentChange equipmentIds m in
  let m := notify_each notifyActuatorChange actuatorIds m in
  let m := notify_each notifyQualityChange qualityIds m in
  notifyStateChange (notifyWorkUnitChange m).

Definition demo_equipment (es : smap EquipmentStatus) : smap EquipmentStatus :=
  sm_set 2 (mkEquipment 2 0 0 "Standby")
    (sm_set 1 (mkEquipment 1 1 95 "Film coating")
      (sm_set 0 (mkEquipment 0 2 85 "85K tablets/hr") es)).

Definition demo_actuators (s : smap ActuatorStatus) : smap ActuatorStatus :=
  sm_set 1 (mkActuator 1 0 0 0 true true) (sm_set 0 (mkActuator 0 1 150 200 true false) s).

Definition demo_quality (qs : smap QualityCheckpoint) : smap QualityCheckpoint :=
  sm_set 2 (mkCheckpoint 2 "Final Inspection" 1 645 45 (f32_of_Z 93) "Coating uneven" kDefaultPassRateTarget)
    (sm_set 1 (mkCheckpoint 1 "Hardness Test" 0 645 28 (f32_lit 957 1) "Soft tablet (65N)" kDefaultPassRateTarget)
      (sm_set 0 (mkCheckpoint 0 "Weight Check" 0 645 12 (f32_lit 981 1) "Underweight" kDefaultPassRateTarget) qs)).

Definition initializeDemoData (m : SimulatedModel) : SimulatedModel :=
  let m := set_equipment (demo_equipment (equipmentStatuses_ m)) m in
  let m := set_actuators (demo_actuators (actuatorStatuses_ m)) m in
  let m := set_quality (demo_quality (qualityCheckpoints_ m)) m in
  let m := set_work_unit (mkWorkUnit "WU-2024-001234" "TAB-200" "Batch WU-2024-001234 | TAB-200" 3 5 (f64_of_Z 0)) m in
  let m := sm_dispatch sys_reset m in
  let m := notify_each notifyEquipmentChange (sm_keys (equipmentStatuses_ m)) m in
  let m := notify_each notifyActuatorChange (sm_keys (actuatorStatuses_ m)) m in
  let m := notify_each notifyQualityChange (sm_keys (qualityCheckpoints_ m)) m in
  notifyStateChange (notifyWorkUnitChange m).
End Model.
Arguments SimulatedModel G : clear implicits.

(* ------------------------------------------------------------------ *)
(** ** Operations as data *)

Inductive model_op :=
| OnEquipment (cb : nat) | OnActuator (cb : nat) | OnQuality (cb : nat) | OnWorkUnit (cb : nat) | OnState (cb : nat)
| ClearCallbacks
| StartProduction | StopProduction | ResetSystem | StartCalibration | TriggerFault (reason : string)
| SetEquipmentEnabled (id : Z) (enabled : bool)
| SetEquipmentSupplyLevel (id level : Z)
| SetQualityPassRate (id : Z) (rate : float32)
| LoadProduct (product : Product) (recipe : Recipe)
| TickSimulation (now : Z)
| NotifyQuality (id : Z)
| RepublishAll
| InitializeDemoData.

(** Arguments within their types. *)
Definition op_ok (o : model_op) : Prop :=
  match o with
  | SetEquipmentEnabled id _ | SetEquipmentSupplyLevel id _ | SetQualityPassRate id _ | NotifyQuality id => is_u32 id
  | _ => True
  end.

Section Operations.
Context {G : Type} `{RG : RandomSource G}.
Implicit Types m : SimulatedModel G.

Definition op_apply (o : model_op) m : outcome (SimulatedModel G) :=
  match o with
  | OnEquipment cb => Ret (onEquipmentStatusChanged cb m)
  | OnActuator cb => Ret (onActuatorStatusChanged cb m)
  | OnQuality cb => Ret (onQualityCheckpointChanged cb m)
  | OnWorkUnit cb => Ret (onWorkUnitChanged cb m)
  | OnState cb => Ret (onSystemStateChanged cb m)
  | ClearCallbacks => Ret (clearCallbacks m)
  | StartProduction => Ret (startProduction m)
  | StopProduction => Ret (stopProduction m)
  | ResetSystem => Ret (resetSystem m)
  | StartCalibration => Ret (startCalibration m)
  | TriggerFault r => Ret (triggerFault r m)
  | SetEquipmentEnabled id b => Ret (model_setEquipmentEnabled m id b)
  | SetEquipmentSupplyLevel id n => Ret (model_setEquipmentSupplyLevel m id n)
  | SetQualityPassRate id r => Ret (model_setQualityPassRate m id r)
  | LoadProduct p r => Ret (loadProduct p r m)
  | TickSimulation now => tickSimulation now m
  | NotifyQuality id => Ret (notifyQualityChange id m)
  | RepublishAll => Ret (republishAll m)
  | InitializeDemoData => Ret (initializeDemoData m)
  end.

Fixpoint model_run (l : list model_op) m : outcome (SimulatedModel G) :=
  match l with
  | [] => Ret m
  | o :: l => m ← op_apply o m; model_run l m
  end.

(* ------------------------------------------------------------------ *)
(** ** Specification *)

Definition rate_ok (r : float32) : Prop := f32_ltb r kQualityRateMin = false /\ f32_ltb kQualityRateMax r = false.

(** From 85 to 100, and a number. *)
Definition rate_within (r : float32) : Prop := f32_leb kQualityRateMin r = true /\ f32_leb r kQualityRateMax = true.

(** A model after at most [n] operations. *)
Record model_ok (n : Z) m : Prop := {
  mo_equipment : sm_ok (equipmentStatuses_ m);
  mo_actuators : sm_ok (actuatorStatuses_ m);
  mo_quality : sm_ok (qualityCheckpoints_ m);
  mo_machine : sys_inv (stateMachine_ m);
  mo_lines : sm_all (fun id e => 0 <= id < kEquipmentCount /\ 0 <= supplyLevel e <= 100 /\ 0 <= eq_status e <= 2)
               (equipmentStatuses_ m);
  mo_rates : sm_all (fun _ c => rate_ok (passRate c) /\ 0 <= unitsInspected c <= 645 + 3 * n) (qualityCheckpoints_ m);
  mo_work : 0 <= completedOperations (currentWorkUnit_ m) <= Z.max 0 (totalOperations (currentWorkUnit_ m));
  mo_sequence : 0 <= workUnitSequence_ m < 18446744073709551616;
}.

(** Every subscriber of a kind was called with [x] among the deliveries
    [news]. *)
Definition told (mk : nat -> delivery) (cbs : list nat) (news : list delivery) : Prop :=
  Forall (fun cb => mk cb ∈ news) cbs.

(** What changed from [m] to [m'] was delivered, with its new value, to every
    subscriber of [m]. *)
Record tells_changes m m' : Prop := {
  tc_news : exists news, delivered m' = delivered m ++ news /\
    (forall id e, sm_get id (equipmentStatuses_ m') = Some e -> sm_get id (equipmentStatuses_ m) <> Some e ->
       told (fun cb => DEquipment cb e) (equipmentCallbacks_ (subscribers_ m)) news) /\
    (forall id a, sm_get id (actuatorStatuses_ m') = Some a -> sm_get id (actuatorStatuses_ m) <> Some a ->
       told (fun cb => DActuator cb a) (actuatorCallbacks_ (subscribers_ m)) news) /\
    (forall id c, sm_get id (qualityCheckpoints_ m') = Some c -> sm_get id (qualityCheckpoints_ m) <> Some c ->
       told (fun cb => DQuality cb c) (qualityCallbacks_ (subscribers_ m)) news) /\
    (currentWorkUnit_ m' <> currentWorkUnit_ m ->
       told (fun cb => DWorkUnit cb (currentWorkUnit_ m')) (workUnitCallbacks_ (subscribers_ m)) news) /\
    (getState m' <> getState m ->
       told (fun cb => DState cb (getState m')) (stateCallbacks_ (subscribers_ m)) news);
}.

(* ------------------------------------------------------------------ *)
(** ** Notification equations *)

Definition equipment_news m id : list delivery :=
  match sm_get id (equipmentStatuses_ m) with
  | None => []
  | Some es => map (fun cb => DEquipment cb es) (equipmentCallbacks_ (subscribers_ m))
  end.
Definition actuator_news m id : list delivery :=
  match sm_get id (actuatorStatuses_ m) with
  | None => []
  | Some s => map (fun cb => DActuator cb s) (actuatorCallbacks_ (subscribers_ m))
  end.
Definition quality_news m id : list delivery :=
  match sm_get id (qualityCheckpoints_ m) with
  | None => []
  | Some c => map (fun cb => DQuality cb c) (qualityCallbacks_ (subscribers_ m))
  end.
Definition work_unit_news m : list delivery :=
  map (fun cb => DWorkUnit cb (currentWorkUnit_ m)) (workUnitCallbacks_ (subscribers_ m)).
Definition state_news m : list delivery :=
  map (fun cb => DState cb (getState m)) (stateCallbacks_ (subscribers_ m)).

Lemma deliver_nil m : deliver [] m = m.
Proof. destruct m. unfold deliver. cbn. rewrite app_nil_r. reflexivity. Qed.

Lemma deliver_deliver l1 l2 m : deliver l2 (deliver l1 m) = deliver (l1 ++ l2) m.
Proof. unfold deliver. cbn. rewrite <- app_assoc. reflexivity. Qed.

Lemma notify_equipment_eq id m : notifyEquipmentChange id m = deliver (equipment_news m id) m.
Proof.
  unfold notifyEquipmentChange, equipment_news. destruct (sm_get id (equipmentStatuses_ m)); [reflexivity|].
  rewrite deliver_nil. reflexivity.
Qed.

Lemma notify_actuator_eq id m : notifyActuatorChange id m = deliver (actuator_news m id) m.
Proof.
  unfold notifyActuatorChange, actuator_news. destruct (sm_get id (actuatorStatuses_ m)); [reflexivity|].
  rewrite deliver_nil. reflexivity.
Qed.

Lemma set_quality_same m : set_quality (qualityCheckpoints_ m) m = m.
Proof. destruct m. reflexivity. Qed.

Lemma notify_quality_eq id m :
  sm_ok (qualityCheckpoints_ m) -> id ∈ sm_keys (qualityCheckpoints_ m) ->
  notifyQualityChange id m = deliver (quality_news m id) m.
Proof.
  intros Hok Hin. unfold notifyQualityChange, quality_news.
  destruct (sm_keys_get _ _ Hok Hin) as [c Hc].
  rewrite (sm_update_same _ _ _ c Hok Hc), set_quality_same, Hc. reflexivity.
Qed.

Lemma notify_each_eq (f : Z -> SimulatedModel G -> SimulatedModel G) (h : SimulatedModel G -> Z -> list delivery) (P : Z -> Prop) ids m :
  (forall l id, P id -> f id (deliver l m) = deliver (h m id) (deliver l m)) ->
  Forall P ids -> notify_each f ids m = deliver (flat_map (h m) ids) m.
Proof.
  intros Hf Hids. unfold notify_each.
  assert (Hgen : forall l, fold_left (fun m id => f id m) ids (deliver l m) = deliver (l ++ flat_map (h m) ids) m).
  { induction Hids as [|id ids Hid _ IH]; intros l; cbn [fold_left flat_map]; [rewrite app_nil_r; reflexivity|].
    rewrite Hf by exact Hid. rewrite deliver_deliver, IH, <- app_assoc. reflexivity. }
  specialize (Hgen []). rewrite deliver_nil in Hgen. exact Hgen.
Qed.

Lemma fold_notify_state (l : list SystemState) m :
  fold_left (fun m _ => notifyStateChange m) l m = deliver (flat_map (fun _ => state_news m) l) m.
Proof.
  assert (H : forall l acc, fold_left (fun m _ => notifyStateChange m) l (deliver acc m) =
                          deliver (acc ++ flat_map (fun _ : SystemState => state_news m) l) m).
  { clear l. induction l as [|x l IH]; intros acc; cbn [fold_left flat_map]; [rewrite app_nil_r; reflexivity|].
    unfold notifyStateChange at 2. rewrite deliver_deliver, IH, <- app_assoc. reflexivity. }
  specialize (H l []). rewrite deliver_nil in H. exact H.
Qed.

(** A command of the state machine notifies exactly when the state changes. *)
Lemma sm_dispatch_eq c m :
  sys_inv (stateMachine_ m) ->
  let m1 := set_machine (sys_apply (stateMachine_ m) c) m in
  sm_dispatch (fun s => sys_apply s c) m =
    deliver (if decide (getState m1 = getState m) then [] else state_news m1) m1.
Proof.
  intros Hi m1. destruct (sys_apply_spec _ c Hi) as (_ & Hs & _ & Hn).
  unfold sm_dispatch. rewrite fold_notify_state. fold m1. f_equal.
  assert (Hst : getState m1 = lifecycle (getState m) c) by exact Hs.
  change (notified (stateMachine_ m1)) with (notified (sys_apply (stateMachine_ m) c)). rewrite Hn, drop_app_length. cbn [changes].
  change (currentState (stateMachine_ m)) with (getState m). rewrite <- Hst.
  case_decide; [reflexivity|]. cbn. apply app_nil_r.
Qed.

(** [told]. *)
Lemma told_map mk cbs : told mk cbs (map mk cbs).
Proof. apply Forall_forall. intros cb H. apply list_elem_of_fmap_2. exact H. Qed.
Lemma told_app_l mk cbs l1 l2 : told mk cbs l1 -> told mk cbs (l1 ++ l2).
Proof. intros H. eapply Forall_impl; [exact H|]. intros cb. rewrite elem_of_app. auto. Qed.
Lemma told_app_r mk cbs l1 l2 : told mk cbs l2 -> told mk cbs (l1 ++ l2).
Proof. intros H. eapply Forall_impl; [exact H|]. intros cb. rewrite elem_of_app. auto. Qed.
Lemma told_flat {A} mk cbs (h : A -> list delivery) x l : x ∈ l -> told mk cbs (h x) -> told mk cbs (flat_map h l).
Proof.
  intros Hx. induction l as [|y l IH]; [inversion Hx|]. intros Ht. cbn.
  apply elem_of_cons in Hx as [->|Hx]; auto using told_app_l, told_app_r.
Qed.

Lemma told_equipment m id e :
  sm_get id (equipmentStatuses_ m) = Some e ->
  told (fun cb => DEquipment cb e) (equipmentCallbacks_ (subscribers_ m)) (equipment_news m id).
Proof. unfold equipment_news. intros ->. apply told_map. Qed.
Lemma told_actuator m id e :
  sm_get id (actuatorStatuses_ m) = Some e ->
  told (fun cb => DActuator cb e) (actuatorCallbacks_ (subscribers_ m)) (actuator_news m id).
Proof. unfold actuator_news. intros ->. apply told_map. Qed.
Lemma told_quality m id c :
  sm_get id (qualityCheckpoints_ m) = Some c ->
  told (fun cb => DQuality cb c) (qualityCallbacks_ (subscribers_ m)) (quality_news m id).
Proof. unfold quality_news. intros ->. apply told_map. Qed.

Lemma told_all_equipment m id e :
  sm_get id (equipmentStatuses_ m) = Some e ->
  told (fun cb => DEquipment cb e) (equipmentCallbacks_ (subscribers_ m))
    (flat_map (equipment_news m) (sm_keys (equipmentStatuses_ m))).
Proof. intros H. eapply told_flat; [eapply sm_get_key; exact H|apply told_equipment; exact H]. Qed.
Lemma told_all_actuators m id e :
  sm_get id (actuatorStatuses_ m) = Some e ->
  told (fun cb => DActuator cb e) (actuatorCallbacks_ (subscribers_ m))
    (flat_map (actuator_news m) (sm_keys (actuatorStatuses_ m))).
Proof. intros H. eapply told_flat; [eapply sm_get_key; exact H|apply told_actuator; exact H]. Qed.
Lemma told_all_quality m id c :
  sm_get id (qualityCheckpoints_ m) = Some c ->
  told (fun cb => DQuality cb c) (qualityCallbacks_ (subscribers_ m))
    (flat_map (quality_news m) (sm_keys (qualityCheckpoints_ m))).
Proof. intros H. eapply told_flat; [eapply sm_get_key; exact H|apply told_quality; exact H]. Qed.

(** The notification loops over whole tables. *)
Lemma notify_all_equipment m :
  notify_each notifyEquipmentChange (sm_keys (equipmentStatuses_ m)) m =
    deliver (flat_map (equipment_news m) (sm_keys (equipmentStatuses_ m))) m.
Proof.
  apply (notify_each_eq _ _ (fun _ => True)); [|apply Forall_forall; auto].
  intros l id _. rewrite notify_equipment_eq. reflexivity.
Qed.
Lemma notify_all_actuators m :
  notify_each notifyActuatorChange (sm_keys (actuatorStatuses_ m)) m =
    deliver (flat_map (actuator_news m) (sm_keys (actuatorStatuses_ m))) m.
Proof.
  apply (notify_each_eq _ _ (fun _ => True)); [|apply Forall_forall; auto].
  intros l id _. rewrite notify_actuator_eq. reflexivity.
Qed.
Lemma notify_all_quality m :
  sm_ok (qualityCheckpoints_ m) ->
  notify_each notifyQualityChange (sm_keys (qualityCheckpoints_ m)) m =
    deliver (flat_map (quality_news m) (sm_keys (qualityCheckpoints_ m))) m.
Proof.
  intros Hok. apply (notify_each_eq _ _ (fun id => id ∈ sm_keys (qualityCheckpoints_ m)));
    [|apply Forall_forall; auto].
  intros l id Hid. rewrite notify_quality_eq by assumption. reflexivity.
Qed.

(** The notifications of [republishAll] and [initializeDemoData]. *)
Lemma republish_eq m :
  sm_ok (qualityCheckpoints_ m) ->
  notifyStateChange (notifyWorkUnitChange
    (notify_each notifyQualityChange (sm_keys (qualityCheckpoints_ m))
      (notify_each notifyActuatorChange (sm_keys (actuatorStatuses_ m))
        (notify_each notifyEquipmentChange (sm_keys (equipmentStatuses_ m)) m)))) =
  deliver (flat_map (equipment_news m) (sm_keys (equipmentStatuses_ m)) ++
           flat_map (actuator_news m) (sm_keys (actuatorStatuses_ m)) ++
           flat_map (quality_news m) (sm_keys (qualityCheckpoints_ m)) ++
           work_unit_news m ++ state_news m) m.
Proof.
  intros Hok. rewrite notify_all_equipment.
  change (sm_keys (actuatorStatuses_ m)) with (sm_keys (actuatorStatuses_
    (deliver (flat_map (equipment_news m) (sm_keys (equipmentStatuses_ m))) m))) at 1.
  rewrite notify_all_actuators, deliver_deliver.
  match goal with |- context [notify_each _ _ (deliver ?l m)] =>
    change (sm_keys (qualityCheckpoints_ m)) with (sm_keys (qualityCheckpoints_ (deliver l m))) at 1;
    rewrite (notify_all_quality (deliver l m) Hok), deliver_deliver end.
  unfold notifyStateChange, notifyWorkUnitChange. rewrite !deliver_deliver, <- !app_assoc. reflexivity.
Qed.

(* ------------------------------------------------------------------ *)
(** ** One operation *)

Lemma ok_deliver n l m : model_ok n m -> model_ok n (deliver l m).
Proof. intros []. split; assumption. Qed.

Lemma ok_mono n n' m : model_ok n m -> n <= n' -> model_ok n' m.
Proof.
  intros [] Hn. split; auto. intros id c Hc. destruct (mo_rates0 id c Hc). split; [assumption|lia].
Qed.

Lemma tells_deliver m m1 news :
  delivered m1 = delivered m ->
  (forall id e, sm_get id (equipmentStatuses_ m1) = Some e -> sm_get id (equipmentStatuses_ m) <> Some e ->
     told (fun cb => DEquipment cb e) (equipmentCallbacks_ (subscribers_ m)) news) ->
  (forall id a, sm_get id (actuatorStatuses_ m1) = Some a -> sm_get id (actuatorStatuses_ m) <> Some a ->
     told (fun cb => DActuator cb a) (actuatorCallbacks_ (subscribers_ m)) news) ->
  (forall id c, sm_get id (qualityCheckpoints_ m1) = Some c -> sm_get id (qualityCheckpoints_ m) <> Some c ->
     told (fun cb => DQuality cb c) (qualityCallbacks_ (subscribers_ m)) news) ->
  (currentWorkUnit_ m1 <> currentWorkUnit_ m ->
     told (fun cb => DWorkUnit cb (currentWorkUnit_ m1)) (workUnitCallbacks_ (subscribers_ m)) news) ->
  (getState m1 <> getState m ->
     told (fun cb => DState cb (getState m1)) (stateCallbacks_ (subscribers_ m)) news) ->
  tells_changes m (deliver news m1).
Proof. intros Hd He Ha Hq Hw Hs. split. exists news. cbn. rewrite Hd. split_and!; auto. Qed.

(** [nochange]: a table the operation leaves alone. *)
Ltac nochange := unfold getState; cbn; intros; exfalso; congruence.

Lemma tells_silent m m1 :
  delivered m1 = delivered m -> equipmentStatuses_ m1 = equipmentStatuses_ m ->
  actuatorStatuses_ m1 = actuatorStatuses_ m -> qualityCheckpoints_ m1 = qualityCheckpoints_ m ->
  currentWorkUnit_ m1 = currentWorkUnit_ m -> stateMachine_ m1 = stateMachine_ m ->
  tells_changes m m1.
Proof.
  intros Hd He Ha Hq Hw Hs. rewrite <- (deliver_nil m1).
  apply tells_deliver; auto; rewrite ?He, ?Ha, ?Hq, ?Hw; unfold getState; rewrite ?Hs; nochange.
Qed.

(** A table entry updated through [operator[]]. *)
Lemma updated_entry {A} id d (f : A -> A) t id' e :
  sm_ok t -> sm_get id' (sm_update id d f t) = Some e -> sm_get id' t <> Some e -> id' = id.
Proof.
  intros Hok Hg Hne. destruct (Z.eq_dec id' id) as [|Hid]; [assumption|].
  unfold sm_update in Hg. rewrite sm_get_set_ne in Hg by assumption. congruence.
Qed.

Definition step_good (n : Z) m m' : Prop := model_ok n m' /\ tells_changes m m'.

Lemma subscribe_good n m s : model_ok n m -> step_good n m (set_subscribers s m).
Proof.
  intros H. split; [|apply tells_silent; reflexivity].
  apply (ok_mono n); [|lia]. destruct H. split; assumption.
Qed.

Lemma machine_ok n m c : model_ok n m -> model_ok n (set_machine (sys_apply (stateMachine_ m) c) m).
Proof.
  intros []. split; auto. apply (sys_apply_spec _ c). assumption.
Qed.

Lemma sm_dispatch_good n m c : model_ok n m -> step_good n m (sm_dispatch (fun s => sys_apply s c) m).
Proof.
  intros H. rewrite sm_dispatch_eq by apply H. split.
  - apply ok_deliver, (ok_mono n); [|lia]. apply machine_ok. exact H.
  - apply tells_deliver; try reflexivity; try nochange.
    intros Hs. rewrite decide_False by exact Hs. apply told_map.
Qed.

Lemma equipment_update_good n m id f :
  model_ok n m -> 0 <= id < kEquipmentCount ->
  (forall e, 0 <= supplyLevel e <= 100 /\ 0 <= eq_status e <= 2 ->
             0 <= supplyLevel (f e) <= 100 /\ 0 <= eq_status (f e) <= 2) ->
  step_good n m (notifyEquipmentChange id (set_equipment (sm_update id equipment_default f (equipmentStatuses_ m)) m)).
Proof.
  intros H Hid Hf. rewrite notify_equipment_eq. split.
  - apply ok_deliver. apply (ok_mono n); [|lia]. destruct H. split; cbn; auto.
    + apply sm_set_ok. assumption.
    + unfold sm_update. apply sm_all_set; auto. split; [exact Hid|]. apply Hf.
      destruct (sm_get id (equipmentStatuses_ m)) as [e|] eqn:E; [apply (mo_lines0 id e E)|cbn; lia].
  - apply tells_deliver; try reflexivity; try nochange.
    cbn. intros id' e Hg Hne. pose proof (updated_entry _ _ _ _ _ _ (mo_equipment _ _ H) Hg Hne) as ->.
    apply (told_equipment (set_equipment _ m)). exact Hg.
Qed.

Lemma set_rate_good n m id r :
  model_ok n m -> step_good n m (model_setQualityPassRate m id r).
Proof.
  intros H. unfold model_setQualityPassRate, sm_count.
  destruct (sm_get id (qualityCheckpoints_ m)) as [c|] eqn:Hc; cbn [negb].
  2:{ split; [apply (ok_mono n); [exact H|lia]|apply tells_silent; reflexivity]. }
  set (m1 := set_overrides _ _).
  assert (Hok : sm_ok (qualityCheckpoints_ m1)) by (apply sm_set_ok, H).
  rewrite (notify_quality_eq id m1 Hok).
  2:{ eapply sm_get_key. apply sm_get_set_eq. }
  split.
  - apply ok_deliver, (ok_mono n); [|lia]. destruct H. split; cbn; auto.
    unfold sm_update. rewrite Hc. apply sm_all_set; auto. cbn. destruct (mo_rates0 id c Hc) as [_ Hu].
    split; [|exact Hu]. apply f32_clamp_range. vm_compute. reflexivity.
  - apply tells_deliver; try reflexivity; try nochange.
    intros id' c' Hg Hne. pose proof (updated_entry _ _ _ _ _ _ (mo_quality _ _ H) Hg Hne) as ->.
    apply (told_quality m1). exact Hg.
Qed.

Lemma notify_quality_good n m id :
  model_ok n m -> 0 <= n -> step_good n m (notifyQualityChange id m).
Proof.
  intros H Hn. unfold notifyQualityChange. set (m1 := set_quality _ m).
  assert (Hg : sm_get id (qualityCheckpoints_ m1) = Some (default checkpoint_default (sm_get id (qualityCheckpoints_ m))))
    by apply sm_get_set_eq.
  rewrite Hg. split.
  - apply ok_deliver, (ok_mono n); [|lia]. destruct H. split; cbn; auto; [apply sm_set_ok; assumption|].
    unfold sm_update. apply sm_all_set; auto.
    destruct (sm_get id (qualityCheckpoints_ m)) as [c|] eqn:E; [apply (mo_rates0 id c E)|].
    cbn. split; [split; vm_compute; reflexivity|lia].
  - apply tells_deliver; try reflexivity; try nochange.
    intros id' c' Hg' Hne. pose proof (updated_entry _ _ _ _ _ _ (mo_quality _ _ H) Hg' Hne) as ->.
    cbn [default] in *. rewrite Hg in Hg'. injection Hg' as <-. apply told_map.
Qed.

Lemma work_unit_good n m w :
  model_ok n m -> 0 <= completedOperations w <= Z.max 0 (totalOperations w) ->
  forall t, step_good n m (notifyWorkUnitChange (set_work_unit w (set_meter t m))).
Proof.
  intros H Hw t. unfold notifyWorkUnitChange. split.
  - apply ok_deliver, (ok_mono n); [|lia]. destruct H. split; auto.
  - apply tells_deliver; try reflexivity; try nochange. intros _. apply told_map.
Qed.

Lemma step_trans n m m1 m2 :
  step_good n m m1 -> subscribers_ m1 = subscribers_ m -> step_good n m1 m2 -> step_good n m m2.
Proof.
  intros [_ [(n1 & Hd1 & He1 & Ha1 & Hq1 & Hw1 & Hs1)]] Hsub [Hok [(n2 & Hd2 & He2 & Ha2 & Hq2 & Hw2 & Hs2)]].
  rewrite Hsub in *. split; [exact Hok|]. split. exists (n1 ++ n2).
  split; [rewrite Hd2, Hd1, app_assoc; reflexivity|].
  split; [|split; [|split; [|split]]].
  - intros id e Hg Hne. destruct (decide (sm_get id (equipmentStatuses_ m1) = Some e)) as [E|E];
      [apply told_app_l|apply told_app_r]; eauto.
  - intros id e Hg Hne. destruct (decide (sm_get id (actuatorStatuses_ m1) = Some e)) as [E|E];
      [apply told_app_l|apply told_app_r]; eauto.
  - intros id e Hg Hne. destruct (decide (sm_get id (qualityCheckpoints_ m1) = Some e)) as [E|E];
      [apply told_app_l|apply told_app_r]; eauto.
  - intros Hne. destruct (decide (currentWorkUnit_ m2 = currentWorkUnit_ m1)) as [E|E];
      [rewrite E in *; apply told_app_l|apply told_app_r]; eauto.
  - intros Hne. destruct (decide (getState m2 = getState m1)) as [E|E];
      [rewrite E in *; apply told_app_l|apply told_app_r]; eauto.
Qed.

Lemma set_meter_same m : set_meter (throughputMeter_ m) m = m.
Proof. destruct m. reflexivity. Qed.

Lemma dispatch_fields c m :
  sys_inv (stateMachine_ m) ->
  let m' := sm_dispatch (fun s => sys_apply s c) m in
  subscribers_ m' = subscribers_ m /\ currentWorkUnit_ m' = currentWorkUnit_ m.
Proof. intros H. cbv zeta. rewrite sm_dispatch_eq by exact H. auto. Qed.

Lemma cycle_good n m : model_ok n m -> step_good n m (simulateProductionCycle m).
Proof.
  intros H. unfold simulateProductionCycle.
  destruct (Z.ltb_spec (completedOperations (currentWorkUnit_ m)) (totalOperations (currentWorkUnit_ m))).
  2:{ split; [exact H|apply tells_silent; reflexivity]. }
  set (w := wu_completed _ _).
  pose proof (work_unit_good n m w H ltac:(pose proof (mo_work _ _ H); cbn; lia) (throughputMeter_ m)) as Hg.
  rewrite set_meter_same in Hg. eapply step_trans; [exact Hg|reflexivity|].
  apply equipment_update_good; [apply Hg|unfold kEquipmentCount; lia|].
  intros e He. cbn. unfold kEquipmentStatusProcessing. lia.
Qed.

Lemma start_good n m : model_ok n m -> step_good n m (startProduction m).
Proof.
  intros H. pose proof (sm_dispatch_good n m CStart H) as Hd. unfold startProduction.
  eapply step_trans; [exact Hd|apply (dispatch_fields CStart m), H|apply cycle_good, Hd].
Qed.

Lemma reset_good n m : model_ok n m -> step_good n m (resetSystem m).
Proof.
  intros H. pose proof (sm_dispatch_good n m CReset H) as Hd. unfold resetSystem.
  change (sm_dispatch sys_reset m) with (sm_dispatch (fun s => sys_apply s CReset) m).
  set (m1 := sm_dispatch (fun s => sys_apply s CReset) m) in *.
  pose proof (work_unit_good n m1 (wu_throughput (f64_of_Z 0) (wu_completed 0 (currentWorkUnit_ m1)))
                (proj1 Hd) ltac:(cbn; lia) (meter_clear (throughputMeter_ m1))) as Hw.
  eapply step_trans; [exact Hd|apply (dispatch_fields CReset m), H|exact Hw].
Qed.

Lemma load_checkpoint_ok n r c :
  0 <= n -> rate_ok (passRate c) /\ 0 <= unitsInspected c <= 645 + 3 * n ->
  rate_ok (passRate (load_checkpoint r c)) /\ 0 <= unitsInspected (load_checkpoint r c) <= 645 + 3 * n.
Proof.
  intros Hn [Hr _]. unfold load_checkpoint. destruct (List.find _ _); cbn; (split; [exact Hr|lia]).
Qed.

(** A change of the quality table and the work unit that notifies both. *)
Lemma quality_work_good n m m1 :
  model_ok n m1 -> delivered m1 = delivered m -> subscribers_ m1 = subscribers_ m ->
  equipmentStatuses_ m1 = equipmentStatuses_ m -> actuatorStatuses_ m1 = actuatorStatuses_ m ->
  stateMachine_ m1 = stateMachine_ m ->
  step_good n m (notifyWorkUnitChange (notify_each notifyQualityChange (sm_keys (qualityCheckpoints_ m1)) m1)) /\
  step_good n m (notify_each notifyQualityChange (sm_keys (qualityCheckpoints_ m1)) (notifyWorkUnitChange m1)).
Proof.
  intros H Hd Hsub He Ha Hs. pose proof (mo_quality _ _ H) as Hok. split.
  - rewrite (notify_all_quality m1 Hok). unfold notifyWorkUnitChange. rewrite deliver_deliver.
    split; [apply ok_deliver, H|]. apply tells_deliver; auto; rewrite ?He, ?Ha, <- ?Hsub;
      unfold getState; rewrite ?Hs; try nochange.
    + intros id c Hc _. apply told_app_l. exact (told_all_quality m1 id c Hc).
    + intros _. apply told_app_r. apply told_map.
  - unfold notifyWorkUnitChange.
    match goal with |- context [deliver ?l m1] =>
      change (sm_keys (qualityCheckpoints_ m1)) with (sm_keys (qualityCheckpoints_ (deliver l m1)));
      rewrite (notify_all_quality (deliver l m1) Hok), deliver_deliver end.
    split; [apply ok_deliver, H|]. apply tells_deliver; auto; rewrite ?He, ?Ha, <- ?Hsub;
      unfold getState; rewrite ?Hs; try nochange.
    + intros id c Hc _. apply told_app_r. exact (told_all_quality m1 id c Hc).
    + intros _. apply told_app_l. apply told_map.
Qed.

Lemma load_good n m p r : model_ok n m -> 0 <= n -> step_good n m (loadProduct p r m).
Proof.
  intros H Hn. unfold loadProduct. set (m1 := set_quality _ _).
  apply (quality_work_good n m m1); try reflexivity.
  destruct H. split; auto.
  - apply sm_map_ok. assumption.
  - cbn. eapply sm_all_map; [exact mo_rates0|]. intros k c Hc. apply load_checkpoint_ok; assumption.
  - cbn. lia.
  - apply u64_range.
Qed.

(** A draw of the jitter, and a rate it is added to, are numbers. *)
Lemma jitter_number g : FloatBounds.is_number (fst (rateDist g)) = true.
Proof.
  destruct (rateDist_range g) as [H1 H2]. destruct (fst (rateDist g)) as [s|s| |s k e]; try reflexivity; [|discriminate H2].
  destruct s; [vm_compute in H1; discriminate H1|vm_compute in H2; discriminate H2].
Qed.

Lemma rate_number r : rate_ok r -> is_nan r = false -> FloatBounds.is_number r = true.
Proof.
  intros [H1 H2]. destruct r as [s|s| |s k e]; try reflexivity; [|discriminate].
  destruct s; [vm_compute in H1; discriminate H1|vm_compute in H2; discriminate H2].
Qed.

Lemma rate_ok_within r : rate_ok r -> is_nan r = false -> rate_within r.
Proof.
  intros [H1 H2] Hn. assert (E : forall a b : float32, is_nan a = false -> is_nan b = false -> f32_ltb a b = false -> f32_leb b a = true).
  { intros [s|s| |s k e] [s'|s'| |s' k' e']; try discriminate; intros _ _; unfold f32_ltb, f32_leb, SpecFloat.SFltb, SpecFloat.SFleb; cbn;
      repeat match goal with b : bool |- _ => destruct b end; try reflexivity; try discriminate;
      rewrite ?(Z.compare_antisym e' e), ?(Pos.compare_cont_antisym k k' Eq); cbn;
      destruct (Z.compare e' e); cbn; try reflexivity; try discriminate;
      change (Pos.compare_cont Eq k' k) with (Pos.compare k' k); change (Pos.compare_cont Eq k k') with (Pos.compare k k');
      rewrite ?(Pos.compare_antisym k' k); destruct (Pos.compare k' k); cbn; congruence. }
  split; apply E; auto.
Qed.

Lemma clamp_nan r : is_nan (f32_clamp r kQualityRateMin kQualityRateMax) = true -> is_nan r = true.
Proof. unfold f32_clamp. destruct (f32_ltb r kQualityRateMin), (f32_ltb kQualityRateMax r); auto; intros E; vm_compute in E; discriminate E. Qed.

Lemma jittered_number r j : rate_ok r -> FloatBounds.is_number j = true ->
  is_nan (f32_clamp (f32_add r j) kQualityRateMin kQualityRateMax) = true -> is_nan r = true.
Proof.
  intros Hr Hj Hn. apply clamp_nan in Hn. destruct (is_nan r) eqn:E; [reflexivity|].
  rewrite FloatBounds.add_number in Hn; [discriminate|apply rate_number; assumption|exact Hj].
Qed.

(** What a tick does to a checkpoint. *)
Definition ticked (overrides : gset Z) (id : Z) (c c' : QualityCheckpoint) : Prop :=
  (id ∈ overrides -> passRate c' = passRate c) /\
  (rate_ok (passRate c) -> rate_ok (passRate c') /\ (is_nan (passRate c') = true -> is_nan (passRate c) = true)) /\
  unitsInspected c + 1 <= unitsInspected c' <= unitsInspected c + 3.

Lemma tick_checkpoints_spec ov l : forall g,
  Forall (fun e => 0 <= unitsInspected (snd e) <= int_max - 3) l ->
  exists l' g', tick_checkpoints ov l g = Ret (l', g') /\ sm_rel (ticked ov) l l'.
Proof.
  induction l as [|[id c] l IH]; intros g Hl; [exists [], g; split; [reflexivity|constructor]|].
  apply Forall_cons in Hl as [Hu Hl]. cbn [snd] in Hu.
  assert (Hstep : forall c1 g1, unitsInspected c1 = unitsInspected c ->
    (id ∈ ov -> passRate c1 = passRate c) ->
    (rate_ok (passRate c) -> rate_ok (passRate c1) /\ (is_nan (passRate c1) = true -> is_nan (passRate c) = true)) ->
    exists l' g', (let '(units, g) := unitDist g1 in
      inspected ← int_add (unitsInspected c1) units;
      '(rest, g) ← tick_checkpoints ov l g;
      Ret ((id, cp_units inspected c1) :: rest, g)) = Ret (l', g') /\ sm_rel (ticked ov) ((id, c) :: l) l').
  { intros c1 g1 Hu1 Ho Hr. pose proof (unitDist_range g1) as Hd. destruct (unitDist g1) as [units g2]. cbn [fst] in Hd.
    unfold kMinUnitsPerTick, kMaxUnitsPerTick in Hd. unfold int_add. rewrite Hu1.
    replace ((int_min <=? unitsInspected c + units) && (unitsInspected c + units <=? int_max)) with true.
    2:{ symmetry. apply andb_true_iff. unfold int_min, int_max in *. split; apply Z.leb_le; lia. }
    cbn [mbind outcome_bind]. destruct (IH g2 Hl) as (l' & g' & E & Hrel). rewrite E. cbn [mbind outcome_bind].
    do 2 eexists. split; [reflexivity|]. constructor; [|exact Hrel]. cbn [fst snd]. split; [reflexivity|].
    unfold ticked. cbn. split_and!; auto; lia. }
  cbn [tick_checkpoints]. destruct (decide (id ∈ ov)) as [Hin|Hout].
  - apply Hstep; auto.
  - pose proof (jitter_number g) as Hj. destruct (rateDist g) as [jitter g1]. apply Hstep; [reflexivity|intros; contradiction|].
    intros Hr. split; [apply f32_clamp_range; vm_compute; reflexivity|]. apply jittered_number; assumption.
Qed.

Lemma tick_good n m now :
  model_ok n m -> 0 <= n -> 648 + 3 * n <= int_max ->
  exists m', tickSimulation now m = Ret m' /\ step_good (n + 1) m m' /\
    sm_rel (ticked (externalPassRateOverrides_ m)) (qualityCheckpoints_ m) (qualityCheckpoints_ m') /\
    externalPassRateOverrides_ m' = externalPassRateOverrides_ m.
Proof.
  intros H Hn Hmax. unfold tickSimulation.
  destruct (tick_checkpoints_spec (externalPassRateOverrides_ m) (qualityCheckpoints_ m) (rng_ m))
    as (qs & g & E & Hrel).
  { eapply Forall_impl; [exact (sm_all_forall _ _ (mo_quality _ _ H) (mo_rates _ _ H))|].
    intros [k c]. cbn. intros [_ Hu]. lia. }
  rewrite E. cbn [mbind outcome_bind].
  set (m0 := set_rng g (set_quality qs m)). set (wu := currentWorkUnit_ m0).
  set (m1 := if completedOperations wu <? totalOperations wu then _ else _).
  destruct (unitsPerHour now (throughputMeter_ m1)) as [uph meter].
  set (m2 := set_work_unit _ _).
  assert (Hm1 : exists w t, m1 = set_work_unit w (set_meter t m0) /\
                0 <= completedOperations w <= Z.max 0 (totalOperations w)).
  { pose proof (mo_work _ _ H) as Hw. unfold m1. destruct (Z.ltb_spec (completedOperations wu) (totalOperations wu)).
    - eexists _, (throughputMeter_ m0). rewrite set_meter_same. split; [reflexivity|]. cbn in *. lia.
    - eexists _, _. split; [reflexivity|]. cbn. lia. }
  destruct Hm1 as (w & t & Hm1 & Hw).
  assert (Hok2 : model_ok (n + 1) m2).
  { unfold m2. rewrite Hm1. destruct H. split; cbn; auto.
    - unfold sm_ok. rewrite (sm_rel_keys _ _ _ Hrel). assumption.
    - intros id c' Hc'. destruct (sm_rel_get _ _ _ _ _ Hrel Hc') as (c & Hc & Hov & Hr & Hu).
      destruct (mo_rates0 id c Hc). split; [apply Hr; assumption|lia]. }
  eexists. split; [reflexivity|].
  assert (Hfields : delivered m2 = delivered m /\ subscribers_ m2 = subscribers_ m /\
    equipmentStatuses_ m2 = equipmentStatuses_ m /\ actuatorStatuses_ m2 = actuatorStatuses_ m /\
    stateMachine_ m2 = stateMachine_ m /\ qualityCheckpoints_ m2 = qs /\
    externalPassRateOverrides_ m2 = externalPassRateOverrides_ m) by (unfold m2; rewrite Hm1; repeat split).
  destruct Hfields as (F1 & F2 & F3 & F4 & F5 & F6 & F7).
  destruct (quality_work_good (n + 1) m m2 Hok2 F1 F2 F3 F4 F5) as [Hgood _].
  split; [|split].
  - destruct Hgood as [Ha Hb]. split; [exact Ha|exact Hb].
  - rewrite (notify_all_quality m2 (mo_quality _ _ Hok2)). rewrite <- F6 in Hrel. exact Hrel.
  - rewrite (notify_all_quality m2 (mo_quality _ _ Hok2)). exact F7.
Qed.

Lemma republish_good n m : model_ok n m -> step_good n m (republishAll m).
Proof.
  intros H. unfold republishAll. rewrite (republish_eq m (mo_quality _ _ H)).
  split; [apply ok_deliver, H|]. apply tells_deliver; try reflexivity; nochange.
Qed.

Lemma demo_ok n m w :
  model_ok n m -> 0 <= n -> 0 <= completedOperations w <= Z.max 0 (totalOperations w) ->
  model_ok n (set_work_unit w (set_quality (demo_quality (qualityCheckpoints_ m))
    (set_actuators (demo_actuators (actuatorStatuses_ m))
      (set_equipment (demo_equipment (equipmentStatuses_ m)) m)))).
Proof.
  intros [] Hn Hw. unfold demo_quality, demo_equipment, demo_actuators. split; cbn; auto 10 with hmi.
  - repeat (apply sm_all_set; [auto with hmi|..]); auto; cbn; unfold kEquipmentCount; lia.
  - repeat (apply sm_all_set; [auto 10 with hmi|..]); auto;
      (split; [split; vm_compute; reflexivity|cbn; lia]).
Qed.

Lemma republish_evolving_eq m :
  sm_ok (qualityCheckpoints_ m) ->
  (let m := notify_each notifyEquipmentChange (sm_keys (equipmentStatuses_ m)) m in
   let m := notify_each notifyActuatorChange (sm_keys (actuatorStatuses_ m)) m in
   let m := notify_each notifyQualityChange (sm_keys (qualityCheckpoints_ m)) m in
   notifyStateChange (notifyWorkUnitChange m)) = republishAll m.
Proof.
  intros Hok. unfold republishAll. rewrite (republish_eq m Hok). cbv zeta.
  rewrite notify_all_equipment, notify_all_actuators, deliver_deliver.
  rewrite notify_all_quality by exact Hok.
  unfold notifyStateChange, notifyWorkUnitChange. rewrite !deliver_deliver, <- !app_assoc. reflexivity.
Qed.

Lemma initialize_good n m : model_ok n m -> 0 <= n -> step_good n m (initializeDemoData m).
Proof.
  intros H Hn. unfold initializeDemoData.
  change (sm_dispatch sys_reset) with (sm_dispatch (G := G) (fun s => sys_apply s CReset)).
  set (w := mkWorkUnit _ _ _ _ _ _). set (m0 := set_work_unit w _).
  assert (H0 : model_ok n m0) by (exact (demo_ok n m w H Hn ltac:(cbn; lia))).
  rewrite (sm_dispatch_eq CReset m0 (mo_machine _ _ H0)).
  pose proof (machine_ok n m0 CReset H0) as H1. set (m1 := set_machine _ m0) in *.
  match goal with |- context [deliver ?l m1] => set (first := l) end.
  pose proof (republish_evolving_eq (deliver first m1) (mo_quality _ _ H1)) as E. cbv zeta in E |- *. rewrite E.
  unfold republishAll. rewrite (republish_eq (deliver first m1) (mo_quality _ _ H1)), deliver_deliver. clear E.
  split; [apply ok_deliver, H1|].
  apply tells_deliver; try reflexivity.
  - intros id e Hg _. apply told_app_r, told_app_l. exact (told_all_equipment m1 id e Hg).
  - intros id e Hg _. apply told_app_r, told_app_r, told_app_l. exact (told_all_actuators m1 id e Hg).
  - intros id e Hg _. do 3 apply told_app_r. apply told_app_l. exact (told_all_quality m1 id e Hg).
  - intros _. do 4 apply told_app_r. apply told_app_l, told_map.
  - intros _. do 5 apply told_app_r. apply told_map.
Qed.

Lemma initialize_quality n m : model_ok n m -> qualityCheckpoints_ (initializeDemoData m) = demo_quality (qualityCheckpoints_ m).
Proof.
  intros H. unfold initializeDemoData. set (w := mkWorkUnit _ _ _ _ _ _). set (m0 := set_work_unit w _).
  assert (Hok : sm_ok (qualityCheckpoints_ m0)) by (unfold m0, demo_quality; cbn; do 3 apply sm_set_ok; apply H).
  assert (E : qualityCheckpoints_ (sm_dispatch sys_reset m0) = qualityCheckpoints_ m0) by (unfold sm_dispatch; rewrite fold_notify_state; reflexivity).
  assert (Hok1 : sm_ok (qualityCheckpoints_ (sm_dispatch sys_reset m0))) by (rewrite E; exact Hok).
  pose proof (republish_evolving_eq (sm_dispatch sys_reset m0) Hok1) as Er. cbv zeta in Er |- *.
  rewrite Er. unfold republishAll. rewrite republish_eq by exact Hok1. exact E.
Qed.

Lemma op_good n m o :
  model_ok n m -> op_ok o -> 0 <= n -> 648 + 3 * n <= int_max ->
  exists m', op_apply o m = Ret m' /\ step_good (n + 1) m m'.
Proof.
  intros H Ho Hn Hmax.
  assert (Hmono : forall m', step_good n m m' -> step_good (n + 1) m m').
  { intros m' [Hok Ht]. split; [apply (ok_mono n); [exact Hok|lia]|exact Ht]. }
  destruct o; cbn [op_apply op_ok] in *;
    try (eexists; split; [reflexivity|]; apply Hmono; apply subscribe_good; exact H);
    try (eexists; split; [reflexivity|]; apply Hmono).
  - apply start_good. exact H.
  - apply (sm_dispatch_good n m CStop H).
  - apply reset_good. exact H.
  - apply (sm_dispatch_good n m CCalibrate H).
  - apply (sm_dispatch_good n m (CFault reason) H).
  - unfold model_setEquipmentEnabled. destruct (Z.leb_spec kEquipmentCount id);
      [split; [exact H|apply tells_silent; reflexivity]|].
    apply equipment_update_good; [exact H|unfold is_u32 in Ho; lia|].
    intros e He. cbn. destruct enabled; unfold kEquipmentStatusOnline, kEquipmentStatusOffline; lia.
  - unfold model_setEquipmentSupplyLevel. destruct (Z.leb_spec kEquipmentCount id);
      [split; [exact H|apply tells_silent; reflexivity]|].
    apply equipment_update_good; [exact H|unfold is_u32 in Ho; lia|].
    intros e He. cbn. unfold int_clamp, kSupplyLevelMin, kSupplyLevelMax. repeat case_match; lia.
  - apply set_rate_good. exact H.
  - apply load_good; assumption.
  - destruct (tick_good n m now H Hn Hmax) as (m' & E & Hg & _). eauto.
  - apply notify_quality_good; assumption.
  - apply republish_good. exact H.
  - apply initialize_good; assumption.
Qed.

Lemma model_init_ok g : model_ok 0 (model_init g).
Proof.
  split; cbn; try (apply SSorted_nil); try (intros k v Hk; discriminate Hk); unfold kWorkUnitSeqBase; try lia.
  split; [reflexivity|auto].
Qed.

Lemma model_run_good l : forall n m,
  model_ok n m -> Forall op_ok l -> 0 <= n -> 648 + 3 * (n + Z.of_nat (length l)) <= int_max ->
  exists m', model_run l m = Ret m' /\ model_ok (n + Z.of_nat (length l)) m'.
Proof.
  induction l as [|o l IH]; intros n m H Hl Hn Hmax; cbn [length] in *.
  - exists m. rewrite Z.add_0_r. auto.
  - apply Forall_cons in Hl as [Ho Hl].
    destruct (op_good n m o H Ho Hn) as (m1 & E & Hok & _); [lia|].
    destruct (IH (n + 1) m1 Hok Hl) as (m' & E' & Hok'); [lia|lia|].
    exists m'. cbn [model_run]. rewrite E. cbn [mbind outcome_bind].
    replace (n + Z.of_nat (S (length l))) with (n + 1 + Z.of_nat (length l)) by lia. auto.
Qed.

(** A checkpoint whose rate comes from outside. *)
Definition external (id : Z) (r : float32) m : Prop :=
  id ∈ externalPassRateOverrides_ m /\
  exists c, sm_get id (qualityCheckpoints_ m) = Some c /\ passRate c = r.

Lemma external_same id r m m' :
  externalPassRateOverrides_ m' = externalPassRateOverrides_ m ->
  qualityCheckpoints_ m' = qualityCheckpoints_ m -> external id r m -> external id r m'.
Proof. unfold external. intros -> ->. auto. Qed.

Lemma external_map id r m m' f :
  externalPassRateOverrides_ m' = externalPassRateOverrides_ m ->
  qualityCheckpoints_ m' = sm_map f (qualityCheckpoints_ m) ->
  (forall k c, passRate (f k c) = passRate c) -> external id r m -> external id r m'.
Proof.
  unfold external. intros -> -> Hf [Hin (c & Hc & Hr)]. split; [exact Hin|].
  exists (f id c). rewrite sm_get_map, Hc. cbn. rewrite Hf. auto.
Qed.

(** What [sm_dispatch], [simulateProductionCycle] and [notifyEquipmentChange]
    leave alone. *)
Definition same_quality m m' : Prop :=
  externalPassRateOverrides_ m' = externalPassRateOverrides_ m /\ qualityCheckpoints_ m' = qualityCheckpoints_ m.

Lemma dispatch_quality c m : same_quality m (sm_dispatch c m).
Proof. unfold sm_dispatch. rewrite fold_notify_state. split; reflexivity. Qed.

Lemma equipment_quality id m : same_quality m (notifyEquipmentChange id m).
Proof. rewrite notify_equipment_eq. split; reflexivity. Qed.

Lemma cycle_quality m : same_quality m (simulateProductionCycle m).
Proof.
  unfold simulateProductionCycle. case_match; [|split; reflexivity]. cbv zeta.
  rewrite notify_equipment_eq. split; reflexivity.
Qed.

Lemma external_same_quality id r m m' : same_quality m m' -> external id r m -> external id r m'.
Proof. intros [H1 H2]. apply external_same; assumption. Qed.

(** Operations that may set the rate of checkpoint [id]. *)
Definition sets_rate (id : Z) (o : model_op) : bool :=
  match o with
  | SetQualityPassRate id' _ => id' =? id
  | InitializeDemoData => true
  | _ => false
  end.

Lemma external_update id r m id' d f m' :
  model_ok 0 m \/ sm_ok (qualityCheckpoints_ m) ->
  externalPassRateOverrides_ m ⊆ externalPassRateOverrides_ m' ->
  qualityCheckpoints_ m' = sm_update id' d f (qualityCheckpoints_ m) ->
  id <> id' \/ (forall c, f c = c) -> external id r m -> external id r m'.
Proof.
  intros Hok Hov Hq Hid [Hin (c & Hc & Hr)].
  assert (Hs : sm_ok (qualityCheckpoints_ m)) by (destruct Hok as [[]|]; assumption).
  split; [apply Hov; exact Hin|]. exists c. split; [|exact Hr]. rewrite Hq. unfold sm_update.
  destruct (Z.eq_dec id id') as [<-|Hne]; [|rewrite sm_get_set_ne by assumption; exact Hc].
  destruct Hid as [|Hf]; [congruence|]. rewrite Hc. cbn. rewrite Hf, sm_get_set_eq. reflexivity.
Qed.

Lemma external_step n id r m o :
  model_ok n m -> 0 <= n -> 648 + 3 * n <= int_max -> op_ok o -> sets_rate id o = false ->
  external id r m -> exists m', op_apply o m = Ret m' /\ model_ok (n + 1) m' /\ external id r m'.
Proof.
  intros H Hn Hmax Ho Hs He. destruct (op_good n m o H Ho Hn Hmax) as (m' & E & [Hok _]).
  exists m'. split; [exact E|]. split; [exact Hok|]. clear Hok.
  assert (Hq : forall m1, same_quality m m1 -> Ret m1 = Ret m' -> external id r m').
  { intros m1 Hsame [= <-]. apply (external_same_quality id r m); assumption. }
  pose proof dispatch_quality as Hd. pose proof (mo_quality _ _ H) as Hsok.
  destruct o; cbn [op_apply sets_rate op_ok] in *; try discriminate Hs;
    try (eapply Hq; [|exact E]; first [apply Hd | split; reflexivity]).
  - eapply Hq; [|exact E]. unfold startProduction.
    destruct (cycle_quality (sm_dispatch sys_start m)) as [A B].
    destruct (Hd sys_start m) as [C D]. split; congruence.
  - eapply Hq; [|exact E]. unfold model_setEquipmentEnabled. case_match; [split; reflexivity|].
    rewrite notify_equipment_eq. split; reflexivity.
  - eapply Hq; [|exact E]. unfold model_setEquipmentSupplyLevel. case_match; [split; reflexivity|].
    rewrite notify_equipment_eq. split; reflexivity.
  - injection E as <-. unfold model_setQualityPassRate, sm_count.
    destruct (sm_get id0 (qualityCheckpoints_ m)) as [c|] eqn:Hc; cbn [negb]; [|exact He].
    rewrite notify_quality_eq; [|apply sm_set_ok, Hsok|eapply sm_get_key; apply sm_get_set_eq].
    eapply (external_update id r m id0); [right; exact Hsok| |reflexivity| |exact He];
      [cbn; set_solver|left; intros ->; rewrite Z.eqb_refl in Hs; discriminate].
  - injection E as <-. unfold loadProduct. set (m1 := set_quality _ _).
    assert (H1 : sm_ok (qualityCheckpoints_ m1)) by (apply sm_map_ok, Hsok).
    unfold notifyWorkUnitChange. rewrite (notify_all_quality (deliver _ m1) H1).
    eapply (external_map id r m _ (fun _ => load_checkpoint recipe)); [reflexivity|reflexivity| |exact He].
    intros k c. unfold load_checkpoint. destruct (List.find _ _); reflexivity.
  - destruct (tick_good n m now H Hn Hmax) as (m1 & E1 & _ & Hrel & Hov). rewrite E in E1. injection E1 as <-.
    destruct He as [Hin (c & Hc & Hr)]. split; [rewrite Hov; exact Hin|].
    assert (Hk : id ∈ sm_keys (qualityCheckpoints_ m')).
    { rewrite (sm_rel_keys _ _ _ Hrel). eapply sm_get_key. exact Hc. }
    assert (Hsok' : sm_ok (qualityCheckpoints_ m')) by (unfold sm_ok; rewrite (sm_rel_keys _ _ _ Hrel); exact Hsok).
    destruct (sm_keys_get _ _ Hsok' Hk) as [c' Hc'].
    destruct (sm_rel_get _ _ _ _ _ Hrel Hc') as (c0 & Hc0 & Ht & _).
    exists c'. split; [exact Hc'|]. rewrite Ht by exact Hin. congruence.
  - injection E as <-. eapply (external_update id r m id0); [right; exact Hsok|reflexivity|reflexivity| |exact He].
    right. reflexivity.
  - eapply Hq; [|exact E]. unfold republishAll. rewrite (republish_eq m Hsok). split; reflexivity.
Qed.

Lemma external_run id r l : forall n m,
  model_ok n m -> Forall (fun o => op_ok o /\ sets_rate id o = false) l -> 0 <= n ->
  648 + 3 * (n + Z.of_nat (length l)) <= int_max -> external id r m ->
  exists m', model_run l m = Ret m' /\ external id r m'.
Proof.
  induction l as [|o l IH]; intros n m H Hl Hn Hmax He; cbn [length] in *; [exists m; auto|].
  apply Forall_cons in Hl as [[Ho Hs] Hl].
  destruct (external_step n id r m o H Hn ltac:(lia) Ho Hs He) as (m1 & E & Hok & He1).
  destruct (IH (n + 1) m1 Hok Hl ltac:(lia) ltac:(lia) He1) as (m' & E' & He').
  exists m'. cbn [model_run]. rewrite E. auto.
Qed.

(** Where a rate that is not a number comes from. *)
Definition nan_set (id : Z) (l : list model_op) : Prop := exists r, SetQualityPassRate id r ∈ l /\ is_nan r = true.
Definition nan_at (id : Z) m : Prop := exists c, sm_get id (qualityCheckpoints_ m) = Some c /\ is_nan (passRate c) = true.

Lemma nan_set_entry id k d f q : sm_ok q -> (forall c, sm_get k q = Some c -> is_nan (passRate (f c)) = true -> is_nan (passRate c) = true) ->
  (sm_get k q = None -> is_nan (passRate (f d)) = false) ->
  (exists c, sm_get id (sm_update k d f q) = Some c /\ is_nan (passRate c) = true) ->
  exists c, sm_get id q = Some c /\ is_nan (passRate c) = true.
Proof.
  intros Hok Hf Hd (c & Hc & Hn). unfold sm_update in Hc. destruct (Z.eq_dec id k) as [->|Hne]; [|rewrite sm_get_set_ne in Hc by assumption; eauto].
  rewrite sm_get_set_eq in Hc. injection Hc as <-. destruct (sm_get k q) as [c|] eqn:E; cbn in *; [eauto|rewrite Hd in Hn by reflexivity; discriminate].
Qed.

Lemma nan_demo id q : sm_ok q -> (exists c, sm_get id (demo_quality q) = Some c /\ is_nan (passRate c) = true) ->
  exists c, sm_get id q = Some c /\ is_nan (passRate c) = true.
Proof.
  assert (H : forall k v q, sm_ok q -> is_nan (passRate v) = false -> (exists c, sm_get id (sm_set k v q) = Some c /\ is_nan (passRate c) = true) ->
    exists c, sm_get id q = Some c /\ is_nan (passRate c) = true).
  { intros k v q' Hok Hv (c & Hc & Hn). destruct (Z.eq_dec id k) as [->|Hne]; [rewrite sm_get_set_eq in Hc; congruence|].
    rewrite sm_get_set_ne in Hc by assumption. eauto. }
  intros Hok. unfold demo_quality. intros Hx. repeat (apply H in Hx; [|auto 10 using sm_set_ok|vm_compute; reflexivity]). exact Hx.
Qed.

Lemma nan_step n id m m' o :
  model_ok n m -> 0 <= n -> 648 + 3 * n <= int_max -> op_apply o m = Ret m' -> nan_at id m' -> nan_at id m \/ nan_set id [o].
Proof.
  intros H Hn Hmax E Ha. pose proof (mo_quality _ _ H) as Hsok. unfold nan_at in *.
  assert (Hq : forall m1, same_quality m m1 -> Ret m1 = Ret m' -> nan_at id m \/ nan_set id [o]).
  { intros m1 [_ Hs] [= <-]. left. unfold nan_at. rewrite <- Hs. exact Ha. }
  pose proof dispatch_quality as Hd. unfold nan_at in *.
  destruct o; cbn [op_apply] in *;
    try (eapply Hq; [|exact E]; first [apply Hd | split; reflexivity]).
  - eapply Hq; [|exact E]. unfold startProduction.
    destruct (cycle_quality (sm_dispatch sys_start m)) as [A B]. destruct (Hd sys_start m) as [C D]. split; congruence.
  - eapply Hq; [|exact E]. unfold model_setEquipmentEnabled. case_match; [split; reflexivity|]. rewrite notify_equipment_eq. split; reflexivity.
  - eapply Hq; [|exact E]. unfold model_setEquipmentSupplyLevel. case_match; [split; reflexivity|]. rewrite notify_equipment_eq. split; reflexivity.
  - injection E as <-. unfold model_setQualityPassRate, sm_count in Ha.
    destruct (sm_get id0 (qualityCheckpoints_ m)) as [c|] eqn:Hc; cbn [negb] in Ha; [|left; exact Ha].
    rewrite notify_quality_eq in Ha; [|apply sm_set_ok, Hsok|eapply sm_get_key; apply sm_get_set_eq]. cbn in Ha. unfold sm_update in Ha. rewrite Hc in Ha. cbn in Ha.
    destruct (Z.eq_dec id id0) as [->|Hne]; [|rewrite sm_get_set_ne in Ha by assumption; auto].
    rewrite sm_get_set_eq in Ha. destruct Ha as (c' & [= <-] & Hr). right. exists rate. split; [left|apply clamp_nan; exact Hr].
  - injection E as <-. left. unfold loadProduct in Ha. set (m1 := set_quality _ _) in Ha.
    assert (H1 : sm_ok (qualityCheckpoints_ m1)) by (apply sm_map_ok, Hsok).
    unfold notifyWorkUnitChange in Ha. rewrite (notify_all_quality (deliver _ m1) H1) in Ha.
    change (exists c, sm_get id (sm_map (fun _ => load_checkpoint recipe) (qualityCheckpoints_ m)) = Some c /\ is_nan (passRate c) = true) in Ha.
    rewrite sm_get_map in Ha. destruct Ha as (c' & Hc & Hr). destruct (sm_get id (qualityCheckpoints_ m)) as [c|]; [|discriminate]. injection Hc as <-. exists c. split; [reflexivity|].
    revert Hr. unfold load_checkpoint. destruct (List.find _ _); auto.
  - left. destruct (tick_good n m now H Hn Hmax) as (m1 & E1 & _ & Hrel & _). rewrite E in E1. injection E1 as <-.
    destruct Ha as (c' & Hc' & Hr). destruct (sm_rel_get _ _ _ _ _ Hrel Hc') as (c0 & Hc0 & _ & Ht & _).
    exists c0. split; [exact Hc0|]. apply Ht; [apply (mo_rates _ _ H id c0 Hc0)|exact Hr].
  - injection E as <-. left. eapply nan_set_entry; [exact Hsok| | |exact Ha]; [auto|reflexivity].
  - eapply Hq; [|exact E]. unfold republishAll. rewrite (republish_eq m Hsok). split; reflexivity.
  - injection E as <-. left. apply nan_demo; [exact Hsok|]. rewrite (initialize_quality n m H) in Ha. exact Ha.
Qed.

Lemma nan_run id l : forall n m m',
  model_ok n m -> Forall op_ok l -> 0 <= n -> 648 + 3 * (n + Z.of_nat (length l)) <= int_max -> model_run l m = Ret m' ->
  nan_at id m' -> nan_at id m \/ nan_set id l.
Proof.
  induction l as [|o l IH]; intros n m m' H Hl Hn Hmax E Ha; cbn [length] in *; [injection E as <-; auto|].
  apply Forall_cons in Hl as [Ho Hl]. destruct (op_good n m o H Ho Hn ltac:(lia)) as (m1 & E1 & Hok & _).
  cbn [model_run] in E. rewrite E1 in E. cbn [mbind outcome_bind] in E.
  destruct (IH (n + 1) m1 m' Hok Hl ltac:(lia) ltac:(lia) E Ha) as [Ha1|(r & Hr & Hnan)]; [|right; exists r; split; [right; exact Hr|exact Hnan]].
  destruct (nan_step n id m m1 o H Hn ltac:(lia) E1 Ha1) as [Ha0|(r & Hr & Hnan)]; [left; exact Ha0|].
  right. exists r. split; [|exact Hnan]. apply list_elem_of_singleton in Hr. rewrite Hr. left.
Qed.

Lemma set_rate_external n m id r c :
  model_ok n m -> sm_get id (qualityCheckpoints_ m) = Some c ->
  external id (f32_clamp r kQualityRateMin kQualityRateMax) (model_setQualityPassRate m id r).
Proof.
  intros H Hc. unfold model_setQualityPassRate, sm_count. rewrite Hc. cbn [negb].
  rewrite notify_quality_eq; [|apply sm_set_ok, H|eapply sm_get_key; apply sm_get_set_eq].
  split; [cbn; set_solver|]. eexists. split; [apply sm_get_set_eq|]. reflexivity.
Qed.
End Operations.

(* ------------------------------------------------------------------ *)
(** ** The model behind the ingest interface *)

#[export] Instance SimulatedProduction {G} `{RandomSource G} : ProductionModel (SimulatedModel G) := {|
  setEquipmentEnabled := model_setEquipmentEnabled;
  setEquipmentSupplyLevel := model_setEquipmentSupplyLevel;
  setQualityPassRate := model_setQualityPassRate;
|}.

Section Ingest.
Context {G : Type} `{RG : RandomSource G}.
Implicit Types m : SimulatedModel G.

Definition supply_of m (id : Z) : option Z := supplyLevel <$> sm_get id (equipmentStatuses_ m).

(** The supply level after a list of calls. *)
Definition supply_after (old : option Z) (vs : list semantic_value) : option Z :=
  fold_left (fun o v => match v with VSupply n => Some (int_clamp n kSupplyLevelMin kSupplyLevelMax) | _ => o end) vs old.

Lemma equipment_update_supply m id f id' :
  sm_ok (equipmentStatuses_ m) ->
  let m' := notifyEquipmentChange id (set_equipment (sm_update id equipment_default f (equipmentStatuses_ m)) m) in
  sm_ok (equipmentStatuses_ m') /\
  supply_of m' id' = if Z.eq_dec id' id
                     then Some (supplyLevel (f (default equipment_default (sm_get id (equipmentStatuses_ m)))))
                     else supply_of m id'.
Proof.
  intros Hok. cbv zeta. rewrite notify_equipment_eq. split; [apply sm_set_ok, Hok|].
  unfold supply_of. cbn. unfold sm_update. destruct (Z.eq_dec id' id) as [->|Hne].
  - rewrite sm_get_set_eq. reflexivity.
  - rewrite sm_get_set_ne by assumption. reflexivity.
Qed.

Lemma apply_call_supply m c id :
  sm_ok (equipmentStatuses_ m) -> is_Some (supply_of m id) -> id < kEquipmentCount ->
  sm_ok (equipmentStatuses_ (apply_call m c)) /\
  supply_of (apply_call m c) id = supply_after (supply_of m id) (of_key EquipmentSupplyLevel id [c]).
Proof.
  intros Hok [old Hold] Hlt. destruct c as [id' v]. rewrite of_key_one. unfold apply_call. cbn [fst snd].
  destruct v as [b|n|r]; cbn [setEquipmentEnabled setEquipmentSupplyLevel setQualityPassRate SimulatedProduction kind_of].
  - rewrite decide_False by (intros [_ [=]]). unfold model_setEquipmentEnabled. case_match; [auto|].
    destruct (equipment_update_supply m id' (es_status (if b then kEquipmentStatusOnline else kEquipmentStatusOffline)) id Hok)
      as [H1 H2]. split; [exact H1|]. rewrite H2. destruct (Z.eq_dec id id') as [<-|]; [|reflexivity].
    unfold supply_of in *. destruct (sm_get id (equipmentStatuses_ m)); [reflexivity|discriminate].
  - unfold model_setEquipmentSupplyLevel. destruct (Z.leb_spec kEquipmentCount id').
    + rewrite decide_False by (intros [-> _]; lia). auto.
    + destruct (equipment_update_supply m id' (es_supply (int_clamp n kSupplyLevelMin kSupplyLevelMax)) id Hok) as [H1 H2].
      split; [exact H1|]. rewrite H2. destruct (Z.eq_dec id id') as [<-|Hne].
      * rewrite decide_True by auto. reflexivity.
      * rewrite decide_False by (intros [? _]; congruence). reflexivity.
  - rewrite decide_False by (intros [_ [=]]). unfold model_setQualityPassRate. case_match; [auto|].
    unfold notifyQualityChange. split; [exact Hok|reflexivity].
Qed.

Lemma apply_calls_supply calls id : forall m,
  sm_ok (equipmentStatuses_ m) -> is_Some (supply_of m id) -> id < kEquipmentCount ->
  supply_of (foldl apply_call m calls) id = supply_after (supply_of m id) (of_key EquipmentSupplyLevel id calls).
Proof.
  induction calls as [|c calls IH]; intros m Hok Hs Hlt; [reflexivity|].
  destruct (apply_call_supply m c id Hok Hs Hlt) as [Hok' E]. cbn [foldl].
  change (c :: calls) with ([c] ++ calls). rewrite of_key_app. unfold supply_after. rewrite fold_left_app.
  fold (supply_after (supply_of m id) (of_key EquipmentSupplyLevel id [c])). rewrite <- E.
  apply IH; [exact Hok'| |exact Hlt]. rewrite E. unfold supply_after.
  destruct c as [id' v]. rewrite of_key_one. case_decide; [|exact Hs]. destruct v; cbn; eauto.
Qed.

(** Dropping repetitions does not change where the level ends. *)
Lemma supply_without_repeats vs : forall last old,
  Forall (fun v => kind_of v = EquipmentSupplyLevel) vs ->
  (forall n, last = Some (VSupply n) -> old = Some (int_clamp n kSupplyLevelMin kSupplyLevelMax)) ->
  supply_after old (without_repeats last vs) = supply_after old vs.
Proof.
  induction vs as [|v vs IH]; intros last old Hk Hl; [reflexivity|].
  apply Forall_cons in Hk as [Hv Hk]. destruct v as [|n|]; try discriminate Hv.
  assert (Hkeep : supply_after old (VSupply n :: without_repeats (Some (VSupply n)) vs) = supply_after old (VSupply n :: vs)).
  { cbn. apply IH; [exact Hk|]. intros n' [= <-]. reflexivity. }
  cbn [without_repeats]. destruct last as [w|]; [|exact Hkeep].
  destruct (same_value w (VSupply n)) eqn:Hs; [|exact Hkeep].
  destruct w as [|n'|]; try discriminate Hs. cbn in Hs. apply Z.eqb_eq in Hs as ->.
  rewrite IH by assumption. specialize (Hl n eq_refl). subst old. reflexivity.
Qed.

Lemma of_key_kind f e l : Forall (fun v => kind_of v = f) (of_key f e l).
Proof.
  unfold of_key. apply Forall_fmap. apply Forall_forall. intros c Hc.
  apply list_elem_of_filter in Hc as [[_ H] _]. exact H.
Qed.
End Ingest.

(* ------------------------------------------------------------------ *)
(** ** Properties *)

(** C19: The model runs. From its construction and under every sequence of at
    most 700 million operations, with arguments of their C++ types and
    whatever subscribers and random draws, no operation overflows, and
    afterwards supply levels are within 0..100, statuses are 0..2 for the
    equipment ids 0..3, the completed operations do not exceed the total, the
    state machine is consistent, and every pass rate is a number from 85 to
    100, unless an operation set the rate of that very checkpoint to
    not-a-number. The bound on the operations is the one of the
    [unitsInspected] counters: a tick adds up to 3 to an [int], which
    overflows (undefined behaviour) after 715 million ticks without a product
    load. *)
Theorem model_runs_well {G} `{RandomSource G} (g : G) l :
  Forall op_ok l -> Z.of_nat (length l) <= 700000000 ->
  exists m, model_run l (model_init g) = Ret m /\ model_ok (Z.of_nat (length l)) m /\
    forall id c, sm_get id (qualityCheckpoints_ m) = Some c -> rate_within (passRate c) \/ nan_set id l.
Proof.
  intros Hl Hlen. destruct (model_run_good l 0 _ (model_init_ok g) Hl) as (m & E & Hok); [lia|unfold int_max; lia|].
  exists m. split; [exact E|]. split; [exact Hok|]. intros id c Hc. destruct (is_nan (passRate c)) eqn:Hn.
  - right. destruct (nan_run id l 0 _ m (model_init_ok g) Hl) as [(c0 & Hc0 & _)|Hset]; try (unfold int_max; lia); [exact E|exists c; auto|discriminate Hc0|exact Hset].
  - left. apply rate_ok_within; [apply (mo_rates _ _ Hok id c Hc)|exact Hn].
Qed.

(** Nothing changes silently. Whatever operation is performed on whatever
    reachable model, every equipment, actuator and checkpoint entry, the work
    unit and the system state, if it changed, was delivered with its final
    value to every subscriber of its kind. *)
Theorem model_tells_changes {G} `{RandomSource G} (g : G) l o m :
  Forall op_ok l -> op_ok o -> Z.of_nat (length l) < 700000000 -> model_run l (model_init g) = Ret m ->
  exists m', op_apply o m = Ret m' /\ tells_changes m m'.
Proof.
  intros Hl Ho Hlen Hrun.
  destruct (model_run_good l 0 _ (model_init_ok g) Hl) as (m0 & E & Hok); [lia|unfold int_max; lia|].
  rewrite Hrun in E. injection E as <-.
  destruct (op_good _ m o Hok Ho) as (m' & E & [_ Ht]); [lia|unfold int_max; lia|eauto].
Qed.

(** An external pass rate sticks. Once a protocol bridge has set the rate of
    a known checkpoint, every later reading of the checkpoint shows that
    rate, clamped to 85..100, whatever else happens, ticks included, until
    the rate of that checkpoint is set again or the demo data is loaded. *)
Theorem external_rate_sticky {G} `{RandomSource G} (g : G) l id rate cp m later :
  Forall op_ok l -> Forall (fun o => op_ok o /\ sets_rate id o = false) later ->
  Z.of_nat (length l + length later) < 700000000 ->
  model_run l (model_init g) = Ret m -> getQualityCheckpoint m id = Ret cp ->
  exists m' cp', model_run later (model_setQualityPassRate m id rate) = Ret m' /\
    getQualityCheckpoint m' id = Ret cp' /\
    passRate cp' = f32_clamp rate kQualityRateMin kQualityRateMax.
Proof.
  intros Hl Hlater Hlen Hrun Hcp.
  destruct (model_run_good l 0 _ (model_init_ok g) Hl) as (m0 & E & Hok); [lia|unfold int_max; lia|].
  rewrite Hrun in E. injection E as <-.
  unfold getQualityCheckpoint in Hcp. destruct (sm_get id (qualityCheckpoints_ m)) as [c|] eqn:Hc; [|discriminate].
  pose proof (set_rate_external _ m id rate c Hok Hc) as He.
  destruct (external_run id _ later _ _ (proj1 (set_rate_good _ m id rate Hok)) Hlater ltac:(lia)
              ltac:(unfold int_max; lia) He) as (m' & E & [_ (c' & Hc' & Hr)]).
  exists m', c'. split; [exact E|]. unfold getQualityCheckpoint. rewrite Hc'. auto.
Qed.

(** From the field bus to the model. When the readings of the Modbus poll
    loop go through the ingest bridge into the production model, each
    equipment line the model has ends with the clamped value of its last
    supply reading, and with its old level if there was none: dropping
    repetitions loses nothing. *)
Theorem supply_readings_reach_model {G} `{RandomSource G} (g : G) l m readings id :
  Forall op_ok l -> Z.of_nat (length l) <= 700000000 -> model_run l (model_init g) = Ret m ->
  Forall (fun r => 0 <= entityId (fst r) /\ defined (semantic r)) readings ->
  0 <= id -> is_Some (supply_of m id) ->
  exists b' m', ingest bridge_init m readings = Ret (b', m') /\
    supply_of m' id = supply_after (supply_of m id) (of_key EquipmentSupplyLevel id (values_of readings)).
Proof.
  intros Hl Hlen Hrun Hr Hid Hs.
  destruct (model_run_good l 0 _ (model_init_ok g) Hl) as (m0 & E & Hok); [lia|unfold int_max; lia|].
  rewrite Hrun in E. injection E as <-.
  assert (Hlt : id < kEquipmentCount).
  { destruct Hs as [x Hx]. unfold supply_of in Hx. destruct (sm_get id (equipmentStatuses_ m)) eqn:Hg; [|discriminate].
    apply (mo_lines _ _ Hok) in Hg. lia. }
  destruct (ingest_run readings bridge_init bridge_init_ok Hr) as (b' & calls & Hi & _ & Hk).
  exists b', (foldl apply_call m calls). split; [apply Hi|].
  rewrite (apply_calls_supply calls id m (mo_equipment _ _ Hok) Hs Hlt), (Hk _ id Hid), bridge_init_last.
  unfold passed. replace (id <? 16) with true by (symmetry; apply Z.ltb_lt; unfold kEquipmentCount in Hlt; lia).
  apply supply_without_repeats; [apply of_key_kind|intros n [=]].
Qed.

(** A Start that the state machine refuses still runs a production cycle. In
    ERROR, and likewise in CALIBRATION, [startProduction] leaves the state
    as it is, yet completes an operation of the work unit and puts the second
    line to Processing, and tells the subscribers so. *)
Theorem refused_start_still_produces_refuted {G} `{RandomSource G} (g : G) :
  exists m m', model_run [OnEquipment 7; InitializeDemoData; TriggerFault "E-stop"] (model_init g) = Ret m /\
    op_apply StartProduction m = Ret m' /\
    getState m = ERROR /\ getState m' = ERROR /\
    completedOperations (getWorkUnit m') = completedOperations (getWorkUnit m) + 1 /\
    eq_status <$> sm_get 1 (equipmentStatuses_ m) = Some kEquipmentStatusOnline /\
    eq_status <$> sm_get 1 (equipmentStatuses_ m') = Some kEquipmentStatusProcessing /\
    DEquipment 7 (mkEquipment 1 kEquipmentStatusProcessing 95 "Film coating") ∈ delivered m'.
Proof.
  do 2 eexists. split; [vm_compute; reflexivity|]. split; [vm_compute; reflexivity|].
  split_and!; try (vm_compute; reflexivity). cbn. set_solver.
Qed.

(** The enable guard admits a line that does not exist. There are three
    lines, with ids 0..2; enabling id 3 passes the range check, invents an
    entry whose own id says 0, and tells the subscribers, for whom line 0
    now has no supply. *)
Theorem enable_invents_a_line_refuted {G} `{RandomSource G} (g : G) :
  exists m m', model_run [OnEquipment 7; InitializeDemoData] (model_init g) = Ret m /\
    op_apply (SetEquipmentEnabled 3 true) m = Ret m' /\
    sm_get 3 (equipmentStatuses_ m) = None /\
    sm_get 3 (equipmentStatuses_ m') = Some (mkEquipment 0 kEquipmentStatusOnline 0 "") /\
    List.last (delivered m') (DState 0 IDLE) = DEquipment 7 (mkEquipment 0 kEquipmentStatusOnline 0 "").
Proof.
  do 2 eexists. split; [vm_compute; reflexivity|]. split; [vm_compute; reflexivity|].
  split_and!; vm_compute; reflexivity.
Qed.

Definition demo_rate : RegisterMapping := mkMapping 1 InputRegister 30 QualityPassRate 0 (f32_lit 1 1).

(** An early reading is lost for good. A pass rate of 90 read before the
    checkpoints exist is dropped by the model but remembered by the bridge;
    the same rate read again once they exist is then taken for a repetition,
    and the model goes on showing 98.1. Read only afterwards it arrives. *)
Theorem early_rate_is_lost_refuted {G} `{RandomSource G} (g : G) :
  exists b m1, ingest bridge_init (model_init g) [(demo_rate, 900)] = Ret (b, m1) /\
  exists m2, op_apply InitializeDemoData m1 = Ret m2 /\
    passRate <$> sm_get 0 (qualityCheckpoints_ m2) = Some (f32_lit 981 1) /\
    ingest b m2 [(demo_rate, 900); (demo_rate, 900)] = Ret (b, m2) /\
    exists b3 m3, ingest bridge_init m2 [(demo_rate, 900)] = Ret (b3, m3) /\
      passRate <$> sm_get 0 (qualityCheckpoints_ m3) = Some (f32_of_Z 90).
Proof.
  do 2 eexists. split; [vm_compute; reflexivity|]. eexists. split; [vm_compute; reflexivity|].
  split; [vm_compute; reflexivity|]. split; [vm_compute; reflexivity|].
  do 2 eexists. split; [vm_compute; reflexivity|]. vm_compute. reflexivity.
Qed.

(* ------------------------------------------------------------------ *)
(** ** Witnesses *)

(** A generator that always draws a tenth of a percent and two units. *)
#[export] Program Instance SteadySource : RandomSource unit := {|
  rateDist g := (f32_lit 1 1, g);
  unitDist g := (2, g);
|}.
Next Obligation. intros g. vm_compute. auto. Qed.
Next Obligation. intros g. cbn. unfold kMinUnitsPerTick, kMaxUnitsPerTick. lia. Qed.

Definition demo_ops : list model_op :=
  [OnQuality 1; InitializeDemoData; StartProduction; TickSimulation 0; SetEquipmentSupplyLevel 2 140].

Lemma demo_ops_ok : Forall op_ok demo_ops.
Proof. repeat constructor; cbn; unfold is_u32; lia. Qed.

Definition demo_model : SimulatedModel unit :=
  match model_run demo_ops (model_init tt) with Ret m => m | _ => model_init tt end.

Lemma demo_ops_run : model_run demo_ops (model_init tt) = Ret demo_model.
Proof. vm_compute. reflexivity. Qed.

Lemma model_runs_well_witness :
  exists m, model_run demo_ops (model_init tt) = Ret m /\ model_ok 5 m /\
    forall id c, sm_get id (qualityCheckpoints_ m) = Some c -> rate_within (passRate c) \/ nan_set id demo_ops.
Proof. apply (model_runs_well tt demo_ops demo_ops_ok). cbn. lia. Defined.

Lemma model_tells_changes_witness :
  exists m', op_apply (SetQualityPassRate 0 (f32_of_Z 90)) demo_model = Ret m' /\ tells_changes demo_model m'.
Proof.
  apply (model_tells_changes tt demo_ops (SetQualityPassRate 0 (f32_of_Z 90)) demo_model demo_ops_ok).
  - cbn. unfold is_u32. lia.
  - cbn. lia.
  - exact demo_ops_run.
Defined.

Lemma external_rate_sticky_witness :
  exists m' cp', model_run [TickSimulation 1; TriggerFault "x"; TickSimulation 2]
      (model_setQualityPassRate demo_model 1 (f32_of_Z 250)) = Ret m' /\
    getQualityCheckpoint m' 1 = Ret cp' /\ passRate cp' = f32_of_Z 100.
Proof.
  destruct (getQualityCheckpoint demo_model 1) as [cp|e|] eqn:Hcp;
    [|vm_compute in Hcp; discriminate Hcp|vm_compute in Hcp; discriminate Hcp].
  apply (external_rate_sticky tt demo_ops 1 (f32_of_Z 250) cp demo_model
           [TickSimulation 1; TriggerFault "x"; TickSimulation 2] demo_ops_ok).
  - repeat constructor.
  - cbn. lia.
  - exact demo_ops_run.
  - exact Hcp.
Defined.

Lemma supply_readings_reach_model_witness :
  exists b' m', ingest bridge_init demo_model [(demo_supply, 850); (demo_supply, 1200)] = Ret (b', m') /\
    supply_of m' 1 = Some 100.
Proof.
  apply (supply_readings_reach_model tt demo_ops demo_model [(demo_supply, 850); (demo_supply, 1200)] 1 demo_ops_ok).
  - cbn. lia.
  - exact demo_ops_run.
  - repeat (apply Forall_cons; split; [split; [cbn; lia|vm_compute; exact I]|]). apply Forall_nil. exact I.
  - lia.
  - vm_compute. eauto.
Defined.
