(* ===== verification/Telemetry.v ===== *)
(** * Telemetry over MQTT
    (src/integration/TelemetryPublisher.h, TelemetryPayloadFormatter.h,
    PlainTextTelemetryFormatter.cpp, JsonTelemetryFormatter.cpp,
    ProductionTelemetryBridge.{h,cpp}, SensorIngestBridge.{h,cpp})

    What the model's notifications are published as, what an inbound message
    does to a model, and one station feeding another through a broker. *)
From stdpp Require Import pretty gmap.
From Stdlib Require Import SpecFloat Ascii String.
From S2P Require Import Prelude Float32 Float64 Format StdMap Wire SystemState ModbusIngest SerialLink MqttPacket ModbusPollLoop MqttClient SimulatedModel.
Local Open Scope string_scope.
Local Open Scope Z_scope.
Local Open Scope list_scope.

(* ------------------------------------------------------------------ *)
(** ** Publishing *)

Class TelemetryPublisher (P : Type) := { publish : P -> string -> string -> P }.

(** A publisher that keeps what it is asked to publish. *)
#[export] Instance LogPublisher : TelemetryPublisher (list (string * string)) := {| publish p t pl := p ++ [(t, pl)] |}.

Definition systemStateName (s : SystemState) : string :=
  match s with IDLE => "idle" | RUNNING => "running" | ERROR => "error" | CALIBRATION => "calibration" end.
Definition equipmentStatusName (status : Z) : string :=
  if status =? 0 then "offline" else if status =? 1 then "online" else if status =? 2 then "processing"
  else if status =? 3 then "error" else "unknown".
Definition qualityStatusName (status : Z) : string :=
  if status =? 0 then "passing" else if status =? 1 then "warning" else if status =? 2 then "critical" else "unknown".

Section Publishing.
Context {P : Type} `{TelemetryPublisher P}.

(** The formatter interface. *)
Record TelemetryPayloadFormatter := mkFormatter {
  publishSystemState : P -> string -> SystemState -> P;
  publishEquipment : P -> string -> EquipmentStatus -> P;
  publishQuality : P -> string -> QualityCheckpoint -> P;
}.

Definition plain_publishSystemState (publisher : P) (topicPrefix : string) (state : SystemState) : P :=
  publish publisher (topicPrefix ++ "/state")%string (systemStateName state).
Definition plain_publishEquipment (publisher : P) (topicPrefix : string) (es : EquipmentStatus) : P :=
  let publisher := publish publisher (topicPrefix ++ "/equipment/" ++ to_string (equipmentId es) ++ "/state")%string
                     (equipmentStatusName (eq_status es)) in
  publish publisher (topicPrefix ++ "/equipment/" ++ to_string (equipmentId es) ++ "/supply")%string
    (to_string (supplyLevel es)).
Definition plain_publishQuality (publisher : P) (topicPrefix : string) (qc : QualityCheckpoint) : P :=
  let publisher := publish publisher (topicPrefix ++ "/quality/" ++ to_string (checkpointId qc) ++ "/rate")%string
                     (fmt_fixed 1 (passRate qc)) in
  publish publisher (topicPrefix ++ "/quality/" ++ to_string (checkpointId qc) ++ "/status")%string
    (qualityStatusName (qc_status qc)).
Definition PlainTextTelemetryFormatter : TelemetryPayloadFormatter :=
  mkFormatter plain_publishSystemState plain_publishEquipment plain_publishQuality.

(** A quote, and a JSON member. *)
Definition kQ : string := String kQuote EmptyString.
Definition json_member (key value : string) : string := (kQ ++ key ++ kQ ++ ":" ++ value)%string.

Definition json_publishSystemState (publisher : P) (topicPrefix : string) (state : SystemState) : P :=
  publish publisher (topicPrefix ++ "/state/json")%string
    ("{" ++ json_member "state" (kQ ++ systemStateName state ++ kQ) ++ "}")%string.
Definition json_publishEquipment (publisher : P) (topicPrefix : string) (es : EquipmentStatus) : P :=
  publish publisher (topicPrefix ++ "/equipment/" ++ to_string (equipmentId es) ++ "/json")%string
    ("{" ++ json_member "id" (to_string (equipmentId es)) ++ "," ++
     json_member "state" (kQ ++ equipmentStatusName (eq_status es) ++ kQ) ++ "," ++
     json_member "supply" (to_string (supplyLevel es)) ++ "}")%string.
Definition json_publishQuality (publisher : P) (topicPrefix : string) (qc : QualityCheckpoint) : P :=
  publish publisher (topicPrefix ++ "/quality/" ++ to_string (checkpointId qc) ++ "/json")%string
    ("{" ++ json_member "id" (to_string (checkpointId qc)) ++ "," ++
     json_member "rate" (fmt_fixed 1 (passRate qc)) ++ "," ++
     json_member "status" (kQ ++ qualityStatusName (qc_status qc) ++ kQ) ++ "}")%string.
Definition JsonTelemetryFormatter : TelemetryPayloadFormatter :=
  mkFormatter json_publishSystemState json_publishEquipment json_publishQuality.

Record telemetry_config := mkTelemetryConfig { tc_topicPrefix : string; emitPlainText : bool; emitJson : bool }.

Definition makeDefaultFormatters (config : telemetry_config) : list TelemetryPayloadFormatter :=
  (if emitPlainText config then [PlainTextTelemetryFormatter] else []) ++
  (if emitJson config then [JsonTelemetryFormatter] else []).

(** The callbacks [wire] installs, on a notification of the model; it
    subscribes to the state, the equipment and the checkpoints. *)
Definition telemetry_event (config : telemetry_config) (formatters : list TelemetryPayloadFormatter) (publisher : P) (d : delivery) : P :=
  match d with
  | DState _ s => fold_left (fun p f => publishSystemState f p (tc_topicPrefix config) s) formatters publisher
  | DEquipment _ es => fold_left (fun p f => publishEquipment f p (tc_topicPrefix config) es) formatters publisher
  | DQuality _ qc => fold_left (fun p f => publishQuality f p (tc_topicPrefix config) qc) formatters publisher
  | _ => publisher
  end.
End Publishing.
Arguments TelemetryPayloadFormatter P : clear implicits.

Definition telemetry_wire {G} (me : nat) (production : SimulatedModel G) : SimulatedModel G :=
  onQualityCheckpointChanged me (onEquipmentStatusChanged me (onSystemStateChanged me production)).

(* ------------------------------------------------------------------ *)
(** ** Ingesting *)

Definition trimAsciiWs (raw : chars) : chars :=
  let (_, raw) := span isspace raw in
  let (_, raw) := span isspace (rev raw) in rev raw.

Definition parseOnOffPayload (raw : chars) : option bool :=
  let raw := trimAsciiWs raw in
  match raw with [] => None | _ => on_off raw end.

Definition parseIntPayload (raw : chars) : option Z :=
  let raw := trimAsciiWs raw in
  match raw with
  | [] => None
  | _ => match from_chars_int raw with FcOk v [] => Some v | _ => None end
  end.

(** [strtof] on the C string: it ends at the first NUL. *)
Definition parseFloatPayload (raw : chars) : option float32 :=
  let raw := trimAsciiWs raw in
  match raw with
  | [] => None
  | _ =>
      let (buf, _) := span (fun c => negb (code c =? 0)) raw in
      match strtof buf with Some (v, _, []) => Some v | _ => None end
  end.

Record ingest_config := mkIngestConfig { ic_topicPrefix : string; equipmentCount : nat; qualityCount : nat }.

(** A subscription's callback. *)
Inductive ingest_handler := HState (id : Z) | HSupply (id : Z) | HRate (id : Z).
#[export] Instance ingest_handler_eq_dec : EqDecision ingest_handler.
Proof. solve_decision. Defined.

Definition run_handler {M} `{ProductionModel M} (h : ingest_handler) (payload : chars) (model_ : M) : M :=
  match h with
  | HState id => match parseOnOffPayload payload with Some b => setEquipmentEnabled model_ id b | None => model_ end
  | HSupply id => match parseIntPayload payload with Some v => setEquipmentSupplyLevel model_ id v | None => model_ end
  | HRate id => match parseFloatPayload payload with Some r => setQualityPassRate model_ id r | None => model_ end
  end.

Definition ingest_topic (prefix : string) (h : ingest_handler) : string :=
  match h with
  | HState id => prefix ++ "/equipment/" ++ to_string id ++ "/state"
  | HSupply id => prefix ++ "/equipment/" ++ to_string id ++ "/supply"
  | HRate id => prefix ++ "/quality/" ++ to_string id ++ "/rate"
  end%string.

(** The handlers [wire] subscribes, in its order. *)
Definition ingest_handlers (config : ingest_config) : list ingest_handler :=
  flat_map (fun i => [HState (Z.of_nat i); HSupply (Z.of_nat i)]) (seq 0 (equipmentCount config)) ++
  map (fun i => HRate (Z.of_nat i)) (seq 0 (qualityCount config)).

Definition bytes_of (s : string) : list Z := map code (chars_of s).

(** [SensorIngestBridge::wire] on the client; the callback of the [n]-th
    handler has the number [n]. *)
Definition ingest_wire (config : ingest_config) (subscriber_ : MqttClient) : MqttClient :=
  fold_left (fun s '(n, h) => mqtt_subscribe (bytes_of (ingest_topic (ic_topicPrefix config) h)) n s)
    (imap pair (ingest_handlers config)) subscriber_.

(** A callback of the client is called. *)
Definition ingest_call {M} `{ProductionModel M} (config : ingest_config) (model_ : M) (call : mqtt_delivery) : M :=
  let '(n, _, payload) := call in
  match ingest_handlers config !! n with
  | Some h => run_handler h (map chr payload) model_
  | None => model_
  end.

(** The settings of the program. *)
Definition kMqttTopicPrefix : string := "industrial-hmi".
Definition kMqttSensorTopicPrefix : string := "industrial-hmi-sensors".

(* ------------------------------------------------------------------ *)
(** ** Lemmas: payloads *)

Definition no_space (l : chars) : Prop := Forall (fun c => isspace c = false) l.

Lemma span_none p l : match l with c :: _ => p c = false | [] => True end -> span p l = ([], l).
Proof. destruct l as [|c l]; [reflexivity|]. cbn. intros ->. reflexivity. Qed.

Lemma trim_id l : no_space l -> trimAsciiWs l = l.
Proof.
  intros H. unfold trimAsciiWs. rewrite span_none by (destruct H; auto).
  rewrite span_none; [apply rev_involutive|]. apply Forall_rev in H. destruct (rev l) as [|c l']; [exact I|]. inversion H; assumption.
Qed.

Lemma digit_no_space c : isdigit c = true -> isspace c = false.
Proof. unfold isdigit, isspace. rewrite andb_true_iff, orb_false_iff, andb_false_iff. lia. Qed.

Lemma to_string_no_space z : no_space (chars_of (to_string z)).
Proof.
  unfold to_string. assert (P : forall n, 0 <= n -> no_space (chars_of (pretty n))).
  { intros n Hn. destruct (pretty_digits n Hn) as (ds & -> & Hd & _). eapply Forall_impl; [exact Hd|]. apply digit_no_space. }
  destruct (Z.leb_spec 0 z); [apply P; lia|]. destruct z as [| |p]; [lia|lia|]. rewrite pretty_neg. constructor; [reflexivity|apply P; lia].
Qed.

Lemma int_payload z : int_min <= z <= int_max -> parseIntPayload (chars_of (to_string z)) = Some z.
Proof.
  intros Hz. unfold parseIntPayload. rewrite trim_id by apply to_string_no_space.
  pose proof (from_chars_pretty z [] Hz I) as F. rewrite app_nil_r in F. rewrite F.
  unfold to_string. destruct (pretty_head z) as (c & l & -> & _). reflexivity.
Qed.

Lemma state_words status : parseOnOffPayload (chars_of (equipmentStatusName status)) = None.
Proof. unfold equipmentStatusName. repeat case_match; reflexivity. Qed.

(** A rate, when it was published with one decimal and read back. *)
Definition reported_rate (r : float32) : float32 := default r (parseFloatPayload (chars_of (fmt_fixed 1 r))).

Definition tenth_ok (n : Z) : bool :=
  bool_decide (parseFloatPayload (chars_of (decimal 1 n)) = Some (f32_lit n 1)) && String.eqb (fmt_fixed 1 (f32_lit n 1)) (decimal 1 n).

Lemma tenths_check : forallb (fun k => tenth_ok (850 + Z.of_nat k)) (seq 0 151) = true.
Proof. vm_compute. reflexivity. Qed.

Lemma round_range n d a b : 0 < d -> a * d <= n <= b * d -> a <= round_half_even n d <= b.
Proof.
  intros Hd Hn. unfold round_half_even. pose proof (Z.div_mod n d ltac:(lia)) as E. pose proof (Z.mod_pos_bound n d Hd) as Hr.
  set (q := n / d) in *. set (r := n mod d) in *.
  assert (a <= q) by nia. assert (q <= b) by nia. assert (q < b \/ r = 0) by nia.
  destruct (Z.ltb_spec (2 * r) d); [lia|]. destruct (Z.ltb_spec d (2 * r)); [lia|]. destruct (Z.even q); lia.
Qed.

Lemma mantissa_not_lt a b : match Pos.compare_cont Eq a b with Lt => true | _ => false end = false -> Zpos b <= Zpos a.
Proof. change (Pos.compare_cont Eq a b) with (Pos.compare a b). destruct (Pos.compare_spec a b); [lia|discriminate|lia]. Qed.

(** The floats from 85 to 100 have one exponent. *)
Lemma rate_shape r : rate_ok r -> is_nan r = true \/ exists m, r = S754_finite false m (-17) /\ 11141120 <= Zpos m <= 13107200.
Proof.
  intros [H1 H2]. destruct r as [s|s| |s m e]; [destruct s; vm_compute in H1; discriminate| |left; reflexivity|].
  { destruct s; [vm_compute in H1; discriminate|vm_compute in H2; discriminate]. }
  - right. destruct s; [vm_compute in H1; discriminate|].
    change kQualityRateMin with (S754_finite false 11141120 (-17)) in H1. change kQualityRateMax with (S754_finite false 13107200 (-17)) in H2.
    unfold f32_ltb, SFltb, SFcompare in H1, H2.
    destruct (Z.compare e (-17)) eqn:He; [|discriminate|].
    + apply Z.compare_eq in He. subst e. change (Z.compare (-17) (-17)) with Eq in H2. exists m. split; [reflexivity|].
      split; [apply (mantissa_not_lt m 11141120 H1)|apply (mantissa_not_lt 13107200 m H2)].
    + rewrite Z.compare_antisym, He in H2. discriminate.
Qed.

Lemma rate_payload r : rate_ok r ->
  parseFloatPayload (chars_of (fmt_fixed 1 r)) = Some (reported_rate r) /\ fmt_fixed 1 (reported_rate r) = fmt_fixed 1 r.
Proof.
  intros H. unfold reported_rate. destruct (rate_shape r H) as [Hn|(m & -> & Hm)].
  - destruct r; try discriminate. vm_compute. auto.
  - set (n := round_half_even (Zpos m * 10 ^ Z.of_nat 1) (2 ^ 17)).
    assert (Hn : 850 <= n <= 1000) by (apply round_range; change (10 ^ Z.of_nat 1) with 10; change (2 ^ 17) with 131072; lia).
    change (fmt_fixed 1 (S754_finite false m (-17))) with (decimal 1 n).
    pose proof tenths_check as C. rewrite forallb_forall in C. specialize (C (Z.to_nat (n - 850))).
    replace (850 + Z.of_nat (Z.to_nat (n - 850))) with n in C by lia. assert (T : tenth_ok n = true) by (apply C, in_seq; lia).
    unfold tenth_ok in T. apply andb_true_iff in T as [T1 T2]. apply bool_decide_eq_true in T1. apply String.eqb_eq in T2.
    rewrite T1. cbn [default]. auto.
Qed.

(* ------------------------------------------------------------------ *)
(** ** Lemmas: topics *)

Lemma bytes_of_inj s t : bytes_of s = bytes_of t -> s = t.
Proof.
  unfold bytes_of. intros E. apply chars_of_inj. apply (f_equal (map chr)) in E. rewrite !chars_of_codes in E. exact E.
Qed.

Lemma digits_pretty_inj a b : 0 <= a -> 0 <= b -> to_string a = to_string b -> a = b.
Proof.
  intros Ha Hb E. unfold to_string in E. destruct (pretty_digits a Ha) as (da & Ea & _ & Va & _).
  destruct (pretty_digits b Hb) as (db & Eb & _ & Vb & _). rewrite E in Ea. congruence.
Qed.

Lemma str_app_inj (a b c : string) : (a ++ b)%string = (a ++ c)%string -> b = c.
Proof. intros E. apply (f_equal chars_of) in E. rewrite !chars_of_app in E. apply app_inv_head in E. apply chars_of_inj, E. Qed.

(** The number between the fences of two topics. *)
Lemma fenced_inj a b (s : string) : 0 <= a -> 0 <= b -> (to_string a ++ s)%string = (to_string b ++ s)%string -> a = b.
Proof.
  intros Ha Hb E. apply (f_equal chars_of) in E. rewrite !chars_of_app in E. apply app_inv_tail in E.
  apply digits_pretty_inj; auto. apply chars_of_inj, E.
Qed.

Lemma last_char (a b : string) c d : (a ++ String c EmptyString)%string = (b ++ String d EmptyString)%string -> c = d.
Proof.
  intros E. apply (f_equal chars_of) in E. rewrite !chars_of_app in E. change (chars_of a ++ [c] = chars_of b ++ [d]) in E.
  apply app_inj_tail in E as [_ E]. exact E.
Qed.

Definition handler_id (h : ingest_handler) : Z := match h with HState id | HSupply id | HRate id => id end.

Lemma str_app_assoc (a b c : string) : ((a ++ b) ++ c = a ++ b ++ c)%string.
Proof. apply chars_of_inj. rewrite !chars_of_app, app_assoc. reflexivity. Qed.

Lemma topic_inj prefix h1 h2 : 0 <= handler_id h1 -> 0 <= handler_id h2 -> ingest_topic prefix h1 = ingest_topic prefix h2 -> h1 = h2.
Proof.
  assert (L : forall (x y : string) a b, (x ++ to_string a ++ "/state")%string = (y ++ to_string b ++ "/supply")%string -> False).
  { intros x y a b E. rewrite <- !str_app_assoc in E. change "/state"%string with ("/stat" ++ "e")%string in E.
    change "/supply"%string with ("/suppl" ++ "y")%string in E. rewrite <- !str_app_assoc in E. apply last_char in E. discriminate. }
  destruct h1 as [i|i|i], h2 as [j|j|j]; cbn [ingest_topic handler_id]; intros Hi Hj E; apply str_app_inj in E; try discriminate.
  - f_equal. apply str_app_inj, fenced_inj in E; auto.
  - elim (L _ _ _ _ E).
  - elim (L _ _ _ _ (eq_sym E)).
  - f_equal. apply str_app_inj, fenced_inj in E; auto.
  - f_equal. apply str_app_inj, fenced_inj in E; auto.
Qed.

(* ------------------------------------------------------------------ *)
(** ** Lemmas: the subscription table *)

Definition topic_bytes (config : ingest_config) (h : ingest_handler) : list Z := bytes_of (ingest_topic (ic_topicPrefix config) h).

(** Every topic fits an MQTT string. *)
Definition topics_fit (config : ingest_config) : Prop :=
  Forall (fun h => Z.of_nat (length (topic_bytes config h)) <= kMaxStringLength) (ingest_handlers config).

Lemma handlers_spec config h : h ∈ ingest_handlers config <->
  0 <= handler_id h /\ match h with
    | HState id | HSupply id => id < Z.of_nat (equipmentCount config)
    | HRate id => id < Z.of_nat (qualityCount config)
    end.
Proof.
  unfold ingest_handlers. rewrite elem_of_app, !list_elem_of_In, in_flat_map, in_map_iff. setoid_rewrite in_seq. split.
  - intros [(i & Hi & [<-|[<-|[]]])|(i & <- & Hi)]; cbn; lia.
  - intros [H0 Hlt]. destruct h as [i|i|i]; cbn in *.
    1, 2: left; exists (Z.to_nat i); rewrite Z2Nat.id by exact H0; split; [lia|]; cbn; auto.
    right. exists (Z.to_nat i). rewrite Z2Nat.id by exact H0. split; [reflexivity|lia].
Qed.

Lemma topic_nonempty config h : topic_bytes config h <> [].
Proof.
  unfold topic_bytes. intros E. apply (f_equal (@length Z)) in E. unfold bytes_of in E. rewrite length_map in E.
  destruct h; cbn [ingest_topic] in E; rewrite !chars_of_app, !length_app in E;
    rewrite ?length_app in E; change (length (chars_of "/equipment/")) with 11%nat in E; change (length (chars_of "/quality/")) with 9%nat in E;
    cbn [length] in E; lia.
Qed.

(** Subscribing numbered callbacks: the last one for a topic counts. *)
Lemma subscribe_fold config (l : list (nat * ingest_handler)) :
  Forall (fun '(_, h) => Z.of_nat (length (topic_bytes config h)) <= kMaxStringLength) l ->
  forall s, let s' := fold_left (fun s '(n, h) => mqtt_subscribe (topic_bytes config h) n s) l s in
    mc_subscriptions s' = fold_left (fun m '(n, h) => <[topic_bytes config h := n]> m) l (mc_subscriptions s) /\
    mc_read s' = mc_read s.
Proof.
  induction l as [|[n h] l IH]; intros F s; [auto|]. apply Forall_cons in F as [Hh F]. cbn [fold_left].
  destruct (IH F (mqtt_subscribe (topic_bytes config h) n s)) as [E1 E2]. cbn zeta in E1, E2 |- *. rewrite E1, E2.
  unfold mqtt_subscribe. rewrite bool_decide_eq_false_2 by apply topic_nonempty.
  replace (kMaxStringLength <? _) with false by lia. cbn [orb]. destruct (negb _ || negb _); auto.
Qed.

Lemma table_lookup config (hs : list ingest_handler) : forall k (m : gmap (list Z) nat) t,
  let m' := fold_left (fun m '(n, h) => <[topic_bytes config h := n]> m) (imap (fun i h => (k + i, h)%nat) hs) m in
  (forall n, m' !! t = Some n -> m !! t = Some n \/ exists i h, n = (k + i)%nat /\ hs !! i = Some h /\ topic_bytes config h = t) /\
  (is_Some (m !! t) \/ (exists h, h ∈ hs /\ topic_bytes config h = t) -> is_Some (m' !! t)).
Proof.
  induction hs as [|h hs IH]; intros k m t; cbn [imap fold_left].
  { split; [auto|]. intros [?|(h & Hh & _)]; [assumption|inversion Hh]. }
  replace (imap _ hs) with (imap (fun i h => (S k + i, h)%nat) hs) by (apply imap_ext; intros i x _; cbn; f_equal; lia).
  rewrite Nat.add_0_r. specialize (IH (S k) (<[topic_bytes config h:=k]> m) t) as [I1 I2]. split.
  - intros n Hn. destruct (I1 n Hn) as [E|(i & h' & -> & Hi & Ht)].
    + rewrite lookup_insert_Some in E. destruct E as [[Et En]|[_ E]]; [|left; exact E].
      right. exists 0%nat, h. split; [lia|]. auto.
    + right. exists (S i), h'. split; [lia|]. auto.
  - intros Ho. apply I2. destruct (decide (topic_bytes config h = t)) as [<-|Hne]; [left; rewrite lookup_insert_eq; eauto|].
    destruct Ho as [Ho|(h' & Hh & Et)].
    + left. rewrite lookup_insert_ne by exact Hne. exact Ho.
    + right. exists h'. split; [|exact Et]. apply elem_of_cons in Hh as [->|Hh]; [contradiction|exact Hh].
Qed.

(** The table [wire] leaves on a client without subscriptions. *)
Lemma wired_table config s : topics_fit config -> mc_subscriptions s = ∅ ->
  let subs := mc_subscriptions (ingest_wire config s) in
  (forall t n, subs !! t = Some n -> exists h, ingest_handlers config !! n = Some h /\ topic_bytes config h = t) /\
  (forall h, h ∈ ingest_handlers config -> exists n, subs !! topic_bytes config h = Some n /\ ingest_handlers config !! n = Some h) /\
  mc_read (ingest_wire config s) = mc_read s.
Proof.
  intros Hfit Hs. unfold ingest_wire. change (fun s '(n, h) => mqtt_subscribe (bytes_of (ingest_topic (ic_topicPrefix config) h)) n s)
    with (fun s '(n, h) => mqtt_subscribe (topic_bytes config h) n s).
  destruct (subscribe_fold config (imap pair (ingest_handlers config))) with (s := s) as [E1 E2].
  { unfold topics_fit in Hfit. rewrite Forall_lookup; pose proof (proj1 (Forall_lookup _ _) Hfit) as Hf. intros i [n h] Hi. rewrite list_lookup_imap in Hi.
    destruct (ingest_handlers config !! i) as [h'|] eqn:Eh; [|discriminate]. injection Hi as <- <-. exact (Hf _ _ Eh). }
  cbn zeta in *. rewrite E1, E2, Hs. pose proof (table_lookup config (ingest_handlers config) 0 ∅) as T. cbn zeta in T.
  change (imap _ _) with (imap pair (ingest_handlers config)) in T.
  assert (S1 : forall t n, fold_left (fun m '(n, h) => <[topic_bytes config h := n]> m) (imap pair (ingest_handlers config)) (∅ : gmap (list Z) nat) !! t = Some n ->
    exists h, ingest_handlers config !! n = Some h /\ topic_bytes config h = t).
  { intros t n Hn. destruct (T t) as [T1 _]. destruct (T1 n Hn) as [E|(i & h & -> & Hi & Ht)]; [rewrite lookup_empty in E; discriminate|].
    eauto. }
  split; [exact S1|]. split; [|reflexivity]. intros h Hh. destruct (T (topic_bytes config h)) as [_ T2].
  destruct T2 as [n Hn]; [right; eauto|]. exists n. split; [exact Hn|]. destruct (S1 _ _ Hn) as (h' & Hl & Ht).
  unfold topic_bytes in Ht. apply bytes_of_inj, topic_inj in Ht; [subst; exact Hl| |].
  - apply (handlers_spec config), list_elem_of_lookup_2 with n, Hl.
  - apply (handlers_spec config), Hh.
Qed.

(* ------------------------------------------------------------------ *)
(** ** Lemmas: publications *)

(** What the telemetry bridge publishes for the model's news. *)
Definition published (config : telemetry_config) (news : list delivery) : list (string * string) :=
  fold_left (telemetry_event config (makeDefaultFormatters config)) news [].
Definition on_wire (p : string * string) : list Z * list Z := (bytes_of (fst p), bytes_of (snd p)).

Lemma event_appends config (p : list (string * string)) d :
  telemetry_event config (makeDefaultFormatters config) p d = p ++ telemetry_event config (makeDefaultFormatters config) [] d.
Proof.
  unfold makeDefaultFormatters. destruct d, (emitPlainText config), (emitJson config); cbn; rewrite <- ?app_assoc, ?app_nil_r; reflexivity.
Qed.

Lemma published_flat config news : published config news = flat_map (telemetry_event config (makeDefaultFormatters config) []) news.
Proof.
  unfold published. set (p := @nil (string * string)) at 1. change (flat_map ?f news) with (p ++ flat_map f news). clearbody p.
  revert p. induction news as [|d news IH]; intros p; [symmetry; apply app_nil_r|]. cbn [fold_left flat_map].
  rewrite IH, event_appends, <- app_assoc. reflexivity.
Qed.

(** The callbacks a publication reaches. *)
Definition pub_calls (subs : gmap (list Z) nat) (p : list Z * list Z) : list mqtt_delivery :=
  match subs !! fst p with Some cb => [(cb, fst p, snd p)] | None => [] end.
Definition subscribed (subs : gmap (list Z) nat) (p : list Z * list Z) : bool :=
  match subs !! fst p with Some _ => true | None => false end.

Lemma calls_of_publications subs l : flat_map (inbound_calls subs) l = flat_map (pub_calls subs) (publications l).
Proof.
  induction l as [|[t pl|h body] l IH]; [reflexivity| |exact IH]. cbn [flat_map publications]. rewrite IH. reflexivity.
Qed.

Lemma calls_of_subscribed subs ps : flat_map (pub_calls subs) (filter (subscribed subs) ps) = flat_map (pub_calls subs) ps.
Proof.
  induction ps as [|p ps IH]; [reflexivity|]. rewrite filter_cons. destruct (decide (subscribed subs p)) as [Hs|Hs]; cbn [flat_map]; rewrite IH.
  - reflexivity.
  - unfold pub_calls at 2. unfold subscribed in Hs. destruct (subs !! fst p); [elim Hs; exact I|reflexivity].
Qed.

Section Station.
Context {M : Type} `{PM : ProductionModel M} (config : ingest_config) (subs : gmap (list Z) nat).

(** The subscription table of a wired bridge. *)
Definition wired : Prop :=
  (forall t n, subs !! t = Some n -> exists h, ingest_handlers config !! n = Some h /\ topic_bytes config h = t) /\
  (forall h, h ∈ ingest_handlers config -> exists n, subs !! topic_bytes config h = Some n /\ ingest_handlers config !! n = Some h).

(** What a list of publications does to the subscriber's model. *)
Definition feed (m : M) (ps : list (string * string)) : M :=
  fold_left (ingest_call config) (flat_map (pub_calls subs) (map on_wire ps)) m.

Lemma feed_app m ps qs : feed m (ps ++ qs) = feed (feed m ps) qs.
Proof. unfold feed. rewrite map_app, flat_map_app, fold_left_app. reflexivity. Qed.

Lemma feed_topic m h pl : wired -> 0 <= handler_id h ->
  (h ∈ ingest_handlers config -> feed m [(ingest_topic (ic_topicPrefix config) h, pl)] = run_handler h (chars_of pl) m) /\
  (h ∉ ingest_handlers config -> feed m [(ingest_topic (ic_topicPrefix config) h, pl)] = m).
Proof.
  intros [W1 W2] Hpos. unfold feed. cbn [map flat_map]. unfold pub_calls, on_wire. cbn [fst snd].
  change (bytes_of (ingest_topic (ic_topicPrefix config) h)) with (topic_bytes config h). split; intros Hh.
  - destruct (W2 h Hh) as (n & -> & Hn). cbn. rewrite Hn. unfold bytes_of. rewrite chars_of_codes. reflexivity.
  - destruct (subs !! topic_bytes config h) as [n|] eqn:E; [|reflexivity]. destruct (W1 _ _ E) as (h' & Hl & Ht).
    apply bytes_of_inj, topic_inj in Ht; [subst; elim Hh; eapply list_elem_of_lookup_2, Hl| |exact Hpos].
    apply (handlers_spec config), list_elem_of_lookup_2 with n, Hl.
Qed.

Lemma feed_other m t pl : wired -> (forall h, 0 <= handler_id h -> ingest_topic (ic_topicPrefix config) h <> t) -> feed m [(t, pl)] = m.
Proof.
  intros [W1 _] Ht. unfold feed. cbn [map flat_map]. unfold pub_calls, on_wire. cbn [fst snd].
  destruct (subs !! bytes_of t) as [n|] eqn:E; [|reflexivity]. destruct (W1 _ _ E) as (h & Hl & Eh). apply bytes_of_inj in Eh.
  elim (Ht h); [|exact Eh]. apply (handlers_spec config), list_elem_of_lookup_2 with n, Hl.
Qed.
End Station.

(** A topic of another shape is no handler's. *)
Lemma json_topic prefix x h : ingest_topic prefix h <> (x ++ "n")%string.
Proof.
  intros E. destruct h; cbn [ingest_topic] in E.
  - change "/state"%string with ("/stat" ++ "e")%string in E. rewrite <- !str_app_assoc in E. apply last_char in E. discriminate.
  - change "/supply"%string with ("/suppl" ++ "y")%string in E. rewrite <- !str_app_assoc in E. apply last_char in E. discriminate.
  - change "/rate"%string with ("/rat" ++ "e")%string in E. rewrite <- !str_app_assoc in E. apply last_char in E. discriminate.
Qed.

Lemma state_topic prefix h : ingest_topic prefix h <> (prefix ++ "/state")%string.
Proof. destruct h; cbn [ingest_topic]; intros E; apply str_app_inj in E; discriminate. Qed.

Lemma status_topic prefix id h : ingest_topic prefix h <> (prefix ++ "/quality/" ++ to_string id ++ "/status")%string.
Proof.
  destruct h; cbn [ingest_topic]; intros E; [apply str_app_inj in E; discriminate..|].
  change "/rate"%string with ("/rat" ++ "e")%string in E. change "/status"%string with ("/statu" ++ "s")%string in E.
  rewrite <- !str_app_assoc in E. apply last_char in E. discriminate.
Qed.

(* ------------------------------------------------------------------ *)
(** ** Specification: what a station passes on *)

Definition delivery_ok (d : delivery) : Prop :=
  match d with
  | DEquipment _ es => 0 <= equipmentId es /\ int_min <= supplyLevel es <= int_max
  | DQuality _ qc => 0 <= checkpointId qc /\ rate_ok (passRate qc)
  | _ => True
  end.

(** The setter calls another station makes for a notification: the supply
    level as it is, the pass rate to one decimal, of the ids it subscribes
    to, when plain text is published; never an equipment state, a
    checkpoint status or a system state. *)
Definition reported_calls (pub : telemetry_config) (conf : ingest_config) (d : delivery) : list (Z * semantic_value) :=
  match d with
  | DEquipment _ es =>
      if emitPlainText pub && (equipmentId es <? Z.of_nat (equipmentCount conf)) then [(equipmentId es, VSupply (supplyLevel es))] else []
  | DQuality _ qc =>
      if emitPlainText pub && (checkpointId qc <? Z.of_nat (qualityCount conf)) then [(checkpointId qc, VRate (reported_rate (passRate qc)))]
      else []
  | _ => []
  end.

Section FeedEvents.
Context {M : Type} `{ProductionModel M} (pub : telemetry_config) (conf : ingest_config) (subs : gmap (list Z) nat).
Context (Hp : tc_topicPrefix pub = ic_topicPrefix conf) (W : wired conf subs).
Let prefix := ic_topicPrefix conf.
Let events := telemetry_event pub (makeDefaultFormatters pub) ([] : list (string * string)).

Lemma feed_json (m : M) x pl : feed conf subs m [((x ++ "/json")%string, pl)] = m.
Proof. apply feed_other; [exact W|]. intros h _. change "/json"%string with ("/jso" ++ "n")%string. rewrite <- str_app_assoc. apply json_topic. Qed.

Lemma feed_json_id (m : M) a id pl : feed conf subs m [((prefix ++ a ++ to_string id ++ "/json")%string, pl)] = m.
Proof. rewrite <- !str_app_assoc. apply feed_json. Qed.

Lemma feed_status (m : M) id pl : feed conf subs m [((prefix ++ "/quality/" ++ to_string id ++ "/status")%string, pl)] = m.
Proof. apply feed_other; [exact W|]. intros h _. apply status_topic. Qed.

Lemma feed_state_topic (m : M) pl : feed conf subs m [((prefix ++ "/state")%string, pl)] = m.
Proof. apply feed_other; [exact W|]. intros h _. apply state_topic. Qed.

Lemma feed_handler (m : M) h pl : 0 <= handler_id h ->
  feed conf subs m [(ingest_topic prefix h, pl)] = if bool_decide (h ∈ ingest_handlers conf) then run_handler h (chars_of pl) m else m.
Proof. intros Hh. destruct (feed_topic conf subs m h pl W Hh) as [F1 F2]. case_bool_decide; auto. Qed.

(** An equipment state is a word no handler understands. *)
Lemma feed_equipment_state (m : M) id status : 0 <= id ->
  feed conf subs m [((prefix ++ "/equipment/" ++ to_string id ++ "/state")%string, equipmentStatusName status)] = m.
Proof.
  intros Hid. pose proof (feed_handler m (HState id) (equipmentStatusName status) Hid) as F. cbn [ingest_topic run_handler] in F.
  rewrite state_words in F. rewrite F. destruct (bool_decide _); reflexivity.
Qed.

Lemma feed_supply (m : M) id level : 0 <= id -> int_min <= level <= int_max ->
  feed conf subs m [((prefix ++ "/equipment/" ++ to_string id ++ "/supply")%string, to_string level)] =
  if id <? Z.of_nat (equipmentCount conf) then setEquipmentSupplyLevel m id level else m.
Proof.
  intros Hid Hl. pose proof (feed_handler m (HSupply id) (to_string level) Hid) as F. cbn [ingest_topic run_handler] in F.
  rewrite (int_payload _ Hl) in F. rewrite F.
  case_bool_decide as B; rewrite handlers_spec in B; cbn [handler_id] in B; destruct (Z.ltb_spec id (Z.of_nat (equipmentCount conf))); try reflexivity; lia.
Qed.

Lemma feed_rate (m : M) id r : 0 <= id -> rate_ok r ->
  feed conf subs m [((prefix ++ "/quality/" ++ to_string id ++ "/rate")%string, fmt_fixed 1 r)] =
  if id <? Z.of_nat (qualityCount conf) then setQualityPassRate m id (reported_rate r) else m.
Proof.
  intros Hid Hr. pose proof (feed_handler m (HRate id) (fmt_fixed 1 r) Hid) as F. cbn [ingest_topic run_handler] in F.
  rewrite (proj1 (rate_payload _ Hr)) in F. rewrite F.
  case_bool_decide as B; rewrite handlers_spec in B; cbn [handler_id] in B; destruct (Z.ltb_spec id (Z.of_nat (qualityCount conf))); try reflexivity; lia.
Qed.

Lemma feed_cons (m : M) p q ps : feed conf subs m (p :: q :: ps) = feed conf subs (feed conf subs m [p]) (q :: ps).
Proof. exact (feed_app conf subs m [p] (q :: ps)). Qed.

(** A notification published by one station, on the other. *)
Lemma feed_event (m : M) d : delivery_ok d -> feed conf subs m (events d) = fold_left apply_call (reported_calls pub conf d) m.
Proof.
  intros Hd. unfold events, makeDefaultFormatters, reported_calls. destruct d as [u es|u x|u qc|u wu|u st]; try reflexivity;
    [destruct Hd as [Hid Hv]..|].
  all: destruct (emitPlainText pub), (emitJson pub); cbn [app fold_left telemetry_event publishSystemState publishEquipment publishQuality
      PlainTextTelemetryFormatter JsonTelemetryFormatter plain_publishSystemState json_publishSystemState plain_publishEquipment
      json_publishEquipment plain_publishQuality json_publishQuality publish LogPublisher andb]; rewrite ?Hp, ?feed_cons; try reflexivity.
  all: try (rewrite ?feed_equipment_state, ?feed_supply, ?feed_rate, ?feed_status, ?feed_json_id by assumption;
    destruct (_ <? _); reflexivity).
  all: rewrite ?feed_state_topic; try reflexivity; change "/state/json"%string with ("/state" ++ "/json")%string;
    rewrite <- ?str_app_assoc, feed_json; reflexivity.
Qed.
End FeedEvents.

Lemma feed_news {M} `{ProductionModel M} pub conf subs news : tc_topicPrefix pub = ic_topicPrefix conf -> wired conf subs ->
  Forall delivery_ok news -> forall m : M,
  feed conf subs m (published pub news) = fold_left apply_call (flat_map (reported_calls pub conf) news) m.
Proof.
  intros Hp W F. rewrite published_flat. induction F as [|d news Hd F IH]; intros m; [reflexivity|].
  cbn [flat_map]. rewrite feed_app, fold_left_app, (feed_event pub conf subs Hp W m d Hd). apply IH.
Qed.

(* ------------------------------------------------------------------ *)
(** ** Properties *)

(** C22: A station's telemetry reaches another's model. Publish a model's
    news, let the broker pass on, in order, the publications of the topics
    the sensor bridge of another station subscribed to: however the stream is
    cut, that station's model is driven by exactly the supply levels
    published and the pass rates to one decimal, of the ids it has, in
    order, and by nothing else; its equipment is never enabled or disabled
    by the states published. *)
Theorem telemetry_reaches_station {M} `{ProductionModel M} (pub : telemetry_config) (conf : ingest_config) (client : MqttClient)
    (news : list delivery) (l : list inbound) (chunks : list (list Z)) (m : M) :
  tc_topicPrefix pub = ic_topicPrefix conf -> topics_fit conf ->
  mc_subscriptions client = ∅ -> mc_read client = RFixed -> Forall delivery_ok news ->
  Forall inbound_ok l -> concat chunks = flat_map inbound_bytes l ->
  publications l = filter (subscribed (mc_subscriptions (ingest_wire conf client))) (map on_wire (published pub news)) ->
  exists client' calls, mqtt_receive_all chunks (ingest_wire conf client) = Ret (client', calls) /\
    fold_left (ingest_call conf) calls m = fold_left apply_call (flat_map (reported_calls pub conf) news) m.
Proof.
  intros Hp Hfit Hs Hr Hn Hl Hc Hb. destruct (wired_table conf client Hfit Hs) as (W1 & W2 & Er). rewrite Hr in Er.
  rewrite receive_chunks, Hc, (receive_frames l Hl _ Er). do 2 eexists. split; [reflexivity|].
  rewrite calls_of_publications, Hb, calls_of_subscribed.
  apply (feed_news pub conf _ news Hp (conj W1 W2) Hn m).
Qed.

(** No station hears itself. With the program's two prefixes, nothing
    the telemetry bridge publishes is on a topic the sensor bridge of the
    same process subscribed to, so publishing never drives the own model. *)
Theorem telemetry_not_echoed (pub : telemetry_config) (conf : ingest_config) (client : MqttClient) (news : list delivery) p :
  tc_topicPrefix pub = kMqttTopicPrefix -> ic_topicPrefix conf = kMqttSensorTopicPrefix -> topics_fit conf ->
  mc_subscriptions client = ∅ -> p ∈ map on_wire (published pub news) ->
  mc_subscriptions (ingest_wire conf client) !! fst p = None.
Proof.
  intros Hp Hc Hfit Hs Hin. destruct (wired_table conf client Hfit Hs) as (W1 & _ & _).
  destruct (_ !! fst p) as [n|] eqn:E; [|reflexivity]. destruct (W1 _ _ E) as (h & _ & Et). exfalso.
  assert (K : exists t x, fst p = bytes_of (kMqttTopicPrefix ++ String "/" x) /\ t = x).
  { apply list_elem_of_fmap in Hin as ([t pl] & -> & Hin). cbn [fst]. rewrite published_flat in Hin. rewrite list_elem_of_In, in_flat_map in Hin.
    destruct Hin as (d & _ & Hin). unfold makeDefaultFormatters in Hin.
    destruct d, (emitPlainText pub), (emitJson pub); cbn [app fold_left telemetry_event publishSystemState publishEquipment publishQuality
      PlainTextTelemetryFormatter JsonTelemetryFormatter plain_publishSystemState json_publishSystemState plain_publishEquipment
      json_publishEquipment plain_publishQuality json_publishQuality publish LogPublisher In] in Hin; rewrite ?Hp in Hin;
    repeat (destruct Hin as [[= <- _]|Hin]; [do 2 eexists; split; [reflexivity|reflexivity]|]); contradiction. }
  destruct K as (_ & x & K & _). rewrite K in Et. unfold topic_bytes in Et. rewrite Hc in Et. apply bytes_of_inj in Et.
  destruct h; discriminate Et.
Qed.

(* ------------------------------------------------------------------ *)
(** ** Witnesses *)

Lemma publications_ok ps :
  forallb (fun p => forallb (fun b => (0 <=? b) && (b <? 256)) (fst p) && (Z.of_nat (length (fst p)) <=? 65535) &&
    (2 + Z.of_nat (length (fst p)) + Z.of_nat (length (snd p)) <=? kMaxRemainingLength)) ps = true ->
  Forall inbound_ok (map (fun p => InPublish (fst p) (snd p)) ps).
Proof.
  intros F. rewrite forallb_forall in F. apply Forall_forall. intros i Hi. apply list_elem_of_fmap in Hi as (p & -> & Hp).
  apply list_elem_of_In, F in Hp. rewrite !andb_true_iff in Hp. destruct Hp as [[H1 H2] H3]. split; [|lia]. split; [|lia].
  rewrite forallb_forall in H1. apply Forall_forall. intros b Hb. apply list_elem_of_In, H1 in Hb. unfold is_u8. lia.
Qed.

Definition demo_publisher : telemetry_config := mkTelemetryConfig kMqttTopicPrefix true true.
Definition demo_subscriber : ingest_config := mkIngestConfig kMqttTopicPrefix 2 1.
Definition demo_news : list delivery :=
  [DState 0 RUNNING; DEquipment 0 (mkEquipment 1 1 87 ""); DEquipment 0 (mkEquipment 2 1 50 "");
   DQuality 0 (mkCheckpoint 0 "" 0 10 1 (f32_lit 92345 3) "" (f32_lit 95 0))].
Definition demo_forwarded : list (list Z * list Z) :=
  Eval vm_compute in filter (subscribed (mc_subscriptions (ingest_wire demo_subscriber mqtt_init))) (map on_wire (published demo_publisher demo_news)).

Lemma demo_topics_fit config : forallb (fun h => Z.of_nat (length (topic_bytes config h)) <=? kMaxStringLength) (ingest_handlers config) = true ->
  topics_fit config.
Proof. intros F. rewrite forallb_forall in F. apply Forall_forall. intros h Hh. apply list_elem_of_In, F in Hh. lia. Qed.

Lemma telemetry_reaches_station_witness :
  exists client' calls, mqtt_receive_all [flat_map inbound_bytes (map (fun p => InPublish (fst p) (snd p)) demo_forwarded)]
      (ingest_wire demo_subscriber mqtt_init) = Ret (client', calls) /\
    fold_left (ingest_call demo_subscriber) calls ([] : call_log) = [(1, VSupply 87); (0, VRate (f32_lit 923 1))].
Proof.
  replace [(1, VSupply 87); (0, VRate (f32_lit 923 1))] with
    (fold_left apply_call (flat_map (reported_calls demo_publisher demo_subscriber) demo_news) ([] : call_log)) by (vm_compute; reflexivity).
  apply (telemetry_reaches_station (M := call_log) demo_publisher demo_subscriber mqtt_init demo_news
    (map (fun p => InPublish (fst p) (snd p)) demo_forwarded)); try reflexivity.
  - apply demo_topics_fit. vm_compute. reflexivity.
  - repeat apply Forall_cons_2; try apply Forall_nil_2; cbn; unfold int_min, int_max, rate_ok; repeat split; try lia; vm_compute; congruence.
  - apply publications_ok. vm_compute. reflexivity.
Defined.

Lemma telemetry_not_echoed_witness :
  mc_subscriptions (ingest_wire (mkIngestConfig kMqttSensorTopicPrefix 2 1) mqtt_init) !!
    fst (on_wire ("industrial-hmi/equipment/1/supply"%string, "87"%string)) = None.
Proof.
  apply (telemetry_not_echoed demo_publisher (mkIngestConfig kMqttSensorTopicPrefix 2 1) mqtt_init demo_news); try reflexivity.
  - apply demo_topics_fit. vm_compute. reflexivity.
  - apply list_elem_of_fmap_2, list_elem_of_In. vm_compute. auto 10.
Defined.
