(* ===== verification/Historian.v ===== *)
(** * The historian
    (src/historian/HistoryRecord.h, HistoryReader.h, HistoryWriter.h,
    HistorianBridge.{h,cpp}, SqliteHistoryStore.{h,cpp},
    HistorianMaintenance.{h,cpp})

    The model's notifications become records, the bridge writes them in
    batches, the SQLite store keeps them in three tiers, answers queries and
    is swept by the maintenance worker. SQLite is a parameter: how each
    statement ends, the order of rows a SELECT leaves open, and AVG. *)
From stdpp Require Import gmap sorting.
From Stdlib Require Import SpecFloat.
From S2P Require Import Prelude Float32 Float64 Sql SystemState SimulatedModel.
Local Open Scope Z_scope.

Inductive FieldKind := QualityPassRate | EquipmentSupplyLevel | SystemStateField | Throughput | OeePercent.
#[export] Instance FieldKind_eq_dec : EqDecision FieldKind.
Proof. solve_decision. Defined.

Definition fieldCode (f : FieldKind) : string :=
  match f with QualityPassRate => "Q" | EquipmentSupplyLevel => "S" | SystemStateField => "T" | Throughput => "H" | OeePercent => "E" end.

Record HistoryRecord := mkRecord { timestampMs : Z; hr_field : FieldKind; entityId : Z; hr_value : float32 }.

Class HistoryWriter (W : Type) := { write : W -> list HistoryRecord -> W * nat }.

(* ------------------------------------------------------------------ *)
(** ** The bridge *)

Record bridge_config := mkBridgeConfig { maxBatchSize : nat; maxBatchAge : Z }.
Definition bridge_default : bridge_config := mkBridgeConfig 32 5000.

(** The steady clock counts nanoseconds; one reading of it per notification
    stands for those [enqueue] and [flushLocked] take. *)
Record HistorianBridge (W : Type) := mkBridge { writer_ : W; pending_ : list HistoryRecord; batchEpoch_ : Z }.
Arguments mkBridge {W} _ _ _.
Arguments writer_ {W} _.
Arguments pending_ {W} _.
Arguments batchEpoch_ {W} _.

Section Bridge.
Context {W : Type} `{HistoryWriter W} (config : bridge_config).

Definition flushLocked (steady : Z) (b : HistorianBridge W) : HistorianBridge W :=
  match pending_ b with
  | [] => b
  | _ => let '(w, accepted) := write (writer_ b) (pending_ b) in mkBridge w [] steady
  end.

Definition enqueue (steady : Z) (record : HistoryRecord) (b : HistorianBridge W) : HistorianBridge W :=
  let b := mkBridge (writer_ b) (pending_ b ++ [record]) (batchEpoch_ b) in
  let full := (maxBatchSize config <=? length (pending_ b))%nat in
  let stale := maxBatchAge config * 1000000 <=? steady - batchEpoch_ b in
  if full || stale then flushLocked steady b else b.

(** [static_cast<float>] of a system state. *)
Definition state_value (s : SystemState) : float32 :=
  f32_of_Z (match s with IDLE => 0 | RUNNING => 1 | ERROR => 2 | CALIBRATION => 3 end).

(** The records [wire]'s callbacks make of a notification at wall-clock time
    [now]; [oee] is the model's OEE then. *)
Definition records_of (now : Z) (oee : float32) (d : delivery) : list HistoryRecord :=
  match d with
  | DQuality _ qc => [mkRecord now QualityPassRate (checkpointId qc) (passRate qc)]
  | DEquipment _ es => [mkRecord now EquipmentSupplyLevel (equipmentId es) (f32_of_Z (supplyLevel es))]
  | DState _ s => [mkRecord now SystemStateField 0 (state_value s)]
  | DWorkUnit _ wu => [mkRecord now Throughput 0 (f32_of_f64 (throughputUnitsPerHour wu)); mkRecord now OeePercent 0 oee]
  | DActuator _ _ => []
  end.

Inductive bridge_event :=
| BeNews (d : delivery) (now : Z) (oee : float32) (steady : Z)
| BeFlush (steady : Z).

Definition bridge_step (b : HistorianBridge W) (e : bridge_event) : HistorianBridge W :=
  match e with
  | BeNews d now oee steady => fold_left (fun b r => enqueue steady r b) (records_of now oee d) b
  | BeFlush steady => flushLocked steady b
  end.
Definition bridge_run (b : HistorianBridge W) (es : list bridge_event) : HistorianBridge W := fold_left bridge_step es b.
End Bridge.

(* ------------------------------------------------------------------ *)
(** ** The database *)

Inductive Tier := Raw | Minute | Hour.
#[export] Instance Tier_eq_dec : EqDecision Tier.
Proof. solve_decision. Defined.

Record row := mkRow { r_ts : Z; r_field : string; r_entity : Z; r_val : float64 }.

(** The three tables. *)
Record tables := mkTables { samples : list row; samples_1m : list row; samples_1h : list row }.
Definition tierTable (t : Tier) (db : tables) : list row :=
  match t with Raw => samples db | Minute => samples_1m db | Hour => samples_1h db end.
Definition set_tier (t : Tier) (l : list row) (db : tables) : tables :=
  match t with
  | Raw => mkTables l (samples_1m db) (samples_1h db)
  | Minute => mkTables (samples db) l (samples_1h db)
  | Hour => mkTables (samples db) (samples_1m db) l
  end.

(** What SQLite leaves open: the order of the rows of a SELECT without ORDER
    BY, a descending order by timestamp, and AVG. *)
Class Sqlite := {
  avg : list float64 -> float64;
  any_order : list row -> list row;
  newest_first : list row -> list row;
}.
Class SqliteLaws (S : Sqlite) := {
  any_order_perm l : any_order l ≡ₚ l;
  newest_first_perm l : newest_first l ≡ₚ l;
  newest_first_sorted l : StronglySorted (fun a b => r_ts b <= r_ts a) (newest_first l);
}.

(** The store's connection; [db_schema]: the tables exist. *)
Abbreviation Store := (Database bool tables).
Abbreviation sql_prepare := (sql_prepare (fun has => has)).

(* ------------------------------------------------------------------ *)
(** ** The store *)

(** [initialize]: the file is opened (or not), and six statements create the
    tables and indices; the pragmas' results are ignored. *)
Fixpoint create_tables (n : nat) (s : Store) : bool * Store :=
  match n with
  | O => (true, s)
  | S n => let '(r, s) := statement s in if decide (r = SqlOk) then create_tables n s else (false, s)
  end.
Definition initialize (opens : bool) (s : Store) : bool * Store :=
  if negb opens then (false, mkStore false (db_schema s) (db_disk s) (db_disk s) false (db_results s))
  else
    let s := mkStore true (db_schema s) (db_disk s) (db_disk s) false (db_results s) in
    let '(_, s) := statement s in let '(_, s) := statement s in let '(_, s) := statement s in
    let '(ok, s) := create_tables 6 s in
    (ok, st_schema (db_schema s || ok) s).

(** The casts to the columns' types. *)
Definition row_of (r : HistoryRecord) : row :=
  mkRow (timestampMs r) (fieldCode (hr_field r)) (i32 (entityId r)) (f64_of_f32 (hr_value r)).

Fixpoint insert_all (records : list HistoryRecord) (accepted : nat) (s : Store) : nat * Store :=
  match records with
  | [] => (accepted, s)
  | r :: records =>
      let '(ok, s) := sql_change (fun db => set_tier Raw (samples db ++ [row_of r]) db) s in
      insert_all records (if ok : bool then S accepted else accepted) s
  end.

Definition store_write (s : Store) (records : list HistoryRecord) : Store * nat :=
  if bool_decide (records = []) || negb (db_open s) then (s, 0%nat)
  else
    let '(begun, s) := sql_begin s in
    if negb begun then (s, 0%nat)
    else
      let '(prepared, s) := sql_prepare s in
      if negb prepared then (st_rollback s, 0%nat)
      else
        let '(accepted, s) := insert_all records 0 s in
        (sql_commit s, accepted).
#[export] Instance StoreWriter : HistoryWriter Store := {| write := store_write |}.

Record QueryRange := mkRange { fromMs : Z; toMs : Z; limit : Z }.
Definition kDefaultLimit : Z := 10000.
Definition kOneHourMs : Z := 3600000.
Definition kOneDayMs : Z := 24 * kOneHourMs.

Definition int64 (z : Z) : outcome Z := if (-9223372036854775808 <=? z) && (z <=? 9223372036854775807) then Ret z else Undef.

Definition tierForRange (range : QueryRange) : outcome Tier :=
  durationMs ← int64 (toMs range - fromMs range);
  Ret (if durationMs <=? kOneHourMs then Raw else if durationMs <=? kOneDayMs then Minute else Hour).

Section Sqlite.
Context `{Sqlite}.

(** The SELECT, its rows newest first. *)
Definition select_rows (field : string) (entity from to : Z) (lim : option nat) (t : list row) : list row :=
  let rows := newest_first (filter (fun r => r_field r = field /\ r_entity r = entity /\ from <= r_ts r /\ r_ts r <= to) t) in
  match lim with Some n => take n rows | None => rows end.

(** [LIMIT ?]: a negative limit is none; a size beyond 2^63 becomes one. *)
Definition sql_limit (n : Z) : option nat := if (n =? 0) || (9223372036854775808 <=? n) then None else Some (Z.to_nat n).

Definition store_query (s : Store) (field : FieldKind) (entity : Z) (range : QueryRange) : outcome (Store * list HistoryRecord) :=
  if negb (db_open s) then Ret (s, [])
  else
    tier ← tierForRange range;
    let '(prepared, s) := sql_prepare s in
    if negb prepared then Ret (s, [])
    else
      let rows := select_rows (fieldCode field) (i32 entity) (fromMs range) (toMs range) (sql_limit (limit range)) (tierTable tier (db_view s)) in
      let '(r, s) := statement s in
      let rows := match r with SqlOk => rows | SqlCut n => take n rows | _ => [] end in
      Ret (s, reverse (map (fun r => mkRecord (r_ts r) field entity (f32_of_f64 (r_val r))) rows)).

Definition rowCount (tier : Tier) (s : Store) : nat * Store :=
  if negb (db_open s) then (0%nat, s)
  else
    let '(prepared, s) := sql_prepare s in
    if negb prepared then (0%nat, s)
    else
      let '(r, s) := statement s in
      (match r with SqlOk => length (tierTable tier (db_view s)) | _ => 0%nat end, s).
Definition totalSamples (s : Store) : nat * Store := rowCount Raw s.

(** The groups of [GROUP BY (ts / bucket), field, entity]. *)
Definition group_key : Type := Z * string * Z.
Definition key_of (bucket : Z) (r : row) : group_key := (Z.quot (r_ts r) bucket, r_field r, r_entity r).
Definition group_row (bucket : Z) (t : list row) (k : group_key) : row :=
  let '(q, field, entity) := k in
  mkRow (q * bucket) field entity (avg (map r_val (filter (fun r => key_of bucket r = k) t))).
Definition fold_rows (bucket : Z) (old : list row) : list row :=
  any_order (map (group_row bucket old) (remove_dups (map (key_of bucket) old))).

Definition older (cutoff : Z) (t : list row) : list row := filter (fun r => r_ts r < cutoff) t.
Definition newer (cutoff : Z) (t : list row) : list row := filter (fun r => ¬ r_ts r < cutoff) t.

Definition demoteOlderThan (src dst : Tier) (olderThanMs bucketMs : Z) (s : Store) : Store * nat :=
  if negb (db_open s) || (bucketMs <=? 0) || bool_decide (src = dst) then (s, 0%nat)
  else
    let '(begun, s) := sql_begin s in
    if negb begun then (s, 0%nat)
    else
      let '(prepared, s) := sql_prepare s in
      if negb prepared then (st_rollback s, 0%nat)
      else
        let '(inserted, s) := sql_change (fun db =>
          set_tier dst (tierTable dst db ++ fold_rows bucketMs (older olderThanMs (tierTable src db))) db) s in
        if negb inserted then (st_rollback s, 0%nat)
        else
          let '(prepared, s) := sql_prepare s in
          if negb prepared then (st_rollback s, 0%nat)
          else
            let gone := length (older olderThanMs (tierTable src (db_view s))) in
            let '(deleted, s) := sql_change (fun db => set_tier src (newer olderThanMs (tierTable src db)) db) s in
            (sql_commit s, if deleted : bool then gone else 0%nat).

(* ------------------------------------------------------------------ *)
(** ** Maintenance *)

Record maintenance_config := mkMaintenance { sweepInterval : Z; rawRetention : Z; minuteRetention : Z }.
Definition maintenance_default : maintenance_config := mkMaintenance 60000 3600000 86400000.
Definition kMinuteBucketMs : Z := 60000.
Definition kHourBucketMs : Z := 3600000.

Definition runOnce (config : maintenance_config) (now : Z) (s : Store) : outcome Store :=
  rawCutoff ← int64 (now - rawRetention config);
  let '(s, demotedRaw) := demoteOlderThan Raw Minute rawCutoff kMinuteBucketMs s in
  minCutoff ← int64 (now - minuteRetention config);
  let '(s, demotedMin) := demoteOlderThan Minute Hour minCutoff kHourBucketMs s in
  Ret s.

(** The worker: [loop] sweeps when it starts and whenever the interval has
    passed, until it is stopped; the bridge writes in between. *)
Record HistorianMaintenance := mkWorker { running_ : bool; hm_store : Store }.
Inductive maintenance_event := MStart (now : Z) | MInterval (now : Z) | MStop | MWrite (records : list HistoryRecord).

Definition maintenance_step (config : maintenance_config) (e : maintenance_event) (m : HistorianMaintenance) : outcome HistorianMaintenance :=
  match e with
  | MStart now => if running_ m then Ret m else s ← runOnce config now (hm_store m); Ret (mkWorker true s)
  | MInterval now => if running_ m then s ← runOnce config now (hm_store m); Ret (mkWorker true s) else Ret m
  | MStop => Ret (mkWorker false (hm_store m))
  | MWrite records => Ret (mkWorker (running_ m) (fst (store_write (hm_store m) records)))
  end.
Fixpoint maintenance_run (config : maintenance_config) (es : list maintenance_event) (m : HistorianMaintenance) : outcome HistorianMaintenance :=
  match es with [] => Ret m | e :: es => m ← maintenance_step config e m; maintenance_run config es m end.
End Sqlite.

(* ------------------------------------------------------------------ *)
(** ** Lemmas: the bridge *)

Definition event_records (e : bridge_event) : list HistoryRecord :=
  match e with BeNews d now oee _ => records_of now oee d | BeFlush _ => [] end.

Section BridgeLemmas.
Context {W : Type} `{HistoryWriter W} (config : bridge_config).
Let cap := Nat.max 1 (maxBatchSize config).

(** The records so far, cut into the batches written and the pending ones. *)
Definition batched (w : W) (rs : list HistoryRecord) (b : HistorianBridge W) : Prop :=
  exists batches, writer_ b = fold_left (fun w l => fst (write w l)) batches w /\ concat batches ++ pending_ b = rs /\
    Forall (fun l => l <> [] /\ (length l <= cap)%nat) batches.

Lemma flush_batched w rs b steady : batched w rs b -> (length (pending_ b) <= cap)%nat ->
  batched w rs (flushLocked steady b) /\ pending_ (flushLocked steady b) = [].
Proof.
  intros (bs & Hw & Hr & F) Hl. unfold flushLocked. destruct (pending_ b) as [|r l] eqn:E.
  - split; [|exact E]. exists bs. rewrite E. auto.
  - destruct (write (writer_ b) (r :: l)) as [w' n] eqn:Ew. split; [|reflexivity]. exists (bs ++ [r :: l]). cbn [writer_ pending_].
    rewrite fold_left_app, <- Hw. cbn [fold_left]. rewrite Ew. split; [reflexivity|]. split.
    + rewrite concat_app. cbn [concat]. rewrite !app_nil_r. exact Hr.
    + apply Forall_app. split; [exact F|]. apply Forall_singleton. split; [discriminate|exact Hl].
Qed.

Lemma enqueue_batched w rs b steady r : batched w rs b -> (length (pending_ b) < cap)%nat ->
  batched w (rs ++ [r]) (enqueue config steady r b) /\ (length (pending_ (enqueue config steady r b)) < cap)%nat.
Proof.
  intros (bs & Hw & Hr & F) Hl. unfold enqueue.
  set (b' := mkBridge (writer_ b) (pending_ b ++ [r]) (batchEpoch_ b)).
  assert (B : batched w (rs ++ [r]) b') by (exists bs; cbn [b' writer_ pending_]; rewrite app_assoc, Hr; auto).
  assert (L : length (pending_ b') = S (length (pending_ b))) by (cbn; rewrite length_app; cbn; lia).
  destruct (flush_batched w _ b' steady B ltac:(lia)) as [B' P'].
  destruct (Nat.leb_spec (maxBatchSize config) (length (pending_ b'))); cbn [orb]; [rewrite P'; split; [exact B'|unfold cap; cbn; lia]|].
  destruct (_ <=? _); [rewrite P'; split; [exact B'|unfold cap; cbn; lia]|]. split; [exact B|unfold cap in *; lia].
Qed.

Lemma enqueue_all w rs' : forall rs b steady, batched w rs b -> (length (pending_ b) < cap)%nat ->
  let b' := fold_left (fun b r => enqueue config steady r b) rs' b in
  batched w (rs ++ rs') b' /\ (length (pending_ b') < cap)%nat.
Proof.
  induction rs' as [|r rs' IH]; intros rs b steady B L; cbn [fold_left]; [rewrite app_nil_r; auto|].
  destruct (enqueue_batched w rs b steady r B L) as [B' L']. replace (rs ++ r :: rs') with ((rs ++ [r]) ++ rs') by (rewrite <- app_assoc; reflexivity).
  apply IH; auto.
Qed.

Lemma bridge_batched w es : forall rs b, batched w rs b -> (length (pending_ b) < cap)%nat ->
  batched w (rs ++ flat_map event_records es) (bridge_run config b es) /\ (length (pending_ (bridge_run config b es)) < cap)%nat.
Proof.
  induction es as [|e es IH]; intros rs b B L; [rewrite app_nil_r; auto|]. unfold bridge_run in *. cbn [fold_left flat_map].
  rewrite app_assoc. destruct e as [d now oee steady|steady]; cbn [bridge_step event_records].
  - destruct (enqueue_all w (records_of now oee d) rs b steady B L) as [B' L']. apply IH; assumption.
  - rewrite app_nil_r. destruct (flush_batched w rs b steady B ltac:(lia)) as [B' P']. apply IH; [exact B'|rewrite P'; cbn; lia].
Qed.
End BridgeLemmas.

(* ------------------------------------------------------------------ *)
(** ** Lemmas: a store nothing goes wrong with *)

Record healthy (s : Store) : Prop := {
  hl_open : db_open s = true;
  hl_schema : db_schema s = true;
  hl_view : db_view s = db_disk s;
  hl_tx : db_in_tx s = false;
  hl_results : db_results s = [];
}.

(** A healthy store with these tables. *)
Definition at_rest (db : tables) : Store := mkStore true true db db false [].

Lemma healthy_at_rest s : healthy s -> s = at_rest (db_disk s).
Proof. intros [H1 H2 H3 H4 H5]. destruct s as [o c d v x r]. cbn in *. subst. reflexivity. Qed.
Lemma at_rest_healthy db : healthy (at_rest db).
Proof. constructor; reflexivity. Qed.

Definition add_raw (rs : list HistoryRecord) (db : tables) : tables := set_tier Raw (samples db ++ map row_of rs) db.

Lemma insert_all_rest disk rs : forall n db,
  insert_all rs n (mkStore true true disk db true []) = ((n + length rs)%nat, mkStore true true disk (add_raw rs db) true []).
Proof.
  induction rs as [|r rs IH]; intros n db; cbn [insert_all length map].
  - unfold add_raw. destruct db. cbn. rewrite app_nil_r, Nat.add_0_r. reflexivity.
  - unfold sql_change, st_set_view. cbn [statement hd tl db_results db_open db_schema db_disk db_view db_in_tx st_set_view].
    rewrite IH.
    f_equal; [lia|]. f_equal. unfold add_raw. destruct db. cbn. rewrite <- app_assoc. reflexivity.
Qed.

Lemma write_rest db rs : store_write (at_rest db) rs = (at_rest (add_raw rs db), length rs).
Proof.
  unfold store_write, at_rest. destruct rs as [|r rs].
  - cbn. unfold add_raw. destruct db. cbn. rewrite app_nil_r. reflexivity.
  - rewrite bool_decide_eq_false_2 by discriminate. cbn [orb negb db_open].
    unfold sql_begin. cbn [statement hd tl db_results db_open db_schema db_disk db_view db_in_tx negb andb]. rewrite bool_decide_eq_true_2 by reflexivity.
    cbn [negb st_begin db_open db_schema db_disk db_view db_in_tx db_results]. unfold sql_prepare.
    cbn [statement hd tl db_results db_open db_schema db_disk db_view db_in_tx andb]. rewrite bool_decide_eq_true_2 by reflexivity. cbn [negb].
    rewrite insert_all_rest. cbn [Nat.add]. reflexivity.
Qed.

Lemma add_raw_app rs rs' db : add_raw rs' (add_raw rs db) = add_raw (rs ++ rs') db.
Proof. unfold add_raw. destruct db. cbn. rewrite map_app, app_assoc. reflexivity. Qed.

Lemma writes_rest batches : forall db, fold_left (fun w l => fst (write w l)) batches (at_rest db) = at_rest (add_raw (concat batches) db).
Proof.
  induction batches as [|l batches IH]; intros db; cbn [fold_left concat]; [unfold add_raw; destruct db; cbn; rewrite app_nil_r; reflexivity|].
  cbn [write StoreWriter]. rewrite write_rest. cbn [fst]. rewrite IH, add_raw_app. reflexivity.
Qed.

(* ------------------------------------------------------------------ *)
(** ** Lemmas: queries *)

Definition is_f32 (r : float32) : Prop := valid_binary fprec femax r = true.
Definition record_ok (r : HistoryRecord) : Prop := is_u32 (entityId r) /\ is_f32 (hr_value r).

Lemma fieldCode_inj f g : fieldCode f = fieldCode g -> f = g.
Proof. destruct f, g; try reflexivity; discriminate. Qed.

(** The records of a series in a range. *)
Definition in_series (field : FieldKind) (entity from to : Z) (r : HistoryRecord) : Prop :=
  hr_field r = field /\ entityId r = entity /\ from <= timestampMs r /\ timestampMs r <= to.
#[export] Instance in_series_dec field entity from to r : Decision (in_series field entity from to r).
Proof. unfold in_series. apply _. Defined.

Definition in_select (field : string) (entity from to : Z) (r : row) : Prop :=
  r_field r = field /\ r_entity r = entity /\ from <= r_ts r /\ r_ts r <= to.
#[export] Instance in_select_dec field entity from to r : Decision (in_select field entity from to r).
Proof. unfold in_select. apply _. Defined.

Definition read_row (field : FieldKind) (entity : Z) (r : row) : HistoryRecord := mkRecord (r_ts r) field entity (f32_of_f64 (r_val r)).

Lemma series_of_rows field entity from to rs : is_u32 entity -> Forall record_ok rs ->
  map (read_row field entity) (filter (in_select (fieldCode field) (i32 entity) from to) (map row_of rs)) =
  filter (in_series field entity from to) rs.
Proof.
  intros He F. induction F as [|r rs [Hr Hv] F IH]; [reflexivity|]. cbn [map]. rewrite !filter_cons.
  destruct (decide (in_series field entity from to r)) as [D|D].
  - rewrite decide_True by (destruct D as (<- & <- & ?); split; [reflexivity|]; split; [reflexivity|exact H]). cbn [map]. rewrite IH. f_equal.
    destruct D as (<- & <- & _). unfold read_row, row_of. cbn. rewrite f32_through_double by exact Hv. destruct r. reflexivity.
  - rewrite decide_False; [exact IH|]. intros (E1 & E2 & E3). apply D. split; [apply fieldCode_inj, E1|]. split; [|exact E3].
    apply i32_inj; assumption.
Qed.

(** The newest records of [all], oldest first: all of them without a limit. *)
Definition newest (n : option nat) (all out : list HistoryRecord) : Prop :=
  StronglySorted (fun a b => timestampMs a <= timestampMs b) out /\
  exists rest, out ++ rest ≡ₚ all /\ (forall a b, a ∈ rest -> b ∈ out -> timestampMs a <= timestampMs b) /\
    match n with Some n => length out = Nat.min n (length all) | None => rest = [] end.

Lemma sorted_reverse {A} (R : A -> A -> Prop) l : StronglySorted R l -> StronglySorted (fun a b => R b a) (reverse l).
Proof.
  induction l as [|x l IH]; intros HS; [constructor|]. apply StronglySorted_inv in HS as [HS F]. rewrite reverse_cons.
  apply StronglySorted_app_2; [|apply IH, HS|repeat constructor]. intros a b Ha Hb. rewrite elem_of_reverse in Ha. apply list_elem_of_singleton in Hb as ->.
  rewrite Forall_forall in F. apply F, Ha.
Qed.

Section QueryLemmas.
Context {S : Sqlite} {SL : SqliteLaws S}.

Lemma select_newest field entity from to n t (read : row -> HistoryRecord) :
  (forall r, timestampMs (read r) = r_ts r) ->
  newest n (map read (filter (in_select field entity from to) t)) (reverse (map read (select_rows field entity from to n t))).
Proof.
  intros Hts. unfold select_rows. change (filter (fun r => r_field r = field /\ _) t) with (filter (in_select field entity from to) t).
  set (F := filter (in_select field entity from to) t). pose proof (newest_first_perm F) as P. pose proof (newest_first_sorted F) as HS.
  set (N := newest_first F) in *. set (k := match n with Some k => k | None => length N end).
  assert (E : match n with Some n => take n N | None => N end = take k N) by (unfold k; destruct n; [reflexivity|rewrite take_ge by lia; reflexivity]).
  rewrite E. rewrite <- (take_drop k N) in HS. apply StronglySorted_app in HS as (H1 & H2 & _). split.
  - apply (sorted_reverse (fun a b => timestampMs b <= timestampMs a)). apply (StronglySorted_fmap read (fun a b => r_ts b <= r_ts a)); [|exact H2].
    intros x y. rewrite !Hts. auto.
  - exists (map read (drop k N)). split; [|split].
    + rewrite reverse_Permutation, <- map_app, take_drop. apply Permutation_map, P.
    + intros a b Ha Hb. apply list_elem_of_fmap in Ha as (x & -> & Hx). rewrite elem_of_reverse in Hb; apply list_elem_of_fmap in Hb as (y & -> & Hy). rewrite !Hts.
      apply (H1 y x Hy Hx).
    + destruct n as [n|]; [|unfold k; rewrite drop_all; reflexivity].
      rewrite length_reverse, !length_map, length_take. f_equal. apply Permutation_length, P.
Qed.

Lemma query_rest db field entity range tier : tierForRange range = Ret tier ->
  exists out, store_query (at_rest db) field entity range = Ret (at_rest db, out) /\
    newest (sql_limit (limit range)) (map (read_row field entity) (filter (in_select (fieldCode field) (i32 entity) (fromMs range) (toMs range)) (tierTable tier db))) out.
Proof.
  intros Ht. unfold store_query, at_rest. cbn [negb db_open]. rewrite Ht. cbn [mbind outcome_bind]. unfold sql_prepare.
  cbn [statement hd tl db_results db_open db_schema db_disk db_view db_in_tx andb]. rewrite bool_decide_eq_true_2 by reflexivity. cbn [negb].
  cbn [statement hd tl db_results db_open db_schema db_disk db_view db_in_tx]. eexists. split; [reflexivity|].
  apply (select_newest _ _ _ _ _ _ (read_row field entity)). reflexivity.
Qed.
End QueryLemmas.

(* ------------------------------------------------------------------ *)
(** ** Lemmas: demotion *)

Definition floor_to (bucket ts : Z) : Z := Z.quot ts bucket * bucket.

(** A table folded into the buckets of another: one row per bucket and
    series, at the bucket's start, with the average of its rows. *)
Definition folded `{Sqlite} (bucket : Z) (old new : list row) : Prop :=
  map (key_of bucket) new ≡ₚ remove_dups (map (key_of bucket) old) /\
  (forall g, g ∈ new -> r_ts g = floor_to bucket (r_ts g) /\ r_val g = avg (map r_val (filter (fun r => key_of bucket r = key_of bucket g) old))) /\
  (forall r, r ∈ old -> exists g, g ∈ new /\ r_field g = r_field r /\ r_entity g = r_entity r /\ r_ts g = floor_to bucket (r_ts r)).

Section DemoteLemmas.
Context {S : Sqlite} {SL : SqliteLaws S}.

Lemma group_key_of bucket old k : 0 < bucket -> key_of bucket (group_row bucket old k) = k.
Proof. intros Hb. destruct k as [[q f] e]. unfold key_of, group_row. cbn. rewrite Z.quot_mul by lia. reflexivity. Qed.

Lemma fold_rows_folded bucket old : 0 < bucket -> folded bucket old (fold_rows bucket old).
Proof.
  intros Hb. unfold fold_rows. pose proof (any_order_perm (map (group_row bucket old) (remove_dups (map (key_of bucket) old)))) as P.
  split; [|split].
  - rewrite P. rewrite map_map. erewrite map_ext; [rewrite map_id; reflexivity|]. intros k. apply group_key_of, Hb.
  - intros g Hg. rewrite P in Hg. apply list_elem_of_fmap in Hg as (k & -> & _). rewrite group_key_of by exact Hb.
    destruct k as [[q f] e]. cbn. unfold floor_to. rewrite Z.quot_mul by lia. auto.
  - intros r Hr. exists (group_row bucket old (key_of bucket r)). split; [rewrite P; apply list_elem_of_fmap_2, elem_of_remove_dups, list_elem_of_fmap_2, Hr|].
    unfold key_of, group_row, floor_to. cbn. auto.
Qed.

(** The tables after a demotion, and after one whose DELETE failed. *)
Definition half_demoted (src dst : Tier) (cutoff bucket : Z) (db : tables) : tables :=
  set_tier dst (tierTable dst db ++ fold_rows bucket (older cutoff (tierTable src db))) db.
Definition demoted (src dst : Tier) (cutoff bucket : Z) (db : tables) : tables :=
  set_tier src (newer cutoff (tierTable src db)) (half_demoted src dst cutoff bucket db).

Lemma tier_set_eq t l db : tierTable t (set_tier t l db) = l.
Proof. destruct t; reflexivity. Qed.
Lemma tier_set_ne t u l db : t <> u -> tierTable u (set_tier t l db) = tierTable u db.
Proof. destruct t, u; try reflexivity; congruence. Qed.

Lemma half_src src dst cutoff bucket db : src <> dst -> tierTable src (half_demoted src dst cutoff bucket db) = tierTable src db.
Proof. intros Hne. apply tier_set_ne. congruence. Qed.

Lemma demote_rest src dst cutoff bucket db : 0 < bucket -> src <> dst ->
  demoteOlderThan src dst cutoff bucket (at_rest db) = (at_rest (demoted src dst cutoff bucket db), length (older cutoff (tierTable src db))).
Proof.
  intros Hb Hne. unfold demoteOlderThan, at_rest. rewrite bool_decide_eq_false_2 by exact Hne. replace (bucket <=? 0) with false by lia.
  cbn [db_open negb orb]. unfold sql_begin, sql_prepare, sql_change, sql_commit, st_begin, st_set_view, st_commit.
  cbn [statement hd tl db_results db_open db_schema db_disk db_view db_in_tx negb andb].
  repeat (rewrite bool_decide_eq_true_2 by reflexivity; cbn [statement hd tl db_results db_open db_schema db_disk db_view db_in_tx negb andb]).
  fold (half_demoted src dst cutoff bucket db). rewrite half_src by exact Hne. reflexivity.
Qed.

(** How the statements of a demotion end: BEGIN, the two of the INSERT, the
    two of the DELETE, COMMIT. *)
Definition ends (s : Store) (i : nat) : sql_result := hd SqlOk (Nat.iter i (@tl sql_result) (db_results s)).

(** The demotion gets as far as its DELETE. *)
Definition reaches_delete (bucket : Z) (s : Store) : bool :=
  db_open s && (0 <? bucket) && db_schema s &&
  bool_decide (ends s 0 = SqlOk) && bool_decide (ends s 1 = SqlOk) && bool_decide (ends s 2 = SqlOk) && bool_decide (ends s 3 = SqlOk).

(** What a demotion makes of the connection, by how its statements end. *)
Record demotion_ends (src dst : Tier) (cutoff bucket : Z) (s : Store) (r : Store * nat) : Prop := {
  de_disk : db_disk (fst r) =
    (if reaches_delete bucket s && bool_decide (ends s 5 = SqlOk) then
       match ends s 4 with
       | SqlOk => demoted src dst cutoff bucket (db_disk s)
       | SqlRolledBack => db_disk s
       | _ => half_demoted src dst cutoff bucket (db_disk s)
       end
     else db_disk s);
  de_count : snd r =
    (if reaches_delete bucket s && bool_decide (ends s 4 = SqlOk) then length (older cutoff (tierTable src (db_disk s))) else 0%nat);
  de_closed : db_in_tx (fst r) = reaches_delete bucket s && bool_decide (ends s 4 <> SqlRolledBack) &&
    bool_decide (ends s 5 <> SqlOk) && bool_decide (ends s 5 <> SqlRolledBack);
  de_view : db_in_tx (fst r) = false -> db_view (fst r) = db_disk (fst r);
}.

(** Evaluation of a connection's statements, with the test [HR] alongside. *)
Ltac sql_cbn HR := cbn [negb orb andb fst snd statement st_begin st_commit st_rollback st_set_view db_open db_schema db_disk db_view db_in_tx db_results] in HR |- *.
Ltac sql_ok HR e :=
  let H := fresh "H" in
  destruct (decide (e = SqlOk)) as [H|H];
  [rewrite (bool_decide_eq_true_2 _ H) in HR |- *|rewrite (bool_decide_eq_false_2 _ H) in HR |- *]; sql_cbn HR.

(** A case of [demote_cases]: how the run that is left ends. *)
Ltac demote_case K HR := apply K; rewrite ?HR, ?andb_false_r; cbn; first [reflexivity|auto].

(** A demotion however its statements end. *)
Lemma demote_cases src dst cutoff bucket s : db_view s = db_disk s -> db_in_tx s = false -> src <> dst ->
  demotion_ends src dst cutoff bucket s (demoteOlderThan src dst cutoff bucket s).
Proof.
  intros Hv Hx Hne. destruct s as [o c d v x rs]. cbn in Hv, Hx. subst v x. destruct o; [|constructor; reflexivity].
  set (E := ends (mkStore true c d d false rs)). set (R := reaches_delete bucket (mkStore true c d d false rs)).
  assert (HR : R = (0 <? bucket) && c && bool_decide (E 0%nat = SqlOk) && bool_decide (E 1%nat = SqlOk) && bool_decide (E 2%nat = SqlOk) && bool_decide (E 3%nat = SqlOk)) by reflexivity.
  assert (K : forall d' v' x' n o' c' l,
    d' = (if R && bool_decide (E 5%nat = SqlOk) then match E 4%nat with SqlOk => demoted src dst cutoff bucket d | SqlRolledBack => d | _ => half_demoted src dst cutoff bucket d end else d) ->
    n = (if R && bool_decide (E 4%nat = SqlOk) then length (older cutoff (tierTable src d)) else 0%nat) ->
    x' = R && bool_decide (E 4%nat <> SqlRolledBack) && bool_decide (E 5%nat <> SqlOk) && bool_decide (E 5%nat <> SqlRolledBack) ->
    (x' = false -> v' = d') ->
    demotion_ends src dst cutoff bucket (mkStore true c d d false rs) (mkStore o' c' d' v' x' l, n)).
  { intros d' v' x' n o' c' l H1 H2 H3 H4. constructor; [exact H1|exact H2|exact H3|exact H4]. }
  unfold demoteOlderThan. rewrite (bool_decide_eq_false_2 (src = dst)) by exact Hne. rewrite orb_false_r. cbn [db_open].
  replace (bucket <=? 0) with (negb (0 <? bucket)) by lia.
  cbn [negb orb].
  destruct (0 <? bucket); sql_cbn HR; [|demote_case K HR].
  unfold sql_begin. sql_cbn HR. change (hd SqlOk rs) with (E 0%nat). sql_ok HR (E 0%nat); [|demote_case K HR].
  unfold Sql.sql_prepare. sql_cbn HR. change (hd SqlOk (tl rs)) with (E 1%nat).
  destruct c; sql_cbn HR; [|demote_case K HR]. sql_ok HR (E 1%nat); [|demote_case K HR].
  unfold sql_change. sql_cbn HR. change (hd SqlOk (tl (tl rs))) with (E 2%nat).
  destruct (E 2%nat); [change (bool_decide (SqlOk = SqlOk)) with true in HR|demote_case K HR..]. sql_cbn HR.
  fold (half_demoted src dst cutoff bucket d). change (hd SqlOk (tl (tl (tl rs)))) with (E 3%nat).
  sql_ok HR (E 3%nat); [|demote_case K HR].
  change (hd SqlOk (tl (tl (tl (tl rs))))) with (E 4%nat). rewrite half_src by exact Hne.
  fold (demoted src dst cutoff bucket d).
  destruct (E 4%nat) eqn:E4; sql_cbn HR; unfold sql_commit; sql_cbn HR; change (hd SqlOk (tl (tl (tl (tl (tl rs)))))) with (E 5%nat);
    destruct (E 5%nat) eqn:E5; sql_cbn HR; apply K; rewrite ?HR, ?E4, ?E5; cbn; first [reflexivity|discriminate|auto].
Qed.
End DemoteLemmas.

(* ------------------------------------------------------------------ *)
(** ** Lemmas: sweeping *)

(** A sample is in the raw table, or its minute or its hour is. *)
Definition represented (db : tables) (field : string) (entity ts : Z) : Prop :=
  exists r, r_field r = field /\ r_entity r = entity /\
    (r ∈ samples db /\ r_ts r = ts \/ r ∈ samples_1m db /\ r_ts r = floor_to kMinuteBucketMs ts \/
     r ∈ samples_1h db /\ r_ts r = floor_to kHourBucketMs (floor_to kMinuteBucketMs ts)).

(** Nothing represented is lost. *)
Definition keeps (db db' : tables) : Prop := forall f e ts, represented db f e ts -> represented db' f e ts.

Definition retained (config : maintenance_config) (now : Z) (db : tables) : Prop :=
  Forall (fun r => now - rawRetention config <= r_ts r) (samples db) /\
  Forall (fun r => now - minuteRetention config <= r_ts r) (samples_1m db).

Lemma newer_bound cutoff t : Forall (fun r => cutoff <= r_ts r) (newer cutoff t).
Proof. apply Forall_forall. intros r Hr. apply list_elem_of_filter in Hr as [Hr _]. lia. Qed.

Lemma older_or_newer cutoff t r : r ∈ t -> r ∈ older cutoff t \/ r ∈ newer cutoff t.
Proof. intros Hr. unfold older, newer. rewrite !list_elem_of_filter. destruct (decide (r_ts r < cutoff)); auto. Qed.

Section SweepLemmas.
Context {S : Sqlite} {SL : SqliteLaws S}.

Lemma demoted_row src dst cutoff bucket db r : 0 < bucket -> src <> dst -> r ∈ tierTable src db ->
  r ∈ tierTable src (demoted src dst cutoff bucket db) \/
  exists g, g ∈ tierTable dst (demoted src dst cutoff bucket db) /\ r_field g = r_field r /\ r_entity g = r_entity r /\
    r_ts g = floor_to bucket (r_ts r).
Proof.
  intros Hb Hne Hr. unfold demoted, half_demoted. rewrite tier_set_eq, tier_set_ne, tier_set_eq by exact Hne.
  destruct (older_or_newer cutoff _ _ Hr) as [Ho|Hn]; [right|left; exact Hn].
  destruct (fold_rows_folded bucket (older cutoff (tierTable src db)) Hb) as (_ & _ & F).
  destruct (F r Ho) as (g & Hg & E). exists g. split; [apply elem_of_app; right; exact Hg|exact E].
Qed.

Lemma demote_raw_keeps cutoff db : keeps db (demoted Raw Minute cutoff kMinuteBucketMs db).
Proof.
  intros f e ts (r & Hf & He & [[Hr Ht]|[[Hr Ht]|[Hr Ht]]]).
  - destruct (demoted_row Raw Minute cutoff kMinuteBucketMs db r ltac:(reflexivity) ltac:(discriminate) Hr) as [K|(g & K & Gf & Ge & Gt)].
    + exists r. auto.
    + exists g. split; [congruence|]. split; [congruence|]. right. left. split; [exact K|congruence].
  - exists r. split; [exact Hf|]. split; [exact He|]. right. left. split; [apply elem_of_app; left; exact Hr|exact Ht].
  - exists r. auto 6.
Qed.

Lemma demote_minute_keeps cutoff db : keeps db (demoted Minute Hour cutoff kHourBucketMs db).
Proof.
  intros f e ts (r & Hf & He & [[Hr Ht]|[[Hr Ht]|[Hr Ht]]]).
  - exists r. auto 6.
  - destruct (demoted_row Minute Hour cutoff kHourBucketMs db r ltac:(reflexivity) ltac:(discriminate) Hr) as [K|(g & K & Gf & Ge & Gt)].
    + exists r. auto 6.
    + exists g. split; [congruence|]. split; [congruence|]. right. right. split; [exact K|congruence].
  - exists r. split; [exact Hf|]. split; [exact He|]. right. right. split; [apply elem_of_app; left; exact Hr|exact Ht].
Qed.

Lemma add_raw_keeps rs db : keeps db (add_raw rs db).
Proof.
  intros f e ts (r & Hf & He & [[Hr Ht]|[[Hr Ht]|[Hr Ht]]]); exists r; split; auto; split; auto.
  left. split; [apply elem_of_app; left; exact Hr|exact Ht].
Qed.

(** The reading of a clock for which the cutoffs can be computed. *)
Definition clock_ok (config : maintenance_config) (now : Z) : Prop :=
  -9223372036854775808 <= now - rawRetention config <= 9223372036854775807 /\
  -9223372036854775808 <= now - minuteRetention config <= 9223372036854775807.

Lemma int64_ok z : -9223372036854775808 <= z <= 9223372036854775807 -> int64 z = Ret z.
Proof. intros Hz. unfold int64. replace (_ && _) with true by lia. reflexivity. Qed.

Lemma sweep_rest config now db : clock_ok config now ->
  exists db', runOnce config now (at_rest db) = Ret (at_rest db') /\ keeps db db' /\ retained config now db'.
Proof.
  intros [H1 H2]. unfold runOnce. rewrite (int64_ok _ H1). cbn [mbind outcome_bind].
  rewrite demote_rest by (reflexivity || discriminate). rewrite (int64_ok _ H2). cbn [mbind outcome_bind].
  rewrite demote_rest by (reflexivity || discriminate). eexists. split; [reflexivity|]. split.
  - intros f e ts K. apply demote_minute_keeps, demote_raw_keeps, K.
  - split; apply newer_bound.
Qed.

Definition maintenance_event_ok (config : maintenance_config) (e : maintenance_event) : Prop :=
  match e with MStart now | MInterval now => clock_ok config now | _ => True end.
Definition written (es : list maintenance_event) : list HistoryRecord :=
  flat_map (fun e => match e with MWrite rs => rs | _ => [] end) es.

Lemma maintenance_step_rest config e running db : maintenance_event_ok config e ->
  exists running' db', maintenance_step config e (mkWorker running (at_rest db)) = Ret (mkWorker running' (at_rest db')) /\
    keeps (add_raw (match e with MWrite rs => rs | _ => [] end) db) db'.
Proof.
  assert (N : forall db, keeps (add_raw [] db) db).
  { intros d f e' ts. unfold add_raw. destruct d. cbn. rewrite app_nil_r. auto. }
  intros He. destruct e as [now|now| |rs]; cbn [maintenance_step running_ hm_store].
  - destruct running; [do 2 eexists; split; [reflexivity|apply N]|].
    destruct (sweep_rest config now db He) as (db' & -> & K & _). do 2 eexists. split; [reflexivity|]. intros f e ts Hr. apply K, N, Hr.
  - destruct running; [|do 2 eexists; split; [reflexivity|apply N]].
    destruct (sweep_rest config now db He) as (db' & -> & K & _). do 2 eexists. split; [reflexivity|]. intros f e ts Hr. apply K, N, Hr.
  - do 2 eexists. split; [reflexivity|apply N].
  - rewrite write_rest. do 2 eexists. split; [reflexivity|]. intros f e ts Hr. exact Hr.
Qed.

Lemma keeps_trans a b c : keeps a b -> keeps b c -> keeps a c.
Proof. intros H1 H2 f e ts K. apply H2, H1, K. Qed.

Lemma add_raw_new r rs db : r ∈ rs -> represented (add_raw rs db) (fieldCode (hr_field r)) (i32 (entityId r)) (timestampMs r).
Proof.
  intros Hr. exists (row_of r). split; [reflexivity|]. split; [reflexivity|]. left.
  split; [apply elem_of_app; right; apply list_elem_of_fmap_2, Hr|reflexivity].
Qed.

Lemma maintenance_run_rest config es : Forall (maintenance_event_ok config) es -> forall running db,
  exists running' db', maintenance_run config es (mkWorker running (at_rest db)) = Ret (mkWorker running' (at_rest db')) /\ keeps db db' /\
    (forall r, r ∈ written es -> represented db' (fieldCode (hr_field r)) (i32 (entityId r)) (timestampMs r)).
Proof.
  induction 1 as [|e es He Hes IH]; intros running db; cbn [maintenance_run].
  - do 2 eexists. split; [reflexivity|]. split; [intros f e ts K; exact K|]. intros r Hr. inversion Hr.
  - destruct (maintenance_step_rest config e running db He) as (b & db1 & -> & K1). cbn [mbind outcome_bind].
    destruct (IH b db1) as (b' & db' & -> & K & W). do 2 eexists. split; [reflexivity|]. split.
    + apply keeps_trans with db1; [|exact K]. apply keeps_trans with (2 := K1). apply add_raw_keeps.
    + intros r Hr. cbn [written flat_map] in Hr. apply elem_of_app in Hr as [Hr|Hr]; [|apply W, Hr]. apply K, K1, add_raw_new, Hr.
Qed.

Lemma maintenance_run_snoc config es e m : maintenance_run config (es ++ [e]) m = (m' ← maintenance_run config es m; maintenance_step config e m').
Proof.
  revert m. induction es as [|e' es IH]; intros m; cbn [app maintenance_run].
  - cbn [mbind outcome_bind]. destruct (maintenance_step config e m); reflexivity.
  - destruct (maintenance_step config e' m) as [m1| |]; cbn [mbind outcome_bind]; [apply IH|reflexivity..].
Qed.
End SweepLemmas.

(* ------------------------------------------------------------------ *)
(** ** Properties *)

(** Sweeps one after the other. *)
Fixpoint sweep_all `{Sqlite} (config : maintenance_config) (nows : list Z) (s : Store) : outcome Store :=
  match nows with
  | [] => Ret s
  | now :: nows => s ← runOnce config now s; sweep_all config nows s
  end.

(** A time the worker may sweep at without reaching the range. *)
Definition sweep_before (config : maintenance_config) (from now : Z) : Prop :=
  clock_ok config now /\ now - rawRetention config <= from.

Lemma sweeps_spare {S : Sqlite} {SL : SqliteLaws S} config nows field entity from to : Forall (sweep_before config from) nows -> forall db,
  exists db', sweep_all config nows (at_rest db) = Ret (at_rest db') /\
    filter (in_select field entity from to) (samples db') = filter (in_select field entity from to) (samples db).
Proof.
  induction 1 as [|now nows [[H1 H2] Hf] _ IH]; intros db; [exists db; split; reflexivity|].
  cbn [sweep_all]. unfold runOnce. rewrite (int64_ok _ H1). cbn [mbind outcome_bind].
  rewrite demote_rest by (reflexivity || discriminate). rewrite (int64_ok _ H2). cbn [mbind outcome_bind].
  rewrite demote_rest by (reflexivity || discriminate). cbn [mbind outcome_bind].
  destruct (IH (demoted Minute Hour (now - minuteRetention config) kHourBucketMs (demoted Raw Minute (now - rawRetention config) kMinuteBucketMs db))) as (db' & E & F).
  exists db'. split; [exact E|]. rewrite F. cbn [demoted half_demoted set_tier samples tierTable]. unfold newer. rewrite list_filter_filter.
  apply list_filter_iff. intros r. unfold in_select. intuition lia.
Qed.

(** C25: The historian answers with what happened. Record a model's
    notifications through the bridge into a store whose statements succeed,
    in whatever batches, flush, and let the worker sweep at times at which
    the whole range is still within the raw retention: a query of at most an
    hour, the ranges that are answered from the raw table, returns exactly
    the newest [limit] samples of that series and range, of those stored
    before and those recorded, oldest first, with the values that were
    notified. *)
Theorem history_answers {S : Sqlite} {SL : SqliteLaws S} (config : bridge_config) (mconfig : maintenance_config) (db : tables) (epoch steady : Z)
    (old : list HistoryRecord) (es : list bridge_event) (nows : list Z) (field : FieldKind) (entity : Z) (range : QueryRange) :
  samples db = map row_of old -> Forall record_ok old -> Forall record_ok (flat_map event_records es) -> is_u32 entity ->
  -9223372036854775808 <= toMs range - fromMs range <= kOneHourMs -> Forall (sweep_before mconfig (fromMs range)) nows ->
  let s := writer_ (bridge_run config (mkBridge (at_rest db) [] epoch) (es ++ [BeFlush steady])) in
  exists s' out, sweep_all mconfig nows s = Ret s' /\ store_query s' field entity range = Ret (s', out) /\
    newest (sql_limit (limit range)) (filter (in_series field entity (fromMs range) (toMs range)) (old ++ flat_map event_records es)) out.
Proof.
  intros Hdb Hold Hok He Hr Hn. cbn zeta. unfold bridge_run. rewrite fold_left_app. fold (bridge_run config (mkBridge (at_rest db) [] epoch) es).
  destruct (bridge_batched config (at_rest db) es [] (mkBridge (at_rest db) [] epoch)) as [B L]; [exists []; cbn; auto|cbn; lia|].
  cbn [fold_left bridge_step]. destruct (flush_batched config (at_rest db) _ _ steady B ltac:(lia)) as [(bs & Hw & Hc & _) P].
  rewrite P, app_nil_r in Hc. cbn [app] in Hc. rewrite Hw, writes_rest, Hc. set (rs := flat_map event_records es) in *.
  destruct (sweeps_spare mconfig nows (fieldCode field) (i32 entity) (fromMs range) (toMs range) Hn (add_raw rs db)) as (db' & Es & F).
  destruct (query_rest db' field entity range Raw) as (out & E & N).
  { unfold tierForRange. rewrite int64_ok by (unfold kOneHourMs in Hr; lia). cbn [mbind outcome_bind]. replace (_ <=? kOneHourMs) with true by lia. reflexivity. }
  exists (at_rest db'), out. split; [exact Es|]. split; [exact E|]. cbn [tierTable] in N. rewrite F in N.
  replace (samples (add_raw rs db)) with (map row_of (old ++ rs)) in N by (cbn; rewrite Hdb, map_app; reflexivity).
  rewrite series_of_rows in N by (try apply Forall_app; auto). exact N.
Qed.

(** The bridge loses nothing to batching. Whatever the writer and
    however notifications and flushes come, the batches written, followed by
    the pending records, are the notifications' records in order; no batch is
    empty or larger than the limit, and the pending records stay below it. *)
Theorem bridge_batches {W} `{HistoryWriter W} (config : bridge_config) (w : W) (epoch : Z) (es : list bridge_event) :
  let b := bridge_run config (mkBridge w [] epoch) es in
  exists batches, writer_ b = fold_left (fun w l => fst (write w l)) batches w /\
    concat batches ++ pending_ b = flat_map event_records es /\
    Forall (fun l => l <> [] /\ (length l <= Nat.max 1 (maxBatchSize config))%nat) batches /\
    (length (pending_ b) < Nat.max 1 (maxBatchSize config))%nat.
Proof.
  destruct (bridge_batched config w es [] (mkBridge w [] epoch)) as [(bs & Hw & Hc & F) L]; [exists []; cbn; auto|cbn; lia|].
  exists bs. auto.
Qed.

(** C26: Sweeping loses no sample. Whatever is written and whenever the
    worker sweeps, is stopped and started again, with a store whose
    statements succeed: every sample ever written is still in the raw table,
    or its minute in the minute table, or its hour in the hour table; and a
    sweep leaves only the last hour raw and the last day in minutes. *)
Theorem samples_survive_sweeps {S : Sqlite} {SL : SqliteLaws S} (config : maintenance_config) (db : tables) (running : bool)
    (es : list maintenance_event) (now : Z) :
  Forall (maintenance_event_ok config) es -> clock_ok config now ->
  exists running' db', maintenance_run config es (mkWorker running (at_rest db)) = Ret (mkWorker running' (at_rest db')) /\ keeps db db' /\
    (forall r, r ∈ written es -> represented db' (fieldCode (hr_field r)) (i32 (entityId r)) (timestampMs r)) /\
    exists db2, runOnce config now (at_rest db') = Ret (at_rest db2) /\ keeps db' db2 /\ retained config now db2.
Proof.
  intros Hes Hnow. destruct (maintenance_run_rest config es Hes running db) as (b & db' & E & K & W).
  exists b, db'. split; [exact E|]. split; [exact K|]. split; [exact W|]. apply sweep_rest, Hnow.
Qed.

(** C27: A demotion is all or nothing, but for a failed DELETE. However its
    statements end, the file holds afterwards the demotion (the old rows gone
    from the one tier, and one row per bucket and series with their average
    in the other) exactly if they all succeed; what it held before together
    with the averages exactly if all but the DELETE succeed and the DELETE did
    not roll back; and what it held before otherwise. The result counts the
    rows the DELETE removed, also when the COMMIT then fails. No transaction
    stays open but by a COMMIT that fails, and once it is closed the
    connection sees the file. *)
Theorem demotion_atomic {S : Sqlite} {SL : SqliteLaws S} (src dst : Tier) (cutoff bucket : Z) (s : Store) :
  db_view s = db_disk s -> db_in_tx s = false -> src <> dst ->
  let T := db_disk s in
  let r := demoteOlderThan src dst cutoff bucket s in
  demotion_ends src dst cutoff bucket s r /\
  (db_disk (fst r) = T \/ db_disk (fst r) = demoted src dst cutoff bucket T \/
   db_disk (fst r) = half_demoted src dst cutoff bucket T /\ snd r = 0%nat /\ (ends s 4 = SqlError \/ exists n, ends s 4 = SqlCut n) /\ ends s 5 = SqlOk) /\
  (0 < bucket -> healthy s -> r = (at_rest (demoted src dst cutoff bucket T), length (older cutoff (tierTable src T)))) /\
  (0 < bucket -> tierTable src (demoted src dst cutoff bucket T) = newer cutoff (tierTable src T) /\
    exists new, tierTable dst (demoted src dst cutoff bucket T) = tierTable dst T ++ new /\ folded bucket (older cutoff (tierTable src T)) new).
Proof.
  intros Hv Hx Hne. cbn zeta. pose proof (demote_cases src dst cutoff bucket s Hv Hx Hne) as C. split; [exact C|]. split; [|split].
  - destruct C as [-> -> _ _]. destruct (reaches_delete bucket s); [|auto]. cbn [andb]. case_bool_decide; [|auto].
    destruct (ends s 4); cbn; eauto 8.
  - intros Hb Hh. rewrite (healthy_at_rest s Hh) at 1. apply demote_rest; assumption.
  - intros Hb. unfold demoted, half_demoted. rewrite tier_set_eq, tier_set_ne, tier_set_eq by exact Hne. split; [reflexivity|].
    eexists. split; [reflexivity|]. apply fold_rows_folded, Hb.
Qed.

(** An engine, to run the store. *)
Definition later_first (a b : row) : Prop := r_ts b <= r_ts a.
#[export] Instance later_first_dec a b : Decision (later_first a b).
Proof. unfold later_first. apply _. Defined.
#[export] Instance demo_sqlite : Sqlite := {|
  avg l := f64_div (fold_left f64_add l (f64_of_Z 0)) (f64_of_Z (Z.of_nat (length l)));
  any_order l := l;
  newest_first l := merge_sort later_first l;
|}.
#[export] Instance demo_sqlite_laws : SqliteLaws demo_sqlite.
Proof.
  assert (TR : Transitive later_first) by (intros a b c; unfold later_first; lia).
  assert (TO : Total later_first) by (intros a b; unfold later_first; lia).
  constructor; [reflexivity|intros l; apply merge_sort_Permutation|]. intros l. apply (StronglySorted_merge_sort later_first).
Qed.

Definition demo_rate (ts : Z) : HistoryRecord := mkRecord ts QualityPassRate 0 (f32_lit 981 1).
Definition empty_tables : tables := mkTables [] [] [].

(** What the historian does not keep to. With the default settings two
    samples of one hour end as two rows of that hour in the hour table,
    because every sweep folds only what has just come of age; a query of two
    hours does not see the last one, which is still raw; a COMMIT that fails
    is reported as records accepted, and no later write gets through; and a
    range wide enough is undefined behaviour. *)
Theorem historian_gaps_refuted :
  (exists a b, maintenance_run maintenance_default [MStart 0; MWrite [demo_rate 0]; MWrite [demo_rate 60000]; MInterval 3600001;
      MInterval 3660001; MInterval 86400001; MInterval 86460001] (mkWorker false (at_rest empty_tables)) =
    Ret (mkWorker true (at_rest (mkTables [] [] [a; b]))) /\ key_of kHourBucketMs a = key_of kHourBucketMs b) /\
  (exists s, store_query (at_rest (add_raw [demo_rate 7100000; demo_rate 7200000] empty_tables)) QualityPassRate 0 (mkRange 0 7200000 0) =
    Ret (s, [])) /\
  (exists s, store_write (mkStore true true empty_tables empty_tables false [SqlOk; SqlOk; SqlOk; SqlError]) [demo_rate 0] = (s, 1%nat) /\
    db_disk s = empty_tables /\ forall rs, snd (store_write s rs) = 0%nat) /\
  store_query (at_rest empty_tables) QualityPassRate 0 (mkRange (-1) 9223372036854775807 0) = Undef.
Proof.
  split; [|split; [|split]].
  - do 2 eexists. split; [vm_compute; reflexivity|reflexivity].
  - eexists. vm_compute. reflexivity.
  - eexists. split; [vm_compute; reflexivity|]. split; [reflexivity|]. intros [|r rs]; reflexivity.
  - reflexivity.
Qed.

(* ------------------------------------------------------------------ *)
(** ** Witnesses *)

Definition demo_events : list bridge_event :=
  [BeNews (DState 0 RUNNING) 1000 (f32_of_Z 80) 10; BeNews (DQuality 0 (mkCheckpoint 0 "" 0 10 1 (f32_lit 981 1) "" (f32_of_Z 95))) 2000 (f32_of_Z 80) 20;
   BeNews (DEquipment 0 (mkEquipment 1 1 87 "")) 2000 (f32_of_Z 80) 30; BeFlush 40;
   BeNews (DQuality 0 (mkCheckpoint 0 "" 0 20 1 (f32_lit 982 1) "" (f32_of_Z 95))) 3000 (f32_of_Z 80) 50].

Definition earlier : list HistoryRecord := [demo_rate 500].

Lemma history_answers_witness :
  let s := writer_ (bridge_run bridge_default (mkBridge (at_rest (add_raw earlier empty_tables)) [] 0) (demo_events ++ [BeFlush 60])) in
  exists s' out, sweep_all maintenance_default [60000; 120000] s = Ret s' /\
    store_query s' QualityPassRate 0 (mkRange 0 3000 0) = Ret (s', out) /\
    newest None (filter (in_series QualityPassRate 0 0 3000) (earlier ++ flat_map event_records demo_events)) out.
Proof.
  apply (history_answers bridge_default maintenance_default (add_raw earlier empty_tables) 0 60 earlier demo_events [60000; 120000] QualityPassRate 0 (mkRange 0 3000 0)).
  - reflexivity.
  - repeat apply Forall_cons_2; try apply Forall_nil_2; (split; [unfold is_u32; cbn; lia|vm_compute; reflexivity]).
  - repeat apply Forall_cons_2; try apply Forall_nil_2; (split; [unfold is_u32; cbn; lia|vm_compute; reflexivity]).
  - unfold is_u32. lia.
  - unfold kOneHourMs. cbn. lia.
  - repeat apply Forall_cons_2; try apply Forall_nil_2; unfold sweep_before, clock_ok; cbn; lia.
Defined.

Lemma samples_survive_sweeps_witness :
  exists running' db', maintenance_run maintenance_default [MStart 0; MWrite [demo_rate 0]; MInterval 3600001; MStop] (mkWorker false (at_rest empty_tables)) =
      Ret (mkWorker running' (at_rest db')) /\ keeps empty_tables db' /\
    (forall r, r ∈ written [MStart 0; MWrite [demo_rate 0]; MInterval 3600001; MStop] ->
      represented db' (fieldCode (hr_field r)) (i32 (entityId r)) (timestampMs r)) /\
    exists db2, runOnce maintenance_default 90000000 (at_rest db') = Ret (at_rest db2) /\ keeps db' db2 /\ retained maintenance_default 90000000 db2.
Proof.
  apply samples_survive_sweeps.
  - repeat apply Forall_cons_2; try apply Forall_nil_2; try exact I; unfold maintenance_event_ok, clock_ok; cbn; lia.
  - unfold clock_ok. cbn. lia.
Defined.

Lemma demotion_atomic_witness :
  let s := at_rest (add_raw [demo_rate 0; demo_rate 30000; demo_rate 90000] empty_tables) in
  let r := demoteOlderThan Raw Minute 60000 kMinuteBucketMs s in
  r = (at_rest (demoted Raw Minute 60000 kMinuteBucketMs (db_disk s)), 2%nat).
Proof.
  destruct (demotion_atomic Raw Minute 60000 kMinuteBucketMs (at_rest (add_raw [demo_rate 0; demo_rate 30000; demo_rate 90000] empty_tables))
    eq_refl eq_refl ltac:(discriminate)) as (_ & _ & H & _).
  apply H; [reflexivity|apply at_rest_healthy].
Defined.
