(* ===== verification/ProductStore.v ===== *)
(** * The product database
    (src/model/DatabaseManager.h, Product.h, Recipe.h, ProductsRepository.h,
    RecipesRepository.h, RecipesWriter.h)

    The SQLite database of products and recipes: its schema with the
    constraints, triggers and demo data, and every operation on it, whatever
    way its statements end. Each statement is one step of the connection,
    which the UI thread and the I/O thread share: [upsertRecipe] is a
    transaction of several, between which the other thread may run. LIKE and
    the clock of CURRENT_TIMESTAMP are parameters. *)
From Stdlib Require Import Ascii String SpecFloat.
From stdpp Require Import strings sorting.
From S2P Require Import Prelude Float32 Float64 Sql Result Serializers SimulatedModel.
Local Open Scope string_scope.
Local Open Scope Z_scope.
Local Open Scope list_scope.

(* ------------------------------------------------------------------ *)
(** ** Rows *)

(** [sqlite3_bind_double]: NaN becomes NULL. *)
Definition bind_double (x : float32) : option float64 := if is_nan (f64_of_f32 x) then None else Some (f64_of_f32 x).

Record product_row := mkProductRow {
  p_id : Z;
  p_code : string;
  p_name : string;
  p_status : string;
  p_stock : Z;
  p_rate : option float64;
  p_created : string;
  p_updated : string;
  p_deleted : option string;
}.
Record recipe_row := mkRecipeRow { rr_code : string; rr_operations : Z }.
Record target_row := mkTargetRow { tr_code : string; tr_name : string; tr_rate : float64 }.

(** The tables; [t_sequence] is the AUTOINCREMENT counter. *)
Record catalogue_tables := mkCatalogue {
  t_products : list product_row;
  t_sequence : Z;
  t_recipes : list recipe_row;
  t_targets : list target_row;
}.
Definition no_tables : catalogue_tables := mkCatalogue [] 0 [] [].

(** What of the schema exists. *)
Record catalogue_schema := mkSchema { has_products : bool; has_trigger : bool; has_recipes : bool; has_targets : bool }.
Definition no_schema : catalogue_schema := mkSchema false false false false.

Abbreviation Catalogue := (Database catalogue_schema catalogue_tables).

Definition set_products l (t : catalogue_tables) := mkCatalogue l (t_sequence t) (t_recipes t) (t_targets t).
Definition set_recipes l (t : catalogue_tables) := mkCatalogue (t_products t) (t_sequence t) l (t_targets t).
Definition set_targets l (t : catalogue_tables) := mkCatalogue (t_products t) (t_sequence t) (t_recipes t) l.

(* ------------------------------------------------------------------ *)
(** ** The statements on the products *)

(** CHECK(status IN ...). *)
Definition status_ok (s : string) : bool := bool_decide (s ∈ ["Active"; "Inactive"; "Low Stock"]).
Definition max_rowid : Z := 9223372036854775807.

(** INSERT: NOT NULL holds of bound texts; UNIQUE, CHECK and the last rowid
    may refuse. *)
Definition insert_product (now code name status : string) (stock : Z) (rate : option float64) (t : catalogue_tables) : option catalogue_tables :=
  if negb (status_ok status) || bool_decide (code ∈ map p_code (t_products t)) || (max_rowid <=? t_sequence t) then None
  else
    let id := t_sequence t + 1 in
    Some (mkCatalogue (t_products t ++ [mkProductRow id code name status stock rate now now None]) id (t_recipes t) (t_targets t)).

(** The trigger of every UPDATE. *)
Definition touch (trigger : bool) (now : string) (p : product_row) : product_row :=
  mkProductRow (p_id p) (p_code p) (p_name p) (p_status p) (p_stock p) (p_rate p) (p_created p) (if trigger then now else p_updated p) (p_deleted p).

(** UPDATE of the rows that satisfy [sel]. *)
Definition update_rows (sel : product_row -> bool) (f : product_row -> product_row) (t : catalogue_tables) : catalogue_tables :=
  set_products (map (fun p => if sel p then f p else p) (t_products t)) t.

Definition retire (trigger : bool) (now : string) (id : Z) : catalogue_tables -> catalogue_tables :=
  update_rows (fun p => p_id p =? id)
    (fun p => touch trigger now (mkProductRow (p_id p) (p_code p) (p_name p) (p_status p) (p_stock p) (p_rate p) (p_created p) (p_updated p) (Some now))).

Definition is_live (p : product_row) : bool := match p_deleted p with None => true | Some _ => false end.
Definition live_id (id : Z) (p : product_row) : bool := (p_id p =? id) && is_live p.

Definition change_product (trigger : bool) (now : string) (id : Z) (name status : string) (stock : Z) (rate : option float64) (t : catalogue_tables) : option catalogue_tables :=
  if existsb (live_id id) (t_products t) && negb (status_ok status) then None
  else
    Some (update_rows (live_id id)
      (fun p => touch trigger now (mkProductRow (p_id p) (p_code p) name status stock rate (p_created p) (p_updated p) (p_deleted p))) t).

(** ORDER BY id. *)
Definition by_id (a b : product_row) : Prop := p_id a <= p_id b.
#[export] Instance by_id_dec a b : Decision (by_id a b) := Z_le_dec _ _.

Definition extractProduct (p : product_row) : ProductRow :=
  Serializers.mkRow (Some (i32 (p_id p))) (p_code p) (p_name p) (p_status p) (Some (p_stock p))
    (Some (f32_of_f64 (default (S754_zero false) (p_rate p)))) (p_created p) (p_updated p) (default "" (p_deleted p)).

(* ------------------------------------------------------------------ *)
(** ** DatabaseManager *)

(** LIKE, its pattern first. *)
Class SqlLike := { like : string -> string -> bool }.

Definition kInvalidProductId : Z := -1.

Definition run_select (has : catalogue_schema -> bool) {A} (rows : catalogue_tables -> list A) (s : Catalogue) : list A * Catalogue :=
  let '(prepared, s) := sql_prepare has s in
  if negb prepared then ([], s) else sql_select rows s.

Definition run_change (has : catalogue_schema -> bool) (f : catalogue_tables -> option catalogue_tables) (s : Catalogue) : bool * Catalogue :=
  let '(prepared, s) := sql_prepare has s in
  if negb prepared then (false, s) else sql_attempt f s.

Definition getAllProducts (s : Catalogue) : list ProductRow * Catalogue :=
  let '(rows, s) := run_select has_products (fun t => merge_sort by_id (List.filter is_live (t_products t))) s in
  (map extractProduct rows, s).

Definition not_found : ProductRow := Serializers.mkRow (Some kInvalidProductId) "" "" "" None None "" "" "".

(** Only the first row is stepped to. *)
Definition getProduct (id : Z) (s : Catalogue) : ProductRow * Catalogue :=
  let '(rows, s) := run_select has_products (fun t => List.filter (live_id id) (t_products t)) s in
  (match rows with p :: _ => extractProduct p | [] => not_found end, s).

Definition searchProducts `{SqlLike} (query : string) (s : Catalogue) : list ProductRow * Catalogue :=
  let pattern := c_str ("%" ++ query ++ "%")%string in
  let '(rows, s) := run_select has_products (fun t =>
    merge_sort by_id (List.filter (fun p => (like pattern (p_name p) || like pattern (p_code p)) && is_live p) (t_products t))) s in
  (map extractProduct rows, s).

Definition addProduct (now productCode name status : string) (stock : Z) (qualityRate : float32) : Catalogue -> bool * Catalogue :=
  run_change has_products (insert_product now (c_str productCode) (c_str name) (c_str status) stock (bind_double qualityRate)).

Definition deleteProduct (now : string) (id : Z) (s : Catalogue) : bool * Catalogue :=
  run_change has_products (fun t => Some (retire (has_trigger (db_schema s)) now id t)) s.

Definition updateProduct (now : string) (id : Z) (name status : string) (stock : Z) (qualityRate : float32) (s : Catalogue) : bool * Catalogue :=
  run_change has_products (change_product (has_trigger (db_schema s)) now id (c_str name) (c_str status) stock (bind_double qualityRate)) s.

(* ------------------------------------------------------------------ *)
(** ** Recipes *)

(** INSERT OR REPLACE by the primary key. *)
Definition replace_recipe (code : string) (operations : Z) (t : catalogue_tables) : option catalogue_tables :=
  Some (set_recipes (List.filter (fun r => negb (String.eqb (rr_code r) code)) (t_recipes t) ++ [mkRecipeRow code operations]) t).
Definition delete_targets (code : string) (t : catalogue_tables) : option catalogue_tables :=
  Some (set_targets (List.filter (fun r => negb (String.eqb (tr_code r) code)) (t_targets t)) t).

(** NOT NULL and the primary key may refuse. *)
Definition insert_target (code name : string) (rate : option float64) (t : catalogue_tables) : option catalogue_tables :=
  match rate with
  | None => None
  | Some rate =>
      if existsb (fun r => String.eqb (tr_code r) code && String.eqb (tr_name r) name) (t_targets t) then None
      else Some (set_targets (t_targets t ++ [mkTargetRow code name rate]) t)
  end.

(** ORDER BY checkpoint_name: bytewise. *)
Definition by_name (a b : target_row) : Prop := String.leb (tr_name a) (tr_name b) = true.
#[export] Instance by_name_dec a b : Decision (by_name a b).
Proof. unfold by_name. apply _. Defined.

#[export] Instance by_name_total : Total by_name.
Proof. intros a b. apply String.leb_total. Qed.

Definition getRecipeByProductCode (productCode : string) (s : Catalogue) : option Recipe * Catalogue :=
  let code := c_str productCode in
  let '(heads, s) := run_select has_recipes (fun t => List.filter (fun r => String.eqb (rr_code r) code) (t_recipes t)) s in
  match heads with
  | [] => (None, s)
  | head :: _ =>
      let '(rows, s) := run_select has_targets (fun t => merge_sort by_name (List.filter (fun r => String.eqb (tr_code r) code) (t_targets t))) s in
      (Some (mkRecipe productCode (rr_operations head) (map (fun r => mkTarget (tr_name r) (f32_of_f64 (tr_rate r))) rows)), s)
  end.

(** [act] runs one statement on the connection, after whatever the I/O
    thread does on it until then. *)
Section Upsert.
Context {W : Type} (act : forall A, (Catalogue -> A * Catalogue) -> W -> A * W).

Fixpoint insert_targets (code : string) (targets : list CheckpointTarget) (w : W) : bool * W :=
  match targets with
  | [] => (true, w)
  | t :: targets =>
      let '(ok, w) := act _ (run_change has_targets (insert_target code (c_str (checkpointName t)) (bind_double (target_rate t)))) w in
      if ok : bool then insert_targets code targets w else (false, w)
  end.

Definition upsertRecipe (recipe : Recipe) (w : W) : bool * W :=
  let code := c_str (rec_productCode recipe) in
  let '(begun, w) := act _ sql_begin w in
  if negb begun then (false, w)
  else
    let '(ok, w) := act _ (run_change has_recipes (replace_recipe code (rec_totalOperations recipe))) w in
    let '(ok, w) := if ok : bool then act _ (run_change has_targets (delete_targets code)) w else (false, w) in
    let '(ok, w) := if ok : bool then insert_targets code (checkpointTargets recipe) w else (false, w) in
    let '(_, w) := act _ (fun s => (tt, if ok : bool then sql_commit s else st_rollback s)) w in
    (ok, w).
End Upsert.

(** Nothing else runs. *)
Definition alone (A : Type) (f : Catalogue -> A * Catalogue) (s : Catalogue) : A * Catalogue := f s.

(* ------------------------------------------------------------------ *)
(** ** initialize *)

(** A CREATE: refused by an error only, the database being new. *)
Definition sql_create (f : catalogue_schema -> catalogue_schema) (s : Catalogue) : bool * Catalogue :=
  let '(r, s) := statement s in
  if decide (r = SqlOk) then (true, st_schema (f (db_schema s)) s) else (false, s).

(** [sqlite3_exec] stops at the first statement that fails. *)
Fixpoint sql_script (l : list (Catalogue -> bool * Catalogue)) (s : Catalogue) : Catalogue :=
  match l with
  | [] => s
  | f :: l => let '(ok, s) := f s in if ok : bool then sql_script l s else s
  end.

Definition exec_change (has : catalogue_schema -> bool) (f : catalogue_tables -> option catalogue_tables) (s : Catalogue) : bool * Catalogue :=
  sql_attempt (fun t => if has (db_schema s) then f t else None) s.

Definition createTables : Catalogue -> Catalogue :=
  sql_script
    [ sql_create (fun h => mkSchema true (has_trigger h) (has_recipes h) (has_targets h));
      sql_create id;
      sql_create (fun h => mkSchema (has_products h) true (has_recipes h) (has_targets h)) ].

Fixpoint insert_each {A} (f : A -> catalogue_tables -> option catalogue_tables) (l : list A) (t : catalogue_tables) : option catalogue_tables :=
  match l with [] => Some t | a :: l => t ← f a t; insert_each f l t end.

Definition demo_products : list (string * string * string * Z * float64) :=
  [ ("PROD-001", "Product A", "Active", 850, f64_lit 981 1);
    ("PROD-002", "Product B", "Active", 320, f64_lit 957 1);
    ("PROD-003", "Product C", "Low Stock", 45, f64_lit 930 1);
    ("PROD-004", "Product D", "Inactive", 0, f64_lit 0 1);
    ("PROD-005", "Product E", "Active", 1200, f64_lit 992 1);
    ("PROD-006", "Product F", "Active", 540, f64_lit 968 1) ].

Definition populateDemoData (now : string) : Catalogue -> Catalogue :=
  sql_script [exec_change has_products
    (insert_each (fun '(code, name, status, stock, rate) => insert_product now code name status stock (Some rate)) demo_products)].

Definition createRecipeTables : Catalogue -> Catalogue :=
  sql_script
    [ sql_create (fun h => mkSchema (has_products h) (has_trigger h) true (has_targets h));
      sql_create (fun h => mkSchema (has_products h) (has_trigger h) (has_recipes h) true) ].

Definition demo_recipes : list (string * Z) := [("PROD-001", 5); ("PROD-002", 4); ("PROD-003", 6); ("PROD-005", 5); ("PROD-006", 7)].

(** An INSERT without OR REPLACE: the primary key may refuse. *)
Definition insert_recipe (code : string) (operations : Z) (t : catalogue_tables) : option catalogue_tables :=
  if existsb (fun r => String.eqb (rr_code r) code) (t_recipes t) then None
  else Some (set_recipes (t_recipes t ++ [mkRecipeRow code operations]) t).

Definition demo_targets : list (string * string * float64) :=
  flat_map (fun '(code, weight, hardness, final) =>
    [(code, "Weight Check", f64_lit weight 1); (code, "Hardness Test", f64_lit hardness 1); (code, "Final Inspection", f64_lit final 1)])
    [ ("PROD-001", 990, 970, 950); ("PROD-002", 980, 960, 940); ("PROD-003", 975, 950, 920);
      ("PROD-005", 995, 980, 970); ("PROD-006", 985, 965, 955) ].

Definition populateRecipeDemoData : Catalogue -> Catalogue :=
  sql_script
    [ exec_change has_recipes (insert_each (fun '(code, operations) => insert_recipe code operations) demo_recipes);
      exec_change has_targets (insert_each (fun '(code, name, rate) => insert_target code name (Some rate)) demo_targets) ].

(** A new in-memory database, whose statements will end as [results] says. *)
Definition initialize (opens : bool) (now : string) (results : list sql_result) : Result unit DatabaseError * Catalogue :=
  let s := mkStore opens no_schema no_tables no_tables false results in
  if negb opens then (Err DbConnectionFailed, s)
  else (Ok tt, populateRecipeDemoData (createRecipeTables (populateDemoData now (createTables s)))).

(* ------------------------------------------------------------------ *)
(** ** The statements the two threads issue *)

Inductive store_statement :=
| StAdd (now productCode name status : string) (stock : Z) (qualityRate : float32)
| StUpdate (now : string) (id : Z) (name status : string) (stock : Z) (qualityRate : float32)
| StDelete (now : string) (id : Z)
| StSelect
| StBegin
| StHead (code : string) (operations : Z)
| StClear (code : string)
| StTarget (code name : string) (rate : float32)
| StEnd (commit : bool).

Definition exec (st : store_statement) (s : Catalogue) : Catalogue :=
  match st with
  | StAdd now code name status stock rate => snd (addProduct now code name status stock rate s)
  | StUpdate now id name status stock rate => snd (updateProduct now id name status stock rate s)
  | StDelete now id => snd (deleteProduct now id s)
  | StSelect => snd (getAllProducts s)
  | StBegin => snd (sql_begin s)
  | StHead code operations => snd (run_change has_recipes (replace_recipe (c_str code) operations) s)
  | StClear code => snd (run_change has_targets (delete_targets (c_str code)) s)
  | StTarget code name rate => snd (run_change has_targets (insert_target (c_str code) (c_str name) (bind_double rate)) s)
  | StEnd commit => if commit then sql_commit s else st_rollback s
  end.

(* ------------------------------------------------------------------ *)
(** ** Lemmas: the constraints *)

Definition row_typed (t : catalogue_tables) (p : product_row) : Prop :=
  0 < p_id p <= t_sequence t /\ status_ok (p_status p) = true /\ (forall x, p_rate p = Some x -> is_nan x = false).

Record tables_typed (t : catalogue_tables) : Prop := {
  tt_sequence : 0 <= t_sequence t <= max_rowid;
  tt_rows : Forall (row_typed t) (t_products t);
  tt_ids : StronglySorted Z.lt (map p_id (t_products t));
  tt_codes : NoDup (map p_code (t_products t));
  tt_recipes : NoDup (map rr_code (t_recipes t));
  tt_targets : NoDup (map (fun r => (tr_code r, tr_name r)) (t_targets t));
  tt_rates : Forall (fun r => is_nan (tr_rate r) = false) (t_targets t);
}.

Lemma no_tables_typed : tables_typed no_tables.
Proof. split; cbn; try constructor; unfold max_rowid; lia. Qed.

Lemma insert_typed now code name status stock rate t t' : (forall x, rate = Some x -> is_nan x = false) ->
  insert_product now code name status stock rate t = Some t' -> tables_typed t -> tables_typed t'.
Proof.
  unfold insert_product. intros Hr E [H1 H2 H3 H4 H5 H6 H7]. destruct (negb (status_ok status)) eqn:Es; [discriminate|]. cbn [orb] in E.
  destruct (bool_decide (code ∈ map p_code (t_products t))) eqn:Ec; [discriminate|]. cbn [orb] in E. apply bool_decide_eq_false in Ec.
  destruct (Z.leb_spec max_rowid (t_sequence t)) as [|Hm]; [discriminate|]. injection E as <-. apply negb_false_iff in Es.
  split; cbn; try assumption; try lia.
  - apply Forall_app. split; [|apply Forall_singleton; split; cbn; [lia|auto]].
    eapply Forall_impl; [exact H2|]. intros p (? & ? & ?). split; [cbn in *; lia|auto].
  - rewrite map_app. apply sorted_snoc; [exact H3|]. apply Forall_map. eapply Forall_impl; [exact H2|]. intros p (? & _). cbn. lia.
  - rewrite map_app. apply NoDup_app. split; [exact H4|]. split; [|apply NoDup_singleton]. intros x Hx Hx'. apply list_elem_of_singleton in Hx'. subst x. auto.
Qed.

(** An UPDATE keeps ids and codes. *)
Lemma update_typed sel f t : (forall p, p_id (f p) = p_id p /\ p_code (f p) = p_code p) ->
  (forall p, p ∈ t_products t -> sel p = true -> row_typed t p -> row_typed t (f p)) -> tables_typed t -> tables_typed (update_rows sel f t).
Proof.
  intros Hf Ht [H1 H2 H3 H4 H5 H6 H7]. assert (E : forall {B} (g : product_row -> B), (forall p, g (f p) = g p) ->
    map g (map (fun p => if sel p then f p else p) (t_products t)) = map g (t_products t)).
  { intros B g Hg. rewrite map_map. apply map_ext. intros p. destruct (sel p); auto. }
  split; cbn; try assumption; rewrite ?E by apply Hf; try assumption.
  apply Forall_map, Forall_forall. intros p Hp. pose proof (proj1 (Forall_forall _ _) H2 p Hp) as Hp'. cbn. destruct (sel p) eqn:Es; [|exact Hp'].
  apply Ht; assumption.
Qed.

Lemma retire_typed trigger now id t : tables_typed t -> tables_typed (retire trigger now id t).
Proof. apply update_typed; [intros p; auto|]. intros p _ _ H. exact H. Qed.

Lemma change_typed trigger now id name status stock rate t t' : (forall x, rate = Some x -> is_nan x = false) ->
  change_product trigger now id name status stock rate t = Some t' -> tables_typed t -> tables_typed t'.
Proof.
  unfold change_product. intros Hr E. destruct (existsb _ _ && negb (status_ok status)) eqn:G; [discriminate|]. injection E as <-.
  apply update_typed; [intros p; auto|]. intros p Hp Hl (? & _ & _). split; [assumption|]. split; [|exact Hr]. change (status_ok status = true).
  destruct (status_ok status) eqn:Es; [reflexivity|]. rewrite andb_true_r in G. exfalso.
  assert (existsb (live_id id) (t_products t) = true) by (apply existsb_exists; exists p; split; [apply list_elem_of_In, Hp|exact Hl]). congruence.
Qed.

Lemma replace_typed code operations t t' : replace_recipe code operations t = Some t' -> tables_typed t -> tables_typed t'.
Proof.
  intros E [H1 H2 H3 H4 H5 H6 H7]. injection E as <-. split; cbn; try assumption. rewrite map_app. apply NoDup_app.
  split; [apply NoDup_map_filter, H5|]. split; [|apply NoDup_singleton]. intros x Hx Hx'. apply list_elem_of_singleton in Hx'. subst x.
  apply list_elem_of_fmap in Hx as (r & E & Hr). apply list_elem_of_In, filter_In in Hr as [_ Hr]. rewrite <- E, String.eqb_refl in Hr. discriminate.
Qed.

Lemma clear_typed code t t' : delete_targets code t = Some t' -> tables_typed t -> tables_typed t'.
Proof.
  intros E [H1 H2 H3 H4 H5 H6 H7]. injection E as <-. split; cbn; try assumption; [apply NoDup_map_filter, H6|apply Forall_lfilter, H7].
Qed.

Lemma target_typed code name rate t t' : (forall x, rate = Some x -> is_nan x = false) ->
  insert_target code name rate t = Some t' -> tables_typed t -> tables_typed t'.
Proof.
  intros Hr. unfold insert_target. destruct rate as [x|]; [|discriminate]. destruct (existsb _ _) eqn:Ex; [discriminate|]. intros E [H1 H2 H3 H4 H5 H6 H7].
  injection E as <-. split; cbn; try assumption.
  - rewrite map_app. apply NoDup_app. split; [exact H6|]. split; [|apply NoDup_singleton]. intros y Hy Hy'. apply list_elem_of_singleton in Hy'. subst y.
    apply list_elem_of_fmap in Hy as (r & E & Hy). enough (existsb (fun r => String.eqb (tr_code r) code && String.eqb (tr_name r) name) (t_targets t) = true) by congruence.
    apply existsb_exists. exists r. split; [apply list_elem_of_In, Hy|]. cbn in E. injection E as -> ->. rewrite !String.eqb_refl. reflexivity.
  - apply Forall_app. split; [exact H7|apply Forall_singleton]. apply Hr. reflexivity.
Qed.

Lemma bind_double_number x y : bind_double x = Some y -> is_nan y = false.
Proof. unfold bind_double. destruct (is_nan _) eqn:E; [discriminate|]. congruence. Qed.

(** A connection whose tables are typed, on either side of a transaction. *)
Record typed (s : Catalogue) : Prop := {
  ty_view : tables_typed (db_view s);
  ty_disk : tables_typed (db_disk s);
  ty_rest : db_in_tx s = false -> db_view s = db_disk s;
}.

Lemma statement_typed s : typed s -> typed (snd (statement s)).
Proof. intros [H1 H2 H3]. split; assumption. Qed.
#[export] Hint Resolve statement_typed : hmi.

Lemma sql_change_typed f s : tables_typed (f (db_view s)) -> typed s -> typed (snd (sql_change f s)).
Proof.
  intros Hf [H1 H2 H3]. unfold sql_change. cbn. destruct (hd SqlOk (db_results s)); cbn; try (split; assumption).
  - destruct (db_in_tx s) eqn:E; cbn; split; cbn; auto. congruence.
  - split; cbn; auto.
Qed.

Lemma attempt_typed f s : (forall t t', f t = Some t' -> tables_typed t -> tables_typed t') -> typed s -> typed (snd (sql_attempt f s)).
Proof.
  intros Hf H. unfold sql_attempt. destruct (f (db_view s)) eqn:E; [|apply statement_typed, H].
  apply sql_change_typed; [|exact H]. eapply Hf; [exact E|apply H].
Qed.

Lemma run_change_typed has f s : (forall t t', f t = Some t' -> tables_typed t -> tables_typed t') -> typed s -> typed (snd (run_change has f s)).
Proof.
  intros Hf H. unfold run_change, sql_prepare. apply statement_typed in H. unfold statement in *. cbn in *. destruct (_ && _); cbn [negb]; [apply attempt_typed; assumption|exact H].
Qed.

Lemma sql_begin_typed s : typed s -> typed (snd (sql_begin s)).
Proof. intros [H1 H2 H3]. unfold sql_begin. cbn. destruct (_ && _); cbn; split; cbn; auto. discriminate. Qed.
Lemma sql_commit_typed s : typed s -> typed (sql_commit s).
Proof.
  intros [H1 H2 H3]. unfold sql_commit. cbn. destruct (db_in_tx s) eqn:E; [destruct (hd SqlOk _)|]; cbn; split; cbn; auto. all: congruence.
Qed.
Lemma st_rollback_typed s : typed s -> typed (st_rollback s).
Proof. intros [H1 H2 H3]. split; cbn; auto. Qed.

Lemma run_select_view has {A} (rows : catalogue_tables -> list A) s :
  db_view (snd (run_select has rows s)) = db_view s /\ db_disk (snd (run_select has rows s)) = db_disk s /\ db_in_tx (snd (run_select has rows s)) = db_in_tx s.
Proof. unfold run_select, sql_prepare, sql_select, statement. cbn. destruct (_ && _); cbn; auto. Qed.
Lemma run_select_typed has {A} (rows : catalogue_tables -> list A) s : typed s -> typed (snd (run_select has rows s)).
Proof. destruct (run_select_view has rows s) as (E1 & E2 & E3). intros [H1 H2 H3]. split; rewrite ?E1, ?E2, ?E3; assumption. Qed.

Lemma getAll_select s : snd (getAllProducts s) = snd (run_select has_products (fun t => merge_sort by_id (List.filter is_live (t_products t))) s).
Proof. unfold getAllProducts. destruct (run_select _ _ s). reflexivity. Qed.

Lemma exec_typed st s : typed s -> typed (exec st s).
Proof.
  intros H. destruct st; cbn [exec].
  - apply run_change_typed; [|exact H]. intros t t'. apply insert_typed. intros x. apply bind_double_number.
  - apply run_change_typed; [|exact H]. intros t t'. apply change_typed. intros x. apply bind_double_number.
  - apply run_change_typed; [|exact H]. intros t t' E. injection E as <-. apply retire_typed.
  - rewrite getAll_select. apply run_select_typed, H.
  - apply sql_begin_typed, H.
  - apply run_change_typed; [|exact H]. intros t t'. apply replace_typed.
  - apply run_change_typed; [|exact H]. intros t t'. apply clear_typed.
  - apply run_change_typed; [|exact H]. intros t t'. apply target_typed. intros x. apply bind_double_number.
  - destruct commit; [apply sql_commit_typed, H|apply st_rollback_typed, H].
Qed.

Lemma script_typed l s : (forall f, f ∈ l -> forall s, typed s -> typed (snd (f s))) -> typed s -> typed (sql_script l s).
Proof.
  revert s. induction l as [|f l IH]; intros s Hl H; [exact H|]. cbn. pose proof (Hl f ltac:(left) s H) as Hf. destruct (f s) as [[] s1]; [|exact Hf].
  apply IH; [|exact Hf]. intros g Hg. apply Hl. right. exact Hg.
Qed.

Lemma insert_each_typed {A} (f : A -> catalogue_tables -> option catalogue_tables) l : 
  (forall a t t', a ∈ l -> f a t = Some t' -> tables_typed t -> tables_typed t') ->
  forall t t', insert_each f l t = Some t' -> tables_typed t -> tables_typed t'.
Proof.
  induction l as [|a l IH]; intros Hf t t' E H; [injection E as <-; exact H|]. cbn in E. destruct (f a t) as [t1|] eqn:E1; [|discriminate]. cbn in E.
  apply (IH (fun a t t' Ha => Hf a t t' (list_elem_of_further _ _ _ Ha)) t1 t' E). eapply Hf; [left|exact E1|exact H].
Qed.

Lemma create_typed f s : typed s -> typed (snd (sql_create f s)).
Proof. intros [H1 H2 H3]. unfold sql_create. cbn. case_decide; cbn; split; assumption. Qed.

Lemma exec_change_typed has f s : (forall t t', f t = Some t' -> tables_typed t -> tables_typed t') -> typed s -> typed (snd (exec_change has f s)).
Proof. intros Hf. apply attempt_typed. intros t t'. destruct (has _); [apply Hf|discriminate]. Qed.

Lemma insert_recipe_typed code operations t t' : insert_recipe code operations t = Some t' -> tables_typed t -> tables_typed t'.
Proof.
  unfold insert_recipe. destruct (existsb _ _) eqn:Ex; [discriminate|]. intros E [H1 H2 H3 H4 H5 H6 H7]. injection E as <-. split; cbn; try assumption.
  rewrite map_app. apply NoDup_app. split; [exact H5|]. split; [|apply NoDup_singleton]. intros x Hx Hx'. apply list_elem_of_singleton in Hx'. subst x.
  apply list_elem_of_fmap in Hx as (r & E & Hr). enough (existsb (fun r => String.eqb (rr_code r) code) (t_recipes t) = true) by congruence.
  apply existsb_exists. exists r. split; [apply list_elem_of_In, Hr|]. cbn in E. rewrite <- E. apply String.eqb_refl.
Qed.

Ltac each_member H := repeat (apply elem_of_cons in H as [->|H]); [..|inversion H].

Lemma initialize_typed opens now results : typed (snd (initialize opens now results)).
Proof.
  assert (H0 : typed (mkStore opens no_schema no_tables no_tables false results)) by (split; try apply no_tables_typed; reflexivity).
  unfold initialize. destruct (negb opens); [exact H0|]. cbn [snd]. unfold populateRecipeDemoData, createRecipeTables, populateDemoData, createTables.
  repeat (apply script_typed; [intros f Hf s Hs; each_member Hf|]); try exact H0; try (apply create_typed; exact Hs);
    (apply exec_change_typed; [|exact Hs]); apply insert_each_typed; intros a t t' Ha.
  - destruct a as [code operations]. apply insert_recipe_typed.
  - destruct a as [[code name] rate]. apply target_typed. intros x [= <-]. assert (F : Forall (fun a => is_nan (snd a) = false) demo_targets)
      by (vm_compute; repeat constructor). exact (proj1 (Forall_forall _ _) F _ Ha).
  - destruct a as [[[[code name] status] stock] rate]. apply insert_typed. intros x [= <-]. assert (F : Forall (fun a => is_nan (snd a) = false) demo_products)
      by (vm_compute; repeat constructor). exact (proj1 (Forall_forall _ _) F _ Ha).
Qed.

(* ------------------------------------------------------------------ *)
(** ** Specification: a list of products *)

Record entry := mkEntry { e_id : Z; e_code : string; e_name : string; e_status : string; e_stock : Z; e_rate : float32 }.

(** The products shown, in the order of their ids; the codes ever used; the
    last id given. *)
Record listing := mkListing { li_entries : list entry; li_codes : list string; li_last : Z }.

Inductive product_op :=
| OpAdd (productCode name status : string) (stock : Z) (qualityRate : float32)
| OpUpdate (id : Z) (name status : string) (stock : Z) (qualityRate : float32)
| OpDelete (id : Z).

(** NaN is stored as NULL and read as 0. *)
Definition shown_rate (r : float32) : float32 := if is_nan r then S754_zero false else r.

Definition spec_op (o : product_op) (l : listing) : bool * listing :=
  match o with
  | OpAdd code name status stock rate =>
      if negb (status_ok (c_str status)) || bool_decide (c_str code ∈ li_codes l) then (false, l)
      else (true, mkListing (li_entries l ++ [mkEntry (li_last l + 1) (c_str code) (c_str name) (c_str status) stock (shown_rate rate)])
                            (li_codes l ++ [c_str code]) (li_last l + 1))
  | OpUpdate id name status stock rate =>
      if existsb (fun e => e_id e =? id) (li_entries l) && negb (status_ok (c_str status)) then (false, l)
      else (true, mkListing (map (fun e => if e_id e =? id then mkEntry id (e_code e) (c_str name) (c_str status) stock (shown_rate rate) else e) (li_entries l))
                            (li_codes l) (li_last l))
  | OpDelete id => (true, mkListing (List.filter (fun e => negb (e_id e =? id)) (li_entries l)) (li_codes l) (li_last l))
  end.

Fixpoint spec_run (ops : list product_op) (l : listing) : list bool * listing :=
  match ops with
  | [] => ([], l)
  | o :: ops => let '(b, l) := spec_op o l in let '(bs, l) := spec_run ops l in (b :: bs, l)
  end.

Definition store_op (now : string) (o : product_op) (s : Catalogue) : bool * Catalogue :=
  match o with
  | OpAdd code name status stock rate => addProduct now code name status stock rate s
  | OpUpdate id name status stock rate => updateProduct now id name status stock rate s
  | OpDelete id => deleteProduct now id s
  end.
Fixpoint store_run (ops : list (string * product_op)) (s : Catalogue) : list bool * Catalogue :=
  match ops with
  | [] => ([], s)
  | (now, o) :: ops => let '(b, s) := store_op now o s in let '(bs, s) := store_run ops s in (b :: bs, s)
  end.

(** The tables as a listing. *)
Definition shown (p : product_row) : entry :=
  mkEntry (p_id p) (p_code p) (p_name p) (p_status p) (p_stock p) (f32_of_f64 (default (S754_zero false) (p_rate p))).
Definition listing_of (t : catalogue_tables) : listing :=
  mkListing (map shown (List.filter is_live (t_products t))) (map p_code (t_products t)) (t_sequence t).

(** What a product row shows. *)
Definition entry_of (p : ProductRow) : option entry :=
  match row_id p, row_stock p, row_qualityRate p with
  | Some id, Some stock, Some rate => Some (mkEntry id (row_productCode p) (row_name p) (row_status p) stock rate)
  | _, _, _ => None
  end.

(** A database at rest, with all of its schema. *)
Definition full_schema : catalogue_schema := mkSchema true true true true.
Definition resting (t : catalogue_tables) : Catalogue := mkStore true full_schema t t false [].

Definition op_ok (o : product_op) : Prop :=
  match o with OpAdd _ _ _ _ rate | OpUpdate _ _ _ _ rate => valid_binary fprec femax rate = true | OpDelete _ => True end.

(* ------------------------------------------------------------------ *)
(** ** Lemmas: the products *)

Lemma run_change_resting has f t : has full_schema = true ->
  run_change has f (resting t) = match f t with Some t' => (true, resting t') | None => (false, resting t) end.
Proof. intros H. unfold run_change, sql_prepare, resting. cbn. rewrite H. cbn. unfold sql_attempt. cbn. destruct (f t); reflexivity. Qed.

Lemma run_select_resting has {A} (rows : catalogue_tables -> list A) t : has full_schema = true ->
  run_select has rows (resting t) = (rows t, resting t).
Proof. intros H. unfold run_select, sql_prepare, sql_select, resting. cbn. rewrite H. reflexivity. Qed.

Lemma rate_shown rate : valid_binary fprec femax rate = true -> f32_of_f64 (default (S754_zero false) (bind_double rate)) = shown_rate rate.
Proof.
  intros H. unfold bind_double, shown_rate. destruct rate; try reflexivity.
  pose proof (f32_through_double _ H) as E. destruct (is_nan (f64_of_f32 _)) eqn:N; [|exact E].
  destruct (f64_of_f32 _); try discriminate N. discriminate E.
Qed.

Lemma live_existsb id t : existsb (fun e => e_id e =? id) (li_entries (listing_of t)) = existsb (live_id id) (t_products t).
Proof.
  cbn. induction (t_products t) as [|p l IH]; [reflexivity|]. cbn. unfold live_id at 1. destruct (is_live p); cbn; rewrite IH, ?andb_true_r, ?andb_false_r; reflexivity.
Qed.

(** Each operation of a resting database is the specification's. *)
Lemma op_refines now o t : op_ok o -> t_sequence t < max_rowid ->
  exists t', store_op now o (resting t) = (fst (spec_op o (listing_of t)), resting t') /\ listing_of t' = snd (spec_op o (listing_of t)).
Proof.
  intros Ho Hs. destruct o as [code name status stock rate|id name status stock rate|id]; cbn [store_op spec_op].
  - unfold addProduct. rewrite run_change_resting by reflexivity. unfold insert_product. cbn [li_codes listing_of].
    replace (max_rowid <=? t_sequence t) with false by lia. rewrite orb_false_r. destruct (_ || _); [exists t; split; reflexivity|].
    eexists. split; [reflexivity|]. unfold listing_of. cbn [t_products t_sequence snd]. rewrite List.filter_app, !map_app. unfold shown at 2. cbn.
    rewrite rate_shown by exact Ho. reflexivity.
  - unfold updateProduct. rewrite run_change_resting by reflexivity. unfold change_product. rewrite live_existsb.
    destruct (_ && _); [exists t; split; reflexivity|]. eexists. split; [reflexivity|]. unfold listing_of. cbn [t_products t_sequence snd update_rows set_products li_entries li_codes li_last].
    f_equal; [|rewrite map_map; apply map_ext; intros p; destruct (live_id id p); reflexivity].
    rewrite filter_map_comm, !map_map, (lfilter_ext _ is_live) by (intros p; destruct (live_id id p); reflexivity).
    apply map_ext_in. intros p Hp. apply filter_In in Hp as [_ El]. unfold live_id. rewrite El, andb_true_r. cbn [e_id shown].
    destruct (Z.eqb_spec (p_id p) id) as [->|]; [|reflexivity]. unfold shown. cbn. rewrite rate_shown by exact Ho. reflexivity.
  - unfold deleteProduct. rewrite run_change_resting by reflexivity. eexists. split; [reflexivity|]. unfold listing_of, retire.
    cbn [t_products t_sequence snd update_rows set_products li_entries li_codes li_last]. f_equal; [|rewrite map_map; apply map_ext; intros p; destruct (_ =? _); reflexivity].
    rewrite !filter_map_comm, lfilter_lfilter. erewrite lfilter_ext.
    2: { intros p. instantiate (1 := fun p => is_live p && negb (e_id (shown p) =? id)). cbn. destruct (p_id p =? id); cbn; [rewrite andb_false_r|rewrite andb_true_r]; reflexivity. }
    rewrite map_map. apply map_ext_in. intros p Hp. apply filter_In in Hp as [_ Hp]. apply andb_prop in Hp as [_ Hp]. apply negb_true_iff in Hp.
    cbn in Hp. rewrite Hp. reflexivity.
Qed.

Lemma spec_last o l : li_last l <= li_last (snd (spec_op o l)) <= li_last l + 1.
Proof. destruct o; cbn; repeat case_match; cbn; lia. Qed.

Lemma run_refines ops : forall t, Forall (fun o => op_ok (snd o)) ops -> t_sequence t + Z.of_nat (length ops) <= max_rowid ->
  exists t', store_run ops (resting t) = (fst (spec_run (map snd ops) (listing_of t)), resting t') /\
    listing_of t' = snd (spec_run (map snd ops) (listing_of t)).
Proof.
  induction ops as [|[now o] ops IH]; intros t F Hs; [exists t; split; reflexivity|]. apply Forall_cons in F as [Ho F]. cbn [length] in Hs.
  destruct (op_refines now o t Ho ltac:(lia)) as (t1 & E1 & L1). cbn [store_run map spec_run snd]. rewrite E1.
  pose proof (spec_last o (listing_of t)) as Hl. destruct (spec_op o (listing_of t)) as [b l1]. cbn [fst snd] in *. subst l1.
  destruct (IH t1 F ltac:(cbn in Hl; lia)) as (t2 & E2 & L2). exists t2. rewrite E2. destruct (spec_run _ _) as [bs l2]. split; [reflexivity|exact L2].
Qed.

Lemma select_sorted q t : tables_typed t -> merge_sort by_id (List.filter q (t_products t)) = List.filter q (t_products t).
Proof. intros H. apply (sorted_already by_id p_id); [reflexivity|]. apply filter_sorted, H. Qed.

(** An id the C++ [int] holds. *)
Lemma extract_shown t p : tables_typed t -> t_sequence t <= int_max -> p ∈ t_products t -> entry_of (extractProduct p) = Some (shown p).
Proof.
  intros H Hs Hp. destruct (proj1 (Forall_forall _ _) (tt_rows t H) p Hp) as [Hid _]. unfold entry_of, extractProduct, shown. cbn.
  rewrite i32_id by (unfold int_min, int_max in *; lia). reflexivity.
Qed.

(** A SELECT changes nothing, however it ends. *)
Definition only_select (s s' : Catalogue) : Prop :=
  db_disk s' = db_disk s /\ db_view s' = db_view s /\ db_schema s' = db_schema s /\ db_in_tx s' = db_in_tx s.
#[export] Instance only_select_refl : Reflexive only_select.
Proof. intros s. repeat split. Qed.
#[export] Instance only_select_trans : Transitive only_select.
Proof. intros s1 s2 s3 (? & ? & ? & ?) (? & ? & ? & ?). repeat split; congruence. Qed.
Lemma run_select_only has {A} (rows : catalogue_tables -> list A) s : only_select s (snd (run_select has rows s)).
Proof. unfold run_select, sql_prepare, sql_select, statement. cbn. destruct (_ && _); repeat split. Qed.
Lemma getAll_only s : only_select s (snd (getAllProducts s)).
Proof. unfold getAllProducts. pose proof (run_select_only has_products (fun t => merge_sort by_id (List.filter is_live (t_products t))) s) as H. destruct (run_select _ _ s). exact H. Qed.
Lemma getProduct_only id s : only_select s (snd (getProduct id s)).
Proof. unfold getProduct. pose proof (run_select_only has_products (fun t => List.filter (live_id id) (t_products t)) s) as H. destruct (run_select _ _ s). exact H. Qed.

(** The listing, read from a database at rest. *)
Lemma getAll_listing t : tables_typed t -> t_sequence t <= int_max ->
  map entry_of (fst (getAllProducts (resting t))) = map Some (li_entries (listing_of t)) /\ snd (getAllProducts (resting t)) = resting t.
Proof.
  intros Ht Hs. unfold getAllProducts. rewrite run_select_resting by reflexivity. split; [|reflexivity]. cbn [fst]. rewrite select_sorted by exact Ht.
  cbn [li_entries listing_of]. rewrite !map_map. apply map_ext_in. intros p Hp. apply filter_In in Hp as [Hp _].
  apply (extract_shown t); [exact Ht|exact Hs|apply list_elem_of_In, Hp].
Qed.

(* ------------------------------------------------------------------ *)
(** ** Lemmas: recipes *)

Definition storable (recipe : Recipe) : Prop :=
  NoDup (map (fun t => c_str (checkpointName t)) (checkpointTargets recipe)) /\
  Forall (fun t => is_nan (target_rate t) = false) (checkpointTargets recipe).
#[export] Instance storable_dec recipe : Decision (storable recipe).
Proof. unfold storable. apply _. Defined.

Definition rates_ok (recipe : Recipe) : Prop := Forall (fun t => valid_binary fprec femax (target_rate t) = true) (checkpointTargets recipe).

Definition target_of (code : string) (t : CheckpointTarget) : target_row := mkTargetRow code (c_str (checkpointName t)) (f64_of_f32 (target_rate t)).

(** Without what cannot be stored: the tables of a saved recipe. *)
Definition saved (recipe : Recipe) (t : catalogue_tables) : catalogue_tables :=
  let code := c_str (rec_productCode recipe) in
  set_targets (List.filter (fun r => negb (String.eqb (tr_code r) code)) (t_targets t) ++ map (target_of code) (checkpointTargets recipe))
    (set_recipes (List.filter (fun r => negb (String.eqb (rr_code r) code)) (t_recipes t) ++ [mkRecipeRow code (rec_totalOperations recipe)]) t).

Lemma nan_through_double x : valid_binary fprec femax x = true -> is_nan (f64_of_f32 x) = is_nan x.
Proof.
  intros H. destruct x as [s|s| |s m e]; try reflexivity. pose proof (f32_through_double _ H) as E.
  destruct (f64_of_f32 (S754_finite s m e)); try reflexivity. discriminate E.
Qed.

(** A connection inside a transaction that began with [d]. *)
Definition open_tx (d v : catalogue_tables) : Catalogue := mkStore true full_schema d v true [].

Lemma run_change_open has f d v : has full_schema = true ->
  run_change has f (open_tx d v) = match f v with Some v' => (true, open_tx d v') | None => (false, open_tx d v) end.
Proof. intros H. unfold run_change, sql_prepare, open_tx. cbn. rewrite H. cbn. unfold sql_attempt. cbn. destruct (f v); reflexivity. Qed.

(** The names of a product's targets. *)
Definition names_of (code : string) (v : catalogue_tables) : list string :=
  map tr_name (List.filter (fun r => String.eqb (tr_code r) code) (t_targets v)).

Lemma names_cleared code l t : names_of code (set_targets (List.filter (fun r => negb (String.eqb (tr_code r) code)) l) t) = [].
Proof. unfold names_of. cbn. rewrite lfilter_lfilter. induction l as [|r l IH]; [reflexivity|]. cbn. destruct (String.eqb (tr_code r) code); exact IH. Qed.

Lemma insert_target_spec code name rate v : insert_target code name rate v =
  match rate with
  | Some x => if decide (name ∈ names_of code v) then None else Some (set_targets (t_targets v ++ [mkTargetRow code name x]) v)
  | None => None
  end.
Proof.
  unfold insert_target. destruct rate as [x|]; [|reflexivity]. case_decide as D.
  - apply list_elem_of_fmap in D as (r & -> & Hr). apply list_elem_of_In, filter_In in Hr as [Hr Ec].
    replace (existsb _ _) with true; [reflexivity|]. symmetry. apply existsb_exists. exists r. rewrite Ec, String.eqb_refl. auto.
  - destruct (existsb _ _) eqn:Ex; [|reflexivity]. exfalso. apply D. apply existsb_exists in Ex as (r & Hr & E). apply andb_prop in E as [Ec En].
    apply String.eqb_eq in En as <-. apply list_elem_of_fmap. exists r. split; [reflexivity|]. apply list_elem_of_In, filter_In. auto.
Qed.

Definition insert_all_targets (code : string) : list CheckpointTarget -> catalogue_tables -> option catalogue_tables :=
  insert_each (fun t => insert_target code (c_str (checkpointName t)) (bind_double (target_rate t))).

(** All of them go in when their names differ and no rate is NaN. *)
Lemma insert_all_spec code targets : Forall (fun t => valid_binary fprec femax (target_rate t) = true) targets ->
  forall v, NoDup (names_of code v) -> insert_all_targets code targets v =
  if decide (NoDup (names_of code v ++ map (fun t => c_str (checkpointName t)) targets) /\ Forall (fun t => is_nan (target_rate t) = false) targets)
  then Some (set_targets (t_targets v ++ map (target_of code) targets) v) else None.
Proof.
  intros F. induction F as [|t targets Ht F IH]; intros v Hv.
  { rewrite decide_True by (rewrite app_nil_r; auto). cbn. rewrite app_nil_r. destruct v. reflexivity. }
  cbn [insert_all_targets insert_each map]. rewrite insert_target_spec. unfold bind_double. rewrite nan_through_double by exact Ht.
  destruct (is_nan (target_rate t)) eqn:N. { rewrite decide_False; [reflexivity|]. intros [_ F']. apply Forall_cons in F' as [F' _]. congruence. }
  destruct (decide (c_str (checkpointName t) ∈ names_of code v)) as [D|D].
  { rewrite decide_False; [reflexivity|]. intros [ND _]. apply NoDup_app in ND as (_ & ND & _). apply (ND _ D). left. }
  cbn [mbind option_bind]. set (v1 := set_targets _ v). assert (E1 : names_of code v1 = names_of code v ++ [c_str (checkpointName t)]).
  { unfold names_of, v1. cbn. rewrite List.filter_app, map_app. cbn. rewrite String.eqb_refl. reflexivity. }
  fold (insert_all_targets code targets v1). rewrite IH, E1, <- app_assoc.
  2: { rewrite E1. apply NoDup_app. split; [exact Hv|]. split; [|apply NoDup_singleton]. intros x Hx Hx'. apply list_elem_of_singleton in Hx' as ->. auto. }
  cbn [app]. unfold v1 at 1 2. cbn. rewrite <- app_assoc. cbn.
  apply decide_ext. rewrite Forall_cons, N. tauto.
Qed.

Lemma insert_targets_open code targets d : forall v,
  match insert_all_targets code targets v with
  | Some v' => insert_targets alone code targets (open_tx d v) = (true, open_tx d v')
  | None => exists v', insert_targets alone code targets (open_tx d v) = (false, open_tx d v')
  end.
Proof.
  induction targets as [|t targets IH]; intros v; [reflexivity|]. cbn [insert_all_targets insert_each insert_targets].
  unfold alone at 1 3. rewrite run_change_open by reflexivity. destruct (insert_target _ _ _ v) as [v1|]; cbn; [apply IH|exists v; reflexivity].
Qed.

(** A save that nothing disturbs. *)
Lemma upsert_resting recipe t : rates_ok recipe ->
  upsertRecipe alone recipe (resting t) = if decide (storable recipe) then (true, resting (saved recipe t)) else (false, resting t).
Proof.
  intros F. unfold upsertRecipe. set (code := c_str (rec_productCode recipe)). unfold alone at 1 2 3 5. change (sql_begin (resting t)) with (true, open_tx t t). cbn [negb].
  rewrite run_change_open by reflexivity. unfold replace_recipe at 1. rewrite run_change_open by reflexivity. unfold delete_targets at 1.
  set (v := set_targets _ _).
  assert (En : names_of code v = []) by apply names_cleared.
  pose proof (insert_targets_open code (checkpointTargets recipe) t v) as H. rewrite insert_all_spec, En in H; [|exact F|rewrite En; constructor].
  cbn [app] in H. fold (storable recipe) in H. destruct (decide (storable recipe)).
  - rewrite H. unfold saved. reflexivity.
  - destruct H as [v' ->]. reflexivity.
Qed.

Lemma saved_heads recipe code t : List.filter (fun r => String.eqb (rr_code r) code) (t_recipes (saved recipe t)) =
  if String.eqb (c_str (rec_productCode recipe)) code then [mkRecipeRow code (rec_totalOperations recipe)]
  else List.filter (fun r => String.eqb (rr_code r) code) (t_recipes t).
Proof.
  cbn. rewrite List.filter_app, lfilter_lfilter. cbn. destruct (String.eqb_spec (c_str (rec_productCode recipe)) code) as [<-|Hne].
  - replace (List.filter _ _) with (@nil recipe_row); [reflexivity|]. symmetry. induction (t_recipes t) as [|r l IH]; [reflexivity|].
    cbn. destruct (String.eqb _ _); exact IH.
  - rewrite app_nil_r. apply lfilter_ext. intros r. destruct (String.eqb_spec (rr_code r) code) as [->|]; [|apply andb_false_r].
    destruct (String.eqb_spec code (c_str (rec_productCode recipe))); [congruence|reflexivity].
Qed.

Lemma saved_targets recipe code t : List.filter (fun r => String.eqb (tr_code r) code) (t_targets (saved recipe t)) =
  if String.eqb (c_str (rec_productCode recipe)) code then map (target_of code) (checkpointTargets recipe)
  else List.filter (fun r => String.eqb (tr_code r) code) (t_targets t).
Proof.
  cbn. rewrite List.filter_app, lfilter_lfilter, filter_map_comm. cbn. destruct (String.eqb_spec (c_str (rec_productCode recipe)) code) as [<-|Hne].
  - replace (List.filter _ (t_targets t)) with (@nil target_row).
    + cbn. f_equal. induction (checkpointTargets recipe) as [|r l IH]; [reflexivity|]. cbn. f_equal. exact IH.
    + symmetry. induction (t_targets t) as [|r l IH]; [reflexivity|]. cbn. destruct (String.eqb _ _); exact IH.
  - replace (List.filter _ (checkpointTargets recipe)) with (@nil CheckpointTarget).
    + rewrite app_nil_r. apply lfilter_ext. intros r. destruct (String.eqb_spec (tr_code r) code) as [->|]; [|apply andb_false_r].
      destruct (String.eqb_spec code (c_str (rec_productCode recipe))); [congruence|reflexivity].
    + induction (checkpointTargets recipe) as [|r l IH]; [reflexivity|]. exact IH.
Qed.

(** Statements inside the transaction, however they end. *)
Lemma run_change_tx has f s : db_in_tx s = true -> let '(ok, s') := run_change has f s in db_disk s' = db_disk s /\
  if ok : bool then f (db_view s) = Some (db_view s') /\ db_in_tx s' = true
  else db_view s' = db_view s /\ db_in_tx s' = true \/ db_view s' = db_disk s /\ db_in_tx s' = false.
Proof.
  intros Hx. unfold run_change, sql_prepare. cbn. destruct (_ && _); cbn [negb]; [|cbn; auto]. unfold sql_attempt. cbn [db_view].
  destruct (f (db_view s)) as [v|]; [|cbn; auto]. match goal with |- context [sql_change ?g ?s1] => pose proof (change_spec g s1 Hx) as C; destruct (sql_change g s1) as [ok s2] end.
  cbn in C. destruct C as [C1 C2]. split; [exact C1|]. destruct ok; [|exact C2]. destruct C2 as [-> ?]. auto.
Qed.

Lemma insert_targets_tx code targets : forall s, db_in_tx s = true ->
  let '(ok, s') := insert_targets alone code targets s in db_disk s' = db_disk s /\
  if ok : bool then insert_all_targets code targets (db_view s) = Some (db_view s') /\ db_in_tx s' = true else True.
Proof.
  induction targets as [|t targets IH]; intros s Hx; [cbn; auto|]. cbn [insert_targets insert_all_targets insert_each].
  unfold alone at 1. pose proof (run_change_tx has_targets (insert_target code (c_str (checkpointName t)) (bind_double (target_rate t))) s Hx) as H.
  destruct (run_change _ _ s) as [ok s1]. destruct H as [D1 H]. destruct ok; [|auto]. destruct H as [-> X1]. cbn [mbind option_bind].
  specialize (IH s1 X1). destruct (insert_targets alone code targets s1) as [ok s2]. destruct IH as [D2 IH]. split; [congruence|exact IH].
Qed.

(* ------------------------------------------------------------------ *)
(** ** Properties *)

(** C29: The database keeps its schema's promises. Whatever statements the two
    threads issue in whatever order, and however each of them ends, from
    the first one on: ids are positive, increasing and never reused, product
    codes are unique (deleted products included), a status is one of the
    three, a product has one recipe, a checkpoint one target in it, and no
    stored number is NaN, both in the file and inside a transaction. *)
Theorem catalogue_typed (opens : bool) (now : string) (results : list sql_result) (sts : list store_statement) :
  let s := fold_left (fun s st => exec st s) sts (snd (initialize opens now results)) in
  tables_typed (db_view s) /\ tables_typed (db_disk s).
Proof.
  cbn zeta. enough (T : typed (fold_left (fun s st => exec st s) sts (snd (initialize opens now results)))) by (split; apply T).
  apply fold_inv; [apply initialize_typed|]. intros s st _. apply exec_typed.
Qed.

(** C28: The product operations implement the list of products. On a database
    at rest, any sequence of additions, changes and deletions returns what
    the list returns, and afterwards the listing, the lookup by id and the
    search show the list's products, those added last at the end. *)
Theorem products_refine_list `{SqlLike} (ops : list (string * product_op)) (t : catalogue_tables) :
  tables_typed t -> Forall (fun o => op_ok (snd o)) ops -> t_sequence t + Z.of_nat (length ops) <= int_max ->
  let l := snd (spec_run (map snd ops) (listing_of t)) in
  exists s, store_run ops (resting t) = (fst (spec_run (map snd ops) (listing_of t)), s) /\
    map entry_of (fst (getAllProducts s)) = map Some (li_entries l) /\
    (forall id, entry_of (fst (getProduct id s)) = List.find (fun e => e_id e =? id) (li_entries l)) /\
    (forall q, map entry_of (fst (searchProducts q s)) =
      map Some (List.filter (fun e => like (c_str ("%" ++ q ++ "%")) (e_name e) || like (c_str ("%" ++ q ++ "%")) (e_code e)) (li_entries l))).
Proof.
  intros Ht F Hs l. destruct (run_refines ops t F ltac:(unfold max_rowid, int_max in *; lia)) as (t' & E & L). exists (resting t'). split; [exact E|].
  assert (Ht' : tables_typed t').
  { assert (T : typed (resting t)) by (split; [exact Ht|exact Ht|reflexivity]). enough (typed (resting t')) as T' by apply T'.
    apply (f_equal snd) in E. cbn [snd] in E. rewrite <- E. clear -T. revert T. generalize (resting t). induction ops as [|[now o] ops IH]; intros s T; [exact T|].
    cbn [store_run]. assert (T1 : typed (snd (store_op now o s))).
    { destruct o; [exact (exec_typed (StAdd _ _ _ _ _ _) s T)|exact (exec_typed (StUpdate _ _ _ _ _ _) s T)|exact (exec_typed (StDelete _ _) s T)]. }
    destruct (store_op now o s) as [b s1]. specialize (IH s1 T1). destruct (store_run ops s1). exact IH. }
  assert (Hl : t_sequence t' <= int_max).
  { change (t_sequence t') with (li_last (listing_of t')). rewrite L. change (t_sequence t) with (li_last (listing_of t)) in Hs. revert Hs. clear.
    rewrite <- (length_map snd ops). generalize (listing_of t). induction (map snd ops) as [|o os IH]; intros l Hs; cbn [spec_run length] in *; [cbn; lia|].
    pose proof (spec_last o l). destruct (spec_op o l) as [b l1]. cbn [snd] in *. specialize (IH l1 ltac:(lia)). destruct (spec_run os l1). exact IH. }
  assert (HX : forall q, map entry_of (map extractProduct (List.filter q (t_products t'))) = map Some (map shown (List.filter q (t_products t')))).
  { intros q. rewrite !map_map. apply map_ext_in. intros p Hp. apply filter_In in Hp as [Hp _]. apply (extract_shown t'); [exact Ht'|exact Hl|apply list_elem_of_In, Hp]. }
  subst l. rewrite <- L. cbn [li_entries listing_of]. split; [|split].
  - apply (getAll_listing t' Ht' Hl).
  - intros id. unfold getProduct. rewrite run_select_resting by reflexivity. cbn [fst]. clear -Ht' Hl.
    assert (X : forall p, p ∈ t_products t' -> entry_of (extractProduct p) = Some (shown p)) by (intros p Hp; apply (extract_shown t'); assumption).
    induction (t_products t') as [|p ps IH]; [reflexivity|]. cbn. unfold live_id at 1. destruct (is_live p); cbn.
    + rewrite andb_true_r. destruct (p_id p =? id); [apply X; left|apply IH; intros; apply X; right; assumption].
    + rewrite andb_false_r. apply IH. intros; apply X; right; assumption.
  - intros q. unfold searchProducts. rewrite run_select_resting by reflexivity. cbn [fst]. rewrite select_sorted by exact Ht'. rewrite HX. f_equal.
    rewrite filter_map_comm, lfilter_lfilter. f_equal. apply lfilter_ext. intros p. cbn. apply andb_comm.
Qed.

(** C30: What is saved is read back. On a database at rest a recipe is saved
    exactly when no two of its checkpoints have the same name and no target
    is NaN; it then reads back with its operations and its targets, in the
    order of their names, and no other product's recipe changes. A refused
    recipe changes nothing. *)
Theorem recipe_roundtrip (recipe : Recipe) (t : catalogue_tables) :
  rates_ok recipe ->
  if decide (storable recipe) then
    exists s, upsertRecipe alone recipe (resting t) = (true, s) /\
    (exists targets, fst (getRecipeByProductCode (rec_productCode recipe) s) = Some (mkRecipe (rec_productCode recipe) (rec_totalOperations recipe) targets) /\
       targets ≡ₚ map (fun u => mkTarget (c_str (checkpointName u)) (target_rate u)) (checkpointTargets recipe) /\
       Sorted (fun a b => String.leb (checkpointName a) (checkpointName b) = true) targets) /\
    (forall code, c_str code <> c_str (rec_productCode recipe) -> fst (getRecipeByProductCode code s) = fst (getRecipeByProductCode code (resting t)))
  else upsertRecipe alone recipe (resting t) = (false, resting t).
Proof.
  intros F. rewrite upsert_resting by exact F. destruct (decide (storable recipe)) as [Hst|]; [|reflexivity]. exists (resting (saved recipe t)). split; [reflexivity|]. split.
  - unfold getRecipeByProductCode. rewrite run_select_resting by reflexivity. rewrite saved_heads, String.eqb_refl. cbn [fst].
    rewrite run_select_resting by reflexivity. cbn [fst rr_operations]. rewrite saved_targets, String.eqb_refl. eexists. split; [reflexivity|].
    set (rows := map (target_of _) _). split.
    + rewrite (Permutation_map _ (merge_sort_Permutation by_name rows)). unfold rows. rewrite map_map. match goal with |- ?a ≡ₚ ?b => enough (a = b) as -> by reflexivity end. apply map_ext_in. intros u Hu. cbn.
      rewrite f32_through_double; [reflexivity|]. apply (proj1 (Forall_forall _ _) F u), list_elem_of_In, Hu.
    + assert (HS : Sorted by_name (merge_sort by_name rows)) by apply (Sorted_merge_sort by_name).
      revert HS. generalize (merge_sort by_name rows). induction 1 as [|r l HS IH Hd]; cbn; constructor; [exact IH|]. destruct Hd; cbn; constructor. assumption.
  - intros code Hc. unfold getRecipeByProductCode. rewrite !run_select_resting by reflexivity. rewrite saved_heads.
    destruct (String.eqb_spec (c_str (rec_productCode recipe)) (c_str code)) as [E|_]; [congruence|]. destruct (List.filter _ (t_recipes t)); [reflexivity|]. cbn [fst].
    rewrite saved_targets. destruct (String.eqb_spec (c_str (rec_productCode recipe)) (c_str code)) as [E|_]; [congruence|]. reflexivity.
Qed.

(** A save is all or nothing. However its statements end, undisturbed:
    a save reported as failed leaves the database as it was, outside any
    transaction; one reported as done has stored the recipe whole, or its
    COMMIT has failed and the file is as it was. *)
Theorem recipe_save_atomic (recipe : Recipe) (s : Catalogue) :
  rates_ok recipe -> db_in_tx s = false -> db_view s = db_disk s ->
  let '(ok, s') := upsertRecipe alone recipe s in
  if ok then storable recipe /\ (db_disk s' = saved recipe (db_disk s) /\ db_view s' = db_disk s' \/ db_disk s' = db_disk s)
  else db_disk s' = db_disk s /\ db_view s' = db_disk s /\ db_in_tx s' = false.
Proof.
  intros F Hx Hv. unfold upsertRecipe. set (code := c_str (rec_productCode recipe)). unfold alone at 1.
  pose proof (begin_spec s) as B. destruct (sql_begin s) as [begun s1]. destruct B as (D1 & V1 & X1). destruct begun; cbn [negb]; [|rewrite D1, V1; repeat split; congruence].
  destruct X1 as [_ X1]. unfold alone at 1.
  pose proof (run_change_tx has_recipes (replace_recipe code (rec_totalOperations recipe)) s1 X1) as H2. destruct (run_change _ _ s1) as [ok2 s2]. destruct H2 as [D2 H2].
  destruct ok2; [|cbn; repeat split; congruence]. destruct H2 as [V2 X2]. unfold alone at 1.
  pose proof (run_change_tx has_targets (delete_targets code) s2 X2) as H3. destruct (run_change _ _ s2) as [ok3 s3]. destruct H3 as [D3 H3].
  destruct ok3; [|cbn; repeat split; congruence]. destruct H3 as [V3 X3].
  pose proof (insert_targets_tx code (checkpointTargets recipe) s3 X3) as H4. destruct (insert_targets _ _ _ s3) as [ok4 s4]. destruct H4 as [D4 H4].
  unfold alone. destruct ok4; [|cbn; repeat split; congruence]. destruct H4 as [V4 X4]. injection V2 as V2. injection V3 as V3. rewrite V1, Hv in V2. rewrite <- V2 in V3.
  assert (En : names_of code (db_view s3) = []) by (rewrite <- V3; apply names_cleared).
  rewrite insert_all_spec, En in V4; [|exact F|rewrite En; constructor]. cbn [app] in V4. fold (storable recipe) in V4. destruct (decide (storable recipe)) as [Hst|]; [|discriminate].
  split; [exact Hst|]. injection V4 as V4. assert (E4 : db_view s4 = saved recipe (db_disk s)) by (rewrite <- V4, <- V3; reflexivity).
  unfold sql_commit. cbn. rewrite X4. destruct (hd SqlOk (db_results s4)); cbn; rewrite ?E4; [left; auto| | |]; right; congruence.
Qed.

(* ------------------------------------------------------------------ *)
(** ** Witnesses *)

(** LIKE on bytes. *)
Fixpoint like_bytes (p : string) : string -> bool :=
  match p with
  | EmptyString => fun s => String.eqb s ""
  | String c p =>
      if Ascii.eqb c "%" then fix any s := like_bytes p s || match s with EmptyString => false | String _ s => any s end
      else fun s =>
        match s with
        | EmptyString => false
        | String d s => (Ascii.eqb c "_" || Ascii.eqb (Format.tolower c) (Format.tolower d)) && like_bytes p s
        end
  end.
#[local] Instance DemoLike : SqlLike := {| like := like_bytes |}.

Definition demo_tables : catalogue_tables := db_disk (snd (initialize true "2026-01-01 00:00:00" [])).

Lemma demo_typed : tables_typed demo_tables.
Proof. exact (ty_disk _ (initialize_typed true "2026-01-01 00:00:00" [])). Qed.

Definition demo_ops : list (string * product_op) :=
  [ ("2026-01-02 00:00:00", OpAdd "PROD-007" "Product G" "Active" 10 (f32_of_Z 97));
    ("2026-01-02 00:00:01", OpAdd "PROD-007" "Product H" "Active" 10 (f32_of_Z 97));
    ("2026-01-02 00:00:02", OpUpdate 2 "Product B2" "Unknown" 5 (f32_of_Z 90));
    ("2026-01-02 00:00:03", OpDelete 1);
    ("2026-01-02 00:00:04", OpDelete 77) ].

Lemma products_refine_list_witness :
  let l := snd (spec_run (map snd demo_ops) (listing_of demo_tables)) in
  (exists s, store_run demo_ops (resting demo_tables) = ([true; false; false; true; true], s) /\
    map entry_of (fst (getAllProducts s)) = map Some (li_entries l)) /\
  map e_id (li_entries l) = [2; 3; 4; 5; 6; 7].
Proof.
  cbn zeta. split; [|vm_compute; reflexivity].
  destruct (products_refine_list demo_ops demo_tables demo_typed) as (s & E & G & _).
  - vm_compute. repeat constructor.
  - vm_compute. discriminate.
  - exists s. split; [rewrite E; f_equal; vm_compute; reflexivity|exact G].
Defined.

Definition demo_recipe : Recipe := mkRecipe "PROD-003" 3 [mkTarget "Weight Check" (f32_of_Z 98); mkTarget "Assay" (f32_of_Z 90)].

Lemma recipe_roundtrip_witness :
  (exists s, upsertRecipe alone demo_recipe (resting demo_tables) = (true, s) /\
    fst (getRecipeByProductCode "PROD-001" s) = fst (getRecipeByProductCode "PROD-001" (resting demo_tables))) /\
  option_map (fun r => map checkpointName (checkpointTargets r)) (fst (getRecipeByProductCode "PROD-003" (snd (upsertRecipe alone demo_recipe (resting demo_tables)))))
    = Some ["Assay"; "Weight Check"].
Proof.
  split; [|vm_compute; reflexivity].
  assert (H := recipe_roundtrip demo_recipe demo_tables ltac:(vm_compute; repeat constructor)). rewrite decide_True in H.
  - destruct H as (s & E & _ & O). exists s. split; [exact E|]. apply O. vm_compute. discriminate.
  - split; [apply (bool_decide_unpack _); vm_compute; exact I|vm_compute; repeat constructor].
Defined.

(** The INSERT of the second target fails. *)
Definition failing_store : Catalogue := mkStore true full_schema demo_tables demo_tables false [SqlOk; SqlOk; SqlOk; SqlOk; SqlOk; SqlOk; SqlOk; SqlOk; SqlError].

Lemma failing_idle : db_in_tx failing_store = false /\ db_view failing_store = db_disk failing_store.
Proof. unfold failing_store. cbn [db_in_tx db_view db_disk]. split; exact eq_refl. Qed.
Lemma demo_rates : rates_ok demo_recipe.
Proof. vm_compute. repeat constructor. Qed.
Lemma failing_save : fst (upsertRecipe alone demo_recipe failing_store) = false.
Proof. vm_compute. reflexivity. Qed.

Lemma recipe_save_atomic_witness :
  let '(ok, s') := upsertRecipe alone demo_recipe failing_store in ok = false /\ db_disk s' = db_disk failing_store /\ db_view s' = db_disk failing_store.
Proof.
  assert (H := recipe_save_atomic demo_recipe failing_store demo_rates (proj1 failing_idle) (proj2 failing_idle)). pose proof failing_save as E.
  destruct (upsertRecipe alone demo_recipe failing_store) as [ok s']. cbn [fst] in E. subst ok. destruct H as (H1 & H2 & _). auto.
Defined.
