(* ===== verification/ModelNews.v ===== *)
(** * What the subscribers of the model learn

    Every operation of the simulated model on an initialised plant delivers
    to its subscribers nothing but current values, so a subscriber that keeps
    the last value it was called with for each entity knows the tables of the
    model. The components that watch the model (the dashboard presenter, the
    bridge to a second station, the historian, telemetry) are proved against
    the lemmas of this file. *)
From stdpp Require Import gmap.
From S2P Require Import Prelude Float32 Float64 StdMap SystemState ModbusIngest SimulatedModel.

(** A delivery and its subscriber. *)
Definition addressee (d : delivery) : nat :=
  match d with DEquipment n _ | DActuator n _ | DQuality n _ | DWorkUnit n _ | DState n _ => n end.

(** The deliveries to one subscriber. *)
Definition inbox (me : nat) (l : list delivery) : list delivery := filter (fun d => addressee d = me) l.

(** Operations on the plant the demo data describes: three lines and three
    checkpoints; nobody unsubscribes. *)
Definition in_plant (o : model_op) : Prop :=
  match o with
  | SetEquipmentEnabled id _ | SetEquipmentSupplyLevel id _ | NotifyQuality id => 0 <= id < 3
  | SetQualityPassRate id _ => is_u32 id
  | ClearCallbacks => False
  | _ => True
  end.

Lemma in_plant_ok o : in_plant o -> op_ok o.
Proof. destruct o; cbn; unfold is_u32; intros; auto; lia. Qed.

Section News.
Context {G : Type} `{RG : RandomSource G}.
Implicit Types m : SimulatedModel G.

(** The initialised plant: three lines, two actuators, three checkpoints, each
    stored under its own id. *)
Record plant m : Prop := {
  pl_lines : sm_keys (equipmentStatuses_ m) = [0; 1; 2];
  pl_actuators : sm_keys (actuatorStatuses_ m) = [0; 1];
  pl_checkpoints : sm_keys (qualityCheckpoints_ m) = [0; 1; 2];
  pl_line_ids : sm_all (fun id e => equipmentId e = id) (equipmentStatuses_ m);
  pl_actuator_ids : sm_all (fun id a => actuatorId a = id) (actuatorStatuses_ m);
  pl_checkpoint_ids : sm_all (fun id c => checkpointId c = id) (qualityCheckpoints_ m);
}.

(** A delivery that says what the model holds. *)
Definition current m (d : delivery) : Prop :=
  match d with
  | DEquipment _ e => sm_get (equipmentId e) (equipmentStatuses_ m) = Some e
  | DActuator _ a => sm_get (actuatorId a) (actuatorStatuses_ m) = Some a
  | DQuality _ c => sm_get (checkpointId c) (qualityCheckpoints_ m) = Some c
  | DWorkUnit _ w => w = currentWorkUnit_ m
  | DState _ s => s = getState m
  end.

Definition subscribed (me : nat) m : Prop :=
  me ∈ equipmentCallbacks_ (subscribers_ m) /\ me ∈ actuatorCallbacks_ (subscribers_ m) /\
  me ∈ qualityCallbacks_ (subscribers_ m) /\ me ∈ workUnitCallbacks_ (subscribers_ m) /\
  me ∈ stateCallbacks_ (subscribers_ m).

(** Subscriptions are only added. *)
Definition subs_grow (s s' : Subscribers) : Prop := forall me,
  (me ∈ equipmentCallbacks_ s -> me ∈ equipmentCallbacks_ s') /\
  (me ∈ actuatorCallbacks_ s -> me ∈ actuatorCallbacks_ s') /\
  (me ∈ qualityCallbacks_ s -> me ∈ qualityCallbacks_ s') /\
  (me ∈ workUnitCallbacks_ s -> me ∈ workUnitCallbacks_ s') /\
  (me ∈ stateCallbacks_ s -> me ∈ stateCallbacks_ s').

Definition news_step m m' : Prop :=
  plant m' /\ subs_grow (subscribers_ m) (subscribers_ m') /\
  exists news, delivered m' = delivered m ++ news /\ Forall (current m') news.

(* ------------------------------------------------------------------ *)
(** ** Notifications tell the current values *)

Lemma plant_deliver l m : plant m -> plant (deliver l m).
Proof. intros []. split; assumption. Qed.

Lemma equipment_current m id : plant m -> Forall (current m) (equipment_news m id).
Proof.
  intros P. unfold equipment_news. destruct (sm_get id (equipmentStatuses_ m)) eqn:E; [|constructor].
  apply Forall_fmap, Forall_true. intros cb. cbn. rewrite (pl_line_ids _ P _ _ E). exact E.
Qed.
Lemma actuator_current m id : plant m -> Forall (current m) (actuator_news m id).
Proof.
  intros P. unfold actuator_news. destruct (sm_get id (actuatorStatuses_ m)) eqn:E; [|constructor].
  apply Forall_fmap, Forall_true. intros cb. cbn. rewrite (pl_actuator_ids _ P _ _ E). exact E.
Qed.
Lemma quality_current m id : plant m -> Forall (current m) (quality_news m id).
Proof.
  intros P. unfold quality_news. destruct (sm_get id (qualityCheckpoints_ m)) eqn:E; [|constructor].
  apply Forall_fmap, Forall_true. intros cb. cbn. rewrite (pl_checkpoint_ids _ P _ _ E). exact E.
Qed.
Lemma work_unit_current m : Forall (current m) (work_unit_news m).
Proof. apply Forall_fmap, Forall_true. reflexivity. Qed.
Lemma state_current m : Forall (current m) (state_news m).
Proof. apply Forall_fmap, Forall_true. reflexivity. Qed.

Lemma flat_current {A} m (h : A -> list delivery) l :
  (forall x, Forall (current m) (h x)) -> Forall (current m) (flat_map h l).
Proof. intros H. induction l as [|x l IH]; cbn; [constructor|]. apply Forall_app. auto. Qed.

Lemma news_deliver m m1 news :
  plant m1 -> delivered m1 = delivered m -> subscribers_ m1 = subscribers_ m -> Forall (current m1) news ->
  news_step m (deliver news m1).
Proof.
  intros P Hd Hs Hn. split; [apply plant_deliver, P|]. split.
  - intros me. cbn. rewrite Hs. auto.
  - exists news. cbn. rewrite Hd. auto.
Qed.

Lemma subscribed_grow me m m' : news_step m m' -> subscribed me m -> subscribed me m'.
Proof. intros (_ & N & _) (S1 & S2 & S3 & S4 & S5). specialize (N me). unfold subscribed. tauto. Qed.

Lemma grow_trans s1 s2 s3 : subs_grow s1 s2 -> subs_grow s2 s3 -> subs_grow s1 s3.
Proof. intros H1 H2 me. specialize (H1 me). specialize (H2 me). tauto. Qed.

Lemma news_silent m m1 :
  plant m1 -> delivered m1 = delivered m -> subscribers_ m1 = subscribers_ m -> news_step m m1.
Proof. intros. rewrite <- (deliver_nil m1). apply news_deliver; auto. Qed.

Create HintDb news.
Hint Resolve equipment_current actuator_current quality_current work_unit_current state_current flat_current : news.

(* ------------------------------------------------------------------ *)
(** ** Table updates keep the plant *)

Lemma update_keys {A} k d (f : A -> A) (t : smap A) v :
  sm_get k t = Some v -> sm_keys (sm_update k d f t) = sm_keys t.
Proof.
  unfold sm_update. generalize (f (default d (sm_get k t))). intros x.
  induction t as [|[k' w] t IH]; cbn; [discriminate|].
  destruct (Z.eqb_spec k k') as [->|]; [reflexivity|]. destruct (k <? k'); [discriminate|].
  intros H. cbn. f_equal. apply IH. exact H.
Qed.

Lemma update_all {A} (P : Z -> A -> Prop) k d (f : A -> A) (t : smap A) v :
  sm_ok t -> sm_all P t -> sm_get k t = Some v -> P k (f v) -> sm_all P (sm_update k d f t).
Proof. intros Hok Hall Hk Hv. unfold sm_update. rewrite Hk. apply sm_all_set; assumption. Qed.

Lemma keys_get {A} k (t : smap A) ks : sm_ok t -> sm_keys t = ks -> k ∈ ks -> exists v, sm_get k t = Some v.
Proof. intros Hok <- Hin. apply sm_keys_get; assumption. Qed.

Lemma set_keys {A} k v (t : smap A) ks : sm_ok t -> sm_keys t = ks -> k ∈ ks -> sm_keys (sm_set k v t) = ks.
Proof.
  intros Hok <- Hk. destruct (sm_keys_get k t Hok Hk) as [w Hw]. exact (update_keys k v (fun _ => v) t w Hw).
Qed.

Lemma three k : 0 <= k < 3 -> k ∈ [0; 1; 2].
Proof. intros H. rewrite !elem_of_cons. lia. Qed.

Lemma plant_update_line m id f :
  plant m -> sm_ok (equipmentStatuses_ m) -> 0 <= id < 3 -> (forall e, equipmentId (f e) = equipmentId e) ->
  plant (set_equipment (sm_update id equipment_default f (equipmentStatuses_ m)) m).
Proof.
  intros [] Hok Hid Hf. destruct (keys_get id _ _ Hok pl_lines0 (three id Hid)) as [e He]. split; try assumption.
  - rewrite <- pl_lines0. exact (update_keys _ _ _ _ e He).
  - apply (update_all _ _ _ _ _ e); try assumption. rewrite Hf. apply pl_line_ids0. exact He.
Qed.

Lemma plant_update_checkpoint m id f c :
  plant m -> sm_ok (qualityCheckpoints_ m) -> sm_get id (qualityCheckpoints_ m) = Some c ->
  (forall e, checkpointId (f e) = checkpointId e) ->
  plant (set_quality (sm_update id checkpoint_default f (qualityCheckpoints_ m)) m).
Proof.
  intros [] Hok Hc Hf. split; try assumption.
  - rewrite <- pl_checkpoints0. exact (update_keys _ _ _ _ c Hc).
  - apply (update_all _ _ _ _ _ c); try assumption. rewrite Hf. apply pl_checkpoint_ids0. exact Hc.
Qed.

(* ------------------------------------------------------------------ *)
(** ** One operation *)

Lemma dispatch_news n m c : model_ok n m -> plant m -> news_step m (sm_dispatch (fun s => sys_apply s c) m).
Proof.
  intros H [] . rewrite (sm_dispatch_eq c m (mo_machine _ _ H)).
  apply news_deliver; try reflexivity; [split; assumption|]. case_decide; [constructor|apply state_current].
Qed.

Lemma line_news n m id f :
  model_ok n m -> plant m -> 0 <= id < 3 -> (forall e, equipmentId (f e) = equipmentId e) ->
  news_step m (notifyEquipmentChange id
    (set_equipment (sm_update id equipment_default f (equipmentStatuses_ m)) m)).
Proof.
  intros H P Hid Hf. rewrite notify_equipment_eq.
  apply news_deliver; try reflexivity; [|apply equipment_current];
    apply plant_update_line; auto; apply (mo_equipment _ _ H).
Qed.

Lemma rate_news n m id r : model_ok n m -> plant m -> news_step m (model_setQualityPassRate m id r).
Proof.
  intros H P. unfold model_setQualityPassRate, sm_count. destruct (sm_get id (qualityCheckpoints_ m)) as [c|] eqn:Hc; cbn [negb].
  2:{ apply news_silent; auto. }
  set (m1 := set_overrides _ _).
  assert (P1 : plant m1) by (destruct (plant_update_checkpoint m id (cp_rate (f32_clamp r kQualityRateMin kQualityRateMax)) c P
    (mo_quality _ _ H) Hc ltac:(reflexivity)); split; assumption).
  rewrite notify_quality_eq.
  - apply news_deliver; auto. apply quality_current, P1.
  - cbn. apply sm_set_ok, (mo_quality _ _ H).
  - rewrite (pl_checkpoints _ P1), <- (pl_checkpoints _ P). eapply sm_get_key. exact Hc.
Qed.

Lemma notify_quality_news n m id : model_ok n m -> plant m -> 0 <= id < 3 -> news_step m (notifyQualityChange id m).
Proof.
  intros H P Hid. rewrite notify_quality_eq.
  - apply news_deliver; auto. apply quality_current, P.
  - apply (mo_quality _ _ H).
  - rewrite (pl_checkpoints _ P). apply three, Hid.
Qed.

(** A change of the work unit and the meter that is notified. *)
Lemma work_unit_news_step m w t :
  plant m -> news_step m (notifyWorkUnitChange (set_work_unit w (set_meter t m))).
Proof.
  intros []. unfold notifyWorkUnitChange. apply news_deliver; try reflexivity; [split; assumption|apply work_unit_current].
Qed.

(** Two steps, when what the first delivered is still current. *)
Lemma news_trans m m1 m2 :
  news_step m m1 -> news_step m1 m2 ->
  (forall d, current m1 d -> (exists news, delivered m1 = delivered m ++ news /\ d ∈ news) -> current m2 d) ->
  news_step m m2.
Proof.
  intros (P1 & S1 & n1 & D1 & C1) (P2 & S2 & n2 & D2 & C2) Hkeep. split; [exact P2|]. split; [exact (grow_trans _ _ _ S1 S2)|].
  exists (n1 ++ n2). rewrite D2, D1, app_assoc. split; [reflexivity|]. apply Forall_app. split; [|exact C2].
  apply Forall_forall. intros d Hd. rewrite Forall_forall in C1. apply Hkeep; eauto.
Qed.

Lemma plant_machine m x : plant m -> plant (set_machine x m).
Proof. intros []. split; assumption. Qed.

(** The deliveries of a state-machine command are about the state. *)
Lemma dispatch_keeps n m c m2 d :
  model_ok n m -> plant m -> stateMachine_ m2 = sys_apply (stateMachine_ m) c ->
  (exists news, delivered (sm_dispatch (fun s => sys_apply s c) m) = delivered m ++ news /\ d ∈ news) -> current m2 d.
Proof.
  intros H P Hs (news & D & Hin). rewrite (sm_dispatch_eq c m (mo_machine _ _ H)) in D. cbn in D.
  apply app_inv_head in D as <-. case_decide; [inversion Hin|].
  apply list_elem_of_fmap in Hin as (cb & -> & _). cbn. unfold getState. cbn. rewrite Hs. reflexivity.
Qed.

Lemma cycle_news n m : model_ok n m -> plant m -> news_step m (simulateProductionCycle m).
Proof.
  intros H P. unfold simulateProductionCycle. case_match; [|apply news_silent; auto].
  set (w := wu_completed _ _). pose proof (work_unit_news_step m w (throughputMeter_ m) P) as Hw.
  rewrite set_meter_same in Hw. set (m1 := notifyWorkUnitChange (set_work_unit w m)) in *.
  eapply news_trans; [exact Hw| |].
  - apply (line_news n m1 1); [|apply Hw|lia|reflexivity].
    unfold m1, notifyWorkUnitChange. apply ok_deliver.
    pose proof (mo_work _ _ H). destruct H. split; try assumption. cbn. lia.
  - intros d _ (news & D & Hin). cbn in D. apply app_inv_head in D as <-. rewrite notify_equipment_eq.
    apply list_elem_of_fmap in Hin as (cb & -> & _). reflexivity.
Qed.

Lemma start_news n m : model_ok n m -> plant m -> news_step m (startProduction m).
Proof.
  intros H P. pose proof (sm_dispatch_good n m CStart H) as [Hok _].
  pose proof (dispatch_news n m CStart H P) as Hd. unfold startProduction.
  change (sm_dispatch sys_start m) with (sm_dispatch (fun s => sys_apply s CStart) m).
  eapply news_trans; [exact Hd|apply (cycle_news n); [exact Hok|apply Hd]|].
  intros d _ Hin. eapply (dispatch_keeps n m CStart); eauto.
  rewrite sm_dispatch_eq by apply (mo_machine _ _ H). unfold simulateProductionCycle.
  case_match; [|reflexivity]. rewrite notify_equipment_eq. reflexivity.
Qed.

Lemma reset_news n m : model_ok n m -> plant m -> news_step m (resetSystem m).
Proof.
  intros H P. pose proof (dispatch_news n m CReset H P) as Hd. unfold resetSystem.
  change (sm_dispatch sys_reset m) with (sm_dispatch (fun s => sys_apply s CReset) m).
  set (m1 := sm_dispatch _ m) in *.
  pose proof (work_unit_news_step m1 (wu_throughput (f64_of_Z 0) (wu_completed 0 (currentWorkUnit_ m1)))
                (meter_clear (throughputMeter_ m1)) (proj1 Hd)) as Hw.
  eapply news_trans; [exact Hd|exact Hw|]. intros d _ Hin. eapply (dispatch_keeps n m CReset); eauto.
  unfold m1. rewrite sm_dispatch_eq by apply (mo_machine _ _ H). reflexivity.
Qed.

(** The quality table and the work unit change and are notified, in either
    order. *)
Lemma quality_work_news m m1 :
  plant m1 -> sm_ok (qualityCheckpoints_ m1) -> delivered m1 = delivered m -> subscribers_ m1 = subscribers_ m ->
  news_step m (notifyWorkUnitChange (notify_each notifyQualityChange (sm_keys (qualityCheckpoints_ m1)) m1)) /\
  news_step m (notify_each notifyQualityChange (sm_keys (qualityCheckpoints_ m1)) (notifyWorkUnitChange m1)).
Proof.
  intros P Hok Hd Hs. split.
  - rewrite (notify_all_quality m1 Hok). unfold notifyWorkUnitChange. rewrite deliver_deliver.
    apply news_deliver; auto. apply Forall_app. split; [auto with news|apply (work_unit_current m1)].
  - unfold notifyWorkUnitChange.
    match goal with |- context [deliver ?l m1] =>
      change (sm_keys (qualityCheckpoints_ m1)) with (sm_keys (qualityCheckpoints_ (deliver l m1)));
      rewrite (notify_all_quality (deliver l m1) Hok), deliver_deliver end.
    apply news_deliver; auto. apply Forall_app. split; [apply (work_unit_current m1)|].
    apply flat_current. intros id. exact (quality_current m1 id P).
Qed.

Lemma load_news n m p r : model_ok n m -> plant m -> news_step m (loadProduct p r m).
Proof.
  intros H P. unfold loadProduct. set (m1 := set_quality _ _).
  assert (P1 : plant m1).
  { destruct P. split; try assumption; [rewrite <- pl_checkpoints0; apply sm_map_keys|].
    eapply sm_all_map; [exact pl_checkpoint_ids0|]. intros k c Hk. unfold load_checkpoint.
    destruct (List.find _ _); exact Hk. }
  apply (quality_work_news m m1); auto. cbn. apply sm_map_ok, (mo_quality _ _ H).
Qed.

Lemma tick_checkpoints_ids ov l : forall g l' g',
  tick_checkpoints ov l g = Ret (l', g') -> sm_rel (fun _ c c' => checkpointId c' = checkpointId c) l l'.
Proof.
  induction l as [|[id c] l IH]; intros g l' g'; cbn [tick_checkpoints]; [intros [= <- _]; constructor|].
  destruct (if decide (id ∈ ov) then _ else _) as [c1 g1] eqn:E.
  assert (Hc : checkpointId c1 = checkpointId c).
  { case_decide; [congruence|]. destruct (rateDist g). injection E as <- _. reflexivity. }
  destruct (unitDist g1) as [units g2]. intros Hb.
  apply bind_ret_inv in Hb as (insp & _ & Hb). apply bind_ret_inv in Hb as ([rest g3] & Hr & Hb).
  injection Hb as <- _. constructor; [cbn; auto|]. eapply IH. exact Hr.
Qed.

Lemma tick_news n m now m' : model_ok n m -> plant m -> tickSimulation now m = Ret m' -> news_step m m'.
Proof.
  intros H P. unfold tickSimulation. intros Hb. apply bind_ret_inv in Hb as ([qs g] & Hq & Hb).
  apply tick_checkpoints_ids in Hq as Hrel. pose proof (mo_quality _ _ H) as Hok.
  set (m0 := set_rng g (set_quality qs m)) in *. set (m1 := if _ <? _ then _ else _) in *.
  destruct (unitsPerHour now (throughputMeter_ m1)) as [uph meter].
  injection Hb as <-.
  assert (Hm1 : exists w t, m1 = set_work_unit w (set_meter t m0)).
  { unfold m1. case_match; [eexists _, (throughputMeter_ m0); rewrite set_meter_same|eexists _, _]; reflexivity. }
  destruct Hm1 as (w & t & Hm1). clearbody m1. subst m1.
  match goal with |- news_step m (notifyWorkUnitChange (notify_each _ _ ?m2)) =>
    refine (proj1 (quality_work_news m m2 _ _ eq_refl eq_refl)) end.
  - destruct P. split; try assumption; [rewrite <- pl_checkpoints0; exact (sm_rel_keys _ _ _ Hrel)|].
    intros id c' Hc'. destruct (sm_rel_get _ _ _ _ _ Hrel Hc') as (c & Hc & E). rewrite E. auto.
  - cbn. unfold sm_ok. rewrite (sm_rel_keys _ _ _ Hrel). exact Hok.
Qed.

Lemma republish_current m l :
  plant m -> Forall (current m) l ->
  Forall (current m) (l ++ flat_map (equipment_news m) (sm_keys (equipmentStatuses_ m)) ++
           flat_map (actuator_news m) (sm_keys (actuatorStatuses_ m)) ++
           flat_map (quality_news m) (sm_keys (qualityCheckpoints_ m)) ++
           work_unit_news m ++ state_news m).
Proof. intros P Hl. repeat (apply Forall_app; split); auto with news. Qed.

Lemma republish_news n m : model_ok n m -> plant m -> news_step m (republishAll m).
Proof.
  intros H P. unfold republishAll. rewrite (republish_eq m (mo_quality _ _ H)).
  apply news_deliver; auto. apply (republish_current m []); auto.
Qed.

(** Loading the demo data: on an empty model and on an initialised plant. *)
Definition virgin m : Prop := equipmentStatuses_ m = [] /\ actuatorStatuses_ m = [] /\ qualityCheckpoints_ m = [].

Lemma demo_plant m :
  sm_ok (equipmentStatuses_ m) -> sm_ok (actuatorStatuses_ m) -> sm_ok (qualityCheckpoints_ m) ->
  plant m \/ virgin m ->
  plant (set_quality (demo_quality (qualityCheckpoints_ m)) (set_actuators (demo_actuators (actuatorStatuses_ m))
          (set_equipment (demo_equipment (equipmentStatuses_ m)) m))).
Proof.
  intros He Ha Hq [[]|(E1 & E2 & E3)].
  - split; cbn; unfold demo_equipment, demo_actuators, demo_quality.
    1-3: repeat (apply set_keys; [auto 10 with hmi| |rewrite !elem_of_cons; lia]); assumption.
    + repeat (apply sm_all_set; [auto 10 with hmi| |reflexivity]). assumption.
    + repeat (apply sm_all_set; [auto 10 with hmi| |reflexivity]). assumption.
    + repeat (apply sm_all_set; [auto 10 with hmi| |reflexivity]). assumption.
  - split; cbn; rewrite ?E1, ?E2, ?E3; try reflexivity;
      intros k v; cbn; repeat case_match; intros; simplify_eq; cbn; lia.
Qed.

Lemma initialize_news n m : model_ok n m -> 0 <= n -> plant m \/ virgin m -> news_step m (initializeDemoData m).
Proof.
  intros H Hn Hm. unfold initializeDemoData.
  change (sm_dispatch sys_reset) with (sm_dispatch (G := G) (fun s => sys_apply s CReset)).
  set (w := mkWorkUnit _ _ _ _ _ _). set (m0 := set_work_unit w _).
  assert (H0 : model_ok n m0) by (exact (demo_ok n m w H Hn ltac:(cbn; lia))).
  assert (P0 : plant m0).
  { pose proof (demo_plant m (mo_equipment _ _ H) (mo_actuators _ _ H) (mo_quality _ _ H) Hm) as []. split; assumption. }
  rewrite (sm_dispatch_eq CReset m0 (mo_machine _ _ H0)).
  pose proof (machine_ok n m0 CReset H0) as H1. pose proof (plant_machine m0 (sys_apply (stateMachine_ m0) CReset) P0) as P1.
  set (m1 := set_machine _ m0) in *.
  match goal with |- context [deliver ?l m1] => set (first := l) end.
  pose proof (republish_evolving_eq (deliver first m1) (mo_quality _ _ H1)) as E. cbv zeta in E |- *. rewrite E.
  unfold republishAll. rewrite (republish_eq (deliver first m1) (mo_quality _ _ H1)), deliver_deliver. clear E.
  apply news_deliver; try reflexivity; [exact P1|]. apply (republish_current m1 first P1).
  unfold first. case_decide; [constructor|apply state_current].
Qed.

(** Every operation of the plant runs, keeps it, tells every change and says
    nothing but current values. *)
Lemma plant_step n m o :
  model_ok n m -> plant m -> in_plant o -> 0 <= n -> 648 + 3 * n <= int_max ->
  exists m', op_apply o m = Ret m' /\ model_ok (n + 1) m' /\ tells_changes m m' /\ news_step m m'.
Proof.
  intros H P Ho Hn Hmax. destruct (op_good n m o H (in_plant_ok o Ho) Hn Hmax) as (m' & E & Hok & Ht).
  exists m'. split; [exact E|]. split; [exact Hok|]. split; [exact Ht|].
  assert (Hsub : forall s, subs_grow (subscribers_ m) s -> news_step m (set_subscribers s m)).
  { intros s Hs. destruct P. split; [split; assumption|]. split; [exact Hs|]. exists []. rewrite app_nil_r. auto. }
  destruct o; cbn [op_apply in_plant] in *; try contradiction;
    try (injection E as <-; apply Hsub; intros me; cbn; rewrite ?elem_of_app; tauto); try injection E as <-.
  - apply (start_news n); assumption.
  - apply (dispatch_news n m CStop); assumption.
  - apply (reset_news n); assumption.
  - apply (dispatch_news n m CCalibrate); assumption.
  - apply (dispatch_news n m (CFault reason)); assumption.
  - unfold model_setEquipmentEnabled. case_match; [apply news_silent; auto|].
    apply (line_news n m id (es_status (if enabled then _ else _))); auto.
  - unfold model_setEquipmentSupplyLevel. case_match; [apply news_silent; auto|].
    apply (line_news n m id (es_supply _)); auto.
  - apply (rate_news n); assumption.
  - apply (load_news n); assumption.
  - apply (tick_news n m now); assumption.
  - apply (notify_quality_news n); assumption.
  - apply (republish_news n); assumption.
  - apply (initialize_news n); auto.
Qed.

(** Invariants of the initialised plant, by induction over the operations. *)
Lemma plant_run_ind (Inv : SimulatedModel G -> Prop) l : forall n m,
  (forall n m o m', model_ok n m -> model_ok (n + 1) m' -> plant m -> Inv m -> in_plant o -> op_apply o m = Ret m' ->
     tells_changes m m' -> news_step m m' -> Inv m') ->
  model_ok n m -> plant m -> Inv m -> Forall in_plant l -> 0 <= n -> 648 + 3 * (n + Z.of_nat (length l)) <= int_max ->
  exists m', model_run l m = Ret m' /\ Inv m' /\ plant m' /\ model_ok (n + Z.of_nat (length l)) m'.
Proof.
  induction l as [|o l IH]; intros n m Hstep H P Hi Hl Hn Hmax; cbn [length model_run] in *.
  - exists m. rewrite Z.add_0_r. auto.
  - apply Forall_cons in Hl as [Ho Hl].
    destruct (plant_step n m o H P Ho Hn) as (m1 & E & H1 & Ht & Hnews); [lia|]. rewrite E. cbn [mbind outcome_bind].
    destruct (IH (n + 1) m1 Hstep H1 (proj1 Hnews) (Hstep _ _ _ _ H H1 P Hi Ho E Ht Hnews) Hl) as (m' & E' & Hi' & P' & H'); [lia|lia|].
    exists m'. replace (n + Z.of_nat (S (length l))) with (n + 1 + Z.of_nat (length l)) by lia. auto.
Qed.
End News.

(* ------------------------------------------------------------------ *)
(** ** Watching the model *)

(** The start of the program: a component subscribes to everything, then the
    demo data is loaded. *)
Definition watch (me : nat) : list model_op := [OnEquipment me; OnActuator me; OnQuality me; OnWorkUnit me; OnState me].

Section Watch.
Context {G : Type} `{RG : RandomSource G}.
Implicit Types m : SimulatedModel G.

(** A watcher: its state after the deliveries of the model, and what it sees
    of one entity. When every delivery of the entity sets the view to what
    the current value gives, the view is what the current value gives. *)
Lemma watcher_settles {S X} (step : S -> delivery -> S) (ok : S -> Prop) (view : S -> X) (sets : delivery -> Prop)
    `{!forall d, Decision (sets d)} (x : X) me (news : list delivery) (s : S) :
  ok s -> (forall s d, d ∈ news -> addressee d = me -> ok s -> ok (step s d)) ->
  (forall s d, d ∈ news -> addressee d = me -> ok s -> sets d -> view (step s d) = x) ->
  (forall s d, d ∈ news -> addressee d = me -> ok s -> ~ sets d -> view (step s d) = view s) ->
  view s = x \/ (exists d, d ∈ news /\ addressee d = me /\ sets d) ->
  view (fold_left step (inbox me news) s) = x.
Proof.
  intros Hok Hpres Hset Hkeep Hs. apply (fold_settles step ok view sets); [exact Hok| | | |].
  - intros s' d Hd. apply list_elem_of_filter in Hd as [Ha Hd]. apply Hpres; assumption.
  - intros s' d Hd. apply list_elem_of_filter in Hd as [Ha Hd]. apply Hset; assumption.
  - intros s' d Hd. apply list_elem_of_filter in Hd as [Ha Hd]. apply Hkeep; assumption.
  - destruct Hs as [Hs|(d & Hd & Ha & Hsd)]; [left; exact Hs|right]. apply Exists_exists. exists d.
    split; [apply list_elem_of_filter; auto|exact Hsd].
Qed.

Lemma told_me mk cbs news me : told mk cbs news -> me ∈ cbs -> mk me ∈ news.
Proof. unfold told. rewrite Forall_forall. auto. Qed.

Lemma inbox_app me l1 l2 : inbox me (l1 ++ l2) = inbox me l1 ++ inbox me l2.
Proof. apply filter_app. Qed.

(** What a component knows that keeps the last value it was called with. *)
Record Known := mkKnown {
  kn_lines : gmap Z EquipmentStatus;
  kn_actuators : gmap Z ActuatorStatus;
  kn_checkpoints : gmap Z QualityCheckpoint;
  kn_work : option WorkUnit;
  kn_state : option SystemState;
}.

Definition knows_nothing : Known := mkKnown ∅ ∅ ∅ None None.

Definition learn (k : Known) (d : delivery) : Known :=
  match d with
  | DEquipment _ e => mkKnown (<[equipmentId e := e]> (kn_lines k)) (kn_actuators k) (kn_checkpoints k) (kn_work k) (kn_state k)
  | DActuator _ a => mkKnown (kn_lines k) (<[actuatorId a := a]> (kn_actuators k)) (kn_checkpoints k) (kn_work k) (kn_state k)
  | DQuality _ c => mkKnown (kn_lines k) (kn_actuators k) (<[checkpointId c := c]> (kn_checkpoints k)) (kn_work k) (kn_state k)
  | DWorkUnit _ w => mkKnown (kn_lines k) (kn_actuators k) (kn_checkpoints k) (Some w) (kn_state k)
  | DState _ s => mkKnown (kn_lines k) (kn_actuators k) (kn_checkpoints k) (kn_work k) (Some s)
  end.

Definition known_by (me : nat) (l : list delivery) : Known := fold_left learn (inbox me l) knows_nothing.

Record knows m (k : Known) : Prop := {
  kw_lines : forall id, kn_lines k !! id = sm_get id (equipmentStatuses_ m);
  kw_actuators : forall id, kn_actuators k !! id = sm_get id (actuatorStatuses_ m);
  kw_checkpoints : forall id, kn_checkpoints k !! id = sm_get id (qualityCheckpoints_ m);
  kw_work : kn_work k = Some (currentWorkUnit_ m);
  kw_state : kn_state k = Some (getState m);
}.

(** A delivery about line, actuator or checkpoint [id]. *)
Definition about_line (id : Z) (d : delivery) : Prop := match d with DEquipment _ e => equipmentId e = id | _ => False end.
Definition about_actuator (id : Z) (d : delivery) : Prop := match d with DActuator _ a => actuatorId a = id | _ => False end.
Definition about_checkpoint (id : Z) (d : delivery) : Prop := match d with DQuality _ c => checkpointId c = id | _ => False end.
Definition about_work (d : delivery) : Prop := match d with DWorkUnit _ _ => True | _ => False end.
Definition about_state (d : delivery) : Prop := match d with DState _ _ => True | _ => False end.

#[export] Instance about_line_dec id d : Decision (about_line id d).
Proof. destruct d; cbn; apply _. Defined.
#[export] Instance about_actuator_dec id d : Decision (about_actuator id d).
Proof. destruct d; cbn; apply _. Defined.
#[export] Instance about_checkpoint_dec id d : Decision (about_checkpoint id d).
Proof. destruct d; cbn; apply _. Defined.
#[export] Instance about_work_dec d : Decision (about_work d).
Proof. destruct d; cbn; apply _. Defined.
#[export] Instance about_state_dec d : Decision (about_state d).
Proof. destruct d; cbn; apply _. Defined.

(** What an operation tells a subscriber: nothing but current values, and
    something about every entity that changed. *)
Record informed (me : nat) m m' (news : list delivery) : Prop := {
  in_current : Forall (current m') news;
  in_lines : forall id, sm_get id (equipmentStatuses_ m) = sm_get id (equipmentStatuses_ m') \/
     exists d, d ∈ news /\ addressee d = me /\ about_line id d;
  in_actuators : forall id, sm_get id (actuatorStatuses_ m) = sm_get id (actuatorStatuses_ m') \/
     exists d, d ∈ news /\ addressee d = me /\ about_actuator id d;
  in_checkpoints : forall id, sm_get id (qualityCheckpoints_ m) = sm_get id (qualityCheckpoints_ m') \/
     exists d, d ∈ news /\ addressee d = me /\ about_checkpoint id d;
  in_work : currentWorkUnit_ m = currentWorkUnit_ m' \/ exists d, d ∈ news /\ addressee d = me /\ about_work d;
  in_state : getState m = getState m' \/ exists d, d ∈ news /\ addressee d = me /\ about_state d;
}.

Lemma same_keys_none {A} (t t' : smap A) id :
  sm_ok t' -> sm_keys t' = sm_keys t \/ t = [] -> sm_get id t' = None -> sm_get id t = None.
Proof.
  intros Hok [Hk| ->] H; [|reflexivity].
  destruct (sm_get id t) eqn:E; [|reflexivity]. apply sm_get_key in E. rewrite <- Hk in E.
  destruct (sm_keys_get _ _ Hok E). congruence.
Qed.

(** An entry that changed was told. *)
Lemma entry_told {A} `{EqDecision A} (mk : nat -> A -> delivery) (about : Z -> delivery -> Prop) (ident : A -> Z)
    (t t' : smap A) cbs news me id :
  sm_ok t' -> sm_keys t' = sm_keys t \/ t = [] -> sm_all (fun k v => ident v = k) t' ->
  (forall k v, sm_get k t' = Some v -> sm_get k t <> Some v -> told (fun cb => mk cb v) cbs news) ->
  me ∈ cbs -> (forall v, addressee (mk me v) = me) -> (forall v, about (ident v) (mk me v)) ->
  sm_get id t = sm_get id t' \/ exists d, d ∈ news /\ addressee d = me /\ about id d.
Proof.
  intros Hok Hk Hid Htold Hme Ha Habout. destruct (decide (sm_get id t = sm_get id t')) as [E|E]; [left; exact E|right].
  destruct (sm_get id t') as [v|] eqn:Hv; [|elim E; exact (same_keys_none t t' id Hok Hk Hv)].
  exists (mk me v). split; [exact (told_me (fun cb => mk cb v) _ _ me (Htold id v Hv E) Hme)|].
  split; [apply Ha|]. rewrite <- (Hid id v Hv). apply Habout.
Qed.

Record op_news m m' (news : list delivery) : Prop := {
  on_current : Forall (current m') news;
  on_lines : forall me id, me ∈ equipmentCallbacks_ (subscribers_ m) ->
     sm_get id (equipmentStatuses_ m) = sm_get id (equipmentStatuses_ m') \/
     exists d, d ∈ news /\ addressee d = me /\ about_line id d;
  on_actuators : forall me id, me ∈ actuatorCallbacks_ (subscribers_ m) ->
     sm_get id (actuatorStatuses_ m) = sm_get id (actuatorStatuses_ m') \/
     exists d, d ∈ news /\ addressee d = me /\ about_actuator id d;
  on_checkpoints : forall me id, me ∈ qualityCallbacks_ (subscribers_ m) ->
     sm_get id (qualityCheckpoints_ m) = sm_get id (qualityCheckpoints_ m') \/
     exists d, d ∈ news /\ addressee d = me /\ about_checkpoint id d;
  on_work : forall me, me ∈ workUnitCallbacks_ (subscribers_ m) ->
     currentWorkUnit_ m = currentWorkUnit_ m' \/ exists d, d ∈ news /\ addressee d = me /\ about_work d;
  on_state : forall me, me ∈ stateCallbacks_ (subscribers_ m) ->
     getState m = getState m' \/ exists d, d ∈ news /\ addressee d = me /\ about_state d;
}.

Lemma op_tells n m m' :
  model_ok n m' -> plant m \/ virgin m -> tells_changes m m' -> news_step m m' ->
  exists news, delivered m' = delivered m ++ news /\ op_news m m' news.
Proof.
  intros H P [(news & D & He & Ha & Hq & Hw & Hs)] (P' & _ & news' & D' & C).
  rewrite D in D'. apply app_inv_head in D' as <-. exists news. split; [exact D|].
  assert (K : (sm_keys (equipmentStatuses_ m') = sm_keys (equipmentStatuses_ m) \/ equipmentStatuses_ m = []) /\
    (sm_keys (actuatorStatuses_ m') = sm_keys (actuatorStatuses_ m) \/ actuatorStatuses_ m = []) /\
    (sm_keys (qualityCheckpoints_ m') = sm_keys (qualityCheckpoints_ m) \/ qualityCheckpoints_ m = [])).
  { destruct P as [[]|(-> & -> & ->)], P'; [|auto]. split_and!; left; congruence. }
  destruct K as (K1 & K2 & K3).
  split; [exact C| | | | |].
  - intros me id S. eapply (entry_told DEquipment about_line equipmentId); eauto; try reflexivity; [apply H|apply P'].
  - intros me id S. eapply (entry_told DActuator about_actuator actuatorId); eauto; try reflexivity; [apply H|apply P'].
  - intros me id S. eapply (entry_told DQuality about_checkpoint checkpointId); eauto; try reflexivity; [apply H|apply P'].
  - intros me S. destruct (decide (currentWorkUnit_ m = currentWorkUnit_ m')) as [E|E]; [left; exact E|right].
    eexists. split; [exact (told_me _ _ _ me (Hw (not_eq_sym E)) S)|cbn; auto].
  - intros me S. destruct (decide (getState m = getState m')) as [E|E]; [left; exact E|right].
    eexists. split; [exact (told_me _ _ _ me (Hs (not_eq_sym E)) S)|cbn; auto].
Qed.

Lemma op_informs me n m m' :
  model_ok n m' -> plant m \/ virgin m -> subscribed me m -> tells_changes m m' -> news_step m m' ->
  exists news, delivered m' = delivered m ++ news /\ informed me m m' news.
Proof.
  intros H P (S1 & S2 & S3 & S4 & S5) T N. destruct (op_tells n m m' H P T N) as (news & D & [C H1 H2 H3 H4 H5]).
  exists news. split; [exact D|]. split; auto.
Qed.

(** The keeper of last values, when everything it does not know yet is told. *)
Lemma learns me m news (k : Known) :
  Forall (current m) news ->
  (forall id, kn_lines k !! id = sm_get id (equipmentStatuses_ m) \/
     exists d, d ∈ news /\ addressee d = me /\ about_line id d) ->
  (forall id, kn_actuators k !! id = sm_get id (actuatorStatuses_ m) \/
     exists d, d ∈ news /\ addressee d = me /\ about_actuator id d) ->
  (forall id, kn_checkpoints k !! id = sm_get id (qualityCheckpoints_ m) \/
     exists d, d ∈ news /\ addressee d = me /\ about_checkpoint id d) ->
  (kn_work k = Some (currentWorkUnit_ m) \/ exists d, d ∈ news /\ addressee d = me /\ about_work d) ->
  (kn_state k = Some (getState m) \/ exists d, d ∈ news /\ addressee d = me /\ about_state d) ->
  knows m (fold_left learn (inbox me news) k).
Proof.
  intros C H1 H2 H3 H4 H5. rewrite Forall_forall in C.
  split; [intros id|intros id|intros id| |].
  - apply (watcher_settles learn (fun _ => True) (fun k => kn_lines k !! id) (about_line id)); auto.
    + intros s d Hd _ _ Hab. specialize (C d Hd). destruct d; try contradiction. cbn in *. subst id.
      rewrite lookup_insert_eq. symmetry. exact C.
    + intros s [] Hd _ _ Hab; try reflexivity. cbn in *. apply lookup_insert_ne. exact Hab.
  - apply (watcher_settles learn (fun _ => True) (fun k => kn_actuators k !! id) (about_actuator id)); auto.
    + intros s d Hd _ _ Hab. specialize (C d Hd). destruct d; try contradiction. cbn in *. subst id.
      rewrite lookup_insert_eq. symmetry. exact C.
    + intros s [] Hd _ _ Hab; try reflexivity. cbn in *. apply lookup_insert_ne. exact Hab.
  - apply (watcher_settles learn (fun _ => True) (fun k => kn_checkpoints k !! id) (about_checkpoint id)); auto.
    + intros s d Hd _ _ Hab. specialize (C d Hd). destruct d; try contradiction. cbn in *. subst id.
      rewrite lookup_insert_eq. symmetry. exact C.
    + intros s [] Hd _ _ Hab; try reflexivity. cbn in *. apply lookup_insert_ne. exact Hab.
  - apply (watcher_settles learn (fun _ => True) kn_work about_work); auto.
    + intros s d Hd _ _ Hab. specialize (C d Hd). destruct d; try contradiction. cbn in *. congruence.
    + intros s [] Hd _ _ Hab; try reflexivity. elim Hab. constructor.
  - apply (watcher_settles learn (fun _ => True) kn_state about_state); auto.
    + intros s d Hd _ _ Hab. specialize (C d Hd). destruct d; try contradiction. cbn in *. congruence.
    + intros s [] Hd _ _ Hab; try reflexivity. elim Hab. constructor.
Qed.

Lemma knows_step me m m' news :
  informed me m m' news -> knows m (known_by me (delivered m)) -> delivered m' = delivered m ++ news ->
  knows m' (known_by me (delivered m')).
Proof.
  intros [C I1 I2 I3 I4 I5] [K1 K2 K3 K4 K5] D. unfold known_by in *. rewrite D, inbox_app, fold_left_app.
  apply learns; [exact C| | | | |].
  - intros id. rewrite K1. apply I1.
  - intros id. rewrite K2. apply I2.
  - intros id. rewrite K3. apply I3.
  - rewrite K4. destruct I4 as [->|E]; auto.
  - rewrite K5. destruct I5 as [->|E]; auto.
Qed.

(** Loading the demo data ends with a notification of everything. *)
Lemma initialize_delivers n m :
  model_ok n m -> 0 <= n ->
  exists first m1, initializeDemoData m = deliver (first ++
      flat_map (equipment_news m1) (sm_keys (equipmentStatuses_ m1)) ++
      flat_map (actuator_news m1) (sm_keys (actuatorStatuses_ m1)) ++
      flat_map (quality_news m1) (sm_keys (qualityCheckpoints_ m1)) ++ work_unit_news m1 ++ state_news m1) m1 /\
    delivered m1 = delivered m /\ subscribers_ m1 = subscribers_ m.
Proof.
  intros H Hn. unfold initializeDemoData.
  change (sm_dispatch sys_reset) with (sm_dispatch (G := G) (fun s => sys_apply s CReset)).
  set (w := mkWorkUnit _ _ _ _ _ _). set (m0 := set_work_unit w _).
  assert (H0 : model_ok n m0) by (exact (demo_ok n m w H Hn ltac:(cbn; lia))).
  rewrite (sm_dispatch_eq CReset m0 (mo_machine _ _ H0)).
  pose proof (machine_ok n m0 CReset H0) as H1. set (m1 := set_machine _ m0) in *.
  match goal with |- context [deliver ?l m1] => set (first := l) end.
  pose proof (republish_evolving_eq (deliver first m1) (mo_quality _ _ H1)) as E. cbv zeta in E |- *. rewrite E.
  unfold republishAll. rewrite (republish_eq (deliver first m1) (mo_quality _ _ H1)), deliver_deliver.
  exists first, m1. split; [reflexivity|auto].
Qed.

Lemma news_told {A} (mk : nat -> A -> delivery) (x : A) me cbs : me ∈ cbs -> mk me x ∈ map (fun cb => mk cb x) cbs.
Proof. intros H. apply (list_elem_of_fmap_2 (fun cb => mk cb x)). exact H. Qed.

(** Once the demo data is loaded, the keeper of last values knows the model. *)
Lemma initialize_known me n m :
  model_ok n m -> 0 <= n -> virgin m -> subscribed me m -> delivered m = [] ->
  plant (initializeDemoData m) /\ model_ok n (initializeDemoData m) /\ subscribed me (initializeDemoData m) /\
  knows (initializeDemoData m) (known_by me (delivered (initializeDemoData m))).
Proof.
  intros H Hn V Sub D0. pose proof (initialize_news n m H Hn (or_intror V)) as N.
  destruct (initialize_good n m H Hn) as [H' T]. split; [apply N|]. split; [exact H'|]. split; [exact (subscribed_grow me _ _ N Sub)|].
  destruct (op_informs me n m _ H' (or_intror V) Sub T N) as (news & D & [C I1 I2 I3 _ _]).
  destruct (initialize_delivers n m H Hn) as (l & m1 & E & D1 & S1).
  assert (Hin : forall d, d ∈ work_unit_news m1 ++ state_news m1 -> d ∈ news).
  { intros d Hd. pose proof D as D2. rewrite E in D2. cbn in D2. rewrite D1 in D2. apply app_inv_head in D2 as <-.
    rewrite !app_assoc, <- (app_assoc _ (work_unit_news _) (state_news _)). apply elem_of_app. right. exact Hd. }
  destruct V as (E1 & E2 & E3). rewrite E1 in I1. rewrite E2 in I2. rewrite E3 in I3.
  unfold known_by. rewrite D, D0. cbn [app]. apply learns; [exact C|exact I1|exact I2|exact I3| |]; right.
  - exists (DWorkUnit me (currentWorkUnit_ m1)). split; [|cbn; auto]. apply Hin, elem_of_app. left.
    apply news_told. rewrite S1. apply Sub.
  - exists (DState me (getState m1)). split; [|cbn; auto]. apply Hin, elem_of_app. right.
    apply news_told. rewrite S1. apply Sub.
Qed.

(** The model after a component subscribed and the demo data was loaded. *)
Definition started (me : nat) (g : G) : SimulatedModel G :=
  initializeDemoData (onSystemStateChanged me (onWorkUnitChanged me (onQualityCheckpointChanged me
    (onActuatorStatusChanged me (onEquipmentStatusChanged me (model_init g)))))).

Lemma started_ok me g :
  plant (started me g) /\ model_ok 0 (started me g) /\ subscribed me (started me g) /\
  knows (started me g) (known_by me (delivered (started me g))).
Proof.
  apply initialize_known; try reflexivity; try lia.
  - repeat (apply subscribe_good). apply model_init_ok.
  - repeat split.
  - unfold subscribed. cbn. repeat split; left.
Qed.

Lemma model_run_cons o l m m1 : op_apply o m = Ret m1 -> model_run (o :: l) m = model_run l m1.
Proof. intros E. cbn [model_run]. rewrite E. reflexivity. Qed.

Lemma run_started me g l : model_run (watch me ++ InitializeDemoData :: l) (model_init g) = model_run l (started me g).
Proof.
  unfold watch, started. cbn [app].
  do 6 (erewrite model_run_cons by (cbn [op_apply]; reflexivity)). reflexivity.
Qed.

(** Invariants of a watched plant. *)
Lemma watched_run_ind (Inv : SimulatedModel G -> Prop) me g l :
  (forall m o m' news, plant m -> plant m' -> Inv m -> in_plant o -> op_apply o m = Ret m' ->
     delivered m' = delivered m ++ news -> informed me m m' news -> Inv m') ->
  Inv (started me g) -> Forall in_plant l -> Z.of_nat (length l) < 700000000 ->
  exists m', model_run l (started me g) = Ret m' /\ Inv m' /\ plant m' /\ model_ok (Z.of_nat (length l)) m'.
Proof.
  intros Hstep H0 Hl Hlen. destruct (started_ok me g) as (P & H & S & _).
  destruct (plant_run_ind (fun m => Inv m /\ subscribed me m) l 0 (started me g)) as (m' & E & [Hi _] & P' & H'); auto.
  - intros n m o m' Hm Hm' Pm [Hi Hs] Ho Ea T N. destruct (op_informs me _ m m' Hm' (or_introl Pm) Hs T N) as (news & D & I).
    split; [|exact (subscribed_grow me _ _ N Hs)]. exact (Hstep m o m' news Pm (proj1 N) Hi Ho Ea D I).
  - lia.
  - unfold int_max. lia.
  - exists m'. auto.
Qed.
(** Operations that tell every line and checkpoint. *)
Definition announces (o : model_op) : Prop := o = RepublishAll \/ o = InitializeDemoData.


(** An announcement tells every line and checkpoint. *)
Lemma announcement_tells n m o :
  model_ok n m -> 0 <= n -> (plant m /\ announces o) \/ (virgin m /\ o = InitializeDemoData) ->
  exists m' news, op_apply o m = Ret m' /\ model_ok n m' /\ news_step m m' /\ delivered m' = delivered m ++ news /\
    (forall id e, sm_get id (equipmentStatuses_ m') = Some e -> told (fun cb => DEquipment cb e) (equipmentCallbacks_ (subscribers_ m)) news) /\
    (forall id c, sm_get id (qualityCheckpoints_ m') = Some c -> told (fun cb => DQuality cb c) (qualityCallbacks_ (subscribers_ m)) news) /\
    told (fun cb => DWorkUnit cb (currentWorkUnit_ m')) (workUnitCallbacks_ (subscribers_ m)) news /\
    told (fun cb => DState cb (getState m')) (stateCallbacks_ (subscribers_ m)) news.
Proof.
  intros H Hn Ho.
  assert (Ho' : (plant m /\ o = RepublishAll) \/ ((plant m \/ virgin m) /\ o = InitializeDemoData)) by (unfold announces in Ho; tauto).
  destruct Ho' as [[P ->]|[P ->]].
  - exists (republishAll m). pose proof (republish_good n m H) as [H' _]. pose proof (republish_news n m H P) as N.
    pose proof (republish_eq m (mo_quality _ _ H)) as E.
    match type of E with _ = ?r => change (republishAll m = r) in E end. rewrite E in *.
    eexists. split; [cbn [op_apply]; rewrite E; reflexivity|]. split; [exact H'|]. split; [exact N|]. split; [reflexivity|]. split_and!; [intros id e He..| |].
    + apply told_app_l. exact (told_all_equipment m id e He).
    + do 2 apply told_app_r. apply told_app_l. exact (told_all_quality m id e He).
    + do 3 apply told_app_r. apply told_app_l. apply told_map.
    + do 4 apply told_app_r. apply told_map.
  - exists (initializeDemoData m). pose proof (initialize_good n m H Hn) as [H' _]. pose proof (initialize_news n m H Hn P) as N.
    destruct (initialize_delivers n m H Hn) as (first & m1 & E & D1 & S1). rewrite E in *.
    eexists. split; [cbn [op_apply]; rewrite E; reflexivity|]. split; [exact H'|]. split; [exact N|].
    split; [cbn; rewrite D1; reflexivity|]. rewrite <- S1. split_and!; [intros id e He..| |].
    + apply told_app_r, told_app_l. exact (told_all_equipment m1 id e He).
    + do 3 apply told_app_r. apply told_app_l. exact (told_all_quality m1 id e He).
    + do 4 apply told_app_r. apply told_app_l. apply told_map.
    + do 5 apply told_app_r. apply told_map.
Qed.


Lemma told_of_table {A} (mk : nat -> A -> delivery) (about : Z -> delivery -> Prop) (ident : A -> Z) {B} (v : A -> B) (shown : Z -> option B)
    (t : smap A) cbs news br id :
  sm_all (fun k x => ident x = k) t -> (shown id = None <-> sm_get id t = None) ->
  (forall k x, sm_get k t = Some x -> told (fun cb => mk cb x) cbs news) -> br ∈ cbs ->
  (forall x, addressee (mk br x) = br) -> (forall x, about (ident x) (mk br x)) ->
  shown id = option_map v (sm_get id t) \/ exists d, d ∈ news /\ addressee d = br /\ about id d.
Proof.
  intros Hid Hn Ht Hbr Ha Hab. destruct (sm_get id t) as [x|] eqn:E; [right|left; apply Hn; reflexivity].
  exists (mk br x). split; [exact (told_me (fun cb => mk cb x) _ _ br (Ht id x E) Hbr)|]. split; [apply Ha|].
  rewrite <- (Hid id x E). apply Hab.
Qed.

Lemma ok_subscribers n x m : model_ok n m -> model_ok n (set_subscribers x m).
Proof. intros []. split; assumption. Qed.
Lemma plant_subscribers x m : plant m -> plant (set_subscribers x m).
Proof. intros []. split; assumption. Qed.

End Watch.

(* ------------------------------------------------------------------ *)
(** ** Properties *)

(** The subscribers know the model. A component that subscribes before the
    demo data is loaded and keeps the last value it was called with for each
    entity holds exactly the model's tables, work unit and state, after every
    sequence of operations (other components may subscribe too, nobody
    unsubscribes). *)
Theorem subscriber_knows_model {G} `{RandomSource G} (me : nat) (g : G) l :
  Forall in_plant l -> Z.of_nat (length l) < 700000000 ->
  exists m, model_run (watch me ++ InitializeDemoData :: l) (model_init g) = Ret m /\
    knows m (known_by me (delivered m)).
Proof.
  intros Hl Hlen.
  destruct (watched_run_ind (fun m => knows m (known_by me (delivered m))) me g l) as (m & E & K & _); auto.
  - intros m o m' news _ _ K _ _ D I. exact (knows_step me m m' news I K D).
  - apply started_ok.
  - exists m. rewrite run_started. auto.
Qed.

(* ------------------------------------------------------------------ *)
(** ** Witness *)

Definition plant_ops : list model_op :=
  [SetEquipmentSupplyLevel 1 30; SetQualityPassRate 2 (f32_of_Z 90); StartProduction; TickSimulation 5;
   SetEquipmentEnabled 0 false; TriggerFault "jam"; OnState 9; ResetSystem].

Lemma plant_ops_ok : Forall in_plant plant_ops.
Proof. repeat (apply Forall_cons; split; [cbn; unfold is_u32; first [exact I|lia]|]). apply Forall_nil. exact I. Qed.

Lemma subscriber_knows_model_witness :
  exists m, model_run (watch 7 ++ InitializeDemoData :: plant_ops) (model_init tt) = Ret m /\
    knows m (known_by 7 (delivered m)).
Proof. apply (subscriber_knows_model 7 tt plant_ops plant_ops_ok). vm_compute. reflexivity. Defined.
