(* ===== verification/MirrorModel.v ===== *)
(** * The second station (src/model/MirrorModel.{h,cpp},
    src/integration/PrimaryToSecondaryBridge.{h,cpp})

    The passive model of the second station, the bridge that forwards the
    primary's supply levels and pass rates to it, and the two stations with
    the bridge between them. Observers are numbers and a notification is
    recorded in a log; the mutexes are not modelled, every event runs to its
    end before the next one starts. *)
From stdpp Require Import gmap sorting.
From S2P Require Import Prelude Float32 Float64 Format StdMap SystemState ModbusIngest ModbusPollLoop SimulatedModel ModelNews.

(* ------------------------------------------------------------------ *)
(** ** The mirror model *)

Record MirrorModel := mkMirror {
  equipment_ : gmap Z EquipmentStatus;
  quality_ : gmap Z QualityCheckpoint;
  workUnit_ : WorkUnit;
  state_ : SystemState;
  observers_ : Subscribers;
  told_ : list delivery;
}.

Definition kMinSupplyLevel : Z := 0.
Definition kMaxSupplyLevel : Z := 100.
Definition kMinPassRate : float32 := f32_of_Z 0.
Definition kMaxPassRate : float32 := f32_of_Z 100.
Definition kDefaultStatus : Z := 1.
Definition kDefaultSupplyLevel : Z := 100.
Definition kDefaultPassRate : float32 := f32_of_Z 100.
Definition kDefaultCheckpointNames : list string := ["Weight Check"; "Hardness Test"; "Final Inspection"]%string.

(** [for (i = 0; i < count; ++i) table.emplace(i, entry(i))]. *)
Definition emplace_all {A} (entry : Z -> A) (count : nat) : gmap Z A :=
  list_to_map (map (fun i => (Z.of_nat i, entry (Z.of_nat i))) (seq 0 count)).

Definition mirror_equipment (i : Z) : EquipmentStatus := mkEquipment i kDefaultStatus kDefaultSupplyLevel "".

Definition mirror_checkpoint (i : Z) : QualityCheckpoint :=
  let name := match kDefaultCheckpointNames !! Z.to_nat i with
              | Some n => n
              | None => ("Checkpoint " ++ to_string (u32 (i + 1)))%string
              end in
  mkCheckpoint i name 0 0 0 kDefaultPassRate "" kDefaultPassRateTarget.

Definition mirror_init (equipmentCount qualityCount : nat) : MirrorModel :=
  mkMirror (emplace_all mirror_equipment equipmentCount) (emplace_all mirror_checkpoint qualityCount)
    work_unit_default IDLE (mkSubs [] [] [] [] []) [].

Definition mirror_tell (l : list delivery) (m : MirrorModel) : MirrorModel :=
  mkMirror (equipment_ m) (quality_ m) (workUnit_ m) (state_ m) (observers_ m) (told_ m ++ l).
Definition mirror_equip (e : gmap Z EquipmentStatus) (m : MirrorModel) : MirrorModel :=
  mkMirror e (quality_ m) (workUnit_ m) (state_ m) (observers_ m) (told_ m).
Definition mirror_qual (q : gmap Z QualityCheckpoint) (m : MirrorModel) : MirrorModel :=
  mkMirror (equipment_ m) q (workUnit_ m) (state_ m) (observers_ m) (told_ m).
Definition mirror_state (s : SystemState) (m : MirrorModel) : MirrorModel :=
  mkMirror (equipment_ m) (quality_ m) (workUnit_ m) s (observers_ m) (told_ m).
Definition mirror_observe (f : Subscribers -> Subscribers) (m : MirrorModel) : MirrorModel :=
  mkMirror (equipment_ m) (quality_ m) (workUnit_ m) (state_ m) (f (observers_ m)) (told_ m).

Definition mirror_onEquipmentStatusChanged (cb : nat) : MirrorModel -> MirrorModel := mirror_observe (fun s =>
  mkSubs (equipmentCallbacks_ s ++ [cb]) (actuatorCallbacks_ s) (qualityCallbacks_ s) (workUnitCallbacks_ s) (stateCallbacks_ s)).
Definition mirror_onActuatorStatusChanged (cb : nat) : MirrorModel -> MirrorModel := mirror_observe (fun s =>
  mkSubs (equipmentCallbacks_ s) (actuatorCallbacks_ s ++ [cb]) (qualityCallbacks_ s) (workUnitCallbacks_ s) (stateCallbacks_ s)).
Definition mirror_onQualityCheckpointChanged (cb : nat) : MirrorModel -> MirrorModel := mirror_observe (fun s =>
  mkSubs (equipmentCallbacks_ s) (actuatorCallbacks_ s) (qualityCallbacks_ s ++ [cb]) (workUnitCallbacks_ s) (stateCallbacks_ s)).
Definition mirror_onWorkUnitChanged (cb : nat) : MirrorModel -> MirrorModel := mirror_observe (fun s =>
  mkSubs (equipmentCallbacks_ s) (actuatorCallbacks_ s) (qualityCallbacks_ s) (workUnitCallbacks_ s ++ [cb]) (stateCallbacks_ s)).
Definition mirror_onSystemStateChanged (cb : nat) : MirrorModel -> MirrorModel := mirror_observe (fun s =>
  mkSubs (equipmentCallbacks_ s) (actuatorCallbacks_ s) (qualityCallbacks_ s) (workUnitCallbacks_ s) (stateCallbacks_ s ++ [cb])).

Definition updateEquipmentSnapshotLocked (snapshot : EquipmentStatus) (m : MirrorModel) : MirrorModel :=
  mirror_tell (map (fun cb => DEquipment cb snapshot) (equipmentCallbacks_ (observers_ m))) m.
Definition updateQualitySnapshotLocked (snapshot : QualityCheckpoint) (m : MirrorModel) : MirrorModel :=
  mirror_tell (map (fun cb => DQuality cb snapshot) (qualityCallbacks_ (observers_ m))) m.

Definition publishSystemStateChange (newState : SystemState) (m : MirrorModel) : MirrorModel :=
  if decide (state_ m = newState) then m
  else
    let m := mirror_state newState m in
    mirror_tell (map (fun cb => DState cb newState) (stateCallbacks_ (observers_ m))) m.

Definition mirror_startProduction : MirrorModel -> MirrorModel := publishSystemStateChange RUNNING.
Definition mirror_stopProduction : MirrorModel -> MirrorModel := publishSystemStateChange IDLE.
Definition mirror_resetSystem : MirrorModel -> MirrorModel := publishSystemStateChange IDLE.
Definition mirror_startCalibration : MirrorModel -> MirrorModel := publishSystemStateChange CALIBRATION.
Definition mirror_loadProduct (product : Product) (recipe : Recipe) (m : MirrorModel) : MirrorModel := m.

Definition mirror_setEquipmentEnabled (m : MirrorModel) (id : Z) (enabled : bool) : MirrorModel :=
  match equipment_ m !! id with
  | None => m
  | Some e =>
      let e := es_status (if enabled then 1 else 0) e in
      let m := mirror_equip (<[id := e]> (equipment_ m)) m in
      mirror_tell (map (fun cb => DEquipment cb e) (equipmentCallbacks_ (observers_ m))) m
  end.

Definition mirror_setEquipmentSupplyLevel (m : MirrorModel) (id level : Z) : MirrorModel :=
  let level := int_clamp level kMinSupplyLevel kMaxSupplyLevel in
  match equipment_ m !! id with
  | None => m
  | Some e =>
      let e := es_supply level e in
      updateEquipmentSnapshotLocked e (mirror_equip (<[id := e]> (equipment_ m)) m)
  end.

Definition mirror_setQualityPassRate (m : MirrorModel) (id : Z) (rate : float32) : MirrorModel :=
  let rate := f32_clamp rate kMinPassRate kMaxPassRate in
  match quality_ m !! id with
  | None => m
  | Some c =>
      let c := cp_rate rate c in
      updateQualitySnapshotLocked c (mirror_qual (<[id := c]> (quality_ m)) m)
  end.

#[export] Instance MirrorProduction : ProductionModel MirrorModel := {|
  setEquipmentEnabled := mirror_setEquipmentEnabled;
  setEquipmentSupplyLevel := mirror_setEquipmentSupplyLevel;
  setQualityPassRate := mirror_setQualityPassRate;
|}.

Definition mirror_getState (m : MirrorModel) : SystemState := state_ m.
Definition mirror_getQualityCheckpoint (m : MirrorModel) (id : Z) : QualityCheckpoint :=
  default checkpoint_default (quality_ m !! id).
(** [std::sort] with a comparison of the ids, which are distinct. *)
Definition by_id (a b : QualityCheckpoint) : Prop := checkpointId a <= checkpointId b.
#[export] Instance by_id_dec : RelDecision by_id.
Proof. intros a b. unfold by_id. apply _. Defined.
Definition mirror_getQualityCheckpoints (m : MirrorModel) : list QualityCheckpoint :=
  merge_sort by_id (map snd (map_to_list (quality_ m))).
Definition mirror_getWorkUnit (m : MirrorModel) : WorkUnit := workUnit_ m.
Definition mirror_lastFaultReason (m : MirrorModel) : string := "".
Definition mirror_oeeSnapshot (m : MirrorModel) : OeeMetrics := mkOee (f32_of_Z 0) (f32_of_Z 0) (f32_of_Z 0) (f32_of_Z 0).

(* ------------------------------------------------------------------ *)
(** ** The bridge *)

(** [lastForward_] is [None] for the epoch the member starts with. *)
Record Bridge := mkP2S { running_ : bool; subscribed_ : bool; forwarded_ : Z; lastForward_ : option Z }.

Definition kBridgeName : string := "Primary->Secondary".
Definition p2s_init : Bridge := mkP2S false false 0 None.

(** [br] names the two callbacks the bridge installs. *)
Definition p2s_start {G} (br : nat) (b : Bridge) (primary : SimulatedModel G) : Bridge * SimulatedModel G :=
  let '(b, primary) :=
    if subscribed_ b then (b, primary)
    else (mkP2S (running_ b) true (forwarded_ b) (lastForward_ b),
          onQualityCheckpointChanged br (onEquipmentStatusChanged br primary)) in
  (mkP2S true (subscribed_ b) (forwarded_ b) (lastForward_ b), primary).

Definition p2s_stop (b : Bridge) : Bridge := mkP2S false (subscribed_ b) (forwarded_ b) (lastForward_ b).
Definition p2s_isRunning (b : Bridge) : bool := running_ b.
Definition p2s_name (b : Bridge) : string := kBridgeName.
Definition p2s_connectionState (b : Bridge) : BackendState := if p2s_isRunning b then Connected else Disconnected.
Definition p2s_forwardedCount (b : Bridge) : Z := forwarded_ b.

(** [clock] is [localtime_r] and [strftime] with [%H:%M:%S]. *)
Definition p2s_metricsSummary (clock : option Z -> string) (b : Bridge) : string :=
  let out := (to_string (forwarded_ b) ++ " forwarded")%string in
  if 0 <? forwarded_ b then (out ++ " (last " ++ clock (lastForward_ b) ++ ")")%string else out.

Section Forward.
Context {M : Type} `{ProductionModel M}.

(** [std::size_t] counts modulo 2^64. *)
Definition forwarded_at (now : Z) (b : Bridge) : Bridge :=
  mkP2S (running_ b) (subscribed_ b) (u64 (forwarded_ b + 1)) (Some now).

Definition onMasterEquipmentEvent (now : Z) (status : EquipmentStatus) (s : Bridge * M) : Bridge * M :=
  let '(b, slave_) := s in
  if negb (running_ b) then s
  else (forwarded_at now b, setEquipmentSupplyLevel slave_ (equipmentId status) (supplyLevel status)).

Definition onMasterQualityEvent (now : Z) (checkpoint : QualityCheckpoint) (s : Bridge * M) : Bridge * M :=
  let '(b, slave_) := s in
  if negb (running_ b) then s
  else (forwarded_at now b, setQualityPassRate slave_ (checkpointId checkpoint) (passRate checkpoint)).

(** The bridge is called with a delivery of the primary. *)
Definition forward (now : Z) (s : Bridge * M) (d : delivery) : Bridge * M :=
  match d with
  | DEquipment _ e => onMasterEquipmentEvent now e s
  | DQuality _ c => onMasterQualityEvent now c s
  | _ => s
  end.
End Forward.

(* ------------------------------------------------------------------ *)
(** ** Two stations *)

Section Stations.
Context {G : Type} `{RG : RandomSource G}.

Record Stations := mkStations { primary : SimulatedModel G; bridge : Bridge; secondary : MirrorModel }.

(** What the operator does on the second station. *)
Inductive local_op :=
| LStart | LStop | LReset | LCalibrate
| LLoad (product : Product) (recipe : Recipe)
| LEnable (id : Z) (enabled : bool)
| LWatchLines (cb : nat) | LWatchActuators (cb : nat) | LWatchQuality (cb : nat) | LWatchWork (cb : nat) | LWatchState (cb : nat).

Definition local_apply (o : local_op) : MirrorModel -> MirrorModel :=
  match o with
  | LStart => mirror_startProduction
  | LStop => mirror_stopProduction
  | LReset => mirror_resetSystem
  | LCalibrate => mirror_startCalibration
  | LLoad p r => mirror_loadProduct p r
  | LEnable id b => fun m => mirror_setEquipmentEnabled m id b
  | LWatchLines cb => mirror_onEquipmentStatusChanged cb
  | LWatchActuators cb => mirror_onActuatorStatusChanged cb
  | LWatchQuality cb => mirror_onQualityCheckpointChanged cb
  | LWatchWork cb => mirror_onWorkUnitChanged cb
  | LWatchState cb => mirror_onSystemStateChanged cb
  end.

Inductive station_event :=
| EPrimary (now : Z) (o : model_op)
| EBridgeStart
| EBridgeStop
| ELocal (o : local_op).

(** An event; the deliveries of the primary to the bridge are forwarded in
    their order. *)
Definition station_step (br : nat) (s : Stations) (e : station_event) : outcome Stations :=
  match e with
  | EPrimary now o =>
      m ← op_apply o (primary s);
      let news := inbox br (drop (length (delivered (primary s))) (delivered m)) in
      let '(b, sec) := fold_left (forward now) news (bridge s, secondary s) in
      Ret (mkStations m b sec)
  | EBridgeStart =>
      let '(b, m) := p2s_start br (bridge s) (primary s) in Ret (mkStations m b (secondary s))
  | EBridgeStop => Ret (mkStations (primary s) (p2s_stop (bridge s)) (secondary s))
  | ELocal o => Ret (mkStations (primary s) (bridge s) (local_apply o (secondary s)))
  end.

Fixpoint station_run (br : nat) (l : list station_event) (s : Stations) : outcome Stations :=
  match l with
  | [] => Ret s
  | e :: l => s ← station_step br s e; station_run br l s
  end.

Definition stations_init (g : G) : Stations := mkStations (model_init g) p2s_init (mirror_init 3 3).

(** The plant's operations; other components may subscribe. *)
Definition event_ok (e : station_event) : Prop := match e with EPrimary _ o => in_plant o | _ => True end.

(** Values the second station shows for a line and a checkpoint. *)
Definition shown_supply (id : Z) (s : Stations) : option Z := option_map supplyLevel (equipment_ (secondary s) !! id).
Definition shown_rate (id : Z) (s : Stations) : option float32 := option_map passRate (quality_ (secondary s) !! id).

Definition mirrored (s : Stations) : Prop := forall id,
  shown_supply id s = option_map supplyLevel (sm_get id (equipmentStatuses_ (primary s))) /\
  shown_rate id s = option_map passRate (sm_get id (qualityCheckpoints_ (primary s))).

(* ------------------------------------------------------------------ *)
(** ** Lemmas *)

(** The second station keeps its three lines and checkpoints. *)
Record mirror_ok (m : MirrorModel) : Prop := {
  mi_lines : forall id, is_Some (equipment_ m !! id) <-> 0 <= id < 3;
  mi_checks : forall id, is_Some (quality_ m !! id) <-> 0 <= id < 3;
}.

Lemma mirror_init_ok : mirror_ok (mirror_init 3 3).
Proof.
  assert (H : forall {A} (x y z : A) id, is_Some ((<[0:=x]> (<[1:=y]> (<[2:=z]> (∅ : gmap Z A)))) !! id) <-> 0 <= id < 3).
  { intros A x y z id. rewrite !lookup_insert_is_Some', lookup_empty. unfold is_Some. split; [intros [|[|[|[? ?]]]]; try discriminate; lia|lia]. }
  split; intros id; apply H.
Qed.

Lemma supply_line m id v j :
  equipment_ (mirror_setEquipmentSupplyLevel m id v) !! j =
    if decide (j = id) then option_map (es_supply (int_clamp v 0 100)) (equipment_ m !! j) else equipment_ m !! j.
Proof.
  unfold mirror_setEquipmentSupplyLevel. destruct (equipment_ m !! id) eqn:E; cbn; case_decide as D; subst; rewrite ?E; try reflexivity.
  - apply lookup_insert_eq.
  - apply lookup_insert_ne. congruence.
Qed.

Lemma rate_check m id r j :
  quality_ (mirror_setQualityPassRate m id r) !! j =
    if decide (j = id) then option_map (cp_rate (f32_clamp r kMinPassRate kMaxPassRate)) (quality_ m !! j) else quality_ m !! j.
Proof.
  unfold mirror_setQualityPassRate. destruct (quality_ m !! id) eqn:E; cbn; case_decide as D; subst; rewrite ?E; try reflexivity.
  - apply lookup_insert_eq.
  - apply lookup_insert_ne. congruence.
Qed.

Lemma supply_keeps_checks m id v : quality_ (mirror_setEquipmentSupplyLevel m id v) = quality_ m.
Proof. unfold mirror_setEquipmentSupplyLevel. case_match; reflexivity. Qed.
Lemma rate_keeps_lines m id r : equipment_ (mirror_setQualityPassRate m id r) = equipment_ m.
Proof. unfold mirror_setQualityPassRate. case_match; reflexivity. Qed.

Lemma some_map {A B} (f : A -> B) o : is_Some (option_map f o) <-> is_Some o.
Proof. destruct o; cbn; split; intros [? H]; try discriminate; eauto. Qed.

Lemma supply_ok m id v : mirror_ok m -> mirror_ok (mirror_setEquipmentSupplyLevel m id v).
Proof.
  intros [H1 H2]. split; intros j; [|rewrite supply_keeps_checks; apply H2].
  rewrite supply_line. case_decide; rewrite ?some_map; apply H1.
Qed.
Lemma rate_ok_keeps m id r : mirror_ok m -> mirror_ok (mirror_setQualityPassRate m id r).
Proof.
  intros [H1 H2]. split; intros j; [rewrite rate_keeps_lines; apply H1|].
  rewrite rate_check. case_decide; rewrite ?some_map; apply H2.
Qed.

(** The operator's commands keep the mirrored values. *)
Lemma local_keeps o m : mirror_ok m ->
  mirror_ok (local_apply o m) /\
  (forall id, option_map supplyLevel (equipment_ (local_apply o m) !! id) = option_map supplyLevel (equipment_ m !! id)) /\
  quality_ (local_apply o m) = quality_ m.
Proof.
  intros H.
  assert (P : forall st, equipment_ (publishSystemStateChange st m) = equipment_ m /\ quality_ (publishSystemStateChange st m) = quality_ m).
  { intros st. unfold publishSystemStateChange. case_decide; auto. }
  destruct H as [H1 H2].
  destruct o; cbn [local_apply]; unfold mirror_startProduction, mirror_stopProduction, mirror_resetSystem, mirror_startCalibration;
    try (match goal with |- context [publishSystemStateChange ?st m] => destruct (P st) as [-> ->] end);
    try (split; [split; first [exact H1|exact H2]|split; reflexivity]).
  1-4: split; [split; intros j; [rewrite (proj1 (P _)); apply H1|rewrite (proj2 (P _)); apply H2]|split; reflexivity].
  unfold mirror_setEquipmentEnabled. destruct (equipment_ m !! id) as [e|] eqn:E; [|split; [split; assumption|auto]].
  split; [split; cbn; intros j; [|apply H2]|split; [cbn; intros j|reflexivity]].
  - rewrite lookup_insert_is_Some', <- H1. split; [intros [->|]; auto; rewrite E; eauto|auto].
  - destruct (decide (j = id)) as [->|]; [rewrite lookup_insert_eq, E; reflexivity|rewrite lookup_insert_ne; auto].
Qed.

(** A rate the primary accepts passes the clamp of the second station. *)
Lemma rate_in_domain r : rate_ok r -> f32_clamp r kMinPassRate kMaxPassRate = r.
Proof.
  intros [H1 H2]. apply f32_clamp_id; [|exact H2].
  destruct r as [s|s| |s mm ee]; try reflexivity; destruct s; try reflexivity; vm_compute in H1; discriminate.
Qed.

Lemma supply_in_domain v : 0 <= v <= 100 -> int_clamp v 0 100 = v.
Proof. intros H. unfold int_clamp. destruct (Z.ltb_spec v 0), (Z.ltb_spec 100 v); lia. Qed.

Record forwarding (b : Bridge) (s : Bridge * MirrorModel) : Prop := {
  fw_running : running_ (fst s) = running_ b;
  fw_subscribed : subscribed_ (fst s) = subscribed_ b;
  fw_mirror : mirror_ok (snd s);
}.

Lemma forward_forwarding now b s d : forwarding b s -> forwarding b (forward now s d).
Proof.
  destruct s as [b1 m1]. intros H. pose proof H as [Hr Hs Hm]. cbn in *.
  destruct d; cbn; try exact H; destruct (running_ b1) eqn:E; cbn; try exact H; split; cbn; auto using supply_ok, rate_ok_keeps;
    rewrite E; exact Hr.
Qed.

Lemma forward_off now news (s : Bridge * MirrorModel) :
  running_ (fst s) = false -> fold_left (forward now) news s = s.
Proof.
  destruct s as [b1 m1]. cbn. intros E. induction news as [|d news IH]; [reflexivity|]. cbn [fold_left].
  destruct d; cbn; rewrite ?E; exact IH.
Qed.

Implicit Types m : SimulatedModel G.

Lemma id_of_line n m id e : model_ok n m -> plant m -> sm_get id (equipmentStatuses_ m) = Some e ->
  0 <= id < 3 /\ 0 <= supplyLevel e <= 100.
Proof.
  intros H P E. split; [|apply (mo_lines _ _ H id e E)].
  apply sm_get_key in E. rewrite (pl_lines _ P), !elem_of_cons, elem_of_nil in E. lia.
Qed.
Lemma id_of_check n m id c : model_ok n m -> plant m -> sm_get id (qualityCheckpoints_ m) = Some c ->
  0 <= id < 3 /\ rate_ok (passRate c).
Proof.
  intros H P E. split; [|apply (mo_rates _ _ H id c E)].
  apply sm_get_key in E. rewrite (pl_checkpoints _ P), !elem_of_cons, elem_of_nil in E. lia.
Qed.

(** What the running bridge does with the news of one operation: a value that
    was told or was already right is right. *)
Lemma forward_mirrors n br m news now b sec :
  model_ok n m -> plant m -> mirror_ok sec -> running_ b = true -> Forall (current m) news ->
  (forall id, option_map supplyLevel (equipment_ sec !! id) = option_map supplyLevel (sm_get id (equipmentStatuses_ m)) \/
     exists d, d ∈ news /\ addressee d = br /\ about_line id d) ->
  (forall id, option_map passRate (quality_ sec !! id) = option_map passRate (sm_get id (qualityCheckpoints_ m)) \/
     exists d, d ∈ news /\ addressee d = br /\ about_checkpoint id d) ->
  let s := fold_left (forward now) (inbox br news) (b, sec) in
  forwarding b s /\ mirrored (mkStations m (fst s) (snd s)).
Proof.
  intros H P Hm Hr C Hl Hq. cbv zeta. rewrite Forall_forall in C.
  assert (F0 : forwarding b (b, sec)) by (split; auto).
  split.
  - apply fold_inv; [exact F0|]. intros s d _ Hs. apply forward_forwarding, Hs.
  - intros id. split; unfold shown_supply, shown_rate; cbn [primary secondary].
    + apply (watcher_settles (forward now) (forwarding b) (fun s => option_map supplyLevel (equipment_ (snd s) !! id)) (about_line id));
        auto using forward_forwarding.
      * intros [b1 m1] d Hd _ [Hb _ Hmi] Hab. specialize (C d Hd). destruct d; try contradiction. cbn in Hab, Hb, Hmi, C |- *. subst id.
        rewrite Hb, Hr. cbn. rewrite supply_line, decide_True by reflexivity. rewrite C.
        destruct (id_of_line n m _ es H P C) as [Hid Hv]. apply (mi_lines _ Hmi) in Hid as [e He]. rewrite He. cbn.
        rewrite supply_in_domain by exact Hv. reflexivity.
      * intros [b1 m1] d Hd _ [Hb _ Hmi] Hab. cbn in Hb. destruct d; try reflexivity; cbn in *; rewrite Hb, Hr; cbn.
        -- rewrite supply_line, decide_False by congruence. reflexivity.
        -- rewrite rate_keeps_lines. reflexivity.
    + apply (watcher_settles (forward now) (forwarding b) (fun s => option_map passRate (quality_ (snd s) !! id)) (about_checkpoint id));
        auto using forward_forwarding.
      * intros [b1 m1] d Hd _ [Hb _ Hmi] Hab. specialize (C d Hd). destruct d; try contradiction. cbn in Hab, Hb, Hmi, C |- *. subst id.
        rewrite Hb, Hr. cbn. rewrite rate_check, decide_True by reflexivity. rewrite C.
        destruct (id_of_check n m _ cp H P C) as [Hid Hv]. apply (mi_checks _ Hmi) in Hid as [e He]. rewrite He. cbn.
        rewrite rate_in_domain by exact Hv. reflexivity.
      * intros [b1 m1] d Hd _ [Hb _ Hmi] Hab. cbn in Hb. destruct d; try reflexivity; cbn in *; rewrite Hb, Hr; cbn.
        -- rewrite supply_keeps_checks. reflexivity.
        -- rewrite rate_check, decide_False by congruence. reflexivity.
Qed.

(** The stations between events. *)
Definition bridged (br : nat) (b : Bridge) m : Prop :=
  subscribed_ b = true -> br ∈ equipmentCallbacks_ (subscribers_ m) /\ br ∈ qualityCallbacks_ (subscribers_ m).

Record stations_ok (n : Z) (br : nat) (s : Stations) : Prop := {
  so_model : model_ok n (primary s);
  so_plant : plant (primary s);
  so_bridged : bridged br (bridge s) (primary s);
  so_mirror : mirror_ok (secondary s);
}.

(** The bridge runs and the second station is up to date. *)
Record in_step (s : Stations) : Prop := {
  is_running : running_ (bridge s) = true;
  is_subscribed : subscribed_ (bridge s) = true;
  is_mirrored : mirrored s;
}.

Lemma bridged_grow br b m m' : subs_grow (subscribers_ m) (subscribers_ m') -> bridged br b m -> bridged br b m'.
Proof. intros G1 H Hs. specialize (G1 br). destruct (H Hs). tauto. Qed.

Lemma station_primary n br s now o :
  stations_ok n br s -> in_plant o -> 0 <= n -> 648 + 3 * n <= int_max ->
  exists s', station_step br s (EPrimary now o) = Ret s' /\ stations_ok (n + 1) br s' /\ (in_step s -> in_step s').
Proof.
  intros [H P B M] Ho Hn Hmax. destruct (plant_step n _ o H P Ho Hn Hmax) as (m' & E & H' & T & N).
  destruct (op_tells _ _ m' H' (or_introl P) T N) as (news & D & [C Hl _ Hq _ _]).
  cbn [station_step]. rewrite E. cbn [mbind outcome_bind]. rewrite D, drop_app_length.
  assert (F : forwarding (bridge s) (fold_left (forward now) (inbox br news) (bridge s, secondary s))).
  { apply fold_inv; [split; auto|]. intros x d _ Hx. apply forward_forwarding, Hx. }
  pose proof (fun Hr Hs Hm => forward_mirrors _ br m' news now (bridge s) (secondary s) H' (proj1 N) M Hr C Hs Hm) as FM.
  destruct (fold_left _ _ _) as [b sec]. destruct F as [F1 F2 F3]. cbn in F1, F2, F3.
  eexists. split; [reflexivity|]. split.
  - split; cbn; [exact H'|apply N| |exact F3]. unfold bridged. rewrite F2. apply (bridged_grow br (bridge s) (primary s)); [apply N|exact B].
  - intros [I1 I2 I3]. destruct (B I2) as [B1 B2]. split; cbn; [congruence|congruence|]. apply FM; [exact I1| |].
    + intros id. destruct (I3 id) as [A1 _]. unfold shown_supply in A1. rewrite A1. destruct (Hl br id B1) as [->|]; auto.
    + intros id. destruct (I3 id) as [_ A2]. unfold shown_rate in A2. rewrite A2. destruct (Hq br id B2) as [->|]; auto.
Qed.

Lemma in_step_local br s o : mirror_ok (secondary s) -> in_step s -> forall s', station_step br s (ELocal o) = Ret s' -> in_step s'.
Proof.
  intros M [I1 I2 I3] s' [= <-]. split; try assumption. intros id. destruct (local_keeps o _ M) as (_ & L1 & L2).
  unfold shown_supply, shown_rate. cbn. rewrite L1, L2. apply I3.
Qed.

Lemma bridged_start br s : bridged br (bridge s) (primary s) ->
  let '(b, m) := p2s_start br (bridge s) (primary s) in
  bridged br b m /\ running_ b = true /\ subscribed_ b = true /\
  exists x, m = set_subscribers x (primary s) /\ (subscribed_ (bridge s) = true -> m = primary s).
Proof.
  intros B. unfold p2s_start, bridged in *. destruct (subscribed_ (bridge s)) eqn:E; cbn; (split; [|split; [|split]]); auto.
  - exists (subscribers_ (primary s)). split; auto. destruct (primary s); reflexivity.
  - intros _. split; apply elem_of_app; right; left.
  - eexists. split; [|discriminate]. unfold onQualityCheckpointChanged, onEquipmentStatusChanged, set_subscribers. cbn. reflexivity.
Qed.

Lemma not_three {A B} (f : A -> B) (t : gmap Z A) {C} (u : smap C) id :
  (forall id, is_Some (t !! id) <-> 0 <= id < 3) -> sm_ok u -> sm_keys u = [0; 1; 2] ->
  option_map f (t !! id) = None <-> sm_get id u = None.
Proof.
  intros Ht Hok Hk. specialize (Ht id).
  assert (Hu : is_Some (sm_get id u) <-> 0 <= id < 3).
  { split.
    - intros [x E]. apply sm_get_key in E. rewrite Hk, !elem_of_cons, elem_of_nil in E. lia.
    - intros Hid. apply (keys_get id u _ Hok Hk), three, Hid. }
  rewrite <- Ht in Hu. destruct (t !! id), (sm_get id u); cbn; split; intros; try reflexivity; try discriminate; exfalso.
  - destruct (proj2 Hu ltac:(eauto)). discriminate.
  - destruct (proj1 Hu ltac:(eauto)). discriminate.
Qed.

(** An announcement under the running bridge brings the second station up to
    date. *)
Lemma announced n br s now o :
  model_ok n (primary s) -> 0 <= n -> (plant (primary s) /\ announces o) \/ (virgin (primary s) /\ o = InitializeDemoData) ->
  bridged br (bridge s) (primary s) -> mirror_ok (secondary s) -> running_ (bridge s) = true -> subscribed_ (bridge s) = true ->
  exists s', station_step br s (EPrimary now o) = Ret s' /\ stations_ok n br s' /\ in_step s'.
Proof.
  intros H Hn Ho B M Hr Hs. destruct (announcement_tells n _ o H Hn Ho) as (m' & news & E & H' & N & D & Tl & Tq & _).
  destruct N as (P' & Sub & news' & D' & C). rewrite D in D'. apply app_inv_head in D' as <-. destruct (B Hs) as [B1 B2].
  cbn [station_step]. rewrite E. cbn [mbind outcome_bind]. rewrite D, drop_app_length.
  destruct (forward_mirrors n br m' news now (bridge s) (secondary s) H' P' M Hr C) as [F FM].
  - intros id. eapply (told_of_table DEquipment about_line equipmentId supplyLevel (fun id => option_map supplyLevel (equipment_ (secondary s) !! id))); eauto; try reflexivity; [apply P'|].
    apply not_three; [apply M|apply H'|apply P'].
  - intros id. eapply (told_of_table DQuality about_checkpoint checkpointId passRate (fun id => option_map passRate (quality_ (secondary s) !! id))); eauto; try reflexivity; [apply P'|].
    apply not_three; [apply M|apply H'|apply P'].
  - destruct (fold_left _ _ _) as [b sec]. destruct F as [F1 F2 F3]. cbn in F1, F2, F3, FM. eexists. split; [reflexivity|]. split.
    + split; cbn; auto. unfold bridged. rewrite F2. apply (bridged_grow br (bridge s) (primary s)); assumption.
    + split; cbn; [congruence|congruence|exact FM].
Qed.

(** An event other than stopping the bridge keeps the stations in step. *)
Lemma station_event_ok n br s e :
  stations_ok n br s -> event_ok e -> 0 <= n -> 648 + 3 * n <= int_max ->
  exists s', station_step br s e = Ret s' /\ stations_ok (n + 1) br s' /\ (e <> EBridgeStop -> in_step s -> in_step s').
Proof.
  intros H He Hn Hmax. pose proof H as [H1 P B M]. pose proof (ok_mono n (n + 1) _ H1 ltac:(lia)) as H1'.
  destruct e as [now o| | |o].
  - destruct (station_primary n br s now o H He Hn Hmax) as (s' & E & H' & I). eauto 10.
  - cbn [station_step]. pose proof (bridged_start br s B) as HS. destruct (p2s_start br (bridge s) (primary s)) as [b m].
    destruct HS as (B' & R & S & x & -> & Hsame). eexists. split; [reflexivity|]. split.
    + split; cbn; auto using ok_subscribers, plant_subscribers.
    + intros _ [I1 I2 I3]. split; cbn; [exact R|exact S|]. exact I3.
  - eexists. split; [reflexivity|]. split; [split; assumption|]. intros []. reflexivity.
  - eexists. split; [reflexivity|]. split.
    + split; cbn; auto. apply (local_keeps o _ M).
    + intros _ I. exact (in_step_local br s o M I _ eq_refl).
Qed.

Lemma station_run_ok br l : forall n s,
  stations_ok n br s -> Forall event_ok l -> 0 <= n -> 648 + 3 * (n + Z.of_nat (length l)) <= int_max ->
  exists s', station_run br l s = Ret s' /\ stations_ok (n + Z.of_nat (length l)) br s' /\
    (EBridgeStop ∉ l -> in_step s -> in_step s').
Proof.
  induction l as [|e l IH]; intros n s H Hl Hn Hmax; cbn [length station_run] in *.
  - exists s. rewrite Z.add_0_r. auto.
  - apply Forall_cons in Hl as [He Hl]. destruct (station_event_ok n br s e H He Hn) as (s1 & E & H1 & I1); [lia|].
    rewrite E. cbn [mbind outcome_bind]. destruct (IH (n + 1) s1 H1 Hl) as (s' & E' & H' & I'); [lia|lia|].
    exists s'. split; [exact E'|]. replace (n + Z.of_nat (S (length l))) with (n + 1 + Z.of_nat (length l)) by lia. split; [exact H'|].
    rewrite not_elem_of_cons. intros [N1 N2] I. auto.
Qed.

Lemma station_run_app br l1 l2 s :
  station_run br (l1 ++ l2) s = (s ← station_run br l1 s; station_run br l2 s).
Proof.
  revert s. induction l1 as [|e l1 IH]; intros s; cbn [app station_run]; [reflexivity|].
  destruct (station_step br s e); cbn [mbind outcome_bind]; auto.
Qed.

Lemma stations_begin br g :
  model_ok 0 (primary (stations_init g)) /\ virgin (primary (stations_init g)) /\
  bridged br (bridge (stations_init g)) (primary (stations_init g)) /\ mirror_ok (secondary (stations_init g)).
Proof. split; [apply model_init_ok|]. split; [repeat split|]. split; [discriminate|apply mirror_init_ok]. Qed.

(** Starting the bridge and announcing. *)
Lemma start_and_announce n br s now o :
  model_ok n (primary s) -> 0 <= n -> (plant (primary s) /\ announces o) \/ (virgin (primary s) /\ o = InitializeDemoData) ->
  bridged br (bridge s) (primary s) -> mirror_ok (secondary s) ->
  exists s', station_run br [EBridgeStart; EPrimary now o] s = Ret s' /\ stations_ok n br s' /\ in_step s'.
Proof.
  intros H Hn Ho B M. cbn [station_run].
  change (station_step br s EBridgeStart) with (let '(b, m) := p2s_start br (bridge s) (primary s) in Ret (mkStations m b (secondary s))).
  pose proof (bridged_start br s B) as HS.
  destruct (p2s_start br (bridge s) (primary s)) as [b m]. destruct HS as (B' & R & S & x & -> & _).
  cbn [mbind outcome_bind].
  destruct (announced n br (mkStations (set_subscribers x (primary s)) b (secondary s)) now o) as (s' & E & H' & I); cbn; auto using ok_subscribers.
  - destruct Ho as [[P Ho]|[V Ho]]; [left; split; auto using plant_subscribers|right; split; [exact V|exact Ho]].
  - cbn [station_run]. setoid_rewrite E. cbn [mbind outcome_bind]. eauto.
Qed.
End Stations.

(* ------------------------------------------------------------------ *)
(** ** Properties *)

(** The history before the bridge is started for the last time: nothing, when
    the demo data is still to be loaded, or any events of an initialised
    plant. *)
Definition history_ok (l : list station_event) (o : model_op) : Prop :=
  match l with
  | [] => o = InitializeDemoData
  | EPrimary _ InitializeDemoData :: l => Forall event_ok l /\ announces o
  | _ => False
  end.

(** C9: The second station mirrors the first. Start the bridge (after whatever
    happened on the two stations and earlier starts and stops), let the
    primary announce its values, and from then on, as long as the bridge is
    not stopped, every line's supply level and every checkpoint's pass rate on
    the second station are those of the primary, whatever operations the
    plant and the operators of both stations make. The plant is the one of
    the demo data, lines are enabled and supplied by the numbers 0 to 2, there
    are fewer than 700 million events, and nobody drops the primary model's
    subscriptions: rebuilding the pages of the primary's window, for another
    language or layout, does, and ends the mirroring
    ([language_switch_deafens_refuted]). *)
Theorem secondary_mirrors_primary {G} `{RandomSource G} (br : nat) (g : G) (l1 l2 : list station_event) (now : Z) (o : model_op) :
  history_ok l1 o -> Forall event_ok l2 -> EBridgeStop ∉ l2 -> Z.of_nat (length l1 + length l2) < 700000000 ->
  exists s, station_run br (l1 ++ [EBridgeStart; EPrimary now o] ++ l2) (stations_init g) = Ret s /\ mirrored s.
Proof.
  intros Hh Hl2 Hstop Hlen. destruct (stations_begin (G := G) br g) as (H0 & V0 & B0 & M0).
  assert (exists n s, station_run br (l1 ++ [EBridgeStart; EPrimary now o]) (stations_init g) = Ret s /\
    0 <= n <= Z.of_nat (length l1) /\ stations_ok n br s /\ in_step s) as (n & s & E & Hn & Hs & I).
  { destruct l1 as [|[now1 [] | | |] l1]; cbn [history_ok] in Hh; try contradiction.
    - destruct (start_and_announce 0 br (stations_init g) now o) as (s & E & Hs & I); auto; [lia|]. exists 0, s. cbn [length]. auto with lia.
    - destruct Hh as [Hl1 Ho].
      assert (exists s1, station_step br (stations_init g) (EPrimary now1 InitializeDemoData) = Ret s1 /\ stations_ok 0 br s1) as (s1 & E1 & Hs1).
      { destruct (announcement_tells 0 (primary (stations_init g)) InitializeDemoData H0) as (m' & news & E & H' & N & D & _); [lia|auto|].
        cbn [station_step]. rewrite E. cbn [mbind outcome_bind]. rewrite forward_off by reflexivity.
        eexists. split; [reflexivity|]. split; cbn; [exact H'|apply N|discriminate|exact M0]. }
      destruct (station_run_ok br l1 0 s1 Hs1 Hl1) as (s2 & E2 & Hs2 & _); [lia|unfold int_max; cbn [length] in Hlen; lia|].
      destruct (start_and_announce (0 + Z.of_nat (length l1)) br s2 now o) as (s & E & Hs & I);
        [apply Hs2|lia|left; split; [apply Hs2|exact Ho]|apply Hs2|apply Hs2|].
      exists (0 + Z.of_nat (length l1)), s. split; [|cbn [length]; auto with lia].
      cbn [app station_run]. rewrite E1. cbn [mbind outcome_bind]. rewrite station_run_app, E2. exact E. }
  destruct (station_run_ok br l2 n s Hs Hl2) as (s' & E' & _ & I'); [lia|unfold int_max; lia|].
  exists s'. rewrite app_assoc, station_run_app, E. cbn [mbind outcome_bind]. split; [exact E'|]. apply I'; assumption.
Qed.

(* ------------------------------------------------------------------ *)
(** ** Witness *)

Definition before_restart : list station_event :=
  [EPrimary 0 InitializeDemoData; EBridgeStart; EPrimary 1 (SetEquipmentSupplyLevel 0 40); EBridgeStop;
   EPrimary 2 (SetEquipmentSupplyLevel 0 55); ELocal LStart].
Definition after_restart : list station_event :=
  [EPrimary 4 (TickSimulation 9); ELocal (LEnable 1 false); EPrimary 5 (SetQualityPassRate 1 (f32_of_Z 90)); EBridgeStart].

Lemma secondary_mirrors_primary_witness :
  exists s, station_run 4 (before_restart ++ [EBridgeStart; EPrimary 3 RepublishAll] ++ after_restart) (stations_init tt) = Ret s /\ mirrored s.
Proof.
  apply (secondary_mirrors_primary 4 tt before_restart after_restart 3 RepublishAll).
  - split; [|left; reflexivity]. repeat (apply Forall_cons; split; [cbn; try exact I; lia|]). apply Forall_nil. exact I.
  - repeat (apply Forall_cons; split; [cbn; unfold is_u32; try exact I; lia|]). apply Forall_nil. exact I.
  - unfold after_restart. rewrite !not_elem_of_cons. repeat split; try discriminate. apply not_elem_of_nil.
  - vm_compute. reflexivity.
Defined.

(** What [MainWindow::rebuildPages] and [reloadLayout] do to the model when
    the operator changes the language or the layout, between a history and a
    change of supply; then the bridge is restarted and the model announces
    everything again. *)
Definition language_switched : list station_event :=
  [EPrimary 0 InitializeDemoData; EBridgeStart; EPrimary 1 RepublishAll; EPrimary 2 ClearCallbacks;
   EPrimary 3 (SetEquipmentSupplyLevel 0 40); EBridgeStop; EBridgeStart; EPrimary 4 RepublishAll].

(** A change of language drops every subscription of the model, the
    bridges' with those of the old pages: the running bridge forwards nothing
    any more, and neither a restart nor a republication helps. *)
Theorem language_switch_deafens_refuted :
  exists s, station_run 4 language_switched (stations_init tt) = Ret s /\ running_ (bridge s) = true /\ ~ mirrored s.
Proof.
  assert (E : match station_run 4 language_switched (stations_init tt) with
              | Ret s => (running_ (bridge s), shown_supply 0 s, option_map supplyLevel (sm_get 0 (equipmentStatuses_ (primary s))))
              | _ => (false, None, None)
              end = (true, Some 85, Some 40)) by (vm_compute; reflexivity).
  destruct (station_run 4 language_switched (stations_init tt)) as [s| |]; try discriminate E. injection E as E1 E2 E3.
  exists s. split; [reflexivity|]. split; [exact E1|]. intros H. destruct (H 0) as [H0 _]. rewrite E2, E3 in H0. discriminate H0.
Qed.
