(* ===== verification/AlertCenter.v ===== *)
(** * Alarm centre
    (src/presenter/AlertCenter.h, modelview/AlertViewModel.h)

    The alarm list, the resolution history and every operation, with the
    signals and audit records they emit, in order. Listeners that call back
    into the centre are not modelled; the wall-clock text of a timestamp and
    the clock reading are arguments. Properties: the alarm lifecycle, and the
    operator's views. *)
From stdpp Require Import sorting strings.
From S2P Require Import Prelude.
Local Open Scope string_scope.
Local Open Scope Z_scope.
Local Open Scope list_scope.

Inductive AlertSeverity := Info | Warning | Critical.

Inductive AlarmState := UnackActive | AckActive | RtnUnack | Shelved.

#[export] Instance AlertSeverity_eq_dec : EqDecision AlertSeverity.
Proof. solve_decision. Defined.
#[export] Instance AlarmState_eq_dec : EqDecision AlarmState.
Proof. solve_decision. Defined.

Definition kAlarmPriorityEmergency : Z := 1.
Definition kAlarmPriorityHigh : Z := 2.
Definition kAlarmPriorityMedium : Z := 3.
Definition kAlarmPriorityLow : Z := 4.

(** [retranslate] names a stored function. *)
Record AlertViewModel := mkAlert {
  key : string;
  severity : AlertSeverity;
  title : string;
  message : string;
  timestamp : string;
  alarm_state : AlarmState;
  priority : Z;
  vm_retranslate : option nat;
}.

#[export] Instance AlertViewModel_eq_dec : EqDecision AlertViewModel.
Proof. solve_decision. Defined.

Definition set_state (s : AlarmState) (a : AlertViewModel) : AlertViewModel :=
  mkAlert (key a) (severity a) (title a) (message a) (timestamp a) s (priority a) (vm_retranslate a).
Definition set_timestamp (t : string) (a : AlertViewModel) : AlertViewModel :=
  mkAlert (key a) (severity a) (title a) (message a) t (alarm_state a) (priority a) (vm_retranslate a).

Record AlertHistoryEntry := mkHistory { alert : AlertViewModel; resolvedAt : string }.

(** Time points and durations are in nanoseconds; [TimePoint{}] is 0. *)
Record Alarm := mkAlarm { vm : AlertViewModel; conditionActive : bool; shelvedUntil : Z }.

Definition kHistoryCapacity : Z := 50.
Definition kSecond : Z := 1000000000.

(** What listeners see: the two signals and the audit callback. *)
Inductive center_event :=
| AlertsChanged
| HistoryChanged
| AuditRecord (action k : string).

Record AlertCenter := mkCenter {
  alarms_ : list Alarm;
  history_ : list AlertHistoryEntry;
  auditFn_ : bool;            (* an audit callback is set *)
  events : list center_event;
}.

Definition center_init : AlertCenter := mkCenter [] [] false [].

Definition setAuditCallback (on : bool) (c : AlertCenter) : AlertCenter :=
  mkCenter (alarms_ c) (history_ c) on (events c).

(** [findByKey], as an index; [None] is [end()]. *)
Fixpoint findByKey (k : string) (l : list Alarm) : option nat :=
  match l with
  | [] => None
  | a :: l => if String.eqb (key (vm a)) k then Some 0%nat else S <$> findByKey k l
  end.

Definition emit (l : list center_event) (c : AlertCenter) : AlertCenter :=
  mkCenter (alarms_ c) (history_ c) (auditFn_ c) (events c ++ l).

Definition audit_events (c : AlertCenter) (action k : string) : list center_event :=
  if auditFn_ c then [AuditRecord action k] else [].

(** [if (activeChanged) ...; if (historyChanged) ...; if (!action.empty()) ...]. *)
Definition announce (activeChanged historyChanged : bool) (action k : string) (c : AlertCenter) : AlertCenter :=
  emit ((if activeChanged then [AlertsChanged] else []) ++
        (if historyChanged then [HistoryChanged] else []) ++
        (if String.eqb action "" then [] else audit_events c action k)) c.

Definition set_alarms (l : list Alarm) (c : AlertCenter) : AlertCenter :=
  mkCenter l (history_ c) (auditFn_ c) (events c).

(** [pushHistoryUnlocked]; [text] is what [formatNow] returns. *)
Definition pushHistory (text : string) (a : AlertViewModel) (h : list AlertHistoryEntry) : list AlertHistoryEntry :=
  let h := mkHistory a text :: h in
  if kHistoryCapacity <? Z.of_nat (length h) then removelast h else h.

Definition push_history (text : string) (a : AlertViewModel) (c : AlertCenter) : AlertCenter :=
  mkCenter (alarms_ c) (pushHistory text a (history_ c)) (auditFn_ c) (events c).

(** [raise]; [text] is what [formatNow] returns. *)
Definition raise (text : string) (a : AlertViewModel) (c : AlertCenter) : AlertCenter :=
  let stamped := if String.eqb (timestamp a) "" then set_timestamp text a else a in
  let k := key stamped in
  match findByKey k (alarms_ c) with
  | None =>
      let stamped := set_state UnackActive stamped in
      announce true false "RAISE" k (set_alarms (alarms_ c ++ [mkAlarm stamped true 0]) c)
  | Some i =>
      match alarms_ c !! i with
      | None => c
      | Some it =>
          let wasReturned := bool_decide (alarm_state (vm it) = RtnUnack) in
          let next := if wasReturned then UnackActive else alarm_state (vm it) in
          announce true false (if wasReturned then "REALARM" else "") k
            (set_alarms (<[i := mkAlarm (set_state next stamped) true (shelvedUntil it)]> (alarms_ c)) c)
      end
  end.

Definition clear (text k : string) (c : AlertCenter) : AlertCenter :=
  match findByKey k (alarms_ c) with
  | None => c
  | Some i =>
      match alarms_ c !! i with
      | None => c
      | Some it =>
          match alarm_state (vm it) with
          | AckActive =>
              announce true true "RESOLVE" k
                (set_alarms (delete i (alarms_ c)) (push_history text (vm it) c))
          | UnackActive =>
              announce true false "RTN" k
                (set_alarms (<[i := mkAlarm (set_state RtnUnack (vm it)) false (shelvedUntil it)]> (alarms_ c)) c)
          | _ => set_alarms (<[i := mkAlarm (vm it) false (shelvedUntil it)]> (alarms_ c)) c
          end
      end
  end.

Definition acknowledge (text k : string) (c : AlertCenter) : AlertCenter :=
  match findByKey k (alarms_ c) with
  | None => c
  | Some i =>
      match alarms_ c !! i with
      | None => c
      | Some it =>
          match alarm_state (vm it) with
          | UnackActive =>
              announce true false "ACK" k
                (set_alarms (<[i := mkAlarm (set_state AckActive (vm it)) (conditionActive it) (shelvedUntil it)]> (alarms_ c)) c)
          | RtnUnack =>
              announce true true "RESOLVE" k
                (set_alarms (delete i (alarms_ c)) (push_history text (vm it) c))
          | _ => c
          end
      end
  end.

Definition shelve (now : Z) (k : string) (duration : Z) (c : AlertCenter) : AlertCenter :=
  match findByKey k (alarms_ c) with
  | None => c
  | Some i =>
      match alarms_ c !! i with
      | None => c
      | Some it =>
          announce true false "SHELVE" k
            (set_alarms (<[i := mkAlarm (set_state Shelved (vm it)) (conditionActive it) (now + duration * kSecond)]> (alarms_ c)) c)
      end
  end.

(** An alarm leaving the shelf. *)
Definition off_shelf (it : Alarm) : Alarm :=
  mkAlarm (set_state (if conditionActive it then UnackActive else RtnUnack) (vm it)) (conditionActive it) 0.

Definition unshelve (k : string) (c : AlertCenter) : AlertCenter :=
  match findByKey k (alarms_ c) with
  | None => c
  | Some i =>
      match alarms_ c !! i with
      | None => c
      | Some it =>
          if bool_decide (alarm_state (vm it) = Shelved)
          then announce true false "UNSHELVE" k (set_alarms (<[i := off_shelf it]> (alarms_ c)) c)
          else c
      end
  end.

Definition expired (now : Z) (it : Alarm) : bool :=
  bool_decide (alarm_state (vm it) = Shelved) && (shelvedUntil it <=? now).

Definition tick (now : Z) (c : AlertCenter) : AlertCenter :=
  let expiredKeys := map (fun it => key (vm it)) (filter (fun it => expired now it) (alarms_ c)) in
  let c := set_alarms (map (fun it => if expired now it then off_shelf it else it) (alarms_ c)) c in
  emit ((if bool_decide (expiredKeys = []) then [] else [AlertsChanged]) ++
        flat_map (audit_events c "EXPIRE") expiredKeys) c.

Definition clearAll (text : string) (c : AlertCenter) : AlertCenter :=
  match alarms_ c with
  | [] => c
  | l =>
      let resolvedKeys := map (fun it => key (vm it)) l in
      let c := fold_left (fun c it => push_history text (vm it) c) l c in
      let c := set_alarms [] c in
      emit ([AlertsChanged; HistoryChanged] ++ flat_map (audit_events c "RESOLVE") resolvedKeys) c
  end.

Definition clearHistory (c : AlertCenter) : AlertCenter :=
  match history_ c with
  | [] => c
  | _ => emit [HistoryChanged] (mkCenter (alarms_ c) [] (auditFn_ c) (events c))
  end.

(** [std::stable_sort] by priority: elements of equal priority keep their
    order. *)
Fixpoint insert_by_priority (a : AlertViewModel) (l : list AlertViewModel) : list AlertViewModel :=
  match l with
  | [] => [a]
  | b :: l' => if priority a <=? priority b then a :: l else b :: insert_by_priority a l'
  end.

Definition stable_sort_priority (l : list AlertViewModel) : list AlertViewModel :=
  foldr insert_by_priority [] l.

Definition snapshot (c : AlertCenter) : list AlertViewModel :=
  stable_sort_priority (map vm (filter (fun it => alarm_state (vm it) <> Shelved) (alarms_ c))).

Record ShelvedView := mkShelved { sv_vm : AlertViewModel; deadline : Z; secondsRemaining : Z }.

(** [shelvedSnapshot]; [sort_deadline] is [std::sort], whose order of equal
    deadlines is unspecified. *)
Definition shelvedSnapshot (sort_deadline : list ShelvedView -> list ShelvedView) (now : Z) (c : AlertCenter) :
    list ShelvedView :=
  sort_deadline (map (fun it =>
    let delta := Z.quot (shelvedUntil it - now) kSecond in
    mkShelved (vm it) (shelvedUntil it) (if delta <? 0 then 0 else delta))
    (filter (fun it => alarm_state (vm it) = Shelved) (alarms_ c))).

(** [retranslate]; [run] calls a stored function. *)
Definition retranslate_vm (run : nat -> AlertViewModel -> AlertViewModel) (a : AlertViewModel) : AlertViewModel :=
  match vm_retranslate a with Some f => run f a | None => a end.

Definition retranslate (run : nat -> AlertViewModel -> AlertViewModel) (c : AlertCenter) : AlertCenter :=
  let has a := match vm_retranslate a with Some _ => true | None => false end in
  let activeAny := existsb (fun it => has (vm it)) (alarms_ c) in
  let historyAny := existsb (fun e => has (alert e)) (history_ c) in
  announce activeAny historyAny "" ""
    (mkCenter (map (fun it => mkAlarm (retranslate_vm run (vm it)) (conditionActive it) (shelvedUntil it)) (alarms_ c))
              (map (fun e => mkHistory (retranslate_vm run (alert e)) (resolvedAt e)) (history_ c))
              (auditFn_ c) (events c)).

(* ------------------------------------------------------------------ *)
(** ** Operations as data *)

Inductive center_op :=
| Raise (text : string) (a : AlertViewModel)
| Clear (text k : string)
| Acknowledge (text k : string)
| Shelve (now : Z) (k : string) (duration : Z)
| Unshelve (k : string)
| Tick (now : Z)
| ClearAll (text : string)
| ClearHistory
| Retranslate (run : nat -> AlertViewModel -> AlertViewModel).

(** A stored translation function rewrites texts only. *)
Definition translates (run : nat -> AlertViewModel -> AlertViewModel) : Prop :=
  forall f a, key (run f a) = key a /\ alarm_state (run f a) = alarm_state a /\ priority (run f a) = priority a.

Definition center_op_ok (o : center_op) : Prop :=
  match o with Retranslate run => translates run | _ => True end.

Definition center_apply (c : AlertCenter) (o : center_op) : AlertCenter :=
  match o with
  | Raise text a => raise text a c
  | Clear text k => clear text k c
  | Acknowledge text k => acknowledge text k c
  | Shelve now k d => shelve now k d c
  | Unshelve k => unshelve k c
  | Tick now => tick now c
  | ClearAll text => clearAll text c
  | ClearHistory => clearHistory c
  | Retranslate run => retranslate run c
  end.

Definition center_run (l : list center_op) : AlertCenter :=
  fold_left center_apply l (setAuditCallback true center_init).

(* ------------------------------------------------------------------ *)
(** ** Specification: the lifecycle of one alarm *)

(** The state of an alarm, whether its condition holds, and its deadline on
    the shelf; [None] when there is no alarm. *)
Definition status : Type := option (AlarmState * bool * Z).

Definition leave_shelf (active : bool) : status := Some (if active then UnackActive else RtnUnack, active, 0).

(** What an operation does to the alarm of key [k], and the audit actions it
    records for it. *)
Definition key_step (k : string) (o : center_op) (st : status) : status * list string :=
  match o, st with
  | Raise _ a, _ =>
      if String.eqb (key a) k then
        match st with
        | None => (Some (UnackActive, true, 0), ["RAISE"])
        | Some (RtnUnack, _, u) => (Some (UnackActive, true, u), ["REALARM"])
        | Some (s, _, u) => (Some (s, true, u), [])
        end
      else (st, [])
  | Clear _ k', Some (s, b, u) =>
      if String.eqb k' k then
        match s with
        | AckActive => (None, ["RESOLVE"])
        | UnackActive => (Some (RtnUnack, false, u), ["RTN"])
        | _ => (Some (s, false, u), [])
        end
      else (st, [])
  | Acknowledge _ k', Some (s, b, u) =>
      if String.eqb k' k then
        match s with
        | UnackActive => (Some (AckActive, b, u), ["ACK"])
        | RtnUnack => (None, ["RESOLVE"])
        | _ => (st, [])
        end
      else (st, [])
  | Shelve now k' d, Some (_, b, _) =>
      if String.eqb k' k then (Some (Shelved, b, now + d * kSecond), ["SHELVE"]) else (st, [])
  | Unshelve k', Some (Shelved, b, _) =>
      if String.eqb k' k then (leave_shelf b, ["UNSHELVE"]) else (st, [])
  | Tick now, Some (Shelved, b, u) =>
      if u <=? now then (leave_shelf b, ["EXPIRE"]) else (st, [])
  | ClearAll _, Some _ => (None, ["RESOLVE"])
  | _, _ => (st, [])
  end.

Fixpoint key_run (k : string) (l : list center_op) (st : status) : status * list string :=
  match l with
  | [] => (st, [])
  | o :: l =>
      let (st1, a1) := key_step k o st in
      let (st2, a2) := key_run k l st1 in
      (st2, a1 ++ a2)
  end.

Definition at_key (k : string) (l : list Alarm) : option Alarm :=
  List.find (fun it => String.eqb (key (vm it)) k) l.

Definition alarm_status (it : Alarm) : AlarmState * bool * Z :=
  (alarm_state (vm it), conditionActive it, shelvedUntil it).

Definition status_of (k : string) (c : AlertCenter) : status := alarm_status <$> at_key k (alarms_ c).

(** The audit actions recorded for a key. *)
Definition audits (k : string) (l : list center_event) : list string :=
  omap (fun e => match e with AuditRecord action k' => if String.eqb k' k then Some action else None | _ => None end) l.

(** The keys whose resolution was audited, oldest first. *)
Definition resolutions (l : list center_event) : list string :=
  omap (fun e => match e with AuditRecord action k => if String.eqb action "RESOLVE" then Some k else None | _ => None end) l.

Definition keys (c : AlertCenter) : list string := map (fun it => key (vm it)) (alarms_ c).

(** The state of an alarm agrees with its condition. *)
Definition alarm_ok (it : Alarm) : Prop :=
  match alarm_state (vm it) with
  | UnackActive | AckActive => conditionActive it = true
  | RtnUnack => conditionActive it = false
  | Shelved => True
  end.

Definition center_ok (c : AlertCenter) : Prop :=
  NoDup (keys c) /\ Forall alarm_ok (alarms_ c) /\ auditFn_ c = true /\
  Z.of_nat (length (history_ c)) <= kHistoryCapacity.

(* ------------------------------------------------------------------ *)
(** ** Lemmas *)

Lemma findByKey_spec k l :
  match findByKey k l with
  | None => at_key k l = None /\ k ∉ map (fun it => key (vm it)) l
  | Some i => exists it, l !! i = Some it /\ key (vm it) = k /\ at_key k l = Some it
  end.
Proof.
  induction l as [|a l IH]; cbn; [split; [reflexivity|apply not_elem_of_nil]|].
  destruct (String.eqb_spec (key (vm a)) k) as [E|E]; [exists a; auto|].
  destruct (findByKey k l) as [i|]; cbn; [exact IH|].
  destruct IH as [H1 H2]. split; [exact H1|]. rewrite elem_of_cons. intros [->|H]; auto.
Qed.

Lemma at_key_insert k k' l i it :
  findByKey k l = Some i -> key (vm it) = k ->
  at_key k' (<[i := it]> l) = if String.eqb k k' then Some it else at_key k' l.
Proof.
  revert i. induction l as [|a l IH]; intros i; cbn; [discriminate|].
  destruct (String.eqb_spec (key (vm a)) k) as [E|E].
  - intros [= <-] Hk. cbn. rewrite Hk, E. destruct (String.eqb k k'); reflexivity.
  - destruct (findByKey k l) as [j|] eqn:Hj; cbn; [|discriminate]. intros [= <-] Hk. cbn.
    destruct (String.eqb_spec (key (vm a)) k') as [E'|E'].
    + destruct (String.eqb_spec k k'); [congruence|reflexivity].
    + apply IH; auto.
Qed.

Lemma at_key_fresh k l : k ∉ map (fun it => key (vm it)) l -> at_key k l = None.
Proof.
  induction l as [|a l IH]; cbn; [reflexivity|]. rewrite elem_of_cons. intros H.
  destruct (String.eqb_spec (key (vm a)) k) as [E|E]; [exfalso; auto|apply IH; auto].
Qed.

Lemma at_key_delete k k' l i :
  NoDup (map (fun it => key (vm it)) l) -> findByKey k l = Some i ->
  at_key k' (delete i l) = if String.eqb k k' then None else at_key k' l.
Proof.
  revert i. induction l as [|a l IH]; intros i Hnd; cbn in *; [discriminate|].
  apply NoDup_cons in Hnd as [Hfresh Hnd].
  destruct (String.eqb_spec (key (vm a)) k) as [E|E].
  - intros [= <-]. cbn. rewrite E in *. destruct (String.eqb_spec k k') as [<-|]; [apply at_key_fresh; exact Hfresh|reflexivity].
  - destruct (findByKey k l) as [j|]; cbn; [|discriminate]. intros [= <-]. cbn.
    destruct (String.eqb_spec (key (vm a)) k') as [E'|E'].
    + destruct (String.eqb_spec k k'); [congruence|reflexivity].
    + apply IH; auto.
Qed.

Lemma at_key_snoc k l it :
  at_key k l = None ->
  at_key k (l ++ [it]) = if String.eqb (key (vm it)) k then Some it else None.
Proof.
  induction l as [|a l IH]; cbn; [reflexivity|].
  destruct (String.eqb (key (vm a)) k); [discriminate|exact IH].
Qed.

Lemma at_key_app_some k l it x : at_key k l = Some x -> at_key k (l ++ [it]) = Some x.
Proof.
  induction l as [|a l IH]; cbn; [discriminate|].
  destruct (String.eqb (key (vm a)) k); auto.
Qed.

Lemma at_key_map k f l :
  (forall it, key (vm (f it)) = key (vm it)) -> at_key k (map f l) = f <$> at_key k l.
Proof.
  intros Hf. induction l as [|a l IH]; cbn; [reflexivity|]. rewrite Hf.
  destruct (String.eqb (key (vm a)) k); [reflexivity|exact IH].
Qed.

Lemma keys_insert k l i it it0 :
  l !! i = Some it0 -> key (vm it0) = k -> key (vm it) = k ->
  map (fun it => key (vm it)) (<[i := it]> l) = map (fun it => key (vm it)) l.
Proof.
  intros Hi H0 H1.
  change (map (fun it => key (vm it))) with (fmap (M := list) (fun it => key (vm it))).
  rewrite list_fmap_insert. apply list_insert_id. rewrite list_lookup_fmap, Hi. cbn. congruence.
Qed.

Lemma pushHistory_take text a h :
  Z.of_nat (length h) <= kHistoryCapacity ->
  pushHistory text a h = take 50 (mkHistory a text :: h).
Proof.
  unfold pushHistory, kHistoryCapacity. intros Hh. cbn [length].
  destruct (Z.ltb_spec 50 (Z.of_nat (S (length h)))) as [Hlt|Hge].
  - assert (Hlen : length h = 50%nat) by lia.
    rewrite List.removelast_firstn_len. cbn [length pred]. rewrite Hlen. reflexivity.
  - rewrite take_ge by (cbn [length]; lia). reflexivity.
Qed.

(** The events of [announce] with an audit callback. *)
Definition announced (activeChanged historyChanged : bool) (action k : string) : list center_event :=
  (if activeChanged then [AlertsChanged] else []) ++
  (if historyChanged then [HistoryChanged] else []) ++
  (if String.eqb action "" then [] else [AuditRecord action k]).

Lemma announce_eq a h action k c :
  auditFn_ c = true -> announce a h action k c = emit (announced a h action k) c.
Proof. intros H. unfold announce, announced, audit_events. rewrite H. reflexivity. Qed.

Lemma audits_app k l1 l2 : audits k (l1 ++ l2) = audits k l1 ++ audits k l2.
Proof. apply omap_app. Qed.
Lemma resolutions_app l1 l2 : resolutions (l1 ++ l2) = resolutions l1 ++ resolutions l2.
Proof. apply omap_app. Qed.

Lemma audits_announced a h action k k' :
  audits k' (announced a h action k) =
    if String.eqb action "" then [] else if String.eqb k k' then [action] else [].
Proof.
  unfold announced. rewrite !audits_app. destruct a, h, (String.eqb action ""); cbn; destruct (String.eqb k k'); reflexivity.
Qed.

Lemma resolutions_announced a h action k :
  resolutions (announced a h action k) = if String.eqb action "RESOLVE" then [k] else [].
Proof.
  unfold announced. rewrite !resolutions_app.
  destruct (String.eqb_spec action "") as [->|]; destruct a, h; cbn; try reflexivity;
    destruct (String.eqb action "RESOLVE"); reflexivity.
Qed.

Definition history_keys (c : AlertCenter) : list string := map (fun e => key (alert e)) (history_ c).

(** One operation, seen from each key, the audit trail and the history. *)
Definition good_step (c : AlertCenter) (o : center_op) (c' : AlertCenter) : Prop :=
  center_ok c' /\ exists news, events c' = events c ++ news /\
    (forall k, key_step k o (status_of k c) = (status_of k c', audits k news)) /\
    (o <> ClearHistory -> history_keys c' = take 50 (reverse (resolutions news) ++ history_keys c)).

Lemma history_short c : center_ok c -> history_keys c = take 50 (history_keys c).
Proof.
  intros (_ & _ & _ & H). rewrite take_ge; [reflexivity|].
  unfold history_keys. rewrite length_map. unfold kHistoryCapacity in H. lia.
Qed.

(** An operation that does nothing. *)
Lemma nothing_good c o :
  center_ok c -> (forall k, key_step k o (status_of k c) = (status_of k c, [])) -> good_step c o c.
Proof.
  intros H Hk. split; [exact H|]. exists []. rewrite app_nil_r. split; [reflexivity|]. split; [exact Hk|].
  intros _. apply history_short. exact H.
Qed.

(** An operation that replaces the alarm of key [k]. *)
Lemma replace_good c o k i it it' a action :
  center_ok c -> findByKey k (alarms_ c) = Some i -> alarms_ c !! i = Some it ->
  key (vm it') = k -> alarm_ok it' -> action <> "RESOLVE" ->
  (forall k', key_step k' o (status_of k' c) =
     if String.eqb k k' then (Some (alarm_status it'), if String.eqb action "" then [] else [action])
     else (status_of k' c, [])) ->
  good_step c o (announce a false action k (set_alarms (<[i := it']> (alarms_ c)) c)).
Proof.
  intros Hok Hf Hi Hk' Hit' Hact Hspec. pose proof Hok as (Hnd & Hall & Haud & Hh).
  pose proof (findByKey_spec k (alarms_ c)) as Hs. rewrite Hf in Hs.
  destruct Hs as (it0 & Hi0 & Hk0 & _). rewrite Hi in Hi0. injection Hi0 as <-.
  rewrite announce_eq by exact Haud. split.
  - split; [|split; [|split]]; cbn; auto.
    + unfold keys. cbn. rewrite (keys_insert k _ i it' it Hi Hk0 Hk'). exact Hnd.
    + apply Forall_insert; assumption.
  - eexists. split; [reflexivity|]. split.
    + intros k'. rewrite Hspec, audits_announced. unfold status_of at 2. cbn [emit set_alarms alarms_].
      rewrite (at_key_insert k k' _ i it' Hf Hk'). destruct (String.eqb k k'); [reflexivity|].
      destruct (String.eqb action ""); reflexivity.
    + intros _. rewrite resolutions_announced. apply String.eqb_neq in Hact. rewrite Hact.
      exact (history_short c Hok).
Qed.

Lemma NoDup_delete_keys l i :
  NoDup (map (fun it => key (vm it)) l) -> NoDup (map (fun it => key (vm it)) (delete i l)).
Proof.
  intros H. eapply sublist_NoDup; [exact H|].
  change (map (fun it => key (vm it))) with (fmap (M := list) (fun it => key (vm it))).
  apply fmap_sublist. apply sublist_delete.
Qed.

Lemma pushHistory_short text a h :
  Z.of_nat (length h) <= kHistoryCapacity -> Z.of_nat (length (pushHistory text a h)) <= kHistoryCapacity.
Proof. intros H. rewrite pushHistory_take by exact H. rewrite length_take. unfold kHistoryCapacity. lia. Qed.

(** An operation that resolves the alarm of key [k]. *)
Lemma remove_good c o k i it text :
  center_ok c -> findByKey k (alarms_ c) = Some i -> alarms_ c !! i = Some it ->
  (forall k', key_step k' o (status_of k' c) =
     if String.eqb k k' then (None, ["RESOLVE"]) else (status_of k' c, [])) ->
  good_step c o (announce true true "RESOLVE" k (set_alarms (delete i (alarms_ c)) (push_history text (vm it) c))).
Proof.
  intros Hok Hf Hi Hspec. pose proof Hok as (Hnd & Hall & Haud & Hh).
  pose proof (findByKey_spec k (alarms_ c)) as Hs. rewrite Hf in Hs.
  destruct Hs as (it0 & Hi0 & Hk0 & _). rewrite Hi in Hi0. injection Hi0 as <-.
  rewrite announce_eq by exact Haud. split.
  - split; [|split; [|split]]; cbn; auto.
    + unfold keys. cbn. apply NoDup_delete_keys, Hnd.
    + apply Forall_delete. exact Hall.
    + apply pushHistory_short. exact Hh.
  - eexists. split; [reflexivity|]. split.
    + intros k'. rewrite Hspec, audits_announced. unfold status_of at 2. cbn [emit set_alarms alarms_].
      rewrite (at_key_delete k k' _ i Hnd Hf). destruct (String.eqb k k'); reflexivity.
    + intros _. rewrite resolutions_announced. unfold history_keys. cbn.
      rewrite pushHistory_take by exact Hh. rewrite <- Hk0.
      change (map (fun e => key (alert e))) with (fmap (M := list) (fun e => key (alert e))).
      rewrite fmap_take. reflexivity.
Qed.

Lemma found_status k c i it :
  center_ok c -> findByKey k (alarms_ c) = Some i -> alarms_ c !! i = Some it ->
  status_of k c = Some (alarm_status it) /\ key (vm it) = k /\ alarm_ok it.
Proof.
  intros (_ & Hall & _ & _) Hf Hi. pose proof (findByKey_spec k (alarms_ c)) as Hs. rewrite Hf in Hs.
  destruct Hs as (it0 & Hi0 & Hk & Hat). rewrite Hi in Hi0. injection Hi0 as <-.
  unfold status_of. rewrite Hat. split; [reflexivity|]. split; [exact Hk|].
  eapply Forall_lookup_1; eassumption.
Qed.

Lemma missing_status k c : findByKey k (alarms_ c) = None -> status_of k c = None.
Proof.
  intros Hf. pose proof (findByKey_spec k (alarms_ c)) as Hs. rewrite Hf in Hs. unfold status_of.
  rewrite (proj1 Hs). reflexivity.
Qed.

(** [at_found Hok]: case analysis on the search for a key. *)
Ltac at_found Hok k :=
  match goal with
  | |- context [findByKey k (alarms_ ?c)] =>
      let Hf := fresh "Hf" in let Hi := fresh "Hi" in
      pose proof (findByKey_spec k (alarms_ c)) as Hf;
      destruct (findByKey k (alarms_ c)) as [i|] eqn:Hfind;
      [destruct Hf as (it & Hi & _ & _); rewrite Hi;
       destruct (found_status k c i it Hok Hfind Hi) as (Hst & Hkey & Hitok)
      |clear Hf; pose proof (missing_status k c Hfind) as Hst]
  end.

(** [key_cases k]: compare the viewed key with [k]. *)
Ltac key_cases k :=
  let k' := fresh "k'" in intros k';
  destruct (String.eqb_spec k k') as [<-|Hne]; cbn [key_step];
  [try match goal with H : status_of k _ = _ |- _ => rewrite H end; rewrite ?String.eqb_refl
  |rewrite ?(proj2 (String.eqb_neq _ _) Hne)].

Ltac other_key := repeat case_match; reflexivity.

Lemma unshelve_good k c : center_ok c -> good_step c (Unshelve k) (unshelve k c).
Proof.
  intros Hok. unfold unshelve. at_found Hok k.
  - case_bool_decide as Hs.
    + apply (replace_good c _ k i it); [exact Hok|exact Hfind|exact Hi|exact Hkey|unfold alarm_ok; cbn; destruct (conditionActive it); reflexivity|discriminate|].
      key_cases k; [|other_key]. unfold alarm_status. rewrite Hs. reflexivity.
    + apply nothing_good; [exact Hok|]. key_cases k; [|other_key].
      unfold alarm_status. destruct (alarm_state (vm it)); try reflexivity. congruence.
  - apply nothing_good; [exact Hok|]. key_cases k; [reflexivity|other_key].
Qed.

Lemma shelve_good now k d c : center_ok c -> good_step c (Shelve now k d) (shelve now k d c).
Proof.
  intros Hok. unfold shelve. at_found Hok k.
  - apply (replace_good c _ k i it); [exact Hok|exact Hfind|exact Hi|exact Hkey|exact I|discriminate|]. key_cases k; [reflexivity|other_key].
  - apply nothing_good; [exact Hok|]. key_cases k; [reflexivity|other_key].
Qed.

Lemma acknowledge_good text k c : center_ok c -> good_step c (Acknowledge text k) (acknowledge text k c).
Proof.
  intros Hok. unfold acknowledge. at_found Hok k.
  - unfold alarm_status, alarm_ok in *. destruct (alarm_state (vm it)) eqn:Hs.
    + apply (replace_good c _ k i it); [exact Hok|exact Hfind|exact Hi|exact Hkey|exact Hitok|discriminate|]. key_cases k; [reflexivity|other_key].
    + apply nothing_good; [exact Hok|]. key_cases k; [reflexivity|other_key].
    + apply (remove_good c _ k i it); [exact Hok|exact Hfind|exact Hi|]. key_cases k; [reflexivity|other_key].
    + apply nothing_good; [exact Hok|]. key_cases k; [reflexivity|other_key].
  - apply nothing_good; [exact Hok|]. key_cases k; [reflexivity|other_key].
Qed.

(** A change without any event. *)
Lemma silent_announce c : emit [] c = c.
Proof. destruct c. unfold emit. cbn. rewrite app_nil_r. reflexivity. Qed.

Lemma clear_good text k c : center_ok c -> good_step c (Clear text k) (clear text k c).
Proof.
  intros Hok. unfold clear. at_found Hok k.
  2:{ apply nothing_good; [exact Hok|]. key_cases k; [reflexivity|other_key]. }
  assert (Hquiet : forall s, alarm_state (vm it) = s -> s = RtnUnack \/ s = Shelved ->
    good_step c (Clear text k) (set_alarms (<[i := mkAlarm (vm it) false (shelvedUntil it)]> (alarms_ c)) c)).
  { intros s Hs Hcases.
    pose proof (replace_good c (Clear text k) k i it (mkAlarm (vm it) false (shelvedUntil it)) false "" Hok Hfind) as Hr.
    rewrite announce_eq in Hr by apply Hok. cbn [announced app String.eqb] in Hr. rewrite silent_announce in Hr.
    apply Hr; [exact Hi|exact Hkey| |discriminate|].
    - unfold alarm_ok. cbn. rewrite Hs. destruct Hcases as [-> | ->]; reflexivity || exact I.
    - key_cases k; [|other_key]. unfold alarm_status. cbn [vm conditionActive shelvedUntil]. rewrite Hs.
      destruct Hcases as [-> | ->]; reflexivity. }
  unfold alarm_status, alarm_ok in *. destruct (alarm_state (vm it)) eqn:Hs; eauto.
  - apply (replace_good c _ k i it); [exact Hok|exact Hfind|exact Hi|exact Hkey|reflexivity|discriminate|]. key_cases k; [reflexivity|other_key].
  - apply (remove_good c _ k i it); [exact Hok|exact Hfind|exact Hi|]. key_cases k; [reflexivity|other_key].
Qed.

Lemma raise_good text a c : center_ok c -> good_step c (Raise text a) (raise text a c).
Proof.
  intros Hok. unfold raise. set (stamped := if String.eqb (timestamp a) "" then _ else a).
  assert (Hkeys : key stamped = key a) by (unfold stamped; destruct (String.eqb (timestamp a) ""); reflexivity).
  cbv zeta. rewrite Hkeys. at_found Hok (key a).
  - unfold alarm_status, alarm_ok in *. case_bool_decide as Hr.
    + apply (replace_good c _ (key a) i it); [exact Hok|exact Hfind|exact Hi|exact Hkeys|reflexivity|discriminate|].
      key_cases (key a); [|other_key]. rewrite Hr. reflexivity.
    + apply (replace_good c _ (key a) i it); [exact Hok|exact Hfind|exact Hi|exact Hkeys| |discriminate|].
      * unfold alarm_ok. cbn. destruct (alarm_state (vm it)); auto; congruence.
      * key_cases (key a); [|other_key]. unfold alarm_status. cbn. destruct (alarm_state (vm it)); reflexivity || congruence.
  - pose proof Hok as (Hnd & Hall & Haud & Hh). rewrite announce_eq by exact Haud.
    pose proof (findByKey_spec (key a) (alarms_ c)) as Hs. rewrite Hfind in Hs. destruct Hs as [Hat Hfresh]. split.
    + split; [|split; [|split]]; cbn; auto.
      * unfold keys. cbn. rewrite map_app. cbn. rewrite Hkeys. apply NoDup_app.
        split; [exact Hnd|]. split; [|apply NoDup_singleton]. intros x Hx Hin. apply list_elem_of_singleton in Hin. subst x. auto.
      * apply Forall_app. split; [exact Hall|]. repeat constructor.
    + eexists. split; [reflexivity|]. split.
      * key_cases (key a); rewrite audits_announced; cbn [String.eqb]; unfold status_of; cbn [emit set_alarms alarms_].
        -- rewrite String.eqb_refl, at_key_snoc by exact Hat. cbn [vm set_state key]. rewrite Hkeys, String.eqb_refl. reflexivity.
        -- rewrite (proj2 (String.eqb_neq _ _) Hne). destruct (at_key k' (alarms_ c)) eqn:E.
           ++ rewrite (at_key_app_some _ _ _ _ E). cbn. repeat case_match; reflexivity.
           ++ rewrite at_key_snoc by exact E. cbn [vm set_state key]. rewrite Hkeys, (proj2 (String.eqb_neq _ _) Hne). reflexivity.
      * intros _. rewrite resolutions_announced. exact (history_short c Hok).
Qed.

(** Records of one action for several keys. *)
Lemma audits_each k action ks :
  NoDup ks -> audits k (flat_map (fun k => [AuditRecord action k]) ks) = if decide (k ∈ ks) then [action] else [].
Proof.
  induction 1 as [|x ks Hx Hnd IH]; [reflexivity|]. cbn [flat_map]. rewrite audits_app, IH. cbn.
  destruct (String.eqb_spec x k) as [->|Hne].
  - rewrite (decide_True (P := k ∈ k :: ks)) by (left; reflexivity). rewrite decide_False by exact Hx. reflexivity.
  - cbn. destruct (decide (k ∈ ks)) as [Hin|Hout].
    + rewrite decide_True by (right; exact Hin). reflexivity.
    + rewrite decide_False; [reflexivity|]. rewrite elem_of_cons. intros [->|]; auto.
Qed.

Lemma resolutions_each action ks :
  resolutions (flat_map (fun k => [AuditRecord action k]) ks) = if String.eqb action "RESOLVE" then ks else [].
Proof.
  induction ks as [|x ks IH]; [destruct (String.eqb action "RESOLVE"); reflexivity|].
  cbn [flat_map]. rewrite resolutions_app, IH. cbn. destruct (String.eqb action "RESOLVE"); reflexivity.
Qed.

Lemma at_key_in l it :
  NoDup (map (fun it => key (vm it)) l) -> it ∈ l -> at_key (key (vm it)) l = Some it.
Proof.
  induction l as [|a l IH]; cbn; intros Hnd Hin; [inversion Hin|].
  apply NoDup_cons in Hnd as [Hfresh Hnd]. apply elem_of_cons in Hin as [->|Hin]; [rewrite String.eqb_refl; reflexivity|].
  destruct (String.eqb_spec (key (vm a)) (key (vm it))) as [E|E]; [|apply IH; assumption].
  exfalso. apply Hfresh. rewrite E. apply (list_elem_of_fmap_2 (fun it => key (vm it))). exact Hin.
Qed.

Lemma at_key_some k l it : at_key k l = Some it -> it ∈ l /\ key (vm it) = k.
Proof.
  unfold at_key. intros H. apply List.find_some in H as [Hin Hk]. apply String.eqb_eq in Hk.
  split; [apply list_elem_of_In; exact Hin|exact Hk].
Qed.

(** The keys of the alarms that pass a test. *)
Lemma filtered_keys k (p : Alarm -> bool) l :
  NoDup (map (fun it => key (vm it)) l) ->
  k ∈ map (fun it => key (vm it)) (filter (fun it => p it) l) <-> (exists it, at_key k l = Some it /\ p it = true).
Proof.
  intros Hnd. change (map (fun it => key (vm it))) with (fmap (M := list) (fun it => key (vm it))).
  rewrite list_elem_of_fmap. split.
  - intros (it & -> & Hin). apply list_elem_of_filter in Hin as [Hp Hin]. exists it.
    split; [apply at_key_in; assumption|apply Is_true_true; exact Hp].
  - intros (it & Hat & Hp). apply at_key_some in Hat as [Hin Hk]. exists it. split; [auto|].
    apply list_elem_of_filter. split; [apply Is_true_true; exact Hp|exact Hin].
Qed.

Lemma filtered_keys_NoDup (p : Alarm -> bool) l :
  NoDup (map (fun it => key (vm it)) l) -> NoDup (map (fun it => key (vm it)) (filter (fun it => p it) l)).
Proof.
  intros H. eapply sublist_NoDup; [exact H|].
  change (map (fun it => key (vm it))) with (fmap (M := list) (fun it => key (vm it))).
  apply fmap_sublist. apply sublist_filter.
Qed.

Lemma audit_events_on c action : auditFn_ c = true -> audit_events c action = fun k => [AuditRecord action k].
Proof. unfold audit_events. intros ->. reflexivity. Qed.

Lemma map_keys_same (f : Alarm -> Alarm) l :
  (forall it, key (vm (f it)) = key (vm it)) ->
  map (fun it => key (vm it)) (map f l) = map (fun it => key (vm it)) l.
Proof. intros Hf. rewrite map_map. apply map_ext. exact Hf. Qed.

Lemma alarm_tick_good now c : center_ok c -> good_step c (Tick now) (tick now c).
Proof.
  intros Hok. pose proof Hok as (Hnd & Hall & Haud & Hh). unfold tick.
  set (ks := map _ (filter _ _)). set (f := fun it => if expired now it then off_shelf it else it). cbv zeta.
  assert (Hf : forall it, key (vm (f it)) = key (vm it)) by (intros it; unfold f; destruct (expired now it); reflexivity).
  assert (Hks : NoDup ks) by (apply filtered_keys_NoDup, Hnd).
  rewrite (audit_events_on (set_alarms _ c) "EXPIRE" Haud). split.
  - split; [|split; [|split]]; cbn; auto.
    + unfold keys. cbn. rewrite map_keys_same by exact Hf. exact Hnd.
    + change (map f) with (fmap (M := list) f). apply Forall_fmap. eapply Forall_impl; [exact Hall|]. intros it Hit.
      unfold compose, f. destruct (expired now it); [|exact Hit]. unfold alarm_ok, off_shelf. cbn. destruct (conditionActive it); reflexivity.
  - eexists. split; [reflexivity|]. split.
    + intros k. rewrite audits_app, audits_each by exact Hks.
      replace (audits k (if bool_decide (ks = []) then [] else [AlertsChanged])) with (@nil string)
        by (case_bool_decide; reflexivity).
      cbn [app]. unfold status_of. cbn [emit set_alarms alarms_]. rewrite (at_key_map k f _ Hf).
      pose proof (filtered_keys k (expired now) (alarms_ c) Hnd) as Hin. fold ks in Hin.
      destruct (at_key k (alarms_ c)) as [it|]; cbn [fmap option_fmap option_map].
      * unfold alarm_status, f. unfold expired in *. cbn [key_step].
        destruct (bool_decide_reflect (alarm_state (vm it) = Shelved)) as [Hs|Hs]; cbn [andb] in *.
        -- rewrite Hs. destruct (shelvedUntil it <=? now) eqn:Hle.
           ++ rewrite decide_True by (apply Hin; exists it; rewrite bool_decide_eq_true_2 by exact Hs; auto). reflexivity.
           ++ rewrite decide_False; [rewrite Hs; reflexivity|]. intros H. apply Hin in H as (it' & [= <-] & He).
              rewrite Hle, andb_false_r in He. discriminate.
        -- rewrite decide_False.
           2:{ intros H. apply Hin in H as (it' & [= <-] & He). rewrite bool_decide_eq_false_2 in He by exact Hs. discriminate. }
           destruct (alarm_state (vm it)); try reflexivity. congruence.
      * rewrite decide_False; [reflexivity|]. intros H. apply Hin in H as (it' & [=] & _).
    + intros _. rewrite resolutions_app, resolutions_each.
      replace (resolutions (if bool_decide (ks = []) then [] else [AlertsChanged])) with (@nil string)
        by (case_bool_decide; reflexivity).
      exact (history_short c Hok).
Qed.

Lemma take_app_take {A} n (l1 l2 : list A) : take n (l1 ++ take n l2) = take n (l1 ++ l2).
Proof. rewrite !take_app. f_equal. rewrite take_take. f_equal. lia. Qed.

(** Resolving every alarm, oldest first. *)
Lemma push_all text l : forall c,
  Z.of_nat (length (history_ c)) <= kHistoryCapacity ->
  let c' := fold_left (fun c it => push_history text (vm it) c) l c in
  Z.of_nat (length (history_ c')) <= kHistoryCapacity /\
  history_keys c' = take 50 (reverse (map (fun it => key (vm it)) l) ++ history_keys c) /\
  alarms_ c' = alarms_ c /\ auditFn_ c' = auditFn_ c /\ events c' = events c.
Proof.
  induction l as [|it l IH]; intros c Hh; cbn [fold_left map].
  - cbv zeta. split; [exact Hh|]. split; [|auto]. cbn. rewrite take_ge; [reflexivity|].
    unfold history_keys. rewrite length_map. unfold kHistoryCapacity in Hh. lia.
  - destruct (IH (push_history text (vm it) c)) as (H1 & H2 & H3 & H4 & H5); [apply pushHistory_short; exact Hh|].
    assert (Hk : history_keys (push_history text (vm it) c) = take 50 (key (vm it) :: history_keys c)).
    { unfold history_keys. cbn. rewrite pushHistory_take by exact Hh.
      change (map (fun e => key (alert e))) with (fmap (M := list) (fun e => key (alert e))).
      rewrite fmap_take. reflexivity. }
    cbv zeta in *. split; [exact H1|]. split; [|auto]. rewrite H2, Hk, reverse_cons, <- app_assoc. apply take_app_take.
Qed.

Lemma clearAll_good text c : center_ok c -> good_step c (ClearAll text) (clearAll text c).
Proof.
  intros Hok. pose proof Hok as (Hnd & Hall & Haud & Hh). unfold clearAll.
  destruct (alarms_ c) as [|a l] eqn:Hl.
  - apply nothing_good; [exact Hok|]. intros k. unfold status_of. rewrite Hl. reflexivity.
  - rewrite <- Hl. destruct (push_all text (alarms_ c) c Hh) as (H1 & H2 & H3 & H4 & H5). cbv zeta in *.
    set (c1 := fold_left _ _ c) in *.
    rewrite (audit_events_on (set_alarms [] c1) "RESOLVE") by (cbn; congruence). split.
    + split; [constructor|]. split; [constructor|]. split; [cbn; congruence|exact H1].
    + eexists. split; [cbn; rewrite H5; reflexivity|]. split.
      * intros k. change ([AlertsChanged; HistoryChanged] ++ ?t) with (AlertsChanged :: HistoryChanged :: t).
        change (audits k (AlertsChanged :: HistoryChanged :: ?t)) with (audits k t).
        rewrite audits_each by exact Hnd. unfold status_of. cbn [emit set_alarms alarms_].
        destruct (at_key k (alarms_ c)) as [it|] eqn:Hat.
        -- apply at_key_some in Hat as [Hin <-].
           rewrite decide_True by (apply (list_elem_of_fmap_2 (fun it => key (vm it))); exact Hin).
           cbn. destruct (alarm_state (vm it)); reflexivity.
        -- rewrite decide_False; [reflexivity|].
           intros Hin. change (map (fun it => key (vm it))) with (fmap (M := list) (fun it => key (vm it))) in Hin.
           apply list_elem_of_fmap in Hin as (it & -> & Hin). rewrite (at_key_in _ it Hnd Hin) in Hat. discriminate.
      * intros _. change (resolutions (AlertsChanged :: HistoryChanged :: ?t)) with (resolutions t).
        rewrite resolutions_each. exact H2.
Qed.

Lemma clearHistory_good c : center_ok c -> good_step c ClearHistory (clearHistory c).
Proof.
  intros Hok. unfold clearHistory. destruct (history_ c) eqn:Hh.
  - apply nothing_good; [exact Hok|]. intros k. destruct (status_of k c) as [[[[] ?] ?]|]; reflexivity.
  - pose proof Hok as (Hnd & Hall & Haud & _). split.
    + split; [exact Hnd|]. split; [exact Hall|]. split; [exact Haud|]. cbn. unfold kHistoryCapacity. lia.
    + exists [HistoryChanged]. split; [reflexivity|]. split; [|congruence].
      intros k. change (status_of k (emit _ _)) with (status_of k c).
      destruct (status_of k c) as [[[[] ?] ?]|]; reflexivity.
Qed.

Lemma retranslate_vm_same run a :
  translates run -> key (retranslate_vm run a) = key a /\ alarm_state (retranslate_vm run a) = alarm_state a /\
    priority (retranslate_vm run a) = priority a.
Proof. intros H. unfold retranslate_vm. destruct (vm_retranslate a); [apply H|auto]. Qed.

Lemma retranslate_good run c : center_ok c -> translates run -> good_step c (Retranslate run) (retranslate run c).
Proof.
  intros Hok Hrun. pose proof Hok as (Hnd & Hall & Haud & Hh). unfold retranslate. cbv zeta.
  rewrite announce_eq by exact Haud.
  set (f := fun it => mkAlarm _ _ _). set (g := fun e => mkHistory _ _).
  assert (Hf : forall it, key (vm (f it)) = key (vm it)) by (intros it; apply retranslate_vm_same; exact Hrun).
  assert (Hst : forall it, alarm_status (f it) = alarm_status it).
  { intros it. unfold alarm_status. cbn. destruct (retranslate_vm_same run (vm it) Hrun) as (_ & -> & _). reflexivity. }
  split.
  - split; [|split; [|split]]; cbn; auto.
    + unfold keys. cbn. rewrite map_keys_same by exact Hf. exact Hnd.
    + change (map f) with (fmap (M := list) f). apply Forall_fmap. eapply Forall_impl; [exact Hall|].
      intros it. unfold compose, alarm_ok. cbn. destruct (retranslate_vm_same run (vm it) Hrun) as (_ & -> & _). auto.
    + rewrite length_map. exact Hh.
  - eexists. split; [reflexivity|]. split.
    + intros k. rewrite audits_announced. unfold status_of. cbn [emit alarms_]. rewrite (at_key_map k f _ Hf).
      destruct (at_key k (alarms_ c)) as [it|]; [|reflexivity]. cbn [fmap option_fmap option_map].
      rewrite Hst. unfold alarm_status. cbn. destruct (alarm_state (vm it)); reflexivity.
    + intros _. rewrite resolutions_announced. cbn [String.eqb].
      assert (Hg : history_keys (emit (announced (existsb (fun it => match vm_retranslate (vm it) with Some _ => true | None => false end) (alarms_ c))
        (existsb (fun e => match vm_retranslate (alert e) with Some _ => true | None => false end) (history_ c)) "" "")
        (mkCenter (map f (alarms_ c)) (map g (history_ c)) (auditFn_ c) (events c))) = history_keys c).
      { unfold history_keys. cbn. rewrite map_map. apply map_ext. intros e. apply retranslate_vm_same. exact Hrun. }
      etransitivity; [exact Hg|]. exact (history_short c Hok).
Qed.

Lemma center_step c o : center_ok c -> center_op_ok o -> good_step c o (center_apply c o).
Proof.
  intros Hok Ho. destruct o; cbn [center_apply center_op_ok] in *;
    auto using raise_good, clear_good, acknowledge_good, shelve_good, unshelve_good, alarm_tick_good, clearAll_good,
      clearHistory_good, retranslate_good.
Qed.

Lemma center_run_from l : forall c,
  center_ok c -> Forall center_op_ok l ->
  let c' := fold_left center_apply l c in
  center_ok c' /\ exists news, events c' = events c ++ news /\
    (forall k, key_run k l (status_of k c) = (status_of k c', audits k news)) /\
    (ClearHistory ∉ l -> history_keys c' = take 50 (reverse (resolutions news) ++ history_keys c)) .
Proof.
  induction l as [|o l IH]; intros c Hok Hl; cbn [fold_left].
  - split; [exact Hok|]. exists []. rewrite app_nil_r. split; [reflexivity|]. split; [reflexivity|].
    intros _. apply history_short. exact Hok.
  - apply Forall_cons in Hl as [Ho Hl].
    destruct (center_step c o Hok Ho) as (Hok1 & n1 & E1 & Hk1 & Hh1).
    destruct (IH _ Hok1 Hl) as (Hok' & n2 & E2 & Hk2 & Hh2). cbv zeta in *.
    split; [exact Hok'|]. exists (n1 ++ n2). rewrite E2, E1, app_assoc. split; [reflexivity|]. split.
    + intros k. cbn [key_run]. rewrite Hk1, Hk2, audits_app. reflexivity.
    + rewrite not_elem_of_cons. intros [Hne Hnot]. rewrite (Hh2 Hnot), (Hh1 (not_eq_sym Hne)).
      rewrite resolutions_app, reverse_app, <- app_assoc. apply take_app_take.
Qed.

Lemma center_init_ok : center_ok (setAuditCallback true center_init).
Proof. split; [constructor|]. split; [constructor|]. split; [reflexivity|]. cbn. unfold kHistoryCapacity. lia. Qed.

(** The stable sort. *)
Lemma insert_perm a l : insert_by_priority a l ≡ₚ a :: l.
Proof.
  induction l as [|b l IH]; cbn; [reflexivity|]. case_match; [reflexivity|].
  rewrite IH. apply perm_swap.
Qed.

Lemma stable_sort_perm l : stable_sort_priority l ≡ₚ l.
Proof. induction l as [|a l IH]; cbn; [reflexivity|]. rewrite insert_perm. f_equiv. exact IH. Qed.

Lemma insert_sorted a l :
  StronglySorted (fun a b => priority a <= priority b) l ->
  StronglySorted (fun a b => priority a <= priority b) (insert_by_priority a l).
Proof.
  induction 1 as [|b l Hs IH Hb]; cbn; [repeat constructor|]. destruct (Z.leb_spec (priority a) (priority b)).
  - constructor; [constructor; assumption|]. constructor; [assumption|].
    eapply Forall_impl; [exact Hb|]. cbn. lia.
  - constructor; [exact IH|]. rewrite insert_perm. constructor; [lia|exact Hb].
Qed.

Lemma stable_sort_sorted l : StronglySorted (fun a b => priority a <= priority b) (stable_sort_priority l).
Proof. induction l as [|a l IH]; cbn; [constructor|]. apply insert_sorted. exact IH. Qed.

Lemma insert_stable p a l :
  filter (fun x => priority x = p) (insert_by_priority a l) = filter (fun x => priority x = p) (a :: l).
Proof.
  induction l as [|b l IH]; cbn [insert_by_priority]; [reflexivity|].
  destruct (Z.leb_spec (priority a) (priority b)) as [|Hlt]; [reflexivity|].
  rewrite filter_cons, IH, !filter_cons.
  destruct (decide (priority a = p)), (decide (priority b = p)); try reflexivity. lia.
Qed.

Lemma stable_sort_stable p l :
  filter (fun x => priority x = p) (stable_sort_priority l) = filter (fun x => priority x = p) l.
Proof.
  induction l as [|a l IH]; [reflexivity|]. cbn [stable_sort_priority foldr].
  rewrite insert_stable, !filter_cons. fold (stable_sort_priority l). rewrite IH. reflexivity.
Qed.

(* ------------------------------------------------------------------ *)
(** ** Properties *)

(** C12: The alarm lifecycle. For every sequence of operations and every alarm
    key, whatever happens to the other keys, the alarm is in the state the
    lifecycle of a single alarm gives (an active alarm leaves only once it is
    both acknowledged and returned to normal, or everything is cleared; a
    shelved alarm comes back unacknowledged), and the audit trail of the key
    is exactly the sequence of its transitions. *)
Theorem alert_lifecycle l k :
  Forall center_op_ok l ->
  key_run k l None = (status_of k (center_run l), audits k (events (center_run l))).
Proof.
  intros Hl. destruct (center_run_from l _ center_init_ok Hl) as (_ & news & E & Hk & _). cbv zeta in *.
  unfold center_run. rewrite E. apply Hk.
Qed.

(** The operator's views. After every sequence of operations the keys are
    unique and the state of each alarm agrees with its condition; the
    snapshot holds exactly the alarms that are not shelved, most urgent
    first, and alarms of equal priority in the order they were raised; the
    history has at most 50 entries and, unless it was cleared, is the last 50
    audited resolutions, newest first. *)
Theorem alert_views l :
  Forall center_op_ok l ->
  let c := center_run l in
  let shown := map vm (filter (fun it => alarm_state (vm it) <> Shelved) (alarms_ c)) in
  NoDup (keys c) /\ Forall alarm_ok (alarms_ c) /\
  snapshot c ≡ₚ shown /\ StronglySorted (fun a b => priority a <= priority b) (snapshot c) /\
  (forall p, filter (fun a => priority a = p) (snapshot c) = filter (fun a => priority a = p) shown) /\
  Z.of_nat (length (history_ c)) <= kHistoryCapacity /\
  (ClearHistory ∉ l -> history_keys c = take 50 (reverse (resolutions (events c)))).
Proof.
  intros Hl. destruct (center_run_from l _ center_init_ok Hl) as ((Hnd & Hall & _ & Hh) & news & E & _ & Hhist).
  cbv zeta in *. split; [exact Hnd|]. split; [exact Hall|]. split; [apply stable_sort_perm|].
  split; [apply stable_sort_sorted|]. split; [intros p; apply stable_sort_stable|]. split; [exact Hh|].
  intros Hnot. rewrite <- (app_nil_r (reverse _)). unfold center_run. rewrite E. apply Hhist. exact Hnot.
Qed.

(* ------------------------------------------------------------------ *)
(** ** Witnesses *)

Definition demo_alert (k : string) (p : Z) : AlertViewModel := mkAlert k Critical k "" "" UnackActive p None.

Definition demo_alarms : list center_op :=
  [Raise "t" (demo_alert "temp" 2); Raise "t" (demo_alert "stop" 1); Clear "t" "temp"; Shelve 0 "stop" 5;
   Acknowledge "t" "temp"; Tick 6000000000; Retranslate (fun _ a => a)].

Lemma demo_alarms_ok : Forall center_op_ok demo_alarms.
Proof. repeat constructor. Qed.

Example demo_trail :
  key_run "stop" demo_alarms None = (Some (UnackActive, true, 0), ["RAISE"; "SHELVE"; "EXPIRE"]) /\
  key_run "temp" demo_alarms None = (None, ["RAISE"; "RTN"; "RESOLVE"]).
Proof. split; vm_compute; reflexivity. Qed.

Lemma alert_lifecycle_witness :
  key_run "stop" demo_alarms None =
    (status_of "stop" (center_run demo_alarms), audits "stop" (events (center_run demo_alarms))).
Proof. apply (alert_lifecycle demo_alarms "stop" demo_alarms_ok). Defined.

Lemma alert_views_witness : NoDup (keys (center_run demo_alarms)).
Proof. apply (alert_views demo_alarms demo_alarms_ok). Defined.
