(* ===== verification/Dashboard.v ===== *)
(** * Dashboard presenter: alarms and view models
    (src/presenter/DashboardPresenter.cpp, BasePresenter.h, modelview/)

    The presenter subscribes to the production model, turns what it is told
    into view models for its observers and into alarms of the alarm centre.
    Handlers read the model while they run, so each takes the model as a
    callback sees it; the wall-clock text and the steady clock are read
    through two streams. The operator's commands are in Users. Properties:
    the alarms and the views follow the model, for every interleaving of
    model operations and operator actions on the alarms. *)
From stdpp Require Import pretty gmap strings.
From S2P Require Import Prelude Float32 Float64 Format StdMap SystemState ModbusIngest SimulatedModel ModelNews AlertCenter.
Local Open Scope string_scope.
Local Open Scope Z_scope.
Local Open Scope list_scope.

(* ------------------------------------------------------------------ *)
(** ** View models *)

Module View.
Inductive EquipmentCardStatus :=
| Offline | StartingUp | CheckOutput | Online | Processing | WarmingUp | Ready | Reboot | Error | Disabled | Unknown.

Record EquipmentCardViewModel := mkEquipmentCard {
  ec_equipmentId : Z;
  ec_status : EquipmentCardStatus;
  consumables : string;
  messageStatus : string;
  ec_imagePath : string;
  enabled : bool;
}.

Inductive ActuatorCardStatus := AOffline | Idle | Working | AError | Homing | Calibrating | AUnknown.

Record ActuatorCardViewModel := mkActuatorCard {
  ac_actuatorId : Z;
  ac_status : ActuatorCardStatus;
  statusMessage : string;
  ac_imagePath : string;
  ac_autoMode : bool;
  hasAlert : bool;
  atHomePosition : bool;
  alertMessage : string;
}.

Inductive QualityCheckpointStatus := Passing | QWarning | QCritical.

Record QualityCheckpointViewModel := mkQualityCard {
  qv_checkpointId : Z;
  qv_checkpointName : string;
  qv_status : QualityCheckpointStatus;
  qv_unitsInspected : Z;
  qv_defectsFound : Z;
  qv_passRate : float32;
  targetPassRate : float32;
  qv_lastDefect : string;
}.

Record WorkUnitViewModel := mkWorkUnitView {
  wv_workUnitId : string;
  wv_productId : string;
  productDescription : string;
  progress : float32;
  wv_totalOperations : Z;
  wv_completedOperations : Z;
  throughputUph : float64;
  wv_oeePct : float32;
  wv_statusMessage : string;
  isTestMode : bool;
  hasErrors : bool;
  errorMessage : string;
}.

Inductive ActiveControl := NoControl | StartControl | StopControl | ResetRestartControl | CalibrationControl.

Record ControlPanelViewModel := mkControlPanel {
  activeButton : ActiveControl;
  startEnabled : bool;
  stopEnabled : bool;
  resetRestartEnabled : bool;
  calibrationEnabled : bool;
}.

(** A notification of an observer. *)
Inductive view_event :=
| OnWorkUnitView (obs : nat) (vm : WorkUnitViewModel)
| OnEquipmentCard (obs : nat) (vm : EquipmentCardViewModel)
| OnActuatorCard (obs : nat) (vm : ActuatorCardViewModel)
| OnQualityView (obs : nat) (vm : QualityCheckpointViewModel)
| OnControlPanel (obs : nat) (vm : ControlPanelViewModel).
End View.
Import View.

#[export] Instance QualityCheckpointStatus_eq_dec : EqDecision QualityCheckpointStatus.
Proof. solve_decision. Defined.

(* ------------------------------------------------------------------ *)
(** ** View model builders *)

(** [gettext] of the active catalogue. *)
Definition catalogue : Type := string -> string.

Definition buildEquipmentVM (tr : catalogue) (id status : Z) : EquipmentCardViewModel :=
  let card s c en := mkEquipmentCard id s c "" "" en in
  if status =? 0 then card Offline (tr "Not connected") false
  else if status =? 1 then card Online (tr "Supply level: 85%") true
  else if status =? 2 then card Processing (tr "Supply level: 60%") true
  else if status =? 3 then card Error (tr "Low supply (12%)") false
  else card Unknown "" false.

Definition buildActuatorVM (tr : catalogue) (id status : Z) : ActuatorCardViewModel :=
  if status =? 0 then mkActuatorCard id Idle (tr "Idle - At home position") "" true false true ""
  else if status =? 1 then mkActuatorCard id Working (tr "Working - Position X:150 Y:200") "" true false false ""
  else if status =? 2 then
    mkActuatorCard id AError (tr "Error - Position fault") "" true true false (tr "Position timeout detected")
  else mkActuatorCard id AUnknown "" "" false false false "".

Definition kQualityPassThreshold : float32 := f32_of_Z 95.
Definition kQualityWarningThreshold : float32 := f32_of_Z 90.

(** [a >= b] on floats. *)
Definition f32_geb (a b : float32) : bool := f32_leb b a.

Definition quality_status (rate : float32) : QualityCheckpointStatus :=
  if f32_geb rate kQualityPassThreshold then Passing
  else if f32_geb rate kQualityWarningThreshold then QWarning
  else QCritical.

Definition buildControlPanelVM (s : SystemState) : ControlPanelViewModel :=
  match s with
  | IDLE => mkControlPanel NoControl true false true true
  | RUNNING => mkControlPanel StartControl false true false false
  | ERROR => mkControlPanel NoControl false false true false
  | CALIBRATION => mkControlPanel CalibrationControl false true false false
  end.

Section Builders.
Context {G : Type} `{RG : RandomSource G}.
Implicit Types m : SimulatedModel G.

Definition buildQualityCheckpointVM m (id status : Z) : outcome QualityCheckpointViewModel :=
  cp ← getQualityCheckpoint m id;
  Ret (mkQualityCard id (qc_name cp) (quality_status (passRate cp)) (unitsInspected cp) (defectsFound cp)
         (passRate cp) (passRateTarget cp) (lastDefect cp)).

Definition buildWorkUnitVM m : WorkUnitViewModel :=
  let wu := getWorkUnit m in
  mkWorkUnitView (workUnitId wu) (productId wu) (description wu)
    (if 0 <? totalOperations wu
     then f32_div (f32_of_Z (completedOperations wu)) (f32_of_Z (totalOperations wu)) else f32_of_Z 0)
    (u32 (totalOperations wu)) (u32 (completedOperations wu))
    (throughputUnitsPerHour wu) (oeePct (oeeSnapshot m))
    (if completedOperations wu <? totalOperations wu
     then ("Processing operation " ++ to_string (completedOperations wu + 1) ++ "...")%string else "Complete")
    false false "".
End Builders.

(* ------------------------------------------------------------------ *)
(** ** The presenter *)

(** The [retranslate] callbacks the presenter installs, as data. *)
Inductive Closure :=
| EquipmentTexts (id : Z) (isError : bool)
| QualityTexts (isCritical : bool) (cpName : string) (rate target : float32)
| FaultTexts (reason : string).

(** Title and message of an alarm in a catalogue. *)
Definition texts (tr : catalogue) (c : Closure) : outcome (string * string) :=
  match c with
  | EquipmentTexts id isError =>
      title ← vformat (tr (if isError then "Equipment {} error" else "Equipment {} offline")) [FInt id];
      Ret (title, tr "Line unavailable for production.")
  | QualityTexts isCritical cpName rate target =>
      title ← vformat (tr (if isCritical then "{} critical" else "{} below target")) [FText cpName];
      message ← vformat (tr "Pass rate {:.1f}% (target {:.0f}%)") [FFloat rate; FFloat target];
      Ret (title, message)
  | FaultTexts reason =>
      Ret (tr "System fault", if String.eqb reason "" then tr "Production locked out." else reason)
  end.

Definition set_texts (t : string * string) (a : AlertViewModel) : AlertViewModel :=
  mkAlert (key a) (severity a) (fst t) (snd t) (timestamp a) (alarm_state a) (priority a) (vm_retranslate a).

(** The presenter with the objects it is wired to: the alarm centre (null when
    absent), the active catalogue, its observers and what they were shown, the
    installed callbacks, the values of [signalSystemStateChanged], and the
    number of clock readings so far. *)
Record Presenter := mkPresenter {
  observers_ : list nat;
  prevSystemState_ : SystemState;
  alertCenter_ : option AlertCenter;
  active_catalogue : catalogue;
  callbacks : list Closure;
  shown : list view_event;
  state_signals : list Z;
  readings : nat;
}.

Definition set_center c (p : Presenter) := mkPresenter (observers_ p) (prevSystemState_ p) c (active_catalogue p)
  (callbacks p) (shown p) (state_signals p) (S (readings p)).
Definition set_prev s (p : Presenter) := mkPresenter (observers_ p) s (alertCenter_ p) (active_catalogue p)
  (callbacks p) (shown p) (state_signals p) (readings p).
Definition set_catalogue tr (p : Presenter) := mkPresenter (observers_ p) (prevSystemState_ p) (alertCenter_ p) tr
  (callbacks p) (shown p) (state_signals p) (readings p).
Definition install cb (p : Presenter) := mkPresenter (observers_ p) (prevSystemState_ p) (alertCenter_ p)
  (active_catalogue p) (callbacks p ++ [cb]) (shown p) (state_signals p) (readings p).
Definition emit_state z (p : Presenter) := mkPresenter (observers_ p) (prevSystemState_ p) (alertCenter_ p)
  (active_catalogue p) (callbacks p) (shown p) (state_signals p ++ [z]) (readings p).
Definition set_observers l (p : Presenter) := mkPresenter l (prevSystemState_ p) (alertCenter_ p)
  (active_catalogue p) (callbacks p) (shown p) (state_signals p) (readings p).

Definition notifyAll (f : nat -> view_event) (p : Presenter) : Presenter :=
  mkPresenter (observers_ p) (prevSystemState_ p) (alertCenter_ p) (active_catalogue p)
    (callbacks p) (shown p ++ map f (observers_ p)) (state_signals p) (readings p).

Definition addObserver (obs : nat) (p : Presenter) : Presenter :=
  if decide (obs ∈ observers_ p) then p else set_observers (observers_ p ++ [obs]) p.

(** [erase] of the first occurrence. *)
Fixpoint erase_first (x : nat) (l : list nat) : list nat :=
  match l with [] => [] | y :: l => if Nat.eqb y x then l else y :: erase_first x l end.

Definition removeObserver (obs : nat) (p : Presenter) : Presenter := set_observers (erase_first obs (observers_ p)) p.

(** The numeric value of a state. *)
Definition state_value (s : SystemState) : Z := match s with IDLE => 0 | RUNNING => 1 | ERROR => 2 | CALIBRATION => 3 end.

(** Keys of the alarms. *)
Definition line_key (id : Z) : string := ("equipment-" ++ to_string id)%string.
Definition checkpoint_key (id : Z) : string := ("quality-" ++ to_string id)%string.
Definition kSystemErrorKey : string := "system-error".

(** The clocks: [steady n] and [wall n] are the [n]-th readings of the steady
    clock and of [formatNow]. *)
Class Clock := { steady : nat -> Z; wall : nat -> string }.

Section Presenter.
Context {G : Type} `{RG : RandomSource G} `{CK : Clock}.
Implicit Types m : SimulatedModel G.

(** Build an alert, render it in the active catalogue and raise it. *)
Definition raise_alarm (k : string) (sev : AlertSeverity) (prio : Z) (cb : Closure) (c : AlertCenter) (p : Presenter) :
    outcome Presenter :=
  t ← texts (active_catalogue p) cb;
  let a := set_texts t (mkAlert k sev "" "" "" UnackActive prio (Some (length (callbacks p)))) in
  Ret (set_center (Some (raise (wall (readings p)) a c)) (install cb p)).

Definition clear_alarm (k : string) (c : AlertCenter) (p : Presenter) : Presenter :=
  set_center (Some (clear (wall (readings p)) k c)) p.

Definition handleNewWorkUnit m (p : Presenter) : outcome Presenter :=
  let p := match alertCenter_ p with
           | Some c => set_center (Some (AlertCenter.tick (steady (readings p)) c)) p
           | None => p
           end in
  let vm := buildWorkUnitVM m in
  Ret (notifyAll (fun o => OnWorkUnitView o vm) p).

Definition handleEquipmentStatusUpdate (id status : Z) (p : Presenter) : outcome Presenter :=
  let vm := buildEquipmentVM (active_catalogue p) id status in
  let p := notifyAll (fun o => OnEquipmentCard o vm) p in
  match alertCenter_ p with
  | None => Ret p
  | Some c =>
      if (status =? 0) || (status =? 3) then
        raise_alarm (line_key id) (if status =? 3 then Critical else Warning)
          (if status =? 3 then kAlarmPriorityHigh else kAlarmPriorityMedium)
          (EquipmentTexts id (status =? 3)) c p
      else Ret (clear_alarm (line_key id) c p)
  end.

Definition handleActuatorStatusUpdate (id status : Z) (p : Presenter) : outcome Presenter :=
  let vm := buildActuatorVM (active_catalogue p) id status in
  Ret (notifyAll (fun o => OnActuatorCard o vm) p).

Definition handleQualityCheckpointUpdate m (id status : Z) (p : Presenter) : outcome Presenter :=
  vm ← buildQualityCheckpointVM m id status;
  let p := notifyAll (fun o => OnQualityView o vm) p in
  match alertCenter_ p with
  | None => Ret p
  | Some c =>
      match qv_status vm with
      | Passing => Ret (clear_alarm (checkpoint_key id) c p)
      | s =>
          let critical := bool_decide (s = QCritical) in
          raise_alarm (checkpoint_key id) (if critical then Critical else Warning)
            (if critical then kAlarmPriorityHigh else kAlarmPriorityMedium)
            (QualityTexts critical (qv_checkpointName vm) (qv_passRate vm) (targetPassRate vm)) c p
      end
  end.

Definition handleSystemStateChanged m (newState : SystemState) (p : Presenter) : outcome Presenter :=
  p ← match alertCenter_ p with
      | None => Ret p
      | Some c =>
          let nowError := bool_decide (newState = ERROR) in
          let wasError := bool_decide (prevSystemState_ p = ERROR) in
          p ← (if nowError && negb wasError then
                 raise_alarm kSystemErrorKey Critical kAlarmPriorityEmergency (FaultTexts (model_lastFaultReason m)) c p
               else if negb nowError && wasError then Ret (clear_alarm kSystemErrorKey c p)
               else Ret p);
          Ret (set_prev newState p)
      end;
  let vm := buildControlPanelVM (getState m) in
  Ret (emit_state (state_value newState) (notifyAll (fun o => OnControlPanel o vm) p)).

(** [initialize]: the five subscriptions; [handle] is what they call. *)
Definition initialize (me : nat) m : SimulatedModel G :=
  onSystemStateChanged me (onWorkUnitChanged me (onQualityCheckpointChanged me
    (onActuatorStatusChanged me (onEquipmentStatusChanged me m)))).

Definition handle m (p : Presenter) (d : delivery) : outcome Presenter :=
  match d with
  | DEquipment _ e => handleEquipmentStatusUpdate (equipmentId e) (eq_status e) p
  | DActuator _ a => handleActuatorStatusUpdate (actuatorId a) (act_status a) p
  | DQuality _ c => handleQualityCheckpointUpdate m (checkpointId c) (qc_status c) p
  | DWorkUnit _ w => handleNewWorkUnit m p
  | DState _ s => handleSystemStateChanged m s p
  end.

Fixpoint handle_all m (l : list delivery) (p : Presenter) : outcome Presenter :=
  match l with [] => Ret p | d :: l => p ← handle m p d; handle_all m l p end.

(** The model as the callbacks of an operation read it. The operations change
    the tables before they notify, except that a Start notifies the work unit
    before it sets the second line to Processing. *)
Definition seen (o : model_op) m m' : SimulatedModel G :=
  match o with StartProduction => set_equipment (equipmentStatuses_ m) m' | _ => m' end.

(* ------------------------------------------------------------------ *)
(** ** The station: model, presenter and operator *)

Inductive station_event :=
| Operate (o : model_op)
| AckAlarm (k : string)
| ShelveAlarm (k : string) (duration : Z)
| UnshelveAlarm (k : string)
| ClearAllAlarms
| ClearAlarmHistory
| LanguageChanged (tr : catalogue)
| AddView (obs : nat)
| RemoveView (obs : nat).

Record Station := mkStation { st_model : SimulatedModel G; st_presenter : Presenter }.

(** An operation of the alarm centre. *)
Definition center_do (f : AlertCenter -> AlertCenter) (p : Presenter) : Presenter :=
  match alertCenter_ p with Some c => set_center (Some (f c)) p | None => p end.

(** The callbacks in the new catalogue; one whose text does not format leaves
    the alert as it is. *)
Definition run_callback (tr : catalogue) (cbs : list Closure) (n : nat) (a : AlertViewModel) : AlertViewModel :=
  match cbs !! n with
  | Some cb => match texts tr cb with Ret t => set_texts t a | _ => a end
  | None => a
  end.

Definition station_step (me : nat) (e : station_event) (s : Station) : outcome Station :=
  let p := st_presenter s in
  let on_alarms f := Ret (mkStation (st_model s) (center_do f p)) in
  match e with
  | Operate o =>
      m' ← op_apply o (st_model s);
      p' ← handle_all (seen o (st_model s) m')
             (inbox me (drop (length (delivered (st_model s))) (delivered m'))) p;
      Ret (mkStation m' p')
  | AckAlarm k => on_alarms (acknowledge (wall (readings p)) k)
  | ShelveAlarm k d => on_alarms (shelve (steady (readings p)) k d)
  | UnshelveAlarm k => on_alarms (unshelve k)
  | ClearAllAlarms => on_alarms (clearAll (wall (readings p)))
  | ClearAlarmHistory => on_alarms clearHistory
  | LanguageChanged tr =>
      Ret (mkStation (st_model s) (center_do (retranslate (run_callback tr (callbacks p))) (set_catalogue tr p)))
  | AddView obs => Ret (mkStation (st_model s) (addObserver obs p))
  | RemoveView obs => Ret (mkStation (st_model s) (removeObserver obs p))
  end.

Fixpoint station_run (me : nat) (l : list station_event) (s : Station) : outcome Station :=
  match l with [] => Ret s | e :: l => s ← station_step me e s; station_run me l s end.

(** The station as it starts: the presenter with an audited alarm centre and
    one view, subscribed to a fresh model. *)
Definition presenter_init (tr : catalogue) (view : nat) : Presenter :=
  mkPresenter [view] IDLE (Some (setAuditCallback true center_init)) tr [] [] [] 0.

Definition station_init (me : nat) (g : G) (tr : catalogue) (view : nat) : Station :=
  mkStation (initialize me (model_init g)) (presenter_init tr view).
End Presenter.
Arguments Station G : clear implicits.

(* ------------------------------------------------------------------ *)
(** ** The priority of the active alarm of a key *)

Definition active_priority (k : string) (c : AlertCenter) : option Z :=
  match at_key k (alarms_ c) with
  | Some it => if conditionActive it then Some (priority (vm it)) else None
  | None => None
  end.

Lemma active_alarms k c c' : alarms_ c' = alarms_ c -> active_priority k c' = active_priority k c.
Proof. unfold active_priority. intros ->. reflexivity. Qed.

(** Replacing the alarm found for [k]. *)
Lemma active_insert k k' i it c :
  findByKey k (alarms_ c) = Some i -> key (vm it) = k ->
  active_priority k' (set_alarms (<[i := it]> (alarms_ c)) c) =
    if String.eqb k k' then (if conditionActive it then Some (priority (vm it)) else None) else active_priority k' c.
Proof.
  intros Hf Hk. unfold active_priority. cbn [set_alarms alarms_]. rewrite (at_key_insert k k' _ i it Hf Hk).
  destruct (String.eqb k k'); reflexivity.
Qed.

(** What is found for a key. *)
Lemma found_active k i it c :
  findByKey k (alarms_ c) = Some i -> alarms_ c !! i = Some it ->
  key (vm it) = k /\ active_priority k c = if conditionActive it then Some (priority (vm it)) else None.
Proof.
  intros Hf Hi. pose proof (findByKey_spec k (alarms_ c)) as Hs. rewrite Hf in Hs.
  destruct Hs as (it0 & Hi0 & Hk & Hat). rewrite Hi in Hi0. injection Hi0 as <-.
  unfold active_priority. rewrite Hat. auto.
Qed.

Lemma missing_active k c : findByKey k (alarms_ c) = None -> active_priority k c = None.
Proof.
  intros Hf. pose proof (findByKey_spec k (alarms_ c)) as Hs. rewrite Hf in Hs. unfold active_priority.
  rewrite (proj1 Hs). reflexivity.
Qed.

(** Events do not matter. *)
Lemma active_announce a h action k k' c : active_priority k' (announce a h action k c) = active_priority k' c.
Proof. apply active_alarms. reflexivity. Qed.

(** [at_found k]: case analysis on the search for a key. *)
Ltac active_found k c :=
  let Hf := fresh "Hf" in
  destruct (findByKey k (alarms_ c)) as [i|] eqn:Hf;
  [pose proof (findByKey_spec k (alarms_ c)) as Hs; rewrite Hf in Hs; destruct Hs as (it & Hi & _ & _);
   rewrite Hi; destruct (found_active k i it c Hf Hi) as [Hkey Hact]
  |pose proof (missing_active k c Hf) as Hact].

Lemma raise_active text a c k :
  active_priority k (raise text a c) = if String.eqb (key a) k then Some (priority a) else active_priority k c.
Proof.
  unfold raise. set (st := if String.eqb (timestamp a) "" then set_timestamp text a else a).
  assert (Hst : key st = key a /\ priority st = priority a) by (unfold st; case_match; auto).
  destruct Hst as [Hk Hp]. rewrite Hk. active_found (key a) c.
  - rewrite active_announce, (active_insert (key a)) by (assumption || exact Hk). cbn. rewrite Hp. reflexivity.
  - rewrite active_announce. unfold active_priority. cbn [set_alarms alarms_].
    destruct (at_key k (alarms_ c)) as [x|] eqn:E.
    + rewrite (at_key_app_some _ _ _ x E). destruct (String.eqb_spec (key a) k) as [<-|]; [|reflexivity].
      pose proof (findByKey_spec (key a) (alarms_ c)) as Hs. rewrite Hf in Hs. destruct Hs. congruence.
    + rewrite at_key_snoc by exact E. cbn. rewrite Hk. destruct (String.eqb (key a) k); [cbn; rewrite Hp|]; reflexivity.
Qed.

(** An alarm that does not change under an operation on its key. *)
Lemma active_same k k' it' i it c :
  findByKey k (alarms_ c) = Some i -> alarms_ c !! i = Some it ->
  key (vm it') = key (vm it) -> conditionActive it' = conditionActive it -> priority (vm it') = priority (vm it) ->
  active_priority k' (set_alarms (<[i := it']> (alarms_ c)) c) = active_priority k' c.
Proof.
  intros Hf Hi Hk Hc Hp. destruct (found_active k i it c Hf Hi) as [Hkey Hact].
  rewrite (active_insert k) by congruence. rewrite Hc, Hp.
  destruct (String.eqb_spec k k') as [<-|]; [symmetry; exact Hact|reflexivity].
Qed.

Lemma active_delete text k k' i it c :
  NoDup (keys c) -> findByKey k (alarms_ c) = Some i -> alarms_ c !! i = Some it ->
  active_priority k' (announce true true "RESOLVE" k (set_alarms (delete i (alarms_ c)) (push_history text (vm it) c))) =
    if String.eqb k k' then None else active_priority k' c.
Proof.
  intros Hnd Hf Hi. rewrite active_announce. unfold active_priority. cbn [set_alarms push_history alarms_].
  rewrite (at_key_delete k k' _ i Hnd Hf). destruct (String.eqb k k'); reflexivity.
Qed.

Lemma clear_active text k c k' :
  center_ok c -> active_priority k' (clear text k c) = if String.eqb k k' then None else active_priority k' c.
Proof.
  intros (Hnd & _). unfold clear. active_found k c.
  - assert (Hq : active_priority k' (set_alarms (<[i:=mkAlarm (vm it) false (shelvedUntil it)]> (alarms_ c)) c) =
                 if String.eqb k k' then None else active_priority k' c).
    { rewrite (active_insert k) by assumption. reflexivity. }
    destruct (alarm_state (vm it)); try exact Hq.
    + rewrite active_announce, (active_insert k) by assumption. reflexivity.
    + apply (active_delete text k k' i it); assumption.
  - destruct (String.eqb_spec k k') as [<-|]; [exact Hact|reflexivity].
Qed.

Lemma acknowledge_active text k c k' :
  center_ok c -> active_priority k' (acknowledge text k c) = active_priority k' c.
Proof.
  intros (Hnd & Hall & _). unfold acknowledge. active_found k c; [|reflexivity].
  assert (Hok : alarm_ok it) by (eapply Forall_lookup_1; eassumption). unfold alarm_ok in Hok.
  destruct (alarm_state (vm it)) eqn:Hs; try reflexivity.
  - rewrite active_announce. apply (active_same k k' _ i it); auto.
  - rewrite (active_delete text k k' i it) by assumption.
    destruct (String.eqb_spec k k') as [<-|]; [rewrite Hact, Hok|]; reflexivity.
Qed.

Lemma shelve_active now k d c k' : active_priority k' (shelve now k d c) = active_priority k' c.
Proof.
  unfold shelve. active_found k c; [|reflexivity]. rewrite active_announce. apply (active_same k k' _ i it); auto.
Qed.

Lemma unshelve_active k c k' : active_priority k' (unshelve k c) = active_priority k' c.
Proof.
  unfold unshelve. active_found k c; [|reflexivity]. destruct (bool_decide _); [|reflexivity].
  rewrite active_announce. apply (active_same k k' _ i it); auto.
Qed.

Lemma active_map k (f : Alarm -> Alarm) c c' :
  alarms_ c' = map f (alarms_ c) ->
  (forall it, key (vm (f it)) = key (vm it) /\ conditionActive (f it) = conditionActive it /\ priority (vm (f it)) = priority (vm it)) ->
  active_priority k c' = active_priority k c.
Proof.
  intros Hm Hf. unfold active_priority. rewrite Hm.
  rewrite at_key_map by (intros it; apply Hf). destruct (at_key k (alarms_ c)) as [it|]; [|reflexivity].
  cbn. destruct (Hf it) as (_ & -> & ->). reflexivity.
Qed.

Lemma tick_active now c k : active_priority k (AlertCenter.tick now c) = active_priority k c.
Proof.
  apply (active_map k (fun it => if expired now it then off_shelf it else it)); [reflexivity|].
  intros it. destruct (expired now it); auto.
Qed.

Lemma clearHistory_active c k : active_priority k (clearHistory c) = active_priority k c.
Proof. unfold clearHistory. destruct (history_ c); reflexivity. Qed.

Lemma retranslate_active run c k : translates run -> active_priority k (retranslate run c) = active_priority k c.
Proof.
  intros Hr. apply (active_map k (fun it => mkAlarm (retranslate_vm run (vm it)) (conditionActive it) (shelvedUntil it)));
    [reflexivity|]. intros it. destruct (retranslate_vm_same run (vm it) Hr) as (H1 & _ & H3). auto.
Qed.

Lemma run_callback_translates tr cbs : translates (run_callback tr cbs).
Proof.
  intros n a. unfold run_callback. destruct (cbs !! n); [|auto]. destruct (texts tr _); auto.
Qed.

(* ------------------------------------------------------------------ *)
(** ** Specification: the alarms a model calls for *)

Definition line_alarm (status : Z) : option Z :=
  if status =? 0 then Some kAlarmPriorityMedium else if status =? 3 then Some kAlarmPriorityHigh else None.
Definition checkpoint_alarm (rate : float32) : option Z :=
  match quality_status rate with
  | Passing => None | QWarning => Some kAlarmPriorityMedium | QCritical => Some kAlarmPriorityHigh
  end.
Definition fault_alarm (s : SystemState) : option Z := if decide (s = ERROR) then Some kAlarmPriorityEmergency else None.

(** Every text of the catalogue formats. *)
Definition catalogue_ok (tr : catalogue) : Prop := forall cb, exists t, texts tr cb = Ret t.

Definition source_keys : list string :=
  [line_key 0; line_key 1; line_key 2; checkpoint_key 0; checkpoint_key 1; checkpoint_key 2; kSystemErrorKey].

Definition alarm_of (k : string) (p : Presenter) : option Z :=
  match alertCenter_ p with Some c => active_priority k c | None => None end.

Record presenter_ok (p : Presenter) : Prop := {
  po_center : exists c, alertCenter_ p = Some c /\ center_ok c;
  po_catalogue : catalogue_ok (active_catalogue p);
  po_fault : alarm_of kSystemErrorKey p = fault_alarm (prevSystemState_ p);
  po_others : forall k, k ∉ source_keys -> alarm_of k p = None;
}.

(** What observers are shown of a checkpoint. *)
Definition quality_card (c : QualityCheckpoint) : QualityCheckpointViewModel :=
  mkQualityCard (checkpointId c) (qc_name c) (quality_status (passRate c)) (unitsInspected c) (defectsFound c)
    (passRate c) (passRateTarget c) (lastDefect c).

(** The alarm a delivery is about, and what it should become. *)
Definition alarm_effect (d : delivery) : option (string * option Z) :=
  match d with
  | DEquipment _ e => Some (line_key (equipmentId e), line_alarm (eq_status e))
  | DQuality _ c => Some (checkpoint_key (checkpointId c), checkpoint_alarm (passRate c))
  | DState _ s => Some (kSystemErrorKey, fault_alarm s)
  | _ => None
  end.

Section Handling.
Context {G : Type} `{RG : RandomSource G} `{CK : Clock}.
Implicit Types m : SimulatedModel G.

(** What an observer is shown for a delivery. *)
Definition card m (tr : catalogue) (d : delivery) (o : nat) : view_event :=
  match d with
  | DEquipment _ e => OnEquipmentCard o (buildEquipmentVM tr (equipmentId e) (eq_status e))
  | DActuator _ a => OnActuatorCard o (buildActuatorVM tr (actuatorId a) (act_status a))
  | DQuality _ c => OnQualityView o (quality_card c)
  | DWorkUnit _ _ => OnWorkUnitView o (buildWorkUnitVM m)
  | DState _ s => OnControlPanel o (buildControlPanelVM s)
  end.

(** The getters agree with the delivery. *)
Definition readable m (d : delivery) : Prop :=
  match d with
  | DQuality _ c => sm_get (checkpointId c) (qualityCheckpoints_ m) = Some c
  | DState _ s => s = getState m
  | _ => True
  end.

(** The parts of the presenter a handler may change. *)
Record handled m (p : Presenter) (d : delivery) (p' : Presenter) : Prop := {
  hd_ok : presenter_ok p';
  hd_alarms : forall k, alarm_of k p' =
     match alarm_effect d with Some (k', a) => if String.eqb k' k then a else alarm_of k p | None => alarm_of k p end;
  hd_shown : shown p' = shown p ++ map (card m (active_catalogue p) d) (observers_ p);
  hd_observers : observers_ p' = observers_ p;
  hd_catalogue : active_catalogue p' = active_catalogue p;
  hd_prev : prevSystemState_ p' = match d with DState _ s => s | _ => prevSystemState_ p end;
}.

Lemma translated_ok c k sev prio cb p t :
  center_ok c -> texts (active_catalogue p) cb = Ret t ->
  raise_alarm k sev prio cb c p =
    Ret (set_center (Some (raise (wall (readings p))
      (set_texts t (mkAlert k sev "" "" "" UnackActive prio (Some (length (callbacks p))))) c)) (install cb p)).
Proof. intros _ Ht. unfold raise_alarm. rewrite Ht. reflexivity. Qed.

(** Raising and clearing keep the centre and move one alarm. *)
Lemma raise_alarm_ok c k sev prio cb p :
  alertCenter_ p = Some c -> center_ok c -> catalogue_ok (active_catalogue p) ->
  exists c' p', raise_alarm k sev prio cb c p = Ret p' /\ p' = set_center (Some c') (install cb p) /\ center_ok c' /\
    forall k', active_priority k' c' = if String.eqb k k' then Some prio else active_priority k' c.
Proof.
  intros Hc Hok Hcat. destruct (Hcat cb) as [t Ht]. eexists _, _. split; [exact (translated_ok c k sev prio cb p t Hok Ht)|].
  split; [reflexivity|]. split.
  - apply (raise_good _ _ _ Hok).
  - intros k'. rewrite raise_active. reflexivity.
Qed.

Lemma clear_alarm_ok c k p :
  center_ok c -> exists c', clear_alarm k c p = set_center (Some c') p /\ center_ok c' /\
    forall k', active_priority k' c' = if String.eqb k k' then None else active_priority k' c.
Proof.
  intros Hok. eexists. split; [reflexivity|]. split; [apply (clear_good _ _ _ Hok)|].
  intros k'. apply clear_active. exact Hok.
Qed.

Lemma quality_vm m c status :
  sm_get (checkpointId c) (qualityCheckpoints_ m) = Some c ->
  buildQualityCheckpointVM m (checkpointId c) status = Ret (quality_card c).
Proof. intros H. unfold buildQualityCheckpointVM, getQualityCheckpoint. rewrite H. reflexivity. Qed.

(** The keys of the sources differ. *)
Lemma key_line_fault id : line_key id <> kSystemErrorKey.
Proof. discriminate. Qed.
Lemma key_checkpoint_fault id : checkpoint_key id <> kSystemErrorKey.
Proof. discriminate. Qed.
Lemma key_line_checkpoint i j : line_key i <> checkpoint_key j.
Proof. discriminate. Qed.
Lemma key_line_inj i j : line_key i = line_key j -> i = j.
Proof. unfold line_key, to_string. intros H. apply (inj (String.append "equipment-")), (inj pretty) in H. exact H. Qed.
Lemma key_checkpoint_inj i j : checkpoint_key i = checkpoint_key j -> i = j.
Proof. unfold checkpoint_key, to_string. intros H. apply (inj (String.append "quality-")), (inj pretty) in H. exact H. Qed.

(** A handler that ends with the alarm [k] at [a]. *)
Lemma handled_key m p d p' k a c' :
  presenter_ok p -> alarm_effect d = Some (k, a) -> k ∈ source_keys -> k <> kSystemErrorKey ->
  center_ok c' -> alertCenter_ p' = Some c' -> (forall k', active_priority k' c' = if String.eqb k k' then a else alarm_of k' p) ->
  shown p' = shown p ++ map (card m (active_catalogue p) d) (observers_ p) ->
  observers_ p' = observers_ p -> active_catalogue p' = active_catalogue p -> prevSystemState_ p' = prevSystemState_ p ->
  (match d with DState _ _ => False | _ => True end) ->
  handled m p d p'.
Proof.
  intros [_ Hcat Hfault Hoth] He Hk Hks Hc' Hp' Ha Hsh Hob Htr Hprev Hd.
  assert (Hal : forall k', alarm_of k' p' = if String.eqb k k' then a else alarm_of k' p)
    by (intros k'; unfold alarm_of at 1; rewrite Hp'; apply Ha).
  split; auto.
  - split.
    + eauto.
    + rewrite Htr. exact Hcat.
    + rewrite Hal, (proj2 (String.eqb_neq _ _) Hks), Hprev. exact Hfault.
    + intros k' Hk'. rewrite Hal. destruct (String.eqb_spec k k') as [<-|]; [contradiction|auto].
  - rewrite He. exact Hal.
  - rewrite Hprev. destruct d; try reflexivity. contradiction.
Qed.

Lemma alarm_of_center p c k : alertCenter_ p = Some c -> alarm_of k p = active_priority k c.
Proof. unfold alarm_of. intros ->. reflexivity. Qed.

Lemma equipment_handled m p n e :
  presenter_ok p -> line_key (equipmentId e) ∈ source_keys ->
  exists p', handle m p (DEquipment n e) = Ret p' /\ handled m p (DEquipment n e) p'.
Proof.
  intros Hp Hk. pose proof Hp as [(c & Hc & Hok) Hcat _ _]. cbn [handle]. unfold handleEquipmentStatusUpdate.
  set (p1 := notifyAll _ p). change (alertCenter_ p1) with (alertCenter_ p). rewrite Hc.
  assert (Hfin : forall c' p', center_ok c' -> alertCenter_ p' = Some c' ->
    (forall k', active_priority k' c' = if String.eqb (line_key (equipmentId e)) k' then line_alarm (eq_status e) else active_priority k' c) ->
    shown p' = shown p1 -> observers_ p' = observers_ p -> active_catalogue p' = active_catalogue p ->
    prevSystemState_ p' = prevSystemState_ p -> handled m p (DEquipment n e) p').
  { intros c' p' H1 H2 H3 H4 H5 H6 H7. eapply (handled_key m p _ p' _ _ c'); eauto using key_line_fault; try reflexivity.
    intros k'. rewrite (alarm_of_center p c k' Hc). apply H3. }
  unfold line_alarm in Hfin. destruct (Z.eqb_spec (eq_status e) 0) as [E0|E0]; cbn [orb].
  - rewrite E0 in *. cbn [Z.eqb] in *.
    destruct (raise_alarm_ok c (line_key (equipmentId e)) Warning kAlarmPriorityMedium (EquipmentTexts (equipmentId e) false)
      p1 Hc Hok Hcat) as (c' & p' & E & -> & Hok' & Ha).
    eexists. split; [exact E|]. apply (Hfin c'); auto.
  - destruct (Z.eqb_spec (eq_status e) 3) as [E3|E3].
    + destruct (raise_alarm_ok c (line_key (equipmentId e)) Critical kAlarmPriorityHigh (EquipmentTexts (equipmentId e) true)
        p1 Hc Hok Hcat) as (c' & p' & E & -> & Hok' & Ha).
      eexists. split; [exact E|]. apply (Hfin c'); auto.
    + destruct (clear_alarm_ok c (line_key (equipmentId e)) p1 Hok) as (c' & E & Hok' & Ha).
      eexists. split; [reflexivity|]. rewrite E. apply (Hfin c'); auto.
Qed.

Lemma quality_handled m p n q :
  presenter_ok p -> checkpoint_key (checkpointId q) ∈ source_keys -> readable m (DQuality n q) ->
  exists p', handle m p (DQuality n q) = Ret p' /\ handled m p (DQuality n q) p'.
Proof.
  intros Hp Hk Hr. pose proof Hp as [(c & Hc & Hok) Hcat _ _]. cbn [handle]. unfold handleQualityCheckpointUpdate.
  rewrite (quality_vm m q _ Hr). cbn [mbind outcome_bind].
  set (p1 := notifyAll _ p). change (alertCenter_ p1) with (alertCenter_ p). rewrite Hc.
  assert (Hfin : forall c' p', center_ok c' -> alertCenter_ p' = Some c' ->
    (forall k', active_priority k' c' = if String.eqb (checkpoint_key (checkpointId q)) k' then checkpoint_alarm (passRate q) else active_priority k' c) ->
    shown p' = shown p1 -> observers_ p' = observers_ p -> active_catalogue p' = active_catalogue p ->
    prevSystemState_ p' = prevSystemState_ p -> handled m p (DQuality n q) p').
  { intros c' p' H1 H2 H3 H4 H5 H6 H7. eapply (handled_key m p _ p' _ _ c'); eauto using key_checkpoint_fault; try reflexivity.
    intros k'. rewrite (alarm_of_center p c k' Hc). apply H3. }
  unfold checkpoint_alarm in Hfin. change (qv_status (quality_card q)) with (quality_status (passRate q)).
  destruct (quality_status (passRate q)).
  - destruct (clear_alarm_ok c (checkpoint_key (checkpointId q)) p1 Hok) as (c' & E & Hok' & Ha).
    eexists. split; [reflexivity|]. rewrite E. apply (Hfin c'); auto.
  - destruct (raise_alarm_ok c (checkpoint_key (checkpointId q)) Warning kAlarmPriorityMedium
      (QualityTexts false (qc_name q) (passRate q) (passRateTarget q)) p1 Hc Hok Hcat) as (c' & p' & E & -> & Hok' & Ha).
    eexists. split; [exact E|]. apply (Hfin c'); auto.
  - destruct (raise_alarm_ok c (checkpoint_key (checkpointId q)) Critical kAlarmPriorityHigh
      (QualityTexts true (qc_name q) (passRate q) (passRateTarget q)) p1 Hc Hok Hcat) as (c' & p' & E & -> & Hok' & Ha).
    eexists. split; [exact E|]. apply (Hfin c'); auto.
Qed.

(** The fault alarm is raised and cleared on the edges only. *)
Lemma state_handled m p n s :
  presenter_ok p -> s = getState m ->
  exists p', handle m p (DState n s) = Ret p' /\ handled m p (DState n s) p'.
Proof.
  intros Hp Hs. pose proof Hp as [(c & Hc & Hok) Hcat Hfault Hoth]. cbn [handle]. unfold handleSystemStateChanged.
  rewrite Hc, <- Hs. rewrite (alarm_of_center p c _ Hc) in Hfault.
  assert (Hstep : exists p1 c', alertCenter_ p1 = Some c' /\ center_ok c' /\
    (forall k, active_priority k c' = if String.eqb kSystemErrorKey k then fault_alarm s else active_priority k c) /\
    shown p1 = shown p /\ observers_ p1 = observers_ p /\ active_catalogue p1 = active_catalogue p /\
    (if bool_decide (s = ERROR) && negb (bool_decide (prevSystemState_ p = ERROR)) then
       raise_alarm kSystemErrorKey Critical kAlarmPriorityEmergency (FaultTexts (model_lastFaultReason m)) c p
     else if negb (bool_decide (s = ERROR)) && bool_decide (prevSystemState_ p = ERROR)
          then Ret (clear_alarm kSystemErrorKey c p) else Ret p) = Ret p1).
  { unfold fault_alarm in *. case_bool_decide as E1; case_bool_decide as E2; cbn [andb negb].
    - exists p, c. rewrite decide_True in Hfault by assumption. rewrite decide_True by assumption.
      split; [exact Hc|]. split; [exact Hok|]. split; [|auto].
      intros k. destruct (String.eqb_spec kSystemErrorKey k) as [<-|]; [exact Hfault|reflexivity].
    - rewrite decide_True by assumption.
      destruct (raise_alarm_ok c kSystemErrorKey Critical kAlarmPriorityEmergency (FaultTexts (model_lastFaultReason m)) p Hc Hok Hcat)
        as (c' & p' & E & -> & Hok' & Ha).
      exists (set_center (Some c') (install (FaultTexts (model_lastFaultReason m)) p)), c'.
      split; [reflexivity|]. split; [exact Hok'|]. split; [exact Ha|auto].
    - rewrite decide_False by assumption. destruct (clear_alarm_ok c kSystemErrorKey p Hok) as (c' & E & Hok' & Ha).
      exists (clear_alarm kSystemErrorKey c p), c'. rewrite E.
      split; [reflexivity|]. split; [exact Hok'|]. split; [exact Ha|auto].
    - exists p, c. rewrite decide_False in Hfault by assumption. rewrite decide_False by assumption.
      split; [exact Hc|]. split; [exact Hok|]. split; [|auto].
      intros k. destruct (String.eqb_spec kSystemErrorKey k) as [<-|]; [exact Hfault|reflexivity]. }
  destruct Hstep as (p1 & c' & Hc' & Hok' & Ha & H1 & H2 & H3 & E). rewrite E. cbn [mbind outcome_bind].
  eexists. split; [reflexivity|].
  assert (Hal : forall k, alarm_of k (emit_state (state_value s) (notifyAll (fun o => OnControlPanel o (buildControlPanelVM s)) (set_prev s p1))) =
    if String.eqb kSystemErrorKey k then fault_alarm s else alarm_of k p).
  { intros k. rewrite (alarm_of_center p c k Hc). unfold alarm_of. cbn. rewrite Hc'. apply Ha. }
  split; cbn [alarm_effect card].
  - split.
    + exists c'. auto.
    + cbn. rewrite H3. exact Hcat.
    + rewrite Hal, String.eqb_refl. reflexivity.
    + intros k Hk. rewrite Hal. destruct (String.eqb_spec kSystemErrorKey k) as [<-|]; [|auto].
      elim Hk. unfold source_keys. rewrite !elem_of_cons. tauto.
  - exact Hal.
  - cbn. rewrite H1, H2. reflexivity.
  - cbn. exact H2.
  - cbn. exact H3.
  - reflexivity.
Qed.

(** Deliveries that concern no alarm. *)
Lemma quiet_handled m p d p' c c' :
  presenter_ok p -> alarm_effect d = None -> alertCenter_ p = Some c -> alertCenter_ p' = Some c' -> center_ok c' ->
  (forall k, active_priority k c' = active_priority k c) ->
  shown p' = shown p ++ map (card m (active_catalogue p) d) (observers_ p) ->
  observers_ p' = observers_ p -> active_catalogue p' = active_catalogue p -> prevSystemState_ p' = prevSystemState_ p ->
  handled m p d p'.
Proof.
  intros [_ Hcat Hfault Hoth] He Hc Hc' Hok' Ha Hsh Hob Htr Hprev.
  assert (Hal : forall k, alarm_of k p' = alarm_of k p).
  { intros k. unfold alarm_of. rewrite Hc, Hc'. apply Ha. }
  split; auto.
  - split; [eauto|rewrite Htr; exact Hcat|rewrite Hal, Hprev; exact Hfault|intros k Hk; rewrite Hal; auto].
  - rewrite He. exact Hal.
  - rewrite Hprev. destruct d; try reflexivity. discriminate He.
Qed.

(** A delivery whose alarm is one of the plant's. *)
Definition sourced (d : delivery) : Prop := match alarm_effect d with Some (k, _) => k ∈ source_keys | None => True end.

Lemma handle_ok m p d :
  presenter_ok p -> readable m d -> sourced d -> exists p', handle m p d = Ret p' /\ handled m p d p'.
Proof.
  intros Hp Hr Hk. pose proof Hp as [(c & Hc & Hok) _ _ _]. destruct d as [n e|n a|n q|n w|n s]; cbn in Hk.
  - apply equipment_handled; assumption.
  - eexists. split; [reflexivity|]. apply (quiet_handled m p _ _ c c); auto.
  - apply quality_handled; assumption.
  - cbn [handle]. unfold handleNewWorkUnit. rewrite Hc. eexists. split; [reflexivity|].
    eapply (quiet_handled m p _ _ c); auto; try reflexivity; [apply (alarm_tick_good _ _ Hok)|].
    intros k. apply tick_active.
  - apply state_handled; assumption.
Qed.
End Handling.

(* ------------------------------------------------------------------ *)
(** ** The deliveries of one operation *)

Lemma last_omap_settles {A B} (f : A -> option B) (x : B) l1 l2 :
  (forall y, y ∈ l2 -> f y = None \/ f y = Some x) -> (exists y, y ∈ l2 /\ f y = Some x) ->
  last (omap f (l1 ++ l2)) = Some x.
Proof.
  intros Hall (y & Hy & Hf). rewrite omap_app, last_app.
  assert (Hin : x ∈ omap f l2) by (apply list_elem_of_omap; eauto).
  destruct (last (omap f l2)) as [z|] eqn:E.
  - apply last_Some_elem_of in E. apply list_elem_of_omap in E as (y' & Hy' & Hz).
    destruct (Hall y' Hy') as [H|H]; congruence.
  - apply last_None in E. rewrite E in Hin. inversion Hin.
Qed.

Lemma last_omap_none {A B} (f : A -> option B) l1 l2 :
  (forall y, y ∈ l2 -> f y = None) -> last (omap f (l1 ++ l2)) = last (omap f l1).
Proof.
  intros Hall. rewrite omap_app. replace (omap f l2) with (@nil B); [rewrite app_nil_r; reflexivity|].
  symmetry. destruct (omap f l2) as [|z l] eqn:E; [reflexivity|].
  assert (Hz : z ∈ omap f l2) by (rewrite E; left). apply list_elem_of_omap in Hz as (y & Hy & Hf).
  rewrite (Hall y Hy) in Hf. discriminate.
Qed.

(** What a view shows last: the status of a line and of an actuator, the card
    of a checkpoint, the control panel. *)
Definition line_shown (obs : nat) (id : Z) (l : list view_event) : option EquipmentCardStatus :=
  last (omap (fun ev => match ev with
    | OnEquipmentCard o vm => if decide (o = obs /\ ec_equipmentId vm = id) then Some (ec_status vm) else None
    | _ => None end) l).
Definition actuator_shown (obs : nat) (id : Z) (l : list view_event) : option ActuatorCardStatus :=
  last (omap (fun ev => match ev with
    | OnActuatorCard o vm => if decide (o = obs /\ ac_actuatorId vm = id) then Some (ac_status vm) else None
    | _ => None end) l).
Definition checkpoint_shown (obs : nat) (id : Z) (l : list view_event) : option QualityCheckpointViewModel :=
  last (omap (fun ev => match ev with
    | OnQualityView o vm => if decide (o = obs /\ qv_checkpointId vm = id) then Some vm else None
    | _ => None end) l).
Definition panel_shown (obs : nat) (l : list view_event) : option ControlPanelViewModel :=
  last (omap (fun ev => match ev with
    | OnControlPanel o vm => if decide (o = obs) then Some vm else None
    | _ => None end) l).

(** The printed fields of a work unit, and those a view shows last. *)
Definition work_fields (w : WorkUnit) : string * string * Z * Z :=
  (workUnitId w, productId w, u32 (completedOperations w), u32 (totalOperations w)).
Definition work_shown (obs : nat) (l : list view_event) : option (string * string * Z * Z) :=
  last (omap (fun ev => match ev with
    | OnWorkUnitView o vm =>
        if decide (o = obs) then Some (wv_workUnitId vm, wv_productId vm, wv_completedOperations vm, wv_totalOperations vm) else None
    | _ => None end) l).

(** Cards are about lines and checkpoints of the plant, and a line's card is
    the one of its status in some language. *)
Definition genuine_event (ev : view_event) : Prop :=
  match ev with
  | OnEquipmentCard _ vm => exists tr id s, 0 <= id < 3 /\ vm = buildEquipmentVM tr id s
  | OnQualityView _ vm => 0 <= qv_checkpointId vm < 3
  | _ => True
  end.

(** The status on a card, whatever the language. *)
Definition line_status (s : Z) : EquipmentCardStatus := ec_status (buildEquipmentVM id 0 s).
Definition actuator_status (s : Z) : ActuatorCardStatus := ac_status (buildActuatorVM id 0 s).

Lemma equipment_vm_fields tr i s :
  ec_equipmentId (buildEquipmentVM tr i s) = i /\ ec_status (buildEquipmentVM tr i s) = line_status s.
Proof. unfold line_status, buildEquipmentVM. repeat case_match; auto. Qed.
Lemma actuator_vm_fields tr i s :
  ac_actuatorId (buildActuatorVM tr i s) = i /\ ac_status (buildActuatorVM tr i s) = actuator_status s.
Proof. unfold actuator_status, buildActuatorVM. repeat case_match; auto. Qed.

(** The status on a card decides the rest of it. *)
Lemma line_status_card tr i s s' : line_status s = line_status s' -> buildEquipmentVM tr i s = buildEquipmentVM tr i s'.
Proof. unfold line_status, buildEquipmentVM. repeat case_match; cbn; congruence. Qed.

Section Following.
Context {G : Type} `{RG : RandomSource G} `{CK : Clock}.
Implicit Types m : SimulatedModel G.

(** The alarms the model calls for. *)
Definition alarm_sources m : list (string * option Z) :=
  map (fun e => (line_key (fst e), line_alarm (eq_status (snd e)))) (equipmentStatuses_ m) ++
  map (fun c => (checkpoint_key (fst c), checkpoint_alarm (passRate (snd c)))) (qualityCheckpoints_ m) ++
  [(kSystemErrorKey, fault_alarm (getState m))].

(** The presenter follows the model: alarms and the views of observer [obs]. *)
Record follows (obs : nat) m (p : Presenter) : Prop := {
  fo_ok : presenter_ok p;
  fo_observer : obs ∈ observers_ p;
  fo_lines : forall id e, sm_get id (equipmentStatuses_ m) = Some e ->
     alarm_of (line_key id) p = line_alarm (eq_status e) /\ line_shown obs id (shown p) = Some (line_status (eq_status e));
  fo_actuators : forall id a, sm_get id (actuatorStatuses_ m) = Some a ->
     actuator_shown obs id (shown p) = Some (actuator_status (act_status a));
  fo_checkpoints : forall id c, sm_get id (qualityCheckpoints_ m) = Some c ->
     alarm_of (checkpoint_key id) p = checkpoint_alarm (passRate c) /\ checkpoint_shown obs id (shown p) = Some (quality_card c);
  fo_state : alarm_of kSystemErrorKey p = fault_alarm (getState m);
  fo_genuine : Forall genuine_event (shown p);
}.

Definition hstep m (p : Presenter) (d : delivery) : Presenter := match handle m p d with Ret p' => p' | _ => p end.

Lemma hstep_handled m p d : presenter_ok p -> readable m d -> sourced d -> handled m p d (hstep m p d).
Proof. intros Hp Hr Hs. unfold hstep. destruct (handle_ok m p d Hp Hr Hs) as (p' & -> & H). exact H. Qed.

Lemma handle_all_fold m l : forall p,
  presenter_ok p -> (forall d, d ∈ l -> readable m d /\ sourced d) -> handle_all m l p = Ret (fold_left (hstep m) l p).
Proof.
  induction l as [|d l IH]; intros p Hp Hl; cbn [handle_all fold_left]; [reflexivity|].
  destruct (Hl d) as [Hr Hs]; [left|]. pose proof (hstep_handled m p d Hp Hr Hs) as Hh.
  destruct (handle_ok m p d Hp Hr Hs) as (p' & E & _). unfold hstep in Hh |- * at 2. rewrite E in *. cbn [mbind outcome_bind].
  apply IH; [apply Hh|]. intros d' Hd'. apply Hl. right. exact Hd'.
Qed.

(** A current delivery of the plant is readable in the model the callbacks see
    and concerns a known alarm. *)
Lemma current_readable o m m' d : current m' d -> readable (seen o m m') d.
Proof. destruct d; cbn; auto; destruct o; auto. Qed.

Lemma current_sourced m d : plant m -> current m d -> sourced d.
Proof.
  intros P. unfold sourced. destruct d as [n e|n a|n q|n w|n s]; cbn; auto; intros H.
  - apply sm_get_key in H. rewrite (pl_lines _ P) in H. unfold source_keys.
    repeat (apply elem_of_cons in H as [->|H]; [rewrite !elem_of_cons; tauto|]). inversion H.
  - apply sm_get_key in H. rewrite (pl_checkpoints _ P) in H. unfold source_keys.
    repeat (apply elem_of_cons in H as [->|H]; [rewrite !elem_of_cons; tauto|]). inversion H.
  - unfold source_keys. rewrite !elem_of_cons. tauto.
Qed.

(** A fold of the handlers over what an operation told [me]. *)
Section Operation.
Context (o : model_op) (me obs : nat) (m m' : SimulatedModel G) (news : list delivery) (p : Presenter).
Hypothesis Hinf : informed me m m' news.
Hypothesis Hplant : plant m'.
Hypothesis Hok : presenter_ok p.
Hypothesis Hobs : obs ∈ observers_ p.

Let M := seen o m m'.
Let ok (q : Presenter) : Prop := presenter_ok q /\ obs ∈ observers_ q.

Lemma news_readable d : d ∈ news -> readable M d /\ sourced d /\ current m' d.
Proof.
  intros Hd. pose proof (in_current _ _ _ _ Hinf) as C. rewrite Forall_forall in C. specialize (C d Hd).
  split; [apply current_readable; exact C|]. split; [exact (current_sourced m' d Hplant C)|exact C].
Qed.

Lemma news_handled q d : d ∈ news -> ok q -> handled M q d (hstep M q d).
Proof. intros Hd [Hq _]. destruct (news_readable d Hd) as (H1 & H2 & _). apply hstep_handled; assumption. Qed.

Lemma news_ok q d : d ∈ news -> ok q -> ok (hstep M q d).
Proof.
  intros Hd Hq. pose proof (news_handled q d Hd Hq) as H. split; [apply H|]. rewrite (hd_observers _ _ _ _ H). apply Hq.
Qed.

(** A view of the presenter settles on what the current value gives. *)
Lemma settles {X} (view : Presenter -> X) (sets : delivery -> Prop) `{!forall d, Decision (sets d)} (x : X) :
  (forall q d, d ∈ news -> ok q -> sets d -> current m' d -> view (hstep M q d) = x) ->
  (forall q d, d ∈ news -> ok q -> ~ sets d -> view (hstep M q d) = view q) ->
  view p = x \/ (exists d, d ∈ news /\ addressee d = me /\ sets d) ->
  view (fold_left (hstep M) (inbox me news) p) = x.
Proof.
  intros Hset Hkeep Hs. apply (watcher_settles (hstep M) ok view sets); auto.
  - split; assumption.
  - intros q d Hd _ Hq. apply news_ok; assumption.
  - intros q d Hd _ Hq Hsd. apply Hset; auto. apply news_readable, Hd.
Qed.

(** [other_source]: a delivery that is not about the viewed alarm. *)
Ltac other_source :=
  match goal with d : delivery |- _ => destruct d end; cbn in *; try reflexivity;
  try (rewrite (proj2 (String.eqb_neq _ _)); [reflexivity|]; let E := fresh in intros E;
       first [apply key_line_inj in E; tauto | apply key_checkpoint_inj in E; tauto
             |exact (key_line_checkpoint _ _ E) | exact (key_line_checkpoint _ _ (eq_sym E))
             |exact (key_line_fault _ E) | exact (key_line_fault _ (eq_sym E))
             |exact (key_checkpoint_fault _ E) | exact (key_checkpoint_fault _ (eq_sym E))]);
  try tauto.

Lemma line_alarm_settles id e :
  sm_get id (equipmentStatuses_ m') = Some e ->
  alarm_of (line_key id) p = line_alarm (eq_status e) \/ (exists d, d ∈ news /\ addressee d = me /\ about_line id d) ->
  alarm_of (line_key id) (fold_left (hstep M) (inbox me news) p) = line_alarm (eq_status e).
Proof.
  intros He. apply (settles (alarm_of (line_key id)) (about_line id)).
  - intros q d Hd Hq Hab C. rewrite (hd_alarms _ _ _ _ (news_handled q d Hd Hq)).
    destruct d; try contradiction. cbn in *. subst id. rewrite String.eqb_refl. congruence.
  - intros q d Hd Hq Hab. rewrite (hd_alarms _ _ _ _ (news_handled q d Hd Hq)).
    other_source.
Qed.

Lemma checkpoint_alarm_settles id c :
  sm_get id (qualityCheckpoints_ m') = Some c ->
  alarm_of (checkpoint_key id) p = checkpoint_alarm (passRate c) \/
    (exists d, d ∈ news /\ addressee d = me /\ about_checkpoint id d) ->
  alarm_of (checkpoint_key id) (fold_left (hstep M) (inbox me news) p) = checkpoint_alarm (passRate c).
Proof.
  intros He. apply (settles (alarm_of (checkpoint_key id)) (about_checkpoint id)).
  - intros q d Hd Hq Hab C. rewrite (hd_alarms _ _ _ _ (news_handled q d Hd Hq)).
    destruct d; try contradiction. cbn in *. subst id. rewrite String.eqb_refl. congruence.
  - intros q d Hd Hq Hab. rewrite (hd_alarms _ _ _ _ (news_handled q d Hd Hq)).
    other_source.
Qed.

Lemma fault_alarm_settles :
  alarm_of kSystemErrorKey p = fault_alarm (getState m') \/ (exists d, d ∈ news /\ addressee d = me /\ about_state d) ->
  alarm_of kSystemErrorKey (fold_left (hstep M) (inbox me news) p) = fault_alarm (getState m').
Proof.
  apply (settles (alarm_of kSystemErrorKey) about_state).
  - intros q d Hd Hq Hab C. rewrite (hd_alarms _ _ _ _ (news_handled q d Hd Hq)).
    destruct d; try contradiction. cbn in *. congruence.
  - intros q d Hd Hq Hab. rewrite (hd_alarms _ _ _ _ (news_handled q d Hd Hq)).
    other_source.
Qed.

(** What observer [obs] is shown last. *)
Lemma shown_settles {B} (f : view_event -> option B) (sets : delivery -> Prop) `{!forall d, Decision (sets d)} (x : B) :
  (forall tr d k, sets d -> current m' d -> f (card M tr d k) = if decide (k = obs) then Some x else None) ->
  (forall tr d k, ~ sets d -> f (card M tr d k) = None) ->
  last (omap f (shown p)) = Some x \/ (exists d, d ∈ news /\ addressee d = me /\ sets d) ->
  last (omap f (shown (fold_left (hstep M) (inbox me news) p))) = Some x.
Proof.
  intros Hset Hnot. apply (settles (fun q => last (omap f (shown q))) sets).
  - intros q d Hd Hq Hsd C. rewrite (hd_shown _ _ _ _ (news_handled q d Hd Hq)). apply last_omap_settles.
    + intros y Hy. apply list_elem_of_fmap in Hy as (k & -> & _). rewrite Hset by assumption. case_decide; auto.
    + exists (card M (active_catalogue q) d obs). split; [apply list_elem_of_fmap_2, Hq|].
      rewrite Hset by assumption. rewrite decide_True by reflexivity. reflexivity.
  - intros q d Hd Hq Hsd. rewrite (hd_shown _ _ _ _ (news_handled q d Hd Hq)). apply last_omap_none.
    intros y Hy. apply list_elem_of_fmap in Hy as (k & -> & _). apply Hnot. exact Hsd.
Qed.

Lemma news_genuine d tr k : d ∈ news -> genuine_event (card M tr d k).
Proof.
  intros Hd. destruct (news_readable d Hd) as (_ & _ & C). destruct d as [n e|n a|n q|n w|n s]; cbn in *; auto; apply sm_get_key in C.
  - exists tr, (equipmentId e), (eq_status e). split; [|reflexivity]. rewrite (pl_lines _ Hplant), !elem_of_cons, elem_of_nil in C. lia.
  - rewrite (pl_checkpoints _ Hplant), !elem_of_cons, elem_of_nil in C. lia.
Qed.

Lemma genuine_stays : Forall genuine_event (shown p) -> Forall genuine_event (shown (fold_left (hstep M) (inbox me news) p)).
Proof.
  intros Hg. apply (fold_inv (hstep M) (fun q => ok q /\ Forall genuine_event (shown q))); [split; [split; assumption|exact Hg]|].
  intros q d Hd [Hq Hgq]. apply list_elem_of_filter in Hd as [_ Hd]. split; [apply news_ok; assumption|].
  rewrite (hd_shown _ _ _ _ (news_handled q d Hd Hq)). apply Forall_app. split; [exact Hgq|].
  apply Forall_forall. intros ev Hev. apply list_elem_of_fmap in Hev as (k & -> & _). apply news_genuine, Hd.
Qed.
End Operation.

(** The buttons and the work unit of the model are shown. *)
Definition shows_panel (obs : nat) m (p : Presenter) : Prop :=
  panel_shown obs (shown p) = Some (buildControlPanelVM (getState m)).
Definition shows_work (obs : nat) m (p : Presenter) : Prop :=
  work_shown obs (shown p) = Some (work_fields (currentWorkUnit_ m)).
Definition shows_rest (obs : nat) m (p : Presenter) : Prop := shows_panel obs m p /\ shows_work obs m p.

Lemma seen_work o m m' : currentWorkUnit_ (seen o m m') = currentWorkUnit_ m'.
Proof. destruct o; reflexivity. Qed.

(** One operation of the model. *)
Lemma operate_follows o me obs m m' news p :
  informed me m m' news -> plant m' -> follows obs m p ->
  (shows_panel obs m p \/ exists d, d ∈ news /\ addressee d = me /\ about_state d) ->
  (shows_work obs m p \/ exists d, d ∈ news /\ addressee d = me /\ about_work d) ->
  exists p', handle_all (seen o m m') (inbox me news) p = Ret p' /\ follows obs m' p' /\ shows_rest obs m' p'.
Proof.
  intros I P' [Hok Hobs H1 H2 H3 H4 H5] Hpanel Hwork. set (M := seen o m m').
  exists (fold_left (hstep M) (inbox me news) p).
  assert (Hr : forall d, d ∈ inbox me news -> readable M d /\ sourced d).
  { intros d Hd. apply list_elem_of_filter in Hd as [_ Hd]. destruct (news_readable o me m m' news I P' d Hd) as (? & ? & _). auto. }
  split; [apply handle_all_fold; assumption|].
  assert (Hfin : presenter_ok (fold_left (hstep M) (inbox me news) p) /\ obs ∈ observers_ (fold_left (hstep M) (inbox me news) p)).
  { apply (fold_inv (hstep M) (fun q => presenter_ok q /\ obs ∈ observers_ q)); [auto|].
    intros q d Hd Hq. apply list_elem_of_filter in Hd as [_ Hd]. exact (news_ok o me obs m m' news I P' q d Hd Hq). }
  split; [split|].
  - apply Hfin.
  - apply Hfin.
  - intros id e He. pose proof (in_lines _ _ _ _ I id) as Hin. split.
    + apply (line_alarm_settles o me obs m m' news p I P' Hok Hobs id e He).
      destruct Hin as [Hin|Hin]; [left; apply H1; congruence|right; exact Hin].
    + apply (shown_settles o me obs m m' news p I P' Hok Hobs _ (about_line id)).
      * intros tr d k Hab C. destruct d; try contradiction. cbn in *. subst id.
        destruct (equipment_vm_fields tr (equipmentId es) (eq_status es)) as [-> ->]. rewrite He in C. injection C as <-.
        repeat case_decide; try tauto.
      * intros tr d k Hab. destruct d; try reflexivity. cbn in *.
        destruct (equipment_vm_fields tr (equipmentId es) (eq_status es)) as [-> _]. case_decide; tauto.
      * destruct Hin as [Hin|Hin]; [left; apply H1; congruence|right; exact Hin].
  - intros id a Ha. pose proof (in_actuators _ _ _ _ I id) as Hin.
    apply (shown_settles o me obs m m' news p I P' Hok Hobs _ (about_actuator id)).
    + intros tr d k Hab C. destruct d; try contradiction. cbn in *. subst id.
      destruct (actuator_vm_fields tr (actuatorId s) (act_status s)) as [-> ->]. rewrite Ha in C. injection C as <-.
      repeat case_decide; try tauto.
    + intros tr d k Hab. destruct d; try reflexivity. cbn in *.
      destruct (actuator_vm_fields tr (actuatorId s) (act_status s)) as [-> _]. case_decide; tauto.
    + destruct Hin as [Hin|Hin]; [left; apply H2; congruence|right; exact Hin].
  - intros id c Hc. pose proof (in_checkpoints _ _ _ _ I id) as Hin. split.
    + apply (checkpoint_alarm_settles o me obs m m' news p I P' Hok Hobs id c Hc).
      destruct Hin as [Hin|Hin]; [left; apply H3; congruence|right; exact Hin].
    + apply (shown_settles o me obs m m' news p I P' Hok Hobs _ (about_checkpoint id)).
      * intros tr d k Hab C. destruct d; try contradiction. cbn in *. subst id. rewrite Hc in C. injection C as <-.
        repeat case_decide; try tauto.
      * intros tr d k Hab. destruct d; try reflexivity. cbn in *. case_decide; tauto.
      * destruct Hin as [Hin|Hin]; [left; apply H3; congruence|right; exact Hin].
  - apply (fault_alarm_settles o me obs m m' news p I P' Hok Hobs).
    destruct (in_state _ _ _ _ I) as [E|E]; [left; congruence|right; exact E].
  - exact (genuine_stays o me obs m m' news p I P' Hok Hobs H5).
  - split; [|apply (shown_settles o me obs m m' news p I P' Hok Hobs _ about_work)].
    2:{ intros tr d k Hab C. destruct d; try contradiction. cbn. unfold getWorkUnit. rewrite seen_work. reflexivity. }
    2:{ intros tr d k Hab. destruct d; try reflexivity. elim Hab. constructor. }
    2:{ destruct Hwork as [E|E]; [|right; exact E]. destruct (in_work _ _ _ _ I) as [Ew|Ew]; [left|right; exact Ew].
      unfold shows_work in E. rewrite Ew in E. exact E. }
    apply (shown_settles o me obs m m' news p I P' Hok Hobs _ about_state).
    + intros tr d k Hab C. destruct d; try contradiction. cbn in *. subst. reflexivity.
    + intros tr d k Hab. destruct d; try reflexivity. elim Hab. constructor.
    + destruct Hpanel as [E|E]; [|right; exact E]. destruct (in_state _ _ _ _ I) as [Es|Es]; [left|right; exact Es].
      unfold shows_panel in E. rewrite Es in E. exact E.
Qed.

(** An action of the operator on the alarms. *)
Lemma center_follows obs m p f tr :
  follows obs m p -> catalogue_ok tr ->
  (forall c, center_ok c -> center_ok (f c) /\ forall k, active_priority k (f c) = active_priority k c) ->
  let p' := center_do f (set_catalogue tr p) in
  follows obs m p' /\ (shows_rest obs m p -> shows_rest obs m p').
Proof.
  intros [[(c & Hc & Hok) Hcat Hfault Hoth] Hobs H1 H2 H3 H4 H5] Htr Hf. cbv zeta. destruct (Hf c Hok) as [Hok' Ha].
  assert (Hp : center_do f (set_catalogue tr p) = set_center (Some (f c)) (set_catalogue tr p))
    by (unfold center_do; cbn; rewrite Hc; reflexivity).
  rewrite Hp.
  assert (Hal : forall k, alarm_of k (set_center (Some (f c)) (set_catalogue tr p)) = alarm_of k p).
  { intros k. unfold alarm_of. cbn. rewrite Hc. apply Ha. }
  split; [|auto]. split; auto.
  - split; [eauto|exact Htr|rewrite Hal; exact Hfault|intros k Hk; rewrite Hal; auto].
  - intros id e He. rewrite Hal. apply H1. exact He.
  - intros id q Hq. rewrite Hal. apply H3. exact Hq.
  - rewrite Hal. exact H4.
Qed.

Lemma observers_follow obs m p l :
  follows obs m p -> obs ∈ l -> follows obs m (set_observers l p).
Proof. intros [[] Hobs H1 H2 H3 H4 H5] Hin. split; auto. split; assumption. Qed.

(** Events of the plant and its operators: the model operations of the plant,
    alarm handling short of clearing everything, catalogues whose texts
    format, and views other than [obs] closing. *)
Definition event_ok (obs : nat) (e : station_event) : Prop :=
  match e with
  | Operate o => in_plant o
  | ClearAllAlarms => False
  | LanguageChanged tr => catalogue_ok tr
  | RemoveView o => o <> obs
  | _ => True
  end.

Lemma erase_other x y l : y <> x -> x ∈ l -> x ∈ erase_first y l.
Proof.
  intros Hne. induction l as [|z l IH]; intros Hin; cbn; [exact Hin|].
  apply elem_of_cons in Hin as [->|Hin].
  - destruct (Nat.eqb_spec z y); [congruence|left].
  - destruct (Nat.eqb z y); [exact Hin|right; auto].
Qed.

Lemma set_catalogue_same p : set_catalogue (active_catalogue p) p = p.
Proof. destruct p. reflexivity. Qed.

Lemma station_step_follows n me obs s e :
  model_ok n (st_model s) -> plant (st_model s) -> subscribed me (st_model s) ->
  follows obs (st_model s) (st_presenter s) -> shows_rest obs (st_model s) (st_presenter s) ->
  event_ok obs e -> 0 <= n -> 648 + 3 * n <= int_max ->
  exists s', station_step me e s = Ret s' /\ model_ok (n + 1) (st_model s') /\ plant (st_model s') /\
    subscribed me (st_model s') /\ follows obs (st_model s') (st_presenter s') /\ shows_rest obs (st_model s') (st_presenter s').
Proof.
  destruct s as [m p]. cbn [st_model st_presenter]. intros H P S F Sh He Hn Hmax.
  assert (H' : model_ok (n + 1) m) by (apply (ok_mono n); [exact H|lia]).
  assert (Hcenter : forall f, (forall c, center_ok c -> center_ok (f c) /\ forall k, active_priority k (f c) = active_priority k c) ->
    exists s', Ret (mkStation m (center_do f p)) = Ret s' /\ model_ok (n + 1) (st_model s') /\ plant (st_model s') /\
      subscribed me (st_model s') /\ follows obs (st_model s') (st_presenter s') /\ shows_rest obs (st_model s') (st_presenter s')).
  { intros f Hf. eexists. split; [reflexivity|]. cbn.
    pose proof (center_follows obs m p f (active_catalogue p) F (po_catalogue _ (fo_ok _ _ _ F)) Hf) as [F' S'].
    rewrite set_catalogue_same in F', S'. auto 10. }
  destruct e; cbn [station_step event_ok st_model st_presenter] in *; try contradiction.
  - destruct (plant_step n m o H P He Hn Hmax) as (m' & E & H1 & Ht & N).
    destruct (op_informs me _ m m' H1 (or_introl P) S Ht N) as (news & D & I).
    destruct (operate_follows o me obs m m' news p I (proj1 N) F (or_introl (proj1 Sh)) (or_introl (proj2 Sh))) as (p' & E' & F' & S').
    rewrite E. cbn [mbind outcome_bind]. rewrite D, drop_app_length, E'. cbn [mbind outcome_bind].
    eexists. split; [reflexivity|]. cbn. split; [exact H1|]. split; [apply N|]. split; [exact (subscribed_grow me _ _ N S)|auto].
  - apply Hcenter. intros c Hc. split; [apply (acknowledge_good _ _ _ Hc)|]. intros k'. apply acknowledge_active. exact Hc.
  - apply Hcenter. intros c Hc. split; [apply (shelve_good _ _ _ _ Hc)|]. intros k'. apply shelve_active.
  - apply Hcenter. intros c Hc. split; [apply (unshelve_good _ _ Hc)|]. intros k'. apply unshelve_active.
  - apply Hcenter. intros c Hc. split; [apply (clearHistory_good _ Hc)|]. intros k'. apply clearHistory_active.
  - eexists. split; [reflexivity|]. cbn.
    pose proof (center_follows obs m p (retranslate (run_callback tr (callbacks p))) tr F He) as [F' S'].
    { intros c Hc. split; [apply (retranslate_good _ _ Hc); apply run_callback_translates|].
      intros k. apply retranslate_active, run_callback_translates. }
    auto 10.
  - eexists. split; [reflexivity|]. cbn. split; [exact H'|]. split; [exact P|]. split; [exact S|].
    unfold addObserver. case_decide; [auto|]. split; [|exact Sh]. apply observers_follow; [exact F|].
    apply elem_of_app. left. apply F.
  - eexists. split; [reflexivity|]. cbn. split; [exact H'|]. split; [exact P|]. split; [exact S|].
    split; [|exact Sh]. apply observers_follow; [exact F|]. apply erase_other; [congruence|apply F].
Qed.
End Following.

Section Running.
Context {G : Type} `{RG : RandomSource G} `{CK : Clock}.
Implicit Types m : SimulatedModel G.

Lemma station_run_follows me obs l : forall n s,
  model_ok n (st_model s) -> plant (st_model s) -> subscribed me (st_model s) ->
  follows obs (st_model s) (st_presenter s) -> shows_rest obs (st_model s) (st_presenter s) ->
  Forall (event_ok obs) l -> 0 <= n -> 648 + 3 * (n + Z.of_nat (length l)) <= int_max ->
  exists s', station_run me l s = Ret s' /\ (exists n', model_ok n' (st_model s')) /\ plant (st_model s') /\
    follows obs (st_model s') (st_presenter s') /\ shows_rest obs (st_model s') (st_presenter s').
Proof.
  induction l as [|e l IH]; intros n s H P S F Sh Hl Hn Hmax; cbn [length station_run] in *.
  - exists s. split; [reflexivity|]. eauto.
  - apply Forall_cons in Hl as [He Hl].
    destruct (station_step_follows n me obs s e H P S F Sh He Hn) as (s1 & E & H1 & P1 & S1 & F1 & Sh1); [lia|].
    rewrite E. cbn [mbind outcome_bind]. apply (IH (n + 1)); auto; lia.
Qed.

Lemma operate_step me o m m' p p' news :
  op_apply o m = Ret m' -> delivered m' = delivered m ++ news ->
  handle_all (seen o m m') (inbox me news) p = Ret p' ->
  station_step me (Operate o) (mkStation m p) = Ret (mkStation m' p').
Proof.
  intros E D E'. cbn [station_step st_model st_presenter]. rewrite E. cbn [mbind outcome_bind].
  rewrite D, drop_app_length, E'. reflexivity.
Qed.

(** Loading the demo data into an empty model the presenter is subscribed to. *)
Lemma station_loads me m p obs :
  model_ok 0 m -> virgin m -> subscribed me m -> follows obs m p ->
  exists s, station_step me (Operate InitializeDemoData) (mkStation m p) = Ret s /\
    model_ok 0 (st_model s) /\ plant (st_model s) /\ subscribed me (st_model s) /\
    follows obs (st_model s) (st_presenter s) /\ shows_rest obs (st_model s) (st_presenter s).
Proof.
  intros H V S F. destruct (initialize_good 0 m H ltac:(lia)) as [H' T].
  pose proof (initialize_news 0 m H ltac:(lia) (or_intror V)) as N.
  destruct (op_informs me 0 m _ H' (or_intror V) S T N) as (news & D & I).
  destruct (initialize_delivers 0 m H ltac:(lia)) as (l & m1 & E & D1 & S1).
  destruct (operate_follows InitializeDemoData me obs m (initializeDemoData m) news p I (proj1 N) F)
    as (p' & E' & F' & Sh').
  { right. exists (DState me (getState m1)). split; [|cbn; auto].
    rewrite E in D. cbn [delivered deliver] in D. rewrite D1 in D. apply app_inv_head in D as <-.
    do 5 (apply elem_of_app; right). apply news_told. rewrite S1. apply S. }
  { right. exists (DWorkUnit me (currentWorkUnit_ m1)). split; [|cbn; auto].
    rewrite E in D. cbn [delivered deliver] in D. rewrite D1 in D. apply app_inv_head in D as <-.
    do 4 (apply elem_of_app; right). apply elem_of_app. left. apply news_told. rewrite S1. apply S. }
  exists (mkStation (initializeDemoData m) p'). split.
  { apply (operate_step me InitializeDemoData m (initializeDemoData m) p p' news); [reflexivity|exact D|exact E']. }
  split; [exact H'|]. split; [apply N|]. split; [exact (subscribed_grow me _ _ N S)|]. auto.
Qed.

(** The start: the presenter is subscribed and the demo data is loaded. *)
Lemma station_started me (g : G) tr obs :
  catalogue_ok tr ->
  exists s, station_step me (Operate InitializeDemoData) (station_init me g tr obs) = Ret s /\
    model_ok 0 (st_model s) /\ plant (st_model s) /\ subscribed me (st_model s) /\
    follows obs (st_model s) (st_presenter s) /\ shows_rest obs (st_model s) (st_presenter s).
Proof.
  intros Htr. apply station_loads.
  - repeat apply subscribe_good. apply model_init_ok.
  - repeat split.
  - unfold subscribed. cbn. repeat split; left.
  - split; try (intros id x Hx; discriminate Hx).
    + split; [eexists; split; [reflexivity|apply center_init_ok]|exact Htr|reflexivity|reflexivity].
    + left.
    + reflexivity.
    + constructor.
Qed.

Lemma station_runs me (g : G) tr obs l :
  catalogue_ok tr -> Forall (event_ok obs) l -> Z.of_nat (length l) < 700000000 ->
  exists s, station_run me (Operate InitializeDemoData :: l) (station_init me g tr obs) = Ret s /\
    (exists n, model_ok n (st_model s)) /\ plant (st_model s) /\
    follows obs (st_model s) (st_presenter s) /\ shows_rest obs (st_model s) (st_presenter s).
Proof.
  intros Htr Hl Hlen. destruct (station_started me g tr obs Htr) as (s0 & E & H & P & S & F & Sh).
  cbn [station_run]. rewrite E. cbn [mbind outcome_bind].
  apply (station_run_follows me obs l 0); auto; [lia|unfold int_max; lia].
Qed.

(** The alarms of a presenter that follows the model. *)
Lemma follows_alarms n obs m p k prio :
  model_ok n m -> plant m -> follows obs m p ->
  alarm_of k p = Some prio <-> (k, Some prio) ∈ alarm_sources m.
Proof.
  intros H P F. unfold alarm_sources. rewrite !elem_of_app. split.
  - intros Ha. destruct (decide (k ∈ source_keys)) as [Hk|Hk]; [|rewrite (po_others _ (fo_ok _ _ _ F) k Hk) in Ha; discriminate].
    assert (Hline : forall id, 0 <= id < 3 -> k = line_key id ->
      (k, Some prio) ∈ map (fun e => (line_key (fst e), line_alarm (eq_status (snd e)))) (equipmentStatuses_ m)).
    { intros id Hid ->. destruct (keys_get id _ _ (mo_equipment _ _ H) (pl_lines _ P) (three id Hid)) as [e He].
      rewrite <- Ha, (proj1 (fo_lines _ _ _ F id e He)).
      apply (list_elem_of_fmap_2 (fun e => (line_key (fst e), line_alarm (eq_status (snd e)))) _ (id, e)). apply sm_get_in, He. }
    assert (Hcheck : forall id, 0 <= id < 3 -> k = checkpoint_key id ->
      (k, Some prio) ∈ map (fun c => (checkpoint_key (fst c), checkpoint_alarm (passRate (snd c)))) (qualityCheckpoints_ m)).
    { intros id Hid ->. destruct (keys_get id _ _ (mo_quality _ _ H) (pl_checkpoints _ P) (three id Hid)) as [c Hc].
      rewrite <- Ha, (proj1 (fo_checkpoints _ _ _ F id c Hc)).
      apply (list_elem_of_fmap_2 (fun c => (checkpoint_key (fst c), checkpoint_alarm (passRate (snd c)))) _ (id, c)). apply sm_get_in, Hc. }
    unfold source_keys in Hk. rewrite !elem_of_cons in Hk.
    destruct Hk as [E|[E|[E|[E|[E|[E|[E|E]]]]]]].
    1-3: left; eapply Hline; [|exact E]; lia.
    1-3: right; left; eapply Hcheck; [|exact E]; lia.
    + right. right. subst k. rewrite (fo_state _ _ _ F) in Ha. rewrite Ha. left.
    + inversion E.
  - intros [Hin|[Hin|Hin]].
    + apply list_elem_of_fmap in Hin as ([id e] & [= -> Hp] & Hin). cbn in Hp. rewrite Hp.
      apply (fo_lines _ _ _ F). apply sm_in_get; [apply H|exact Hin].
    + apply list_elem_of_fmap in Hin as ([id c] & [= -> Hp] & Hin). cbn in Hp. rewrite Hp.
      apply (fo_checkpoints _ _ _ F). apply sm_in_get; [apply H|exact Hin].
    + apply list_elem_of_singleton in Hin as [= -> ->]. apply (fo_state _ _ _ F).
Qed.
End Running.

(* ------------------------------------------------------------------ *)
(** ** Properties *)

(** C7: The alarms mirror the plant. From the start of the program and under every
    interleaving of model operations of the plant with operators who
    acknowledge, shelve, unshelve and clear history, language switches and
    views coming and going, no handler throws, and the alarm of key [k] is
    active with priority [prio] exactly when the model calls for it: an
    offline line (medium) or a line in error (high), a checkpoint below 95 %
    (medium) or below 90 % (high), the ERROR state (emergency). *)
Theorem alarms_mirror_model {G} `{RandomSource G} `{Clock} (me view : nat) (g : G) (tr : catalogue) l :
  catalogue_ok tr -> Forall (event_ok view) l -> Z.of_nat (length l) < 700000000 ->
  exists s c, station_run me (Operate InitializeDemoData :: l) (station_init me g tr view) = Ret s /\
    alertCenter_ (st_presenter s) = Some c /\
    forall k prio, active_priority k c = Some prio <-> (k, Some prio) ∈ alarm_sources (st_model s).
Proof.
  intros Htr Hl Hlen. destruct (station_runs me g tr view l Htr Hl Hlen) as (s & E & [n Hn] & P & F & _).
  destruct (po_center _ (fo_ok _ _ _ F)) as (c & Hc & _). exists s, c. split; [exact E|]. split; [exact Hc|].
  intros k prio. rewrite <- (alarm_of_center _ c k Hc). exact (follows_alarms n view _ _ k prio Hn P F).
Qed.

(** C8: The dashboard shows the plant. In the same runs a view that stays open
    shows last, for every line and actuator its present status, for every
    checkpoint the card of its present values, and the buttons of the
    present system state. *)
Theorem dashboard_shows_model {G} `{RandomSource G} `{Clock} (me view : nat) (g : G) (tr : catalogue) l :
  catalogue_ok tr -> Forall (event_ok view) l -> Z.of_nat (length l) < 700000000 ->
  exists s, station_run me (Operate InitializeDemoData :: l) (station_init me g tr view) = Ret s /\
    let m := st_model s in let sh := shown (st_presenter s) in
    (forall id e, sm_get id (equipmentStatuses_ m) = Some e -> line_shown view id sh = Some (line_status (eq_status e))) /\
    (forall id a, sm_get id (actuatorStatuses_ m) = Some a -> actuator_shown view id sh = Some (actuator_status (act_status a))) /\
    (forall id c, sm_get id (qualityCheckpoints_ m) = Some c -> checkpoint_shown view id sh = Some (quality_card c)) /\
    panel_shown view sh = Some (buildControlPanelVM (getState m)).
Proof.
  intros Htr Hl Hlen. destruct (station_runs me g tr view l Htr Hl Hlen) as (s & E & _ & _ & F & Sh).
  exists s. split; [exact E|]. cbv zeta. split; [|split; [|split]].
  - intros id e He. apply (fo_lines _ _ _ F). exact He.
  - apply (fo_actuators _ _ _ F).
  - intros id c Hc. apply (fo_checkpoints _ _ _ F). exact Hc.
  - exact (proj1 Sh).
Qed.

#[export] Instance DemoClock : Clock := {| steady n := Z.of_nat n; wall n := "12:00:00" |}.

(** The alarms after a run with one view. *)
Definition alarms_after (l : list station_event) : list (string * bool) :=
  match station_run 3 (Operate InitializeDemoData :: l) (station_init 3 tt id 1) with
  | Ret s => match alertCenter_ (st_presenter s) with
             | Some c => map (fun it => (key (vm it), conditionActive it)) (alarms_ c) | None => [] end
  | _ => []
  end.

(** Two gaps in the alarms. Enabling the line 3, which the model's guard
    admits and which does not exist, withdraws the alarm of line 0 although
    line 0 stays offline. And because the fault alarm is raised on the edge
    into ERROR only, clearing all alarms while the system is in ERROR loses
    it, also when another fault follows. *)
Theorem alarm_gaps_refuted :
  ("equipment-0", true) ∈ alarms_after [Operate (SetEquipmentEnabled 0 false)] /\
  ("equipment-0", false) ∈ alarms_after [Operate (SetEquipmentEnabled 0 false); Operate (SetEquipmentEnabled 3 true)] /\
  ("system-error", true) ∈ alarms_after [Operate (TriggerFault "jam")] /\
  kSystemErrorKey ∉ map fst (alarms_after [Operate (TriggerFault "jam"); ClearAllAlarms; Operate (TriggerFault "fire")]).
Proof.
  split_and!; [apply (bool_decide_unpack _)|apply (bool_decide_unpack _)|apply (bool_decide_unpack _)|];
    [vm_compute; exact I..|]. intros H. vm_compute in H. inversion H.
Qed.

(* ------------------------------------------------------------------ *)
(** ** Witnesses *)

(** The source texts, untranslated. *)
Lemma source_texts_ok : catalogue_ok id.
Proof. intros [i [] | [] n r t | reason]; eexists; reflexivity. Qed.

Definition demo_events : list station_event :=
  [Operate (SetEquipmentEnabled 0 false); Operate (TriggerFault "jam"); AckAlarm "system-error";
   ShelveAlarm "equipment-0" 60; LanguageChanged id; AddView 5; Operate (SetQualityPassRate 0 (f32_of_Z 88));
   RemoveView 5; Operate (TickSimulation 7); Operate ResetSystem].

Lemma demo_events_ok : Forall (event_ok 1) demo_events.
Proof.
  repeat (apply Forall_cons; split; [first [exact I|exact source_texts_ok|cbn; unfold is_u32; lia]|]). apply Forall_nil. exact I.
Qed.

Lemma alarms_mirror_model_witness :
  exists s c, station_run 3 (Operate InitializeDemoData :: demo_events) (station_init 3 tt id 1) = Ret s /\
    alertCenter_ (st_presenter s) = Some c /\
    forall k prio, active_priority k c = Some prio <-> (k, Some prio) ∈ alarm_sources (st_model s).
Proof. apply (alarms_mirror_model 3 1 tt id demo_events source_texts_ok demo_events_ok). cbn. lia. Defined.

Lemma dashboard_shows_model_witness :
  exists s, station_run 3 (Operate InitializeDemoData :: demo_events) (station_init 3 tt id 1) = Ret s /\
    panel_shown 1 (shown (st_presenter s)) = Some (buildControlPanelVM (getState (st_model s))).
Proof.
  destruct (dashboard_shows_model 3 1 tt id demo_events source_texts_ok demo_events_ok) as (s & E & _ & _ & _ & Hp); [cbn; lia|].
  exists s. split; [exact E|exact Hp].
Defined.

(** What the run above ends with. *)
Example demo_alarms_end :
  match station_run 3 (Operate InitializeDemoData :: demo_events) (station_init 3 tt id 1) with
  | Ret s => match alertCenter_ (st_presenter s) with
             | Some c => map (fun it => (key (vm it), title (vm it), priority (vm it), conditionActive it)) (alarms_ c)
             | None => [] end
  | _ => []
  end = [("equipment-2", "Equipment 2 offline", 3, true); ("quality-2", "Final Inspection below target", 3, true);
         ("equipment-0", "Equipment 0 offline", 3, true); ("quality-0", "Weight Check critical", 2, true)].
Proof. vm_compute. reflexivity. Qed.
