(* ===== verification/Auth.v ===== *)
(** * Accounts, sessions and login
    (src/auth/Role.h, User.h, Session.h, AuditEvent.h, PasswordHasher.h,
    UserRepository.h)

    Roles and their permissions, the session, and the interfaces of the user
    store and of the password hasher as classes with the laws their headers
    document. UserStore implements the former; the Argon2 hasher, a library,
    stands behind the latter. *)
From Stdlib Require Import Ascii String.
From stdpp Require Import strings pretty.
From S2P Require Import Prelude.
Local Open Scope string_scope.
Local Open Scope Z_scope.
Local Open Scope list_scope.

(* ------------------------------------------------------------------ *)
(** ** Roles *)

Inductive Role := Operator | Maintenance | Admin.

#[export] Instance Role_eq_dec : EqDecision Role.
Proof. solve_decision. Defined.

(** The underlying [std::uint8_t]. *)
Definition role_value (r : Role) : Z :=
  match r with Operator => 0 | Maintenance => 1 | Admin => 2 end.

Definition roleName (r : Role) : string :=
  match r with Operator => "OPERATOR" | Maintenance => "MAINTENANCE" | Admin => "ADMIN" end.

Definition parseRole (s : string) : Role :=
  if String.eqb s "ADMIN" then Admin
  else if String.eqb s "MAINTENANCE" then Maintenance
  else Operator.

Definition role_at_least (r floor : Role) : bool := role_value floor <=? role_value r.

Definition canStartStop (r : Role) : bool := role_at_least r Operator.
Definition canCalibrate (r : Role) : bool := role_at_least r Maintenance.
Definition canResetSystem (r : Role) : bool := role_at_least r Maintenance.
Definition canInjectFault (r : Role) : bool := role_at_least r Maintenance.
Definition canEditProducts (r : Role) : bool := role_at_least r Maintenance.
Definition canManageUsers (r : Role) : bool := role_at_least r Admin.
Definition canViewAuditLog (r : Role) : bool := role_at_least r Admin.
Definition canDismissAlerts (r : Role) : bool := role_at_least r Operator.

Lemma roleName_roundtrip r : parseRole (roleName r) = r.
Proof. destruct r; reflexivity. Qed.

(* ------------------------------------------------------------------ *)
(** ** Data *)

Record User := mkUser {
  id : Z;
  username : string;
  passwordHash : string;
  role : Role;
  enabled : bool;
  displayName : string;
  avatarMime : string;
  createdAt : string;
  updatedAt : string;
}.

#[export] Instance User_eq_dec : EqDecision User.
Proof. solve_decision. Defined.

(** [User{}]. *)
Definition user_default : User := mkUser (-1) "" "" Operator true "" "" "" "".

Record AuditEvent := mkAudit {
  ev_username : string;
  ev_role : string;
  ev_category : string;
  ev_action : string;
  ev_details : string;
  ev_result : string;
}.

Definition kAuth : string := "AUTH".
Definition kProduction : string := "PRODUCTION".
Definition kEquipment : string := "EQUIPMENT".
Definition kUser : string := "USER".
Definition kSuccess : string := "SUCCESS".
Definition kFailure : string := "FAILURE".

Record Avatar := mkAvatar { av_bytes : list Z; av_mime : string }.

(** [Session]: the signed-in user and how often [signalChanged] fired. *)
Record Session := mkSession { current_ : option User; changed : nat }.

Definition session_init : Session := mkSession None 0.
Definition setUser (u : User) (s : Session) : Session := mkSession (Some u) (S (changed s)).
Definition session_clear (s : Session) : Session := mkSession None (S (changed s)).
Definition currentUser (s : Session) : option User := current_ s.
Definition isAuthenticated (s : Session) : bool := match current_ s with Some _ => true | None => false end.
Definition currentUsername (s : Session) : string :=
  match current_ s with Some u => username u | None => "unknown" end.

(* ------------------------------------------------------------------ *)
(** ** Interfaces *)

(** [std::tolower] and the character classes on ASCII, as in every locale
    the program runs in for single bytes. *)
Definition in_range (lo hi : Z) (c : ascii) : bool :=
  let v := Z.of_N (N_of_ascii c) in (lo <=? v) && (v <=? hi).
Definition is_upper : ascii -> bool := in_range 65 90.
Definition is_lower : ascii -> bool := in_range 97 122.
Definition is_digit : ascii -> bool := in_range 48 57.
Definition is_alpha (c : ascii) : bool := is_upper c || is_lower c.
Definition is_alnum (c : ascii) : bool := is_alpha c || is_digit c.
Definition to_lower (c : ascii) : ascii :=
  if is_upper c then ascii_of_N (N_of_ascii c + 32) else c.

Fixpoint canonicalUsername (raw : string) : string :=
  match raw with
  | EmptyString => EmptyString
  | String c s => String (to_lower c) (canonicalUsername s)
  end.

(** Replaced by [update]: everything but the id, the username, the avatar and
    the creation time. *)
Definition updated_row (u row : User) : User :=
  mkUser (id row) (username row) (passwordHash u) (role u) (enabled u) (displayName u)
         (avatarMime row) (createdAt row) (updatedAt row).

(** The same row but for its modification time. *)
Definition same_row (a b : User) : Prop :=
  id a = id b /\ username a = username b /\ passwordHash a = passwordHash b /\ role a = role b /\
  enabled a = enabled b /\ displayName a = displayName b /\ avatarMime a = avatarMime b /\ createdAt a = createdAt b.

(** The row with another kind of picture. *)
Definition with_avatar (mime : string) (u : User) : User :=
  mkUser (id u) (username u) (passwordHash u) (role u) (enabled u) (displayName u) mime (createdAt u) (updatedAt u).

(** Texts are read back as C strings. *)
Definition stored_text (u : User) : User :=
  mkUser (id u) (c_str (username u)) (c_str (passwordHash u)) (role u) (enabled u) (c_str (displayName u))
         (c_str (avatarMime u)) (c_str (createdAt u)) (c_str (updatedAt u)).

(** The user store. [listAll] is its contents; the laws are the contract of
    UserRepository.h. Usernames compare without regard to case, and one with a
    NUL is outside the contract; a mutation that reports failure changed
    nothing. *)
Class UserRepository (R : Type) := {
  findByUsername : R -> string -> option User;
  findById : R -> Z -> option User;
  listAll : R -> list User;
  create : R -> User -> option User * R;
  update : R -> User -> bool * R;
  remove : R -> Z -> bool * R;
  setAvatar : R -> Z -> list Z -> string -> bool * R;
  clearAvatar : R -> Z -> bool * R;
  getAvatar : R -> Z -> option Avatar;
  count : R -> Z;
  store_ok : R -> Prop;
  unique_law : forall r, store_ok r ->
    NoDup (map id (listAll r)) /\ NoDup (map (fun u => canonicalUsername (username u)) (listAll r));
  findByUsername_law : forall r n, store_ok r ->
    findByUsername r n =
      List.find (fun u => String.eqb (canonicalUsername (username u)) (canonicalUsername n)) (listAll r);
  findById_law : forall r i, store_ok r -> findById r i = List.find (fun u => id u =? i) (listAll r);
  count_law : forall r, store_ok r -> count r = Z.of_nat (length (listAll r));
  text_law : forall r, store_ok r -> Forall (fun u => stored_text u = u) (listAll r);
  create_law : forall r u o r', store_ok r -> c_str (username u) = username u -> create r u = (o, r') -> store_ok r' /\
    match o with
    | Some u' => username u' = username u /\ role u' = role u /\
                 Forall (fun v => id v <> id u' /\ canonicalUsername (username v) <> canonicalUsername (username u)) (listAll r) /\
                 exists row, same_row row (stored_text (mkUser (id u') (username u) (passwordHash u) (role u) (enabled u) (displayName u) "" (createdAt u') "")) /\
                   listAll r' = listAll r ++ [row]
    | None => listAll r' = listAll r
    end;
  update_law : forall r u b r', store_ok r -> update r u = (b, r') -> store_ok r' /\
    Forall2 (fun old new => same_row new (if (b : bool) && (id old =? id u) then updated_row (stored_text u) old else old))
      (listAll r) (listAll r') /\
    forall j, getAvatar r' j = getAvatar r j;
  remove_law : forall r i b r', store_ok r -> remove r i = (b, r') -> store_ok r' /\
    listAll r' = if (b : bool) then List.filter (fun u => negb (id u =? i)) (listAll r) else listAll r;
  setAvatar_law : forall r i bytes mime b r', store_ok r -> setAvatar r i bytes mime = (b, r') -> store_ok r' /\
    Forall2 (fun old new => same_row new (if (b : bool) && (id old =? i) then with_avatar mime old else old)) (listAll r) (listAll r') /\
    forall j, getAvatar r' j = if b && (j =? i) then Some (mkAvatar bytes mime) else getAvatar r j;
  clearAvatar_law : forall r i b r', store_ok r -> clearAvatar r i = (b, r') -> store_ok r' /\
    Forall2 (fun old new => same_row new (if (b : bool) && (id old =? i) then with_avatar "" old else old)) (listAll r) (listAll r') /\
    forall j, getAvatar r' j = if b && (j =? i) then None else getAvatar r j;
}.

(** The password hasher; [None] is a thrown exception. A digest is text
    without NUL. *)
Class PasswordHasher (H : Type) := {
  hash : H -> string -> option string * H;
  verify : H -> string -> string -> option bool;
  hash_verifies : forall h p d h' h2, hash h p = (Some d, h') -> verify h2 p d = Some true;
  hash_text : forall h p d h', hash h p = (Some d, h') -> c_str d = d;
}.

(* ------------------------------------------------------------------ *)
(** ** Lemmas *)

Lemma to_lower_idem c : to_lower (to_lower c) = to_lower c.
Proof. destruct c as [[] [] [] [] [] [] [] []]; reflexivity. Qed.

Lemma canonical_idem s : canonicalUsername (canonicalUsername s) = canonicalUsername s.
Proof. induction s as [|c s IH]; cbn; [reflexivity|]. rewrite to_lower_idem, IH. reflexivity. Qed.

Lemma map_same {A B} (f : A -> B) (h : A -> A) l : (forall x, f (h x) = f x) -> map f (map h l) = map f l.
Proof. intros Hf. rewrite map_map. apply map_ext. exact Hf. Qed.

Lemma same_row_refl u : same_row u u.
Proof. unfold same_row. auto 10. Qed.

Lemma same_rows_refl l : Forall2 (fun old new => same_row new old) l l.
Proof. apply Forall_Forall2_diag. apply Forall_forall. intros u _. apply same_row_refl. Qed.
