(* ===== verification/UserStore.v ===== *)
(** * The SQLite user store
    (src/auth/SqliteUserRepository.{h,cpp})

    The users table with its constraints and its schema versions, the
    migration ladder, and every operation, whatever way its statements end.
    A store in good order implements the [UserRepository] interface the login
    service and the user management are verified against. *)
From Stdlib Require Import Ascii String.
From stdpp Require Import strings sorting.
From S2P Require Import Prelude Sql Auth.
Local Open Scope string_scope.
Local Open Scope Z_scope.
Local Open Scope list_scope.

(* ------------------------------------------------------------------ *)
(** ** Rows and schema *)

(** Texts are stored whole; the role column holds the role's value. *)
Record user_row := mkUserRow {
  ur_id : Z;
  ur_username : string;
  ur_hash : string;
  ur_role : Role;
  ur_enabled : bool;
  ur_created : string;
  ur_display : option string;
  ur_mime : option string;
  ur_blob : option (list Z);
  ur_updated : option string;
}.

Record user_tables := mkUsers { users_rows : list user_row; users_sequence : Z }.
Definition no_users : user_tables := mkUsers [] 0.

(** [PRAGMA user_version], the table, and the columns of version 2 that have
    been added, in order: display_name, avatar_mime, avatar_blob,
    updated_at. *)
Record user_schema := mkUserSchema { user_version : Z; has_users : bool; added_columns : nat }.
Definition new_file : user_schema := mkUserSchema 0 false 0.

Abbreviation UserDb := (Database user_schema user_tables).

(** The store: its connection, and the readings of the clock to come. *)
Record SqliteUsers := mkSqliteUsers { su_db : UserDb; su_clock : list string }.
Definition su_set_db (db : UserDb) (s : SqliteUsers) : SqliteUsers := mkSqliteUsers db (su_clock s).
Definition nowIso8601 (s : SqliteUsers) : string * SqliteUsers := (hd "" (su_clock s), mkSqliteUsers (su_db s) (tl (su_clock s))).

Definition kCurrentSchemaVersion : Z := 2.
Definition max_rowid : Z := 9223372036854775807.
Definition kMaxAvatarBytes : Z := 256 * 1024.

(** COLLATE NOCASE: ASCII letters fold; the comparison stops at a NUL, and
    then the lengths decide. *)
Fixpoint nocase_eq (a b : string) : bool :=
  match a, b with
  | EmptyString, EmptyString => true
  | String c a, String d b =>
      Ascii.eqb (to_lower c) (to_lower d) &&
      (if Ascii.eqb c Ascii.zero then Nat.eqb (String.length a) (String.length b) else nocase_eq a b)
  | _, _ => false
  end.

(** [columnTextOrEmpty]. *)
Definition column_text (o : option string) : string := match o with Some s => c_str s | None => "" end.

Definition extractUser (r : user_row) : User :=
  mkUser (ur_id r) (c_str (ur_username r)) (c_str (ur_hash r)) (ur_role r) (ur_enabled r) (column_text (ur_display r))
         (column_text (ur_mime r)) (c_str (ur_created r)) (column_text (ur_updated r)).

(* ------------------------------------------------------------------ *)
(** ** Schema and migration *)

(** The statements that name the columns of version 2, and those that do
    not. *)
Definition all_columns (h : user_schema) : bool := has_users h && (4 <=? added_columns h)%nat.

Definition create_table (s : UserDb) : bool * UserDb :=
  let '(r, s) := statement s in
  if decide (r = SqlOk) then (true, st_schema (mkUserSchema (user_version (db_schema s)) true (added_columns (db_schema s))) s) else (false, s).

Definition readSchemaVersion (s : UserDb) : Z * UserDb :=
  let '(r, s) := statement s in
  if decide (r = SqlOk) then let '(r, s) := statement s in (if decide (r = SqlOk) then user_version (db_schema s) else 0, s) else (0, s).

(** [execSimple] of [PRAGMA user_version = n]. *)
Definition set_version (n : Z) (s : UserDb) : bool * UserDb :=
  let '(r, s) := statement s in
  if decide (r = SqlOk) then (true, st_schema (mkUserSchema n (has_users (db_schema s)) (added_columns (db_schema s))) s) else (false, s).

(** [ALTER TABLE users ADD COLUMN] of the [i]-th column: an error when it is
    there. *)
Definition add_column (i : nat) (s : UserDb) : bool * UserDb :=
  let '(r, s) := statement s in
  if (added_columns (db_schema s) =? i)%nat && has_users (db_schema s) && bool_decide (r = SqlOk)
  then (true, st_schema (mkUserSchema (user_version (db_schema s)) (has_users (db_schema s)) (S i)) s) else (false, s).

Fixpoint exec_steps (steps : list (UserDb -> bool * UserDb)) (s : UserDb) : bool * UserDb :=
  match steps with
  | [] => (true, s)
  | f :: steps => let '(ok, s) := f s in if ok : bool then exec_steps steps s else (false, s)
  end.
Definition v2_steps : list (UserDb -> bool * UserDb) := [add_column 0; add_column 1; add_column 2; add_column 3; set_version 2].

(** The ladder, [fuel] turns of its loop. *)
Fixpoint ladder (fuel : nat) (version : Z) (s : UserDb) : option (bool * UserDb) :=
  if kCurrentSchemaVersion <=? version then Some (true, s)
  else
    match fuel with
    | O => None
    | S fuel =>
        if version =? 0 then
          let '(ok, s) := set_version 1 s in
          if negb ok then Some (false, s) else let '(version, s) := readSchemaVersion s in ladder fuel version s
        else if version =? 1 then
          let '(ok, s) := exec_steps v2_steps s in
          if negb ok then Some (false, s) else let '(version, s) := readSchemaVersion s in ladder fuel version s
        else Some (false, s)
    end.
Definition applyMigrations (fuel : nat) (s : UserDb) : option (bool * UserDb) :=
  let '(version, s) := readSchemaVersion s in ladder fuel version s.

(** [initialize]: the file is opened or not; what it holds stays. *)
Definition initialize (fuel : nat) (opens : bool) (s : UserDb) : option (bool * UserDb) :=
  let s := mkStore opens (db_schema s) (db_disk s) (db_disk s) false (db_results s) in
  if negb opens then Some (false, s)
  else
    let '(ok, s) := create_table s in
    if negb ok then Some (false, s) else applyMigrations fuel s.

(* ------------------------------------------------------------------ *)
(** ** Queries *)

(** A SELECT of at most one row: it is stepped once. *)
Definition query (has : user_schema -> bool) {A} (rows : user_tables -> list A) (s : UserDb) : list A * UserDb :=
  if negb (db_open s) then ([], s)
  else
    let '(prepared, s) := sql_prepare has s in
    if negb prepared then ([], s) else sql_select rows s.

Definition by_user_id (a b : user_row) : Prop := ur_id a <= ur_id b.
#[export] Instance by_user_id_dec a b : Decision (by_user_id a b) := Z_le_dec _ _.

Definition sql_findByUsername (username : string) (s : UserDb) : option User * UserDb :=
  let '(rows, s) := query all_columns (fun t => List.filter (fun r => nocase_eq (ur_username r) username) (users_rows t)) s in
  (option_map extractUser (head rows), s).

Definition sql_findById (id : Z) (s : UserDb) : option User * UserDb :=
  let '(rows, s) := query all_columns (fun t => List.filter (fun r => ur_id r =? id) (users_rows t)) s in
  (option_map extractUser (head rows), s).

Definition sql_listAll (s : UserDb) : list User * UserDb :=
  let '(rows, s) := query all_columns (fun t => merge_sort by_user_id (users_rows t)) s in
  (map extractUser rows, s).

Definition sql_count (s : UserDb) : Z * UserDb :=
  let '(rows, s) := query has_users (fun t => [Z.of_nat (length (users_rows t))]) s in
  (default 0 (head rows), s).

Definition sql_getAvatar (id : Z) (s : UserDb) : option Avatar * UserDb :=
  let '(rows, s) := query all_columns (fun t => List.filter (fun r => ur_id r =? id) (users_rows t)) s in
  (r ← head rows; blob ← ur_blob r; mime ← ur_mime r; Some (mkAvatar blob (c_str mime)), s).

(* ------------------------------------------------------------------ *)
(** ** Changes *)

(** An empty display name is bound as NULL. *)
Definition or_null (s : string) : option string := if String.eqb s "" then None else Some s.

(** UNIQUE COLLATE NOCASE; AUTOINCREMENT ends at the last rowid. *)
Definition insert_user (u : User) (createdAt updatedAt : string) (t : user_tables) : option user_tables :=
  if existsb (fun r => nocase_eq (ur_username r) (username u)) (users_rows t) || (max_rowid <=? users_sequence t) then None
  else
    let id := users_sequence t + 1 in
    Some (mkUsers (users_rows t ++ [mkUserRow id (username u) (passwordHash u) (role u) (enabled u) createdAt (or_null (displayName u)) None None (Some updatedAt)]) id).

Definition change_user (id : Z) (f : user_row -> user_row) (t : user_tables) : user_tables :=
  mkUsers (map (fun r => if ur_id r =? id then f r else r) (users_rows t)) (users_sequence t).

Definition sqlite_create (u : User) (s : SqliteUsers) : option User * SqliteUsers :=
  if negb (db_open (su_db s)) then (None, s)
  else
    let '(prepared, db) := sql_prepare all_columns (su_db s) in
    let s := su_set_db db s in
    if negb prepared then (None, s)
    else
      let '(created, s) := if String.eqb (createdAt u) "" then nowIso8601 s else (createdAt u, s) in
      let updated := if String.eqb (updatedAt u) "" then created else updatedAt u in
      let '(ok, db) := sql_attempt (insert_user u created updated) (su_db s) in
      let s := su_set_db db s in
      if negb ok then (None, s)
      else (Some (mkUser (users_sequence (db_view db)) (username u) (passwordHash u) (role u) (enabled u) (displayName u) (avatarMime u) created updated), s).

(** A statement on the rows of an id, and whether it changed any. *)
Definition change_row (has : user_schema -> bool) (id : Z) (f : user_tables -> user_tables) (s : UserDb) : bool * UserDb :=
  let changed := existsb (fun r => ur_id r =? id) (users_rows (db_view s)) in
  let '(ok, s) := sql_change f s in
  ((ok : bool) && changed, s).

Definition sqlite_change (has : user_schema -> bool) (stamped : bool) (id : Z) (f : string -> user_tables -> user_tables) (s : SqliteUsers) : bool * SqliteUsers :=
  if negb (db_open (su_db s)) then (false, s)
  else
    let '(prepared, db) := sql_prepare has (su_db s) in
    let s := su_set_db db s in
    if negb prepared then (false, s)
    else
      let '(now, s) := if stamped then nowIso8601 s else ("", s) in
      let '(ok, db) := change_row has id (f now) (su_db s) in
      (ok, su_set_db db s).

Definition sqlite_update (u : User) : SqliteUsers -> bool * SqliteUsers :=
  sqlite_change all_columns true (id u) (fun now => change_user (id u) (fun r =>
    mkUserRow (ur_id r) (ur_username r) (passwordHash u) (role u) (enabled u) (ur_created r) (or_null (displayName u)) (ur_mime r) (ur_blob r) (Some now))).

Definition sqlite_remove (i : Z) : SqliteUsers -> bool * SqliteUsers :=
  sqlite_change has_users false i (fun _ t => mkUsers (List.filter (fun r => negb (ur_id r =? i)) (users_rows t)) (users_sequence t)).

Definition isAllowedAvatarMime (mime : string) : bool := String.eqb mime "image/png" || String.eqb mime "image/jpeg".

Definition sqlite_setAvatar (i : Z) (bytes : list Z) (mime : string) (s : SqliteUsers) : bool * SqliteUsers :=
  if bool_decide (bytes = []) || (kMaxAvatarBytes <? Z.of_nat (length bytes)) then (false, s)
  else if negb (isAllowedAvatarMime mime) then (false, s)
  else
    sqlite_change all_columns true i (fun now => change_user i (fun r =>
      mkUserRow (ur_id r) (ur_username r) (ur_hash r) (ur_role r) (ur_enabled r) (ur_created r) (ur_display r) (Some mime) (Some bytes) (Some now))) s.

Definition sqlite_clearAvatar (i : Z) : SqliteUsers -> bool * SqliteUsers :=
  sqlite_change all_columns true i (fun now => change_user i (fun r =>
    mkUserRow (ur_id r) (ur_username r) (ur_hash r) (ur_role r) (ur_enabled r) (ur_created r) (ur_display r) None None (Some now))).

(* ------------------------------------------------------------------ *)
(** ** Lemmas: a store in good order *)

Record users_typed (t : user_tables) : Prop := {
  ut_sequence : 0 <= users_sequence t;
  ut_ids : Forall (fun r => 0 < ur_id r <= users_sequence t) (users_rows t);
  ut_sorted : StronglySorted Z.lt (map ur_id (users_rows t));
  ut_names : NoDup (map (fun r => canonicalUsername (ur_username r)) (users_rows t));
  ut_text : Forall (fun r => c_str (ur_username r) = ur_username r) (users_rows t);
}.

(** Open, with all columns, outside a transaction, its statements ending
    well. *)
Definition users_at (sch : user_schema) (t : user_tables) (clock : list string) : SqliteUsers := mkSqliteUsers (mkStore true sch t t false []) clock.
Definition users_good (s : SqliteUsers) : Prop := exists sch t clock, s = users_at sch t clock /\ all_columns sch = true /\ users_typed t.

Lemma to_lower_zero c : to_lower c = Ascii.zero -> c = Ascii.zero.
Proof. destruct c as [[] [] [] [] [] [] [] []]; cbv; congruence. Qed.

(** NOCASE is the equality of canonical names, on names without NUL. *)
Lemma nocase_canonical a : c_str a = a -> forall b, nocase_eq a b = String.eqb (canonicalUsername a) (canonicalUsername b).
Proof.
  induction a as [|c a IH]; intros Ha [|d b]; try reflexivity. cbn [c_str] in Ha. case_bool_decide as Hc; [discriminate|]. injection Ha as Ha.
  cbn [nocase_eq canonicalUsername String.eqb]. apply Ascii.eqb_neq in Hc. rewrite Hc.
  destruct (Ascii.eqb (to_lower c) (to_lower d)); [apply IH, Ha|reflexivity].
Qed.

Lemma all_has_users sch : all_columns sch = true -> has_users sch = true.
Proof. unfold all_columns. intros H. apply andb_prop in H. apply H. Qed.

Lemma query_at has {A} (rows : user_tables -> list A) sch t clock : has sch = true -> query has rows (su_db (users_at sch t clock)) = (rows t, su_db (users_at sch t clock)).
Proof. intros H. unfold query, sql_prepare, sql_select, users_at. cbn. rewrite H. reflexivity. Qed.

Lemma head_filter {A} (q : A -> bool) l : head (List.filter q l) = List.find q l.
Proof. induction l as [|a l IH]; [reflexivity|]. cbn. destruct (q a); [reflexivity|exact IH]. Qed.
Lemma find_map {A B} (f : A -> B) (q : B -> bool) l : List.find q (map f l) = option_map f (List.find (fun a => q (f a)) l).
Proof. induction l as [|a l IH]; [reflexivity|]. cbn. destruct (q (f a)); [reflexivity|exact IH]. Qed.
Lemma find_ext_in {A} (q q' : A -> bool) l : (forall a, a ∈ l -> q a = q' a) -> List.find q l = List.find q' l.
Proof. induction l as [|a l IH]; intros H; [reflexivity|]. cbn. rewrite (H a) by left. destruct (q' a); [reflexivity|]. apply IH. intros b Hb. apply H. right. exact Hb. Qed.

Lemma list_at sch t clock : all_columns sch = true -> users_typed t -> fst (sql_listAll (su_db (users_at sch t clock))) = map extractUser (users_rows t).
Proof.
  intros Hs Ht. unfold sql_listAll. rewrite query_at by exact Hs. cbn [fst]. rewrite (sorted_already by_user_id ur_id); [reflexivity|reflexivity|apply Ht].
Qed.

Lemma sqlite_change_at has stamped id f sch t clock : has sch = true ->
  exists now clock', sqlite_change has stamped id f (users_at sch t clock) =
    (existsb (fun r => ur_id r =? id) (users_rows t), users_at sch (f now t) clock').
Proof.
  intros H. unfold sqlite_change, sql_prepare, users_at. cbn. rewrite H. cbn. destruct stamped; unfold change_row, sql_change, nowIso8601, su_set_db; cbn; eexists _, _; reflexivity.
Qed.

(** An UPDATE keeps ids and names. *)
Lemma change_user_typed id f t : (forall r, ur_id (f r) = ur_id r /\ ur_username (f r) = ur_username r) -> users_typed t -> users_typed (change_user id f t).
Proof.
  intros Hf [H0 H1 H2 H3 H4]. assert (E : forall {B} (g : user_row -> B), (forall r, g (f r) = g r) -> map g (users_rows (change_user id f t)) = map g (users_rows t)).
  { intros B g Hg. cbn. rewrite map_map. apply map_ext. intros r. destruct (ur_id r =? id); auto. }
  split; rewrite ?E by (intros r; try rewrite (proj2 (Hf r)); try apply Hf; reflexivity); try assumption; cbn; apply Forall_map.
  - eapply Forall_impl; [exact H1|]. cbn. intros r Hr. destruct (ur_id r =? id); [rewrite (proj1 (Hf r))|]; exact Hr.
  - eapply Forall_impl; [exact H4|]. cbn. intros r Hr. destruct (ur_id r =? id); [rewrite (proj2 (Hf r))|]; exact Hr.
Qed.

(** The listed rows after an UPDATE. *)
Lemma change_user_listed id f g t : (forall r, same_row (extractUser (f r)) (g (extractUser r))) ->
  Forall2 (fun old new => same_row new (if existsb (fun r => ur_id r =? id) (users_rows t) && (Auth.id old =? id) then g old else old))
    (map extractUser (users_rows t)) (map extractUser (users_rows (change_user id f t))).
Proof.
  intros Hf. cbn. rewrite map_map. change (map ?h) with (fmap (M := list) h). apply Forall2_fmap_l, Forall2_fmap_r, Forall_Forall2_diag, Forall_forall.
  intros r Hr. cbn. destruct (ur_id r =? id) eqn:E.
  - replace (existsb _ _) with true; [apply Hf|]. symmetry. apply existsb_exists. exists r. split; [apply list_elem_of_In, Hr|exact E].
  - rewrite andb_false_r. apply same_row_refl.
Qed.

Lemma extract_text r : stored_text (extractUser r) = extractUser r.
Proof. unfold stored_text, extractUser, column_text. cbn. destruct (ur_display r), (ur_mime r), (ur_updated r); cbn; rewrite !c_str_idem; reflexivity. Qed.

Lemma or_null_text s : column_text (or_null s) = c_str s.
Proof. unfold or_null. destruct (String.eqb_spec s "") as [->|]; reflexivity. Qed.

Lemma create_at u sch t clock : all_columns sch = true -> users_typed t -> c_str (username u) = username u ->
  (exists clock', sqlite_create u (users_at sch t clock) = (None, users_at sch t clock')) \/
  exists t' clock' created updated, sqlite_create u (users_at sch t clock) =
      (Some (mkUser (users_sequence t + 1) (username u) (passwordHash u) (role u) (enabled u) (displayName u) (avatarMime u) created updated), users_at sch t' clock') /\
    users_typed t' /\ (forall r, r ∈ users_rows t -> canonicalUsername (ur_username r) <> canonicalUsername (username u)) /\
    users_rows t' = users_rows t ++ [mkUserRow (users_sequence t + 1) (username u) (passwordHash u) (role u) (enabled u) created (or_null (displayName u)) None None (Some updated)].
Proof.
  intros Hs [H0 H1 H2 H3 H4] Hu. unfold sqlite_create, sql_prepare, users_at. cbn. rewrite Hs. cbn.
  set (p := if String.eqb (createdAt u) "" then _ else _). assert (Ep : exists created clock', p = (created, mkSqliteUsers (mkStore true sch t t false []) clock'))
    by (unfold p; destruct (String.eqb (createdAt u) ""); eexists _, _; reflexivity).
  destruct Ep as (created & clock' & ->). cbn [su_db]. unfold sql_attempt, insert_user. cbn [db_view].
  destruct (existsb _ _) eqn:Ex; cbn [orb]; [left; eexists; reflexivity|]. destruct (max_rowid <=? users_sequence t); [left; eexists; reflexivity|]. right.
  assert (Fresh : forall r, r ∈ users_rows t -> canonicalUsername (ur_username r) <> canonicalUsername (username u)).
  { intros r Hr E. enough (existsb (fun r => nocase_eq (ur_username r) (username u)) (users_rows t) = true) by congruence. apply existsb_exists. exists r.
    split; [apply list_elem_of_In, Hr|]. rewrite nocase_canonical by exact (proj1 (Forall_forall _ _) H4 r Hr). rewrite E. apply String.eqb_refl. }
  eexists (mkUsers _ (users_sequence t + 1)), clock', created, _. split; [reflexivity|]. split; [|split; [exact Fresh|reflexivity]]. split; cbn.
  - lia.
  - apply Forall_app. split; [eapply Forall_impl; [exact H1|]; cbn; lia|apply Forall_singleton; cbn; lia].
  - rewrite map_app. apply sorted_snoc; [exact H2|]. apply Forall_map. eapply Forall_impl; [exact H1|]. cbn. lia.
  - rewrite map_app. apply NoDup_app. split; [exact H3|]. split; [|apply NoDup_singleton]. intros x Hx Hx'. apply list_elem_of_singleton in Hx' as ->.
    apply list_elem_of_fmap in Hx as (r & E & Hr). symmetry in E. exact (Fresh r Hr E).
  - apply Forall_app. split; [exact H4|apply Forall_singleton; exact Hu].
Qed.

(* ------------------------------------------------------------------ *)
(** ** The store implements the interface *)

Lemma good_change has stamped i f s : users_good s -> (forall sch, all_columns sch = true -> has sch = true) ->
  exists sch t clock now clock', s = users_at sch t clock /\ all_columns sch = true /\ users_typed t /\
    sqlite_change has stamped i f s = (existsb (fun r => ur_id r =? i) (users_rows t), users_at sch (f now t) clock').
Proof.
  intros (sch & t & clock & -> & Hs & Ht) Hh. destruct (sqlite_change_at has stamped i f sch t clock (Hh sch Hs)) as (now & clock' & E). eauto 10.
Qed.

Lemma rows_kept l : Forall2 (fun old new : User => same_row new old) l l.
Proof. apply same_rows_refl. Qed.

(** The picture of a row, and of an id. *)
Definition picture (r : user_row) : option Avatar := blob ← ur_blob r; mime ← ur_mime r; Some (mkAvatar blob (c_str mime)).
Definition picture_of (t : user_tables) (i : Z) : option Avatar := r ← List.find (fun r => ur_id r =? i) (users_rows t); picture r.

Lemma getAvatar_at sch t clock i : all_columns sch = true -> fst (sql_getAvatar i (su_db (users_at sch t clock))) = picture_of t i.
Proof. intros Hs. unfold sql_getAvatar. rewrite query_at by exact Hs. cbn [fst]. rewrite head_filter. reflexivity. Qed.

Lemma find_change i f t j : (forall r, ur_id (f r) = ur_id r) ->
  List.find (fun r => ur_id r =? j) (users_rows (change_user i f t)) =
  option_map (fun r => if ur_id r =? i then f r else r) (List.find (fun r => ur_id r =? j) (users_rows t)).
Proof.
  intros Hf. cbn. rewrite find_map. f_equal. apply find_ext_in. intros r _. cbn. destruct (ur_id r =? i); [rewrite Hf|]; reflexivity.
Qed.

(** The pictures after an UPDATE of one row. *)
Lemma picture_change i f t j p : (forall r, ur_id (f r) = ur_id r) -> (forall r, picture (f r) = default (picture r) p) ->
  picture_of (change_user i f t) j =
  match p with
  | Some p => if existsb (fun r => ur_id r =? i) (users_rows t) && (j =? i) then p else picture_of t j
  | None => picture_of t j
  end.
Proof.
  intros Hf Hp. unfold picture_of. rewrite find_change by exact Hf.
  destruct (List.find (fun r => ur_id r =? j) (users_rows t)) as [r|] eqn:E; cbn.
  - apply List.find_some in E as [Hin E]. apply Z.eqb_eq in E. subst j. destruct (ur_id r =? i) eqn:Ei; [|rewrite andb_false_r; destruct p; reflexivity].
    rewrite Hp. destruct p as [p|]; [|reflexivity]. cbn. replace (existsb _ _) with true; [reflexivity|]. symmetry. apply existsb_exists. eauto.
  - destruct p as [p|]; [|reflexivity]. destruct (j =? i) eqn:Ej; [|rewrite andb_false_r; reflexivity]. apply Z.eqb_eq in Ej. subst j.
    replace (existsb _ _) with false; [reflexivity|]. symmetry. apply not_true_iff_false. intros Hx. apply existsb_exists in Hx as (r & Hr & Er).
    apply (List.find_none _ _ E) in Hr. congruence.
Qed.

(** A statement that touches one row's picture only. *)
Lemma avatar_changed i f mime p sch t clock clock' :
  (forall r, ur_id (f r) = ur_id r /\ ur_username (f r) = ur_username r) ->
  (forall r, same_row (extractUser (f r)) (with_avatar mime (extractUser r))) -> (forall r, picture (f r) = p) ->
  all_columns sch = true -> users_typed t -> let b := existsb (fun r => ur_id r =? i) (users_rows t) in
  users_good (users_at sch (change_user i f t) clock') /\
  Forall2 (fun old new => same_row new (if b && (id old =? i) then with_avatar mime old else old))
    (fst (sql_listAll (su_db (users_at sch t clock)))) (fst (sql_listAll (su_db (users_at sch (change_user i f t) clock')))) /\
  forall j, fst (sql_getAvatar j (su_db (users_at sch (change_user i f t) clock'))) =
    if b && (j =? i) then p else fst (sql_getAvatar j (su_db (users_at sch t clock))).
Proof.
  intros Hf Hr Hp Hs Ht b. pose proof (change_user_typed i f t Hf Ht) as Ht'. split; [exists sch, (change_user i f t), clock'; auto|]. split.
  - rewrite !list_at by assumption. apply (change_user_listed i f (with_avatar mime)). exact Hr.
  - intros j. rewrite !getAvatar_at by exact Hs. apply (picture_change i f t j (Some p)); [apply Hf|exact Hp].
Qed.

#[export] Program Instance SqliteRepository : UserRepository SqliteUsers := {|
  findByUsername s n := fst (sql_findByUsername n (su_db s));
  findById s i := fst (sql_findById i (su_db s));
  listAll s := fst (sql_listAll (su_db s));
  create s u := sqlite_create u s;
  update s u := sqlite_update u s;
  remove s i := sqlite_remove i s;
  setAvatar s i bytes mime := sqlite_setAvatar i bytes mime s;
  clearAvatar s i := sqlite_clearAvatar i s;
  getAvatar s i := fst (sql_getAvatar i (su_db s));
  count s := fst (sql_count (su_db s));
  store_ok := users_good;
|}.
Next Obligation.
  intros r (sch & t & clock & -> & Hs & Ht). rewrite list_at by assumption. rewrite !map_map. cbn. destruct Ht as [H0 H1 H2 H3 H4]. split.
  - clear -H2. induction (users_rows t) as [|r l IH]; cbn in *; [constructor|]. apply StronglySorted_inv in H2 as [HS F]. apply NoDup_cons. split; [|auto].
    intros Hin. apply (proj1 (Forall_forall _ _) F) in Hin. lia.
  - erewrite map_ext_in; [exact H3|]. intros r Hr. cbn. f_equal. apply (proj1 (Forall_forall _ _) H4), list_elem_of_In, Hr.
Qed.
Next Obligation.
  intros r n (sch & t & clock & -> & Hs & Ht). rewrite list_at by assumption. unfold sql_findByUsername. rewrite query_at by exact Hs. cbn [fst].
  rewrite head_filter, find_map. f_equal. apply find_ext_in. intros r Hr. pose proof (proj1 (Forall_forall _ _) (ut_text t Ht) r Hr) as E. cbn in E |- *.
  rewrite E. apply nocase_canonical, E.
Qed.
Next Obligation.
  intros r i (sch & t & clock & -> & Hs & Ht). rewrite list_at by assumption. unfold sql_findById. rewrite query_at by exact Hs. cbn [fst].
  rewrite head_filter, find_map. reflexivity.
Qed.
Next Obligation.
  intros r (sch & t & clock & -> & Hs & Ht). rewrite list_at by assumption. unfold sql_count. rewrite query_at by (apply all_has_users, Hs). cbn. rewrite length_map. reflexivity.
Qed.
Next Obligation.
  intros r (sch & t & clock & -> & Hs & Ht). rewrite list_at by assumption. apply Forall_map, Forall_forall. intros u _. apply extract_text.
Qed.
Next Obligation.
  intros r u o r' (sch & t & clock & -> & Hs & Ht) Hu E. rewrite list_at by assumption.
  destruct (create_at u sch t clock Hs Ht Hu) as [[clock' E']|(t' & clock' & created & updated & E' & Ht' & Fresh & Rows)]; rewrite E' in E; injection E as <- <-.
  - split; [exists sch, t, clock'; auto|]. apply list_at; assumption.
  - split; [exists sch, t', clock'; auto|]. split; [reflexivity|]. split; [reflexivity|]. split.
    + apply Forall_map, Forall_forall. intros r Hr. cbn. rewrite (proj1 (Forall_forall _ _) (ut_text t Ht) r Hr). split; [|apply Fresh, Hr].
      pose proof (proj1 (Forall_forall _ _) (ut_ids t Ht) r Hr). cbn in *. lia.
    + rewrite (list_at sch t' clock' Hs Ht'), Rows, map_app. eexists. split; [|reflexivity]. unfold same_row. cbn. rewrite or_null_text. auto 12.
Qed.
Next Obligation.
  intros r u b r' Hg E. destruct (good_change all_columns true (id u) (fun now => change_user (id u) (fun r =>
    mkUserRow (ur_id r) (ur_username r) (passwordHash u) (role u) (enabled u) (ur_created r) (or_null (displayName u)) (ur_mime r) (ur_blob r) (Some now))) r Hg (fun _ H => H))
    as (sch & t & clock & now & clock' & -> & Hs & Ht & E'). unfold sqlite_update in E. rewrite E' in E. injection E as <- <-.
  match goal with |- context [change_user (id u) ?f t] => assert (Ht' : users_typed (change_user (id u) f t)) by (apply change_user_typed; [intros r; auto|exact Ht]) end.
  split; [eexists _, _, _; split; [reflexivity|]; auto|]. split.
  - rewrite !list_at by assumption. apply change_user_listed. intros r. unfold same_row, updated_row, stored_text. cbn. rewrite or_null_text. auto 12.
  - intros j. rewrite !getAvatar_at by exact Hs. apply (picture_change _ _ t j None); reflexivity.
Qed.
Next Obligation.
  intros r i b r' Hg E. destruct (good_change has_users false i (fun _ t => mkUsers (List.filter (fun r => negb (ur_id r =? i)) (users_rows t)) (users_sequence t)) r Hg all_has_users)
    as (sch & t & clock & now & clock' & -> & Hs & Ht & E'). unfold sqlite_remove in E. rewrite E' in E. injection E as <- <-.
  set (t' := mkUsers _ _). assert (Ht' : users_typed t').
  { destruct Ht as [H0 H1 H2 H3 H4]. split; cbn; [exact H0|apply Forall_lfilter, H1|apply filter_sorted, H2|apply NoDup_map_filter, H3|apply Forall_lfilter, H4]. }
  split; [exists sch, t', clock'; auto|]. rewrite !list_at by assumption. unfold t'. cbn. rewrite filter_map_comm. cbn.
  destruct (existsb _ _) eqn:Ex; [reflexivity|]. f_equal. clear -Ex. induction (users_rows t) as [|r l IH]; cbn in *; [reflexivity|].
  apply orb_false_iff in Ex as [Er Ex]. rewrite Er. cbn. f_equal. apply IH, Ex.
Qed.
Next Obligation.
  intros r i bytes mime b r' Hg E. unfold sqlite_setAvatar in E. destruct (_ || _); [injection E as <- <-; split; [exact Hg|split; [apply rows_kept|reflexivity]]|].
  destruct (isAllowedAvatarMime mime) eqn:Em; cbn [negb] in E; [|injection E as <- <-; split; [exact Hg|split; [apply rows_kept|reflexivity]]].
  destruct (good_change all_columns true i (fun now => change_user i (fun r =>
      mkUserRow (ur_id r) (ur_username r) (ur_hash r) (ur_role r) (ur_enabled r) (ur_created r) (ur_display r) (Some mime) (Some bytes) (Some now))) r Hg (fun _ H => H))
    as (sch & t & clock & now & clock' & -> & Hs & Ht & E'). rewrite E' in E. injection E as <- <-.
  assert (Ec : c_str mime = mime) by (unfold isAllowedAvatarMime in Em; apply orb_prop in Em as [Em|Em]; apply String.eqb_eq in Em; subst mime; reflexivity).
  apply avatar_changed; auto; intros r; [unfold same_row; cbn; rewrite Ec; auto 12|unfold picture; cbn; rewrite Ec; reflexivity].
Qed.
Next Obligation.
  intros r i b r' Hg E. destruct (good_change all_columns true i (fun now => change_user i (fun r =>
    mkUserRow (ur_id r) (ur_username r) (ur_hash r) (ur_role r) (ur_enabled r) (ur_created r) (ur_display r) None None (Some now))) r Hg (fun _ H => H))
    as (sch & t & clock & now & clock' & -> & Hs & Ht & E'). unfold sqlite_clearAvatar in E. rewrite E' in E. injection E as <- <-.
  apply avatar_changed; auto. intros r. unfold same_row. cbn. auto 12.
Qed.

(* ------------------------------------------------------------------ *)
(** ** Lemmas: the migration *)

(** A file of some version has what that version has. *)
Definition schema_consistent (h : user_schema) : Prop := 2 <= user_version h -> all_columns h = true.

(** What no schema statement touches. *)
Definition same_users (s s' : UserDb) : Prop := db_disk s' = db_disk s /\ db_view s' = db_view s /\ db_in_tx s' = db_in_tx s /\ db_open s' = db_open s.
#[export] Instance same_users_pre : PreOrder same_users.
Proof. split; [intros s; repeat split|]. intros a b c (?&?&?&?) (?&?&?&?). repeat split; congruence. Qed.

(** How many statements are still to end as the list says. *)
Definition left (s : UserDb) : nat := length (db_results s).

Lemma statement_left (s : UserDb) : left (snd (statement s)) = pred (left s).
Proof. unfold left. cbn. destruct (db_results s); reflexivity. Qed.

Lemma set_version_spec n s : let '(ok, s') := set_version n s in same_users s s' /\ left s' = pred (left s) /\
  if ok : bool then db_schema s' = mkUserSchema n (has_users (db_schema s)) (added_columns (db_schema s)) else db_schema s' = db_schema s /\ db_results s <> [].
Proof.
  unfold set_version. pose proof (statement_left s) as HL. unfold statement in *. cbn in *. case_decide as D; cbn; repeat split; auto.
  intros E. apply D. rewrite E. reflexivity.
Qed.

Lemma read_version_spec s : let '(v, s') := readSchemaVersion s in same_users s s' /\ db_schema s' = db_schema s /\ (left s' <= left s)%nat /\
  (v = user_version (db_schema s) \/ v = 0 /\ db_results s <> []).
Proof.
  unfold readSchemaVersion, statement, left. destruct (db_results s) as [|[] [|[] l]] eqn:E; cbn; rewrite ?E; cbn; repeat split; auto; try lia; right; split; auto; discriminate.
Qed.

Lemma add_column_spec i s : let '(ok, s') := add_column i s in same_users s s' /\ left s' = pred (left s) /\
  if ok : bool then added_columns (db_schema s) = i /\ has_users (db_schema s) = true /\ db_schema s' = mkUserSchema (user_version (db_schema s)) true (S i)
  else db_schema s' = db_schema s \/ user_version (db_schema s') = user_version (db_schema s).
Proof.
  unfold add_column. pose proof (statement_left s) as HL. unfold statement in *. cbn in *. destruct (_ && _) eqn:G; cbn; repeat split; auto.
  - apply andb_prop in G as [G _]. apply andb_prop in G as [G _]. apply Nat.eqb_eq, G.
  - apply andb_prop in G as [G _]. apply andb_prop in G as [_ G]. exact G.
  - apply andb_prop in G as [G _]. apply andb_prop in G as [_ G]. rewrite G. reflexivity.
Qed.

(** The steps of version 2 all succeed, or the version stays. *)
Lemma v2_steps_spec s : let '(ok, s') := exec_steps v2_steps s in same_users s s' /\ (left s' <= left s)%nat /\
  if ok : bool then user_version (db_schema s') = 2 /\ all_columns (db_schema s') = true /\ left s' = (left s - 5)%nat
  else user_version (db_schema s') = user_version (db_schema s).
Proof.
  assert (K : forall i s, let '(ok, s') := add_column i s in same_users s s' /\ left s' = pred (left s) /\ user_version (db_schema s') = user_version (db_schema s) /\
    (ok = true -> has_users (db_schema s') = true /\ added_columns (db_schema s') = S i)).
  { intros i s0. pose proof (add_column_spec i s0) as H. destruct (add_column i s0) as [[] s1]; destruct H as (H1 & H2 & H3); (split; [exact H1|split; [exact H2|]]).
    - destruct H3 as (_ & _ & ->). auto.
    - split; [|discriminate]. destruct H3 as [->|H3]; auto. }
  unfold v2_steps. cbn [exec_steps].
  pose proof (K 0%nat s) as K0. destruct (add_column 0 s) as [[] s1]; destruct K0 as (A0 & B0 & C0 & D0); [|split; [exact A0|split; [lia|exact C0]]].
  pose proof (K 1%nat s1) as K1. destruct (add_column 1 s1) as [[] s2]; destruct K1 as (A1 & B1 & C1 & D1); [|split; [etransitivity; eassumption|split; [lia|congruence]]].
  assert (A2' : same_users s s2) by (etransitivity; eassumption).
  pose proof (K 2%nat s2) as K2. destruct (add_column 2 s2) as [[] s3]; destruct K2 as (A2 & B2 & C2 & D2); [|split; [etransitivity; eassumption|split; [lia|congruence]]].
  assert (A3' : same_users s s3) by (etransitivity; eassumption).
  pose proof (K 3%nat s3) as K3. destruct (add_column 3 s3) as [[] s4]; destruct K3 as (A3 & B3 & C3 & D3); [|split; [etransitivity; eassumption|split; [lia|congruence]]].
  assert (A4' : same_users s s4) by (etransitivity; eassumption). destruct (D3 eq_refl) as [Eh En].
  pose proof (set_version_spec 2 s4) as K4. destruct (set_version 2 s4) as [[] s5]; destruct K4 as (A4 & B4 & C4); (split; [etransitivity; eassumption|split; [lia|]]).
  - rewrite C4. unfold all_columns. cbn. rewrite Eh, En. split; [reflexivity|]. split; [reflexivity|lia].
  - destruct C4 as [-> _]. congruence.
Qed.

Definition turns (v : Z) : nat := if v =? 0 then 2 else if v <? 2 then 1 else 0.

Lemma ladder_total fuel : forall v s, schema_consistent (db_schema s) -> v = user_version (db_schema s) \/ v = 0 -> (left s + turns v <= fuel)%nat ->
  exists ok s', ladder fuel v s = Some (ok, s') /\ same_users s s' /\ schema_consistent (db_schema s') /\ (ok = true -> all_columns (db_schema s') = true).
Proof.
  induction fuel as [|fuel IH]; intros v s Hc Hv Hf; cbn [ladder]; (destruct (Z.leb_spec kCurrentSchemaVersion v) as [Hle|Hlt];
    [exists true, s; split; [reflexivity|]; split; [reflexivity|]; split; [exact Hc|]; intros _; apply Hc; unfold kCurrentSchemaVersion in Hle; lia|]).
  - unfold turns, kCurrentSchemaVersion in *. exfalso. destruct (Z.eqb_spec v 0), (Z.ltb_spec v 2); lia.
  - assert (Turn : forall s1, schema_consistent (db_schema s1) -> same_users s s1 -> (left s1 + turns (user_version (db_schema s1)) <= fuel)%nat -> ((db_results s1 <> []) -> (left s1 + 2 <= fuel)%nat) ->
      exists ok s', (let '(version, s2) := readSchemaVersion s1 in ladder fuel version s2) = Some (ok, s') /\ same_users s s' /\ schema_consistent (db_schema s') /\ (ok = true -> all_columns (db_schema s') = true)).
    { intros s1 Hc1 Hsame Hf1 Hf2. pose proof (read_version_spec s1) as R. destruct (readSchemaVersion s1) as [v2 s2]. destruct R as (R1 & R2 & R3 & R4).
      destruct (IH v2 s2) as (ok & s' & E & S' & C' & K'); [rewrite R2; exact Hc1|rewrite R2; tauto| |].
      - destruct R4 as [->|[-> Hne]]; [lia|]. specialize (Hf2 Hne). unfold turns. cbn. lia.
      - exists ok, s'. split; [exact E|]. split; [etransitivity; [exact Hsame|etransitivity; eassumption]|]. auto. }
    destruct (Z.eqb_spec v 0) as [->|Hv0]; [|destruct (Z.eqb_spec v 1) as [->|Hv1]].
    + pose proof (set_version_spec 1 s) as K. destruct (set_version 1 s) as [ok s1]. destruct K as (K1 & K2 & K3). destruct ok; cbn [negb].
      * unfold turns in Hf. cbn in Hf. apply Turn; try assumption; rewrite ?K3; [intros H; cbn in H; lia|cbn; unfold turns; cbn; lia|].
        intros Hne. unfold left in *. destruct (db_results s1); [congruence|]. cbn in *. lia.
      * destruct K3 as [K3 _]. exists false, s1. rewrite K3. repeat split; try apply K1; auto. discriminate.
    + pose proof (v2_steps_spec s) as K. destruct (exec_steps v2_steps s) as [ok s1]. destruct K as (K1 & K2 & K3). destruct ok; cbn [negb].
      * destruct K3 as (K3 & K4 & K5). unfold turns in Hf. cbn in Hf. apply Turn; try assumption; [intros _; exact K4|rewrite K3; cbn; lia|].
        intros Hne. unfold left in *. destruct (db_results s1); [congruence|]. cbn in *. lia.
      * exists false, s1. split; [reflexivity|]. split; [exact K1|]. split; [|discriminate]. intros H. rewrite K3 in H. destruct Hv; lia.
    + exists false, s. repeat split; auto. discriminate.
Qed.

Lemma initialize_total fuel opens s : schema_consistent (db_schema s) -> (left s + 2 <= fuel)%nat ->
  exists ok s', initialize fuel opens s = Some (ok, s') /\ db_disk s' = db_disk s /\ db_view s' = db_disk s /\ db_in_tx s' = false /\ db_open s' = opens /\
    schema_consistent (db_schema s') /\ (ok = true -> opens = true /\ all_columns (db_schema s') = true).
Proof.
  intros Hc Hf. unfold initialize. set (s0 := mkStore opens _ _ _ _ _). destruct opens; cbn [negb]; [|exists false, s0; repeat split; auto; discriminate].
  assert (K : let '(ok, s1) := create_table s0 in same_users s0 s1 /\ schema_consistent (db_schema s1) /\ (left s1 <= left s0)%nat).
  { unfold create_table, statement, left, schema_consistent, all_columns in *. assert (T : (length (tl (db_results s)) <= length (db_results s))%nat) by (destruct (db_results s); cbn; lia).
    case_decide; cbn; repeat split; auto. intros Hv. specialize (Hc Hv). apply andb_prop in Hc as [_ Hc]. exact Hc. }
  destruct (create_table s0) as [ok s1]. destruct K as ((K1 & K2 & K3 & K4) & K5 & K6). destruct ok; cbn [negb]; [|exists false, s1; repeat split; auto; discriminate].
  unfold applyMigrations. pose proof (read_version_spec s1) as R. destruct (readSchemaVersion s1) as [v s2]. destruct R as ((R1 & R1' & R1'' & R1''') & R2 & R3 & R4).
  destruct (ladder_total fuel v s2) as (ok & s' & E & (S1 & S2 & S3 & S4) & C' & K'); [rewrite R2; exact K5|rewrite R2; tauto| |].
  - assert (left s0 = left s) by reflexivity. unfold turns. destruct (v =? 0); [lia|]. destruct (v <? 2); lia.
  - exists ok, s'. split; [exact E|]. cbn in *. repeat split; try congruence; auto.
Qed.

(** A file, when its coming statements end as [results] says. *)
Definition user_file (sch : user_schema) (t : user_tables) (results : list sql_result) : UserDb := mkStore false sch t t false results.

(** Opened without a failure: a new file, or one that is complete. *)
Lemma initialize_well fuel sch t : (2 <= fuel)%nat -> sch = new_file \/ 2 <= user_version sch /\ all_columns sch = true ->
  exists sch', initialize fuel true (user_file sch t []) = Some (true, mkStore true sch' t t false []) /\ all_columns sch' = true /\ 2 <= user_version sch'.
Proof.
  intros Hf [->|[Hv Hs]].
  - destruct fuel as [|[|fuel]]; [lia|lia|]. exists (mkUserSchema 2 true 4). split; [|split; [reflexivity|reflexivity]].
    destruct fuel; reflexivity.
  - unfold initialize, create_table, statement, user_file. cbn [db_schema db_disk db_results negb hd tl db_open db_view db_in_tx]. rewrite decide_True by reflexivity. cbn [negb].
    exists (mkUserSchema (user_version sch) true (added_columns sch)). split; [|unfold all_columns in *; apply andb_prop in Hs as [_ Hs]; cbn; auto].
    assert (G : (kCurrentSchemaVersion <=? user_version sch) = true) by (unfold kCurrentSchemaVersion; lia).
    unfold applyMigrations, readSchemaVersion, statement, st_schema. cbn [db_results hd tl db_schema user_version]. rewrite !decide_True by reflexivity.
    destruct fuel; cbn [ladder]; rewrite G; reflexivity.
Qed.

Lemma create_schema u s : db_schema (su_db (snd (sqlite_create u s))) = db_schema (su_db s).
Proof.
  unfold sqlite_create. destruct (negb _); [reflexivity|]. unfold sql_prepare, statement. cbv zeta beta. destruct (negb _); [reflexivity|].
  match goal with |- context [let '(created, s) := ?p in _] => assert (E : db_schema (su_db (snd p)) = db_schema (su_db s)) by (destruct (String.eqb (createdAt u) ""); reflexivity); destruct p as [created s1] end.
  cbn [snd] in E. unfold sql_attempt. destruct (insert_user _ _ _ _) as [t|]; [|exact E]. unfold sql_change, statement.
  destruct (hd SqlOk _); cbn; [destruct (db_in_tx _)| | |]; exact E.
Qed.

(* ------------------------------------------------------------------ *)
(** ** Properties *)

(** Opening the store ends, and keeps the accounts. However its
    statements end, as many turns of the migration loop as statements are
    still to fail, and two more, are enough; no row of the file changes;
    success leaves a store with every column of the current version, open and
    outside a transaction; and on a new file, or one complete before, where
    nothing fails, it succeeds. *)
Theorem migration_terminates (fuel : nat) (opens : bool) (s : UserDb) :
  schema_consistent (db_schema s) -> (length (db_results s) + 2 <= fuel)%nat ->
  (exists ok s', initialize fuel opens s = Some (ok, s') /\ db_disk s' = db_disk s /\ db_view s' = db_disk s /\ db_in_tx s' = false /\
     schema_consistent (db_schema s') /\ (ok = true -> db_open s' = true /\ all_columns (db_schema s') = true)) /\
  (db_results s = [] -> db_schema s = new_file \/ 2 <= user_version (db_schema s) -> exists s', initialize fuel true s = Some (true, s')).
Proof.
  intros Hc Hf. split.
  - destruct (initialize_total fuel opens s Hc Hf) as (ok & s' & E & D & V & X & O & C' & K). exists ok, s'. repeat split; auto; apply K in H as [Ho Ha]; congruence.
  - intros Hr Hv. rewrite Hr in Hf. cbn in Hf. destruct (initialize_well fuel (db_schema s) (db_disk s) ltac:(lia)) as (sch' & E & _).
    + destruct Hv as [Hv|Hv]; [left; exact Hv|right; split; [exact Hv|apply Hc, Hv]].
    + eexists. rewrite <- E. unfold initialize, user_file. cbn. rewrite Hr. reflexivity.
Qed.

(** A migration that is interrupted is never finished. The steps of
    version 2 are not one transaction: when one fails after the first column,
    or when a complete store's version cannot be read once, that start and
    every later one fails, however well their statements end. *)
Theorem migration_interrupted_refuted (t : user_tables) :
  (exists results s1, initialize 10 true (user_file new_file t results) = Some (false, s1) /\ db_results s1 = [] /\
     forall fuel, (2 <= fuel)%nat -> exists s2, initialize fuel true s1 = Some (false, s2) /\ db_schema s2 = db_schema s1) /\
  (exists results s1, initialize 10 true (user_file (mkUserSchema 2 true 4) t results) = Some (false, s1) /\ db_results s1 = [] /\
     forall fuel, (2 <= fuel)%nat -> exists s2, initialize fuel true s1 = Some (false, s2) /\ db_schema s2 = db_schema s1).
Proof.
  split.
  - exists [SqlOk; SqlOk; SqlOk; SqlOk; SqlOk; SqlOk; SqlOk; SqlError]. eexists. split; [vm_compute; reflexivity|]. split; [reflexivity|].
    intros [|[|fuel]] Hf; [lia|lia|]. eexists. split; reflexivity.
  - exists [SqlOk; SqlError]. eexists. split; [vm_compute; reflexivity|]. split; [reflexivity|].
    intros [|[|fuel]] Hf; [lia|lia|]. eexists. split; reflexivity.
Qed.

(* ------------------------------------------------------------------ *)
(** ** Witnesses *)

Lemma migration_terminates_witness :
  exists s', initialize 2 true (user_file new_file no_users []) = Some (true, s') /\ db_disk s' = no_users.
Proof.
  destruct (migration_terminates 2 true (user_file new_file no_users [])) as [(ok & s' & E & D & _) H].
  - intros Hv. cbn in Hv. lia.
  - reflexivity.
  - destruct (H eq_refl (or_introl eq_refl)) as [s2 E2]. rewrite E in E2. injection E2 as -> <-. exists s'. auto.
Defined.
