(* ===== verification/Login.v ===== *)
(** * The login service (src/auth/AuthService.{h,cpp})

    Login, logout and the seeding of the default accounts over any user
    store and hasher. Property: what a login does. *)
From Stdlib Require Import Ascii String.
From stdpp Require Import strings pretty.
From S2P Require Import Prelude Sql Auth UserStore.
Local Open Scope string_scope.
Local Open Scope Z_scope.
Local Open Scope list_scope.

(* ------------------------------------------------------------------ *)
(** ** The login service *)

Inductive LoginResult := Success | InvalidCredentials | AccountDisabled | LockedOut | HasherFailure.

#[export] Instance LoginResult_eq_dec : EqDecision LoginResult.
Proof. solve_decision. Defined.

Definition makeAuthEvent (name : string) (r : Role) (action details outcome : string) : AuditEvent :=
  mkAudit name (roleName r) kAuth action details outcome.

Section Service.
Context {R : Type} `{UR : UserRepository R} {H : Type} `{PH : PasswordHasher H}.

(** The service and what it refers to; [audit_set]: [setAuditLogger] was
    called. *)
Record AuthWorld := mkWorld {
  users_ : R;
  hasher_ : H;
  session_ : Session;
  audit_set : bool;
  audit_ : list AuditEvent;
}.

Definition record_event (e : AuditEvent) (w : AuthWorld) : AuthWorld :=
  mkWorld (users_ w) (hasher_ w) (session_ w) (audit_set w)
          (if audit_set w then audit_ w ++ [e] else audit_ w).

Definition set_session (s : Session) (w : AuthWorld) : AuthWorld :=
  mkWorld (users_ w) (hasher_ w) s (audit_set w) (audit_ w).
Definition set_users (r : R) (w : AuthWorld) : AuthWorld :=
  mkWorld r (hasher_ w) (session_ w) (audit_set w) (audit_ w).
Definition set_hasher (h : H) (w : AuthWorld) : AuthWorld :=
  mkWorld (users_ w) h (session_ w) (audit_set w) (audit_ w).

Definition login (name password : string) (w : AuthWorld) : LoginResult * AuthWorld :=
  let canon := canonicalUsername name in
  match findByUsername (users_ w) canon with
  | None => (InvalidCredentials, record_event (makeAuthEvent canon Operator "LOGIN" "unknown user" kFailure) w)
  | Some user =>
      if negb (enabled user) then
        (AccountDisabled, record_event (makeAuthEvent canon (role user) "LOGIN" "account disabled" kFailure) w)
      else
        match verify (hasher_ w) password (passwordHash user) with
        | None => (HasherFailure, record_event (makeAuthEvent canon (role user) "LOGIN" "hasher exception" kFailure) w)
        | Some false =>
            (InvalidCredentials, record_event (makeAuthEvent canon (role user) "LOGIN" "bad password" kFailure) w)
        | Some true =>
            (Success, record_event (makeAuthEvent canon (role user) "LOGIN" "" kSuccess)
                        (set_session (setUser user (session_ w)) w))
        end
  end.

Definition logout (w : AuthWorld) : AuthWorld :=
  let user := default user_default (currentUser (session_ w)) in
  let w := record_event (makeAuthEvent (username user) (role user) "LOGOUT" "" kSuccess) w in
  set_session (session_clear (session_ w)) w.

Definition kSeed : list (string * string * Role) :=
  [("operator", "operator", Operator); ("maintenance", "maintenance", Maintenance); ("admin", "admin", Admin)].

(** The loop of [seedDefaultUsersIfEmpty]. *)
Fixpoint seed_loop (l : list (string * string * Role)) (created : Z) (w : AuthWorld) : Z * AuthWorld :=
  match l with
  | [] => (created, w)
  | (name, password, r) :: l =>
      let (d, h) := hash (hasher_ w) password in
      let w := set_hasher h w in
      match d with
      | None => seed_loop l created w
      | Some digest =>
          let (o, store) := create (users_ w) (mkUser (-1) name digest r true "" "" "" "") in
          seed_loop l (match o with Some _ => created + 1 | None => created end) (set_users store w)
      end
  end.

Definition seedDefaultUsersIfEmpty (w : AuthWorld) : Z * AuthWorld :=
  if 0 <? count (users_ w) then (0, w) else seed_loop kSeed 0 w.
End Service.
Arguments AuthWorld R H : clear implicits.

(* ------------------------------------------------------------------ *)
(** ** Properties *)

(** C14: What a login does. It succeeds exactly for an enabled account whose
    password verifies, whatever the case of the typed name, and then the
    session holds that account; an unknown name and a wrong password are
    reported alike; a disabled account is reported as such whatever the
    password; a failed login leaves the session, the store and the hasher as
    they were; and every attempt leaves exactly one audit record under the
    canonical name, a success record exactly for a success. *)
Theorem login_meaning {R} `{UR : UserRepository R} {H} `{PH : PasswordHasher H} (w : AuthWorld R H) name password :
  store_ok (users_ w) ->
  let account := List.find (fun u => String.eqb (canonicalUsername (username u)) (canonicalUsername name)) (listAll (users_ w)) in
  let (res, w') := login name password w in
  users_ w' = users_ w /\ hasher_ w' = hasher_ w /\
  res = match account with
        | None => InvalidCredentials
        | Some u => if enabled u then
                      match verify (hasher_ w) password (passwordHash u) with
                      | Some true => Success | Some false => InvalidCredentials | None => HasherFailure
                      end
                    else AccountDisabled
        end /\
  currentUser (session_ w') = (if decide (res = Success) then account else currentUser (session_ w)) /\
  (audit_set w = true -> exists e, audit_ w' = audit_ w ++ [e] /\ ev_username e = canonicalUsername name /\
     ev_category e = kAuth /\ (ev_result e = kSuccess <-> res = Success)).
Proof.
  intros Hok account. unfold login. rewrite findByUsername_law by exact Hok. rewrite canonical_idem. fold account.
  destruct account as [u|]; [destruct (enabled u); [destruct (verify (hasher_ w) password (passwordHash u)) as [[]|]|]|];
    cbn [negb]; unfold record_event; cbn;
    (split_and!; [reflexivity..|]; intros ->; eexists; split; [reflexivity|]; cbn; split_and!; try reflexivity;
     split; (reflexivity || discriminate || (intros E; vm_compute in E; discriminate E))).
Qed.

(* ------------------------------------------------------------------ *)
(** ** A plain hasher and the seeded store *)

#[export] Program Instance PlainHasher : PasswordHasher unit := {|
  hash h p := (Some (String "#" (c_str p)), h);
  verify h p d := Some (String.eqb d (String "#" (c_str p)));
|}.
Next Obligation. intros h p d h' h2 [= <- _]. rewrite String.eqb_refl. reflexivity. Qed.
Next Obligation. intros h p d h' [= <- _]. cbn. rewrite c_str_idem. reflexivity. Qed.

(** A new file, opened and seeded. *)
Definition new_store (clock : list string) : SqliteUsers :=
  match initialize 2 true (user_file new_file no_users []) with
  | Some (_, db) => mkSqliteUsers db clock
  | None => mkSqliteUsers (user_file new_file no_users []) clock
  end.
Definition demo_world : AuthWorld SqliteUsers unit :=
  snd (seedDefaultUsersIfEmpty (mkWorld (new_store ["2026-01-01T00:00:00Z"; "2026-01-01T00:00:01Z"; "2026-01-01T00:00:02Z"]) tt session_init true [])).

Lemma demo_world_ok : store_ok (users_ demo_world).
Proof.
  eexists _, _, _. split; [vm_compute; reflexivity|]. split; [reflexivity|]. split; cbn; repeat constructor; try (cbn; lia).
  all: intros Hin; repeat (apply elem_of_cons in Hin as [Hin|Hin]; [discriminate Hin|]); inversion Hin.
Qed.

Lemma login_meaning_witness : fst (login "ADMIN" "admin" demo_world) = Success.
Proof.
  pose proof (login_meaning demo_world "ADMIN" "admin" demo_world_ok) as H.
  destruct (login "ADMIN" "admin" demo_world) as [res w']. cbv zeta in H.
  destruct H as (_ & _ & Hres & _). rewrite Hres. vm_compute. reflexivity.
Defined.
