(* ===== verification/ProductsPresenter.v ===== *)
(** * The products page
    (src/presenter/ProductsPresenter.{h,cpp}, src/model/ModelContext.h, the
    asynchronous half of src/model/DatabaseManager.cpp)

    The presenter over the product database: the list and its search, the
    role gate and the audit trail of the changes, the recipe editor, and the
    two threads a change passes: the I/O thread runs it, the main loop
    reports it. A run is a sequence of events; while a recipe is saved, the
    I/O thread may run between its statements. *)
From Stdlib Require Import Ascii String.
From stdpp Require Import strings.
From S2P Require Import Prelude Float32 Format Sql Serializers SimulatedModel Auth ProductStore.
Local Open Scope string_scope.
Local Open Scope Z_scope.
Local Open Scope list_scope.

Definition kProduct : string := "PRODUCT".
Definition kStatusActive : string := "Active".
Definition kMinOperations : Z := 1.
Definition kMaxOperations : Z := 100.
Definition kMinPassRate : float32 := f32_of_Z 0.
Definition kMaxPassRate : float32 := f32_of_Z 100.
Definition kMaxPendingOperations : nat := 1000.

(** What the presenter uses of the production model. *)
Class RecipeModel (M : Type) := {
  rm_loadProduct : M -> Product -> Recipe -> M;
  rm_getQualityCheckpoints : M -> list QualityCheckpoint;
}.
#[export] Instance SimulatedRecipes {G} `{RandomSource G} : RecipeModel (SimulatedModel G) :=
  {| rm_loadProduct m p r := loadProduct p r m; rm_getQualityCheckpoints := getQualityCheckpoints |}.

(* ------------------------------------------------------------------ *)
(** ** Requests and what is shown *)

(** A posted task: its operation, and the number of the caller's callback. *)
Inductive request_kind := RqChange (o : product_op) | RqExport.
Record request := mkRequest { rq_kind : request_kind; rq_callback : nat }.
Inductive answer := AnDone (o : product_op) (callback : nat) (success : bool) | AnExport (callback : nat) (products : list ProductRow).

Record ProductItem := mkItem { it_id : Z; it_productCode : string; it_name : string; it_status : string; it_stock : Z; it_qualityRate : float32 }.
Record ViewProductDialogViewModel := mkDialog { vd_productId : string; vd_description : string; vd_createdDate : string; vd_isVerified : bool }.

Inductive shown_event :=
| ShProducts (items : list ProductItem)
| ShProduct (vm : ViewProductDialogViewModel)
| ShRecipe (loaded : bool) (message : string)
| ShRecipeForm (recipe : Recipe)
| ShCallback (callback : nat) (success : bool)
| ShExport (callback : nat) (products : list ProductRow).

Definition action_of (o : product_op) : string := match o with OpAdd _ _ _ _ _ => "ADD" | OpUpdate _ _ _ _ _ => "UPDATE" | OpDelete _ => "DELETE" end.
Definition details_of (o : product_op) : string :=
  match o with OpAdd code _ _ _ _ => "code=" ++ code | OpUpdate id _ _ _ _ | OpDelete id => "id=" ++ to_string id end%string.

(** [recipes_] and [recipesWriter_] are the database or null. *)
Record ProductsPresenter (M : Type) := mkPresenter {
  pp_db : Catalogue;
  pp_io : list request;
  pp_ioStopped : bool;
  pp_idle : list answer;
  pp_session : option Session;
  pp_audit : option (list AuditEvent);
  currentSearchQuery_ : string;
  recipes_ : bool;
  recipesWriter_ : bool;
  productionModel_ : option M;
  pp_shown : list shown_event;
}.
Arguments mkPresenter {M} _ _ _ _ _ _ _ _ _ _ _.
Arguments pp_db {M} _.
Arguments pp_io {M} _.
Arguments pp_ioStopped {M} _.
Arguments pp_idle {M} _.
Arguments pp_session {M} _.
Arguments pp_audit {M} _.
Arguments currentSearchQuery_ {M} _.
Arguments recipes_ {M} _.
Arguments recipesWriter_ {M} _.
Arguments productionModel_ {M} _.
Arguments pp_shown {M} _.

Section Presenter.
Context {M : Type} `{RecipeModel M} `{SqlLike} (tr : string -> string).
Implicit Types p : ProductsPresenter M.

Definition set_db x p : ProductsPresenter M := mkPresenter x (pp_io p) (pp_ioStopped p) (pp_idle p) (pp_session p) (pp_audit p) (currentSearchQuery_ p) (recipes_ p) (recipesWriter_ p) (productionModel_ p) (pp_shown p).
Definition set_io x p : ProductsPresenter M := mkPresenter (pp_db p) x (pp_ioStopped p) (pp_idle p) (pp_session p) (pp_audit p) (currentSearchQuery_ p) (recipes_ p) (recipesWriter_ p) (productionModel_ p) (pp_shown p).
Definition set_idle x p : ProductsPresenter M := mkPresenter (pp_db p) (pp_io p) (pp_ioStopped p) x (pp_session p) (pp_audit p) (currentSearchQuery_ p) (recipes_ p) (recipesWriter_ p) (productionModel_ p) (pp_shown p).
Definition set_session x p : ProductsPresenter M := mkPresenter (pp_db p) (pp_io p) (pp_ioStopped p) (pp_idle p) x (pp_audit p) (currentSearchQuery_ p) (recipes_ p) (recipesWriter_ p) (productionModel_ p) (pp_shown p).
Definition set_audit x p : ProductsPresenter M := mkPresenter (pp_db p) (pp_io p) (pp_ioStopped p) (pp_idle p) (pp_session p) x (currentSearchQuery_ p) (recipes_ p) (recipesWriter_ p) (productionModel_ p) (pp_shown p).
Definition set_query x p : ProductsPresenter M := mkPresenter (pp_db p) (pp_io p) (pp_ioStopped p) (pp_idle p) (pp_session p) (pp_audit p) x (recipes_ p) (recipesWriter_ p) (productionModel_ p) (pp_shown p).
Definition set_model x p : ProductsPresenter M := mkPresenter (pp_db p) (pp_io p) (pp_ioStopped p) (pp_idle p) (pp_session p) (pp_audit p) (currentSearchQuery_ p) (recipes_ p) (recipesWriter_ p) x (pp_shown p).
Definition show (e : shown_event) p := mkPresenter (pp_db p) (pp_io p) (pp_ioStopped p) (pp_idle p) (pp_session p) (pp_audit p) (currentSearchQuery_ p) (recipes_ p) (recipesWriter_ p) (productionModel_ p) (pp_shown p ++ [e]).
Definition stop_io p : ProductsPresenter M := mkPresenter (pp_db p) (pp_io p) true (pp_idle p) (pp_session p) (pp_audit p) (currentSearchQuery_ p) (recipes_ p) (recipesWriter_ p) (productionModel_ p) (pp_shown p).

(* ------------------------------------------------------------------ *)
(** ** Audit and permission *)

Definition emitAudit (action details outcome : string) p : ProductsPresenter M :=
  match pp_audit p, pp_session p with
  | Some log, Some s =>
      let user := default user_default (currentUser s) in
      set_audit (Some (log ++ [mkAudit (username user) (roleName (role user)) kProduct action details outcome])) p
  | _, _ => p
  end.

Definition checkEditPermission (action details : string) p : bool * ProductsPresenter M :=
  match pp_session p with
  | None => (true, p)
  | Some s =>
      match currentUser s with
      | None => (false, p)
      | Some user => if canEditProducts (role user) then (true, p) else (false, emitAudit action details kFailure p)
      end
  end.

(* ------------------------------------------------------------------ *)
(** ** The list *)

Definition item_of (r : ProductRow) : outcome ProductItem :=
  id ← initialised (row_id r);
  stock ← initialised (row_stock r);
  rate ← initialised (row_qualityRate r);
  Ret (mkItem id (row_productCode r) (row_name r) (row_status r) stock rate).

Fixpoint items_of (rs : list ProductRow) : outcome (list ProductItem) :=
  match rs with [] => Ret [] | r :: rs => i ← item_of r; rest ← items_of rs; Ret (i :: rest) end.

Definition buildProductsViewModel p : outcome (list ProductItem * ProductsPresenter M) :=
  let '(rows, db) := if bool_decide (currentSearchQuery_ p = "") then getAllProducts (pp_db p) else searchProducts (currentSearchQuery_ p) (pp_db p) in
  items ← items_of rows;
  Ret (items, set_db db p).

Definition loadProducts p : outcome (ProductsPresenter M) :=
  '(items, p) ← buildProductsViewModel (set_query "" p);
  Ret (show (ShProducts items) p).

Definition searchFor (query : string) p : outcome (ProductsPresenter M) :=
  '(items, p) ← buildProductsViewModel (set_query query p);
  Ret (show (ShProducts items) p).

Definition buildProductDetailViewModel (productId : Z) p : outcome (ViewProductDialogViewModel * ProductsPresenter M) :=
  let '(product, db) := getProduct productId (pp_db p) in
  let p := set_db db p in
  id ← initialised (row_id product);
  if id =? kInvalidProductId then Ret (mkDialog "NOT FOUND" "Product not found or deleted" "" false, p)
  else
    stock ← initialised (row_stock product);
    rate ← initialised (row_qualityRate product);
    Ret (mkDialog (row_productCode product)
           (row_name product ++ String kLF ("Status: " ++ row_status product ++ String kLF ("Stock: " ++ to_string stock ++ " units" ++
              String kLF ("Quality: " ++ fmt_fixed 6 rate ++ "%"))))%string
           (row_createdAt product) (bool_decide (row_status product = kStatusActive)), p).

Definition viewProduct (productId : Z) p : outcome (ProductsPresenter M) :=
  '(vm, p) ← buildProductDetailViewModel productId p;
  Ret (show (ShProduct vm) p).

(* ------------------------------------------------------------------ *)
(** ** Changes *)

(** [ModelContext::post], its result ignored by the callers. *)
Definition post (r : request) p : ProductsPresenter M :=
  if (kMaxPendingOperations <=? length (pp_io p))%nat then p else set_io (pp_io p ++ [r]) p.

(** addProduct, updateProduct and deleteProduct. *)
Definition changeProduct (o : product_op) (callback : nat) p : ProductsPresenter M :=
  let '(allowed, p) := checkEditPermission (action_of o) (details_of o) p in
  if negb allowed then show (ShCallback callback false) p else post (mkRequest (RqChange o) callback) p.

Definition exportProducts (callback : nat) p : ProductsPresenter M := post (mkRequest RqExport callback) p.

(** The I/O thread takes the next task, at a time of SQLite's clock. *)
Definition io_next (now : string) p : ProductsPresenter M :=
  if pp_ioStopped p then p
  else
    match pp_io p with
    | [] => p
    | r :: io =>
        let p := set_io io p in
        match rq_kind r with
        | RqChange o => let '(success, db) := store_op now o (pp_db p) in set_idle (pp_idle p ++ [AnDone o (rq_callback r) success]) (set_db db p)
        | RqExport => let '(products, db) := getAllProducts (pp_db p) in set_idle (pp_idle p ++ [AnExport (rq_callback r) products]) (set_db db p)
        end
    end.

(** The main loop reports the next answer. *)
Definition idle_next p : outcome (ProductsPresenter M) :=
  match pp_idle p with
  | [] => Ret p
  | AnDone o callback success :: idle =>
      let p := set_idle idle p in
      if success : bool then
        p ← loadProducts (emitAudit (action_of o) (details_of o) kSuccess p);
        Ret (show (ShCallback callback true) p)
      else Ret (show (ShCallback callback false) (emitAudit (action_of o) (details_of o) kFailure p))
  | AnExport callback products :: idle => Ret (show (ShExport callback products) (set_idle idle p))
  end.

(* ------------------------------------------------------------------ *)
(** ** Recipes *)

Definition loadRecipe (productId : Z) p : outcome (ProductsPresenter M) :=
  match productionModel_ p with
  | Some m =>
      if negb (recipes_ p) then Ret (show (ShRecipe false (tr "Recipe loading is not available.")) p)
      else
        let '(product, db) := getProduct productId (pp_db p) in
        let p := set_db db p in
        id ← initialised (row_id product);
        if id =? kInvalidProductId then Ret (show (ShRecipe false (tr "Product not found.")) p)
        else
          let '(recipe, db) := getRecipeByProductCode (row_productCode product) (pp_db p) in
          let p := set_db db p in
          match recipe with
          | None => msg ← vformat (tr "No recipe defined for {}.") [FText (row_productCode product)]; Ret (show (ShRecipe false msg) p)
          | Some recipe =>
              let p := set_model (Some (rm_loadProduct m (mkProduct (row_productCode product) (row_name product)) recipe)) p in
              msg ← vformat (tr "Loaded recipe for {}.") [FText (row_name product)];
              Ret (show (ShRecipe true msg) p)
          end
  | None => Ret (show (ShRecipe false (tr "Recipe loading is not available.")) p)
  end.

(** A checkpoint's row of the form: the stored target of its name, if any. *)
Definition form_target (stored : option Recipe) (cp : QualityCheckpoint) : CheckpointTarget :=
  mkTarget (qc_name cp)
    (match stored with
     | Some r =>
         match List.find (fun st => String.eqb (checkpointName st) (qc_name cp)) (checkpointTargets r) with
         | Some st => target_rate st
         | None => kDefaultPassRateTarget
         end
     | None => kDefaultPassRateTarget
     end).

Definition getRecipeForEditing (productId : Z) p : Recipe * ProductsPresenter M :=
  let '(product, db) := getProduct productId (pp_db p) in
  let p := set_db db p in
  let '(stored, p) :=
    if recipes_ p then let '(stored, db) := getRecipeByProductCode (row_productCode product) (pp_db p) in (stored, set_db db p) else (None, p) in
  let operations := match stored with Some r => rec_totalOperations r | None => 5 end in
  let checkpoints := match productionModel_ p with Some m => rm_getQualityCheckpoints m | None => [] end in
  (mkRecipe (row_productCode product) operations
     (match checkpoints with
      | [] => match stored with Some r => checkpointTargets r | None => [] end
      | _ => map (form_target stored) checkpoints
      end), p).

(** While [upsertRecipe] runs, the I/O thread runs so many tasks before each
    of its statements, at these times. *)
Definition interleaved (A : Type) (f : Catalogue -> A * Catalogue) (w : list (list string) * ProductsPresenter M) : A * (list (list string) * ProductsPresenter M) :=
  let '(slices, p) := w in
  let p := fold_left (fun p now => io_next now p) (hd [] slices) p in
  let '(a, db) := f (pp_db p) in
  (a, (tl slices, set_db db p)).

Definition target_out (t : CheckpointTarget) : bool := f32_ltb (target_rate t) kMinPassRate || f32_ltb kMaxPassRate (target_rate t).

Definition saveRecipe (recipe : Recipe) (callback : nat) (slices : list (list string)) p : ProductsPresenter M :=
  let details := ("code=" ++ rec_productCode recipe)%string in
  if negb (recipesWriter_ p) then show (ShCallback callback false) p
  else
    let '(allowed, p) := checkEditPermission "RECIPE_SAVE" details p in
    if negb allowed then show (ShCallback callback false) p
    else if (rec_totalOperations recipe <? kMinOperations) || (kMaxOperations <? rec_totalOperations recipe) then show (ShCallback callback false) p
    else if existsb target_out (checkpointTargets recipe) then show (ShCallback callback false) p
    else
      let '(success, (_, p)) := upsertRecipe interleaved recipe (slices, p) in
      show (ShCallback callback success) (emitAudit "RECIPE_SAVE" details (if success : bool then kSuccess else kFailure) p).

(* ------------------------------------------------------------------ *)
(** ** Events *)

Inductive products_event :=
| PeLoad
| PeSearch (query : string)
| PeView (productId : Z)
| PeChange (o : product_op) (callback : nat)
| PeExport (callback : nat)
| PeLoadRecipe (productId : Z)
| PeEditRecipe (productId : Z)
| PeSaveRecipe (recipe : Recipe) (callback : nat) (slices : list (list string))
| PeUser (u : option User)
| PeIo (now : string)
| PeIdle
| PeStop.

Definition products_step (e : products_event) p : outcome (ProductsPresenter M) :=
  match e with
  | PeLoad => loadProducts p
  | PeSearch query => searchFor query p
  | PeView id => viewProduct id p
  | PeChange o callback => Ret (changeProduct o callback p)
  | PeExport callback => Ret (exportProducts callback p)
  | PeLoadRecipe id => loadRecipe id p
  | PeEditRecipe id => let '(r, p) := getRecipeForEditing id p in Ret (show (ShRecipeForm r) p)
  | PeSaveRecipe recipe callback slices => Ret (saveRecipe recipe callback slices p)
  | PeUser u =>
      Ret (match pp_session p with
           | None => p
           | Some s => set_session (Some (match u with Some u => setUser u s | None => session_clear s end)) p
           end)
  | PeIo now => Ret (io_next now p)
  | PeIdle => idle_next p
  | PeStop => Ret (stop_io p)
  end.

Fixpoint products_run (es : list products_event) p : outcome (ProductsPresenter M) :=
  match es with [] => Ret p | e :: es => p ← products_step e p; products_run es p end.
End Presenter.

(* ------------------------------------------------------------------ *)
(** ** Specification: requests answered in order over a list of products *)

Inductive report := RepDone (callback : nat) (success : bool) | RepExport (callback : nat) (entries : list (option entry)).

Definition report_of (a : answer) : report :=
  match a with AnDone _ callback success => RepDone callback success | AnExport callback rows => RepExport callback (map entry_of rows) end.
Definition report_shown (e : shown_event) : list report :=
  match e with ShCallback callback success => [RepDone callback success] | ShExport callback rows => [RepExport callback (map entry_of rows)] | _ => [] end.

Definition spec_task (r : request) (l : listing) : report * listing :=
  match rq_kind r with
  | RqChange o => let '(success, l) := spec_op o l in (RepDone (rq_callback r) success, l)
  | RqExport => (RepExport (rq_callback r) (map Some (li_entries l)), l)
  end.
Fixpoint spec_tasks (rs : list request) (l : listing) : list report * listing :=
  match rs with
  | [] => ([], l)
  | r :: rs => let '(a, l) := spec_task r l in let '(out, l) := spec_tasks rs l in (a :: out, l)
  end.

Section Observed.
Context {M : Type} `{RecipeModel M} `{SqlLike} (tr : string -> string).
Implicit Types p : ProductsPresenter M.

(** What a step adds to the I/O queue, and what the main loop reports. *)
Definition posted_by (p p' : ProductsPresenter M) : list request := drop (length (pp_io p)) (pp_io p').
Definition reported_by (e : products_event) (p p' : ProductsPresenter M) : list report :=
  match e with PeIdle => flat_map report_shown (drop (length (pp_shown p)) (pp_shown p')) | _ => [] end.

(** Of a whole run. *)
Fixpoint observed (es : list products_event) p : list request * list report :=
  match es with
  | [] => ([], [])
  | e :: es =>
      match products_step tr e p with
      | Ret p' => let '(q, a) := observed es p' in (posted_by p p' ++ q, reported_by e p p' ++ a)
      | _ => ([], [])
      end
  end.

(** No I/O between the statements of a save; numbers are floats. *)
Definition quiet (e : products_event) : Prop :=
  match e with
  | PeSaveRecipe recipe _ slices => slices = [] /\ rates_ok recipe
  | PeChange o _ => op_ok o
  | _ => True
  end.

(** Who may change products now. *)
Definition may_edit p : bool :=
  match pp_session p with
  | None => true
  | Some s => match currentUser s with Some u => canEditProducts (role u) | None => false end
  end.

(* ------------------------------------------------------------------ *)
(** ** Lemmas *)

Lemma emit_fields action details outcome p : let p' := emitAudit action details outcome p in
  pp_db p' = pp_db p /\ pp_io p' = pp_io p /\ pp_idle p' = pp_idle p /\ pp_shown p' = pp_shown p /\ pp_session p' = pp_session p /\ pp_ioStopped p' = pp_ioStopped p /\
  recipesWriter_ p' = recipesWriter_ p.
Proof. unfold emitAudit. destruct (pp_audit p); [destruct (pp_session p) eqn:E|]; cbn; rewrite ?E; auto 10. Qed.

Lemma check_fields action details p : let '(ok, p') := checkEditPermission action details p in
  ok = may_edit p /\ (ok = true -> p' = p) /\ pp_db p' = pp_db p /\ pp_io p' = pp_io p /\ pp_idle p' = pp_idle p /\ pp_shown p' = pp_shown p /\ pp_session p' = pp_session p /\
  pp_ioStopped p' = pp_ioStopped p /\ recipesWriter_ p' = recipesWriter_ p.
Proof.
  unfold checkEditPermission, may_edit. destruct (pp_session p) as [s|] eqn:E; [|auto 10]. destruct (currentUser s) as [u|]; [|auto 10 using diff_false_true].
  destruct (canEditProducts (role u)); [auto 10|]. destruct (emit_fields action details kFailure p) as (? & ? & ? & ? & ? & ? & ?). rewrite <- E. repeat split; auto. discriminate.
Qed.

(** Rows of the database have their numbers. *)
Lemma items_of_rows rows : exists items, items_of (map extractProduct rows) = Ret items.
Proof. induction rows as [|r rows [items E]]; [eexists; reflexivity|]. cbn [map items_of]. rewrite E. cbn. eexists. reflexivity. Qed.

Lemma view_model_ret p : exists items db, buildProductsViewModel p = Ret (items, set_db db p) /\ (forall t, pp_db p = resting t -> db = resting t).
Proof.
  unfold buildProductsViewModel. case_bool_decide.
  - unfold getAllProducts. destruct (run_select _ _ (pp_db p)) as [rows db] eqn:E. destruct (items_of_rows rows) as [items ->]. exists items, db. split; [reflexivity|].
    intros t Et. rewrite Et, run_select_resting in E by reflexivity. congruence.
  - unfold searchProducts. destruct (run_select _ _ (pp_db p)) as [rows db] eqn:E. destruct (items_of_rows rows) as [items ->]. exists items, db. split; [reflexivity|].
    intros t Et. rewrite Et, run_select_resting in E by reflexivity. congruence.
Qed.

Lemma getProduct_db id t : snd (getProduct id (resting t)) = resting t.
Proof. unfold getProduct. rewrite run_select_resting by reflexivity. reflexivity. Qed.
Lemma getRecipe_db code t : snd (getRecipeByProductCode code (resting t)) = resting t.
Proof.
  unfold getRecipeByProductCode. rewrite run_select_resting by reflexivity. destruct (List.filter _ _); [reflexivity|]. rewrite run_select_resting by reflexivity. reflexivity.
Qed.

(** Undisturbed, a save is the database's own. *)
Lemma interleaved_none {A} (f : Catalogue -> A * Catalogue) p : interleaved A f ([], p) = let '(a, db) := f (pp_db p) in (a, ([], set_db db p)).
Proof. unfold interleaved. cbn. destruct (f (pp_db p)). reflexivity. Qed.

Lemma insert_targets_quiet code targets : forall p,
  insert_targets interleaved code targets ([], p) = let '(ok, db) := insert_targets alone code targets (pp_db p) in (ok, ([], set_db db p)).
Proof.
  induction targets as [|t targets IH]; intros p; [destruct p; reflexivity|]. cbn [insert_targets]. rewrite interleaved_none. unfold alone at 1.
  destruct (run_change _ _ (pp_db p)) as [[] db]; [|reflexivity]. rewrite IH. cbn. destruct (insert_targets alone code targets db). reflexivity.
Qed.

Lemma upsert_quiet recipe p : upsertRecipe interleaved recipe ([], p) = let '(ok, db) := upsertRecipe alone recipe (pp_db p) in (ok, ([], set_db db p)).
Proof.
  unfold upsertRecipe. rewrite interleaved_none. unfold alone at 1. destruct (sql_begin (pp_db p)) as [[] db1]; [|reflexivity]. cbn [negb].
  rewrite interleaved_none. cbn [pp_db set_db]. unfold alone at 1. destruct (run_change _ _ db1) as [ok2 db2]. destruct ok2.
  - rewrite interleaved_none. cbn [pp_db set_db]. unfold alone at 1. destruct (run_change _ _ db2) as [ok3 db3]. destruct ok3.
    + rewrite insert_targets_quiet. cbn [pp_db set_db]. destruct (insert_targets alone _ _ db3) as [ok4 db4]. rewrite interleaved_none. reflexivity.
    + rewrite interleaved_none. reflexivity.
  - rewrite interleaved_none. reflexivity.
Qed.

Definition request_ok (r : request) : Prop := match rq_kind r with RqChange o => op_ok o | RqExport => True end.

(** One step against the specification: tables, queue and answers. *)
Definition step_ok (e : products_event) p p' (t : catalogue_tables) : Prop :=
  exists t' done, pp_db p' = resting t' /\ tables_typed t' /\ t_sequence t' <= t_sequence t + 1 /\ Forall request_ok (pp_io p') /\
    pp_io p ++ posted_by p p' = done ++ pp_io p' /\
    map report_of (pp_idle p) ++ fst (spec_tasks done (listing_of t)) = reported_by e p p' ++ map report_of (pp_idle p') /\
    listing_of t' = snd (spec_tasks done (listing_of t)).

(** Steps that touch neither the products nor the queues. *)
Lemma step_ok_still e p p' t t' : e <> PeIdle -> Forall request_ok (pp_io p) -> pp_db p' = resting t' -> tables_typed t' -> t_sequence t' = t_sequence t ->
  listing_of t' = listing_of t -> pp_io p' = pp_io p -> pp_idle p' = pp_idle p -> step_ok e p p' t.
Proof.
  intros He F Hd Ht Hs Hl Hi Ha. exists t', []. unfold posted_by. rewrite Hi, Ha, drop_all, app_nil_r. refine (conj Hd (conj Ht (conj _ (conj F (conj eq_refl (conj _ Hl)))))); [lia|].
  cbn. rewrite app_nil_r. destruct e; try reflexivity. congruence.
Qed.

Lemma saved_typed recipe t : rates_ok recipe -> storable recipe -> tables_typed t -> tables_typed (saved recipe t).
Proof.
  intros F Hst Ht. assert (T : typed (resting t)) by (split; [exact Ht|exact Ht|reflexivity]).
  set (code := c_str (rec_productCode recipe)). set (v := set_targets (List.filter (fun r => negb (String.eqb (tr_code r) code)) (t_targets t)) (set_recipes (List.filter (fun r => negb (String.eqb (rr_code r) code)) (t_recipes t) ++ [mkRecipeRow code (rec_totalOperations recipe)]) t)).
  assert (Tv : tables_typed v) by (apply (clear_typed code (set_recipes (List.filter (fun r => negb (String.eqb (rr_code r) code)) (t_recipes t) ++ [mkRecipeRow code (rec_totalOperations recipe)]) t)); [reflexivity|]; apply (replace_typed code (rec_totalOperations recipe) t); [reflexivity|exact Ht]).
  assert (En : names_of code v = []) by apply names_cleared.
  pose proof (insert_all_spec code (checkpointTargets recipe) F v) as E. rewrite En in E. specialize (E (NoDup_nil_2)). cbn [app] in E. fold (storable recipe) in E.
  rewrite decide_True in E by exact Hst. revert E Tv. apply insert_each_typed. intros u s s' _. apply target_typed. intros x. apply bind_double_number.
Qed.

Lemma op_typed now o t t' : store_op now o (resting t) = (fst (spec_op o (listing_of t)), resting t') -> tables_typed t -> tables_typed t'.
Proof.
  intros E Ht. assert (T : typed (resting t)) by (split; [exact Ht|exact Ht|reflexivity]). enough (typed (resting t')) as T' by apply T'.
  apply (f_equal snd) in E. cbn [snd] in E. rewrite <- E. destruct o; [exact (exec_typed (StAdd _ _ _ _ _ _) _ T)|exact (exec_typed (StUpdate _ _ _ _ _ _) _ T)|exact (exec_typed (StDelete _ _) _ T)].
Qed.

Lemma exported t : tables_typed t -> t_sequence t <= int_max -> map entry_of (fst (getAllProducts (resting t))) = map Some (li_entries (listing_of t)).
Proof.
  intros Ht Hs. unfold getAllProducts. rewrite run_select_resting by reflexivity. cbn [fst]. rewrite select_sorted by exact Ht. cbn [li_entries listing_of]. rewrite !map_map.
  apply map_ext_in. intros r Hr. apply filter_In in Hr as [Hr _]. apply (extract_shown t); [exact Ht|exact Hs|apply list_elem_of_In, Hr].
Qed.

Lemma post_io r p : exists q, (q = [] \/ q = [r]) /\ pp_io (post r p) = pp_io p ++ q /\ pp_idle (post r p) = pp_idle p /\ pp_db (post r p) = pp_db p.
Proof. unfold post. case_match; [exists []; rewrite app_nil_r; auto|exists [r]; auto]. Qed.

Lemma post_rest r p : pp_session (post r p) = pp_session p /\ recipesWriter_ (post r p) = recipesWriter_ p /\ pp_shown (post r p) = pp_shown p /\ pp_audit (post r p) = pp_audit p.
Proof. unfold post. case_match; auto. Qed.

Lemma posted_app p p' q : pp_io p' = pp_io p ++ q -> posted_by p p' = q.
Proof. unfold posted_by. intros ->. apply drop_app_length. Qed.

Lemma io_next_ok now p t : pp_db p = resting t -> tables_typed t -> t_sequence t < int_max -> Forall request_ok (pp_io p) -> step_ok (PeIo now) p (io_next now p) t.
Proof.
  intros Hd Ht Hs F. unfold io_next. destruct (pp_ioStopped p); [apply (step_ok_still _ p p t t); auto; discriminate|].
  destruct (pp_io p) as [|r io] eqn:Eio; [apply (step_ok_still _ p p t t); auto; try discriminate; rewrite Eio; constructor|]. apply Forall_cons in F as [Hr F].
  unfold step_ok, posted_by. rewrite Eio. destruct r as [[o|] cb]; cbn [rq_kind rq_callback pp_db set_io]; rewrite Hd.
  - destruct (op_refines now o t Hr ltac:(unfold max_rowid, int_max in *; lia)) as (t1 & E & L). pose proof (op_typed now o t t1 E Ht) as Ht1. rewrite E. exists t1, [mkRequest (RqChange o) cb].
    pose proof (spec_last o (listing_of t)) as Hl. cbn [pp_db pp_io pp_idle set_db set_idle set_io posted_by reported_by]. cbn [spec_tasks spec_task rq_kind rq_callback]. rewrite <- L in Hl.
    destruct (spec_op o (listing_of t)) as [b l]. cbn [fst snd] in *. subst l. cbn [li_last listing_of] in Hl.
    refine (conj eq_refl (conj Ht1 (conj _ (conj F (conj _ (conj _ eq_refl)))))); [lia| |rewrite map_app; reflexivity]. cbn [length drop]. rewrite (drop_ge io) by lia. rewrite app_nil_r. reflexivity.
  - pose proof (exported t Ht ltac:(unfold int_max in *; lia)) as E. assert (Ed : snd (getAllProducts (resting t)) = resting t) by (rewrite getAll_select, run_select_resting by reflexivity; reflexivity).
    destruct (getAllProducts (resting t)) as [rows db]. cbn [fst snd] in *. subst db. exists t, [mkRequest RqExport cb].
    cbn [pp_db pp_io pp_idle set_db set_idle set_io reported_by spec_tasks spec_task rq_kind rq_callback fst snd].
    refine (conj eq_refl (conj Ht (conj _ (conj F (conj _ (conj _ eq_refl)))))); [lia| |rewrite map_app; cbn; rewrite E; reflexivity]. cbn [length drop]. rewrite (drop_ge io) by lia. rewrite app_nil_r. reflexivity.
Qed.

Lemma load_ret p : exists items db, loadProducts p = Ret (show (ShProducts items) (set_db db (set_query "" p))) /\ (forall t, pp_db p = resting t -> db = resting t).
Proof. destruct (view_model_ret (set_query "" p)) as (items & db & E & H1). exists items, db. unfold loadProducts. rewrite E. split; [reflexivity|exact H1]. Qed.
Lemma search_ret q p : exists items db, searchFor q p = Ret (show (ShProducts items) (set_db db (set_query q p))) /\ (forall t, pp_db p = resting t -> db = resting t).
Proof. destruct (view_model_ret (set_query q p)) as (items & db & E & H1). exists items, db. unfold searchFor. rewrite E. split; [reflexivity|exact H1]. Qed.

Lemma shown_app p p' l : pp_shown p' = pp_shown p ++ l -> drop (length (pp_shown p)) (pp_shown p') = l.
Proof. intros ->. apply drop_app_length. Qed.

Lemma idle_next_ok p p' t : pp_db p = resting t -> tables_typed t -> Forall request_ok (pp_io p) -> idle_next p = Ret p' -> step_ok PeIdle p p' t.
Proof.
  intros Hd Ht F E. assert (G : forall a idle l, pp_idle p = a :: idle -> pp_db p' = resting t -> pp_io p' = pp_io p -> pp_idle p' = idle ->
    pp_shown p' = pp_shown p ++ l -> flat_map report_shown l = [report_of a] -> step_ok PeIdle p p' t).
  { intros a idle l E1 E2 E3 E4 E5 E6. exists t, []. unfold posted_by. cbn [reported_by]. rewrite E3, E4, E1, (shown_app p p' l E5), E6, drop_all, app_nil_r.
    refine (conj E2 (conj Ht (conj _ (conj F (conj eq_refl (conj _ eq_refl)))))); [lia|]. cbn. rewrite app_nil_r. reflexivity. }
  unfold idle_next in E. destruct (pp_idle p) as [|[o cb success|cb rows] idle] eqn:Ei.
  - injection E as <-. exists t, []. unfold posted_by. cbn [reported_by]. rewrite !drop_all, app_nil_r, Ei.
    refine (conj Hd (conj Ht (conj _ (conj F (conj eq_refl (conj eq_refl eq_refl)))))). lia.
  - set (p1 := set_idle idle p) in E. destruct success.
    + destruct (load_ret (emitAudit (action_of o) (details_of o) kSuccess p1)) as (items & db & El & Hdb). rewrite El in E. injection E as <-.
      destruct (emit_fields (action_of o) (details_of o) kSuccess p1) as (E1 & E2 & E3 & E4 & _).
      apply (G (AnDone o cb true) idle [ShProducts items; ShCallback cb true]); [reflexivity| | | | |reflexivity]; cbn.
      * apply Hdb. rewrite E1. exact Hd.
      * exact E2.
      * exact E3.
      * rewrite E4. unfold p1. cbn. rewrite <- app_assoc. reflexivity.
    + injection E as <-. destruct (emit_fields (action_of o) (details_of o) kFailure p1) as (E1 & E2 & E3 & E4 & _).
      apply (G (AnDone o cb false) idle [ShCallback cb false]); [reflexivity| | | | |reflexivity]; cbn; [rewrite E1; exact Hd|exact E2|exact E3|rewrite E4; reflexivity].
  - injection E as <-. apply (G (AnExport cb rows) idle [ShExport cb rows]); auto.
Qed.

Lemma change_ok o cb p t : op_ok o -> pp_db p = resting t -> tables_typed t -> Forall request_ok (pp_io p) -> step_ok (PeChange o cb) p (changeProduct o cb p) t.
Proof.
  intros Ho Hd Ht F. unfold changeProduct. pose proof (check_fields (action_of o) (details_of o) p) as C. destruct (checkEditPermission _ _ p) as [allowed p1].
  destruct C as (_ & _ & E1 & E2 & E3 & _). destruct allowed; cbn [negb].
  - destruct (post_io (mkRequest (RqChange o) cb) p1) as (q & Hq & Eq & Ei & Ed). exists t, [].
    rewrite (posted_app p _ q) by congruence. rewrite Eq, E2, Ei, E3, Ed, E1.
    refine (conj Hd (conj Ht (conj _ (conj _ (conj eq_refl (conj _ eq_refl)))))); [lia| |cbn; apply app_nil_r].
    apply Forall_app. split; [exact F|]. destruct Hq as [->| ->]; [constructor|apply Forall_singleton, Ho].
  - apply (step_ok_still _ p _ t t); cbn; auto; (discriminate || congruence).
Qed.

Lemma save_ok recipe cb p t : rates_ok recipe -> pp_db p = resting t -> tables_typed t -> Forall request_ok (pp_io p) ->
  step_ok (PeSaveRecipe recipe cb []) p (saveRecipe recipe cb [] p) t.
Proof.
  intros Fr Hd Ht F. unfold saveRecipe. set (details := ("code=" ++ rec_productCode recipe)%string).
  destruct (recipesWriter_ p); cbn [negb]; [|apply (step_ok_still _ p _ t t); cbn; auto; discriminate].
  pose proof (check_fields "RECIPE_SAVE" details p) as C. destruct (checkEditPermission _ _ p) as [allowed p1]. destruct C as (_ & _ & E1 & E2 & E3 & _).
  assert (Still : step_ok (PeSaveRecipe recipe cb []) p (show (ShCallback cb false) p1) t) by (apply (step_ok_still _ p _ t t); cbn; auto; (discriminate || congruence)).
  destruct allowed; cbn [negb]; [|exact Still]. destruct (_ || _); [exact Still|]. destruct (existsb _ _); [exact Still|]. clear Still.
  rewrite upsert_quiet, E1, Hd, upsert_resting by exact Fr. set (t' := if decide (storable recipe) then saved recipe t else t).
  set (b := if decide (storable recipe) then true else false).
  replace (if decide (storable recipe) then (true, resting (saved recipe t)) else (false, resting t)) with (b, resting t')
    by (unfold t', b; destruct (decide (storable recipe)); reflexivity).
  cbv iota beta. match goal with |- step_ok _ _ (show _ ?x) _ => set (p2 := x) end.
  destruct (emit_fields "RECIPE_SAVE" details (if b then kSuccess else kFailure) (set_db (resting t') p1)) as (G1 & G2 & G3 & _). fold p2 in G1, G2, G3.
  apply (step_ok_still _ p _ t t'); cbn; [discriminate|exact F|exact G1| | | |rewrite G2; exact E2|rewrite G3; exact E3]; unfold t'; destruct (decide (storable recipe)) as [Hst|]; try reflexivity; try exact Ht.
  apply saved_typed; assumption.
Qed.

Lemma recipe_steps_ok e p p' t : match e with PeLoadRecipe _ | PeEditRecipe _ | PeView _ => True | _ => False end ->
  pp_db p = resting t -> tables_typed t -> Forall request_ok (pp_io p) -> products_step tr e p = Ret p' -> step_ok e p p' t.
Proof.
  intros He Hd Ht F E. assert (G : forall p', pp_db p' = resting t -> pp_io p' = pp_io p -> pp_idle p' = pp_idle p -> step_ok e p p' t)
    by (intros; apply (step_ok_still e p _ t t); auto; destruct e; try contradiction; discriminate).
  destruct e; try contradiction; cbn [products_step] in E.
  - unfold viewProduct, buildProductDetailViewModel in E. pose proof (getProduct_db productId t) as Ep. rewrite Hd in E. destruct (getProduct productId (resting t)) as [r db].
    cbn [snd] in Ep. subst db. apply bind_ret_inv in E as ([vm p1] & E & E'). cbv beta iota in E'. injection E' as <-. apply bind_ret_inv in E as (id & _ & E). destruct (id =? _).
    + injection E as <- <-. apply G; reflexivity.
    + apply bind_ret_inv in E as (stock & _ & E). apply bind_ret_inv in E as (rate & _ & E). injection E as <- <-. apply G; reflexivity.
  - unfold loadRecipe in E. destruct (productionModel_ p) as [m|]; [|injection E as <-; apply G; auto]. destruct (recipes_ p); cbn [negb] in E; [|injection E as <-; apply G; auto].
    pose proof (getProduct_db productId t) as Ep. rewrite Hd in E. destruct (getProduct productId (resting t)) as [r db]. cbn [snd] in Ep. subst db.
    apply bind_ret_inv in E as (id & _ & E). destruct (id =? _); [injection E as <-; apply G; auto|]. cbn [pp_db set_db] in E.
    pose proof (getRecipe_db (row_productCode r) t) as Er. destruct (getRecipeByProductCode (row_productCode r) (resting t)) as [recipe db]. cbn [snd] in Er. subst db.
    destruct recipe; apply bind_ret_inv in E as (msg & _ & E); injection E as <-; apply G; reflexivity.
  - unfold getRecipeForEditing in E. pose proof (getProduct_db productId t) as Ep. rewrite Hd in E. destruct (getProduct productId (resting t)) as [r db]. cbn [snd] in Ep. subst db.
    pose proof (getRecipe_db (row_productCode r) t) as Er. cbn [pp_db set_db recipes_ productionModel_] in E. destruct (recipes_ p).
    + destruct (getRecipeByProductCode (row_productCode r) (resting t)) as [recipe db]. cbn [snd] in Er. subst db. injection E as <-. apply G; reflexivity.
    + injection E as <-. apply G; reflexivity.
Qed.

Lemma products_step_ok e p p' t : quiet e -> pp_db p = resting t -> tables_typed t -> t_sequence t < int_max -> Forall request_ok (pp_io p) ->
  products_step tr e p = Ret p' -> step_ok e p p' t.
Proof.
  intros Hq Hd Ht Hs F E.
  destruct e; try (apply recipe_steps_ok; auto; fail); cbn [products_step] in E.
  - destruct (load_ret p) as (items & db & El & Hdb). rewrite El in E. injection E as <-. apply (step_ok_still _ p _ t t); cbn; auto; discriminate.
  - destruct (search_ret query p) as (items & db & El & Hdb). rewrite El in E. injection E as <-. apply (step_ok_still _ p _ t t); cbn; auto; discriminate.
  - injection E as <-. apply change_ok; assumption.
  - injection E as <-. unfold exportProducts. destruct (post_io (mkRequest RqExport callback) p) as (q & Hqq & Eq & Ei & Ed). exists t, [].
    rewrite (posted_app p _ q) by congruence. rewrite Eq, Ei, Ed. refine (conj Hd (conj Ht (conj _ (conj _ (conj eq_refl (conj _ eq_refl)))))); [lia| |cbn; apply app_nil_r].
    apply Forall_app. split; [exact F|]. destruct Hqq as [->| ->]; [constructor|apply Forall_singleton; exact I].
  - injection E as <-. destruct Hq as [-> Hr]. apply save_ok; assumption.
  - injection E as <-. destruct (pp_session p); apply (step_ok_still _ p _ t t); cbn; auto; discriminate.
  - injection E as <-. apply io_next_ok; assumption.
  - apply idle_next_ok; assumption.
  - injection E as <-. apply (step_ok_still _ p _ t t); cbn; auto; discriminate.
Qed.

Lemma spec_tasks_app a b l : spec_tasks (a ++ b) l =
  let '(out, l1) := spec_tasks a l in let '(out', l2) := spec_tasks b l1 in (out ++ out', l2).
Proof.
  revert l. induction a as [|r a IH]; intros l; cbn; [destruct (spec_tasks b l); reflexivity|]. destruct (spec_task r l) as [x l1]. rewrite IH.
  destruct (spec_tasks a l1) as [out l2]. destruct (spec_tasks b l2). reflexivity.
Qed.

Lemma products_run_ok es : forall p p' t, Forall quiet es -> pp_db p = resting t -> tables_typed t -> t_sequence t + Z.of_nat (length es) <= int_max ->
  Forall request_ok (pp_io p) -> products_run tr es p = Ret p' ->
  exists t' done, pp_db p' = resting t' /\ pp_io p ++ fst (observed es p) = done ++ pp_io p' /\
    map report_of (pp_idle p) ++ fst (spec_tasks done (listing_of t)) = snd (observed es p) ++ map report_of (pp_idle p') /\
    listing_of t' = snd (spec_tasks done (listing_of t)).
Proof.
  induction es as [|e es IH]; intros p p' t Fq Hd Ht Hs F E.
  - injection E as <-. exists t, []. cbn. rewrite !app_nil_r. auto.
  - cbn [products_run] in E. apply bind_ret_inv in E as (p1 & E1 & E). apply Forall_cons in Fq as [Hq Fq]. cbn [length] in Hs.
    destruct (products_step_ok e p p1 t Hq Hd Ht ltac:(lia) F E1) as (t1 & done1 & Hd1 & Ht1 & Hs1 & F1 & Q1 & A1 & L1).
    destruct (IH p1 p' t1 Fq Hd1 Ht1 ltac:(lia) F1 E) as (t2 & done2 & Hd2 & Q2 & A2 & L2). exists t2, (done1 ++ done2). split; [exact Hd2|].
    cbn [observed]. rewrite E1. rewrite spec_tasks_app. destruct (spec_tasks done1 (listing_of t)) as [out1 l1]. cbn [fst snd] in *. subst l1.
    destruct (spec_tasks done2 (listing_of t1)) as [out2 l2]. destruct (observed es p1) as [q a]. cbn [fst snd] in *.
    split; [rewrite app_assoc, Q1, <- app_assoc, Q2, app_assoc; reflexivity|]. split; [rewrite app_assoc, A1, <- app_assoc, A2, app_assoc; reflexivity|exact L2].
Qed.

(** The I/O thread and the main loop empty the queues. *)
Lemma io_drains now n : forall p, pp_ioStopped p = false -> length (pp_io p) = n ->
  exists p', products_run tr (repeat (PeIo now) n) p = Ret p' /\ pp_io p' = [] /\ length (pp_idle p') = (length (pp_idle p) + n)%nat.
Proof.
  induction n as [|n IH]; intros p Hst Hn; [exists p; destruct (pp_io p); [auto|discriminate]|]. cbn [repeat products_run products_step mbind outcome_bind].
  destruct (pp_io p) as [|r io] eqn:E; [discriminate|]. assert (G : pp_ioStopped (io_next now p) = false /\ pp_io (io_next now p) = io /\ length (pp_idle (io_next now p)) = S (length (pp_idle p))).
  { unfold io_next. rewrite Hst, E. destruct (rq_kind r) as [o|]; cbn [pp_db set_io]; [destruct (store_op now o (pp_db p)) as [b db]|destruct (getAllProducts (pp_db p)) as [rows db]];
      cbn; rewrite length_app; cbn; repeat split; auto; lia. }
  destruct G as (G1 & G2 & G3). destruct (IH _ G1 ltac:(rewrite G2; cbn in Hn; lia)) as (p' & E' & I & L). exists p'. split; [exact E'|]. split; [exact I|lia].
Qed.

Lemma idle_drains n : forall p, length (pp_idle p) = n -> exists p', products_run tr (repeat PeIdle n) p = Ret p' /\ pp_idle p' = [] /\ pp_io p' = pp_io p.
Proof.
  induction n as [|n IH]; intros p Hn; [exists p; destruct (pp_idle p); [auto|discriminate]|]. cbn [repeat products_run products_step].
  destruct (pp_idle p) as [|a idle] eqn:E; [discriminate|]. assert (G : exists p1, idle_next p = Ret p1 /\ pp_idle p1 = idle /\ pp_io p1 = pp_io p).
  { unfold idle_next. rewrite E. destruct a as [o cb []|cb rows].
    - destruct (load_ret (emitAudit (action_of o) (details_of o) kSuccess (set_idle idle p))) as (items & db & El & _). rewrite El. eexists. split; [reflexivity|].
      destruct (emit_fields (action_of o) (details_of o) kSuccess (set_idle idle p)) as (_ & E2 & E3 & _). cbn. rewrite E2, E3. split; reflexivity.
    - eexists. split; [reflexivity|]. destruct (emit_fields (action_of o) (details_of o) kFailure (set_idle idle p)) as (_ & E2 & E3 & _). cbn. rewrite E2, E3. split; reflexivity.
    - eexists. split; [reflexivity|]. split; reflexivity. }
  destruct G as (p1 & -> & G2 & G3). cbn [mbind outcome_bind]. destruct (IH p1 ltac:(rewrite G2; cbn in Hn; lia)) as (p' & E' & I & L). exists p'. split; [exact E'|]. split; congruence.
Qed.

Lemma products_run_app es es' p : products_run tr (es ++ es') p = (p ← products_run tr es p; products_run tr es' p).
Proof. revert p. induction es as [|e es IH]; intros p; [reflexivity|]. cbn. destruct (products_step tr e p); cbn; auto. Qed.

(* ------------------------------------------------------------------ *)
(** ** Lemmas: without an editor *)

Definition not_editor (u : option User) : Prop := match u with Some u => canEditProducts (role u) = false | None => True end.
Definition export_only (r : request) : Prop := rq_kind r = RqExport.
Definition export_answer (a : answer) : Prop := match a with AnExport _ _ => True | AnDone _ _ _ => False end.
Definition no_editor_event (e : products_event) : Prop := match e with PeUser u => not_editor u | _ => True end.

(** What an attempt is recorded as. *)
Definition attempt (writer : bool) (e : products_event) : option (string * string) :=
  match e with
  | PeChange o _ => Some (action_of o, details_of o)
  | PeSaveRecipe recipe _ _ => if writer then Some ("RECIPE_SAVE", "code=" ++ rec_productCode recipe)%string else None
  | _ => None
  end.
Fixpoint refusals (writer : bool) (u : option User) (es : list products_event) : list AuditEvent :=
  match es with
  | [] => []
  | e :: es =>
      match u, attempt writer e with
      | Some u, Some (action, details) => [mkAudit (username u) (roleName (role u)) kProduct action details kFailure]
      | _, _ => []
      end ++ refusals writer (match e with PeUser v => v | _ => u end) es
  end.
(** The callbacks the events carry, all called with [false]. *)
Definition refused_callback (e : products_event) : list shown_event :=
  match e with PeChange _ cb | PeSaveRecipe _ cb _ => [ShCallback cb false] | _ => [] end.
Definition is_callback (e : shown_event) : bool := match e with ShCallback _ _ => true | _ => false end.

Definition same_data (s s' : Catalogue) : Prop := db_view s' = db_view s /\ db_disk s' = db_disk s /\ db_in_tx s' = db_in_tx s.
#[export] Instance same_data_pre : PreOrder same_data.
Proof. split; [intros s; repeat split|]. intros a b c (?&?&?) (?&?&?). repeat split; congruence. Qed.

(** A signed-in user who may not edit, and nothing but exports under way. *)
Record locked (u : option User) p : Prop := {
  lk_user : option_map currentUser (pp_session p) = Some u;
  lk_not : not_editor u;
  lk_io : Forall export_only (pp_io p);
  lk_idle : Forall export_answer (pp_idle p);
}.

Lemma select_same has {A} (rows : catalogue_tables -> list A) s : same_data s (snd (run_select has rows s)).
Proof. apply run_select_view. Qed.
Lemma getAll_same s : same_data s (snd (getAllProducts s)).
Proof. rewrite getAll_select. apply select_same. Qed.
(** [select_step]: the next SELECT leaves the data. *)
Ltac select_step :=
  match goal with |- context [run_select ?has ?rows ?s] =>
    let HS := fresh "HS" in pose proof (select_same has rows s) as HS; destruct (run_select has rows s); cbn [fst snd] in HS
  end.

Lemma search_same q s : same_data s (snd (searchProducts q s)).
Proof. unfold searchProducts. select_step. exact HS. Qed.
Lemma getProduct_same id s : same_data s (snd (getProduct id s)).
Proof. unfold getProduct. select_step. exact HS. Qed.
Lemma getRecipe_same code s : same_data s (snd (getRecipeByProductCode code s)).
Proof. unfold getRecipeByProductCode. select_step. destruct l; [exact HS|]. select_step. etransitivity; eassumption. Qed.

(** What a step leaves of a page nobody may edit on: [l] is shown and
    [evs] recorded. *)
Record kept (l : list shown_event) (evs : list AuditEvent) p p' : Prop := {
  kp_data : same_data (pp_db p) (pp_db p');
  kp_writer : recipesWriter_ p' = recipesWriter_ p;
  kp_shown : exists shown, pp_shown p' = pp_shown p ++ shown /\ List.filter is_callback shown = l;
  kp_audit : pp_audit p' = option_map (fun log => log ++ evs) (pp_audit p);
}.

Definition refusal (writer : bool) (u : option User) (e : products_event) : list AuditEvent :=
  match u, attempt writer e with
  | Some u, Some (action, details) => [mkAudit (username u) (roleName (role u)) kProduct action details kFailure]
  | _, _ => []
  end.
Definition user_after (u : option User) (e : products_event) : option User := match e with PeUser v => v | _ => u end.

Lemma option_app_nil {A} (o : option (list A)) : o = option_map (fun l => l ++ []) o.
Proof. destruct o; cbn; rewrite ?app_nil_r; reflexivity. Qed.

(** Steps that only read and show. *)
Lemma locked_reads u e p p' shown : locked u p -> (forall v, e <> PeUser v) -> refused_callback e = [] -> attempt (recipesWriter_ p) e = None ->
  same_data (pp_db p) (pp_db p') -> pp_session p' = pp_session p -> pp_io p' = pp_io p -> pp_idle p' = pp_idle p -> recipesWriter_ p' = recipesWriter_ p ->
  pp_audit p' = pp_audit p -> pp_shown p' = pp_shown p ++ shown -> List.filter is_callback shown = [] ->
  locked (user_after u e) p' /\ kept (refused_callback e) (refusal (recipesWriter_ p) u e) p p'.
Proof.
  intros [L1 L2 L3 L4] He Hr Ha Hd Hs Hi Hl Hw Hau Hsh Hf. assert (Eu : user_after u e = u) by (destruct e; try reflexivity; destruct (He u0); reflexivity).
  rewrite Eu, Hr. unfold refusal. rewrite Ha. split; [split; rewrite ?Hs, ?Hi, ?Hl; assumption|]. split; [exact Hd|exact Hw|exists shown; auto|].
  rewrite Hau. destruct u; apply option_app_nil.
Qed.

Lemma locked_refuses u p action details : locked u p ->
  exists p', checkEditPermission action details p = (false, p') /\ locked u p' /\
    kept [] (match u with Some u => [mkAudit (username u) (roleName (role u)) kProduct action details kFailure] | None => [] end) p p'.
Proof.
  intros [L1 L2 L3 L4]. unfold checkEditPermission. destruct (pp_session p) as [s|] eqn:Es; [|discriminate]. injection L1 as L1. rewrite L1.
  assert (K : forall p', pp_db p' = pp_db p -> recipesWriter_ p' = recipesWriter_ p -> pp_shown p' = pp_shown p -> forall evs, pp_audit p' = option_map (fun log => log ++ evs) (pp_audit p) -> kept [] evs p p').
  { intros p' E1 E2 E3 evs E4. split; [rewrite E1; reflexivity|exact E2|exists []; rewrite app_nil_r; auto|exact E4]. }
  destruct u as [u|].
  - cbn in L2. rewrite L2. eexists. split; [reflexivity|]. unfold emitAudit. rewrite Es. destruct (pp_audit p) as [log|] eqn:Ea.
    + split; [split; cbn; rewrite ?Es; cbn; rewrite ?L1; auto|]. apply K; try reflexivity. cbn. rewrite L1. reflexivity.
    + split; [split; rewrite ?Es; cbn; rewrite ?L1; auto|]. apply K; try reflexivity. rewrite Ea. reflexivity.
  - eexists. split; [reflexivity|]. split; [split; rewrite ?Es; cbn; rewrite ?L1; auto|]. apply K; try reflexivity. apply option_app_nil.
Qed.

Lemma kept_callback evs p p1 cb : kept [] evs p p1 -> kept [ShCallback cb false] evs p (show (ShCallback cb false) p1).
Proof.
  intros [H1 H2 (l & H3 & H4) H5]. split; cbn; auto. exists (l ++ [ShCallback cb false]). rewrite H3, <- app_assoc, List.filter_app, H4. split; reflexivity.
Qed.

Lemma locked_show u p e : locked u p -> locked u (show e p).
Proof. intros [H1 H2 H3 H4]. split; assumption. Qed.

Lemma locked_loads u e p shown db q : locked u p -> (forall v, e <> PeUser v) -> refused_callback e = [] -> attempt (recipesWriter_ p) e = None ->
  same_data (pp_db p) db -> is_callback shown = false -> locked (user_after u e) (show shown (set_db db (set_query q p))) /\
    kept (refused_callback e) (refusal (recipesWriter_ p) u e) p (show shown (set_db db (set_query q p))).
Proof. intros HL He Hr Ha Hd Hc. apply (locked_reads u e p _ [shown]); auto. cbn. rewrite Hc. reflexivity. Qed.

Lemma view_model_same p items p' : buildProductsViewModel p = Ret (items, p') -> exists db, p' = set_db db p /\ same_data (pp_db p) db.
Proof.
  unfold buildProductsViewModel. pose proof (getAll_same (pp_db p)) as H1. pose proof (search_same (currentSearchQuery_ p) (pp_db p)) as H2.
  destruct (bool_decide _); [destruct (getAllProducts _) as [rows db]|destruct (searchProducts _ _) as [rows db]]; intros E; apply bind_ret_inv in E as (its & _ & E);
    injection E as <- <-; exists db; auto.
Qed.

Lemma change_locked u o cb p : locked u p -> locked u (changeProduct o cb p) /\ kept [ShCallback cb false] (refusal (recipesWriter_ p) u (PeChange o cb)) p (changeProduct o cb p).
Proof.
  intros HL. unfold changeProduct. destruct (locked_refuses u p (action_of o) (details_of o) HL) as (p1 & E & L1 & K). rewrite E. cbn [negb].
  split; [apply locked_show, L1|]. apply kept_callback. destruct u; exact K.
Qed.

Lemma save_locked u recipe cb slices p : locked u p ->
  locked u (saveRecipe recipe cb slices p) /\ kept [ShCallback cb false] (refusal (recipesWriter_ p) u (PeSaveRecipe recipe cb slices)) p (saveRecipe recipe cb slices p).
Proof.
  intros HL. unfold saveRecipe, refusal, attempt. destruct (recipesWriter_ p) eqn:Ew; cbn [negb].
  - destruct (locked_refuses u p "RECIPE_SAVE" ("code=" ++ rec_productCode recipe)%string HL) as (p1 & E & L1 & K). rewrite E. cbn [negb].
    split; [apply locked_show, L1|]. apply kept_callback. destruct u; exact K.
  - split; [apply locked_show, HL|]. apply kept_callback. split; [reflexivity|reflexivity|exists []; rewrite app_nil_r; auto|]. destruct u; apply option_app_nil.
Qed.

Lemma io_locked u now p : locked u p -> locked u (io_next now p) /\ kept [] [] p (io_next now p).
Proof.
  intros HL. assert (K0 : kept [] [] p p) by (split; [reflexivity|reflexivity|exists []; rewrite app_nil_r; auto|apply option_app_nil]). pose proof HL as [L1 L2 L3 L4].
  unfold io_next. destruct (pp_ioStopped p); [auto|]. destruct (pp_io p) as [|r io] eqn:Ei; [auto|]. apply Forall_cons in L3 as [Hr L3]. rewrite Hr. cbn [pp_db set_io].
  pose proof (getAll_same (pp_db p)) as HS. destruct (getAllProducts (pp_db p)) as [rows db]. cbn [snd] in HS. split.
  - split; cbn; auto. apply Forall_app. split; [exact L4|apply Forall_singleton; exact I].
  - split; cbn; [exact HS|reflexivity|exists []; rewrite app_nil_r; auto|apply option_app_nil].
Qed.

Lemma idle_locked u p p' : locked u p -> idle_next p = Ret p' -> locked u p' /\ kept [] [] p p'.
Proof.
  intros HL E. pose proof HL as [L1 L2 L3 L4]. assert (K0 : kept [] [] p p) by (split; [reflexivity|reflexivity|exists []; rewrite app_nil_r; auto|apply option_app_nil]).
  unfold idle_next in E. destruct (pp_idle p) as [|a idle] eqn:Ei; [injection E as <-; auto|]. apply Forall_cons in L4 as [Ha L4]. destruct a as [|cb rows]; [contradiction|]. injection E as <-.
  split; [split; assumption|]. split; cbn; [reflexivity|reflexivity|eexists; split; reflexivity|apply option_app_nil].
Qed.

Lemma products_locked u e p p' : locked u p -> no_editor_event e -> products_step tr e p = Ret p' ->
  locked (user_after u e) p' /\ kept (refused_callback e) (refusal (recipesWriter_ p) u e) p p'.
Proof.
  intros HL Hn E. assert (Nil : refusal (recipesWriter_ p) u e = match attempt (recipesWriter_ p) e with None => [] | _ => refusal (recipesWriter_ p) u e end)
    by (unfold refusal; destruct u, (attempt _ e) as [[]|]; reflexivity).
  destruct e; cbn [products_step] in E; try (injection E as <-).
  - apply bind_ret_inv in E as ([items p1] & E & E'). cbv beta iota in E'. injection E' as <-. apply view_model_same in E as (db & -> & HS). apply locked_loads; first [discriminate|assumption|reflexivity].
  - apply bind_ret_inv in E as ([items p1] & E & E'). cbv beta iota in E'. injection E' as <-. apply view_model_same in E as (db & -> & HS). apply locked_loads; first [discriminate|assumption|reflexivity].
  - unfold viewProduct, buildProductDetailViewModel in E. pose proof (getProduct_same productId (pp_db p)) as HS. destruct (getProduct productId (pp_db p)) as [r db]. cbn [snd] in HS.
    apply bind_ret_inv in E as ([vm p1] & E & E'). cbv beta iota in E'. injection E' as <-. apply bind_ret_inv in E as (id & _ & E).
    assert (E1 : p1 = set_db db p) by (destruct (id =? _); [congruence|]; apply bind_ret_inv in E as (x & _ & E); apply bind_ret_inv in E as (y & _ & E); congruence).
    subst p1. apply (locked_reads u _ p _ [ShProduct vm]); first [discriminate|assumption|reflexivity].
  - apply change_locked, HL.
  - unfold exportProducts. destruct (post_io (mkRequest RqExport callback) p) as (q & Hq & Eq & Ei & Ed). destruct (post_rest (mkRequest RqExport callback) p) as (Es & Ew & Esh & Ea).
    rewrite Nil. cbn [attempt user_after refused_callback]. destruct HL as [L1 L2 L3 L4]. split; [split; [rewrite Es; exact L1|exact L2| |rewrite Ei; exact L4]|].
    + rewrite Eq. apply Forall_app. split; [exact L3|]. destruct Hq as [->| ->]; [constructor|apply Forall_singleton; reflexivity].
    + split; [rewrite Ed; reflexivity|exact Ew|exists []; rewrite app_nil_r; auto|rewrite Ea; apply option_app_nil].
  - unfold loadRecipe in E. destruct (productionModel_ p) as [m|]; [|injection E as <-; apply (locked_reads u _ p _ [ShRecipe false (tr "Recipe loading is not available.")]); first [discriminate|assumption|reflexivity]].
    destruct (recipes_ p); cbn [negb] in E; [|injection E as <-; apply (locked_reads u _ p _ [ShRecipe false (tr "Recipe loading is not available.")]); first [discriminate|assumption|reflexivity]].
    pose proof (getProduct_same productId (pp_db p)) as HS. destruct (getProduct productId (pp_db p)) as [r db]. cbn [snd] in HS. apply bind_ret_inv in E as (id & _ & E).
    destruct (id =? _); [injection E as <-; apply (locked_reads u _ p _ [ShRecipe false (tr "Product not found.")]); first [discriminate|assumption|reflexivity]|]. cbn [pp_db set_db] in E.
    pose proof (getRecipe_same (row_productCode r) db) as HS2. destruct (getRecipeByProductCode (row_productCode r) db) as [recipe db2]. cbn [snd] in HS2.
    assert (same_data (pp_db p) db2) by (etransitivity; eassumption).
    destruct recipe; apply bind_ret_inv in E as (msg & _ & E); injection E as <-.
    + apply (locked_reads u _ p _ [ShRecipe true msg]); first [discriminate|assumption|reflexivity].
    + apply (locked_reads u _ p _ [ShRecipe false msg]); first [discriminate|assumption|reflexivity].
  - destruct (getRecipeForEditing productId p) as [recipe p1] eqn:G. injection E as <-. unfold getRecipeForEditing in G.
    pose proof (getProduct_same productId (pp_db p)) as HS. destruct (getProduct productId (pp_db p)) as [r db]. cbn [snd] in HS. cbn [pp_db set_db recipes_ productionModel_] in G.
    pose proof (getRecipe_same (row_productCode r) db) as HS2. destruct (getRecipeByProductCode (row_productCode r) db) as [rec db2]. cbn [snd] in HS2.
    assert (same_data (pp_db p) db2) by (etransitivity; eassumption).
    destruct (recipes_ p); injection G as <- <-; match goal with |- context [ShRecipeForm ?r] => apply (locked_reads u _ p _ [ShRecipeForm r]) end; first [discriminate|assumption|reflexivity].
  - apply save_locked, HL.
  - rewrite Nil. destruct HL as [L1 L2 L3 L4]. destruct (pp_session p) as [s|] eqn:Es; [|discriminate]. split.
    + split; cbn; [|exact Hn|exact L3|exact L4]. destruct u0; reflexivity.
    + split; cbn; [reflexivity|reflexivity|exists []; rewrite app_nil_r; auto|apply option_app_nil].
  - rewrite Nil. apply io_locked, HL.
  - rewrite Nil. apply idle_locked; assumption.
  - rewrite Nil. destruct HL as [L1 L2 L3 L4]. split; [split; assumption|]. split; cbn; [reflexivity|reflexivity|exists []; rewrite app_nil_r; auto|apply option_app_nil].
Qed.

Lemma kept_trans l1 e1 l2 e2 p p1 p2 : kept l1 e1 p p1 -> kept l2 e2 p1 p2 -> kept (l1 ++ l2) (e1 ++ e2) p p2.
Proof.
  intros [A1 A2 (s1 & A3 & A4) A5] [B1 B2 (s2 & B3 & B4) B5]. split; [etransitivity; eassumption|congruence| |].
  - exists (s1 ++ s2). rewrite B3, A3, <- app_assoc, List.filter_app, A4, B4. auto.
  - rewrite B5, A5. destruct (pp_audit p); cbn; rewrite ?app_assoc; reflexivity.
Qed.

Lemma locked_run es : forall u p p', locked u p -> Forall no_editor_event es -> products_run tr es p = Ret p' ->
  exists u', locked u' p' /\ kept (flat_map refused_callback es) (refusals (recipesWriter_ p) u es) p p'.
Proof.
  induction es as [|e es IH]; intros u p p' HL F E.
  - injection E as <-. exists u. split; [exact HL|]. split; [reflexivity|reflexivity|exists []; rewrite app_nil_r; auto|apply option_app_nil].
  - cbn [products_run] in E. apply bind_ret_inv in E as (p1 & E1 & E). apply Forall_cons in F as [Hn F].
    destruct (products_locked u e p p1 HL Hn E1) as [L1 K1]. destruct (IH _ p1 p' L1 F E) as (u' & L2 & K2). exists u'. split; [exact L2|].
    cbn [flat_map refusals]. rewrite (kp_writer _ _ _ _ K1) in K2. eapply kept_trans; [exact K1|exact K2].
Qed.

(* ------------------------------------------------------------------ *)
(** ** Lemmas: every step returns *)

(** The two translated texts with a place for a name can be formatted. *)
Definition recipe_texts_format : Prop :=
  forall name, (exists s, vformat (tr "No recipe defined for {}.") [FText name] = Ret s) /\ (exists s, vformat (tr "Loaded recipe for {}.") [FText name] = Ret s).

Lemma getProduct_numbers productId s : exists id stock rate,
  row_id (fst (getProduct productId s)) = Some id /\ (id <> kInvalidProductId -> row_stock (fst (getProduct productId s)) = Some stock /\ row_qualityRate (fst (getProduct productId s)) = Some rate).
Proof.
  unfold getProduct. destruct (run_select _ _ s) as [rows s']. destruct rows as [|r rows]; cbn.
  - exists kInvalidProductId, 0, (f32_of_Z 0). split; [reflexivity|]. intros Hn. contradiction.
  - eexists _, _, _. split; [reflexivity|]. intros _. split; reflexivity.
Qed.

Lemma products_step_returns e p : recipe_texts_format -> exists p', products_step tr e p = Ret p'.
Proof.
  intros Htr. destruct e; cbn [products_step]; try (eexists; reflexivity).
  - destruct (load_ret p) as (items & db & -> & _). eexists. reflexivity.
  - destruct (search_ret query p) as (items & db & -> & _). eexists. reflexivity.
  - unfold viewProduct, buildProductDetailViewModel. destruct (getProduct_numbers productId (pp_db p)) as (id & stock & rate & Ei & Hr).
    destruct (getProduct productId (pp_db p)) as [r db]. cbn [fst] in *. rewrite Ei. cbn [initialised mbind outcome_bind].
    destruct (Z.eqb_spec id kInvalidProductId) as [_|Hn]; [eexists; reflexivity|]. destruct (Hr Hn) as [-> ->]. eexists. reflexivity.
  - unfold loadRecipe. destruct (productionModel_ p) as [m|]; [|eexists; reflexivity]. destruct (recipes_ p); cbn [negb]; [|eexists; reflexivity].
    destruct (getProduct_numbers productId (pp_db p)) as (id & stock & rate & Ei & _). destruct (getProduct productId (pp_db p)) as [r db]. cbn [fst] in Ei. rewrite Ei.
    cbn [initialised mbind outcome_bind]. destruct (id =? _); [eexists; reflexivity|]. destruct (getRecipeByProductCode _ _) as [[recipe|] db2].
    + destruct (proj2 (Htr (row_name r))) as [s ->]. eexists. reflexivity.
    + destruct (proj1 (Htr (row_productCode r))) as [s ->]. eexists. reflexivity.
  - destruct (getRecipeForEditing productId p). eexists. reflexivity.
  - unfold idle_next. destruct (pp_idle p) as [|[o cb []|cb rows] idle]; try (eexists; reflexivity).
    destruct (load_ret (emitAudit (action_of o) (details_of o) kSuccess (set_idle idle p))) as (items & db & -> & _). eexists. reflexivity.
Qed.

Lemma products_run_returns es : recipe_texts_format -> forall p, exists p', products_run tr es p = Ret p'.
Proof.
  intros Htr. induction es as [|e es IH]; intros p; [eexists; reflexivity|]. cbn [products_run].
  destruct (products_step_returns e p Htr) as [p1 ->]. apply IH.
Qed.
End Observed.
Arguments observed {M _ _} tr es p.
Arguments locked {M} u p.
Arguments may_edit {M} p.

(* ------------------------------------------------------------------ *)
(** ** Properties *)

(** C31: Every accepted request is done and answered once, in order, as long
    as no request is worked on between the statements of a recipe save. From
    a database at rest whose ids are below 2^31, with both queues empty and
    whatever the page asks for (no translated text being malformed): every
    step returns, and the requests that were accepted are those the I/O
    thread has done followed by those it still has; what the main loop has
    reported and will report are the answers the list of products gives to
    the former, in order; and the database holds that list. Unless the I/O
    thread was stopped, both queues can still be emptied. Two requests are
    not covered: one on a full queue, which is not accepted and never
    answered, and one done during a save that then fails, which is answered
    and undone ([products_gaps_refuted]). *)
Theorem product_requests_answered {M : Type} `{RecipeModel M} `{SqlLike} (tr : string -> string) (es : list products_event) (p : ProductsPresenter M) (t : catalogue_tables) :
  recipe_texts_format tr -> Forall quiet es -> pp_db p = resting t -> tables_typed t -> t_sequence t + Z.of_nat (length es) <= int_max -> pp_io p = [] -> pp_idle p = [] ->
  exists p', products_run tr es p = Ret p' /\
  let '(posted, reported) := observed tr es p in
  exists done t', posted = done ++ pp_io p' /\ pp_db p' = resting t' /\
    (reported ++ map report_of (pp_idle p'), listing_of t') = spec_tasks done (listing_of t) /\
    (pp_ioStopped p' = false -> exists drain p'', products_run tr drain p' = Ret p'' /\ pp_io p'' = [] /\ pp_idle p'' = []).
Proof.
  intros Htr Fq Hd Ht Hs Hio Hidle. destruct (products_run_returns tr es Htr p) as [p' E]. exists p'. split; [exact E|].
  destruct (products_run_ok tr es p p' t Fq Hd Ht Hs ltac:(rewrite Hio; constructor) E) as (t' & done & Hd' & Q & A & L).
  destruct (observed tr es p) as [posted reported]. cbn [fst snd] in *. rewrite Hio in Q. rewrite Hidle in A. cbn [app map] in Q, A. exists done, t'. split; [exact Q|]. split; [exact Hd'|].
  split; [rewrite <- A, L; symmetry; apply surjective_pairing|]. intros Hst.
  destruct (io_drains tr "" (length (pp_io p')) p' Hst eq_refl) as (p1 & E1 & I1 & _). destruct (idle_drains tr (length (pp_idle p1)) p1 eq_refl) as (p2 & E2 & I2 & I3).
  eexists (_ ++ _), p2. rewrite products_run_app, E1. cbn [mbind outcome_bind]. split; [exact E2|]. split; congruence.
Qed.

(** Nobody edits products without the role. On a page with a session, as
    long as no Maintenance or Admin user is signed in, whatever is asked for
    and however the threads and statements interleave: the data stays as it
    is, nothing but exports is queued, every change and every save is called
    back with false, in order, and the audit trail grows by exactly one
    failure for each attempt of a signed-in user. *)
Theorem operators_change_nothing {M : Type} `{RecipeModel M} `{SqlLike} (tr : string -> string) (es : list products_event) (u : option User) (p p' : ProductsPresenter M) :
  locked u p -> Forall no_editor_event es -> products_run tr es p = Ret p' ->
  same_data (pp_db p) (pp_db p') /\ Forall export_only (pp_io p') /\
  (exists shown, pp_shown p' = pp_shown p ++ shown /\ List.filter is_callback shown = flat_map refused_callback es) /\
  pp_audit p' = option_map (fun log => log ++ refusals (recipesWriter_ p) u es) (pp_audit p).
Proof.
  intros HL F E. destruct (locked_run tr es u p p' HL F E) as (u' & [_ _ L3 _] & [K1 _ K3 K4]). auto.
Qed.

(** A page over the demo database, with an audit trail. *)
Definition page {M} (session : option Session) : ProductsPresenter M :=
  mkPresenter (resting demo_tables) [] false [] session (Some []) "" true true None [].
Definition new_product : product_op := OpAdd "PROD-009" "Product I" "Active" 1 (f32_of_Z 99).
Definition twice_named : Recipe := mkRecipe "PROD-003" 3 [mkTarget "Assay" (f32_of_Z 90); mkTarget "Assay" (f32_of_Z 91)].
Definition an_editor : User := mkUser 2 "eva" "" Maintenance true "" "" "" "".
Definition an_operator : User := mkUser 3 "otto" "" Operator true "" "" "" "".

(** Where the page does not keep to what it shows. A product added while
    a recipe save fails on the same connection is reported as added and is
    rolled back with it; a request on a full queue is never answered;
    deleting a product that does not exist succeeds; a change is recorded
    under whoever is signed in when it completes; and the code of a deleted
    product cannot be used again. *)
Theorem products_gaps_refuted {M : Type} `{RecipeModel M} `{SqlLike} (tr : string -> string) :
  (exists p' : ProductsPresenter M, products_run tr [PeChange new_product 1; PeSaveRecipe twice_named 2 [[]; ["t1"]]; PeIdle] (page None) = Ret p' /\
     List.filter is_callback (pp_shown p') = [ShCallback 2 false; ShCallback 1 true] /\ pp_db p' = resting demo_tables) /\
  (forall o cb (p : ProductsPresenter M), may_edit p = true -> (kMaxPendingOperations <= length (pp_io p))%nat -> changeProduct o cb p = p) /\
  fst (deleteProduct "t1" 77 (resting demo_tables)) = true /\
  (exists p' : ProductsPresenter M, products_run tr [PeUser (Some an_editor); PeChange new_product 1; PeUser (Some an_operator); PeIo "t1"; PeIdle] (page (Some session_init)) = Ret p' /\
     pp_audit p' = Some [mkAudit "otto" "OPERATOR" kProduct "ADD" "code=PROD-009" kSuccess]) /\
  fst (store_run [("t1", OpDelete 1); ("t2", OpAdd "PROD-001" "Product A" "Active" 1 (f32_of_Z 99))] (resting demo_tables)) = [true; false].
Proof.
  split; [|split; [|split; [|split]]].
  - eexists. split; [vm_compute; reflexivity|]. split; vm_compute; reflexivity.
  - intros o cb p Hm Hl. unfold changeProduct. pose proof (check_fields (action_of o) (details_of o) p) as C. destruct (checkEditPermission _ _ p) as [ok p1].
    destruct C as (-> & Hp & _). rewrite Hm in *. rewrite (Hp eq_refl). cbn [negb]. unfold post. apply Nat.leb_le in Hl. rewrite Hl. reflexivity.
  - vm_compute. reflexivity.
  - eexists. split; [vm_compute; reflexivity|]. vm_compute. reflexivity.
  - vm_compute. reflexivity.
Qed.

(* ------------------------------------------------------------------ *)
(** ** Witnesses *)

#[local] Instance DemoLike : SqlLike := {| like := like_bytes |}.
#[local] Instance NoRecipes : RecipeModel unit := {| rm_loadProduct m _ _ := m; rm_getQualityCheckpoints _ := [] |}.

(** The untranslated texts. *)
Definition english (s : string) : string := s.

Definition demo_page_events : list products_event :=
  [PeUser (Some an_editor); PeChange new_product 1; PeChange (OpDelete 2) 2; PeIo "t1"; PeIdle; PeExport 3; PeSaveRecipe demo_recipe 4 []; PeIo "t2"; PeSearch "Prod"].

Lemma demo_page_quiet : Forall quiet demo_page_events.
Proof. repeat constructor; vm_compute; repeat constructor. Qed.

Lemma english_texts_format : recipe_texts_format english.
Proof. intros name. split; eexists; cbn; reflexivity. Qed.

Lemma product_requests_answered_witness :
  exists p', products_run english demo_page_events (page (M := unit) (Some session_init)) = Ret p' /\
  snd (observed english demo_page_events (page (M := unit) (Some session_init))) = [RepDone 1 true] /\
  exists drain p'', products_run english drain p' = Ret p'' /\ pp_io p'' = [] /\ pp_idle p'' = [].
Proof.
  assert (S : match products_run english demo_page_events (page (M := unit) (Some session_init)) with Ret q => pp_ioStopped q | _ => true end = false) by (vm_compute; reflexivity).
  assert (R : snd (observed english demo_page_events (page (M := unit) (Some session_init))) = [RepDone 1 true]) by (vm_compute; reflexivity).
  destruct (product_requests_answered english demo_page_events (page (M := unit) (Some session_init)) demo_tables english_texts_format demo_page_quiet eq_refl demo_typed
              ltac:(vm_compute; discriminate) eq_refl eq_refl) as (p' & E & T).
  exists p'. split; [exact E|]. split; [exact R|]. destruct (observed english demo_page_events (page (Some session_init))) as [posted reported]. destruct T as (done & t' & _ & _ & _ & T). apply T.
  rewrite E in S. exact S.
Defined.

Lemma operators_change_nothing_witness :
  let p := page (M := unit) (Some (mkSession (Some an_operator) 1)) in
  exists p', products_run english [PeChange new_product 1; PeIo "t1"; PeExport 2; PeSaveRecipe demo_recipe 3 []; PeIo "t2"] p = Ret p' /\
  same_data (pp_db p) (pp_db p') /\ option_map (length (A := AuditEvent)) (pp_audit p') = Some 2%nat.
Proof.
  cbn zeta. set (p := page _). set (es := [_; _; _; _; _]). destruct (products_run english es p) as [p'| |] eqn:E; try (vm_compute in E; discriminate E).
  exists p'. split; [reflexivity|]. destruct (operators_change_nothing english es (Some an_operator) p p') as (D & _ & _ & A).
  - split; [reflexivity|reflexivity|constructor|constructor].
  - repeat constructor.
  - exact E.
  - split; [exact D|]. rewrite A. vm_compute. reflexivity.
Defined.
