(* ===== verification/Users.v ===== *)
(** * User management and access control
    (src/presenter/UsersPresenter.{h,cpp}; checkRole and the command handlers
    of DashboardPresenter.cpp)

    Every operation of the user-management presenter over the account store,
    the hasher, the session and the audit trail, and the role gate in front
    of the dashboard's commands. Properties: no operation gains privileges,
    what is created can log in, and a finding on self-demotion. *)
From Stdlib Require Import Ascii String.
From stdpp Require Import strings pretty.
From S2P Require Import Prelude Sql Auth UserStore Login SystemState.
Local Open Scope string_scope.
Local Open Scope Z_scope.
Local Open Scope list_scope.

Inductive UsersStatus :=
| Ok | Forbidden | DuplicateUsername | NotFound | ValidationFailed | SelfMutationRefused
| WrongPassword | HasherFailed | StorageFailure.

#[export] Instance UsersStatus_eq_dec : EqDecision UsersStatus.
Proof. solve_decision. Defined.

Definition statusMessage (s : UsersStatus) : string :=
  match s with
  | Ok => "OK"
  | Forbidden => "Permission denied"
  | DuplicateUsername => "Username already exists"
  | NotFound => "User not found"
  | ValidationFailed => "Invalid input"
  | SelfMutationRefused => "Cannot perform this on your own account"
  | WrongPassword => "Current password is incorrect"
  | HasherFailed => "Password hashing failed"
  | StorageFailure => "Storage layer refused the change"
  end.

Definition kActionCreate : string := "CREATE".
Definition kActionUpdate : string := "UPDATE".
Definition kActionDelete : string := "DELETE".
Definition kActionResetPassword : string := "RESET_PASSWORD".
Definition kActionChangePassword : string := "CHANGE_PASSWORD".
Definition kActionChangeAvatar : string := "CHANGE_AVATAR".
Definition kActionClearAvatar : string := "CLEAR_AVATAR".

Definition kMinPasswordLen : Z := 8.
Definition kMinUsernameLen : Z := 3.
Definition kMaxUsernameLen : Z := 32.
Definition kMaxDisplayLen : Z := 128.

Definition size (s : string) : Z := Z.of_nat (String.length s).

Definition isAllowedUsernameChar (c : ascii) : bool :=
  is_alnum c || bool_decide (c = "_"%char) || bool_decide (c = "-"%char) || bool_decide (c = "."%char).

Fixpoint all_of (p : ascii -> bool) (s : string) : bool :=
  match s with EmptyString => true | String c s => p c && all_of p s end.

(** [s.front()] of an empty view is undefined; the length guard runs first. *)
Definition isValidUsername (s : string) : bool :=
  if (size s <? kMinUsernameLen) || (kMaxUsernameLen <? size s) then false
  else match s with
       | EmptyString => false
       | String front _ => if negb (is_alpha front) then false else all_of isAllowedUsernameChar s
       end.

Definition isValidPassword (s : string) : bool := kMinPasswordLen <=? size s.
Definition isValidDisplayName (s : string) : bool := size s <=? kMaxDisplayLen.

Definition makeEvent (session : Session) (action details : string) (success : bool) : AuditEvent :=
  let result := if success then kSuccess else kFailure in
  match currentUser session with
  | Some u => mkAudit (username u) (roleName (role u)) kUser action details result
  | None => mkAudit "unknown" "UNKNOWN" kUser action details result
  end.

Section Presenter.
Context {R : Type} `{UR : UserRepository R} {H : Type} `{PH : PasswordHasher H}.
Implicit Types w : AuthWorld R H.

(** [audit_.record(makeEvent(...))]; the presenter always has a logger. *)
Definition audit_event (action details : string) (success : bool) w : AuthWorld R H :=
  mkWorld (users_ w) (hasher_ w) (session_ w) (audit_set w)
          (audit_ w ++ [makeEvent (session_ w) action details success]).

(** [audit; return status]. *)
Definition finish (status : UsersStatus) (action details : string) (success : bool) w : UsersStatus * AuthWorld R H :=
  (status, audit_event action details success w).

(** [!me.has_value() || !canManageUsers(me->role)], else the user. *)
Definition managing w : option User :=
  match currentUser (session_ w) with
  | Some me => if canManageUsers (role me) then Some me else None
  | None => None
  end.

Definition users_list w : list User :=
  match managing w with Some _ => listAll (users_ w) | None => [] end.

Definition users_getAvatar (uid : Z) w : option Avatar :=
  if isAuthenticated (session_ w) then getAvatar (users_ w) uid else None.

Definition users_create (name password : string) (r : Role) (display : string) w : UsersStatus * AuthWorld R H :=
  match managing w with
  | None => finish Forbidden kActionCreate ("attempted create username=" ++ name)%string false w
  | Some _ =>
      if negb (isValidUsername name) || negb (isValidPassword password) || negb (isValidDisplayName display)
      then finish ValidationFailed kActionCreate ("invalid input username=" ++ name)%string false w
      else
        let canon := canonicalUsername name in
        let (d, h) := hash (hasher_ w) password in
        let w := set_hasher h w in
        match d with
        | None => finish HasherFailed kActionCreate ("hasher failure username=" ++ canon)%string false w
        | Some digest =>
            let (created, store) := create (users_ w) (mkUser (-1) canon digest r true display "" "" "") in
            let w := set_users store w in
            match created with
            | None => finish DuplicateUsername kActionCreate ("duplicate username=" ++ canon)%string false w
            | Some u =>
                finish Ok kActionCreate
                  ("id=" ++ pretty (id u) ++ " username=" ++ username u ++ " role=" ++ roleName (role u))%string true w
            end
        end
  end.

(** [session_.setUser] with the row read back, when there is one. *)
Definition refresh (uid : Z) w : AuthWorld R H :=
  match findById (users_ w) uid with
  | Some u => set_session (setUser u (session_ w)) w
  | None => w
  end.

Definition bool_text (b : bool) : string := if b then "true" else "false".

Definition users_update (uid : Z) (r : Role) (display : string) (on : bool) w : UsersStatus * AuthWorld R H :=
  match managing w with
  | None => finish Forbidden kActionUpdate ("attempted update id=" ++ pretty uid)%string false w
  | Some me =>
      if negb (isValidDisplayName display)
      then finish ValidationFailed kActionUpdate ("invalid input id=" ++ pretty uid)%string false w
      else
        match findById (users_ w) uid with
        | None => finish NotFound kActionUpdate ("not found id=" ++ pretty uid)%string false w
        | Some target =>
            if (id target =? id me) && negb on
            then finish SelfMutationRefused kActionUpdate ("self-disable refused id=" ++ pretty uid)%string false w
            else
              let target := mkUser (id target) (username target) (passwordHash target) r on display
                              (avatarMime target) (createdAt target) (updatedAt target) in
              let (stored, store) := update (users_ w) target in
              let w := set_users store w in
              if negb stored
              then finish StorageFailure kActionUpdate ("storage failure id=" ++ pretty uid)%string false w
              else
                let w := if id target =? id me then refresh (id target) w else w in
                finish Ok kActionUpdate
                  ("id=" ++ pretty (id target) ++ " username=" ++ username target ++ " role=" ++ roleName (role target)
                   ++ " enabled=" ++ bool_text (enabled target))%string true w
        end
  end.

Definition users_remove (uid : Z) w : UsersStatus * AuthWorld R H :=
  match managing w with
  | None => finish Forbidden kActionDelete ("attempted delete id=" ++ pretty uid)%string false w
  | Some me =>
      if id me =? uid
      then finish SelfMutationRefused kActionDelete ("self-delete refused id=" ++ pretty uid)%string false w
      else
        match findById (users_ w) uid with
        | None => finish NotFound kActionDelete ("not found id=" ++ pretty uid)%string false w
        | Some target =>
            let (removed, store) := remove (users_ w) uid in
            let w := set_users store w in
            if negb removed
            then finish StorageFailure kActionDelete ("storage failure id=" ++ pretty uid)%string false w
            else finish Ok kActionDelete
                   ("id=" ++ pretty (id target) ++ " username=" ++ username target ++ " role=" ++ roleName (role target))%string
                   true w
        end
  end.

Definition with_hash (u : User) (digest : string) : User :=
  mkUser (id u) (username u) digest (role u) (enabled u) (displayName u) (avatarMime u) (createdAt u) (updatedAt u).

Definition users_resetPassword (uid : Z) (password : string) w : UsersStatus * AuthWorld R H :=
  match managing w with
  | None => finish Forbidden kActionResetPassword ("attempted reset id=" ++ pretty uid)%string false w
  | Some _ =>
      if negb (isValidPassword password)
      then finish ValidationFailed kActionResetPassword ("invalid input id=" ++ pretty uid)%string false w
      else
        match findById (users_ w) uid with
        | None => finish NotFound kActionResetPassword ("not found id=" ++ pretty uid)%string false w
        | Some target =>
            let (d, h) := hash (hasher_ w) password in
            let w := set_hasher h w in
            match d with
            | None => finish HasherFailed kActionResetPassword ("hasher failure id=" ++ pretty uid)%string false w
            | Some digest =>
                let target := with_hash target digest in
                let (stored, store) := update (users_ w) target in
                let w := set_users store w in
                if negb stored
                then finish StorageFailure kActionResetPassword ("storage failure id=" ++ pretty uid)%string false w
                else finish Ok kActionResetPassword
                       ("id=" ++ pretty (id target) ++ " username=" ++ username target)%string true w
            end
        end
  end.

Definition users_changeOwnPassword (oldPassword newPassword : string) w : UsersStatus * AuthWorld R H :=
  match currentUser (session_ w) with
  | None => (Forbidden, w)
  | Some me =>
      let me_id := pretty (id me) in
      if negb (isValidPassword newPassword)
      then finish ValidationFailed kActionChangePassword ("invalid input id=" ++ me_id)%string false w
      else
        match findById (users_ w) (id me) with
        | None => finish NotFound kActionChangePassword ("self vanished id=" ++ me_id)%string false w
        | Some stored =>
            match verify (hasher_ w) oldPassword (passwordHash stored) with
            | None => finish HasherFailed kActionChangePassword ("hasher failure id=" ++ me_id)%string false w
            | Some false => finish WrongPassword kActionChangePassword ("wrong old password id=" ++ me_id)%string false w
            | Some true =>
                let (d, h) := hash (hasher_ w) newPassword in
                let w := set_hasher h w in
                match d with
                | None => finish HasherFailed kActionChangePassword ("hasher failure id=" ++ me_id)%string false w
                | Some digest =>
                    let (ok, store) := update (users_ w) (with_hash stored digest) in
                    let w := set_users store w in
                    if negb ok
                    then finish StorageFailure kActionChangePassword ("storage failure id=" ++ me_id)%string false w
                    else finish Ok kActionChangePassword ("id=" ++ me_id ++ " username=" ++ username me)%string true w
                end
            end
        end
  end.

Definition users_setOwnAvatar (bytes : list Z) (mime : string) w : UsersStatus * AuthWorld R H :=
  match currentUser (session_ w) with
  | None => (Forbidden, w)
  | Some me =>
      let what := ("id=" ++ pretty (id me) ++ " mime=" ++ mime ++ " bytes=" ++ pretty (Z.of_nat (List.length bytes)))%string in
      let (ok, store) := setAvatar (users_ w) (id me) bytes mime in
      let w := set_users store w in
      if negb ok then finish ValidationFailed kActionChangeAvatar ("rejected " ++ what)%string false w
      else finish Ok kActionChangeAvatar what true (refresh (id me) w)
  end.

Definition users_clearOwnAvatar w : UsersStatus * AuthWorld R H :=
  match currentUser (session_ w) with
  | None => (Forbidden, w)
  | Some me =>
      let (ok, store) := clearAvatar (users_ w) (id me) in
      let w := set_users store w in
      if negb ok then finish StorageFailure kActionClearAvatar ("storage failure id=" ++ pretty (id me))%string false w
      else finish Ok kActionClearAvatar ("id=" ++ pretty (id me) ++ " username=" ++ username me)%string true (refresh (id me) w)
  end.

(** The presenter's mutations, and login and logout. *)
Inductive users_op :=
| UCreate (name password : string) (r : Role) (display : string)
| UUpdate (uid : Z) (r : Role) (display : string) (on : bool)
| URemove (uid : Z)
| UResetPassword (uid : Z) (password : string)
| UChangeOwnPassword (oldPassword newPassword : string)
| USetOwnAvatar (bytes : list Z) (mime : string)
| UClearOwnAvatar.

Definition users_apply (o : users_op) w : UsersStatus * AuthWorld R H :=
  match o with
  | UCreate n p r d => users_create n p r d w
  | UUpdate i r d on => users_update i r d on w
  | URemove i => users_remove i w
  | UResetPassword i p => users_resetPassword i p w
  | UChangeOwnPassword p q => users_changeOwnPassword p q w
  | USetOwnAvatar b m => users_setOwnAvatar b m w
  | UClearOwnAvatar => users_clearOwnAvatar w
  end.
End Presenter.

(* ------------------------------------------------------------------ *)
(** ** The dashboard's command handlers *)

(** The production commands a handler passes on. *)
Inductive dash_command :=
| DoStart | DoStop | DoReset | DoCalibrate | DoInjectFault | DoEnable (equipmentId : Z) (on : bool).

#[export] Instance dash_command_eq_dec : EqDecision dash_command.
Proof. solve_decision. Defined.

(** [session_] and [audit_] are pointers that may be null; [issued] are the
    calls made into the model, in order. *)
Record Dashboard := mkDash {
  d_session : option Session;
  d_audit : option (list AuditEvent);
  d_faultInjector : bool;
  issued : list dash_command;
}.

Definition emitAudit (category action details outcome : string) (d : Dashboard) : Dashboard :=
  match d_audit d, d_session d with
  | Some log, Some s =>
      let user := default user_default (currentUser s) in
      mkDash (d_session d) (Some (log ++ [mkAudit (username user) (roleName (role user)) category action details outcome]))
             (d_faultInjector d) (issued d)
  | _, _ => d
  end.

Definition checkRole (allowed : Role -> bool) (category action details : string) (d : Dashboard) : bool * Dashboard :=
  match d_session d with
  | None => (true, d)
  | Some s =>
      match currentUser s with
      | None => (false, d)
      | Some u =>
          if allowed (role u) then (true, d)
          else (false, emitAudit category action details kFailure d)
      end
  end.

Definition issue (c : dash_command) (d : Dashboard) : Dashboard :=
  mkDash (d_session d) (d_audit d) (d_faultInjector d) (issued d ++ [c]).

Definition guarded (allowed : Role -> bool) (category action details : string) (body : Dashboard -> Dashboard)
    (d : Dashboard) : Dashboard :=
  let (pass, d) := checkRole allowed category action details d in
  if pass then body (emitAudit category action details kSuccess d) else d.

Definition onStartClicked : Dashboard -> Dashboard := guarded canStartStop kProduction "START" "" (issue DoStart).
Definition onStopClicked : Dashboard -> Dashboard := guarded canStartStop kProduction "STOP" "" (issue DoStop).
Definition onResetRestartClicked : Dashboard -> Dashboard := guarded canResetSystem kProduction "RESET" "" (issue DoReset).
Definition onCalibrationClicked : Dashboard -> Dashboard :=
  guarded canCalibrate kProduction "CALIBRATE" "" (issue DoCalibrate).
Definition onInjectFaultClicked : Dashboard -> Dashboard :=
  guarded canInjectFault kProduction "INJECT_FAULT" "" (fun d => if d_faultInjector d then issue DoInjectFault d else d).
Definition onEquipmentToggled (equipmentId : Z) (on : bool) : Dashboard -> Dashboard :=
  guarded canStartStop kEquipment (if on then "ENABLE" else "DISABLE")
    ("equipment id " ++ pretty equipmentId)%string (issue (DoEnable equipmentId on)).

(** The operator's clicks. *)
Definition click (c : dash_command) : Dashboard -> Dashboard :=
  match c with
  | DoStart => onStartClicked
  | DoStop => onStopClicked
  | DoReset => onResetRestartClicked
  | DoCalibrate => onCalibrationClicked
  | DoInjectFault => onInjectFaultClicked
  | DoEnable e on => onEquipmentToggled e on
  end.

(** The documented permission of a command. *)
Definition permitted (r : Role) (c : dash_command) : bool :=
  match c, r with
  | (DoStart | DoStop | DoEnable _ _), _ => true
  | _, (Maintenance | Admin) => true
  | _, Operator => false
  end.

(* ------------------------------------------------------------------ *)
(** ** Lemmas *)

Section PresenterLemmas.
Context {R : Type} `{UR : UserRepository R} {H : Type} `{PH : PasswordHasher H}.
Implicit Types w : AuthWorld R H.

(** A verb that only an administrator may use. *)
Definition admin_verb (o : users_op) : bool :=
  match o with
  | UCreate _ _ _ _ | UUpdate _ _ _ _ | URemove _ | UResetPassword _ _ => true
  | _ => false
  end.

(** One of the own avatar's verbs, called by the signed-in user [i]. *)
Definition own_picture (o : users_op) w (i : Z) : Prop :=
  (exists me, currentUser (session_ w) = Some me /\ i = id me) /\
  (o = UClearOwnAvatar \/ exists bytes mime, o = USetOwnAvatar bytes mime).

(** What an operation may do to a stored row without administrator rights:
    nothing but to its modification time, except that a user may change the
    own password after proving the old one, and the own avatar. *)
Definition row_kept (o : users_op) w (old new : User) : Prop :=
  id new = id old /\ username new = username old /\ role new = role old /\ enabled new = enabled old /\
  displayName new = displayName old /\ createdAt new = createdAt old /\
  (avatarMime new = avatarMime old \/ own_picture o w (id old)) /\
  (passwordHash new = passwordHash old \/
   exists me p q, currentUser (session_ w) = Some me /\ id old = id me /\ o = UChangeOwnPassword p q /\
     verify (hasher_ w) p (passwordHash old) = Some true).

Lemma same_row_kept o w old new : same_row new old -> row_kept o w old new.
Proof. unfold same_row, row_kept. intuition. Qed.

Lemma rows_unchanged o w : Forall2 (row_kept o w) (listAll (users_ w)) (listAll (users_ w)).
Proof. apply Forall_Forall2_diag. apply Forall_forall. intros x _. apply same_row_kept, same_row_refl. Qed.

Lemma avatar_rows o w me mime (b : bool) l l' :
  currentUser (session_ w) = Some me -> (o = UClearOwnAvatar \/ exists bytes mime, o = USetOwnAvatar bytes mime) ->
  Forall2 (fun old new => same_row new (if b && (id old =? id me) then with_avatar mime old else old)) l l' ->
  Forall2 (row_kept o w) l l'.
Proof.
  intros Hme Ho HF. eapply Forall2_impl; [exact HF|]. intros old new Hrow. cbn in Hrow.
  destruct (b && (id old =? id me)) eqn:E; [|apply same_row_kept; exact Hrow]. apply andb_prop in E as [_ E]. apply Z.eqb_eq in E.
  destruct Hrow as (A & B & C & D & F & G & _ & I). cbn in *. unfold row_kept. split_and!; auto. right. split; eauto.
Qed.

Lemma find_row r i u : store_ok r -> findById r i = Some u -> id u = i /\ u ∈ listAll r.
Proof.
  intros Hok Hf. rewrite findById_law in Hf by exact Hok. apply List.find_some in Hf as [Hin Hi].
  split; [apply Z.eqb_eq; exact Hi|apply list_elem_of_In; exact Hin].
Qed.

Lemma row_unique r u v : store_ok r -> u ∈ listAll r -> v ∈ listAll r -> id u = id v -> u = v.
Proof.
  intros Hok Hu Hv Hid. destruct (unique_law r Hok) as [Hnd _].
  apply list_elem_of_lookup in Hu as [i Hi]. apply list_elem_of_lookup in Hv as [j Hj].
  assert (i = j); [|congruence].
  apply (NoDup_lookup _ i j (id u) Hnd);
    change (map id) with (fmap (M := list) id); rewrite list_lookup_fmap; [rewrite Hi|rewrite Hj, Hid]; reflexivity.
Qed.

(** One more audit record, whatever came before. *)
Definition audited w w' st : Prop :=
  exists e, audit_ w' = audit_ w ++ [e] /\ ev_category e = kUser /\ (ev_result e = kSuccess <-> st = Ok).

Lemma makeEvent_fields s a d b : ev_category (makeEvent s a d b) = kUser /\ ev_result (makeEvent s a d b) = if b then kSuccess else kFailure.
Proof. unfold makeEvent. destruct (currentUser s); auto. Qed.

Lemma finish_audited w w1 st a d (b : bool) :
  audit_ w1 = audit_ w -> (b = true <-> st = Ok) -> audited w (snd (finish st a d b w1)) (fst (finish st a d b w1)).
Proof.
  intros Ha Hb. unfold audited, finish. cbn. rewrite Ha. eexists. split; [reflexivity|].
  destruct (makeEvent_fields (session_ w1) a d b) as [-> ->]. split; [reflexivity|]. rewrite <- Hb.
  destruct b; split; (reflexivity || discriminate || (intros E; vm_compute in E; discriminate E)).
Qed.

Lemma refresh_fields uid w :
  users_ (refresh uid w) = users_ w /\ audit_ (refresh uid w) = audit_ w /\
  (currentUser (session_ (refresh uid w)) = currentUser (session_ w) \/
   currentUser (session_ (refresh uid w)) = findById (users_ w) uid).
Proof. unfold refresh. destruct (findById (users_ w) uid) eqn:E; cbn; auto. Qed.

(** Every verb but an unauthenticated own one is audited exactly once. *)
Lemma users_apply_audited o w :
  (admin_verb o = true \/ isAuthenticated (session_ w) = true) ->
  audited w (snd (users_apply o w)) (fst (users_apply o w)).
Proof.
  intros Hauth.
  assert (Hsome : admin_verb o = false -> exists me, currentUser (session_ w) = Some me).
  { intros Ho. destruct Hauth as [|Ha]; [congruence|]. unfold isAuthenticated in Ha. unfold currentUser.
    destruct (current_ (session_ w)); [eauto|discriminate]. }
  destruct o; cbn [users_apply admin_verb] in *; try (destruct (Hsome eq_refl) as [me Hme]);
    unfold users_create, users_update, users_remove, users_resetPassword, users_changeOwnPassword,
      users_setOwnAvatar, users_clearOwnAvatar; try rewrite Hme; cbv zeta;
    repeat first
      [ apply finish_audited; [first [reflexivity | exact (proj1 (proj2 (refresh_fields _ _)))]|split; (reflexivity || discriminate)]
      | match goal with |- context [let (_, _) := ?p in _] => destruct p as [? ?] end
      | case_match ].
Qed.

(** [walk]: go through the branches of an operation, keeping the equations of
    the store's answers. *)
Ltac walk :=
  unfold users_create, users_update, users_remove, users_resetPassword, users_changeOwnPassword,
    users_setOwnAvatar, users_clearOwnAvatar; cbv zeta;
  repeat first
    [ match goal with
      | |- context [let (_, _) := ?p in _] => destruct p as [? ?] eqn:?
      end
    | case_match ].

(** A name that passes the validation is text without NUL. *)
Lemma valid_name_text name password display :
  negb (isValidUsername name) || negb (isValidPassword password) || negb (isValidDisplayName display) = false ->
  c_str (canonicalUsername name) = canonicalUsername name.
Proof.
  intros Hv. apply orb_false_iff in Hv as [Hv _]. apply orb_false_iff in Hv as [Hv _]. apply negb_false_iff in Hv. unfold isValidUsername in Hv.
  destruct (_ || _); [discriminate|]. destruct name as [|c0 s0]; [reflexivity|]. destruct (negb _); [discriminate|]. revert Hv. generalize (String c0 s0). clear.
  induction s as [|c s IH]; [reflexivity|]. cbn [all_of]. intros Hv. apply andb_prop in Hv as [Hc Hv]. cbn [canonicalUsername c_str].
  rewrite bool_decide_eq_false_2 by (intros E; apply to_lower_zero in E; subst c; vm_compute in Hc; discriminate Hc). rewrite IH by exact Hv. reflexivity.
Qed.

Lemma users_apply_store o w : store_ok (users_ w) -> store_ok (users_ (snd (users_apply o w))).
Proof.
  intros Hok. destruct o; cbn [users_apply]; walk; cbn [snd finish audit_event users_]; auto;
    try (rewrite (proj1 (refresh_fields _ _))); cbn [users_ set_users set_hasher] in *;
    first
      [ match goal with E : create _ _ = (_, ?r) |- store_ok ?r => refine (proj1 (create_law _ _ _ _ Hok _ E)); eapply valid_name_text; eassumption end
      | exact (proj1 (update_law _ _ _ _ Hok ltac:(eassumption)))
      | exact (proj1 (remove_law _ _ _ _ Hok ltac:(eassumption)))
      | exact (proj1 (setAvatar_law _ _ _ _ _ _ Hok ltac:(eassumption)))
      | exact (proj1 (clearAvatar_law _ _ _ _ Hok ltac:(eassumption))) ].
Qed.

(** Without the administrator's role an administrator's verb does nothing. *)
Lemma not_managing o w :
  managing w = None -> admin_verb o = true ->
  fst (users_apply o w) = Forbidden /\ users_ (snd (users_apply o w)) = users_ w /\
  session_ (snd (users_apply o w)) = session_ w.
Proof.
  intros Hm Ho. destruct o; try discriminate Ho; cbn [users_apply];
    unfold users_create, users_update, users_remove, users_resetPassword; rewrite Hm; auto.
Qed.

Lemma own_password_rows p q w me stored digest b store :
  store_ok (users_ w) -> currentUser (session_ w) = Some me ->
  findById (users_ w) (id me) = Some stored -> verify (hasher_ w) p (passwordHash stored) = Some true ->
  update (users_ w) (with_hash stored digest) = (b, store) ->
  Forall2 (row_kept (UChangeOwnPassword p q) w) (listAll (users_ w)) (listAll store).
Proof.
  intros Hok Hme Hfind Hver Hup. destruct (find_row _ _ _ Hok Hfind) as [Hid Hin].
  pose proof (proj1 (proj2 (update_law _ _ _ _ Hok Hup))) as Hrows.
  assert (Hall : Forall (fun u => u ∈ listAll (users_ w)) (listAll (users_ w))) by (apply Forall_forall; auto).
  revert Hrows Hall. set (upd := fun old new => same_row new _).
  enough (Hgen : forall l l', Forall2 upd l l' -> Forall (fun u => u ∈ listAll (users_ w)) l ->
            Forall2 (row_kept (UChangeOwnPassword p q) w) l l') by apply Hgen.
  intros l l' Hrows. induction Hrows as [|old new l l' Hrow _ IH]; intros Hall; [constructor|]. unfold upd in Hrow.
  apply Forall_cons in Hall as [Hold Hall]. constructor; [|apply IH; exact Hall].
  destruct b; cbn [andb] in Hrow; [|apply same_row_kept; exact Hrow].
  destruct (Z.eqb_spec (id old) (id (with_hash stored digest))) as [E|E]; [|apply same_row_kept; exact Hrow].
  cbn in E. assert (old = stored) as -> by (apply (row_unique (users_ w)); auto).
  pose proof (proj1 (Forall_forall _ _) (text_law _ Hok) stored Hin) as Ht. apply (f_equal displayName) in Ht. cbn in Ht.
  destruct Hrow as (A & B & C & D & F & G & Hm & I). cbn in *. unfold row_kept. split_and!; auto; [congruence|].
  right. exists me, p, q. auto.
Qed.

Lemma users_apply_rows o w :
  store_ok (users_ w) -> managing w = None ->
  Forall2 (row_kept o w) (listAll (users_ w)) (listAll (users_ (snd (users_apply o w)))).
Proof.
  intros Hok Hm. destruct (admin_verb o) eqn:Ho.
  { destruct (not_managing o w Hm Ho) as (_ & -> & _). apply rows_unchanged. }
  destruct o; try discriminate Ho; cbn [users_apply]; walk; cbn [snd finish audit_event users_];
    try (rewrite (proj1 (refresh_fields _ _))); cbn [users_ set_users set_hasher] in *; try apply rows_unchanged;
    first
      [ eapply own_password_rows; eassumption
      | eapply avatar_rows; [eassumption|eauto|exact (proj1 (proj2 (setAvatar_law _ _ _ _ _ _ Hok ltac:(eassumption))))]
      | eapply avatar_rows; [eassumption|eauto|exact (proj1 (proj2 (clearAvatar_law _ _ _ _ Hok ltac:(eassumption))))] ].
Qed.

Lemma users_apply_pictures o w j : store_ok (users_ w) -> managing w = None ->
  getAvatar (users_ (snd (users_apply o w))) j = getAvatar (users_ w) j \/ own_picture o w j.
Proof.
  intros Hok Hm. destruct (admin_verb o) eqn:Ho.
  { destruct (not_managing o w Hm Ho) as (_ & -> & _). auto. }
  destruct o; try discriminate Ho; cbn [users_apply]; walk; cbn [snd finish audit_event users_];
    try (rewrite (proj1 (refresh_fields _ _))); cbn [users_ set_users set_hasher] in *; try (left; reflexivity);
    first
      [ left; exact (proj2 (proj2 (update_law _ _ _ _ Hok ltac:(eassumption))) j)
      | rewrite (proj2 (proj2 (setAvatar_law _ _ _ _ _ _ Hok ltac:(eassumption))) j)
      | rewrite (proj2 (proj2 (clearAvatar_law _ _ _ _ Hok ltac:(eassumption))) j) ];
    match goal with |- context [if ?b && (?i =? ?k) then _ else _] => destruct (b && (i =? k)) eqn:E; [right|left; reflexivity] end;
    apply andb_prop in E as [_ E]; apply Z.eqb_eq in E; (split; [exists u; auto|eauto]).
Qed.

(** Without a session the verbs on the own account do nothing. *)
Lemma own_verb_needs_session o w :
  admin_verb o = false -> isAuthenticated (session_ w) = false -> users_apply o w = (Forbidden, w).
Proof.
  unfold isAuthenticated. intros Ho Ha. assert (E : currentUser (session_ w) = None) by (unfold currentUser; destruct (current_ _); [discriminate|reflexivity]).
  destruct o; try discriminate Ho; cbn [users_apply]; unfold users_changeOwnPassword, users_setOwnAvatar, users_clearOwnAvatar; rewrite E; reflexivity.
Qed.

(** The session only ever changes to the user's own row, read back. *)
Lemma users_apply_session o w :
  let w' := snd (users_apply o w) in
  currentUser (session_ w') = currentUser (session_ w) \/
  exists me, currentUser (session_ w) = Some me /\ currentUser (session_ w') = findById (users_ w') (id me).
Proof.
  cbv zeta. assert (Hm : forall me, managing w = Some me -> currentUser (session_ w) = Some me).
  { unfold managing. intros me. repeat case_match; congruence. }
  destruct o; cbn [users_apply]; walk; try (left; first [reflexivity | assumption]);
    cbn [snd finish audit_event session_ users_];
    match goal with
    | |- context [refresh ?i ?v] => destruct (refresh_fields i v) as (Hu & _ & [Hs|Hs]); rewrite Hs, Hu
    end; try (left; first [reflexivity | assumption]); right.
  - exists u. split; [auto|]. f_equal. apply Z.eqb_eq. assumption.
  - exists u. auto.
  - exists u. auto.
Qed.

(** What a successful create leaves: the row is found under any spelling of
    the name, enabled, with the role, and its digest verifies. *)
Lemma created_row w w1 name password r display :
  store_ok (users_ w) -> users_create name password r display w = (Ok, w1) ->
  store_ok (users_ w1) /\ exists row,
    List.find (fun u => String.eqb (canonicalUsername (username u)) (canonicalUsername name)) (listAll (users_ w1)) = Some row /\
    enabled row = true /\ role row = r /\ username row = canonicalUsername name /\ (forall h, verify h password (passwordHash row) = Some true).
Proof.
  intros Hok Hc. unfold users_create in Hc.
  destruct (managing w) as [adm|]; [|discriminate]. destruct (_ || negb (isValidDisplayName display)) eqn:Hv; [discriminate|]. cbv zeta in Hc.
  destruct (hash (hasher_ w) password) as [[digest|] h] eqn:Hh; [|discriminate].
  cbn [set_hasher users_] in Hc.
  destruct (create (users_ w) _) as [[u|] store] eqn:Hcr; [|discriminate]. injection Hc as <-.
  pose proof (valid_name_text _ _ _ Hv) as Htext.
  destruct (create_law _ (mkUser (-1) (canonicalUsername name) digest r true display "" "" "") _ _ Hok Htext Hcr) as (Hok' & Hname & Hrole & Hfresh & row & Hrow & Hrows). cbn in Hname, Hrole, Hfresh.
  split; [exact Hok'|]. exists row. destruct Hrow as (_ & Rname & Rpass & Rrole & Ren & _). cbn in Rname, Rpass, Rrole, Ren. rewrite Htext in Rname.
  cbn [finish snd audit_event set_users users_]. rewrite Hrows. split.
  - clear -Hfresh Rname. induction Hfresh as [|v l [_ Hv] _ IH]; cbn.
    + rewrite Rname, canonical_idem, String.eqb_refl. reflexivity.
    + rewrite canonical_idem in Hv. apply String.eqb_neq in Hv. rewrite Hv. exact IH.
  - split; [exact Ren|]. split; [exact Rrole|]. split; [exact Rname|]. intros h2. rewrite Rpass, (hash_text _ _ _ _ Hh). exact (hash_verifies _ _ _ _ _ Hh).
Qed.

(** A login with the name and the password of an enabled row. *)
Lemma login_found w row typed password : store_ok (users_ w) ->
  List.find (fun u => String.eqb (canonicalUsername (username u)) (canonicalUsername typed)) (listAll (users_ w)) = Some row ->
  enabled row = true -> verify (hasher_ w) password (passwordHash row) = Some true ->
  exists w2, login typed password w = (Success, w2) /\ currentUser (session_ w2) = Some row.
Proof.
  intros Hok Hf He Hv. unfold login. rewrite findByUsername_law by exact Hok. rewrite canonical_idem, Hf, He, Hv. cbn [negb]. eexists. split; reflexivity.
Qed.
End PresenterLemmas.

Lemma created_schema {H} `{PH : PasswordHasher H} (w w1 : AuthWorld SqliteUsers H) name password r display :
  users_create name password r display w = (Ok, w1) -> db_schema (su_db (users_ w1)) = db_schema (su_db (users_ w)).
Proof.
  unfold users_create. destruct (managing w); [|discriminate]. destruct (_ || _); [discriminate|]. cbv zeta. destruct (hash _ _) as [[digest|] h]; [|discriminate].
  cbn [set_hasher users_ create SqliteRepository]. match goal with |- context [sqlite_create ?u ?s] => pose proof (create_schema u s) as E; destruct (sqlite_create u s) as [[v|] store] end; [|discriminate].
  intros [= <-]. exact E.
Qed.

(** What a click does with a session attached. *)
Lemma click_effect (d : Dashboard) (s : Session) c :
  d_session d = Some s ->
  issued (click c d) =
    issued d ++ match currentUser s with
                | Some u => if permitted (role u) c && (d_faultInjector d || negb (bool_decide (c = DoInjectFault)))
                            then [c] else []
                | None => []
                end /\
  d_session (click c d) = Some s /\
  forall log u, d_audit d = Some log -> currentUser s = Some u ->
    exists e, d_audit (click c d) = Some (log ++ [e]) /\ ev_username e = username u /\
      ev_result e = if permitted (role u) c then kSuccess else kFailure.
Proof.
  intros Hs. destruct d as [ds da df out]. cbn in Hs. subst ds.
  destruct c as [| | | | |e on]; unfold click, onStartClicked, onStopClicked, onResetRestartClicked, onCalibrationClicked,
    onInjectFaultClicked, onEquipmentToggled, guarded, checkRole; cbn [d_session];
    (destruct (currentUser s) as [u|] eqn:Hu; [|cbn; rewrite app_nil_r; split_and!; [reflexivity..|]; intros; discriminate]);
    destruct (role u) eqn:Hr; destruct df; destruct da as [log|];
    unfold emitAudit; cbn; rewrite ?Hu; cbn; rewrite ?app_nil_r, ?orb_true_r, ?bool_decide_eq_false_2 by discriminate;
    cbn; (split; [reflexivity|split; [reflexivity|]]); intros log' u' [= <-] [= <-];
    eexists; (split; [reflexivity|split; [reflexivity|cbn; rewrite ?Hr; reflexivity]]).
Qed.

(* ------------------------------------------------------------------ *)
(** ** Properties *)


(** An account that was created can be used. When an administrator's create
    succeeds, a login with the same password and any spelling of the name
    that differs in case only succeeds, and the session then holds an enabled
    user of the requested role. *)
Theorem create_then_login {R} `{UR : UserRepository R} {H} `{PH : PasswordHasher H} (w w1 : AuthWorld R H)
    name typed password r display :
  store_ok (users_ w) -> users_create name password r display w = (Ok, w1) ->
  canonicalUsername typed = canonicalUsername name ->
  exists w2 u, login typed password w1 = (Success, w2) /\ currentUser (session_ w2) = Some u /\
    role u = r /\ enabled u = true /\ username u = canonicalUsername name.
Proof.
  intros Hok Hc Ht. destruct (created_row w w1 name password r display Hok Hc) as (Hok1 & row & Hfind & Hen & Hr & Hname & Hver).
  destruct (login_found w1 row typed password Hok1) as [w2 Hl]; [rewrite Ht; exact Hfind|exact Hen|apply Hver|]. exists w2, row. destruct Hl. auto 10.
Qed.

(** C15: Accounts survive a restart. Once an administrator's create has
    succeeded on the SQLite store, the file that is opened again, with the
    migration run again, lets that account log in, under any casing of its
    name, into a fresh session of the requested role. *)
Theorem accounts_survive_restart {H} `{PH : PasswordHasher H} (w w1 : AuthWorld SqliteUsers H) (fuel : nat) (clock : list string) name typed password r display :
  store_ok (users_ w) -> 2 <= user_version (db_schema (su_db (users_ w))) -> users_create name password r display w = (Ok, w1) ->
  canonicalUsername typed = canonicalUsername name -> (2 <= fuel)%nat ->
  exists db w2 u, initialize fuel true (su_db (users_ w1)) = Some (true, db) /\
    login typed password (mkWorld (mkSqliteUsers db clock) (hasher_ w1) session_init true []) = (Success, w2) /\
    currentUser (session_ w2) = Some u /\ role u = r /\ enabled u = true /\ username u = canonicalUsername name.
Proof.
  intros Hok Hv Hc Ht Hf. destruct (created_row w w1 name password r display Hok Hc) as ((sch & t & clock1 & E1 & Hs & Hty) & row & Hfind & Hen & Hr & Hname & Hver).
  assert (Hsch : db_schema (su_db (users_ w1)) = db_schema (su_db (users_ w))) by (eapply created_schema; exact Hc). rewrite E1 in Hsch. cbn in Hsch.
  destruct (initialize_well fuel sch t Hf ltac:(right; rewrite Hsch in *; auto)) as (sch' & Ei & Hs' & _).
  rewrite E1. exists (su_db (users_at sch' t clock)). destruct (login_found (mkWorld (users_at sch' t clock) (hasher_ w1) session_init true []) row typed password) as (w2 & Hl & Hcur).
  - exists sch', t, clock. auto.
  - cbn [users_]. rewrite Ht. rewrite E1 in Hfind. cbn [listAll SqliteRepository] in *. rewrite list_at in * by assumption. exact Hfind.
  - exact Hen.
  - apply Hver.
  - exists w2, row. split; [exact Ei|]. auto.
Qed.

(** A command reaches the production model only for a role that may give it.
    With a session attached, a click issues its command exactly when a user
    is signed in whose role permits it (and, for the fault injection, an
    injector is set); nothing else is ever issued; a refused click of a
    signed-in user is audited as a failure and a permitted one as a success,
    before the command goes out. *)
Theorem commands_need_role (d : Dashboard) (s : Session) c :
  d_session d = Some s ->
  issued (click c d) =
    issued d ++ match currentUser s with
                | Some u => if permitted (role u) c && (d_faultInjector d || negb (bool_decide (c = DoInjectFault)))
                            then [c] else []
                | None => []
                end /\
  d_session (click c d) = Some s /\
  forall log u, d_audit d = Some log -> currentUser s = Some u ->
    exists e, d_audit (click c d) = Some (log ++ [e]) /\ ev_username e = username u /\
      ev_result e = if permitted (role u) c then kSuccess else kFailure.
Proof. apply click_effect. Qed.

(** The administrators can lose the last administrator. The self-mutation
    guard refuses to disable or delete the own account, but not to change its
    role: when the only administrator updates the own role to Operator, the
    call succeeds, no administrator is left, and every further user
    management is Forbidden. *)
Theorem last_admin_demotes_itself_refuted :
  exists w w' me, currentUser (session_ w) = Some me /\ role me = Admin /\
    Forall (fun u => role u = Admin -> u = me) (listAll (users_ w)) /\
    users_update (R := SqliteUsers) (H := unit) (id me) Operator "" true w = (Ok, w') /\
    Forall (fun u => role u <> Admin) (listAll (users_ w')) /\
    forall o, admin_verb o = true -> fst (users_apply o w') = Forbidden.
Proof.
  set (w0 := snd (login "admin" "admin" demo_world)).
  exists w0, (snd (users_update 3 Operator "" true w0)), (default user_default (currentUser (session_ w0))).
  split; [vm_compute; reflexivity|]. split; [vm_compute; reflexivity|].
  split; [vm_compute; repeat constructor; discriminate|]. split; [vm_compute; reflexivity|].
  split; [vm_compute; repeat constructor; discriminate|].
  intros o Ho. apply not_managing; [vm_compute; reflexivity|exact Ho].
Qed.

(* ------------------------------------------------------------------ *)
(** ** Witnesses *)

Definition signed_in (name : string) : AuthWorld SqliteUsers unit := snd (login name name demo_world).

Lemma signed_in_ok name : store_ok (users_ (signed_in name)).
Proof.
  unfold signed_in. assert (H : users_ (snd (login name name demo_world)) = users_ demo_world).
  { unfold login. repeat case_match; reflexivity. }
  rewrite H. exact demo_world_ok.
Qed.


Lemma create_then_login_witness :
  exists w2 u, login "ALICE" "secret-42" (snd (users_create "Alice" "secret-42" Maintenance "" (signed_in "admin"))) = (Success, w2) /\
    currentUser (session_ w2) = Some u /\ role u = Maintenance /\ enabled u = true /\ username u = "alice".
Proof.
  apply (create_then_login (signed_in "admin")
           (snd (users_create "Alice" "secret-42" Maintenance "" (signed_in "admin")))
           "Alice" "ALICE" "secret-42" Maintenance "" (signed_in_ok "admin")).
  - vm_compute. reflexivity.
  - reflexivity.
Defined.

Lemma commands_need_role_witness :
  issued (click DoReset (mkDash (Some (session_ (signed_in "operator"))) None true [])) = [].
Proof.
  rewrite (proj1 (commands_need_role (mkDash (Some (session_ (signed_in "operator"))) None true [])
                    (session_ (signed_in "operator")) DoReset eq_refl)).
  vm_compute. reflexivity.
Defined.

Lemma accounts_survive_restart_witness :
  exists db w2 u, initialize 2 true (su_db (users_ (snd (users_create "Alice" "secret-42" Maintenance "" (signed_in "admin"))))) = Some (true, db) /\
    login "ALICE" "secret-42" (mkWorld (mkSqliteUsers db []) tt session_init true []) = (Success, w2) /\ currentUser (session_ w2) = Some u /\ role u = Maintenance.
Proof.
  destruct (accounts_survive_restart (signed_in "admin") (snd (users_create "Alice" "secret-42" Maintenance "" (signed_in "admin"))) 2 []
    "Alice" "ALICE" "secret-42" Maintenance "" (signed_in_ok "admin")) as (db & w2 & u & E1 & E2 & E3 & E4 & _).
  - vm_compute. discriminate.
  - vm_compute. reflexivity.
  - reflexivity.
  - lia.
  - exists db, w2, u. auto.
Defined.
