(* ===== verification/Json.v ===== *)
(** * JSON documents
    (src/integration/StatusJson.cpp, ProductionMetricsJson.cpp)

    The interface of the JSON library, and the two documents the remote
    interfaces share. *)
From S2P Require Import Prelude Float32 Float64 SystemState SimulatedModel.
Local Open Scope string_scope.
Local Open Scope Z_scope.
Local Open Scope list_scope.

(** The JSON library: its values, their construction, and the accessors the
    program uses. [value_*] throw on a value that is not an object and on a
    member of another type; [dump] throws on text that is not UTF-8. *)
Class JsonLib (json : Type) := {
  jnull : json;
  jbool : bool -> json;
  jint : Z -> json;
  jdouble : float64 -> json;
  jstring : string -> json;
  jarray : list json -> json;
  jobject : list (string * json) -> json;
  parse : string -> option json;
  dump : json -> outcome string;
  dump_indent : Z -> json -> outcome string;
  is_object : json -> bool;
  contains : json -> string -> bool;
  at_key : json -> string -> outcome json;
  value_string : json -> string -> string -> outcome string;
  value_u32 : json -> string -> Z -> outcome Z;
  value_i64 : json -> string -> Z -> outcome Z;
  value_size : json -> string -> Z -> outcome Z;
}.

Section Documents.
Context {json : Type} `{JL : JsonLib json}.

Definition systemStateName (state : SystemState) : string :=
  match state with IDLE => "idle" | RUNNING => "running" | ERROR => "error" | CALIBRATION => "calibration" end.

Definition buildStatusJson (state : SystemState) : json :=
  jobject [("state", jstring (systemStateName state)); ("running", jbool (bool_decide (state = RUNNING)))].

Definition kMinutesPerHour : float64 := f64_of_Z 60.
Definition buildProductionMetricsJson {G} (production : SimulatedModel G) : json :=
  let throughputUph := throughputUnitsPerHour (getWorkUnit production) in
  let oee := oeePct (oeeSnapshot production) in
  jobject ([("throughputUph", jdouble throughputUph); ("oeePct", jdouble (f64_of_f32 oee))] ++
           (if f64_ltb (f64_of_Z 0) throughputUph then [("minutesPerUnit", jdouble (f64_div kMinutesPerHour throughputUph))] else [])).
End Documents.
