(* ===== verification/TcpServer.v ===== *)
(** * The TCP command server (src/integration/TcpBackend.{h,cpp})

    The line protocol: splitting a line into words, the commands and their
    replies, and the server around it, which serves one client at a time on
    its only thread. *)
From Stdlib Require Import Ascii String.
From S2P Require Import Prelude Float32 Format SystemState ModbusIngest SerialLink Serializers ModbusPollLoop SimulatedModel Telemetry Json.
Local Open Scope string_scope.
Local Open Scope Z_scope.
Local Open Scope list_scope.

(** The parts of [ProductionModel] the protocol uses besides its setters. *)
Class OperatedModel (M : Type) `{ProductionModel M} := {
  op_start : M -> M;
  op_stop : M -> M;
  op_reset : M -> M;
  op_state : M -> SystemState;
}.
#[export] Instance SimulatedOperated {G} `{RandomSource G} : OperatedModel (SimulatedModel G) :=
  {| op_start := startProduction; op_stop := stopProduction; op_reset := resetSystem; op_state := SimulatedModel.getState |}.

(* ------------------------------------------------------------------ *)
(** ** Text *)

Definition trim (s : chars) : chars := trimAsciiWs s.

Fixpoint words_from (l tok : chars) : list chars :=
  match l with
  | [] => match tok with [] => [] | _ => [tok] end
  | c :: l =>
      if isspace c then match tok with [] => words_from l [] | _ => tok :: words_from l [] end
      else words_from l (tok ++ [c])
  end.
Definition tokenize (line : chars) : list chars := words_from line [].

Definition parseId (s : chars) : option Z := match from_chars_u32 s with FcOk v [] => Some v | _ => None end.

(** The end of a [productToJsonLine]: brackets and newlines dropped, blanks
    collapsed. *)
Fixpoint drop_closing (body : chars) : chars :=
  match body with c :: l => if (code c =? 10) || Ascii.eqb c "]" then drop_closing l else body | [] => [] end.
Fixpoint collapse (prevSpace : bool) (body : chars) : chars :=
  match body with
  | [] => []
  | c :: l =>
      let c := if (code c =? 10) || (code c =? 13) || (code c =? 9) then " "%char else c in
      if Ascii.eqb c " " then if prevSpace then collapse true l else c :: collapse true l
      else c :: collapse false l
  end.
Definition productToJsonLine (p : ProductRow) : outcome chars :=
  body ← Json.json_writeProducts [p];
  let body := match body with c :: l => if Ascii.eqb c "[" then l else body | [] => [] end in
  Ret (trim (collapse false (rev (drop_closing (rev body))))).

(* ------------------------------------------------------------------ *)
(** ** Commands *)

Section Commands.
Context {json : Type} `{JL : JsonLib json} {M : Type} `{OM : OperatedModel M}.

Definition kLF : ascii := Ascii.ascii_of_nat 10.
Definition reply_line (s : string) : chars := chars_of s ++ [kLF].

Definition help_text : chars :=
  reply_line "Available commands:" ++
  reply_line "  status                    JSON snapshot (running, equipment count)" ++
  reply_line "  products                  count line, then N JSON product objects" ++
  reply_line "  eq <id> on|off            toggle equipment (id is unsigned int)" ++
  reply_line "  production start|stop|reset" ++
  reply_line "  help                      this banner" ++
  reply_line "  quit                      close the connection".

Fixpoint product_lines (ps : list ProductRow) : outcome chars :=
  match ps with
  | [] => Ret []
  | p :: ps => l ← productToJsonLine p; rest ← product_lines ps; Ret (l ++ [kLF] ++ rest)
  end.

Definition word (s : string) (t : chars) : bool := bool_decide (t = chars_of s).

(** [dispatchCommand]: the model after it, the reply, and whether the
    connection stays open; [products] is what the repository returns. *)
Definition dispatchCommand (products : outcome (list ProductRow)) (line : chars) (production_ : M) : M * outcome (chars * bool) :=
  let say (m : M) (s : string) := (m, Ret (reply_line s, true)) in
  match tokenize line with
  | [] => say production_ "ERR empty command"
  | cmd :: args =>
      if word "quit" cmd || word "exit" cmd then (production_, Ret (reply_line "BYE", false))
      else if word "help" cmd then (production_, Ret (help_text, true))
      else if word "status" cmd then
        (production_, text ← dump (buildStatusJson (op_state production_)); Ret (chars_of text ++ [kLF], true))
      else if word "products" cmd then
        (production_, ps ← products; ls ← product_lines ps; Ret (reply_line (to_string (Z.of_nat (length ps))) ++ ls, true))
      else if word "eq" cmd then
        match args with
        | [a; b] =>
            match parseId a with
            | None => say production_ "ERR bad id (expected unsigned integer)"
            | Some id =>
                if word "on" b then say (setEquipmentEnabled production_ id true) "OK"
                else if word "off" b then say (setEquipmentEnabled production_ id false) "OK"
                else say production_ "ERR expected on|off"
            end
        | _ => say production_ "ERR usage: eq <id> on|off"
        end
      else if word "production" cmd then
        match args with
        | [a] =>
            if word "start" a then say (op_start production_) "OK"
            else if word "stop" a then say (op_stop production_) "OK"
            else if word "reset" a then say (op_reset production_) "OK"
            else say production_ "ERR expected start|stop|reset"
        | _ => say production_ "ERR usage: production start|stop|reset"
        end
      else (production_, Ret (chars_of "ERR unknown command: " ++ cmd ++ [kLF], true))
  end.

(* ------------------------------------------------------------------ *)
(** ** The server *)

(** The worker thread: not running, waiting for a client, inside
    [handleConnection], or ended by an exception. *)
Inductive tcp_thread := NoThread | Accepting | InClient | Ended.

(** [tb_backlog]: clients connected and not yet accepted; [tb_joining]: a
    [stop] waits for the thread. *)
Record TcpBackend := mkTcp {
  tb_running : bool;
  tb_boundPort : Z;
  tb_activeClients : nat;
  tb_thread : tcp_thread;
  tb_backlog : nat;
  tb_joining : bool;
  tb_production : M;
}.
Definition tcp_init (production : M) : TcpBackend := mkTcp false 0 0 NoThread 0 false production.

(** Back in the accept loop: the next client, if one waits. *)
Definition next_client (b : TcpBackend) : TcpBackend :=
  match tb_backlog b with
  | O => mkTcp (tb_running b) (tb_boundPort b) (tb_activeClients b) Accepting 0 (tb_joining b) (tb_production b)
  | S n => mkTcp (tb_running b) (tb_boundPort b) (S (tb_activeClients b)) InClient n (tb_joining b) (tb_production b)
  end.
(** [stop] returns: the thread is joined, the context made anew. *)
Definition stop_returns (b : TcpBackend) : TcpBackend := mkTcp false 0 (tb_activeClients b) NoThread 0 false (tb_production b).

(** [handleConnection] returns; a stopped context runs no further handler. *)
Definition client_done (b : TcpBackend) : TcpBackend :=
  let b := mkTcp (tb_running b) (tb_boundPort b) (pred (tb_activeClients b)) (tb_thread b) (tb_backlog b) (tb_joining b) (tb_production b) in
  if tb_joining b then stop_returns b else next_client b.

(** An exception passes through it. *)
Definition client_throws (b : TcpBackend) : TcpBackend :=
  let b := mkTcp false (tb_boundPort b) (pred (tb_activeClients b)) Ended (tb_backlog b) (tb_joining b) (tb_production b) in
  if tb_joining b then stop_returns b else b.

(** [start]: the port the acceptor got, or an exception. *)
Definition tcp_start (bind : option Z) (b : TcpBackend) : TcpBackend :=
  if tb_running b then b
  else
    match bind with
    | None => b
    | Some port => next_client (mkTcp true port (tb_activeClients b) (tb_thread b) 0 (tb_joining b) (tb_production b))
    end.

Definition tcp_stop (b : TcpBackend) : TcpBackend :=
  if negb (tb_running b) then b
  else
    match tb_thread b with
    | InClient => mkTcp false (tb_boundPort b) (tb_activeClients b) InClient (tb_backlog b) true (tb_production b)
    | _ => stop_returns b
    end.

Definition tcp_connectionState (b : TcpBackend) : BackendState :=
  if negb (tb_running b) then Disconnected else if (tb_activeClients b =? 0)%nat then Connecting else Connected.
Definition tcp_metricsSummary (b : TcpBackend) : string :=
  ("port " ++ to_string (tb_boundPort b) ++ " | " ++ to_string (Z.of_nat (tb_activeClients b)) ++ " clients")%string.

(** A line of the client (without its newline), and whether the reply can be
    written. *)
Definition serve_line (products : outcome (list ProductRow)) (line : chars) (ok : bool) (b : TcpBackend) : TcpBackend * chars :=
  let line := trim (drop_cr line) in
  let again (b : TcpBackend) := if tb_running b then b else client_done b in
  match line with
  | [] => (again b, [])
  | _ =>
      let '(m, r) := dispatchCommand products line (tb_production b) in
      let b := mkTcp (tb_running b) (tb_boundPort b) (tb_activeClients b) (tb_thread b) (tb_backlog b) (tb_joining b) m in
      match r with
      | Ret (reply, keepOpen) =>
          if negb ok then (client_done b, [])
          else if negb keepOpen then (client_done b, reply)
          else (again b, reply)
      | _ => (client_throws b, [])
      end
  end.

Inductive tcp_event :=
| TcpStart (bind : option Z)
| TcpStop
| TcpConnect
| TcpLine (products : outcome (list ProductRow)) (line : chars) (ok : bool)
| TcpHangup.

(** One event and what is written to the client; while a [stop] waits, its
    caller does nothing else. *)
Definition tcp_step (e : tcp_event) (b : TcpBackend) : TcpBackend * chars :=
  match e with
  | TcpStart bind => (if tb_joining b then b else tcp_start bind b, [])
  | TcpStop => (if tb_joining b then b else tcp_stop b, [])
  | TcpConnect =>
      let b := mkTcp (tb_running b) (tb_boundPort b) (tb_activeClients b) (tb_thread b) (S (tb_backlog b)) (tb_joining b) (tb_production b) in
      (match tb_thread b with Accepting => next_client b | _ => b end, [])
  | TcpLine products line ok => match tb_thread b with InClient => serve_line products line ok b | _ => (b, []) end
  | TcpHangup => (match tb_thread b with InClient => client_done b | _ => b end, [])
  end.

Fixpoint tcp_run (es : list tcp_event) (b : TcpBackend) : TcpBackend * list chars :=
  match es with
  | [] => (b, [])
  | e :: es => let '(b, out) := tcp_step e b in let '(b, outs) := tcp_run es b in (b, out :: outs)
  end.
End Commands.
Arguments TcpBackend M : clear implicits.

(* ------------------------------------------------------------------ *)
(** ** Specification: the commands *)

Inductive TcpCommand := CEnable (id : Z) (on : bool) | CStart | CStop | CReset.

Definition command_words (c : TcpCommand) : list string :=
  match c with
  | CEnable id on => ["eq"; to_string id; if on then "on" else "off"]
  | CStart => ["production"; "start"]
  | CStop => ["production"; "stop"]
  | CReset => ["production"; "reset"]
  end.
Definition apply_command {M} `{OperatedModel M} (m : M) (c : TcpCommand) : M :=
  match c with CEnable id on => setEquipmentEnabled m id on | CStart => op_start m | CStop => op_stop m | CReset => op_reset m end.
Definition command_ok (c : TcpCommand) : Prop := match c with CEnable id _ => is_u32 id | _ => True end.

Definition blank (l : chars) : Prop := Forall (fun c => isspace c = true) l.

(** A line that spells words: blanks before, between and after them, a
    carriage return at the end included. *)
Inductive spells : list chars -> chars -> Prop :=
| spells_nothing b : blank b -> spells [] b
| spells_last b w b' : blank b -> w <> [] -> no_space w -> blank b' -> spells [w] (b ++ w ++ b')
| spells_word b w c ws l : blank b -> w <> [] -> no_space w -> isspace c = true -> ws <> [] -> spells ws l -> spells (w :: ws) (b ++ w ++ c :: l).

(* ------------------------------------------------------------------ *)
(** ** Lemmas: words *)

Lemma words_blank b l : blank b -> words_from (b ++ l) [] = words_from l [].
Proof. induction 1 as [|c b Hc _ IH]; [reflexivity|]. cbn [app words_from]. rewrite Hc. exact IH. Qed.

Lemma words_word w : no_space w -> forall tok l, words_from (w ++ l) tok = words_from l (tok ++ w).
Proof.
  induction 1 as [|c w Hc _ IH]; intros tok l; cbn [app words_from]; [rewrite app_nil_r; reflexivity|]. rewrite Hc, IH, <- app_assoc. reflexivity.
Qed.

Lemma words_end b : blank b -> forall x tok, words_from (x ++ b) tok = words_from x tok.
Proof.
  intros Hb. induction x as [|c x IH]; intros tok; cbn [app words_from].
  - destruct b as [|c b]; [reflexivity|]. pose proof Hb as Hb'. inversion Hb as [|? ? Hc Hb'']; subst. cbn [words_from]. rewrite Hc.
    destruct tok; [rewrite <- (app_nil_r b), words_blank by exact Hb''; reflexivity|]. f_equal. rewrite <- (app_nil_r b), words_blank by exact Hb''. reflexivity.
  - destruct (isspace c); [destruct tok; rewrite IH; reflexivity|apply IH].
Qed.

Lemma tokenize_spells ws l : spells ws l -> tokenize l = ws.
Proof.
  unfold tokenize. induction 1 as [b Hb|b w b' Hb Hw Hn Hb'|b w c ws l Hb Hw Hn Hc Hne Hs IH].
  - rewrite <- (app_nil_r b), words_blank by exact Hb. reflexivity.
  - rewrite words_blank by exact Hb. rewrite (words_end b' Hb' w). pose proof (words_word w Hn [] []) as E. rewrite app_nil_r in E. rewrite E. cbn [app words_from].
    destruct w; [congruence|reflexivity].
  - rewrite words_blank, (words_word w Hn) by exact Hb. cbn [app words_from]. rewrite Hc, IH. destruct w; [congruence|reflexivity].
Qed.

Lemma trim_around l : exists a b, blank a /\ blank b /\ l = a ++ trim l ++ b.
Proof.
  unfold trim, trimAsciiWs. destruct (span isspace l) as [a l1] eqn:H1. destruct (span isspace (rev l1)) as [b l2] eqn:H2.
  apply span_spec in H1 as (E1 & F1 & _). apply span_spec in H2 as (E2 & F2 & _). exists a, (rev b). split; [exact F1|]. split; [apply Forall_rev, F2|].
  rewrite E1. f_equal. rewrite <- (rev_involutive l1), E2, rev_app_distr. reflexivity.
Qed.

Lemma tokenize_trim l : tokenize (trim l) = tokenize l.
Proof.
  destruct (trim_around l) as (a & b & Ha & Hb & E). rewrite E at 2. unfold tokenize. rewrite words_blank by exact Ha. symmetry. apply words_end, Hb.
Qed.

Lemma drop_cr_end l : drop_cr l = l \/ l = drop_cr l ++ [kCarriageReturn].
Proof.
  induction l as [|c l IH]; [left; reflexivity|]. destruct l as [|d l].
  - cbn. destruct (Ascii.eqb c kCarriageReturn) eqn:E; [right; apply Ascii.eqb_eq in E; subst; reflexivity|left; reflexivity].
  - change (drop_cr (c :: d :: l)) with (c :: drop_cr (d :: l)). destruct IH as [->|IH]; [left; reflexivity|right].
    exact (f_equal (cons c) IH).
Qed.

Lemma tokenize_cr l : tokenize (drop_cr l) = tokenize l.
Proof.
  destruct (drop_cr_end l) as [->|E]; [reflexivity|]. rewrite E at 2. symmetry. apply words_end. repeat constructor.
Qed.

Lemma parse_id_text id : is_u32 id -> parseId (chars_of (to_string id)) = Some id.
Proof. intros Hid. unfold parseId. rewrite from_chars_u32_text by exact Hid. reflexivity. Qed.

(* ------------------------------------------------------------------ *)
(** ** Lemmas: commands and lines *)

Section Serving.
Context {json : Type} `{JL : JsonLib json} {M : Type} `{OM : OperatedModel M}.
Implicit Types b : TcpBackend M.

Definition kOk : chars := reply_line "OK".

Lemma dispatch_command products line m c : command_ok c -> spells (map chars_of (command_words c)) line ->
  dispatchCommand products line m = (apply_command m c, Ret (kOk, true)).
Proof.
  intros Hc Hs. unfold dispatchCommand. rewrite (tokenize_spells _ _ Hs). destruct c as [id on| | |]; try reflexivity.
  cbn [command_words map]. change (word "quit" (chars_of "eq") || word "exit" (chars_of "eq")) with false.
  change (word "help" (chars_of "eq")) with false. change (word "status" (chars_of "eq")) with false.
  change (word "products" (chars_of "eq")) with false. change (word "eq" (chars_of "eq")) with true. cbn iota.
  rewrite parse_id_text by exact Hc. destruct on; reflexivity.
Qed.

(** Whatever the line: the model is left alone, or a command is given and
    acknowledged. *)
Lemma dispatch_commands products line m :
  fst (dispatchCommand products line m) = m \/
  exists c, dispatchCommand products line m = (apply_command m c, Ret (kOk, true)).
Proof.
  unfold dispatchCommand. destruct (tokenize line) as [|cmd args]; [auto|].
  destruct (word "quit" cmd || word "exit" cmd); [auto|]. destruct (word "help" cmd); [auto|].
  destruct (word "status" cmd); [auto|]. destruct (word "products" cmd); [auto|].
  destruct (word "eq" cmd).
  { destruct args as [|x [|y [|z args]]]; auto. destruct (parseId x) as [id|]; [|auto].
    destruct (word "on" y); [right; exists (CEnable id true); reflexivity|].
    destruct (word "off" y); [right; exists (CEnable id false); reflexivity|auto]. }
  destruct (word "production" cmd); [|auto]. destruct args as [|x [|y args]]; auto.
  destruct (word "start" x); [right; exists CStart; reflexivity|]. destruct (word "stop" x); [right; exists CStop; reflexivity|].
  destruct (word "reset" x); [right; exists CReset; reflexivity|auto].
Qed.

Definition tb_set_production m b : TcpBackend M :=
  mkTcp (tb_running b) (tb_boundPort b) (tb_activeClients b) (tb_thread b) (tb_backlog b) (tb_joining b) m.

Lemma spells_nonempty ws l : spells ws l -> ws <> [] -> trim (drop_cr l) <> [].
Proof.
  intros Hs Hne E. apply Hne. rewrite <- (tokenize_spells _ _ Hs), <- tokenize_cr, <- tokenize_trim, E. reflexivity.
Qed.

(** A spelled command, while serving. *)
Lemma serve_command products line b c : command_ok c -> spells (map chars_of (command_words c)) line -> tb_running b = true ->
  serve_line products line true b = (tb_set_production (apply_command (tb_production b) c) b, kOk).
Proof.
  intros Hc Hs Hr. unfold serve_line. pose proof (spells_nonempty _ _ Hs ltac:(destruct c; discriminate)) as Hne.
  assert (E : tokenize (trim (drop_cr line)) = map chars_of (command_words c)) by (rewrite tokenize_trim, tokenize_cr; apply tokenize_spells, Hs).
  assert (D : dispatchCommand products (trim (drop_cr line)) (tb_production b) = (apply_command (tb_production b) c, Ret (kOk, true))).
  { unfold dispatchCommand. rewrite E. pose proof (dispatch_command products line (tb_production b) c Hc Hs) as D.
    unfold dispatchCommand in D. rewrite (tokenize_spells _ _ Hs) in D. exact D. }
  destruct (trim (drop_cr line)) as [|x l]; [congruence|]. rewrite D. cbn [negb tb_running].
  unfold tb_set_production. rewrite Hr. reflexivity.
Qed.

Lemma next_production b : tb_production (next_client b) = tb_production b.
Proof. unfold next_client. destruct (tb_backlog b); reflexivity. Qed.
Lemma done_production b : tb_production (client_done b) = tb_production b.
Proof. unfold client_done. cbn [tb_joining]. destruct (tb_joining b); [reflexivity|]. rewrite next_production. reflexivity. Qed.

Lemma step_commands e b : exists cs, tb_production (fst (tcp_step e b)) = fold_left apply_command cs (tb_production b).
Proof.
  assert (N : forall b', tb_production b' = tb_production b -> exists cs, tb_production b' = fold_left apply_command cs (tb_production b))
    by (intros b' E; exists []; exact E).
  destruct e as [bind| | |products line ok|]; cbn [tcp_step fst].
  - apply N. destruct (tb_joining b); [reflexivity|]. unfold tcp_start. destruct (tb_running b), bind; try reflexivity.
  - apply N. destruct (tb_joining b); [reflexivity|]. unfold tcp_stop. destruct (tb_running b), (tb_thread b); reflexivity.
  - apply N. destruct (tb_thread b); try reflexivity.
  - destruct (tb_thread b); try (apply N; reflexivity). unfold serve_line. destruct (trim (drop_cr line)) as [|x l].
    { apply N. cbn [fst]. destruct (tb_running b); [reflexivity|apply done_production]. }
    pose proof (dispatch_commands products (x :: l) (tb_production b)) as D.
    destruct (dispatchCommand products (x :: l) (tb_production b)) as [m r]. cbn [fst] in D.
    assert (K : forall b', tb_production b' = m -> exists cs, tb_production b' = fold_left apply_command cs (tb_production b)).
    { intros b' E. destruct D as [-> |(c & [= -> _])]; [apply N, E|exists [c]; exact E]. }
    apply K. destruct r as [[reply keep]|e|]; cbn [fst]; try (unfold client_throws; cbn; destruct (tb_joining b); reflexivity).
    destruct ok, keep; cbn [negb fst]; rewrite ?done_production; try reflexivity. cbn [tb_running]. destruct (tb_running b); [reflexivity|].
    rewrite done_production. reflexivity.
  - apply N. destruct (tb_thread b); try reflexivity. apply done_production.
Qed.
Lemma tcp_run_cons e es b : fst (tcp_run (json := json) (e :: es) b) = fst (tcp_run (json := json) es (fst (tcp_step (json := json) e b))).
Proof. cbn [tcp_run]. destruct (tcp_step e b) as [b1 out]. cbn [fst]. destruct (tcp_run es b1). reflexivity. Qed.

(** A [stop] that waits for a silent client. *)
Definition waits b : Prop := tb_joining b = true /\ tb_thread b = InClient /\ tb_activeClients b = 1%nat.
Definition silent (e : tcp_event) : Prop := match e with TcpLine _ _ _ | TcpHangup => False | _ => True end.

Lemma idle_waits es : Forall silent es -> forall b, waits b -> waits (fst (tcp_run (json := json) es b)).
Proof.
  induction 1 as [|e es He F IH]; intros b K; [exact K|]. rewrite tcp_run_cons. apply IH. destruct K as (J & T & C).
  destruct e; try (destruct He; fail); cbn [tcp_step tb_thread fst]; rewrite ?J, ?T; split_and!; auto.
Qed.
End Serving.

(* ------------------------------------------------------------------ *)
(** ** Properties *)

(** C37: The line protocol gives the commands it spells. To a client being
    served, lines that spell commands, with whatever blanks, are each
    answered OK and drive the model by exactly those commands in order; and
    whatever happens to the server, whatever lines clients send, the model
    is driven by commands of the protocol only. *)
Theorem tcp_serves_commands {json} `{JsonLib json} {M} `{OperatedModel M} products (b : TcpBackend M) (cs : list TcpCommand) (lines : list chars) :
  tb_thread b = InClient -> tb_running b = true -> Forall command_ok cs ->
  Forall2 (fun c l => spells (map chars_of (command_words c)) l) cs lines ->
  tcp_run (json := json) (map (fun l => TcpLine products l true) lines) b =
    (tb_set_production (fold_left apply_command cs (tb_production b)) b, map (fun _ => kOk) cs) /\
  forall es, exists given, tb_production (fst (tcp_run (json := json) es b)) = fold_left apply_command given (tb_production b).
Proof.
  intros Ht Hr Hok Hs. split.
  - revert b Ht Hr. induction Hs as [|c l cs lines Hcl Hs IH]; intros b Ht Hr; [destruct b; reflexivity|].
    apply Forall_cons in Hok as [Hc Hok]. cbn [map tcp_run tcp_step]. rewrite Ht, (serve_command products l b c Hc Hcl Hr).
    rewrite (IH Hok) by assumption. reflexivity.
  - intros es. clear. revert b. induction es as [|e es IH]; intros b; [exists []; reflexivity|]. cbn [tcp_run].
    destruct (step_commands (json := json) e b) as [c1 E1]. destruct (tcp_step e b) as [b1 out]. cbn [fst] in E1.
    destruct (IH b1) as [c2 E2]. destruct (tcp_run es b1) as [b2 outs]. cbn [fst] in *. exists (c1 ++ c2). rewrite fold_left_app, <- E1. exact E2.
Qed.

(** What the server does not keep to. While a client is connected [stop]
    does not return, however long the client is silent, and a command that
    arrives then is still given; meanwhile a second client is not served at
    all; an exception of the repository takes the whole server down; and a
    product's name loses its repeated blanks on the way. *)
Theorem tcp_gaps_refuted {json} `{JsonLib json} {M} `{OperatedModel M} (m : M) :
  let serving := fst (tcp_run (json := json) [TcpStart (Some 5555); TcpConnect] (tcp_init m)) in
  (forall es, Forall silent es -> waits (fst (tcp_run (json := json) (TcpStop :: es) serving))) /\
  tb_production (fst (tcp_run (json := json) [TcpStop; TcpLine (Ret []) (chars_of "production start") true] serving)) = op_start m /\
  (let b := fst (tcp_run (json := json) [TcpLine (Throw runtime_error) (chars_of "products") true; TcpConnect; TcpStop] serving) in
   tb_running b = false /\ tb_thread b = Ended) /\
  productToJsonLine (mkRow None "P" "A  B" "ok" (Some 1) (Some (f32_of_Z 1)) "" "" "") =
  productToJsonLine (mkRow None "P" "A B" "ok" (Some 1) (Some (f32_of_Z 1)) "" "" "").
Proof.
  cbn zeta. split; [|split; [|split]].
  - intros es F. rewrite tcp_run_cons. apply (idle_waits (json := json) es F). split; [|split]; reflexivity.
  - reflexivity.
  - split; reflexivity.
  - vm_compute. reflexivity.
Qed.

(* ------------------------------------------------------------------ *)
(** ** Witnesses *)

(** A JSON library with one document. *)
#[local] Instance UnitJson : JsonLib unit := {|
  jnull := tt; jbool _ := tt; jint _ := tt; jdouble _ := tt; jstring _ := tt; jarray _ := tt; jobject _ := tt;
  parse _ := None; dump _ := Ret "{}"; dump_indent _ _ := Ret "{}"; is_object _ := false; contains _ _ := false;
  at_key _ _ := Throw out_of_range; value_string _ _ _ := Throw json_type_error; value_u32 _ _ _ := Throw json_type_error;
  value_i64 _ _ _ := Throw json_type_error; value_size _ _ _ := Throw json_type_error;
|}.

Definition demo_tcp : TcpBackend (SimulatedModel unit) := fst (tcp_run [TcpStart (Some 5555); TcpConnect] (tcp_init (model_init tt))).
Definition demo_tcp_lines : list chars := [chars_of "  production   start"; chars_of "eq 2 off" ++ [kCarriageReturn]].

Ltac blanks := first [apply Forall_nil; exact I | apply Forall_cons; split; [reflexivity|blanks]].

Lemma demo_tcp_spelled : Forall2 (fun c l => spells (map chars_of (command_words c)) l) [CStart; CEnable 2 false] demo_tcp_lines.
Proof.
  apply Forall2_cons_2; [|apply Forall2_cons_2; [|apply Forall2_nil_2]].
  - apply (spells_word (chars_of "  ") (chars_of "production") " " [chars_of "start"] (chars_of "  start")); try discriminate; try blanks; [reflexivity|].
    apply (spells_last (chars_of "  ") (chars_of "start") []); try discriminate; blanks.
  - apply (spells_word [] (chars_of "eq") " " [chars_of "2"; chars_of "off"] (chars_of "2 off" ++ [kCarriageReturn])); try discriminate; try blanks; [reflexivity|].
    apply (spells_word [] (chars_of "2") " " [chars_of "off"] (chars_of "off" ++ [kCarriageReturn])); try discriminate; try blanks; [reflexivity|].
    apply (spells_last [] (chars_of "off") [kCarriageReturn]); try discriminate; blanks.
Qed.

Lemma tcp_serves_commands_witness :
  snd (tcp_run (map (fun l => TcpLine (Ret []) l true) demo_tcp_lines) demo_tcp) = [kOk; kOk].
Proof.
  pose proof (tcp_serves_commands (json := unit) (Ret []) demo_tcp [CStart; CEnable 2 false] demo_tcp_lines eq_refl eq_refl) as T.
  rewrite (proj1 (T ltac:(repeat apply Forall_cons_2; try apply Forall_nil_2; try exact I; unfold command_ok, is_u32; lia) demo_tcp_spelled)). reflexivity.
Defined.
