(* ===== verification/OpcUaServer.v ===== *)
(** * The OPC-UA server
    (src/integration/opcua/OpcUaServer.h, OpcUaCommandSink.h,
    Open62541Server.{h,cpp})

    The interface the node map and the backend are written against, with what
    it promises as laws on the address space a client browses, and the server
    that implements it over the open62541 library. The library is a parameter
    with laws of its own; the address space by paths is the reference it is
    proved to implement. *)
From Stdlib Require Import Ascii String.
From S2P Require Import Prelude Float32 Format ModbusIngest.
Local Open Scope string_scope.
Local Open Scope Z_scope.
Local Open Scope list_scope.

(* ------------------------------------------------------------------ *)
(** ** Nodes *)

(** A scalar UA_Variant. *)
Inductive UaValue := UaFloat (f : float32) | UaInt32 (z : Z) | UaBool (b : bool) | UaString (s : string).

Definition same_type (v w : UaValue) : bool :=
  match v, w with
  | UaFloat _, UaFloat _ | UaInt32 _, UaInt32 _ | UaBool _, UaBool _ | UaString _, UaString _ => true
  | _, _ => false
  end.

(** [Open62541ServerCallbackContext]; the program has one sink. *)
Record UaContext := mkContext { commandName : string; nodePath : string }.

(** A node of the application's namespace: an object, a variable with its two
    access masks, its context and whether a write callback is set, a method
    with its context. *)
Inductive UaNode :=
| UaObject
| UaVariable (value : UaValue) (accessLevel userAccessLevel : Z) (context : option UaContext) (onWrite : bool)
| UaMethod (context : UaContext).

#[export] Instance UaValue_eq_dec : EqDecision UaValue.
Proof. solve_decision. Defined.
#[export] Instance UaContext_eq_dec : EqDecision UaContext.
Proof. solve_decision. Defined.
#[export] Instance UaNode_eq_dec : EqDecision UaNode.
Proof. solve_decision. Defined.

(** The access bits of the standard. *)
Definition ACCESS_READ : Z := 1.
Definition ACCESS_WRITE : Z := 2.
Definition ACCESS_STATUSWRITE : Z := 32.
Definition ACCESS_TIMESTAMPWRITE : Z := 64.

Definition is_object (n : option UaNode) : bool := match n with Some UaObject => true | _ => false end.

(** A client may write the variable: both masks have the WRITE bit. *)
Definition client_writable (access user : Z) : bool := Z.testbit access 1 && Z.testbit user 1.

(* ------------------------------------------------------------------ *)
(** ** The address space by paths *)

(** What a client finds under a browse path. *)
Definition space : Type := list string -> option UaNode.

Definition empty_space : space := fun _ => None.

Definition parent_of (path : list string) : list string := removelast path.

(** A node can be added where the parent is there (the Objects folder for a
    path of one segment) and the name is free. *)
Definition can_add (sp : space) (path : list string) : bool :=
  bool_decide (sp path = None) &&
  (bool_decide (parent_of path = []) || is_object (sp (parent_of path))).

Definition spec_add (path : list string) (n : UaNode) (sp : space) : space := fun q =>
  if decide (q = path) then (if can_add sp path then Some n else sp path) else sp q.

Definition written (v : UaValue) (n : UaNode) : option UaNode :=
  match n with
  | UaVariable old a u c w => if same_type old v then Some (UaVariable v a u c w) else None
  | _ => None
  end.

Definition spec_write (path : list string) (v : UaValue) (sp : space) : space := fun q =>
  if decide (q = path) then match sp path ≫= written v with Some n => Some n | None => sp path end else sp q.

(** The same by a client, who needs the access. *)
Definition client_written (v : UaValue) (n : UaNode) : option UaNode :=
  match n with
  | UaVariable _ a u _ _ => if client_writable a u then written v n else None
  | _ => None
  end.

(** Paths as strings: segments joined by slashes. *)
Fixpoint join (path : list string) : string :=
  match path with
  | [] => ""
  | [s] => s
  | s :: path => (s ++ String "/"%char (join path))%string
  end.

(** A segment the program can name a node by. *)
Definition seg_ok (s : string) : bool := bool_decide (s <> ""%string) && no_char "/"%char s && no_char Ascii.zero s.
Definition path_ok (path : list string) : Prop := path <> [] /\ Forall (fun s => seg_ok s = true) path.

(* ------------------------------------------------------------------ *)
(** ** The interface *)

(** The variable the typed [addXxxVariable] of the interface create, and the
    one clients may write. *)
Definition plain_variable (v : UaValue) : UaNode :=
  UaVariable v (Z.lor ACCESS_READ ACCESS_WRITE) 0 None false.
Definition kFullWriteAccess : Z :=
  Z.lor (Z.lor (Z.lor ACCESS_READ ACCESS_WRITE) ACCESS_STATUSWRITE) ACCESS_TIMESTAMPWRITE.
Definition writable_variable (path : list string) (v : bool) : UaNode :=
  UaVariable (UaBool v) kFullWriteAccess kFullWriteAccess (Some (mkContext "" (join path))) true.
Definition method_node (path : list string) : UaNode := UaMethod (mkContext (List.last path ""%string) "").

(** [OpcUaServer]. [boot] is what the environment does at a start; [browse],
    [clientWrite] are what the clients do. *)
Class OpcUaServer (S : Type) := {
  boot : Type;
  start : boot -> S -> outcome S;
  stop : S -> S;
  isRunning : S -> bool;
  connectedSessions : S -> Z;
  boundPort : S -> Z;
  addObject : string -> S -> S * bool;
  addFloatVariable : string -> float32 -> S -> S * bool;
  addInt32Variable : string -> Z -> S -> S * bool;
  addBoolVariable : string -> bool -> S -> S * bool;
  addStringVariable : string -> string -> S -> S * bool;
  addMethod : string -> S -> S * bool;
  addBoolVariableWithWriteCallback : string -> bool -> S -> S * bool;
  writeFloat : string -> float32 -> S -> S * bool;
  writeInt32 : string -> Z -> S -> S * bool;
  writeBool : string -> bool -> S -> S * bool;
  writeString : string -> string -> S -> S * bool;
  browse : S -> space;
  clientWrite : list string -> UaValue -> S -> option S;
  server_ok : S -> Prop;
}.

Section Promises.
Context {S : Type} `{OpcUaServer S}.

(** An operation of a running server that adds a node, or writes one. *)
Definition adds (op : S -> S * bool) (path : list string) (n : UaNode) : Prop := forall s,
  server_ok s -> isRunning s = true ->
  server_ok (fst (op s)) /\ isRunning (fst (op s)) = true /\
  snd (op s) = can_add (browse s) path /\ forall q, browse (fst (op s)) q = spec_add path n (browse s) q.
Definition writes (op : S -> S * bool) (path : list string) (v : UaValue) : Prop := forall s,
  server_ok s -> isRunning s = true ->
  server_ok (fst (op s)) /\ isRunning (fst (op s)) = true /\
  snd (op s) = bool_decide (is_Some (browse s path ≫= written v)) /\
  forall q, browse (fst (op s)) q = spec_write path v (browse s) q.
End Promises.

(** What the interface means: what its comments promise, and, where they are
    silent ([plain_variable] in the laws), that a client can write only the
    variables added with a write callback. [Open62541Server] keeps them all
    ([Open62541Laws], proved below). *)
Class OpcUaServerLaws (S : Type) `{OpcUaServer S} := {
  start_law : forall b s s', server_ok s -> isRunning s = false -> start b s = Ret s' ->
    server_ok s' /\ isRunning s' = true /\ forall q, browse s' q = None;
  start_again : forall b s, isRunning s = true -> start b s = Ret s;
  start_defined : forall b s, defined (start b s);
  stop_law : forall s, server_ok s -> server_ok (stop s) /\ isRunning (stop s) = false;
  addObject_law : forall path, path_ok path -> adds (addObject (join path)) path UaObject;
  addFloat_law : forall path f, path_ok path -> adds (addFloatVariable (join path) f) path (plain_variable (UaFloat f));
  addInt32_law : forall path z, path_ok path -> adds (addInt32Variable (join path) z) path (plain_variable (UaInt32 z));
  addBool_law : forall path b, path_ok path -> adds (addBoolVariable (join path) b) path (plain_variable (UaBool b));
  addString_law : forall path t, path_ok path -> adds (addStringVariable (join path) t) path (plain_variable (UaString (c_str t)));
  addMethod_law : forall path, path_ok path -> adds (addMethod (join path)) path (method_node path);
  addWritable_law : forall path b, path_ok path ->
    adds (addBoolVariableWithWriteCallback (join path) b) path (writable_variable path b);
  writeFloat_law : forall path f, path_ok path -> writes (writeFloat (join path) f) path (UaFloat f);
  writeInt32_law : forall path z, path_ok path -> writes (writeInt32 (join path) z) path (UaInt32 z);
  writeBool_law : forall path b, path_ok path -> writes (writeBool (join path) b) path (UaBool b);
  writeString_law : forall path t, path_ok path -> writes (writeString (join path) t) path (UaString (c_str t));
  clientWrite_law : forall path v s, server_ok s -> isRunning s = true ->
    match clientWrite path v s with
    | Some s' => server_ok s' /\ isRunning s' = true /\ is_Some (browse s path ≫= client_written v) /\
        forall q, browse s' q = spec_write path v (browse s) q
    | None => browse s path ≫= client_written v = None
    end;
}.

(* ------------------------------------------------------------------ *)
(** ** The library *)

(** A UA_Server: [ua_child] follows a hierarchical reference to the child of
    a browse name in the application's namespace, [ua_node] is what the node
    store holds, [ua_fresh] a server after its startup. *)
Class UaLib (U : Type) := {
  NodeId : Type;
  NodeId_eq_dec :: EqDecision NodeId;
  objectsFolder : NodeId;
  ua_node : U -> NodeId -> option UaNode;
  ua_child : U -> NodeId -> string -> option NodeId;
  ua_translate : U -> NodeId -> list string -> option NodeId;
  ua_addNode : NodeId -> string -> UaNode -> U -> option (NodeId * U);
  ua_writeValue : NodeId -> UaValue -> U -> option U;
  ua_setValueCallback : NodeId -> U -> option U;
  ua_clientWrite : NodeId -> UaValue -> U -> option U;
  ua_channelCount : U -> Z;
  ua_fresh : U -> Prop;
  (* TranslateBrowsePathsToNodeIds follows the segments one by one. *)
  translate_law : forall u n path, ua_translate u n path =
    match path with [] => Some n | s :: path => ua_child u n s ≫= fun m => ua_translate u m path end;
  (* A new server has no node of the application. *)
  fresh_law : forall u, ua_fresh u ->
    (forall n s, ua_child u n s = None) /\ ua_node u objectsFolder = Some UaObject;
  (* AddNodes: BadParentNodeIdInvalid, BadBrowseNameDuplicated, or a node of a
     new id under the parent. *)
  add_law : forall u p s k,
    match ua_addNode p s k u with
    | Some (n, u') => ua_node u p = Some UaObject /\ ua_child u p s = None /\ ua_node u n = None /\
        (forall q, ua_node u' q = if decide (q = n) then Some k else ua_node u q) /\
        (forall q t, ua_child u' q t = if decide (q = p /\ t = s) then Some n else ua_child u q t)
    | None => ua_node u p <> Some UaObject \/ ua_child u p s <> None
    end;
  (* Writes: BadNodeIdUnknown, BadTypeMismatch, or the value. *)
  write_law : forall u n v,
    match ua_writeValue n v u with
    | Some u' => exists k, ua_node u n ≫= written v = Some k /\
        (forall q, ua_node u' q = if decide (q = n) then Some k else ua_node u q) /\
        (forall q t, ua_child u' q t = ua_child u q t)
    | None => ua_node u n ≫= written v = None
    end;
  callback_law : forall u n,
    match ua_setValueCallback n u with
    | Some u' => exists v a us c w, ua_node u n = Some (UaVariable v a us c w) /\
        (forall q, ua_node u' q = if decide (q = n) then Some (UaVariable v a us c true) else ua_node u q) /\
        (forall q t, ua_child u' q t = ua_child u q t)
    | None => forall v a us c w, ua_node u n <> Some (UaVariable v a us c w)
    end;
  (* A client's Write service: BadNotWritable without the access. *)
  clientWrite_lib_law : forall u n v,
    match ua_clientWrite n v u with
    | Some u' => exists k, ua_node u n ≫= client_written v = Some k /\
        (forall q, ua_node u' q = if decide (q = n) then Some k else ua_node u q) /\
        (forall q t, ua_child u' q t = ua_child u q t)
    | None => ua_node u n ≫= client_written v = None
    end;
}.

(* ------------------------------------------------------------------ *)
(** ** Open62541Server *)

(** How the library comes up at a start. *)
Inductive ua_boot (U : Type) := NewNull | ConfigFailed | StartupFailed | Booted (u : U).
Arguments NewNull {U}.
Arguments ConfigFailed {U}.
Arguments StartupFailed {U}.
Arguments Booted {U} u.

(** [parseBrowsePath]: the segments between slashes; nothing after a slash
    that ends the path. *)
Fixpoint parse_from (cursor : option string) (path : string) : list string :=
  match path with
  | EmptyString => match cursor with Some seg => [seg] | None => [] end
  | String c path =>
      if bool_decide (c = "/"%char) then default EmptyString cursor :: parse_from None path
      else parse_from (Some (default EmptyString cursor ++ String c EmptyString)%string) path
  end.
Definition parseBrowsePath (path : string) : list string := parse_from None path.

(** [path.rfind('/')] splits the path. *)
Fixpoint split_rfind (path : string) : option (string * string) :=
  match path with
  | EmptyString => None
  | String c path' =>
      match split_rfind path' with
      | Some (parent, leaf) => Some (String c parent, leaf)
      | None => if bool_decide (c = "/"%char) then Some (EmptyString, path') else None
      end
  end.
Definition splitParentLeaf (browsePath : string) : string * string :=
  match split_rfind browsePath with Some pl => pl | None => (EmptyString, browsePath) end.

Section Server.
Context {U : Type} `{UL : UaLib U}.

(** [o_server] is [impl_->server]; [o_secured] whether [impl_->security] is
    set. *)
Record Open62541Server := mkServer {
  o_port : Z;
  o_secured : bool;
  o_server : option U;
  o_running : bool;
}.

(** [UA_QUALIFIEDNAME] reads C strings. *)
Definition resolveNode (u : U) (path : string) : option NodeId :=
  match parseBrowsePath path with
  | [] => None
  | segments => ua_translate u objectsFolder (map c_str segments)
  end.

Definition resolveParent (u : U) (parentPath : string) : option NodeId :=
  if bool_decide (parentPath = ""%string) then Some objectsFolder else resolveNode u parentPath.

Definition with_server (s : Open62541Server) (u : U) : Open62541Server :=
  mkServer (o_port s) (o_secured s) (Some u) (o_running s).

(** [start]: an attempt that fails leaves the server as it was. *)
Definition o_start (b : ua_boot U) (s : Open62541Server) : outcome Open62541Server :=
  if o_running s then Ret s
  else match b with
       | NewNull | ConfigFailed | StartupFailed => Throw runtime_error
       | Booted u => Ret (mkServer (o_port s) (o_secured s) (Some u) true)
       end.

Definition o_stop (s : Open62541Server) : Open62541Server :=
  if o_running s then mkServer (o_port s) (o_secured s) None false else s.

Definition o_connectedSessions (s : Open62541Server) : Z :=
  if o_running s then match o_server s with Some u => ua_channelCount u | None => 0 end else 0.
Definition o_boundPort (s : Open62541Server) : Z := if o_running s then o_port s else 0.
Definition securityModeName (s : Open62541Server) : string := if o_secured s then "sign+encrypt" else "none".

(** [UA_Server_addXxxNode] under the parent of the path. *)
Definition add_under (browsePath : string) (n : UaNode) (s : Open62541Server) : option (NodeId * U) :=
  u ← o_server s;
  let '(parent, leaf) := splitParentLeaf browsePath in
  parentId ← resolveParent u parent;
  ua_addNode parentId (c_str leaf) n u.

Definition added (s : Open62541Server) (r : option (NodeId * U)) : Open62541Server * bool :=
  match r with Some (_, u) => (with_server s u, true) | None => (s, false) end.

Definition o_addObject (browsePath : string) (s : Open62541Server) : Open62541Server * bool :=
  added s (add_under browsePath UaObject s).

Definition addVariableImpl (browsePath : string) (initial : UaValue) (s : Open62541Server) : Open62541Server * bool :=
  added s (add_under browsePath (UaVariable initial (Z.lor ACCESS_READ ACCESS_WRITE) 0 None false) s).

Definition o_addFloatVariable (path : string) (initial : float32) := addVariableImpl path (UaFloat initial).
Definition o_addInt32Variable (path : string) (initial : Z) := addVariableImpl path (UaInt32 initial).
Definition o_addBoolVariable (path : string) (initial : bool) := addVariableImpl path (UaBool initial).
Definition o_addStringVariable (path initial : string) := addVariableImpl path (UaString (c_str initial)).

Definition o_addMethod (browsePath : string) (s : Open62541Server) : Open62541Server * bool :=
  let '(_, leaf) := splitParentLeaf browsePath in
  added s (add_under browsePath (UaMethod (mkContext leaf "")) s).

Definition o_addBoolVariableWithWriteCallback (browsePath : string) (initial : bool) (s : Open62541Server) :
    Open62541Server * bool :=
  let fullAccess := Z.lor (Z.lor (Z.lor ACCESS_READ ACCESS_WRITE) ACCESS_STATUSWRITE) ACCESS_TIMESTAMPWRITE in
  let ctx := mkContext "" browsePath in
  match add_under browsePath (UaVariable (UaBool initial) fullAccess fullAccess (Some ctx) false) s with
  | None => (s, false)
  | Some (outNodeId, u) =>
      match ua_setValueCallback outNodeId u with
      | Some u => (with_server s u, true)
      | None => (with_server s u, false)
      end
  end.

(** [writeScalar] and [writeString]. *)
Definition writeScalar (path : string) (value : UaValue) (s : Open62541Server) : Open62541Server * bool :=
  match (u ← o_server s; nodeId ← resolveNode u path; ua_writeValue nodeId value u) with
  | Some u => (with_server s u, true)
  | None => (s, false)
  end.

(** What the clients see and write: the services of the library, on the path
    of a node. *)
Definition o_browse (s : Open62541Server) : space := fun path =>
  match path, o_server s with
  | _ :: _, Some u => ua_translate u objectsFolder path ≫= ua_node u
  | _, _ => None
  end.
Definition o_clientWrite (path : list string) (v : UaValue) (s : Open62541Server) : option Open62541Server :=
  match path, o_server s with
  | _ :: _, Some u =>
      n ← ua_translate u objectsFolder path;
      u ← ua_clientWrite n v u;
      Some (with_server s u)
  | _, _ => None
  end.
End Server.
Arguments Open62541Server U : clear implicits.

(** The callbacks the library calls: [methodCallbackShim] with the context of
    the method, [boolWriteCallbackShim] with that of the variable and the value
    written. What they call on the sink. *)
Definition methodCallbackShim (n : UaNode) : option string :=
  match n with UaMethod ctx => Some (commandName ctx) | _ => None end.
Definition boolWriteCallbackShim (n : UaNode) (data : UaValue) : option (string * bool) :=
  match n, data with
  | UaVariable _ _ _ (Some ctx) true, UaBool v => Some (nodePath ctx, v)
  | _, _ => None
  end.

(* ------------------------------------------------------------------ *)
(** ** Paths *)

Lemma c_str_id s : no_char Ascii.zero s = true -> c_str s = s.
Proof.
  induction s as [|d s IH]; [reflexivity|]. intros [Hd Hs]%no_char_cons. cbn.
  rewrite bool_decide_eq_false_2 by congruence. rewrite IH by exact Hs. reflexivity.
Qed.

Lemma seg_ok_parts s : seg_ok s = true -> s <> "" /\ no_char "/"%char s = true /\ no_char Ascii.zero s = true.
Proof. unfold seg_ok. rewrite !andb_true_iff, bool_decide_eq_true. tauto. Qed.

Lemma parse_seg s : forall acc rest, no_char "/"%char s = true ->
  parse_from (Some acc) (s ++ String "/"%char rest) = (acc ++ s)%string :: parse_from None rest.
Proof.
  induction s as [|d s IH]; intros acc rest H; [rewrite string_app_nil; reflexivity|].
  apply no_char_cons in H as [Hd Hs]. rewrite ?string_cons_app. cbn [parse_from default]. rewrite bool_decide_eq_false_2 by congruence.
  rewrite IH by exact Hs. rewrite <- string_app_assoc. reflexivity.
Qed.
Lemma parse_end s : forall acc, no_char "/"%char s = true -> parse_from (Some acc) s = [(acc ++ s)%string].
Proof.
  induction s as [|d s IH]; intros acc H; [rewrite string_app_nil; reflexivity|].
  apply no_char_cons in H as [Hd Hs]. rewrite ?string_cons_app. cbn [parse_from default]. rewrite bool_decide_eq_false_2 by congruence.
  rewrite IH by exact Hs. rewrite <- string_app_assoc. reflexivity.
Qed.
Lemma parse_start s : s <> "" -> parse_from None s = parse_from (Some "") s.
Proof. destruct s; [congruence|reflexivity]. Qed.

Lemma parse_join path : path_ok path -> parseBrowsePath (join path) = path.
Proof.
  intros [Hne H]. unfold parseBrowsePath. induction H as [|s path Hs H IH]; [congruence|].
  apply seg_ok_parts in Hs as (Hs & Hn & _). destruct path as [|t path].
  - cbn [join]. rewrite parse_start, parse_end by assumption. reflexivity.
  - cbn [join] in *. rewrite parse_start by (destruct s; [congruence|discriminate]). rewrite parse_seg by exact Hn.
    rewrite IH by discriminate. reflexivity.
Qed.

Lemma split_none s : no_char "/"%char s = true -> split_rfind s = None.
Proof.
  induction s as [|d s IH]; [reflexivity|]. intros [Hd Hs]%no_char_cons. cbn.
  rewrite IH by exact Hs. rewrite bool_decide_eq_false_2 by congruence. reflexivity.
Qed.
Lemma split_seg s rest : no_char "/"%char rest = true -> split_rfind (s ++ String "/"%char rest) = Some (s, rest).
Proof.
  intros H. induction s as [|d s IH]; rewrite ?string_nil_app, ?string_cons_app; cbn [split_rfind]; [rewrite split_none by exact H; reflexivity|].
  rewrite IH. reflexivity.
Qed.

Lemma join_snoc p x : p <> [] -> join (p ++ [x]) = (join p ++ String "/"%char x)%string.
Proof.
  induction p as [|s p IH]; [congruence|]. intros _. destruct p as [|t p]; [reflexivity|].
  cbn [app join] in *. rewrite IH by discriminate. rewrite <- string_app_assoc. reflexivity.
Qed.

Lemma split_join p x : path_ok (p ++ [x]) -> splitParentLeaf (join (p ++ [x])) = (join p, x).
Proof.
  intros [_ H]. apply Forall_app in H as [_ H]. apply Forall_cons in H as [Hx _]. apply seg_ok_parts in Hx as (_ & Hx & _).
  unfold splitParentLeaf. destruct p as [|s p]; [cbn; rewrite split_none by exact Hx; reflexivity|].
  rewrite join_snoc by discriminate. rewrite split_seg by exact Hx. reflexivity.
Qed.

Lemma path_ok_snoc p x : path_ok (p ++ [x]) -> (p = [] \/ path_ok p) /\ seg_ok x = true.
Proof.
  intros [_ H]. apply Forall_app in H as [Hp Hx]. apply Forall_cons in Hx as [Hx _]. split; [|exact Hx].
  destruct p; [auto|right]. split; [discriminate|exact Hp].
Qed.

Lemma path_ok_c_str p : path_ok p -> map c_str p = p.
Proof.
  intros [_ H]. induction H as [|s p Hs H IH]; [reflexivity|]. apply seg_ok_parts in Hs as (_ & _ & Hs).
  cbn [map]. rewrite c_str_id by exact Hs. rewrite IH. reflexivity.
Qed.

Lemma path_snoc (p : list string) : p <> [] -> exists q x, p = q ++ [x].
Proof. intros H. destruct (exists_last H) as (q & x & E). eauto. Qed.

Lemma join_nonempty p : path_ok p -> join p <> "".
Proof.
  intros [Hne H]. destruct H as [|s p Hs _]; [congruence|]. apply seg_ok_parts in Hs as (Hs & _).
  destruct p; cbn; [exact Hs|]. destruct s; [congruence|discriminate].
Qed.

(* ------------------------------------------------------------------ *)
(** ** The server keeps its promises *)

Section Refinement.
Context {U : Type} `{UL : UaLib U}.
Implicit Types u : U.

(** The nodes of the application form a tree under the Objects folder. *)
Record tree u : Prop := {
  tr_root : ua_node u objectsFolder = Some UaObject;
  tr_child : forall n s m, ua_child u n s = Some m -> is_Some (ua_node u n) /\ is_Some (ua_node u m) /\ m <> objectsFolder;
  tr_inj : forall n s m t k, ua_child u n s = Some k -> ua_child u m t = Some k -> n = m /\ s = t;
}.

Abbreviation resolve u p := (ua_translate u objectsFolder p).

Lemma resolve_nil u : resolve u [] = Some objectsFolder.
Proof. rewrite translate_law. reflexivity. Qed.
Lemma resolve_snoc u p x : resolve u (p ++ [x]) = (resolve u p ≫= fun n => ua_child u n x).
Proof.
  generalize objectsFolder. induction p as [|s p IH]; intros n; cbn [app]; rewrite translate_law.
  - rewrite (translate_law u n []). cbn. destruct (ua_child u n x) as [m|]; [|reflexivity]. exact (translate_law u m []).
  - rewrite (translate_law u n (s :: p)). destruct (ua_child u n s) as [m|]; [apply IH|reflexivity].
Qed.

Lemma resolve_node u p n : tree u -> resolve u p = Some n -> is_Some (ua_node u n).
Proof.
  intros T. destruct (decide (p = [])) as [->|Hp].
  - rewrite resolve_nil. intros [= <-]. rewrite (tr_root _ T). eauto.
  - destruct (path_snoc p Hp) as (q & x & ->). rewrite resolve_snoc. destruct (resolve u q) as [m|]; [|discriminate].
    cbn. intros E. apply (tr_child _ T _ _ _ E).
Qed.

Lemma resolve_root u p : tree u -> resolve u p = Some objectsFolder -> p = [].
Proof.
  intros T E. destruct (decide (p = [])) as [|Hp]; [assumption|]. destruct (path_snoc p Hp) as (q & x & ->). exfalso.
  rewrite resolve_snoc in E. destruct (resolve u q) as [m|]; [|discriminate]. apply (tr_child _ T) in E. tauto.
Qed.

Lemma resolve_inj u p : forall q n, tree u -> resolve u p = Some n -> resolve u q = Some n -> p = q.
Proof.
  induction p as [|x p IH] using rev_ind; intros q n T Ep Eq.
  - rewrite resolve_nil in Ep. injection Ep as <-. symmetry. apply (resolve_root u q T Eq).
  - destruct (decide (q = [])) as [->|Hq].
    + rewrite resolve_nil in Eq. injection Eq as <-. apply (resolve_root u _ T Ep).
    + destruct (path_snoc q Hq) as (q' & y & ->). rewrite resolve_snoc in Ep, Eq.
      destruct (resolve u p) as [a|] eqn:Ea; [|discriminate]. destruct (resolve u q') as [b|] eqn:Eb; [|discriminate]. cbn in Ep, Eq.
      destruct (tr_inj _ T _ _ _ _ _ Ep Eq) as [-> ->]. f_equal. exact (IH q' b T eq_refl Eb).
Qed.

(** Adding a node adds its path. *)
Lemma add_resolve u u' p s k np n :
  tree u -> resolve u p = Some np -> ua_addNode np s k u = Some (n, u') ->
  tree u' /\ (forall q, resolve u' q = if decide (q = p ++ [s]) then Some n else resolve u q) /\
  (forall m, ua_node u' m = if decide (m = n) then Some k else ua_node u m).
Proof.
  intros T Ep Ea. pose proof (add_law u np s k) as L. rewrite Ea in L. destruct L as (Hp & Hfree & Hnew & Hn & Hc).
  assert (Nc : forall t, ua_child u n t = None).
  { intros t. destruct (ua_child u n t) eqn:E; [|reflexivity]. apply (tr_child _ T) in E as [[? E] _]. congruence. }
  assert (R : forall q, resolve u' q = if decide (q = p ++ [s]) then Some n else resolve u q).
  { induction q as [|y q IH] using rev_ind.
    - rewrite !resolve_nil. rewrite decide_False by (destruct p; discriminate). reflexivity.
    - rewrite !resolve_snoc, IH. destruct (decide (q = p ++ [s])) as [->|Hq].
      + cbn. rewrite Hc, Nc, decide_False by (intros [-> _]; congruence).
        rewrite decide_False by (intros E; apply (f_equal length) in E; rewrite !length_app in E; cbn in E; lia).
        rewrite resolve_snoc, Ep. cbn. rewrite Hfree. reflexivity.
      + destruct (resolve u q) as [a|] eqn:Eq; cbn.
        * rewrite Hc. destruct (decide (a = np /\ y = s)) as [[-> ->]|Hne].
          -- rewrite (resolve_inj u q p np T Eq Ep), decide_True by reflexivity. reflexivity.
          -- rewrite decide_False; [reflexivity|]. intros E. apply app_inj_tail in E as [-> ->]. rewrite Ep in Eq. injection Eq as ->. auto.
        * rewrite decide_False; [reflexivity|]. intros E. apply app_inj_tail in E as [-> ->]. congruence. }
  split; [|split; [exact R|exact Hn]]. split.
  - rewrite Hn, decide_False by (intros E; rewrite <- E, (tr_root _ T) in Hnew; discriminate). apply T.
  - intros m t c. rewrite Hc, !Hn. case_decide as D.
    + destruct D as [-> ->]. intros [= <-]. rewrite (decide_True (P := n = n)) by reflexivity.
      rewrite decide_False by (intros ->; congruence). rewrite Hp.
      split; [eauto|]. split; [eauto|]. intros ->. rewrite (tr_root _ T) in Hnew. discriminate.
    + intros E. destruct (tr_child _ T _ _ _ E) as (H1 & H2 & H3).
      split; [case_decide; eauto|]. split; [case_decide; eauto|exact H3].
  - intros m t m' t' c. rewrite !Hc. case_decide as D1; case_decide as D2.
    + destruct D1 as [-> ->], D2 as [-> ->]. auto.
    + intros [= <-] E. apply (tr_child _ T) in E as (_ & [? E] & _). congruence.
    + intros E [= <-]. apply (tr_child _ T) in E as (_ & [? E] & _). congruence.
    + intros E1 E2. exact (tr_inj _ T _ _ _ _ _ E1 E2).
Qed.

(** Changing a node changes what is found under its path. *)
Lemma change_resolve u u' n k :
  tree u -> (forall q, ua_node u' q = if decide (q = n) then Some k else ua_node u q) ->
  (forall q t, ua_child u' q t = ua_child u q t) -> is_Some (ua_node u n) -> n <> objectsFolder ->
  tree u' /\ forall q, resolve u' q = resolve u q.
Proof.
  intros T Hn Hc Hs Ho. split.
  - split.
    + rewrite Hn, decide_False by congruence. apply T.
    + intros m t c. rewrite Hc, !Hn. intros E. destruct (tr_child _ T _ _ _ E) as (H1 & H2 & H3).
      split; [case_decide; eauto|]. split; [case_decide; eauto|exact H3].
    + intros m t m' t' c. rewrite !Hc. apply (tr_inj _ T).
  - induction q as [|y q IH] using rev_ind; [rewrite !resolve_nil; reflexivity|].
    rewrite !resolve_snoc, IH. destruct (resolve u q); [apply Hc|reflexivity].
Qed.

(** A server between operations. *)
Definition o_ok (s : Open62541Server U) : Prop := match o_server s with
  | Some u => o_running s = true /\ tree u
  | None => o_running s = false
  end.

Lemma o_ok_running s : o_ok s -> o_running s = true -> exists u, o_server s = Some u /\ tree u.
Proof. unfold o_ok. destruct (o_server s) as [u|]; [intros [_ T] _; eauto|congruence]. Qed.

Lemma browse_some s u path : o_server s = Some u -> path <> [] -> o_browse s path = (resolve u path ≫= ua_node u).
Proof. intros E Hp. unfold o_browse. rewrite E. destruct path; [congruence|reflexivity]. Qed.

Lemma resolveNode_join u path : path_ok path -> resolveNode u (join path) = resolve u path.
Proof.
  intros H. unfold resolveNode. rewrite parse_join by exact H. pose proof (path_ok_c_str path H) as E. destruct H as [H _].
  destruct path; [congruence|]. rewrite E. reflexivity.
Qed.

Lemma resolveParent_join u path : path = [] \/ path_ok path -> resolveParent u (join path) = resolve u path.
Proof.
  unfold resolveParent. intros [->|H]; [cbn; rewrite resolve_nil; reflexivity|].
  rewrite bool_decide_eq_false_2 by (apply join_nonempty, H). apply resolveNode_join, H.
Qed.

(** [add_under] on the path of a node. *)
Lemma add_under_spec s u p x k :
  o_server s = Some u -> tree u -> o_running s = true -> path_ok (p ++ [x]) ->
  match add_under (join (p ++ [x])) k s with
  | Some (n, u') => can_add (o_browse s) (p ++ [x]) = true /\ tree u' /\
      (forall q, o_browse (with_server s u') q = spec_add (p ++ [x]) k (o_browse s) q) /\ resolve u' (p ++ [x]) = Some n
  | None => can_add (o_browse s) (p ++ [x]) = false
  end.
Proof.
  intros Es T Hr Hp. destruct (path_ok_snoc p x Hp) as [Hpar Hx]. apply seg_ok_parts in Hx as (_ & _ & Hx).
  unfold add_under. rewrite Es. cbn [mbind option_bind]. rewrite split_join by exact Hp. rewrite resolveParent_join by exact Hpar.
  rewrite (c_str_id x) by exact Hx.
  assert (Ex : o_browse s (p ++ [x]) = (resolve u p ≫= fun n => ua_child u n x) ≫= ua_node u).
  { rewrite (browse_some s u) by (auto; destruct p; discriminate). rewrite resolve_snoc. reflexivity. }
  assert (Epar : bool_decide (p = []) || is_object (o_browse s p) = is_object (resolve u p ≫= ua_node u)).
  { destruct p as [|y p]; [rewrite resolve_nil; cbn; rewrite (tr_root _ T); reflexivity|]. rewrite (browse_some s u) by (auto; discriminate). reflexivity. }
  assert (Ecan : can_add (o_browse s) (p ++ [x]) = bool_decide (o_browse s (p ++ [x]) = None) && is_object (resolve u p ≫= ua_node u)).
  { unfold can_add, parent_of. rewrite removelast_last, Epar. reflexivity. }
  destruct (resolve u p) as [np|] eqn:En; cbn [mbind option_bind] in *; [|rewrite Ecan; apply andb_false_r].
  pose proof (add_law u np x k) as L. destruct (ua_addNode np x k u) as [[n u']|] eqn:Ea.
  - destruct L as (L1 & L2 & _). pose proof (add_resolve u u' p x k np n T En Ea) as (T' & R & N).
    assert (Ecan' : can_add (o_browse s) (p ++ [x]) = true) by (rewrite Ecan, Ex, L1, L2; reflexivity).
    split; [exact Ecan'|]. split; [exact T'|]. split; [|rewrite R, decide_True by reflexivity; reflexivity].
    intros q. unfold spec_add. rewrite Ecan'. destruct (decide (q = [])) as [->|Hq].
    { rewrite decide_False by (destruct p; discriminate). reflexivity. }
    rewrite (browse_some _ u') by auto. rewrite R. case_decide; cbn; [rewrite N, decide_True by reflexivity; reflexivity|].
    rewrite (browse_some s u) by auto. destruct (resolve u q) as [m|] eqn:Em; [|reflexivity]. cbn. rewrite N. case_decide as D; [|reflexivity].
    subst m. exfalso. destruct (resolve_node u q n T Em) as [k' Hk]. pose proof (add_law u np x k) as L. rewrite Ea in L. destruct L as (_ & _ & L & _). congruence.
  - rewrite Ecan, Ex. destruct L as [L|L].
    + destruct (ua_node u np) as [[]|]; try congruence; apply andb_false_r.
    + destruct (ua_child u np x) as [m|] eqn:Em; [|congruence]. cbn. destruct (tr_child _ T _ _ _ Em) as (_ & [km Hm] & _). rewrite Hm. reflexivity.
Qed.

Lemma added_adds path (op : Open62541Server U -> Open62541Server U * bool) k :
  path_ok path -> (forall s, op s = added s (add_under (join path) k s)) ->
  forall s, o_ok s -> o_running s = true ->
  o_ok (fst (op s)) /\ o_running (fst (op s)) = true /\
  snd (op s) = can_add (o_browse s) path /\ forall q, o_browse (fst (op s)) q = spec_add path k (o_browse s) q.
Proof.
  intros Hp Hop s Hs Hr. rewrite Hop. destruct (o_ok_running s Hs Hr) as (u & Es & T).
  destruct (path_snoc path (proj1 Hp)) as (p & x & ->). pose proof (add_under_spec s u p x k Es T Hr Hp) as L.
  destruct (add_under _ k s) as [[n u']|]; cbn [added fst snd].
  - destruct L as (L1 & L2 & L3 & _). unfold o_ok. cbn. auto.
  - rewrite L. split; [exact Hs|]. split; [exact Hr|]. split; [reflexivity|]. intros q. unfold spec_add. rewrite L. case_decide; subst; reflexivity.
Qed.

(** Writing the node of a path, as the program or as a client. *)
Lemma write_spec s u path v (how : UaValue -> UaNode -> option UaNode) (write : NodeId -> UaValue -> U -> option U) :
  o_server s = Some u -> tree u -> path <> [] ->
  (forall v n k, how v n = Some k -> written v n = Some k) ->
  (forall u n v, match write n v u with
    | Some u' => exists k, ua_node u n ≫= how v = Some k /\
        (forall q, ua_node u' q = if decide (q = n) then Some k else ua_node u q) /\
        (forall q t, ua_child u' q t = ua_child u q t)
    | None => ua_node u n ≫= how v = None end) ->
  match (n ← resolve u path; write n v u) with
  | Some u' => is_Some (o_browse s path ≫= how v) /\ tree u' /\ forall q, o_browse (with_server s u') q = spec_write path v (o_browse s) q
  | None => o_browse s path ≫= how v = None
  end.
Proof.
  intros Es T Hp Hhow L. rewrite (browse_some s u) by assumption.
  destruct (resolve u path) as [n|] eqn:En; cbn [mbind option_bind]; [|reflexivity].
  specialize (L u n v). destruct (write n v u) as [u'|]; [|exact L]. destruct L as (k & Ek & Hn & Hc).
  destruct (ua_node u n) as [k0|] eqn:E0; [|discriminate]. cbn in Ek.
  assert (Ho : n <> objectsFolder). { intros ->. apply Hp, (resolve_root u path T En). }
  destruct (change_resolve u u' n k T Hn Hc) as [T' R]; [eauto|exact Ho|].
  split; [cbn; rewrite Ek; eauto|]. split; [exact T'|]. intros q. unfold spec_write. destruct (decide (q = path)) as [->|Hq].
  - rewrite (browse_some _ u') by auto. rewrite R, En. cbn. rewrite Hn, decide_True by reflexivity.
    rewrite (browse_some s u) by assumption. rewrite En. cbn. rewrite E0. cbn. rewrite (Hhow v k0 k Ek). reflexivity.
  - destruct (decide (q = [])) as [->|Hne]; [reflexivity|]. rewrite (browse_some _ u'), (browse_some s u) by auto. rewrite R.
    destruct (resolve u q) as [m|] eqn:Em; [|reflexivity]. cbn. rewrite Hn, decide_False; [reflexivity|]. intros ->. apply Hq, (resolve_inj u q path n T Em En).
Qed.

Lemma client_written_written v n k : client_written v n = Some k -> written v n = Some k.
Proof. destruct n; cbn [client_written]; try discriminate. case_match; [auto|discriminate]. Qed.

Lemma scalar_writes path v s : path_ok path -> o_ok s -> o_running s = true ->
  let r := writeScalar (join path) v s in
  o_ok (fst r) /\ o_running (fst r) = true /\ snd r = bool_decide (is_Some (o_browse s path ≫= written v)) /\
  forall q, o_browse (fst r) q = spec_write path v (o_browse s) q.
Proof.
  intros Hp Hs Hr. destruct (o_ok_running s Hs Hr) as (u & Es & T). cbv zeta. unfold writeScalar. rewrite Es. cbn [mbind option_bind].
  rewrite resolveNode_join by exact Hp.
  pose proof (write_spec s u path v written ua_writeValue Es T (proj1 Hp) (fun _ _ _ H => H) write_law) as L. cbn [mbind option_bind] in L.
  match goal with |- context [match ?m with Some _ => _ | None => _ end] => destruct m as [u'|] end; cbn [fst snd].
  - destruct L as (L1 & L2 & L3). rewrite bool_decide_eq_true_2 by exact L1. unfold o_ok. cbn. auto.
  - rewrite L, bool_decide_eq_false_2 by (intros [? ?]; discriminate). split; [exact Hs|]. split; [exact Hr|]. split; [reflexivity|].
    intros q. unfold spec_write. case_decide; subst; [rewrite L; reflexivity|reflexivity].
Qed.

(** [addMethod] and [addBoolVariableWithWriteCallback] on the path of a node. *)
Lemma method_adds path : path_ok path -> forall s,
  o_addMethod (join path) s = added s (add_under (join path) (method_node path) s).
Proof.
  intros Hp s. destruct (path_snoc path (proj1 Hp)) as (p & x & ->). unfold o_addMethod. rewrite split_join by exact Hp.
  unfold method_node. rewrite List.last_last. reflexivity.
Qed.

Lemma writable_adds path b s : path_ok path -> o_ok s -> o_running s = true ->
  let r := o_addBoolVariableWithWriteCallback (join path) b s in
  o_ok (fst r) /\ o_running (fst r) = true /\ snd r = can_add (o_browse s) path /\
  forall q, o_browse (fst r) q = spec_add path (writable_variable path b) (o_browse s) q.
Proof.
  intros Hp Hs Hr. cbv zeta. destruct (o_ok_running s Hs Hr) as (u & Es & T).
  unfold o_addBoolVariableWithWriteCallback. fold kFullWriteAccess.
  set (k := UaVariable _ _ _ _ _).
  destruct (path_snoc path (proj1 Hp)) as (p & x & ->). pose proof (add_under_spec s u p x k Es T Hr Hp) as L.
  destruct (add_under _ k s) as [[n u']|]; cbn [fst snd].
  - destruct L as (L1 & T' & L3 & R). assert (Hk : ua_node u' n = Some k).
    { specialize (L3 (p ++ [x])). unfold spec_add in L3. rewrite decide_True, L1 in L3 by reflexivity.
      rewrite (browse_some _ u') in L3 by (auto; destruct p; discriminate). rewrite R in L3. exact L3. }
    pose proof (callback_law u' n) as C. destruct (ua_setValueCallback n u') as [u2|]; [|elim (C _ _ _ _ _ Hk)].
    destruct C as (v & a & us & c & w & E & Hn & Hc). rewrite Hk in E. injection E as <- <- <- <- <-.
    assert (Ho : n <> objectsFolder). { intros ->. apply (resolve_root u' _ T') in R. destruct p; discriminate. }
    destruct (change_resolve u' u2 n _ T' Hn Hc) as [T2 R2]; [eauto|exact Ho|]. cbn [fst snd].
    split; [unfold o_ok; cbn; auto|]. split; [exact Hr|]. split; [symmetry; exact L1|]. intros q.
    destruct (decide (q = [])) as [->|Hq]; [unfold spec_add; rewrite decide_False by (destruct p; discriminate); reflexivity|].
    rewrite (browse_some _ u2) by auto. rewrite R2. unfold spec_add. rewrite L1. case_decide as D.
    + subst q. rewrite R. cbn. rewrite Hn, decide_True by reflexivity. reflexivity.
    + specialize (L3 q). unfold spec_add in L3. rewrite decide_False in L3 by exact D. rewrite <- L3. rewrite (browse_some _ u') by auto.
      destruct (ua_translate u' objectsFolder q) as [m|] eqn:Em; [|reflexivity]. cbn. rewrite Hn, decide_False; [reflexivity|].
      intros ->. apply D, (resolve_inj u' q (p ++ [x]) n T' Em R).
  - rewrite L. split; [exact Hs|]. split; [exact Hr|]. split; [reflexivity|]. intros q. unfold spec_add. rewrite L. case_decide; subst; reflexivity.
Qed.
End Refinement.

#[export] Instance Open62541 {U} `{UaLib U} : OpcUaServer (Open62541Server U) := {|
  boot := {b : ua_boot U | match b with Booted u => ua_fresh u | _ => True end};
  start b := o_start (proj1_sig b);
  stop := o_stop;
  isRunning := o_running;
  connectedSessions := o_connectedSessions;
  boundPort := o_boundPort;
  addObject := o_addObject;
  addFloatVariable := o_addFloatVariable;
  addInt32Variable := o_addInt32Variable;
  addBoolVariable := o_addBoolVariable;
  addStringVariable := o_addStringVariable;
  addMethod := o_addMethod;
  addBoolVariableWithWriteCallback := o_addBoolVariableWithWriteCallback;
  writeFloat path f := writeScalar path (UaFloat f);
  writeInt32 path z := writeScalar path (UaInt32 z);
  writeBool path b := writeScalar path (UaBool b);
  writeString path t := writeScalar path (UaString (c_str t));
  browse := o_browse;
  clientWrite := o_clientWrite;
  server_ok := o_ok;
|}.

#[export] Instance Open62541Laws {U} `{UaLib U} : OpcUaServerLaws (Open62541Server U).
Proof.
  split.
  - intros [b Hb] s s' Hs Hr E. cbn in *. unfold o_start in E. rewrite Hr in E. destruct b; try discriminate. injection E as <-.
    destruct (fresh_law u Hb) as [F1 F2]. split; [|split; [reflexivity|]].
    + split; [reflexivity|]. split; [exact F2| |]; intros n t m; rewrite F1; discriminate.
    + intros q. destruct q as [|t q]; [reflexivity|]. unfold o_browse. cbn [o_server]. rewrite translate_law, F1. reflexivity.
  - intros [b Hb] s Hr. cbn in *. unfold o_start. rewrite Hr. reflexivity.
  - intros [b Hb] s. cbn. unfold o_start. repeat case_match; exact I.
  - intros s Hs. cbn in *. unfold o_stop. destruct (o_running s) eqn:E; [split; reflexivity|auto].
  - intros path Hp s. apply (added_adds path _ UaObject Hp). reflexivity.
  - intros path f Hp s. apply (added_adds path _ (plain_variable (UaFloat f)) Hp). reflexivity.
  - intros path f Hp s. apply (added_adds path _ (plain_variable (UaInt32 f)) Hp). reflexivity.
  - intros path f Hp s. apply (added_adds path _ (plain_variable (UaBool f)) Hp). reflexivity.
  - intros path f Hp s. apply (added_adds path _ (plain_variable (UaString (c_str f))) Hp). reflexivity.
  - intros path Hp s. apply (added_adds path _ (method_node path) Hp). apply method_adds, Hp.
  - intros path b Hp s Hs Hr. apply writable_adds; assumption.
  - intros path f Hp s. apply scalar_writes, Hp.
  - intros path f Hp s. apply scalar_writes, Hp.
  - intros path f Hp s. apply scalar_writes, Hp.
  - intros path f Hp s. apply scalar_writes, Hp.
  - intros path v s Hs Hr. cbn in *. destruct (o_ok_running s Hs Hr) as (u & Es & T).
    destruct path as [|t path]; [reflexivity|]. unfold o_clientWrite. rewrite Es.
    pose proof (write_spec s u (t :: path) v client_written ua_clientWrite Es T ltac:(discriminate) client_written_written clientWrite_lib_law) as L.
    cbn [mbind option_bind] in *. destruct (ua_translate u objectsFolder (t :: path)) as [n|]; cbn [mbind option_bind] in *; [|exact L].
    destruct (ua_clientWrite n v u) as [u'|]; cbn in *; [|exact L]. unfold o_ok. cbn. tauto.
Qed.

(* ------------------------------------------------------------------ *)
(** ** A library *)

(** The laws can be met: a server that keeps its nodes by their paths, and
    counts no channels. *)
Abbreviation ua_map := (gmap (list string) UaNode).

Definition map_child (u : ua_map) (n : list string) (s : string) : option (list string) :=
  if decide (is_Some (u !! (n ++ [s]))) then Some (n ++ [s]) else None.
Fixpoint map_translate (u : ua_map) (n : list string) (path : list string) : option (list string) :=
  match path with [] => Some n | s :: path => map_child u n s ≫= fun m => map_translate u m path end.
Definition map_add (p : list string) (s : string) (k : UaNode) (u : ua_map) : option (list string * ua_map) :=
  if is_object (u !! p) && bool_decide (u !! (p ++ [s]) = None) then Some (p ++ [s], <[p ++ [s] := k]> u) else None.
Definition map_change (how : UaNode -> option UaNode) (n : list string) (u : ua_map) : option ua_map :=
  option_map (fun k => <[n := k]> u) (u !! n ≫= how).
Definition set_on_write (n : UaNode) : option UaNode :=
  match n with UaVariable v a us c _ => Some (UaVariable v a us c true) | _ => None end.

Lemma map_change_law how n u : match map_change how n u with
  | Some u' => exists k, u !! n ≫= how = Some k /\
      (forall q, u' !! q = if decide (q = n) then Some k else u !! q) /\ (forall q t, map_child u' q t = map_child u q t)
  | None => u !! n ≫= how = None
  end.
Proof.
  unfold map_change. destruct (u !! n) as [k0|] eqn:E0; [|reflexivity]. cbn. destruct (how k0) as [k|] eqn:Ek; [|reflexivity]. cbn.
  exists k. split; [reflexivity|]. split.
  - intros q. case_decide as D; [subst; apply lookup_insert_eq|apply lookup_insert_ne; congruence].
  - intros q t. unfold map_child. destruct (decide (q ++ [t] = n)) as [<-|D].
    + rewrite lookup_insert_eq, E0, !decide_True by eauto. reflexivity.
    + rewrite lookup_insert_ne by congruence. reflexivity.
Qed.

#[export] Program Instance MapLib : UaLib ua_map := {|
  NodeId := list string;
  objectsFolder := [];
  ua_node u n := u !! n;
  ua_child := map_child;
  ua_translate := map_translate;
  ua_addNode := map_add;
  ua_writeValue n v := map_change (written v) n;
  ua_setValueCallback n := map_change set_on_write n;
  ua_clientWrite n v := map_change (client_written v) n;
  ua_channelCount _ := 0;
  ua_fresh u := u = {[ [] := UaObject ]};
|}.
Next Obligation. intros u n path. destruct path; reflexivity. Qed.
Next Obligation.
  intros u ->. split; [|reflexivity]. intros n s. unfold map_child. rewrite decide_False; [reflexivity|].
  rewrite lookup_singleton_ne by (destruct n; discriminate). intros [? ?]. discriminate.
Qed.
Next Obligation.
  intros u p s k. unfold map_add. destruct (u !! p) as [[]|] eqn:Ep; cbn; try (left; congruence).
  case_bool_decide as D.
  - unfold map_child. rewrite D. rewrite decide_False by (intros [? ?]; discriminate). split; [reflexivity|]. split; [reflexivity|]. split; [reflexivity|]. split.
    + intros q. case_decide as E; [subst; apply lookup_insert_eq|apply lookup_insert_ne; congruence].
    + intros q t. destruct (decide (q ++ [t] = p ++ [s])) as [E|E].
      * apply app_inj_tail in E as [-> ->]. rewrite lookup_insert_eq. rewrite (decide_True (P := p = p /\ s = s)) by auto. apply decide_True. eauto.
      * rewrite lookup_insert_ne by congruence. rewrite (decide_False (P := q = p /\ t = s)) by (intros [-> ->]; auto). reflexivity.
  - right. unfold map_child. rewrite decide_True; [discriminate|]. destruct (u !! (p ++ [s])); [eauto|congruence].
Qed.
Next Obligation. intros u n v. apply map_change_law. Qed.
Next Obligation.
  intros u n. pose proof (map_change_law set_on_write n u) as L. destruct (map_change set_on_write n u) as [u'|].
  - destruct L as (k & E & L). destruct (u !! n) as [[]|]; try discriminate. injection E as <-. eauto 10.
  - intros v a us c w E. rewrite E in L. discriminate.
Qed.
Next Obligation. intros u n v. apply map_change_law. Qed.

Definition map_boot : boot (S := Open62541Server ua_map) :=
  exist _ (Booted {[ [] := UaObject ]}) eq_refl.
Definition map_server (port : Z) : Open62541Server ua_map := mkServer port false None false.
