(* ===== verification/FactoryNodes.v ===== *)
(** * The factory on the OPC-UA server
    (src/integration/opcua/FactoryNodeMap.{h,cpp}, FactoryCommandSink.{h,cpp},
    OpcUaBackend.{h,cpp}, OpcUaNodeMap.h)

    The address space the node map builds, the callbacks that keep it current,
    the sink that turns what clients do into model commands, and the backend
    that starts and stops them, over any server that keeps the laws of the
    interface; that the clients see the model is stated on [Open62541Server],
    which is proved to keep them. *)
From stdpp Require Import pretty.
From Stdlib Require Import Ascii String.
From S2P Require Import Prelude Float32 Format StdMap SystemState ModbusIngest SerialLink ModbusPollLoop SimulatedModel ModelNews TcpServer OpcUaServer.
Local Open Scope string_scope.
Local Open Scope Z_scope.
Local Open Scope list_scope.

(* ------------------------------------------------------------------ *)
(** ** Paths *)

Definition kRoot : string := "Factory".
Definition kEquipmentRoot : string := "Factory/EquipmentLines".
Definition kCheckpointRoot : string := "Factory/QualityCheckpoints".
Definition kWorkUnitRoot : string := "Factory/WorkUnit".

Definition line_base (id : Z) : string := (kEquipmentRoot ++ "/Line" ++ to_string id)%string.
Definition checkpoint_base (id : Z) : string := (kCheckpointRoot ++ "/Checkpoint" ++ to_string id)%string.
Definition equipmentPath (id : Z) (leaf : string) : string := (kEquipmentRoot ++ "/Line" ++ to_string id ++ "/" ++ leaf)%string.
Definition checkpointPath (id : Z) (leaf : string) : string := (kCheckpointRoot ++ "/Checkpoint" ++ to_string id ++ "/" ++ leaf)%string.
Definition workUnitPath (leaf : string) : string := (kWorkUnitRoot ++ "/" ++ leaf)%string.

(** [static_cast<std::int32_t>(state)]. *)
Definition state_code (s : SystemState) : Z :=
  match s with IDLE => 0 | RUNNING => 1 | ERROR => 2 | CALIBRATION => 3 end.

(* ------------------------------------------------------------------ *)
(** ** The node map *)

(** [fm_sink]: a sink was given, the control surface is exposed. *)
Record FactoryNodeMap := mkNodeMap { fm_sink : bool; fm_wired : bool }.
Definition node_map_init (sink : bool) : FactoryNodeMap := mkNodeMap sink false.

Definition kWritableLines : Z := 3.

Section NodeMap.
Context {S : Type} `{OpcUaServer S}.
Implicit Types server : S.

(** [(void)server.op(...)]. *)
Definition ignoring (op : S -> S * bool) server : S := fst (op server).

Definition ensureEquipmentSubtree (id : Z) server : S :=
  let base := line_base id in
  let server := ignoring (addObject base) server in
  let server := ignoring (addInt32Variable (base ++ "/Status")%string 0) server in
  let server := ignoring (addInt32Variable (base ++ "/SupplyLevel")%string 0) server in
  ignoring (addStringVariable (base ++ "/Message")%string "") server.

Definition ensureCheckpointSubtree (id : Z) server : S :=
  let base := checkpoint_base id in
  let server := ignoring (addObject base) server in
  let server := ignoring (addStringVariable (base ++ "/Name")%string "") server in
  let server := ignoring (addInt32Variable (base ++ "/Status")%string 0) server in
  let server := ignoring (addFloatVariable (base ++ "/PassRate")%string (f32_of_Z 100)) server in
  let server := ignoring (addInt32Variable (base ++ "/UnitsInspected")%string 0) server in
  ignoring (addInt32Variable (base ++ "/DefectsFound")%string 0) server.

(** The body of the loop over the writable lines. *)
Definition registerEnabled server (id : Z) : S :=
  let server := ignoring (addObject (line_base id)) server in
  ignoring (addBoolVariableWithWriteCallback (line_base id ++ "/Enabled")%string true) server.

Definition registerCommandSurface server : S :=
  let server := ignoring (addObject "Factory/Commands") server in
  let server := ignoring (addMethod "Factory/Commands/StartProduction") server in
  let server := ignoring (addMethod "Factory/Commands/StopProduction") server in
  let server := ignoring (addMethod "Factory/Commands/ResetSystem") server in
  let server := ignoring (addMethod "Factory/Commands/StartCalibration") server in
  fold_left registerEnabled (seqZ 0 kWritableLines) server.

Definition registerNodes (fm : FactoryNodeMap) server : S :=
  let server := ignoring (addObject kRoot) server in
  let server := ignoring (addInt32Variable (kRoot ++ "/State")%string 0) server in
  let server := ignoring (addObject kEquipmentRoot) server in
  let server := ignoring (addObject kCheckpointRoot) server in
  let server := ignoring (addObject kWorkUnitRoot) server in
  let server := ignoring (addStringVariable (workUnitPath "Id") "") server in
  let server := ignoring (addStringVariable (workUnitPath "ProductId") "") server in
  let server := ignoring (addInt32Variable (workUnitPath "CompletedOperations") 0) server in
  let server := ignoring (addInt32Variable (workUnitPath "TotalOperations") 0) server in
  if fm_sink fm then registerCommandSurface server else server.

(** The callbacks [wire] installs. *)
Definition publish_state (state : SystemState) server : S :=
  ignoring (writeInt32 (kRoot ++ "/State")%string (state_code state)) server.

Definition publish_equipment (e : EquipmentStatus) server : S :=
  let server := ensureEquipmentSubtree (equipmentId e) server in
  let server := ignoring (writeInt32 (equipmentPath (equipmentId e) "Status") (eq_status e)) server in
  let server := ignoring (writeInt32 (equipmentPath (equipmentId e) "SupplyLevel") (supplyLevel e)) server in
  ignoring (writeString (equipmentPath (equipmentId e) "Message") (eq_message e)) server.

Definition publish_checkpoint (q : QualityCheckpoint) server : S :=
  let server := ensureCheckpointSubtree (checkpointId q) server in
  let server := ignoring (writeString (checkpointPath (checkpointId q) "Name") (qc_name q)) server in
  let server := ignoring (writeInt32 (checkpointPath (checkpointId q) "Status") (qc_status q)) server in
  let server := ignoring (writeFloat (checkpointPath (checkpointId q) "PassRate") (passRate q)) server in
  let server := ignoring (writeInt32 (checkpointPath (checkpointId q) "UnitsInspected") (unitsInspected q)) server in
  ignoring (writeInt32 (checkpointPath (checkpointId q) "DefectsFound") (defectsFound q)) server.

Definition publish_work (wu : WorkUnit) server : S :=
  let server := ignoring (writeString (workUnitPath "Id") (workUnitId wu)) server in
  let server := ignoring (writeString (workUnitPath "ProductId") (productId wu)) server in
  let server := ignoring (writeInt32 (workUnitPath "CompletedOperations") (completedOperations wu)) server in
  ignoring (writeInt32 (workUnitPath "TotalOperations") (totalOperations wu)) server.

(** A notification of the model to the map. *)
Definition on_delivery (fm : FactoryNodeMap) server (d : delivery) : S :=
  if negb (fm_wired fm) then server
  else match d with
       | DState _ s => publish_state s server
       | DEquipment _ e => publish_equipment e server
       | DQuality _ q => publish_checkpoint q server
       | DWorkUnit _ w => publish_work w server
       | DActuator _ _ => server
       end.

(** [wire]; [br] names the callbacks. The model has no way to unsubscribe, so
    [unwire] only silences them and a later [wire] subscribes again. *)
Definition wire {G} (br : nat) (fm : FactoryNodeMap) (production_ : SimulatedModel G) : FactoryNodeMap * SimulatedModel G :=
  if fm_wired fm then (fm, production_)
  else
    (mkNodeMap (fm_sink fm) true,
     onWorkUnitChanged br (onQualityCheckpointChanged br (onEquipmentStatusChanged br (onSystemStateChanged br production_)))).
Definition unwire (fm : FactoryNodeMap) : FactoryNodeMap := mkNodeMap (fm_sink fm) false.

(* ------------------------------------------------------------------ *)
(** ** The backend *)

Record OpcUaBackend := mkBackend { ob_server : S; ob_map : FactoryNodeMap }.

Definition backend_start {G} (br : nat) (b : boot) (ob : OpcUaBackend) (m : SimulatedModel G) :
    outcome (OpcUaBackend * SimulatedModel G) :=
  if isRunning (ob_server ob) then Ret (ob, m)
  else
    server ← start b (ob_server ob);
    let server := registerNodes (ob_map ob) server in
    let '(fm, m) := wire br (ob_map ob) m in
    Ret (mkBackend server fm, m).

Definition backend_stop (ob : OpcUaBackend) : OpcUaBackend :=
  if negb (isRunning (ob_server ob)) then ob
  else mkBackend (stop (ob_server ob)) (unwire (ob_map ob)).

Definition backend_isRunning (ob : OpcUaBackend) : bool := isRunning (ob_server ob).
Definition backend_name : string := "OPC-UA".

(** [security]: the mode of a server that reports one. *)
Definition backend_metricsSummary (security : option string) (ob : OpcUaBackend) : string :=
  if negb (isRunning (ob_server ob)) then ""
  else
    let line := ("port " ++ to_string (boundPort (ob_server ob)) ++ " | " ++ to_string (connectedSessions (ob_server ob)) ++ " sessions")%string in
    match security with Some mode => (line ++ " | security " ++ mode)%string | None => line end.

Definition backend_connectionState (ob : OpcUaBackend) : BackendState :=
  if negb (isRunning (ob_server ob)) then Disconnected
  else if connectedSessions (ob_server ob) =? 0 then Connecting else Connected.
End NodeMap.
Arguments OpcUaBackend S : clear implicits.

(* ------------------------------------------------------------------ *)
(** ** The command sink *)

(** The part of [ProductionModel] the sink uses besides [OperatedModel]. *)
Class CalibratedModel (M : Type) := { op_calibrate : M -> M }.
#[export] Instance SimulatedCalibrated {G} `{RandomSource G} : CalibratedModel (SimulatedModel G) := {| op_calibrate := startCalibration |}.

Definition kEquipmentEnabledPrefix : chars := chars_of "Factory/EquipmentLines/Line".
Definition kEquipmentEnabledSuffix : chars := chars_of "/Enabled".

Definition starts_with (l prefix : chars) : bool := bool_decide (take (length prefix) l = prefix).
Definition ends_with (l suffix : chars) : bool :=
  (length suffix <=? length l)%nat && bool_decide (drop (length l - length suffix) l = suffix).

(** The id of [dispatchEquipmentEnabled]. *)
Definition enabled_id (nodePath : chars) : option Z :=
  if negb (starts_with nodePath kEquipmentEnabledPrefix) || negb (ends_with nodePath kEquipmentEnabledSuffix) then None
  else
    let idBegin := length kEquipmentEnabledPrefix in
    let idEnd := (length nodePath - length kEquipmentEnabledSuffix)%nat in
    if (idEnd <=? idBegin)%nat then None
    else match from_chars_u32 (slice idBegin (idEnd - idBegin) nodePath) with FcOk id [] => Some id | _ => None end.

Section Sink.
Context {M : Type} `{OM : OperatedModel M} `{CM : CalibratedModel M}.

(** The model after [onCommand]; the commands throw nothing. *)
Definition onCommand (name : string) (model_ : M) : M :=
  if String.eqb name "StartProduction" then op_start model_
  else if String.eqb name "StopProduction" then op_stop model_
  else if String.eqb name "ResetSystem" then op_reset model_
  else if String.eqb name "StartCalibration" then op_calibrate model_
  else model_.

Definition dispatchEquipmentEnabled (path : string) (value : bool) (model_ : M) : bool * M :=
  match enabled_id (chars_of path) with
  | Some id => (true, setEquipmentEnabled model_ id value)
  | None => (false, model_)
  end.

Definition onBoolWrite (path : string) (value : bool) (model_ : M) : M := snd (dispatchEquipmentEnabled path value model_).
End Sink.

(* ------------------------------------------------------------------ *)
(** ** The plant on OPC-UA *)

Section World.
Context {S : Type} `{OS : OpcUaServer S} {G : Type} `{RG : RandomSource G}.

Record OpcWorld := mkOpc { ow_backend : OpcUaBackend S; ow_model : SimulatedModel G }.

Inductive opc_event :=
| OModel (o : model_op)
| OStart (b : boot)
| OStop
| OCall (path : list string)
| OWrite (path : list string) (v : UaValue).

(** What the model delivered to the map since [m]. *)
Definition relay (br : nat) (ob : OpcUaBackend S) (m m' : SimulatedModel G) : OpcWorld :=
  mkOpc (mkBackend (fold_left (on_delivery (ob_map ob)) (inbox br (drop (length (delivered m)) (delivered m'))) (ob_server ob)) (ob_map ob)) m'.

(** An event, run to its end. A start that fails leaves the backend stopped;
    the library refuses the clients of a stopped server, calls of what is no
    method and writes the node does not take. *)
Definition opc_step (br : nat) (w : OpcWorld) (e : opc_event) : outcome OpcWorld :=
  let ob := ow_backend w in
  match e with
  | OModel o => m ← op_apply o (ow_model w); Ret (relay br ob (ow_model w) m)
  | OStart b => match backend_start br b ob (ow_model w) with Ret (ob, m) => Ret (mkOpc ob m) | Throw _ => Ret w | Undef => Undef end
  | OStop => Ret (mkOpc (backend_stop ob) (ow_model w))
  | OCall path =>
      if negb (isRunning (ob_server ob)) then Ret w
      else match browse (ob_server ob) path ≫= methodCallbackShim with
           | Some name => Ret (relay br ob (ow_model w) (onCommand name (ow_model w)))
           | None => Ret w
           end
  | OWrite path v =>
      if negb (isRunning (ob_server ob)) then Ret w
      else match clientWrite path v (ob_server ob) with
           | None => Ret w
           | Some server =>
               let ob' := mkBackend server (ob_map ob) in
               match browse (ob_server ob) path ≫= fun n => boolWriteCallbackShim n v with
               | Some (path, b) => Ret (relay br ob' (ow_model w) (onBoolWrite path b (ow_model w)))
               | None => Ret (mkOpc ob' (ow_model w))
               end
           end
  end.

Fixpoint opc_run (br : nat) (l : list opc_event) (w : OpcWorld) : outcome OpcWorld :=
  match l with
  | [] => Ret w
  | e :: l => w ← opc_step br w e; opc_run br l w
  end.

Definition opc_init (sink : bool) (server : S) (g : G) : OpcWorld := mkOpc (mkBackend server (node_map_init sink)) (model_init g).
End World.

(* ------------------------------------------------------------------ *)
(** ** The schema of the address space *)

Definition p_root : list string := ["Factory"].
Definition p_state : list string := ["Factory"; "State"].
Definition p_lines : list string := ["Factory"; "EquipmentLines"].
Definition p_checks : list string := ["Factory"; "QualityCheckpoints"].
Definition p_work : list string := ["Factory"; "WorkUnit"].
Definition p_commands : list string := ["Factory"; "Commands"].
Definition line_name (id : Z) : string := ("Line" ++ to_string id)%string.
Definition check_name (id : Z) : string := ("Checkpoint" ++ to_string id)%string.
Definition p_line (id : Z) : list string := ["Factory"; "EquipmentLines"; line_name id].
Definition p_check (id : Z) : list string := ["Factory"; "QualityCheckpoints"; check_name id].
Definition command_names : list string := ["StartProduction"; "StopProduction"; "ResetSystem"; "StartCalibration"].

(** The types of the variables: name and a value of the type. *)
Definition line_kinds : list (string * UaValue) := [("Status", UaInt32 0); ("SupplyLevel", UaInt32 0); ("Message", UaString "")].
Definition check_kinds : list (string * UaValue) :=
  [("Name", UaString ""); ("Status", UaInt32 0); ("PassRate", UaFloat (f32_of_Z 100)); ("UnitsInspected", UaInt32 0); ("DefectsFound", UaInt32 0)].
Definition work_kinds : list (string * UaValue) :=
  [("Id", UaString ""); ("ProductId", UaString ""); ("CompletedOperations", UaInt32 0); ("TotalOperations", UaInt32 0)].

(** What may be found under a path; [cmds]: with the control surface. *)
Inductive schema (cmds : bool) : list string -> UaNode -> Prop :=
| sch_folder p : p ∈ [p_root; p_lines; p_checks; p_work] -> schema cmds p UaObject
| sch_state z : schema cmds p_state (plain_variable (UaInt32 z))
| sch_work leaf v0 v : (leaf, v0) ∈ work_kinds -> same_type v0 v = true -> schema cmds (p_work ++ [leaf]) (plain_variable v)
| sch_line id : schema cmds (p_line id) UaObject
| sch_line_leaf id leaf v0 v : (leaf, v0) ∈ line_kinds -> same_type v0 v = true -> schema cmds (p_line id ++ [leaf]) (plain_variable v)
| sch_check id : schema cmds (p_check id) UaObject
| sch_check_leaf id leaf v0 v : (leaf, v0) ∈ check_kinds -> same_type v0 v = true -> schema cmds (p_check id ++ [leaf]) (plain_variable v)
| sch_commands : cmds = true -> schema cmds p_commands UaObject
| sch_method name : cmds = true -> name ∈ command_names -> schema cmds (p_commands ++ [name]) (method_node (p_commands ++ [name]))
| sch_enabled id b : cmds = true -> 0 <= id < 3 -> schema cmds (p_line id ++ ["Enabled"]) (writable_variable (p_line id ++ ["Enabled"]) b).

Definition conforms (cmds : bool) (sp : space) : Prop := forall p n, sp p = Some n -> schema cmds p n.

(** The nodes that are there while the backend runs. *)
Definition statics (cmds : bool) : list (list string) :=
  [p_root; p_state; p_lines; p_checks; p_work] ++ map (fun k => p_work ++ [k.1]) work_kinds ++
  (if cmds then map (fun c => p_commands ++ [c]) command_names ++ map (fun id => p_line id ++ ["Enabled"]) [0; 1; 2] else []).

(** What the nodes of a line, a checkpoint and the work unit show. *)
Definition line_values (e : EquipmentStatus) : list (string * UaValue) :=
  [("Status", UaInt32 (eq_status e)); ("SupplyLevel", UaInt32 (supplyLevel e)); ("Message", UaString (c_str (eq_message e)))].
Definition check_values (q : QualityCheckpoint) : list (string * UaValue) :=
  [("Name", UaString (c_str (qc_name q))); ("Status", UaInt32 (qc_status q)); ("PassRate", UaFloat (passRate q));
   ("UnitsInspected", UaInt32 (unitsInspected q)); ("DefectsFound", UaInt32 (defectsFound q))].
Definition work_values (w : WorkUnit) : list (string * UaValue) :=
  [("Id", UaString (c_str (workUnitId w))); ("ProductId", UaString (c_str (productId w)));
   ("CompletedOperations", UaInt32 (completedOperations w)); ("TotalOperations", UaInt32 (totalOperations w))].

Definition shows (sp : space) (base : list string) (kvs : list (string * UaValue)) : Prop :=
  Forall (fun kv => sp (base ++ [kv.1]) = Some (plain_variable kv.2)) kvs.

(** A client browsing the server reads what the model holds. *)
Record published {G} (sp : space) (m : SimulatedModel G) : Prop := {
  pb_state : sp p_state = Some (plain_variable (UaInt32 (state_code (getState m))));
  pb_work : shows sp p_work (work_values (currentWorkUnit_ m));
  pb_lines : forall id e, sm_get id (equipmentStatuses_ m) = Some e -> shows sp (p_line id) (line_values e);
  pb_checks : forall id q, sm_get id (qualityCheckpoints_ m) = Some q -> shows sp (p_check id) (check_values q);
}.

(* ------------------------------------------------------------------ *)
(** ** Changes of an address space *)

Inductive space_op := SAdd (p : list string) (n : UaNode) | SWrite (p : list string) (v : UaValue).
Definition op_path (o : space_op) : list string := match o with SAdd p _ | SWrite p _ => p end.
Definition space_step (sp : space) (o : space_op) : space :=
  match o with SAdd p n => spec_add p n sp | SWrite p v => spec_write p v sp end.
Definition run_ops (l : list space_op) (sp : space) : space := fold_left space_step l sp.

Definition space_eq : relation space := pointwise_relation _ eq.
#[export] Instance space_eq_equiv : Equivalence space_eq.
Proof. unfold space_eq. apply _. Qed.
#[export] Instance space_step_proper : Proper (space_eq ==> eq ==> space_eq) space_step.
Proof.
  intros sp sp' E o o' <- q. destruct o as [p n|p v]; cbn; unfold spec_add, spec_write, can_add; rewrite !(E _); reflexivity.
Qed.
Lemma run_ops_eq l : forall sp sp', space_eq sp sp' -> space_eq (run_ops l sp) (run_ops l sp').
Proof. induction l as [|o l IH]; intros sp sp' E; [exact E|]. apply IH. rewrite E. reflexivity. Qed.

Lemma step_other sp o q : op_path o <> q -> space_step sp o q = sp q.
Proof. intros Hq. destruct o; cbn in *; unfold spec_add, spec_write; rewrite decide_False by congruence; reflexivity. Qed.
Lemma ops_other l : forall sp q, Forall (fun o => op_path o <> q) l -> run_ops l sp q = sp q.
Proof.
  induction l as [|o l IH]; intros sp q H; [reflexivity|]. apply Forall_cons in H as [H1 H2]. cbn. unfold run_ops in IH.
  rewrite IH by exact H2. apply step_other, H1.
Qed.

Lemma step_present sp o q : is_Some (sp q) -> is_Some (space_step sp o q).
Proof.
  intros H. destruct o as [p n|p v]; cbn; unfold spec_add, spec_write; case_decide as D; try exact H; subst q.
  - case_match; eauto.
  - destruct (sp p ≫= written v); eauto.
Qed.
Lemma ops_present l : forall sp q, is_Some (sp q) -> is_Some (run_ops l sp q).
Proof. induction l as [|o l IH]; intros sp q H; [exact H|]. apply IH, step_present, H. Qed.

Section Conform.
Context (cmds : bool).

(** An operation of the node map keeps the schema. *)
Definition op_conforms (o : space_op) : Prop :=
  match o with SAdd p n => schema cmds p n | SWrite _ _ => True end.

Lemma plain_written v v0 n : written v (plain_variable v0) = Some n -> same_type v0 v = true /\ n = plain_variable v.
Proof. unfold plain_variable. cbn. case_match; [intros [= <-]; auto|discriminate]. Qed.
Lemma same_type_trans u v w : same_type u v = true -> same_type v w = true -> same_type u w = true.
Proof. destruct u, v, w; cbn; congruence. Qed.

Lemma same_type_refl v : same_type v v = true.
Proof. destruct v; reflexivity. Qed.

Lemma schema_written p n v n' : schema cmds p n -> written v n = Some n' -> schema cmds p n'.
Proof.
  intros H E. destruct H; try discriminate E.
  1-4: apply plain_written in E as [Et ->].
  - destruct v; try discriminate. constructor.
  - eapply sch_work; eauto using same_type_trans.
  - eapply sch_line_leaf; eauto using same_type_trans.
  - eapply sch_check_leaf; eauto using same_type_trans.
  - unfold writable_variable in E. cbn in E. destruct v; try discriminate. injection E as <-. apply sch_enabled; assumption.
Qed.

Lemma step_conforms sp o : conforms cmds sp -> op_conforms o -> conforms cmds (space_step sp o).
Proof.
  intros C Ho p n. destruct o as [q k|q v]; cbn in *; unfold spec_add, spec_write; case_decide as D; [|apply C| |apply C].
  - subst p. case_match; [intros [= <-]; exact Ho|apply C].
  - subst p. destruct (sp q) as [n0|] eqn:E; [|discriminate]. cbn. destruct (written v n0) as [n1|] eqn:E1.
    + intros [= <-]. eapply schema_written; eauto.
    + intros [= <-]. apply C, E.
Qed.
Lemma ops_conform l : forall sp, conforms cmds sp -> Forall op_conforms l -> conforms cmds (run_ops l sp).
Proof. induction l as [|o l IH]; intros sp C H; [exact C|]. apply Forall_cons in H as [H1 H2]. apply IH; [apply step_conforms|]; assumption. Qed.
End Conform.

(** The schema determines what is under a path up to its value. *)
Lemma not_folder p : p ∈ [p_root; p_lines; p_checks; p_work] -> (length p <= 2)%nat.
Proof. rewrite !elem_of_cons, elem_of_nil. intros [->|[->|[->|[->|[]]]]]; cbn; lia. Qed.

Ltac schema_inv H :=
  inversion H; subst;
  try match goal with F : _ ∈ [p_root; p_lines; p_checks; p_work] |- _ => apply not_folder in F; cbn in F; lia end;
  try discriminate.

Lemma line_object cmds id n : schema cmds (p_line id) n -> n = UaObject.
Proof. intros H. schema_inv H. reflexivity. Qed.
Lemma check_object cmds id n : schema cmds (p_check id) n -> n = UaObject.
Proof. intros H. schema_inv H. reflexivity. Qed.

Lemma folder_object cmds p n : p ∈ [p_root; p_lines; p_checks; p_work] -> schema cmds p n -> n = UaObject.
Proof.
  intros Hp H. pose proof (not_folder p Hp). inversion H; subst; try reflexivity; cbn in *; try lia.
  rewrite !elem_of_cons, elem_of_nil in Hp. destruct Hp as [|[|[|[|[]]]]]; discriminate.
Qed.

(** The variables of one base: each name has its type. *)
Definition kind_of_leaf (kinds : list (string * UaValue)) (leaf : string) (n : UaNode) : Prop :=
  forall v0, (leaf, v0) ∈ kinds -> exists v, n = plain_variable v /\ same_type v0 v = true.

Lemma kinds_agree (kinds : list (string * UaValue)) leaf v0 v1 :
  NoDup (map fst kinds) -> (leaf, v0) ∈ kinds -> (leaf, v1) ∈ kinds -> v0 = v1.
Proof.
  intros N H0 H1. apply list_elem_of_lookup in H0 as [i Hi]. apply list_elem_of_lookup in H1 as [j Hj].
  assert (i = j) as ->.
  { eapply NoDup_lookup; [exact N| |]; change (map fst kinds) with (fst <$> kinds); rewrite list_lookup_fmap; [rewrite Hi|rewrite Hj]; reflexivity. }
  congruence.
Qed.

(** [vm_decide]: a decidable goal, computed. *)
Ltac vm_decide := match goal with |- ?P => apply (@bool_decide_unpack P ltac:(apply _)); vm_compute; exact I end.

Lemma line_leaf cmds id leaf n : schema cmds (p_line id ++ [leaf]) n -> kind_of_leaf line_kinds leaf n.
Proof.
  intros H v0 H0. schema_inv H; [eexists; split; [reflexivity|erewrite (kinds_agree line_kinds _ v0); [eassumption|vm_decide|eassumption..]]|].
  unfold line_kinds in H0. rewrite !elem_of_cons, elem_of_nil in H0. destruct H0 as [|[|[|[]]]]; discriminate.
Qed.
Lemma check_leaf cmds id leaf n : schema cmds (p_check id ++ [leaf]) n -> kind_of_leaf check_kinds leaf n.
Proof.
  intros H v0 H0. schema_inv H. eexists. split; [reflexivity|]. erewrite (kinds_agree check_kinds _ v0); [eassumption|vm_decide|eassumption..].
Qed.
Lemma work_leaf cmds leaf n : schema cmds (p_work ++ [leaf]) n -> kind_of_leaf work_kinds leaf n.
Proof.
  intros H v0 H0. schema_inv H. eexists. split; [reflexivity|]. erewrite (kinds_agree work_kinds _ v0); [eassumption|vm_decide|eassumption..].
Qed.

(* ------------------------------------------------------------------ *)
(** ** Publishing an entity *)

Definition entity_adds (base : list string) (kinds : list (string * UaValue)) : list space_op :=
  SAdd base UaObject :: map (fun k => SAdd (base ++ [k.1]) (plain_variable k.2)) kinds.
Definition entity_writes (base : list string) (values : list (string * UaValue)) : list space_op :=
  map (fun kv => SWrite (base ++ [kv.1]) kv.2) values.

Lemma add_present p n sp : is_object (sp (parent_of p)) = true -> is_Some (spec_add p n sp p).
Proof.
  intros Hp. unfold spec_add, can_add. rewrite decide_True by reflexivity. rewrite Hp, orb_true_r, andb_true_r.
  case_bool_decide as D; [eauto|]. destruct (sp p); [eauto|congruence].
Qed.

Lemma is_object_some n : n = Some UaObject -> is_object n = true.
Proof. intros ->. reflexivity. Qed.

Section Entity.
Context (cmds : bool) (base : list string) (kinds : list (string * UaValue)).
Hypothesis base_object : forall n, schema cmds base n -> n = UaObject.
Hypothesis base_schema : schema cmds base UaObject.
Hypothesis leaf_kind : forall leaf n, schema cmds (base ++ [leaf]) n -> kind_of_leaf kinds leaf n.
Hypothesis leaf_schema : Forall (fun k => schema cmds (base ++ [k.1]) (plain_variable k.2)) kinds.

(** A value of one of the variables. *)
Definition typed (kv : string * UaValue) : Prop := exists v0, (kv.1, v0) ∈ kinds /\ same_type v0 kv.2 = true.

Lemma writes_conform values : Forall (op_conforms cmds) (entity_writes base values).
Proof. unfold entity_writes. apply Forall_map, Forall_true. intros; exact I. Qed.
Lemma adds_conform : Forall (op_conforms cmds) (entity_adds base kinds).
Proof. constructor; [exact base_schema|]. apply Forall_map. exact leaf_schema. Qed.

Lemma writes_settle values : forall sp, conforms cmds sp -> NoDup (map fst values) ->
  Forall (fun kv => is_Some (sp (base ++ [kv.1])) /\ typed kv) values ->
  shows (run_ops (entity_writes base values) sp) base values.
Proof.
  induction values as [|[leaf v] values IH]; intros sp C N H; [constructor|].
  cbn [map fst] in N. apply NoDup_cons in N as [N1 N2]. apply Forall_cons in H as [[[n Hn] (v0 & H0 & Ht)] H].
  cbn [fst snd] in *. set (sp' := space_step sp (SWrite (base ++ [leaf]) v)).
  assert (E : sp' (base ++ [leaf]) = Some (plain_variable v)).
  { cbn. unfold spec_write. rewrite decide_True by reflexivity. rewrite Hn.
    destruct (leaf_kind leaf n (C _ _ Hn) v0 H0) as (v1 & -> & Ht1). cbn.
    replace (same_type v1 v) with true by (destruct v0, v1, v; cbn in *; congruence). reflexivity. }
  change (run_ops (entity_writes base ((leaf, v) :: values)) sp) with (run_ops (entity_writes base values) sp').
  constructor.
  - rewrite ops_other; [exact E|]. unfold entity_writes. apply Forall_map, Forall_forall. intros [l w] Hl Eq. cbn in Eq.
    apply app_inj_tail in Eq as [_ ->]. apply N1, (list_elem_of_fmap_2 fst _ _ Hl).
  - apply IH; [apply step_conforms; [exact C|exact I]|exact N2|]. eapply Forall_impl; [exact H|]. intros kv [Hp Hty].
    split; [apply step_present, Hp|exact Hty].
Qed.

Lemma adds_present sp : conforms cmds sp -> is_object (sp (parent_of base)) = true ->
  Forall (fun k => is_Some (run_ops (entity_adds base kinds) sp (base ++ [k.1]))) kinds.
Proof.
  intros C Hp. set (sp' := space_step sp (SAdd base UaObject)).
  assert (C' : conforms cmds sp') by (apply step_conforms; [exact C|exact base_schema]).
  assert (B' : is_Some (sp' base)) by (apply add_present, Hp).
  change (run_ops (entity_adds base kinds) sp) with (run_ops (map (fun k => SAdd (base ++ [k.1]) (plain_variable k.2)) kinds) sp').
  clearbody sp'. revert leaf_schema. clear leaf_kind. revert sp' C' B'.
  generalize kinds. intros l. induction l as [|k l IH]; intros sp' C' B' L; [constructor|]. apply Forall_cons in L as [L1 L2].
  cbn [map]. change (run_ops (SAdd ?p ?n :: ?r) sp') with (run_ops r (space_step sp' (SAdd p n))).
  assert (E : sp' base = Some UaObject). { destruct B' as [n Hn]. rewrite Hn. f_equal. apply base_object, C', Hn. }
  constructor.
  - apply ops_present. apply add_present. unfold parent_of. rewrite removelast_last. apply is_object_some, E.
  - apply IH; [apply step_conforms; [exact C'|exact L1]|apply step_present, B'|exact L2].
Qed.

(** Publishing: afterwards the variables show the values, and every other path
    is as before. *)
Lemma entity_shows values sp :
  conforms cmds sp -> is_object (sp (parent_of base)) = true -> NoDup (map fst values) -> Forall typed values ->
  (forall leaf, leaf ∈ map fst values -> leaf ∈ map fst kinds) ->
  shows (run_ops (entity_adds base kinds ++ entity_writes base values) sp) base values.
Proof.
  intros C Hp N Ht Hs. unfold run_ops. rewrite fold_left_app. apply writes_settle.
  - apply ops_conform; [exact C|exact adds_conform].
  - exact N.
  - rewrite Forall_forall in Ht |- *. intros kv Hkv. split; [|apply Ht, Hkv].
    pose proof (adds_present sp C Hp) as A. rewrite Forall_forall in A.
    destruct (list_elem_of_fmap_1 fst _ _ (Hs kv.1 (list_elem_of_fmap_2 fst _ _ Hkv))) as (k & Ek & Hk). rewrite Ek. apply A, Hk.
Qed.
End Entity.

Definition equipment_ops (e : EquipmentStatus) : list space_op :=
  entity_adds (p_line (equipmentId e)) line_kinds ++ entity_writes (p_line (equipmentId e)) (line_values e).
Definition checkpoint_ops (q : QualityCheckpoint) : list space_op :=
  entity_adds (p_check (checkpointId q)) check_kinds ++ entity_writes (p_check (checkpointId q)) (check_values q).
Definition work_ops (w : WorkUnit) : list space_op := entity_writes p_work (work_values w).
Definition state_ops (s : SystemState) : list space_op := [SWrite p_state (UaInt32 (state_code s))].

(** The folders and static variables are there. *)
Definition skeleton (cmds : bool) (sp : space) : Prop := Forall (fun p => is_Some (sp p)) (statics cmds).

Lemma skeleton_ops cmds l sp : skeleton cmds sp -> skeleton cmds (run_ops l sp).
Proof. intros H. eapply Forall_impl; [exact H|]. intros p. apply ops_present. Qed.

Lemma skeleton_at cmds sp p : skeleton cmds sp -> p ∈ statics cmds -> is_Some (sp p).
Proof. unfold skeleton. rewrite Forall_forall. auto. Qed.

Lemma skeleton_folder cmds sp p : conforms cmds sp -> skeleton cmds sp -> p ∈ [p_root; p_lines; p_checks; p_work] -> is_object (sp p) = true.
Proof.
  intros C K Hp. destruct (skeleton_at cmds sp p K) as [n Hn].
  - rewrite !elem_of_cons, elem_of_nil in Hp. unfold statics. cbn [app]. rewrite !elem_of_cons. tauto.
  - rewrite Hn, (folder_object cmds p n Hp (C _ _ Hn)). reflexivity.
Qed.

(** [typed_values]: the listed values have the listed types. *)
Ltac typed_values :=
  repeat (apply Forall_cons; split; [unfold typed; cbn [fst snd]; eexists; split;
    [unfold line_kinds, check_kinds, work_kinds; rewrite !elem_of_cons; eauto 8|reflexivity]|]); apply Forall_nil; exact I.

Section Entities.
Context (cmds : bool).

Lemma equipment_shows e sp : conforms cmds sp -> skeleton cmds sp -> shows (run_ops (equipment_ops e) sp) (p_line (equipmentId e)) (line_values e).
Proof.
  intros C K. apply (entity_shows cmds); try exact C.
  - apply line_object.
  - apply sch_line.
  - apply line_leaf.
  - apply Forall_forall. intros [leaf v] Hk. apply (sch_line_leaf cmds _ leaf v v Hk), same_type_refl.
  - apply (skeleton_folder cmds); [exact C|exact K|]. rewrite !elem_of_cons. auto.
  - vm_decide.
  - typed_values.
  - auto.
Qed.

Lemma checkpoint_shows q sp : conforms cmds sp -> skeleton cmds sp -> shows (run_ops (checkpoint_ops q) sp) (p_check (checkpointId q)) (check_values q).
Proof.
  intros C K. apply (entity_shows cmds); try exact C.
  - apply check_object.
  - apply sch_check.
  - apply check_leaf.
  - apply Forall_forall. intros [leaf v] Hk. apply (sch_check_leaf cmds _ leaf v v Hk), same_type_refl.
  - apply (skeleton_folder cmds); [exact C|exact K|]. rewrite !elem_of_cons. auto.
  - vm_decide.
  - typed_values.
  - auto.
Qed.

Lemma work_shows w sp : conforms cmds sp -> skeleton cmds sp -> shows (run_ops (work_ops w) sp) p_work (work_values w).
Proof.
  intros C K. apply (writes_settle cmds p_work work_kinds); try exact C.
  - apply work_leaf.
  - vm_decide.
  - assert (T : Forall (typed work_kinds) (work_values w)) by typed_values.
    eapply Forall_impl; [apply Forall_and; split; [|exact T]|intros kv [H1 H2]; exact (conj H1 H2)].
    repeat (apply Forall_cons; split; [apply (skeleton_at cmds _ _ K); unfold statics; cbn; rewrite !elem_of_cons; auto 12|]). apply Forall_nil. exact I.
Qed.

Lemma state_at n : schema cmds p_state n -> exists z, n = plain_variable (UaInt32 z).
Proof.
  intros H. inversion H as [p Hf| | | | | | | | |]; subst; eauto; try discriminate. rewrite !elem_of_cons, elem_of_nil in Hf. destruct Hf as [|[|[|[|[]]]]]; discriminate.
Qed.

Lemma state_shows s sp : conforms cmds sp -> skeleton cmds sp -> run_ops (state_ops s) sp p_state = Some (plain_variable (UaInt32 (state_code s))).
Proof.
  intros C K. destruct (skeleton_at cmds sp p_state K) as [n Hn]; [unfold statics; cbn; rewrite !elem_of_cons; auto|].
  cbn. unfold spec_write. rewrite decide_True by reflexivity. rewrite Hn. destruct (state_at n (C _ _ Hn)) as [z ->]. reflexivity.
Qed.
End Entities.

(* ------------------------------------------------------------------ *)
(** ** The node map on a server *)

Lemma digits_seg pre id : seg_ok pre = true -> 0 <= id -> seg_ok (pre ++ to_string id)%string = true.
Proof.
  intros Hpre Hid. apply seg_ok_parts in Hpre as (H1 & H2 & H3). destruct (pretty_digits id Hid) as (ds & E & Hd & _).
  assert (D : forall c, isdigit c = false -> Forall (fun d => c <> d) ds).
  { intros c Hc. eapply Forall_impl; [exact Hd|]. intros d Hdd <-. cbv beta in Hdd. congruence. }
  assert (N : forall c, isdigit c = false -> no_char c pre = true -> no_char c (pre ++ to_string id)%string = true).
  { intros c Hc Hn. apply no_char_spec. rewrite chars_of_app. unfold to_string. rewrite E. apply Forall_app. split; [apply no_char_spec, Hn|apply D, Hc]. }
  unfold seg_ok. rewrite !N by (assumption || reflexivity). rewrite bool_decide_eq_true_2; [reflexivity|].
  destruct pre; [congruence|discriminate].
Qed.

Lemma p_line_ok id leaf : 0 <= id -> seg_ok leaf = true -> path_ok (p_line id) /\ path_ok (p_line id ++ [leaf]).
Proof.
  intros Hid Hl. pose proof (digits_seg "Line" id eq_refl Hid).
  split; (split; [discriminate|]); repeat (apply Forall_cons; split; [assumption || reflexivity|]); apply Forall_nil; exact I.
Qed.
Lemma p_check_ok id leaf : 0 <= id -> seg_ok leaf = true -> path_ok (p_check id) /\ path_ok (p_check id ++ [leaf]).
Proof.
  intros Hid Hl. pose proof (digits_seg "Checkpoint" id eq_refl Hid).
  split; (split; [discriminate|]); repeat (apply Forall_cons; split; [assumption || reflexivity|]); apply Forall_nil; exact I.
Qed.

Section Tracking.
Context {S : Type} `{OL : OpcUaServerLaws S}.

(** A running server whose clients see the space. *)
Definition at_space (s : S) (sp : space) : Prop := server_ok s /\ isRunning s = true /\ space_eq (browse s) sp.

(** The part of the program does [l] to the address space. *)
Definition tracks (f : S -> S) (l : list space_op) : Prop := forall s sp, at_space s sp -> at_space (f s) (run_ops l sp).

Lemma at_add op p n s sp : adds op p n -> at_space s sp -> at_space (ignoring op s) (space_step sp (SAdd p n)).
Proof.
  intros A (Hs & Hr & E). destruct (A s Hs Hr) as (A1 & A2 & _ & A4). split; [exact A1|]. split; [exact A2|].
  rewrite <- E. exact A4.
Qed.
Lemma at_write op p v s sp : writes op p v -> at_space s sp -> at_space (ignoring op s) (space_step sp (SWrite p v)).
Proof.
  intros A (Hs & Hr & E). destruct (A s Hs Hr) as (A1 & A2 & _ & A4). split; [exact A1|]. split; [exact A2|].
  rewrite <- E. exact A4.
Qed.
Lemma run_ops_app l1 l2 sp : run_ops (l1 ++ l2) sp = run_ops l2 (run_ops l1 sp).
Proof. apply fold_left_app. Qed.

(** [lit]: a literal path is well formed. *)
Lemma lit_ok p : bool_decide (p <> []) && forallb seg_ok p = true -> path_ok p.
Proof. rewrite andb_true_iff, bool_decide_eq_true, forallb_forall. intros [H1 H2]. split; [exact H1|]. apply Forall_forall. intros x Hx. apply H2, list_elem_of_In, Hx. Qed.
Ltac lit := apply lit_ok; reflexivity.

(** [wr L p], [ad L p]: the last operation, by the law [L] of its method at the
    path [p]. *)
Ltac wr L p := apply (at_write _ p); [exact (L p _ ltac:(auto))|].
Ltac ad L p := apply (at_add _ p); [exact (L p _ ltac:(auto))|].
Ltac ad0 L p := apply (at_add _ p); [exact (L p ltac:(auto))|].

Lemma publish_state_tracks s : tracks (publish_state s) (state_ops s).
Proof. intros x sp Hx. pose proof (lit_ok p_state eq_refl). wr writeInt32_law p_state. exact Hx. Qed.

Lemma work_path_ok leaf : seg_ok leaf = true -> path_ok (p_work ++ [leaf]).
Proof. intros Hl. apply lit_ok. cbn. rewrite Hl. reflexivity. Qed.

Lemma publish_work_tracks w : tracks (publish_work w) (work_ops w).
Proof.
  intros s sp Hs. pose proof work_path_ok. unfold publish_work, work_ops, entity_writes, work_values. cbn [map run_ops fold_left fst snd].
  wr writeInt32_law (p_work ++ ["TotalOperations"]). wr writeInt32_law (p_work ++ ["CompletedOperations"]).
  wr writeString_law (p_work ++ ["ProductId"]). wr writeString_law (p_work ++ ["Id"]). exact Hs.
Qed.

Lemma publish_equipment_tracks e : 0 <= equipmentId e -> tracks (publish_equipment e) (equipment_ops e).
Proof.
  intros Hid s sp Hs. set (p := p_line (equipmentId e)).
  assert (P : path_ok p) by (apply (p_line_ok _ "Status" Hid eq_refl)).
  assert (L : forall leaf, seg_ok leaf = true -> path_ok (p ++ [leaf])) by (intros leaf Hl; apply (p_line_ok _ leaf Hid Hl)).
  unfold equipment_ops, entity_adds, entity_writes, publish_equipment, ensureEquipmentSubtree, line_values, line_kinds. fold p.
  cbn [map app run_ops fold_left fst snd].
  wr writeString_law (p ++ ["Message"]). wr writeInt32_law (p ++ ["SupplyLevel"]). wr writeInt32_law (p ++ ["Status"]).
  ad addString_law (p ++ ["Message"]). ad addInt32_law (p ++ ["SupplyLevel"]). ad addInt32_law (p ++ ["Status"]).
  ad0 addObject_law p. exact Hs.
Qed.

Lemma publish_checkpoint_tracks q : 0 <= checkpointId q -> tracks (publish_checkpoint q) (checkpoint_ops q).
Proof.
  intros Hid s sp Hs. set (p := p_check (checkpointId q)).
  assert (P : path_ok p) by (apply (p_check_ok _ "Status" Hid eq_refl)).
  assert (L : forall leaf, seg_ok leaf = true -> path_ok (p ++ [leaf])) by (intros leaf Hl; apply (p_check_ok _ leaf Hid Hl)).
  unfold checkpoint_ops, entity_adds, entity_writes, publish_checkpoint, ensureCheckpointSubtree, check_values, check_kinds. fold p.
  cbn [map app run_ops fold_left fst snd].
  wr writeInt32_law (p ++ ["DefectsFound"]). wr writeInt32_law (p ++ ["UnitsInspected"]). wr writeFloat_law (p ++ ["PassRate"]).
  wr writeInt32_law (p ++ ["Status"]). wr writeString_law (p ++ ["Name"]).
  ad addInt32_law (p ++ ["DefectsFound"]). ad addInt32_law (p ++ ["UnitsInspected"]). ad addFloat_law (p ++ ["PassRate"]).
  ad addInt32_law (p ++ ["Status"]). ad addString_law (p ++ ["Name"]). ad0 addObject_law p. exact Hs.
Qed.

(** Registration. *)
Definition command_ops : list space_op :=
  SAdd p_commands UaObject :: map (fun c => SAdd (p_commands ++ [c]) (method_node (p_commands ++ [c]))) command_names ++
  flat_map (fun id => [SAdd (p_line id) UaObject; SAdd (p_line id ++ ["Enabled"]) (writable_variable (p_line id ++ ["Enabled"]) true)])
    (seqZ 0 kWritableLines).
Definition static_ops : list space_op :=
  [SAdd p_root UaObject; SAdd p_state (plain_variable (UaInt32 0)); SAdd p_lines UaObject; SAdd p_checks UaObject; SAdd p_work UaObject] ++
  map (fun k => SAdd (p_work ++ [k.1]) (plain_variable k.2)) work_kinds.
Definition register_ops (cmds : bool) : list space_op := static_ops ++ (if cmds then command_ops else []).

Lemma tracks_fold (f : S -> Z -> S) ops ids :
  Forall (fun id => tracks (fun s => f s id) (ops id)) ids -> tracks (fold_left f ids) (flat_map ops ids).
Proof.
  induction 1 as [|id ids H1 H2 IH]; [intros s sp Hs; exact Hs|]. intros s sp Hs. cbn [flat_map fold_left]. rewrite run_ops_app. apply IH, H1, Hs.
Qed.

Lemma command_path_ok leaf : seg_ok leaf = true -> path_ok (p_commands ++ [leaf]).
Proof. intros Hl. apply lit_ok. cbn. rewrite Hl. reflexivity. Qed.

Lemma commands_track : tracks registerCommandSurface command_ops.
Proof.
  intros s sp Hs. pose proof (lit_ok p_commands eq_refl). pose proof command_path_ok.
  unfold registerCommandSurface, command_ops, command_names. rewrite app_comm_cons, run_ops_app. apply tracks_fold.
  - apply Forall_forall. intros id Hid s' sp' Hs'. apply elem_of_seqZ in Hid. set (p := p_line id).
    destruct (p_line_ok id "Enabled") as [P L]; [lia|reflexivity|]. fold p in P, L. unfold registerEnabled. cbn [run_ops fold_left].
    ad addWritable_law (p ++ ["Enabled"]). ad0 addObject_law p. exact Hs'.
  - cbn [map run_ops fold_left].
    ad0 addMethod_law (p_commands ++ ["StartCalibration"]). ad0 addMethod_law (p_commands ++ ["ResetSystem"]).
    ad0 addMethod_law (p_commands ++ ["StopProduction"]). ad0 addMethod_law (p_commands ++ ["StartProduction"]).
    ad0 addObject_law p_commands. exact Hs.
Qed.

Lemma register_tracks fm : tracks (registerNodes fm) (register_ops (fm_sink fm)).
Proof.
  intros s sp Hs. unfold registerNodes, register_ops. rewrite run_ops_app.
  assert (H9 : forall s', at_space s' (run_ops static_ops sp) ->
    at_space (if fm_sink fm then registerCommandSurface s' else s') (run_ops (if fm_sink fm then command_ops else []) (run_ops static_ops sp))).
  { intros s' Hs'. destruct (fm_sink fm); [apply commands_track, Hs'|exact Hs']. }
  apply H9. unfold static_ops, work_kinds. cbn [map app run_ops fold_left fst snd].
  pose proof work_path_ok. pose proof (lit_ok p_root eq_refl). pose proof (lit_ok p_state eq_refl). pose proof (lit_ok p_lines eq_refl).
  pose proof (lit_ok p_checks eq_refl). pose proof (lit_ok p_work eq_refl).
  ad addInt32_law (p_work ++ ["TotalOperations"]). ad addInt32_law (p_work ++ ["CompletedOperations"]).
  ad addString_law (p_work ++ ["ProductId"]). ad addString_law (p_work ++ ["Id"]).
  ad0 addObject_law p_work. ad0 addObject_law p_checks. ad0 addObject_law p_lines. ad addInt32_law p_state. ad0 addObject_law p_root. exact Hs.
Qed.
End Tracking.

(* ------------------------------------------------------------------ *)
(** ** What the clients see *)

Lemma line_name_inj i j : line_name i = line_name j -> i = j.
Proof. unfold line_name, to_string. intros E. apply (inj (String.append "Line")), (inj pretty) in E. exact E. Qed.
Lemma check_name_inj i j : check_name i = check_name j -> i = j.
Proof. unfold check_name, to_string. intros E. apply (inj (String.append "Checkpoint")), (inj pretty) in E. exact E. Qed.

Lemma entity_others base kinds values q :
  q <> base -> (forall leaf, q <> base ++ [leaf]) -> Forall (fun o => op_path o <> q) (entity_adds base kinds ++ entity_writes base values).
Proof.
  intros Hb Hl. apply Forall_app. split; [apply Forall_cons; split; [cbn; congruence|]|]; apply Forall_map, Forall_forall; cbn; intros x _ E; exact (Hl _ (eq_sym E)).
Qed.

(** The operations a notification makes the map do. *)
Definition delivery_ops (d : delivery) : list space_op :=
  match d with
  | DState _ s => state_ops s
  | DEquipment _ e => equipment_ops e
  | DQuality _ q => checkpoint_ops q
  | DWorkUnit _ w => work_ops w
  | DActuator _ _ => []
  end.

Lemma delivery_conforms cmds d : Forall (op_conforms cmds) (delivery_ops d).
Proof.
  destruct d as [sub e|sub a|sub q|sub w|sub s]; cbn [delivery_ops]; [|apply Forall_nil; exact I| |apply writes_conform|apply Forall_singleton; exact I].
  - apply Forall_app. split; [|apply writes_conform]. apply adds_conform; [apply sch_line|].
    apply Forall_forall. intros [leaf v] Hk. apply (sch_line_leaf cmds _ leaf v v Hk), same_type_refl.
  - apply Forall_app. split; [|apply writes_conform]. apply adds_conform; [apply sch_check|].
    apply Forall_forall. intros [leaf v] Hk. apply (sch_check_leaf cmds _ leaf v v Hk), same_type_refl.
Qed.

Lemma line_untouched id leaf d : ~ about_line id d -> Forall (fun o => op_path o <> p_line id ++ [leaf]) (delivery_ops d).
Proof.
  intros H. destruct d as [sub e|sub a|sub q|sub w|sub s]; cbn [delivery_ops about_line] in *.
  - apply entity_others; [discriminate|]. intros l E. apply H. symmetry. apply line_name_inj. exact (f_equal (fun p => List.nth 2 p ""%string) E).
  - constructor.
  - apply entity_others; [discriminate|]. intros l. discriminate.
  - repeat constructor; discriminate.
  - repeat constructor; discriminate.
Qed.
Lemma check_untouched id leaf d : ~ about_checkpoint id d -> Forall (fun o => op_path o <> p_check id ++ [leaf]) (delivery_ops d).
Proof.
  intros H. destruct d as [sub e|sub a|sub q|sub w|sub s]; cbn [delivery_ops about_checkpoint] in *.
  - apply entity_others; [discriminate|]. intros l. discriminate.
  - constructor.
  - apply entity_others; [discriminate|]. intros l E. apply H. symmetry. apply check_name_inj. exact (f_equal (fun p => List.nth 2 p ""%string) E).
  - repeat constructor; discriminate.
  - repeat constructor; discriminate.
Qed.
Lemma work_untouched leaf d : ~ about_work d -> Forall (fun o => op_path o <> p_work ++ [leaf]) (delivery_ops d).
Proof.
  intros H. destruct d as [sub e|sub a|sub q|sub w|sub s]; cbn [delivery_ops about_work] in *; try (elim H; exact I).
  - apply entity_others; [discriminate|]. intros l. discriminate.
  - constructor.
  - apply entity_others; [discriminate|]. intros l. discriminate.
  - repeat constructor; discriminate.
Qed.
Lemma state_untouched d : ~ about_state d -> Forall (fun o => op_path o <> p_state) (delivery_ops d).
Proof.
  intros H. destruct d as [sub e|sub a|sub q|sub w|sub s]; cbn [delivery_ops about_state] in *; try (elim H; exact I).
  - apply entity_others; [discriminate|]. intros l. discriminate.
  - constructor.
  - apply entity_others; [discriminate|]. intros l. discriminate.
  - repeat constructor; discriminate.
Qed.

(** What a client reads of some variables. *)
Definition seen (sp : space) (base : list string) (leaves : list string) : list (option UaNode) := map (fun leaf => sp (base ++ [leaf])) leaves.
Definition values_seen (kvs : list (string * UaValue)) : list (option UaNode) := map (fun kv => Some (plain_variable kv.2)) kvs.

Lemma shows_seen sp base kvs : shows sp base kvs <-> seen sp base (map fst kvs) = values_seen kvs.
Proof.
  unfold shows, seen, values_seen. rewrite map_map. induction kvs as [|kv kvs IH]; cbn; [split; [reflexivity|constructor]|].
  rewrite Forall_cons, IH. split; [intros [-> ->]; reflexivity|intros [= -> ->]; auto].
Qed.

Lemma seen_same sp sp' base leaves : (forall leaf, sp' (base ++ [leaf]) = sp (base ++ [leaf])) -> seen sp' base leaves = seen sp base leaves.
Proof. intros E. apply map_ext. exact E. Qed.

Section Plant.
Context {S : Type} `{OL : OpcUaServerLaws S} {G : Type} `{RG : RandomSource G}.
Context (cmds : bool).
Implicit Types m : SimulatedModel G.

(** A running server with the schema's address space. *)
Record served (s : S) : Prop := {
  sv_ok : server_ok s;
  sv_running : isRunning s = true;
  sv_conforms : conforms cmds (browse s);
  sv_skeleton : skeleton cmds (browse s);
}.

Lemma conforms_eq sp sp' : space_eq sp sp' -> conforms cmds sp' -> conforms cmds sp.
Proof. intros E C p n. rewrite (E p). apply C. Qed.
Lemma skeleton_eq sp sp' : space_eq sp sp' -> skeleton cmds sp' -> skeleton cmds sp.
Proof. intros E K. eapply Forall_impl; [exact K|]. intros p. cbv beta. rewrite (E p). auto. Qed.

Lemma at_served s sp : at_space s sp -> conforms cmds sp -> skeleton cmds sp -> served s.
Proof. intros (H1 & H2 & E) C K. split; [exact H1|exact H2|exact (conforms_eq _ _ E C)|exact (skeleton_eq _ _ E K)]. Qed.

Lemma served_at s : served s -> at_space s (browse s).
Proof. intros [H1 H2 _ _]. split; [exact H1|]. split; [exact H2|reflexivity]. Qed.

(** A notification about an entity of the plant. *)
Definition id_ok (d : delivery) : Prop := match d with DEquipment _ e => 0 <= equipmentId e | DQuality _ q => 0 <= checkpointId q | _ => True end.

Lemma on_delivery_tracks fm d s : fm_wired fm = true -> id_ok d -> served s -> at_space (on_delivery fm s d) (run_ops (delivery_ops d) (browse s)).
Proof.
  intros Hw Hd Hs%served_at. unfold on_delivery. rewrite Hw. cbn [negb]. destruct d; cbn [delivery_ops].
  - apply publish_equipment_tracks; assumption.
  - exact Hs.
  - apply publish_checkpoint_tracks; assumption.
  - apply publish_work_tracks, Hs.
  - apply publish_state_tracks, Hs.
Qed.

Lemma on_delivery_served fm d s : fm_wired fm = true -> id_ok d -> served s -> served (on_delivery fm s d).
Proof.
  intros Hw Hd Hs. apply (at_served _ (run_ops (delivery_ops d) (browse s))); [apply on_delivery_tracks; assumption| |apply skeleton_ops, Hs].
  apply ops_conform; [apply Hs|apply delivery_conforms].
Qed.

Lemma current_id n m d : model_ok n m -> plant m -> current m d -> id_ok d.
Proof.
  intros HM P C. destruct d as [|sub a|sub q| |]; cbn in *; auto; apply sm_get_key in C.
  - rewrite (pl_lines _ P), !elem_of_cons, elem_of_nil in C. lia.
  - rewrite (pl_checkpoints _ P), !elem_of_cons, elem_of_nil in C. lia.
Qed.

(** What the map does with the news of an operation: a value that was told or
    was already there is there. *)
Lemma news_published n br m fm s (news : list delivery) :
  model_ok n m -> plant m -> fm_wired fm = true -> served s -> Forall (current m) news ->
  (forall id e, sm_get id (equipmentStatuses_ m) = Some e -> shows (browse s) (p_line id) (line_values e) \/
     exists d, d ∈ news /\ addressee d = br /\ about_line id d) ->
  (forall id q, sm_get id (qualityCheckpoints_ m) = Some q -> shows (browse s) (p_check id) (check_values q) \/
     exists d, d ∈ news /\ addressee d = br /\ about_checkpoint id d) ->
  (shows (browse s) p_work (work_values (currentWorkUnit_ m)) \/ exists d, d ∈ news /\ addressee d = br /\ about_work d) ->
  (browse s p_state = Some (plain_variable (UaInt32 (state_code (getState m)))) \/ exists d, d ∈ news /\ addressee d = br /\ about_state d) ->
  let s' := fold_left (on_delivery fm) (inbox br news) s in served s' /\ published (browse s') m.
Proof.
  intros HM P Hw Hs C Hl Hq Hk Ht. cbv zeta. rewrite Forall_forall in C.
  assert (Hid : forall d, d ∈ news -> id_ok d) by (intros d Hd; exact (current_id n m d HM P (C d Hd))).
  assert (Hsv : forall s d, d ∈ news -> addressee d = br -> served s -> served (on_delivery fm s d)).
  { intros s' d Hd _ Hs'. apply on_delivery_served; auto. }
  assert (Tr : forall s d, d ∈ news -> served s -> space_eq (browse (on_delivery fm s d)) (run_ops (delivery_ops d) (browse s))).
  { intros s' d Hd Hs'. apply (on_delivery_tracks fm d s' Hw (Hid d Hd) Hs'). }
  split; [apply fold_inv; [exact Hs|]; intros s' d [_ Hd]%list_elem_of_filter Hs'; apply on_delivery_served; auto|].
  split; [|apply shows_seen|intros id e He; apply shows_seen|intros id q Hqq; apply shows_seen].
  - apply (watcher_settles (on_delivery fm) served (fun s => browse s p_state) about_state); auto.
    + intros s' d Hd _ Hs' Hab. rewrite (Tr s' d Hd Hs' _). specialize (C d Hd). destruct d; try contradiction. cbn [current delivery_ops] in *. subst.
      apply (state_shows cmds); apply Hs'.
    + intros s' d Hd _ Hs' Hab. rewrite (Tr s' d Hd Hs' _). apply ops_other, state_untouched, Hab.
  - apply (watcher_settles (on_delivery fm) served (fun s => seen (browse s) p_work (map fst (work_values (currentWorkUnit_ m)))) about_work); auto.
    + intros s' d Hd _ Hs' Hab. rewrite (seen_same (run_ops (delivery_ops d) (browse s'))) by (intros leaf; apply (Tr s' d Hd Hs')).
      specialize (C d Hd). destruct d; try contradiction. cbn [current delivery_ops] in *. subst.
      apply shows_seen, (work_shows cmds); apply Hs'.
    + intros s' d Hd _ Hs' Hab. apply seen_same. intros leaf. rewrite (Tr s' d Hd Hs' _). apply ops_other, work_untouched, Hab.
    + rewrite <- shows_seen. exact Hk.
  - apply (watcher_settles (on_delivery fm) served (fun s => seen (browse s) (p_line id) (map fst (line_values e))) (about_line id)); auto.
    + intros s' d Hd _ Hs' Hab. rewrite (seen_same (run_ops (delivery_ops d) (browse s'))) by (intros leaf; apply (Tr s' d Hd Hs')).
      specialize (C d Hd). destruct d; try contradiction. cbn [current delivery_ops about_line] in *. subst id.
      assert (es = e) as -> by congruence. apply shows_seen, (equipment_shows cmds); apply Hs'.
    + intros s' d Hd _ Hs' Hab. apply seen_same. intros leaf. rewrite (Tr s' d Hd Hs' _). apply ops_other, line_untouched, Hab.
    + rewrite <- shows_seen. exact (Hl id e He).
  - apply (watcher_settles (on_delivery fm) served (fun s => seen (browse s) (p_check id) (map fst (check_values q))) (about_checkpoint id)); auto.
    + intros s' d Hd _ Hs' Hab. rewrite (seen_same (run_ops (delivery_ops d) (browse s'))) by (intros leaf; apply (Tr s' d Hd Hs')).
      specialize (C d Hd). destruct d; try contradiction. cbn [current delivery_ops about_checkpoint] in *. subst id.
      assert (cp = q) as -> by congruence. apply shows_seen, (checkpoint_shows cmds); apply Hs'.
    + intros s' d Hd _ Hs' Hab. apply seen_same. intros leaf. rewrite (Tr s' d Hd Hs' _). apply ops_other, check_untouched, Hab.
    + rewrite <- shows_seen. exact (Hq id q Hqq).
Qed.

(** ** The plant between events *)

Definition subscribed4 (br : nat) m : Prop :=
  br ∈ equipmentCallbacks_ (subscribers_ m) /\ br ∈ qualityCallbacks_ (subscribers_ m) /\
  br ∈ workUnitCallbacks_ (subscribers_ m) /\ br ∈ stateCallbacks_ (subscribers_ m).

Lemma subscribed4_grow br m m' : subs_grow (subscribers_ m) (subscribers_ m') -> subscribed4 br m -> subscribed4 br m'.
Proof. intros G1 (H1 & H2 & H3 & H4). specialize (G1 br). unfold subscribed4. tauto. Qed.

(** The backend with its model: stopped and silent, or serving. *)
Record backend_ok (br : nat) (ob : OpcUaBackend S) m : Prop := {
  bo_sink : fm_sink (ob_map ob) = cmds;
  bo_server : server_ok (ob_server ob);
  bo_wired : fm_wired (ob_map ob) = isRunning (ob_server ob);
  bo_served : isRunning (ob_server ob) = true -> served (ob_server ob) /\ subscribed4 br m;
}.
Record opc_ok (n : Z) (br : nat) (w : OpcWorld (S := S) (G := G)) : Prop := {
  oo_model : model_ok n (ow_model w);
  oo_plant : plant (ow_model w);
  oo_backend : backend_ok br (ow_backend w) (ow_model w);
}.

(** Serving what the model holds. *)
Definition up_to_date (w : OpcWorld (S := S) (G := G)) : Prop :=
  isRunning (ob_server (ow_backend w)) = true /\ published (browse (ob_server (ow_backend w))) (ow_model w).

Lemma silent_map fm news (s : S) : fm_wired fm = false -> fold_left (on_delivery fm) news s = s.
Proof. intros E. induction news as [|d news IH]; [reflexivity|]. cbn [fold_left]. unfold on_delivery at 2. rewrite E. exact IH. Qed.

(** An operation of the model, relayed to the map. *)
Lemma relay_ok n br ob m m' news :
  backend_ok br ob m -> model_ok n m' -> plant m' -> subs_grow (subscribers_ m) (subscribers_ m') ->
  delivered m' = delivered m ++ news -> Forall (current m') news ->
  let w := relay br ob m m' in
  backend_ok br (ow_backend w) (ow_model w) /\
  (isRunning (ob_server ob) = true ->
   (forall id e, sm_get id (equipmentStatuses_ m') = Some e -> shows (browse (ob_server ob)) (p_line id) (line_values e) \/
     exists d, d ∈ news /\ addressee d = br /\ about_line id d) ->
   (forall id q, sm_get id (qualityCheckpoints_ m') = Some q -> shows (browse (ob_server ob)) (p_check id) (check_values q) \/
     exists d, d ∈ news /\ addressee d = br /\ about_checkpoint id d) ->
   (shows (browse (ob_server ob)) p_work (work_values (currentWorkUnit_ m')) \/ exists d, d ∈ news /\ addressee d = br /\ about_work d) ->
   (browse (ob_server ob) p_state = Some (plain_variable (UaInt32 (state_code (getState m')))) \/ exists d, d ∈ news /\ addressee d = br /\ about_state d) ->
   up_to_date w).
Proof.
  intros [B1 B2 B3 B4] HM P Gr D C. cbv zeta. unfold relay. rewrite D, drop_app_length. cbn [ow_backend ow_model ob_server ob_map].
  destruct (isRunning (ob_server ob)) eqn:R.
  - destruct (B4 eq_refl) as [Sv Sub].
    assert (Hfold : served (fold_left (on_delivery (ob_map ob)) (inbox br news) (ob_server ob))).
    { apply fold_inv; [exact Sv|]. intros s' d [_ Hd]%list_elem_of_filter Hs'. apply on_delivery_served; auto.
      apply (current_id n m' d HM P). rewrite Forall_forall in C. apply C, Hd. }
    split.
    + split; cbn [ob_map ob_server]; [exact B1|apply Hfold|rewrite B3; symmetry; apply Hfold|]. intros _. split; [exact Hfold|exact (subscribed4_grow br m m' Gr Sub)].
    + intros _ H1 H2 H3 H4. pose proof (news_published n br m' (ob_map ob) (ob_server ob) news HM P B3 Sv C H1 H2 H3 H4) as [N1 N2].
      split; [apply N1|exact N2].
  - rewrite silent_map by exact B3. split; [|discriminate]. split; cbn; [exact B1|exact B2|congruence|congruence].
Qed.

(** An operation of the plant. *)
Lemma model_event n br ob m o :
  model_ok n m -> plant m -> backend_ok br ob m -> in_plant o -> 0 <= n -> 648 + 3 * n <= int_max ->
  exists m', op_apply o m = Ret m' /\ opc_ok (n + 1) br (relay br ob m m') /\
    (isRunning (ob_server ob) = true -> published (browse (ob_server ob)) m -> up_to_date (relay br ob m m')).
Proof.
  intros HM P B Ho Hn Hmax. destruct (plant_step n m o HM P Ho Hn Hmax) as (m' & E & H' & T & N).
  destruct (op_tells (n + 1) m m' H' (or_introl P) T N) as (news & D & [C Hl _ Hq Hk Ht]).
  destruct (relay_ok (n + 1) br ob m m' news B H' (proj1 N) (proj1 (proj2 N)) D C) as [B' U].
  exists m'. split; [exact E|]. split; [split; [exact H'|apply N|exact B']|].
  intros R [P1 P2 P3 P4]. destruct (bo_served _ _ _ B R) as [_ (S1 & S2 & S3 & S4)]. apply U; [exact R| | | |].
  - intros id e He. destruct (Hl br id S1) as [Eq|]; [left; apply P3; congruence|auto].
  - intros id q He. destruct (Hq br id S2) as [Eq|]; [left; apply P4; congruence|auto].
  - destruct (Hk br S3) as [Eq|]; [left; congruence|auto].
  - destruct (Ht br S4) as [Eq|]; [left; congruence|auto].
Qed.

(** ** What clients can do *)

(** The model command of a method. *)
Definition command_op (name : string) : option model_op :=
  if String.eqb name "StartProduction" then Some StartProduction
  else if String.eqb name "StopProduction" then Some StopProduction
  else if String.eqb name "ResetSystem" then Some ResetSystem
  else if String.eqb name "StartCalibration" then Some StartCalibration
  else None.

Lemma method_at p name sp : conforms cmds sp -> (sp p ≫= methodCallbackShim) = Some name ->
  cmds = true /\ name ∈ command_names /\ p = p_commands ++ [name].
Proof.
  intros C E. destruct (sp p) as [n|] eqn:En; [|discriminate]. apply C in En. cbn in E.
  destruct En; try discriminate. cbn in E. injection E as <-. auto.
Qed.

Lemma callback_at p v x b sp : conforms cmds sp -> (sp p ≫= fun n => boolWriteCallbackShim n v) = Some (x, b) ->
  cmds = true /\ v = UaBool b /\ exists id, 0 <= id < 3 /\ p = p_line id ++ ["Enabled"] /\ x = join (p_line id ++ ["Enabled"]).
Proof.
  intros C E. destruct (sp p) as [n|] eqn:En; [|discriminate]. apply C in En. cbn in E.
  destruct En; try discriminate. cbn in E. destruct v; try discriminate. injection E as <- <-. eauto 6.
Qed.

Lemma writable_at p v sp : conforms cmds sp -> is_Some (sp p ≫= client_written v) ->
  cmds = true /\ (exists b, v = UaBool b) /\ exists id, 0 <= id < 3 /\ p = p_line id ++ ["Enabled"].
Proof.
  intros C [n' E]. destruct (sp p) as [n|] eqn:En; [|discriminate]. apply C in En. cbn in E.
  destruct En; try discriminate. cbn in E. destruct v; try discriminate. eauto 6.
Qed.

Lemma enabled_id_of id : 0 <= id < 3 -> enabled_id (chars_of (join (p_line id ++ ["Enabled"]))) = Some id.
Proof. intros Hid. assert (id = 0 \/ id = 1 \/ id = 2) as [->|[->| ->]] by lia; reflexivity. Qed.

Lemma onCommand_op m name o : command_op name = Some o -> op_apply o m = Ret (onCommand name m) /\ in_plant o.
Proof.
  unfold command_op, onCommand. repeat case_match; intros [= <-]; (split; [reflexivity|exact I]).
Qed.

Lemma command_known name : name ∈ command_names -> exists o, command_op name = Some o.
Proof. unfold command_names. rewrite !elem_of_cons, elem_of_nil. intros [->|[->|[->|[->|[]]]]]; eauto. Qed.

(** What a client asks the model for: the four methods, and the switch of a
    line. *)
Definition decode_call (path : list string) : option model_op :=
  match path with
  | [f; c; name] => if String.eqb f "Factory" && String.eqb c "Commands" then command_op name else None
  | _ => None
  end.
Definition decode_write (path : list string) (v : UaValue) : option model_op :=
  match v with
  | UaBool b =>
      if bool_decide (path = p_line 0 ++ ["Enabled"]) then Some (SetEquipmentEnabled 0 b)
      else if bool_decide (path = p_line 1 ++ ["Enabled"]) then Some (SetEquipmentEnabled 1 b)
      else if bool_decide (path = p_line 2 ++ ["Enabled"]) then Some (SetEquipmentEnabled 2 b)
      else None
  | _ => None
  end.

Lemma decode_write_enabled id b : 0 <= id < 3 -> decode_write (p_line id ++ ["Enabled"]) (UaBool b) = Some (SetEquipmentEnabled id b).
Proof. intros Hid. assert (id = 0 \/ id = 1 \/ id = 2) as [->|[->| ->]] by lia; reflexivity. Qed.

Lemma decode_write_some path v o : decode_write path v = Some o ->
  exists id b, 0 <= id < 3 /\ v = UaBool b /\ path = p_line id ++ ["Enabled"] /\ o = SetEquipmentEnabled id b.
Proof.
  destruct v; try discriminate. cbn. intros E.
  assert (Hgo : forall id, 0 <= id < 3 -> path = p_line id ++ ["Enabled"] -> Some (SetEquipmentEnabled id b) = Some o ->
    exists id' b', 0 <= id' < 3 /\ UaBool b = UaBool b' /\ path = p_line id' ++ ["Enabled"] /\ o = SetEquipmentEnabled id' b').
  { intros id Hid Hp [= <-]. eauto 6. }
  case_bool_decide as D0; [apply (Hgo 0 ltac:(lia) D0 E)|].
  case_bool_decide as D1; [apply (Hgo 1 ltac:(lia) D1 E)|].
  case_bool_decide as D2; [apply (Hgo 2 ltac:(lia) D2 E)|discriminate].
Qed.

Lemma decode_call_some path o : decode_call path = Some o ->
  exists name, path = p_commands ++ [name] /\ command_op name = Some o /\ name ∈ command_names.
Proof.
  unfold decode_call. repeat case_match; try discriminate. subst. intros E.
  match goal with F : _ && _ = true |- _ => apply andb_prop in F as [->%String.eqb_eq ->%String.eqb_eq] end.
  eexists. split; [reflexivity|]. split; [exact E|]. unfold command_op in E. unfold command_names.
  repeat case_match; try discriminate; match goal with F : String.eqb _ _ = true |- _ => apply String.eqb_eq in F as -> end; rewrite !elem_of_cons; auto.
Qed.

Lemma served_write s path v s' : served s -> clientWrite path v s = Some s' -> served s' /\ is_Some (browse s path ≫= client_written v) /\
  space_eq (browse s') (spec_write path v (browse s)).
Proof.
  intros [V1 V2 V3 V4] E. pose proof (clientWrite_law path v s V1 V2) as L. rewrite E in L. destruct L as (L1 & L2 & L3 & L4).
  split; [|split; [exact L3|exact L4]]. apply (at_served s' (run_ops [SWrite path v] (browse s))).
  - split; [exact L1|]. split; [exact L2|exact L4].
  - apply ops_conform; [exact V3|]. repeat constructor.
  - apply skeleton_ops, V4.
Qed.

Lemma published_other sp sp' path v m : space_eq sp' (spec_write path v sp) ->
  (exists id, path = p_line id ++ ["Enabled"]) -> published sp m -> published sp' m.
Proof.
  intros E [id ->] [P1 P2 P3 P4].
  assert (O : forall q, q <> p_line id ++ ["Enabled"] -> sp' q = sp q).
  { intros q Hq. rewrite (E q); unfold spec_write; rewrite decide_False by congruence; reflexivity. }
  split; [rewrite O by discriminate; exact P1| | |].
  - unfold shows in *. rewrite Forall_forall in *. intros kv Hkv. rewrite O by discriminate. apply P2, Hkv.
  - intros i e He. specialize (P3 i e He). unfold shows in *. rewrite Forall_forall in *. intros kv Hkv. rewrite O; [apply P3, Hkv|].
    intros Eq. apply (f_equal (fun p => List.last p "")) in Eq. rewrite !List.last_last in Eq. unfold line_values in Hkv.
    rewrite !elem_of_cons, elem_of_nil in Hkv. destruct Hkv as [->|[->|[->|[]]]]; discriminate.
  - intros i q Hq. specialize (P4 i q Hq). unfold shows in *. rewrite Forall_forall in *. intros kv Hkv. rewrite O by discriminate. apply P4, Hkv.
Qed.

(** Events of the plant's users. *)
Definition opc_event_ok (e : opc_event) : Prop := match e with OModel o => in_plant o | _ => True end.

(** What an event of a client means to the model. *)
Definition client_meaning (w w' : OpcWorld (S := S) (G := G)) (e : opc_event) : Prop :=
  let asked := match e with OCall path => decode_call path | OWrite path v => decode_write path v | _ => None end in
  match (if isRunning (ob_server (ow_backend w)) && cmds then asked else None) with
  | Some o => op_apply o (ow_model w) = Ret (ow_model w')
  | None => ow_model w' = ow_model w
  end.
Definition is_client (e : opc_event (S := S)) : Prop := match e with OCall _ | OWrite _ _ => True | _ => False end.

Lemma opc_ok_mono n n' br w : opc_ok n br w -> n <= n' -> opc_ok n' br w.
Proof. intros [O1 O2 O3] Hn. split; [exact (ok_mono n n' _ O1 Hn)|exact O2|exact O3]. Qed.

Lemma client_call n br w path :
  opc_ok n br w -> 0 <= n -> 648 + 3 * n <= int_max ->
  exists w', opc_step br w (OCall path) = Ret w' /\ opc_ok (n + 1) br w' /\ (up_to_date w -> up_to_date w') /\ client_meaning w w' (OCall path).
Proof.
  intros O Hn Hmax. pose proof (opc_ok_mono n (n + 1) br w O ltac:(lia)) as O1. destruct O as [HM P B]. destruct w as [ob m]. cbn [ow_backend ow_model] in *.
  cbn [opc_step ow_backend ow_model]. unfold client_meaning. cbn [ow_backend ow_model].
  destruct (isRunning (ob_server ob)) eqn:R; cbn [negb andb]; [|eexists; split; [reflexivity|auto]].
  destruct (bo_served _ _ _ B R) as [Sv _].
  destruct (browse (ob_server ob) path ≫= methodCallbackShim) as [name|] eqn:En.
  - destruct (method_at path name _ (sv_conforms _ Sv) En) as (Hc & Hname & ->). destruct (command_known name Hname) as [o Ho].
    destruct (onCommand_op m name o Ho) as [Eo Hin]. destruct (model_event n br ob m o HM P B Hin Hn Hmax) as (m' & E & O' & U).
    rewrite Eo in E. injection E as <-. eexists. split; [reflexivity|]. split; [exact O'|]. split; [intros [_ Hp]; apply U; assumption|].
    rewrite Hc. cbn. rewrite Ho. exact Eo.
  - eexists. split; [reflexivity|]. split; [exact O1|]. split; [auto|].
    destruct cmds eqn:Hc; [|reflexivity]. destruct (decode_call path) as [o|] eqn:Ed; [|reflexivity].
    apply decode_call_some in Ed as (name & -> & _ & Hname). exfalso.
    destruct (skeleton_at cmds (browse (ob_server ob)) (p_commands ++ [name]) (sv_skeleton _ Sv)) as [k Hk].
    { unfold statics. rewrite Hc, !elem_of_app. right. right. left. apply (list_elem_of_fmap_2 (fun c => p_commands ++ [c])), Hname. }
    rewrite Hk in En. cbn in En. pose proof (sv_conforms _ Sv _ _ Hk) as Hs. inversion Hs; subst; try discriminate.
    match goal with F : _ ∈ [p_root; _; _; _] |- _ => rewrite !elem_of_cons, elem_of_nil in F; destruct F as [|[|[|[|[]]]]]; discriminate end.
Qed.

Lemma client_write n br w path v :
  opc_ok n br w -> 0 <= n -> 648 + 3 * n <= int_max ->
  exists w', opc_step br w (OWrite path v) = Ret w' /\ opc_ok (n + 1) br w' /\ (up_to_date w -> up_to_date w') /\ client_meaning w w' (OWrite path v).
Proof.
  intros O Hn Hmax. pose proof (opc_ok_mono n (n + 1) br w O ltac:(lia)) as O1. destruct O as [HM P B]. destruct w as [ob m]. cbn [ow_backend ow_model] in *.
  cbn [opc_step ow_backend ow_model]. unfold client_meaning. cbn [ow_backend ow_model].
  destruct (isRunning (ob_server ob)) eqn:R; cbn [negb andb]; [|eexists; split; [reflexivity|auto]].
  destruct (bo_served _ _ _ B R) as [Sv Sub].
  destruct (clientWrite path v (ob_server ob)) as [s'|] eqn:Ew.
  - destruct (served_write _ path v s' Sv Ew) as (Sv' & Hw & Es). destruct (writable_at path v _ (sv_conforms _ Sv) Hw) as (Hc & (b & ->) & id & Hid & ->).
    assert (B' : backend_ok br (mkBackend s' (ob_map ob)) m).
    { destruct B as [B1 B2 B3 _]. split; cbn; [exact B1|apply Sv'|rewrite B3, R; symmetry; apply Sv'|auto]. }
    assert (Hp : published (browse (ob_server ob)) m -> published (browse s') m) by (apply (published_other _ _ _ _ m Es); eauto).
    destruct (browse (ob_server ob) (p_line id ++ ["Enabled"]) ≫= fun n => boolWriteCallbackShim n (UaBool b)) as [[x b']|] eqn:Ecb.
    + destruct (callback_at _ _ _ _ _ (sv_conforms _ Sv) Ecb) as (_ & [= <-] & id' & Hid' & Ep & ->).
      assert (line_name id = line_name id') as <-%line_name_inj by exact (f_equal (fun p => List.nth 2 p ""%string) Ep).
      assert (Eo : op_apply (SetEquipmentEnabled id b) m = Ret (onBoolWrite (join (p_line id ++ ["Enabled"])) b m)).
      { unfold onBoolWrite, dispatchEquipmentEnabled. rewrite enabled_id_of by exact Hid. reflexivity. }
      destruct (model_event n br (mkBackend s' (ob_map ob)) m (SetEquipmentEnabled id b) HM P B' Hid Hn Hmax) as (m' & E & O' & U).
      rewrite Eo in E. injection E as <-. eexists. split; [reflexivity|]. split; [exact O'|]. split; [intros [_ Hpub]; apply U; [apply Sv'|apply Hp, Hpub]|].
      cbn [ow_model relay]. rewrite Hc, (decode_write_enabled id b Hid). exact Eo.
    + exfalso. destruct Hw as [k' Hk]. destruct (browse (ob_server ob) (p_line id ++ ["Enabled"])) as [k|] eqn:Ek; [|discriminate].
      pose proof (sv_conforms _ Sv _ _ Ek) as Hs. destruct Hs; discriminate.
  - eexists. split; [reflexivity|]. split; [exact O1|]. split; [auto|]. cbn [ow_model].
    destruct (bool_decide (cmds = true)) eqn:Hc; [apply bool_decide_eq_true in Hc|apply bool_decide_eq_false, not_true_is_false in Hc; rewrite Hc; reflexivity].
    destruct (decode_write path v) as [o|] eqn:Ed; [|destruct cmds; reflexivity]. exfalso.
    apply decode_write_some in Ed as (id & b & Hid & -> & -> & _).
    destruct (skeleton_at cmds (browse (ob_server ob)) (p_line id ++ ["Enabled"]) (sv_skeleton _ Sv)) as [k Hk].
    { unfold statics. rewrite Hc, !elem_of_app. right. right. right. assert (id = 0 \/ id = 1 \/ id = 2) as [->|[->| ->]] by lia; cbn; rewrite !elem_of_cons; auto. }
    pose proof (clientWrite_law (p_line id ++ ["Enabled"]) (UaBool b) _ (bo_server _ _ _ B) R) as L. rewrite Ew, Hk in L. cbn [mbind option_bind] in L.
    pose proof (sv_conforms _ Sv _ _ Hk) as Hs. schema_inv Hs.
    match goal with F : (_, _) ∈ line_kinds |- _ => unfold line_kinds in F; rewrite !elem_of_cons, elem_of_nil in F; destruct F as [|[|[|[]]]]; discriminate end.
Qed.

(** Starting the backend. *)
Lemma register_served s : server_ok s -> isRunning s = true -> (forall q, browse s q = None) ->
  forall fm, fm_sink fm = cmds -> served (registerNodes fm s).
Proof.
  intros Hs Hr He fm Hf. apply (at_served _ (run_ops (register_ops cmds) empty_space)).
  - rewrite <- Hf. apply register_tracks. split; [exact Hs|]. split; [exact Hr|exact He].
  - apply ops_conform; [intros p n; discriminate|]. unfold register_ops, static_ops. apply Forall_app. split.
    + apply Forall_app. split.
      * repeat (apply Forall_cons; split; [cbn; first [apply sch_state|apply sch_folder; rewrite !elem_of_cons; auto]|]). apply Forall_nil. exact I.
      * apply Forall_map, Forall_forall. intros [leaf v] Hk. apply (sch_work cmds leaf v v Hk), same_type_refl.
    + destruct cmds eqn:Hc; [|apply Forall_nil; exact I]. unfold command_ops. apply Forall_cons. split; [apply sch_commands; reflexivity|]. apply Forall_app. split.
      * apply Forall_map, Forall_forall. intros c Hcm. apply sch_method; [reflexivity|exact Hcm].
      * change (seqZ 0 kWritableLines) with [0; 1; 2]. cbn [flat_map app].
        repeat (apply Forall_cons; split; [first [apply (sch_line true)|apply (sch_enabled true); [reflexivity|lia]]|]). apply Forall_nil. exact I.
  - unfold skeleton. destruct cmds; vm_decide.
Qed.

Lemma start_event n br w b :
  opc_ok n br w ->
  exists w', opc_step br w (OStart b) = Ret w' /\ opc_ok n br w' /\ ow_model w' = set_subscribers (subscribers_ (ow_model w')) (ow_model w) /\
    (isRunning (ob_server (ow_backend w)) = true -> w' = w) /\
    (forall s', start b (ob_server (ow_backend w)) = Ret s' -> isRunning (ob_server (ow_backend w')) = true).
Proof.
  intros [HM P B]. destruct w as [ob m]. cbn [ow_backend ow_model opc_step] in *. unfold backend_start. destruct B as [B1 B2 B3 B4].
  assert (Em : m = set_subscribers (subscribers_ m) m) by (destruct m; reflexivity).
  destruct (isRunning (ob_server ob)) eqn:R.
  - eexists. split; [reflexivity|]. split; [split; [exact HM|exact P|split; cbn; try assumption; rewrite R; auto]|].
    split; [exact Em|]. split; [reflexivity|]. intros; exact R.
  - pose proof (start_defined b (ob_server ob)) as Dd. destruct (start b (ob_server ob)) as [s'|e|] eqn:Es; cbn [mbind outcome_bind].
    + destruct (start_law b _ s' B2 R Es) as (L1 & L2 & L3). pose proof (register_served s' L1 L2 L3 (ob_map ob) B1) as Sv.
      unfold wire. rewrite B3. eexists. split; [reflexivity|]. cbn [ow_model ow_backend ob_server ob_map fm_sink].
      split; [split|].
      * cbn. do 4 apply ok_subscribers. exact HM.
      * cbn. do 4 apply plant_subscribers. exact P.
      * split; cbn [ob_map ob_server fm_sink fm_wired]; [exact B1|apply Sv|symmetry; apply Sv|]. intros _. split; [exact Sv|].
        unfold subscribed4. cbn. rewrite !elem_of_app, !elem_of_cons. auto 10.
      * split; [destruct m; reflexivity|]. split; [discriminate|]. intros. apply Sv.
    + eexists. split; [reflexivity|]. split; [split; [exact HM|exact P|split; cbn; try assumption; congruence]|].
      split; [exact Em|]. split; [reflexivity|]. discriminate.
    + elim Dd.
Qed.

Lemma stop_event n br w : opc_ok n br w ->
  exists w', opc_step br w OStop = Ret w' /\ opc_ok n br w' /\ ow_model w' = ow_model w.
Proof.
  intros [HM P [B1 B2 B3 B4]]. destruct w as [ob m]. cbn [ow_backend ow_model] in *. eexists. split; [reflexivity|]. split; [|reflexivity].
  split; [exact HM|exact P|]. unfold backend_stop. cbn [ow_backend ow_model]. destruct (isRunning (ob_server ob)) eqn:R; cbn [negb].
  - destruct (stop_law _ B2) as [L1 L2]. split; cbn; [exact B1|exact L1|congruence|congruence].
  - split; try assumption; congruence.
Qed.

(** Every event of a plant in order. *)
Lemma opc_event_good n br w e : opc_ok n br w -> opc_event_ok e -> 0 <= n -> 648 + 3 * n <= int_max ->
  exists w', opc_step br w e = Ret w' /\ opc_ok (n + 1) br w' /\ (e <> OStop -> up_to_date w -> up_to_date w') /\
    (is_client e -> client_meaning w w' e).
Proof.
  intros O He Hn Hmax. destruct e as [o|b| |path|path v].
  - destruct O as [HM P B]. destruct w as [ob m]. cbn [ow_backend ow_model] in *.
    destruct (model_event n br ob m o HM P B He Hn Hmax) as (m' & E & O' & U). cbn [opc_step ow_model ow_backend]. rewrite E. cbn [mbind outcome_bind].
    eexists. split; [reflexivity|]. split; [exact O'|]. split; [intros _ [U1 U2]; apply U; assumption|intros []].
  - destruct (start_event n br w b O) as (w' & E & O' & _ & Hrun & _). exists w'. split; [exact E|]. split; [exact (opc_ok_mono n (n + 1) br w' O' ltac:(lia))|].
    split; [intros _ U; rewrite (Hrun (proj1 U)); exact U|intros []].
  - destruct (stop_event n br w O) as (w' & E & O' & _). exists w'. split; [exact E|]. split; [exact (opc_ok_mono n (n + 1) br w' O' ltac:(lia))|].
    split; [intros []; reflexivity|intros []].
  - destruct (client_call n br w path O Hn Hmax) as (w' & H1 & H2 & H3 & H4). exists w'. auto.
  - destruct (client_write n br w path v O Hn Hmax) as (w' & H1 & H2 & H3 & H4). exists w'. auto.
Qed.

Lemma opc_run_good br l : forall n w, opc_ok n br w -> Forall opc_event_ok l -> 0 <= n -> 648 + 3 * (n + Z.of_nat (length l)) <= int_max ->
  exists w', opc_run br l w = Ret w' /\ opc_ok (n + Z.of_nat (length l)) br w' /\ (OStop ∉ l -> up_to_date w -> up_to_date w').
Proof.
  induction l as [|e l IH]; intros n w O Hl Hn Hmax; cbn [opc_run length] in *.
  - exists w. rewrite Z.add_0_r. auto.
  - apply Forall_cons in Hl as [He Hl]. destruct (opc_event_good n br w e O He Hn ltac:(lia)) as (w1 & E & O1 & U1 & _). rewrite E. cbn [mbind outcome_bind].
    destruct (IH (n + 1) w1 O1 Hl ltac:(lia) ltac:(lia)) as (w' & E' & O' & U'). exists w'. split; [exact E'|].
    replace (n + Z.of_nat (Datatypes.S (length l))) with (n + 1 + Z.of_nat (length l)) by lia. split; [exact O'|].
    rewrite not_elem_of_cons. intros [N1 N2] U. auto.
Qed.

Lemma opc_run_app br l1 l2 w : opc_run br (l1 ++ l2) w = (w ← opc_run br l1 w; opc_run br l2 w).
Proof.
  revert w. induction l1 as [|e l1 IH]; intros w; cbn [app opc_run]; [reflexivity|]. destruct (opc_step br w e); cbn [mbind outcome_bind]; auto.
Qed.

(** An announcement under the running backend brings the nodes up to date. *)
Lemma opc_announced n br w o :
  model_ok n (ow_model w) -> 0 <= n -> (plant (ow_model w) /\ announces o) \/ (virgin (ow_model w) /\ o = InitializeDemoData) ->
  backend_ok br (ow_backend w) (ow_model w) ->
  exists w', opc_step br w (OModel o) = Ret w' /\ opc_ok n br w' /\ (isRunning (ob_server (ow_backend w)) = true -> up_to_date w').
Proof.
  destruct w as [ob m]. cbn [ow_model ow_backend]. intros HM Hn Ho B.
  destruct (announcement_tells n m o HM Hn Ho) as (m' & news & E & H' & N & D & Tl & Tq & Tk & Tt).
  destruct N as (P' & Gr & news' & D' & C). rewrite D in D'. apply app_inv_head in D' as <-.
  destruct (relay_ok n br ob m m' news B H' P' Gr D C) as [B' U].
  cbn [opc_step ow_model ow_backend]. rewrite E. cbn [mbind outcome_bind]. eexists. split; [reflexivity|]. split; [split; [exact H'|exact P'|exact B']|].
  intros R. destruct (bo_served _ _ _ B R) as [_ (S1 & S2 & S3 & S4)]. apply U; [exact R| | |right|right].
  - intros id e He. right. exists (DEquipment br e). split; [exact (told_me (fun cb => DEquipment cb e) _ _ br (Tl id e He) S1)|].
    split; [reflexivity|]. exact (pl_line_ids _ P' id e He).
  - intros id q He. right. exists (DQuality br q). split; [exact (told_me (fun cb => DQuality cb q) _ _ br (Tq id q He) S2)|].
    split; [reflexivity|]. exact (pl_checkpoint_ids _ P' id q He).
  - eexists. split; [exact (told_me _ _ _ br Tk S3)|]. cbn. auto.
  - eexists. split; [exact (told_me _ _ _ br Tt S4)|]. cbn. auto.
Qed.

(** Before the demo data is loaded. *)
Lemma opc_begin br (s0 : S) (g : G) : server_ok s0 -> isRunning s0 = false ->
  let w := opc_init cmds s0 g in
  model_ok 0 (ow_model w) /\ virgin (ow_model w) /\ backend_ok br (ow_backend w) (ow_model w).
Proof.
  intros H0 H1. cbn. split; [apply model_init_ok|]. split; [repeat split|]. split; cbn; [reflexivity|exact H0|symmetry; exact H1|congruence].
Qed.

Lemma opc_loaded br (s0 : S) (g : G) l : server_ok s0 -> isRunning s0 = false -> Forall opc_event_ok l -> 648 + 3 * Z.of_nat (length l) <= int_max ->
  exists w, opc_run br (OModel InitializeDemoData :: l) (opc_init cmds s0 g) = Ret w /\ opc_ok (Z.of_nat (length l)) br w.
Proof.
  intros H0 H1 Hl Hmax. destruct (opc_begin br s0 g H0 H1) as (B1 & B2 & B3).
  destruct (opc_announced 0 br (opc_init cmds s0 g) InitializeDemoData B1) as (w1 & E1 & O1 & _); [lia|auto|exact B3|].
  destruct (opc_run_good br l 0 w1 O1 Hl) as (w & E & O & _); [lia|lia|]. exists w. split; [|exact O]. cbn [opc_run]. rewrite E1. exact E.
Qed.

(** Starting the backend and announcing. *)
Lemma opc_start_announce n br w b o :
  model_ok n (ow_model w) -> 0 <= n -> (plant (ow_model w) /\ announces o) \/ (virgin (ow_model w) /\ o = InitializeDemoData) ->
  backend_ok br (ow_backend w) (ow_model w) ->
  (forall s : S, server_ok s -> isRunning s = false -> exists s', start b s = Ret s') ->
  exists w', opc_run br [OStart b; OModel o] w = Ret w' /\ opc_ok n br w' /\ up_to_date w'.
Proof.
  intros HM Hn Ho B Hb. cbn [opc_run].
  assert (Hs : exists w1, opc_step br w (OStart b) = Ret w1 /\ model_ok n (ow_model w1) /\
    ((plant (ow_model w1) /\ announces o) \/ (virgin (ow_model w1) /\ o = InitializeDemoData)) /\
    backend_ok br (ow_backend w1) (ow_model w1) /\ isRunning (ob_server (ow_backend w1)) = true).
  { destruct w as [ob m]. cbn [ow_backend ow_model opc_step] in *. unfold backend_start. destruct B as [B1 B2 B3 B4].
    destruct (isRunning (ob_server ob)) eqn:R.
    - eexists. split; [reflexivity|]. cbn. split; [exact HM|]. split; [exact Ho|]. split; [split; try assumption; rewrite R; auto|exact R].
    - destruct (Hb _ B2 R) as [s' Es]. rewrite Es. cbn [mbind outcome_bind].
      destruct (start_law b _ s' B2 R Es) as (L1 & L2 & L3). pose proof (register_served s' L1 L2 L3 (ob_map ob) B1) as Sv.
      unfold wire. rewrite B3. eexists. split; [reflexivity|]. cbn [ow_model ow_backend ob_server ob_map fm_sink].
      split; [do 4 apply ok_subscribers; exact HM|]. split.
      + destruct Ho as [[P Ho]|[V Ho]]; [left; split; [do 4 apply plant_subscribers; exact P|exact Ho]|right; split; [exact V|exact Ho]].
      + split; [|apply Sv]. split; cbn [ob_map ob_server fm_sink fm_wired]; [exact B1|apply Sv|symmetry; apply Sv|]. intros _. split; [exact Sv|].
        unfold subscribed4. cbn. rewrite !elem_of_app, !elem_of_cons. auto 10. }
  destruct Hs as (w1 & E1 & M1 & A1 & K1 & R1). rewrite E1. cbn [mbind outcome_bind].
  destruct (opc_announced n br w1 o M1 Hn A1 K1) as (w2 & E2 & O2 & U2). rewrite E2. cbn [mbind outcome_bind]. eauto.
Qed.
End Plant.

(* ------------------------------------------------------------------ *)
(** ** Properties *)

(** The history before the backend is started for the last time: nothing, when
    the demo data is still to be loaded, or any events of an initialised
    plant. *)
Definition opc_history_ok {S} `{OpcUaServer S} (l : list (opc_event (S := S))) (o : model_op) : Prop :=
  match l with
  | [] => o = InitializeDemoData
  | OModel InitializeDemoData :: l => Forall opc_event_ok l /\ announces o
  | _ => False
  end.

(** The backend, once started and told, serves. *)
Lemma opc_serves {S} `{OpcUaServerLaws S} {G} `{RandomSource G} (br : nat) (cmds : bool) (s0 : S) (g : G)
    (l1 l2 : list opc_event) (b : boot) (o : model_op) :
  server_ok s0 -> isRunning s0 = false ->
  (forall s : S, server_ok s -> isRunning s = false -> exists s', start b s = Ret s') ->
  opc_history_ok l1 o -> Forall opc_event_ok l2 -> OStop ∉ l2 -> Z.of_nat (length l1 + length l2) < 700000000 ->
  exists n w, opc_run br (l1 ++ [OStart b; OModel o] ++ l2) (opc_init cmds s0 g) = Ret w /\ opc_ok cmds n br w /\ up_to_date w.
Proof.
  intros Hok Hr Hb Hh Hl2 Hstop Hlen.
  assert (exists n w, opc_run br (l1 ++ [OStart b; OModel o]) (opc_init cmds s0 g) = Ret w /\
    0 <= n <= Z.of_nat (length l1) /\ opc_ok cmds n br w /\ up_to_date w) as (n & w & E & Hn & O & U).
  { destruct l1 as [|[[] | | | |] l1]; cbn [opc_history_ok] in Hh; try contradiction.
    - destruct (opc_begin cmds br s0 g Hok Hr) as (B1 & B2 & B3).
      destruct (opc_start_announce cmds 0 br _ b o B1) as (w & E & O & U); auto; [lia|]. exists 0, w. cbn [length]. auto with lia.
    - destruct Hh as [Hl1 Ho]. destruct (opc_loaded cmds br s0 g l1 Hok Hr Hl1) as (w1 & E1 & O1); [unfold int_max; cbn [length] in Hlen; lia|].
      destruct (opc_start_announce cmds (Z.of_nat (length l1)) br w1 b o) as (w & E & O & U);
        [apply O1|lia|left; split; [apply O1|exact Ho]|apply O1|exact Hb|].
      exists (Z.of_nat (length l1)), w. split; [|cbn [length]; auto with lia]. rewrite opc_run_app, E1. exact E. }
  destruct (opc_run_good cmds br l2 n w O Hl2) as (w' & E' & O' & U'); [lia|unfold int_max; lia|].
  exists (n + Z.of_nat (length l2)), w'. rewrite app_assoc, opc_run_app, E. cbn [mbind outcome_bind]. split; [exact E'|]. split; [exact O'|]. apply U'; assumption.
Qed.


(** C11: What OPC-UA clients can make the plant do. Without the control surface,
    and while the backend is stopped, no call and no write of a client changes
    the model. With it, calling one of the four methods runs its command,
    writing a Boolean to a line's Enabled node switches that line, and every
    other call and write leaves the model alone. *)
Theorem opcua_clients_commands {S} `{OpcUaServerLaws S} {G} `{RandomSource G} (br : nat) (cmds : bool) (s0 : S) (g : G)
    (l : list opc_event) (e : opc_event) :
  server_ok s0 -> isRunning s0 = false -> Forall opc_event_ok l -> is_client e -> Z.of_nat (length l) < 700000000 ->
  exists w w', opc_run br (OModel InitializeDemoData :: l) (opc_init cmds s0 g) = Ret w /\ opc_step br w e = Ret w' /\
    client_meaning cmds w w' e.
Proof.
  intros Hok Hr Hl He Hlen. destruct (opc_loaded cmds br s0 g l Hok Hr Hl) as (w & E & O); [unfold int_max; lia|].
  assert (Hev : opc_event_ok e) by (destruct e; try contradiction; exact I).
  destruct (opc_event_good cmds (Z.of_nat (length l)) br w e O Hev) as (w' & Es & _ & _ & C); [lia|unfold int_max; lia|].
  exists w, w'. auto.
Qed.

(* ------------------------------------------------------------------ *)
(** ** Witnesses *)

Lemma map_boots (s : Open62541Server ua_map) : server_ok s -> isRunning s = false -> exists s', start map_boot s = Ret s'.
Proof. intros _ Hr. cbn in *. unfold o_start. rewrite Hr. eauto. Qed.

Definition opc_before : list (opc_event (S := Open62541Server ua_map)) :=
  [OModel InitializeDemoData; OStart map_boot; OModel (SetEquipmentSupplyLevel 0 40); OCall ["Factory"; "Commands"; "StartProduction"]; OStop].
Definition opc_after : list (opc_event (S := Open62541Server ua_map)) :=
  [OModel (TickSimulation 9); OWrite ["Factory"; "EquipmentLines"; "Line1"; "Enabled"] (UaBool false);
   OWrite ["Factory"; "State"] (UaInt32 7); OCall ["Factory"; "Commands"; "StopProduction"]; OModel (SetQualityPassRate 1 (f32_of_Z 90))].


Lemma opcua_clients_commands_witness :
  exists w w', opc_run 5 (OModel InitializeDemoData :: [OStart map_boot]) (opc_init true (map_server 4840) tt) = Ret w /\
    opc_step 5 w (OWrite ["Factory"; "EquipmentLines"; "Line1"; "Enabled"] (UaBool false)) = Ret w' /\
    client_meaning true w w' (OWrite ["Factory"; "EquipmentLines"; "Line1"; "Enabled"] (UaBool false)).
Proof.
  apply (opcua_clients_commands 5 true (map_server 4840) tt [OStart map_boot]).
  - reflexivity.
  - reflexivity.
  - repeat (apply Forall_cons; split; [exact I|]). apply Forall_nil. exact I.
  - exact I.
  - vm_compute. reflexivity.
Defined.

(** What the nodes do not say. The Enabled node of a line is written by clients
    only: it still says true after the line was switched off elsewhere. And a
    restarted backend shows the initial values until the model tells it
    something: the state node says IDLE while production runs. *)
Theorem opcua_nodes_stale_refuted :
  let run l := opc_run 5 (OModel InitializeDemoData :: OStart map_boot :: l) (opc_init true (map_server 4840) tt) in
  (w ← run [OModel (SetEquipmentEnabled 1 false)];
   Ret (browse (ob_server (ow_backend w)) (p_line 1 ++ ["Enabled"]), option_map eq_status (sm_get 1 (equipmentStatuses_ (ow_model w))))) =
    Ret (Some (writable_variable (p_line 1 ++ ["Enabled"]) true), Some 0) /\
  (w ← run [OModel StartProduction; OStop; OStart map_boot];
   Ret (browse (ob_server (ow_backend w)) p_state, getState (ow_model w))) = Ret (Some (plain_variable (UaInt32 (state_code IDLE))), RUNNING).
Proof. split; vm_compute; reflexivity. Qed.
