(* ===== verification/OpcUaClient.v ===== *)
(** * The OPC-UA client and its ingest bridge
    (src/integration/opcua/OpcUaClient.h, Open62541Client.{h,cpp},
    OpcUaIngestBridge.{h,cpp})

    The client that keeps subscriptions, arms them on the session and hands
    value changes to their callbacks, over the open62541 client as a parameter
    with laws; the bridge that subscribes to a factory and forwards changes to
    the model; and both in front of the program's own server. *)
From stdpp Require Import pretty.
From Stdlib Require Import Ascii String.
From S2P Require Import Prelude Float32 Format StdMap SystemState ModbusIngest ModbusPollLoop SimulatedModel ModelNews OpcUaServer FactoryNodes.
Local Open Scope string_scope.
Local Open Scope Z_scope.
Local Open Scope list_scope.

(* ------------------------------------------------------------------ *)
(** ** The library *)

(** A UA_Client with a session: [uc_resolve] asks the server for the node of a
    path, [uc_items] are the monitored items it created, each with its context,
    [uc_has_sub] says whether the session has a subscription. *)
Class UaClientLib (K : Type) := {
  NodeRef : Type;
  uc_resolve : K -> list string -> option NodeRef;
  uc_items : K -> list (NodeRef * nat);
  uc_has_sub : K -> Z -> bool;
  uc_createSubscription : K -> option (Z * K);
  uc_createDataChange : Z -> NodeRef -> nat -> K -> option K;
  uc_session : K -> Prop;
  (* A new session has neither subscriptions nor items. *)
  session_law : forall k, uc_session k -> uc_items k = [] /\ forall id, uc_has_sub k id = false;
  (* The ids of subscriptions are not 0. *)
  subscription_law : forall k id k', uc_createSubscription k = Some (id, k') ->
    id <> 0 /\ uc_has_sub k' id = true /\ uc_items k' = uc_items k /\ forall p, uc_resolve k' p = uc_resolve k p;
  (* BadSubscriptionIdInvalid, or the item. *)
  item_law : forall k sub n ctx, match uc_createDataChange sub n ctx k with
    | Some k' => uc_has_sub k sub = true /\ uc_items k' = uc_items k ++ [(n, ctx)] /\
        (forall id, uc_has_sub k' id = uc_has_sub k id) /\ forall p, uc_resolve k' p = uc_resolve k p
    | None => uc_has_sub k sub = false
    end;
}.

(** How a connection attempt goes. *)
Inductive ua_connect (K : Type) := ClientNull | ClientConfigFailed | ConnectFailed | Session (k : K).
Arguments ClientNull {K}.
Arguments ClientConfigFailed {K}.
Arguments ConnectFailed {K}.
Arguments Session {K} k.

(* ------------------------------------------------------------------ *)
(** ** The client *)

Inductive ValueType := TypeFloat | TypeInt32 | TypeBool.

(** The callbacks of the bridge. *)
Inductive opc_handler := OnStatus (id : Z) | OnSupply (id : Z) | OnPassRate (id : Z).

Record PendingSubscription := mkPending { nodeBrowsePath : string; value_type : ValueType; callback : opc_handler }.

Section Client.
Context {K : Type} `{CL : UaClientLib K}.

(** [cl_client] is [impl_->client]: null, a handle without a session, or one
    with; [cl_worker] says whether the I/O thread runs. *)
Record Open62541Client := mkClient {
  cl_endpoint : string;
  cl_secured : bool;
  cl_running : bool;
  cl_client : option (option K);
  cl_subscriptionId : Z;
  cl_monitored : Z;
  cl_subscriptions : list PendingSubscription;
  cl_worker : bool;
}.
Definition client_init (endpoint : string) (secured : bool) : Open62541Client := mkClient endpoint secured false None 0 0 [] false.

Definition set_running x (c : Open62541Client) :=
  mkClient (cl_endpoint c) (cl_secured c) x (cl_client c) (cl_subscriptionId c) (cl_monitored c) (cl_subscriptions c) (cl_worker c).
Definition set_client x (c : Open62541Client) :=
  mkClient (cl_endpoint c) (cl_secured c) (cl_running c) x (cl_subscriptionId c) (cl_monitored c) (cl_subscriptions c) (cl_worker c).
Definition set_subscription x (c : Open62541Client) :=
  mkClient (cl_endpoint c) (cl_secured c) (cl_running c) (cl_client c) x (cl_monitored c) (cl_subscriptions c) (cl_worker c).
Definition set_monitored x (c : Open62541Client) :=
  mkClient (cl_endpoint c) (cl_secured c) (cl_running c) (cl_client c) (cl_subscriptionId c) x (cl_subscriptions c) (cl_worker c).
Definition set_subscriptions x (c : Open62541Client) :=
  mkClient (cl_endpoint c) (cl_secured c) (cl_running c) (cl_client c) (cl_subscriptionId c) (cl_monitored c) x (cl_worker c).
Definition set_worker x (c : Open62541Client) :=
  mkClient (cl_endpoint c) (cl_secured c) (cl_running c) (cl_client c) (cl_subscriptionId c) (cl_monitored c) (cl_subscriptions c) x.

(** [connectSync]: [false] when it throws. *)
Definition connectSync (r : ua_connect K) (c : Open62541Client) : Open62541Client * bool :=
  match r with
  | ClientNull => (set_client None c, false)
  | ClientConfigFailed | ConnectFailed => (set_client (Some None) c, false)
  | Session k => (set_client (Some (Some k)) c, true)
  end.

Definition createSubscription (c : Open62541Client) : Open62541Client * bool :=
  if negb (cl_subscriptionId c =? 0) then (c, true)
  else match cl_client c with
       | Some (Some k) =>
           match uc_createSubscription k with
           | Some (id, k) => (set_subscription id (set_client (Some (Some k)) c), true)
           | None => (c, false)
           end
       | _ => (c, false)
       end.

(** [resolveNode] of the client. *)
Definition client_resolveNode (k : K) (path : string) : option NodeRef :=
  match parseBrowsePath path with
  | [] => None
  | segments => uc_resolve k (map c_str segments)
  end.

(** [armMonitoredItem] on the entry of an index. *)
Definition armMonitoredItem (c : Open62541Client) (entry : nat * PendingSubscription) : Open62541Client * bool :=
  let '(i, pending) := entry in
  match cl_client c with
  | Some (Some k) =>
      if cl_subscriptionId c =? 0 then (c, false)
      else match client_resolveNode k (nodeBrowsePath pending) with
           | None => (c, false)
           | Some nodeId =>
               match uc_createDataChange (cl_subscriptionId c) nodeId i k with
               | None => (c, false)
               | Some k => (set_monitored (u64 (cl_monitored c + 1)) (set_client (Some (Some k)) c), true)
               end
           end
  | _ => (c, false)
  end.

Definition replaySubscriptions (c : Open62541Client) : Open62541Client :=
  fold_left (fun c entry => fst (armMonitoredItem c entry)) (imap pair (cl_subscriptions c)) c.

(** [start]: [false] when it throws. *)
Definition client_start (r : ua_connect K) (c : Open62541Client) : Open62541Client * bool :=
  if cl_running c then (c, true)
  else
    let c := set_running true c in
    let '(c, connected) := connectSync r c in
    let '(c, ok) := if connected then createSubscription c else (c, false) in
    if negb ok then
      let c := set_running false c in
      (match cl_client c with Some _ => set_subscription 0 (set_client None c) | None => c end, false)
    else (set_worker true (replaySubscriptions c), true).

Definition client_stop (c : Open62541Client) : Open62541Client :=
  if negb (cl_running c) then c
  else
    let c := set_worker false (set_running false c) in
    let c := match cl_client c with Some _ => set_client None (set_subscription 0 c) | None => c end in
    set_monitored 0 c.

(** An iteration of [runIoLoop] whose status is bad. *)
Definition client_transport_failure (c : Open62541Client) : Open62541Client :=
  if cl_worker c then set_worker false (set_running false c) else c.

Definition client_isRunning (c : Open62541Client) : bool := cl_running c.
Definition client_connectionState (c : Open62541Client) : BackendState :=
  if cl_running c then Connected else if 0 <? cl_monitored c then Degraded else Disconnected.
Definition client_metricsSummary (c : Open62541Client) : string :=
  ("endpoint " ++ cl_endpoint c ++ " | " ++ to_string (cl_monitored c) ++ " monitored | security " ++
   (if cl_secured c then "sign+encrypt" else "none"))%string.
Definition monitoredItemCount (c : Open62541Client) : Z := cl_monitored c.

(** [subscribeFloat], [subscribeInt32] and [subscribeBool] with the type. *)
Definition registerSubscription (pending : PendingSubscription) (c : Open62541Client) : Open62541Client * bool :=
  if bool_decide (nodeBrowsePath pending = "") then (c, false)
  else
    let i := length (cl_subscriptions c) in
    let c := set_subscriptions (cl_subscriptions c ++ [pending]) c in
    if cl_running c then armMonitoredItem c (i, pending) else (c, true).

(** The items of the session, by the entries they report to. *)
Definition armed (c : Open62541Client) : list nat :=
  match cl_client c with Some (Some k) => map snd (uc_items k) | _ => [] end.
End Client.
Arguments Open62541Client K : clear implicits.

(* ------------------------------------------------------------------ *)
(** ** The bridge *)

Record BridgeConfig := mkBridgeConfig { topicPrefix : string; equipmentCount : Z; qualityCount : Z }.
Definition default_bridge : BridgeConfig := mkBridgeConfig "Factory" 3 3.

Definition status_path (cfg : BridgeConfig) (id : Z) : string := (topicPrefix cfg ++ "/EquipmentLines/Line" ++ to_string id ++ "/Status")%string.
Definition supply_path (cfg : BridgeConfig) (id : Z) : string := (topicPrefix cfg ++ "/EquipmentLines/Line" ++ to_string id ++ "/Supply")%string.
Definition rate_path (cfg : BridgeConfig) (id : Z) : string := (topicPrefix cfg ++ "/QualityCheckpoints/Checkpoint" ++ to_string id ++ "/PassRate")%string.

(** The subscriptions [wire] asks for, in order. *)
Definition bridge_subscriptions (cfg : BridgeConfig) : list PendingSubscription :=
  let equipmentBound := if kMaxTrackedEquipment <? equipmentCount cfg then kMaxTrackedEquipment else equipmentCount cfg in
  let qualityBound := if kMaxTrackedQuality <? qualityCount cfg then kMaxTrackedQuality else qualityCount cfg in
  flat_map (fun id => [mkPending (status_path cfg id) TypeInt32 (OnStatus id); mkPending (supply_path cfg id) TypeInt32 (OnSupply id)])
    (seqZ 0 equipmentBound) ++
  map (fun id => mkPending (rate_path cfg id) TypeFloat (OnPassRate id)) (seqZ 0 qualityBound).
Definition opc_wire {K} `{UaClientLib K} (cfg : BridgeConfig) (client_ : Open62541Client K) : Open62541Client K :=
  fold_left (fun c p => fst (registerSubscription p c)) (bridge_subscriptions cfg) client_.

(** The dedup caches are those of the Modbus bridge. *)
Section Notifications.
Context {M : Type} `{ProductionModel M}.

Definition kEquipmentStatusOffline : Z := 0.

Definition onStatusNotification (b : ModbusIngestBridge) (model_ : M) (id status : Z) : outcome (ModbusIngestBridge * M) :=
  if kMaxTrackedEquipment <=? id then Ret (b, model_)
  else
    let enabled := negb (status =? kEquipmentStatusOffline) in
    c ← observe Bool.eqb (lastEnabled_ b) id enabled;
    match c with
    | None => Ret (b, model_)
    | Some cache => Ret (mkBridge cache (lastSupplyLevel_ b) (lastPassRate_ b), setEquipmentEnabled model_ id enabled)
    end.

Definition onSupplyNotification (b : ModbusIngestBridge) (model_ : M) (id supply : Z) : outcome (ModbusIngestBridge * M) :=
  if id <? kMaxTrackedEquipment then
    c ← observe Z.eqb (lastSupplyLevel_ b) id supply;
    match c with
    | None => Ret (b, model_)
    | Some cache => Ret (mkBridge (lastEnabled_ b) cache (lastPassRate_ b), setEquipmentSupplyLevel model_ id supply)
    end
  else Ret (b, setEquipmentSupplyLevel model_ id supply).

Definition onPassRateNotification (b : ModbusIngestBridge) (model_ : M) (id : Z) (rate : float32) : outcome (ModbusIngestBridge * M) :=
  if id <? kMaxTrackedQuality then
    c ← observe f32_eqb (lastPassRate_ b) id rate;
    match c with
    | None => Ret (b, model_)
    | Some cache => Ret (mkBridge (lastEnabled_ b) (lastSupplyLevel_ b) cache, setQualityPassRate model_ id rate)
    end
  else Ret (b, setQualityPassRate model_ id rate).

(** [onDataChange] with the entry of an item: the callback of its type, when
    the value has it. The bridge's callbacks have the types it subscribes
    with. *)
Definition onDataChange (pending : PendingSubscription) (v : UaValue) (b : ModbusIngestBridge) (model_ : M) :
    outcome (ModbusIngestBridge * M) :=
  match value_type pending, v, callback pending with
  | TypeInt32, UaInt32 z, OnStatus id => onStatusNotification b model_ id z
  | TypeInt32, UaInt32 z, OnSupply id => onSupplyNotification b model_ id z
  | TypeFloat, UaFloat f, OnPassRate id => onPassRateNotification b model_ id f
  | _, _, _ => Ret (b, model_)
  end.

(** The notifications of the session: item and value. Only armed entries are
    notified. *)
Fixpoint notifications (pending : list PendingSubscription) (armed : list nat) (b : ModbusIngestBridge) (m : M)
    (l : list (nat * UaValue)) : outcome (ModbusIngestBridge * M) :=
  match l with
  | [] => Ret (b, m)
  | (i, v) :: l =>
      match (if decide (i ∈ armed) then pending !! i else None) with
      | None => notifications pending armed b m l
      | Some p => bm ← onDataChange p v b m; notifications pending armed (fst bm) (snd bm) l
      end
  end.
End Notifications.

(* ------------------------------------------------------------------ *)
(** ** Arming *)

Section Arming.
Context {K : Type} `{CL : UaClientLib K}.
Implicit Types c : Open62541Client K.

Definition resolves (k : K) (p : PendingSubscription) : bool := bool_decide (is_Some (client_resolveNode k (nodeBrowsePath p))).

(** What arming leaves alone. *)
Record same_client c c' : Prop := {
  sc_running : cl_running c' = cl_running c;
  sc_subscription : cl_subscriptionId c' = cl_subscriptionId c;
  sc_subscriptions : cl_subscriptions c' = cl_subscriptions c;
}.
Lemma same_client_refl c : same_client c c.
Proof. split; reflexivity. Qed.
Lemma same_client_trans c1 c2 c3 : same_client c1 c2 -> same_client c2 c3 -> same_client c1 c3.
Proof. intros [] []. split; congruence. Qed.

Definition arm_all (entries : list (nat * PendingSubscription)) c : Open62541Client K :=
  fold_left (fun c entry => fst (armMonitoredItem c entry)) entries c.

(** On a session that has the subscription, the entries whose path the server
    knows are armed. *)
Lemma arm_all_armed entries : forall c k,
  cl_client c = Some (Some k) -> cl_subscriptionId c <> 0 -> uc_has_sub k (cl_subscriptionId c) = true ->
  0 <= cl_monitored c < 18446744073709551616 ->
  let live := filter (fun e => resolves k (snd e) = true) entries in
  let c' := arm_all entries c in
  same_client c c' /\ armed c' = armed c ++ map fst live /\ cl_monitored c' = u64 (cl_monitored c + Z.of_nat (length live)).
Proof.
  induction entries as [|[i p] entries IH]; intros c k Ek Hid Hs Hm; cbv zeta.
  - split; [apply same_client_refl|]. cbn. rewrite app_nil_r, Z.add_0_r, u64_id by lia. auto.
  - cbn [arm_all fold_left]. fold (arm_all entries (fst (armMonitoredItem c (i, p)))). unfold armMonitoredItem. rewrite Ek.
    rewrite (proj2 (Z.eqb_neq _ _) Hid). rewrite filter_cons. cbn [snd].
    assert (Hres : resolves k p = bool_decide (is_Some (client_resolveNode k (nodeBrowsePath p)))) by reflexivity.
    destruct (client_resolveNode k (nodeBrowsePath p)) as [n|] eqn:En.
    + rewrite ?En in Hres. rewrite bool_decide_eq_true_2 in Hres by eauto. rewrite (decide_True (P := resolves k p = true)) by exact Hres.
      pose proof (item_law k (cl_subscriptionId c) n i) as L. destruct (uc_createDataChange _ n i k) as [k'|]; [|congruence].
      destruct L as (_ & L2 & L3 & L4). cbn [fst].
      set (c1 := set_monitored _ _).
      destruct (IH c1 k') as (I1 & I2 & I3); [reflexivity|exact Hid|cbn; rewrite L3; exact Hs|apply u64_range|].
      assert (Er : filter (fun e => resolves k' (snd e) = true) entries = filter (fun e => resolves k (snd e) = true) entries).
      { apply list_filter_iff. intros e. unfold resolves, client_resolveNode. destruct (parseBrowsePath _); [reflexivity|]. rewrite L4. reflexivity. }
      rewrite Er in I2, I3. split; [destruct I1; split; assumption|]. split.
      * rewrite I2. unfold armed at 1 2. cbn [cl_client c1 set_monitored set_client]. rewrite L2, map_app, Ek. cbn. rewrite <- app_assoc. reflexivity.
      * rewrite I3. cbn [cl_monitored c1 set_monitored]. unfold u64. rewrite Zplus_mod_idemp_l. f_equal. cbn [length]. lia.
    + rewrite ?En in Hres. rewrite bool_decide_eq_false_2 in Hres by (intros [? ?]; discriminate). rewrite (decide_False (P := resolves k p = true)) by congruence. cbn [fst].
      apply IH; assumption.
Qed.

(** On a session that has not, none is. *)
Lemma arm_all_deaf entries : forall c k, cl_client c = Some (Some k) -> (forall id, uc_has_sub k id = false) -> arm_all entries c = c.
Proof.
  induction entries as [|[i p] entries IH]; intros c k Ek Hs; [reflexivity|]. cbn [arm_all fold_left].
  fold (arm_all entries (fst (armMonitoredItem c (i, p)))).
  assert (E : fst (armMonitoredItem c (i, p)) = c).
  { unfold armMonitoredItem. rewrite Ek. destruct (_ =? 0); [reflexivity|]. destruct (client_resolveNode _ _) as [n|]; [|reflexivity].
    pose proof (item_law k (cl_subscriptionId c) n i) as L. destruct (uc_createDataChange _ n i k); [|reflexivity].
    destruct L as (L & _). rewrite Hs in L. discriminate. }
  rewrite E. apply (IH c k); assumption.
Qed.

(** A start on a new session, from a client without a subscription. *)
Lemma start_armed c k id k' :
  cl_running c = false -> cl_subscriptionId c = 0 -> 0 <= cl_monitored c < 18446744073709551616 ->
  uc_session k -> uc_createSubscription k = Some (id, k') ->
  let live := filter (fun e => resolves k (snd e) = true) (imap pair (cl_subscriptions c)) in
  exists c', client_start (Session k) c = (c', true) /\ cl_running c' = true /\ cl_subscriptions c' = cl_subscriptions c /\
    armed c' = map fst live /\ cl_monitored c' = u64 (cl_monitored c + Z.of_nat (length live)).
Proof.
  intros Hr H0 Hm Hk Es. cbv zeta. unfold client_start. rewrite Hr. cbn [connectSync].
  unfold createSubscription. cbn [cl_subscriptionId set_client set_running]. rewrite H0. cbn [Z.eqb negb cl_client]. change (cl_client (set_client (Some (Some k)) (set_running true c))) with (Some (Some k)). cbv iota beta. rewrite Es. cbn [negb].
  destruct (subscription_law k id k' Es) as (S1 & S2 & S3 & S4). destruct (session_law k Hk) as [N1 N2].
  set (c1 := set_subscription _ _).
  destruct (arm_all_armed (imap pair (cl_subscriptions c)) c1 k') as ([A1 A2 A3] & A4 & A5); [reflexivity|exact S1|exact S2|exact Hm|].
  assert (Er : filter (fun e => resolves k' (snd e) = true) (imap pair (cl_subscriptions c)) =
               filter (fun e => resolves k (snd e) = true) (imap pair (cl_subscriptions c))).
  { apply list_filter_iff. intros e. unfold resolves, client_resolveNode. destruct (parseBrowsePath _); [reflexivity|]. rewrite S4. reflexivity. }
  rewrite Er in A4, A5. eexists. split; [reflexivity|].
  change (replaySubscriptions c1) with (arm_all (imap pair (cl_subscriptions c)) c1). cbn [set_worker cl_running cl_subscriptions cl_monitored].
  split; [exact A1|]. split; [exact A3|]. split; [|exact A5].
  change (armed (set_worker true (arm_all (imap pair (cl_subscriptions c)) c1))) with (armed (arm_all (imap pair (cl_subscriptions c)) c1)).
  rewrite A4. unfold armed. cbn [cl_client c1 set_subscription set_client]. rewrite S3, N1. reflexivity.
Qed.

(** Subscribing before the start queues. *)
Lemma wire_queues cfg c : cl_running c = false -> Forall (fun p => nodeBrowsePath p <> ""%string) (bridge_subscriptions cfg) ->
  opc_wire cfg c = set_subscriptions (cl_subscriptions c ++ bridge_subscriptions cfg) c.
Proof.
  intros Hr H. unfold opc_wire. revert c Hr. induction H as [|p l Hp H IH]; intros c Hr; cbn [fold_left].
  - rewrite app_nil_r. destruct c; reflexivity.
  - unfold registerSubscription at 2. rewrite bool_decide_eq_false_2 by exact Hp.
    cbn [cl_running set_subscriptions]. rewrite Hr. cbn [fst]. rewrite IH by exact Hr. cbn. rewrite <- app_assoc. reflexivity.
Qed.
End Arming.

(* ------------------------------------------------------------------ *)
(** ** Forwarding *)

Section Forwarding.
Context {M : Type} `{PM : ProductionModel M}.

(** What a notification means to the model. *)
Definition notice (p : PendingSubscription) (v : UaValue) : option (Z * semantic_value) :=
  match value_type p, v, callback p with
  | TypeInt32, UaInt32 z, OnStatus id => Some (id, VEnabled (negb (z =? 0)))
  | TypeInt32, UaInt32 z, OnSupply id => Some (id, VSupply z)
  | TypeFloat, UaFloat f, OnPassRate id => Some (id, VRate f)
  | _, _, _ => None
  end.

Definition handler_entity (h : opc_handler) : Z := match h with OnStatus id | OnSupply id | OnPassRate id => id end.

Ltac opc_case Hlen :=
  rewrite observe_spec by (rewrite Hlen; lia); cbn;
  match goal with |- context [mjoin ?o] => destruct (mjoin o) as [c|]; cbn end;
  [match goal with |- context [if ?t then Ret None else _] => destruct t end|]; reflexivity.

Lemma notification_decision p v b (m : M) : bridge_ok b -> 0 <= handler_entity (callback p) < 16 ->
  onDataChange p v b m = match notice p v with
    | None => Ret (b, m)
    | Some (e, x) => let (b', o) := decision_of b e x in Ret (b', foldl apply_call m o)
    end.
Proof.
  intros (H1 & H2 & H3) He. unfold onDataChange, notice, decision_of.
  destruct (value_type p), v, (callback p) as [id|id|id]; try reflexivity; cbn [handler_entity] in He; rewrite (proj2 (Z.ltb_lt id 16)) by lia;
    unfold onStatusNotification, onSupplyNotification, onPassRateNotification, kMaxTrackedEquipment, kMaxTrackedQuality, kEquipmentStatusOffline;
    rewrite ?(proj2 (Z.leb_gt 16 id)), ?(proj2 (Z.ltb_lt id 16)) by lia; cbn [kind_of last_of]; [opc_case H3|opc_case H1|opc_case H2].
Qed.
End Forwarding.

(** The notifications of armed entries, as values for the model. *)
Definition notices (pending : list PendingSubscription) (armed : list nat) (l : list (nat * UaValue)) : list (Z * semantic_value) :=
  omap (fun x => match (if decide (x.1 ∈ armed) then pending !! x.1 else None) with Some p => notice p x.2 | None => None end) l.

Lemma notice_entity p v e x : notice p v = Some (e, x) -> e = handler_entity (callback p).
Proof. unfold notice. destruct (value_type p), v, (callback p); try discriminate; intros [= <- _]; reflexivity. Qed.

Lemma notifications_run pending armed l : forall b,
  bridge_ok b -> Forall (fun p => 0 <= handler_entity (callback p) < 16) pending ->
  exists b' o,
    (forall M (PM : ProductionModel M) (m : M), notifications pending armed b m l = Ret (b', foldl apply_call m o)) /\
    forall f e, 0 <= e < 16 -> of_key f e o = without_repeats (last_of b f e) (of_key f e (notices pending armed l)).
Proof.
  induction l as [|[i v] l IH]; intros b Hb Hp; cbn [notifications notices omap list_omap fst snd].
  - exists b, []. split; [reflexivity|]. intros f e _. reflexivity.
  - destruct (if decide (i ∈ armed) then pending !! i else None) as [p|] eqn:Ei; [|apply IH; assumption].
    assert (He : 0 <= handler_entity (callback p) < 16).
    { destruct (decide (i ∈ armed)); [|discriminate]. eapply (Forall_lookup_1 _ _ _ _ Hp Ei). }
    destruct (notice p v) as [[e0 x]|] eqn:En.
    + pose proof (notice_entity p v e0 x En) as ->. set (e0 := handler_entity (callback p)) in *.
      pose proof (decision_ok b e0 x Hb) as Hb1. pose proof (fun f e rest => decision_passed b e0 x f e rest Hb (proj1 He)) as Hpass.
      pose proof (fun M PM m => notification_decision (M := M) (PM := PM) p v b m Hb He) as Hstep. rewrite En in Hstep.
      destruct (decision_of b e0 x) as [b1 o1]. cbn [fst snd] in *. destruct (IH b1 Hb1 Hp) as (b' & o & Hrun & Ho).
      exists b', (o1 ++ o). split.
      * intros M PM m. rewrite Hstep. cbn [mbind outcome_bind fst snd]. rewrite Hrun, foldl_app. reflexivity.
      * intros f e Hef. rewrite of_key_app, Ho by exact Hef.
        specialize (Hpass f e (of_key f e (notices pending armed l)) (proj1 Hef)). unfold passed in Hpass. rewrite (proj2 (Z.ltb_lt e 16)) in Hpass by lia.
        rewrite <- Hpass. f_equal. symmetry. apply (of_key_app f e [(e0, x)]).
    + destruct (IH b Hb Hp) as (b' & o & Hrun & Ho). exists b', o. split; [|exact Ho]. intros M PM m.
      rewrite notification_decision by assumption. rewrite En. cbn [mbind outcome_bind fst snd]. apply Hrun.
Qed.

Lemma bridge_entities cfg : Forall (fun p => 0 <= handler_entity (callback p) < 16) (bridge_subscriptions cfg).
Proof.
  unfold bridge_subscriptions, kMaxTrackedEquipment, kMaxTrackedQuality. apply Forall_app. split.
  - apply Forall_flat_map, Forall_forall. intros id Hid. apply elem_of_seqZ in Hid.
    assert (0 <= id < 16) by (destruct (Z.ltb_spec 16 (equipmentCount cfg)); lia).
    repeat (apply Forall_cons; split; [assumption|]). apply Forall_nil. exact I.
  - apply Forall_map, Forall_forall. intros id Hid. apply elem_of_seqZ in Hid. cbn. destruct (Z.ltb_spec 16 (qualityCount cfg)); lia.
Qed.

(* ------------------------------------------------------------------ *)
(** ** In front of the program's own server *)

Lemma no_supply_node cmds id n : ~ schema cmds (p_line id ++ ["Supply"]) n.
Proof.
  intros H. schema_inv H.
  match goal with F : (_, _) ∈ line_kinds |- _ => unfold line_kinds in F; rewrite !elem_of_cons, elem_of_nil in F; destruct F as [|[|[|[]]]]; discriminate end.
Qed.

(** The default subscriptions are those of three lines and checkpoints. *)
Definition default_paths : list (list string) :=
  flat_map (fun id => [p_line id ++ ["Status"]; p_line id ++ ["Supply"]]) [0; 1; 2] ++ map (fun id => p_check id ++ ["PassRate"]) [0; 1; 2].

Lemma default_resolve {K} `{UaClientLib K} (k : K) :
  map (resolves k) (bridge_subscriptions default_bridge) = map (fun p => bool_decide (is_Some (uc_resolve k p))) default_paths.
Proof. reflexivity. Qed.

Section OwnServer.
Context {S : Type} `{OL : OpcUaServerLaws S} {G : Type} `{RG : RandomSource G} {K : Type} `{CL : UaClientLib K}.
Implicit Types k : K.

(** A session with a server: it finds the paths a client finds. *)
Definition session_with (k : K) (sp : space) : Prop := uc_session k /\ forall p, is_Some (uc_resolve k p) <-> is_Some (sp p).

Lemma own_server_armed cmds n br (w : OpcWorld (S := S) (G := G)) k :
  opc_ok cmds n br w -> up_to_date w -> session_with k (browse (ob_server (ow_backend w))) ->
  map (resolves k) (bridge_subscriptions default_bridge) = [true; false; true; false; true; false; true; true; true].
Proof.
  intros [HM P B] [R [_ _ Pl Pc]] [_ Hs]. destruct (bo_served _ _ _ _ B R) as [Sv _]. rewrite default_resolve.
  set (sp := browse (ob_server (ow_backend w))) in *.
  assert (L : forall id, 0 <= id < 3 -> bool_decide (is_Some (uc_resolve k (p_line id ++ ["Status"]))) = true).
  { intros id Hid. apply bool_decide_eq_true, Hs. destruct (keys_get id _ _ (mo_equipment _ _ HM) (pl_lines _ P) (three id Hid)) as [e He].
    pose proof (Pl id e He) as F. unfold shows in F. rewrite Forall_forall in F.
    pose proof (F ("Status", UaInt32 (eq_status e)) ltac:(left)) as F1. cbn [fst snd] in F1. rewrite F1. eauto. }
  assert (N : forall id, bool_decide (is_Some (uc_resolve k (p_line id ++ ["Supply"]))) = false).
  { intros id. apply bool_decide_eq_false. rewrite Hs. intros [x Hx]. apply (no_supply_node cmds id x), (sv_conforms _ _ Sv), Hx. }
  assert (C : forall id, 0 <= id < 3 -> bool_decide (is_Some (uc_resolve k (p_check id ++ ["PassRate"]))) = true).
  { intros id Hid. apply bool_decide_eq_true, Hs. destruct (keys_get id _ _ (mo_quality _ _ HM) (pl_checkpoints _ P) (three id Hid)) as [q Hq].
    pose proof (Pc id q Hq) as F. unfold shows in F. rewrite Forall_forall in F.
    pose proof (F ("PassRate", UaFloat (passRate q)) ltac:(right; right; left)) as F1. cbn [fst snd] in F1. rewrite F1. eauto. }
  unfold default_paths. cbn [flat_map map app]. rewrite !N, !L, !C by lia. reflexivity.
Qed.

(** The entries that resolve, by their indices. *)
Lemma live_indices k (l : list PendingSubscription) bs : map (resolves k) l = bs ->
  map fst (filter (fun e => resolves k (snd e) = true) (imap pair l)) = map fst (filter (fun e => snd e = true) (imap pair bs)).
Proof.
  intros <-.
  assert (E : forall h : nat -> nat, map fst (filter (fun e => resolves k (snd e) = true) (imap (fun i x => (h i, x)) l)) =
    map fst (filter (fun e => snd e = true) (imap (fun i x => (h i, x)) (map (resolves k) l)))); [|exact (E (fun i => i))].
  induction l as [|p l IH]; intros h; [reflexivity|]. cbn [map imap]. rewrite !filter_cons. cbn [snd].
  destruct (decide (resolves k p = true)); cbn [map fst]; [f_equal|]; apply (IH (fun i => h (Datatypes.S i))).
Qed.
End OwnServer.

(* ------------------------------------------------------------------ *)
(** ** Properties *)

(** What the ingest bridge forwards. Whatever is configured, whatever entries
    are armed and whatever the server notifies, every call completes, the calls
    to the model do not depend on the model, and per line or checkpoint and
    field they are the notified values of the subscribed type, in order, without
    those equal to the last one forwarded. *)
Theorem opcua_ingest_forwards (cfg : BridgeConfig) (armed : list nat) (l : list (nat * UaValue)) :
  exists b' calls,
    (forall M (PM : ProductionModel M) (m : M),
       notifications (bridge_subscriptions cfg) armed bridge_init m l = Ret (b', foldl apply_call m calls)) /\
    forall f e, 0 <= e < 16 -> of_key f e calls = without_repeats None (of_key f e (notices (bridge_subscriptions cfg) armed l)).
Proof.
  destruct (notifications_run (bridge_subscriptions cfg) armed l bridge_init bridge_init_ok (bridge_entities cfg)) as (b' & o & H & Ho).
  exists b', o. split; [exact H|]. intros f e He. rewrite Ho by exact He. rewrite bridge_init_last. reflexivity.
Qed.

(** The bridge against the program's own server. When the server's nodes are
    up to date at the client's start, the status of every line and the pass
    rate of every checkpoint are monitored, and no supply level ever is: the
    server has no node of that name. *)
Theorem opcua_loopback {S} `{OpcUaServerLaws S} {G} `{RandomSource G} {K} `{UaClientLib K} (br : nat) (cmds : bool) (s0 : S) (g : G)
    (l1 l2 : list opc_event) (b : boot) (o : model_op) (endpoint : string) (secured : bool) :
  server_ok s0 -> isRunning s0 = false ->
  (forall s : S, server_ok s -> isRunning s = false -> exists s', start b s = Ret s') ->
  opc_history_ok l1 o -> Forall opc_event_ok l2 -> OStop ∉ l2 -> Z.of_nat (length l1 + length l2) < 700000000 ->
  exists w, opc_run br (l1 ++ [OStart b; OModel o] ++ l2) (opc_init cmds s0 g) = Ret w /\
    forall (k : K) id k', session_with k (browse (ob_server (ow_backend w))) -> uc_createSubscription k = Some (id, k') ->
    exists c, client_start (Session k) (opc_wire default_bridge (client_init endpoint secured)) = (c, true) /\
      client_connectionState c = Connected /\ armed c = [0; 2; 4; 6; 7; 8]%nat /\ monitoredItemCount c = 6.
Proof.
  intros Hok Hr Hb Hh Hl2 Hstop Hlen.
  destruct (opc_serves br cmds s0 g l1 l2 b o Hok Hr Hb Hh Hl2 Hstop Hlen) as (n & w & E & O & U).
  exists w. split; [exact E|]. intros k id k' Hs Es.
  rewrite wire_queues by (try reflexivity; vm_decide).
  set (c0 := client_init (K := K) endpoint secured).
  destruct (start_armed (set_subscriptions (cl_subscriptions c0 ++ bridge_subscriptions default_bridge) c0) k id k')
    as (c & Ec & R & _ & Ha & Hm); [reflexivity|reflexivity|cbn; lia|apply Hs|exact Es|].
  exists c. split; [exact Ec|]. unfold client_connectionState, monitoredItemCount. rewrite R. split; [reflexivity|].
  cbn [cl_subscriptions set_subscriptions c0 client_init app] in Ha, Hm. pose proof (own_server_armed cmds n br w k O U Hs) as El.
  rewrite (live_indices k _ _ El) in Ha. split; [exact Ha|]. rewrite Hm.
  rewrite <- (length_map fst), (live_indices k _ _ El). reflexivity.
Qed.

(** A client that is started again after its connection broke hears nothing:
    the subscription id of the broken session is kept, no subscription is made
    on the new one, and every item is refused, while the client reports
    Connected. *)
Theorem opcua_restart_deaf_refuted {K} `{UaClientLib K} (c : Open62541Client K) (k : K) :
  cl_worker c = true -> cl_subscriptionId c <> 0 -> uc_session k ->
  exists c', client_start (Session k) (client_transport_failure c) = (c', true) /\
    client_connectionState c' = Connected /\ armed c' = [].
Proof.
  intros Hw Hid Hk. destruct (session_law k Hk) as [N1 N2]. unfold client_transport_failure. rewrite Hw. unfold client_start.
  cbn [cl_running set_worker set_running connectSync]. unfold createSubscription. cbn [cl_subscriptionId set_client set_running set_worker].
  rewrite (proj2 (Z.eqb_neq _ _) Hid). cbn [negb]. eexists. split; [reflexivity|].
  match goal with |- context [replaySubscriptions ?c1] => change (replaySubscriptions c1) with (arm_all (imap pair (cl_subscriptions c1)) c1);
    rewrite (arm_all_deaf _ c1 k) by (reflexivity || exact N2) end.
  split; [reflexivity|]. unfold armed. cbn [cl_client set_worker set_client]. rewrite N1. reflexivity.
Qed.

(* ------------------------------------------------------------------ *)
(** ** Witnesses *)

(** The laws can be met: a session that knows what the server has. *)
Record MapSession := mkSession { ms_find : list string -> bool; ms_subs : list Z; ms_items : list (list string * nat) }.
Definition session_on (sp : space) : MapSession := mkSession (fun p => bool_decide (is_Some (sp p))) [] [].

#[export] Program Instance MapClientLib : UaClientLib MapSession := {|
  NodeRef := list string;
  uc_resolve k p := if ms_find k p then Some p else None;
  uc_items := ms_items;
  uc_has_sub k id := bool_decide (id ∈ ms_subs k);
  uc_createSubscription k := Some (1, mkSession (ms_find k) (1 :: ms_subs k) (ms_items k));
  uc_createDataChange sub n ctx k := if bool_decide (sub ∈ ms_subs k) then Some (mkSession (ms_find k) (ms_subs k) (ms_items k ++ [(n, ctx)])) else None;
  uc_session k := ms_subs k = [] /\ ms_items k = [];
|}.
Next Obligation. intros k [H1 H2]. split; [exact H2|]. intros id. rewrite H1. reflexivity. Qed.
Next Obligation. intros k id k' [= <- <-]. cbn. split; [lia|]. split; [apply bool_decide_eq_true; left|auto]. Qed.
Next Obligation. intros k sub n ctx. cbn. case_bool_decide as E; [|reflexivity]. split_and!; reflexivity. Qed.

Lemma session_on_with sp : session_with (session_on sp) sp.
Proof.
  split; [split; reflexivity|]. intros p. unfold session_on. cbn. case_bool_decide as E; [split; eauto|]. split; [intros [? ?]; discriminate|intros E'; elim E; exact E'].
Qed.

Lemma opcua_loopback_witness :
  exists w, opc_run 5 (opc_before ++ [OStart map_boot; OModel RepublishAll] ++ opc_after) (opc_init true (map_server 4840) tt) = Ret w /\
    exists c, client_start (Session (session_on (browse (ob_server (ow_backend w))))) (opc_wire default_bridge (client_init "opc.tcp://127.0.0.1:4840" false)) = (c, true) /\
      client_connectionState c = Connected /\ armed c = [0; 2; 4; 6; 7; 8]%nat /\ monitoredItemCount c = 6.
Proof.
  destruct (opcua_loopback (K := MapSession) 5 true (map_server 4840) tt opc_before opc_after map_boot RepublishAll "opc.tcp://127.0.0.1:4840" false) as (w & E & L).
  - reflexivity.
  - reflexivity.
  - exact map_boots.
  - split; [|left; reflexivity]. repeat (apply Forall_cons; split; [cbn; try exact I; lia|]). apply Forall_nil. exact I.
  - repeat (apply Forall_cons; split; [cbn; unfold is_u32; try exact I; lia|]). apply Forall_nil. exact I.
  - unfold opc_after. rewrite !not_elem_of_cons. repeat split; try discriminate. apply not_elem_of_nil.
  - vm_compute. reflexivity.
  - exists w. split; [exact E|]. exact (L _ 1 _ (session_on_with _) eq_refl).
Defined.

Lemma opcua_restart_deaf_refuted_witness :
  let c := fst (client_start (Session (session_on (fun _ => Some UaObject))) (opc_wire default_bridge (client_init "opc.tcp://127.0.0.1:4840" false))) in
  exists c', client_start (Session (session_on (fun _ => Some UaObject))) (client_transport_failure c) = (c', true) /\
    client_connectionState c' = Connected /\ armed c' = [].
Proof. apply opcua_restart_deaf_refuted; [vm_compute; reflexivity|vm_compute; discriminate|split; reflexivity]. Defined.

(** A client started with the backend, before the model has told anything (the
    order of the program's start), arms nothing: the nodes of lines and
    checkpoints are made by their first notification. *)
Theorem opcua_early_client_deaf_refuted :
  (w ← opc_run 5 [OStart map_boot] (opc_init true (map_server 4840) tt);
   let c := fst (client_start (Session (session_on (browse (ob_server (ow_backend w))))) (opc_wire default_bridge (client_init "" false))) in
   Ret (client_connectionState c, armed c, monitoredItemCount c)) = Ret (Connected, [], 0).
Proof. vm_compute. reflexivity. Qed.
