(* ===== verification/McpServer.v ===== *)
(** * The MCP server
    (src/mcp/McpServer.{h,cpp}, McpProtocol.{h,cpp}, McpError.h, tools/)

    A JSON-RPC request per line is answered by a line: the tool list, three
    tools that read and one that gives production commands through the
    dashboard's handlers. The JSON library is a parameter. *)
From S2P Require Import Prelude Float32 Float64 Format SystemState SimulatedModel AlertCenter Auth Users Sql Historian Result Json.
Local Open Scope string_scope.
Local Open Scope Z_scope.
Local Open Scope list_scope.

Class HistoryReader (H : Type) := { reader_query : H -> FieldKind -> Z -> QueryRange -> outcome (H * list HistoryRecord) }.
#[export] Instance StoreReader `{Sqlite} : HistoryReader Store := {| reader_query := store_query |}.

(* ------------------------------------------------------------------ *)
(** ** Errors *)

Inductive McpErrorCode := ParseError | MethodNotFound | InvalidParams | Unauthorized | InvalidState.

Definition kJsonRpcParseError : Z := -32700.
Definition kJsonRpcMethodNotFound : Z := -32601.
Definition kJsonRpcInvalidParams : Z := -32602.
Definition kJsonRpcInternalError : Z := -32603.

Definition jsonRpcCode (code : McpErrorCode) : Z :=
  match code with
  | ParseError => kJsonRpcParseError
  | MethodNotFound => kJsonRpcMethodNotFound
  | InvalidParams | Unauthorized | InvalidState => kJsonRpcInvalidParams
  end.
Definition defaultMessage (code : McpErrorCode) : string :=
  match code with
  | ParseError => "Parse error"
  | MethodNotFound => "Method not found"
  | InvalidParams => "Invalid params"
  | Unauthorized => "Unauthorized: the agent role may not perform this action"
  | InvalidState => "Invalid state for the requested action"
  end.

Section Mcp.
Context {json : Type} `{JL : JsonLib json}.

(* ------------------------------------------------------------------ *)
(** ** Tools that read *)

Definition kAlarmsSnapshotTool : string := "alarms_snapshot".
Definition kHistorianQueryTool : string := "historian_query".
Definition kProductionMetricsTool : string := "production_metrics".
Definition kEquipmentCommandTool : string := "equipment_command".

Definition severityName (severity : AlertSeverity) : string :=
  match severity with Info => "info" | Warning => "warning" | Critical => "critical" end.
Definition stateName (state : AlarmState) : string :=
  match state with UnackActive => "unack_active" | AckActive => "ack_active" | RtnUnack => "rtn_unack" | Shelved => "shelved" end.

Definition no_arguments : json := jobject [("type", jstring "object"); ("properties", jobject [])].
Definition alarmsSnapshotDescriptor : json :=
  jobject [("name", jstring kAlarmsSnapshotTool);
           ("description", jstring "Current active alarms (ISA-18.2), most urgent first. Read-only.");
           ("inputSchema", no_arguments)].

Definition alert_json (alert : AlertViewModel) : json :=
  jobject [("key", jstring (key alert)); ("severity", jstring (severityName (severity alert)));
           ("state", jstring (stateName (alarm_state alert))); ("priority", jint (priority alert));
           ("title", jstring (title alert)); ("message", jstring (message alert)); ("timestamp", jstring (timestamp alert))].
Definition runAlarmsSnapshot (alerts : AlertCenter) : json := jarray (map alert_json (snapshot alerts)).

Definition productionMetricsDescriptor : json :=
  jobject [("name", jstring kProductionMetricsTool);
           ("description", jstring "Live production KPIs: throughput (units/hour), OEE (percent) and the derived minutes per unit. Read-only.");
           ("inputSchema", no_arguments)].

Definition kFieldMappings : list (FieldKind * string) :=
  [(QualityPassRate, "quality"); (EquipmentSupplyLevel, "supply"); (SystemStateField, "state"); (Throughput, "throughput"); (OeePercent, "oee")].
Definition fieldName (field : FieldKind) : string :=
  match find (fun m => bool_decide (fst m = field)) kFieldMappings with Some m => snd m | None => "quality" end.
Definition fieldFromName (name : string) : option FieldKind :=
  match find (fun m => String.eqb name (snd m)) kFieldMappings with Some m => Some (fst m) | None => None end.

Definition described (type_ description : string) : json := jobject [("type", jstring type_); ("description", jstring description)].
Definition historianQueryDescriptor : json :=
  jobject [("name", jstring kHistorianQueryTool);
    ("description", jstring "Bounded time-series read from the historian archive. Read-only.");
    ("inputSchema", jobject [("type", jstring "object");
      ("properties", jobject [
        ("field", jobject [("type", jstring "string"); ("enum", jarray (map (fun m => jstring (snd m)) kFieldMappings));
          ("description", jstring "Series: quality pass rate, equipment supply level, system state, throughput (units/hour) or OEE (%).")]);
        ("entityId", described "integer" "Checkpoint or equipment id (0 for the global system-state, throughput and OEE series).");
        ("fromMs", described "integer" "Range start, ms since the Unix epoch.");
        ("toMs", described "integer" "Range end, ms since the Unix epoch.");
        ("limit", described "integer" "Max rows, capped at the store default.")]);
      ("required", jarray [jstring "field"])])].

Record HistorianQueryArgs := mkQueryArgs { ha_field : FieldKind; ha_entityId : Z; ha_range : QueryRange }.

Definition parseHistorianArgs (args : json) : outcome (Result HistorianQueryArgs McpErrorCode) :=
  if negb (is_object args) then Ret (Err InvalidParams)
  else
    fieldStr ← value_string args "field" "";
    match fieldFromName fieldStr with
    | None => Ret (Err InvalidParams)
    | Some field =>
        entity ← value_u32 args "entityId" 0;
        from ← value_i64 args "fromMs" 0;
        to ← value_i64 args "toMs" 0;
        requested ← value_size args "limit" kDefaultLimit;
        Ret (Ok (mkQueryArgs field entity (mkRange from to (Z.min requested kDefaultLimit))))
    end.

Definition record_json (r : HistoryRecord) : json :=
  jobject [("timestampMs", jint (timestampMs r)); ("field", jstring (fieldName (hr_field r)));
           ("entityId", jint (Historian.entityId r)); ("value", jdouble (f64_of_f32 (hr_value r)))].
Definition runHistorianQuery {R} `{HistoryReader R} (reader : R) (args : HistorianQueryArgs) : outcome (R * json) :=
  '(reader, records) ← reader_query reader (ha_field args) (ha_entityId args) (ha_range args);
  Ret (reader, jarray (map record_json records)).

(* ------------------------------------------------------------------ *)
(** ** The tool that writes *)

Inductive EquipmentCommand := CmdStart | CmdStop | CmdResetRestart.
#[export] Instance EquipmentCommand_eq_dec : EqDecision EquipmentCommand.
Proof. solve_decision. Defined.

Record CommandMapping := mkMapping { cm_command : EquipmentCommand; cm_name : string; allowed : Role -> bool; invoke : Dashboard -> Dashboard }.
Definition kCommandMappings : list CommandMapping :=
  [mkMapping CmdStart "start" canStartStop onStartClicked; mkMapping CmdStop "stop" canStartStop onStopClicked;
   mkMapping CmdResetRestart "reset" canResetSystem onResetRestartClicked].

Definition mappingFor (command : EquipmentCommand) : CommandMapping :=
  match find (fun m => bool_decide (cm_command m = command)) kCommandMappings with
  | Some m => m
  | None => mkMapping CmdStart "start" canStartStop onStartClicked
  end.
Definition commandFromName (name : string) : option EquipmentCommand :=
  match find (fun m => String.eqb name (cm_name m)) kCommandMappings with Some m => Some (cm_command m) | None => None end.

Definition equipmentCommandDescriptor : json :=
  jobject [("name", jstring kEquipmentCommandTool);
    ("description", jstring "Change the production line state (start / stop / reset). State-changing and audited; the agent role must permit the action (start/stop need Operator, reset needs Maintenance).");
    ("inputSchema", jobject [("type", jstring "object");
      ("properties", jobject [("command", jobject [("type", jstring "string");
         ("enum", jarray (map (fun m => jstring (cm_name m)) kCommandMappings));
         ("description", jstring "Line command: start or stop production, or reset/restart the system.")])]);
      ("required", jarray [jstring "command"])])].

Definition parseEquipmentCommandArgs (args : json) : outcome (Result EquipmentCommand McpErrorCode) :=
  if negb (is_object args) then Ret (Err InvalidParams)
  else
    name ← value_string args "command" "";
    Ret (match commandFromName name with Some c => Ok c | None => Err InvalidParams end).

(** [presenter.hasSession()]: its session pointer is set. *)
Definition hasSession (d : Dashboard) : bool := match d_session d with Some _ => true | None => false end.

Definition runEquipmentCommand (presenter : Dashboard) (session : Session) (command : EquipmentCommand) : Dashboard * Result json McpErrorCode :=
  let mapping := mappingFor command in
  match currentUser session with
  | None => (presenter, Err Unauthorized)
  | Some agent =>
      if negb (hasSession presenter) then (presenter, Err Unauthorized)
      else
        let presenter := invoke mapping presenter in
        if negb (allowed mapping (role agent)) then (presenter, Err Unauthorized)
        else (presenter, Ok (jobject [("command", jstring (cm_name mapping)); ("status", jstring "accepted")]))
  end.

(* ------------------------------------------------------------------ *)
(** ** The protocol *)

Definition kMcpProtocolVersion : string := "2024-11-05".
Definition kServerName : string := "industrial-hmi-mcp".
Definition kServerVersion : string := "1.2.0".
Definition kJsonRpcVersion : string := "2.0".
Definition kMethodInitialize : string := "initialize".
Definition kMethodToolsList : string := "tools/list".
Definition kMethodToolsCall : string := "tools/call".

Definition toolResult (data : json) : outcome json :=
  text ← dump_indent 2 data;
  Ret (jobject [("content", jarray [jobject [("type", jstring "text"); ("text", jstring text)]])]).

Definition handleInitialize : json :=
  jobject [("protocolVersion", jstring kMcpProtocolVersion); ("capabilities", jobject [("tools", jobject [])]);
           ("serverInfo", jobject [("name", jstring kServerName); ("version", jstring kServerVersion)])].
Definition handleToolsList (writeEnabled : bool) : json :=
  jobject [("tools", jarray ([alarmsSnapshotDescriptor; historianQueryDescriptor; productionMetricsDescriptor] ++
                             (if writeEnabled then [equipmentCommandDescriptor] else [])))].

Section Server.
Context {G : Type} {R : Type} `{RD : HistoryReader R}.

(** What the server refers to; the alarms and the model change around it, so
    each request comes with what it finds there. *)
Record McpServer := mkServer { reader_ : R; presenter_ : Dashboard; session_ : Session; writeEnabled_ : bool }.
Definition surroundings : Type := AlertCenter * SimulatedModel G.
Definition set_reader r (s : McpServer) := mkServer r (presenter_ s) (session_ s) (writeEnabled_ s).
Definition set_presenter p (s : McpServer) := mkServer (reader_ s) p (session_ s) (writeEnabled_ s).

(** An exception leaves the server where it was thrown. *)
Definition handleToolsCall (params : json) (around : surroundings) (s : McpServer) : McpServer * outcome (Result json McpErrorCode) :=
  let '(alerts, production) := around in
  let answer (data : json) : outcome (Result json McpErrorCode) := r ← toolResult data; Ret (Ok r) in
  match (name ← value_string params "name" "";
         arguments ← (if contains params "arguments" then at_key params "arguments" else Ret (jobject []));
         Ret (name, arguments)) with
  | Throw e => (s, Throw e)
  | Undef => (s, Undef)
  | Ret (name, arguments) =>
      if String.eqb name kAlarmsSnapshotTool then (s, answer (runAlarmsSnapshot alerts))
      else if String.eqb name kProductionMetricsTool then (s, answer (buildProductionMetricsJson production))
      else if String.eqb name kHistorianQueryTool then
        match parseHistorianArgs arguments with
        | Throw e => (s, Throw e)
        | Undef => (s, Undef)
        | Ret (Err e) => (s, Ret (Err e))
        | Ret (Ok args) =>
            match runHistorianQuery (reader_ s) args with
            | Throw e => (s, Throw e)
            | Undef => (s, Undef)
            | Ret (reader, data) => (set_reader reader s, answer data)
            end
        end
      else if String.eqb name kEquipmentCommandTool then
        if negb (writeEnabled_ s) then (s, Ret (Err MethodNotFound))
        else
          match parseEquipmentCommandArgs arguments with
          | Throw e => (s, Throw e)
          | Undef => (s, Undef)
          | Ret (Err e) => (s, Ret (Err e))
          | Ret (Ok command) =>
              let '(presenter, ran) := runEquipmentCommand (presenter_ s) (session_ s) command in
              (set_presenter presenter s, match ran with Err e => Ret (Err e) | Ok data => answer data end)
          end
      else (s, Ret (Err MethodNotFound))
  end.

Definition successEnvelope (id result : json) : json := jobject [("jsonrpc", jstring kJsonRpcVersion); ("id", id); ("result", result)].
Definition errorEnvelope (id : json) (code : Z) (message : string) : json :=
  jobject [("jsonrpc", jstring kJsonRpcVersion); ("id", id); ("error", jobject [("code", jint code); ("message", jstring message)])].

(** [processLine]: the response written, if any. *)
Definition processLine (line : string) (around : surroundings) (s : McpServer) : McpServer * outcome (list json) :=
  match parse line with
  | None => (s, Ret [errorEnvelope jnull kJsonRpcParseError (defaultMessage ParseError)])
  | Some request =>
      if negb (contains request "id") then (s, Ret [])
      else
        match (id ← at_key request "id";
               method ← value_string request "method" "";
               params ← (if contains request "params" then at_key request "params" else Ret (jobject []));
               Ret (id, method, params)) with
        | Throw e => (s, Throw e)
        | Undef => (s, Undef)
        | Ret (id, method, params) =>
            if String.eqb method kMethodInitialize then (s, Ret [successEnvelope id handleInitialize])
            else if String.eqb method kMethodToolsList then (s, Ret [successEnvelope id (handleToolsList (writeEnabled_ s))])
            else if String.eqb method kMethodToolsCall then
              let '(s, called) := handleToolsCall params around s in
              (s, result ← called;
                  Ret [match result with
                       | Ok data => successEnvelope id data
                       | Err code => errorEnvelope id (jsonRpcCode code) (defaultMessage code)
                       end])
            else (s, Ret [errorEnvelope id kJsonRpcMethodNotFound (defaultMessage MethodNotFound)])
        end
  end.

Definition writeResponse (out : list string) (response : json) : outcome (list string) := t ← dump response; Ret (out ++ [t]).

(** [run]: the lines of the input, each with what surrounds it. It returns
    the server, the text written, and whether an exception or undefined
    behaviour ended it. *)
Fixpoint run (lines : list (string * surroundings)) (s : McpServer) (out : list string) : McpServer * list string * outcome Z :=
  match lines with
  | [] => (s, out, Ret 0)
  | (line, around) :: lines =>
      if String.eqb line "" then run lines s out
      else
        let '(s, responses) := processLine line around s in
        match (rs ← responses; match rs with r :: _ => writeResponse out r | [] => Ret out end) with
        | Ret out => run lines s out
        | Throw e => (s, out, Throw e)
        | Undef => (s, out, Undef)
        end
  end.
End Server.
End Mcp.

(* ------------------------------------------------------------------ *)
(** ** Specification: the command a line asks for *)

(** The dashboard command behind a tool's. *)
Definition dash_command_of (c : EquipmentCommand) : dash_command :=
  match c with CmdStart => DoStart | CmdStop => DoStop | CmdResetRestart => DoReset end.

(** The id and the arguments of a line that calls the writing tool. *)
Definition command_request {json} `{JsonLib json} (line : string) : option (json * outcome (Result EquipmentCommand McpErrorCode)) :=
  match parse line with
  | Some request =>
      if contains request "id" then
        match (id ← at_key request "id"; method ← value_string request "method" "";
               params ← (if contains request "params" then at_key request "params" else Ret (jobject []));
               Ret (id, method, params)) with
        | Ret (id, method, params) =>
            if String.eqb method kMethodToolsCall then
              match (name ← value_string params "name" "";
                     arguments ← (if contains params "arguments" then at_key params "arguments" else Ret (jobject []));
                     Ret (name, arguments)) with
              | Ret (name, arguments) =>
                  if String.eqb name kEquipmentCommandTool then Some (id, parseEquipmentCommandArgs arguments) else None
              | _ => None
              end
            else None
        | _ => None
        end
      else None
  | None => None
  end.

(** The line asks for an answer: it is no JSON, or a request with an id. *)
Definition wants_answer {json} `{JsonLib json} (line : string) : bool :=
  negb (String.eqb line "") && match parse line with Some request => contains request "id" | None => true end.

(* ------------------------------------------------------------------ *)
(** ** Lemmas *)

Section McpLemmas.
Context {json : Type} `{JL : JsonLib json} {G : Type} {R : Type} `{RD : HistoryReader R}.
Implicit Types s : McpServer (R := R).

Lemma mapping_of c : mappingFor c =
  match c with
  | CmdStart => mkMapping CmdStart "start" canStartStop onStartClicked
  | CmdStop => mkMapping CmdStop "stop" canStartStop onStopClicked
  | CmdResetRestart => mkMapping CmdResetRestart "reset" canResetSystem onResetRestartClicked
  end.
Proof. destruct c; reflexivity. Qed.

Lemma invoke_clicks c d : invoke (mappingFor c) d = click (dash_command_of c) d.
Proof. destruct c; reflexivity. Qed.

Lemma allowed_permitted c r : allowed (mappingFor c) r = permitted r (dash_command_of c).
Proof. destruct c, r; reflexivity. Qed.

(** The tool: what it issues, and what it answers. *)
Lemma command_effect (d : Dashboard) (ses : Session) c : d_session d = Some ses ->
  let '(d', r) := runEquipmentCommand (json := json) d ses c in
  d_session d' = Some ses /\
  issued d' = issued d ++ (match currentUser ses with Some u => if permitted (role u) (dash_command_of c) then [dash_command_of c] else [] | None => [] end) /\
  r = (match currentUser ses with
       | Some u => if permitted (role u) (dash_command_of c)
                   then Ok (jobject [("command", jstring (cm_name (mappingFor c))); ("status", jstring "accepted")]) else Err Unauthorized
       | None => Err Unauthorized
       end) /\
  forall log u, d_audit d = Some log -> currentUser ses = Some u ->
    exists e, d_audit d' = Some (log ++ [e]) /\ ev_username e = username u /\
      ev_result e = if permitted (role u) (dash_command_of c) then kSuccess else kFailure.
Proof.
  intros Hs. unfold runEquipmentCommand. destruct (currentUser ses) as [u|] eqn:Hu.
  - unfold hasSession. rewrite Hs. cbn [negb]. rewrite invoke_clicks, allowed_permitted.
    destruct (click_effect d ses (dash_command_of c) Hs) as (E1 & E2 & E3). rewrite Hu in E1.
    replace (d_faultInjector d || negb (bool_decide (dash_command_of c = DoInjectFault))) with true in E1
      by (destruct c; cbn; rewrite orb_true_r; reflexivity).
    rewrite andb_true_r in E1. destruct (permitted (role u) (dash_command_of c)) eqn:P; cbn [negb];
      (split; [exact E2|]); (split; [exact E1|]); (split; [reflexivity|]);
      intros log u' Hl Hu'; destruct (E3 log u' Hl (eq_trans Hu Hu')) as (e & A1 & A2 & A3); injection Hu' as <-;
      exists e; auto.
  - cbn. rewrite app_nil_r. split_and!; auto. discriminate.
Qed.

(** A line that calls no writing tool leaves the dashboard alone. *)
Lemma reading_line line (around : surroundings (G := G)) s : command_request line = None \/ writeEnabled_ s = false ->
  presenter_ (fst (processLine line around s)) = presenter_ s.
Proof.
  intros Hc. unfold processLine, command_request in *. destruct (parse line) as [request|]; [|reflexivity].
  destruct (contains request "id"); [|reflexivity]. cbn [negb].
  destruct (id ← at_key request "id"; _) as [[[id method] params]|e|]; try reflexivity.
  destruct (String.eqb method kMethodInitialize); [reflexivity|]. destruct (String.eqb method kMethodToolsList); [reflexivity|].
  destruct (String.eqb method kMethodToolsCall); [|reflexivity]. unfold handleToolsCall. destruct around as [alerts production].
  destruct (name ← value_string params "name" ""; _) as [[name arguments]|e|]; try reflexivity.
  destruct (String.eqb name kAlarmsSnapshotTool); [reflexivity|]. destruct (String.eqb name kProductionMetricsTool); [reflexivity|].
  destruct (String.eqb name kHistorianQueryTool).
  { destruct (parseHistorianArgs arguments) as [[args|e]|e|]; try reflexivity. destruct (runHistorianQuery _ args) as [[reader data]|e|]; reflexivity. }
  destruct (String.eqb name kEquipmentCommandTool); [|reflexivity].
  destruct Hc as [Hc| ->]; [discriminate|reflexivity].
Qed.

Definition kept s s' : Prop := session_ s' = session_ s /\ writeEnabled_ s' = writeEnabled_ s.

Lemma line_keeps line (around : surroundings (G := G)) s : kept s (fst (processLine line around s)).
Proof.
  unfold processLine. destruct (parse line) as [request|]; [|split; reflexivity]. destruct (contains request "id"); [|split; reflexivity]. cbn [negb].
  destruct (id ← at_key request "id"; _) as [[[id method] params]|e|]; try (split; reflexivity).
  destruct (String.eqb method kMethodInitialize); [split; reflexivity|]. destruct (String.eqb method kMethodToolsList); [split; reflexivity|].
  destruct (String.eqb method kMethodToolsCall); [|split; reflexivity]. unfold handleToolsCall. destruct around as [alerts production].
  destruct (name ← value_string params "name" ""; _) as [[name arguments]|e|]; try (split; reflexivity).
  destruct (String.eqb name kAlarmsSnapshotTool); [split; reflexivity|]. destruct (String.eqb name kProductionMetricsTool); [split; reflexivity|].
  destruct (String.eqb name kHistorianQueryTool).
  { destruct (parseHistorianArgs arguments) as [[args|e]|e|]; try (split; reflexivity). destruct (runHistorianQuery _ args) as [[reader data]|e|]; split; reflexivity. }
  destruct (String.eqb name kEquipmentCommandTool); [|split; reflexivity]. destruct (writeEnabled_ s) eqn:Hw; cbn [negb]; [|split; reflexivity].
  destruct (parseEquipmentCommandArgs arguments) as [[c|e]|e|]; try (split; reflexivity).
  destruct (runEquipmentCommand (presenter_ s) (session_ s) c) as [presenter [data|e]]; split; cbn; auto.
Qed.

(** A line that calls it. *)
Lemma command_line line (around : surroundings (G := G)) s id args : command_request line = Some (id, args) -> writeEnabled_ s = true ->
  processLine line around s =
  match args with
  | Ret (Ok c) =>
      let '(presenter, ran) := runEquipmentCommand (presenter_ s) (session_ s) c in
      (set_presenter presenter s,
       match ran with
       | Ok data => r ← toolResult data; Ret [successEnvelope id r]
       | Err e => Ret [errorEnvelope id (jsonRpcCode e) (defaultMessage e)]
       end)
  | Ret (Err e) => (s, Ret [errorEnvelope id (jsonRpcCode e) (defaultMessage e)])
  | Throw e => (s, Throw e)
  | Undef => (s, Undef)
  end.
Proof.
  intros Hc Hw. unfold processLine, command_request in *. destruct (parse line) as [request|]; [|discriminate].
  destruct (contains request "id"); [|discriminate]. cbn [negb].
  destruct (id ← at_key request "id"; _) as [[[id' method] params]|e|]; try discriminate.
  destruct (String.eqb method kMethodToolsCall) eqn:Em; [|discriminate]. apply String.eqb_eq in Em. subst method.
  change (String.eqb kMethodToolsCall kMethodInitialize) with false. change (String.eqb kMethodToolsCall kMethodToolsList) with false. cbn iota.
  unfold handleToolsCall. destruct around as [alerts production].
  destruct (name ← value_string params "name" ""; _) as [[name arguments]|e|]; try discriminate.
  destruct (String.eqb name kEquipmentCommandTool) eqn:En; [|discriminate]. apply String.eqb_eq in En. subst name.
  change (String.eqb kEquipmentCommandTool kAlarmsSnapshotTool) with false. change (String.eqb kEquipmentCommandTool kProductionMetricsTool) with false.
  change (String.eqb kEquipmentCommandTool kHistorianQueryTool) with false. cbn iota. rewrite Hw. cbn [negb]. injection Hc as -> <-.
  destruct (parseEquipmentCommandArgs arguments) as [[c|e]|e|]; try reflexivity.
  destruct (runEquipmentCommand (presenter_ s) (session_ s) c) as [presenter [data|e]]; [|reflexivity].
  destruct (toolResult data); reflexivity.
Qed.

Lemma line_answers line (around : surroundings (G := G)) s rs : String.eqb line "" = false -> snd (processLine line around s) = Ret rs ->
  length rs = if wants_answer line then 1%nat else 0%nat.
Proof.
  intros Hne. unfold wants_answer. rewrite Hne. cbn [negb andb]. unfold processLine. destruct (parse line) as [request|]; [|intros [= <-]; reflexivity].
  destruct (contains request "id"); [|intros [= <-]; reflexivity]. cbn [negb].
  destruct (id ← at_key request "id"; _) as [[[id method] params]|e|]; try discriminate.
  destruct (String.eqb method kMethodInitialize); [intros [= <-]; reflexivity|]. destruct (String.eqb method kMethodToolsList); [intros [= <-]; reflexivity|].
  destruct (String.eqb method kMethodToolsCall); [|intros [= <-]; reflexivity].
  destruct (handleToolsCall params around s) as [s' called]. cbn [snd]. destruct called as [result|e|]; [intros [= <-]; reflexivity|discriminate..].
Qed.
End McpLemmas.

(** The command a line gives, in a server's state. *)
Definition gives {json} `{JsonLib json} {R} (s : McpServer (R := R)) (line : string) : list dash_command :=
  if String.eqb line "" || negb (writeEnabled_ s) then []
  else
    match command_request (json := json) line, currentUser (session_ s) with
    | Some (_, Ret (Ok c)), Some u => if permitted (role u) (dash_command_of c) then [dash_command_of c] else []
    | _, _ => []
    end.

Section McpRuns.
Context {json : Type} `{JL : JsonLib json} {G : Type} {R : Type} `{RD : HistoryReader R}.
Implicit Types s : McpServer (R := R).

Lemma line_gives line (around : surroundings (G := G)) s : String.eqb line "" = false -> d_session (presenter_ s) = Some (session_ s) ->
  let s' := fst (processLine line around s) in
  issued (presenter_ s') = issued (presenter_ s) ++ gives (json := json) s line /\ d_session (presenter_ s') = Some (session_ s').
Proof.
  intros Hne Hs. cbn zeta. destruct (line_keeps (json := json) line around s) as [K1 K2]. rewrite K1. unfold gives. rewrite Hne. cbn [orb].
  destruct (writeEnabled_ s) eqn:Hw; cbn [negb].
  2: { rewrite (reading_line (json := json) line around s (or_intror Hw)), app_nil_r. auto. }
  destruct (command_request line) as [[id args]|] eqn:Hc.
  2: { rewrite (reading_line (json := json) line around s (or_introl Hc)), app_nil_r. auto. }
  rewrite (command_line line around s id args Hc Hw). destruct args as [[c|e]|e|]; try (cbn; rewrite app_nil_r; auto).
  pose proof (command_effect (json := json) (presenter_ s) (session_ s) c Hs) as E.
  destruct (runEquipmentCommand (presenter_ s) (session_ s) c) as [presenter ran]. destruct E as (E1 & E2 & _ & _).
  cbn [fst presenter_ set_presenter]. split; [|exact E1]. rewrite E2. f_equal.
Qed.

Lemma gives_kept s s' : kept s s' -> gives (json := json) s = gives (json := json) s'.
Proof. intros [K1 K2]. unfold gives. rewrite K1, K2. reflexivity. Qed.

(** The lines that ask for an answer. *)
Definition asking (lines : list (string * surroundings (G := G))) : list (string * surroundings (G := G)) :=
  filter (fun l => wants_answer (json := json) (fst l)) lines.

(** A run: the lines it got through, their commands, and the answers written,
    to all of them or, when an exception ended it, to all but the last. *)
Definition ran s s' (out out' : list string) (lines : list (string * surroundings (G := G))) (r : outcome Z) : Prop :=
  exists before after, lines = before ++ after /\
    issued (presenter_ s') = issued (presenter_ s) ++ flat_map (fun l => gives (json := json) s (fst l)) before /\
    (r = Ret 0 /\ after = [] /\ length out' = (length out + length (asking before))%nat \/
     r <> Ret 0 /\ exists done line, before = done ++ [line] /\ wants_answer (json := json) (fst line) = true /\
       length out' = (length out + length (asking done))%nat).

Lemma asking_cons line (around : surroundings (G := G)) lines :
  length (asking ((line, around) :: lines)) = ((if wants_answer (json := json) line then 1 else 0) + length (asking lines))%nat.
Proof.
  unfold asking. rewrite filter_cons. cbn [fst]. destruct (wants_answer line); [rewrite decide_True by exact I|rewrite decide_False by (intros [])]; reflexivity.
Qed.

(** One more line that did not end the run. *)
Lemma ran_cons line (around : surroundings (G := G)) lines s s1 s' out out1 out' r : kept s s1 ->
  issued (presenter_ s1) = issued (presenter_ s) ++ gives (json := json) s line ->
  length out1 = (length out + if wants_answer (json := json) line then 1 else 0)%nat ->
  ran s1 s' out1 out' lines r -> ran s s' out out' ((line, around) :: lines) r.
Proof.
  intros K G1 L (b & a & -> & E & F). exists ((line, around) :: b), a. split; [reflexivity|]. split.
  - cbn [flat_map fst]. rewrite E, G1, <- app_assoc, (gives_kept _ _ K). reflexivity.
  - destruct F as [(-> & -> & F)|(Hr & d & x & -> & W & F)]; [left|right].
    + split; [reflexivity|]. split; [reflexivity|]. rewrite asking_cons. lia.
    + split; [exact Hr|]. exists ((line, around) :: d), x. split; [reflexivity|]. split; [exact W|]. rewrite asking_cons. lia.
Qed.

(** A line that asks for no answer ends no run. *)
Lemma silent_line line (around : surroundings (G := G)) s : String.eqb line "" = false -> wants_answer (json := json) line = false ->
  snd (processLine line around s) = Ret [].
Proof.
  intros Hne W. unfold wants_answer in W. rewrite Hne in W. cbn in W. unfold processLine. destruct (parse line) as [q|]; [|discriminate]. rewrite W. reflexivity.
Qed.

Lemma run_gives lines : forall s out s' out' r, d_session (presenter_ s) = Some (session_ s) ->
  run (json := json) (G := G) lines s out = (s', out', r) -> ran s s' out out' lines r.
Proof.
  induction lines as [|[line around] lines IH]; intros s out s' out' r Hs Hrun; cbn [run] in Hrun.
  { injection Hrun as <- <- <-. exists [], []. cbn. rewrite app_nil_r, Nat.add_0_r. auto 6. }
  destruct (String.eqb line "") eqn:Hne.
  { eapply (ran_cons line around lines s s s' out out out' r); [split; reflexivity| | |exact (IH _ _ _ _ _ Hs Hrun)].
    - unfold gives. rewrite Hne. cbn [orb]. rewrite app_nil_r. reflexivity.
    - unfold wants_answer. rewrite Hne. cbn. lia. }
  pose proof (line_gives line around s Hne Hs) as [G1 G2]. pose proof (line_keeps (json := json) line around s) as K.
  pose proof (line_answers (json := json) line around s) as L. pose proof (silent_line line around s Hne) as Q.
  destruct (processLine line around s) as [s1 responses]. cbn [fst snd] in *.
  assert (Stop : forall (x : outcome Z), (s1, out, x) = (s', out', r) -> x <> Ret 0 -> responses <> Ret [] -> ran s s' out out' ((line, around) :: lines) r).
  { intros x [= <- <- <-] Hx Hn. exists [(line, around)], lines. split; [reflexivity|]. cbn [flat_map fst]. rewrite app_nil_r. split; [exact G1|].
    right. split; [exact Hx|]. exists [], (line, around). split; [reflexivity|]. split; [|cbn; lia].
    cbn [fst]. destruct (wants_answer line); [reflexivity|]. destruct (Hn (Q eq_refl)). }
  destruct responses as [rs|e|]; cbn [mbind outcome_bind] in Hrun; [|eapply Stop; [exact Hrun|discriminate..]|eapply Stop; [exact Hrun|discriminate..]].
  specialize (L rs Hne eq_refl).
  assert (Go : forall out1, run lines s1 out1 = (s', out', r) -> length out1 = (length out + length rs)%nat -> ran s s' out out' ((line, around) :: lines) r).
  { intros out1 H1 H2. eapply (ran_cons line around lines s s1); [exact K|exact G1| |exact (IH _ _ _ _ _ G2 H1)]. rewrite H2, L. reflexivity. }
  destruct rs as [|x rs]; [apply (Go out Hrun); cbn; lia|]. unfold writeResponse in Hrun.
  destruct (dump x) as [t|e|]; cbn [mbind outcome_bind] in Hrun; [|eapply Stop; [exact Hrun|discriminate..]|eapply Stop; [exact Hrun|discriminate..]].
  apply (Go _ Hrun). rewrite length_app. destruct (wants_answer line); cbn in *; lia.
Qed.
End McpRuns.

(* ------------------------------------------------------------------ *)
(** ** Properties *)

(** C34: The agent's writes are gated. Whatever lines the agent sends and
    whatever happens around it, the production commands the server gives
    are exactly those of the lines it got through: the well-formed calls of
    the writing tool, and those only while writes are enabled and the agent's
    role permits the command. It gets through all lines, and then every line
    that is no JSON or has an id is answered by one line and no other is; or
    an exception ends the session at a line with an id (or no JSON), which
    stays unanswered, and the lines before it are answered likewise
    ([mcp_gaps_refuted]: a method that is not a string does it). *)
Theorem mcp_writes_gated {json} `{JsonLib json} {G R} `{HistoryReader R} lines (s s' : McpServer (R := R)) out r :
  d_session (presenter_ s) = Some (session_ s) -> run (json := json) (G := G) lines s [] = (s', out, r) ->
  exists before after, lines = before ++ after /\
    issued (presenter_ s') = issued (presenter_ s) ++ flat_map (fun l => gives (json := json) s (fst l)) before /\
    (forall c, c ∈ flat_map (fun l => gives (json := json) s (fst l)) before ->
       writeEnabled_ s = true /\ c ∈ [DoStart; DoStop; DoReset] /\ exists u, currentUser (session_ s) = Some u /\ permitted (role u) c = true) /\
    (r = Ret 0 /\ after = [] /\ length out = length (asking (json := json) lines) \/
     r <> Ret 0 /\ exists done line, before = done ++ [line] /\ wants_answer (json := json) (fst line) = true /\
       length out = length (asking (json := json) done)).
Proof.
  intros Hs Hrun. destruct (run_gives lines s [] s' out r Hs Hrun) as (b & a & E & I & L). exists b, a. split; [exact E|]. split; [exact I|]. split.
  - intros c Hc. apply list_elem_of_In, in_flat_map in Hc as ([line around] & _ & Hc). unfold gives in Hc. cbn [fst] in Hc.
    destruct (String.eqb line "" || negb (writeEnabled_ s)) eqn:Hg; [destruct Hc|]. apply orb_false_iff in Hg as [_ Hw].
    destruct (command_request line) as [[id [[c'|e]|e|]]|]; try (destruct Hc; fail). destruct (currentUser (session_ s)) as [u|]; [|destruct Hc].
    destruct (permitted (role u) (dash_command_of c')) eqn:P; [|destruct Hc]. destruct Hc as [<-|[]].
    split; [destruct (writeEnabled_ s); [reflexivity|discriminate]|]. split; [destruct c'; apply list_elem_of_In; cbn; auto|]. exists u. auto.
  - destruct L as [(Hr & -> & L)|L]; [left|right; exact L]. rewrite app_nil_r in E. subst lines. auto.
Qed.

(** The agent is told the truth. A well-formed call of the writing tool,
    while writes are enabled, is answered with a result exactly when the
    command was given to the dashboard, and otherwise with the Unauthorized
    error and nothing given; either way a signed-in agent's attempt is
    audited under its name, as a success or a failure accordingly. *)
Theorem mcp_reply_truthful {json} `{JsonLib json} {G R} `{HistoryReader R} (s : McpServer (R := R)) line (around : surroundings (G := G)) id c :
  d_session (presenter_ s) = Some (session_ s) -> writeEnabled_ s = true -> command_request (json := json) line = Some (id, Ret (Ok c)) ->
  let (s', r) := processLine line around s in
  (forall rs, r = Ret rs ->
     issued (presenter_ s') = issued (presenter_ s) ++ [dash_command_of c] /\ (exists data, rs = [successEnvelope id data]) \/
     issued (presenter_ s') = issued (presenter_ s) /\ rs = [errorEnvelope id kJsonRpcInvalidParams (defaultMessage Unauthorized)]) /\
  (forall log u, d_audit (presenter_ s) = Some log -> currentUser (session_ s) = Some u ->
     exists e, d_audit (presenter_ s') = Some (log ++ [e]) /\ ev_username e = username u /\
       ev_result e = if permitted (role u) (dash_command_of c) then kSuccess else kFailure).
Proof.
  intros Hs Hw Hc. rewrite (command_line line around s id _ Hc Hw). pose proof (command_effect (json := json) (presenter_ s) (session_ s) c Hs) as E.
  destruct (runEquipmentCommand (presenter_ s) (session_ s) c) as [presenter ran]. destruct E as (_ & E2 & E3 & E4).
  cbn [presenter_ set_presenter]. split; [|exact E4]. rewrite E2, E3. intros rs Hrs.
  destruct (currentUser (session_ s)) as [u|]; [|right; rewrite app_nil_r; injection Hrs as <-; auto].
  destruct (permitted (role u) (dash_command_of c)); [|right; rewrite app_nil_r; injection Hrs as <-; auto].
  left. split; [reflexivity|]. destruct (toolResult _) as [data|e|]; cbn [mbind outcome_bind] in Hrs; [|discriminate..].
  injection Hrs as <-. exists data. reflexivity.
Qed.

(* ------------------------------------------------------------------ *)
(** ** A JSON library, to run the server *)

#[local] Set Warnings "-register-all".
Inductive tree := TNull | TInt (z : Z) | TDouble (d : float64) | TStr (t : string) | TArr (l : list tree) | TObj (l : list (string * tree)).

Fixpoint tree_text (t : tree) : string :=
  match t with
  | TNull => "null"
  | TInt z => to_string z
  | TDouble _ => "0.0"
  | TStr s => "'" ++ s ++ "'"
  | TArr l => "[" ++ String.concat "," (map tree_text l) ++ "]"
  | TObj l => "{" ++ String.concat "," (map (fun m => "'" ++ fst m ++ "':" ++ tree_text (snd m)) l) ++ "}"
  end%string.

Definition member (t : tree) (k : string) : option tree :=
  match t with TObj l => match find (fun m => String.eqb k (fst m)) l with Some m => Some (snd m) | None => None end | _ => None end.
Definition tree_value {A} (get : tree -> option A) (t : tree) (k : string) (d : A) : outcome A :=
  match t with
  | TObj _ => match member t k with Some v => match get v with Some a => Ret a | None => Throw json_type_error end | None => Ret d end
  | _ => Throw json_type_error
  end.
Definition tree_int (f : Z -> Z) (t : tree) : option Z := match t with TInt z => Some (f z) | _ => None end.

(** The requests of the examples, as they parse. *)
Definition call (id : Z) (name : string) (arguments : list (string * tree)) : tree :=
  TObj [("id", TInt id); ("method", TStr "tools/call"); ("params", TObj [("name", TStr name); ("arguments", TObj arguments)])].
Definition demo_lines : list (string * tree) :=
  [("start", call 1 "equipment_command" [("command", TStr "start")]); ("reset", call 2 "equipment_command" [("command", TStr "reset")]);
   ("alarms", call 3 "alarms_snapshot" []); ("note", TObj [("method", TStr "initialized")]);
   ("odd", TObj [("id", TInt 4); ("method", TInt 5)]);
   ("all", call 5 "historian_query" [("field", TStr "quality"); ("toMs", TInt 3600000); ("limit", TInt 0)])].

#[export] Instance TreeJson : JsonLib tree := {|
  jnull := TNull; jbool b := TStr (if b then "true" else "false"); jint := TInt; jdouble := TDouble; jstring := TStr; jarray := TArr; jobject := TObj;
  parse line := match find (fun m => String.eqb line (fst m)) demo_lines with Some m => Some (snd m) | None => None end;
  dump t := Ret (tree_text t);
  dump_indent _ t := Ret (tree_text t);
  is_object t := match t with TObj _ => true | _ => false end;
  contains t k := match member t k with Some _ => true | None => false end;
  at_key t k := match member t k with Some v => Ret v | None => Throw out_of_range end;
  value_string := tree_value (fun t => match t with TStr s => Some s | _ => None end);
  value_u32 := tree_value (tree_int u32);
  value_i64 := tree_value (tree_int (fun z => z));
  value_size := tree_value (tree_int u64);
|}.

Definition agent (r : Role) : Session := setUser (mkUser 0 "agent" "" r true "" "" "" "") session_init.
Definition demo_server (r : Role) : McpServer := mkServer (at_rest empty_tables) (mkDash (Some (agent r)) (Some []) false []) (agent r) true.
Definition calm : surroundings (G := unit) := (center_init, model_init tt).

(** What the server does not keep to. A request whose method is not a
    string ends the session with an exception, unanswered, whatever else the
    agent sends; [limit] 0 lifts the cap on the rows of a query; and a Start
    in the error state is answered as accepted although the state machine
    refuses it. *)
Theorem mcp_gaps_refuted :
  (forall rest, run (json := tree) (("odd", calm) :: rest) (demo_server Admin) [] = (demo_server Admin, [], Throw json_type_error)) /\
  parseHistorianArgs (TObj [("field", TStr "quality"); ("limit", TInt 0)]) = Ret (Ok (mkQueryArgs QualityPassRate 0 (mkRange 0 0 0))) /\
  sql_limit 0 = None /\
  exists m m', model_run [InitializeDemoData; TriggerFault "E-stop"] (model_init tt) = Ret m /\ getState m = ERROR /\
    (let '(s', r) := processLine "start" (center_init, m) (demo_server Operator) in
     issued (presenter_ s') = [DoStart] /\ exists data, r = Ret [successEnvelope (TInt 1) data]) /\
    op_apply StartProduction m = Ret m' /\ getState m' = ERROR.
Proof.
  split; [reflexivity|]. split; [reflexivity|]. split; [reflexivity|]. do 2 eexists. split; [vm_compute; reflexivity|]. split; [reflexivity|].
  split; [split; [reflexivity|eexists; reflexivity]|]. split; [vm_compute; reflexivity|reflexivity].
Qed.

(* ------------------------------------------------------------------ *)
(** ** Witnesses *)

Lemma mcp_writes_gated_witness :
  let '(s', out, r) := run (json := tree) [("start", calm); ("note", calm); ("reset", calm); ("alarms", calm)] (demo_server Operator) [] in
  r = Ret 0 /\ length out = 3%nat /\ issued (presenter_ s') = [DoStart].
Proof.
  destruct (run _ _ _) as [[s' out] r] eqn:E.
  destruct (mcp_writes_gated _ _ _ _ _ (eq_refl : d_session (presenter_ (demo_server Operator)) = Some (session_ (demo_server Operator))) E) as (b & a & Hl & Hi & _ & Hr).
  assert (Er : r = Ret 0) by (injection E as _ _ <-; reflexivity). destruct Hr as [(_ & -> & Hn)|[Hr _]]; [|contradiction]. rewrite app_nil_r in Hl. subst b.
  split; [exact Er|]. split; [exact Hn|exact Hi].
Defined.

Lemma mcp_reply_truthful_witness :
  let (s', r) := processLine (json := tree) "reset" calm (demo_server Operator) in
  (forall rs, r = Ret rs ->
     issued (presenter_ s') = [DoReset] /\ (exists data, rs = [successEnvelope (TInt 2) data]) \/
     issued (presenter_ s') = [] /\ rs = [errorEnvelope (TInt 2) kJsonRpcInvalidParams (defaultMessage Unauthorized)]) /\
  (forall log u, Some [] = Some log -> Some (mkUser 0 "agent" "" Operator true "" "" "" "") = Some u ->
     exists e, d_audit (presenter_ s') = Some (log ++ [e]) /\ ev_username e = username u /\
       ev_result e = if permitted (role u) DoReset then kSuccess else kFailure).
Proof. apply (mcp_reply_truthful (json := tree) (demo_server Operator) "reset" calm (TInt 2) CmdResetRestart); reflexivity. Defined.
