(* ===== verification/Config.v ===== *)
(** * The configuration: document, settings, accessors
    (src/config/ConfigManager.cpp, config_defaults.h)

    The JSON document the configuration file holds, its flattening into the
    map from dotted paths to texts, and the typed accessors the rest of the
    program reads that map through. The document is what the JSON library
    hands over; its parser and its printing of doubles are a parameter.
    Properties: what an accessor reads of a document, in the words of the
    document, and what the flattening's order does to clashing keys. *)
From Stdlib Require Import Ascii String.
From stdpp Require Import pretty.
From S2P Require Import Prelude Float32 Float64 Format.
Local Open Scope string_scope.
Local Open Scope Z_scope.
Local Open Scope list_scope.

(* ------------------------------------------------------------------ *)
(** ** Documents *)

(** A [nlohmann::ordered_json] value: numbers are kept as the library types
    them, members in the order of the file. *)
Inductive ordered_json :=
| JNull
| JBoolean (b : bool)
| JInteger (z : Z)
| JUnsigned (z : Z)
| JFloat (d : float64)
| JText (s : string)
| JArray (l : list ordered_json)
| JObject (l : list (string * ordered_json)).

Section Induction.
Variable P : ordered_json -> Prop.
Hypothesis Hscalar : forall j, match j with JArray _ | JObject _ => False | _ => True end -> P j.
Hypothesis Harray : forall l, Forall P l -> P (JArray l).
Hypothesis Hobject : forall l, Forall (fun kv => P (snd kv)) l -> P (JObject l).

Lemma json_nested_ind : forall j, P j.
Proof.
  fix IH 1. intros [| | | | | |l|l]; try (apply Hscalar; exact I).
  - apply Harray. induction l as [|j l IHl]; [constructor|]. constructor; [apply IH|exact IHl].
  - apply Hobject. induction l as [|[k j] l IHl]; [constructor|]. constructor; [apply IH|exact IHl].
Qed.
End Induction.

(** The library's predicates and conversions: an unsigned number is an
    integer too, and [get<int64_t>] of one wraps. *)
Definition is_string (j : ordered_json) : bool := match j with JText _ => true | _ => false end.
Definition is_boolean (j : ordered_json) : bool := match j with JBoolean _ => true | _ => false end.
Definition is_number_integer (j : ordered_json) : bool := match j with JInteger _ | JUnsigned _ => true | _ => false end.
Definition is_number_unsigned (j : ordered_json) : bool := match j with JUnsigned _ => true | _ => false end.
Definition is_number_float (j : ordered_json) : bool := match j with JFloat _ => true | _ => false end.

Definition to_i64 (z : Z) : Z := (z + 2 ^ 63) mod 2 ^ 64 - 2 ^ 63.
Definition get_string (j : ordered_json) : string := match j with JText s => s | _ => "" end.
Definition get_bool (j : ordered_json) : bool := match j with JBoolean b => b | _ => false end.
Definition get_int64 (j : ordered_json) : Z := match j with JInteger z | JUnsigned z => to_i64 z | _ => 0 end.
Definition get_uint64 (j : ordered_json) : Z := match j with JInteger z | JUnsigned z => u64 z | _ => 0 end.

(** The library: the parser, comments ignored, and [dump] of a double. *)
Class JsonText := {
  parse_document : string -> option ordered_json;
  dump_double : float64 -> string;
}.

(* ------------------------------------------------------------------ *)
(** ** Flattening *)

(** [config_]. *)
Abbreviation settings := (gmap string string).

Definition nextKey (prefix key : string) : string :=
  if bool_decide (prefix = "") then key else (prefix ++ "." ++ key)%string.

Section Flatten.
Context {JT : JsonText}.

Definition scalar_text (node : ordered_json) : string :=
  if is_string node then get_string node
  else if is_boolean node then (if get_bool node then "true" else "false")
  else if is_number_integer node then to_string (get_int64 node)
  else if is_number_unsigned node then to_string (get_uint64 node)
  else match node with JFloat d => dump_double d | _ => "" end.

(** A node waiting on the stack, with its path; the top is the head. *)
Definition Frame : Type := ordered_json * string.

Definition object_frames (prefix : string) (l : list (string * ordered_json)) : list Frame :=
  map (fun it => (snd it, nextKey prefix (fst it))) l.
Definition array_frames (prefix : string) (l : list ordered_json) : list Frame :=
  imap (fun i v => (v, nextKey prefix (to_string (Z.of_nat i)))) l.

Fixpoint flatten_loop (fuel : nat) (stack : list Frame) (out : settings) : option settings :=
  match fuel with
  | O => None
  | S fuel =>
      match stack with
      | [] => Some out
      | (node, prefix) :: stack =>
          match node with
          | JObject l => flatten_loop fuel (reverse (object_frames prefix l) ++ stack) out
          | JArray l => flatten_loop fuel (reverse (array_frames prefix l) ++ stack) out
          | _ =>
              if bool_decide (prefix = "") then flatten_loop fuel stack out
              else flatten_loop fuel stack (<[prefix := scalar_text node]> out)
          end
      end
  end.

Fixpoint json_size (j : ordered_json) : nat :=
  match j with
  | JArray l => S (sum_list_with json_size l)
  | JObject l => S (sum_list_with (fun '(k, v) => json_size v) l)
  | _ => 1%nat
  end.

(** [flatten_total] shows the fuel is enough. *)
Definition flatten (root : ordered_json) (out : settings) : settings :=
  default out (flatten_loop (S (json_size root)) [(root, "")] out).
End Flatten.

(* ------------------------------------------------------------------ *)
(** ** Defaults *)

Definition kAppName : string := "Industrial HMI".
Definition kAppVersion : string := "1.0.0".
Definition kWindowTitle : string := "Industrial HMI".
Definition kWindowWidth : Z := 1920.
Definition kWindowHeight : Z := 1080.
Definition kDefaultTheme : string := "dark".
Definition kDefaultLanguage : string := "auto".
Definition kLogLevel : string := "TRACE".
Definition kLogFile : string := "logs/app.log".
Definition kLogMaxFiles : Z := 3.
Definition kTcpBackendPort : Z := 5555.
Definition kHttpBackendPort : Z := 8080.
Definition kHttpBackendBindAddress : string := "127.0.0.1".
Definition kHttpTlsCertPath : string := "".
Definition kHttpTlsKeyPath : string := "".
Definition kHttpTlsClientCaPath : string := "".
Definition kSerialDevice : string := "/dev/ttyACM0".
Definition kSerialBaudRate : Z := 115200.
Definition kAuthDbPath : string := "data/auth.sqlite".
Definition kMcpAgentRole : string := "OPERATOR".
Definition kHistorianDbPath : string := "data/historian.sqlite".
Definition kHistorianBatchSize : Z := 32.
Definition kHistorianBatchAgeMs : Z := 5000.
Definition kHistorianSweepIntervalMs : Z := 60000.
Definition kHistorianRawRetentionMs : Z := 3600000.
Definition kHistorianMinuteRetentionMs : Z := 86400000.
Definition kMqttBrokerHost : string := "127.0.0.1".
Definition kMqttBrokerPort : Z := 1883.
Definition kMqttClientId : string := "industrial-hmi".
Definition kMqttTopicPrefix : string := "industrial-hmi".
Definition kMqttSensorTopicPrefix : string := "industrial-hmi-sensors".
Definition kModbusHost : string := "127.0.0.1".
Definition kModbusPort : Z := 5020.
Definition kModbusPollIntervalMs : Z := 1000.
Definition kModbusConnectTimeoutMs : Z := 2000.
Definition kModbusRequestTimeoutMs : Z := 1000.
Definition kModbusSupplyBaseAddress : Z := 16.
Definition kModbusSupplyScale : float32 := f32_of_Z 1.
Definition kModbusQualityBaseAddress : Z := 32.
Definition kModbusQualityScale : float32 := f32_lit 1 1.
Definition kOpcUaServerPort : Z := 4840.
Definition kOpcUaApplicationUri : string := "urn:industrial-hmi:server".
Definition kOpcUaApplicationName : string := "Industrial HMI OPC-UA Server".
Definition kOpcUaClientEndpoint : string := "opc.tcp://127.0.0.1:4840".
Definition kOpcUaClientApplicationUri : string := "urn:industrial-hmi:client".
Definition kOpcUaClientApplicationName : string := "Industrial HMI OPC-UA Client".
Definition kOpcUaServerSecurityCertPath : string := "".
Definition kOpcUaServerSecurityPrivateKeyPath : string := "".
Definition kOpcUaServerSecurityTrustListDir : string := "".
Definition kOpcUaClientSecurityCertPath : string := "".
Definition kOpcUaClientSecurityPrivateKeyPath : string := "".
Definition kOpcUaClientSecurityTrustListDir : string := "".
Definition kOpcUaClientIngestPrefix : string := "Factory".
Definition kDialogTitle : string := "Dialog".
Definition kDialogIcon : string := "dialog-information".
Definition kConfirmButton : string := "OK".
Definition kCancelButton : string := "Cancel".
Definition kBytesPerMegabyte : Z := 1024 * 1024.
Definition kLogMaxFileSizeMB : Z := 5.

(* ------------------------------------------------------------------ *)
(** ** Accessors *)

Section Accessors.
Variable config_ : settings.

Definition getValue (key defaultValue : string) : string := default defaultValue (config_ !! key).
Definition getInt (key : string) (defaultValue : Z) : Z :=
  match config_ !! key with
  | None => defaultValue
  | Some v => match stoi (chars_of v) with Ret z => z | _ => defaultValue end
  end.
Definition getFloat (key : string) (defaultValue : float32) : float32 :=
  match config_ !! key with
  | None => defaultValue
  | Some v => match stof (chars_of v) with Ret f => f | _ => defaultValue end
  end.
Definition rawValue (key : string) : string := getValue key "".

Definition getAssetPath (category name : string) : string :=
  getValue ("assets." ++ category ++ "." ++ name)%string "".
Definition getAppIcon : string := getAssetPath "icons" "app_icon".
Definition getWindowIconName : string := getAssetPath "icons" "window_icon_name".
Definition getUIFile (name : string) : string := getAssetPath "ui_files" name.

Definition getDialogTitle (category name : string) : string :=
  getValue ("dialogs." ++ category ++ "." ++ name ++ ".title")%string kDialogTitle.
Definition getDialogMessage (category name : string) : string :=
  let base := ("dialogs." ++ category ++ "." ++ name)%string in
  match config_ !! (base ++ ".message")%string with
  | Some m => m
  | None => default "" (config_ !! (base ++ ".message_template")%string)
  end.
Definition getDialogIcon (category name : string) : string :=
  getValue ("dialogs." ++ category ++ "." ++ name ++ ".icon")%string kDialogIcon.
Definition getConfirmButton (dialogName : string) : string :=
  getValue ("dialogs.confirmations." ++ dialogName ++ ".confirm_button")%string kConfirmButton.
Definition getCancelButton (dialogName : string) : string :=
  getValue ("dialogs.confirmations." ++ dialogName ++ ".cancel_button")%string kCancelButton.

(** A [std::size_t]. *)
Definition getLogMaxFileSize : Z :=
  u64 (u64 (getInt "logging.max_file_size_mb" kLogMaxFileSizeMB) * kBytesPerMegabyte).

Definition getAppName : string := getValue "application.name" kAppName.
Definition getAppVersion : string := getValue "application.version" kAppVersion.
Definition getWindowTitle : string := getValue "window.title" kWindowTitle.
Definition getWindowWidth : Z := getInt "window.default_width" kWindowWidth.
Definition getWindowHeight : Z := getInt "window.default_height" kWindowHeight.
Definition getDefaultTheme : string := getValue "theme.default" kDefaultTheme.
Definition getLanguage : string := getValue "i18n.language" kDefaultLanguage.
Definition getPalette : string := getValue "ui.palette" "".
Definition getLogLevel : string := getValue "logging.level" kLogLevel.
Definition getLogFilePath : string := getValue "logging.file" kLogFile.
Definition getLogMaxFiles : Z := getInt "logging.max_files" kLogMaxFiles.
Definition getLogConsoleEnabled : bool := bool_decide (getValue "logging.console" "true" = "true").
Definition isTcpBackendEnabled : bool := bool_decide (getValue "network.tcp.enabled" "false" = "true").
Definition getTcpBackendPort : Z := getInt "network.tcp.port" kTcpBackendPort.
Definition isHttpBackendEnabled : bool := bool_decide (getValue "network.http.enabled" "false" = "true").
Definition getHttpBackendPort : Z := getInt "network.http.port" kHttpBackendPort.
Definition getHttpBackendBindAddress : string := getValue "network.http.bind_address" kHttpBackendBindAddress.
Definition isHttpTlsEnabled : bool := bool_decide (getValue "network.http.tls.enabled" "false" = "true").
Definition getHttpTlsCertPath : string := getValue "network.http.tls.cert_path" kHttpTlsCertPath.
Definition getHttpTlsKeyPath : string := getValue "network.http.tls.key_path" kHttpTlsKeyPath.
Definition isHttpTlsVerifyPeer : bool := bool_decide (getValue "network.http.tls.verify_peer" "false" = "true").
Definition getHttpTlsClientCaPath : string := getValue "network.http.tls.client_ca_path" kHttpTlsClientCaPath.
Definition isSerialBackendEnabled : bool := bool_decide (getValue "network.serial.enabled" "false" = "true").
Definition getSerialDevice : string := getValue "network.serial.device" kSerialDevice.
Definition getSerialBaud : Z := getInt "network.serial.baud" kSerialBaudRate.
Definition isAuthEnabled : bool := bool_decide (getValue "auth.enabled" "false" = "true").
Definition getAuthDbPath : string := getValue "auth.db_path" kAuthDbPath.
Definition isMultiStationEnabled : bool := bool_decide (getValue "ui.multistation_enabled" "false" = "true").
Definition isMcpWriteEnabled : bool := bool_decide (getValue "mcp.write_enabled" "false" = "true").
Definition getMcpAgentRole : string := getValue "mcp.agent_role" kMcpAgentRole.
Definition isHistorianEnabled : bool := bool_decide (getValue "historian.enabled" "false" = "true").
Definition getHistorianDbPath : string := getValue "historian.db_path" kHistorianDbPath.
Definition getHistorianBatchSize : Z := getInt "historian.batch_size" kHistorianBatchSize.
Definition getHistorianBatchAgeMs : Z := getInt "historian.batch_age_ms" kHistorianBatchAgeMs.
Definition getHistorianSweepIntervalMs : Z := getInt "historian.sweep_interval_ms" kHistorianSweepIntervalMs.
Definition getHistorianRawRetentionMs : Z := getInt "historian.raw_retention_ms" kHistorianRawRetentionMs.
Definition getHistorianMinuteRetentionMs : Z := getInt "historian.minute_retention_ms" kHistorianMinuteRetentionMs.
Definition isMqttBackendEnabled : bool := bool_decide (getValue "network.mqtt.enabled" "false" = "true").
Definition getMqttBrokerHost : string := getValue "network.mqtt.broker_host" kMqttBrokerHost.
Definition getMqttBrokerPort : Z := getInt "network.mqtt.broker_port" kMqttBrokerPort.
Definition getMqttClientId : string := getValue "network.mqtt.client_id" kMqttClientId.
Definition getMqttTopicPrefix : string := getValue "network.mqtt.topic_prefix" kMqttTopicPrefix.
Definition isMqttEmitPlainText : bool := bool_decide (getValue "network.mqtt.emit_plain_text" "true" = "true").
Definition isMqttEmitJson : bool := bool_decide (getValue "network.mqtt.emit_json" "false" = "true").
Definition isMqttSubscriberEnabled : bool := bool_decide (getValue "network.mqtt.subscriber.enabled" "false" = "true").
Definition getMqttSensorTopicPrefix : string := getValue "network.mqtt.subscriber.topic_prefix" kMqttSensorTopicPrefix.
Definition isModbusBackendEnabled : bool := bool_decide (getValue "network.modbus.enabled" "false" = "true").
Definition getModbusHost : string := getValue "network.modbus.host" kModbusHost.
Definition getModbusPort : Z := getInt "network.modbus.port" kModbusPort.
Definition getModbusPollIntervalMs : Z := getInt "network.modbus.poll_interval_ms" kModbusPollIntervalMs.
Definition getModbusConnectTimeoutMs : Z := getInt "network.modbus.connect_timeout_ms" kModbusConnectTimeoutMs.
Definition getModbusRequestTimeoutMs : Z := getInt "network.modbus.request_timeout_ms" kModbusRequestTimeoutMs.
Definition getModbusSlaveId : Z := getInt "network.modbus.slave_id" 1.
Definition getModbusEquipmentBaseAddress : Z := getInt "network.modbus.equipment_base_address" 0.
Definition getModbusEquipmentCount : Z := getInt "network.modbus.equipment_count" 3.
Definition getModbusSupplyBaseAddress : Z := getInt "network.modbus.supply_base_address" kModbusSupplyBaseAddress.
Definition getModbusSupplyScale : float32 := getFloat "network.modbus.supply_scale" kModbusSupplyScale.
Definition getModbusQualityBaseAddress : Z := getInt "network.modbus.quality_base_address" kModbusQualityBaseAddress.
Definition getModbusQualityScale : float32 := getFloat "network.modbus.quality_scale" kModbusQualityScale.
Definition getModbusQualityCount : Z := getInt "network.modbus.quality_count" 3.
Definition isOpcUaBackendEnabled : bool := bool_decide (getValue "network.opcua.enabled" "false" = "true").
Definition getOpcUaServerPort : Z := getInt "network.opcua.port" kOpcUaServerPort.
Definition getOpcUaApplicationUri : string := getValue "network.opcua.application_uri" kOpcUaApplicationUri.
Definition getOpcUaApplicationName : string := getValue "network.opcua.application_name" kOpcUaApplicationName.
Definition isOpcUaServerCommandsEnabled : bool := bool_decide (getValue "network.opcua.server.commands_enabled" "true" = "true").
Definition isOpcUaClientEnabled : bool := bool_decide (getValue "network.opcua.client.enabled" "false" = "true").
Definition getOpcUaClientEndpoint : string := getValue "network.opcua.client.endpoint" kOpcUaClientEndpoint.
Definition getOpcUaClientApplicationUri : string := getValue "network.opcua.client.application_uri" kOpcUaClientApplicationUri.
Definition getOpcUaClientApplicationName : string := getValue "network.opcua.client.application_name" kOpcUaClientApplicationName.
Definition isOpcUaIngestBridgeEnabled : bool := bool_decide (getValue "network.opcua.client.ingest_bridge.enabled" "false" = "true").
Definition isOpcUaServerSecurityEnabled : bool := bool_decide (getValue "network.opcua.server.security.enabled" "false" = "true").
Definition getOpcUaServerSecurityCertPath : string := getValue "network.opcua.server.security.cert_path" kOpcUaServerSecurityCertPath.
Definition getOpcUaServerSecurityPrivateKeyPath : string := getValue "network.opcua.server.security.private_key_path" kOpcUaServerSecurityPrivateKeyPath.
Definition getOpcUaServerSecurityTrustListDir : string := getValue "network.opcua.server.security.trust_list_dir" kOpcUaServerSecurityTrustListDir.
Definition isOpcUaClientSecurityEnabled : bool := bool_decide (getValue "network.opcua.client.security.enabled" "false" = "true").
Definition getOpcUaClientSecurityCertPath : string := getValue "network.opcua.client.security.cert_path" kOpcUaClientSecurityCertPath.
Definition getOpcUaClientSecurityPrivateKeyPath : string := getValue "network.opcua.client.security.private_key_path" kOpcUaClientSecurityPrivateKeyPath.
Definition getOpcUaClientSecurityTrustListDir : string := getValue "network.opcua.client.security.trust_list_dir" kOpcUaClientSecurityTrustListDir.
Definition getOpcUaIngestBridgeTopicPrefix : string := getValue "network.opcua.client.ingest_bridge.topic_prefix" kOpcUaClientIngestPrefix.
End Accessors.

(** Unfolds every accessor the validator reads to the lookups it makes. *)
Create HintDb accessors.
#[export] Hint Unfold getAppName getAppVersion getWindowTitle getWindowWidth getWindowHeight getDefaultTheme getLanguage getPalette
  getLogLevel getLogFilePath getLogMaxFiles getLogConsoleEnabled isTcpBackendEnabled getTcpBackendPort
  isHttpBackendEnabled getHttpBackendPort getHttpBackendBindAddress isHttpTlsEnabled getHttpTlsCertPath
  getHttpTlsKeyPath isHttpTlsVerifyPeer getHttpTlsClientCaPath isSerialBackendEnabled getSerialDevice
  getSerialBaud isAuthEnabled getAuthDbPath isMultiStationEnabled isMcpWriteEnabled getMcpAgentRole
  isHistorianEnabled getHistorianDbPath getHistorianBatchSize getHistorianBatchAgeMs getHistorianSweepIntervalMs
  getHistorianRawRetentionMs getHistorianMinuteRetentionMs isMqttBackendEnabled getMqttBrokerHost
  getMqttBrokerPort getMqttClientId getMqttTopicPrefix isMqttEmitPlainText isMqttEmitJson
  isMqttSubscriberEnabled getMqttSensorTopicPrefix isModbusBackendEnabled getModbusHost getModbusPort
  getModbusPollIntervalMs getModbusConnectTimeoutMs getModbusRequestTimeoutMs getModbusSlaveId
  getModbusEquipmentBaseAddress getModbusEquipmentCount getModbusSupplyBaseAddress getModbusSupplyScale
  getModbusQualityBaseAddress getModbusQualityScale getModbusQualityCount isOpcUaBackendEnabled
  getOpcUaServerPort getOpcUaApplicationUri getOpcUaApplicationName isOpcUaServerCommandsEnabled
  isOpcUaClientEnabled getOpcUaClientEndpoint getOpcUaClientApplicationUri getOpcUaClientApplicationName
  isOpcUaIngestBridgeEnabled isOpcUaServerSecurityEnabled getOpcUaServerSecurityCertPath
  getOpcUaServerSecurityPrivateKeyPath getOpcUaServerSecurityTrustListDir isOpcUaClientSecurityEnabled
  getOpcUaClientSecurityCertPath getOpcUaClientSecurityPrivateKeyPath getOpcUaClientSecurityTrustListDir
  getOpcUaIngestBridgeTopicPrefix getLogMaxFileSize getValue getInt getFloat : accessors.

(* ------------------------------------------------------------------ *)
(** ** Templates *)

Fixpoint replace_all (fuel : nat) (placeholder value result : string) (pos : nat) : option string :=
  match fuel with
  | O => None
  | S fuel =>
      match str_find placeholder result pos with
      | None => Some result
      | Some pos =>
          replace_all fuel placeholder value (str_replace result pos (String.length placeholder) value) (pos + String.length value)
      end
  end.

(** The variables in the order of [std::map]; [format_total] shows that the
    loop ends. *)
Definition formatMessage (templateStr : string) (vars : list (string * string)) : string :=
  fold_left (fun result '(key, value) =>
    default result (replace_all (S (String.length result)) ("{" ++ key ++ "}")%string value result 0)) vars templateStr.

(* ------------------------------------------------------------------ *)
(** ** The document, by paths *)

(** The members of an object and the elements of an array, by their keys. *)
Definition children (j : ordered_json) : list (string * ordered_json) :=
  match j with
  | JObject l => l
  | JArray l => imap (fun i v => (to_string (Z.of_nat i), v)) l
  | _ => []
  end.

Definition scalar (j : ordered_json) : bool := match j with JArray _ | JObject _ => false | _ => true end.

Fixpoint assoc (k : string) (l : list (string * ordered_json)) : option ordered_json :=
  match l with [] => None | (k', v) :: l => if bool_decide (k = k') then Some v else assoc k l end.

(** Following a path. *)
Fixpoint json_get (j : ordered_json) (path : list string) : option ordered_json :=
  match path with
  | [] => Some j
  | k :: path => v ← assoc k (children j); json_get v path
  end.

(** The path as the settings spell it. *)
Definition path_key (path : list string) : string := fold_left nextKey path "".

(** Keys the spelling keeps apart. *)
Definition key_ok (k : string) : bool := bool_decide (k <> "") && no_char "."%char k.

(** Every object of the document has such keys, each once. *)
Fixpoint plain (j : ordered_json) : bool :=
  match j with
  | JArray l => forallb plain l
  | JObject l =>
      forallb (fun '(k, v) => key_ok k && plain v) l && bool_decide (NoDup (map fst l))
  | _ => true
  end.

Section Leaves.
Context {JT : JsonText}.

(** The scalars in document order, each with its path. *)
Fixpoint leaves (path : list string) (j : ordered_json) : list (list string * string) :=
  match j with
  | JObject l => concat (map (fun '(k, v) => leaves (path ++ [k]) v) l)
  | JArray l =>
      (fix elements (i : Z) (l : list ordered_json) :=
         match l with [] => [] | v :: l => leaves (path ++ [to_string i]) v ++ elements (i + 1) l end) 0 l
  | _ => [(path, scalar_text j)]
  end.

Definition write_leaf (out : settings) (leaf : list string * string) : settings :=
  if bool_decide (path_key (fst leaf) = "") then out else <[path_key (fst leaf) := snd leaf]> out.

(** The recursive traversal the flattening replaces: leaves in document
    order. *)
Definition flatten_recursive (root : ordered_json) (out : settings) : settings :=
  fold_left write_leaf (leaves [] root) out.

(** The text of the scalar at a path. *)
Definition text_at (root : ordered_json) (path : list string) : option string :=
  j ← json_get root path; if scalar j then Some (scalar_text j) else None.
End Leaves.

(* ------------------------------------------------------------------ *)
(** ** The flattening is the list of leaves *)

Lemma path_key_snoc p k : path_key (p ++ [k]) = nextKey (path_key p) k.
Proof. unfold path_key. rewrite fold_left_app. reflexivity. Qed.

Lemma concat_rev {A} (l : list (list A)) : rev (concat l) = concat (map (@rev A) (rev l)).
Proof.
  induction l as [|x l IH]; [reflexivity|]. cbn. rewrite rev_app_distr, IH, map_app, concat_app. cbn. rewrite app_nil_r. reflexivity.
Qed.

Lemma object_frames_children p l :
  object_frames p l = map (fun '(k, v) => (v, nextKey p k)) (children (JObject l)).
Proof. apply map_ext. intros [k v]. reflexivity. Qed.
Lemma array_frames_children p l :
  array_frames p l = map (fun '(k, v) => (v, nextKey p k)) (children (JArray l)).
Proof. unfold array_frames. cbn [children]. change @map with (fun A B f l => @list_fmap A B f l). cbv beta. rewrite fmap_imap. apply imap_ext. reflexivity. Qed.

Lemma size_children j : scalar j = false ->
  json_size j = S (sum_list_with (fun kv => json_size (snd kv)) (children j)).
Proof.
  destruct j as [| | | | | |l|l]; try discriminate; intros _; cbn [json_size children]; f_equal.
  - assert (G : forall f : nat -> string, sum_list_with json_size l =
      sum_list_with (fun kv => json_size (snd kv)) (imap (fun n v => (f n, v)) l)); [|apply G].
    induction l as [|v l IH]; intros f; [reflexivity|]. cbn. rewrite (IH (f ∘ S)). reflexivity.
  - induction l as [|[k v] l IH]; [reflexivity|]. cbn. rewrite IH. reflexivity.
Qed.

Section LeavesFacts.
Context {JT : JsonText}.

Lemma leaves_children j p : scalar j = false ->
  leaves p j = concat (map (fun kv => leaves (p ++ [fst kv]) (snd kv)) (children j)).
Proof.
  destruct j as [| | | | | |l|l]; try discriminate; intros _; cbn [leaves children].
  - assert (G : forall i, (fix elements (i : Z) (l : list ordered_json) :=
         match l with [] => [] | v :: l => leaves (p ++ [to_string i]) v ++ elements (i + 1) l end) i l =
      concat (map (fun kv => leaves (p ++ [fst kv]) (snd kv)) (imap (fun n v => (to_string (i + Z.of_nat n), v)) l))); [|exact (G 0)].
    induction l as [|v l IH]; intros i; [reflexivity|]. cbn. rewrite IH, Z.add_0_r. f_equal. do 2 f_equal.
    apply imap_ext. intros n v' _. cbn. do 2 f_equal. lia.
  - f_equal. apply map_ext. intros [k v]. reflexivity.
Qed.

Lemma leaves_scalar j p : scalar j = true -> leaves p j = [(p, scalar_text j)].
Proof. destruct j; try discriminate; reflexivity. Qed.

Definition frame_of (f : list string * ordered_json) : Frame := (snd f, path_key (fst f)).
Definition pending (st : list (list string * ordered_json)) : list (list string * string) :=
  concat (map (fun f => rev (leaves (fst f) (snd f))) st).
Definition weight (st : list (list string * ordered_json)) : nat := sum_list_with (fun f => json_size (snd f)) st.

Lemma flatten_loop_spec fuel : forall st out, (weight st < fuel)%nat ->
  flatten_loop fuel (map frame_of st) out = Some (fold_left write_leaf (pending st) out).
Proof.
  induction fuel as [|fuel IH]; intros st out W; [lia|]. destruct st as [|[p j] st]; [reflexivity|].
  cbn [map]. change (frame_of (p, j)) with (j, path_key p). cbn [weight sum_list_with fst snd] in W. unfold pending. cbn [map concat fst snd].
  rewrite fold_left_app. fold (pending st).
  destruct (scalar j) eqn:Sc.
  { rewrite leaves_scalar by exact Sc. cbn [rev app fold_left]. unfold write_leaf at 2. cbn [fst snd flatten_loop].
    assert (Wj : json_size j = 1%nat) by (destruct j; discriminate || reflexivity).
    assert (Ws : (weight st < fuel)%nat) by (unfold weight in *; cbn in W; lia).
    destruct j; try discriminate; destruct (bool_decide _); apply IH; exact Ws. }
  pose proof (size_children j Sc) as Sz.
  set (st' := map (fun kv => (p ++ [fst kv], snd kv)) (children j)).
  assert (F : map (fun '(k, v) => (v, nextKey (path_key p) k)) (children j) = map frame_of st').
  { unfold st'. rewrite map_map. apply map_ext. intros [k v]. unfold frame_of. cbn [fst snd]. rewrite path_key_snoc. reflexivity. }
  assert (E : flatten_loop (S fuel) ((j, path_key p) :: map frame_of st) out = flatten_loop fuel (map frame_of (rev st' ++ st)) out).
  { rewrite map_app, map_rev, <- F. destruct j as [| | | | | |l|l]; try discriminate; cbn [flatten_loop].
    - rewrite array_frames_children. unfold reverse. rewrite rev_append_rev, app_nil_r. reflexivity.
    - rewrite object_frames_children. unfold reverse. rewrite rev_append_rev, app_nil_r. reflexivity. }
  etransitivity; [exact E|]. rewrite IH.
  - unfold pending. rewrite map_app, concat_app, fold_left_app. do 2 f_equal.
    rewrite leaves_children by exact Sc. rewrite concat_rev, <- map_rev. do 2 f_equal. unfold st'. rewrite <- !map_rev, !map_map. reflexivity.
  - unfold weight in *. rewrite sum_list_with_app. 
    assert (R : sum_list_with (fun f : list string * ordered_json => json_size (snd f)) (rev st') =
      sum_list_with (fun kv : string * ordered_json => json_size (snd kv)) (children j)).
    { unfold st'. generalize (children j) as cs. intros cs. induction cs as [|[k v] cs IHc]; [reflexivity|].
      cbn. rewrite sum_list_with_app, IHc. cbn. lia. }
    rewrite R. lia.
Qed.

Lemma flatten_leaves root out : flatten root out = fold_left write_leaf (rev (leaves [] root)) out.
Proof.
  unfold flatten. change [(root, "")] with (map frame_of [([], root)]).
  rewrite flatten_loop_spec by (unfold weight; cbn; lia). unfold pending. cbn [map concat fst snd default]. rewrite app_nil_r. reflexivity.
Qed.

Lemma flatten_total root out : exists out', flatten_loop (S (json_size root)) [(root, "")] out = Some out'.
Proof. eexists. apply (flatten_loop_spec (S (json_size root)) [([], root)]). unfold weight. cbn. lia. Qed.

(** What writing leaves in any order leaves at a key. *)
Lemma written_all l k t : k <> "" -> (forall leaf, leaf ∈ l -> path_key (fst leaf) = k -> snd leaf = t) ->
  forall out, out !! k = Some t \/ (exists leaf, leaf ∈ l /\ path_key (fst leaf) = k) -> fold_left write_leaf l out !! k = Some t.
Proof.
  intros Hk. induction l as [|x l IH]; intros Hl out H.
  - destruct H as [H|(? & H & _)]; [exact H|]. apply elem_of_nil in H. contradiction.
  - cbn. apply IH; [intros; apply Hl; [apply elem_of_cons|]; auto|]. unfold write_leaf.
    destruct (decide (path_key (fst x) = k)) as [E|E].
    + left. rewrite E, bool_decide_eq_false_2 by exact Hk. rewrite lookup_insert_eq. f_equal. apply Hl; [apply elem_of_cons; auto|exact E].
    + destruct H as [H|(leaf & [->|H]%elem_of_cons & Ek)]; [left|congruence|right; eauto].
      destruct (bool_decide _); [exact H|]. rewrite lookup_insert_ne by exact E. exact H.
Qed.

Lemma written_none l k : (forall leaf, leaf ∈ l -> path_key (fst leaf) <> k) ->
  forall out, fold_left write_leaf l out !! k = out !! k.
Proof.
  induction l as [|x l IH]; intros Hl out; [reflexivity|]. cbn.
  rewrite IH by (intros; apply Hl, elem_of_cons; auto). unfold write_leaf. destruct (bool_decide _); [reflexivity|].
  apply lookup_insert_ne, Hl, elem_of_cons. auto.
Qed.
End LeavesFacts.

(* ------------------------------------------------------------------ *)
(** ** Plain documents *)

Lemma json_children_ind (P : ordered_json -> Prop) :
  (forall j, Forall (fun kv => P (snd kv)) (children j) -> P j) -> forall j, P j.
Proof.
  intros H. induction j as [j Hj|l IH|l IH] using json_nested_ind; apply H; cbn [children].
  - destruct j; try contradiction; constructor.
  - assert (G : forall f : nat -> string, Forall (fun kv => P (snd kv)) (imap (fun n v => (f n, v)) l)); [|apply G].
    induction IH as [|v l Hv _ IHl]; intros f; [constructor|]. cbn. constructor; [exact Hv|apply (IHl (f ∘ S))].
  - exact IH.
Qed.

Lemma assoc_some k l v : assoc k l = Some v -> (k, v) ∈ l.
Proof.
  induction l as [|[k' v'] l IH]; [discriminate|]. cbn. destruct (bool_decide_reflect (k = k')) as [->|_]; intros H.
  - injection H as ->. apply elem_of_cons. auto.
  - apply elem_of_cons. auto.
Qed.
Lemma assoc_in k l v : NoDup (map fst l) -> (k, v) ∈ l -> assoc k l = Some v.
Proof.
  induction l as [|[k' v'] l IH]; cbn; intros N H; [apply elem_of_nil in H; contradiction|].
  apply NoDup_cons in N as [N1 N]. apply elem_of_cons in H as [H|H].
  - injection H as -> ->. rewrite bool_decide_eq_true_2; reflexivity.
  - rewrite bool_decide_eq_false_2; [auto|]. intros ->. apply N1. apply (list_elem_of_fmap_2 fst _ _ H).
Qed.

Lemma no_char_app c s t : no_char c (s ++ t)%string = no_char c s && no_char c t.
Proof. induction s as [|d s IH]; [reflexivity|]. rewrite string_cons_app. cbn [no_char]. rewrite IH. apply andb_assoc. Qed.

Lemma index_key_ok n : key_ok (to_string (Z.of_nat n)) = true.
Proof.
  destruct (pretty_digits (Z.of_nat n) ltac:(lia)) as (ds & E & Hd & _ & Hne & _). unfold key_ok, to_string. apply andb_true_iff. split.
  - apply bool_decide_eq_true. intros H. rewrite H in E. cbn in E. congruence.
  - apply no_char_spec. rewrite E. eapply Forall_impl; [exact Hd|]. intros d Hdd <-. discriminate Hdd.
Qed.

Lemma plain_children j : plain j = true ->
  Forall (fun kv => key_ok (fst kv) = true /\ plain (snd kv) = true) (children j) /\ NoDup (map fst (children j)).
Proof.
  destruct j as [| | | | | |l|l]; cbn [plain children]; intros H; try (split; [constructor|apply NoDup_nil_2]).
  - split.
    + apply Forall_lookup. intros i [k v] Hi. rewrite list_lookup_imap in Hi. apply fmap_Some in Hi as (w & Hw & [= -> ->]).
      split; [apply index_key_ok|]. cbn. rewrite forallb_forall in H. apply H, list_elem_of_In, list_elem_of_lookup_2 with i, Hw.
    + change (map fst ?x) with (fst <$> x). rewrite fmap_imap. apply NoDup_alt. intros i i' k Hi Hi'.
      rewrite list_lookup_imap in Hi, Hi'. apply fmap_Some in Hi as (w & _ & ->), Hi' as (w' & _ & E).
      cbn in E. unfold to_string in E. apply (inj pretty) in E. lia.
  - apply andb_true_iff in H as [H N]. split; [|apply bool_decide_eq_true in N; exact N].
    rewrite forallb_forall in H. apply Forall_forall. intros [k v] Hkv. apply list_elem_of_In in Hkv. apply andb_true_iff, (H _ Hkv).
Qed.

Lemma key_ok_parts k : key_ok k = true -> k <> "" /\ no_char "."%char k = true.
Proof. unfold key_ok. rewrite andb_true_iff, bool_decide_eq_true. auto. Qed.

Lemma last_dot (a b x y : list ascii) (c : ascii) :
  c ∉ x -> c ∉ y -> a ++ c :: x = b ++ c :: y -> a = b /\ x = y.
Proof.
  intros Hx Hy. revert b. induction a as [|d a IH]; intros [|e b] H; cbn in H.
  - injection H as ->. auto.
  - injection H as -> ->. destruct Hx. apply elem_of_app. right. apply elem_of_cons. auto.
  - injection H as -> <-. destruct Hy. apply elem_of_app. right. apply elem_of_cons. auto.
  - injection H as -> H. destruct (IH b H) as [-> ->]. auto.
Qed.

Lemma no_dot_in x : no_char "."%char x = true -> "."%char ∉ chars_of x.
Proof. rewrite no_char_spec, Forall_forall. intros H Hin. exact (H _ Hin eq_refl). Qed.

Lemma nextKey_inj p q x y : key_ok x = true -> key_ok y = true -> nextKey p x = nextKey q y -> p = q /\ x = y.
Proof.
  intros [Hx Dx]%key_ok_parts [Hy Dy]%key_ok_parts. apply no_dot_in in Dx, Dy. unfold nextKey.
  assert (In : forall r z, "."%char ∈ chars_of (r ++ "." ++ z)%string).
  { intros r z. rewrite !chars_of_app. apply elem_of_app. right. apply elem_of_app. left. apply elem_of_cons. auto. }
  destruct (bool_decide_reflect (p = "")) as [->|Hp], (bool_decide_reflect (q = "")) as [->|Hq]; intros E.
  - auto.
  - rewrite E in Dx. destruct (Dx (In _ _)).
  - rewrite <- E in Dy. destruct (Dy (In _ _)).
  - apply (f_equal chars_of) in E. rewrite !chars_of_app in E. cbn in E.
    apply last_dot in E as [E1 E2]; [|assumption..]. split; apply chars_of_inj; assumption.
Qed.

Lemma nextKey_ne p x : key_ok x = true -> nextKey p x <> "".
Proof.
  intros [Hx _]%key_ok_parts. unfold nextKey. destruct (bool_decide_reflect (p = "")) as [_|Hp]; [exact Hx|].
  destruct p; [congruence|discriminate].
Qed.

Lemma path_key_inj p : forall q, Forall (fun k => key_ok k = true) p -> Forall (fun k => key_ok k = true) q -> path_key p = path_key q -> p = q.
Proof.
  induction p as [|x p IH] using rev_ind; intros q Hp Hq E.
  - destruct q as [|y q _] using rev_ind; [reflexivity|]. rewrite path_key_snoc in E. apply Forall_app in Hq as [_ Hy].
    apply Forall_cons in Hy as [Hy _]. destruct (nextKey_ne _ _ Hy (eq_sym E)).
  - rewrite path_key_snoc in E. apply Forall_app in Hp as [Hp [Hx _]%Forall_cons].
    destruct q as [|y q _] using rev_ind; [destruct (nextKey_ne _ _ Hx E)|].
    rewrite path_key_snoc in E. apply Forall_app in Hq as [Hq [Hy _]%Forall_cons].
    apply nextKey_inj in E as [E ->]; [|assumption..]. rewrite (IH q Hp Hq E). reflexivity.
Qed.

Lemma path_key_ne p : p <> [] -> Forall (fun k => key_ok k = true) p -> path_key p <> "".
Proof.
  intros Hne Hp. destruct p as [|x p _] using rev_ind; [congruence|]. rewrite path_key_snoc.
  apply Forall_app in Hp as [_ [Hx _]%Forall_cons]. apply nextKey_ne, Hx.
Qed.

Lemma json_get_keys path : forall j v, plain j = true -> json_get j path = Some v -> Forall (fun k => key_ok k = true) path.
Proof.
  induction path as [|k path IH]; intros j v Hj H; [constructor|]. cbn in H.
  destruct (assoc k (children j)) as [w|] eqn:A; [|discriminate]. apply plain_children in Hj as [Hj _].
  apply assoc_some in A. rewrite Forall_forall in Hj. destruct (Hj _ A) as [Hk Hw]. constructor; [exact Hk|exact (IH w v Hw H)].
Qed.

Section PlainFacts.
Context {JT : JsonText}.

(** The leaves are the scalars the paths lead to. *)
Lemma leaves_text j : plain j = true -> forall p q t,
  (q, t) ∈ leaves p j <-> exists r, q = p ++ r /\ text_at j r = Some t.
Proof.
  induction j as [j IH] using json_children_ind. intros Hj p q t. destruct (scalar j) eqn:Sc.
  { rewrite leaves_scalar by exact Sc. rewrite list_elem_of_singleton. split.
    - intros [= -> ->]. exists []. rewrite app_nil_r. unfold text_at. cbn. rewrite Sc. auto.
    - intros (r & -> & Hr). destruct r as [|k r].
      + unfold text_at in Hr. cbn in Hr. rewrite Sc in Hr. injection Hr as <-. rewrite app_nil_r. reflexivity.
      + unfold text_at in Hr. cbn in Hr. destruct j; discriminate. }
  rewrite leaves_children by exact Sc. destruct (plain_children j Hj) as [Hc N].
  rewrite Forall_forall in IH, Hc. split.
  - intros H. apply list_elem_of_In, in_concat in H as (l & (kv & <- & Hin)%in_map_iff & H). apply list_elem_of_In in H, Hin.
    apply (IH _ Hin (proj2 (Hc _ Hin))) in H as (r & -> & Hr). destruct kv as [k v]. cbn [fst snd] in *. exists (k :: r). rewrite <- app_assoc. split; [reflexivity|].
    unfold text_at in *. cbn [json_get]. rewrite (assoc_in k (children j) v N Hin). exact Hr.
  - intros (r & -> & Hr). unfold text_at in Hr. destruct r as [|k r]; [cbn in Hr; rewrite Sc in Hr; discriminate|].
    cbn in Hr. destruct (assoc k (children j)) as [v|] eqn:A; [|discriminate]. apply assoc_some in A.
    apply list_elem_of_In, in_concat. exists (leaves (p ++ [k]) v). split.
    + apply in_map_iff. exists (k, v). split; [reflexivity|apply list_elem_of_In, A].
    + apply list_elem_of_In. apply (IH _ A (proj2 (Hc _ A))). exists r. rewrite <- app_assoc. auto.
Qed.

Lemma text_at_keys j r t : plain j = true -> text_at j r = Some t -> Forall (fun k => key_ok k = true) r.
Proof. unfold text_at. destruct (json_get j r) as [v|] eqn:G; [|discriminate]. intros Hj _. exact (json_get_keys r j v Hj G). Qed.

(** Writing the leaves of a plain document, in whatever order. *)
Lemma written_plain root l out path : plain root = true -> (forall leaf, leaf ∈ l <-> leaf ∈ leaves [] root) ->
  path <> [] -> Forall (fun k => key_ok k = true) path ->
  fold_left write_leaf l out !! path_key path =
    match text_at root path with Some t => Some t | None => out !! path_key path end.
Proof.
  intros Hr Hl Hne Hp. destruct (text_at root path) as [t|] eqn:T.
  - apply written_all; [apply path_key_ne; assumption| |].
    + intros [q u] Hin E. apply Hl, leaves_text in Hin as (r & -> & Hin); [|exact Hr]. cbn in *.
      apply path_key_inj in E; [|exact (text_at_keys _ _ _ Hr Hin)|exact Hp]. subst. congruence.
    + right. exists (path, t). split; [|reflexivity]. apply Hl, leaves_text; eauto.
  - apply written_none. intros [q u] Hin E. apply Hl, leaves_text in Hin as (r & -> & Hin); [|exact Hr]. cbn in *.
    apply path_key_inj in E; [|exact (text_at_keys _ _ _ Hr Hin)|exact Hp]. subst. congruence.
Qed.

Lemma written_elsewhere root l out k : plain root = true -> (forall leaf, leaf ∈ l <-> leaf ∈ leaves [] root) ->
  (forall path, Forall (fun k => key_ok k = true) path -> path <> [] -> path_key path <> k) ->
  fold_left write_leaf l out !! k = out !! k.
Proof.
  intros Hr Hl Hk. destruct (decide (k = "")) as [->|Hne].
  - clear Hl Hk. revert out. induction l as [|x l IH]; intros out; [reflexivity|]. cbn. rewrite IH. unfold write_leaf.
    destruct (bool_decide_reflect (path_key (fst x) = "")); [reflexivity|]. apply lookup_insert_ne. exact n.
  - apply written_none. intros [q u] Hin E. apply Hl, leaves_text in Hin as (r & -> & Hin); [|exact Hr]. cbn in *.
    destruct r as [|k' r]; [exact (Hne (eq_sym E))|]. exact (Hk (k' :: r) (text_at_keys _ _ _ Hr Hin) ltac:(discriminate) E).
Qed.
End PlainFacts.

(* ------------------------------------------------------------------ *)
(** ** What the accessors read *)

Section Reading.
Context {JT : JsonText}.

Lemma rev_same {A} (l : list A) x : x ∈ rev l <-> x ∈ l.
Proof. rewrite !list_elem_of_In, <- in_rev. reflexivity. Qed.

Lemma flatten_lookup root out path : plain root = true -> path <> [] -> Forall (fun k => key_ok k = true) path ->
  flatten root out !! path_key path = match text_at root path with Some t => Some t | None => out !! path_key path end.
Proof. intros Hr Hne Hp. rewrite flatten_leaves. apply written_plain; try assumption. intros leaf. apply rev_same. Qed.

Lemma flatten_is_recursive root out : plain root = true -> flatten root out = flatten_recursive root out.
Proof.
  intros Hr. apply map_eq. intros k. rewrite flatten_leaves. unfold flatten_recursive.
  destruct (decide (Exists (fun leaf => path_key (fst leaf) = k /\ k <> "") (leaves [] root))) as [E|E].
  - apply Exists_exists in E as ([q t] & Hin & <- & Hne). cbn [fst] in *. apply leaves_text in Hin as (r & -> & T); [|exact Hr].
    cbn [app] in *. pose proof (text_at_keys _ _ _ Hr T) as Hk. assert (Hr' : r <> []) by (intros ->; exact (Hne eq_refl)).
    rewrite !(written_plain root) by (assumption || (intros; rewrite ?rev_same; reflexivity)). reflexivity.
  - assert (G : forall path, Forall (fun k => key_ok k = true) path -> path <> [] -> path_key path = k -> text_at root path = None).
    { intros path Hp Hne <-. destruct (text_at root path) as [t|] eqn:T; [|reflexivity]. destruct E. apply Exists_exists.
      exists (path, t). split; [apply leaves_text; eauto|]. split; [reflexivity|]. apply path_key_ne; assumption. }
    assert (N : forall l, (forall leaf, leaf ∈ l <-> leaf ∈ leaves [] root) -> fold_left write_leaf l out !! k = out !! k).
    { intros l Hl. destruct (decide (k = "")) as [->|Hk].
      - clear Hl G E. revert out. induction l as [|x l IH]; intros out; [reflexivity|]. cbn. rewrite IH. unfold write_leaf.
        destruct (bool_decide_reflect (path_key (fst x) = "")) as [_|Hx]; [reflexivity|]. apply lookup_insert_ne, Hx.
      - apply written_none. intros [q t] Hin Eq. apply E, Exists_exists. exists (q, t). split; [apply Hl, Hin|]. split; [exact Eq|exact Hk]. }
    rewrite !N by (intros; rewrite ?rev_same; reflexivity). reflexivity.
Qed.

Lemma flatten_keys root k t : plain root = true -> flatten root ∅ !! k = Some t ->
  exists path, Forall (fun k => key_ok k = true) path /\ path <> [] /\ k = path_key path /\ text_at root path = Some t.
Proof.
  intros Hr H. rewrite flatten_leaves in H.
  assert (G : forall l out, fold_left write_leaf l out !! k = Some t -> out !! k = Some t \/
    exists leaf, leaf ∈ l /\ path_key (fst leaf) = k /\ snd leaf = t /\ k <> "").
  { intros l. induction l as [|x l IH]; intros out Hl; [auto|]. cbn in Hl. apply IH in Hl as [Hl|(leaf & H1 & H2)].
    - unfold write_leaf in Hl. destruct (bool_decide_reflect (path_key (fst x) = "")) as [_|Hx]; [auto|].
      apply lookup_insert_Some in Hl as [[Ek Et]|[_ Hl]]; [|auto]. right. exists x. rewrite elem_of_cons. subst. auto.
    - right. exists leaf. rewrite elem_of_cons. auto. }
  apply G in H as [H|([q u] & Hin & Ek & Et & Hne)]; [discriminate|]. cbn in *. apply rev_same, leaves_text in Hin as (r & -> & T); [|exact Hr].
  subst. cbn in *. exists r. repeat split; try congruence; [exact (text_at_keys _ _ _ Hr T)|]. intros ->. exact (Hne eq_refl).
Qed.

(** C36: The accessors read the document: for a document whose keys are
    non-empty, without dots and not repeated within an object, the settings
    hold exactly its scalars under their dotted paths, the same as the
    recursive traversal the loop replaces; a text comes back as itself, a
    boolean is read as itself, a number that fits an [int] as that number,
    null as the empty text, and the default where the document has nothing,
    an array or an object. *)
Theorem accessors_read_document (root : ordered_json) : plain root = true ->
  flatten root ∅ = flatten_recursive root ∅ /\
  (forall k, is_Some (flatten root ∅ !! k) -> exists path, k = path_key path /\ is_Some (text_at root path)) /\
  forall path, path <> [] -> Forall (fun k => key_ok k = true) path ->
    let config_ := flatten root ∅ in let key := path_key path in
    match json_get root path with
    | Some (JText s) => forall d, getValue config_ key d = s
    | Some (JBoolean b) => forall d, bool_decide (getValue config_ key d = "true") = b
    | Some (JInteger z) | Some (JUnsigned z) => int_min <= z <= int_max -> forall d, getInt config_ key d = z
    | Some (JFloat x) => forall d, getValue config_ key d = dump_double x
    | Some JNull => forall d, getValue config_ key d = ""
    | Some (JArray _) | Some (JObject _) | None =>
        (forall d, getValue config_ key d = d) /\ (forall d, getInt config_ key d = d) /\ (forall d, getFloat config_ key d = d)
    end.
Proof.
  intros Hr. split; [apply flatten_is_recursive, Hr|]. split.
  { intros k [t Hk]. destruct (flatten_keys root k t Hr Hk) as (path & _ & _ & -> & T). eauto. }
  intros path Hne Hp config_ key. pose proof (flatten_lookup root ∅ path Hr Hne Hp) as E. fold config_ key in E.
  unfold text_at in E. unfold getValue, getInt, getFloat. clearbody config_.
  assert (I64 : forall z, int_min <= z <= int_max -> to_i64 z = z).
  { intros z Hz. unfold to_i64, int_min, int_max in *. rewrite Z.mod_small by lia. lia. }
  destruct (json_get root path) as [[| b |z|z|x|s|l|l]|]; cbn in E; rewrite E; auto; cbn [default].
  - intros d. destruct b; reflexivity.
  - intros Hz d. rewrite I64 by exact Hz. rewrite stoi_pretty by exact Hz. reflexivity.
  - intros Hz d. rewrite I64 by exact Hz. rewrite stoi_pretty by exact Hz. reflexivity.
Qed.
End Reading.

(* ------------------------------------------------------------------ *)
(** ** Where it does not *)

(** A library that parses one document, and prints every double as 0.5. *)
Definition one_document (root : ordered_json) : JsonText := {|
  parse_document := fun _ => Some root;
  dump_double := fun _ => "0.5";
|}.

Definition clashing : ordered_json := JObject [("a.b", JInteger 1); ("a", JObject [("b", JInteger 2)])].

(** The order of the traversal does reach the settings: of two members whose
    dotted paths coincide the loop keeps the first, the recursive traversal
    the last. And the branch for unsigned numbers is never taken: a number
    beyond the signed 64-bit range is read as a negative one. *)
Theorem flatten_gaps_refuted :
  let JT := one_document JNull in
  getInt (flatten clashing ∅) "a.b" 0 = 1 /\ getInt (flatten_recursive clashing ∅) "a.b" 0 = 2 /\
  getValue (flatten (JObject [("n", JUnsigned (2 ^ 64 - 1))]) ∅) "n" "" = "-1" /\
  (forall j, is_number_unsigned j = true -> scalar_text j = to_string (get_int64 j)).
Proof. do 3 (split; [vm_compute; reflexivity|]). intros [] H; try discriminate H. reflexivity. Qed.

Definition demo_document : ordered_json := JObject [
  ("application", JObject [("name", JText "Line 4"); ("kiosk", JBoolean true); ("scale", JFloat (f64_lit 5 1))]);
  ("network", JObject [("tcp", JObject [("enabled", JBoolean true); ("port", JUnsigned 6000)])]);
  ("dashboard", JObject [("equipment_lines", JArray [JObject [("name", JText "A"); ("offset", JInteger (-3))]])])].

Lemma accessors_read_document_witness :
  let JT := one_document demo_document in
  isTcpBackendEnabled (flatten demo_document ∅) = true /\ getTcpBackendPort (flatten demo_document ∅) = 6000 /\
  getAppName (flatten demo_document ∅) = "Line 4" /\ getInt (flatten demo_document ∅) "dashboard.equipment_lines.0.offset" 7 = -3.
Proof.
  intros JT. destruct (accessors_read_document demo_document eq_refl) as (_ & _ & H).
  split; [exact (H ["network"; "tcp"; "enabled"] ltac:(discriminate) ltac:(repeat constructor) "false")|].
  split; [exact (H ["network"; "tcp"; "port"] ltac:(discriminate) ltac:(repeat constructor) ltac:(vm_compute; split; discriminate) kTcpBackendPort)|].
  split; [exact (H ["application"; "name"] ltac:(discriminate) ltac:(repeat constructor) kAppName)|].
  exact (H ["dashboard"; "equipment_lines"; "0"; "offset"] ltac:(discriminate) ltac:(repeat constructor) ltac:(vm_compute; split; discriminate) 7).
Defined.
