(* ===== verification/ConfigValidator.v ===== *)
(** * Semantic validation of the configuration
    (src/config/ConfigValidator.cpp)

    The rules, with their messages, over the accessors the program itself
    uses. Property: what a configuration without errors guarantees, rule by
    rule. *)
From Stdlib Require Import Ascii String.
From S2P Require Import Prelude Float32 Format Config.
Local Open Scope string_scope.
Local Open Scope Z_scope.
Local Open Scope list_scope.

Definition kMinPort : Z := 1.
Definition kMaxPort : Z := 65535.
Definition isValidPort (p : Z) : bool := (kMinPort <=? p) && (p <=? kMaxPort).

Definition kLogLevels : list string := ["TRACE"; "DEBUG"; "INFO"; "WARN"; "ERROR"].
Definition kLanguageCodes : list string :=
  ["auto"; "en"; "de"; "es"; "es_MX"; "fi"; "fr"; "ga"; "it"; "pt"; "pt_BR"; "sv"].
Definition oneOf (choices : list string) (v : string) : bool := existsb (String.eqb v) choices.

(** [errors.emplace_back(...)] under a condition. *)
Definition emplace_if (b : bool) (msg : string) (errors : list string) : list string :=
  if b then errors ++ [msg] else errors.

Section Checks.
Variable cfg : settings.

Definition checkLogging (errors : list string) : list string :=
  let level := getLogLevel cfg in
  let errors := emplace_if (negb (oneOf kLogLevels level))
    ("logging.level: '" ++ level ++ "' is not one of TRACE|DEBUG|INFO|WARN|ERROR")%string errors in
  let errors := emplace_if (getLogMaxFiles cfg <? 1) "logging.max_files: must be >= 1" errors in
  emplace_if (getLogMaxFileSize cfg =? 0) "logging.max_file_size_mb: must be >= 1" errors.

Definition checkI18n (errors : list string) : list string :=
  let lang := getLanguage cfg in
  emplace_if (negb (oneOf kLanguageCodes lang))
    ("i18n.language: '" ++ lang ++ "' is not a recognised LINGUAS code (expected 'auto' or one of " ++
     "en|de|es|es_MX|fi|fr|ga|it|pt|pt_BR|sv)")%string errors.

Definition checkWindow (errors : list string) : list string :=
  let errors := emplace_if (getWindowWidth cfg <=? 0) "window.default_width: must be > 0" errors in
  emplace_if (getWindowHeight cfg <=? 0) "window.default_height: must be > 0" errors.

Definition checkBackends (errors : list string) : list string :=
  let errors := emplace_if (isTcpBackendEnabled cfg && negb (isValidPort (getTcpBackendPort cfg)))
    "network.tcp.port: out of range (1..65535)" errors in
  let errors := emplace_if (isHttpBackendEnabled cfg && negb (isValidPort (getHttpBackendPort cfg)))
    "network.http.port: out of range (1..65535)" errors in
  let errors := emplace_if (isMqttBackendEnabled cfg && negb (isValidPort (getMqttBrokerPort cfg)))
    "network.mqtt.broker_port: out of range (1..65535)" errors in
  let errors := emplace_if (isModbusBackendEnabled cfg && negb (isValidPort (getModbusPort cfg)))
    "network.modbus.port: out of range (1..65535)" errors in
  emplace_if (isOpcUaBackendEnabled cfg && negb (isValidPort (getOpcUaServerPort cfg)))
    "network.opcua.port: out of range (1..65535)" errors.

Definition is_empty (s : string) : bool := bool_decide (s = "").

Definition checkHttpTls (errors : list string) : list string :=
  if negb (isHttpBackendEnabled cfg) || negb (isHttpTlsEnabled cfg) then errors
  else
    let errors := emplace_if (is_empty (getHttpTlsCertPath cfg))
      "network.http.tls.cert_path: required when network.http.tls.enabled is true" errors in
    let errors := emplace_if (is_empty (getHttpTlsKeyPath cfg))
      "network.http.tls.key_path: required when network.http.tls.enabled is true" errors in
    emplace_if (isHttpTlsVerifyPeer cfg && is_empty (getHttpTlsClientCaPath cfg))
      "network.http.tls.client_ca_path: required when network.http.tls.verify_peer is true" errors.

Definition checkOpcUaSecurityEndpoint (enabled : bool) (keyPrefix certPath privateKeyPath trustListDir : string)
    (errors : list string) : list string :=
  if negb enabled then errors
  else
    let required (field : string) := (keyPrefix ++ field ++ ": required when " ++ keyPrefix ++ ".enabled is true")%string in
    let errors := emplace_if (is_empty certPath) (required ".cert_path") errors in
    let errors := emplace_if (is_empty privateKeyPath) (required ".private_key_path") errors in
    emplace_if (is_empty trustListDir) (required ".trust_list_dir") errors.

Definition checkOpcUaSecurity (errors : list string) : list string :=
  if negb (isOpcUaBackendEnabled cfg) then errors
  else
    let errors := checkOpcUaSecurityEndpoint (isOpcUaServerSecurityEnabled cfg) "network.opcua.server.security"
      (getOpcUaServerSecurityCertPath cfg) (getOpcUaServerSecurityPrivateKeyPath cfg)
      (getOpcUaServerSecurityTrustListDir cfg) errors in
    if negb (isOpcUaClientEnabled cfg) then errors
    else checkOpcUaSecurityEndpoint (isOpcUaClientSecurityEnabled cfg) "network.opcua.client.security"
      (getOpcUaClientSecurityCertPath cfg) (getOpcUaClientSecurityPrivateKeyPath cfg)
      (getOpcUaClientSecurityTrustListDir cfg) errors.

Definition checkHistorian (errors : list string) : list string :=
  if negb (isHistorianEnabled cfg) then errors
  else
    let errors := emplace_if (getHistorianBatchSize cfg <=? 0) "historian.batch_size: must be > 0 when enabled" errors in
    let errors := emplace_if (getHistorianBatchAgeMs cfg <=? 0) "historian.batch_age_ms: must be > 0 when enabled" errors in
    emplace_if (getHistorianSweepIntervalMs cfg <=? 0) "historian.sweep_interval_ms: must be > 0 when enabled" errors.

Definition checkModbus (errors : list string) : list string :=
  if negb (isModbusBackendEnabled cfg) then errors
  else
    let errors := emplace_if (getModbusEquipmentCount cfg <=? 0)
      "network.modbus.equipment_count: must be > 0 when enabled" errors in
    let errors := emplace_if (getModbusPollIntervalMs cfg <=? 0)
      "network.modbus.poll_interval_ms: must be > 0 when enabled" errors in
    let errors := emplace_if (f32_leb (getModbusSupplyScale cfg) (f32_of_Z 0))
      "network.modbus.supply_scale: must be > 0 when enabled" errors in
    emplace_if (f32_leb (getModbusQualityScale cfg) (f32_of_Z 0))
      "network.modbus.quality_scale: must be > 0 when enabled" errors.
End Checks.

(** [ConfigValidator::validate]: the errors; [ok] when there are none. *)
Definition validate (cfg : settings) : list string :=
  let errors := checkLogging cfg [] in
  let errors := checkI18n cfg errors in
  let errors := checkWindow cfg errors in
  let errors := checkBackends cfg errors in
  let errors := checkHttpTls cfg errors in
  let errors := checkOpcUaSecurity cfg errors in
  let errors := checkHistorian cfg errors in
  checkModbus cfg errors.

(* ------------------------------------------------------------------ *)
(** ** What the rules ask *)

Definition port_ok (p : Z) : Prop := 1 <= p <= 65535.
Definition given (s : string) : Prop := s <> "".

(** A configuration the rules have nothing against. *)
Record config_valid (cfg : settings) : Prop := {
  v_level : getLogLevel cfg ∈ kLogLevels;
  v_files : 1 <= getLogMaxFiles cfg;
  v_size : getLogMaxFileSize cfg <> 0;
  v_language : getLanguage cfg ∈ kLanguageCodes;
  v_window : 0 < getWindowWidth cfg /\ 0 < getWindowHeight cfg;
  v_tcp : isTcpBackendEnabled cfg = true -> port_ok (getTcpBackendPort cfg);
  v_http : isHttpBackendEnabled cfg = true -> port_ok (getHttpBackendPort cfg);
  v_mqtt : isMqttBackendEnabled cfg = true -> port_ok (getMqttBrokerPort cfg);
  v_modbus : isModbusBackendEnabled cfg = true -> port_ok (getModbusPort cfg);
  v_opcua : isOpcUaBackendEnabled cfg = true -> port_ok (getOpcUaServerPort cfg);
  v_tls : isHttpBackendEnabled cfg = true -> isHttpTlsEnabled cfg = true ->
    given (getHttpTlsCertPath cfg) /\ given (getHttpTlsKeyPath cfg) /\
    (isHttpTlsVerifyPeer cfg = true -> given (getHttpTlsClientCaPath cfg));
  v_server_security : isOpcUaBackendEnabled cfg = true -> isOpcUaServerSecurityEnabled cfg = true ->
    given (getOpcUaServerSecurityCertPath cfg) /\ given (getOpcUaServerSecurityPrivateKeyPath cfg) /\
    given (getOpcUaServerSecurityTrustListDir cfg);
  v_client_security : isOpcUaBackendEnabled cfg = true -> isOpcUaClientEnabled cfg = true -> isOpcUaClientSecurityEnabled cfg = true ->
    given (getOpcUaClientSecurityCertPath cfg) /\ given (getOpcUaClientSecurityPrivateKeyPath cfg) /\
    given (getOpcUaClientSecurityTrustListDir cfg);
  v_historian : isHistorianEnabled cfg = true ->
    0 < getHistorianBatchSize cfg /\ 0 < getHistorianBatchAgeMs cfg /\ 0 < getHistorianSweepIntervalMs cfg;
  v_modbus_map : isModbusBackendEnabled cfg = true ->
    0 < getModbusEquipmentCount cfg /\ 0 < getModbusPollIntervalMs cfg /\
    f32_leb (getModbusSupplyScale cfg) (f32_of_Z 0) = false /\ f32_leb (getModbusQualityScale cfg) (f32_of_Z 0) = false;
}.

Lemma emplace_nil b msg errors : emplace_if b msg errors = [] <-> b = false /\ errors = [].
Proof. unfold emplace_if. destruct b; [split; [intros H; apply app_eq_nil in H as [_ H]; discriminate|intros [H _]; discriminate]|tauto]. Qed.

Lemma oneOf_spec l v : negb (oneOf l v) = false <-> v ∈ l.
Proof.
  rewrite negb_false_iff. unfold oneOf. rewrite existsb_exists. split.
  - intros (x & Hx & E%String.eqb_eq). subst. apply list_elem_of_In, Hx.
  - intros H. exists v. split; [apply list_elem_of_In, H|apply String.eqb_refl].
Qed.

Lemma port_check b p : b && negb (isValidPort p) = false <-> (b = true -> port_ok p).
Proof. unfold isValidPort, port_ok, kMinPort, kMaxPort. rewrite andb_false_iff, negb_false_iff, andb_true_iff, !Z.leb_le. destruct b; intuition congruence. Qed.

Lemma empty_check s : is_empty s = false <-> given s.
Proof. apply bool_decide_eq_false. Qed.

Lemma if_nil (b : bool) (l m : list string) (P : Prop) :
  (m = [] <-> P /\ l = []) -> (if negb b then l else m) = [] <-> (b = true -> P) /\ l = [].
Proof. intros H. destruct b; cbn; rewrite ?H; intuition congruence. Qed.

Lemma endpoint_nil enabled pre c k t errors : checkOpcUaSecurityEndpoint enabled pre c k t errors = [] <->
  (enabled = true -> given c /\ given k /\ given t) /\ errors = [].
Proof. apply if_nil. rewrite !emplace_nil, !empty_check. tauto. Qed.

Lemma security_nil cfg errors : checkOpcUaSecurity cfg errors = [] <->
  (isOpcUaBackendEnabled cfg = true ->
    (isOpcUaServerSecurityEnabled cfg = true ->
      given (getOpcUaServerSecurityCertPath cfg) /\ given (getOpcUaServerSecurityPrivateKeyPath cfg) /\
      given (getOpcUaServerSecurityTrustListDir cfg)) /\
    (isOpcUaClientEnabled cfg = true -> isOpcUaClientSecurityEnabled cfg = true ->
      given (getOpcUaClientSecurityCertPath cfg) /\ given (getOpcUaClientSecurityPrivateKeyPath cfg) /\
      given (getOpcUaClientSecurityTrustListDir cfg))) /\ errors = [].
Proof. apply if_nil. rewrite (if_nil _ _ _ _ (endpoint_nil _ _ _ _ _ _)), endpoint_nil. tauto. Qed.

Lemma tls_nil cfg errors : checkHttpTls cfg errors = [] <->
  (isHttpBackendEnabled cfg = true -> isHttpTlsEnabled cfg = true ->
    given (getHttpTlsCertPath cfg) /\ given (getHttpTlsKeyPath cfg) /\
    (isHttpTlsVerifyPeer cfg = true -> given (getHttpTlsClientCaPath cfg))) /\ errors = [].
Proof.
  unfold checkHttpTls. destruct (isHttpBackendEnabled cfg), (isHttpTlsEnabled cfg); cbn; try (intuition congruence).
  rewrite !emplace_nil, andb_false_iff, !empty_check. destruct (isHttpTlsVerifyPeer cfg); intuition congruence.
Qed.

(** The rules as one condition. *)
Lemma validate_spec cfg : validate cfg = [] <-> config_valid cfg.
Proof.
  unfold validate, checkModbus.
  rewrite (if_nil _ _ _ (0 < getModbusEquipmentCount cfg /\ 0 < getModbusPollIntervalMs cfg /\
    f32_leb (getModbusSupplyScale cfg) (f32_of_Z 0) = false /\ f32_leb (getModbusQualityScale cfg) (f32_of_Z 0) = false))
    by (rewrite !emplace_nil, !Z.leb_gt; tauto).
  unfold checkHistorian. rewrite (if_nil _ _ _ (0 < getHistorianBatchSize cfg /\ 0 < getHistorianBatchAgeMs cfg /\ 0 < getHistorianSweepIntervalMs cfg))
    by (rewrite !emplace_nil, !Z.leb_gt; tauto).
  rewrite security_nil, tls_nil. unfold checkBackends, checkWindow, checkI18n, checkLogging. cbv zeta.
  rewrite !emplace_nil, !port_check, !oneOf_spec, !Z.leb_gt, Z.ltb_ge, Z.eqb_neq.
  split; [intros H; constructor; tauto|intros []; tauto].
Qed.

#[export] Instance config_valid_dec cfg : Decision (config_valid cfg).
Proof. refine (cast_if (decide (validate cfg = []))); rewrite <- validate_spec; assumption. Defined.
