(* ===== verification/ConfigManager.v ===== *)
(** * The configuration manager, its watcher and the startup that uses them
    (src/config/ConfigManager.{h,cpp}, ConfigFileWatcher.cpp,
    src/core/i18n.cpp, Bootstrap.cpp, StartupErrors.h)

    Loading, hot reload with its listeners, the two settings written back to
    the file, the poller that notices edits, the interface language they end
    in, and the stages of the startup up to the database. Properties: the
    live configuration always passes the validator and an edit reaches the
    language at the next poll; a saved setting is found again and the rest of
    the file is left alone; when those fail. *)
From Stdlib Require Import Ascii String.
From S2P Require Import Prelude Float32 Format Config ConfigValidator.
Local Open Scope string_scope.
Local Open Scope Z_scope.
Local Open Scope list_scope.

(* ------------------------------------------------------------------ *)
(** ** The interface language (the POSIX branch of i18n.cpp) *)

(** The process environment and [gEnvOwned]. *)
Record I18n := mkI18n { i_env : gmap string string; gEnvOwned : bool }.

(** [getenv], for a variable that is set and not empty. *)
Definition getenv (name : string) (s : I18n) : option string :=
  v ← i_env s !! name; if bool_decide (v = "") then None else Some v.

(** [v.resize(v.find(c))] when [c] occurs. *)
Fixpoint until (c : ascii) (v : string) : string :=
  match v with EmptyString => "" | String d v => if bool_decide (d = c) then "" else String d (until c v) end.

Definition setenv_language (v : string) (owned : bool) (s : I18n) : I18n := mkI18n (<["LANGUAGE" := v]> (i_env s)) owned.

Definition propagateLangToLanguage (s : I18n) : I18n :=
  let src := match getenv "LC_ALL" s with
             | Some v => Some v
             | None => match getenv "LC_MESSAGES" s with Some v => Some v | None => getenv "LANG" s end
             end in
  match src with
  | None => s
  | Some src =>
      let v := until "."%char (until "@"%char src) in
      if bool_decide (v = "") || bool_decide (v = "C") || bool_decide (v = "POSIX") then s
      else setenv_language v (gEnvOwned s) s
  end.

Definition forceLanguage (language : string) (s : I18n) : I18n :=
  if bool_decide (language = "") then s else setenv_language language true s.

Definition isAuto (language : string) : bool := bool_decide (language = "") || bool_decide (language = "auto").

(** [initI18n]: the catalogue gettext will look in; the locale calls that
    follow are the C library's. *)
Definition initI18n (language : string) (s : I18n) : I18n :=
  let language := c_str language in
  if isAuto language then propagateLangToLanguage s else forceLanguage language s.

Definition ui_language (s : I18n) : option string := i_env s !! "LANGUAGE".

(* ------------------------------------------------------------------ *)
(** ** The manager *)

(** Files by path, and the times they were last written. *)
Abbreviation disk := (gmap string string).
Abbreviation mtimes := (gmap string Z).

(** What can go wrong while a file is written next to the old one. *)
Inductive io_fault := NoFault | TmpOpenFails | TmpWriteFails (written : string) | RenameFails.

Definition kConfigPath : string := "config/app-config.json".

Section Manager.
Context {JT : JsonText}.
(** Reload listeners, and what one does when it is called: [false] when it
    throws. *)
Context {L : Type} (call : L -> settings -> bool -> I18n -> I18n * bool).

Record ConfigManager := mkManager {
  configPath_ : string;
  config_ : settings;
  initialized_ : bool;
  reloadListeners_ : list L;
}.

Definition manager_init : ConfigManager := mkManager "" ∅ false [].

Definition with_config (m : ConfigManager) (c : settings) : ConfigManager :=
  mkManager (configPath_ m) c (initialized_ m) (reloadListeners_ m).

(** [None]: the file does not open or does not parse. *)
Definition read_document (d : disk) (path : string) : option ordered_json :=
  content ← d !! path; parse_document content.

Definition loadConfig (d : disk) (m : ConfigManager) : bool * ConfigManager :=
  match read_document d (configPath_ m) with
  | None => (false, m)
  | Some root => (true, with_config m (flatten root ∅))
  end.

Definition initialize (configPath : string) (d : disk) (m : ConfigManager) : bool * ConfigManager :=
  let (ok, m) := loadConfig d (mkManager configPath (config_ m) (initialized_ m) (reloadListeners_ m)) in
  (ok, mkManager (configPath_ m) (config_ m) ok (reloadListeners_ m)).

Definition reloadLocked (d : disk) (m : ConfigManager) : bool * ConfigManager :=
  if bool_decide (configPath_ m = "") then (false, m)
  else
    match read_document d (configPath_ m) with
    | None => (false, m)
    | Some root =>
        let nextConfig := flatten root ∅ in
        match validate nextConfig with
        | [] => (true, with_config m nextConfig)
        | _ => (false, m)
        end
    end.

(** The listeners of the snapshot, one after the other, each exception
    caught. *)
Definition fire (m : ConfigManager) (listeners : list L) (s : I18n) : I18n :=
  fold_left (fun s l => fst (call l (config_ m) (initialized_ m) s)) listeners s.

Definition reload (d : disk) (m : ConfigManager) (s : I18n) : bool * ConfigManager * I18n :=
  let (success, m) := reloadLocked d m in
  (success, m, if success then fire m (reloadListeners_ m) s else s).

Definition addReloadListener (l : L) (m : ConfigManager) : ConfigManager :=
  mkManager (configPath_ m) (config_ m) (initialized_ m) (reloadListeners_ m ++ [l]).
Definition clearReloadListeners (m : ConfigManager) : ConfigManager :=
  mkManager (configPath_ m) (config_ m) (initialized_ m) [].
Definition clear (m : ConfigManager) : ConfigManager := mkManager "" ∅ (initialized_ m) (reloadListeners_ m).

(** The file's text with the field's value replaced, or the member inserted;
    [None] when there is no brace to insert after. *)
Definition field_key (fieldName : string) : string := (String kQuote (fieldName ++ String kQuote ""))%string.
Definition quote : string := String kQuote "".

(** Where the value of the field is: the position after its opening quote,
    and the closing one's. *)
Definition field_value (fieldName content : string) : option (nat * nat) :=
  keyPos ← str_find (field_key fieldName) content 0;
  colon ← str_find ":" content (keyPos + String.length (field_key fieldName));
  quoteStart ← str_find quote content (colon + 1);
  quoteEnd ← str_find quote content (quoteStart + 1);
  Some ((quoteStart + 1)%nat, quoteEnd).

Definition edited_content (fieldName value insertionIfMissing content : string) : option string :=
  match field_value fieldName content with
  | Some (from, quoteEnd) => Some (str_replace content from (quoteEnd - from) value)
  | None =>
      brace ← str_find "{" content 0;
      Some (str_replace content (brace + 1) 0 insertionIfMissing)
  end.

Definition tmpPath (m : ConfigManager) : string := (configPath_ m ++ ".tmp")%string.

Definition persistStringField (fieldName value insertionIfMissing : string) (f : io_fault) (d : disk) (m : ConfigManager) : bool * disk :=
  match d !! configPath_ m with
  | None => (false, d)
  | Some content =>
      match edited_content fieldName value insertionIfMissing content with
      | None => (false, d)
      | Some content =>
          match f with
          | TmpOpenFails => (false, d)
          | TmpWriteFails written => (false, <[tmpPath m := written]> d)
          | NoFault | RenameFails =>
              let d := delete (configPath_ m) (<[tmpPath m := content]> d) in
              match f with
              | RenameFails => (false, d)
              | _ => (true, <[configPath_ m := content]> (delete (tmpPath m) d))
              end
          end
      end
  end.

Definition LF : string := String kLF "".
Definition persistLanguage (language : string) : io_fault -> disk -> ConfigManager -> bool * disk :=
  let insertion := (LF ++ "  " ++ quote ++ "i18n" ++ quote ++ ": {" ++ LF ++ "    " ++ quote ++ "language" ++ quote ++ ": " ++
                    quote ++ language ++ quote ++ LF ++ "  }," ++ LF)%string in
  persistStringField "language" language insertion.
Definition persistPalette (palette : string) : io_fault -> disk -> ConfigManager -> bool * disk :=
  let insertion := (LF ++ "  " ++ quote ++ "ui" ++ quote ++ ": {" ++ LF ++ "    " ++ quote ++ "palette" ++ quote ++ ": " ++
                    quote ++ palette ++ quote ++ LF ++ "  }," ++ LF)%string in
  persistStringField "palette" palette insertion.

Definition setLanguage (language : string) (f : io_fault) (d : disk) (m : ConfigManager) : bool * disk * ConfigManager :=
  let m := with_config m (<["i18n.language" := language]> (config_ m)) in
  (persistLanguage language f d m, m).
Definition setPalette (palette : string) (f : io_fault) (d : disk) (m : ConfigManager) : bool * disk * ConfigManager :=
  let m := with_config m (<["ui.palette" := palette]> (config_ m)) in
  (persistPalette palette f d m, m).

(* ------------------------------------------------------------------ *)
(** ** The watcher *)

(** [None] is [file_time_type::min()]. *)
Record ConfigFileWatcher := mkWatcher { w_path : string; lastSeenMtime_ : option Z }.

Definition readMtime (t : mtimes) (path : string) : option Z := t !! path.
Definition watcher_init (path : string) (t : mtimes) : ConfigFileWatcher := mkWatcher path (readMtime t path).

Definition pollOnce (t : mtimes) (d : disk) (w : ConfigFileWatcher) (m : ConfigManager) (s : I18n) :
    bool * ConfigFileWatcher * ConfigManager * I18n :=
  let current := readMtime t (w_path w) in
  if bool_decide (current = lastSeenMtime_ w) then (false, w, m, s)
  else
    let w := mkWatcher (w_path w) current in
    let '(_, m, s) := reload d m s in
    (true, w, m, s).
End Manager.
Arguments ConfigManager : clear implicits.

(* ------------------------------------------------------------------ *)
(** ** Startup *)

(** [ConfigManager::applyI18n]. *)
Definition applyI18n (config_ : settings) (initialized_ : bool) (s : I18n) : I18n :=
  let language := if initialized_ then getLanguage config_ else "auto" in
  initI18n language s.

(** The program's only reload listener applies the language again. *)
Inductive Listener := ApplyI18n.
Definition call_listener (l : Listener) (config_ : settings) (initialized_ : bool) (s : I18n) : I18n * bool :=
  match l with ApplyI18n => (applyI18n config_ initialized_ s, true) end.

Inductive StartupErrorCode :=
| ConfigMissing | ConfigCorrupt | ConfigInvalid | DatabaseInit | LoggerBootstrap | TlsMaterialInvalid.

Definition toTag (code : StartupErrorCode) : string :=
  match code with
  | ConfigMissing => "CONFIG MISSING"
  | ConfigCorrupt => "CONFIG CORRUPT"
  | ConfigInvalid => "CONFIG INVALID"
  | DatabaseInit => "DATABASE ERROR"
  | LoggerBootstrap => "LOGGER ERROR"
  | TlsMaterialInvalid => "TLS MATERIAL INVALID"
  end.

(** How [Bootstrap::run] ends: with the warnings to show, with a
    [CriticalStartupError], or with what formatting the message threw. *)
Inductive boot_result :=
| Booted (warnings_ : list string)
| CriticalStartupError (code : StartupErrorCode) (detail : string)
| BootThrew (e : exn)
| BootUndefined.

Definition join_errors (errors : list string) : string :=
  fold_left (fun joined msg =>
    let joined := if bool_decide (joined = "") then joined else (joined ++ LF)%string in
    (joined ++ "  - " ++ msg)%string) errors "".

Section Startup.
Context {JT : JsonText}.
(** gettext, under the catalogue selected. *)
Variable tr : I18n -> string -> string.

(** The stages of [Bootstrap::run]. [log_error] is what opening the log file
    throws, [db_ok] what opening the database returns. *)
Definition bootstrap (d : disk) (log_error : option string) (db_ok : bool) (m : ConfigManager Listener) (s : I18n) :
    boot_result * ConfigManager Listener * I18n :=
  let s := initI18n "auto" s in
  let (ok, m) := initialize kConfigPath d m in
  if negb ok then
    (match vformat (tr s "Could not load configuration from {}. Re-install the application or restore the config file.")
                   [FText kConfigPath] with
     | Ret text => CriticalStartupError ConfigMissing text
     | Throw e => BootThrew e
     | Undef => BootUndefined
     end, m, s)
  else
    match validate (config_ m) with
    | _ :: _ as errors =>
        (CriticalStartupError ConfigInvalid
           (tr s ("Configuration is syntactically valid but semantically rejected:" ++ LF)%string ++ join_errors errors)%string, m, s)
    | [] =>
        let warnings_ := match log_error with
                         | None => []
                         | Some what => [("Log file could not be opened: " ++ what ++ ". Logging to console only.")%string]
                         end in
        let s := applyI18n (config_ m) (initialized_ m) s in
        let m := addReloadListener ApplyI18n m in
        if db_ok then (Booted warnings_, m, s)
        else (CriticalStartupError DatabaseInit
                (tr s "SQLite initialisation failed. Check logs for details and verify disk space / permissions for the database path."), m, s)
    end.
End Startup.

(* ------------------------------------------------------------------ *)
(** ** A running station *)

Record Station := mkStation {
  st_disk : disk;
  st_mtimes : mtimes;
  st_watcher : ConfigFileWatcher;
  st_manager : ConfigManager Listener;
  st_i18n : I18n;
}.

Inductive config_event :=
| Edit (content : string) (mtime : Z)      (** the file is written from outside *)
| Remove                                   (** or removed *)
| Poll                                     (** [ConfigFileWatcher::pollOnce] *)
| Reload                                   (** [ConfigManager::reload] *)
| QtLanguage (code : string) (f : io_fault) (mtime : Z)   (** [QtInitRoot::changeLanguage] *)
| GtkLanguage (code : string) (f : io_fault) (mtime : Z)  (** [SettingsPage::onLanguageSelected] *)
| Palette (palette : string) (f : io_fault) (mtime : Z).  (** [setPalette] from either front end *)

Section Events.
Context {JT : JsonText}.

(** The times of the files after the program wrote the configuration. *)
Definition touched (d : disk) (t : Z) (path : string) (ts : mtimes) : mtimes :=
  match d !! path with Some _ => <[path := t]> ts | None => delete path ts end.

Definition wrote (d d' : disk) (t : Z) (path : string) (ts : mtimes) : mtimes :=
  if bool_decide (d !! path = d' !! path) then ts else touched d' t path ts.

(** [QtInitRoot::changeLanguage]: a setting that could not be saved is
    applied for the session. *)
Definition qt_changeLanguage (code : string) (f : io_fault) (d : disk) (m : ConfigManager Listener) (s : I18n) :
    disk * ConfigManager Listener * I18n :=
  let '(_, d, m) := setLanguage code f d m in
  (d, m, applyI18n (config_ m) (initialized_ m) s).

(** [SettingsPage::onLanguageSelected] with [MainWindow::rebuildPages]. *)
Definition gtk_onLanguageSelected (code : string) (f : io_fault) (d : disk) (m : ConfigManager Listener) (s : I18n) :
    disk * ConfigManager Listener * I18n :=
  if bool_decide (code = "") || bool_decide (code = getLanguage (config_ m)) then (d, m, s)
  else
    let '(saved, d, m) := setLanguage code f d m in
    if saved : bool then (d, m, initI18n code s) else (d, m, s).

Definition station_step (st : Station) (e : config_event) : Station :=
  let 'mkStation d ts w m s := st in
  let path := configPath_ m in
  match e with
  | Edit content t => mkStation (<[path := content]> d) (<[path := t]> ts) w m s
  | Remove => mkStation (delete path d) (delete path ts) w m s
  | Poll => let '(_, w, m, s) := pollOnce call_listener ts d w m s in mkStation d ts w m s
  | Reload => let '(_, m, s) := reload call_listener d m s in mkStation d ts w m s
  | QtLanguage code f t => let '(d', m, s) := qt_changeLanguage code f d m s in mkStation d' (wrote d d' t path ts) w m s
  | GtkLanguage code f t => let '(d', m, s) := gtk_onLanguageSelected code f d m s in mkStation d' (wrote d d' t path ts) w m s
  | Palette p f t => let '(_, d', m) := setPalette p f d m in mkStation d' (wrote d d' t path ts) w m s
  end.

Definition station_run (st : Station) (l : list config_event) : Station := fold_left station_step l st.

(** The station once the startup is through, with a watcher on the file. *)
Definition station_boot (tr : I18n -> string -> string) (d : disk) (ts : mtimes) (log_error : option string) (s : I18n) : option Station :=
  match bootstrap tr d log_error true manager_init s with
  | (Booted _, m, s) => Some (mkStation d ts (watcher_init kConfigPath ts) m s)
  | _ => None
  end.
End Events.

(* ------------------------------------------------------------------ *)
(** ** The live configuration *)

Section Live.
Context {JT : JsonText}.

(** The keys the two front ends write. *)
Definition written_keys : list string := ["i18n.language"; "ui.palette"].

Lemma valid_ext (c c' : settings) : (forall k, k ∉ written_keys -> c' !! k = c !! k) -> getLanguage c' ∈ kLanguageCodes ->
  config_valid c -> config_valid c'.
Proof.
  intros H HL V. assert (K : forall k, bool_decide (k ∉ written_keys) = true -> c' !! k = c !! k) by (intros k Hk%bool_decide_eq_true; auto).
  destruct V. constructor; autounfold with accessors in *; rewrite ?K by reflexivity; assumption.
Qed.

Lemma insert_written (c : settings) k v : k ∈ written_keys -> forall k', k' ∉ written_keys -> <[k := v]> c !! k' = c !! k'.
Proof. intros Hk k' Hk'. apply lookup_insert_ne. congruence. Qed.

Lemma valid_language c code : code ∈ kLanguageCodes -> config_valid c -> config_valid (<["i18n.language" := code]> c).
Proof.
  intros Hc. apply valid_ext; [apply insert_written; repeat constructor|].
  unfold getLanguage, getValue. rewrite lookup_insert_eq. exact Hc.
Qed.

Lemma valid_palette c p : config_valid c -> config_valid (<["ui.palette" := p]> c).
Proof.
  intros V. apply (valid_ext c); [apply insert_written; repeat constructor| |exact V].
  unfold getLanguage, getValue. rewrite lookup_insert_ne by discriminate. exact (v_language c V).
Qed.

(** What [reload] replaces the configuration by, when it does. *)
Definition accepted (d : disk) (m : ConfigManager Listener) : option settings :=
  root ← read_document d (configPath_ m);
  if decide (config_valid (flatten root ∅)) then Some (flatten root ∅) else None.

Record manager_ok (m : ConfigManager Listener) : Prop := {
  mo_path : configPath_ m = kConfigPath;
  mo_init : initialized_ m = true;
  mo_listeners : reloadListeners_ m = [ApplyI18n];
  mo_valid : config_valid (config_ m);
}.

Lemma reload_accepted d m s : manager_ok m ->
  reload call_listener d m s =
    match accepted d m with
    | Some c => (true, with_config m c, applyI18n c true s)
    | None => (false, m, s)
    end.
Proof.
  intros [P I Ls V]. unfold reload, reloadLocked, accepted. rewrite bool_decide_eq_false_2 by (rewrite P; discriminate).
  destruct (read_document d (configPath_ m)) as [root|]; cbn [mbind option_bind]; [|reflexivity].
  destruct (decide (config_valid (flatten root ∅))) as [Hv|Hv]; rewrite <- validate_spec in Hv.
  - rewrite Hv. unfold fire. cbn [with_config reloadListeners_ config_ initialized_]. rewrite Ls, I. reflexivity.
  - destruct (validate (flatten root ∅)); [congruence|reflexivity].
Qed.

Lemma accepted_valid d m c : accepted d m = Some c -> config_valid c.
Proof.
  unfold accepted. destruct (read_document d (configPath_ m)) as [root|]; cbn; [|discriminate].
  destruct (decide _) as [V|]; [|discriminate]. intros [= <-]. exact V.
Qed.

Lemma with_config_ok m c : manager_ok m -> config_valid c -> manager_ok (with_config m c).
Proof. intros [P I Ls _] V. constructor; assumption. Qed.

(** A language from the list of the program, saved or not. *)
Definition config_event_ok (e : config_event) : Prop :=
  match e with QtLanguage code _ _ | GtkLanguage code _ _ => code ∈ kLanguageCodes | _ => True end.

Definition station_ok (st : Station) : Prop := manager_ok (st_manager st) /\ w_path (st_watcher st) = kConfigPath.

Lemma reload_ok d m s : manager_ok m -> manager_ok (snd (fst (reload call_listener d m s))).
Proof.
  intros M. rewrite reload_accepted by exact M. destruct (accepted d m) as [c|] eqn:A; [|exact M].
  apply with_config_ok; [exact M|exact (accepted_valid d m c A)].
Qed.

Lemma station_step_ok st e : config_event_ok e -> station_ok st -> station_ok (station_step st e).
Proof.
  destruct st as [d ts w m s]. intros He [M W]. cbn [st_manager st_watcher] in *.
  destruct e as [content t| | | |code f t|code f t|p f t]; cbn [station_step].
  - split; assumption.
  - split; assumption.
  - unfold pollOnce. destruct (bool_decide _); [split; assumption|]. pose proof (reload_ok d m s M) as R.
    destruct (reload call_listener d m s) as [[b m'] s']. split; assumption.
  - pose proof (reload_ok d m s M) as R. destruct (reload call_listener d m s) as [[b m'] s']. split; assumption.
  - unfold qt_changeLanguage, setLanguage. destruct (persistLanguage code f d _) as [b d']. cbn. split; [|exact W].
    apply with_config_ok; [exact M|]. apply valid_language; [exact He|exact (mo_valid m M)].
  - unfold gtk_onLanguageSelected, setLanguage. destruct (_ || _); [split; assumption|].
    destruct (persistLanguage code f d _) as [[] d']; cbn; (split; [|exact W]);
    (apply with_config_ok; [exact M|]); (apply valid_language; [exact He|exact (mo_valid m M)]).
  - unfold setPalette. destruct (persistPalette p f d _) as [b d']. cbn. split; [|exact W].
    apply with_config_ok; [exact M|]. apply valid_palette, (mo_valid m M).
Qed.

Lemma config_station_run_ok l : forall st, Forall config_event_ok l -> station_ok st -> station_ok (station_run st l).
Proof. induction l as [|e l IH]; intros st H Hs; [exact Hs|]. apply Forall_cons in H as [He H]. apply IH; [exact H|apply station_step_ok; assumption]. Qed.

Lemma station_boot_ok tr d ts err s st : station_boot tr d ts err s = Some st -> station_ok st.
Proof.
  unfold station_boot, bootstrap, initialize, loadConfig. cbn [configPath_ manager_init config_ initialized_ reloadListeners_].
  destruct (read_document d kConfigPath) as [root|]; cbn [negb].
  - cbn [with_config configPath_ config_ initialized_ reloadListeners_].
    destruct (validate (flatten root ∅)) as [|e es] eqn:V; [|discriminate]. intros [= <-]. split; [|reflexivity].
    constructor; try reflexivity. cbn. apply validate_spec, V.
  - destruct (vformat _ _); discriminate.
Qed.

(** The next poll, once the file's time has changed. *)
Lemma poll_accepts st : station_ok st -> readMtime (st_mtimes st) kConfigPath <> lastSeenMtime_ (st_watcher st) ->
  station_step st Poll =
    let m := st_manager st in
    match accepted (st_disk st) m with
    | Some c => mkStation (st_disk st) (st_mtimes st) (watcher_init kConfigPath (st_mtimes st)) (with_config m c) (applyI18n c true (st_i18n st))
    | None => mkStation (st_disk st) (st_mtimes st) (watcher_init kConfigPath (st_mtimes st)) m (st_i18n st)
    end.
Proof.
  destruct st as [d ts [wp wt] m s]. intros [M W] N. cbn in *. subst wp. unfold pollOnce. cbn [w_path lastSeenMtime_].
  rewrite bool_decide_eq_false_2 by exact N. rewrite reload_accepted by exact M. destruct (accepted d m); reflexivity.
Qed.

Lemma poll_quiet st : station_ok st -> readMtime (st_mtimes st) kConfigPath = lastSeenMtime_ (st_watcher st) -> station_step st Poll = st.
Proof.
  destruct st as [d ts [wp wt] m s]. intros [M W] E. cbn in *. subst wp. unfold pollOnce. cbn [w_path lastSeenMtime_].
  rewrite bool_decide_eq_true_2 by exact E. reflexivity.
Qed.

Lemma applied_language c s code : getLanguage c = code -> code ∈ kLanguageCodes -> code <> "auto" -> ui_language (applyI18n c true s) = Some code.
Proof.
  intros EL Hc Ha. unfold applyI18n, initI18n. cbv iota. rewrite EL.
  assert (E : c_str code = code /\ code <> "") by (apply list_elem_of_In in Hc; repeat destruct Hc as [<-|Hc]; try contradiction; split; reflexivity || discriminate).
  destruct E as [E N]. rewrite E. unfold isAuto. rewrite !bool_decide_eq_false_2 by assumption. cbn [orb].
  unfold forceLanguage. rewrite bool_decide_eq_false_2 by exact N. apply lookup_insert_eq.
Qed.

(** The language of the system: of the first of three variables that is set,
    without encoding and modifier. *)
Definition system_language (s : I18n) : option string :=
  v ← head (omap (fun name => getenv name s) ["LC_ALL"; "LC_MESSAGES"; "LANG"]);
  let v := until "."%char (until "@"%char v) in
  if decide (v ∈ [""; "C"; "POSIX"]) then None else Some v.

Lemma applied_auto c s : getLanguage c = "auto" ->
  ui_language (applyI18n c true s) = match system_language s with Some v => Some v | None => ui_language s end.
Proof.
  intros EL. unfold applyI18n. cbv iota. rewrite EL. unfold initI18n. change (c_str "auto") with "auto". change (isAuto "auto") with true. cbv iota.
  unfold propagateLangToLanguage, system_language. cbn [omap list_omap].
  destruct (getenv "LC_ALL" s) as [v|]; [|destruct (getenv "LC_MESSAGES" s) as [v|]; [|destruct (getenv "LANG" s) as [v|]; [|reflexivity]]];
    cbn [head mbind option_bind]; set (w := until "." (until "@" v));
    (destruct (_ || _) eqn:B; [rewrite decide_True|rewrite decide_False]);
    try (unfold ui_language, setenv_language; cbn; first [reflexivity|apply lookup_insert_eq]);
    repeat rewrite orb_true_iff in B; repeat rewrite orb_false_iff in B;
    repeat rewrite bool_decide_eq_true in B; repeat rewrite bool_decide_eq_false in B; rewrite !elem_of_cons, elem_of_nil; tauto.
Qed.

(** C35: Hot reload. From a successful start, through any edits and removals
    of the file, polls, reloads and settings saved or not: the live
    configuration passes the validator; and after one more edit, with a
    modification time other than the last one the watcher saw, the next poll
    puts the document in force if it parses and passes the validator, and
    changes neither settings nor language if not; further polls do nothing
    until the file changes again. With the document the interface language is
    rebound: to the one it names, and for [auto] to the one of the system,
    if the environment has one (without one the language stays as it was,
    where the comment in i18n.cpp says it does not). *)
Theorem hot_reload_safe tr d ts err s st0 l : station_boot tr d ts err s = Some st0 -> Forall config_event_ok l ->
  let st := station_run st0 l in
  config_valid (config_ (st_manager st)) /\
  forall content t, lastSeenMtime_ (st_watcher st) <> Some t ->
    let st' := station_run st [Edit content t; Poll] in
    station_step st' Poll = st' /\
    match parse_document content with
    | Some root =>
        let c := flatten root ∅ in
        (config_valid c -> config_ (st_manager st') = c /\
           (getLanguage c <> "auto" -> ui_language (st_i18n st') = Some (getLanguage c)) /\
           (getLanguage c = "auto" -> ui_language (st_i18n st') =
              match system_language (st_i18n st) with Some v => Some v | None => ui_language (st_i18n st) end)) /\
        (~ config_valid c -> config_ (st_manager st') = config_ (st_manager st) /\ st_i18n st' = st_i18n st)
    | None => config_ (st_manager st') = config_ (st_manager st) /\ st_i18n st' = st_i18n st
    end.
Proof.
  intros B Hl st. pose proof (config_station_run_ok l st0 Hl (station_boot_ok tr d ts err s st0 B)) as Hst. fold st in Hst. clearbody st.
  split; [exact (mo_valid _ (proj1 Hst))|]. intros content t Ht st'.
  set (ed := station_step st (Edit content t)). pose proof (station_step_ok st (Edit content t) I Hst) as He.
  assert (E : st' = station_step ed Poll) by reflexivity.
  assert (He' : station_ok st') by (rewrite E; apply station_step_ok; [exact I|exact He]).
  assert (F : st_disk ed !! kConfigPath = Some content /\ st_mtimes ed !! kConfigPath = Some t /\ st_watcher ed = st_watcher st /\
    st_manager ed = st_manager st /\ st_i18n ed = st_i18n st).
  { unfold ed. destruct st as [d0 ts0 w0 m0 s0]. destruct Hst as [[P _ _ _] _]. cbn in *. rewrite P, !lookup_insert_eq. auto. }
  destruct F as (F1 & F2 & F3 & F4 & F5).
  rewrite poll_accepts in E by (first [exact He | unfold readMtime; rewrite F2, F3; congruence]).
  split.
  { apply poll_quiet; [exact He'|].
    rewrite E. cbv zeta. destruct (accepted (st_disk ed) (st_manager ed)); reflexivity. }
  assert (A : accepted (st_disk ed) (st_manager ed) =
    root ← parse_document content; if decide (config_valid (flatten root ∅)) then Some (flatten root ∅) else None).
  { unfold accepted, read_document. rewrite F4, (mo_path _ (proj1 Hst)), F1. reflexivity. }
  cbv zeta in E. rewrite A in E. destruct (parse_document content) as [root|]; cbn [mbind option_bind] in E.
  - destruct (decide (config_valid (flatten root ∅))) as [V|V]; rewrite E; cbn; (split; intros Hv; [|]); try contradiction.
    + split; [reflexivity|]. rewrite F5. split; intros Ha; [|apply applied_auto; exact Ha].
      apply applied_language; [reflexivity|exact (v_language _ V)|exact Ha].
    + rewrite F4, F5. auto.
  - rewrite E. cbn. rewrite F4, F5. auto.
Qed.
End Live.

(* ------------------------------------------------------------------ *)
(** ** Saving a setting *)

Section Saving.
Context {JT : JsonText}.

(** The value the file has for a field, found the way it is saved. *)
Definition stored_field (fieldName content : string) : option string :=
  '(from, quoteEnd) ← field_value fieldName content; Some (substring from (quoteEnd - from) content).

Lemma quoted_app (A old C : string) : (A ++ old ++ String kQuote C = A ++ old ++ quote ++ C)%string.
Proof. reflexivity. Qed.

(** The text around a stored value, and that it is found again after the
    value has been replaced. *)
Lemma field_value_split f content from quoteEnd : field_value f content = Some (from, quoteEnd) ->
  exists A old C, content = (A ++ old ++ String kQuote C)%string /\ no_char kQuote old = true /\
    from = String.length A /\ quoteEnd = (String.length A + String.length old)%nat /\
    forall value, no_char kQuote value = true ->
      field_value f (A ++ value ++ String kQuote C) = Some (String.length A, (String.length A + String.length value)%nat).
Proof.
  unfold field_value. intros H.
  destruct (str_find (field_key f) content 0) as [kp|] eqn:K; [|discriminate]. cbn [mbind option_bind] in H.
  destruct (str_find ":" content (kp + String.length (field_key f))) as [co|] eqn:Co; [|discriminate]. cbn [mbind option_bind] in H.
  destruct (str_find quote content (co + 1)) as [qs|] eqn:Q; [|discriminate]. cbn [mbind option_bind] in H.
  destruct (str_find quote content (qs + 1)) as [qe|] eqn:QE; [|discriminate]. injection H as <- <-.
  pose proof (find_bound _ _ _ _ Co) as [B1 _]. pose proof (find_bound _ _ _ _ Q) as [B2 _].
  destruct (find_some _ _ _ _ Q) as (_ & a & b & E & La).
  assert (EA : content = ((a ++ quote) ++ b)%string) by (rewrite <- string_app_assoc; exact E).
  set (A := (a ++ quote)%string) in *. assert (LA : String.length A = (qs + 1)%nat) by (unfold A; rewrite length_string_app, La; reflexivity).
  clearbody A. clear E La a. destruct (find_some _ _ _ _ QE) as (L & a & C & E & La).
  rewrite EA in E. destruct (string_app_split A b a (quote ++ C) E ltac:(lia)) as (old & -> & Eb).
  rewrite length_string_app in La. assert (Nq : no_char kQuote old = true).
  { rewrite EA, <- LA, find_skip in QE. destruct (str_find quote b 0) as [i|] eqn:Ei; [|discriminate]. injection QE as QE.
    rewrite Eb in Ei. apply (find_char_before kQuote _ old i Ei). lia. }
  exists A, old, C. rewrite EA, Eb. repeat split; [assumption|lia|lia|].
  intros value Hv. rewrite EA in K, Co, Q.
  rewrite (find_prefix (field_key f) A b (value ++ String kQuote C) ltac:(discriminate) _ _ K) by (pose proof (find_bound _ _ _ _ K); cbn in *; lia).
  cbn [mbind option_bind].
  rewrite (find_prefix ":" A b (value ++ String kQuote C) ltac:(discriminate) _ _ Co) by (cbn; lia). cbn [mbind option_bind].
  rewrite (find_prefix quote A b (value ++ String kQuote C) ltac:(discriminate) _ _ Q) by (cbn; lia). cbn [mbind option_bind].
  rewrite <- LA, find_skip. unfold quote. rewrite find_char by exact Hv. cbn. reflexivity.
Qed.

Lemma tmp_other m : tmpPath m <> configPath_ m (L := Listener).
Proof.
  unfold tmpPath. intros H. apply (f_equal String.length) in H. rewrite length_string_app in H. cbn in H. lia.
Qed.

Lemma edited_value f value ins content from quoteEnd : field_value f content = Some (from, quoteEnd) ->
  exists A old C, content = (A ++ old ++ String kQuote C)%string /\ no_char kQuote old = true /\
    stored_field f content = Some old /\
    edited_content f value ins content = Some (A ++ value ++ String kQuote C)%string /\
    (no_char kQuote value = true -> stored_field f (A ++ value ++ String kQuote C) = Some value /\
       edited_content f old ins (A ++ value ++ String kQuote C) = Some content).
Proof.
  intros H. destruct (field_value_split f content from quoteEnd H) as (A & old & C & E & N & -> & -> & F).
  exists A, old, C. unfold stored_field, edited_content.
  assert (Sub : forall v, substring (String.length A) (String.length A + String.length v - String.length A) (A ++ v ++ String kQuote C) = v).
  { intros v. replace (String.length A + String.length v - String.length A)%nat with (String.length v) by lia.
    transitivity (substring 0 (String.length v) (v ++ String kQuote C)); [|apply substring_front].
    clear. induction A as [|c A IH]; [reflexivity|]. rewrite string_cons_app. exact IH. }
  assert (Rep : forall v w, str_replace (A ++ v ++ String kQuote C) (String.length A) (String.length A + String.length v - String.length A) w =
    (A ++ w ++ String kQuote C)%string).
  { intros v w. replace (String.length A + String.length v - String.length A)%nat with (String.length v) by lia. apply replace_app. }
  rewrite H. cbn [mbind option_bind]. subst content. rewrite Sub, Rep. repeat split; try assumption.
  - rewrite F by assumption. cbn [mbind option_bind]. rewrite Sub. reflexivity.
  - rewrite F by assumption. rewrite Rep. reflexivity.
Qed.

(** A setting whose field the file holds, saved without a fault, is
    what the file then has for the field; everything before and after the
    value is left as it was, byte for byte, no other file changes and no
    temporary one stays; saving the old value again gives the old file. A
    fault before the rename leaves the configuration file alone. *)
Theorem setting_roundtrip (m : ConfigManager Listener) (d : disk) f value ins content from quoteEnd :
  d !! configPath_ m = Some content -> field_value f content = Some (from, quoteEnd) -> no_char kQuote value = true ->
  (exists d', persistStringField f value ins NoFault d m = (true, d') /\
    (exists A old C, content = (A ++ old ++ String kQuote C)%string /\ d' !! configPath_ m = Some (A ++ value ++ String kQuote C)%string /\
       (content' ← d' !! configPath_ m; stored_field f content') = Some value /\
       exists d'', persistStringField f old ins NoFault d' m = (true, d'') /\ d'' !! configPath_ m = Some content) /\
    d' !! tmpPath m = None /\ (forall p, p <> configPath_ m -> p <> tmpPath m -> d' !! p = d !! p)) /\
  forall fault, match fault with TmpOpenFails | TmpWriteFails _ => True | _ => False end ->
    exists d', persistStringField f value ins fault d m = (false, d') /\ d' !! configPath_ m = Some content.
Proof.
  intros Hd H Hv. destruct (edited_value f value ins content from quoteEnd H) as (A & old & C & E & N & _ & Ed & St).
  destruct (St Hv) as [St1 St2]. pose proof (tmp_other m) as T. unfold persistStringField. rewrite Hd, Ed. split.
  - eexists. split; [reflexivity|]. split; [|split].
    + exists A, old, C. split; [exact E|]. rewrite lookup_insert_eq. split; [reflexivity|]. split; [exact St1|].
      rewrite St2. eexists. split; [reflexivity|]. apply lookup_insert_eq.
    + rewrite lookup_insert_ne by congruence. apply lookup_delete_eq.
    + intros p Hp Ht. rewrite lookup_insert_ne by congruence. rewrite !lookup_delete_ne by congruence. apply lookup_insert_ne. congruence.
  - intros [| |w|] Hf; try contradiction; eexists; (split; [reflexivity|]); [exact Hd|]. rewrite lookup_insert_ne by exact T. exact Hd.
Qed.
End Saving.

(* ------------------------------------------------------------------ *)
(** ** Where saving and switching fail *)

(** A library that reads two documents and no other text. *)
Definition demo_json : JsonText := {|
  parse_document := fun content =>
    if String.eqb content "default" then Some (JObject [])
    else if String.eqb content "german" then Some (JObject [("i18n", JObject [("language", JText "de")])])
    else if String.eqb content "no level" then Some (JObject [("logging", JObject [("level", JText "LOUD")])])
    else None;
  dump_double := fun _ => "0.5";
|}.

Definition demo_env : I18n := mkI18n {["LANG" := "en_US.UTF-8"]} false.
Definition bare_env : I18n := mkI18n ∅ false.

Definition settings_text : string :=
  ("{" ++ quote ++ "dialogs" ++ quote ++ ": {" ++ quote ++ "language" ++ quote ++ ": " ++ quote ++ "Sprache" ++ quote ++ "}, " ++
   quote ++ "i18n" ++ quote ++ ": {" ++ quote ++ "language" ++ quote ++ ": " ++ quote ++ "auto" ++ quote ++ "}}")%string.
Definition null_text : string :=
  ("{" ++ quote ++ "i18n" ++ quote ++ ": {" ++ quote ++ "language" ++ quote ++ ": null}, " ++
   quote ++ "ui" ++ quote ++ ": {" ++ quote ++ "palette" ++ quote ++ ": " ++ quote ++ "right" ++ quote ++ "}}")%string.

Section Gaps.
Context {JT : JsonText}.

(** Saving removes the configuration before the new file takes its
    name: when the rename fails, or the power goes in between, there is no
    configuration any more and the next start refuses. *)
Theorem save_loses_config_refuted (m : ConfigManager Listener) (d : disk) f value ins content content' :
  configPath_ m = kConfigPath -> d !! kConfigPath = Some content -> edited_content f value ins content = Some content' ->
  exists d', persistStringField f value ins RenameFails d m = (false, d') /\ d' !! kConfigPath = None /\
    d' !! tmpPath m = Some content' /\
    forall tr log_error db_ok s, match fst (fst (bootstrap tr d' log_error db_ok manager_init s)) with
                                 | Booted _ => False
                                 | CriticalStartupError code _ => code = ConfigMissing
                                 | _ => True
                                 end.
Proof.
  intros P Hd Ed. pose proof (tmp_other m) as T. unfold persistStringField. rewrite P in *. rewrite Hd, Ed.
  eexists. split; [reflexivity|]. assert (N : delete kConfigPath (<[tmpPath m := content']> d) !! kConfigPath = None) by apply lookup_delete_eq.
  split; [exact N|]. split; [rewrite lookup_delete_ne by congruence; apply lookup_insert_eq|].
  intros tr log_error db_ok s. unfold bootstrap, initialize, loadConfig, read_document. cbn [configPath_]. rewrite N. cbn [mbind option_bind negb fst].
  match goal with |- context [vformat ?a ?b] => destruct (vformat a b) end; exact I || reflexivity.
Qed.

(** A language the GTK settings page could not save is not applied, but
    it is the language in force for the settings: choosing it again does
    nothing, neither saving nor applying it. *)
Theorem unsaved_language_stuck_refuted code d (m : ConfigManager Listener) s : code <> "" -> code <> getLanguage (config_ m) ->
  let '(d1, m1, s1) := gtk_onLanguageSelected code TmpOpenFails d m s in
  d1 = d /\ s1 = s /\ getLanguage (config_ m1) = code /\
  forall f, gtk_onLanguageSelected code f d1 m1 s1 = (d1, m1, s1).
Proof.
  intros Hc Hl. unfold gtk_onLanguageSelected at 1. rewrite !bool_decide_eq_false_2 by assumption. cbn [orb]. unfold setLanguage.
  set (m1 := with_config m _).
  assert (L : getLanguage (config_ m1) = code) by (unfold m1, getLanguage, getValue; cbn; rewrite lookup_insert_eq; reflexivity).
  assert (P : persistLanguage code TmpOpenFails d m1 = (false, d)).
  { unfold persistLanguage, persistStringField. destruct (d !! configPath_ m1) as [c|]; [|reflexivity]. destruct (edited_content _ _ _ c); reflexivity. }
  rewrite P. repeat split; try assumption. intros f. unfold gtk_onLanguageSelected.
  rewrite L, (bool_decide_eq_true_2 (code = code)), orb_true_r by reflexivity. reflexivity.
Qed.
End Gaps.

(** Saving the language replaces the text after the first member called
    language, whose member it may be, and after a member that is not a text
    the next text there is, even a key. And going back to the language of the
    system changes nothing on a system without one. *)
Theorem language_gaps_refuted :
  option_map (fun c => str_find "Sprache" c 0) (edited_content "language" "de" "" settings_text) = Some None /\
  option_map (fun c => str_find "ui" c 0) (Some null_text) <> Some None /\
  option_map (fun c => str_find "ui" c 0) (edited_content "language" "de" "" null_text) = Some None /\
  ui_language (initI18n "auto" (initI18n "de" demo_env)) = Some "en_US" /\
  ui_language (initI18n "auto" (initI18n "de" bare_env)) = Some "de".
Proof. repeat split; vm_compute; reflexivity || discriminate. Qed.

(* ------------------------------------------------------------------ *)
(** ** Witnesses *)

Definition demo_disk : disk := {[kConfigPath := "default"]}.

Definition demo_station : option Station :=
  let JT := demo_json in station_boot (fun _ s => s) demo_disk {[kConfigPath := 1]} (Some "read-only") demo_env.

Definition demo_history : list config_event :=
  [Edit "broken" 2; Poll; Remove; Poll; Edit "no level" 3; Reload; QtLanguage "fi" TmpOpenFails 4; Poll].

Lemma hot_reload_safe_witness :
  exists st0, demo_station = Some st0 /\
    let JT := demo_json in
    let st := station_run st0 demo_history in
    ui_language (st_i18n st) = Some "fi" /\ config_valid (config_ (st_manager st)) /\
    ui_language (st_i18n (station_run st [Edit "german" 5; Poll])) = Some "de".
Proof.
  destruct demo_station as [st0|] eqn:B; [|vm_compute in B; discriminate]. exists st0. split; [reflexivity|].
  assert (Hl : Forall config_event_ok demo_history) by (repeat constructor).
  intros JT st. destruct (hot_reload_safe _ _ _ _ _ st0 demo_history B Hl) as [V P]. fold st in V, P.
  split; [vm_compute in B; injection B as <-; vm_compute; reflexivity|]. split; [exact V|].
  destruct (P "german" 5) as [_ H].
  - vm_compute in B. injection B as <-. vm_compute. discriminate.
  - destruct H as [H _]. destruct H as (_ & H & _); [apply validate_spec; vm_compute; reflexivity|]. apply H. vm_compute. discriminate.
Defined.

Definition shipped_text : string :=
  ("{" ++ LF ++ "  " ++ quote ++ "i18n" ++ quote ++ ": {" ++ LF ++ "    " ++ quote ++ "language" ++ quote ++ ": " ++ quote ++ "auto" ++ quote ++ LF ++ "  }" ++ LF ++ "}")%string.

Lemma setting_roundtrip_witness :
  let m := mkManager (L := Listener) kConfigPath ∅ true [] in
  let d := {[kConfigPath := shipped_text]} in
  exists d', persistLanguage "pt_BR" NoFault d m = (true, d') /\ (content ← d' !! kConfigPath; stored_field "language" content) = Some "pt_BR".
Proof.
  intros m d.
  destruct (setting_roundtrip m d "language" "pt_BR" "" shipped_text 31 35 eq_refl ltac:(vm_compute; reflexivity) eq_refl) as [(d' & P & (A & old & C & _ & _ & St & _) & _) _].
  exists d'. split; [|exact St]. rewrite <- P. vm_compute. reflexivity.
Defined.

Lemma save_loses_config_refuted_witness :
  let m := mkManager (L := Listener) kConfigPath ∅ true [] in let d : disk := {[kConfigPath := shipped_text]} in
  exists d', persistLanguage "de" RenameFails d m = (false, d') /\ d' !! kConfigPath = None.
Proof.
  intros m d. destruct (edited_content "language" "de" "" shipped_text) as [c|] eqn:E; [|vm_compute in E; discriminate].
  destruct (save_loses_config_refuted (JT := demo_json) m d "language" "de" "" shipped_text c eq_refl ltac:(vm_compute; reflexivity) E) as (d' & P & N & _).
  exists d'. split; [|exact N]. rewrite <- P. vm_compute. reflexivity.
Defined.

Lemma unsaved_language_stuck_refuted_witness :
  let m := mkManager (L := Listener) kConfigPath ∅ true [] in
  let '(d1, m1, s1) := gtk_onLanguageSelected "de" TmpOpenFails {[kConfigPath := shipped_text]} m demo_env in
  gtk_onLanguageSelected "de" NoFault d1 m1 s1 = (d1, m1, s1).
Proof.
  intros m. pose proof (unsaved_language_stuck_refuted "de" {[kConfigPath := shipped_text]} m demo_env ltac:(discriminate) ltac:(vm_compute; discriminate)) as H.
  destruct (gtk_onLanguageSelected _ _ _ _ _) as [[d1 m1] s1]. destruct H as (_ & _ & _ & H). exact (H NoFault).
Defined.
