(* ===== verification/IntegrationServices.v ===== *)
(** * The integration backends of a configured station
    (src/integration/IntegrationBackend.h, IntegrationManager.{h,cpp},
    src/app/IntegrationBootstrap.cpp, src/presenter/BackendHealthPresenter.cpp)

    The interface every backend implements, with what it promises, and the
    manager that starts, stops and reports them through it alone; two of the
    modelled backends keep the promises. Then the backends the startup
    registers for a configuration. Properties: the life of the manager over
    any backends; a validated configuration reaches the backends unchanged,
    register map included; what the validator lets through. *)
From Stdlib Require Import Ascii String.
From S2P Require Import Prelude Float32 Format ModbusIngest ModbusPollLoop SerialLink TcpServer Config ConfigValidator.
Local Open Scope string_scope.
Local Open Scope Z_scope.
Local Open Scope list_scope.

(* ------------------------------------------------------------------ *)
(** ** The interface *)

(** [start] gives what it throws, [e.what()], or nothing. *)
Class IntegrationBackend (B : Type) := {
  be_start : B -> option string * B;
  be_stop : B -> B;
  be_isRunning : B -> bool;
  be_name : B -> string;
  be_connectionState : B -> BackendState;
  be_metricsSummary : B -> string;
}.

(** What IntegrationBackend.h promises of them: [isRunning] is true between
    a successful [start] and [stop], the name is stable, and a state other
    than Disconnected is reported by a running backend only. *)
Class IntegrationBackendLaws (B : Type) `{IntegrationBackend B} := {
  start_runs : forall b, fst (be_start b) = None -> be_isRunning (snd (be_start b)) = true;
  stop_idle : forall b, be_isRunning (be_stop b) = false;
  start_named : forall b, be_name (snd (be_start b)) = be_name b;
  stop_named : forall b, be_name (be_stop b) = be_name b;
  idle_disconnected : forall b, be_isRunning b = false -> be_connectionState b = Disconnected;
}.

(* ------------------------------------------------------------------ *)
(** ** The manager and the health bar *)

Section Manager.
Context {B : Type} `{IntegrationBackend B}.

Record IntegrationManager := mkIntegration { backends_ : list B; lastStartErrors_ : list string }.

Definition integration_init : IntegrationManager := mkIntegration [] [].

(** A null pointer is not registered. *)
Definition registerBackend (backend : option B) (m : IntegrationManager) : IntegrationManager :=
  match backend with
  | Some b => mkIntegration (backends_ m ++ [b]) (lastStartErrors_ m)
  | None => m
  end.

Definition backendCount (m : IntegrationManager) : nat := length (backends_ m).

Fixpoint start_each (l : list B) (errors : list string) : list B * list string :=
  match l with
  | [] => ([], errors)
  | b :: l =>
      let (e, b') := be_start b in
      let errors := match e with
                    | None => errors
                    | Some what => errors ++ [(be_name b' ++ ": " ++ what)%string]
                    end in
      let (l', errors) := start_each l errors in
      (b' :: l', errors)
  end.

Definition startAll (m : IntegrationManager) : IntegrationManager :=
  let (l, errors) := start_each (backends_ m) [] in mkIntegration l errors.

Definition stopAll (m : IntegrationManager) : IntegrationManager :=
  mkIntegration (map be_stop (backends_ m)) (lastStartErrors_ m).

Definition allRunning (m : IntegrationManager) : bool :=
  if bool_decide (backends_ m = []) then false else forallb be_isRunning (backends_ m).

(** [BackendHealthViewModel::Entry]. *)
Record HealthEntry := mkHealth { h_name : string; h_state : BackendState; h_metricsLine : string }.

(** [BackendHealthPresenter::poll]: the view model the observers get. *)
Definition health_poll (m : IntegrationManager) : list HealthEntry :=
  map (fun b => mkHealth (be_name b) (be_connectionState b) (be_metricsSummary b)) (backends_ m).
End Manager.
Arguments IntegrationManager : clear implicits.

(* ------------------------------------------------------------------ *)
(** ** Two backends *)

(** The serial backend on a device: [sp_refuses] is what opening it throws. *)
Record SerialPort := mkPort { sp_device : string; sp_baud : Z; sp_refuses : option string; sp_backend : SerialBackend }.

Definition sp_with (p : SerialPort) (s : SerialBackend) : SerialPort := mkPort (sp_device p) (sp_baud p) (sp_refuses p) s.

#[export] Instance serial_is_backend : IntegrationBackend SerialPort := {|
  be_start p :=
    let (e, s) := serial_start (bool_decide (sp_refuses p = None)) (sp_backend p) in
    (match e with Some _ => sp_refuses p | None => None end, sp_with p s);
  be_stop p := sp_with p (serial_stop (sp_backend p));
  be_isRunning p := sb_running (sp_backend p);
  be_name p := "Serial";
  be_connectionState p := if sb_running (sp_backend p) then Connected else Disconnected;
  be_metricsSummary p :=
    let summary := (sp_device p ++ " @ " ++ to_string (sp_baud p))%string in
    if 0 <? sb_falseStarts (sp_backend p)
    then (summary ++ " | " ++ to_string (sb_falseStarts (sp_backend p)) ++ " false starts")%string
    else summary;
|}.

#[export] Instance serial_keeps_laws : IntegrationBackendLaws SerialPort.
Proof.
  constructor; try reflexivity.
  - intros [d b o s]. cbn. unfold serial_start. destruct (sb_running s) eqn:R; [auto|]. destruct o; [discriminate|reflexivity].
  - intros [d b o s]. cbn. unfold serial_stop. destruct (sb_running s) eqn:R; [reflexivity|exact R].
  - intros [d b o s]. cbn. intros ->. reflexivity.
Qed.

(** The TCP server: the port it binds, or what binding throws. *)
Record TcpPort (M : Type) := mkListen { tp_bind : string + Z; tp_backend : TcpBackend M }.
Arguments mkListen {M} tp_bind tp_backend.
Arguments tp_bind {M} t.
Arguments tp_backend {M} t.

#[export] Instance tcp_is_backend {M} : IntegrationBackend (TcpPort M) := {|
  be_start p :=
    (if tb_running (tp_backend p) then None else match tp_bind p with inl what => Some what | inr _ => None end,
     mkListen (tp_bind p) (tcp_start (match tp_bind p with inl _ => None | inr port => Some port end) (tp_backend p)));
  be_stop p := mkListen (tp_bind p) (tcp_stop (tp_backend p));
  be_isRunning p := tb_running (tp_backend p);
  be_name p := "TCP";
  be_connectionState p := tcp_connectionState (tp_backend p);
  be_metricsSummary p := tcp_metricsSummary (tp_backend p);
|}.

#[export] Instance tcp_keeps_laws {M} : IntegrationBackendLaws (TcpPort M).
Proof.
  constructor; try reflexivity.
  - intros [b t]. cbn. unfold tcp_start. destruct (tb_running t) eqn:R; [auto|]. destruct b; [discriminate|reflexivity].
  - intros [b t]. cbn. unfold tcp_stop. destruct (tb_running t) eqn:R; cbn; [destruct (tb_thread t); reflexivity|exact R].
  - intros [b t]. cbn. unfold tcp_connectionState. intros ->. reflexivity.
Qed.

(** Either of two. *)
#[export] Instance sum_is_backend {A B} `{IntegrationBackend A, IntegrationBackend B} : IntegrationBackend (A + B) := {|
  be_start x := match x with inl a => let (e, a) := be_start a in (e, inl a) | inr b => let (e, b) := be_start b in (e, inr b) end;
  be_stop x := match x with inl a => inl (be_stop a) | inr b => inr (be_stop b) end;
  be_isRunning x := match x with inl a => be_isRunning a | inr b => be_isRunning b end;
  be_name x := match x with inl a => be_name a | inr b => be_name b end;
  be_connectionState x := match x with inl a => be_connectionState a | inr b => be_connectionState b end;
  be_metricsSummary x := match x with inl a => be_metricsSummary a | inr b => be_metricsSummary b end;
|}.

#[export] Instance sum_keeps_laws {A B} `{IntegrationBackendLaws A, IntegrationBackendLaws B} : IntegrationBackendLaws (A + B).
Proof.
  constructor; intros [a|b]; cbn.
  - pose proof (start_runs a). destruct (be_start a). assumption.
  - pose proof (start_runs b). destruct (be_start b). assumption.
  - apply stop_idle.
  - apply stop_idle.
  - pose proof (start_named a). destruct (be_start a). assumption.
  - pose proof (start_named b). destruct (be_start b). assumption.
  - apply stop_named.
  - apply stop_named.
  - apply idle_disconnected.
  - apply idle_disconnected.
Qed.

(* ------------------------------------------------------------------ *)
(** ** The life of the manager *)

Section Life.
Context {B : Type} `{BL : IntegrationBackendLaws B}.

(** What starting a backend adds to the errors. *)
Definition start_error (b : B) : list string :=
  match fst (be_start b) with None => [] | Some what => [(be_name b ++ ": " ++ what)%string] end.

Lemma start_each_spec l : forall errors,
  start_each l errors = (map (fun b => snd (be_start b)) l, errors ++ concat (map start_error l)).
Proof.
  induction l as [|b l IH]; intros errors; cbn; [rewrite app_nil_r; reflexivity|].
  unfold start_error at 1. pose proof (start_named b) as N. destruct (be_start b) as [e b'] eqn:E. cbn in *.
  rewrite IH. rewrite N. destruct e; cbn; rewrite <- ?app_assoc; reflexivity.
Qed.

Lemma all_running m : allRunning m = true <-> backends_ m <> [] /\ Forall (fun b => be_isRunning b = true) (backends_ m).
Proof.
  unfold allRunning. destruct (bool_decide_reflect (backends_ m = [])) as [E|E].
  - split; [discriminate|]. intros [N _]. contradiction.
  - rewrite forallb_forall, Forall_forall. setoid_rewrite list_elem_of_In. tauto.
Qed.

Lemma none_running l : forallb be_isRunning (map be_stop l) = match l with [] => true | _ => false end.
Proof. destruct l; cbn; [reflexivity|]. rewrite stop_idle. reflexivity. Qed.

(** Whatever the backends are: [startAll] starts each of them once, one
    that throws not keeping the others from it, and records exactly the
    throwing ones in order, by their names; no errors means all run; after
    [stopAll] none runs, all are reported Disconnected, and the health bar
    keeps showing one entry per backend, in the order they were registered. *)
Theorem manager_lifecycle (m : IntegrationManager B) :
  let started := startAll m in let stopped := stopAll started in
  backends_ started = map (fun b => snd (be_start b)) (backends_ m) /\
  lastStartErrors_ started = concat (map start_error (backends_ m)) /\
  (lastStartErrors_ started = [] -> Forall (fun b => be_isRunning b = true) (backends_ started) /\
     allRunning started = negb (bool_decide (backends_ m = []))) /\
  Forall (fun b => be_isRunning b = false) (backends_ stopped) /\ allRunning stopped = false /\
  map h_state (health_poll stopped) = map (fun _ => Disconnected) (backends_ m) /\
  map h_name (health_poll stopped) = map be_name (backends_ m) /\ map h_name (health_poll started) = map be_name (backends_ m).
Proof.
  intros started stopped.
  assert (E : started = mkIntegration (map (fun b => snd (be_start b)) (backends_ m)) (concat (map start_error (backends_ m))))
    by (unfold started, startAll; rewrite start_each_spec; reflexivity).
  unfold stopped, stopAll, health_poll. rewrite E. cbn [backends_ lastStartErrors_]. rewrite !map_map. clear E started stopped.
  assert (R : concat (map start_error (backends_ m)) = [] -> Forall (fun b => be_isRunning b = true) (map (fun b => snd (be_start b)) (backends_ m))).
  { intros C. apply Forall_map, Forall_forall. intros b Hb. apply start_runs. apply list_elem_of_In in Hb.
    destruct (fst (be_start b)) as [what|] eqn:W; [|reflexivity]. exfalso.
    assert (In (be_name b ++ ": " ++ what)%string (concat (map start_error (backends_ m)))) as X; [|rewrite C in X; exact X].
    apply in_concat. exists (start_error b). split; [apply in_map, Hb|]. unfold start_error. rewrite W. left. reflexivity. }
  repeat split.
  - exact (R H0).
  - unfold allRunning. cbn [backends_]. destruct (backends_ m) as [|b l]; [reflexivity|].
    rewrite bool_decide_eq_false_2 by discriminate. apply forallb_forall. intros x Hx. specialize (R H0).
    rewrite Forall_forall in R. apply R, list_elem_of_In, Hx.
  - apply Forall_map, Forall_forall. intros b _. apply stop_idle.
  - unfold allRunning. cbn [backends_]. destruct (backends_ m) as [|b l]; [reflexivity|].
    rewrite bool_decide_eq_false_2 by discriminate. cbn. rewrite stop_idle. reflexivity.
  - apply map_ext. intros b. cbn. apply idle_disconnected, stop_idle.
  - apply map_ext. intros b. cbn. rewrite stop_named. apply start_named.
  - apply map_ext. intros b. cbn. apply start_named.
Qed.
End Life.

(* ------------------------------------------------------------------ *)
(** ** The backends of a configuration *)

(** The optional backends the program was built with. *)
Record Features := mkFeatures { with_opcua : bool; with_modbus : bool; with_http : bool; with_serial : bool }.

Record HttpTlsOptions := mkTls { tls_certPath : string; tls_keyPath : string; tls_verifyPeer : bool; tls_clientCaPath : string }.
Record OpcUaSecurityOptions := mkSecurity {
  sec_enabled : bool; sec_configKeyPrefix : string; sec_certPath : string; sec_privateKeyPath : string; sec_trustListDir : string }.

(** A registered backend with the arguments it is constructed with. *)
Inductive ConfiguredBackend :=
| MakeTcp (port : Z)
| MakeHttp (port : Z) (bindAddress : string) (tls : option HttpTlsOptions)
| MakeSerial (device : string) (baudRate : Z)
| MakeMqtt (brokerHost : string) (brokerPort : Z) (clientId topicPrefix : string) (emitPlainText emitJson : bool)
    (sensorPrefix : option string)
| MakeOpcUaServer (port : Z) (applicationUri applicationName : string) (security : OpcUaSecurityOptions) (commands : bool)
| MakeOpcUaClient (endpointUrl applicationUri applicationName : string) (security : OpcUaSecurityOptions) (ingestPrefix : option string)
| MakeModbus (host : string) (port connectTimeout requestTimeout : Z) (map : ModbusRegisterMap) (pollInterval : Z)
| MakeMultiStation.

Section Services.
Variable config : settings.

Definition registerMqttBackend : ConfiguredBackend :=
  MakeMqtt (getMqttBrokerHost config) (u16 (getMqttBrokerPort config)) (getMqttClientId config)
    (getMqttTopicPrefix config) (isMqttEmitPlainText config) (isMqttEmitJson config)
    (if isMqttSubscriberEnabled config then Some (getMqttSensorTopicPrefix config) else None).

Definition registerOpcUaBackend : ConfiguredBackend :=
  MakeOpcUaServer (u16 (getOpcUaServerPort config)) (getOpcUaApplicationUri config) (getOpcUaApplicationName config)
    (mkSecurity (isOpcUaServerSecurityEnabled config) "network.opcua.server.security" (getOpcUaServerSecurityCertPath config)
       (getOpcUaServerSecurityPrivateKeyPath config) (getOpcUaServerSecurityTrustListDir config))
    (isOpcUaServerCommandsEnabled config).

Definition registerOpcUaClient : ConfiguredBackend :=
  MakeOpcUaClient (getOpcUaClientEndpoint config) (getOpcUaClientApplicationUri config) (getOpcUaClientApplicationName config)
    (mkSecurity (isOpcUaClientSecurityEnabled config) "network.opcua.client.security" (getOpcUaClientSecurityCertPath config)
       (getOpcUaClientSecurityPrivateKeyPath config) (getOpcUaClientSecurityTrustListDir config))
    (if isOpcUaIngestBridgeEnabled config then Some (getOpcUaIngestBridgeTopicPrefix config) else None).

(** One loop of [registerModbusBackend]: [count] registers from [base]. *)
Definition add_registers (base count : Z) (f : FieldKind) (sc : float32) (map : ModbusRegisterMap) : ModbusRegisterMap :=
  fold_left (fun map i =>
    map_add map (mkMapping (u8 (getModbusSlaveId config)) HoldingRegister (u16 (base + i)) f (u32 i) sc)) (seqZ 0 count) map.

Definition modbus_map : ModbusRegisterMap :=
  let equipmentCount := getModbusEquipmentCount config in
  let map := add_registers (u16 (getModbusEquipmentBaseAddress config)) equipmentCount EquipmentEnabled (f32_of_Z 1) [] in
  let map := add_registers (u16 (getModbusSupplyBaseAddress config)) equipmentCount EquipmentSupplyLevel (getModbusSupplyScale config) map in
  add_registers (u16 (getModbusQualityBaseAddress config)) (getModbusQualityCount config) QualityPassRate (getModbusQualityScale config) map.

Definition registerModbusBackend : ConfiguredBackend :=
  MakeModbus (getModbusHost config) (u16 (getModbusPort config)) (getModbusConnectTimeoutMs config) (getModbusRequestTimeoutMs config)
    modbus_map (getModbusPollIntervalMs config).

Definition httpTlsOptions : option HttpTlsOptions :=
  if negb (isHttpTlsEnabled config) then None
  else Some (mkTls (getHttpTlsCertPath config) (getHttpTlsKeyPath config) (isHttpTlsVerifyPeer config) (getHttpTlsClientCaPath config)).

Definition registerHttpBackend : ConfiguredBackend :=
  MakeHttp (u16 (getHttpBackendPort config)) (getHttpBackendBindAddress config) httpTlsOptions.

Definition registerSerialBackend : ConfiguredBackend := MakeSerial (getSerialDevice config) (u32 (getSerialBaud config)).

Definition registers_if (b : bool) (c : ConfiguredBackend) : list ConfiguredBackend := if b then [c] else [].

(** [httpAlerts]: an alert centre was given. *)
Definition buildIntegrationServices (built : Features) (httpAlerts : bool) : list ConfiguredBackend :=
  registers_if (isTcpBackendEnabled config) (MakeTcp (u16 (getTcpBackendPort config))) ++
  registers_if (with_http built && isHttpBackendEnabled config && httpAlerts) registerHttpBackend ++
  registers_if (with_serial built && isSerialBackendEnabled config) registerSerialBackend ++
  registers_if (isMqttBackendEnabled config) registerMqttBackend ++
  registers_if (with_opcua built && isOpcUaBackendEnabled config) registerOpcUaBackend ++
  registers_if (with_opcua built && isOpcUaClientEnabled config) registerOpcUaClient ++
  registers_if (with_modbus built && isModbusBackendEnabled config) registerModbusBackend ++
  registers_if (isMultiStationEnabled config) MakeMultiStation.
End Services.

(* ------------------------------------------------------------------ *)
(** ** What reaches them *)

(** The register map an integrator reads off the configuration file. *)
Definition configured_register (config : settings) (m : RegisterMapping) : Prop :=
  slaveId m = getModbusSlaveId config /\ type m = HoldingRegister /\
  match field m with
  | EquipmentEnabled => address m = getModbusEquipmentBaseAddress config + entityId m /\ scale m = f32_of_Z 1 /\
      0 <= entityId m < getModbusEquipmentCount config
  | EquipmentSupplyLevel => address m = getModbusSupplyBaseAddress config + entityId m /\ scale m = getModbusSupplyScale config /\
      0 <= entityId m < getModbusEquipmentCount config
  | QualityPassRate => address m = getModbusQualityBaseAddress config + entityId m /\ scale m = getModbusQualityScale config /\
      0 <= entityId m < getModbusQualityCount config
  end.

(** Ranges of registers that exist. *)
Definition registers_exist (config : settings) : Prop :=
  is_u8 (getModbusSlaveId config) /\
  0 <= getModbusEquipmentBaseAddress config /\ getModbusEquipmentBaseAddress config + getModbusEquipmentCount config <= 65536 /\
  0 <= getModbusSupplyBaseAddress config /\ getModbusSupplyBaseAddress config + getModbusEquipmentCount config <= 65536 /\
  0 <= getModbusQualityBaseAddress config <= 65535 /\ getModbusQualityBaseAddress config + getModbusQualityCount config <= 65536.

(** A flag of the configuration. *)
Definition flag (config : settings) (key def : string) : bool := bool_decide (getValue config key def = "true").

(** The security options of one side, key by key, and the files it needs. *)
Definition security_as_configured (config : settings) (prefix cert key trust : string) (sec : OpcUaSecurityOptions) : Prop :=
  sec_configKeyPrefix sec = prefix /\ sec_enabled sec = flag config (prefix ++ ".enabled")%string "false" /\
  sec_certPath sec = getValue config (prefix ++ ".cert_path")%string cert /\
  sec_privateKeyPath sec = getValue config (prefix ++ ".private_key_path")%string key /\
  sec_trustListDir sec = getValue config (prefix ++ ".trust_list_dir")%string trust.

Definition security_files (sec : OpcUaSecurityOptions) : Prop :=
  sec_enabled sec = true -> given (sec_certPath sec) /\ given (sec_privateKeyPath sec) /\ given (sec_trustListDir sec).

(** What a backend was constructed with, argument by argument, is what the
    configuration has under its key. *)
Definition as_configured (config : settings) (b : ConfiguredBackend) : Prop :=
  let text := getValue config in let number := getInt config in
  match b with
  | MakeTcp port => flag config "network.tcp.enabled" "false" = true /\ port = number "network.tcp.port" kTcpBackendPort /\ port_ok port
  | MakeHttp port addr tls => flag config "network.http.enabled" "false" = true /\
      port = number "network.http.port" kHttpBackendPort /\ port_ok port /\ addr = text "network.http.bind_address" kHttpBackendBindAddress /\
      match tls with
      | None => flag config "network.http.tls.enabled" "false" = false
      | Some o => flag config "network.http.tls.enabled" "false" = true /\
          tls_certPath o = text "network.http.tls.cert_path" kHttpTlsCertPath /\ given (tls_certPath o) /\
          tls_keyPath o = text "network.http.tls.key_path" kHttpTlsKeyPath /\ given (tls_keyPath o) /\
          tls_verifyPeer o = flag config "network.http.tls.verify_peer" "false" /\
          tls_clientCaPath o = text "network.http.tls.client_ca_path" kHttpTlsClientCaPath /\
          (tls_verifyPeer o = true -> given (tls_clientCaPath o))
      end
  | MakeMqtt host port clientId topicPrefix plain json sensorPrefix => flag config "network.mqtt.enabled" "false" = true /\
      host = text "network.mqtt.broker_host" kMqttBrokerHost /\ port = number "network.mqtt.broker_port" kMqttBrokerPort /\ port_ok port /\
      clientId = text "network.mqtt.client_id" kMqttClientId /\ topicPrefix = text "network.mqtt.topic_prefix" kMqttTopicPrefix /\
      plain = flag config "network.mqtt.emit_plain_text" "true" /\ json = flag config "network.mqtt.emit_json" "false" /\
      sensorPrefix = (if flag config "network.mqtt.subscriber.enabled" "false"
                      then Some (text "network.mqtt.subscriber.topic_prefix" kMqttSensorTopicPrefix) else None)
  | MakeOpcUaServer port uri name sec commands => flag config "network.opcua.enabled" "false" = true /\
      port = number "network.opcua.port" kOpcUaServerPort /\ port_ok port /\
      uri = text "network.opcua.application_uri" kOpcUaApplicationUri /\ name = text "network.opcua.application_name" kOpcUaApplicationName /\
      security_as_configured config "network.opcua.server.security" kOpcUaServerSecurityCertPath kOpcUaServerSecurityPrivateKeyPath
        kOpcUaServerSecurityTrustListDir sec /\ security_files sec /\ commands = flag config "network.opcua.server.commands_enabled" "true"
  | MakeOpcUaClient url uri name sec ingest => flag config "network.opcua.client.enabled" "false" = true /\
      url = text "network.opcua.client.endpoint" kOpcUaClientEndpoint /\ uri = text "network.opcua.client.application_uri" kOpcUaClientApplicationUri /\
      name = text "network.opcua.client.application_name" kOpcUaClientApplicationName /\
      security_as_configured config "network.opcua.client.security" kOpcUaClientSecurityCertPath kOpcUaClientSecurityPrivateKeyPath
        kOpcUaClientSecurityTrustListDir sec /\ (flag config "network.opcua.enabled" "false" = true -> security_files sec) /\
      ingest = (if flag config "network.opcua.client.ingest_bridge.enabled" "false"
                then Some (text "network.opcua.client.ingest_bridge.topic_prefix" kOpcUaClientIngestPrefix) else None)
  | MakeModbus host port connectTimeout requestTimeout map interval => flag config "network.modbus.enabled" "false" = true /\
      host = text "network.modbus.host" kModbusHost /\ port = number "network.modbus.port" kModbusPort /\ port_ok port /\
      connectTimeout = number "network.modbus.connect_timeout_ms" kModbusConnectTimeoutMs /\
      requestTimeout = number "network.modbus.request_timeout_ms" kModbusRequestTimeoutMs /\
      interval = number "network.modbus.poll_interval_ms" kModbusPollIntervalMs /\ 0 < interval /\ map <> [] /\
      (registers_exist config -> forall m, m ∈ map <-> configured_register config m)
  | MakeSerial device baud => flag config "network.serial.enabled" "false" = true /\
      device = text "network.serial.device" kSerialDevice /\
      (0 <= number "network.serial.baud" kSerialBaudRate -> baud = number "network.serial.baud" kSerialBaudRate)
  | MakeMultiStation => flag config "ui.multistation_enabled" "false" = true
  end.

Lemma add_registers_app config base count f sc map :
  add_registers config base count f sc map =
  map ++ List.map (fun i => mkMapping (u8 (getModbusSlaveId config)) HoldingRegister (u16 (base + i)) f (u32 i) sc) (seqZ 0 count).
Proof.
  unfold add_registers. generalize (seqZ 0 count) as l. intros l. revert map. induction l as [|i l IH]; intros map; cbn; [rewrite app_nil_r; reflexivity|].
  rewrite IH. unfold map_add. rewrite <- app_assoc. reflexivity.
Qed.

(** A range of registers that exists. *)
Lemma range_in config base count f sc m :
  is_u8 (getModbusSlaveId config) -> 0 <= base <= 65535 -> base + count <= 65536 ->
  m ∈ List.map (fun i => mkMapping (u8 (getModbusSlaveId config)) HoldingRegister (u16 (u16 base + i)) f (u32 i) sc) (seqZ 0 count) <->
  slaveId m = getModbusSlaveId config /\ type m = HoldingRegister /\ field m = f /\ address m = base + entityId m /\ scale m = sc /\ 0 <= entityId m < count.
Proof.
  intros Hs Hb Hc. rewrite list_elem_of_In, in_map_iff.
  assert (Hu : forall i, 0 <= i < count -> u16 (u16 base + i) = base + i /\ u32 i = i).
  { intros i Hi. split; [rewrite (u16_id base), u16_id by (unfold is_u16; lia); reflexivity|apply u32_id; unfold is_u32; lia]. }
  rewrite u8_id by exact Hs. split.
  - intros (i & <- & Hi). apply list_elem_of_In, elem_of_seqZ in Hi. destruct (Hu i ltac:(lia)) as [-> ->]. cbn. repeat split; lia.
  - destruct m as [sl ty a fi e s]. cbn. intros (-> & -> & -> & -> & -> & He). exists e. destruct (Hu e He) as [-> ->].
    split; [reflexivity|]. apply list_elem_of_In, elem_of_seqZ. lia.
Qed.

Lemma modbus_map_exact config m : 0 < getModbusEquipmentCount config -> registers_exist config ->
  m ∈ modbus_map config <-> configured_register config m.
Proof.
  intros Hn (Hs & E1 & E2 & S1 & S2 & Q1 & Q2). unfold modbus_map. rewrite !add_registers_app. cbn [app].
  rewrite !elem_of_app, !range_in by (assumption || lia). unfold configured_register. destruct m as [sl ty a fi e s]. cbn.
  destruct fi; split; intuition congruence.
Qed.

Lemma modbus_map_nonempty config : 0 < getModbusEquipmentCount config -> modbus_map config <> [].
Proof.
  intros Hn H. unfold modbus_map in H. rewrite !add_registers_app in H. cbn [app] in H. apply app_nil in H as [H _]. apply app_nil in H as [H _].
  rewrite seqZ_cons in H by lia. discriminate H.
Qed.

Lemma in_registers_if b c x : x ∈ registers_if b c <-> b = true /\ x = c.
Proof. unfold registers_if. destruct b; [rewrite list_elem_of_singleton|rewrite elem_of_nil]; intuition congruence. Qed.

(** A number the configuration holds is an [int]. *)
Lemma getInt_range config key def : int_min <= def <= int_max -> int_min <= getInt config key def <= int_max.
Proof.
  intros Hd. unfold getInt. destruct (config !! key) as [v|]; [|exact Hd]. destruct (stoi (chars_of v)) as [z| |] eqn:E; try exact Hd.
  unfold stoi in E. repeat case_match; try discriminate; injection E as <-; lia.
Qed.

(** The place of a backend among those started. *)
Definition start_order (b : ConfiguredBackend) : Z :=
  match b with
  | MakeTcp _ => 0 | MakeHttp _ _ _ => 1 | MakeSerial _ _ => 2 | MakeMqtt _ _ _ _ _ _ _ => 3
  | MakeOpcUaServer _ _ _ _ _ => 4 | MakeOpcUaClient _ _ _ _ _ => 5 | MakeModbus _ _ _ _ _ _ => 6 | MakeMultiStation => 7
  end.

Lemma registers_if_order b c r : start_order c = r -> map start_order (registers_if b c) `sublist_of` [r].
Proof. intros <-. destruct b; cbn; [reflexivity|apply sublist_nil_l]. Qed.

(** C38: A validated configuration reaches the backends: exactly the enabled
    ones of those built are registered, each once and in a fixed order, and
    every argument of each is what the configuration has under its key, ports
    arriving in their 16 bits as the number written and in 1..65535, a baud
    rate that is not negative unchanged, TLS and the OPC-UA server's security
    with the files they need, the OPC-UA client's too where the server is
    enabled, the Modbus poll interval positive and its map not empty; and,
    provided the configured slave id fits a byte and the configured addresses
    16 bits, the map holds exactly the registers the configuration lists. *)
Theorem validated_services (config : settings) (built : Features) (httpAlerts : bool) : config_valid config ->
  let l := buildIntegrationServices config built httpAlerts in
  Forall (as_configured config) l /\
  (forall b, b ∈ l <->
     match b with
     | MakeTcp _ => isTcpBackendEnabled config = true /\ b = MakeTcp (getTcpBackendPort config)
     | MakeHttp _ _ _ => with_http built = true /\ isHttpBackendEnabled config = true /\ httpAlerts = true /\ b = registerHttpBackend config
     | MakeSerial _ _ => with_serial built = true /\ isSerialBackendEnabled config = true /\ b = registerSerialBackend config
     | MakeMqtt _ _ _ _ _ _ _ => isMqttBackendEnabled config = true /\ b = registerMqttBackend config
     | MakeOpcUaServer _ _ _ _ _ => with_opcua built = true /\ isOpcUaBackendEnabled config = true /\ b = registerOpcUaBackend config
     | MakeOpcUaClient _ _ _ _ _ => with_opcua built = true /\ isOpcUaClientEnabled config = true /\ b = registerOpcUaClient config
     | MakeModbus _ _ _ _ _ _ => with_modbus built = true /\ isModbusBackendEnabled config = true /\ b = registerModbusBackend config
     | MakeMultiStation => isMultiStationEnabled config = true
     end) /\
  map start_order l `sublist_of` [0; 1; 2; 3; 4; 5; 6; 7].
Proof.
  intros V l.
  assert (P16 : forall p, port_ok p -> u16 p = p) by (unfold port_ok; intros p Hp; apply u16_id; unfold is_u16; lia).
  assert (M : forall b, b ∈ l <->
    (isTcpBackendEnabled config = true /\ b = MakeTcp (u16 (getTcpBackendPort config))) \/
    ((with_http built && isHttpBackendEnabled config && httpAlerts) = true /\ b = registerHttpBackend config) \/
    ((with_serial built && isSerialBackendEnabled config) = true /\ b = registerSerialBackend config) \/
    (isMqttBackendEnabled config = true /\ b = registerMqttBackend config) \/
    ((with_opcua built && isOpcUaBackendEnabled config) = true /\ b = registerOpcUaBackend config) \/
    ((with_opcua built && isOpcUaClientEnabled config) = true /\ b = registerOpcUaClient config) \/
    ((with_modbus built && isModbusBackendEnabled config) = true /\ b = registerModbusBackend config) \/
    (isMultiStationEnabled config = true /\ b = MakeMultiStation)).
  { intros b. unfold l, buildIntegrationServices. rewrite !elem_of_app, !in_registers_if. tauto. }
  split; [|split].
  - apply Forall_forall. intros b Hb. apply M in Hb. rewrite !andb_true_iff in Hb.
    destruct Hb as [[E ->]|[[[[_ E] _] ->]|[[[_ E] ->]|[[E ->]|[[[_ E] ->]|[[[_ E] ->]|[[[_ E] ->]|[E ->]]]]]]]].
    + pose proof (v_tcp _ V E) as Hp. rewrite P16 by exact Hp. split; [exact E|]. split; [reflexivity|exact Hp].
    + pose proof (v_http _ V E) as Hp. unfold registerHttpBackend. rewrite P16 by exact Hp.
      split; [exact E|]. split; [reflexivity|]. split; [exact Hp|]. split; [reflexivity|]. unfold httpTlsOptions.
      destruct (isHttpTlsEnabled config) eqn:T; [|exact T]. destruct (v_tls _ V E T) as (T1 & T2 & T3). repeat split; assumption.
    + split; [exact E|]. split; [reflexivity|]. intros Hb. apply u32_id. pose proof (getInt_range config "network.serial.baud" kSerialBaudRate ltac:(unfold int_min, int_max, kSerialBaudRate; lia)) as G.
      unfold getSerialBaud. unfold is_u32, int_min, int_max in *. lia.
    + pose proof (v_mqtt _ V E) as Hp. unfold registerMqttBackend. rewrite P16 by exact Hp. split; [exact E|]. repeat split; apply Hp.
    + pose proof (v_opcua _ V E) as Hp. unfold registerOpcUaBackend. rewrite P16 by exact Hp. split; [exact E|].
      do 2 (split; [reflexivity || exact Hp|]). do 2 (split; [reflexivity|]). split; [repeat split|]. split; [|reflexivity].
      intros Hs. apply (v_server_security _ V E Hs).
    + split; [exact E|]. do 3 (split; [reflexivity|]). split; [repeat split|]. split; [|reflexivity].
      intros Ho Hs. apply (v_client_security _ V Ho E Hs).
    + pose proof (v_modbus _ V E) as Hp. destruct (v_modbus_map _ V E) as (Hc & Hi & _). unfold registerModbusBackend. rewrite P16 by exact Hp.
      split; [exact E|]. do 2 (split; [reflexivity|]). split; [exact Hp|]. do 3 (split; [reflexivity|]). split; [exact Hi|].
      split; [apply modbus_map_nonempty, Hc|]. intros R m. apply modbus_map_exact; assumption.
    + exact E.
  - assert (Pt : isTcpBackendEnabled config = true -> u16 (getTcpBackendPort config) = getTcpBackendPort config) by (intros E; apply P16, (v_tcp _ V E)).
    intros b. rewrite M, !andb_true_iff. destruct b; split; intros H;
      try (repeat (destruct H as [H|H]); destruct H as [H1 H2]; try discriminate H2; rewrite ?Pt in H2 by exact H1; tauto);
      try tauto; left; rewrite Pt by tauto; exact H.
  - unfold l, buildIntegrationServices. rewrite !map_app.
    change [0; 1; 2; 3; 4; 5; 6; 7] with ([0] ++ [1] ++ [2] ++ [3] ++ [4] ++ [5] ++ [6] ++ [7]).
    repeat (apply sublist_app; [apply registers_if_order; reflexivity|]). apply registers_if_order. reflexivity.
Qed.

(* ------------------------------------------------------------------ *)
(** ** What the validator lets through *)

Definition config_of (l : list (string * string)) : settings := list_to_map l.
Definition all_built : Features := mkFeatures true true true true.

(** Configurations without errors whose backends are not what they say:
    a secured OPC-UA client without any of its files, when the server is off;
    Modbus addresses and slave ids beyond their width, wrapped onto other
    registers; more registers than there are, so that two equipment lines
    share one; a scale that is not a number; and a negative log size, read as
    one of some 18 exabytes. *)
Theorem validator_gaps_refuted :
  (let c := config_of [("network.opcua.client.enabled", "true"); ("network.opcua.client.security.enabled", "true")] in
   validate c = [] /\
  buildIntegrationServices c all_built true =
     [MakeOpcUaClient "opc.tcp://127.0.0.1:4840" "urn:industrial-hmi:client" "Industrial HMI OPC-UA Client"
        (mkSecurity true "network.opcua.client.security" "" "" "") None]) /\
  (let c := config_of [("network.modbus.enabled", "true"); ("network.modbus.slave_id", "257"); ("network.modbus.equipment_count", "1");
                       ("network.modbus.equipment_base_address", "-1"); ("network.modbus.supply_base_address", "65551");
                       ("network.modbus.quality_base_address", "131087"); ("network.modbus.quality_count", "1")] in
   validate c = [] /\ map (fun m => (slaveId m, address m)) (modbus_map c) = [(1, 65535); (1, 15); (1, 15)]) /\
  (let c := config_of [("network.modbus.enabled", "true"); ("network.modbus.equipment_count", "65537"); ("network.modbus.quality_scale", "nan")] in
   validate c = [] /\ getModbusQualityScale c = f32_nan /\
  (forall i, 0 <= i < 65537 -> mkMapping 1 HoldingRegister (u16 i) EquipmentEnabled i (f32_of_Z 1) ∈ modbus_map c)) /\
  (let c := config_of [("logging.max_file_size_mb", "-1")] in validate c = [] /\ getLogMaxFileSize c = 2 ^ 64 - 2 ^ 20).
Proof.
  split; [vm_compute; auto|]. split; [vm_compute; auto|]. split; [|vm_compute; auto].
  intros c. split; [vm_compute; reflexivity|]. split; [vm_compute; reflexivity|]. intros i Hi.
  assert (E : getModbusEquipmentCount c = 65537 /\ getModbusEquipmentBaseAddress c = 0 /\ getModbusSlaveId c = 1) by (vm_compute; auto).
  destruct E as (E1 & E2 & E3). unfold modbus_map. rewrite E1, E2, !add_registers_app, E3. cbn [app].
  rewrite !elem_of_app. left. left. apply list_elem_of_In, in_map_iff. exists i. split.
  - rewrite (u32_id i) by (unfold is_u32; lia). reflexivity.
  - apply list_elem_of_In, elem_of_seqZ. lia.
Qed.

(* ------------------------------------------------------------------ *)
(** ** Witnesses *)

Definition demo_config : settings := config_of [
  ("network.tcp.enabled", "true"); ("network.tcp.port", "6000"); ("network.modbus.enabled", "true"); ("network.modbus.quality_count", "2")].

Lemma validated_services_witness :
  MakeTcp 6000 ∈ buildIntegrationServices demo_config all_built false /\
  (forall m, m ∈ modbus_map demo_config <-> configured_register demo_config m) /\
  map address (modbus_map demo_config) = [0; 1; 2; 16; 17; 18; 32; 33].
Proof.
  assert (V : config_valid demo_config) by (apply validate_spec; vm_compute; reflexivity).
  destruct (validated_services demo_config all_built false V) as (F & M & _).
  split; [apply M; vm_compute; auto|]. split; [|vm_compute; reflexivity].
  rewrite Forall_forall in F. specialize (F (registerModbusBackend demo_config)). apply F.
  - apply M. vm_compute. auto.
  - repeat split; vm_compute; discriminate || reflexivity.
Defined.
