(* ===== verification/AuditLog.v ===== *)
(** * The audit log
    (src/auth/AuditLogger.h, SqliteAuditLogger.{h,cpp})

    Rows of who did what, kept by SQLite: the table, its three operations and
    the composition of the SELECT from the filters that are set. Property:
    whatever statements fail, the log is the trail of the events whose
    recording was acknowledged, in their order, and a query shows those that
    match, newest first. *)
From Stdlib Require Import Ascii String.
From S2P Require Import Prelude Format Sql Config Auth.
Local Open Scope string_scope.
Local Open Scope Z_scope.
Local Open Scope list_scope.

(* ------------------------------------------------------------------ *)
(** ** Rows and queries *)

Record AuditRow := mkAuditRow { ar_id : Z; ar_ts : string; ar_event : AuditEvent }.

Record AuditQuery := mkAuditQuery {
  fromTs : string; toTs : string; q_category : string; q_action : string; q_result : string; q_username : string; q_limit : Z }.
Definition kDefaultLimit : Z := 500.
Definition query_default : AuditQuery := mkAuditQuery "" "" "" "" "" "" kDefaultLimit.

(** Texts compare bytewise. *)
Definition text_leb : string -> string -> bool := String.leb.

Definition unless_empty (s : string) (test : bool) : bool := bool_decide (s = "") || test.

(** The WHERE clause [buildSelectSql] puts together: a condition per filter
    that is set. *)
Definition row_matches (q : AuditQuery) (r : AuditRow) : bool :=
  unless_empty (fromTs q) (text_leb (fromTs q) (ar_ts r)) &&
  unless_empty (toTs q) (text_leb (ar_ts r) (toTs q)) &&
  unless_empty (q_category q) (String.eqb (ev_category (ar_event r)) (q_category q)) &&
  unless_empty (q_action q) (String.eqb (ev_action (ar_event r)) (q_action q)) &&
  unless_empty (q_result q) (String.eqb (ev_result (ar_event r)) (q_result q)) &&
  unless_empty (q_username q) (String.eqb (ev_username (ar_event r)) (q_username q)).

(** SQLite: ORDER BY ts DESC, rows of the same time in any order. *)
Class AuditOrder := {
  newest : list AuditRow -> list AuditRow;
  newest_perm l : newest l ≡ₚ l;
  newest_sorted l : StronglySorted (fun a b => text_leb (ar_ts b) (ar_ts a) = true) (newest l);
}.

(** LIMIT with the bound 64-bit number: none when it is negative. *)
Definition sql_limit {A} (n : Z) (l : list A) : list A := if n <? 0 then l else take (Z.to_nat n) l.

(** [sqlite3_column_text] ends at a NUL. *)
Definition extractEvent (r : AuditRow) : string * AuditEvent :=
  let e := ar_event r in
  (c_str (ar_ts r), mkAudit (c_str (ev_username e)) (c_str (ev_role e)) (c_str (ev_category e)) (c_str (ev_action e))
                            (c_str (ev_details e)) (c_str (ev_result e))).

(* ------------------------------------------------------------------ *)
(** ** The logger *)

(** The schema is whether the table exists; [next] is AUTOINCREMENT's. *)
Record AuditTable := mkAuditTable { at_rows : list AuditRow; at_next : Z }.
Definition AuditDb : Type := Database bool AuditTable.

Definition exec_create (s : AuditDb) : bool * AuditDb :=
  let '(r, s) := statement s in
  if decide (r = SqlOk) then (true, st_schema true s) else (false, s).
Definition exec_index (s : AuditDb) : bool * AuditDb := sql_prepare (fun has => has) s.

(** [initialize] after the process starts: the file opens or does not. *)
Definition audit_initialize (opens : bool) (s : AuditDb) : bool * AuditDb :=
  let s := mkStore opens (db_schema s) (db_disk s) (db_disk s) false (db_results s) in
  if negb opens then (false, s)
  else
    let '(ok, s) := exec_create s in
    if negb ok then (false, s)
    else let '(ok, s) := exec_index s in if negb ok then (false, s) else exec_index s.

Definition insert_event (ts : string) (e : AuditEvent) (t : AuditTable) : AuditTable :=
  mkAuditTable (at_rows t ++ [mkAuditRow (at_next t) ts e]) (at_next t + 1).

(** [timestamp] is the event's, [now] what [nowIso8601] gives. *)
Definition record (now timestamp : string) (e : AuditEvent) (s : AuditDb) : bool * AuditDb :=
  if negb (db_open s) then (false, s)
  else
    let '(ok, s) := sql_prepare (fun has => has) s in
    if negb ok then (false, s)
    else
      let ts := if bool_decide (timestamp = "") then now else timestamp in
      sql_change (insert_event ts e) s.

Definition totalEvents (s : AuditDb) : Z * AuditDb :=
  if negb (db_open s) then (0, s)
  else
    let '(ok, s) := sql_prepare (fun has => has) s in
    if negb ok then (0, s)
    else
      let '(rows, s) := sql_select (fun t => [Z.of_nat (length (at_rows t))]) s in
      (match rows with n :: _ => u64 n | [] => 0 end, s).

Section Query.
Context {AO : AuditOrder}.

Definition query (q : AuditQuery) (s : AuditDb) : list (string * AuditEvent) * AuditDb :=
  if negb (db_open s) then ([], s)
  else
    let '(ok, s) := sql_prepare (fun has => has) s in
    if negb ok then ([], s)
    else
      let limit := if q_limit q =? 0 then -1 else to_i64 (q_limit q) in
      let '(rows, s) := sql_select (fun t => sql_limit limit (newest (List.filter (row_matches q) (at_rows t)))) s in
      (map extractEvent rows, s).

(* ------------------------------------------------------------------ *)
(** ** The trail *)

Inductive audit_op :=
| ARecord (now timestamp : string) (e : AuditEvent)
| AQuery (q : AuditQuery)
| ATotal
| ARestart (opens : bool).

Inductive audit_answer := Recorded (ok : bool) | Events (l : list (string * AuditEvent)) | Count (n : Z) | Opened (ok : bool).

Definition audit_step (o : audit_op) (s : AuditDb) : audit_answer * AuditDb :=
  match o with
  | ARecord now ts e => let '(ok, s) := record now ts e s in (Recorded ok, s)
  | AQuery q => let '(l, s) := query q s in (Events l, s)
  | ATotal => let '(n, s) := totalEvents s in (Count n, s)
  | ARestart opens => let '(ok, s) := audit_initialize opens s in (Opened ok, s)
  end.

Fixpoint audit_run (l : list audit_op) (s : AuditDb) : list audit_answer * AuditDb :=
  match l with
  | [] => ([], s)
  | o :: l => let '(a, s) := audit_step o s in let '(r, s) := audit_run l s in (a :: r, s)
  end.

(** An event with its time. *)
Definition stamped : Type := string * AuditEvent.
Definition row_of (r : AuditRow) : stamped := (ar_ts r, ar_event r).

(** The events acknowledged, in their order. *)
Fixpoint acknowledged (l : list (audit_op * audit_answer)) : list stamped :=
  match l with
  | (ARecord now ts e, Recorded true) :: l => (if bool_decide (ts = "") then now else ts, e) :: acknowledged l
  | _ :: l => acknowledged l
  | [] => []
  end.

Definition stamped_matches (q : AuditQuery) (x : stamped) : bool := row_matches q (mkAuditRow 0 (fst x) (snd x)).
Definition shown (x : stamped) : stamped := extractEvent (mkAuditRow 0 (fst x) (snd x)).
Definition stamped_newest (l : list stamped) : Prop := StronglySorted (fun a b => text_leb (fst b) (fst a) = true) l.

(** What a query may answer on a trail: the matching events, newest first, up
    to the limit; with a failing statement the first few of them. *)
Definition query_answer (q : AuditQuery) (trail : list stamped) (complete : Prop) (out : list stamped) : Prop :=
  exists l, l ≡ₚ List.filter (stamped_matches q) trail /\ stamped_newest l /\
    out `prefix_of` map shown (sql_limit (if q_limit q =? 0 then -1 else to_i64 (q_limit q)) l) /\
    (complete -> out = map shown (sql_limit (if q_limit q =? 0 then -1 else to_i64 (q_limit q)) l)).

Definition answer_ok (trail : list stamped) (o : audit_op) (complete : Prop) (a : audit_answer) : Prop :=
  match o, a with
  | ARecord _ _ _, Recorded ok => complete -> ok = true
  | AQuery q, Events out => query_answer q trail complete out
  | ATotal, Count n => (n = 0 \/ n = u64 (Z.of_nat (length trail))) /\ (complete -> n = u64 (Z.of_nat (length trail)))
  | ARestart opens, Opened ok => (ok = true -> opens = true) /\ (complete -> ok = opens)
  | _, _ => False
  end.

(** No statement is going to fail, and the log is open with its table unless
    it is just being opened. *)
Definition sound_db (o : audit_op) (s : AuditDb) : Prop :=
  db_results s = [] /\ match o with ARestart _ => True | _ => db_open s = true /\ db_schema s = true end.

Definition holds_trail (trail : list stamped) (s : AuditDb) : Prop :=
  map row_of (at_rows (db_disk s)) = trail /\ db_view s = db_disk s /\ db_in_tx s = false.

(* ------------------------------------------------------------------ *)
(** ** Lemmas *)

Lemma unstamped r q : row_matches q r = stamped_matches q (row_of r).
Proof. reflexivity. Qed.

Lemma shown_row r : extractEvent r = shown (row_of r).
Proof. reflexivity. Qed.

Lemma newest_trail q rows : let l := map row_of (newest (List.filter (row_matches q) rows)) in
  l ≡ₚ List.filter (stamped_matches q) (map row_of rows) /\ stamped_newest l.
Proof.
  cbn. split.
  - rewrite newest_perm, filter_map_comm. reflexivity.
  - pose proof (newest_sorted (List.filter (row_matches q) rows)) as H. induction H as [|a l H IH F]; cbn; constructor; [exact IH|].
    apply Forall_map. exact F.
Qed.

Lemma map_sql_limit {A B} (f : A -> B) n l : map f (sql_limit n l) = sql_limit n (map f l).
Proof. unfold sql_limit. destruct (n <? 0); [reflexivity|]. symmetry. apply firstn_map. Qed.

Lemma sound_record now ts e s : sound_db (ARecord now ts e) s -> fst (record now ts e s) = true.
Proof. intros [Hr [Ho Hs]]. destruct s; cbn in *; subst. cbn. reflexivity. Qed.

Lemma record_spec now ts e s trail : holds_trail trail s -> let '(ok, s') := record now ts e s in
  holds_trail (if ok then trail ++ [(if bool_decide (ts = "") then now else ts, e)] else trail) s'.
Proof.
  intros (Ht & Hv & Hx). unfold record, sql_prepare, sql_change, statement. destruct (negb (db_open s)); [split_and!; assumption|]. cbn [fst snd db_schema db_results].
  destruct (_ && _); cbn [negb]; [|split_and!; assumption]. cbn [db_results]. destruct (hd SqlOk _); cbn; try (split_and!; assumption || reflexivity).
  rewrite Hx. unfold holds_trail. cbn. rewrite Hv, map_app, Ht. auto.
Qed.

Lemma query_spec q s trail : holds_trail trail s -> let '(out, s') := query q s in
  holds_trail trail s' /\ query_answer q trail (sound_db (AQuery q) s) out.
Proof.
  intros (Ht & Hv & Hx). pose proof (newest_trail q (at_rows (db_view s))) as [HP HS]. rewrite Hv, Ht in HP. rewrite Hv in HS.
  set (lim := if q_limit q =? 0 then -1 else to_i64 (q_limit q)).
  assert (HW : forall out, (out `prefix_of` map shown (sql_limit lim (map row_of (newest (List.filter (row_matches q) (at_rows (db_disk s))))))) ->
            (sound_db (AQuery q) s -> out = map shown (sql_limit lim (map row_of (newest (List.filter (row_matches q) (at_rows (db_disk s))))))) ->
            query_answer q trail (sound_db (AQuery q) s) out).
  { intros out H1 H2. eexists. split; [exact HP|]. split; [exact HS|]. split; assumption. }
  unfold query, sql_prepare, sql_select, statement. destruct (db_open s) eqn:Eo; cbn [negb fst snd db_schema db_results].
  2:{ split; [split_and!; assumption|]. apply HW; [apply prefix_nil|intros (_ & H & _); congruence]. }
  destruct (db_schema s && _) eqn:Ep; cbn [negb].
  2:{ split; [split_and!; assumption|]. apply HW; [apply prefix_nil|]. intros (Hr & _ & Hs). rewrite Hr, Hs in Ep. discriminate. }
  cbn [db_results db_view]. split; [split_and!; assumption|]. fold lim. rewrite <- Hv in *. apply HW; rewrite <- map_sql_limit, map_map.
  - change extractEvent with (fun x => shown (row_of x)). generalize (sql_limit lim (newest (List.filter (row_matches q) (at_rows (db_view s))))). intros l.
    destruct (hd SqlOk (tail (db_results s))) as [| | |n]; try exact (prefix_nil _); [exists []; rewrite app_nil_r; reflexivity|].
    exists (map (fun x => shown (row_of x)) (drop n l)). rewrite <- map_app, take_drop. reflexivity.
  - intros [Hr _]. rewrite Hr. reflexivity.
Qed.

Lemma total_spec s trail : holds_trail trail s -> let '(n, s') := totalEvents s in
  holds_trail trail s' /\ answer_ok trail ATotal (sound_db ATotal s) (Count n).
Proof.
  intros (Ht & Hv & Hx). unfold totalEvents, sql_prepare, sql_select, statement. rewrite <- Ht. destruct (db_open s) eqn:Eo; cbn [negb fst snd db_schema db_results].
  2:{ split; [split_and!; auto|]. split; [auto|]. intros (_ & H & _). congruence. }
  destruct (db_schema s && _) eqn:Ep; cbn [negb].
  2:{ split; [split_and!; auto|]. split; [auto|]. intros (Hr & _ & Hs). rewrite Hr, Hs in Ep. discriminate. }
  cbn [db_results db_view]. split; [split_and!; auto|]. rewrite Hv. cbn. rewrite length_map. split.
  - destruct (hd SqlOk (tail (db_results s))) as [| | |[|n]]; cbn; auto.
  - intros [Hr _]. rewrite Hr. reflexivity.
Qed.

Lemma initialize_spec opens s trail : holds_trail trail s -> let '(ok, s') := audit_initialize opens s in
  holds_trail trail s' /\ answer_ok trail (ARestart opens) (sound_db (ARestart opens) s) (Opened ok).
Proof.
  intros (Ht & Hv & Hx). unfold audit_initialize, exec_create, exec_index, sql_prepare, statement. destruct opens; cbn [negb]; [|split; [split_and!; auto|cbn; auto]].
  cbn [db_results]. destruct (decide _) as [|Hn]; cbn.
  - destruct (bool_decide _) eqn:E; cbn; (split; [split_and!; auto|]); (split; [auto|]); intros [Hr _]; rewrite Hr in *; [reflexivity|discriminate].
  - split; [split_and!; auto|]. split; [auto|]. intros [Hr _]. rewrite Hr in Hn. destruct Hn. reflexivity.
Qed.

Lemma step_spec o s trail : holds_trail trail s -> let '(a, s') := audit_step o s in
  holds_trail (trail ++ acknowledged [(o, a)]) s' /\ answer_ok trail o (sound_db o s) a.
Proof.
  intros H. destruct o as [now ts e|q| |opens]; cbn [audit_step].
  - pose proof (record_spec now ts e s trail H) as HR. pose proof (sound_record now ts e s) as HS. destruct (record now ts e s) as [ok s'].
    split; [|exact HS]. destruct ok; cbn; [exact HR|rewrite app_nil_r; exact HR].
  - pose proof (query_spec q s trail H) as HR. destruct (query q s). cbn. rewrite app_nil_r. exact HR.
  - pose proof (total_spec s trail H) as HR. destruct (totalEvents s). cbn [acknowledged]. rewrite app_nil_r. exact HR.
  - pose proof (initialize_spec opens s trail H) as HR. destruct (audit_initialize opens s). cbn [acknowledged]. rewrite app_nil_r. exact HR.
Qed.

Lemma acknowledged_cons x l : acknowledged (x :: l) = acknowledged [x] ++ acknowledged l.
Proof. destruct x as [[] [[] | | |]]; reflexivity. Qed.

(* ------------------------------------------------------------------ *)
(** ** Properties *)

(** C39: The audit log refines the list of events. Started on a file that
    holds a trail, for any sequence of records, queries, counts and restarts
    and whatever statements fail: the file holds that trail extended, in
    order, by exactly the events whose [record] answered true (each with its
    own time, or the clock's where it has none), and never another row is
    lost or doubled. Every query answers with the first rows of the events
    recorded until then that match the filters set, newest first and at most
    the limit, all of them where no statement fails; the count is theirs or 0;
    and where no statement fails, recording succeeds. *)
Theorem audit_trail (ops : list audit_op) : forall (trail : list stamped) (s : AuditDb), holds_trail trail s ->
  let '(answers, s') := audit_run ops s in
  length answers = length ops /\ holds_trail (trail ++ acknowledged (combine ops answers)) s' /\
  (forall i o a, ops !! i = Some o -> answers !! i = Some a ->
     answer_ok (trail ++ acknowledged (take i (combine ops answers))) o (sound_db o (snd (audit_run (take i ops) s))) a).
Proof.
  induction ops as [|o ops IH]; intros trail s H; cbn [audit_run].
  { split; [reflexivity|]. cbn [combine acknowledged]. rewrite app_nil_r. split; [exact H|]. intros [|i]; discriminate. }
  pose proof (step_spec o s trail H) as HS. destruct (audit_step o s) as [a s1] eqn:Es. destruct HS as [H1 H2].
  pose proof (IH _ _ H1) as HR. destruct (audit_run ops s1) as [answers s'] eqn:Er. destruct HR as (HL & HT & HA). cbn [length combine].
  rewrite (acknowledged_cons _ (combine ops answers)), app_assoc. split; [congruence|]. split; [exact HT|]. intros [|i] o' a' Ho Ha; cbn in Ho, Ha.
  - injection Ho as <-. injection Ha as <-. cbn. rewrite app_nil_r. exact H2.
  - cbn [take]. rewrite (acknowledged_cons _ (take i _)), app_assoc. cbn [audit_run]. rewrite Es. pose proof (HA i o' a' Ho Ha) as HX.
    destruct (audit_run (take i ops) s1). exact HX.
Qed.
End Query.

(* ------------------------------------------------------------------ *)
(** ** Witness *)

Definition newer_row (a b : AuditRow) : Prop := text_leb (ar_ts b) (ar_ts a) = true.
#[export] Instance newer_row_dec a b : Decision (newer_row a b).
Proof. unfold newer_row. apply _. Defined.

Lemma text_leb_trans a : forall b c, text_leb a b = true -> text_leb b c = true -> text_leb a c = true.
Proof.
  unfold text_leb, String.leb. induction a as [|x a IH]; intros [|y b] [|z c]; cbn; try discriminate; auto.
  unfold Ascii.compare. destruct (N.compare_spec (N_of_ascii x) (N_of_ascii y)), (N.compare_spec (N_of_ascii y) (N_of_ascii z)),
    (N.compare_spec (N_of_ascii x) (N_of_ascii z)); try discriminate; try lia; auto. apply IH.
Qed.

#[export] Instance newer_row_trans : Transitive newer_row.
Proof. intros a b c H1 H2. exact (text_leb_trans _ _ _ H2 H1). Qed.
#[export] Instance newer_row_total : Total newer_row.
Proof. intros a b. apply String.leb_total. Qed.

#[export] Program Instance sorting_order : AuditOrder := { newest := merge_sort newer_row }.
Next Obligation. intros l. apply merge_sort_Permutation. Qed.
Next Obligation. intros l. apply Sorted_StronglySorted; [exact newer_row_trans|apply Sorted_merge_sort, newer_row_total]. Qed.

Definition login_event (user result : string) : AuditEvent := mkAudit user "" "AUTH" "LOGIN" "" result.

(** A log is opened, two logins are recorded, the second under its own time,
    one is lost to a failing INSERT; the next start finds the table. *)
Definition example_ops : list audit_op :=
  [ARestart true; ARecord "2026-01-02T00:00:00Z" "" (login_event "ana" "SUCCESS"); ARecord "2026-01-03T00:00:00Z" "" (login_event "eve" "FAILURE");
   ARecord "2026-01-04T00:00:00Z" "2026-01-01T00:00:00Z" (login_event "bob" "SUCCESS"); ARestart true;
   AQuery (mkAuditQuery "" "" "" "" "SUCCESS" "" 1); AQuery query_default; ATotal].
Definition example_log : AuditDb :=
  mkStore false false (mkAuditTable [] 1) (mkAuditTable [] 1) false [SqlOk; SqlOk; SqlOk; SqlOk; SqlOk; SqlOk; SqlError].

Lemma audit_trail_witness :
  holds_trail [] example_log /\
  fst (audit_run example_ops example_log) =
    [Opened true; Recorded true; Recorded false; Recorded true; Opened true;
     Events [("2026-01-02T00:00:00Z", login_event "ana" "SUCCESS")];
     Events [("2026-01-02T00:00:00Z", login_event "ana" "SUCCESS"); ("2026-01-01T00:00:00Z", login_event "bob" "SUCCESS")]; Count 2] /\
  holds_trail [("2026-01-02T00:00:00Z", login_event "ana" "SUCCESS"); ("2026-01-01T00:00:00Z", login_event "bob" "SUCCESS")]
    (snd (audit_run example_ops example_log)).
Proof.
  assert (H0 : holds_trail [] example_log) by (split; [|split]; reflexivity). split; [exact H0|].
  pose proof (audit_trail example_ops [] example_log H0) as H. destruct (audit_run example_ops example_log) as [answers s'] eqn:E.
  vm_compute in E. injection E as <- <-. split; [reflexivity|]. apply H.
Defined.
