(* ===== verification/HttpBackend.v ===== *)
(** * The HTTP server
    (src/integration/HttpBackend.{h,cpp}, HttpTlsMaterial.{h,cpp})

    The read-only web interface: the TLS material proven when it is
    constructed, the routes it registers with the HTTP library, and its start
    and stop as a backend. The HTTP library and OpenSSL are parameters. *)
From Stdlib Require Import Ascii String.
From S2P Require Import Prelude Float32 Float64 Format Sql Serializers SystemState ModbusIngest SimulatedModel Telemetry ProductStore AlertCenter Json TcpServer McpServer ModbusPollLoop IntegrationServices Result.
Local Open Scope string_scope.
Local Open Scope Z_scope.
Local Open Scope list_scope.

(* ------------------------------------------------------------------ *)
(** ** TLS material *)

(** OpenSSL's reading of PEM objects from the content of a file. A call may
    queue error texts, the first queued first. *)
Class OpenSsl := {
  x509 : Type;
  private_key : Type;
  read_X509 : string -> option x509 * list string;
  read_PrivateKey : string -> option private_key * list string;
  check_private_key : x509 -> private_key -> bool;
}.

Module material.
Definition kCertificate : string := "network.http.tls.cert_path".
Definition kPrivateKey : string := "network.http.tls.key_path".
Definition kClientCa : string := "network.http.tls.client_ca_path".
End material.
Definition kUnsetPath : string := "<not set>".

(** The message of the [TlsMaterialError]. *)
Definition refuse (configKey path reason : string) : string :=
  (configKey ++ " (" ++ (if bool_decide (path = "") then kUnsetPath else c_str path) ++ "): " ++ reason)%string.

(** The error queue gives its oldest entry. *)
Definition openSslReason (queue : list string) : string :=
  match queue with [] => "does not contain a PEM object of the expected type" | text :: _ => text end.

Section Material.
Context `{SSL : OpenSsl}.
(** The readable files. *)
Variable files : string -> option string.

Definition openPemFile (configKey path : string) : string + string :=
  if bool_decide (path = "") then inl (refuse configKey path "is required when network.http.tls.enabled is true")
  else match files (c_str path) with
       | None => inl (refuse configKey path "cannot be opened for reading")
       | Some content => inr content
       end.

(** With the errors left in the queue. *)
Definition readCertificate (configKey path : string) (queue : list string) : string + (x509 * list string) :=
  match openPemFile configKey path with
  | inl e => inl e
  | inr bio =>
      match read_X509 bio with
      | (Some cert, errors) => inr (cert, queue ++ errors)
      | (None, errors) => inl (refuse configKey path (openSslReason (queue ++ errors)))
      end
  end.

(** The constructor: what it throws, or the options it holds. *)
Definition HttpTlsMaterial (options : HttpTlsOptions) : string + HttpTlsOptions :=
  match readCertificate material.kCertificate (tls_certPath options) [] with
  | inl e => inl e
  | inr (certificate, queue) =>
      match openPemFile material.kPrivateKey (tls_keyPath options) with
      | inl e => inl e
      | inr keyBio =>
          match read_PrivateKey keyBio with
          | (None, errors) => inl (refuse material.kPrivateKey (tls_keyPath options) (openSslReason (queue ++ errors)))
          | (Some privateKey, errors) =>
              if negb (check_private_key certificate privateKey)
              then inl (refuse material.kPrivateKey (tls_keyPath options) ("does not match the certificate in " ++ tls_certPath options))
              else if negb (tls_verifyPeer options) then inr options
              else if bool_decide (tls_clientCaPath options = "")
              then inl (refuse material.kClientCa (tls_clientCaPath options) "is required when network.http.tls.verify_peer is true")
              else match readCertificate material.kClientCa (tls_clientCaPath options) (queue ++ errors) with
                   | inl e => inl e
                   | inr _ => inr options
                   end
          end
      end
  end.
End Material.

(* ------------------------------------------------------------------ *)
(** ** Requests *)

Record Response := mkResponse { status : Z; body : string; content_type : string }.
(** What a handler gets: no status set. *)
Definition response_init : Response := mkResponse (-1) "" "".
Definition set_content (text mime : string) (res : Response) : Response := mkResponse (status res) text mime.

Module routes.
Definition kHealth : string := "/health".
Definition kStatus : string := "/status".
Definition kAlarms : string := "/alarms".
Definition kProducts : string := "/products".
Definition kProduction : string := "/production".
End routes.
Definition kRouteTable : list string := [routes.kHealth; routes.kStatus; routes.kAlarms; routes.kProducts; routes.kProduction].
Definition routePaths : list string := kRouteTable.

Definition kJsonMime : string := "application/json".
Definition quote_mark : string := String (Ascii.ascii_of_nat 34) "".
Definition kHealthBody : string := ("{" ++ quote_mark ++ "status" ++ quote_mark ++ ":" ++ quote_mark ++ "ok" ++ quote_mark ++ "}")%string.
Definition kNotFoundBody : string := ("{" ++ quote_mark ++ "error" ++ quote_mark ++ ":" ++ quote_mark ++ "not found" ++ quote_mark ++ "}")%string.
Definition kInternalErrorBody : string := ("{" ++ quote_mark ++ "error" ++ quote_mark ++ ":" ++ quote_mark ++ "internal error" ++ quote_mark ++ "}")%string.
Definition kStatusNotFound : Z := 404.
Definition kStatusInternalError : Z := 500.
Definition kStatusOk : Z := 200.

(** What is given to the library: the certificate, key and client CA of an
    [SSLServer], the handlers of GET with their paths, and the two others. A
    handler runs on the program [W]. *)
Record TlsServer := mkTlsServer { srv_cert : string; srv_key : string; srv_clientCa : option string }.
Record HttpServer (W : Type) := mkHttpServer {
  srv_tls : option TlsServer;
  srv_get : list (string * (W -> outcome Response * W));
  srv_error_handler : option (Response -> Response);
  srv_exception_handler : option (exn -> Response);
}.
Arguments mkHttpServer {W} _ _ _ _.
Arguments srv_tls {W} _.
Arguments srv_get {W} _.
Arguments srv_error_handler {W} _.
Arguments srv_exception_handler {W} _.

Definition Get {W} path h (s : HttpServer W) : HttpServer W :=
  mkHttpServer (srv_tls s) (srv_get s ++ [(path, h)]) (srv_error_handler s) (srv_exception_handler s).
Definition set_error_handler {W} h (s : HttpServer W) : HttpServer W := mkHttpServer (srv_tls s) (srv_get s) (Some h) (srv_exception_handler s).
Definition set_exception_handler {W} h (s : HttpServer W) : HttpServer W := mkHttpServer (srv_tls s) (srv_get s) (srv_error_handler s) (Some h).

(** The library's dispatching of a GET request, as its documentation says:
    the first handler of the path; status 200 where the handler set none; the
    exception handler for what one throws; 404 without a handler; and the
    error handler for any answer of 400 or more. The request is a plain one:
    it has no Range header, for which the library cuts the body (206 or 416),
    and its URI is within the library's length limit (beyond it, 414). *)
Class Httplib := { answer_get : forall {W}, HttpServer W -> string -> W -> Response * W }.
Definition route_of {W} (s : HttpServer W) (path : string) : option (W -> outcome Response * W) :=
  option_map snd (List.find (fun r => String.eqb (fst r) path) (srv_get s)).
Class HttplibLaws `{Httplib} := {
  get_answered {W} (s : HttpServer W) path h w res w' : route_of s path = Some h -> h w = (Ret res, w') -> status res = -1 ->
    answer_get s path w = (mkResponse kStatusOk (body res) (content_type res), w');
  get_thrown {W} (s : HttpServer W) path h w e w' on_throw on_error : route_of s path = Some h -> h w = (Throw e, w') ->
    srv_exception_handler s = Some on_throw -> srv_error_handler s = Some on_error -> 400 <= status (on_throw e) ->
    answer_get s path w = (on_error (on_throw e), w');
  get_unrouted {W} (s : HttpServer W) path w on_error : route_of s path = None -> srv_error_handler s = Some on_error ->
    answer_get s path w = (on_error (mkResponse kStatusNotFound "" ""), w);
}.

(* ------------------------------------------------------------------ *)
(** ** The routes *)

Section Routes.
Context {json : Type} `{JL : JsonLib json} {G : Type}.

(** What the backend refers to. *)
Record HttpWorld := mkHttpWorld { hw_production : SimulatedModel G; hw_products : Catalogue; hw_alerts : AlertCenter }.
Definition hw_set_products db (w : HttpWorld) := mkHttpWorld (hw_production w) db (hw_alerts w).

Definition product_object (p : ProductRow) : outcome json :=
  match row_stock p, row_qualityRate p with
  | Some stock, Some qualityRate =>
      Ret (jobject [("productCode", jstring (row_productCode p)); ("name", jstring (row_name p)); ("status", jstring (row_status p));
                    ("stock", jint stock); ("qualityRate", jdouble (f64_of_f32 qualityRate))])
  | _, _ => Undef
  end.
Fixpoint product_objects (ps : list ProductRow) : outcome (list json) :=
  match ps with [] => Ret [] | p :: ps => x ← product_object p; rest ← product_objects ps; Ret (x :: rest) end.
Definition productsToJson (products : Catalogue) : outcome json * Catalogue :=
  let '(rows, db) := getAllProducts products in (array ← product_objects rows; Ret (jarray array), db).

(** A handler that answers a document. *)
Definition dumped (document : outcome json) : outcome Response :=
  d ← document; text ← dump d; Ret (set_content text kJsonMime response_init).

Definition serve_health (w : HttpWorld) : outcome Response * HttpWorld := (Ret (set_content kHealthBody kJsonMime response_init), w).
Definition serve_status (w : HttpWorld) := (dumped (Ret (buildStatusJson (SimulatedModel.getState (hw_production w)))), w).
Definition serve_alarms (w : HttpWorld) := (dumped (Ret (runAlarmsSnapshot (hw_alerts w))), w).
Definition serve_products (w : HttpWorld) := let '(d, db) := productsToJson (hw_products w) in (dumped d, hw_set_products db w).
Definition serve_production (w : HttpWorld) := (dumped (Ret (buildProductionMetricsJson (hw_production w))), w).

Definition not_found_handler (res : Response) : Response :=
  if (status res =? kStatusNotFound) && bool_decide (body res = "") then set_content kNotFoundBody kJsonMime res else res.
Definition exception_handler (_ : exn) : Response := set_content kInternalErrorBody kJsonMime (mkResponse kStatusInternalError "" "").

Definition registerRoutes (server : HttpServer HttpWorld) : HttpServer HttpWorld :=
  let server := Get routes.kHealth serve_health server in
  let server := Get routes.kStatus serve_status server in
  let server := Get routes.kAlarms serve_alarms server in
  let server := Get routes.kProducts serve_products server in
  let server := Get routes.kProduction serve_production server in
  set_exception_handler exception_handler (set_error_handler not_found_handler server).

(* ------------------------------------------------------------------ *)
(** ** The backend *)

Record HttpBackend := mkHttp {
  requestedPort_ : Z; bindAddress_ : string; tls_ : option HttpTlsOptions;
  server_ : option (HttpServer HttpWorld); listening : bool; running_ : bool; boundPort_ : Z }.

(** The constructor. *)
Definition http_new `{OpenSsl} (files : string -> option string) (port : Z) (bindAddress : string) (tlsOptions : option HttpTlsOptions) : string + HttpBackend :=
  match tlsOptions with
  | None => inr (mkHttp port bindAddress None None false false 0)
  | Some options =>
      match HttpTlsMaterial files options with
      | inl e => inl e
      | inr options => inr (mkHttp port bindAddress (Some options) None false false 0)
      end
  end.

(** How a start goes: whether OpenSSL builds the context, the port the system
    assigns (not positive: none), whether the requested one is free. *)
Record StartConditions := mkConditions { is_valid : bool; any_port : Z; port_free : bool }.

Definition makeServer (c : StartConditions) (b : HttpBackend) : string + HttpServer HttpWorld :=
  match tls_ b with
  | None => inr (mkHttpServer None [] None None)
  | Some options =>
      let clientCa := if tls_verifyPeer options then Some (c_str (tls_clientCaPath options)) else None in
      if negb (is_valid c)
      then inl ("HttpBackend: OpenSSL refused the TLS context built from " ++ tls_certPath options ++ " / " ++ tls_keyPath options)%string
      else inr (mkHttpServer (Some (mkTlsServer (c_str (tls_certPath options)) (c_str (tls_keyPath options)) clientCa)) [] None None)
  end.

(** [start]: what it throws, if anything. *)
Definition http_start (c : StartConditions) (b : HttpBackend) : option string * HttpBackend :=
  let with_state server listening running port :=
    mkHttp (requestedPort_ b) (bindAddress_ b) (tls_ b) server listening running port in
  if running_ b then (None, b)
  else
    match makeServer c b with
    | inl e => (Some e, with_state (server_ b) (listening b) false (boundPort_ b))
    | inr server =>
        let server := registerRoutes server in
        let refused what := (Some what, with_state None (listening b) false (boundPort_ b)) in
        let accepted bound := (None, with_state (Some server) true true (u16 bound)) in
        if requestedPort_ b =? 0 then
          if any_port c <=? 0 then refused ("HttpBackend: bind_to_any_port failed on " ++ bindAddress_ b)%string
          else accepted (any_port c)
        else if negb (port_free c) then
          refused ("HttpBackend: bind failed on " ++ bindAddress_ b ++ ":" ++ to_string (requestedPort_ b))%string
        else accepted (requestedPort_ b)
    end.

Definition stopImpl (b : HttpBackend) : HttpBackend :=
  if negb (running_ b) then b
  else mkHttp (requestedPort_ b) (bindAddress_ b) (tls_ b) None false false 0.

Definition tlsModeName (b : HttpBackend) : string :=
  match tls_ b with None => "off" | Some options => if tls_verifyPeer options then "mutual" else "server" end.
Definition http_metricsSummary (b : HttpBackend) : string :=
  ("port " ++ to_string (boundPort_ b) ++ ", tls " ++ tlsModeName b)%string.

(** A GET request: the accept loop runs the server it was started with. *)
Definition http_get `{Httplib} (path : string) (w : HttpWorld) (b : HttpBackend) : option Response * HttpWorld :=
  match server_ b with
  | Some server => if listening b then let (r, w) := answer_get server path w in (Some r, w) else (None, w)
  | None => (None, w)
  end.

(** As a backend: the conditions of its next start with it. *)
Record HttpPort := mkHttpPort { hp_conditions : StartConditions; hp_backend : HttpBackend }.
End Routes.
Arguments HttpWorld G : clear implicits.
Arguments HttpBackend G : clear implicits.
Arguments HttpPort G : clear implicits.

(** IntegrationBackend's default: a running backend is Connected. *)
#[export] Instance http_is_backend {json : Type} `{JL : JsonLib json} {G} : IntegrationBackend (HttpPort G) := {|
  be_start p := let (e, b) := http_start (hp_conditions p) (hp_backend p) in (e, mkHttpPort (hp_conditions p) b);
  be_stop p := mkHttpPort (hp_conditions p) (stopImpl (hp_backend p));
  be_isRunning p := running_ (hp_backend p);
  be_name p := "HTTP";
  be_connectionState p := if running_ (hp_backend p) then Connected else Disconnected;
  be_metricsSummary p := http_metricsSummary (hp_backend p);
|}.

(* ------------------------------------------------------------------ *)
(** ** Lemmas *)

Section HttpLemmas.
Context {json : Type} `{JL : JsonLib json} {G : Type}.
Implicit Types b : HttpBackend G.

(** Running, with the registered routes over the constructed TLS mode, on the
    requested or an assigned port; or stopped. *)
Definition server_tls (o : HttpTlsOptions) : TlsServer :=
  mkTlsServer (c_str (tls_certPath o)) (c_str (tls_keyPath o)) (if tls_verifyPeer o then Some (c_str (tls_clientCaPath o)) else None).
Definition http_consistent b : Prop :=
  if running_ b then
    listening b = true /\ server_ b = Some (registerRoutes (mkHttpServer (option_map server_tls (tls_ b)) [] None None)) /\
    (requestedPort_ b <> 0 -> boundPort_ b = u16 (requestedPort_ b))
  else server_ b = None /\ listening b = false /\ boundPort_ b = 0.

Lemma start_consistent c b : http_consistent b -> http_consistent (snd (http_start c b)).
Proof.
  intros H. unfold http_start. destruct (running_ b) eqn:R; [exact H|]. unfold http_consistent in H. rewrite R in H. destruct H as (Hs & Hl & Hp).
  unfold makeServer. destruct (tls_ b) as [o|] eqn:T; [destruct (is_valid c)|]; cbn [negb].
  2: unfold http_consistent; cbn; auto.
  all: destruct (Z.eqb_spec (requestedPort_ b) 0) as [E|E]; [destruct (any_port c <=? 0)|destruct (port_free c)]; cbn [negb snd]; unfold http_consistent; cbn;
    rewrite ?T; cbn; auto; split_and!; auto; congruence.
Qed.

Lemma stop_consistent b : http_consistent b -> http_consistent (stopImpl b).
Proof. intros H. unfold stopImpl. destruct (running_ b) eqn:R; [unfold http_consistent; cbn; auto|exact H]. Qed.

Lemma new_consistent `{OpenSsl} files port bind o b : http_new files port bind o = inr b -> http_consistent b.
Proof. unfold http_new. destruct o as [o|]; [destruct (HttpTlsMaterial files o)|]; intros [= <-]; unfold http_consistent; cbn; auto. Qed.
End HttpLemmas.

(* ------------------------------------------------------------------ *)
(** ** What the routes answer *)

Section HttpMeaning.
Context {json : Type} `{JL : JsonLib json} {G : Type}.

(** The text a path stands for, if it is one of the table. *)
Definition route_text (path : string) (w : HttpWorld G) : option (outcome string) :=
  if String.eqb path "/health" then Some (Ret kHealthBody)
  else if String.eqb path "/status" then Some (dump (buildStatusJson (SimulatedModel.getState (hw_production w))))
  else if String.eqb path "/alarms" then Some (dump (runAlarmsSnapshot (hw_alerts w)))
  else if String.eqb path "/products" then Some (array ← product_objects (fst (getAllProducts (hw_products w))); dump (jarray array))
  else if String.eqb path "/production" then Some (dump (buildProductionMetricsJson (hw_production w)))
  else None.

(** A product as the document shows it. *)
Definition entry_object (e : entry) : json :=
  jobject [("productCode", jstring (e_code e)); ("name", jstring (e_name e)); ("status", jstring (e_status e));
           ("stock", jint (e_stock e)); ("qualityRate", jdouble (f64_of_f32 (e_rate e)))].

(** Nothing but statements run on the connection. *)
Definition only_read (w w' : HttpWorld G) : Prop :=
  hw_production w' = hw_production w /\ hw_alerts w' = hw_alerts w /\
  only_select (hw_products w) (hw_products w').

Lemma only_read_refl w : only_read w w.
Proof. split_and!; reflexivity. Qed.

Lemma product_objects_entries rows : forall es, map entry_of rows = map Some es -> product_objects rows = Ret (map entry_object es).
Proof.
  induction rows as [|r rows IH]; intros [|e es] H; try discriminate; [reflexivity|]. injection H as H1 H2. cbn. rewrite (IH _ H2).
  revert H1. unfold entry_of, product_object. destruct (row_id r), (row_stock r), (row_qualityRate r); try discriminate. intros [= <-]. reflexivity.
Qed.

Lemma rows_shown rows : Forall (fun r => entry_of r <> None) (map extractProduct rows).
Proof. apply Forall_map, Forall_true. intros r. discriminate. Qed.

Section Served.
Context `{HL : HttplibLaws}.
Variable tls : option TlsServer.
Let served : HttpServer (HttpWorld G) := registerRoutes (mkHttpServer tls [] None None).

(** What a dumped document becomes. *)
Definition answered (text : outcome string) (r : Response) : Prop :=
  match text with
  | Ret text => r = mkResponse kStatusOk text kJsonMime
  | Throw _ => r = mkResponse kStatusInternalError kInternalErrorBody kJsonMime
  | Undef => True
  end.

Lemma exception_status e : 400 <= status (exception_handler e).
Proof. cbn. unfold kStatusInternalError. lia. Qed.

Lemma answer_dumped path h w (d : outcome json) w' : route_of served path = Some h -> h w = (dumped d, w') -> d ≫= dump <> Undef ->
  exists r, answer_get served path w = (r, w') /\ answered (d ≫= dump) r.
Proof.
  intros Hr Hh. unfold dumped in Hh. destruct d as [d|e|]; cbn [mbind outcome_bind] in *; [|intros _|intros X; destruct (X eq_refl)].
  - destruct (dump d) as [text|e|] eqn:E; cbn [mbind outcome_bind answered] in *; intros X; [| |destruct (X eq_refl)].
    + rewrite (get_answered served path h w _ w' Hr Hh eq_refl). eexists. split; reflexivity.
    + rewrite (get_thrown served path h w e w' exception_handler not_found_handler Hr Hh eq_refl eq_refl (exception_status e)). eexists. split; reflexivity.
  - rewrite (get_thrown served path h w e w' exception_handler not_found_handler Hr Hh eq_refl eq_refl (exception_status e)). eexists. split; reflexivity.
Qed.

Lemma served_meaning path w :
  match route_text path w with
  | None => answer_get served path w = (mkResponse kStatusNotFound kNotFoundBody kJsonMime, w)
  | Some text => text <> Undef -> exists r w', answer_get served path w = (r, w') /\ answered text r /\ only_read w w'
  end.
Proof.
  unfold route_text.
  destruct (String.eqb_spec path "/health") as [->|N1].
  { intros _. rewrite (get_answered served "/health" serve_health w _ w eq_refl eq_refl eq_refl). eexists _, w. split; [reflexivity|]. split; [reflexivity|apply only_read_refl]. }
  destruct (String.eqb_spec path "/status") as [->|N2].
  { intros Hu. destruct (answer_dumped "/status" serve_status w (Ret (buildStatusJson (SimulatedModel.getState (hw_production w)))) w eq_refl eq_refl Hu) as (r & E & A). exists r, w. auto using only_read_refl. }
  destruct (String.eqb_spec path "/alarms") as [->|N3].
  { intros Hu. destruct (answer_dumped "/alarms" serve_alarms w (Ret (runAlarmsSnapshot (hw_alerts w))) w eq_refl eq_refl Hu) as (r & E & A). exists r, w. auto using only_read_refl. }
  destruct (String.eqb_spec path "/products") as [->|N4].
  { pose proof (getAll_only (hw_products w)) as HR. pose (h := serve_products (G := G)). assert (Eh : h w = (dumped (array ← product_objects (fst (getAllProducts (hw_products w))); Ret (jarray array)), hw_set_products (snd (getAllProducts (hw_products w))) w)).
    { unfold h, serve_products, productsToJson. destruct (getAllProducts (hw_products w)). reflexivity. }
    intros Hu. destruct (answer_dumped "/products" h w _ _ eq_refl Eh) as (r & E & A).
    { intros Hv. apply Hu. rewrite <- Hv. destruct (product_objects _); reflexivity. }
    exists r. eexists. split; [exact E|]. split; [revert A; destruct (product_objects _); exact (fun A => A)|]. split; [reflexivity|]. split; [reflexivity|exact HR]. }
  destruct (String.eqb_spec path "/production") as [->|N5].
  { intros Hu. destruct (answer_dumped "/production" serve_production w (Ret (buildProductionMetricsJson (hw_production w))) w eq_refl eq_refl Hu) as (r & E & A). exists r, w. auto using only_read_refl. }
  rewrite (get_unrouted served path w not_found_handler); [reflexivity| |reflexivity]. unfold route_of. cbn -[String.eqb].
  unfold routes.kHealth, routes.kStatus, routes.kAlarms, routes.kProducts, routes.kProduction.
  rewrite !(proj2 (String.eqb_neq _ _)) by (apply not_eq_sym; assumption). reflexivity.
Qed.
End Served.

(** The other interfaces' use of a document. *)
Definition status_reply (text : outcome string) : outcome (chars * bool) := text ← text; Ret (chars_of text ++ [kLF], true).
Definition tool_reply (document : json) : outcome (Result json McpErrorCode) := r ← toolResult document; Ret (Ok r).

(** C40: The web interface says what the program holds and changes nothing.
    While the backend runs, a plain GET of a path of the table is answered 200 with
    the document's text (500 and the error body where the text can not be
    produced), any other path 404 with its body, and the model, the alarms
    and the tables are as before. The document of /status is the one the TCP
    server's [status] answers; those of /alarms and /production are the ones
    the MCP server's tools put in their results; and on a database at rest
    /products lists exactly its products, in the order of their ids. *)
Theorem http_serves_documents `{HL : HttplibLaws} `{RandomSource G} (b : HttpBackend G) (path : string) (w : HttpWorld G) :
  http_consistent b -> running_ b = true ->
  NoDup routePaths /\ (path ∈ routePaths <-> route_text path w <> None) /\
  match route_text path w with
  | None => http_get path w b = (Some (mkResponse 404 kNotFoundBody kJsonMime), w)
  | Some text => text <> Undef -> exists r w', http_get path w b = (Some r, w') /\ answered text r /\ only_read w w'
  end /\
  (forall products, dispatchCommand products (chars_of "status") (hw_production w) =
     (hw_production w, status_reply (default Undef (route_text "/status" w)))) /\
  (forall (R : Type) `{HistoryReader R} (s : McpServer) params tool, contains params "arguments" = false -> value_string params "name" "" = Ret tool ->
     tool = kAlarmsSnapshotTool \/ tool = kProductionMetricsTool -> exists document : json,
     route_text (if String.eqb tool kAlarmsSnapshotTool then "/alarms" else "/production") w = Some (dump document) /\
     handleToolsCall params (hw_alerts w, hw_production w) s = (s, tool_reply document)) /\
  (forall t, hw_products w = resting t -> tables_typed t -> t_sequence t <= int_max ->
     route_text "/products" w = Some (dump (jarray (map entry_object (li_entries (listing_of t)))))).
Proof.
  intros C Hr. unfold http_consistent in C. rewrite Hr in C. destruct C as (Hl & Hs & _). split; [|split; [|split; [|split; [|split]]]].
  - repeat constructor; cbn; set_solver.
  - unfold route_text. cbn. 
    repeat match goal with |- context [String.eqb path ?a] => destruct (String.eqb_spec path a) as [->|]; [split; [discriminate|intros _; set_solver]|] end.
    split; [set_solver|intros X; destruct (X eq_refl)].
  - unfold http_get. rewrite Hs, Hl. pose proof (served_meaning (option_map server_tls (tls_ b)) path w) as M. destruct (route_text path w) as [text|].
    + intros Hu. destruct (M Hu) as (r & w' & E & A). exists r, w'. rewrite E. auto.
    + rewrite M. reflexivity.
  - intros products. reflexivity.
  - intros R HR s params tool Ha Hn Ht. unfold handleToolsCall. rewrite Hn, Ha. cbn [mbind outcome_bind].
    destruct Ht as [-> | ->]; cbn [String.eqb]; eexists; split; reflexivity.
  - intros t Et Ht Hq. unfold route_text. cbn [String.eqb]. rewrite Et. destruct (getAll_listing t Ht Hq) as [HL' _]. cbn.
    rewrite (product_objects_entries _ _ HL'). reflexivity.
Qed.
End HttpMeaning.

(* ------------------------------------------------------------------ *)
(** ** TLS *)

Section Tls.
Context {json : Type} `{JL : JsonLib json} {G : Type} `{SSL : OpenSsl}.
Variable files : string -> option string.

(** A set path to a readable file, and a certificate in it. *)
Definition pem_at (path content : string) : Prop := path <> "" /\ files (c_str path) = Some content.
Definition certificate_at (path : string) (cert : x509) : Prop := exists content, pem_at path content /\ fst (read_X509 content) = Some cert.

(** The configured material is there and fits together. *)
Definition material_good (o : HttpTlsOptions) : Prop :=
  exists cert key content, certificate_at (tls_certPath o) cert /\
    pem_at (tls_keyPath o) content /\ fst (read_PrivateKey content) = Some key /\ check_private_key cert key = true /\
    (tls_verifyPeer o = true -> exists ca, certificate_at (tls_clientCaPath o) ca).

(** A refusal names one of the three configuration keys with its path. *)
Definition names_key (o : HttpTlsOptions) (e : string) : Prop :=
  exists key path reason, e = refuse key path reason /\
    (key, path) ∈ [(material.kCertificate, tls_certPath o); (material.kPrivateKey, tls_keyPath o); (material.kClientCa, tls_clientCaPath o)].

Lemma open_spec key path : match openPemFile files key path with
  | inr content => pem_at path content
  | inl e => (exists reason, e = refuse key path reason) /\ forall content, ~ pem_at path content
  end.
Proof.
  unfold openPemFile, pem_at. case_bool_decide as E; [split; [eauto|intros c [N _]; contradiction]|].
  destruct (files (c_str path)) as [c|]; [auto|]. split; [eauto|]. intros c [_ X]. discriminate.
Qed.

Lemma read_certificate_spec key path queue : match readCertificate files key path queue with
  | inr (cert, _) => certificate_at path cert
  | inl e => (exists reason, e = refuse key path reason) /\ forall cert, ~ certificate_at path cert
  end.
Proof.
  unfold readCertificate. pose proof (open_spec key path) as HO. destruct (openPemFile files key path) as [e|content].
  - destruct HO as [He N]. split; [exact He|]. intros cert (c & Hc & _). exact (N c Hc).
  - destruct (read_X509 content) as [[cert|] errors] eqn:E.
    + exists content. rewrite E. auto.
    + split; [eauto|]. intros cert (c & [_ Hc] & Hr). destruct HO as [_ HO]. rewrite HO in Hc. injection Hc as <-. rewrite E in Hr. discriminate.
Qed.

Lemma certificate_unique path a b : certificate_at path a -> certificate_at path b -> a = b.
Proof. intros (c & [_ Hc] & Ha) (c' & [_ Hc'] & Hb). congruence. Qed.

Lemma material_spec o : match HttpTlsMaterial files o with
  | inr o' => o' = o /\ material_good o
  | inl e => names_key o e /\ ~ material_good o
  end.
Proof.
  unfold HttpTlsMaterial. pose proof (read_certificate_spec material.kCertificate (tls_certPath o) []) as HC.
  destruct (readCertificate files _ _ _) as [e|[cert queue]].
  { destruct HC as [(r & ->) N]. split; [do 3 eexists; split; [reflexivity|left]|]. intros (c & _ & _ & Hc & _). exact (N c Hc). }
  pose proof (open_spec material.kPrivateKey (tls_keyPath o)) as HK. destruct (openPemFile files _ _) as [e|content].
  { destruct HK as [(r & ->) N]. split; [do 3 eexists; split; [reflexivity|right; left]|]. intros (_ & _ & c & _ & Hc & _). exact (N c Hc). }
  assert (HP : forall c, pem_at (tls_keyPath o) c -> c = content) by (intros c [_ Hc]; destruct HK as [_ HK]; congruence).
  destruct (read_PrivateKey content) as [[key|] errors] eqn:EK.
  2: { split; [do 3 eexists; split; [reflexivity|right; left]|]. intros (_ & k & c & _ & Hc & Hk & _). rewrite (HP c Hc), EK in Hk. discriminate. }
  destruct (check_private_key cert key) eqn:EC; cbn [negb].
  2: { split; [do 3 eexists; split; [reflexivity|right; left]|]. intros (x & k & c & Hx & Hc & Hk & Hm & _).
       rewrite (HP c Hc), EK in Hk. injection Hk as <-. rewrite (certificate_unique _ _ _ Hx HC) in Hm. congruence. }
  assert (HG : (tls_verifyPeer o = true -> exists ca, certificate_at (tls_clientCaPath o) ca) -> material_good o).
  { intros X. exists cert, key, content. rewrite EK. split_and!; try assumption; reflexivity. }
  destruct (tls_verifyPeer o) eqn:EV; cbn [negb]; [|split; [reflexivity|apply HG; discriminate]].
  case_bool_decide as EE.
  { split; [do 3 eexists; split; [reflexivity|right; right; left]|]. intros (_ & _ & _ & _ & _ & _ & _ & X). destruct (X EV) as (ca & c & [N _] & _). contradiction. }
  pose proof (read_certificate_spec material.kClientCa (tls_clientCaPath o) (queue ++ errors)) as HA.
  destruct (readCertificate files _ _ _) as [e|[ca q]]; [|split; [reflexivity|apply HG; eauto]].
  destruct HA as [(r & ->) N]. split; [do 3 eexists; split; [reflexivity|right; right; left]|]. intros (_ & _ & _ & _ & _ & _ & _ & X). destruct (X EV) as [ca Hca]. exact (N ca Hca).
Qed.

(** Starts, with their conditions, and stops. *)
Inductive http_event := HttpStart (c : StartConditions) | HttpStop.
Definition http_step (b : HttpBackend G) (e : http_event) : HttpBackend G :=
  match e with HttpStart c => snd (http_start c b) | HttpStop => stopImpl b end.
Definition http_run (l : list http_event) (b : HttpBackend G) : HttpBackend G := fold_left http_step l b.

Lemma step_fixed e b : tls_ (http_step b e) = tls_ b /\ requestedPort_ (http_step b e) = requestedPort_ b.
Proof.
  destruct e as [c|]; cbn.
  - unfold http_start. destruct (running_ b), (makeServer c b), (requestedPort_ b =? 0), (any_port c <=? 0), (port_free c); split; reflexivity.
  - unfold stopImpl. destruct (running_ b); split; reflexivity.
Qed.

Lemma run_consistent l : forall b, http_consistent b -> http_consistent (http_run l b) /\ tls_ (http_run l b) = tls_ b /\ requestedPort_ (http_run l b) = requestedPort_ b.
Proof.
  induction l as [|e l IH]; intros b H; [auto|]. cbn. destruct (step_fixed e b) as [Ht Hp]. rewrite <- Ht, <- Hp. apply IH.
  destruct e; [apply start_consistent|apply stop_consistent]; exact H.
Qed.

(** HTTPS is never silently plaintext. A backend configured with TLS can
    be constructed exactly when certificate and private key are readable and
    belong together and, for mutual TLS, the client CA is; otherwise the
    refusal names the configuration key at fault and its path. Through any
    starts, however they go, and stops, it listens exactly while it is
    running, always with the very files it was constructed with and asking
    clients for certificates exactly if configured to, on the requested port
    or an assigned one; once stopped it holds no server and no port. *)
Theorem http_tls_proven (port : Z) (bind : string) (o : HttpTlsOptions) (events : list http_event) :
  match http_new files port bind (Some o) with
  | inl e => names_key o e /\ ~ material_good o
  | inr b0 =>
      material_good o /\
      let b := http_run events b0 in
      listening b = running_ b /\
      match server_ b with
      | Some server => running_ b = true /\ srv_tls server = Some (server_tls o) /\ (port <> 0 -> boundPort_ b = u16 port)
      | None => running_ b = false /\ boundPort_ b = 0
      end
  end.
Proof.
  pose proof (material_spec o) as HM. unfold http_new. destruct (HttpTlsMaterial files o) as [e|o'] eqn:E; [exact HM|].
  destruct HM as [-> HG]. split; [exact HG|].
  pose proof (new_consistent files port bind (Some o) (mkHttp (G := G) port bind (Some o) None false false 0)) as HN. unfold http_new in HN. rewrite E in HN.
  destruct (run_consistent events _ (HN eq_refl)) as (HC & Ht & Hp). cbn zeta. unfold http_consistent in HC. cbn [tls_ requestedPort_] in Ht, Hp.
  destruct (running_ (http_run _ _)).
  - destruct HC as (Hl & Hs & Hb). rewrite Hs, Hl, Ht. split; [reflexivity|]. split; [reflexivity|]. split; [reflexivity|]. rewrite Hp in Hb. exact Hb.
  - destruct HC as (Hs & Hl & Hb). rewrite Hs, Hl. auto.
Qed.

(** It keeps what a backend promises, so all that is shown of the manager
    holds of it. *)
#[export] Instance http_keeps_laws : IntegrationBackendLaws (HttpPort G).
Proof.
  constructor; try reflexivity.
  - intros [c b]. cbn. unfold http_start. destruct (running_ b) eqn:R; [auto|].
    destruct (makeServer c b), (requestedPort_ b =? 0), (any_port c <=? 0), (port_free c); cbn; try discriminate; reflexivity.
  - intros [c b]. cbn. unfold stopImpl. destruct (running_ b) eqn:R; [reflexivity|exact R].
  - intros [c b]. cbn. intros ->. reflexivity.
Qed.
End Tls.

(* ------------------------------------------------------------------ *)
(** ** Witness *)

#[local] Program Instance DemoHttplib : Httplib := {|
  answer_get W s path w :=
    let on_error r := match srv_error_handler s with Some h => h r | None => r end in
    match route_of s path with
    | Some h =>
        match h w with
        | (Ret res, w') => (mkResponse kStatusOk (body res) (content_type res), w')
        | (Throw e, w') => (match srv_exception_handler s with Some x => on_error (x e) | None => response_init end, w')
        | (Undef, w') => (response_init, w')
        end
    | None => (on_error (mkResponse kStatusNotFound "" ""), w)
    end |}.
#[local] Instance DemoHttplibLaws : HttplibLaws.
Proof.
  constructor; intros; cbn.
  - rewrite H, H0. reflexivity.
  - rewrite H, H0, H1, H2. reflexivity.
  - rewrite H, H0. reflexivity.
Qed.

Definition demo_http : HttpBackend unit :=
  snd (http_start (mkConditions true 0 true) (mkHttp (G := unit) 8080 "127.0.0.1" None None false false 0)).
Definition demo_world : HttpWorld unit := mkHttpWorld (model_init tt) (resting no_tables) center_init.

Lemma http_serves_documents_witness :
  (exists r w', http_get "/status" demo_world demo_http = (Some r, w') /\ status r = 200 /\ only_read demo_world w') /\
  fst (http_get "/stat" demo_world demo_http) = Some (mkResponse 404 kNotFoundBody kJsonMime).
Proof.
  assert (C : http_consistent demo_http) by (apply start_consistent; unfold http_consistent; cbn; auto). split.
  - destruct (proj1 (proj2 (proj2 (http_serves_documents demo_http "/status" demo_world C eq_refl))) ltac:(discriminate)) as (r & w' & E & A & O).
    exists r, w'. split; [exact E|]. split; [|exact O]. cbn in A. rewrite A. reflexivity.
  - exact (f_equal fst (proj1 (proj2 (proj2 (http_serves_documents demo_http "/stat" demo_world C eq_refl))))).
Defined.
