(* ===== verification/Console.v ===== *)
(** * The console front end
    (src/console/ConsoleView.{h,cpp}, InitConsole.{h,cpp})

    The view that prints what the presenters show and reads commands line by
    line, and the program around it: presenters, model, tick and view wired
    together. Standard input is a list of lines, standard output the pieces
    written to it; a line, a tick or a notification from another thread runs
    to its end. Properties: the console drives the station by exactly the
    commands its lines spell, and what status prints is the present plant. *)
From Stdlib Require Import Ascii String.
From stdpp Require Import strings.
From S2P Require Import Prelude Float32 Float64 Format StdMap SystemState SerialLink ModbusIngest SimulatedModel ModelNews AlertCenter Auth Users ProductStore ProductsPresenter Dashboard.
Local Open Scope string_scope.
Local Open Scope Z_scope.
Local Open Scope list_scope.

(* ------------------------------------------------------------------ *)
(** ** Text *)

Definition kWs (c : ascii) : bool := (code c =? 32) || (code c =? 9) || (code c =? 13) || (code c =? 10).
Definition console_trim (s : chars) : chars :=
  let (_, s) := span kWs s in
  let (_, s) := span kWs (rev s) in rev s.

(** At the first blank: what is before it, and what follows it. *)
Definition split_blank (s : chars) : chars * option chars :=
  let (a, rest) := span (fun c => negb (Ascii.eqb c " ")) s in
  (a, match rest with [] => None | _ :: rest => Some rest end).
Definition args_of (rest : option chars) : chars := match rest with None => [] | Some rest => console_trim rest end.
Definition lower (s : chars) : string := text_of (map tolower s).

Definition equipmentStatusTag (s : View.EquipmentCardStatus) : string :=
  match s with
  | View.Offline => "OFFLINE" | View.StartingUp => "STARTING_UP" | View.CheckOutput => "CHECK_OUTPUT" | View.Online => "ONLINE"
  | View.Processing => "PROCESSING" | View.WarmingUp => "WARMING_UP" | View.Ready => "READY" | View.Reboot => "REBOOT"
  | View.Error => "ERROR" | View.Disabled => "DISABLED" | View.Unknown => "UNKNOWN"
  end.
Definition qualityStatusTag (s : View.QualityCheckpointStatus) : string :=
  match s with View.Passing => "PASSING" | View.QWarning => "WARNING" | View.QCritical => "CRITICAL" end.
Definition actuatorStatusTag (s : View.ActuatorCardStatus) : string :=
  match s with
  | View.AOffline => "OFFLINE" | View.Idle => "IDLE" | View.Working => "WORKING" | View.AError => "ERROR" | View.Homing => "HOMING"
  | View.Calibrating => "CALIBRATING" | View.AUnknown => "UNKNOWN"
  end.
Inductive ZoneSeverity := ZNone | ZInfo | ZWarning | ZError.
Definition severityTag (s : ZoneSeverity) : string := match s with ZNone => "OK" | ZInfo => "INFO" | ZWarning => "WARNING" | ZError => "ERROR" end.
Definition alertSeverityTag (s : AlertSeverity) : string := match s with Info => "INFO" | Warning => "WARNING" | Critical => "CRITICAL" end.
Definition alarmStateTag (s : AlarmState) : string :=
  match s with UnackActive => "UNACK" | AckActive => "ACK" | RtnUnack => "RTN" | Shelved => "SHELVED" end.
Definition flag (b : bool) : string := if b then "true" else "false".

Record StatusZoneViewModel := mkZone { z_severity : ZoneSeverity; z_message : string; z_backgroundColor : string }.

(* ------------------------------------------------------------------ *)
(** ** The view: notifications *)

(** [out_]: the pieces written, in order; [lastStatusZone_] has no writer but
    its notification. *)
Record ConsoleView := mkConsole {
  out_ : list string;
  lastWorkUnit_ : option View.WorkUnitViewModel;
  lastEquipment_ : list View.EquipmentCardViewModel;
  lastQuality_ : list View.QualityCheckpointViewModel;
  lastControl_ : option View.ControlPanelViewModel;
  lastStatusZone_ : option StatusZoneViewModel;
  lastProducts_ : option (list ProductItem);
  exit_ : bool;
}.
Definition console_init : ConsoleView := mkConsole [] None [] [] None None None false.

Definition write (pieces : list string) (v : ConsoleView) : ConsoleView :=
  mkConsole (out_ v ++ pieces) (lastWorkUnit_ v) (lastEquipment_ v) (lastQuality_ v) (lastControl_ v) (lastStatusZone_ v) (lastProducts_ v) (exit_ v).
Definition line (s : string) : string := s ++ String kLF "".
Definition writeLine (s : string) (v : ConsoleView) : ConsoleView := write [line s] v.

Definition set_workunit x v := mkConsole (out_ v) (Some x) (lastEquipment_ v) (lastQuality_ v) (lastControl_ v) (lastStatusZone_ v) (lastProducts_ v) (exit_ v).
Definition set_lastEquipment x v := mkConsole (out_ v) (lastWorkUnit_ v) x (lastQuality_ v) (lastControl_ v) (lastStatusZone_ v) (lastProducts_ v) (exit_ v).
Definition set_lastQuality x v := mkConsole (out_ v) (lastWorkUnit_ v) (lastEquipment_ v) x (lastControl_ v) (lastStatusZone_ v) (lastProducts_ v) (exit_ v).
Definition set_lastControl x v := mkConsole (out_ v) (lastWorkUnit_ v) (lastEquipment_ v) (lastQuality_ v) (Some x) (lastStatusZone_ v) (lastProducts_ v) (exit_ v).
Definition set_lastZone x v := mkConsole (out_ v) (lastWorkUnit_ v) (lastEquipment_ v) (lastQuality_ v) (lastControl_ v) (Some x) (lastProducts_ v) (exit_ v).
Definition set_lastProducts x v := mkConsole (out_ v) (lastWorkUnit_ v) (lastEquipment_ v) (lastQuality_ v) (lastControl_ v) (lastStatusZone_ v) (Some x) (exit_ v).
Definition signalExit v := mkConsole (out_ v) (lastWorkUnit_ v) (lastEquipment_ v) (lastQuality_ v) (lastControl_ v) (lastStatusZone_ v) (lastProducts_ v) true.

(** [find_if] by id: the first one is replaced, or the card is added. *)
Fixpoint upsert {A} (id : A -> Z) (x : A) (l : list A) : list A :=
  match l with [] => [x] | y :: l => if id y =? id x then x :: l else y :: upsert id x l end.

Definition onWorkUnitView (vm : View.WorkUnitViewModel) (v : ConsoleView) : ConsoleView :=
  writeLine ("[WORK_UNIT] id=" ++ View.wv_workUnitId vm ++ " product=" ++ View.wv_productId vm ++ " progress=" ++
             to_string (View.wv_completedOperations vm) ++ "/" ++ to_string (View.wv_totalOperations vm)) (set_workunit vm v).
Definition onEquipmentCard (vm : View.EquipmentCardViewModel) (v : ConsoleView) : ConsoleView :=
  writeLine ("[EQUIPMENT] id=" ++ to_string (View.ec_equipmentId vm) ++ " status=" ++ equipmentStatusTag (View.ec_status vm) ++
             " enabled=" ++ flag (View.enabled vm)) (set_lastEquipment (upsert View.ec_equipmentId vm (lastEquipment_ v)) v).
Definition onActuatorCard (vm : View.ActuatorCardViewModel) (v : ConsoleView) : ConsoleView :=
  writeLine ("[ACTUATOR ] id=" ++ to_string (View.ac_actuatorId vm) ++ " status=" ++ actuatorStatusTag (View.ac_status vm) ++
             " auto=" ++ flag (View.ac_autoMode vm) ++ " home=" ++ flag (View.atHomePosition vm)) v.
Definition onQualityView (vm : View.QualityCheckpointViewModel) (v : ConsoleView) : ConsoleView :=
  writeLine ("[QUALITY  ] id=" ++ to_string (View.qv_checkpointId vm) ++ " status=" ++ qualityStatusTag (View.qv_status vm) ++
             " pass=" ++ fmt_fixed 1 (View.qv_passRate vm) ++ "% inspected=" ++ to_string (View.qv_unitsInspected vm) ++
             " defects=" ++ to_string (View.qv_defectsFound vm)) (set_lastQuality (upsert View.qv_checkpointId vm (lastQuality_ v)) v).
Definition onControlPanel (vm : View.ControlPanelViewModel) (v : ConsoleView) : ConsoleView :=
  writeLine ("[CONTROL  ] start=" ++ flag (View.startEnabled vm) ++ " stop=" ++ flag (View.stopEnabled vm) ++
             " reset=" ++ flag (View.resetRestartEnabled vm) ++ " calib=" ++ flag (View.calibrationEnabled vm)) (set_lastControl vm v).
Definition onStatusZone (vm : StatusZoneViewModel) (v : ConsoleView) : ConsoleView :=
  writeLine ("[SYSTEM   ] severity=" ++ severityTag (z_severity vm) ++ " message=" ++ z_message vm) (set_lastZone vm v).
Definition onProductsLoaded (items : list ProductItem) (v : ConsoleView) : ConsoleView :=
  writeLine ("[PRODUCTS ] loaded count=" ++ to_string (Z.of_nat (length items))) (set_lastProducts items v).

(** The lines of the description; none after a last line feed. *)
Fixpoint description_lines (cur : chars) (l : chars) : list chars :=
  match l with
  | [] => match cur with [] => [] | _ => [cur] end
  | c :: l => if Ascii.eqb c kLF then cur :: description_lines [] l else description_lines (cur ++ [c]) l
  end.
Definition onViewProductReady (vm : ViewProductDialogViewModel) (v : ConsoleView) : ConsoleView :=
  write ([line "--- PRODUCT DETAIL ---"; line ("  id/code: " ++ vd_productId vm); line ("  verified: " ++ flag (vd_isVerified vm));
          line ("  created:  " ++ (if bool_decide (vd_createdDate vm = "") then "-" else vd_createdDate vm))] ++
         (if bool_decide (vd_description vm = "") then []
          else line "  description:" :: map (fun l => line ("    " ++ text_of l)) (description_lines [] (chars_of (vd_description vm)))) ++
         [line "--- END ---"]) v.
Definition onError (errorMessage : string) (v : ConsoleView) : ConsoleView := writeLine ("[ERROR    ] " ++ errorMessage) v.

(* ------------------------------------------------------------------ *)
(** ** The view: commands *)

Definition printBanner : ConsoleView -> ConsoleView :=
  write [line "========================================"; line " Industrial HMI - Console front-end";
         line " Type 'help' for commands, 'quit' to exit."; line "========================================"].
Definition printHelp : ConsoleView -> ConsoleView :=
  write [line "Commands:";
         line "  help, h, ?            Show this list";
         line "  status                Dump current system snapshot";
         line "  start, s              Start production";
         line "  stop, p               Stop / pause production";
         line "  reset, r              Reset / restart sequence";
         line "  calibrate, cal, c     Run calibration routine";
         line "  eq <id> on|off        Toggle equipment enable (id: 0..2)";
         line "  alerts                List active alerts";
         line "  dismiss <key>         Acknowledge an alarm by key (ISA-18.2)";
         line "  products              List products from database";
         line "  view <id>             Show product detail";
         line "  quit, q, exit         Exit the application"].

Definition equipment_text (e : View.EquipmentCardViewModel) : string :=
  line ("  equipment  id=" ++ to_string (View.ec_equipmentId e) ++ " status=" ++ equipmentStatusTag (View.ec_status e) ++
        " enabled=" ++ flag (View.enabled e) ++ " supply=" ++ View.consumables e).
Definition quality_text (q : View.QualityCheckpointViewModel) : string :=
  line ("  quality    id=" ++ to_string (View.qv_checkpointId q) ++ " status=" ++ qualityStatusTag (View.qv_status q) ++
        " pass=" ++ fmt_fixed 1 (View.qv_passRate q) ++ "% inspected=" ++ to_string (View.qv_unitsInspected q) ++
        " defects=" ++ to_string (View.qv_defectsFound q)).
Definition control_text (c : View.ControlPanelViewModel) : string :=
  line ("  control    start=" ++ flag (View.startEnabled c) ++ " stop=" ++ flag (View.stopEnabled c) ++
        " reset=" ++ flag (View.resetRestartEnabled c) ++ " calib=" ++ flag (View.calibrationEnabled c)).
Definition workunit_text (w : View.WorkUnitViewModel) : string :=
  line ("  work_unit  id=" ++ View.wv_workUnitId w ++ " product=" ++ View.wv_productId w ++ " progress=" ++
        to_string (View.wv_completedOperations w) ++ "/" ++ to_string (View.wv_totalOperations w)).
Definition zone_text (z : StatusZoneViewModel) : string := line ("  system     severity=" ++ severityTag (z_severity z) ++ " message=" ++ z_message z).
Definition optional {A} (f : A -> string) (x : option A) : list string := match x with Some a => [f a] | None => [] end.

Definition printStatus (v : ConsoleView) : ConsoleView :=
  write ([line "--- STATUS ---"] ++ optional workunit_text (lastWorkUnit_ v) ++ optional zone_text (lastStatusZone_ v) ++
         map equipment_text (lastEquipment_ v) ++ map quality_text (lastQuality_ v) ++ optional control_text (lastControl_ v) ++
         [line "--- END ---"]) v.

Definition alert_text (a : AlertViewModel) : list string :=
  line ("  [" ++ alertSeverityTag (severity a) ++ "/" ++ alarmStateTag (alarm_state a) ++ "] key=" ++ key a ++ " " ++ title a ++ " at " ++ timestamp a) ::
  (if bool_decide (message a = "") then [] else [line ("        " ++ message a)]).
Definition printAlerts (active : list AlertViewModel) : ConsoleView -> ConsoleView :=
  write ([line "--- ALERTS ---"] ++ match active with [] => [line "  (none)"] | _ => concat (map alert_text active) end ++ [line "--- END ---"]).

Definition product_text (p : ProductItem) : string :=
  line ("  id=" ++ to_string (it_id p) ++ " code=" ++ it_productCode p ++ " name=" ++ text_of [kQuote] ++ it_name p ++ text_of [kQuote] ++
        " status=" ++ it_status p ++ " stock=" ++ to_string (it_stock p) ++ " quality=" ++ fmt_fixed 1 (it_qualityRate p) ++ "%").
Definition printProducts (v : ConsoleView) : ConsoleView :=
  write ([line "--- PRODUCTS ---"] ++
         match lastProducts_ v with None | Some [] => [line "  (no products loaded)"] | Some items => map product_text items end ++
         [line "--- END ---"]) v.

(** The callbacks that are installed, on the program [W] the view is part
    of. *)
Record Callbacks (W : Type) := mkCallbacks {
  cbStart_ : option (W -> outcome W);
  cbStop_ : option (W -> outcome W);
  cbReset_ : option (W -> outcome W);
  cbCalibrate_ : option (W -> outcome W);
  cbToggleEquipment_ : option (Z -> bool -> W -> outcome W);
  cbListProducts_ : option (W -> outcome W);
  cbViewProduct_ : option (Z -> W -> outcome W);
  cbDismissAlert_ : option (string -> W -> outcome W);
  cbAlertsSnapshot_ : option (W -> list AlertViewModel);
  cbShutdown_ : option (W -> outcome W);
}.
Arguments mkCallbacks {W} _ _ _ _ _ _ _ _ _ _.
Arguments cbStart_ {W} _.
Arguments cbStop_ {W} _.
Arguments cbReset_ {W} _.
Arguments cbCalibrate_ {W} _.
Arguments cbToggleEquipment_ {W} _.
Arguments cbListProducts_ {W} _.
Arguments cbViewProduct_ {W} _.
Arguments cbDismissAlert_ {W} _.
Arguments cbAlertsSnapshot_ {W} _.
Arguments cbShutdown_ {W} _.

Section Dispatch.
Context {W : Type} (on_view : (ConsoleView -> ConsoleView) -> W -> W) (cbs : Callbacks W).

Definition say (s : string) (w : W) : outcome W := Ret (on_view (writeLine s) w).
Definition call_or (cb : option (W -> outcome W)) (missing : string) (w : W) : outcome W :=
  match cb with Some f => f w | None => say missing w end.

Definition parse_flag (s : string) : option bool :=
  if String.eqb s "on" || String.eqb s "true" || String.eqb s "1" then Some true
  else if String.eqb s "off" || String.eqb s "false" || String.eqb s "0" then Some false else None.

Definition handleEqCommand (args : chars) (w : W) : outcome W :=
  match args with
  | [] => say "[ERROR    ] Usage: eq <id> on|off" w
  | _ =>
      let (idToken, rest) := split_blank args in
      let stateToken := args_of rest in
      match from_chars_u32 idToken with
      | FcOk id [] =>
          match parse_flag (lower stateToken) with
          | None => say ("[ERROR    ] Expected on|off after id, got: '" ++ text_of stateToken ++ "'") w
          | Some enabled => call_or (option_map (fun cb => cb id enabled) (cbToggleEquipment_ cbs)) "[WARN     ] toggle-equipment action not wired" w
          end
      | _ => say ("[ERROR    ] Invalid equipment id: '" ++ text_of idToken ++ "'") w
      end
  end.

Definition handleDismissCommand (args : chars) (w : W) : outcome W :=
  match args with
  | [] => say "[ERROR    ] Usage: dismiss <key>. Use 'alerts' to list keys." w
  | _ => call_or (option_map (fun cb => cb (text_of args)) (cbDismissAlert_ cbs)) "[WARN     ] dismiss-alert action not wired" w
  end.

Definition handleViewCommand (args : chars) (w : W) : outcome W :=
  match args with
  | [] => say "[ERROR    ] Usage: view <id>" w
  | _ =>
      match from_chars_int args with
      | FcOk id [] => call_or (option_map (fun cb => cb id) (cbViewProduct_ cbs)) "[WARN     ] view-product action not wired" w
      | _ => say ("[ERROR    ] Invalid product id: '" ++ text_of args ++ "'") w
      end
  end.

Definition one_of (verb : string) (l : list string) : bool := existsb (String.eqb verb) l.

Definition console_dispatch (raw : chars) (w : W) : outcome W :=
  match console_trim raw with
  | [] => Ret w
  | trimmed =>
      let (head, rest) := split_blank trimmed in
      let verb := lower head in
      let args := args_of rest in
      if one_of verb ["help"; "h"; "?"] then Ret (on_view printHelp w)
      else if one_of verb ["status"] then Ret (on_view printStatus w)
      else if one_of verb ["start"; "s"] then call_or (cbStart_ cbs) "[WARN     ] start action not wired" w
      else if one_of verb ["stop"; "p"] then call_or (cbStop_ cbs) "[WARN     ] stop action not wired" w
      else if one_of verb ["reset"; "r"] then call_or (cbReset_ cbs) "[WARN     ] reset action not wired" w
      else if one_of verb ["calibrate"; "c"; "cal"] then call_or (cbCalibrate_ cbs) "[WARN     ] calibrate action not wired" w
      else if one_of verb ["eq"] then handleEqCommand args w
      else if one_of verb ["alerts"] then
        Ret (on_view (printAlerts (match cbAlertsSnapshot_ cbs with Some cb => cb w | None => [] end)) w)
      else if one_of verb ["dismiss"] then handleDismissCommand args w
      else if one_of verb ["products"] then
        w ← match cbListProducts_ cbs with Some cb => cb w | None => Ret w end;
        Ret (on_view printProducts w)
      else if one_of verb ["view"] then handleViewCommand args w
      else if one_of verb ["quit"; "exit"; "q"] then
        let w := on_view (writeLine "[BYE      ] Shutting down.") w in
        w ← match cbShutdown_ cbs with Some cb => cb w | None => Ret w end;
        Ret (on_view signalExit w)
      else say ("[ERROR    ] Unknown command: '" ++ verb ++ "'. Type 'help'.") w
  end.

(** One turn of [readerLoop]: a line, or the end of the input. *)
Definition reader_turn (exiting : bool) (input : option chars) (w : W) : outcome W :=
  if exiting then Ret w
  else match input with Some raw => console_dispatch raw w | None => Ret (on_view signalExit w) end.
End Dispatch.

(* ------------------------------------------------------------------ *)
(** ** The program around it *)

Section InitConsole.
Context {G : Type} `{RG : RandomSource G} `{CK : Clock} `{SL : SqlLike} (tr : catalogue).

(** The station holds the model, the dashboard presenter and the alarm
    centre; [ca_roles] is the presenter's role gate, without a session here. *)
Record InitConsole := mkInitConsole {
  ca_station : Station G;
  ca_roles : Users.Dashboard;
  ca_products : ProductsPresenter (SimulatedModel G);
  ca_view : ConsoleView;
  tickEnabled_ : bool;
}.
Definition on_view (f : ConsoleView -> ConsoleView) (w : InitConsole) : InitConsole :=
  mkInitConsole (ca_station w) (ca_roles w) (ca_products w) (f (ca_view w)) (tickEnabled_ w).
Definition set_station s (w : InitConsole) := mkInitConsole s (ca_roles w) (ca_products w) (ca_view w) (tickEnabled_ w).
Definition set_roles d (w : InitConsole) := mkInitConsole (ca_station w) d (ca_products w) (ca_view w) (tickEnabled_ w).
Definition set_products p (w : InitConsole) := mkInitConsole (ca_station w) (ca_roles w) p (ca_view w) (tickEnabled_ w).
Definition set_ticking b (w : InitConsole) := mkInitConsole (ca_station w) (ca_roles w) (ca_products w) (ca_view w) b.

(** The numbers of the presenter's subscription and of the console as its
    observer. *)
Definition me : nat := 0.
Definition console_id : nat := 1.

(** What the presenters tell their observers, to the console. *)
Definition console_event (e : View.view_event) (v : ConsoleView) : ConsoleView :=
  match e with
  | View.OnWorkUnitView o vm => if Nat.eqb o console_id then onWorkUnitView vm v else v
  | View.OnEquipmentCard o vm => if Nat.eqb o console_id then onEquipmentCard vm v else v
  | View.OnActuatorCard o vm => if Nat.eqb o console_id then onActuatorCard vm v else v
  | View.OnQualityView o vm => if Nat.eqb o console_id then onQualityView vm v else v
  | View.OnControlPanel o vm => if Nat.eqb o console_id then onControlPanel vm v else v
  end.
Definition console_shown (e : shown_event) (v : ConsoleView) : ConsoleView :=
  match e with ShProducts items => onProductsLoaded items v | ShProduct vm => onViewProductReady vm v | _ => v end.

(** An event of the station, with its notifications. *)
Definition station_do (e : station_event) (w : InitConsole) : outcome InitConsole :=
  s ← station_step me e (ca_station w);
  let news := drop (length (shown (st_presenter (ca_station w)))) (shown (st_presenter s)) in
  Ret (on_view (fun v => fold_left (fun v e => console_event e v) news v) (set_station s w)).
Fixpoint station_all (l : list station_event) (w : InitConsole) : outcome InitConsole :=
  match l with [] => Ret w | e :: l => w ← station_do e w; station_all l w end.

(** What a handler's call into the model is. *)
Definition model_call (c : dash_command) : list station_event :=
  match c with
  | DoStart => [Operate StartProduction]
  | DoStop => [Operate StopProduction]
  | DoReset => [Operate ResetSystem]
  | DoCalibrate => [Operate StartCalibration]
  | DoInjectFault => []
  | DoEnable id on => [Operate (SetEquipmentEnabled id on)]
  end.
Definition clicked (c : dash_command) (w : InitConsole) : outcome InitConsole :=
  let d := click c (ca_roles w) in
  station_all (concat (map model_call (drop (length (issued (ca_roles w))) (issued d)))) (set_roles d w).

Definition products_do (f : ProductsPresenter (SimulatedModel G) -> outcome (ProductsPresenter (SimulatedModel G))) (w : InitConsole) : outcome InitConsole :=
  p ← f (ca_products w);
  let news := drop (length (pp_shown (ca_products w))) (pp_shown p) in
  Ret (on_view (fun v => fold_left (fun v e => console_shown e v) news v) (set_products p w)).

Definition alerts_snapshot (w : InitConsole) : list AlertViewModel :=
  match alertCenter_ (st_presenter (ca_station w)) with Some c => snapshot c | None => [] end.

Definition wireActions : Callbacks InitConsole := mkCallbacks
  (Some (clicked DoStart)) (Some (clicked DoStop)) (Some (clicked DoReset)) (Some (clicked DoCalibrate))
  (Some (fun id enabled => clicked (DoEnable id enabled)))
  (Some (products_do loadProducts)) (Some (fun id => products_do (viewProduct id)))
  (Some (fun k => station_do (AckAlarm k))) (Some alerts_snapshot)
  (Some (fun w => Ret (set_ticking false w))).

(** A line typed or the end of the input; a turn of the tick thread; what the
    backends do to the station. *)
Inductive console_input := Typed (raw : chars) | EndOfInput | Tick (now : Z) | Elsewhere (e : station_event).

Definition console_step (i : console_input) (w : InitConsole) : outcome InitConsole :=
  match i with
  | Typed raw => reader_turn on_view wireActions (exit_ (ca_view w)) (Some raw) w
  | EndOfInput => reader_turn on_view wireActions (exit_ (ca_view w)) None w
  | Tick now => if tickEnabled_ w then station_do (Operate (TickSimulation now)) w else Ret w
  | Elsewhere e => station_do e w
  end.
Fixpoint console_run (l : list console_input) (w : InitConsole) : outcome InitConsole :=
  match l with [] => Ret w | i :: l => w ← console_step i w; console_run l w end.

(** [run] until the view is started: presenters, observers, initialisation,
    demo data. *)
Definition console_start (g : G) (db : Catalogue) : outcome InitConsole :=
  let w := mkInitConsole (station_init me g tr console_id) (mkDash None None false [])
             (ProductsPresenter.mkPresenter db [] false [] None None "" false false None []) console_init true in
  w ← products_do loadProducts w;
  w ← station_do (Operate InitializeDemoData) w;
  Ret (on_view printBanner w).

(** And after [waitForExit]: the view leaves the presenters and the model
    drops its subscribers. *)
Definition console_finish (w : InitConsole) : outcome InitConsole :=
  let w := set_ticking false w in
  w ← station_do (RemoveView console_id) w;
  station_do (Operate ClearCallbacks) w.
End InitConsole.
Arguments InitConsole G : clear implicits.

(* ------------------------------------------------------------------ *)
(** ** What the lines spell *)

(** The verb of a line and its arguments; none for a blank line. *)
Definition verb_of (raw : chars) : option (string * chars) :=
  match console_trim raw with
  | [] => None
  | trimmed => let (head, rest) := split_blank trimmed in Some (lower head, args_of rest)
  end.

Definition line_events (raw : chars) : list station_event :=
  match verb_of raw with
  | None => []
  | Some (verb, args) =>
      if one_of verb ["start"; "s"] then [Operate StartProduction]
      else if one_of verb ["stop"; "p"] then [Operate StopProduction]
      else if one_of verb ["reset"; "r"] then [Operate ResetSystem]
      else if one_of verb ["calibrate"; "c"; "cal"] then [Operate StartCalibration]
      else if one_of verb ["eq"] then
        let (idToken, rest) := split_blank args in
        match from_chars_u32 idToken, parse_flag (lower (args_of rest)) with
        | FcOk id [], Some on => [Operate (SetEquipmentEnabled id on)]
        | _, _ => []
        end
      else if one_of verb ["dismiss"] then match args with [] => [] | _ => [AckAlarm (text_of args)] end
      else []
  end.
Definition closes (raw : chars) : bool := match verb_of raw with Some (verb, _) => one_of verb ["quit"; "exit"; "q"] | None => false end.

(** The events of the station an input stands for, while the view reads
    ([opened]) and the tick thread runs, and what it leaves of the two. *)
Definition input_events (opened ticking : bool) (i : console_input) : list station_event :=
  match i with
  | Typed raw => if opened then line_events raw else []
  | EndOfInput => []
  | Tick now => if ticking then [Operate (TickSimulation now)] else []
  | Elsewhere e => [e]
  end.
Definition after_input (opened ticking : bool) (i : console_input) : bool * bool :=
  match i with
  | Typed raw => if opened then (negb (closes raw), ticking && negb (closes raw)) else (false, ticking)
  | EndOfInput => (false, ticking)
  | _ => (opened, ticking)
  end.
Fixpoint spelled (opened ticking : bool) (l : list console_input) : list station_event :=
  match l with
  | [] => []
  | i :: l => input_events opened ticking i ++ let '(opened, ticking) := after_input opened ticking i in spelled opened ticking l
  end.

(* ------------------------------------------------------------------ *)
(** ** Lemmas: driving the station *)

Section Driving.
Context {G : Type} `{RG : RandomSource G} `{CK : Clock} `{SL : SqlLike}.
Implicit Types w : InitConsole G.

Lemma console_run_app l1 l2 : forall s : Station G, station_run me (l1 ++ l2) s = (s ← station_run me l1 s; station_run me l2 s).
Proof. induction l1 as [|e l1 IH]; intros s; cbn; [reflexivity|]. destruct (station_step me e s); cbn; auto. Qed.

(** The presenter's notifications only grow. *)
Definition grows (p p' : Presenter) : Prop := exists l, shown p' = shown p ++ l.
Lemma grows_refl p p' : shown p' = shown p -> grows p p'.
Proof. intros E. exists []. rewrite app_nil_r. exact E. Qed.
#[local] Instance grows_preorder : PreOrder grows.
Proof. split; [intros p; apply grows_refl; reflexivity|]. intros p1 p2 p3 [l1 E1] [l2 E2]. exists (l1 ++ l2). rewrite E2, E1, app_assoc. reflexivity. Qed.

Lemma notify_grows f p : grows p (notifyAll f p).
Proof. eexists. reflexivity. Qed.
Lemma raise_grows k sev prio cb c p p' : raise_alarm k sev prio cb c p = Ret p' -> grows p p'.
Proof. unfold raise_alarm. destruct (texts _ cb); cbn; [intros [= <-]; apply grows_refl; reflexivity|discriminate..]. Qed.

Lemma handle_grows (m : SimulatedModel G) p d p' : handle m p d = Ret p' -> grows p p'.
Proof.
  destruct d; cbn [handle].
  - unfold handleEquipmentStatusUpdate. intros H. etransitivity; [apply notify_grows|]. revert H. destruct (alertCenter_ _); [|intros [= <-]; reflexivity].
    destruct (_ || _); [apply raise_grows|intros [= <-]; apply grows_refl; reflexivity].
  - unfold handleActuatorStatusUpdate. intros [= <-]. apply notify_grows.
  - unfold handleQualityCheckpointUpdate. destruct (buildQualityCheckpointVM _ _ _) as [vm|e|]; cbn [mbind outcome_bind]; try discriminate. intros H. etransitivity; [apply notify_grows|].
    revert H. destruct (alertCenter_ _); [|intros [= <-]; reflexivity]. destruct (View.qv_status vm); [intros [= <-]; apply grows_refl; reflexivity|apply raise_grows|apply raise_grows].
  - unfold handleNewWorkUnit. intros [= <-]. destruct (alertCenter_ p); (eexists; reflexivity).
  - unfold handleSystemStateChanged. destruct (alertCenter_ p) as [c|].
    + intros H. cbn [mbind outcome_bind] in H. 
      assert (X : forall q, (if bool_decide (s = ERROR) && negb (bool_decide (prevSystemState_ p = ERROR)) then raise_alarm kSystemErrorKey Critical kAlarmPriorityEmergency (FaultTexts (model_lastFaultReason m)) c p
                  else if negb (bool_decide (s = ERROR)) && bool_decide (prevSystemState_ p = ERROR) then Ret (clear_alarm kSystemErrorKey c p) else Ret p) = Ret q -> grows p q).
      { intros q. destruct (_ && _); [apply raise_grows|]. destruct (_ && _); intros [= <-]; apply grows_refl; reflexivity. }
      match type of X with forall q, ?r = Ret q -> _ => destruct r as [q|e|] end; try discriminate. specialize (X q eq_refl). injection H as <-. etransitivity; [exact X|]. eexists. reflexivity.
    + cbn [mbind outcome_bind]. intros [= <-]. eexists. reflexivity.
Qed.
Lemma handle_all_grows (m : SimulatedModel G) l : forall p p', handle_all m l p = Ret p' -> grows p p'.
Proof.
  induction l as [|d l IH]; intros p p'; cbn [handle_all]; [intros [= <-]; reflexivity|]. destruct (handle m p d) as [q|e|] eqn:E; cbn; try discriminate.
  intros H. etransitivity; [exact (handle_grows _ _ _ _ E)|exact (IH _ _ H)].
Qed.
Lemma station_step_grows n e (s s' : Station G) : station_step n e s = Ret s' -> grows (st_presenter s) (st_presenter s').
Proof.
  destruct e; cbn [station_step]; try (intros [= <-]; cbn; unfold center_do; destruct (alertCenter_ _); apply grows_refl; reflexivity).
  - destruct (op_apply o (st_model s)) as [m'|x|]; cbn; try discriminate. destruct (handle_all _ _ _) as [p'|x|] eqn:E; cbn; try discriminate. intros [= <-]. exact (handle_all_grows _ _ _ _ E).
  - intros [= <-]. cbn. unfold addObserver. destruct (decide _); apply grows_refl; reflexivity.
  - intros [= <-]. apply grows_refl. reflexivity.
Qed.

(** What the view remembers, and what the notifications make of it. *)
Definition same_cache (v v' : ConsoleView) : Prop :=
  lastEquipment_ v' = lastEquipment_ v /\ lastQuality_ v' = lastQuality_ v /\ lastControl_ v' = lastControl_ v /\
  lastWorkUnit_ v' = lastWorkUnit_ v /\ lastStatusZone_ v' = lastStatusZone_ v.
Definition replay (l : list View.view_event) (v : ConsoleView) : ConsoleView := fold_left (fun v e => console_event e v) l v.
Lemma same_cache_replay l : forall v v', same_cache v v' -> same_cache (replay l v) (replay l v').
Proof.
  induction l as [|e l IH]; intros v v' H; [exact H|]. apply IH. destruct H as (H1 & H2 & H3 & H4 & H5). destruct e; cbn; destruct (Nat.eqb _ _); repeat split; cbn; congruence.
Qed.
Lemma console_shown_cache l : forall v, same_cache v (fold_left (fun v e => console_shown e v) l v).
Proof. induction l as [|e l IH]; intros v; [repeat split|]. cbn. destruct (IH (console_shown e v)) as (H1 & H2 & H3 & H4 & H5). destruct e; repeat split; assumption. Qed.

(** The view remembers what the presenter told it. *)
Definition mirrored w : Prop := same_cache (replay (shown (st_presenter (ca_station w))) console_init) (ca_view w).

(** The station after a program step. *)
Definition station_of (m : outcome (InitConsole G)) : outcome (Station G) := w ← m; Ret (ca_station w).

(** Nothing but the station and the view changes. *)
Record only_station w w' : Prop := {
  os_roles : ca_roles w' = ca_roles w;
  os_products : ca_products w' = ca_products w;
  os_ticking : tickEnabled_ w' = tickEnabled_ w;
  os_exit : exit_ (ca_view w') = exit_ (ca_view w);
  os_mirrored : mirrored w -> mirrored w';
}.
Lemma only_station_refl w : only_station w w.
Proof. split; auto. Qed.
Lemma only_station_trans w1 w2 w3 : only_station w1 w2 -> only_station w2 w3 -> only_station w1 w3.
Proof. intros [] []. split; auto; congruence. Qed.

Lemma console_event_exit e v : exit_ (console_event e v) = exit_ v.
Proof. destruct e; cbn; destruct (Nat.eqb _ _); reflexivity. Qed.
Lemma console_events_exit l : forall v, exit_ (fold_left (fun v e => console_event e v) l v) = exit_ v.
Proof. induction l as [|e l IH]; intros v; [reflexivity|]. cbn. rewrite IH. apply console_event_exit. Qed.
Lemma console_shown_exit l : forall v, exit_ (fold_left (fun v e => console_shown e v) l v) = exit_ v.
Proof. induction l as [|e l IH]; intros v; [reflexivity|]. cbn. rewrite IH. destruct e; reflexivity. Qed.

Lemma station_do_spec e w : station_of (station_do e w) = station_step me e (ca_station w) /\
  forall w', station_do e w = Ret w' -> only_station w w'.
Proof.
  unfold station_do, station_of. destruct (station_step me e (ca_station w)) as [s|x|] eqn:E; cbn; split; try discriminate; try reflexivity.
  intros w' [= <-]. split; try reflexivity; [cbn; apply console_events_exit|]. unfold mirrored. cbn.
  destruct (station_step_grows _ _ _ _ E) as [l El]. rewrite El, drop_app_length. intros M. unfold replay. rewrite fold_left_app. exact (same_cache_replay l _ _ M).
Qed.
Lemma station_all_spec l : forall w, station_of (station_all l w) = station_run me l (ca_station w) /\
  forall w', station_all l w = Ret w' -> only_station w w'.
Proof.
  induction l as [|e l IH]; intros w; cbn [station_all station_run].
  { split; [reflexivity|]. intros w' [= <-]. apply only_station_refl. }
  destruct (station_do_spec e w) as [E P]. unfold station_of in *. destruct (station_do e w) as [w1|x|]; cbn in *; rewrite <- E; cbn.
  - destruct (IH w1) as [E1 P1]. split; [exact E1|]. intros w' H. exact (only_station_trans _ _ _ (P w1 eq_refl) (P1 w' H)).
  - split; [reflexivity|discriminate].
  - split; [reflexivity|discriminate].
Qed.

(** Without a session every handler passes its call on. *)
Definition unguarded w : Prop := d_session (ca_roles w) = None.
Lemma click_unguarded c d : d_session d = None -> c <> DoInjectFault -> click c d = issue c d.
Proof.
  intros H Hc. destruct d as [s a f i]. cbn in H. subst s. destruct c; try congruence; cbn; unfold guarded, checkRole, emitAudit; cbn; destruct a; reflexivity.
Qed.
Lemma clicked_spec c w : unguarded w -> c <> DoInjectFault ->
  station_of (clicked c w) = station_run me (model_call c) (ca_station w) /\
  forall w', clicked c w = Ret w' -> unguarded w' /\ tickEnabled_ w' = tickEnabled_ w /\ exit_ (ca_view w') = exit_ (ca_view w) /\ ca_products w' = ca_products w /\
    (mirrored w -> mirrored w').
Proof.
  intros Hu Hc. unfold clicked. rewrite (click_unguarded _ _ Hu Hc). cbn [issue issued]. rewrite drop_app_length. cbn [map concat]. rewrite app_nil_r.
  destruct (station_all_spec (model_call c) (set_roles (issue c (ca_roles w)) w)) as [E P]. split; [exact E|].
  intros w' H. destruct (P w' H) as [Hr Hp Ht He Hm]. split; [|split; [exact Ht|split; [exact He|split; [exact Hp|exact Hm]]]]. unfold unguarded. rewrite Hr. exact Hu.
Qed.
End Driving.

(* ------------------------------------------------------------------ *)
(** ** Lemmas: commands *)

Section Commands.
Context {G : Type} `{RG : RandomSource G} `{CK : Clock} `{SL : SqlLike}.
Implicit Types w : InitConsole G.

Lemma products_load (p : ProductsPresenter (SimulatedModel G)) : exists p', loadProducts p = Ret p' /\ only_select (pp_db p) (pp_db p') /\ pp_session p' = pp_session p /\ pp_audit p' = pp_audit p.
Proof.
  unfold loadProducts, buildProductsViewModel. cbn [currentSearchQuery_ set_query pp_db]. rewrite bool_decide_eq_true_2 by reflexivity.
  pose proof (getAll_only (pp_db p)) as H. unfold getAllProducts in *. destruct (run_select _ _ (pp_db p)) as [rows db].
  destruct (items_of_rows rows) as [items E]. rewrite E. cbn. eexists. split; [reflexivity|]. split; [exact H|]. split; reflexivity.
Qed.

Lemma products_view id (p : ProductsPresenter (SimulatedModel G)) : exists p', viewProduct id p = Ret p' /\ only_select (pp_db p) (pp_db p') /\ pp_session p' = pp_session p /\ pp_audit p' = pp_audit p.
Proof.
  unfold viewProduct, buildProductDetailViewModel. pose proof (getProduct_only id (pp_db p)) as H.
  unfold getProduct in *. destruct (run_select _ _ (pp_db p)) as [rows db]. cbn [snd] in H. cbn [fst snd].
  destruct rows as [|r rows]; cbn.
  - eexists. split; [reflexivity|]. split; [exact H|]. split; reflexivity.
  - destruct (_ =? _); cbn; (eexists; split; [reflexivity|]; split; [exact H|]; split; reflexivity).
Qed.

(** A step that leaves the station alone. *)
Record only_reads w w' : Prop := {
  or_station : ca_station w' = ca_station w;
  or_roles : ca_roles w' = ca_roles w;
  or_ticking : tickEnabled_ w' = tickEnabled_ w;
  or_exit : exit_ (ca_view w') = exit_ (ca_view w);
  or_products : only_select (pp_db (ca_products w)) (pp_db (ca_products w'));
  or_cache : same_cache (ca_view w) (ca_view w');
}.

Lemma only_reads_view f w : exit_ (f (ca_view w)) = exit_ (ca_view w) -> same_cache (ca_view w) (f (ca_view w)) -> only_reads w (on_view f w).
Proof. intros H C. split; try reflexivity; assumption. Qed.
Lemma same_cache_mirrored w w' : same_cache (ca_view w) (ca_view w') -> ca_station w' = ca_station w -> mirrored w -> mirrored w'.
Proof. intros (H1 & H2 & H3 & H4 & H5) Hs (C1 & C2 & C3 & C4 & C5). unfold mirrored. rewrite Hs. repeat split; congruence. Qed.

Lemma products_do_spec f w : (forall p, exists p', f p = Ret p' /\ only_select (pp_db p) (pp_db p') /\ pp_session p' = pp_session p /\ pp_audit p' = pp_audit p) ->
  exists w', products_do f w = Ret w' /\ only_reads w w'.
Proof.
  intros H. destruct (H (ca_products w)) as (p' & E & Hs & _ & _). unfold products_do. rewrite E. cbn. eexists. split; [reflexivity|].
  split; try reflexivity; [apply console_shown_exit|exact Hs|apply console_shown_cache].
Qed.

(** A result does the given events, or nothing, to the station, and closes the
    view or not. *)
Definition spells (evs : list station_event) (closing : bool) (r : outcome (InitConsole G)) w : Prop :=
  station_of r = station_run me evs (ca_station w) /\
  forall w', r = Ret w' -> unguarded w' /\ exit_ (ca_view w') = exit_ (ca_view w) || closing /\ tickEnabled_ w' = tickEnabled_ w && negb closing /\
    only_select (pp_db (ca_products w)) (pp_db (ca_products w')) /\ (mirrored w -> mirrored w').

Lemma spells_reads r w w' : unguarded w -> r = Ret w' -> only_reads w w' -> spells [] false r w.
Proof.
  intros Hu -> [Hs Hr Ht He Hp Hc]. split; [cbn; rewrite Hs; reflexivity|]. intros w'' [= <-]. rewrite orb_false_r, andb_true_r.
  split; [|split; [exact He|split; [exact Ht|split; [exact Hp|exact (same_cache_mirrored _ _ Hc Hs)]]]]. unfold unguarded. rewrite Hr. exact Hu.
Qed.
Lemma spells_view f w : unguarded w -> exit_ (f (ca_view w)) = exit_ (ca_view w) -> same_cache (ca_view w) (f (ca_view w)) -> spells [] false (Ret (on_view f w)) w.
Proof. intros Hu He Hc. exact (spells_reads _ w _ Hu eq_refl (only_reads_view f w He Hc)). Qed.
Lemma spells_say s w : unguarded w -> spells [] false (say on_view s w) w.
Proof. intros Hu. apply spells_view; [exact Hu|reflexivity|repeat split]. Qed.
Lemma spells_click c w : unguarded w -> c <> DoInjectFault -> spells (model_call c) false (clicked c w) w.
Proof.
  intros Hu Hc. destruct (clicked_spec c w Hu Hc) as [E P]. split; [exact E|]. intros w' H. destruct (P w' H) as (Hu' & Ht & He & Hp & Hm).
  rewrite orb_false_r, andb_true_r, Hp. split; [exact Hu'|]. split; [exact He|]. split; [exact Ht|]. split; [reflexivity|exact Hm].
Qed.
Lemma spells_ack k w : unguarded w -> spells [AckAlarm k] false (station_do (AckAlarm k) w) w.
Proof.
  intros Hu. destruct (station_all_spec [AckAlarm k] w) as [E P]. cbn [station_all] in *.
  assert (X : (w0 ← station_do (AckAlarm k) w; Ret w0) = station_do (AckAlarm k) w) by (destruct (station_do (AckAlarm k) w); reflexivity).
  cbn [mbind outcome_bind] in X. rewrite X in E, P. split; [exact E|]. intros w' H. destruct (P w' H) as [Hr Hp Ht He Hm].
  rewrite orb_false_r, andb_true_r, Hp. split; [unfold unguarded; rewrite Hr; exact Hu|]. split; [exact He|]. split; [exact Ht|]. split; [reflexivity|exact Hm].
Qed.

Lemma spells_eq args w : unguarded w ->
  spells (let (idToken, rest) := split_blank args in
          match from_chars_u32 idToken, parse_flag (lower (args_of rest)) with FcOk id [], Some on => [Operate (SetEquipmentEnabled id on)] | _, _ => [] end)
    false (handleEqCommand on_view wireActions args w) w.
Proof.
  intros Hu. unfold handleEqCommand. destruct args as [|c args]; [apply spells_say, Hu|].
  destruct (split_blank (c :: args)) as [idToken rest]. destruct (from_chars_u32 idToken) as [id [|]| |]; try (apply spells_say, Hu).
  destruct (parse_flag _) as [on|]; [|apply spells_say, Hu]. apply (spells_click (DoEnable id on)); [exact Hu|discriminate].
Qed.

Lemma spells_view_product args w : unguarded w -> spells [] false (handleViewCommand on_view wireActions args w) w.
Proof.
  intros Hu. unfold handleViewCommand. destruct args as [|c args]; [apply spells_say, Hu|].
  destruct (from_chars_int (c :: args)) as [id [|]| |]; try (apply spells_say, Hu). cbn [call_or option_map cbViewProduct_ wireActions].
  destruct (products_do_spec (viewProduct id) w (products_view id)) as (w' & E & H). exact (spells_reads _ w w' Hu E H).
Qed.

Lemma spells_dismiss args w : unguarded w ->
  spells (match args with [] => [] | _ => [AckAlarm (text_of args)] end) false (handleDismissCommand on_view wireActions args w) w.
Proof. intros Hu. destruct args as [|c args]; [apply spells_say, Hu|apply spells_ack, Hu]. Qed.

Lemma spells_products w : unguarded w -> spells [] false (w ← products_do loadProducts w; Ret (on_view printProducts w)) w.
Proof.
  intros Hu. destruct (products_do_spec loadProducts w products_load) as (w' & E & [Hs Hr Ht He Hp Hc]). rewrite E. cbn.
  eapply (spells_reads _ w); [exact Hu|reflexivity|]. split; try assumption.
Qed.

Lemma spells_quit w : unguarded w ->
  spells [] true (Ret (on_view signalExit (set_ticking false (on_view (writeLine "[BYE      ] Shutting down.") w)))) w.
Proof. intros Hu. split; [reflexivity|]. intros w' [= <-]. cbn. rewrite orb_true_r, andb_false_r. repeat split; try apply H; exact Hu. Qed.

Lemma dispatch_spells raw w : unguarded w -> spells (line_events raw) (closes raw) (console_dispatch on_view wireActions raw w) w.
Proof.
  intros Hu. unfold line_events, closes, verb_of, console_dispatch.
  destruct (console_trim raw) as [|c t]; [apply (spells_reads _ w w Hu eq_refl); split; try reflexivity; repeat split|].
  destruct (split_blank (c :: t)) as [head rest]. generalize (lower head) (args_of rest). clear c t head rest. intros verb args.
  unfold one_of. cbn [existsb]. rewrite !orb_false_r.
  repeat match goal with |- context [String.eqb verb ?x] =>
    destruct (String.eqb_spec verb x) as [->|];
    [cbn [String.eqb Ascii.eqb Bool.eqb orb andb negb]; first
      [ apply spells_view; [exact Hu|reflexivity|repeat split] | apply spells_click; [exact Hu|discriminate] | apply spells_eq, Hu | apply spells_view_product, Hu
      | apply spells_dismiss, Hu | exact (spells_products w Hu) | exact (spells_quit w Hu) ]
    |cbn [orb]] end.
  apply spells_say, Hu.
Qed.

(** One input. *)
Lemma step_spells i w : unguarded w -> let opened := negb (exit_ (ca_view w)) in
  station_of (console_step i w) = station_run me (input_events opened (tickEnabled_ w) i) (ca_station w) /\
  forall w', console_step i w = Ret w' -> unguarded w' /\
    after_input opened (tickEnabled_ w) i = (negb (exit_ (ca_view w')), tickEnabled_ w') /\
    only_select (pp_db (ca_products w)) (pp_db (ca_products w')) /\ (mirrored w -> mirrored w').
Proof.
  intros Hu opened. subst opened. assert (HK : forall e, station_of (station_do e w) = station_run me [e] (ca_station w) /\
    forall w', station_do e w = Ret w' -> unguarded w' /\ (negb (exit_ (ca_view w)), tickEnabled_ w) = (negb (exit_ (ca_view w')), tickEnabled_ w') /\
      only_select (pp_db (ca_products w)) (pp_db (ca_products w')) /\ (mirrored w -> mirrored w')).
  { intros e. destruct (station_do_spec e w) as [E P]. split.
    - rewrite E. cbn [station_run]. destruct (station_step me e (ca_station w)); reflexivity.
    - intros w' H. destruct (P w' H) as [Hr Hp Ht He Hm]. rewrite Hp, Ht, He. split; [unfold unguarded; rewrite Hr; exact Hu|]. split; [reflexivity|]. split; [reflexivity|exact Hm]. }
  destruct i as [raw| |now|e]; cbn [console_step reader_turn input_events after_input].
  - destruct (exit_ (ca_view w)) eqn:X; cbn [negb].
    + split; [reflexivity|]. intros w' [= <-]. rewrite X. split; [exact Hu|]. split; [reflexivity|]. split; [reflexivity|auto].
    + destruct (dispatch_spells raw w Hu) as [E P]. split; [exact E|]. intros w' H. destruct (P w' H) as (Hu' & He & Ht & Hp & Hm).
      rewrite X in He. cbn in He. rewrite He, Ht. auto.
  - destruct (exit_ (ca_view w)) eqn:X; cbn [negb]; (split; [reflexivity|]); intros w' [= <-]; cbn; rewrite ?X; (split; [exact Hu|]); (split; [reflexivity|]); (split; [reflexivity|auto]).
  - destruct (tickEnabled_ w) eqn:T; [apply HK|]. split; [reflexivity|]. intros w' [= <-]. rewrite T. split; [exact Hu|]. split; [reflexivity|]. split; [reflexivity|auto].
  - apply HK.
Qed.

Lemma run_spells l : forall w, unguarded w ->
  station_of (console_run l w) = station_run me (spelled (negb (exit_ (ca_view w))) (tickEnabled_ w) l) (ca_station w) /\
  forall w', console_run l w = Ret w' -> unguarded w' /\ only_select (pp_db (ca_products w)) (pp_db (ca_products w')) /\
    (mirrored w -> mirrored w').
Proof.
  induction l as [|i l IH]; intros w Hu; cbn [console_run spelled].
  { split; [reflexivity|]. intros w' [= <-]. split; [exact Hu|]. split; [reflexivity|auto]. }
  destruct (step_spells i w Hu) as [E P]. rewrite console_run_app, <- E. unfold station_of in *. destruct (console_step i w) as [w1|x|]; cbn; try (split; [reflexivity|discriminate]).
  destruct (P w1 eq_refl) as (Hu1 & -> & Hp & Hm). destruct (IH w1 Hu1) as [E1 P1]. cbn in E1. rewrite E1. split; [reflexivity|].
  intros w' H. destruct (P1 w' H) as (H1 & H2 & H3). split; [exact H1|]. split; [etransitivity; eassumption|auto].
Qed.
End Commands.

(* ------------------------------------------------------------------ *)
(** ** Lemmas: what the view remembers *)

Lemma upsert_elem {A} (id : A -> Z) x l : x ∈ upsert id x l.
Proof. induction l as [|y l IH]; cbn; [left|]. destruct (id y =? id x); [left|right; exact IH]. Qed.
Lemma upsert_other {A} (id : A -> Z) x y l : y ∈ l -> id y <> id x -> y ∈ upsert id x l.
Proof.
  induction l as [|z l IH]; intros Hy N; [inversion Hy|]. cbn. apply elem_of_cons in Hy. destruct (Z.eqb_spec (id z) (id x)) as [E|E].
  - destruct Hy as [->|Hy]; [contradiction|right; exact Hy].
  - destruct Hy as [->|Hy]; [left|right; auto].
Qed.
Lemma upsert_keys {A} (id : A -> Z) x l i : i ∈ map id (upsert id x l) -> i = id x \/ i ∈ map id l.
Proof.
  induction l as [|y l IH]; cbn; [intros H; apply list_elem_of_singleton in H; auto|]. destruct (Z.eqb_spec (id y) (id x)) as [E|E]; cbn; rewrite !elem_of_cons; [rewrite E|]; intuition.
Qed.
Lemma upsert_nodup {A} (id : A -> Z) x l : NoDup (map id l) -> NoDup (map id (upsert id x l)).
Proof.
  induction l as [|y l IH]; cbn; intros H; [apply NoDup_singleton|]. apply NoDup_cons in H as [Hy H]. destruct (Z.eqb_spec (id y) (id x)) as [E|E]; cbn.
  - apply NoDup_cons. rewrite <- E. auto.
  - apply NoDup_cons. split; [|auto]. intros Hc. apply upsert_keys in Hc as [Hc|Hc]; [congruence|contradiction].
Qed.

Lemma last_omap_snoc {A B} (f : A -> option B) l e : last (omap f (l ++ [e])) = match f e with Some x => Some x | None => last (omap f l) end.
Proof. rewrite omap_app. cbn. destruct (f e); [apply last_snoc|rewrite app_nil_r; reflexivity]. Qed.

(** The cards, by id, are those last notified. *)
Lemma replay_lines sh : let cards := lastEquipment_ (replay sh console_init) in NoDup (map View.ec_equipmentId cards) /\
  forall id st, line_shown console_id id sh = Some st -> exists card, card ∈ cards /\ View.ec_equipmentId card = id /\ View.ec_status card = st.
Proof.
  induction sh as [|e sh IH] using rev_ind; cbn zeta in *; [split; [constructor|discriminate]|]. unfold replay in *. rewrite fold_left_app. cbn [fold_left].
  destruct IH as [ND IH]. unfold line_shown in *. destruct e as [o vm|o vm|o vm|o vm|o vm]; cbn [console_event];
    try (destruct (Nat.eqb o console_id); (split; [exact ND|]); intros id st; rewrite last_omap_snoc; exact (IH id st)).
  destruct (Nat.eqb_spec o console_id) as [->|No].
  - split; [apply upsert_nodup, ND|]. intros id st. rewrite last_omap_snoc. case_decide as D.
    + intros [= <-]. exists vm. split; [apply upsert_elem|]. split; [apply D|reflexivity].
    + intros H. destruct (IH id st H) as (card & Hc & Hi & Hs). exists card. split; [|auto]. apply upsert_other; [exact Hc|]. intros E. apply D. split; congruence.
  - split; [exact ND|]. intros id st. rewrite last_omap_snoc. rewrite decide_False by (intros [? _]; congruence). apply IH.
Qed.
Lemma replay_checkpoints sh : let cards := lastQuality_ (replay sh console_init) in NoDup (map View.qv_checkpointId cards) /\
  forall id vm, checkpoint_shown console_id id sh = Some vm -> vm ∈ cards /\ View.qv_checkpointId vm = id.
Proof.
  induction sh as [|e sh IH] using rev_ind; cbn zeta in *; [split; [constructor|discriminate]|]. unfold replay in *. rewrite fold_left_app. cbn [fold_left].
  destruct IH as [ND IH]. unfold checkpoint_shown in *. destruct e as [o vm|o vm|o vm|o vm|o vm]; cbn [console_event];
    try (destruct (Nat.eqb o console_id); (split; [exact ND|]); intros id st; rewrite last_omap_snoc; exact (IH id st)).
  destruct (Nat.eqb_spec o console_id) as [->|No].
  - split; [apply upsert_nodup, ND|]. intros id st. rewrite last_omap_snoc. case_decide as D.
    + intros [= <-]. split; [apply upsert_elem|apply D].
    + intros H. destruct (IH id st H) as (Hc & Hi). split; [|exact Hi]. apply upsert_other; [exact Hc|]. intros E. apply D. split; congruence.
  - split; [exact ND|]. intros id st. rewrite last_omap_snoc. rewrite decide_False by (intros [? _]; congruence). apply IH.
Qed.
Lemma replay_panel sh c : panel_shown console_id sh = Some c -> lastControl_ (replay sh console_init) = Some c.
Proof.
  induction sh as [|e sh IH] using rev_ind; [discriminate|]. unfold replay in *. rewrite fold_left_app. cbn [fold_left]. unfold panel_shown in *.
  rewrite last_omap_snoc. destruct e as [o vm|o vm|o vm|o vm|o vm]; cbn [console_event]; try (destruct (Nat.eqb o console_id); exact IH).
  destruct (Nat.eqb_spec o console_id) as [->|No]; [intros [= <-]; reflexivity|]. rewrite decide_False by congruence. exact IH.
Qed.

Lemma replay_work sh f : work_shown console_id sh = Some f ->
  exists vm, lastWorkUnit_ (replay sh console_init) = Some vm /\
    f = (View.wv_workUnitId vm, View.wv_productId vm, View.wv_completedOperations vm, View.wv_totalOperations vm).
Proof.
  induction sh as [|e sh IH] using rev_ind; [discriminate|]. unfold replay in *. rewrite fold_left_app. cbn [fold_left]. unfold work_shown in *.
  rewrite last_omap_snoc. destruct e as [o vm|o vm|o vm|o vm|o vm]; cbn [console_event]; try (destruct (Nat.eqb o console_id); exact IH).
  destruct (Nat.eqb_spec o console_id) as [->|No]; [intros [= <-]; exists vm; split; reflexivity|]. rewrite decide_False by congruence. exact IH.
Qed.

(** No presenter notifies the status zone. *)
Lemma replay_zone sh : lastStatusZone_ (replay sh console_init) = None.
Proof.
  induction sh as [|e sh IH] using rev_ind; [reflexivity|]. unfold replay in *. rewrite fold_left_app. cbn [fold_left].
  destruct e; cbn; destruct (Nat.eqb _ _); exact IH.
Qed.

(** Every card was notified. *)
Lemma upsert_from {A} (id : A -> Z) x y l : y ∈ upsert id x l -> y = x \/ y ∈ l.
Proof.
  induction l as [|z l IH]; cbn; [intros H; apply list_elem_of_singleton in H; auto|].
  destruct (id z =? id x); rewrite !elem_of_cons; tauto.
Qed.
Lemma replay_notified sh :
  (forall c, c ∈ lastEquipment_ (replay sh console_init) -> View.OnEquipmentCard console_id c ∈ sh) /\
  (forall q, q ∈ lastQuality_ (replay sh console_init) -> View.OnQualityView console_id q ∈ sh).
Proof.
  induction sh as [|e sh [IH1 IH2]] using rev_ind; [split; intros x Hx; inversion Hx|]. unfold replay in *. rewrite fold_left_app. cbn [fold_left].
  split; intros x Hx; apply elem_of_app; destruct e as [o vm|o vm|o vm|o vm|o vm]; cbn [console_event] in Hx;
    destruct (Nat.eqb_spec o console_id) as [->|No]; cbn in Hx; auto;
    apply upsert_from in Hx as [->|Hx]; auto; right; left.
Qed.

(** Two with the same key are one. *)
Lemma keyed_unique {A} (id : A -> Z) (l : list A) x y : NoDup (map id l) -> x ∈ l -> y ∈ l -> id x = id y -> x = y.
Proof.
  induction l as [|z l IH]; intros ND Hx Hy E; [inversion Hx|]. cbn in ND. apply NoDup_cons in ND as [Hz ND].
  apply elem_of_cons in Hx as [->|Hx], Hy as [->|Hy]; auto.
  - exfalso. apply Hz. rewrite E. apply (list_elem_of_fmap_2 id), Hy.
  - exfalso. apply Hz. rewrite <- E. apply (list_elem_of_fmap_2 id), Hx.
Qed.

(* ------------------------------------------------------------------ *)
(** ** Lemmas: lines *)

Definition blanks (l : chars) : Prop := Forall (fun c => kWs c = true) l.
(** No blank at either end. *)
Definition tight (l : chars) : Prop := match l, rev l with c :: _, d :: _ => kWs c = false /\ kWs d = false | _, _ => False end.

Lemma span_blanks a l : blanks a -> match l with c :: _ => kWs c = false | [] => True end -> span kWs (a ++ l) = (a, l).
Proof.
  intros Ha Hl. induction a as [|c a IH]; cbn.
  - destruct l as [|c l]; [reflexivity|]. cbn. rewrite Hl. reflexivity.
  - apply Forall_cons in Ha as [Hc Ha]. rewrite Hc, (IH Ha). reflexivity.
Qed.
Lemma trim_tight pre l post : blanks pre -> tight l -> blanks post -> console_trim (pre ++ l ++ post) = l.
Proof.
  intros Hp Hl Hq. unfold console_trim. unfold tight in Hl. destruct l as [|c l]; [contradiction|]. destruct (rev (c :: l)) as [|d r] eqn:E; [contradiction|].
  destruct Hl as [Hc Hd]. rewrite span_blanks by (assumption || exact Hc). rewrite rev_app_distr, E, span_blanks.
  - rewrite <- E, rev_involutive. reflexivity.
  - apply Forall_rev, Hq.
  - exact Hd.
Qed.

Definition no_blank (l : chars) : Prop := Forall (fun c => Ascii.eqb c " " = false) l.
Definition word_chars (l : chars) : Prop := Forall (fun c => kWs c = false) l.

Lemma word_no_blank w : word_chars w -> no_blank w.
Proof. intros F. apply (Forall_impl _ _ _ F). intros c H. destruct (Ascii.eqb_spec c " ") as [->|]; [vm_compute in H; discriminate|reflexivity]. Qed.
Lemma word_tight w : word_chars w -> w <> [] -> tight w.
Proof.
  intros H N. unfold tight. destruct w as [|c w]; [congruence|]. pose proof (Forall_rev H) as R. destruct (rev (c :: w)) as [|d r] eqn:E.
  - apply (f_equal (@rev ascii)) in E. rewrite rev_involutive in E. discriminate.
  - split; [apply Forall_cons in H; apply H|apply Forall_cons in R; apply R].
Qed.
Lemma tight_words w a : word_chars w -> w <> [] -> tight a -> tight (w ++ " "%char :: a).
Proof.
  intros H N T. unfold tight in *. destruct w as [|c w]; [congruence|]. cbn [app].
  change (c :: w ++ " "%char :: a) with ((c :: w) ++ " "%char :: a). rewrite rev_app_distr.
  destruct a as [|x a]; [contradiction|]. change (rev (" "%char :: x :: a)) with (rev (x :: a) ++ [" "%char]).
  destruct (rev (x :: a)) as [|d r]; [contradiction|]. cbn. split; [apply Forall_cons in H; apply H|apply T].
Qed.

Lemma split_word w : no_blank w -> split_blank w = (w, None).
Proof.
  intros H. unfold split_blank. replace (span _ w) with (w, @nil ascii); [reflexivity|]. symmetry. induction w as [|c w IH]; [reflexivity|].
  apply Forall_cons in H as [Hc H]. cbn. rewrite Hc. cbn. rewrite (IH H). reflexivity.
Qed.
Lemma split_words w a : no_blank w -> split_blank (w ++ " "%char :: a) = (w, Some a).
Proof.
  intros H. unfold split_blank. replace (span _ _) with (w, " "%char :: a); [reflexivity|]. symmetry. induction w as [|c w IH]; [reflexivity|].
  apply Forall_cons in H as [Hc H]. cbn. rewrite Hc. cbn. rewrite (IH H). reflexivity.
Qed.
Lemma args_tight a : tight a -> args_of (Some a) = a.
Proof. intros H. unfold args_of. pose proof (trim_tight [] a [] (List.Forall_nil _) H (List.Forall_nil _)) as E. rewrite app_nil_r in E. exact E. Qed.

(** A word, or a word and its arguments, with blanks around. *)
Lemma verb_word pre w post : blanks pre -> blanks post -> word_chars w -> w <> [] -> verb_of (pre ++ w ++ post) = Some (lower w, []).
Proof.
  intros Hp Hq Hw N. unfold verb_of. rewrite trim_tight by (try assumption; apply word_tight; assumption). destruct w as [|c w]; [congruence|].
  rewrite split_word by (apply word_no_blank, Hw). reflexivity.
Qed.
Lemma verb_args pre w a post : blanks pre -> blanks post -> word_chars w -> w <> [] -> tight a ->
  verb_of (pre ++ (w ++ " "%char :: a) ++ post) = Some (lower w, a).
Proof.
  intros Hp Hq Hw N Ha. unfold verb_of. rewrite trim_tight by (try assumption; apply tight_words; assumption). destruct w as [|c w]; [congruence|].
  change ((c :: w) ++ " "%char :: a) with (c :: (w ++ " "%char :: a)). cbv beta iota. change (c :: w ++ " "%char :: a) with ((c :: w) ++ " "%char :: a).
  rewrite split_words by (apply word_no_blank, Hw). rewrite args_tight by exact Ha. reflexivity.
Qed.

Definition command_verbs : list (string * dash_command) :=
  [("start", DoStart); ("s", DoStart); ("stop", DoStop); ("p", DoStop); ("reset", DoReset); ("r", DoReset);
   ("calibrate", DoCalibrate); ("c", DoCalibrate); ("cal", DoCalibrate)].
Definition on_word (on : bool) : string := if on then "on" else "off".

Lemma spelled_verb pre w post c : blanks pre -> blanks post -> word_chars w -> (lower w, c) ∈ command_verbs -> line_events (pre ++ w ++ post) = model_call c.
Proof.
  intros Hp Hq Hw Hc.
  assert (N : w <> []) by (intros ->; revert Hc; apply (bool_decide_unpack (_ ∉ _)); destruct c; exact I).
  unfold line_events. rewrite verb_word by assumption. unfold command_verbs in Hc.
  repeat (apply elem_of_cons in Hc as [Hc|Hc]; [injection Hc as E ->; rewrite E; reflexivity|]). inversion Hc.
Qed.

Lemma digits_word id : 0 <= id -> word_chars (chars_of (to_string id)) /\ chars_of (to_string id) <> [].
Proof.
  intros H. unfold to_string. destruct (pretty_digits id H) as (ds & -> & Hd & _ & Hne & _). split; [|exact Hne]. apply (Forall_impl _ _ _ Hd).
  intros c Hc. unfold isdigit in Hc. unfold kWs. lia.
Qed.

Lemma lower_nonempty w s : lower w = s -> s <> "" -> w <> [].
Proof. intros <- N ->. contradiction. Qed.

Lemma spelled_eq pre w post id on : blanks pre -> blanks post -> word_chars w -> lower w = "eq" -> is_u32 id ->
  line_events (pre ++ (w ++ " "%char :: chars_of (to_string id) ++ " "%char :: chars_of (on_word on)) ++ post) = [Operate (SetEquipmentEnabled id on)].
Proof.
  intros Hp Hq Hv Hl Hid. destruct (digits_word id ltac:(unfold is_u32 in Hid; lia)) as [Hw Hn].
  assert (Ho : tight (chars_of (on_word on))) by (destruct on; vm_compute; auto).
  unfold line_events. rewrite verb_args; try assumption; [|apply (lower_nonempty w _ Hl); discriminate|apply tight_words; assumption].
  rewrite Hl. cbn [one_of existsb String.eqb Ascii.eqb Bool.eqb orb].
  rewrite split_words by (apply word_no_blank, Hw). rewrite args_tight by exact Ho. rewrite from_chars_u32_text by exact Hid. destruct on; reflexivity.
Qed.

Lemma spelled_dismiss pre w post k : blanks pre -> blanks post -> word_chars w -> lower w = "dismiss" -> tight k ->
  line_events (pre ++ (w ++ " "%char :: k) ++ post) = [AckAlarm (text_of k)].
Proof.
  intros Hp Hq Hv Hl Hk. unfold line_events. rewrite verb_args; try assumption; [|apply (lower_nonempty w _ Hl); discriminate].
  rewrite Hl. cbn [one_of existsb String.eqb Ascii.eqb Bool.eqb orb]. destruct k; [contradiction|reflexivity].
Qed.

(* ------------------------------------------------------------------ *)
(** ** Properties *)

Section Properties.
Context {G : Type} `{RG : RandomSource G} `{CK : Clock} `{SL : SqlLike}.
Implicit Types w : InitConsole G.

(** The program has started: the station is loaded, the view reads, the tick
    thread runs and the role gate has no session. *)
Lemma console_started tr (g : G) db : catalogue_ok tr ->
  exists w0, console_start tr g db = Ret w0 /\ station_run me [Operate InitializeDemoData] (station_init me g tr console_id) = Ret (ca_station w0) /\
    unguarded w0 /\ exit_ (ca_view w0) = false /\ tickEnabled_ w0 = true /\ only_select db (pp_db (ca_products w0)) /\ mirrored w0.
Proof.
  intros Htr. destruct (station_started me g tr console_id Htr) as (s0 & E0 & _). unfold console_start.
  set (w := mkInitConsole _ _ _ _ _). destruct (products_do_spec loadProducts w products_load) as (w1 & E1 & [Hs Hr Ht He Hp Hc]). rewrite E1. cbn [mbind outcome_bind].
  destruct (station_do_spec (Operate InitializeDemoData) w1) as [Ed P]. rewrite Hs in Ed. cbn [ca_station w] in Ed. rewrite E0 in Ed. unfold station_of in Ed.
  destruct (station_do _ w1) as [w2|x|]; cbn in Ed; try discriminate. injection Ed as Ed. destruct (P w2 eq_refl) as [Hr2 Hp2 Ht2 He2 Hm2].
  cbn [mbind outcome_bind]. eexists. split; [reflexivity|]. cbn [station_run]. rewrite E0. cbn [mbind outcome_bind].
  split; [cbn; rewrite Ed; reflexivity|]. split; [unfold unguarded; cbn; rewrite Hr2, Hr; reflexivity|]. split; [cbn; rewrite He2, He; reflexivity|].
  split; [cbn; rewrite Ht2, Ht; reflexivity|]. split; [cbn; rewrite Hp2; exact Hp|].
  apply (same_cache_mirrored w2); [repeat split|reflexivity|]. apply Hm2, (same_cache_mirrored w); [exact Hc|exact Hs|repeat split].
Qed.

(** C32: The console is one more operator. Whatever is typed, in whatever order
    with ticks and with what the backends do, the station goes through exactly
    the events the lines spell, up to the first quit or the end of the input,
    and the ticks until quit; every other line changes neither station nor
    tables, and an exception of the model is the only one. A command is
    spelled by its words in any case with any blanks around. *)
Theorem console_drives_station tr (g : G) (db : Catalogue) : catalogue_ok tr ->
  (exists w0, console_start tr g db = Ret w0 /\ forall inputs,
     station_of (console_run inputs w0) = station_run me (Operate InitializeDemoData :: spelled true true inputs) (station_init me g tr console_id) /\
     forall w, console_run inputs w0 = Ret w -> only_select db (pp_db (ca_products w))) /\
  (forall pre post word, blanks pre -> blanks post -> word_chars word ->
     (forall c, (lower word, c) ∈ command_verbs -> line_events (pre ++ word ++ post) = model_call c) /\
     (lower word = "eq" -> forall id on, is_u32 id ->
        line_events (pre ++ (word ++ " "%char :: chars_of (to_string id) ++ " "%char :: chars_of (on_word on)) ++ post) = [Operate (SetEquipmentEnabled id on)]) /\
     (lower word = "dismiss" -> forall k, tight k -> line_events (pre ++ (word ++ " "%char :: k) ++ post) = [AckAlarm (text_of k)])).
Proof.
  intros Htr. split.
  - destruct (console_started tr g db Htr) as (w0 & E & Es & Hu & He & Ht & Hp & _). exists w0. split; [exact E|]. intros inputs.
    destruct (run_spells inputs w0 Hu) as [E1 P]. rewrite He, Ht in E1. rewrite E1.
    change (Operate InitializeDemoData :: spelled true true inputs) with ([Operate InitializeDemoData] ++ spelled true true inputs). rewrite console_run_app, Es.
    split; [reflexivity|]. intros w H. destruct (P w H) as (_ & H2 & _). etransitivity; [exact Hp|exact H2].
  - intros pre post word Hp Hq Hw. split; [intros c; apply spelled_verb; assumption|]. split.
    + intros Hl id on Hid. apply spelled_eq; assumption.
    + intros Hl k Hk. apply spelled_dismiss; assumption.
Qed.

(** The view's cards are those of the plant, and only those. *)
Lemma cards_of_plant n (s : Station G) : model_ok n (st_model s) -> plant (st_model s) -> follows console_id (st_model s) (st_presenter s) ->
  let cards := lastEquipment_ (replay (shown (st_presenter s)) console_init) in
  NoDup (map View.ec_equipmentId cards) /\
  (forall id e, sm_get id (equipmentStatuses_ (st_model s)) = Some e -> exists lang, buildEquipmentVM lang id (eq_status e) ∈ cards) /\
  (forall card, card ∈ cards -> exists id e lang,
     sm_get id (equipmentStatuses_ (st_model s)) = Some e /\ card = buildEquipmentVM lang id (eq_status e)).
Proof.
  intros H P [_ _ Fl _ _ _ Gn]. destruct (replay_lines (shown (st_presenter s))) as [ND R]. destruct (replay_notified (shown (st_presenter s))) as [NT _].
  cbv zeta in *. set (cards := lastEquipment_ _) in *.
  assert (K : forall card, card ∈ cards -> exists id e lang,
     sm_get id (equipmentStatuses_ (st_model s)) = Some e /\ card = buildEquipmentVM lang id (eq_status e)).
  { intros c Hc. pose proof (proj1 (Forall_forall _ _) Gn _ (NT c Hc)) as (lang & id & st & Hid & Ec).
    destruct (keys_get id _ _ (mo_equipment _ _ H) (pl_lines _ P)) as [e He]; [rewrite !elem_of_cons; lia|].
    destruct (R id _ (proj2 (Fl id e He))) as (c' & Hc' & Hi & Hs).
    assert (c = c') as <-.
    { apply (keyed_unique View.ec_equipmentId cards); auto. rewrite Hi, Ec. apply equipment_vm_fields. }
    exists id, e, lang. split; [exact He|]. rewrite Ec. apply line_status_card. rewrite <- Hs, Ec. symmetry. apply equipment_vm_fields. }
  split; [exact ND|]. split; [|exact K]. intros id e He. destruct (R id _ (proj2 (Fl id e He))) as (c & Hc & Hi & Hs).
  destruct (K c Hc) as (id' & e' & lang & He' & ->). exists lang. rewrite (proj1 (equipment_vm_fields lang id' (eq_status e'))) in Hi. subst id'.
  rewrite He in He'. injection He' as <-. exact Hc.
Qed.

Lemma checkpoints_of_plant n (s : Station G) : model_ok n (st_model s) -> plant (st_model s) -> follows console_id (st_model s) (st_presenter s) ->
  let cards := lastQuality_ (replay (shown (st_presenter s)) console_init) in
  NoDup (map View.qv_checkpointId cards) /\
  forall vm, vm ∈ cards <-> exists id c, sm_get id (qualityCheckpoints_ (st_model s)) = Some c /\ vm = quality_card c.
Proof.
  intros H P [_ _ _ _ Fc _ Gn]. destruct (replay_checkpoints (shown (st_presenter s))) as [ND R]. destruct (replay_notified (shown (st_presenter s))) as [_ NT].
  cbv zeta in *. set (cards := lastQuality_ _) in *. split; [exact ND|]. intros vm. split.
  - intros Hv. pose proof (proj1 (Forall_forall _ _) Gn _ (NT vm Hv)) as Hid. cbn in Hid.
    destruct (keys_get (View.qv_checkpointId vm) _ _ (mo_quality _ _ H) (pl_checkpoints _ P)) as [c Hc]; [rewrite !elem_of_cons; lia|].
    exists (View.qv_checkpointId vm), c. split; [exact Hc|]. destruct (R _ _ (proj2 (Fc _ c Hc))) as [Hq Hi].
    apply (keyed_unique View.qv_checkpointId cards); auto.
  - intros (id & c & Hc & ->). exact (proj1 (R _ _ (proj2 (Fc id c Hc)))).
Qed.

(** C18: What status prints is the plant as it is. As long as what is typed and
    done elsewhere stays on the plant ([event_ok]: lines 0 to 2, nobody drops
    the model's subscriptions, clears all alarms, takes the console's view
    away or loads a catalogue whose texts do not format; fewer than 700
    million events), nothing throws, and at any time a status line prints,
    between its first and last line: the present work unit; for every
    equipment line exactly one entry, the card of its present status (in the
    language it was shown in), and no other entries; for every checkpoint
    exactly one, with its present values, and no others; and the commands the
    present state admits. It changes nothing. *)
Theorem console_status_current tr (g : G) (db : Catalogue) inputs raw args :
  catalogue_ok tr -> Forall (event_ok console_id) (spelled true true inputs) -> Z.of_nat (length (spelled true true inputs)) < 700000000 ->
  verb_of raw = Some ("status", args) ->
  exists w0 w, console_start tr g db = Ret w0 /\ console_run inputs w0 = Ret w /\ (exit_ (ca_view w) = false ->
    exists w', console_step (Typed raw) w = Ret w' /\ ca_station w' = ca_station w /\ ca_products w' = ca_products w /\
    let m := st_model (ca_station w) in
    exists cards checkpoints, out_ (ca_view w') =
        out_ (ca_view w) ++ [line "--- STATUS ---"] ++ [workunit_text (buildWorkUnitVM m)] ++ map equipment_text cards ++ map quality_text checkpoints ++
          [control_text (buildControlPanelVM (getState m))] ++ [line "--- END ---"] /\
      NoDup (map View.ec_equipmentId cards) /\ NoDup (map View.qv_checkpointId checkpoints) /\
      (forall id e, sm_get id (equipmentStatuses_ m) = Some e -> exists lang, buildEquipmentVM lang id (eq_status e) ∈ cards) /\
      (forall card, card ∈ cards -> exists id e lang, sm_get id (equipmentStatuses_ m) = Some e /\ card = buildEquipmentVM lang id (eq_status e)) /\
      (forall vm, vm ∈ checkpoints <-> exists id c, sm_get id (qualityCheckpoints_ m) = Some c /\ vm = quality_card c)).
Proof.
  intros Htr Hl Hlen Hv. destruct (console_started tr g db Htr) as (w0 & E & Es & Hu & He & Ht & Hp & Hm).
  destruct (run_spells inputs w0 Hu) as [E1 P]. rewrite He, Ht in E1. destruct (station_runs me g tr console_id _ Htr Hl Hlen) as (s & Er & [n Hn] & Pl & F & [Sh Sw]).
  change (Operate InitializeDemoData :: spelled true true inputs) with ([Operate InitializeDemoData] ++ spelled true true inputs) in Er. rewrite console_run_app, Es in Er.
  cbn [mbind outcome_bind] in Er. cbn [negb] in E1. rewrite Er in E1. unfold station_of in E1. destruct (console_run inputs w0) as [w|x|] eqn:Ew; try discriminate. injection E1 as E1.
  exists w0, w. split; [exact E|]. split; [exact Ew|]. intros Hx. destruct (P w eq_refl) as (_ & _ & Hmw). destruct (Hmw Hm) as (C1 & C2 & C3 & C4 & C5).
  exists (on_view printStatus w). split; [|split; [reflexivity|split; [reflexivity|]]].
  - cbn [console_step]. rewrite Hx. cbn [reader_turn]. unfold verb_of in Hv. unfold console_dispatch. destruct (console_trim raw) as [|c t]; [discriminate|].
    destruct (split_blank (c :: t)) as [head rest]. injection Hv as E0 _. rewrite E0. reflexivity.
  - cbv zeta. rewrite E1 in *. destruct (cards_of_plant n s Hn Pl F) as (N1 & R1 & K1). destruct (checkpoints_of_plant n s Hn Pl F) as (N2 & R2).
    pose proof (replay_panel (shown (st_presenter s)) _ Sh) as R3. destruct (replay_work _ _ Sw) as (vm & R4 & Ef).
    pose proof (replay_zone (shown (st_presenter s))) as R5. rewrite <- C1 in N1, R1, K1. rewrite <- C2 in N2, R2. rewrite <- C3 in R3. rewrite <- C4 in R4. rewrite <- C5 in R5.
    exists (lastEquipment_ (ca_view w)), (lastQuality_ (ca_view w)).
    split; [|split; [exact N1|split; [exact N2|split; [exact R1|split; [exact K1|exact R2]]]]].
    assert (W : workunit_text vm = workunit_text (buildWorkUnitVM (st_model s)))
      by (unfold work_fields in Ef; injection Ef as F1 F2 F3 F4; unfold workunit_text; cbn; unfold getWorkUnit; congruence).
    change (out_ (ca_view w) ++ ([line "--- STATUS ---"] ++ optional workunit_text (lastWorkUnit_ (ca_view w)) ++ optional zone_text (lastStatusZone_ (ca_view w)) ++
      map equipment_text (lastEquipment_ (ca_view w)) ++ map quality_text (lastQuality_ (ca_view w)) ++ optional control_text (lastControl_ (ca_view w)) ++
      [line "--- END ---"]) = out_ (ca_view w) ++ [line "--- STATUS ---"] ++ [workunit_text (buildWorkUnitVM (st_model s))] ++
      map equipment_text (lastEquipment_ (ca_view w)) ++ map quality_text (lastQuality_ (ca_view w)) ++
      [control_text (buildControlPanelVM (getState (st_model s)))] ++ [line "--- END ---"]).
    rewrite R3, R4, R5. cbn [optional app]. rewrite W. reflexivity.
Qed.
End Properties.

(* ------------------------------------------------------------------ *)
(** ** Witnesses *)

#[local] Instance NoLike : SqlLike := {| like _ _ := false |}.
Definition typed (s : string) : console_input := Typed (chars_of s).
Definition demo_inputs : list console_input :=
  [typed "  START "; Tick 1; typed "eq 1 off"; Elsewhere (Operate (SetQualityPassRate 0 (f32_of_Z 88))); typed "dismiss quality-0"; typed "eq 9"; typed "products"].

Lemma demo_spelled : spelled true true demo_inputs =
  [Operate StartProduction; Operate (TickSimulation 1); Operate (SetEquipmentEnabled 1 false); Operate (SetQualityPassRate 0 (f32_of_Z 88)); AckAlarm "quality-0"].
Proof. vm_compute. reflexivity. Qed.

Lemma console_drives_station_witness :
  (exists w0, console_start (G := unit) Datatypes.id tt (resting no_tables) = Ret w0 /\ forall inputs,
     station_of (console_run inputs w0) = station_run me (Operate InitializeDemoData :: spelled true true inputs) (station_init me tt Datatypes.id console_id)) /\
  line_events (chars_of " Reset ") = [Operate ResetSystem].
Proof.
  destruct (console_drives_station (G := unit) Datatypes.id tt (resting no_tables) source_texts_ok) as [(w0 & E & H) L]. split.
  - exists w0. split; [exact E|]. intros inputs. apply H.
  - apply (proj1 (L [" "%char] [" "%char] (chars_of "Reset") ltac:(repeat constructor) ltac:(repeat constructor) ltac:(repeat constructor)) DoReset).
    apply (bool_decide_unpack _). vm_compute. exact I.
Defined.

Lemma console_status_current_witness :
  exists w0 w, console_start (G := unit) Datatypes.id tt (resting no_tables) = Ret w0 /\ console_run demo_inputs w0 = Ret w /\
    (exit_ (ca_view w) = false -> exists w', console_step (typed "status") w = Ret w' /\ ca_station w' = ca_station w).
Proof.
  destruct (console_status_current (G := unit) Datatypes.id tt (resting no_tables) demo_inputs (chars_of "status") [] source_texts_ok) as (w0 & w & E & Er & H).
  - rewrite demo_spelled. repeat (apply Forall_cons; split; [first [exact I|cbn; unfold is_u32; lia]|]). apply Forall_nil. exact I.
  - rewrite demo_spelled. cbn. lia.
  - reflexivity.
  - exists w0, w. split; [exact E|]. split; [exact Er|]. intros Hx. destruct (H Hx) as (w' & Es & Hs & _). exists w'. split; [exact Es|exact Hs].
Defined.

(** A session of the console, as it reads. *)
Example console_session :
  match console_start (G := unit) Datatypes.id tt (resting no_tables) with
  | Ret w => match console_run [typed "eq 1 off"; typed "frob"; typed "alerts"; typed "quit"; typed "start"] w with
             | Ret w' => Some (drop (length (out_ (ca_view w))) (out_ (ca_view w')), exit_ (ca_view w'))
             | _ => None
             end
  | _ => None
  end = Some ([line "[EQUIPMENT] id=1 status=OFFLINE enabled=false"; line "[ERROR    ] Unknown command: 'frob'. Type 'help'.";
               line "--- ALERTS ---"; line "  [WARNING/UNACK] key=equipment-2 Equipment 2 offline at 12:00:00"; line "        Line unavailable for production.";
               line "  [WARNING/UNACK] key=quality-2 Final Inspection below target at 12:00:00"; line "        Pass rate 93.0% (target 95%)";
               line "  [WARNING/UNACK] key=equipment-1 Equipment 1 offline at 12:00:00"; line "        Line unavailable for production.";
               line "--- END ---"; line "[BYE      ] Shutting down."], true).
Proof. vm_compute. reflexivity. Qed.
