(* ===== verification/Preprocessor.v ===== *)
(** * The ImageNet preprocessor (ml/ImageNetPreprocessor.cpp)

    An image is resized by bilinear interpolation, cropped and normalised
    into the tensor the network takes. Subscripts of vectors, conversions of
    floating values to integers and [int] sums are undefined where C++ leaves
    them so; the theorems show that no image of a tolerable aspect ratio
    reaches them, and say what every entry of the tensor is. Memory
    exhaustion is not modelled. *)
From Stdlib Require Import SpecFloat.
From S2P Require Import Prelude Float32 Float64 FloatBounds.

(* ------------------------------------------------------------------ *)
(** ** Loops and vectors indexed by integers *)

(** [for (int i = 0; i < n; ++i)]. *)
Fixpoint for_upto {S} (n : nat) (body : Z -> S -> outcome S) (s : S) : outcome S :=
  match n with
  | O => Ret s
  | Datatypes.S n => s' ← for_upto n body s; body (Z.of_nat n) s'
  end.

(** [v[i]], with an index that may be any [size_t]. *)
Definition vec_at {A} (l : list A) (i : Z) : outcome A :=
  if i <? Z.of_nat (length l) then vec_get l (Z.to_nat i) else Undef.

Definition vec_put {A} (l : list A) (i : Z) (x : A) : outcome (list A) :=
  if i <? Z.of_nat (length l) then vec_set l (Z.to_nat i) x else Undef.

(** [std::array::at]. *)
Definition array_at {A} (l : list A) (i : Z) : outcome A :=
  if i <? Z.of_nat (length l) then vec_get l (Z.to_nat i) else Throw out_of_range.

(** A sum of [int]s. *)
Definition int_result (z : Z) : outcome Z := if (int_min <=? z) && (z <=? int_max) then Ret z else Undef.

(** [static_cast<std::uint8_t>(a)]. *)
Definition f32_to_u8 (a : float32) : outcome Z :=
  match f32_trunc a with
  | Some z => if (0 <=? z) && (z <=? 255) then Ret z else Undef
  | None => Undef
  end.

(** The integer nearest below, and the nearest one with halves away from
    zero: [std::floor] and [std::round]. *)
Definition f32_floor (a : float32) : float32 :=
  match a with
  | S754_finite s m e => if 0 <=? e then a else f32_of_Z ((if s then - Z.pos m else Z.pos m) / 2 ^ (- e))
  | _ => a
  end.

Definition f32_round (a : float32) : float32 :=
  match a with
  | S754_finite s m e =>
      if 0 <=? e then a
      else let mag := (2 * Z.pos m + 2 ^ (- e)) / 2 ^ (1 - e) in
           if mag =? 0 then S754_zero s else f32_of_Z (if s then - mag else mag)
  | _ => a
  end.

(* ------------------------------------------------------------------ *)
(** ** Data *)

Record Image := {
  width : Z;
  height : Z;
  channels : Z;
  pixels : list Z }.

Definition kResizeShortEdge : Z := 256.
Definition kCropSize : Z := 224.
Definition kChannels : Z := 3.
Definition kBatchSize : Z := 1.
Definition kPixelScaleMax : float32 := f32_of_Z 255.
Definition kImageNetMean : list float32 := [f32_lit 485 3; f32_lit 456 3; f32_lit 406 3].
Definition kImageNetStd : list float32 := [f32_lit 229 3; f32_lit 224 3; f32_lit 225 3].

(** [0.5F] and [1.0F]. *)
Definition half : float32 := f32_lit 5 1.
Definition one : float32 := f32_of_Z 1.

(* ------------------------------------------------------------------ *)
(** ** The resize *)

(** [pixelIndex], in [size_t]. *)
Definition pixelIndex (x y c w : Z) : Z :=
  u64 (u64 (u64 (u64 (u64 y * u64 w) + u64 x) * u64 kChannels) + u64 c).

Definition clampToAxis (value axisLength : Z) : Z :=
  if value <? 0 then 0 else if axisLength <=? value then axisLength - 1 else value.

(** The two source coordinates around destination coordinate [o] of an axis
    and the weight of the second: the same statements for rows and for
    columns. *)
Definition sampleAxis (o : Z) (ratio : float32) (axisLength : Z) : outcome (Z * Z * float32) :=
  let s := f32_sub (f32_mul (f32_add (f32_of_Z o) half) ratio) half in
  raw ← f32_to_int (f32_floor s);
  let c0 := clampToAxis raw axisLength in
  next ← int_result (raw + 1);
  let c1 := clampToAxis next axisLength in
  let d := f32_sub s (f32_of_Z raw) in
  Ret (c0, c1, d).

Definition interpolate (src : Image) (x0 x1 y0 y1 : Z) (dx dy : float32) (c : Z) : outcome Z :=
  p00 ← vec_at (pixels src) (pixelIndex x0 y0 c (width src));
  p10 ← vec_at (pixels src) (pixelIndex x1 y0 c (width src));
  p01 ← vec_at (pixels src) (pixelIndex x0 y1 c (width src));
  p11 ← vec_at (pixels src) (pixelIndex x1 y1 c (width src));
  let top := f32_add (f32_mul (f32_of_Z p00) (f32_sub one dx)) (f32_mul (f32_of_Z p10) dx) in
  let bot := f32_add (f32_mul (f32_of_Z p01) (f32_sub one dx)) (f32_mul (f32_of_Z p11) dx) in
  let out := f32_add (f32_mul top (f32_sub one dy)) (f32_mul bot dy) in
  f32_to_u8 (f32_clamp out (f32_of_Z 0) kPixelScaleMax).

Definition bilinearResize (src : Image) (dstWidth dstHeight : Z) : outcome (list Z) :=
  let dst := replicate (Z.to_nat (u64 (u64 (u64 dstWidth * u64 dstHeight) * u64 kChannels))) 0 in
  let xRatio := f32_div (f32_of_Z (width src)) (f32_of_Z dstWidth) in
  let yRatio := f32_div (f32_of_Z (height src)) (f32_of_Z dstHeight) in
  for_upto (Z.to_nat dstHeight) (fun yo dst =>
    '(y0, y1, dy) ← sampleAxis yo yRatio (height src);
    for_upto (Z.to_nat dstWidth) (fun xo dst =>
      '(x0, x1, dx) ← sampleAxis xo xRatio (width src);
      for_upto (Z.to_nat kChannels) (fun c dst =>
        out ← interpolate src x0 x1 y0 y1 dx dy c;
        vec_put dst (pixelIndex xo yo c dstWidth) out) dst) dst) dst.

(** [ResizedDimensions]: width and height. *)
Definition computeResizedDimensions (srcWidth srcHeight : Z) : outcome (Z * Z) :=
  if (srcWidth <=? 0) || (srcHeight <=? 0) then Throw invalid_argument
  else if srcWidth <? srcHeight then
    let scale := f32_div (f32_of_Z kResizeShortEdge) (f32_of_Z srcWidth) in
    h ← f32_to_int (f32_round (f32_mul (f32_of_Z srcHeight) scale));
    Ret (kResizeShortEdge, h)
  else
    let scale := f32_div (f32_of_Z kResizeShortEdge) (f32_of_Z srcHeight) in
    w ← f32_to_int (f32_round (f32_mul (f32_of_Z srcWidth) scale));
    Ret (w, kResizeShortEdge).

(* ------------------------------------------------------------------ *)
(** ** The tensor *)

(** The entry for one channel value. *)
Definition normalise (raw c : Z) : outcome float32 :=
  let scaled := f32_div (f32_of_Z raw) kPixelScaleMax in
  mean ← array_at kImageNetMean c;
  std ← array_at kImageNetStd c;
  Ret (f32_div (f32_sub scaled mean) std).

Definition apply (image : Image) : outcome (list float32) :=
  if bool_decide (pixels image = []) then Throw invalid_argument
  else if negb (channels image =? kChannels) then Throw invalid_argument
  else if negb (Z.of_nat (length (pixels image)) =? u64 (u64 (u64 (width image) * u64 (height image)) * u64 (channels image)))
  then Throw invalid_argument
  else
    '(rw, rh) ← computeResizedDimensions (width image) (height image);
    resizedPixels ← bilinearResize image rw rh;
    let cropOriginX := Z.quot (rw - kCropSize) 2 in
    let cropOriginY := Z.quot (rh - kCropSize) 2 in
    let tensor := replicate (Z.to_nat (kBatchSize * kChannels * kCropSize * kCropSize)) (S754_zero false) in
    let planeSize := kCropSize * kCropSize in
    for_upto (Z.to_nat kCropSize) (fun y tensor =>
      for_upto (Z.to_nat kCropSize) (fun x tensor =>
        let srcX := cropOriginX + x in
        let srcY := cropOriginY + y in
        for_upto (Z.to_nat kChannels) (fun c tensor =>
          raw ← vec_at resizedPixels (pixelIndex srcX srcY c rw);
          normalised ← normalise raw c;
          let outIndex := c * planeSize + y * kCropSize + x in
          vec_put tensor outIndex normalised) tensor) tensor) tensor.

Definition outputShape : list Z := [kBatchSize; kChannels; kCropSize; kCropSize].
Definition name : string := "ImageNet".

Example resized_wide : computeResizedDimensions 640 480 = Ret (341, 256).
Proof. vm_compute. reflexivity. Qed.
Example resized_extreme : computeResizedDimensions 1 16777216 = Undef.
Proof. vm_compute. reflexivity. Qed.
Example sample_first : sampleAxis 0 (f32_div (f32_of_Z 640) (f32_of_Z 341)) 640 = Ret (0, 1, f32_sub (f32_mul half (f32_div (f32_of_Z 640) (f32_of_Z 341))) half).
Proof. vm_compute. reflexivity. Qed.

(* ------------------------------------------------------------------ *)
(** ** Conversions to integers *)

Lemma floor_value a : f32_finite a -> Z.abs (f32_units a) < 2 ^ 30 * 2 ^ 149 ->
  exists z, f32_to_int (f32_floor a) = Ret z /\ z * 2 ^ 149 <= f32_units a < (z + 1) * 2 ^ 149.
Proof.
  intros F B. destruct a as [s|s| |s m e]; try contradiction.
  { exists 0. split; [reflexivity|cbn [f32_units]; lia]. }
  cbn [f32_finite] in F. cbn [f32_floor f32_units] in *. set (sm := if s then - Z.pos m else Z.pos m).
  replace ((if s then -1 else 1) * (Z.pos m * 2 ^ (e + 149))) with (sm * 2 ^ (e + 149)) in * by (unfold sm; destruct s; lia).
  assert (Habs : Z.abs sm = Z.pos m) by (unfold sm; destruct s; lia).
  assert (K : forall z a', f32_trunc a' = Some z -> z * 2 ^ 149 <= sm * 2 ^ (e + 149) < (z + 1) * 2 ^ 149 ->
    exists z, f32_to_int a' = Ret z /\ z * 2 ^ 149 <= sm * 2 ^ (e + 149) < (z + 1) * 2 ^ 149).
  { intros z a' Ez Hz. exists z. split; [|exact Hz]. unfold f32_to_int. rewrite Ez.
    replace ((int_min <=? z) && (z <=? int_max)) with true; [reflexivity|]. symmetry. unfold int_min, int_max. lia. }
  destruct (0 <=? e) eqn:E.
  - assert (S : 2 ^ (e + 149) = 2 ^ e * 2 ^ 149) by (rewrite <- Z.pow_add_r by lia; f_equal; lia).
    apply (K (sm * 2 ^ e)); [|rewrite S; lia].
    cbn [f32_trunc]. rewrite E. unfold sm. destruct s; f_equal; lia.
  - assert (S : 2 ^ 149 = 2 ^ (e + 149) * 2 ^ (- e)) by (rewrite <- Z.pow_add_r by lia; f_equal; lia).
    assert (P : 0 < 2 ^ (e + 149)) by (apply Z.pow_pos_nonneg; lia). assert (P2 : 2 <= 2 ^ (- e)) by (change 2 with (2 ^ 1) at 1; apply Z.pow_le_mono_r; lia).
    pose proof (Z.div_mod sm (2 ^ (- e)) ltac:(lia)) as DM. pose proof (Z.mod_pos_bound sm (2 ^ (- e)) ltac:(lia)) as MB.
    apply (K (sm / 2 ^ (- e))); [apply of_Z_exact; nia|]. rewrite S. nia.
Qed.

(** A number not below zero, rounded to the nearest integer. *)
Lemma round_value a : f32_finite a -> 0 <= f32_units a < 2 ^ 30 * 2 ^ 149 ->
  exists z, f32_to_int (f32_round a) = Ret z /\ 2 * Z.abs (z * 2 ^ 149 - f32_units a) <= 2 ^ 149.
Proof.
  intros F B. destruct a as [s|s| |s m e]; try contradiction.
  { exists 0. split; [reflexivity|cbn [f32_units]; lia]. }
  cbn [f32_finite] in F. cbn [f32_round f32_units] in *.
  assert (P : 0 < 2 ^ (e + 149)) by (apply Z.pow_pos_nonneg; lia). assert (s = false) as -> by (destruct s; [nia|reflexivity]). rewrite Z.mul_1_l in *.
  assert (K : forall z a', f32_trunc a' = Some z -> 2 * Z.abs (z * 2 ^ 149 - Z.pos m * 2 ^ (e + 149)) <= 2 ^ 149 ->
    exists z, f32_to_int a' = Ret z /\ 2 * Z.abs (z * 2 ^ 149 - Z.pos m * 2 ^ (e + 149)) <= 2 ^ 149).
  { intros z a' Ez Hz. exists z. split; [|exact Hz]. unfold f32_to_int. rewrite Ez.
    replace ((int_min <=? z) && (z <=? int_max)) with true; [reflexivity|]. symmetry. unfold int_min, int_max. lia. }
  destruct (0 <=? e) eqn:E.
  - assert (S : 2 ^ (e + 149) = 2 ^ e * 2 ^ 149) by (rewrite <- Z.pow_add_r by lia; f_equal; lia).
    apply (K (Z.pos m * 2 ^ e)); [cbn [f32_trunc]; rewrite E; reflexivity|]. rewrite S. lia.
  - assert (S : 2 ^ 149 = 2 ^ (e + 149) * 2 ^ (- e)) by (rewrite <- Z.pow_add_r by lia; f_equal; lia).
    assert (P2 : 2 <= 2 ^ (- e)) by (change 2 with (2 ^ 1) at 1; apply Z.pow_le_mono_r; lia).
    assert (P3 : 2 ^ (1 - e) = 2 * 2 ^ (- e)) by (rewrite <- Z.pow_succ_r by lia; f_equal; lia). rewrite P3.
    set (mag := (2 * Z.pos m + 2 ^ (- e)) / (2 * 2 ^ (- e))).
    pose proof (Z.div_mod (2 * Z.pos m + 2 ^ (- e)) (2 * 2 ^ (- e)) ltac:(lia)) as DM.
    pose proof (Z.mod_pos_bound (2 * Z.pos m + 2 ^ (- e)) (2 * 2 ^ (- e)) ltac:(lia)) as MB. fold mag in DM.
    assert (M0 : 0 <= mag) by (apply Z.div_pos; lia).
    assert (G : 2 * Z.abs (mag * 2 ^ 149 - Z.pos m * 2 ^ (e + 149)) <= 2 ^ 149).
    { rewrite S. replace (mag * (2 ^ (e + 149) * 2 ^ (- e)) - Z.pos m * 2 ^ (e + 149)) with ((mag * 2 ^ (- e) - Z.pos m) * 2 ^ (e + 149)) by ring.
      rewrite Z.abs_mul, (Z.abs_eq (2 ^ (e + 149))) by lia. assert (2 * Z.abs (mag * 2 ^ (- e) - Z.pos m) <= 2 ^ (- e)) by lia. nia. }
    destruct (mag =? 0) eqn:Em; [apply (K 0); [reflexivity|apply Z.eqb_eq in Em; rewrite <- Em; exact G]|].
    apply (K mag); [apply of_Z_exact; nia|exact G].
Qed.

Lemma clamp_to_u8 a : f32_finite a -> exists v, f32_to_u8 (f32_clamp a (f32_of_Z 0) kPixelScaleMax) = Ret v /\ is_u8 v.
Proof.
  intros F. unfold f32_clamp. destruct (f32_ltb a (f32_of_Z 0)) eqn:L; [exists 0; split; [reflexivity|unfold is_u8; lia]|].
  destruct (f32_ltb kPixelScaleMax a) eqn:H; [exists 255; split; [reflexivity|unfold is_u8; lia]|].
  destruct a as [s|s| |s m e]; try contradiction; [exists 0; split; [reflexivity|unfold is_u8; lia]|].
  destruct s; [discriminate L|]. cbn [f32_finite] in F.
  assert (K : forall v, 0 <= v < 256 -> f32_trunc (S754_finite false m e) = Some v -> exists v, f32_to_u8 (S754_finite false m e) = Ret v /\ is_u8 v).
  { intros v Hv Ev. exists v. split; [|exact Hv]. unfold f32_to_u8. rewrite Ev. replace ((0 <=? v) && (v <=? 255)) with true; [reflexivity|symmetry; lia]. }
  change kPixelScaleMax with (S754_finite false 16711680 (-16)) in H. unfold f32_ltb, SFltb in H. cbn [SFcompare] in H.
  assert (He : e <= -16 /\ (e = -16 -> Z.pos m <= 16711680)).
  { destruct (Z.compare_spec (-16) e) as [C|C|C]; [|discriminate H|lia]. split; [lia|]. intros _.
    apply Z.nlt_ge. intros G. assert (C' : (16711680 ?= m)%positive = Lt) by (apply Pos.compare_lt_iff; lia).
    unfold Pos.compare in C'. rewrite C' in H. discriminate H. }
  apply (K (Z.pos m / 2 ^ (- e))); [|cbn [f32_trunc]; replace (0 <=? e) with false by lia; reflexivity].
  assert (P : 2 ^ 16 <= 2 ^ (- e)) by (apply Z.pow_le_mono_r; lia). split; [apply Z.div_pos; lia|apply Z.div_lt_upper_bound; [lia|]].
  change (2 ^ 24) with (2 ^ 16 * 256) in F. nia.
Qed.

(* ------------------------------------------------------------------ *)
(** ** Coordinates *)

Lemma clamp_axis v n : 0 < n -> 0 <= clampToAxis v n < n.
Proof. intros H. unfold clampToAxis. case_if; lia. Qed.

Lemma half_below : below 1 half /\ f32_units half = 2 ^ 148.
Proof. repeat split; vm_compute; congruence. Qed.

(** The ratio of two axes, multiplied back, is the first up to one part in
    2^22. *)
Lemma ratio_value a n : 1 <= a <= 2 ^ 24 -> 1 <= n <= 2 ^ 24 ->
  let r := f32_div (f32_of_Z a) (f32_of_Z n) in
  moderate r /\ 0 <= f32_units r <= 2 * a * 2 ^ 149 /\
  2 ^ 22 * Z.abs (f32_units r * n - a * 2 ^ 149) <= a * 2 ^ 149 + 2 ^ 23 * n.
Proof.
  intros Ha Hn. cbn zeta. destruct (of_Z_exact a ltac:(lia)) as (_ & Va & _). destruct (of_Z_exact n ltac:(lia)) as (_ & Vn & _).
  pose proof (of_Z_moderate a ltac:(lia)) as Ma. pose proof (of_Z_moderate n ltac:(lia)) as Mn.
  destruct (div_near _ _ Ma Mn ltac:(rewrite Vn; lia)) as [F N]. rewrite Va, Vn in N. set (r := f32_units (f32_div (f32_of_Z a) (f32_of_Z n))) in *.
  rewrite !Z.abs_mul, (Z.abs_eq a), (Z.abs_eq n), (Z.abs_eq (2 ^ 149)) in N by lia.
  replace (r * (n * 2 ^ 149) - a * 2 ^ 149 * 2 ^ 149) with ((r * n - a * 2 ^ 149) * 2 ^ 149) in N by ring. rewrite Z.abs_mul, (Z.abs_eq (2 ^ 149)) in N by lia.
  assert (N' : 2 ^ 22 * Z.abs (r * n - a * 2 ^ 149) <= a * 2 ^ 149 + 2 ^ 23 * n) by lia.
  assert (R : 0 <= r <= 2 * a * 2 ^ 149).
  { clear -N' Ha Hn. assert (L : 0 <= r * n) by lia. assert (U : r * n <= 2 * a * 2 ^ 149) by lia. nia. }
  split; [|split; [exact R|exact N']]. split; [exact F|]. change (2 ^ 199) with (2 * 2 ^ 24 * 2 ^ 25 * 2 ^ 149). fold r. lia.
Qed.

(** Every coordinate of the destination has its two source coordinates. *)
Lemma sample_ok o a n : 1 <= a <= 2 ^ 24 -> 1 <= n <= 2 ^ 24 -> 0 <= o < n ->
  exists c0 c1 d, sampleAxis o (f32_div (f32_of_Z a) (f32_of_Z n)) a = Ret (c0, c1, d) /\
    0 <= c0 < a /\ 0 <= c1 < a /\ below 40 d.
Proof.
  intros Ha Hn Ho. destruct (ratio_value a n Ha Hn) as (Mr & Rr & Nr). set (r := f32_div (f32_of_Z a) (f32_of_Z n)) in *.
  destruct half_below as [Hh Vh]. pose proof (below_moderate 1 _ ltac:(lia) Hh) as Mh. destruct (of_Z_exact o ltac:(lia)) as (_ & Vo & _).
  pose proof (of_Z_moderate o ltac:(lia)) as Mo.
  destruct (add_near _ _ Mo Mh) as [Fp Np]. set (p := f32_add (f32_of_Z o) half) in *. rewrite Vo, Vh in Np. unfold near in Np.
  assert (Rp : 0 <= f32_units p <= 3 * n * 2 ^ 149) by lia.
  assert (Mp : moderate p) by (split; [exact Fp|]; change (2 ^ 199) with (3 * 2 ^ 24 * 2 ^ 24 * 2 ^ 149 + (2 ^ 50 - 3 * 2 ^ 48) * 2 ^ 149); lia).
  destruct (mul_near _ _ Mp Mr) as [Ft Nt]. set (t := f32_mul p r) in *. unfold near in Nt.
  assert (PR : 0 <= f32_units p * f32_units r <= 12 * a * 2 ^ 149 * 2 ^ 149).
  { split; [nia|]. apply Z.le_trans with (3 * 2 ^ 149 * (f32_units r * n)); [clear -Rp Rr; nia|]. clear -Nr Ha Hn. lia. }
  assert (Rt : -1 <= f32_units t <= 13 * a * 2 ^ 149) by (clear -Nt PR Ha; lia).
  assert (Bt : below (2 ^ 28) t) by (split; [exact Ft|lia]).
  destruct (sub_near _ _ (below_moderate (2 ^ 28) _ ltac:(lia) Bt) Mh) as [Fs Ns]. set (s := f32_sub t half) in *. rewrite Vh in Ns. unfold near in Ns.
  assert (Rs : - 2 ^ 149 < f32_units s <= 14 * a * 2 ^ 149) by (clear -Ns Rt Ha; lia).
  destruct (floor_value s Fs ltac:(clear -Rs Ha; lia)) as (z & Ez & Hz).
  assert (Hzr : -1 <= z <= 2 ^ 28) by (clear -Hz Rs Ha; lia).
  unfold sampleAxis. fold p t s. rewrite Ez. cbn [mbind outcome_bind].
  unfold int_result. replace ((int_min <=? z + 1) && (z + 1 <=? int_max)) with true by (symmetry; unfold int_min, int_max; lia). cbn [mbind outcome_bind].
  do 3 eexists. split; [reflexivity|]. split; [apply clamp_axis; lia|]. split; [apply clamp_axis; lia|].
  destruct (of_Z_near z ltac:(lia)) as [Fz Nz]. unfold near in Nz.
  assert (Bz : below (2 ^ 29) (f32_of_Z z)) by (split; [exact Fz|clear -Nz Hzr; lia]). assert (Bs : below (2 ^ 29) s) by (split; [exact Fs|clear -Rs Ha; lia]).
  destruct (sub_near _ _ (below_moderate (2 ^ 29) _ ltac:(lia) Bs) (below_moderate (2 ^ 29) _ ltac:(lia) Bz)) as [Fd Nd]. split; [exact Fd|]. unfold near in Nd.
  set (d := f32_units (f32_sub s (f32_of_Z z))) in *. clear -Nd Nz Hz Hzr. lia.
Qed.

(* ------------------------------------------------------------------ *)
(** ** Pixels *)

(** What a producer of images owes ([Image.h]), within the sizes a decoder
    accepts. *)
Record good_image (im : Image) : Prop := {
  gi_width : 1 <= width im <= 2 ^ 24;
  gi_height : 1 <= height im <= 2 ^ 24;
  gi_channels : channels im = kChannels;
  gi_length : Z.of_nat (length (pixels im)) = width im * height im * kChannels;
  gi_bytes : bytes_ok (pixels im) }.

(** The index of a pixel of an image of [w] by [h], without wrap-around. *)
Definition pixel_at (x y c w : Z) : Z := (y * w + x) * 3 + c.

Lemma pixel_index_exact x y c w h : 0 <= w <= 2 ^ 24 -> 0 <= h <= 2 ^ 24 -> 0 <= x < w -> 0 <= y < h -> 0 <= c < 3 ->
  pixelIndex x y c w = pixel_at x y c w /\ 0 <= pixel_at x y c w < w * h * 3.
Proof.
  intros Hw Hh Hx Hy Hc. assert (0 <= y * w) by nia. assert (y * w + w <= h * w) by nia. assert (h * w <= 2 ^ 24 * 2 ^ 24) by nia.
  unfold pixelIndex, pixel_at, kChannels. rewrite !(u64_id w), !(u64_id x), !(u64_id y), !(u64_id c), !(u64_id 3) by lia.
  rewrite (u64_id (y * w)), (u64_id (y * w + x)), (u64_id ((y * w + x) * 3)), u64_id by lia. lia.
Qed.

Lemma vec_at_some {A} (l : list A) i x : 0 <= i -> l !! Z.to_nat i = Some x -> vec_at l i = Ret x.
Proof. intros Hi H. unfold vec_at. pose proof (lookup_lt_Some _ _ _ H). replace (i <? Z.of_nat (length l)) with true by lia. apply vec_get_some, H. Qed.

Lemma vec_at_lt {A} (l : list A) i : 0 <= i < Z.of_nat (length l) -> exists x, vec_at l i = Ret x /\ l !! Z.to_nat i = Some x.
Proof. intros Hi. destruct (lookup_lt_is_Some_2 l (Z.to_nat i) ltac:(lia)) as [x Hx]. exists x. split; [apply vec_at_some; [lia|exact Hx]|exact Hx]. Qed.

Lemma image_byte im x y c : good_image im -> 0 <= x < width im -> 0 <= y < height im -> 0 <= c < 3 ->
  exists v, vec_at (pixels im) (pixelIndex x y c (width im)) = Ret v /\ is_u8 v /\ pixels im !! Z.to_nat (pixel_at x y c (width im)) = Some v.
Proof.
  intros G Hx Hy Hc. destruct (pixel_index_exact x y c (width im) (height im)) as [E B]; try (pose proof (gi_width _ G); pose proof (gi_height _ G); lia); try assumption.
  rewrite E. destruct (vec_at_lt (pixels im) (pixel_at x y c (width im))) as (v & Hv & Hl); [rewrite (gi_length _ G); exact B|].
  exists v. split; [exact Hv|]. split; [|exact Hl]. eapply bytes_ok_lookup; [apply G|exact Hl].
Qed.

(** One weighting of two values. *)
Lemma blend_below k p q d : 0 <= k <= 150000 -> below k p -> below k q -> below 40 d ->
  below (492 * k + 5) (f32_add (f32_mul p (f32_sub one d)) (f32_mul q d)).
Proof.
  intros Hk Hp Hq Hd. assert (H1 : below 1 one) by (apply (of_Z_below 1); lia).
  pose proof (sub_below 1 40 _ _ ltac:(lia) ltac:(lia) H1 Hd) as Hs. change (2 * (1 + 40) + 1) with 83 in Hs.
  pose proof (mul_below k 83 _ _ ltac:(lia) ltac:(lia) Hp Hs) as M1. pose proof (mul_below k 40 _ _ ltac:(lia) ltac:(lia) Hq Hd) as M2.
  eapply below_mono; [|apply (add_below (2 * (k * 83) + 1) (2 * (k * 40) + 1)); [| |exact M1|exact M2]]; lia.
Qed.

Lemma byte_below v : is_u8 v -> below 255 (f32_of_Z v).
Proof. unfold is_u8. intros H. apply (below_mono (Z.abs v)); [lia|]. apply of_Z_below. lia. Qed.

Lemma interpolate_ok im x0 x1 y0 y1 dx dy c : good_image im ->
  0 <= x0 < width im -> 0 <= x1 < width im -> 0 <= y0 < height im -> 0 <= y1 < height im -> 0 <= c < 3 -> below 40 dx -> below 40 dy ->
  exists v, interpolate im x0 x1 y0 y1 dx dy c = Ret v /\ is_u8 v.
Proof.
  intros G X0 X1 Y0 Y1 Hc Dx Dy. unfold interpolate.
  destruct (image_byte im x0 y0 c G X0 Y0 Hc) as (p00 & -> & B00 & _). destruct (image_byte im x1 y0 c G X1 Y0 Hc) as (p10 & -> & B10 & _).
  destruct (image_byte im x0 y1 c G X0 Y1 Hc) as (p01 & -> & B01 & _). destruct (image_byte im x1 y1 c G X1 Y1 Hc) as (p11 & -> & B11 & _).
  cbn [mbind outcome_bind]. apply clamp_to_u8.
  pose proof (blend_below 255 _ _ dx ltac:(lia) (byte_below _ B00) (byte_below _ B10) Dx) as T.
  pose proof (blend_below 255 _ _ dx ltac:(lia) (byte_below _ B01) (byte_below _ B11) Dx) as B.
  apply (blend_below 125465 _ _ dy ltac:(lia) T B Dy).
Qed.

(* ------------------------------------------------------------------ *)
(** ** The size after the resize *)

(** The long side, when it is not 2^15 times the short one. *)
Lemma long_side s l : 1 <= s <= 2 ^ 24 -> s <= l <= 2 ^ 24 -> l <= 2 ^ 15 * s ->
  exists z, f32_to_int (f32_round (f32_mul (f32_of_Z l) (f32_div (f32_of_Z kResizeShortEdge) (f32_of_Z s)))) = Ret z /\ 255 <= z <= 2 ^ 24.
Proof.
  intros Hs Hl Ha. destruct (ratio_value kResizeShortEdge s ltac:(unfold kResizeShortEdge; lia) Hs) as (Mr & Rr & Nr). unfold kResizeShortEdge in *.
  destruct (of_Z_exact l ltac:(lia)) as (_ & Vl & _). destruct (mul_near _ _ (of_Z_moderate l ltac:(lia)) Mr) as [Fp Np].
  set (p := f32_mul (f32_of_Z l) (f32_div (f32_of_Z 256) (f32_of_Z s))) in *. set (r := f32_units (f32_div (f32_of_Z 256) (f32_of_Z s))) in *.
  rewrite Vl in Np. unfold near in Np. replace (l * 2 ^ 149 * r) with (l * r * 2 ^ 149) in Np by ring.
  assert (L : s * r <= l * r <= 2 ^ 15 * (s * r)) by (clear -Rr Hl Ha; nia).
  assert (Np' : 2 ^ 23 * Z.abs (f32_units p - l * r) <= l * r + 2 ^ 23) by (clear -Np L Rr Hs; nia).
  assert (Lp : 255 * 2 ^ 149 + 2 ^ 148 <= f32_units p <= (2 ^ 24 - 1) * 2 ^ 149) by (clear -Np' L Nr Hs; lia).
  destruct (round_value p Fp ltac:(clear -Lp; lia)) as (z & Ez & Hz). exists z. split; [exact Ez|]. clear -Hz Lp. lia.
Qed.

(** No side is 2^15 times the other. *)
Definition tolerable (im : Image) : Prop := width im <= 2 ^ 15 * height im /\ height im <= 2 ^ 15 * width im.

Lemma resized_ok im : good_image im -> tolerable im ->
  exists w h, computeResizedDimensions (width im) (height im) = Ret (w, h) /\ 255 <= w <= 2 ^ 24 /\ 255 <= h <= 2 ^ 24.
Proof.
  intros [Hw Hh _ _ _] [T1 T2]. unfold computeResizedDimensions.
  replace ((width im <=? 0) || (height im <=? 0)) with false by (symmetry; rewrite orb_false_iff; lia).
  destruct (width im <? height im) eqn:E.
  - destruct (long_side (width im) (height im) Hw ltac:(lia) ltac:(lia)) as (z & -> & Hz). exists 256, z. split; [reflexivity|]. lia.
  - destruct (long_side (height im) (width im) Hh ltac:(lia) ltac:(lia)) as (z & -> & Hz). exists z, 256. split; [reflexivity|]. lia.
Qed.

(* ------------------------------------------------------------------ *)
(** ** Filling a vector by three nested loops *)

Lemma for_upto_rule {S} (P : Z -> S -> Prop) (body : Z -> S -> outcome S) n s :
  P 0 s -> (forall i s, 0 <= i < Z.of_nat n -> P i s -> exists s', body i s = Ret s' /\ P (i + 1) s') ->
  exists s', for_upto n body s = Ret s' /\ P (Z.of_nat n) s'.
Proof.
  intros H0. induction n as [|n IH]; intros Hs; [exists s; split; [reflexivity|exact H0]|].
  destruct IH as (s1 & E1 & P1); [intros i s1 Hi; apply Hs; lia|].
  destruct (Hs (Z.of_nat n) s1 ltac:(lia) P1) as (s2 & E2 & P2). exists s2. cbn [for_upto]. rewrite E1. cbn [mbind outcome_bind].
  split; [exact E2|]. replace (Z.of_nat (Datatypes.S n)) with (Z.of_nat n + 1) by lia. exact P2.
Qed.

Section fill.
Context {A : Type} (N : Z) (n1 n2 n3 : nat) (idx : Z -> Z -> Z -> Z) (val : Z -> Z -> Z -> A).

Definition in_box (y x c : Z) : Prop := 0 <= y < Z.of_nat n1 /\ 0 <= x < Z.of_nat n2 /\ 0 <= c < Z.of_nat n3.

Hypothesis idx_range : forall y x c, in_box y x c -> 0 <= idx y x c < N.
Hypothesis idx_inj : forall y x c y' x' c', in_box y x c -> in_box y' x' c' -> idx y x c = idx y' x' c' -> y = y' /\ x = x' /\ c = c'.

(** The cells of [D] hold their values. *)
Definition filled (D : Z -> Z -> Z -> Prop) (v : list A) : Prop :=
  Z.of_nat (length v) = N /\ forall y x c, in_box y x c -> D y x c -> v !! Z.to_nat (idx y x c) = Some (val y x c).

Lemma filled_mono (D E : Z -> Z -> Z -> Prop) v : (forall y x c, in_box y x c -> E y x c -> D y x c) -> filled D v -> filled E v.
Proof. intros H [L F]. split; [exact L|]. intros y x c B HE. apply F; [exact B|apply H; assumption]. Qed.

Lemma put_fills D v y x c : in_box y x c -> filled D v ->
  exists v', vec_put v (idx y x c) (val y x c) = Ret v' /\ filled (fun y' x' c' => D y' x' c' \/ (y' = y /\ x' = x /\ c' = c)) v'.
Proof.
  intros B [L F]. pose proof (idx_range y x c B) as R. eexists. split.
  { unfold vec_put. replace (idx y x c <? Z.of_nat (length v)) with true by lia. apply vec_set_ret. lia. }
  split; [rewrite length_insert; exact L|]. intros y' x' c' B' HD.
  destruct (decide (idx y' x' c' = idx y x c)) as [E|E].
  - destruct (idx_inj _ _ _ _ _ _ B' B E) as (-> & -> & ->). apply list_lookup_insert_eq. lia.
  - pose proof (idx_range y' x' c' B'). rewrite list_lookup_insert_ne by lia. apply F; [exact B'|].
    destruct HD as [HD|(-> & -> & ->)]; [exact HD|congruence].
Qed.

Lemma fill_vector (body1 : Z -> list A -> outcome (list A)) v0 : Z.of_nat (length v0) = N ->
  (forall y, 0 <= y < Z.of_nat n1 -> exists body2, (forall v, body1 y v = for_upto n2 body2 v) /\
    forall x, 0 <= x < Z.of_nat n2 -> exists body3, (forall v, body2 x v = for_upto n3 body3 v) /\
      forall c, 0 <= c < Z.of_nat n3 -> forall v, body3 c v = vec_put v (idx y x c) (val y x c)) ->
  exists v, for_upto n1 body1 v0 = Ret v /\ filled (fun _ _ _ => True) v.
Proof.
  intros L Hb. destruct (for_upto_rule (fun i => filled (fun y _ _ => y < i)) body1 n1 v0) as (v & E & F).
  - split; [exact L|]. intros y x c (B & _) H. lia.
  - intros y v Hy Fy. destruct (Hb y Hy) as (body2 & E2 & H2). rewrite E2.
    destruct (for_upto_rule (fun i => filled (fun y' x _ => y' < y \/ (y' = y /\ x < i))) body2 n2 v) as (v2 & -> & F2).
    + revert Fy. apply filled_mono. intros y' x c (B1 & B2 & B3) [H|[-> H]]; lia.
    + intros x v1 Hx Fx. destruct (H2 x Hx) as (body3 & E3 & H3). rewrite E3.
      destruct (for_upto_rule (fun i => filled (fun y' x' c => y' < y \/ (y' = y /\ (x' < x \/ (x' = x /\ c < i))))) body3 n3 v1) as (v3 & -> & F3).
      * revert Fx. apply filled_mono. intros y' x' c (B1 & B2 & B3) H. lia.
      * intros c v2 Hc Fc. rewrite (H3 c Hc). destruct (put_fills _ v2 y x c ltac:(repeat split; lia) Fc) as (v4 & -> & F4).
        exists v4. split; [reflexivity|]. revert F4. apply filled_mono. intros y' x' c' _ H. lia.
      * exists v3. split; [reflexivity|]. revert F3. apply filled_mono. intros y' x' c (B1 & B2 & B3) H. lia.
    + exists v2. split; [reflexivity|]. revert F2. apply filled_mono. intros y' x c (B1 & B2 & B3) H. lia.
  - exists v. split; [exact E|]. revert F. apply filled_mono. intros y x c (B1 & _) _. lia.
Qed.
End fill.

(* ------------------------------------------------------------------ *)
(** ** The resized image, pixel by pixel *)

(** Channel [c] of pixel ([x], [y]) of [src] resized to [w] by [h]. *)
Definition resized_pixel (src : Image) (w h x y c : Z) : outcome Z :=
  '(y0, y1, dy) ← sampleAxis y (f32_div (f32_of_Z (height src)) (f32_of_Z h)) (height src);
  '(x0, x1, dx) ← sampleAxis x (f32_div (f32_of_Z (width src)) (f32_of_Z w)) (width src);
  interpolate src x0 x1 y0 y1 dx dy c.

(** The value of an outcome known to be one. *)
Definition value_of (m : outcome Z) : Z := match m with Ret v => v | _ => 0 end.

Lemma pixel_inj w y x c y' x' c' : 0 <= x < w -> 0 <= x' < w -> 0 <= c < 3 -> 0 <= c' < 3 ->
  pixel_at x y c w = pixel_at x' y' c' w -> y = y' /\ x = x' /\ c = c'.
Proof. unfold pixel_at. intros. assert (y * w + x = y' * w + x') by lia. assert (y = y') by nia. lia. Qed.

Lemma resized_pixel_ok im w h x y c : good_image im -> 1 <= w <= 2 ^ 24 -> 1 <= h <= 2 ^ 24 ->
  0 <= x < w -> 0 <= y < h -> 0 <= c < 3 -> exists v, resized_pixel im w h x y c = Ret v /\ is_u8 v.
Proof.
  intros G Hw Hh Hx Hy Hc. unfold resized_pixel.
  destruct (sample_ok y (height im) h (gi_height _ G) Hh Hy) as (y0 & y1 & dy & -> & Y0 & Y1 & Dy).
  destruct (sample_ok x (width im) w (gi_width _ G) Hw Hx) as (x0 & x1 & dx & -> & X0 & X1 & Dx).
  cbn [mbind outcome_bind]. apply interpolate_ok; assumption.
Qed.

Lemma bilinear_meaning im w h : good_image im -> 1 <= w <= 2 ^ 24 -> 1 <= h <= 2 ^ 24 ->
  exists dst, bilinearResize im w h = Ret dst /\ Z.of_nat (length dst) = w * h * 3 /\
    forall x y c, 0 <= x < w -> 0 <= y < h -> 0 <= c < 3 ->
      exists v, resized_pixel im w h x y c = Ret v /\ is_u8 v /\ dst !! Z.to_nat (pixel_at x y c w) = Some v.
Proof.
  intros G Hw Hh. assert (WH : w * h <= 2 ^ 24 * 2 ^ 24) by nia. assert (0 <= w * h) by nia.
  destruct (fill_vector (w * h * 3) (Z.to_nat h) (Z.to_nat w) (Z.to_nat 3) (fun y x c => pixel_at x y c w)
    (fun y x c => value_of (resized_pixel im w h x y c))) with (v0 := replicate (Z.to_nat (w * h * 3)) 0)
    (body1 := fun yo dst => '(y0, y1, dy) ← sampleAxis yo (f32_div (f32_of_Z (height im)) (f32_of_Z h)) (height im);
      for_upto (Z.to_nat w) (fun xo dst => '(x0, x1, dx) ← sampleAxis xo (f32_div (f32_of_Z (width im)) (f32_of_Z w)) (width im);
        for_upto (Z.to_nat kChannels) (fun c dst => out ← interpolate im x0 x1 y0 y1 dx dy c; vec_put dst (pixelIndex xo yo c w) out) dst) dst)
    as (dst & E & L & F).
  - intros y x c (By & Bx & Bc). apply (pixel_index_exact x y c w h); lia.
  - intros y x c y' x' c' (By & Bx & Bc) (By' & Bx' & Bc') H'. apply (pixel_inj w); lia || exact H'.
  - rewrite length_replicate. lia.
  - intros y Hy. destruct (sample_ok y (height im) h (gi_height _ G) Hh ltac:(lia)) as (y0 & y1 & dy & Ey & Y0 & Y1 & Dy).
    eexists. split; [intros v; rewrite Ey; reflexivity|]. intros x Hx.
    destruct (sample_ok x (width im) w (gi_width _ G) Hw ltac:(lia)) as (x0 & x1 & dx & Ex & X0 & X1 & Dx).
    eexists. split; [intros v; rewrite Ex; reflexivity|]. intros c Hc v.
    destruct (interpolate_ok im x0 x1 y0 y1 dx dy c G X0 X1 Y0 Y1 ltac:(lia) Dx Dy) as (p & Ep & _).
    cbn beta. unfold resized_pixel. rewrite Ey, Ex. cbn [mbind outcome_bind]. rewrite Ep. cbn [mbind outcome_bind value_of].
    f_equal. apply (pixel_index_exact x y c w h); lia.
  - exists dst. split; [|split; [exact L|]].
    + unfold bilinearResize. unfold kChannels. rewrite (u64_id w), (u64_id h), (u64_id 3) by lia. rewrite (u64_id (w * h)), u64_id by lia. exact E.
    + intros x y c Hx Hy Hc. destruct (resized_pixel_ok im w h x y c G Hw Hh Hx Hy Hc) as (v & Ev & Bv).
      exists v. split; [exact Ev|]. split; [exact Bv|]. rewrite (F y x c); [rewrite Ev; reflexivity|repeat split; lia|exact I].
Qed.

(* ------------------------------------------------------------------ *)
(** ** The tensor *)

(** The entry a byte of channel [c] becomes, as a value. *)
Definition normalised (v c : Z) : float32 :=
  match normalise v c with Ret f => f | _ => S754_nan end.

(** Every byte of every channel normalises to a number between -3 and 3. *)
Lemma normalise_ok v c : is_u8 v -> 0 <= c < 3 ->
  normalise v c = Ret (normalised v c) /\ below 3 (normalised v c).
Proof.
  intros Hv Hc.
  assert (T : forallb (fun c => forallb (fun v => match normalise v c with
     | Ret f => match f with S754_zero _ => true | S754_finite _ m e => (Z.pos m <? 2 ^ 24) && (-149 <=? e) && (e <=? 104) | _ => false end
                && (Z.abs (f32_units f) <=? 3 * 2 ^ 149)
     | _ => false end) (seqZ 0 256)) (seqZ 0 3) = true) by (vm_compute; reflexivity).
  rewrite forallb_forall in T. specialize (T c). rewrite <- list_elem_of_In, elem_of_seqZ in T. specialize (T ltac:(lia)).
  rewrite forallb_forall in T. specialize (T v). rewrite <- list_elem_of_In, elem_of_seqZ in T. unfold is_u8 in Hv. specialize (T ltac:(lia)).
  unfold normalised. destruct (normalise v c) as [f| |]; try discriminate. split; [reflexivity|].
  apply andb_true_iff in T as [T1 T2]. split; [|lia]. destruct f; try discriminate; cbn [f32_finite]; [exact I|lia].
Qed.

Definition tensor_at (y x c : Z) : Z := c * (kCropSize * kCropSize) + y * kCropSize + x.

Lemma tensor_inj y x c y' x' c' : 0 <= y < 224 -> 0 <= x < 224 -> 0 <= y' < 224 -> 0 <= x' < 224 ->
  tensor_at y x c = tensor_at y' x' c' -> y = y' /\ x = x' /\ c = c'.
Proof. unfold tensor_at, kCropSize. lia. Qed.

Lemma good_accepted im : good_image im ->
  bool_decide (pixels im = []) = false /\ (channels im =? kChannels) = true /\
  (Z.of_nat (length (pixels im)) =? u64 (u64 (u64 (width im) * u64 (height im)) * u64 (channels im))) = true.
Proof.
  intros [Hw Hh Hc Hl _]. assert (width im * height im <= 2 ^ 24 * 2 ^ 24) by nia. assert (1 <= width im * height im) by nia. rewrite Hc. unfold kChannels in *.
  split; [apply bool_decide_eq_false_2; intros E; rewrite E in Hl; cbn in Hl; lia|]. split; [apply Z.eqb_refl|].
  rewrite (u64_id (width im)), (u64_id (height im)), (u64_id 3) by lia. rewrite (u64_id (width im * height im)), u64_id by lia. lia.
Qed.

(** Which pixel of the resized image the crop takes for [i]. *)
Definition crop_at (side i : Z) : Z := Z.quot (side - kCropSize) 2 + i.

Lemma crop_range side i : 255 <= side -> 0 <= i < 224 -> 0 <= crop_at side i < side.
Proof. intros Hs Hi. unfold crop_at, kCropSize. rewrite Z.quot_div_nonneg by lia. zdm. Qed.

Lemma apply_tensor im : good_image im -> tolerable im ->
  exists w h t, computeResizedDimensions (width im) (height im) = Ret (w, h) /\ 255 <= w <= 2 ^ 24 /\ 255 <= h <= 2 ^ 24 /\
    apply im = Ret t /\ Z.of_nat (length t) = 150528 /\
    forall y x c, 0 <= y < 224 -> 0 <= x < 224 -> 0 <= c < 3 ->
      exists v, resized_pixel im w h (crop_at w x) (crop_at h y) c = Ret v /\ is_u8 v /\
        t !! Z.to_nat (tensor_at y x c) = Some (normalised v c).
Proof.
  intros G T. destruct (resized_ok im G T) as (w & h & Ed & Hw & Hh). destruct (good_accepted im G) as (A1 & A2 & A3).
  destruct (bilinear_meaning im w h G ltac:(lia) ltac:(lia)) as (dst & Eb & Ld & Fd).
  assert (PX : forall y x c, 0 <= y < 224 -> 0 <= x < 224 -> 0 <= c < 3 ->
    exists v, resized_pixel im w h (crop_at w x) (crop_at h y) c = Ret v /\ is_u8 v /\ vec_at dst (pixelIndex (crop_at w x) (crop_at h y) c w) = Ret v).
  { intros y x c Hy Hx Hc. destruct (Fd (crop_at w x) (crop_at h y) c (crop_range w x ltac:(lia) Hx) (crop_range h y ltac:(lia) Hy) Hc) as (v & Ev & Bv & Lv).
    exists v. split; [exact Ev|]. split; [exact Bv|]. destruct (pixel_index_exact (crop_at w x) (crop_at h y) c w h) as [E B]; try lia; try (apply crop_range; lia).
    rewrite E. apply vec_at_some; [lia|exact Lv]. }
  destruct (fill_vector 150528 224 224 3 tensor_at (fun y x c => normalised (value_of (resized_pixel im w h (crop_at w x) (crop_at h y) c)) c))
    with (v0 := replicate (Z.to_nat 150528) (S754_zero false))
    (body1 := fun y tensor => for_upto (Z.to_nat kCropSize) (fun x tensor => for_upto (Z.to_nat kChannels) (fun c tensor =>
          raw ← vec_at dst (pixelIndex (crop_at w x) (crop_at h y) c w); n ← normalise raw c; vec_put tensor (tensor_at y x c) n) tensor) tensor)
    as (t & Et & Lt & Ft).
  - intros y x c (By & Bx & Bc). unfold tensor_at, kCropSize. lia.
  - intros y x c y' x' c' (By & Bx & Bc) (By' & Bx' & Bc'). apply tensor_inj; lia.
  - rewrite length_replicate. lia.
  - intros y Hy. eexists. split; [reflexivity|]. intros x Hx. eexists. split; [reflexivity|]. intros c Hc v. cbn beta.
    destruct (PX y x c) as (p & Ep & Bp & ->); try lia. cbn [mbind outcome_bind]. destruct (normalise_ok p c Bp ltac:(lia)) as [-> _].
    rewrite Ep. reflexivity.
  - exists w, h, t. split; [exact Ed|]. split; [exact Hw|]. split; [exact Hh|]. split; [|split; [exact Lt|]].
    + unfold apply. rewrite A1, A2, A3. cbn [negb]. rewrite Ed. cbn [mbind outcome_bind]. rewrite Eb. cbn [mbind outcome_bind]. exact Et.
    + intros y x c Hy Hx Hc. destruct (PX y x c Hy Hx Hc) as (v & Ev & Bv & _). exists v. split; [exact Ev|]. split; [exact Bv|].
      rewrite (Ft y x c); [rewrite Ev; reflexivity|repeat split; lia|exact I].
Qed.

(* ------------------------------------------------------------------ *)
(** ** An image of the target size *)

(** Every coordinate of an axis of 256 is sampled at itself. *)
Lemma sample_identity i : 0 <= i < 256 ->
  sampleAxis i (f32_div (f32_of_Z 256) (f32_of_Z 256)) 256 = Ret (i, Z.min (i + 1) 255, S754_zero false).
Proof.
  intros Hi.
  assert (T : forallb (fun i => bool_decide (sampleAxis i (f32_div (f32_of_Z 256) (f32_of_Z 256)) 256 = Ret (i, Z.min (i + 1) 255, S754_zero false))) (seqZ 0 256) = true)
    by (vm_compute; reflexivity).
  rewrite forallb_forall in T. specialize (T i). rewrite <- list_elem_of_In, elem_of_seqZ in T.
  apply (bool_decide_eq_true_1 _ (T ltac:(lia))).
Qed.

(** A weight of zero keeps the first value. *)
Definition blend (p q d : float32) : float32 := f32_add (f32_mul p (f32_sub one d)) (f32_mul q d).

Lemma blend_first p q : is_u8 p -> is_u8 q -> blend (f32_of_Z p) (f32_of_Z q) (S754_zero false) = f32_of_Z p.
Proof.
  unfold is_u8. intros Hp Hq.
  assert (T : forallb (fun p => forallb (fun q => bool_decide (blend (f32_of_Z p) (f32_of_Z q) (S754_zero false) = f32_of_Z p)) (seqZ 0 256)) (seqZ 0 256) = true)
    by (vm_compute; reflexivity).
  rewrite forallb_forall in T. specialize (T p). rewrite <- list_elem_of_In, elem_of_seqZ in T. specialize (T ltac:(lia)).
  rewrite forallb_forall in T. specialize (T q). rewrite <- list_elem_of_In, elem_of_seqZ in T.
  apply (bool_decide_eq_true_1 _ (T ltac:(lia))).
Qed.

Lemma clamp_byte p : is_u8 p -> f32_to_u8 (f32_clamp (f32_of_Z p) (f32_of_Z 0) kPixelScaleMax) = Ret p.
Proof.
  unfold is_u8. intros Hp.
  assert (T : forallb (fun p => bool_decide (f32_to_u8 (f32_clamp (f32_of_Z p) (f32_of_Z 0) kPixelScaleMax) = Ret p)) (seqZ 0 256) = true) by (vm_compute; reflexivity).
  rewrite forallb_forall in T. specialize (T p). rewrite <- list_elem_of_In, elem_of_seqZ in T.
  apply (bool_decide_eq_true_1 _ (T ltac:(lia))).
Qed.

Lemma resized_identity im x y c : good_image im -> width im = 256 -> height im = 256 -> 0 <= x < 256 -> 0 <= y < 256 -> 0 <= c < 3 ->
  exists v, resized_pixel im 256 256 x y c = Ret v /\ pixels im !! Z.to_nat (pixel_at x y c 256) = Some v.
Proof.
  intros G W H Hx Hy Hc. unfold resized_pixel. rewrite W, H, (sample_identity x Hx), (sample_identity y Hy). cbn [mbind outcome_bind]. unfold interpolate.
  destruct (image_byte im x y c G ltac:(lia) ltac:(lia) Hc) as (p00 & -> & B00 & L00).
  destruct (image_byte im (Z.min (x + 1) 255) y c G ltac:(lia) ltac:(lia) Hc) as (p10 & -> & B10 & _).
  destruct (image_byte im x (Z.min (y + 1) 255) c G ltac:(lia) ltac:(lia) Hc) as (p01 & -> & B01 & _).
  destruct (image_byte im (Z.min (x + 1) 255) (Z.min (y + 1) 255) c G ltac:(lia) ltac:(lia) Hc) as (p11 & -> & B11 & _).
  cbn [mbind outcome_bind]. fold (blend (f32_of_Z p00) (f32_of_Z p10) (S754_zero false)). fold (blend (f32_of_Z p01) (f32_of_Z p11) (S754_zero false)).
  rewrite (blend_first p00 p10), (blend_first p01 p11) by assumption. fold (blend (f32_of_Z p00) (f32_of_Z p01) (S754_zero false)).
  rewrite blend_first by assumption. rewrite clamp_byte by exact B00. exists p00. split; [reflexivity|]. rewrite W in L00. exact L00.
Qed.

(* ------------------------------------------------------------------ *)
(** ** Theorems *)

(** Malformed images are refused, the sizes that wrap around included. *)
Lemma apply_rejects im :
  pixels im = [] \/ channels im <> 3 \/ width im <= 0 \/ height im <= 0 \/
  Z.of_nat (length (pixels im)) <> u64 (u64 (u64 (width im) * u64 (height im)) * u64 (channels im)) ->
  apply im = Throw invalid_argument.
Proof.
  intros H. unfold apply. case_bool_decide as E1; [reflexivity|]. destruct (channels im =? kChannels) eqn:E2; [|reflexivity]. cbn [negb].
  destruct (_ =? u64 _) eqn:E3; [|reflexivity]. cbn [negb]. apply Z.eqb_eq in E2, E3. unfold kChannels in E2.
  assert (E : (width im <=? 0) || (height im <=? 0) = true) by (rewrite orb_true_iff; destruct H as [H|[H|[H|[H|H]]]]; [contradiction|contradiction|lia|lia|contradiction]).
  unfold computeResizedDimensions. rewrite E. reflexivity.
Qed.

(** C17: Preprocessing an image is safe and exact: for every well-formed
    image whose sides are at most 2^24 and within a factor 2^15 of each
    other, no subscript is out of range, no conversion or sum overflows, and
    the tensor has 1 x 3 x 224 x 224 entries, all finite and between -3 and
    3; the entry of channel c, row y and column x is the normalised byte of
    the interpolated image at the centre crop. An image of 256 x 256 is not
    interpolated at all: its tensor is the normalised centre of the image. *)
Theorem preprocess_meaning im : good_image im -> tolerable im ->
  exists w h t, computeResizedDimensions (width im) (height im) = Ret (w, h) /\ apply im = Ret t /\
    Z.of_nat (length t) = fold_right Z.mul 1 outputShape /\ Forall (below 3) t /\
    forall y x c, 0 <= y < 224 -> 0 <= x < 224 -> 0 <= c < 3 ->
      0 <= crop_at w x < w /\ 0 <= crop_at h y < h /\
      exists v, resized_pixel im w h (crop_at w x) (crop_at h y) c = Ret v /\ is_u8 v /\
        t !! Z.to_nat (tensor_at y x c) = Some (normalised v c) /\
        (width im = 256 -> height im = 256 -> pixels im !! Z.to_nat (pixel_at (16 + x) (16 + y) c 256) = Some v).
Proof.
  intros G T. destruct (apply_tensor im G T) as (w & h & t & Ed & Hw & Hh & Ea & Lt & F). exists w, h, t.
  split; [exact Ed|]. split; [exact Ea|]. split; [exact Lt|]. split.
  { apply Forall_lookup_2. intros i f Hi. pose proof (lookup_lt_Some _ _ _ Hi) as Li.
    destruct (F ((Z.of_nat i mod 50176) / 224) (Z.of_nat i mod 224) (Z.of_nat i / 50176)) as (v & _ & Bv & Hv); try zdm.
    replace (Z.to_nat (tensor_at _ _ _)) with i in Hv by (unfold tensor_at, kCropSize; zdm).
    rewrite Hi in Hv. injection Hv as ->. apply normalise_ok; [exact Bv|zdm]. }
  intros y x c Hy Hx Hc. split; [apply crop_range; lia|]. split; [apply crop_range; lia|].
  destruct (F y x c Hy Hx Hc) as (v & Ev & Bv & Hv). exists v. repeat (split; [assumption|]). intros W H.
  rewrite W, H in Ed. replace (computeResizedDimensions 256 256) with (Ret (256, 256)) in Ed by (vm_compute; reflexivity). injection Ed as <- <-.
  destruct (resized_identity im (16 + x) (16 + y) c G W H ltac:(lia) ltac:(lia) Hc) as (v' & Ev' & L').
  change (crop_at 256 x) with (16 + x) in Ev. change (crop_at 256 y) with (16 + y) in Ev. congruence.
Qed.

Definition one_pixel : Image := {| width := 1; height := 1; channels := 3; pixels := [10; 20; 30] |}.

Lemma preprocess_meaning_witness :
  good_image one_pixel /\ tolerable one_pixel /\
  exists w h t, computeResizedDimensions 1 1 = Ret (w, h) /\ apply one_pixel = Ret t /\ Forall (below 3) t.
Proof.
  assert (G : good_image one_pixel) by (constructor; cbn; try lia; try reflexivity; bytes_lit).
  assert (T : tolerable one_pixel) by (split; cbn; lia). split; [exact G|]. split; [exact T|].
  destruct (preprocess_meaning one_pixel G T) as (w & h & t & E1 & E2 & _ & B & _). exists w, h, t.
  split; [exact E1|]. split; [exact E2|exact B].
Defined.

(** A strip one pixel wide, of a size the decoder accepts, is not refused,
    and its resized height does not fit an [int]. *)
Definition thin_strip : Image :=
  {| width := 1; height := 8388608; channels := 3; pixels := replicate (Z.to_nat 25165824) 0 |}.

Theorem thin_strip_refuted : good_image thin_strip /\ apply thin_strip = Undef.
Proof.
  assert (G : good_image thin_strip).
  { constructor; cbn [width height channels pixels thin_strip]; try lia; [reflexivity|rewrite length_replicate, Z2Nat.id by lia; reflexivity|].
    apply Forall_replicate. unfold is_u8. lia. }
  split; [exact G|]. destruct (good_accepted thin_strip G) as (A1 & A2 & A3). unfold apply. rewrite A1, A2, A3. cbn [negb width height thin_strip].
  replace (computeResizedDimensions 1 8388608) with (@Undef (Z * Z)) by (vm_compute; reflexivity). reflexivity.
Qed.
