(* ===== verification/Inspection.v ===== *)
(** * Quality inspection (ml/, presenter/QualityInspectionPresenter.cpp)

    An operator names an image; it is decoded, preprocessed
    (Preprocessor.v), run through a network in a plugin loaded on first use,
    and the most probable classes are reported. The image decoder
    (stb_image), the dynamic loader and the ONNX Runtime are the fields of a
    [Host], which may answer differently from one inspection to the next;
    [std::exp], and the order in which [std::partial_sort] leaves equal
    elements, are a class. Message texts are not modelled. *)
From Stdlib Require Import SpecFloat Ascii String.
From S2P Require Import Prelude Float32 Float64 FloatBounds Preprocessor.
Local Open Scope string_scope.
Local Open Scope Z_scope.

(* ------------------------------------------------------------------ *)
(** ** Labels (ImageNetLabels.cpp) *)

Definition is_trailing (c : ascii) : bool :=
  Ascii.eqb c "013"%char || Ascii.eqb c "010"%char || Ascii.eqb c " "%char || Ascii.eqb c "009"%char.

(** [rtrim]: the loop pops the last byte, first of the reversed text. *)
Fixpoint pop_trailing (r : list ascii) : list ascii :=
  match r with
  | c :: r' => if is_trailing c then pop_trailing r' else r
  | [] => []
  end.
Definition rtrim (s : string) : string := string_of_list_ascii (rev (pop_trailing (rev (list_ascii_of_string s)))).

Definition stripBom (s : string) : string :=
  match s with
  | String b0 (String b1 (String b2 rest)) =>
      if Ascii.eqb b0 "239"%char && Ascii.eqb b1 "187"%char && Ascii.eqb b2 "191"%char then rest else s
  | _ => s
  end.

(** [std::getline] until it fails: a last line without a newline counts when
    it is not empty. *)
Fixpoint getlines (text : string) : list string :=
  match text with
  | EmptyString => []
  | String c text =>
      if Ascii.eqb c "010"%char then EmptyString :: getlines text
      else match getlines text with
           | [] => [String c EmptyString]
           | line :: lines => String c line :: lines
           end
  end.

Fixpoint read_labels (firstLine : bool) (lines : list string) : list string :=
  match lines with
  | [] => []
  | line :: lines =>
      let line := if firstLine then stripBom line else line in
      let line := rtrim line in
      if bool_decide (line = EmptyString) then read_labels false lines else line :: read_labels false lines
  end.

(** The constructor from a file that exists and opens ([Some] text), and the
    one from a list. *)
Definition labels_from_list (labels : list string) : outcome (list string) :=
  if bool_decide (labels = []) then Throw runtime_error else Ret labels.

Definition labels_from_file (text : option string) : outcome (list string) :=
  match text with
  | None => Throw runtime_error
  | Some text =>
      let labels := read_labels true (getlines text) in
      if bool_decide (labels = []) then Throw runtime_error else Ret labels
  end.

Definition label_at (labels : list string) (classId : Z) : outcome string :=
  if (classId <? 0) || (Z.of_nat (length labels) <=? classId) then Throw out_of_range
  else vec_get labels (Z.to_nat classId).

Example labels_windows :
  labels_from_file (Some (String "239"%char (String "187"%char (String "191"%char "tench" +:+ String "013"%char (String "010"%char (String "010"%char "shark  ")))))) = Ret ["tench"; "shark"].
Proof. vm_compute. reflexivity. Qed.

(** [path.filename()]: what follows the last slash. *)
Fixpoint before_slash (r : list ascii) : list ascii :=
  match r with
  | c :: r' => if Ascii.eqb c "/"%char then [] else c :: before_slash r'
  | [] => []
  end.
Definition filename (path : string) : string := string_of_list_ascii (rev (before_slash (rev (list_ascii_of_string path)))).

(* ------------------------------------------------------------------ *)
(** ** Softmax and the best classes (onnx_plugin.cpp) *)

(** A comparison that the sorting algorithms accept on the elements of [l]. *)
Definition strict_weak (c : Z -> Z -> bool) (l : list Z) : Prop :=
  (forall a b, a ∈ l -> b ∈ l -> c a b = true -> c b a = false) /\
  (forall a b d, a ∈ l -> b ∈ l -> d ∈ l -> c a b = false -> c b d = false -> c a d = false).

(** [std::exp] on single precision, which every platform makes exact at zero
    and which stays in the unit interval below zero, and
    [std::partial_sort]: the best [k] elements come first, in order. *)
Class Algorithms := {
  exp32 : float32 -> float32;
  exp32_zero : forall s, exp32 (S754_zero s) = one;
  exp32_unit : forall a, is_nan a = false -> f32_leb a (S754_zero false) = true ->
    f32_finite (exp32 a) /\ 0 <= f32_units (exp32 a) <= 2 ^ 149;
  partial_sort : (Z -> Z -> bool) -> list Z -> nat -> list Z;
  partial_sort_perm : forall c l k, partial_sort c l k ≡ₚ l;
  partial_sort_best : forall c l k i j a b, strict_weak c l -> (i < k)%nat -> (i < j)%nat ->
    partial_sort c l k !! i = Some a -> partial_sort c l k !! j = Some b -> c b a = false }.

(** [<] on these floats is a strict weak ordering: no NaN, or no two that
    differ. The standard algorithms are undefined otherwise. *)
Definition comparable (l : list float32) : bool :=
  negb (existsb is_nan l) || forallb (fun a => negb (existsb (f32_ltb a) l)) l.

Definition kMinLogitCount : nat := 2.

Definition max_element (x : float32) (l : list float32) : float32 :=
  fold_left (fun m y => if f32_ltb m y then y else m) l x.

Section plugin.
Context `{Algorithms}.

Definition softmax (logits : list float32) : outcome (list float32) :=
  match logits with
  | [] => Undef
  | x :: l =>
      if negb (comparable logits) then Undef
      else
        let maxLogit := max_element x l in
        let probs := map (fun logit => exp32 (f32_sub logit maxLogit)) logits in
        let denom := fold_left f32_add probs (S754_zero false) in
        if f32_leb denom (S754_zero false) then Throw runtime_error
        else Ret (map (fun value => f32_div value denom) probs)
  end.

(** [probs[i]], for an index of the ordering. *)
Definition prob_at (probs : list float32) (i : Z) : float32 := default f32_nan (probs !! Z.to_nat i).

Definition better (probs : list float32) (lhs rhs : Z) : bool := f32_ltb (prob_at probs rhs) (prob_at probs lhs).

Definition topKIndices (probs : list float32) (k : nat) : outcome (list Z) :=
  let ordering := seqZ 0 (Z.of_nat (length probs)) in
  if (length ordering <? k)%nat || negb (comparable probs) then Undef
  else Ret (take k (partial_sort (better probs) ordering k)).
End plugin.

(* ------------------------------------------------------------------ *)
(** ** The world outside: decoder, loader, ONNX Runtime *)

Section inspection.
Context `{Algorithms} (Handle Session : Type).

Record Host := {
  exists_ : string -> bool;                              (* std::filesystem::exists *)
  read_text : string -> option string;                   (* an ifstream that opens *)
  stbi_load : string -> option (Z * Z * list Z);
  stbi_load_from_memory : list Z -> Z -> option (Z * Z * list Z);
  dl_open : string -> option Handle;
  dl_sym : Handle -> string -> bool;                     (* not null *)
  ort_open : string -> option Session;                   (* None: an Ort::Exception *)
  ort_run : Session -> list float32 -> list Z -> option (list (list float32));
  clock_start : Z;                                       (* steady_clock, ns *)
  clock_end : Z }.

(* ---------------------------------------------------------------- *)
(** ** Decoding (ImageDecoder.cpp) *)

Definition kForceRgbChannels : Z := 3.

(** The buffer must hold the bytes that are copied. *)
Definition buildImage (raw : list Z) (w h : Z) : outcome Image :=
  let byteCount := u64 (u64 (u64 w * u64 h) * u64 kForceRgbChannels) in
  if Z.of_nat (length raw) <? byteCount then Undef
  else Ret {| width := w; height := h; channels := kForceRgbChannels; pixels := take (Z.to_nat byteCount) raw |}.

Definition decodeFile (host : Host) (path : string) : outcome Image :=
  if negb (exists_ host path) then Throw runtime_error
  else match stbi_load host (c_str path) with
       | None => Throw runtime_error
       | Some (w, h, raw) => buildImage raw w h
       end.

(** The conversion of the size to [int]. *)
Definition i32 (z : Z) : Z := (z + 2147483648) mod 4294967296 - 2147483648.

Definition decodeMemory (host : Host) (bytes : list Z) : outcome Image :=
  if bool_decide (bytes = []) then Throw runtime_error
  else match stbi_load_from_memory host bytes (i32 (Z.of_nat (length bytes))) with
       | None => Throw runtime_error
       | Some (w, h, raw) => buildImage raw w h
       end.

(* ---------------------------------------------------------------- *)
(** ** The classifier in the plugin (OnnxClassifierImpl) *)

Record Classification := { classId : Z; label : string; confidence : float32 }.

Record OnnxClassifierImpl := { labels_ : list string; ort_ : Session; impl_name_ : string }.

Definition new_impl (host : Host) (modelPath labelsPath : string) : outcome OnnxClassifierImpl :=
  labels ← labels_from_file (if exists_ host labelsPath then read_text host labelsPath else None);
  match ort_open host modelPath with
  | None => Throw library_exception
  | Some session => Ret {| labels_ := labels; ort_ := session; impl_name_ := "ONNX plugin (" +:+ filename modelPath +:+ ")" |}
  end.

(** The row of one class. *)
Definition entry (impl : OnnxClassifierImpl) (probs : list float32) (id : Z) : outcome Classification :=
  name ← label_at (labels_ impl) id;
  p ← vec_at probs id;
  Ret {| classId := id; label := name; confidence := p |}.

Fixpoint entries (impl : OnnxClassifierImpl) (probs : list float32) (ids : list Z) : outcome (list Classification) :=
  match ids with
  | [] => Ret []
  | id :: ids => e ← entry impl probs id; es ← entries impl probs ids; Ret (e :: es)
  end.

Definition impl_classifyTopK (host : Host) (impl : OnnxClassifierImpl) (image : Image) (k : Z) : outcome (list Classification) :=
  if k <=? 0 then Throw invalid_argument
  else
    inputBuffer ← Preprocessor.apply image;
    match ort_run host (ort_ impl) inputBuffer outputShape with
    | None => Throw library_exception
    | Some [] => Throw runtime_error
    | Some (logits :: _) =>
        if (length logits <? kMinLogitCount)%nat then Throw runtime_error
        else
          let kClamped := Z.min k (Z.of_nat (length logits)) in
          probs ← softmax logits;
          topIndices ← topKIndices probs (Z.to_nat kClamped);
          entries impl probs topIndices
    end.

(** [industrial_ml_create_onnx_classifier]: null when the constructor
    throws. *)
Definition create_onnx_classifier (host : Host) (modelPath labelsPath : string) : option OnnxClassifierImpl :=
  match new_impl host modelPath labelsPath with Ret impl => Some impl | _ => None end.

(* ---------------------------------------------------------------- *)
(** ** The facade that loads the plugin (OnnxImageClassifier.cpp) *)

Definition kCreateSymbol : string := "industrial_ml_create_onnx_classifier".
Definition kDestroySymbol : string := "industrial_ml_destroy_classifier".
Definition kPluginFilenames : list string :=
  ["libindustrial_ml_ort.so"; "./libindustrial_ml_ort.so"; "industrial_ml_ort.so"; "./industrial_ml_ort.so"].

(** The plugin of the process: the handle, and whether each entry point is
    known. *)
Record PluginState := { handle : option Handle; createFn : bool; destroyFn : bool }.
Definition no_plugin : PluginState := {| handle := None; createFn := false; destroyFn := false |}.

(** The first of the files that opens. *)
Fixpoint open_first (host : Host) (names : list string) : option Handle :=
  match names with
  | [] => None
  | name :: names => match dl_open host name with Some h => Some h | None => open_first host names end
  end.

Definition ensurePluginLoaded (host : Host) (state : PluginState) : PluginState * option exn :=
  if createFn state then (state, None)
  else match open_first host kPluginFilenames with
       | None => ({| handle := None; createFn := createFn state; destroyFn := destroyFn state |}, Some runtime_error)
       | Some h =>
           let state := {| handle := Some h; createFn := dl_sym host h kCreateSymbol; destroyFn := dl_sym host h kDestroySymbol |} in
           (state, if createFn state && destroyFn state then None else Some runtime_error)
       end.

Record OnnxImageClassifier := {
  modelPath_ : string;
  labelsPath_ : string;
  pluginImpl_ : option OnnxClassifierImpl;
  pluginDestroy_ : bool;
  name_ : string }.

Definition new_classifier (host : Host) (modelPath labelsPath : string) : outcome OnnxImageClassifier :=
  if negb (exists_ host modelPath) then Throw runtime_error
  else if negb (exists_ host labelsPath) then Throw runtime_error
  else Ret {| modelPath_ := modelPath; labelsPath_ := labelsPath; pluginImpl_ := None; pluginDestroy_ := false;
             name_ := "ONNX (" +:+ filename modelPath +:+ ")" |}.

Definition ensureSessionLoaded (host : Host) (state : PluginState) (c : OnnxImageClassifier) : PluginState * OnnxImageClassifier * option exn :=
  match pluginImpl_ c with
  | Some _ => (state, c, None)
  | None =>
      let '(state, failure) := ensurePluginLoaded host state in
      match failure with
      | Some e => (state, c, Some e)
      | None =>
          if negb (createFn state && destroyFn state) then (state, c, Some runtime_error)
          else
            let impl := create_onnx_classifier host (c_str (modelPath_ c)) (c_str (labelsPath_ c)) in
            let c := {| modelPath_ := modelPath_ c; labelsPath_ := labelsPath_ c; pluginImpl_ := impl; pluginDestroy_ := true; name_ := name_ c |} in
            (state, c, match impl with None => Some runtime_error | Some _ => None end)
      end
  end.

Definition classifyTopK (host : Host) (state : PluginState) (c : OnnxImageClassifier) (image : Image) (k : Z)
    : PluginState * OnnxImageClassifier * outcome (list Classification) :=
  let '(state, c, failure) := ensureSessionLoaded host state c in
  match failure, pluginImpl_ c with
  | Some e, _ => (state, c, Throw e)
  | None, Some impl => (state, c, impl_classifyTopK host impl image k)
  | None, None => (state, c, Undef)
  end.

(** The destructor: the plugin deletes what the plugin made. *)
Definition destroyed (c : OnnxImageClassifier) : bool := match pluginImpl_ c with Some _ => pluginDestroy_ c | None => false end.

(* ---------------------------------------------------------------- *)
(** ** The presenter (QualityInspectionPresenter.cpp) *)

Record InspectionResultViewModel := { sourcePath : string; results : list Classification; latency : Z }.

Inductive inspection_event :=
| onInspectionStarted (path : string)
| onInspectionCompleted (vm : InspectionResultViewModel)
| onInspectionFailed (path : string) (what : exn).

(** An observer is how it takes an event: [Some] when it throws. *)
Definition Observer : Type := inspection_event -> option exn.

(** [notifyAll]: which observers were called, up to one that throws. *)
Fixpoint notify_from (i : nat) (observers : list Observer) (ev : inspection_event) : list (nat * inspection_event) * option exn :=
  match observers with
  | [] => ([], None)
  | o :: observers =>
      match o ev with
      | Some e => ([(i, ev)], Some e)
      | None => let '(calls, e) := notify_from (S i) observers ev in ((i, ev) :: calls, e)
      end
  end.

Record QualityInspectionPresenter := { observers_ : list Observer; topK_ : Z }.

Definition notifyAll (p : QualityInspectionPresenter) (ev : inspection_event) : list (nat * inspection_event) * option exn :=
  notify_from 0 (observers_ p) ev.

Definition kDefaultTopK : Z := 5.
Definition new_presenter : QualityInspectionPresenter := {| observers_ := []; topK_ := kDefaultTopK |}.
Definition setTopK (k : Z) (p : QualityInspectionPresenter) : QualityInspectionPresenter :=
  {| observers_ := observers_ p; topK_ := Z.max 1 k |}.

(** What an inspection leaves behind: the process's plugin, the
    classifier, the calls made to observers, and an exception that escapes. *)
Definition inspection : Type := PluginState * OnnxImageClassifier * list (nat * inspection_event) * option exn.

(** The handlers of the [try] block. *)
Definition inspection_failed (p : QualityInspectionPresenter) (path : string) (e : exn) (state : PluginState) (c : OnnxImageClassifier)
    (calls : list (nat * inspection_event)) : outcome inspection :=
  let '(more, escaped) := notifyAll p (onInspectionFailed path e) in
  Ret (state, c, (calls ++ more)%list, escaped).

Definition inspectFile (host : Host) (p : QualityInspectionPresenter) (path : string) (state : PluginState) (c : OnnxImageClassifier)
    : outcome inspection :=
  let '(started, escaped) := notifyAll p (onInspectionStarted path) in
  match escaped with
  | Some e => Ret (state, c, started, Some e)
  | None =>
      match decodeFile host path with
      | Undef => Undef
      | Throw e => inspection_failed p path e state c started
      | Ret image =>
          let '(state, c, classifications) := classifyTopK host state c image (topK_ p) in
          match classifications with
          | Undef => Undef
          | Throw e => inspection_failed p path e state c started
          | Ret rows =>
              let viewModel := {| sourcePath := path; results := rows; latency := Z.quot (clock_end host - clock_start host) 1000000 |} in
              let '(completed, thrown) := notifyAll p (onInspectionCompleted viewModel) in
              match thrown with
              | None => Ret (state, c, (started ++ completed)%list, None)
              | Some e => inspection_failed p path e state c (started ++ completed)%list
              end
          end
      end
  end.

(* ---------------------------------------------------------------- *)
(** ** Softmax *)

(** In the unit interval. *)
Definition unit_float (p : float32) : Prop := f32_finite p /\ 0 <= f32_units p <= 2 ^ 149.

Lemma unit_moderate p : unit_float p -> moderate p.
Proof. intros [F B]. split; [exact F|]. change (2 ^ 199) with (2 ^ 50 * 2 ^ 149). lia. Qed.

Lemma one_units : f32_finite one /\ f32_units one = 2 ^ 149.
Proof. split; vm_compute; [split; [reflexivity|split; discriminate]|reflexivity]. Qed.

Lemma finite_not_nan a : f32_finite a -> is_nan a = false.
Proof. destruct a; cbn; tauto. Qed.

Lemma finite_comparable l : Forall f32_finite l -> comparable l = true.
Proof.
  intros F. unfold comparable. replace (existsb is_nan l) with false; [reflexivity|]. symmetry.
  induction F as [|a l Fa _ IH]; [reflexivity|]. cbn [existsb]. rewrite IH, finite_not_nan by exact Fa. reflexivity.
Qed.

Lemma max_spec l : forall x, Forall f32_valid (x :: l) ->
  max_element x l ∈ x :: l /\ Forall (fun y => f32_units y <= f32_units (max_element x l)) (x :: l).
Proof.
  unfold max_element. induction l as [|y l IH]; intros x F; [split; [left|repeat constructor; cbn; lia]|].
  apply Forall_cons in F as [Vx F]. apply Forall_cons in F as [Vy F]. cbn [fold_left].
  pose proof (ltb_units x y Vx Vy) as L. destruct (f32_ltb x y) eqn:E.
  - destruct (IH y ltac:(constructor; assumption)) as [I B]. set (m := fold_left _ l y) in *. split; [right; exact I|].
    apply Forall_cons in B as [By B]. repeat (constructor; [|]); try assumption. pose proof (proj1 L eq_refl). lia.
  - destruct (IH x ltac:(constructor; assumption)) as [I B]. set (m := fold_left _ l x) in *.
    split; [apply elem_of_cons in I as [->|I]; [left|right; right; exact I]|].
    apply Forall_cons in B as [Bx B]. repeat (constructor; [|]); try assumption.
    destruct (Z.lt_ge_cases (f32_units x) (f32_units y)) as [G|G]; [apply L in G; congruence|lia].
Qed.

(** The running sum of numbers of the unit interval: finite for 2^22 of
    them, and at least one as soon as one of them is. *)
Lemma sum_spec es : forall acc i, Forall unit_float es -> f32_finite acc -> 0 <= i -> 0 <= f32_units acc <= 2 * i * 2 ^ 149 ->
  i + Z.of_nat (length es) <= 2 ^ 22 ->
  let d := fold_left f32_add es acc in
  f32_finite d /\ 0 <= f32_units d <= 2 * (i + Z.of_nat (length es)) * 2 ^ 149 /\
  (2 ^ 149 <= f32_units acc \/ Exists (fun e => f32_units e = 2 ^ 149) es -> 2 ^ 149 <= f32_units d).
Proof.
  induction es as [|e es IH]; intros acc i Fes Fa Hi Ha Hl; cbn [fold_left length] in *.
  - split; [exact Fa|]. split; [lia|]. intros [E|E]; [exact E|inversion E].
  - apply Forall_cons in Fes as [Ue Fes]. pose proof (unit_moderate e Ue) as Me. destruct Ue as [Fe Be].
    assert (Ma : moderate acc) by (split; [exact Fa|]; change (2 ^ 199) with (2 ^ 27 * 2 ^ 23 * 2 ^ 149); lia).
    destruct (add_near acc e Ma Me) as [Fs Ns]. pose proof (add_nonneg acc e Fa Fe ltac:(lia)) as Ps. unfold near in Ns.
    set (s := f32_add acc e) in *. destruct (IH s (i + 1) Fes Fs ltac:(lia) ltac:(lia) ltac:(lia)) as (F & B & G).
    split; [exact F|]. split; [lia|]. intros E. apply G. destruct E as [E|E].
    + left. apply add_floor; [exact Ma|exact Me|lia].
    + inversion E as [? ? E'|? ? E']; subst; [left; apply add_floor; [exact Ma|exact Me|lia]|right; exact E'].
Qed.

Lemma softmax_ok logits : Forall f32_valid logits -> (2 <= length logits)%nat -> Z.of_nat (length logits) <= 2 ^ 22 ->
  exists probs, softmax logits = Ret probs /\ length probs = length logits /\ Forall unit_float probs.
Proof.
  intros V L2 L22. destruct logits as [|x l]; [cbn in L2; lia|]. unfold softmax.
  rewrite finite_comparable by (eapply Forall_impl; [exact V|]; intros a [_ F]; exact F). cbn [negb].
  destruct (max_spec l x V) as [I B]. set (m := max_element x l) in *.
  assert (Fm : f32_finite m) by (pose proof (proj1 (Forall_forall _ _) V m I) as [_ F]; exact F).
  set (es := map (fun logit => exp32 (f32_sub logit m)) (x :: l)). assert (Hes : Forall unit_float es).
  { unfold es. apply Forall_map, Forall_forall. intros a Ha. pose proof (proj1 (Forall_forall _ _) V a Ha) as [_ Fa].
    destruct (sub_nonpos a m Fa Fm (proj1 (Forall_forall _ _) B a Ha)) as [N Le]. exact (exp32_unit _ N Le). }
  assert (Eo : Exists (fun e => f32_units e = 2 ^ 149) es).
  { apply Exists_exists. destruct (sub_self m Fm) as [s Es]. exists (exp32 (f32_sub m m)). split; [apply list_elem_of_In; unfold es; apply in_map_iff; exists m; split; [reflexivity|apply list_elem_of_In, I]|].
    rewrite Es, exp32_zero. apply one_units. }
  destruct (sum_spec es (S754_zero false) 0 Hes Logic.I ltac:(lia) ltac:(cbn; lia) ltac:(unfold es; rewrite length_map; lia)) as (Fd & Bd & Gd).
  specialize (Gd (or_intror Eo)). set (d := fold_left f32_add es (S754_zero false)) in *. cbv zeta.
  assert (E : f32_leb d (S754_zero false) = false).
  { clearbody d. destruct d as [s|s| |s k e]; try contradiction. destruct s; [|reflexivity].
    cbn [f32_units] in Gd. assert (0 <= 2 ^ (e + 149)) by (apply Z.pow_nonneg; lia). nia. }
  rewrite E. eexists. split; [reflexivity|]. split; [rewrite length_map; unfold es; apply length_map|].
  apply Forall_map. eapply Forall_impl; [exact Hes|]. intros v Uv. pose proof (unit_moderate v Uv) as Mv. destruct Uv as [Fv Bv].
  assert (Md : moderate d) by (split; [exact Fd|]; unfold es in Bd; rewrite length_map in Bd; change (2 ^ 199) with (2 ^ 27 * 2 ^ 23 * 2 ^ 149); lia).
  destruct (div_unit v d Mv Md ltac:(lia) ltac:(lia)) as [F U]. split; assumption.
Qed.

(* ---------------------------------------------------------------- *)
(** ** The best classes *)

(** The order of finite floats, as one of integers. *)
Definition key_sign (a : float32) : Z := match a with S754_finite s _ _ => sign_of s | _ => 0 end.
Definition key_exp (a : float32) : Z := match a with S754_finite s _ e => sign_of s * e | _ => 0 end.
Definition key_mant (a : float32) : Z := match a with S754_finite s m _ => sign_of s * Z.pos m | _ => 0 end.

Lemma ltb_key a b : f32_finite a -> f32_finite b ->
  (f32_ltb a b = true <-> key_sign a < key_sign b \/ (key_sign a = key_sign b /\ (key_exp a < key_exp b \/ (key_exp a = key_exp b /\ key_mant a < key_mant b)))).
Proof.
  intros Fa Fb. unfold f32_ltb, SFltb. destruct a as [sa|sa| |sa ma ea], b as [sb|sb| |sb mb eb]; try contradiction; cbn [SFcompare key_sign key_exp key_mant];
    try (destruct sa; cbn [sign_of]); try (destruct sb; cbn [sign_of]); try (split; intros; (discriminate || reflexivity || lia)).
  - destruct (Z.compare_spec ea eb) as [E|E|E]; [|split; intros; (discriminate || lia)|split; intros; (reflexivity || lia)].
    change (Pos.compare_cont Eq ma mb) with (ma ?= mb)%positive. destruct (Pos.compare_spec ma mb); cbn [CompOpp]; split; intros; (discriminate || reflexivity || lia).
  - destruct (Z.compare_spec ea eb) as [E|E|E]; [|split; intros; (reflexivity || lia)|split; intros; (discriminate || lia)].
    change (Pos.compare_cont Eq ma mb) with (ma ?= mb)%positive. destruct (Pos.compare_spec ma mb); split; intros; (discriminate || reflexivity || lia).
Qed.

Lemma ltb_key_false a b : f32_finite a -> f32_finite b ->
  (f32_ltb a b = false <-> key_sign b < key_sign a \/ (key_sign b = key_sign a /\ (key_exp b < key_exp a \/ (key_exp b = key_exp a /\ key_mant b <= key_mant a)))).
Proof. intros Fa Fb. pose proof (ltb_key a b Fa Fb) as K. destruct (f32_ltb a b); split; intros; (discriminate || reflexivity || lia). Qed.

Lemma prob_at_finite probs i : Forall unit_float probs -> i ∈ seqZ 0 (Z.of_nat (length probs)) -> f32_finite (prob_at probs i).
Proof.
  intros F Hi. apply elem_of_seqZ in Hi. unfold prob_at. destruct (probs !! Z.to_nat i) as [p|] eqn:Hp; [apply (Forall_lookup_1 _ _ _ _ F Hp)|].
  apply lookup_ge_None in Hp. lia.
Qed.

Lemma better_strict_weak probs : Forall unit_float probs -> strict_weak (better probs) (seqZ 0 (Z.of_nat (length probs))).
Proof.
  intros F. split.
  - intros a b Ha Hb. unfold better. rewrite ltb_key, ltb_key_false by (apply prob_at_finite; assumption). lia.
  - intros a b d Ha Hb Hd. unfold better. rewrite !ltb_key_false by (apply prob_at_finite; assumption). lia.
Qed.

Lemma seqZ_nodup n : NoDup (seqZ 0 n).
Proof. apply NoDup_seqZ. Qed.

Lemma top_k_spec probs k : Forall unit_float probs -> (k <= length probs)%nat ->
  exists ids, topKIndices probs k = Ret ids /\ length ids = k /\ NoDup ids /\
    Forall (fun id => 0 <= id < Z.of_nat (length probs)) ids /\
    (forall i j a b, (i < j)%nat -> ids !! i = Some a -> ids !! j = Some b -> better probs b a = false) /\
    (forall a b, a ∈ ids -> 0 <= b < Z.of_nat (length probs) -> b ∉ ids -> better probs b a = false).
Proof.
  intros F Hk. pose proof (better_strict_weak probs F) as SW. unfold topKIndices. rewrite length_seqZ, Nat2Z.id.
  replace (length probs <? k)%nat with false by (symmetry; apply Nat.ltb_ge; exact Hk).
  rewrite finite_comparable by (eapply Forall_impl; [exact F|]; intros p [Fp _]; exact Fp). cbn [negb orb].
  set (l := seqZ 0 (Z.of_nat (length probs))) in *. set (s := partial_sort (better probs) l k).
  pose proof (partial_sort_perm (better probs) l k : s ≡ₚ l) as P. pose proof (seqZ_nodup (Z.of_nat (length probs)) : NoDup l) as ND. rewrite <- P in ND.
  assert (Ls : length s = length probs) by (rewrite P; unfold l; rewrite length_seqZ; lia).
  exists (take k s). split; [reflexivity|]. split; [rewrite length_take; lia|]. split; [eapply sublist_NoDup; [exact ND|apply sublist_take]|].
  split; [apply Forall_take, Forall_forall; intros a Ha; rewrite P in Ha; apply elem_of_seqZ in Ha; lia|]. split.
  - intros i j a b Hij Ha Hb. apply lookup_take_Some in Ha as [Ha Hi], Hb as [Hb Hj]. exact (partial_sort_best _ l k i j a b SW Hi Hij Ha Hb).
  - intros a b Ha Hb Hnb. apply list_elem_of_lookup_1 in Ha as [i Ha]. apply lookup_take_Some in Ha as [Ha Hi].
    assert (Hbs : b ∈ s) by (rewrite P; apply elem_of_seqZ; lia). apply list_elem_of_lookup_1 in Hbs as [j Hj].
    destruct (decide (j < k)%nat) as [L|L]; [exfalso; apply Hnb; eapply list_elem_of_lookup_2; apply lookup_take_Some; split; [exact Hj|exact L]|].
    exact (partial_sort_best _ l k i j a b SW Hi ltac:(lia) Ha Hj).
Qed.

(** The rows of a result: the [k] most probable classes of [probs], each
    with its label and probability, most probable first. *)
Definition best_rows (labels : list string) (probs : list float32) (k : Z) (rows : list Classification) : Prop :=
  Z.of_nat (length rows) = Z.min k (Z.of_nat (length probs)) /\ NoDup (map classId rows) /\
  Forall (fun r => 0 <= classId r < Z.of_nat (length probs) /\ labels !! Z.to_nat (classId r) = Some (label r) /\
                   probs !! Z.to_nat (classId r) = Some (confidence r) /\ unit_float (confidence r)) rows /\
  (forall i j r r', (i < j)%nat -> rows !! i = Some r -> rows !! j = Some r' -> f32_ltb (confidence r) (confidence r') = false) /\
  (forall id p r, probs !! id = Some p -> Z.of_nat id ∉ map classId rows -> r ∈ rows -> f32_ltb (confidence r) p = false).

(** A row as its class says it. *)
Definition row_of (labels : list string) (probs : list float32) (r : Classification) : Prop :=
  0 <= classId r < Z.of_nat (length probs) /\ labels !! Z.to_nat (classId r) = Some (label r) /\ probs !! Z.to_nat (classId r) = Some (confidence r).

Lemma entries_spec impl probs ids : Forall (fun id => 0 <= id < Z.of_nat (length probs)) ids ->
  (exists rows, entries impl probs ids = Ret rows /\ map classId rows = ids /\ Forall (row_of (labels_ impl) probs) rows) \/
  (entries impl probs ids = Throw out_of_range /\ (length (labels_ impl) < length probs)%nat).
Proof.
  induction 1 as [|id ids Hid _ IH]; [left; exists []; repeat split; constructor|]. cbn [entries]. unfold entry, label_at.
  destruct (_ || _) eqn:E; [right; split; [reflexivity|]; apply orb_true_iff in E; lia|]. apply orb_false_iff in E as [_ E].
  destruct (vec_get_lt (labels_ impl) (Z.to_nat id) ltac:(lia)) as (name & -> & Hn). destruct (vec_at_lt probs id ltac:(lia)) as (p & -> & Hp).
  cbn [mbind outcome_bind]. destruct IH as [(rows & -> & M & F)|[-> L]]; [left|right; split; [reflexivity|exact L]]. cbn [mbind outcome_bind].
  eexists. split; [reflexivity|]. cbn [map classId]. rewrite M. split; [reflexivity|]. constructor; [|exact F]. repeat split; cbn; (lia || assumption).
Qed.

Lemma prob_at_row labels probs r : row_of labels probs r -> prob_at probs (classId r) = confidence r.
Proof. intros (_ & _ & H'). unfold prob_at. rewrite H'. reflexivity. Qed.

Lemma rows_best labels probs k rows : Forall unit_float probs -> 1 <= k ->
  topKIndices probs (Z.to_nat (Z.min k (Z.of_nat (length probs)))) = Ret (map classId rows) ->
  Forall (row_of labels probs) rows -> best_rows labels probs k rows.
Proof.
  intros F Hk E FR. destruct (top_k_spec probs (Z.to_nat (Z.min k (Z.of_nat (length probs)))) F ltac:(lia)) as (ids & E' & L & ND & R & S & B).
  rewrite E in E'. injection E' as <-. rewrite length_map in L. split; [lia|]. split; [exact ND|]. split.
  { eapply Forall_impl; [exact FR|]. intros r (R1 & R2 & R3). repeat (split; [assumption|]). exact (Forall_lookup_1 _ _ _ _ F R3). }
  split.
  - intros i j r r' Hij Hr Hr'. specialize (S i j (classId r) (classId r') Hij). rewrite !list_lookup_fmap in S. rewrite Hr, Hr' in S. specialize (S eq_refl eq_refl).
    unfold better in S. rewrite (prob_at_row labels probs r), (prob_at_row labels probs r') in S by (eapply Forall_lookup_1; eassumption). exact S.
  - intros id p r Hp Hid Hr. pose proof (lookup_lt_Some _ _ _ Hp) as Lid.
    specialize (B (classId r) (Z.of_nat id) ltac:(apply list_elem_of_In, in_map, list_elem_of_In, Hr) ltac:(lia) Hid).
    unfold better in B. rewrite (prob_at_row labels probs r) in B by (eapply Forall_forall; eassumption).
    unfold prob_at in B. rewrite Nat2Z.id, Hp in B. exact B.
Qed.

(* ---------------------------------------------------------------- *)
(** ** One classification *)

(** What stb_image documents: sides up to STBI_MAX_DIMENSIONS and a buffer
    of that many RGB pixels. *)
Definition decoder_ok (host : Host) : Prop := forall path w h raw, stbi_load host path = Some (w, h, raw) ->
  1 <= w <= 2 ^ 24 /\ 1 <= h <= 2 ^ 24 /\ Z.of_nat (length raw) = w * h * 3 /\ bytes_ok raw.

(** The network's answer to this image, when there is one of at least two
    classes, has finite numbers, and not more than 2^22 of them. *)
Definition tame (host : Host) (impl : OnnxClassifierImpl) (image : Image) : Prop := forall tensor logits rest,
  Preprocessor.apply image = Ret tensor -> ort_run host (ort_ impl) tensor outputShape = Some (logits :: rest) ->
  (2 <= length logits)%nat -> Forall f32_valid logits /\ Z.of_nat (length logits) <= 2 ^ 22.

Lemma decode_good host path image : decoder_ok host -> decodeFile host path = Ret image -> good_image image.
Proof.
  intros D. unfold decodeFile. destruct (negb _); [discriminate|]. destruct (stbi_load host (c_str path)) as [[[w h] raw]|] eqn:E; [|discriminate].
  destruct (D _ _ _ _ E) as (Hw & Hh & L & B). unfold buildImage, kForceRgbChannels. assert (w * h <= 2 ^ 24 * 2 ^ 24) by nia. assert (0 <= w * h) by nia.
  rewrite (u64_id w), (u64_id h), (u64_id 3) by lia. rewrite (u64_id (w * h)), u64_id by lia. destruct (_ <? _); [discriminate|]. intros [= <-].
  rewrite take_ge by lia. constructor; cbn; auto; lia.
Qed.

Lemma decodeFile_defined host path : decoder_ok host -> decodeFile host path <> Undef.
Proof.
  intros D. unfold decodeFile. destruct (negb _); [discriminate|]. destruct (stbi_load host (c_str path)) as [[[w h] raw]|] eqn:E; [|discriminate].
  destruct (D _ _ _ _ E) as (Hw & Hh & L & B). unfold buildImage, kForceRgbChannels. assert (w * h <= 2 ^ 24 * 2 ^ 24) by nia. assert (0 <= w * h) by nia.
  rewrite (u64_id w), (u64_id h), (u64_id 3) by lia. rewrite (u64_id (w * h)), u64_id by lia. destruct (_ <? _) eqn:G; [lia|discriminate].
Qed.

(** The rows come from the network's answer to the preprocessed image. *)
Definition answered (host : Host) (impl : OnnxClassifierImpl) (image : Image) (k : Z) (rows : list Classification) : Prop :=
  exists tensor logits rest probs, Preprocessor.apply image = Ret tensor /\
    ort_run host (ort_ impl) tensor outputShape = Some (logits :: rest) /\ softmax logits = Ret probs /\ best_rows (labels_ impl) probs k rows.

(** The network answers, with a label for every class. *)
Definition answerable (host : Host) (impl : OnnxClassifierImpl) (image : Image) : Prop :=
  exists tensor logits rest, Preprocessor.apply image = Ret tensor /\
    ort_run host (ort_ impl) tensor outputShape = Some (logits :: rest) /\ (2 <= length logits <= length (labels_ impl))%nat.

Lemma classify_spec host impl image k : tame host impl image -> good_image image -> tolerable image -> 1 <= k ->
  (exists rows, impl_classifyTopK host impl image k = Ret rows /\ answered host impl image k rows) \/
  (exists e, impl_classifyTopK host impl image k = Throw e /\ ~ answerable host impl image).
Proof.
  intros N G T Hk. unfold impl_classifyTopK. replace (k <=? 0) with false by lia.
  destruct (apply_tensor image G T) as (_ & _ & t & _ & _ & _ & Et & _). rewrite Et. cbn [mbind outcome_bind]. unfold answerable, answered. rewrite Et.
  destruct (ort_run host (ort_ impl) t outputShape) as [[|logits rest]|] eqn:Er;
    [right; eexists; split; [reflexivity|]; intros (t' & ? & ? & [= <-] & E & _); congruence| |right; eexists; split; [reflexivity|]; intros (t' & ? & ? & [= <-] & E & _); congruence].
  destruct (length logits <? kMinLogitCount)%nat eqn:E2.
  { right. eexists. split; [reflexivity|]. intros (t' & l' & ? & [= <-] & E & L & _). rewrite Er in E. injection E as <- <-. apply Nat.ltb_lt in E2. unfold kMinLogitCount in E2. lia. }
  apply Nat.ltb_ge in E2. unfold kMinLogitCount in E2. destruct (N _ _ _ Et Er E2) as [V L22].
  destruct (softmax_ok logits V E2 L22) as (probs & Es & Lp & Up). rewrite Es. cbn [mbind outcome_bind]. rewrite <- Lp.
  destruct (top_k_spec probs (Z.to_nat (Z.min k (Z.of_nat (length probs)))) Up ltac:(lia)) as (ids & Ei & _ & _ & R & _). rewrite Ei. cbn [mbind outcome_bind].
  destruct (entries_spec impl probs ids R) as [(rows & Ee & M & FR)|[Ee L]]; rewrite Ee.
  - left. exists rows. split; [reflexivity|]. exists t, logits, rest, probs. repeat (split; [reflexivity || assumption|]). apply rows_best; try assumption. rewrite M. exact Ei.
  - right. exists out_of_range. split; [reflexivity|]. intros (t' & l' & ? & [= <-] & E & _ & L'). rewrite Er in E. injection E as <- <-. lia.
Qed.

(* ---------------------------------------------------------------- *)
(** ** One inspection *)

(** Every observer told of one event, in order. *)
Definition told (p : QualityInspectionPresenter) (ev : inspection_event) : list (nat * inspection_event) :=
  map (fun i => (i, ev)) (seq 0 (length (observers_ p))).

(** An observer that never throws. *)
Definition quiet (o : Observer) : Prop := forall ev, o ev = None.

Lemma notify_quiet p ev : Forall quiet (observers_ p) -> notifyAll p ev = (told p ev, None).
Proof.
  unfold notifyAll, told. generalize 0%nat as i. induction (observers_ p) as [|o l IH]; intros i F; [reflexivity|].
  apply Forall_cons in F as [Q F]. cbn [notify_from length seq map]. rewrite Q, IH by exact F. reflexivity.
Qed.

Lemma failed_quiet p path e state c calls : Forall quiet (observers_ p) ->
  inspection_failed p path e state c calls = Ret (state, c, (calls ++ told p (onInspectionFailed path e))%list, None).
Proof. intros Q. unfold inspection_failed. rewrite notify_quiet by exact Q. reflexivity. Qed.

(** Loading ends with a classifier or an error, and does nothing when there
    is one already. *)
Lemma ensure_spec host state c : exists state' c' r, ensureSessionLoaded host state c = (state', c', r) /\
  (r = None -> exists impl, pluginImpl_ c' = Some impl) /\
  (forall impl, pluginImpl_ c = Some impl -> state' = state /\ c' = c /\ r = None).
Proof.
  unfold ensureSessionLoaded. destruct (pluginImpl_ c) as [impl|] eqn:E; [do 3 eexists; split; [reflexivity|]; split; [eauto|auto]|].
  destruct (ensurePluginLoaded host state) as [s [e|]]; [do 3 eexists; split; [reflexivity|]; split; discriminate|].
  destruct (negb _); [do 3 eexists; split; [reflexivity|]; split; discriminate|].
  do 3 eexists. split; [reflexivity|]. cbn [pluginImpl_]. split; [|discriminate]. destruct (create_onnx_classifier _ _ _); [eauto|discriminate].
Qed.

(** The classifier is loaded, or loads in this inspection. *)
Definition loads (host : Host) (state : PluginState) (c : OnnxImageClassifier) (impl : OnnxClassifierImpl) : Prop :=
  exists state' c', ensureSessionLoaded host state c = (state', c', None) /\ pluginImpl_ c' = Some impl.

Lemma facade_spec host state c image k : (forall impl, loads host state c impl -> tame host impl image) ->
  good_image image -> tolerable image -> 1 <= k ->
  exists state' c' r, classifyTopK host state c image k = (state', c', r) /\
    (forall impl, pluginImpl_ c = Some impl -> state' = state /\ c' = c) /\
    ((exists rows impl, r = Ret rows /\ pluginImpl_ c' = Some impl /\ answered host impl image k rows) \/
     (exists e, r = Throw e /\ forall impl, loads host state c impl -> ~ answerable host impl image)).
Proof.
  intros N G T Hk. unfold classifyTopK, loads. destruct (ensure_spec host state c) as (s1 & c1 & r & Eload & Hr & Hsame). rewrite Eload. destruct r as [e|].
  - exists s1, c1, (Throw e). split; [reflexivity|]. split; [intros impl Ei; destruct (Hsame impl Ei) as (_ & _ & [=])|].
    right. exists e. split; [reflexivity|]. intros impl (s2 & c2 & [=] & _).
  - destruct (Hr eq_refl) as [impl Ei]. rewrite Ei.
    exists s1, c1, (impl_classifyTopK host impl image k). split; [reflexivity|]. split; [intros i0 E0; destruct (Hsame i0 E0) as (-> & -> & _); split; reflexivity|].
    assert (NI : tame host impl image) by (apply N; exists s1, c1; auto).
    destruct (classify_spec host impl image k NI G T Hk) as [(rows & -> & A)|(e & -> & NA)]; [left; exists rows, impl; auto|].
    right. exists e. split; [reflexivity|]. intros i0 (s2 & c2 & [= <- <-] & E0). rewrite Ei in E0. injection E0 as <-. exact NA.
Qed.

(** What the presenter reports of an inspection with rows, or with an
    error. *)
Definition result_of (path : string) (ev : inspection_event) : Prop :=
  (exists vm, ev = onInspectionCompleted vm /\ sourcePath vm = path) \/ (exists e, ev = onInspectionFailed path e).

(** The presenter over observers that do not throw: one event at the start and
    one at the end, unless something below it is undefined. *)
Lemma presenter_answers host p path state c : Forall quiet (observers_ p) ->
  inspectFile host p path state c = Undef \/
  exists state' c' result,
    inspectFile host p path state c = Ret (state', c', (told p (onInspectionStarted path) ++ told p result)%list, None) /\
    (forall impl, pluginImpl_ c = Some impl -> state' = state /\ c' = c) /\ result_of path result.
Proof.
  intros Q. unfold inspectFile, result_of. rewrite notify_quiet by exact Q. destruct (decodeFile host path) as [image|e|]; [| |left; reflexivity].
  2:{ right. rewrite failed_quiet by exact Q. eexists state, c, _. split; [reflexivity|]. eauto. }
  unfold classifyTopK. destruct (ensure_spec host state c) as (s1 & c1 & r & -> & _ & Hsame).
  assert (K : forall impl, pluginImpl_ c = Some impl -> s1 = state /\ c1 = c) by (intros impl Ei; destruct (Hsame impl Ei) as (-> & -> & _); auto).
  assert (F : forall e, exists state' c' result,
    inspection_failed p path e s1 c1 (told p (onInspectionStarted path)) = Ret (state', c', (told p (onInspectionStarted path) ++ told p result)%list, None) /\
    (forall impl, pluginImpl_ c = Some impl -> state' = state /\ c' = c) /\
    ((exists vm, result = onInspectionCompleted vm /\ sourcePath vm = path) \/ (exists e, result = onInspectionFailed path e))).
  { intros e. rewrite failed_quiet by exact Q. eexists s1, c1, _. split; [reflexivity|]. eauto. }
  destruct r as [e|]; [right; apply F|]. destruct (pluginImpl_ c1) as [impl|]; [|left; reflexivity].
  destruct (impl_classifyTopK host impl image (topK_ p)) as [rows|e|]; [|right; apply F|left; reflexivity].
  right. rewrite notify_quiet by exact Q. eexists s1, c1, _. split; [reflexivity|]. split; [exact K|]. left. eexists. split; reflexivity.
Qed.

(** With a network that answers finite numbers the result is the right one. *)
Lemma tame_inspection host p path state c :
  decoder_ok host -> Forall quiet (observers_ p) -> 1 <= topK_ p ->
  (forall image, decodeFile host path = Ret image -> tolerable image) ->
  (forall image impl, decodeFile host path = Ret image -> loads host state c impl -> tame host impl image) ->
  exists state' c' result,
    inspectFile host p path state c = Ret (state', c', (told p (onInspectionStarted path) ++ told p result)%list, None) /\
    ((exists vm image impl, result = onInspectionCompleted vm /\ sourcePath vm = path /\ decodeFile host path = Ret image /\
        pluginImpl_ c' = Some impl /\ answered host impl image (topK_ p) (results vm)) \/
     (exists e, result = onInspectionFailed path e /\
        forall image impl, decodeFile host path = Ret image -> loads host state c impl -> ~ answerable host impl image)).
Proof.
  intros D Q Hk T N. unfold inspectFile. rewrite notify_quiet by exact Q. pose proof (decodeFile_defined host path D) as DD.
  destruct (decodeFile host path) as [image|e|] eqn:Ed; [| |congruence].
  - destruct (facade_spec host state c image (topK_ p) (fun impl => N image impl eq_refl) (decode_good host path image D Ed) (T image eq_refl) Hk)
      as (s1 & c1 & r & -> & _ & [(rows & impl & -> & Ei & A)|(e & -> & NA)]).
    + rewrite notify_quiet by exact Q. eexists s1, c1, _. split; [reflexivity|]. left. eexists _, image, impl. split; [reflexivity|].
      repeat (split; [reflexivity|]). split; [exact Ei|exact A].
    + rewrite failed_quiet by exact Q. eexists s1, c1, _. split; [reflexivity|]. right. exists e. split; [reflexivity|].
      intros image' impl [= <-]. apply NA.
  - rewrite failed_quiet by exact Q. eexists state, c, _. split; [reflexivity|]. right. exists e. split; [reflexivity|]. discriminate.
Qed.


(** A plugin without its second entry point is remembered by its first: from
    then on the load is skipped and every inspection fails. *)
Lemma half_loaded_stuck host state c : createFn state = true -> destroyFn state = false -> pluginImpl_ c = None ->
  ensureSessionLoaded host state c = (state, c, Some runtime_error).
Proof. intros Hc Hd Hp. unfold ensureSessionLoaded, ensurePluginLoaded. rewrite Hp, Hc. cbn [createFn destroyFn]. rewrite Hc, Hd. reflexivity. Qed.
End inspection.

(* ------------------------------------------------------------------ *)
(** ** A concrete host *)

(** Insertion sort by a comparison. *)
Fixpoint place (c : Z -> Z -> bool) (x : Z) (l : list Z) : list Z :=
  match l with
  | [] => [x]
  | y :: l' => if c y x then y :: place c x l' else x :: l
  end.
Definition insertion_sort (c : Z -> Z -> bool) (l : list Z) : list Z := foldr (place c) [] l.

Lemma place_perm c x l : place c x l ≡ₚ x :: l.
Proof. induction l as [|y l IH]; [reflexivity|]. cbn. destruct (c y x); [rewrite IH; apply Permutation_swap|reflexivity]. Qed.

Lemma insertion_perm c l : insertion_sort c l ≡ₚ l.
Proof. induction l as [|x l IH]; [reflexivity|]. cbn. rewrite place_perm, IH. reflexivity. Qed.

Definition no_later_better (c : Z -> Z -> bool) : list Z -> Prop := StronglySorted (fun a b => c b a = false).

Lemma place_sorted c x l : strict_weak c (x :: l) -> no_later_better c l -> no_later_better c (place c x l).
Proof.
  intros [A N]. induction l as [|y l IH]; intros HS; [repeat constructor|]. apply StronglySorted_inv in HS as [HS F]. cbn. destruct (c y x) eqn:E.
  - constructor.
    + apply IH; [intros a b Ha Hb; apply A; set_solver|intros a b d Ha Hb Hd; apply N; set_solver|exact HS].
    + rewrite place_perm. constructor; [apply A; [set_solver|set_solver|exact E]|exact F].
  - constructor; [constructor; assumption|]. constructor; [exact E|]. rewrite Forall_forall in F |- *. intros z Hz.
    apply (N z y x); [set_solver|set_solver|set_solver|apply F, Hz|exact E].
Qed.

Lemma insertion_sorted c l : strict_weak c l -> no_later_better c (insertion_sort c l).
Proof.
  induction l as [|x l IH]; intros [A N]; [constructor|]. change (insertion_sort c (x :: l)) with (place c x (insertion_sort c l)).
  assert (P : x :: insertion_sort c l ≡ₚ x :: l) by (rewrite insertion_perm; reflexivity). apply place_sorted.
  - split; [intros a b Ha Hb; apply A|intros a b d Ha Hb Hd; apply N]; rewrite <- P; assumption.
  - apply IH. split; [intros a b Ha Hb; apply A; set_solver|intros a b d Ha Hb Hd; apply N; set_solver].
Qed.

Lemma sorted_lookup {A} (R : A -> A -> Prop) l i j a b : StronglySorted R l -> (i < j)%nat -> l !! i = Some a -> l !! j = Some b -> R a b.
Proof.
  intros HS. revert i j. induction HS as [|x l HS IH F]; intros i j Hij Ha Hb; [discriminate|]. destruct j as [|j]; [lia|]. destruct i as [|i]; cbn in *.
  - injection Ha as ->. eapply Forall_lookup_1; eassumption.
  - apply (IH i j); [lia|assumption|assumption].
Qed.

Definition step_exp (a : float32) : float32 := if f32_eqb a (S754_zero false) then one else if is_nan a then S754_nan else S754_zero false.

#[export] Program Instance demo_algorithms : Algorithms := { exp32 := step_exp; partial_sort c l _ := insertion_sort c l }.
Next Obligation. intros []; reflexivity. Qed.
Next Obligation.
  intros a Ha _. unfold step_exp. destruct (f32_eqb _ _); [destruct one_units as [F ->]; split; [exact F|lia]|]. rewrite Ha. split; [exact I|cbn; lia].
Qed.
Next Obligation. intros c l k. apply insertion_perm. Qed.
Next Obligation. intros c l k i j a b SW _ Hij Ha Hb. exact (sorted_lookup _ _ i j a b (insertion_sorted c l SW) Hij Ha Hb). Qed.

Definition demo_host (answer : list float32) (symbols : string -> bool) : Host unit unit := {|
  exists_ _ := true;
  read_text _ := Some (String "t"%char (String "010"%char "shark"));
  stbi_load _ := Some (1, 1, [10; 20; 30]);
  stbi_load_from_memory _ _ := None;
  dl_open _ := Some tt;
  dl_sym _ name := symbols name;
  ort_open _ := Some tt;
  ort_run _ _ _ := Some [answer];
  clock_start := 0;
  clock_end := 7000000 |}.

Definition fresh_classifier : OnnxImageClassifier unit := {| modelPath_ := "model.onnx"; labelsPath_ := "labels.txt"; pluginImpl_ := None; pluginDestroy_ := false; name_ := "ONNX (model.onnx)" |}.
Definition one_observer (o : Observer) : QualityInspectionPresenter := {| observers_ := [o]; topK_ := 5 |}.

(** The demonstration host keeps the contracts. *)
Lemma demo_decoder answer symbols : decoder_ok unit unit (demo_host answer symbols).
Proof. intros path w h raw [= <- <- <-]. repeat split; try lia; bytes_lit. Qed.

Lemma demo_network symbols impl image : tame unit unit (demo_host [f32_of_Z 1; f32_of_Z 0] symbols) impl image.
Proof.
  intros t logits rest _ [= <- <-] _. split; [|cbn; lia].
  repeat constructor; vm_compute; congruence.
Qed.

Lemma demo_tolerable answer symbols path image : decodeFile unit unit (demo_host answer symbols) path = Ret image -> image = one_pixel /\ tolerable image.
Proof. cbn. intros [= <-]. split; [reflexivity|]. split; cbn; lia. Qed.


(* ------------------------------------------------------------------ *)
(** ** What the comments promise and the code does not do *)

Definition demo_impl : OnnxClassifierImpl unit := {| labels_ := ["t"; "shark"]; ort_ := tt; impl_name_ := "ONNX plugin (model.onnx)" |}.
Definition loaded_plugin : PluginState unit := {| handle := Some tt; createFn := true; destroyFn := true |}.
Definition loaded_classifier : OnnxImageClassifier unit :=
  {| modelPath_ := "model.onnx"; labelsPath_ := "labels.txt"; pluginImpl_ := Some demo_impl; pluginDestroy_ := true; name_ := "ONNX (model.onnx)" |}.

(** An inspection on the demonstration host is the selection from the
    network's answer. *)
Lemma demo_inspection answer p rows :
  (2 <= length answer)%nat -> 1 <= topK_ p ->
  (probs ← softmax answer; ids ← topKIndices probs (Z.to_nat (Z.min (topK_ p) (Z.of_nat (length answer)))); entries unit demo_impl probs ids) = Ret rows ->
  notifyAll p (onInspectionStarted "part.png") = (told p (onInspectionStarted "part.png"), None) ->
  let vm := {| sourcePath := "part.png"; results := rows; latency := 7 |} in
  inspectFile unit unit (demo_host answer (fun _ => true)) p "part.png" (no_plugin unit) fresh_classifier =
    let '(completed, thrown) := notifyAll p (onInspectionCompleted vm) in
    match thrown with
    | None => Ret (loaded_plugin, loaded_classifier, (told p (onInspectionStarted "part.png") ++ completed)%list, None)
    | Some e => inspection_failed unit unit p "part.png" e loaded_plugin loaded_classifier (told p (onInspectionStarted "part.png") ++ completed)%list
    end.
Proof.
  intros L Hk E Hn vm. destruct (apply_tensor one_pixel) as (_ & _ & t & _ & _ & _ & Et & _); [constructor; cbn; try lia; try reflexivity; bytes_lit|split; cbn; lia|].
  unfold inspectFile. rewrite Hn. change (decodeFile unit unit (demo_host answer (fun _ => true)) "part.png") with (Ret one_pixel).
  assert (C : classifyTopK unit unit (demo_host answer (fun _ => true)) (no_plugin unit) fresh_classifier one_pixel (topK_ p) = (loaded_plugin, loaded_classifier, Ret rows)).
  { unfold classifyTopK. change (ensureSessionLoaded unit unit (demo_host answer (fun _ => true)) (no_plugin unit) fresh_classifier) with (loaded_plugin, loaded_classifier, @None exn).
    cbn [pluginImpl_ loaded_classifier]. f_equal. unfold impl_classifyTopK. replace (topK_ p <=? 0) with false by lia. rewrite Et. cbn [mbind outcome_bind ort_run demo_host].
    replace (length answer <? kMinLogitCount)%nat with false by (symmetry; apply Nat.ltb_ge; exact L). exact E. }
  cbv beta iota zeta. rewrite C. reflexivity.
Qed.

(** An inspection whose network overflows completes with probabilities that
    are no numbers; one that asks for more classes than there are gets fewer,
    without an error; an observer that throws when told of completion is told
    of failure as well; a plugin without its destroy function is taken as
    loaded from the second inspection on. *)
Theorem inspection_gaps_refuted :
  (exists s c vm, inspectFile unit unit (demo_host [S754_infinity false; f32_of_Z 0] (fun _ => true)) (one_observer (fun _ => None)) "part.png" (no_plugin unit) fresh_classifier =
     Ret (s, c, [(0%nat, onInspectionStarted "part.png"); (0%nat, onInspectionCompleted vm)], None) /\
     Forall (fun r => is_nan (confidence r) = true) (results vm)) /\
  (exists s c vm, inspectFile unit unit (demo_host [f32_of_Z 1; f32_of_Z 0] (fun _ => true)) (one_observer (fun _ => None)) "part.png" (no_plugin unit) fresh_classifier =
     Ret (s, c, [(0%nat, onInspectionStarted "part.png"); (0%nat, onInspectionCompleted vm)], None) /\
     length (results vm) = 2%nat) /\
  (exists s c vm, inspectFile unit unit (demo_host [f32_of_Z 1; f32_of_Z 0] (fun _ => true))
      (one_observer (fun ev => match ev with onInspectionCompleted _ => Some runtime_error | _ => None end)) "part.png" (no_plugin unit) fresh_classifier =
     Ret (s, c, [(0%nat, onInspectionStarted "part.png"); (0%nat, onInspectionCompleted vm); (0%nat, onInspectionFailed "part.png" runtime_error)], None)) /\
  (let host := demo_host [f32_of_Z 1; f32_of_Z 0] (fun name => bool_decide (name = kCreateSymbol)) in
   let first := ensurePluginLoaded unit unit host (no_plugin unit) in
   snd first = Some runtime_error /\ snd (ensurePluginLoaded unit unit host (fst first)) = None /\ destroyFn unit (fst first) = false).
Proof.
  split; [|split; [|split]].
  - eexists _, _, _. split; [erewrite demo_inspection; [reflexivity|cbn; lia|cbn; lia|vm_compute; reflexivity|reflexivity]|repeat constructor].
  - eexists _, _, _. split; [erewrite demo_inspection; [reflexivity|cbn; lia|cbn; lia|vm_compute; reflexivity|reflexivity]|reflexivity].
  - eexists _, _, _. erewrite demo_inspection; [reflexivity|cbn; lia|cbn; lia|vm_compute; reflexivity|reflexivity].
  - split; [reflexivity|]. split; reflexivity.
Qed.
