(* ===== verification/Logging.v ===== *)
(** * Logging (core/LoggerBase.h, core/LoggerImpl.h)

    The loggers, the facade in front of them, and the files they leave: a
    log file that grows past its limit is rotated into a numbered shelf. The
    clock's text is an argument of a call. Files are opened and written
    without I/O errors; someone else may remove one between two calls. *)
From Stdlib Require Import Ascii String.
From stdpp Require Import pretty.
From S2P Require Import Prelude Format.
Local Open Scope string_scope.
Local Open Scope Z_scope.

(* ------------------------------------------------------------------ *)
(** ** Levels and lines (LoggerBase.h) *)

Inductive LogLevel := TRACE | DEBUG | INFO | WARN | ERROR | CRITICAL.

#[export] Instance log_level_eq_dec : EqDecision LogLevel.
Proof. solve_decision. Defined.

Definition level_value (l : LogLevel) : Z :=
  match l with TRACE => 0 | DEBUG => 1 | INFO => 2 | WARN => 3 | ERROR => 4 | CRITICAL => 5 end.

Definition level_geb (a b : LogLevel) : bool := level_value b <=? level_value a.

Definition levelToString (l : LogLevel) : string :=
  match l with TRACE => "TRACE" | DEBUG => "DEBUG" | INFO => "INFO" | WARN => "WARN" | ERROR => "ERROR" | CRITICAL => "CRIT" end.

Definition levelToPaddedString (l : LogLevel) : string :=
  match l with TRACE => "TRACE" | DEBUG => "DEBUG" | INFO => "INFO " | WARN => "WARN " | ERROR => "ERROR" | CRITICAL => "CRIT " end.

Definition parseLogLevel (str : string) : LogLevel :=
  if bool_decide (str = "TRACE") then TRACE
  else if bool_decide (str = "DEBUG") then DEBUG
  else if bool_decide (str = "WARN") then WARN
  else if bool_decide (str = "ERROR") then ERROR
  else if bool_decide (str = "CRITICAL") then CRITICAL
  else INFO.

(** What follows the last slash of either kind. *)
Fixpoint shortFileName (full : string) : string :=
  match full with
  | EmptyString => EmptyString
  | String c rest =>
      if existsb (fun c => Ascii.eqb c "/"%char || Ascii.eqb c "\"%char) (list_ascii_of_string full) then shortFileName rest else full
  end.

(** One call of the logger: the place, the clock's text and the message. *)
Record record := { r_time : string; r_file : string; r_line : Z; r_message : string }.

Definition newline : string := String "010"%char EmptyString.

(** [std::format("{} [{}] {}:{}  {}\n", ...)]. *)
Definition log_line (level : LogLevel) (r : record) : string :=
  r_time r +:+ " [" +:+ levelToPaddedString level +:+ "] " +:+ shortFileName (r_file r) +:+ ":" +:+ to_string (r_line r) +:+ "  " +:+ r_message r +:+ newline.

Definition panel_line (level : LogLevel) (r : record) : string :=
  "[" +:+ r_time r +:+ "] [" +:+ levelToString level +:+ "] " +:+ r_message r.

Example line_example : log_line WARN {| r_time := "08:00:00.000"; r_file := "/src/core/a.cpp"; r_line := 12; r_message := "late" |} =
  "08:00:00.000 [WARN ] a.cpp:12  late" +:+ newline.
Proof. vm_compute. reflexivity. Qed.

(* ------------------------------------------------------------------ *)
(** ** Files *)

(** A file is named by its directory and its name there. *)
Notation path := (string * string)%type.
Notation files := (gmap path string).

(** [rename] replaces its target and throws when there is no source. *)
Definition rename (src dst : path) (fs : files) : files * option exn :=
  match fs !! src with
  | Some text => (<[dst := text]> (delete src fs), None)
  | None => (fs, Some runtime_error)
  end.

(** A name cut before its last dot, unless that is its first character. *)
Fixpoint split_dot (r : list ascii) : option (list ascii * list ascii) :=
  match r with
  | [] => None
  | c :: r' =>
      if Ascii.eqb c "."%char then Some ([c], r')
      else match split_dot r' with Some (e, s) => Some (c :: e, s) | None => None end
  end.

Definition stem_extension (name : string) : string * string :=
  if bool_decide (name = "..") then (name, "")
  else match split_dot (rev (list_ascii_of_string name)) with
       | Some (e, s) => if bool_decide (s = []) then (name, "") else (string_of_list_ascii (rev s), string_of_list_ascii (rev e))
       | None => (name, "")
       end.

Example stems : stem_extension "app.log" = ("app", ".log") /\ stem_extension "app" = ("app", "") /\ stem_extension ".log" = (".log", "") /\
  stem_extension "a.b.log" = ("a.b", ".log").
Proof. vm_compute. auto. Qed.

(* ------------------------------------------------------------------ *)
(** ** Loggers (LoggerImpl.h) *)

Record FileLogger := {
  minLevel_ : LogLevel;
  filePath_ : path;
  maxFileSize_ : Z;
  maxFiles_ : Z;
  currentSize_ : Z;
  file_ : bool }.                        (* is_open *)

Definition set_size (z : Z) (open : bool) (f : FileLogger) : FileLogger :=
  {| minLevel_ := minLevel_ f; filePath_ := filePath_ f; maxFileSize_ := maxFileSize_ f; maxFiles_ := maxFiles_ f; currentSize_ := z; file_ := open |}.

Definition kDefaultMaxFileSize : Z := 5 * 1024 * 1024.
Definition kDefaultMaxFiles : Z := 3.

Definition text_size (s : string) : Z := Z.of_nat (String.length s).

(** The constructor; [opens] is whether the file can be opened. *)
Definition new_FileLogger (opens : bool) (filename : path) (minLevel : LogLevel) (maxFileSize maxFiles : Z) (fs : files) : outcome (files * FileLogger) :=
  if negb opens then Throw runtime_error
  else
    let text := default "" (fs !! filename) in
    Ret (<[filename := text]> fs,
         {| minLevel_ := minLevel; filePath_ := filename; maxFileSize_ := maxFileSize; maxFiles_ := maxFiles; currentSize_ := text_size text; file_ := true |}).

(** The rotated files: stem.1.ext is the latest. *)
Definition rotated (f : FileLogger) (i : Z) : path :=
  let '(dir, name) := filePath_ f in
  let '(stem, ext) := stem_extension name in
  (dir, stem +:+ "." +:+ to_string i +:+ ext).

(** [for (int i = maxFiles_ - 1; i >= 1; --i)]. *)
Fixpoint shift (f : FileLogger) (i : nat) (fs : files) : files * option exn :=
  match i with
  | O => (fs, None)
  | S i' =>
      let src := rotated f (Z.of_nat i) in
      let dst := rotated f (Z.of_nat i + 1) in
      let '(fs, e) := match fs !! src with Some _ => rename src dst fs | None => (fs, None) end in
      match e with Some e => (fs, Some e) | None => shift f i' fs end
  end.

Definition rotate (f : FileLogger) (fs : files) : files * FileLogger * option exn :=
  let closed := set_size (currentSize_ f) false f in
  let fs := delete (rotated f (maxFiles_ f)) fs in
  let '(fs, e) := shift f (Z.to_nat (maxFiles_ f - 1)) fs in
  match e with
  | Some e => (fs, closed, Some e)
  | None =>
      let '(fs, e) := rename (filePath_ f) (rotated f 1) fs in
      match e with
      | Some e => (fs, closed, Some e)
      | None => (<[filePath_ f := ""]> fs, set_size 0 true f, None)
      end
  end.

(** [FileLogger::log]. Writing to a file that was removed leaves nothing. *)
Definition file_log (level : LogLevel) (r : record) (f : FileLogger) (fs : files) : files * FileLogger * option exn :=
  if negb (file_ f) then (fs, f, None)
  else
    let line := log_line level r in
    let fs := alter (fun text => text +:+ line) (filePath_ f) fs in
    let f := set_size (u64 (currentSize_ f + text_size line)) true f in
    if (0 <? maxFileSize_ f) && (maxFileSize_ f <=? currentSize_ f) then rotate f fs else (fs, f, None).

(** The loggers that are not composite. *)
Inductive leaf :=
| ConsoleLogger (minLevel : LogLevel)
| File (f : FileLogger)
| CallbackLogger (has_callback : bool) (minLevel : LogLevel) (writing : bool)
| NullLogger.

Inductive LoggerBase :=
| Leaf (l : leaf)
| CompositeLogger (loggers : list leaf).

(** What they write: the streams, the files, and the log panel. *)
Record world := { cout : list string; cerr : list string; disk : files; panel : list string }.

Definition set_disk (fs : files) (w : world) : world := {| cout := cout w; cerr := cerr w; disk := fs; panel := panel w |}.

(** [CallbackLogger::log] in its two halves, before and after the callback
    runs; another call may come in between, from the callback or from another
    thread. *)
Definition callback_enter (has_callback writing : bool) (level : LogLevel) (r : record) : option string :=
  if negb has_callback || writing then None else Some (panel_line level r).

Definition leaf_log (level : LogLevel) (r : record) (l : leaf) (w : world) : leaf * world * option exn :=
  match l with
  | ConsoleLogger _ =>
      (l, if level_geb level ERROR
          then {| cout := cout w; cerr := (cerr w ++ [log_line level r])%list; disk := disk w; panel := panel w |}
          else {| cout := (cout w ++ [log_line level r])%list; cerr := cerr w; disk := disk w; panel := panel w |}, None)
  | File f => let '(fs, f, e) := file_log level r f (disk w) in (File f, set_disk fs w, e)
  | CallbackLogger has_callback minLevel writing =>
      match callback_enter has_callback writing level r with
      | None => (l, w, None)
      | Some line => (CallbackLogger has_callback minLevel false, {| cout := cout w; cerr := cerr w; disk := disk w; panel := (panel w ++ [line])%list |}, None)
      end
  | NullLogger => (l, w, None)
  end.

Definition leaf_enabled (level : LogLevel) (l : leaf) : bool :=
  match l with
  | ConsoleLogger m | CallbackLogger _ m _ => level_geb level m
  | File f => level_geb level (minLevel_ f)
  | NullLogger => false
  end.

Definition leaf_setLevel (level : LogLevel) (l : leaf) : leaf :=
  match l with
  | ConsoleLogger _ => ConsoleLogger level
  | CallbackLogger c _ writing => CallbackLogger c level writing
  | File f => File {| minLevel_ := level; filePath_ := filePath_ f; maxFileSize_ := maxFileSize_ f; maxFiles_ := maxFiles_ f; currentSize_ := currentSize_ f; file_ := file_ f |}
  | NullLogger => NullLogger
  end.

Definition leaf_shutdown (l : leaf) : leaf :=
  match l with File f => File (set_size (currentSize_ f) false f) | _ => l end.

Fixpoint log_each (level : LogLevel) (r : record) (ls : list leaf) (w : world) : list leaf * world * option exn :=
  match ls with
  | [] => ([], w, None)
  | l :: ls =>
      let '(l, w, e) := leaf_log level r l w in
      match e with
      | Some e => (l :: ls, w, Some e)
      | None => let '(ls, w, e) := log_each level r ls w in (l :: ls, w, e)
      end
  end.

Definition log (level : LogLevel) (r : record) (b : LoggerBase) (w : world) : LoggerBase * world * option exn :=
  match b with
  | Leaf l => let '(l, w, e) := leaf_log level r l w in (Leaf l, w, e)
  | CompositeLogger ls => let '(ls, w, e) := log_each level r ls w in (CompositeLogger ls, w, e)
  end.

Definition isEnabled (level : LogLevel) (b : LoggerBase) : bool :=
  match b with Leaf l => leaf_enabled level l | CompositeLogger ls => existsb (leaf_enabled level) ls end.

Definition setLevel (level : LogLevel) (b : LoggerBase) : LoggerBase :=
  match b with Leaf l => Leaf (leaf_setLevel level l) | CompositeLogger ls => CompositeLogger (map (leaf_setLevel level) ls) end.

Definition shutdown (b : LoggerBase) : LoggerBase :=
  match b with Leaf l => Leaf (leaf_shutdown l) | CompositeLogger ls => CompositeLogger (map leaf_shutdown ls) end.

Definition addLogger (l : leaf) (ls : list leaf) : list leaf := (ls ++ [l])%list.
Definition removeLastLogger (ls : list leaf) : list leaf := removelast ls.

(** [Logger::trace] ... [Logger::critical]. *)
Definition emit (level : LogLevel) (r : record) (b : LoggerBase) (w : world) : LoggerBase * world * option exn :=
  if isEnabled level b then log level r b w else (b, w, None).

(** The factories. *)
Definition createConfiguredLogger (opens : bool) (logFile : path) (levelStr : string) (maxFileSize maxFiles : Z) (consoleEnabled : bool) (w : world)
    : outcome (LoggerBase * world) :=
  let level := parseLogLevel levelStr in
  let composite := if consoleEnabled then addLogger (ConsoleLogger level) [] else [] in
  '(fs, f) ← new_FileLogger opens logFile DEBUG maxFileSize maxFiles (disk w);
  Ret (CompositeLogger (addLogger (File f) composite), set_disk fs w).

Definition createProductionLogger (opens : bool) (filename : path) (w : world) : outcome (LoggerBase * world) :=
  '(fs, f) ← new_FileLogger opens filename DEBUG kDefaultMaxFileSize kDefaultMaxFiles (disk w);
  Ret (CompositeLogger (addLogger (File f) (addLogger (ConsoleLogger INFO) [])), set_disk fs w).

(* ------------------------------------------------------------------ *)
(** ** The shelf of a log file *)

(** What rotation is: a file that reaches the limit goes to the front of a
    shelf of bounded length. *)
Definition shelf : Type := list string * string.

Definition shelf_step (maxSize maxFiles : Z) (s : shelf) (line : string) : shelf :=
  let cur := snd s +:+ line in
  if maxSize <=? text_size cur then (take (Z.to_nat maxFiles) (cur :: fst s), "") else (fst s, cur).

Fixpoint joined (l : list string) : string := match l with [] => "" | s :: l => s +:+ joined l end.

(** The text on a shelf, oldest first. *)
Definition on_shelf (s : shelf) : string := joined (rev (fst s)) +:+ snd s.

Lemma joined_app a b : joined (a ++ b) = joined a +:+ joined b.
Proof. induction a as [|s a IH]; [reflexivity|]. cbn [app joined]. rewrite IH. apply string_app_assoc. Qed.

Lemma text_size_app a b : text_size (a +:+ b) = text_size a + text_size b.
Proof. unfold text_size. rewrite length_string_app. lia. Qed.

Lemma text_size_nonneg s : 0 <= text_size s.
Proof. unfold text_size. lia. Qed.

(** The files hold a shelf; [start] is the disk outside it. *)
Record kept (start fs : files) (f : FileLogger) (s : shelf) : Prop := {
  k_open : file_ f = true;
  k_current : fs !! filePath_ f = Some (snd s);
  k_size : currentSize_ f = text_size (snd s);
  k_below : text_size (snd s) < maxFileSize_ f;
  k_slots : forall i, 1 <= i <= maxFiles_ f -> fs !! rotated f i = fst s !! Z.to_nat (i - 1);
  k_length : Z.of_nat (length (fst s)) <= maxFiles_ f;
  k_full : Forall (fun c => maxFileSize_ f <= text_size c) (fst s);
  k_frame : forall p, p <> filePath_ f -> (forall i, 1 <= i <= maxFiles_ f -> p <> rotated f i) -> fs !! p = start !! p }.

Lemma stem_extension_join name : fst (stem_extension name) +:+ snd (stem_extension name) = name.
Proof.
  assert (S : forall r e s, split_dot r = Some (e, s) -> r = (e ++ s)%list).
  { induction r as [|c r IH]; intros e s; cbn; [discriminate|]. destruct (Ascii.eqb c "."); [intros [= <- <-]; reflexivity|].
    destruct (split_dot r) as [[e' s']|]; [|discriminate]. intros [= <- <-]. rewrite (IH e' s') by reflexivity. reflexivity. }
  assert (A : forall a b, string_of_list_ascii (a ++ b)%list = string_of_list_ascii a +:+ string_of_list_ascii b).
  { induction a as [|c a IH]; intros b; cbn; [reflexivity|]. rewrite IH. reflexivity. }
  assert (E0 : forall s, s +:+ "" = s) by (induction s as [|c s IH]; [reflexivity|]; exact (f_equal (String c) IH)).
  unfold stem_extension. case_bool_decide; [apply E0|]. destruct (split_dot _) as [[e s]|] eqn:E; [|apply E0]. case_bool_decide; [apply E0|].
  cbn [fst snd]. rewrite <- A, <- rev_app_distr, <- (S _ _ _ E), rev_involutive. apply string_of_list_ascii_of_string.
Qed.

Lemma string_app_inj_l (a b c : string) : a +:+ b = a +:+ c -> b = c.
Proof. induction a as [|x a IH]; cbn; [auto|]. intros [= H]. apply IH, H. Qed.

Lemma string_app_inj_r (a b c : string) : a +:+ c = b +:+ c -> a = b.
Proof.
  assert (N : forall x (s : string), c <> String x s +:+ c).
  { intros x s H. apply (f_equal String.length) in H. rewrite length_string_app in H. cbn in H. lia. }
  revert b. induction a as [|x a IH]; intros [|y b] H; [reflexivity|destruct (N y b H)|destruct (N x a (eq_sym H))|].
  injection H as -> H. f_equal. apply IH, H.
Qed.

Lemma rotated_inj f i j : rotated f i = rotated f j -> i = j.
Proof.
  unfold rotated. destruct (filePath_ f) as [dir name], (stem_extension name) as [stem ext]. intros [= H].
  apply string_app_inj_l, string_app_inj_l, string_app_inj_r in H. unfold to_string in H. apply (inj pretty) in H. exact H.
Qed.

Lemma rotated_other f i : rotated f i <> filePath_ f.
Proof.
  unfold rotated. destruct (filePath_ f) as [dir name]. pose proof (stem_extension_join name) as J. destruct (stem_extension name) as [stem ext].
  intros [= H]. cbn [fst snd] in J. rewrite <- J in H. apply (f_equal String.length) in H. rewrite !length_string_app in H. cbn in H. lia.
Qed.

Lemma shift_spec f n : forall fs (g : Z -> option string), (forall i, 1 <= i <= Z.of_nat n -> fs !! rotated f i = g i) ->
  fs !! rotated f (Z.of_nat n + 1) = None ->
  exists fs', shift f n fs = (fs', None) /\ fs' !! rotated f 1 = None /\ (forall i, 1 <= i <= Z.of_nat n -> fs' !! rotated f (i + 1) = g i) /\
    (forall p, (forall i, 1 <= i <= Z.of_nat n + 1 -> p <> rotated f i) -> fs' !! p = fs !! p).
Proof.
  induction n as [|n IH]; intros fs g Hg Hn; [exists fs; repeat split; [exact Hn|lia]|]. cbn [shift].
  assert (Hne : forall i j, i <> j -> rotated f i <> rotated f j) by (intros i j Hij E; apply Hij, (rotated_inj f), E).
  assert (K : forall fs1, (forall i, 1 <= i <= Z.of_nat n -> fs1 !! rotated f i = g i) -> fs1 !! rotated f (Z.of_nat n + 1) = None ->
    fs1 !! rotated f (Z.of_nat (S n) + 1) = g (Z.of_nat (S n)) -> (forall p, (forall i, 1 <= i <= Z.of_nat (S n) + 1 -> p <> rotated f i) -> fs1 !! p = fs !! p) ->
    exists fs', shift f n fs1 = (fs', None) /\ fs' !! rotated f 1 = None /\ (forall i, 1 <= i <= Z.of_nat (S n) -> fs' !! rotated f (i + 1) = g i) /\
      (forall p, (forall i, 1 <= i <= Z.of_nat (S n) + 1 -> p <> rotated f i) -> fs' !! p = fs !! p)).
  { intros fs1 H1 H2 H3 H4. destruct (IH fs1 g H1 H2) as (fs' & E & F1 & F2 & F3). exists fs'. split; [exact E|]. split; [exact F1|]. split.
    - intros i Hi. destruct (decide (i = Z.of_nat (S n))) as [->|]; [|apply F2; lia]. rewrite F3; [exact H3|]. intros j Hj. apply Hne. lia.
    - intros p Hp. rewrite F3; [apply H4, Hp|]. intros i Hi. apply Hp. lia. }
  pose proof (Hg (Z.of_nat (S n)) ltac:(lia)) as Hs. destruct (fs !! rotated f (Z.of_nat (S n))) as [t|] eqn:Et.
  - unfold rename. rewrite Et. cbv beta iota zeta. apply K.
    + intros i Hi. rewrite lookup_insert_ne by (apply Hne; lia). rewrite lookup_delete_ne by (apply Hne; lia). apply Hg. lia.
    + rewrite lookup_insert_ne by (apply Hne; lia). replace (Z.of_nat n + 1) with (Z.of_nat (S n)) by lia. apply lookup_delete_eq.
    + rewrite <- Hs. apply lookup_insert_eq.
    + intros p Hp. rewrite lookup_insert_ne by (apply not_eq_sym, Hp; lia). rewrite lookup_delete_ne by (apply not_eq_sym, Hp; lia). reflexivity.
  - apply K; [intros i Hi; apply Hg; lia|replace (Z.of_nat n + 1) with (Z.of_nat (S n)) by lia; exact Et|rewrite Hn; exact Hs|reflexivity].
Qed.

(** The parameters that calls do not change. *)
Definition same_log (f f' : FileLogger) : Prop :=
  filePath_ f' = filePath_ f /\ maxFileSize_ f' = maxFileSize_ f /\ maxFiles_ f' = maxFiles_ f /\ minLevel_ f' = minLevel_ f.

Lemma rotate_kept start fs f s cur : kept start fs f s -> 1 <= maxFiles_ f -> 0 < maxFileSize_ f -> maxFileSize_ f <= text_size cur ->
  exists fs', rotate f (<[filePath_ f := cur]> fs) = (fs', set_size 0 true f, None) /\
    kept start fs' (set_size 0 true f) (take (Z.to_nat (maxFiles_ f)) (cur :: fst s), "").
Proof.
  intros K H1 H0 Hc. destruct K as [K1 K2 K3 K4 K5 K6 K7 K8].
  assert (Hne : forall i j, i <> j -> rotated f i <> rotated f j) by (intros i j Hij E; apply Hij, (rotated_inj f), E).
  assert (Ho : forall i, filePath_ f <> rotated f i) by (intros i E; apply (rotated_other f i), eq_sym, E).
  set (fs1 := <[filePath_ f := cur]> fs). set (fs2 := delete (rotated f (maxFiles_ f)) fs1).
  destruct (shift_spec f (Z.to_nat (maxFiles_ f - 1)) fs2 (fun i => fst s !! Z.to_nat (i - 1))) as (fs3 & E & F1 & F2 & F3).
  { intros i Hi. unfold fs2, fs1. rewrite lookup_delete_ne by (apply Hne; lia). rewrite lookup_insert_ne by apply Ho. apply K5. lia. }
  { unfold fs2. replace (Z.of_nat (Z.to_nat (maxFiles_ f - 1)) + 1) with (maxFiles_ f) by lia. apply lookup_delete_eq. }
  assert (C3 : fs3 !! filePath_ f = Some cur).
  { rewrite F3 by (intros i _; apply Ho). unfold fs2, fs1. rewrite lookup_delete_ne by (apply rotated_other). apply lookup_insert_eq. }
  unfold rotate. fold fs2. rewrite E. unfold rename. rewrite C3. eexists. split; [reflexivity|].
  constructor; cbn [file_ filePath_ currentSize_ maxFileSize_ maxFiles_ set_size fst snd]; try (reflexivity || (unfold text_size; cbn; lia)).
  - apply lookup_insert_eq.
  - intros i Hi. change (rotated (set_size 0 true f) i) with (rotated f i). rewrite lookup_insert_ne by apply Ho. rewrite lookup_take_lt by lia.
    destruct (decide (i = 1)) as [->|N]; [rewrite lookup_insert_eq; reflexivity|]. rewrite lookup_insert_ne by (apply Hne; lia). rewrite lookup_delete_ne by apply Ho.
    specialize (F2 (i - 1) ltac:(lia)). replace (i - 1 + 1) with i in F2 by lia. rewrite F2. replace (Z.to_nat (i - 1)) with (S (Z.to_nat (i - 1 - 1))) by lia. reflexivity.
  - rewrite length_take. cbn [length]. lia.
  - apply Forall_take. constructor; [exact Hc|exact K7].
  - intros p Hp Hr. change (rotated (set_size 0 true f)) with (rotated f) in Hr. rewrite lookup_insert_ne by (apply not_eq_sym, Hp).
    rewrite lookup_insert_ne by (apply not_eq_sym, Hr; lia). rewrite lookup_delete_ne by (apply not_eq_sym, Hp).
    rewrite F3 by (intros i Hi; apply Hr; lia). unfold fs2, fs1. rewrite lookup_delete_ne by (apply not_eq_sym, Hr; lia). rewrite lookup_insert_ne by (apply not_eq_sym, Hp). apply K8; assumption.
Qed.

Lemma shift_size z o f n : forall fs, shift (set_size z o f) n fs = shift f n fs.
Proof.
  induction n as [|n IH]; intros fs; [reflexivity|]. cbn [shift]. change (rotated (set_size z o f)) with (rotated f).
  destruct (match fs !! _ with Some _ => _ | None => _ end) as [fs' [e|]]; [reflexivity|apply IH].
Qed.

(** The size counted does not matter to a rotation. *)
Lemma rotate_size z f fs fs' : rotate f fs = (fs', set_size 0 true f, None) -> rotate (set_size z true f) fs = (fs', set_size 0 true f, None).
Proof.
  unfold rotate. change (rotated (set_size z true f)) with (rotated f). cbn [maxFiles_ filePath_ set_size]. rewrite shift_size.
  destruct (shift f _ _) as [fs3 [e|]]; [discriminate|]. destruct (rename _ _ _) as [fs4 [e|]]; [discriminate|]. intros [= <-]. reflexivity.
Qed.

Lemma log_kept start fs f s level r : kept start fs f s -> 1 <= maxFiles_ f -> 0 < maxFileSize_ f ->
  maxFileSize_ f + text_size (log_line level r) < 18446744073709551616 ->
  exists fs' f', file_log level r f fs = (fs', f', None) /\ same_log f f' /\
    kept start fs' f' (shelf_step (maxFileSize_ f) (maxFiles_ f) s (log_line level r)).
Proof.
  intros K H1 H0 Hl. pose proof K as K'. destruct K' as [K1 K2 K3 K4 K5 K6 K7 K8]. unfold file_log. rewrite K1. cbn [negb].
  set (line := log_line level r) in *. set (cur := snd s +:+ line). pose proof (text_size_nonneg (snd s)). pose proof (text_size_nonneg line).
  assert (EA : alter (fun text => text +:+ line) (filePath_ f) fs = <[filePath_ f := cur]> fs) by (apply alter_insert_Some || (rewrite <- (insert_id fs _ _ K2) at 1; rewrite alter_insert_eq; reflexivity)).
  rewrite EA, K3, u64_id, <- text_size_app by lia. fold cur. unfold shelf_step. fold cur. cbn [currentSize_ maxFileSize_ set_size]. replace (0 <? maxFileSize_ f) with true by lia. cbn [andb].
  assert (Ho : forall i, filePath_ f <> rotated f i) by (intros i E; apply (rotated_other f i), eq_sym, E).
  set (f1 := set_size (text_size cur) true f). destruct (maxFileSize_ f <=? text_size cur) eqn:E.
  - destruct (rotate_kept start fs f s cur K H1 H0 ltac:(lia)) as (fs' & ER & KR). exists fs', (set_size 0 true f). split; [|split; [repeat split|exact KR]].
    apply rotate_size, ER.
  - exists (<[filePath_ f := cur]> fs), f1. split; [reflexivity|]. split; [repeat split|].
    constructor; cbn [file_ filePath_ currentSize_ maxFileSize_ maxFiles_ f1 set_size fst snd]; try assumption; try reflexivity; try lia.
    + apply lookup_insert_eq.
    + intros i Hi. change (rotated (set_size (text_size cur) true f) i) with (rotated f i). rewrite lookup_insert_ne by apply Ho. apply K5, Hi.
    + intros p Hp Hr. rewrite lookup_insert_ne by (apply not_eq_sym, Hp). apply K8; [exact Hp|exact Hr].
Qed.

(* ------------------------------------------------------------------ *)
(** ** What a shelf keeps *)

Lemma string_app_nil_r (s : string) : s +:+ "" = s.
Proof. induction s as [|c s IH]; [reflexivity|]. exact (f_equal (String c) IH). Qed.

Lemma joined_size l : text_size (joined l) = fold_right (fun s z => text_size s + z) 0 l.
Proof. induction l as [|s l IH]; [reflexivity|]. cbn [joined fold_right]. rewrite text_size_app, IH. reflexivity. Qed.

(** One line: the shelf keeps all, or loses its oldest file and is full. *)
Lemma shelf_step_tail maxSize maxFiles s line : 1 <= maxFiles -> Z.of_nat (length (fst s)) <= maxFiles ->
  let s' := shelf_step maxSize maxFiles s line in
  Z.of_nat (length (fst s')) <= maxFiles /\ (Z.of_nat (length (fst s)) = maxFiles -> Z.of_nat (length (fst s')) = maxFiles) /\
  exists lost, on_shelf s +:+ line = lost +:+ on_shelf s' /\ (lost = "" \/ Z.of_nat (length (fst s')) = maxFiles).
Proof.
  intros H1 HL. destruct s as [cs cur]. cbn [fst snd] in *. cbv zeta. unfold shelf_step. cbn [fst snd]. destruct (maxSize <=? text_size (cur +:+ line)).
  - cbn [fst]. rewrite length_take. cbn [length]. split; [lia|]. split; [lia|]. unfold on_shelf. cbn [fst snd]. rewrite string_app_nil_r, <- string_app_assoc.
    destruct (decide (Z.of_nat (length cs) = maxFiles)) as [E|E].
    + destruct (Z.to_nat maxFiles) as [|n] eqn:En; [lia|]. cbn [take].
      destruct (exists_last (l := cs)) as (front & oldest & ->); [intros ->; cbn in E; lia|]. rewrite length_app in E. cbn in E.
      rewrite take_app_le, take_ge by lia. rewrite rev_app_distr. cbn [rev app joined]. rewrite joined_app. cbn [joined]. rewrite string_app_nil_r.
      exists oldest. rewrite <- !string_app_assoc. split; [reflexivity|]. right. rewrite length_app. cbn [length]. lia.
    + exists "". rewrite take_ge by (cbn [length]; lia). cbn [rev]. rewrite joined_app. cbn [joined]. rewrite string_app_nil_r. split; [reflexivity|left; reflexivity].
  - cbn [fst snd]. split; [exact HL|]. split; [auto|]. exists "". split; [|left; reflexivity]. unfold on_shelf. cbn [fst snd]. rewrite <- string_app_assoc. reflexivity.
Qed.

Lemma shelf_run_tail maxSize maxFiles lines : 1 <= maxFiles -> forall s, Z.of_nat (length (fst s)) <= maxFiles ->
  let s' := fold_left (shelf_step maxSize maxFiles) lines s in
  exists lost, on_shelf s +:+ joined lines = lost +:+ on_shelf s' /\ (lost = "" \/ Z.of_nat (length (fst s')) = maxFiles) /\
    (Z.of_nat (length (fst s)) = maxFiles -> Z.of_nat (length (fst s')) = maxFiles).
Proof.
  intros H1. induction lines as [|line lines IH]; intros s HL; cbn [fold_left joined]; [exists ""; rewrite string_app_nil_r; split; [reflexivity|auto]|].
  destruct (shelf_step_tail maxSize maxFiles s line H1 HL) as (L1 & F1 & lost1 & E1 & C1). set (s1 := shelf_step maxSize maxFiles s line) in *.
  destruct (IH s1 L1) as (lost2 & E2 & C2 & F2). exists (lost1 +:+ lost2). rewrite string_app_assoc, E1, <- string_app_assoc, E2, string_app_assoc. split; [reflexivity|]. split; [|auto].
  destruct C1 as [->|C1]; [|right; apply F2, C1]. destruct C2 as [->|C2]; [left; reflexivity|right; exact C2].
Qed.

(** No file on the shelf outgrows the limit by more than a line. *)
Lemma shelf_run_bound maxSize maxFiles L lines : Forall (fun l => text_size l <= L) lines -> 0 < maxSize -> forall s,
  text_size (snd s) < maxSize -> Forall (fun c => text_size c < maxSize + L) (fst s) ->
  let s' := fold_left (shelf_step maxSize maxFiles) lines s in
  text_size (snd s') < maxSize /\ Forall (fun c => text_size c < maxSize + L) (fst s').
Proof.
  intros F H0. induction F as [|line lines HL _ IH]; intros s Hc Hs; cbn [fold_left]; [split; assumption|].
  apply IH; unfold shelf_step; pose proof (text_size_app (snd s) line) as A; destruct (maxSize <=? text_size (snd s +:+ line)) eqn:E; cbn [fst snd]; try (unfold text_size in *; cbn; lia); try assumption.
  apply Forall_take. constructor; [lia|exact Hs].
Qed.

(** Many full files hold many bytes. *)
Lemma full_size maxSize l : Forall (fun c => maxSize <= text_size c) l -> Z.of_nat (length l) * maxSize <= text_size (joined (rev l)).
Proof.
  intros F. apply List.Forall_rev in F. rewrite <- (List.length_rev l). revert F. generalize (List.rev l). intros l' F.
  induction F as [|c l'' Hc _ IH]; [reflexivity|]. cbn [joined length]. rewrite text_size_app. lia.
Qed.

(* ------------------------------------------------------------------ *)
(** ** The configured logger *)

(** The calls made of a logger, until one throws. *)
Fixpoint run_log (calls : list (LogLevel * record)) (b : LoggerBase) (w : world) : LoggerBase * world * option exn :=
  match calls with
  | [] => (b, w, None)
  | (level, r) :: calls =>
      let '(b, w, e) := emit level r b w in
      match e with Some e => (b, w, Some e) | None => run_log calls b w end
  end.

(** What the facade lets through. *)
Definition passes (console : option LogLevel) (level : LogLevel) : bool :=
  match console with Some m => level_geb level m || level_geb level DEBUG | None => level_geb level DEBUG end.

Definition line_of (call : LogLevel * record) : string := log_line (fst call) (snd call).

Definition passed (console : option LogLevel) (calls : list (LogLevel * record)) : list (LogLevel * record) :=
  List.filter (fun call => passes console (fst call)) calls.

(** The composite of [createConfiguredLogger]. *)
Definition configured (console : option LogLevel) (f : FileLogger) : LoggerBase :=
  CompositeLogger (match console with Some m => [ConsoleLogger m; File f] | None => [File f] end).

Definition errors_of (calls : list (LogLevel * record)) : list (LogLevel * record) := List.filter (fun call => level_geb (fst call) ERROR) calls.
Definition others_of (calls : list (LogLevel * record)) : list (LogLevel * record) := List.filter (fun call => negb (level_geb (fst call) ERROR)) calls.

(** What the console shows: everything that passes, errors apart. *)
Definition shown (console : option LogLevel) (calls : list (LogLevel * record)) (w : world) : list string * list string :=
  match console with
  | Some _ => (cout w ++ map line_of (others_of (passed console calls)), cerr w ++ map line_of (errors_of (passed console calls)))%list
  | None => (cout w, cerr w)
  end.

Lemma run_log_spec start console calls : forall f s w,
  minLevel_ f = DEBUG -> kept start (disk w) f s -> 1 <= maxFiles_ f -> 0 < maxFileSize_ f ->
  Forall (fun call => maxFileSize_ f + text_size (line_of call) < 18446744073709551616) calls ->
  exists f' w', run_log calls (configured console f) w = (configured console f', w', None) /\ same_log f f' /\
    kept start (disk w') f' (fold_left (shelf_step (maxFileSize_ f) (maxFiles_ f)) (map line_of (passed console calls)) s) /\
    (cout w', cerr w') = shown console calls w /\ panel w' = panel w.
Proof.
  induction calls as [|[level r] calls IH]; intros f s w Hm K H1 H0 F.
  { exists f, w. split; [reflexivity|]. split; [repeat split|]. split; [exact K|]. split; [|reflexivity]. destruct console; cbn; rewrite ?app_nil_r; reflexivity. }
  apply Forall_cons in F as [Fl F]. unfold line_of in Fl. cbn [fst snd] in Fl. cbn [run_log]. unfold emit.
  replace (isEnabled level (configured console f)) with (passes console level) by (destruct console; cbn; rewrite Hm, ?orb_false_r; reflexivity).
  unfold passed in *. cbn [List.filter fst]. destruct (passes console level) eqn:P.
  - destruct (log_kept start (disk w) f s level r K H1 H0 Fl) as (fs' & f1 & E & (S1 & S2 & S3 & S4) & K1).
    set (w0 := match console with Some _ => snd (fst (leaf_log level r (ConsoleLogger INFO) w)) | None => w end).
    assert (D0 : disk w0 = disk w) by (unfold w0; destruct console; [cbn; destruct (level_geb level ERROR)|]; reflexivity).
    assert (E1 : log level r (configured console f) w = (configured console f1, set_disk fs' w0, None)).
    { unfold w0 in *. destruct console; cbn [configured log log_each leaf_log fst snd] in *; [destruct (level_geb level ERROR); cbn [disk]|]; rewrite E; reflexivity. }
    rewrite E1. destruct (IH f1 (shelf_step (maxFileSize_ f) (maxFiles_ f) s (log_line level r)) (set_disk fs' w0)) as (f' & w' & E2 & (T1 & T2 & T3 & T4) & K2 & Sh & Pn);
      [congruence|exact K1|lia|lia|rewrite S2; exact F|].
    exists f', w'. rewrite E2. split; [reflexivity|]. split; [repeat split; congruence|]. split; [cbn [map fold_left]; rewrite S2, S3 in K2; exact K2|]. split; [|rewrite Pn; unfold w0; destruct console; [cbn; destruct (level_geb level ERROR)|]; reflexivity].
    rewrite Sh. unfold shown, w0, passed, others_of, errors_of. destruct console as [m|]; [|reflexivity]. cbn [List.filter fst]. rewrite P. cbn [leaf_log fst snd List.filter map].
    destruct (level_geb level ERROR); cbn [negb set_disk cout cerr map]; rewrite <- !app_assoc; reflexivity.
  - destruct (IH f s w Hm K H1 H0 F) as (f' & w' & E2 & S & K2 & Sh & Pn). exists f', w'. split; [exact E2|]. split; [exact S|]. split; [exact K2|]. split; [|exact Pn].
    rewrite Sh. unfold shown, passed. destruct console; [|reflexivity]. cbn [List.filter fst]. rewrite P. reflexivity.
Qed.

(** A disk that already holds a shelf of the log, as an earlier run left it
    (or nothing at all). *)
Record shelved (fs : files) (f : FileLogger) (L : Z) (s : shelf) : Prop := {
  sh_current : default "" (fs !! filePath_ f) = snd s;
  sh_below : text_size (snd s) < maxFileSize_ f;
  sh_slots : forall i, 1 <= i <= maxFiles_ f -> fs !! rotated f i = fst s !! Z.to_nat (i - 1);
  sh_length : Z.of_nat (length (fst s)) <= maxFiles_ f;
  sh_full : Forall (fun c => maxFileSize_ f <= text_size c < maxFileSize_ f + L) (fst s) }.

(** The file logger the configuration asks for. *)
Definition file_logger (logFile : path) (maxSize maxFiles : Z) (s : shelf) : FileLogger :=
  {| minLevel_ := DEBUG; filePath_ := logFile; maxFileSize_ := maxSize; maxFiles_ := maxFiles; currentSize_ := text_size (snd s); file_ := true |}.

Definition console_level (consoleEnabled : bool) (levelStr : string) : option LogLevel :=
  if consoleEnabled then Some (parseLogLevel levelStr) else None.

Lemma created_kept logFile levelStr maxSize maxFiles consoleEnabled w L s :
  shelved (disk w) (file_logger logFile maxSize maxFiles s) L s ->
  exists w0, createConfiguredLogger true logFile levelStr maxSize maxFiles consoleEnabled w =
      Ret (configured (console_level consoleEnabled levelStr) (file_logger logFile maxSize maxFiles s), w0) /\
    kept (disk w) (disk w0) (file_logger logFile maxSize maxFiles s) s /\ cout w0 = cout w /\ cerr w0 = cerr w.
Proof.
  intros [C B Sl Le Fu]. cbn [filePath_ file_logger maxFileSize_ maxFiles_] in *.
  unfold createConfiguredLogger, new_FileLogger. cbn [negb mbind outcome_bind]. rewrite C. eexists. split; [destruct consoleEnabled; reflexivity|].
  split; [|split; reflexivity]. constructor; cbn [filePath_ file_logger maxFileSize_ maxFiles_ currentSize_ file_ disk set_disk]; try assumption; try reflexivity.
  - apply lookup_insert_eq.
  - intros i Hi. rewrite lookup_insert_ne; [apply Sl, Hi|]. intros E. exact (rotated_other (file_logger logFile maxSize maxFiles s) i (eq_sym E)).
  - eapply Forall_impl; [exact Fu|]. intros c Hc. cbn in Hc. lia.
  - intros p Hp _. apply lookup_insert_ne, not_eq_sym, Hp.
Qed.

(** C33: The log files hold the end of everything logged: started on any disk
    whose log files an earlier run of the same configuration left, and for
    any sequence of calls, no call throws; every record the facade lets
    through is written, in order and whole, to the current file, which is
    rotated when it reaches the limit; the rotated files and the current one,
    oldest first, are the text that was there followed by the new lines, less
    at most some of the oldest text, and none of it unless the files keep at
    least the configured number times the configured size. No file exceeds
    the limit by more than a line, no other file of the disk changes, and the
    console shows the same lines, errors on the error stream. *)
Theorem log_files_keep_tail logFile levelStr maxSize maxFiles consoleEnabled w L s0 calls :
  let f0 := file_logger logFile maxSize maxFiles s0 in
  let console := console_level consoleEnabled levelStr in
  let lines := map line_of (passed console calls) in
  1 <= maxFiles -> 0 < maxSize -> maxSize + L < 18446744073709551616 ->
  shelved (disk w) f0 L s0 -> Forall (fun call => text_size (line_of call) <= L) calls ->
  exists b0 w0 b w' s,
    createConfiguredLogger true logFile levelStr maxSize maxFiles consoleEnabled w = Ret (b0, w0) /\
    run_log calls b0 w0 = (b, w', None) /\
    disk w' !! logFile = Some (snd s) /\ (forall i, 1 <= i <= maxFiles -> disk w' !! rotated f0 i = fst s !! Z.to_nat (i - 1)) /\
    (exists lost, on_shelf s0 +:+ joined lines = lost +:+ on_shelf s /\ (lost = "" \/ maxFiles * maxSize <= text_size (on_shelf s))) /\
    text_size (snd s) < maxSize /\ Forall (fun c => text_size c < maxSize + L) (fst s) /\ Z.of_nat (length (fst s)) <= maxFiles /\
    (forall p, p <> logFile -> (forall i, 1 <= i <= maxFiles -> p <> rotated f0 i) -> disk w' !! p = disk w !! p) /\
    (cout w', cerr w') = shown console calls w.
Proof.
  intros f0 console lines H1 H0 HL Sh FL. destruct (created_kept logFile levelStr maxSize maxFiles consoleEnabled w L s0 Sh) as (w0 & E0 & K0 & Ec & Ee).
  assert (F64 : Forall (fun call => maxFileSize_ f0 + text_size (line_of call) < 18446744073709551616) calls) by (eapply Forall_impl; [exact FL|]; cbn; lia).
  destruct (run_log_spec (disk w) console calls f0 s0 w0 eq_refl K0 H1 H0 F64) as (f' & w' & E & (S1 & S2 & S3 & S4) & K & Sw & _).
  fold lines in K. cbn [maxFileSize_ maxFiles_ filePath_ f0 file_logger] in *. set (s := fold_left (shelf_step maxSize maxFiles) lines s0) in *.
  destruct K as [_ K2 _ K4 K5 K6 K7 K8]. rewrite S1, S2, S3 in *.
  assert (R : forall i, rotated f' i = rotated f0 i) by (intros i; unfold rotated; rewrite S1; reflexivity).
  eexists _, w0, _, w', s. split; [exact E0|]. split; [exact E|]. split; [exact K2|]. split; [intros i Hi; rewrite <- R; apply K5, Hi|]. split.
  { destruct (shelf_run_tail maxSize maxFiles lines H1 s0 (sh_length _ _ _ _ Sh)) as (lost & El & Cl & _). exists lost. split; [exact El|]. fold s in Cl.
    destruct Cl as [Cl|Cl]; [left; exact Cl|right]. unfold on_shelf. rewrite text_size_app. pose proof (full_size maxSize (fst s) K7). pose proof (text_size_nonneg (snd s)). lia. }
  split; [exact K4|]. split.
  { apply (shelf_run_bound maxSize maxFiles L lines); [|exact H0|apply Sh|eapply Forall_impl; [apply Sh|cbn; lia]].
    unfold lines. apply Forall_map, List.Forall_forall. intros call Hc. apply List.filter_In in Hc as [Hc _]. apply (proj1 (List.Forall_forall _ _) FL call Hc). }
  split; [exact K6|]. split; [intros p Hp Hr; apply K8; [exact Hp|intros i Hi; rewrite R; apply Hr, Hi]|].
  rewrite Sw. unfold shown. rewrite Ec, Ee. reflexivity.
Qed.

(* ------------------------------------------------------------------ *)
(** ** Runs *)

Definition tick (msg : string) : record := {| r_time := "08:00:00.000"; r_file := "/src/core/a.cpp"; r_line := 7; r_message := msg |}.
Definition quiet_world : world := {| cout := []; cerr := []; disk := ∅; panel := [] |}.

(** Lines of about 35 bytes in files of 60: two fill a file, which goes to the
    shelf, and the third starts a new one. *)
Example rotation :
  match createConfiguredLogger true ("logs", "app.log") "INFO" 60 2 false quiet_world with
  | Ret (b, w) =>
      let '(_, w, e) := run_log [(INFO, tick "one"); (DEBUG, tick "two"); (TRACE, tick "not logged"); (ERROR, tick "six")] b w in
      e = None /\ disk w !! ("logs", "app.log") = Some ("08:00:00.000 [ERROR] a.cpp:7  six" +:+ newline) /\
      disk w !! ("logs", "app.1.log") = Some ("08:00:00.000 [INFO ] a.cpp:7  one" +:+ newline +:+ "08:00:00.000 [DEBUG] a.cpp:7  two" +:+ newline) /\
      disk w !! ("logs", "app.2.log") = None
  | _ => False
  end.
Proof. vm_compute. repeat split. Qed.

Lemma log_files_keep_tail_witness :
  let f0 := file_logger ("logs", "app.log") 60 2 ([], "") in
  shelved (disk quiet_world) f0 40 ([], "") /\
  exists b0 w0 b w', createConfiguredLogger true ("logs", "app.log") "INFO" 60 2 true quiet_world = Ret (b0, w0) /\
    run_log [(INFO, tick "one"); (ERROR, tick "two"); (WARN, tick "six")] b0 w0 = (b, w', None).
Proof.
  cbv zeta. set (calls := [(INFO, tick "one"); (ERROR, tick "two"); (WARN, tick "six")]).
  assert (S : shelved (disk quiet_world) (file_logger ("logs", "app.log") 60 2 ([], "")) 40 ([], "")).
  { constructor; [reflexivity|reflexivity| |cbn; lia|constructor]. intros i Hi. cbn [fst]. rewrite lookup_nil. apply lookup_empty. }
  split; [exact S|].
  destruct (log_files_keep_tail ("logs", "app.log") "INFO" 60 2 true quiet_world 40 ([], "") calls) as (b0 & w0 & b & w' & s & E0 & E & _);
    [lia|lia|lia|exact S|repeat constructor; vm_compute; congruence|]. exists b0, w0, b, w'. split; [exact E0|exact E].
Defined.

(** The level of the console is not its own: with the console at ERROR and
    the file at DEBUG, a DEBUG record is printed. A log file that someone
    removed makes the call that reaches the limit throw, and leaves the
    logger closed for good. A record that comes while the panel's callback
    runs is lost. A limit of zero never rotates. *)
Theorem logging_gaps_refuted :
  (match createConfiguredLogger true ("", "app.log") "ERROR" 1000 3 true quiet_world with
   | Ret (b0, w0) => cout (snd (fst (run_log [(DEBUG, tick "detail")] b0 w0))) = [line_of (DEBUG, tick "detail")]
   | _ => False
   end) /\
  (exists f, snd (file_log INFO (tick "one") (file_logger ("", "app.log") 20 3 ([], "")) ∅) = Some runtime_error /\
     snd (fst (file_log INFO (tick "one") (file_logger ("", "app.log") 20 3 ([], "")) ∅)) = f /\
     forall level r fs, file_log level r f fs = (fs, f, None)) /\
  (forall level r, callback_enter true true level r = None) /\
  (forall level r f fs, file_ f = true -> maxFileSize_ f = 0 -> fst (fst (file_log level r f fs)) = alter (fun text => text +:+ log_line level r) (filePath_ f) fs).
Proof.
  split; [vm_compute; reflexivity|]. split; [|split].
  - exists (set_size 34 false (file_logger ("", "app.log") 20 3 ([], ""))). split; [vm_compute; reflexivity|]. split; [vm_compute; reflexivity|]. reflexivity.
  - reflexivity.
  - intros level r f fs Ho H0. unfold file_log. rewrite Ho. cbn [negb maxFileSize_ set_size]. rewrite H0. reflexivity.
Qed.
