(* ===== verification/Avatar.v ===== *)
(** * The placeholder avatar (auth/AvatarPlaceholder.h, .cpp)

    The initials and the colour of an account without a picture. *)
From Stdlib Require Import Ascii String.
From S2P Require Import Prelude Format Auth.
Local Open Scope Z_scope.

Record AvatarColor := { red : Z; green : Z; blue : Z }.

Definition rgb (r g b : Z) : AvatarColor := {| red := r; green := g; blue := b |}.

Definition kAvatarPalette : list AvatarColor :=
  [rgb 0x1F 0x6F 0xEB; rgb 0x2D 0xA4 0x4E; rgb 0xBF 0x37 0x89; rgb 0xCF 0x22 0x2E;
   rgb 0x9A 0x6A 0x00; rgb 0x6E 0x40 0xC9; rgb 0x0A 0x88 0x7E; rgb 0xD9 0x73 0x4E].

Definition toUpper (c : ascii) : ascii := if is_lower c then ascii_of_N (N_of_ascii c - 32) else c.

(** The first letter of a word, if it has one, after what is there. *)
Fixpoint appendFirstLetterUpper (word out : chars) : chars :=
  match word with
  | [] => out
  | c :: word => if is_alpha c then out ++ [toUpper c] else appendFirstLetterUpper word out
  end.

(** The loop of [initialsFromWords] on what is left of the text. *)
Fixpoint words_loop (fuel : nat) (text : chars) (taken : Z) (out : chars) : chars :=
  match fuel with
  | O => out
  | S fuel =>
      if negb (bool_decide (text = [])) && (taken <? 2) then
        let '(_, text) := span isspace text in
        let '(word, text) := span (fun c => negb (isspace c)) text in
        if bool_decide (word = []) then words_loop fuel text taken out
        else words_loop fuel text (taken + 1) (appendFirstLetterUpper word out)
      else out
  end.

Definition initialsFromWords (text : chars) : chars := words_loop (S (length text)) text 0 [].

(** [break] once two letters are there. *)
Fixpoint token_loop (token out : chars) : chars :=
  match token with
  | [] => out
  | c :: token =>
      if is_alpha c then
        let out := out ++ [toUpper c] in
        if 2 <=? Z.of_nat (length out) then out else token_loop token out
      else token_loop token out
  end.

Definition initialsFromSingleToken (token : chars) : chars := token_loop token [].

Definition containsWhitespace (s : chars) : bool := existsb isspace s.

Definition computeInitials (displayName username : chars) : chars :=
  let words := if negb (bool_decide (displayName = [])) && containsWhitespace displayName then initialsFromWords displayName else [] in
  if negb (bool_decide (words = [])) then words
  else
    let out := if bool_decide (displayName = []) then [] else initialsFromSingleToken displayName in
    if negb (bool_decide (out = [])) then out
    else
      let out := if bool_decide (username = []) then [] else initialsFromSingleToken username in
      if negb (bool_decide (out = [])) then out else ["?"%char].

Definition kOffset : Z := 0x811C9DC5.
Definition kPrime : Z := 0x01000193.

Fixpoint fnv1a (h : Z) (username : chars) : Z :=
  match username with
  | [] => h
  | c :: username => fnv1a (u32 (Z.lxor h (code (to_lower c)) * kPrime)) username
  end.

Definition pickPaletteColor (username : chars) : outcome AvatarColor :=
  match kAvatarPalette !! Z.to_nat (fnv1a kOffset username `mod` Z.of_nat (length kAvatarPalette)) with
  | Some c => Ret c
  | None => Undef
  end.

(* ------------------------------------------------------------------ *)
(** ** What they are *)

(** The words of a text: its maximal runs without white space. *)
Fixpoint words (text : chars) : list chars :=
  match text with
  | [] => []
  | c :: text =>
      if isspace c then words text
      else
        let joins := match text with c' :: _ => negb (isspace c') | [] => false end in
        match words text with
        | w :: ws => if joins then (c :: w) :: ws else [c] :: w :: ws
        | [] => [[c]]
        end
  end.

Definition letters (text : chars) : chars := map toUpper (List.filter is_alpha text).

(** The first of the candidates that has a letter. *)
Fixpoint first_nonempty (l : list chars) : chars :=
  match l with
  | [] => ["?"%char]
  | c :: l => if bool_decide (c = []) then first_nonempty l else c
  end.

Definition initials_spec (displayName username : chars) : chars :=
  first_nonempty
    [if containsWhitespace displayName then concat (map (fun w => take 1 (letters w)) (take 2 (words displayName))) else [];
     take 2 (letters displayName); take 2 (letters username)].

Lemma append_first word : forall out, appendFirstLetterUpper word out = out ++ take 1 (letters word).
Proof.
  induction word as [|c word IH]; intros out; unfold letters; cbn; [symmetry; apply app_nil_r|].
  destruct (is_alpha c); [reflexivity|apply IH].
Qed.

Lemma token_letters token : forall out, (length out < 2)%nat -> token_loop token out = out ++ take (2 - length out) (letters token).
Proof.
  induction token as [|c token IH]; intros out Hl; unfold letters; cbn [token_loop List.filter map].
  { rewrite take_nil, app_nil_r. reflexivity. }
  destruct (is_alpha c); [|apply IH, Hl]. cbn [map].
  destruct (2 <=? Z.of_nat (length (out ++ [toUpper c]))) eqn:E; rewrite length_app in E; cbn [length] in E.
  - apply Z.leb_le in E. assert (length out = 1%nat) as -> by lia. reflexivity.
  - apply Z.leb_gt in E. assert (length out = 0%nat) as L0 by lia. rewrite IH by (rewrite length_app, L0; cbn; lia). rewrite length_app, <- app_assoc. cbn [length].
    rewrite L0. reflexivity.
Qed.

Lemma span_length p l : (length (snd (span p l)) <= length l)%nat.
Proof. induction l as [|c l IH]; cbn; [lia|]. destruct (p c); [|cbn; lia]. destruct (span p l). cbn in *. lia. Qed.

Lemma words_skip text : words (snd (span isspace text)) = words text.
Proof. induction text as [|c text IH]; cbn; [reflexivity|]. destruct (isspace c) eqn:E; [destruct (span isspace text); exact IH|cbn; rewrite E; reflexivity]. Qed.

Lemma skipped_head text : match snd (span isspace text) with [] => True | c :: _ => isspace c = false end.
Proof. induction text as [|c text IH]; cbn; [exact I|]. destruct (isspace c) eqn:E; [destruct (span isspace text); exact IH|exact E]. Qed.

(** A text that starts with a word is the word and the words after it. *)
Lemma words_first c text : isspace c = false ->
  let '(w, rest) := span (fun c => negb (isspace c)) text in words (c :: text) = (c :: w) :: words rest.
Proof.
  revert c. induction text as [|c' text IH]; intros c E; cbn [span].
  { cbn. rewrite E. reflexivity. }
  destruct (isspace c') eqn:E'; cbn [negb].
  - cbn [words]. rewrite E, E'. destruct (words text); reflexivity.
  - specialize (IH c' E'). destruct (span (fun c => negb (isspace c)) text) as [w rest]. cbn [words] in *. rewrite E. rewrite E' in *. rewrite IH. reflexivity.
Qed.

Lemma words_loop_spec fuel : forall text taken out, (length text < fuel)%nat -> 0 <= taken <= 2 ->
  words_loop fuel text taken out = out ++ concat (map (fun w => take 1 (letters w)) (take (Z.to_nat (2 - taken)) (words text))).
Proof.
  induction fuel as [|fuel IH]; intros text taken out Hf Ht; [lia|]. cbn [words_loop].
  case_bool_decide as Hne; cbn [negb andb]; [subst text; cbn; rewrite take_nil, app_nil_r; reflexivity|].
  destruct (taken <? 2) eqn:E; [apply Z.ltb_lt in E|apply Z.ltb_ge in E; replace (Z.to_nat (2 - taken)) with O by lia; cbn; rewrite app_nil_r; reflexivity].
  pose proof (span_length isspace text) as L1. rewrite <- (words_skip text). pose proof (skipped_head text) as H.
  destruct (span isspace text) as [sp text1]. cbn [snd] in *. destruct text1 as [|c text1].
  { cbn. destruct fuel; cbn; rewrite take_nil, app_nil_r; reflexivity. }
  cbn [span]. rewrite H. cbn [negb]. pose proof (words_first c text1 H) as W. pose proof (span_length (fun c => negb (isspace c)) text1) as L2.
  destruct (span (fun c => negb (isspace c)) text1) as [w rest]. cbn [bool_decide snd length] in *. rewrite W.
  rewrite bool_decide_eq_false_2 by discriminate. rewrite IH by lia. rewrite append_first, <- app_assoc.
  replace (Z.to_nat (2 - taken)) with (S (Z.to_nat (2 - (taken + 1)))) by lia. reflexivity.
Qed.

Lemma fnv_lower username : forall h, fnv1a h (map to_lower username) = fnv1a h username.
Proof. induction username as [|c username IH]; intros h; cbn; [reflexivity|]. rewrite to_lower_idem. apply IH. Qed.

Lemma upper_letter c : is_alpha c = true -> is_upper (toUpper c) = true.
Proof. revert c. assert (A : forall n, (n < 256)%nat -> is_alpha (ascii_of_nat n) = true -> is_upper (toUpper (ascii_of_nat n)) = true).
  { intros n Hn. assert (B : forallb (fun n => implb (is_alpha (ascii_of_nat n)) (is_upper (toUpper (ascii_of_nat n)))) (seq 0 256) = true) by (vm_compute; reflexivity).
    rewrite List.forallb_forall in B. specialize (B n ltac:(apply List.in_seq; lia)). destruct (is_alpha (ascii_of_nat n)); [exact (fun _ => B)|discriminate]. }
  intros c. rewrite <- (ascii_nat_embedding c). apply A, nat_ascii_bounded.
Qed.

Lemma letters_upper text : Forall (fun c => is_upper c = true) (letters text).
Proof. apply Forall_map, List.Forall_forall. intros c Hc. apply List.filter_In in Hc as [_ Hc]. apply upper_letter, Hc. Qed.

Lemma two_words_short (f : chars -> chars) l : (forall w, (length (f w) <= 1)%nat) -> (length (concat (map f (take 2 l))) <= 2)%nat.
Proof.
  intros O1. destruct l as [|a [|b l]]; cbn [take map concat]; rewrite ?take_0; cbn [map concat]; rewrite ?app_nil_r, ?length_app; [cbn; lia|pose proof (O1 a); lia|pose proof (O1 a); pose proof (O1 b); lia].
Qed.

Lemma first_nonempty_cases (P : chars -> Prop) l : P ["?"%char] -> Forall (fun c => c = [] \/ P c) l -> P (first_nonempty l).
Proof.
  intros H0 F. induction F as [|c l [->|Hc] _ IH]; cbn; [exact H0|exact IH|]. case_bool_decide; [exact IH|exact Hc].
Qed.

(** What a badge shows: one or two capitals, or a question mark. *)
Definition badge_text (t : chars) : Prop :=
  t = ["?"%char] \/ (1 <= length t <= 2)%nat /\ Forall (fun c => is_upper c = true) t.

Lemma badge_candidate t : (length t <= 2)%nat -> Forall (fun c => is_upper c = true) t -> t = [] \/ badge_text t.
Proof. intros Hl F. destruct t as [|c t]; [left; reflexivity|right; right]. split; [cbn in *; lia|exact F]. Qed.

(** Every account has a badge: one or two capital letters taken from the first
    two words of the display name, or else from its letters, or else from
    those of the username, and a question mark when there are none; and a
    colour of the palette, the same for every spelling of the username in
    either case. *)
Theorem avatar_meaning displayName username :
  computeInitials displayName username = initials_spec displayName username /\
  badge_text (computeInitials displayName username) /\
  (exists color, pickPaletteColor username = Ret color /\ In color kAvatarPalette) /\
  pickPaletteColor (map to_lower username) = pickPaletteColor username.
Proof.
  assert (E : computeInitials displayName username = initials_spec displayName username).
  { assert (T : forall s : chars, (if bool_decide (s = []) then [] else initialsFromSingleToken s) = take 2 (letters s))
      by (intros s; case_bool_decide; [subst s; reflexivity|unfold initialsFromSingleToken; rewrite token_letters by (cbn; lia); reflexivity]).
    unfold computeInitials, initials_spec, initialsFromWords. rewrite !T, words_loop_spec by (cbn; lia). cbn [first_nonempty app]. change (Z.to_nat (2 - 0)) with 2%nat.
    replace (negb (bool_decide (displayName = [])) && containsWhitespace displayName) with (containsWhitespace displayName) by (case_bool_decide; [subst; reflexivity|reflexivity]).
    repeat (case_bool_decide; cbn [negb]; try reflexivity; try (exfalso; match goal with A : _ = [], B : _ <> [] |- _ => exact (B A) end)). }
  split; [exact E|]. split; [|split].
  - rewrite E. unfold initials_spec. apply first_nonempty_cases; [left; reflexivity|].
    repeat (apply Forall_cons; split); try apply Forall_nil, I; try (apply badge_candidate; [rewrite length_take; lia|apply Forall_take, letters_upper]).
    destruct (containsWhitespace displayName); [|left; reflexivity]. apply badge_candidate; [apply two_words_short; intros w; rewrite length_take; lia|].
    apply Forall_concat, Forall_map, List.Forall_forall. intros w _. apply Forall_take, letters_upper.
  - unfold pickPaletteColor. pose proof (Z.mod_pos_bound (fnv1a kOffset username) (Z.of_nat (length kAvatarPalette)) ltac:(cbn; lia)) as B.
    destruct (lookup_lt_is_Some_2 kAvatarPalette (Z.to_nat (fnv1a kOffset username `mod` Z.of_nat (length kAvatarPalette)))) as [c Hc]; [lia|].
    rewrite Hc. exists c. split; [reflexivity|]. apply list_elem_of_In, list_elem_of_lookup. eauto.
  - unfold pickPaletteColor. rewrite fnv_lower. reflexivity.
Qed.

(** A display name of one word is used before the username, and the colours
    of short names differ. *)
Theorem avatar_single_word_refuted :
  computeInitials (list_ascii_of_string "Bob") (list_ascii_of_string "admin") = list_ascii_of_string "BO" /\
  computeInitials (list_ascii_of_string "Alice Bloomberg") (list_ascii_of_string "alice") = list_ascii_of_string "AB" /\
  computeInitials [] (list_ascii_of_string "u_42") = list_ascii_of_string "U" /\
  pickPaletteColor (list_ascii_of_string "Alice") = pickPaletteColor (list_ascii_of_string "alice").
Proof. vm_compute. repeat split. Qed.
